(* ===== verification/_CoqProject ===== *)
-Q . S2P
Prelude.v
Ring.v
ByteSource.v
Streams.v
Base64.v
JsonWrite.v
JsonRead.v
JsonReadSpec.v
JsonRoundTrip.v
JsonTmp.v
JsonBinary.v
JsonObject.v
OutputBuf.v
Wire.v
InputBuf.v
InputBufSpec.v
InputBufScan.v
InputBufDone.v
InputBufRead.v
ChannelTcp.v
ChannelIn.v
ChannelOut.v
Transport.v
ChannelClose.v
Events.v
EventsSpec.v
EventsOps.v
EventsRun.v
EventsOrder.v
Protocol.v
ProtocolTable.v
ProtocolMsg.v
ProtocolSend.v
ProtocolHello.v
ProtocolClose.v
ProtocolRun.v
Errors.v
ErrorsSpec.v
ErrorsRun.v
JsonError.v
JsonErrorSpec.v
Cache.v
CacheSpec.v
SigSets.v
ContextQuery.v
ContextQueryParse.v
ContextQuerySpec.v
StreamsSvc.v
StreamsSpec.v
StreamsInv.v
StreamsRead.v
StreamsLife.v
StreamsOwner.v
StreamsCmd.v
StreamsRun.v
Registers.v
LocPieces.v
Vm.v
VmSpec.v
VmSafe.v
VmRun.v
VmCompile.v
LocExpr.v
LocExprSpec.v
DwarfIo.v
DwarfCfi.v
CfiSpec.v
CfiExec.v
CfiStep.v
CfiRun.v
CfiEntry.v
CfiFde.v
DwarfFrame.v
FrameExpr.v
FrameRow.v
FrameFde.v
FrameIndex.v
FrameInfo.v
