(* ===== verification/Prelude.v ===== *)
(** * A verification library for the TCF agent

    The agent is a C program that gives a debugger access to a target: clients
    send commands over a channel, services handle them and send back replies and
    events, all in one dispatch thread driven by an event queue.  This library
    models parts of its framework and of its services and proves them correct.

    ** The program and the files that model it

    All names of source files are relative to src/agent/tcf.

    - Event queue.  framework/events.c: [post_event], timers, [cancel_event] and
      [run_event_loop].  [Events] holds the nodes and the queues as the linked
      lists of the code, in a shared store; [EventsSpec] has the queues as plain
      lists and counts who owns a node; [EventsOps] has what every operation does to
      the lists; [EventsRun] has the abstract queue and the threads interleaved;
      [EventsOrder] has what follows for the users of the queue.

    - Byte streams.  framework/streams.c: the interfaces of input and output
      streams, and the streams in memory.  [Streams]: the type classes
      [InputStream] and [OutputStream] are the interfaces of streams.h,
      [InputStreamSpec] and [OutputStreamSpec] say what a client may rely on;
      every reader and writer below is proved against them, and the byte array
      streams and the channel are instances.

    - BASE64.  framework/base64.c: [Base64].

    - JSON.  framework/json.c: [JsonWrite] (the writers and their texts),
      [JsonRead] (the readers), [JsonReadSpec] (judgements on readers),
      [JsonRoundTrip] (strings, numbers and booleans), [JsonTmp] (the temporary
      buffer, its growth and release, strings in it, and totality of all the
      readers), [JsonBinary] (binary data in pieces), [JsonObject] (skipping and
      copying any value).

    - Channel.  framework/outputbuf.c ([OutputBuf]: the queue of output
      buffers), framework/inputbuf.c ([InputBuf]: the circular buffer and its two
      decoders; [InputBufSpec], [InputBufScan], [InputBufDone], [InputBufRead]:
      the ring as a list, arriving data, completed reads, reading) and
      framework/channel_tcp.c ([ChannelTcp]: the channel; [ChannelIn],
      [ChannelOut]: the channel as an instance of the two stream interfaces;
      [Transport]: two channels that talk to each other; [ChannelClose]: how a
      channel ends).  [Wire] is the specification of the escape encoding that the
      encoder and both decoders are compared with.  The channel is the owner of
      its input buffer: [InputBufOps] and [InputBufOwner] are the interface.

    - Protocol.  framework/protocol.c, client.c and the notifications of channel.c:
      [Protocol] holds the tables of handlers, the dispatch of messages, remote
      calls and the handshake, over any transport ([ChannelIf]) and any services
      ([Handlers]); [ProtocolTable] has the tables as lists, [ProtocolMsg] what is
      relied on of a channel ([ChannelSpec]) and how a message gets to its handler,
      [ProtocolSend] remote calls, [ProtocolHello] the handshake and [ProtocolClose]
      the end of a channel; [ProtocolRun] shows that the TCP channel is a channel
      of the protocol and has agents over TCP.

    - Errors.  framework/errors.c: [Errors] (the ring of messages, the reports and
      their reference counts, formatting), [ErrorsSpec] (what an error number
      stands for, the invariant), [ErrorsRun] (the operations under any client).
      [JsonError]: errors in messages, [write_errno] and [read_errno] of
      framework/json.c; [JsonErrorSpec]: an error on its way to another agent.

    - Data caches.  framework/cache.c: [Cache] (clients that wait for data and run
      again), [CacheSpec] (clients as transactions).

    - Signal sets.  framework/sigsets.c: [SigSets], both representations, with the
      interface [SigSetOps] and its specification [SigSetSpec].

    - Context queries.  services/contextquery.c: [ContextQuery] (parser and
      matching), [ContextQueryParse] (the parser against a reader of the
      grammar), [ContextQuerySpec] (printing and parsing, meaning on paths).

    - Virtual streams.  services/streamsservice.c: [StreamsSvc] (the whole service:
      streams, their clients, commands, posted events); [StreamsSpec] (the
      circular buffer, on [Ring], which the input buffer of the channel uses as
      well, the abstract streams, messages, reasoning about
      operations), [StreamsInv] (the invariant), [StreamsRead] (readers and added
      data, their clients), [StreamsLife] (clients and streams come and go,
      events), [StreamsOwner] (the owner takes data, clients wait to write),
      [StreamsCmd] (commands), [StreamsRun] (all of them together).

    - Location expressions.  services/vm.c: [Vm] (the interpreter of DWARF byte
      code), [VmSpec] (stack cells and operands), [VmSafe] and [VmRun] (the
      invariant of every operation, what C leaves undefined, termination, encoded
      operands), [VmCompile] (a compiler from expressions and
      its correctness).

    - Registers and locations.  framework/cpudefs.h, cpudefs-ext.h and cpudefs.c:
      [Registers] (register definitions, stack frames, reading and writing
      registers, over the interface [ContextIf] of a context), [LocPieces]
      (values scattered over memory and registers), [LocExpr] (commands of
      location expressions), [LocExprSpec] (the commands as a stack machine).

    - Call frame information.  services/dwarfio.c: [DwarfIo], the section that is
      read, an instance of the sources of bytes of [ByteSource], as the code of
      the DWARF machine is.  services/dwarfframe.c: [DwarfCfi] (pointers, rules
      and instructions up to the row of an address) and [DwarfFrame] (commands,
      linkage tables, the index of a section, the entry point).  [CfiSpec] has the
      instructions and the table they define; [CfiExec], [CfiStep] and
      [CfiRun] show that the execution of encoded instructions makes the rows
      of the table; [CfiEntry] has the encoding of CIEs and FDEs,
      [CfiFde] that they are read.  [FrameExpr] and [FrameRow] show
      that the commands made of a row compute its values, [FrameFde] that for an
      entry, and has an expression that is computed wrongly; [FrameIndex] is about the
      index and the binary search in it, [FrameInfo] about all of it.

    ** How the code is modelled

    C functions are functions of the state monad [M S A] of this file: they
    return an [outcome], which is a value, an error number raised by
    [exception] (the state stays as it was when the error was raised, as with
    setjmp), [Undef] for what C leaves undefined (an access outside of an array, a
    failed assertion, a shift out of range, signed overflow), or [NoFuel] for a
    loop that has used up the fuel of its definition.  A theorem that gives the
    outcome of a function therefore says that it terminates, stays in its
    arrays and breaks no assertion.  Integers are [Z], and each conversion or
    overflow of the code is written out with [wrapu] and [wraps]; the sizes are
    those of the LP64 model.  Arrays are lists accessed with [znth], [mem_read] and
    [mem_write], which fail out of range.  Structs are records with the names of
    the source.  Code outside of the repository or of the component (sockets,
    memory of the target, message handlers, the comparators of a query) is an
    argument, with what is relied on as a named hypothesis: [env_ok], [client_ok],
    and the laws of the stream classes.

    Loops over data take fuel that is computed from their input by [with_fuel] or
    from a length, where that is enough it is proved so: the totality theorems
    ([json_readers_total], [context_query_total], [vm_terminates],
    [compile_correct]) exclude [NoFuel].

    ** What is proved

    - Communication: [channel_transport] (messages arrive as they were sent, for
      any fragmentation by the sockets), [channel_output_symbols] (nothing is
      lost between the buffer, the queue and the socket under any interleaving of
      events), [output_queue_fifo] and [channel_exception].
    - Serialization: the round trips of JSON and BASE64, the totality of the
      readers on any input, [json_object_copied] for values of any shape,
      the temporary buffer.
    - Location expressions: [compile_correct], [vm_step_safe], [vm_terminates],
      [evaluate_location_expression_spec].
    - Stack frames: [get_dwarf_stack_frame_info_correct] (from the bytes of a
      section to commands that compute the registers of the caller),
      [find_row_correct] (execution of frame instructions),
      [expression_adds_frame_address] (what goes wrong).
    - Virtual streams: [streams_refine] (nothing fails, whatever owners and clients
      do; what happens is a run of abstract multicast streams),
      [streams_multicast] (every client reads everything from where it joined),
      [streams_owner_takes].
    - Signal sets: [sigset_refinement] to finite sets, [sigset_equivalence] of the
      two representations.
    - Context queries: [context_query_parsed], [context_query_meaning],
      [context_query_total].
    - Protocol: [protocol_rpc] (a remote call reaches its handler and its reply
      comes back to the caller), [protocol_hello], [protocol_channel_closed],
      [protocol_registry] (the hash tables implement a list of registrations).
    - Errors: [errno_over_the_wire] (an error sent to another agent has the same
      code, text and report there), [message_kept] (how long an error number is
      good for), [reports_counted] (reference counts).
    - Data caches: [cache_refines] (a client sees what it would see if it could
      block), [cache_once] (no client is lost or run twice by a notification).
    - Events: [events_refine] (the linked lists, the free lists and the threads
      implement an abstract queue), and of that queue [events_conserved] (exactly
      once), [events_fifo], [events_timely] and [events_drain].

    ** Configuration

    [ENABLE_OutputQueue], [ENABLE_InputQueue] and [ENABLE_ZeroCopy] are set, as on
    Linux; [ENABLE_FastMemAlloc], [ENABLE_Symbols] and [SERVICE_StackTrace] too;
    channels have no SSL.

    ** Not modelled

    Floating point numbers in JSON (the C library prints and reads them),
    [set_fmt_errno] ([vsnprintf]), [splice_block_stream] and the set up of sockets (system
    calls), the command handlers of the context query service, and the
    components that PROJECT.json lists as such: redirection of channels and
    broadcast groups (protocol.c, channel.c), the
    readers of DWARF entries and of ELF files, the expression service,
    breakpoints and run control, the disassemblers and stack crawlers, and what is
    mostly calls of the operating system. *)
From stdpp Require Export base list numbers strings.
From Stdlib Require Export ZArith Lia Ascii.
From Stdlib Require Import Btauto.

#[global] Open Scope Z_scope.

(** ** C integers

    An integer of width [w] is a [Z]; the conversion to an unsigned or signed
    type of that width is written out with [wrapu] and [wraps]. *)

Definition wrapu (w x : Z) : Z := x mod 2 ^ w.
Definition wraps (w x : Z) : Z := (x + 2 ^ (w - 1)) mod 2 ^ w - 2 ^ (w - 1).

Abbreviation u8 := (wrapu 8).
Abbreviation u16 := (wrapu 16).
Abbreviation u32 := (wrapu 32).
Abbreviation u64 := (wrapu 64).
Abbreviation s8 := (wraps 8).
Abbreviation s16 := (wraps 16).
Abbreviation s32 := (wraps 32).
Abbreviation s64 := (wraps 64).

Definition in_u (w x : Z) : Prop := 0 <= x < 2 ^ w.
Definition in_s (w x : Z) : Prop := - 2 ^ (w - 1) <= x < 2 ^ (w - 1).

Definition is_byte (b : Z) : Prop := 0 <= b < 256.
Abbreviation bytes := (list Z).
Abbreviation is_bytes := (Forall is_byte).

Definition b2z (b : bool) : Z := if b then 1 else 0.

Lemma b2z_range b : 0 <= b2z b <= 1.
Proof. destruct b; simpl; lia. Qed.

(** ** Characters and C strings

    A character is its code; [#"x"] is the literal.  A C string is the list
    of its characters, without the terminating zero. *)

Definition z_of_ascii (a : ascii) : Z := Z.of_N (N_of_ascii a).
Definition ascii_of_z (z : Z) : ascii := ascii_of_N (Z.to_N z).

Declare Scope c_scope.
Delimit Scope c_scope with C.

Notation "'#' c" :=
  (ltac:(let v := eval vm_compute in (z_of_ascii c%char) in exact v))
  (at level 0, c constr at level 0, only parsing) : c_scope.
#[global] Open Scope c_scope.

Fixpoint str (s : string) : bytes :=
  match s with
  | EmptyString => []
  | String a s => z_of_ascii a :: str s
  end.

(** [cstring l] says that [l] can be the content of a C string. *)
Definition cstring (l : bytes) : Prop := Forall (fun b => 0 < b < 256) l.

(** Indexing with a C integer; out of range is [None]. *)
Definition znth {A} (l : list A) (i : Z) : option A :=
  if (0 <=? i) then l !! Z.to_nat i else None.

Definition zlen {A} (l : list A) : Z := Z.of_nat (length l).

Definition ztake {A} (n : Z) (l : list A) : list A := take (Z.to_nat n) l.
Definition zdrop {A} (n : Z) (l : list A) : list A := drop (Z.to_nat n) l.

(** [memcpy] of [src] to offset [i] of the array [dst]: [None] when it would
    write outside of the array. *)
Definition mem_write (dst : bytes) (i : Z) (src : bytes) : option bytes :=
  if (0 <=? i) && (i + zlen src <=? zlen dst)
  then Some (ztake i dst ++ src ++ zdrop (i + zlen src) dst)
  else None.

(** [n] bytes of the array [src] starting at offset [i]. *)
Definition mem_read (src : bytes) (i n : Z) : option bytes :=
  if (0 <=? i) && (0 <=? n) && (i + n <=? zlen src)
  then Some (ztake n (zdrop i src))
  else None.

(** ** Outcomes and the state monad

    [exception(n)] unwinds the stack to the closest trap and keeps every side
    effect performed so far: a computation over a state [S] returns its
    outcome together with the state it reached.  [Undef] stands for what C
    leaves undefined, a failed [assert] included; [NoFuel] is produced only by
    a loop that exhausts the fuel it is given. *)

Inductive outcome (A : Type) : Type :=
| Ok (a : A)
| Exc (error : Z)
| Undef
| NoFuel.
Arguments Ok {A} _.
Arguments Exc {A} _.
Arguments Undef {A}.
Arguments NoFuel {A}.

#[export] Instance outcome_eq_dec {A} `{EqDecision A} : EqDecision (outcome A).
Proof. solve_decision. Defined.

Definition omap_out {A B} (f : A -> B) (o : outcome A) : outcome B :=
  match o with
  | Ok a => Ok (f a)
  | Exc e => Exc e
  | Undef => Undef
  | NoFuel => NoFuel
  end.

Definition M (S A : Type) : Type := S -> outcome A * S.

#[export] Instance M_ret {S} : MRet (M S) := fun _ a s => (Ok a, s).
#[export] Instance M_bind {S} : MBind (M S) := fun A B f m s =>
  match m s with
  | (Ok a, s') => f a s'
  | (Exc e, s') => (Exc e, s')
  | (Undef, s') => (Undef, s')
  | (NoFuel, s') => (NoFuel, s')
  end.

Definition exception {S A} (e : Z) : M S A := fun s => (Exc e, s).
Definition undef {S A} : M S A := fun s => (Undef, s).
Definition nofuel {S A} : M S A := fun s => (NoFuel, s).
Definition get {S} : M S S := fun s => (Ok s, s).
Definition put {S} (s : S) : M S unit := fun _ => (Ok tt, s).
Definition modify {S} (f : S -> S) : M S unit := fun s => (Ok tt, f s).
Definition gets {S A} (f : S -> A) : M S A := fun s => (Ok (f s), s).
Definition assertm {S} (b : bool) : M S unit := if b then mret tt else undef.

(** Error codes of [errors.h] used by the modelled code. *)
Definition STD_ERR_BASE : Z := 131072.
Definition ERR_OTHER : Z := STD_ERR_BASE + 1.
Definition ERR_JSON_SYNTAX : Z := STD_ERR_BASE + 2.
Definition ERR_PROTOCOL : Z := STD_ERR_BASE + 3.
Definition ERR_CHANNEL_CLOSED : Z := STD_ERR_BASE + 5.
Definition ERR_BASE64 : Z := STD_ERR_BASE + 8.
Definition ERR_EOF : Z := STD_ERR_BASE + 9.
Definition ERR_INV_DATA_SIZE : Z := STD_ERR_BASE + 15.
Definition ERR_INV_CONTEXT : Z := STD_ERR_BASE + 16.
Definition ERR_INV_ADDRESS : Z := STD_ERR_BASE + 17.
Definition ERR_INV_DWARF : Z := STD_ERR_BASE + 21.
Definition ERR_UNSUPPORTED : Z := STD_ERR_BASE + 23.
Definition ERR_INV_COMMAND : Z := STD_ERR_BASE + 25.
Definition ERR_CACHE_MISS : Z := STD_ERR_BASE + 27.
Definition ERR_INV_CONT_OBJ : Z := STD_ERR_BASE + 29.

Definition of_option {S A} (o : option A) : M S A :=
  match o with Some a => mret a | None => undef end.

(** ** Integer lemmas *)

Lemma wrapu_small w x : 0 <= x < 2 ^ w -> wrapu w x = x.
Proof. apply Z.mod_small. Qed.

Lemma wrapu_range w x : 0 <= w -> 0 <= wrapu w x < 2 ^ w.
Proof. intros Hw. apply Z.mod_pos_bound. lia. Qed.

Lemma u8_byte b : is_byte b -> u8 b = b.
Proof. intros Hb. apply wrapu_small, Hb. Qed.

Lemma u8_is_byte x : is_byte (u8 x).
Proof. unfold is_byte. pose proof (wrapu_range 8 x). lia. Qed.

Lemma zlen_app {A} (l1 l2 : list A) : zlen (l1 ++ l2) = zlen l1 + zlen l2.
Proof. unfold zlen. rewrite length_app. lia. Qed.

Lemma zlen_cons {A} (x : A) l : zlen (x :: l) = zlen l + 1.
Proof. unfold zlen. simpl. lia. Qed.

Lemma mjoin_cons {A} (x : list A) l : mjoin (x :: l) = x ++ mjoin l.
Proof. done. Qed.

Lemma zlen_nil {A} : zlen (@nil A) = 0.
Proof. done. Qed.

Lemma zlen_nonneg {A} (l : list A) : 0 <= zlen l.
Proof. unfold zlen. lia. Qed.

(** ** Bytes *)

Lemma bytes_singleton b : is_byte b -> is_bytes [b].
Proof. intros Hb. by apply Forall_singleton. Qed.

Lemma bytes_app l1 l2 : is_bytes l1 -> is_bytes l2 -> is_bytes (l1 ++ l2).
Proof. intros. by apply Forall_app. Qed.

Lemma bytes_0 : is_byte 0.
Proof. done. Qed.

Create HintDb bytes.
#[export] Hint Resolve bytes_singleton bytes_app bytes_0 u8_is_byte : bytes.

Lemma list_elem_of_singleton_ne {A} (x y : A) : y <> x -> x ∉ [y].
Proof. intros Hne ->%list_elem_of_singleton. done. Qed.

#[export] Hint Rewrite @zlen_app @zlen_cons @zlen_nil : zlen.

(** [lia] with the lengths of lists computed. *)
Ltac zlia := autorewrite with zlen in *; lia.

Lemma zlen_ztake {A} n (l : list A) : 0 <= n <= zlen l -> zlen (ztake n l) = n.
Proof. unfold zlen, ztake. rewrite length_take. lia. Qed.

Lemma zlen_zdrop {A} n (l : list A) : 0 <= n <= zlen l -> zlen (zdrop n l) = zlen l - n.
Proof. unfold zlen, zdrop. rewrite length_drop. lia. Qed.

Lemma ztake_zdrop {A} n (l : list A) : ztake n l ++ zdrop n l = l.
Proof. apply take_drop. Qed.

Lemma ztake_app_exact {A} n (l k : list A) : n = zlen l -> ztake n (l ++ k) = l.
Proof. intros ->. unfold ztake, zlen. rewrite Nat2Z.id, take_app_length. done. Qed.

Lemma ztake_all {A} n (l : list A) : zlen l <= n -> ztake n l = l.
Proof. intros. unfold ztake, zlen in *. apply take_ge. lia. Qed.

Lemma zdrop_all {A} n (l : list A) : zlen l <= n -> zdrop n l = [].
Proof. intros. unfold zdrop, zlen in *. apply drop_ge. lia. Qed.

Lemma zdrop_0 {A} (l : list A) : zdrop 0 l = l.
Proof. done. Qed.

Lemma mem_write_ok dst i src :
  0 <= i -> i + zlen src <= zlen dst ->
  exists m, mem_write dst i src = Some m /\ zlen m = zlen dst /\
            ztake (i + zlen src) m = ztake i dst ++ src.
Proof.
  intros Hi Hl. unfold mem_write. rewrite !(proj2 (Z.leb_le _ _)) by lia.
  eexists. split; [done|]. pose proof (zlen_nonneg src).
  assert (zlen (ztake i dst) = i) by (apply zlen_ztake; lia).
  split.
  - rewrite !zlen_app, zlen_zdrop by lia. lia.
  - rewrite app_assoc. apply ztake_app_exact. rewrite zlen_app. lia.
Qed.

Lemma mem_read_ok src i n :
  0 <= i -> 0 <= n -> i + n <= zlen src -> mem_read src i n = Some (ztake n (zdrop i src)).
Proof. intros. unfold mem_read. rewrite !(proj2 (Z.leb_le _ _)) by lia. done. Qed.

Lemma bytes_ztake n l : is_bytes l -> is_bytes (ztake n l).
Proof. apply Forall_take. Qed.

Lemma bytes_zdrop n l : is_bytes l -> is_bytes (zdrop n l).
Proof. apply Forall_drop. Qed.
Lemma cstring_bytes l : cstring l -> is_bytes l.
Proof. intros Hl. eapply Forall_impl; [exact Hl|]. unfold is_byte. cbn. lia. Qed.

Lemma str_bytes s : is_bytes (str s).
Proof.
  induction s as [|a s IH]; constructor; [|done]. unfold is_byte, z_of_ascii. pose proof (N_ascii_bounded a). lia.
Qed.
#[export] Hint Resolve bytes_ztake bytes_zdrop : bytes.

(** ** Parts of an array *)

(** The bytes of [m] from [i] to [j]. *)
Definition slice (m : bytes) (i j : Z) : bytes := ztake (j - i) (zdrop i m).

Lemma slice_len m i j : 0 <= i <= j -> j <= zlen m -> zlen (slice m i j) = j - i.
Proof. intros. unfold slice. rewrite zlen_ztake; [done|]. rewrite zlen_zdrop; lia. Qed.

Lemma slice_nil m i : slice m i i = [].
Proof. unfold slice. by rewrite Z.sub_diag. Qed.

Lemma slice_app m i j k : 0 <= i <= j -> j <= k -> slice m i j ++ slice m j k = slice m i k.
Proof.
  intros. unfold slice, ztake, zdrop.
  replace (Z.to_nat (k - i)) with (Z.to_nat (j - i) + Z.to_nat (k - j))%nat by lia.
  rewrite <- take_take_drop, drop_drop. by replace (Z.to_nat i + Z.to_nat (j - i))%nat with (Z.to_nat j) by lia.
Qed.

Lemma slice_znth m i j b l : 0 <= i -> slice m i j = b :: l -> znth m i = Some b.
Proof.
  intros Hi E. unfold slice, znth, ztake, zdrop in *. rewrite (proj2 (Z.leb_le _ _)) by lia.
  apply (f_equal head) in E. cbn in E. rewrite <- E, head_lookup.
  destruct (Z.to_nat (j - i)) eqn:En; [cbn in E; done|].
  rewrite lookup_take by lia. by rewrite lookup_drop, Nat.add_0_r.
Qed.

Lemma slice_drop m i j n : 0 <= i -> 0 <= n -> slice m (i + n) j = zdrop n (slice m i j).
Proof.
  intros. unfold slice, ztake, zdrop. rewrite skipn_firstn_comm, drop_drop. f_equal; [lia|]. f_equal. lia.
Qed.

Lemma slice_all m i : 0 <= i <= zlen m -> slice m i (zlen m) = zdrop i m.
Proof.
  intros. unfold slice. apply ztake_all. rewrite zlen_zdrop; lia.
Qed.

Lemma slice_0 m j : slice m 0 j = ztake j m.
Proof. unfold slice. by rewrite Z.sub_0_r, zdrop_0. Qed.

Lemma slice_cons m i j b : 0 <= i < j -> znth m i = Some b -> slice m i j = b :: slice m (i + 1) j.
Proof.
  intros Hi Hb. rewrite <- (slice_app m i (i + 1) j) by lia. change (b :: ?l) with ([b] ++ l). f_equal.
  unfold slice, znth in *. destruct (0 <=? i); [|done].
  replace (i + 1 - i) with 1 by lia. unfold ztake, zdrop. apply drop_S in Hb. by rewrite Hb.
Qed.

Lemma znth_Some {A} (m : list A) i : 0 <= i < zlen m -> is_Some (znth m i).
Proof.
  intros. unfold znth. replace (0 <=? i) with true by lia.
  apply lookup_lt_is_Some. unfold zlen in *. lia.
Qed.

(** What [memcpy] leaves, and what it writes. *)
Lemma mem_write_slice m i d m' j k : mem_write m i d = Some m' -> 0 <= i ->
  (0 <= j <= k /\ k <= i \/ i + zlen d <= j <= k /\ k <= zlen m) -> slice m' j k = slice m j k.
Proof.
  intros E Hi Hjk. unfold mem_write in E. destruct (_ && _) eqn:EL; [|done]. injection E as <-.
  apply andb_prop in EL as [_ EL%Z.leb_le]. pose proof (zlen_nonneg d).
  assert (HZ : zlen (ztake i m) = i) by (rewrite zlen_ztake; lia).
  assert (HN : length (ztake i m) = Z.to_nat i) by (unfold zlen in HZ; lia).
  unfold slice. destruct Hjk as [[? ?]|[? ?]].
  - unfold ztake, zdrop in *. rewrite drop_app_le by lia. rewrite take_app_le.
    + rewrite skipn_firstn_comm, take_take. f_equal. lia.
    + rewrite length_drop. lia.
  - unfold ztake, zdrop in *. rewrite app_assoc, drop_app_ge.
    + rewrite drop_drop. do 2 f_equal. rewrite length_app. unfold zlen in *. lia.
    + rewrite length_app. unfold zlen in *. lia.
Qed.

Lemma mem_write_here m i d m' : mem_write m i d = Some m' -> 0 <= i ->
  slice m' i (i + zlen d) = d /\ zlen m' = zlen m.
Proof.
  intros E Hi. unfold mem_write in E. destruct (_ && _) eqn:EL; [|done]. injection E as <-.
  apply andb_prop in EL as [_ EL%Z.leb_le]. pose proof (zlen_nonneg d).
  assert (HZ : zlen (ztake i m) = i) by (rewrite zlen_ztake; lia). split.
  - unfold slice, zdrop. rewrite drop_app_ge by (unfold zlen in *; lia).
    replace (Z.to_nat i - length (ztake i m))%nat with 0%nat by (unfold zlen in *; lia).
    rewrite drop_0. apply ztake_app_exact. lia.
  - rewrite !zlen_app, HZ, zlen_zdrop by lia. lia.
Qed.

Lemma mem_write_bytes m i d m' : mem_write m i d = Some m' -> is_bytes m -> is_bytes d -> is_bytes m'.
Proof. unfold mem_write. destruct (_ && _); [|done]. intros [= <-] Hm Hd. auto 10 with bytes. Qed.

Lemma bytes_slice m i j : is_bytes m -> is_bytes (slice m i j).
Proof. intros. unfold slice. auto with bytes. Qed.

(** ** Bit operations *)

Lemma testbit_small n y i : 0 <= y < 2 ^ n -> n <= i -> Z.testbit y i = false.
Proof.
  intros Hy Hi. destruct (Z.eq_dec y 0) as [->|]; [apply Z.bits_0|].
  apply Z.bits_above_log2; [lia|]. pose proof (Z.log2_lt_pow2 y n). lia.
Qed.

Lemma land_shiftl_small x y n : 0 <= n -> 0 <= y < 2 ^ n -> Z.land (Z.shiftl x n) y = 0.
Proof.
  intros Hn Hy. apply Z.bits_inj'. intros i Hi.
  rewrite Z.land_spec, Z.bits_0, Z.shiftl_spec by done.
  destruct (Z.lt_ge_cases i n).
  - rewrite Z.testbit_neg_r by lia. done.
  - rewrite (testbit_small n y i) by lia. apply andb_false_r.
Qed.

Lemma lor_shiftl_add x y n : 0 <= n -> 0 <= y < 2 ^ n ->
  Z.lor (Z.shiftl x n) y = x * 2 ^ n + y.
Proof.
  intros Hn Hy. pose proof (Z.add_lor_land (Z.shiftl x n) y) as E.
  rewrite land_shiftl_small in E by done. rewrite Z.shiftl_mul_pow2 in E at 2 by done. lia.
Qed.

Lemma lor_mul_add x y n : 0 <= n -> 0 <= y < 2 ^ n -> Z.lor (x * 2 ^ n) y = x * 2 ^ n + y.
Proof. intros. pose proof (lor_shiftl_add x y n). rewrite Z.shiftl_mul_pow2 in * by done. auto. Qed.

Lemma land_mod x n : 0 <= n -> Z.land x (2 ^ n - 1) = x mod 2 ^ n.
Proof. intros. rewrite <- Z.land_ones by done. rewrite Z.ones_equiv. f_equal. Qed.

(** Exhaustive checks on an initial segment, by computation. *)
Definition forall_below (n : Z) (f : Z -> bool) : bool := forallb f (seqZ 0 n).

Lemma forall_below_spec n f :
  forall_below n f = true -> forall i, 0 <= i < n -> f i = true.
Proof.
  unfold forall_below. rewrite forallb_forall. intros Hf i Hi.
  apply Hf. rewrite <- list_elem_of_In. apply elem_of_seqZ. lia.
Qed.

Lemma bool_decide_true (P : Prop) `{Decision P} : bool_decide P = true -> P.
Proof. apply bool_decide_eq_true_1. Qed.

(** ** The monad *)

Lemma ret_bind {S A B} (a : A) (f : A -> M S B) : mret a ≫= f = f a.
Proof. done. Qed.

Lemma bind_ret {S A} (m : M S A) s : (m ≫= mret) s = m s.
Proof. unfold mbind, M_bind. by destruct (m s) as [[] ?]. Qed.

Lemma bind_assoc {S A B C} (m : M S A) (f : A -> M S B) (g : B -> M S C) s :
  ((m ≫= f) ≫= g) s = (m ≫= fun a => f a ≫= g) s.
Proof. unfold mbind, M_bind. by destruct (m s) as [[] ?]. Qed.

Lemma bind_ok {S A B} (m : M S A) (f : A -> M S B) s a s' :
  m s = (Ok a, s') -> (m ≫= f) s = f a s'.
Proof. intros E. unfold mbind, M_bind. by rewrite E. Qed.

Lemma bind_exc {S A B} (m : M S A) (f : A -> M S B) s e s' :
  m s = (Exc e, s') -> (m ≫= f) s = (Exc e, s').
Proof. intros E. unfold mbind, M_bind. by rewrite E. Qed.

(** [lia] with divisions and remainders. *)
Ltac dlia := Z.div_mod_to_equations; lia.

(** Case analysis on the comparisons of the goal; contradictory cases go. *)
Ltac zcases :=
  repeat match goal with
  | |- context [?a =? ?b] => destruct (Z.eqb_spec a b); try lia; cbn [andb orb negb]
  | |- context [?a <? ?b] => destruct (Z.ltb_spec a b); try lia; cbn [andb orb negb]
  | |- context [?a <=? ?b] => destruct (Z.leb_spec a b); try lia; cbn [andb orb negb]
  end.
