(* ===== verification/Ring.v ===== *)
(** * Circular buffers

    The content of a circular buffer as a list, for the input buffer of a channel
    and for virtual streams. *)

From S2P Require Import Prelude.

(** The unread data from [p] to the input position, around the end of the
    buffer. *)
Definition ring (m : bytes) (p inp : Z) : bytes :=
  if p <=? inp then slice m p inp else zdrop p m ++ ztake inp m.

(** The free space before the read position [p] is reached; one byte stays
    free. *)
Definition room (size p inp : Z) : Z :=
  if p <=? inp then size - inp + p - 1 else p - inp - 1.

Lemma ring_len m p inp : 0 <= p <= zlen m -> 0 <= inp < zlen m ->
  zlen (ring m p inp) = zlen m - 1 - room (zlen m) p inp.
Proof.
  intros. unfold ring, room. destruct (Z.leb_spec p inp).
  - rewrite slice_len; lia.
  - rewrite zlen_app, zlen_zdrop, zlen_ztake; lia.
Qed.

Lemma ring_wrap m inp : 0 <= inp < zlen m -> ring m (zlen m) inp = ring m 0 inp.
Proof.
  intros. unfold ring. zcases. by rewrite zdrop_all, slice_0 by lia.
Qed.

(** Where the contiguous data at [p] end. *)
Definition ring_max (size p inp : Z) : Z := if p <=? inp then inp else size.

Lemma ring_split m p q inp : 0 <= p <= q -> 0 <= inp < zlen m -> q <= ring_max (zlen m) p inp ->
  ring m p inp = slice m p q ++ ring m q inp.
Proof.
  intros Hp Hi Hq. unfold ring, ring_max in *. destruct (Z.leb_spec p inp).
  - rewrite (proj2 (Z.leb_le q inp)) by lia. by rewrite slice_app by lia.
  - rewrite (proj2 (Z.leb_gt q inp)) by lia.
    by rewrite app_assoc, <- !(slice_all m), slice_app by lia.
Qed.

Lemma ring_cons m p inp : 0 <= p < zlen m -> 0 <= inp < zlen m -> p <> inp ->
  exists b, znth m p = Some b /\ ring m p inp = b :: ring m (p + 1) inp.
Proof.
  intros Hp Hi Hne. destruct (znth_Some m p) as [b Hb]; [lia|]. exists b. split; [done|].
  rewrite (ring_split m p (p + 1) inp); [|lia|lia|unfold ring_max; zcases; lia].
  by rewrite (slice_cons m p (p + 1) b), slice_nil by (lia || done).
Qed.

Lemma ring_empty m p : ring m p p = [].
Proof. unfold ring. rewrite Z.leb_refl. apply slice_nil. Qed.

(** Data behind the input position become part of the ring. *)
Lemma ring_extend m p inp n : 0 <= p <= zlen m -> 0 <= inp < zlen m -> 0 <= n ->
  inp + n <= zlen m -> n <= room (zlen m) p inp ->
  ring m p (if inp + n =? zlen m then 0 else inp + n) = ring m p inp ++ slice m inp (inp + n).
Proof.
  intros Hp Hi Hn Hm Hr. unfold ring, room in *. destruct (Z.eqb_spec (inp + n) (zlen m)) as [E|E].
  - destruct (Z.leb_spec p inp).
    + rewrite E, (proj2 (Z.leb_gt p 0)) by lia.
      rewrite slice_app, slice_all by lia. unfold ztake. simpl. by rewrite app_nil_r.
    + lia.
  - destruct (Z.leb_spec p inp).
    + rewrite (proj2 (Z.leb_le p (inp + n))) by lia. by rewrite slice_app by lia.
    + rewrite (proj2 (Z.leb_gt p (inp + n))) by lia.
      by rewrite <- app_assoc, <- !slice_0, slice_app by lia.
Qed.

(** Writing to the free part does not change the content. *)
Lemma ring_write m p inp d m' : 0 <= p <= zlen m -> 0 <= inp < zlen m ->
  mem_write m inp d = Some m' -> zlen d <= room (zlen m) p inp -> ring m' p inp = ring m p inp.
Proof.
  intros Hp Hi E Hd. pose proof (mem_write_here m inp d m' E ltac:(lia)) as [_ HL].
  pose proof (zlen_nonneg d). unfold ring, room in *. destruct (Z.leb_spec p inp).
  - apply (mem_write_slice m inp d); [done|lia|lia].
  - rewrite <- !slice_all, HL, <- !slice_0 by lia.
    f_equal; apply (mem_write_slice m inp d); done || lia.
Qed.

(** Moving the read position, and reading in at most two pieces. *)
Lemma ring_advance m p inp n : 0 <= p < zlen m -> 0 <= inp < zlen m -> 0 <= n <= zlen (ring m p inp) ->
  ring m (if p + n <? zlen m then p + n else p + n - zlen m) inp = zdrop n (ring m p inp).
Proof.
  intros Hp Hi Hn. rewrite ring_len in Hn by lia. unfold room in Hn. destruct (Z.ltb_spec (p + n) (zlen m)) as [E|E].
  - destruct (decide (p + n <= ring_max (zlen m) p inp)) as [Hm|Hm]; [|revert Hn Hm; unfold ring_max; zcases; lia].
    rewrite (ring_split m p (p + n) inp) by lia. pose proof (slice_len m p (p + n) ltac:(lia) ltac:(lia)).
    unfold zdrop. rewrite drop_app_length'; [done|unfold zlen in *; lia].
  - assert (inp < p /\ n <= zlen m - p + inp) as [Hip Hn2] by (revert Hn; zcases; lia). unfold ring. replace (p <=? inp) with false by lia. replace (p + n - zlen m <=? inp) with true by lia.
    rewrite <- (slice_all m p) by lia. rewrite <- (slice_0 m inp). pose proof (slice_len m p (zlen m) ltac:(lia) ltac:(lia)) as HL.
    transitivity (zdrop (n - (zlen m - p)) (slice m 0 inp)); [rewrite <- slice_drop by lia; f_equal; lia|].
    unfold zdrop. rewrite drop_app_ge by (unfold zlen in *; lia). f_equal. unfold zlen in *. lia.
Qed.

Lemma ring_read m p inp n : 0 <= p < zlen m -> 0 <= inp < zlen m -> 0 <= n <= zlen (ring m p inp) ->
  (if p + n <=? zlen m then mem_read m p n = Some (ztake n (ring m p inp))
   else exists d1 d2, mem_read m p (zlen m - p) = Some d1 /\ mem_read m 0 (n - (zlen m - p)) = Some d2 /\ d1 ++ d2 = ztake n (ring m p inp)).
Proof.
  intros Hp Hi Hn. rewrite ring_len in Hn by lia. unfold room in Hn. destruct (Z.leb_spec (p + n) (zlen m)) as [E|E].
  - rewrite mem_read_ok by lia. f_equal. assert (Hm : p + n <= ring_max (zlen m) p inp) by (unfold ring_max; revert Hn; zcases; lia).
    rewrite (ring_split m p (p + n) inp) by lia. rewrite ztake_app_exact; [|rewrite slice_len; lia]. unfold slice. f_equal. lia.
  - assert (inp < p /\ n <= zlen m - p + inp) as [Hip Hn2] by (revert Hn; zcases; lia). rewrite !mem_read_ok by lia. eexists _, _. split; [done|]. split; [done|].
    unfold ring. replace (p <=? inp) with false by lia. rewrite <- (slice_all m p) by lia. rewrite <- (slice_0 m inp). pose proof (slice_len m p (zlen m) ltac:(lia) ltac:(lia)) as HL.
    change (ztake (zlen m - p) (zdrop p m)) with (slice m p (zlen m)). replace (ztake (n - (zlen m - p)) (zdrop 0 m)) with (slice m 0 (n - (zlen m - p))) by (unfold slice; f_equal; lia).
    transitivity (take (Z.to_nat n) (slice m p (zlen m) ++ slice m 0 inp)); [|done]. rewrite take_app_ge by (unfold zlen in *; lia). f_equal; [by rewrite ztake_all by lia|]. rewrite !slice_0. unfold ztake. rewrite take_take. f_equal. unfold zlen in *. lia.
Qed.

(** Writing in at most two pieces. *)
Lemma ring_store m p inp d : 0 <= p < zlen m -> 0 <= inp < zlen m -> zlen d <= room (zlen m) p inp ->
  exists m', (if inp + zlen d <=? zlen m then mem_write m inp d else (m1 ← mem_write m inp (ztake (zlen m - inp) d); mem_write m1 0 (zdrop (zlen m - inp) d))) = Some m' /\
    zlen m' = zlen m /\ ring m' p (if inp + zlen d <? zlen m then inp + zlen d else inp + zlen d - zlen m) = ring m p inp ++ d.
Proof.
  intros Hp Hi Hd. pose proof (zlen_nonneg d) as Hd0.
  assert (H1 : forall m p inp d, 0 <= p < zlen m -> 0 <= inp < zlen m -> zlen d <= room (zlen m) p inp -> inp + zlen d <= zlen m ->
    exists m', mem_write m inp d = Some m' /\ zlen m' = zlen m /\ ring m' p (if inp + zlen d =? zlen m then 0 else inp + zlen d) = ring m p inp ++ d).
  { clear. intros m p inp d Hp Hi Hd Hf. pose proof (zlen_nonneg d). destruct (mem_write_ok m inp d) as (m' & E & Hm' & _); [lia|lia|]. exists m'. split; [done|]. split; [done|].
    rewrite <- Hm'. rewrite ring_extend by (rewrite ?Hm'; lia). rewrite (ring_write m p inp d m') by (lia || done). by destruct (mem_write_here m inp d m' E) as [-> _]; [lia|]. }
  destruct (Z.leb_spec (inp + zlen d) (zlen m)) as [E|E].
  - destruct (H1 m p inp d) as (m' & EM & Hl & HR); [lia..|]. exists m'. split; [done|]. split; [done|]. rewrite <- HR. f_equal. zcases; lia.
  - assert (Hdd : zlen (ztake (zlen m - inp) d) = zlen m - inp) by (rewrite zlen_ztake; lia).
    destruct (H1 m p inp (ztake (zlen m - inp) d)) as (m1 & E1 & Hl1 & HR1); [lia|lia|lia|lia|]. rewrite Hdd in HR1.
    replace (inp + (zlen m - inp) =? zlen m) with true in HR1 by lia.
    assert (p <= inp /\ zlen d <= zlen m - inp + p - 1) as [Hpi Hd2] by (unfold room in Hd; revert Hd; zcases; lia).
    assert (Hdz : zlen (zdrop (zlen m - inp) d) = zlen d - (zlen m - inp)) by (rewrite zlen_zdrop; lia).
    destruct (H1 m1 p 0 (zdrop (zlen m - inp) d)) as (m2 & E2 & Hl2 & HR2); [lia|lia|rewrite Hl1; unfold room; zcases; lia|lia|].
    exists m2. rewrite E1. cbn. split; [done|]. split; [lia|]. rewrite HR1 in HR2.
    transitivity ((ring m p inp ++ ztake (zlen m - inp) d) ++ zdrop (zlen m - inp) d); [|by rewrite <- app_assoc, ztake_zdrop]. rewrite <- HR2, Hl1.
    f_equal. zcases; lia.
Qed.
