(* ===== verification/ByteSource.v ===== *)
(** * Numbers in bytes

    Numbers of a fixed size in either byte order, numbers in LEB128, and what it
    means that a reader makes a number of the bytes ahead of it.  The byte code of
    location expressions (vm.c) and the sections of debug information (dwarfio.c)
    are both read this way: [ByteSource] is what the two have in common. *)

From S2P Require Import Prelude.

(** ** Definitions *)

(** The number that little endian bytes stand for. *)
Definition number_of (l : bytes) : Z := foldr (fun b n => b + 256 * n) 0 l.

(** [n = (n << 8) | b], from the first byte to the last. *)
Definition be_value (l : bytes) : Z := fold_left (fun n b => Z.lor (u64 (Z.shiftl n 8)) b) l 0.

(** [res |= (uintw_t)(n & 0x7f) << i] while the high bit is set; [sign] adds the
    sign of the last byte. *)
Fixpoint read_leb128 {S} (read_u1 : M S Z) (fuel : nat) (w : Z) (sign : bool) (res i : Z) : M S Z :=
  match fuel with
  | O => undef
  | Datatypes.S fuel =>
      n ← read_u1;
      assertm (i <? w) ;;
      let res := Z.lor res (wrapu w (Z.shiftl (Z.land n 127) i)) in
      if Z.land n 128 =? 0 then
        mret (if sign then Z.lor res (wrapu w (Z.shiftl (- Z.land n 64) i)) else res)
      else read_leb128 read_u1 fuel w sign res (i + 7)
  end.

(** ** Words *)

Lemma in_u_lor w x y : 0 < w -> in_u w x -> in_u w y -> in_u w (Z.lor x y).
Proof.
  unfold in_u. intros Hw Hx Hy. split; [apply Z.lor_nonneg; lia|].
  destruct (decide (Z.lor x y = 0)) as [->|Hne]; [lia|]. assert (0 <= Z.lor x y) by (apply Z.lor_nonneg; lia).
  apply Z.log2_lt_pow2; [lia|]. rewrite Z.log2_lor by lia.
  assert (HL : forall z, 0 <= z < 2 ^ w -> Z.log2 z < w).
  { intros z Hz. destruct (decide (z = 0)) as [->|]; [done|]. apply Z.log2_lt_pow2; lia. }
  pose proof (HL x Hx). pose proof (HL y Hy). lia.
Qed.

Lemma in_u_wrap w x : 0 <= w -> in_u w (wrapu w x).
Proof. apply wrapu_range. Qed.

Lemma in_u_zero w : 0 <= w -> in_u w 0.
Proof. unfold in_u. lia. Qed.

Lemma in_u_weaken w w' x : w <= w' -> in_u w x -> in_u w' x.
Proof. unfold in_u. intros Hw Hx. pose proof (Z.pow_le_mono_r 2 w w'). lia. Qed.

#[export] Hint Resolve in_u_lor in_u_wrap in_u_zero : core.

Lemma be_value_range l : is_bytes l -> in_u 64 (be_value l).
Proof.
  unfold be_value. assert (H : forall n, in_u 64 n -> is_bytes l -> in_u 64 (fold_left (fun n b => Z.lor (u64 (Z.shiftl n 8)) b) l n)).
  { induction l as [|b l IH]; intros n Hn Hl; [done|]. apply Forall_cons in Hl as [Hb Hl]. cbn. apply IH; [|done].
    apply in_u_lor; [lia|auto with lia|]. unfold is_byte in Hb. unfold in_u. lia. }
  apply H. auto with lia.
Qed.

Lemma number_of_app l b : number_of (l ++ [b]) = number_of l + 256 ^ zlen l * b.
Proof.
  induction l as [|x l IH]; [unfold number_of; cbn [foldr app]; change (zlen (@nil Z)) with 0; lia|]. change (number_of ((x :: l) ++ [b])) with (x + 256 * number_of (l ++ [b])).
  rewrite IH. change (number_of (x :: l)) with (x + 256 * number_of l). rewrite zlen_cons, Z.pow_add_r by (try apply zlen_nonneg; lia). lia.
Qed.

Lemma be_value_number l : is_bytes l -> zlen l <= 8 -> be_value l = number_of (reverse l).
Proof.
  intros Hl Hn. unfold be_value.
  assert (H : forall n, 0 <= n < 256 ^ (8 - zlen l) ->
    fold_left (fun n b => Z.lor (u64 (Z.shiftl n 8)) b) l n = n * 256 ^ zlen l + number_of (reverse l)).
  2:{ rewrite H; [lia|]. split; [lia|]. apply Z.pow_pos_nonneg; lia. }
  clear Hn. induction l as [|b l IH]; intros n Hb; [change (n = n * 256 ^ 0 + 0); lia|]. apply Forall_cons in Hl as [Hbyte Hl].
  cbn [fold_left]. rewrite zlen_cons in *. pose proof (zlen_nonneg l).
  assert (H8 : 8 - (zlen l + 1) >= 0).
  { destruct (Z.lt_ge_cases (8 - (zlen l + 1)) 0) as [Hlt|]; [|lia]. rewrite Z.pow_neg_r in Hb by lia. lia. }
  assert (Hp : 256 ^ (8 - zlen l) = 256 * 256 ^ (8 - (zlen l + 1))).
  { replace (8 - zlen l) with (1 + (8 - (zlen l + 1))) by lia. rewrite Z.pow_add_r by lia. done. }
  assert (Hp8 : 256 ^ (8 - (zlen l + 1)) <= 2 ^ 56).
  { change (2 ^ 56) with (256 ^ 7). apply Z.pow_le_mono_r; lia. }
  unfold is_byte in Hbyte.
  assert (E : Z.lor (u64 (Z.shiftl n 8)) b = n * 256 + b).
  { rewrite wrapu_small; [rewrite lor_shiftl_add by (change (2 ^ 8) with 256; lia); done|].
    rewrite Z.shiftl_mul_pow2 by lia. change (2 ^ 8) with 256. lia. }
  rewrite E, IH by (done || lia). rewrite reverse_cons, number_of_app. unfold zlen at 3. rewrite length_reverse.
  fold (zlen l). rewrite Z.pow_add_r by lia. lia.
Qed.

(** ** Numbers of a fixed size *)

(** The bytes of [x], from the least significant one. *)
Fixpoint le_number (n : nat) (x : Z) : bytes :=
  match n with O => [] | S n => x mod 256 :: le_number n (x / 256) end.

Definition number (be : bool) (n : nat) (x : Z) : bytes := if be then reverse (le_number n x) else le_number n x.

Lemma zlen_le_number n x : zlen (le_number n x) = Z.of_nat n.
Proof. revert x. induction n as [|n IH]; intros x; [done|]. cbn [le_number]. rewrite zlen_cons, IH. lia. Qed.

Lemma zlen_number be n x : zlen (number be n x) = Z.of_nat n.
Proof. unfold number. destruct be; [|apply zlen_le_number]. unfold zlen. rewrite length_reverse. apply zlen_le_number. Qed.

Lemma le_number_app n m x : le_number (n + m) x = le_number n x ++ le_number m (x / 2 ^ (8 * Z.of_nat n)).
Proof.
  revert x. induction n as [|n IH]; intros x; [cbn; by rewrite Z.div_1_r|].
  cbn [le_number Nat.add app]. rewrite IH. f_equal. f_equal. f_equal. rewrite Z.div_div by lia. f_equal.
  rewrite Nat2Z.inj_succ, Z.mul_succ_r, Z.pow_add_r by lia. lia.
Qed.

Lemma le_number_mod n x : le_number n (x mod 2 ^ (8 * Z.of_nat n)) = le_number n x.
Proof.
  revert x. induction n as [|n IH]; intros x; [done|]. cbn [le_number].
  rewrite Nat2Z.inj_succ, Z.mul_succ_r, Z.add_comm, Z.pow_add_r by lia. change (2 ^ 8) with 256.
  set (p := 2 ^ (8 * Z.of_nat n)). assert (Hp : 0 < p) by (subst p; lia).
  rewrite (Z.rem_mul_r x 256 p) by lia. f_equal.
  - rewrite Z.mul_comm, Z.mod_add by lia. apply Z.mod_mod. lia.
  - rewrite Z.mul_comm, Z.div_add by lia. rewrite Z.div_small by dlia. apply IH.
Qed.

Lemma number_split be n x :
  number be (n + n) x =
  if be then number be n (x / 2 ^ (8 * Z.of_nat n)) ++ number be n (x mod 2 ^ (8 * Z.of_nat n))
  else number be n (x mod 2 ^ (8 * Z.of_nat n)) ++ number be n (x / 2 ^ (8 * Z.of_nat n)).
Proof. unfold number. rewrite le_number_app, le_number_mod. destruct be; [by rewrite reverse_app|done]. Qed.

Lemma number_byte be x : is_byte x -> number be 1 x = [x].
Proof. intros Hx. unfold number, is_byte in *. cbn. rewrite Z.mod_small by lia. by destruct be. Qed.

Lemma bytes_le_number n x : is_bytes (le_number n x).
Proof. revert x. induction n as [|n IH]; intros x; constructor; [unfold is_byte; dlia|apply IH]. Qed.

Lemma number_of_le_number n x : number_of (le_number n x) = x mod 256 ^ Z.of_nat n.
Proof.
  revert x. induction n as [|n IH]; intros x; [change (256 ^ Z.of_nat 0) with 1; by rewrite Z.mod_1_r|].
  change (number_of (le_number (S n) x)) with (x mod 256 + 256 * number_of (le_number n (x / 256))).
  rewrite IH, Nat2Z.inj_succ, Z.pow_succ_r by lia. by rewrite Z.rem_mul_r by lia.
Qed.

Lemma be_value_of_number (be : bool) n x : (n <= 8)%nat -> in_u (8 * Z.of_nat n) x ->
  be_value (if be then number be n x else reverse (number be n x)) = x.
Proof.
  intros Hn Hx. unfold number. enough (E : be_value (reverse (le_number n x)) = x) by (by destruct be).
  rewrite be_value_number, reverse_involutive, number_of_le_number.
  - apply Z.mod_small. unfold in_u in Hx. rewrite Z.pow_mul_r in Hx by lia. exact Hx.
  - apply Forall_reverse, bytes_le_number.
  - unfold zlen. rewrite length_reverse. fold (zlen (le_number n x)). rewrite zlen_le_number. lia.
Qed.

(** ** LEB128 *)

(** The last byte of a number. *)
Definition leb_last (sign : bool) (z : Z) : bool := if sign then (-64 <=? z) && (z <? 64) else z <? 128.

Fixpoint leb (sign : bool) (n : nat) (z : Z) : bytes :=
  match n with
  | O => []
  | S n => if leb_last sign z then [z mod 128] else (z mod 128 + 128) :: leb sign n (z / 128)
  end.

(** Ten bytes are enough for 64 bits. *)
Definition uleb128 (n : Z) : bytes := leb false 10 n.
Definition sleb128 (z : Z) : bytes := leb true 10 z.
Arguments uleb128 : simpl never.
Arguments sleb128 : simpl never.

Lemma wrapu_land w x : 0 <= w -> wrapu w x = Z.land x (Z.ones w).
Proof. intros Hw. unfold wrapu. by rewrite Z.land_ones. Qed.

Lemma wrapu_lor w x y : 0 <= w -> Z.lor (wrapu w x) (wrapu w y) = wrapu w (Z.lor x y).
Proof. intros Hw. by rewrite !wrapu_land, Z.land_lor_distr_l by done. Qed.

Lemma leb_byte_low z : Z.land (z mod 128) 127 = z mod 128 /\ Z.land (z mod 128 + 128) 127 = z mod 128.
Proof.
  change 127 with (2 ^ 7 - 1). rewrite !land_mod by lia. change (2 ^ 7) with 128. split; dlia.
Qed.

(** The sign of a last byte. *)
Lemma leb_sign_bits z : -64 <= z < 64 -> Z.lor (z mod 128) (- Z.land (z mod 128) 64) = z.
Proof.
  intros Hz. assert (H : forall_below 128 (fun n => Z.lor ((n - 64) mod 128) (- Z.land ((n - 64) mod 128) 64) =? n - 64) = true)
    by (vm_compute; reflexivity).
  pose proof (forall_below_spec _ _ H (z + 64) ltac:(lia)) as E. cbv beta in E. apply Z.eqb_eq in E.
  by replace (z + 64 - 64) with z in E by lia.
Qed.

Lemma leb_step w res z i : 0 <= i <= w -> 0 <= res < 2 ^ i ->
  Z.lor res (wrapu w (Z.shiftl z i)) = wrapu w (res + z * 2 ^ i).
Proof.
  intros Hi Hr. rewrite <- (wrapu_small w res) at 1 by (pose proof (Z.pow_le_mono_r 2 i w); lia).
  rewrite wrapu_lor by lia. f_equal. rewrite Z.lor_comm, lor_shiftl_add by lia. lia.
Qed.

(** The range of a number whose lowest bit has the weight [2 ^ i]. *)
Definition leb_fits (sign : bool) (w i z : Z) : Prop :=
  if sign then - 2 ^ (w - 1) <= z * 2 ^ i < 2 ^ (w - 1) else 0 <= z /\ z * 2 ^ i < 2 ^ w.

Definition leb_short (sign : bool) (n : nat) (z : Z) : Prop :=
  if sign then - 2 ^ (7 * Z.of_nat n - 1) <= z < 2 ^ (7 * Z.of_nat n - 1) else z < 2 ^ (7 * Z.of_nat n).

(** After a byte that is not the last one. *)
Lemma leb_next sign w i z n : 0 < w -> 0 <= i -> leb_last sign z = false -> leb_fits sign w i z -> leb_short sign (S n) z ->
  i + 7 < w /\ leb_fits sign w (i + 7) (z / 128) /\ leb_short sign n (z / 128) /\ (0 < n)%nat.
Proof.
  intros Hw Hi HL HF HS. unfold leb_last, leb_fits, leb_short in *. rewrite Nat2Z.inj_succ, Z.mul_succ_r in HS.
  rewrite Z.pow_add_r by lia. change (2 ^ 7) with 128. pose proof (Z.pow_pos_nonneg 2 i ltac:(lia) Hi) as Hp.
  assert (Hd : 128 * (z / 128) <= z < 128 * (z / 128) + 128) by dlia.
  destruct sign.
  - assert (Hz : z < -64 \/ 64 <= z) by lia.
    assert (Hi7 : i + 7 < w).
    { apply Z.nle_gt. intros Hle. pose proof (Z.pow_le_mono_r 2 (w - 1) (i + 6) ltac:(lia) ltac:(lia)) as Hm.
      rewrite Z.pow_add_r in Hm by lia. change (2 ^ 6) with 64 in Hm. destruct Hz; nia. }
    assert (Hn : (0 < n)%nat).
    { destruct n as [|n]; [|lia]. change (2 ^ (7 * Z.of_nat 0 + 7 - 1)) with 64 in HS. lia. }
    split; [done|]. assert (HW : 2 ^ (w - 1) = 2 ^ (w - 1 - (i + 7)) * (2 ^ i * 128)).
    { change 128 with (2 ^ 7). rewrite <- !Z.pow_add_r by lia. f_equal. lia. }
    rewrite HW in *. set (q := 2 ^ (w - 1 - (i + 7))) in *. set (P := 2 ^ i) in *. set (d := z / 128) in *.
    assert (Hq : - (128 * q) <= z < 128 * q) by nia.
    assert (Hd2 : - q <= d < q) by lia. clear HF. split; [nia|]. split; [|done].
    replace (7 * Z.of_nat n + 7 - 1) with (7 * Z.of_nat n - 1 + 7) in HS by lia. rewrite Z.pow_add_r in HS by lia.
    change (2 ^ 7) with 128 in HS. lia.
  - assert (Hz : 128 <= z) by lia.
    assert (Hi7 : i + 7 < w).
    { apply Z.nle_gt. intros Hle. pose proof (Z.pow_le_mono_r 2 w (i + 7) ltac:(lia) ltac:(lia)) as Hm.
      rewrite Z.pow_add_r in Hm by lia. change (2 ^ 7) with 128 in Hm. nia. }
    assert (Hn : (0 < n)%nat) by (destruct n as [|n]; [change (2 ^ (7 * Z.of_nat 0 + 7)) with 128 in HS; lia|lia]).
    split; [done|]. split; [split; [dlia|nia]|]. split; [|done].
    rewrite Z.pow_add_r in HS by lia. change (2 ^ 7) with 128 in HS. lia.
Qed.

Lemma leb_last_false_range sign z n : leb_short sign n z -> leb_last sign z = true ->
  if sign then -64 <= z < 64 else z < 128.
Proof. unfold leb_last. destruct sign; lia. Qed.

Lemma high_bit n : is_byte n -> (Z.land n 128 =? 0) = (n <? 128).
Proof.
  intros Hn.
  apply (bool_decide_true ((Z.land n 128 =? 0) = (n <? 128))).
  exact (forall_below_spec 256 (fun n => bool_decide ((Z.land n 128 =? 0) = (n <? 128))) eq_refl n Hn).
Qed.

(** ** Sources of bytes *)

(** [src_at s l]: the bytes [l] come next; [src_ahead n s]: [n] bytes further. *)
Class ByteSource (S : Type) := {
  src_be : S -> bool;
  src_at : S -> bytes -> Prop;
  src_ahead : Z -> S -> S;
}.

Class ByteSourceSpec (S : Type) `{!ByteSource S} := {
  src_ahead_0 s : src_ahead 0 s = s;
  src_ahead_add n m s : src_ahead m (src_ahead n s) = src_ahead (n + m) s;
  src_at_app s l k : src_at s (l ++ k) -> src_at s l /\ src_at (src_ahead (zlen l) s) k;
  src_be_ahead n s : src_be (src_ahead n s) = src_be s;
}.

(** A reader makes [x] of the bytes [l]. *)
Definition reads_as {S} `{!ByteSource S} {A} (be : bool) (m : M S A) (l : bytes) (x : A) : Prop :=
  forall s, src_be s = be -> src_at s l -> m s = (Ok x, src_ahead (zlen l) s).

Section reads_as.
Context {S : Type} `{!ByteSource S, !ByteSourceSpec S}.

Lemma reads_as_ret {A} be (x : A) : reads_as be (mret x : M S A) [] x.
Proof. intros s _ _. change (zlen []) with 0. by rewrite src_ahead_0. Qed.

Lemma reads_as_bind {A B} be (m : M S A) (f : A -> M S B) l k x y :
  reads_as be m l x -> reads_as be (f x) k y -> reads_as be (m ≫= f) (l ++ k) y.
Proof.
  intros Hm Hf s Hb HC. apply src_at_app in HC as [HC1 HC2]. rewrite (bind_ok _ _ _ _ _ (Hm s Hb HC1)).
  rewrite (Hf (src_ahead (zlen l) s)), src_ahead_add by (done || by rewrite src_be_ahead). by rewrite zlen_app.
Qed.

Lemma reads_as_map {A B} be (m : M S A) (f : A -> B) l x : reads_as be m l x -> reads_as be (a ← m; mret (f a)) l (f x).
Proof. intros Hm. rewrite <- (app_nil_r l). eapply reads_as_bind; [exact Hm|]. apply reads_as_ret. Qed.

Lemma reads_as_get {A} be (f : S -> M S A) l x :
  (forall s, src_be s = be -> src_at s l -> f s s = (Ok x, src_ahead (zlen l) s)) -> reads_as be (s ← get; f s) l x.
Proof. intros Hf s Hb HC. rewrite (bind_ok get _ s s s eq_refl). by apply Hf. Qed.

Lemma reads_as_leb be w sign n (read_u1 : M S Z) : 0 < w ->
  (forall x, is_byte x -> reads_as be read_u1 (number be 1 x) x) -> forall fuel z i res, 0 <= i < w -> w - i < 7 * Z.of_nat fuel -> (0 < n)%nat ->
  0 <= res < 2 ^ i -> leb_fits sign w i z -> leb_short sign n z ->
  reads_as be (read_leb128 read_u1 fuel w sign res i) (leb sign n z) (wrapu w (res + z * 2 ^ i)).
Proof.
  intros Hw Hu1. induction n as [|n IH]; intros fuel z i res Hi Hf Hn Hr HF HS; [lia|].
  destruct fuel as [|fuel]; [lia|]. cbn [leb read_leb128]. destruct (leb_byte_low z) as [EL1 EL2].
  assert (Hb : 0 <= z mod 128 < 128) by dlia. pose proof (Z.pow_pos_nonneg 2 i ltac:(lia) ltac:(lia)) as Hp.
  destruct (leb_last sign z) eqn:HL.
  - rewrite <- (number_byte be (z mod 128)) by (unfold is_byte; lia). rewrite <- (app_nil_r (number be 1 _)).
    eapply reads_as_bind; [apply Hu1; unfold is_byte; lia|]. rewrite (proj2 (Z.ltb_lt _ _)) by lia. cbn [assertm].
    rewrite ret_bind. cbv zeta. rewrite EL1, high_bit, (proj2 (Z.ltb_lt _ _)) by (unfold is_byte; lia).
    match goal with |- reads_as be (mret ?a) _ ?b => replace a with b; [apply reads_as_ret|] end. symmetry.
    destruct sign.
    + rewrite <- Z.lor_assoc, wrapu_lor, <- Z.shiftl_lor, leb_sign_bits by (cbn in HL; lia). apply leb_step; lia.
    + cbn in HL, HF. rewrite Z.mod_small by lia. apply leb_step; lia.
  - destruct (leb_next sign w i z n Hw ltac:(lia) HL HF HS) as (Hi7 & HF' & HS' & Hn').
    change ((z mod 128 + 128) :: leb sign n (z / 128)) with ([z mod 128 + 128] ++ leb sign n (z / 128)).
    rewrite <- (number_byte be (z mod 128 + 128)) by (unfold is_byte; lia).
    eapply reads_as_bind; [apply Hu1; unfold is_byte; lia|]. rewrite (proj2 (Z.ltb_lt _ _)) by lia. cbn [assertm].
    rewrite ret_bind. cbv zeta. rewrite EL2, high_bit, (proj2 (Z.ltb_ge _ _)) by (unfold is_byte; lia).
    assert (Hp7 : 2 ^ (i + 7) = 2 ^ i * 128) by (rewrite Z.pow_add_r by lia; done).
    assert (Hm : res + z mod 128 * 2 ^ i < 2 ^ (i + 7)) by (rewrite Hp7; nia).
    assert (Hle : 2 ^ (i + 7) <= 2 ^ w) by (apply Z.pow_le_mono_r; lia).
    rewrite leb_step, wrapu_small by (lia || nia).
    replace (res + z * 2 ^ i) with (res + z mod 128 * 2 ^ i + z / 128 * 2 ^ (i + 7)).
    + apply IH; auto; nia || lia.
    + rewrite Hp7. pose proof (Z.div_mod z 128 ltac:(lia)) as E. rewrite E at 3. ring.
Qed.
End reads_as.
