(* ===== verification/Streams.v ===== *)
(** * Byte streams (framework/streams.c, streams.h)

    The two stream interfaces of the agent as type classes: [InputStream] and
    [OutputStream] hold the operations a stream object provides (the callback
    pointers and the [cur]/[end] window of the struct), [InputStreamSpec] and
    [OutputStreamSpec] state what the clients rely on.  The byte array streams
    are the implementations in streams.c. *)

From S2P Require Import Prelude.

Definition MARKER_EOM : Z := -1.
Definition MARKER_EOS : Z := -2.
Definition ESC : Z := 3.

(** ** The interfaces *)

(** [is_window] is the memory between [cur] and [end], [is_advance] is [cur++],
    [is_read] and [is_peek] are the callbacks, which run when the window is
    empty.  [is_fuel] bounds the number of symbols the stream can still
    deliver; it has no counterpart in the code and only serves to write the
    loops that read until a terminator. *)
Class InputStream (St : Type) := {
  is_window : St -> bytes;
  is_advance : St -> St;
  is_read : M St Z;
  is_peek : M St Z;
  is_fuel : St -> nat;
}.

Definition read_stream {St} `{InputStream St} : M St Z := fun s =>
  match is_window s with
  | b :: _ => (Ok b, is_advance s)
  | [] => is_read s
  end.

Definition peek_stream {St} `{InputStream St} : M St Z := fun s =>
  match is_window s with
  | b :: _ => (Ok b, s)
  | [] => is_peek s
  end.

(** [os_space] is [end - cur]; [os_store l] is [memcpy(cur, l, n); cur += n]. *)
Class OutputStream (St : Type) := {
  os_supports_zero_copy : St -> bool;
  os_cur_null : St -> bool;
  os_space : St -> Z;
  os_store : bytes -> M St unit;
  os_write : Z -> M St unit;
  os_write_block : bytes -> M St unit;
}.

Definition write_stream {St} `{OutputStream St} (b : Z) : M St unit := fun s =>
  if (ESC <? b) && (0 <? os_space s) then os_store [u8 b] s else os_write b s.

Definition write_block_stream {St} `{OutputStream St} (l : bytes) : M St unit :=
  os_write_block l.

Section write_string.
Context {St} `{OutputStream St}.

(** The loop of [write_string] and [write_stringz] on the characters that
    are left: a character goes to the window when there is room for it and
    it is not [ESC]. *)
Fixpoint write_chars (l : bytes) : M St unit :=
  match l with
  | [] => mret tt
  | ch :: l =>
      (fun s =>
         if negb (ch =? ESC) && (0 <? os_space s)
         then os_store [ch] s else os_write ch s) ;;
      write_chars l
  end.

Definition write_string (l : bytes) : M St unit := fun s =>
  if os_cur_null s then os_write_block l s else write_chars l s.

Definition write_stringz (l : bytes) : M St unit := fun s =>
  if os_cur_null s then os_write_block (l ++ [0]) s
  else write_chars (l ++ [0]) s.
End write_string.

(** ** What the streams promise *)

(** [is_data] are the bytes the stream is going to deliver and [is_mark] is the
    marker (end of message or end of stream) that follows them.  Nothing is
    promised once the marker has been read. *)
Class InputStreamSpec (St : Type) `{InputStream St} := {
  is_wf : St -> Prop;
  is_data : St -> bytes;
  is_mark : St -> Z;
  is_data_bytes : forall s, is_wf s -> is_bytes (is_data s);
  is_mark_neg : forall s, is_wf s -> is_mark s < 0;
  is_data_fuel : forall s, is_wf s -> (length (is_data s) < is_fuel s)%nat;
  read_cons : forall s b l, is_wf s -> is_data s = b :: l ->
    exists s', read_stream s = (Ok b, s') /\ is_wf s' /\
               is_data s' = l /\ is_mark s' = is_mark s;
  read_nil : forall s, is_wf s -> is_data s = [] ->
    exists s', read_stream s = (Ok (is_mark s), s');
  peek_cons : forall s b l, is_wf s -> is_data s = b :: l ->
    exists s', peek_stream s = (Ok b, s') /\ is_wf s' /\
               is_data s' = b :: l /\ is_mark s' = is_mark s;
  peek_nil : forall s, is_wf s -> is_data s = [] ->
    exists s', peek_stream s = (Ok (is_mark s), s') /\ is_wf s' /\
               is_data s' = [] /\ is_mark s' = is_mark s;
  window_advance : forall s b w, is_wf s -> is_window s = b :: w ->
    is_byte b /\ is_window (is_advance s) = w;
}.

(** [os_data] are the symbols written so far.  [os_symbol] are the symbols the
    stream can carry: at least all bytes, and the markers where the stream
    supports messages. *)
Class OutputStreamSpec (St : Type) `{OutputStream St} := {
  os_wf : St -> Prop;
  os_data : St -> list Z;
  os_symbol : Z -> Prop;
  os_symbol_byte : forall b, is_byte b -> os_symbol b;
  os_symbol_le : forall b, os_symbol b -> b < 256;
  os_null_space : forall s, os_wf s -> os_cur_null s = true -> os_space s = 0;
  store_spec : forall s l, os_wf s -> is_bytes l -> ESC ∉ l -> zlen l <= os_space s ->
    exists s', os_store l s = (Ok tt, s') /\ os_wf s' /\ os_data s' = os_data s ++ l /\
               os_supports_zero_copy s' = os_supports_zero_copy s;
  write_spec : forall s b, os_wf s -> os_symbol b ->
    exists s', os_write b s = (Ok tt, s') /\ os_wf s' /\ os_data s' = os_data s ++ [b] /\
               os_supports_zero_copy s' = os_supports_zero_copy s;
  write_block_spec : forall s l, os_wf s -> is_bytes l ->
    exists s', os_write_block l s = (Ok tt, s') /\ os_wf s' /\ os_data s' = os_data s ++ l /\
               os_supports_zero_copy s' = os_supports_zero_copy s;
}.

(** ** Reasoning about clients

    [writes m a l]: [m] succeeds with [a] and appends [l] to the stream.
    [reads m a l P]: on input [l] followed by a symbol satisfying [P], [m]
    succeeds with [a] and consumes exactly [l]. *)

Definition writes `{OutputStreamSpec St} {A} (m : M St A) (a : A) (l : list Z) : Prop :=
  forall s, os_wf s ->
  exists s', m s = (Ok a, s') /\ os_wf s' /\ os_data s' = os_data s ++ l /\
             os_supports_zero_copy s' = os_supports_zero_copy s.

Definition is_next `{InputStreamSpec St} (s : St) : Z :=
  match is_data s with b :: _ => b | [] => is_mark s end.

Definition reads `{InputStreamSpec St} {A} (m : M St A) (a : A) (l : bytes)
    (P : Z -> Prop) : Prop :=
  forall s rest, is_wf s -> is_data s = l ++ rest ->
  P (match rest with b :: _ => b | [] => is_mark s end) ->
  exists s', m s = (Ok a, s') /\ is_wf s' /\ is_data s' = rest /\ is_mark s' = is_mark s.

Definition anything : Z -> Prop := fun _ => True.

(** [P] holds of what follows when [l] is read next and [Q] holds after it. *)
Definition follows (P : Z -> Prop) (l : bytes) (Q : Z -> Prop) : Prop :=
  match l with b :: _ => P b | [] => forall x, Q x -> P x end.

Create HintDb stream.

Section writes.
Context `{OutputStreamSpec St}.

Lemma writes_ret {A} (a : A) : writes (mret a) a [].
Proof. intros s Hs. exists s. rewrite app_nil_r. done. Qed.

Lemma writes_bind {A B} (m : M St A) (f : A -> M St B) a b l1 l2 :
  writes m a l1 -> writes (f a) b l2 -> writes (m ≫= f) b (l1 ++ l2).
Proof.
  intros H1 H2 s Hs. destruct (H1 s Hs) as (s1 & E1 & Hs1 & D1 & Z1).
  destruct (H2 s1 Hs1) as (s2 & E2 & Hs2 & D2 & Z2).
  exists s2. rewrite (bind_ok _ _ _ _ _ E1), E2, D2, D1, app_assoc, Z2. done.
Qed.

Lemma writes_seq {A B} (m : M St A) (k : M St B) a b l1 l2 :
  writes m a l1 -> writes k b l2 -> writes (m ;; k) b (l1 ++ l2).
Proof. intros H1 H2. by apply (writes_bind m (fun _ => k) a). Qed.

Lemma writes_if {A} (c : bool) (m1 m2 : M St A) a l1 l2 :
  writes m1 a l1 -> writes m2 a l2 ->
  writes (if c then m1 else m2) a (if c then l1 else l2).
Proof. by destruct c. Qed.

Lemma writes_write b : os_symbol b -> writes (os_write b) tt [b].
Proof. intros Hb s Hs. by apply write_spec. Qed.

Lemma writes_stream b : os_symbol b -> writes (write_stream b) tt [b].
Proof.
  intros Hb s Hs. unfold write_stream.
  destruct ((ESC <? b) && (0 <? os_space s)) eqn:E; [|by apply write_spec].
  apply andb_prop in E as [E1%Z.ltb_lt E2%Z.ltb_lt]. unfold ESC in *.
  pose proof (os_symbol_le b Hb).
  assert (is_byte b) by (unfold is_byte; lia). rewrite u8_byte by done.
  apply store_spec; auto with bytes; [|zlia].
  apply list_elem_of_singleton_ne. unfold ESC. lia.
Qed.

Lemma writes_byte b : is_byte b -> writes (write_stream b) tt [b].
Proof. intros Hb. by apply writes_stream, os_symbol_byte. Qed.

Lemma writes_block l : is_bytes l -> writes (write_block_stream l) tt l.
Proof. intros Hl s Hs. by apply write_block_spec. Qed.

(** The common shape of the window fast paths: [l] goes to the window when
    there is room for it, to the callback otherwise. *)
Lemma writes_fast l (g : St -> bool) (m : M St unit) :
  is_bytes l -> (ESC ∈ l -> forall s, g s = false) ->
  (forall s, g s = true -> zlen l <= os_space s) ->
  writes m tt l ->
  writes (fun s => if g s then os_store l s else m s) tt l.
Proof.
  intros Hl HE Hg Hm s Hs. destruct (g s) eqn:E; [|by apply Hm].
  apply store_spec; auto. intros HE'. rewrite HE in E; done.
Qed.

Lemma writes_chars l : is_bytes l -> writes (write_chars l) tt l.
Proof.
  induction 1 as [|b l Hb Hl IH]; [apply writes_ret|].
  change (b :: l) with ([b] ++ l). cbn [write_chars app].
  refine (writes_seq _ _ tt tt [b] l _ IH).
  apply writes_fast.
  - auto with bytes.
  - intros <-%list_elem_of_singleton s. done.
  - intros s [_ E%Z.ltb_lt]%andb_prop. zlia.
  - by apply writes_write, os_symbol_byte.
Qed.

Lemma writes_string l : is_bytes l -> writes (write_string l) tt l.
Proof.
  intros Hl s Hs. unfold write_string.
  destruct (os_cur_null s); [by apply write_block_spec|by apply writes_chars].
Qed.

Lemma writes_stringz l : is_bytes l -> writes (write_stringz l) tt (l ++ [0]).
Proof.
  intros Hl s Hs. unfold write_stringz.
  assert (is_bytes (l ++ [0])) by auto with bytes.
  destruct (os_cur_null s); [by apply write_block_spec|by apply writes_chars].
Qed.
End writes.

#[export] Hint Resolve writes_ret writes_stream writes_byte writes_block writes_string
  writes_stringz writes_seq : stream.

Section reads.
Context `{InputStreamSpec St}.

Lemma reads_ret {A} (a : A) P : reads (mret a) a [] P.
Proof. intros s rest Hs D _. by exists s. Qed.

Lemma reads_bind {A B} (m : M St A) (f : A -> M St B) a b l1 l2 P Q :
  reads m a l1 P -> reads (f a) b l2 Q -> follows P l2 Q ->
  reads (m ≫= f) b (l1 ++ l2) Q.
Proof.
  intros H1 H2 HF s rest Hs D HQ. rewrite <- app_assoc in D.
  destruct (H1 s _ Hs D) as (s1 & E1 & Hs1 & D1 & M1).
  { destruct l2; simpl in *; auto. }
  destruct (H2 s1 rest Hs1 D1) as (s2 & E2 & Hs2 & D2 & M2).
  { by rewrite M1. }
  exists s2. rewrite (bind_ok _ _ _ _ _ E1), E2, M2. done.
Qed.

Lemma reads_weaken {A} (m : M St A) a l (P Q : Z -> Prop) :
  reads m a l P -> (forall x, Q x -> P x) -> reads m a l Q.
Proof. intros H1 HQ s rest Hs D HP. apply H1; auto. Qed.

Lemma reads_stream b P : reads read_stream b [b] P.
Proof. intros s rest Hs D _. by apply read_cons. Qed.

(** Peeking consumes nothing: what follows decides the continuation. *)
Lemma reads_peek {B} (f : Z -> M St B) (b : B) l P Q :
  (forall c, match l with x :: _ => c = x | [] => Q c end -> reads (f c) b l P) ->
  (forall c, P c -> Q c) ->
  reads (peek_stream ≫= f) b l P.
Proof.
  intros Hf HQ s rest Hs D HP.
  assert (exists c s1, peek_stream s = (Ok c, s1) /\ is_wf s1 /\ is_data s1 = l ++ rest /\
    is_mark s1 = is_mark s /\
    (match l with x :: _ => c = x | [] => P c end : Prop))
    as (c & s1 & E & Hs1 & D1 & M1 & Hc).
  { destruct l as [|x l]; simpl in D; [destruct rest as [|x rest]|].
    - destruct (peek_nil s Hs D) as (s1 & ? & ? & ? & ?). exists (is_mark s), s1. done.
    - destruct (peek_cons s x rest Hs D) as (s1 & ? & ? & ? & ?). exists x, s1. done.
    - destruct (peek_cons s x _ Hs D) as (s1 & ? & ? & ? & ?). exists x, s1. done. }
  rewrite (bind_ok _ _ _ _ _ E).
  destruct (Hf c) with (s := s1) (rest := rest) as (s2 & E2 & Hs2 & D2 & M2); try done.
  { destruct l; auto. }
  { by rewrite M1. }
  exists s2. rewrite M2. done.
Qed.
End reads.

#[export] Hint Resolve reads_ret reads_stream : stream.

(** What [w] writes to an output stream, [r] reads back from an input stream as
    [a], provided that [P] holds of the symbol that follows. *)
Definition roundtrip {Out Inp A B} `{OutputStreamSpec Out} `{InputStreamSpec Inp}
    (w : M Out B) (r : M Inp A) (a : A) (P : Z -> Prop) : Prop :=
  forall o, os_wf o -> exists b o' text, w o = (Ok b, o') /\ os_wf o' /\
    os_data o' = os_data o ++ text /\
    forall i rest, is_wf i -> is_data i = text ++ rest ->
    P (match rest with c :: _ => c | [] => is_mark i end) ->
    exists i', r i = (Ok a, i') /\ is_wf i' /\ is_data i' = rest /\ is_mark i' = is_mark i.

Lemma roundtrip_intro {Out Inp A B} `{OutputStreamSpec Out} `{InputStreamSpec Inp}
    (w : M Out B) (r : M Inp A) (b : B) (a : A) text P :
  writes w b text -> reads r a text P -> roundtrip w r a P.
Proof.
  intros Hw Hr o Ho. destruct (Hw o Ho) as (o' & E & Ho' & D & _).
  exists b, o', text. split_and!; [done|done|done|]. exact Hr.
Qed.

(** ** Byte array output stream *)

(** [ba_buf] is the inline array of 256 bytes, [ba_mem] the heap block ([None]
    for [NULL]) of [ba_max] bytes.  Memory that the code does not initialise
    reads as zero. *)
Record ByteArrayOutputStream := {
  ba_buf : bytes;
  ba_mem : option bytes;
  ba_pos : Z;
  ba_max : Z;
}.

Definition BA_BUF_SIZE : Z := 256.

Definition alloc (n : Z) : bytes := replicate (Z.to_nat n) 0.

(** [realloc] to a larger size keeps the old content. *)
Definition realloc (m : bytes) (n : Z) : bytes :=
  take (Z.to_nat n) m ++ alloc (n - zlen m).

Definition create_byte_array_output_stream : ByteArrayOutputStream :=
  {| ba_buf := alloc BA_BUF_SIZE; ba_mem := None; ba_pos := 0; ba_max := 0 |}.

(** [buf[pos..] = l; pos += n] in the inline array, resp. in the heap block. *)
Definition ba_put_buf (l : bytes) (s : ByteArrayOutputStream) : option ByteArrayOutputStream :=
  m ← mem_write (ba_buf s) (ba_pos s) l;
  Some {| ba_buf := m; ba_mem := ba_mem s; ba_pos := ba_pos s + zlen l; ba_max := ba_max s |}.

Definition ba_put_mem (l : bytes) (s : ByteArrayOutputStream) : option ByteArrayOutputStream :=
  mem ← ba_mem s;
  m ← mem_write mem (ba_pos s) l;
  Some {| ba_buf := ba_buf s; ba_mem := Some m; ba_pos := ba_pos s + zlen l; ba_max := ba_max s |}.

(** [mem = loc_alloc(max = n); memcpy(mem, buf, pos)]. *)
Definition ba_alloc (n : Z) (s : ByteArrayOutputStream) : option ByteArrayOutputStream :=
  src ← mem_read (ba_buf s) 0 (ba_pos s);
  m ← mem_write (alloc n) 0 src;
  Some {| ba_buf := ba_buf s; ba_mem := Some m; ba_pos := ba_pos s; ba_max := n |}.

(** [mem = loc_realloc(mem, max = n)]. *)
Definition ba_realloc (n : Z) (s : ByteArrayOutputStream) : option ByteArrayOutputStream :=
  mem ← ba_mem s;
  Some {| ba_buf := ba_buf s; ba_mem := Some (realloc mem n); ba_pos := ba_pos s; ba_max := n |}.

Definition liftS {S} (f : S -> option S) : M S unit := fun s =>
  match f s with Some s' => (Ok tt, s') | None => (Undef, s) end.

Definition write_byte_array_output_stream (byte : Z) : M ByteArrayOutputStream unit := fun s =>
  if ba_pos s <? BA_BUF_SIZE then liftS (ba_put_buf [u8 byte]) s
  else
    let prepare :=
      match ba_mem s with
      | None => ba_alloc (ba_pos s * 2)
      | Some _ => if ba_max s <=? ba_pos s then ba_realloc (ba_max s * 2) else Some
      end in
    (liftS prepare ;; liftS (ba_put_mem [u8 byte])) s.

(** The loop of [write_block_byte_array_output_stream]; [l] are the bytes that
    are left, [n = size - pos]. *)
Fixpoint write_block_ba_loop (fuel : nat) (l : bytes) : M ByteArrayOutputStream unit :=
  match fuel with
  | O => nofuel
  | S fuel => fun s =>
      if zlen l <=? 0 then (Ok tt, s)
      else
        let n := zlen l in
        let '(prepare, n) :=
          match ba_mem s with
          | None => (ba_alloc ((ba_pos s + n) * 2), n)
          | Some _ =>
              if ba_max s <=? ba_pos s then (ba_realloc ((ba_pos s + n) * 2), n)
              else if ba_max s - ba_pos s <? n then (Some, ba_max s - ba_pos s)
              else (Some, n)
          end in
        (liftS prepare ;; liftS (ba_put_mem (ztake n l)) ;;
         write_block_ba_loop fuel (zdrop n l)) s
  end.

Definition write_block_byte_array_output_stream (l : bytes) : M ByteArrayOutputStream unit :=
  fun s =>
    if ba_pos s + zlen l <=? BA_BUF_SIZE then liftS (ba_put_buf l) s
    else write_block_ba_loop (S (length l)) l s.

#[export] Instance ba_OutputStream : OutputStream ByteArrayOutputStream := {
  os_supports_zero_copy _ := false;
  os_cur_null _ := true;
  os_space _ := 0;
  os_store l := if zlen l =? 0 then mret tt else undef;
  os_write := write_byte_array_output_stream;
  os_write_block := write_block_byte_array_output_stream;
}.

(** Returns the data and the stream after the call. *)
Definition get_byte_array_output_stream_data (s : ByteArrayOutputStream) :
    option (bytes * ByteArrayOutputStream) :=
  s ← match ba_mem s with None => ba_alloc (ba_pos s) s | Some _ => Some s end;
  mem ← ba_mem s;
  data ← mem_read mem 0 (ba_pos s);
  Some (data, {| ba_buf := ba_buf s; ba_mem := None; ba_pos := 0; ba_max := 0 |}).

(** The array that holds the data, and the data. *)
Definition ba_array (s : ByteArrayOutputStream) : bytes :=
  match ba_mem s with Some m => m | None => ba_buf s end.
Definition ba_data (s : ByteArrayOutputStream) : bytes := ztake (ba_pos s) (ba_array s).

(** Inside of a call: the heap block has the size the stream believes it has
    and the position is inside of the array in use. *)
Definition ba_ok (s : ByteArrayOutputStream) : Prop :=
  zlen (ba_buf s) = BA_BUF_SIZE /\ 0 <= ba_pos s <= zlen (ba_array s) /\
  (forall m, ba_mem s = Some m -> zlen m = ba_max s).

(** Between calls: the heap block is in use only for data that do not fit into
    the inline array. *)
Definition ba_wf (s : ByteArrayOutputStream) : Prop :=
  ba_ok s /\ (is_Some (ba_mem s) -> BA_BUF_SIZE < ba_pos s).

Lemma zlen_alloc n : 0 <= n -> zlen (alloc n) = n.
Proof. intros. unfold zlen, alloc. rewrite length_replicate. lia. Qed.

Lemma realloc_ok m n : zlen m <= n ->
  zlen (realloc m n) = n /\ ztake (zlen m) (realloc m n) = m.
Proof.
  intros Hn. pose proof (zlen_nonneg m). unfold realloc.
  change (take (Z.to_nat n) m) with (ztake n m). rewrite ztake_all by done. split.
  - rewrite zlen_app, zlen_alloc; lia.
  - by apply ztake_app_exact.
Qed.

Lemma ztake_ztake {A} n k (l : list A) : n <= k -> ztake n (ztake k l) = ztake n l.
Proof. intros. unfold ztake. rewrite take_take. f_equal. lia. Qed.

Section byte_array.
Implicit Types s : ByteArrayOutputStream.

Lemma ba_put_buf_ok s l :
  ba_ok s -> ba_mem s = None -> ba_pos s + zlen l <= BA_BUF_SIZE ->
  exists s', liftS (ba_put_buf l) s = (Ok tt, s') /\ ba_ok s' /\
    ba_mem s' = None /\ ba_data s' = ba_data s ++ l.
Proof.
  intros (Hb & Hp & Hm) HN Hl. unfold ba_data, ba_array in *. rewrite HN in *.
  destruct (mem_write_ok (ba_buf s) (ba_pos s) l) as (m & E & Hlen & Ht); [lia..|].
  eexists. unfold liftS, ba_put_buf. rewrite E. split; [done|].
  pose proof (zlen_nonneg l). unfold ba_ok, ba_array; simpl. rewrite HN.
  split; [|split]; [|done..]. split; [lia|]. split; [lia|congruence].
Qed.

Lemma ba_put_mem_ok s l m :
  ba_ok s -> ba_mem s = Some m -> ba_pos s + zlen l <= ba_max s ->
  exists s', liftS (ba_put_mem l) s = (Ok tt, s') /\ ba_ok s' /\
    is_Some (ba_mem s') /\ ba_pos s' = ba_pos s + zlen l /\ ba_data s' = ba_data s ++ l.
Proof.
  intros (Hb & Hp & Hm) HS Hl. unfold ba_data, ba_array in *. rewrite HS in *.
  specialize (Hm m eq_refl).
  destruct (mem_write_ok m (ba_pos s) l) as (m' & E & Hlen & Ht); [lia..|].
  eexists. unfold liftS, ba_put_mem. rewrite HS. simpl. rewrite E. split; [done|].
  pose proof (zlen_nonneg l). unfold ba_ok, ba_array; simpl.
  split; [|split; [|split]]; [|done..]. split; [lia|]. split; [lia|]. intros ? [= <-]. lia.
Qed.

Lemma ba_alloc_ok s n :
  ba_ok s -> ba_mem s = None -> ba_pos s <= n ->
  exists s', liftS (ba_alloc n) s = (Ok tt, s') /\ ba_ok s' /\
    is_Some (ba_mem s') /\ ba_max s' = n /\ ba_pos s' = ba_pos s /\ ba_data s' = ba_data s.
Proof.
  intros (Hb & Hp & Hm) HN Hn. unfold ba_data, ba_array in *. rewrite HN in *.
  unfold liftS, ba_alloc. rewrite mem_read_ok by lia. simpl. rewrite zdrop_0.
  assert (Hl : zlen (ztake (ba_pos s) (ba_buf s)) = ba_pos s) by (apply zlen_ztake; lia).
  destruct (mem_write_ok (alloc n) 0 (ztake (ba_pos s) (ba_buf s))) as (m & E & Hlen & Ht);
    rewrite ?Hl, ?zlen_alloc in * by lia; [lia..|].
  eexists. rewrite E. split; [done|]. unfold ba_ok, ba_array; simpl.
  repeat split; [done|lia|lia| |done|done].
  intros ? [= <-]. lia.
Qed.

Lemma ba_realloc_ok s n m :
  ba_ok s -> ba_mem s = Some m -> ba_max s <= n ->
  exists s', liftS (ba_realloc n) s = (Ok tt, s') /\ ba_ok s' /\
    is_Some (ba_mem s') /\ ba_max s' = n /\ ba_pos s' = ba_pos s /\ ba_data s' = ba_data s.
Proof.
  intros (Hb & Hp & Hm) HS Hn. unfold ba_data, ba_array in *. rewrite HS in *.
  specialize (Hm m eq_refl). unfold liftS, ba_realloc. rewrite HS. simpl.
  destruct (realloc_ok m n) as [Hr1 Hr2]; [lia|].
  eexists. split; [done|]. unfold ba_ok, ba_array; simpl.
  repeat split; [done|lia|lia| |done|].
  - intros ? [= <-]. lia.
  - rewrite <- Hr2 at 2. rewrite ztake_ztake by lia. done.
Qed.

(** One iteration of the loop: some bytes are consumed. *)
Lemma write_block_ba_loop_ok fuel s l :
  ba_ok s -> (is_Some (ba_mem s) -> 0 < ba_max s) -> (length l < fuel)%nat ->
  exists s', write_block_ba_loop fuel l s = (Ok tt, s') /\ ba_ok s' /\
    ba_pos s' = ba_pos s + zlen l /\ ba_data s' = ba_data s ++ l /\
    (l <> [] -> is_Some (ba_mem s')) /\ (is_Some (ba_mem s) -> is_Some (ba_mem s')).
Proof.
  revert s l. induction fuel as [|fuel IH]; intros s l Hs Hmx Hf; [lia|].
  cbn [write_block_ba_loop]. destruct (Z.leb_spec (zlen l) 0) as [Hz|Hz].
  { destruct l; [|unfold zlen in Hz; simpl in Hz; lia].
    exists s. rewrite app_nil_r, zlen_nil. split_and!; auto; try lia. done. }
  set (n := zlen l) in *.
  set (pr := match ba_mem s with None => _ | Some _ => _ end).
  assert (exists prep k s1, pr = (prep, k) /\ 0 < k <= n /\ liftS prep s = (Ok tt, s1) /\
    ba_ok s1 /\ is_Some (ba_mem s1) /\ ba_pos s1 = ba_pos s /\ ba_data s1 = ba_data s /\
    ba_pos s + k <= ba_max s1) as (prep & k & s1 & -> & Hk & E1 & Hs1 & HS1 & Hp1 & Hd1 & Hk1).
  { pose proof Hs as (Hb & Hp & Hm). subst pr. unfold ba_array in *.
    destruct (ba_mem s) as [m|] eqn:HM.
    - specialize (Hm m eq_refl). specialize (Hmx (mk_is_Some _ _ eq_refl)).
      destruct (Z.leb_spec (ba_max s) (ba_pos s)).
      + destruct (ba_realloc_ok s ((ba_pos s + n) * 2) m) as (s1 & ? & ? & ? & ? & ? & ?);
          [done..|lia|]. eexists _, n, s1. split_and!; eauto; lia.
      + destruct (Z.ltb_spec (ba_max s - ba_pos s) n); eexists _, _, s; split_and!; eauto; lia.
    - destruct (ba_alloc_ok s ((ba_pos s + n) * 2)) as (s1 & ? & ? & ? & ? & ? & ?);
        [done..|lia|]. eexists _, n, s1. split_and!; eauto; lia. }
  cbn beta iota zeta. rewrite (bind_ok _ _ _ _ _ E1). destruct HS1 as [m1 HS1].
  assert (Hkl : zlen (ztake k l) = k) by (apply zlen_ztake; lia).
  destruct (ba_put_mem_ok s1 (ztake k l) m1) as (s2 & E2 & Hs2 & HS2 & Hp2 & Hd2);
    [done..|lia|]. rewrite (bind_ok _ _ _ _ _ E2).
  assert (Hdl : zlen (zdrop k l) = n - k) by (apply zlen_zdrop; lia).
  destruct (IH s2 (zdrop k l)) as (s3 & E3 & Hs3 & Hp3 & Hd3 & _ & HS3); [done| |unfold n, zlen in *; lia|].
  { intros _. pose proof Hs as (_ & Hp0 & _). pose proof Hs2 as (_ & Hp & Hm). destruct HS2 as [m2 HS2]. unfold ba_array in Hp.
    rewrite HS2 in Hp. rewrite <- (Hm m2) by done. lia. }
  exists s3. split_and!; auto; [lia|].
  rewrite Hd3, Hd2, Hd1, <- app_assoc, ztake_zdrop. done.
Qed.

Lemma write_block_ba_ok s l :
  ba_wf s ->
  exists s', write_block_byte_array_output_stream l s = (Ok tt, s') /\ ba_wf s' /\
    ba_data s' = ba_data s ++ l.
Proof.
  intros [Hs Hbig]. unfold write_block_byte_array_output_stream.
  pose proof Hs as (Hb & Hp & Hm). pose proof (zlen_nonneg l).
  destruct (Z.leb_spec (ba_pos s + zlen l) BA_BUF_SIZE) as [Hl|Hl].
  - destruct (ba_mem s) eqn:HM; [specialize (Hbig (mk_is_Some _ _ eq_refl)); lia|].
    destruct (ba_put_buf_ok s l) as (s' & E & Hs' & HN & Hd); [done..|].
    exists s'. split_and!; [done| |done]. split; [done|]. rewrite HN. by intros [? ?].
  - destruct (write_block_ba_loop_ok (S (length l)) s l) as (s' & E & Hs' & Hp' & Hd & HS & HS');
      [done| |lia|].
    { intros HS. specialize (Hbig HS). destruct HS as [m HS]. unfold ba_array in Hp.
      rewrite HS in Hp. specialize (Hm m HS). unfold BA_BUF_SIZE in *. lia. }
    exists s'. split_and!; [done| |done]. split; [done|]. lia.
Qed.

Lemma write_ba_ok s b :
  ba_wf s -> is_byte b ->
  exists s', write_byte_array_output_stream b s = (Ok tt, s') /\ ba_wf s' /\
    ba_data s' = ba_data s ++ [b].
Proof.
  intros [Hs Hbig] Hbyte. unfold write_byte_array_output_stream. rewrite u8_byte by done.
  pose proof Hs as (Hb & Hp & Hm).
  destruct (Z.ltb_spec (ba_pos s) BA_BUF_SIZE) as [Hl|Hl].
  - destruct (ba_mem s) eqn:HM; [specialize (Hbig (mk_is_Some _ _ eq_refl)); lia|].
    destruct (ba_put_buf_ok s [b]) as (s' & E & Hs' & HN & Hd); [done..|zlia|].
    exists s'. split_and!; [done| |done]. split; [done|]. rewrite HN. by intros [? ?].
  - set (prep := match ba_mem s with None => _ | Some _ => _ end).
    assert (exists s1, liftS prep s = (Ok tt, s1) /\ ba_ok s1 /\ is_Some (ba_mem s1) /\
      ba_pos s1 = ba_pos s /\ ba_data s1 = ba_data s /\ ba_pos s + 1 <= ba_max s1)
      as (s1 & E1 & Hs1 & [m1 HS1] & Hp1 & Hd1 & Hm1).
    { subst prep. unfold ba_array, BA_BUF_SIZE in *. destruct (ba_mem s) as [m|] eqn:HM.
      - specialize (Hm m eq_refl). destruct (Z.leb_spec (ba_max s) (ba_pos s)).
        + destruct (ba_realloc_ok s (ba_max s * 2) m) as (s1 & ? & ? & ? & ? & ? & ?);
            [done..|lia|]. exists s1. split_and!; auto; lia.
        + exists s. split_and!; eauto; lia.
      - destruct (ba_alloc_ok s (ba_pos s * 2)) as (s1 & ? & ? & ? & ? & ? & ?); [done..|lia|].
        exists s1. split_and!; auto; lia. }
    cbn zeta. rewrite (bind_ok _ _ _ _ _ E1).
    destruct (ba_put_mem_ok s1 [b] m1) as (s2 & E2 & Hs2 & HS2 & Hp2 & Hd2); [done..|zlia|].
    exists s2. split_and!; [done| |by rewrite Hd2, Hd1]. split; [done|]. zlia.
Qed.

Lemma ba_store_ok s l :
  ba_wf s -> zlen l <= 0 ->
  exists s', os_store l s = (Ok tt, s') /\ ba_wf s' /\ ba_data s' = ba_data s ++ l.
Proof.
  intros Hs Hl. destruct l; [|pose proof (zlen_nonneg l); zlia].
  exists s. rewrite app_nil_r. done.
Qed.
End byte_array.

#[export] Program Instance ba_OutputStreamSpec : OutputStreamSpec ByteArrayOutputStream := {
  os_wf := ba_wf;
  os_data := ba_data;
  os_symbol := is_byte;
}.
Next Obligation. auto. Qed.
Next Obligation. unfold is_byte. lia. Qed.
Next Obligation. done. Qed.
Next Obligation. intros s l Hs _ _ Hl. destruct (ba_store_ok s l) as (s' & ?); eauto. by exists s'; destruct_and!. Qed.
Next Obligation. intros s b Hs Hb. destruct (write_ba_ok s b) as (s' & ?); eauto. by exists s'; destruct_and!. Qed.
Next Obligation. intros s l Hs _. destruct (write_block_ba_ok s l) as (s' & ?); eauto. by exists s'; destruct_and!. Qed.

Lemma create_byte_array_output_stream_ok :
  ba_wf create_byte_array_output_stream /\ ba_data create_byte_array_output_stream = [].
Proof.
  split; [|done]. split; [|by intros [? ?]]. split; [done|]. split; [done|]. by intros ? ?.
Qed.

(** The data collected by the stream are what has been written, and the stream
    can be used again. *)
Lemma get_byte_array_output_stream_data_ok s :
  ba_wf s ->
  exists s', get_byte_array_output_stream_data s = Some (ba_data s, s') /\
    ba_wf s' /\ ba_data s' = [].
Proof.
  intros [Hs Hbig]. unfold get_byte_array_output_stream_data.
  assert (exists s1 m, match ba_mem s with None => ba_alloc (ba_pos s) s | Some _ => Some s end
    = Some s1 /\ ba_ok s1 /\ ba_mem s1 = Some m /\ ba_data s1 = ba_data s)
    as (s1 & m & -> & Hs1 & HS & Hd).
  { destruct (ba_mem s) as [m|] eqn:HM; [by exists s, m|].
    destruct (ba_alloc_ok s (ba_pos s)) as (s1 & E & Hs1 & [m HS] & _ & _ & Hd); [done..|].
    unfold liftS in E. destruct (ba_alloc _ s); simplify_eq. by exists s1, m. }
  cbn. rewrite HS. cbn. destruct Hs1 as (Hb & Hp & Hm). unfold ba_data at 1 in Hd.
  unfold ba_array in Hd, Hp. rewrite HS in Hd, Hp. rewrite mem_read_ok by lia. cbn.
  rewrite zdrop_0, Hd. eexists. split; [done|]. split; [|done].
  split; [|by intros [? ?]]. split; [done|]. unfold BA_BUF_SIZE in *.
  split; [cbn; lia|by intros ? ?].
Qed.

(** ** Byte array input stream: the window is the whole array. *)

Record ByteArrayInputStream := { bi_window : bytes }.

Definition create_byte_array_input_stream (data : bytes) : ByteArrayInputStream :=
  {| bi_window := data |}.

Definition read_byte_array_input_stream : M ByteArrayInputStream Z := fun s =>
  match bi_window s with
  | [] => (Ok MARKER_EOS, s)
  | b :: l => (Ok b, {| bi_window := l |})
  end.

Definition peek_byte_array_input_stream : M ByteArrayInputStream Z := fun s =>
  match bi_window s with
  | [] => (Ok MARKER_EOS, s)
  | b :: _ => (Ok b, s)
  end.

#[export] Instance bi_InputStream : InputStream ByteArrayInputStream := {
  is_window := bi_window;
  is_advance s := {| bi_window := tail (bi_window s) |};
  is_read := read_byte_array_input_stream;
  is_peek := peek_byte_array_input_stream;
  is_fuel s := S (length (bi_window s));
}.

#[export] Program Instance bi_InputStreamSpec : InputStreamSpec ByteArrayInputStream := {
  is_wf s := is_bytes (bi_window s);
  is_data := bi_window;
  is_mark _ := MARKER_EOS;
}.
Next Obligation. done. Qed.
Next Obligation. done. Qed.
Next Obligation. simpl. lia. Qed.
Next Obligation.
  intros [w] b l Hs; simpl. intros ->. inversion Hs; subst.
  unfold read_stream; simpl. eexists. done.
Qed.
Next Obligation.
  intros [w] Hs; simpl. intros ->. unfold read_stream; simpl. eexists. done.
Qed.
Next Obligation.
  intros [w] b l Hs; simpl. intros ->. unfold peek_stream; simpl. eexists. done.
Qed.
Next Obligation.
  intros [w] Hs; simpl. intros ->. unfold peek_stream; simpl. eexists. done.
Qed.
Next Obligation.
  intros [w] b l Hs; simpl in *. intros ->. by inversion Hs.
Qed.

(** ** Forwarding input stream: every symbol read is also written to [fw_out]. *)

Record ForwardingInputStream (Inp Out : Type) := { fw_inp : Inp; fw_out : Out }.
Arguments fw_inp {Inp Out} _.
Arguments fw_out {Inp Out} _.
Arguments Build_ForwardingInputStream {Inp Out} _ _.

Section forwarding.
Context {Inp Out : Type} `{InputStream Inp} `{OutputStream Out}.

Definition create_forwarding_input_stream (inp : Inp) (out : Out) : ForwardingInputStream Inp Out :=
  {| fw_inp := inp; fw_out := out |}.

Definition on_fw_inp {A} (m : M Inp A) : M (ForwardingInputStream Inp Out) A := fun s =>
  let '(r, i) := m (fw_inp s) in (r, {| fw_inp := i; fw_out := fw_out s |}).
Definition on_fw_out {A} (m : M Out A) : M (ForwardingInputStream Inp Out) A := fun s =>
  let '(r, o) := m (fw_out s) in (r, {| fw_inp := fw_inp s; fw_out := o |}).

Definition read_forwarding_input_stream : M (ForwardingInputStream Inp Out) Z :=
  ch ← on_fw_inp read_stream;
  (if ch =? MARKER_EOS then mret tt else on_fw_out (write_stream ch)) ;;
  mret ch.

Definition peek_forwarding_input_stream : M (ForwardingInputStream Inp Out) Z :=
  on_fw_inp peek_stream.

#[export] Instance fw_InputStream : InputStream (ForwardingInputStream Inp Out) := {
  is_window _ := [];
  is_advance s := s;
  is_read := read_forwarding_input_stream;
  is_peek := peek_forwarding_input_stream;
  is_fuel s := is_fuel (fw_inp s);
}.
End forwarding.

(** Reading through the forwarding stream delivers the same bytes as reading
    the underlying stream, and copies each of them to the output; the end of
    the stream is not copied. *)
Section forwarding_spec.
Context {Inp Out : Type} `{InputStreamSpec Inp} `{OutputStreamSpec Out}.
Implicit Types s : ForwardingInputStream Inp Out.

Lemma read_forwarding_ok s b l :
  is_wf (fw_inp s) -> os_wf (fw_out s) -> is_data (fw_inp s) = b :: l ->
  exists s', read_stream s = (Ok b, s') /\ is_wf (fw_inp s') /\ os_wf (fw_out s') /\
    is_data (fw_inp s') = l /\ os_data (fw_out s') = os_data (fw_out s) ++ [b].
Proof.
  intros Hi Ho Hd. destruct (read_cons _ _ _ Hi Hd) as (i & E & Hi' & Hd' & Hm).
  pose proof (is_data_bytes _ Hi) as Hb. rewrite Hd in Hb. inversion Hb as [|? ? Hb1]; subst.
  destruct (writes_byte b Hb1 (fw_out s) Ho) as (o & Eo & Ho' & Hdo & _).
  assert (b =? MARKER_EOS = false) as EM.
  { apply Z.eqb_neq. unfold is_byte, MARKER_EOS in *. lia. }
  exists {| fw_inp := i; fw_out := o |}. split; [|done].
  change (read_stream s) with (read_forwarding_input_stream s).
  unfold read_forwarding_input_stream, on_fw_inp, on_fw_out, mbind, M_bind.
  rewrite E, EM. cbn. rewrite Eo. done.
Qed.
End forwarding_spec.

(** ** Properties *)

(** A use of an output stream: a character or a block. *)
Inductive stream_op :=
| op_byte (b : Z)
| op_block (l : bytes)
| op_string (l : bytes)
| op_stringz (l : bytes).

Definition run_op `{OutputStream St} (op : stream_op) : M St unit :=
  match op with
  | op_byte b => write_stream b
  | op_block l => write_block_stream l
  | op_string l => write_string l
  | op_stringz l => write_stringz l
  end.

Definition op_data (op : stream_op) : bytes :=
  match op with
  | op_byte b => [b]
  | op_block l | op_string l => l
  | op_stringz l => l ++ [0]
  end.

Fixpoint run_ops `{OutputStream St} (ops : list stream_op) : M St unit :=
  match ops with
  | [] => mret tt
  | op :: ops => run_op op ;; run_ops ops
  end.

Lemma writes_ops `{OutputStreamSpec St} ops :
  Forall (fun op => is_bytes (op_data op)) ops -> writes (run_ops ops) tt (mjoin (op_data <$> ops)).
Proof.
  induction 1 as [|op ops Hop Hops IH]; [apply writes_ret|].
  eapply writes_seq; [|exact IH]. destruct op; cbn [op_data run_op] in *; auto with stream.
  - apply writes_byte. by inversion Hop.
  - apply writes_stringz. by apply Forall_app in Hop as [? _].
Qed.

(** The byte array stream collects exactly the bytes written to it, in
    order, however they are written and however much the buffer has to grow;
    taking the data leaves an empty stream that can be used again. *)
Lemma byte_array_stream_collects ops :
  Forall (fun op => is_bytes (op_data op)) ops ->
  exists s s', run_ops ops create_byte_array_output_stream = (Ok tt, s) /\
    get_byte_array_output_stream_data s = Some (mjoin (op_data <$> ops), s') /\
    ba_wf s' /\ ba_data s' = [].
Proof.
  intros Hops. destruct create_byte_array_output_stream_ok as [Hw Hd].
  assert (HW : writes (St := ByteArrayOutputStream) (run_ops ops) tt (mjoin (op_data <$> ops)))
    by (by apply writes_ops).
  destruct (HW _ Hw) as (s & E & Hs & D & _).
  destruct (get_byte_array_output_stream_data_ok s Hs) as (s' & Eg & Hs' & Hd').
  change (os_data s) with (ba_data s) in D.
  change (os_data create_byte_array_output_stream) with (ba_data create_byte_array_output_stream) in D.
  rewrite Hd in D. cbn [app] in D. exists s, s'. by rewrite Eg, D.
Qed.

Lemma byte_array_stream_collects_witness :
  Forall (fun op => is_bytes (op_data op)) [op_byte 3; op_block [1; 255]; op_stringz [65]] /\
  exists s s', run_ops [op_byte 3; op_block [1; 255]; op_stringz [65]]
      create_byte_array_output_stream = (Ok tt, s) /\
    get_byte_array_output_stream_data s = Some ([3; 1; 255; 65; 0], s') /\
    ba_wf s' /\ ba_data s' = [].
Proof.
  assert (H : Forall (fun op => is_bytes (op_data op)) [op_byte 3; op_block [1; 255]; op_stringz [65]]).
  { repeat constructor; done. }
  split; [exact H|]. exact (byte_array_stream_collects _ H).
Defined.
