(* ===== verification/Base64.v ===== *)
(** * BASE64 (framework/base64.c)

    The encoder, which collects its output in a local array and hands it to the
    stream in blocks, and the decoder, which stops at the first character that
    is not in the alphabet. *)

From S2P Require Import Prelude Streams.

Definition int2char : bytes :=
  str "ABCDEFGHIJKLMNOPQRSTUVWXYZabcdefghijklmnopqrstuvwxyz0123456789+/".

Definition char2int : list Z := [
    -1;  -1;  -1;  -1;  -1;  -1;  -1;  -1;
    -1;  -1;  -1;  -1;  -1;  -1;  -1;  -1;
    -1;  -1;  -1;  -1;  -1;  -1;  -1;  -1;
    -1;  -1;  -1;  -1;  -1;  -1;  -1;  -1;
    -1;  -1;  -1;  -1;  -1;  -1;  -1;  -1;
    -1;  -1;  -1;  62;  -1;  -1;  -1;  63;
    52;  53;  54;  55;  56;  57;  58;  59;
    60;  61;  -1;  -1;  -1;  -1;  -1;  -1;
    -1;   0;   1;   2;   3;   4;   5;   6;
     7;   8;   9;  10;  11;  12;  13;  14;
    15;  16;  17;  18;  19;  20;  21;  22;
    23;  24;  25;  -1;  -1;  -1;  -1;  -1;
    -1;  26;  27;  28;  29;  30;  31;  32;
    33;  34;  35;  36;  37;  38;  39;  40;
    41;  42;  43;  44;  45;  46;  47;  48;
    49; 50; 51 ].

Definition OBF_SIZE : Z := 256.

Section base64.
Context {St : Type}.

(** [obf[obf_len++] = int2char[i]] and [obf[obf_len++] = c], into the array of
    [OBF_SIZE + 8] characters. *)
Definition obf_add (obf : bytes) (c : Z) : M St bytes :=
  if zlen obf <? OBF_SIZE + 8 then mret (obf ++ [c]) else undef.
Definition obf_int (obf : bytes) (i : Z) : M St bytes :=
  c ← of_option (znth int2char i); obf_add obf c.

Section encode.
Context `{OutputStream St}.

(** The end of an iteration: the block is written when it is full. *)
Definition obf_flush (obf : bytes) : M St bytes :=
  if OBF_SIZE <=? zlen obf then write_block_stream obf ;; mret [] else mret obf.

Fixpoint write_base64_loop (buf obf : bytes) : M St unit :=
  match buf with
  | [] => if 0 <? zlen obf then write_block_stream obf else mret tt
  | byte0 :: buf =>
      obf ← obf_int obf (Z.shiftr byte0 2);
      match buf with
      | [] =>
          obf ← obf_int obf (Z.land (Z.shiftl byte0 4) 63);
          obf ← obf_add obf (#"=");
          obf ← obf_add obf (#"=");
          obf ← obf_flush obf;
          write_base64_loop buf obf
      | byte1 :: buf =>
          obf ← obf_int obf (Z.lor (Z.land (Z.shiftl byte0 4) 63) (Z.shiftr byte1 4));
          match buf with
          | [] =>
              obf ← obf_int obf (Z.land (Z.shiftl byte1 2) 63);
              obf ← obf_add obf (#"=");
              obf ← obf_flush obf;
              write_base64_loop buf obf
          | byte2 :: buf =>
              obf ← obf_int obf (Z.lor (Z.land (Z.shiftl byte1 2) 63) (Z.shiftr byte2 6));
              obf ← obf_int obf (Z.land byte2 63);
              obf ← obf_flush obf;
              write_base64_loop buf obf
          end
      end
  end.

Definition write_base64 (buf : bytes) : M St Z :=
  write_base64_loop buf [] ;; mret ((zlen buf + 2) / 3 * 4).
End encode.

Section decode.
Context `{InputStream St}.

(** [ch < 0 || ch >= ch_max || (n = char2int[ch]) < 0] fails: the value of
    the character. *)
Definition char_value (ch : Z) : option Z :=
  if (ch <? 0) || (zlen char2int <=? ch) then None
  else n ← znth char2int ch; if n <? 0 then None else Some n.

(** The loop has stored [buf] so far and returns all it stores; [fuel]
    bounds the number of groups that fit into [buf_size]. *)
Fixpoint read_base64_loop (fuel : nat) (buf : bytes) (buf_size : Z) : M St bytes :=
  match fuel with
  | O => nofuel
  | S fuel =>
      if zlen buf + 3 <=? buf_size then
        ch0 ← peek_stream;
        match char_value ch0 with
        | None => mret buf
        | Some n0 =>
            read_stream ;;
            ch1 ← read_stream;
            ch2 ← read_stream;
            ch3 ← read_stream;
            match char_value ch1 with
            | None => exception ERR_BASE64
            | Some n1 =>
                let buf := buf ++ [u8 (Z.lor (Z.shiftl n0 2) (Z.shiftr n1 4))] in
                if ch2 =? #"=" then mret buf
                else match char_value ch2 with
                | None => exception ERR_BASE64
                | Some n2 =>
                    let buf := buf ++ [u8 (Z.lor (Z.shiftl n1 4) (Z.shiftr n2 2))] in
                    if ch3 =? #"=" then mret buf
                    else match char_value ch3 with
                    | None => exception ERR_BASE64
                    | Some n3 =>
                        let buf := buf ++ [u8 (Z.lor (Z.shiftl n2 6) n3)] in
                        read_base64_loop fuel buf buf_size
                    end
                end
            end
        end
      else mret buf
  end.

(** Returns the bytes stored into [buf]; their number is the result. *)
Definition read_base64 (buf_size : Z) : M St bytes :=
  assertm (3 <=? buf_size) ;;
  read_base64_loop (S (Z.to_nat buf_size)) [] buf_size.
End decode.
End base64.

(** ** Specification

    The reference encoding reads three bytes as a 24 bit number and writes its
    four base 64 digits; a shorter last group is padded. *)

Definition b64_digit (n : Z) : Z := nth (Z.to_nat (n mod 64)) int2char 0.

Definition b64_digits (n : Z) : bytes :=
  [b64_digit (n / 262144); b64_digit (n / 4096); b64_digit (n / 64); b64_digit n].

Fixpoint base64_text (l : bytes) : bytes :=
  match l with
  | [] => []
  | [a] => take 2 (b64_digits (a * 65536)) ++ [#"="; #"="]
  | [a; b] => take 3 (b64_digits (a * 65536 + b * 256)) ++ [#"="]
  | a :: b :: c :: l => b64_digits (a * 65536 + b * 256 + c) ++ base64_text l
  end.

Definition is_b64 (c : Z) : Prop := is_Some (char_value c).

Lemma b64_ind (P : bytes -> Prop) :
  P [] -> (forall a, P [a]) -> (forall a b, P [a; b]) ->
  (forall a b c l, P l -> P (a :: b :: c :: l)) -> forall l, P l.
Proof.
  intros H0 H1 H2 H3. fix IH 1. intros [|a [|b [|c l]]]; [done|done|done|].
  apply H3, IH.
Qed.

(** ** Digits *)

Lemma digit_facts i : 0 <= i < 64 ->
  znth int2char i = Some (b64_digit i) /\ char_value (b64_digit i) = Some i /\
  is_byte (b64_digit i) /\ b64_digit i <> #"=".
Proof.
  intros Hi.
  assert (E : bool_decide (znth int2char i = Some (b64_digit i) /\
    char_value (b64_digit i) = Some i /\ 0 <= b64_digit i < 256 /\ b64_digit i <> #"=") = true).
  { revert i Hi. apply forall_below_spec. by vm_compute. }
  by apply bool_decide_true in E.
Qed.

Lemma b64_digit_mod n : b64_digit (n mod 64) = b64_digit n.
Proof. unfold b64_digit. by rewrite Z.mod_mod. Qed.

Lemma obf_int_ok {St} (obf : bytes) i : 0 <= i < 64 -> zlen obf < OBF_SIZE + 8 ->
  obf_int (St := St) obf i = mret (obf ++ [b64_digit i]).
Proof.
  intros Hi Hl. unfold obf_int, obf_add. destruct (digit_facts i Hi) as (-> & _).
  apply Z.ltb_lt in Hl. unfold of_option, mbind, M_bind, mret, M_ret. cbn. rewrite Hl. done.
Qed.

(** The index computations of the code, as arithmetic. *)
Lemma index_lo a k : 0 <= k <= 6 -> Z.land (Z.shiftl a k) 63 = a mod 2 ^ (6 - k) * 2 ^ k.
Proof.
  intros. rewrite Z.shiftl_mul_pow2 by lia. change 63 with (2 ^ 6 - 1).
  rewrite land_mod by lia. replace (2 ^ 6) with (2 ^ (6 - k) * 2 ^ k).
  - apply Z.mul_mod_distr_r; apply Z.pow_nonzero; lia.
  - rewrite <- Z.pow_add_r by lia. f_equal. lia.
Qed.

Lemma index_mix a b k : is_byte b -> 0 <= k <= 6 ->
  Z.lor (Z.land (Z.shiftl a k) 63) (Z.shiftr b (8 - k)) =
  a mod 2 ^ (6 - k) * 2 ^ k + b / 2 ^ (8 - k).
Proof.
  unfold is_byte. intros Hb Hk. rewrite index_lo, Z.shiftr_div_pow2 by lia.
  apply lor_mul_add; [lia|].
  split; [apply Z.div_pos; lia|]. apply Z.div_lt_upper_bound; [lia|].
  rewrite <- Z.pow_add_r by lia. replace (8 - k + k) with 8 by lia. lia.
Qed.

Lemma index0 a : Z.shiftr a 2 = a / 4.
Proof. by apply Z.shiftr_div_pow2. Qed.
Lemma index1 a b : is_byte b ->
  Z.lor (Z.land (Z.shiftl a 4) 63) (Z.shiftr b 4) = a mod 4 * 16 + b / 16.
Proof. intros Hb. by apply (index_mix a b 4). Qed.
Lemma index1' a : Z.land (Z.shiftl a 4) 63 = a mod 4 * 16 + 0 / 16.
Proof. rewrite (index_lo a 4) by lia. change (0 / 16) with 0. rewrite Z.add_0_r. done. Qed.
Lemma index2 b c : is_byte c ->
  Z.lor (Z.land (Z.shiftl b 2) 63) (Z.shiftr c 6) = b mod 16 * 4 + c / 64.
Proof. intros Hc. by apply (index_mix b c 2). Qed.
Lemma index2' b : Z.land (Z.shiftl b 2) 63 = b mod 16 * 4 + 0 / 64.
Proof. rewrite (index_lo b 2) by lia. change (0 / 64) with 0. rewrite Z.add_0_r. done. Qed.
Lemma index3 c : Z.land c 63 = c mod 64.
Proof. by apply (land_mod c 6). Qed.

Lemma digits3 a b c : is_byte a -> is_byte b -> is_byte c ->
  b64_digits (a * 65536 + b * 256 + c) =
  [b64_digit (a / 4); b64_digit (a mod 4 * 16 + b / 16);
   b64_digit (b mod 16 * 4 + c / 64); b64_digit (c mod 64)].
Proof.
  unfold is_byte. intros. unfold b64_digits. set (n := a * 65536 + b * 256 + c).
  rewrite <- (b64_digit_mod (n / 262144)), <- (b64_digit_mod (n / 4096)),
    <- (b64_digit_mod (n / 64)), <- (b64_digit_mod n).
  assert (n / 262144 mod 64 = a / 4) as -> by (subst n; dlia).
  assert (n / 4096 mod 64 = a mod 4 * 16 + b / 16) as -> by (subst n; dlia).
  assert (n / 64 mod 64 = b mod 16 * 4 + c / 64) as -> by (subst n; dlia).
  assert (n mod 64 = c mod 64) as -> by (subst n; dlia).
  done.
Qed.

(** ** The encoder *)

Section encode_spec.
Context `{OutputStreamSpec St}.

Lemma obf_flush_ok {B} (k : bytes -> M St B) b obf l l' :
  l' = obf ++ l -> is_bytes obf -> zlen obf < OBF_SIZE + 8 ->
  (forall obf', is_bytes obf' -> zlen obf' < OBF_SIZE -> writes (k obf') b (obf' ++ l)) ->
  writes (obf_flush obf ≫= k) b l'.
Proof.
  intros -> Hb Hl Hk. unfold obf_flush. destruct (Z.leb_spec OBF_SIZE (zlen obf)).
  - refine (writes_bind _ k [] b obf l _ _).
    + rewrite <- (app_nil_r obf) at 2. refine (writes_seq _ _ tt _ obf [] _ _); auto with stream.
    + by apply (Hk []).
  - rewrite ret_bind. by apply Hk.
Qed.

Lemma obf_int_bind {B} (k : bytes -> M St B) obf i : 0 <= i < 64 ->
  zlen obf < OBF_SIZE + 8 -> obf_int obf i ≫= k = k (obf ++ [b64_digit i]).
Proof. intros Hi Hl. by rewrite obf_int_ok. Qed.

Lemma obf_add_bind {B} (k : bytes -> M St B) obf c : zlen obf < OBF_SIZE + 8 ->
  obf_add obf c ≫= k = k (obf ++ [c]).
Proof. intros Hl. unfold obf_add. apply Z.ltb_lt in Hl. by rewrite Hl. Qed.

Lemma byte_parts x : is_byte x -> 0 <= x / 4 < 64 /\ 0 <= x / 16 < 16 /\ 0 <= x / 64 < 4 /\
  0 <= x mod 4 < 4 /\ 0 <= x mod 16 < 16 /\ 0 <= x mod 64 < 64.
Proof. unfold is_byte. intros. dlia. Qed.

Lemma digit_byte i : 0 <= i < 64 -> is_byte (b64_digit i).
Proof. intros. by apply digit_facts. Qed.

(** All the character pushes of an iteration. *)
Ltac obf_steps :=
  cbn [write_base64_loop]; rewrite ?index0, ?index1, ?index2, ?index1', ?index2', ?index3 by done;
  repeat first [rewrite obf_int_bind by zlia | rewrite obf_add_bind by zlia];
  rewrite <- !app_assoc; cbn [app].
Ltac obf_bytes :=
  repeat first [apply Forall_app; split|apply Forall_cons; split|apply Forall_nil];
  try done; apply digit_byte; lia.

Lemma writes_base64_loop buf : is_bytes buf -> forall obf,
  is_bytes obf -> zlen obf < OBF_SIZE ->
  writes (write_base64_loop buf obf) tt (obf ++ base64_text buf).
Proof.
  assert (Hnil : forall obf, is_bytes obf ->
    writes (write_base64_loop [] obf) tt (obf ++ [])).
  { intros obf Hobf. rewrite app_nil_r. cbn. destruct (Z.ltb_spec 0 (zlen obf)) as [|H'];
      [auto with stream|]. destruct obf; [auto with stream|]. pose proof (zlen_nonneg obf). zlia. }
  pose proof (byte_parts 0 bytes_0).
  induction buf as [|a|a b|a b c buf IH] using b64_ind; intros Hbuf obf Hobf Hl;
    [by apply Hnil|..]; rewrite !Forall_cons in Hbuf; destruct_and!;
    pose proof (byte_parts a ltac:(done)); try pose proof (byte_parts b ltac:(done));
    try pose proof (byte_parts c ltac:(done)); cbn [base64_text].
  - replace (a * 65536) with (a * 65536 + 0 * 256 + 0) by lia.
    rewrite digits3 by done. obf_steps.
    apply (obf_flush_ok _ _ _ []); [by rewrite app_nil_r|obf_bytes|zlia|].
    intros obf' ? ?. by apply Hnil.
  - replace (a * 65536 + b * 256) with (a * 65536 + b * 256 + 0) by lia.
    rewrite digits3 by done. obf_steps.
    apply (obf_flush_ok _ _ _ []); [by rewrite app_nil_r|obf_bytes|zlia|].
    intros obf' ? ?. by apply Hnil.
  - rewrite digits3 by done. obf_steps.
    apply (obf_flush_ok _ _ _ (base64_text buf)); [by rewrite <- app_assoc|obf_bytes|zlia|].
    intros obf' ? ?. by apply IH.
Qed.

Lemma writes_base64 buf : is_bytes buf ->
  writes (write_base64 buf) ((zlen buf + 2) / 3 * 4) (base64_text buf).
Proof.
  intros Hb. unfold write_base64. rewrite <- (app_nil_r (base64_text buf)).
  refine (writes_seq _ _ tt _ _ [] _ _); [|auto with stream].
  by apply (writes_base64_loop buf Hb []).
Qed.
End encode_spec.

(** ** The decoder *)

Lemma decode0 a b : is_byte a -> is_byte b ->
  u8 (Z.lor (Z.shiftl (a / 4) 2) (Z.shiftr (a mod 4 * 16 + b / 16) 4)) = a.
Proof.
  unfold is_byte. intros. rewrite Z.shiftr_div_pow2, lor_shiftl_add by dlia.
  unfold wrapu. dlia.
Qed.

Lemma decode1 a b c : is_byte a -> is_byte b -> is_byte c ->
  u8 (Z.lor (Z.shiftl (a mod 4 * 16 + b / 16) 4) (Z.shiftr (b mod 16 * 4 + c / 64) 2)) = b.
Proof.
  unfold is_byte. intros. rewrite Z.shiftr_div_pow2, lor_shiftl_add by dlia.
  unfold wrapu. dlia.
Qed.

Lemma decode2 b c : is_byte b -> is_byte c ->
  u8 (Z.lor (Z.shiftl (b mod 16 * 4 + c / 64) 6) (c mod 64)) = c.
Proof.
  unfold is_byte. intros. rewrite lor_shiftl_add by dlia. unfold wrapu. dlia.
Qed.

Section decode_spec.
Context `{InputStreamSpec St}.

(** Reading one expected character. *)
Lemma reads_char {B} (f : Z -> M St B) b c l P :
  reads (f c) b l P -> reads (read_stream ≫= f) b (c :: l) P.
Proof.
  intros Hf. change (c :: l) with ([c] ++ l).
  apply (reads_bind _ _ c b [c] l anything P); [auto with stream|done|by destruct l].
Qed.

(** The decoder stops because of the next character, or because the rest of
    the buffer is too small for another group. *)
Definition stops (P : Z -> Prop) (l : bytes) (room : Z) : Prop :=
  (forall c, P c -> ~ is_b64 c) \/ (zlen l mod 3 = 0 /\ room < zlen l + 3).

Lemma reads_base64_loop l P : is_bytes l -> forall fuel acc size,
  (length l < fuel)%nat -> zlen acc + (zlen l + 2) / 3 * 3 <= size ->
  stops P l (size - zlen acc) ->
  reads (read_base64_loop fuel acc size) (acc ++ l) (base64_text l) P.
Proof.
  pose proof (byte_parts 0 bytes_0).
  induction l as [|a|a b|a b c l IH] using b64_ind; intros Hl fuel acc size Hf Hs HP;
    (destruct fuel as [|fuel]; [simpl in Hf; lia|]); cbn [read_base64_loop];
    rewrite ?Forall_cons in Hl; destruct_and?;
    try pose proof (byte_parts a ltac:(done)); try pose proof (byte_parts b ltac:(done));
    try pose proof (byte_parts c ltac:(done)); autorewrite with zlen in Hs;
    pose proof (zlen_nonneg acc);
    [destruct (Z.leb_spec (zlen acc + 3) size)| |
    |pose proof (zlen_nonneg l)];
    rewrite ?(proj2 (Z.leb_le _ _)) by dlia; rewrite ?app_nil_r; cbn [base64_text];
    [|by apply reads_ret| | |].
  - destruct HP as [HP|[_ HP]]; [|rewrite zlen_nil in HP; lia].
    eapply reads_peek; [|intros c Hc; exact Hc]. intros c Hc%HP. unfold is_b64 in Hc.
    destruct (char_value c); [destruct Hc; eauto|apply reads_ret].
  - replace (a * 65536) with (a * 65536 + 0 * 256 + 0) by lia.
    rewrite digits3 by done. cbn [take app].
    eapply (reads_peek _ _ _ _ anything); [intros ? ->|done].
    destruct (digit_facts (a / 4)) as (_ & -> & _); [lia|].
    do 4 apply reads_char. destruct (digit_facts (a mod 4 * 16 + 0 / 16)) as (_ & -> & _); [lia|].
    rewrite decode0 by done. apply reads_ret.
  - replace (a * 65536 + b * 256) with (a * 65536 + b * 256 + 0) by lia.
    rewrite digits3 by done. cbn [take app].
    eapply (reads_peek _ _ _ _ anything); [intros ? ->|done].
    destruct (digit_facts (a / 4)) as (_ & -> & _); [lia|].
    do 4 apply reads_char. destruct (digit_facts (a mod 4 * 16 + b / 16)) as (_ & -> & _); [lia|].
    destruct (digit_facts (b mod 16 * 4 + 0 / 64)) as (_ & -> & _ & ->%Z.eqb_neq); [lia|].
    rewrite decode0, decode1 by done. rewrite <- app_assoc. apply reads_ret.
  - rewrite digits3 by done. cbn [app].
    eapply (reads_peek _ _ _ _ anything); [intros ? ->|done].
    destruct (digit_facts (a / 4)) as (_ & -> & _); [lia|].
    do 4 apply reads_char. destruct (digit_facts (a mod 4 * 16 + b / 16)) as (_ & -> & _); [lia|].
    destruct (digit_facts (b mod 16 * 4 + c / 64)) as (_ & -> & _ & ->%Z.eqb_neq); [lia|].
    destruct (digit_facts (c mod 64)) as (_ & -> & _ & ->%Z.eqb_neq); [lia|].
    cbn zeta. rewrite decode0, decode1, decode2 by done.
    replace (acc ++ a :: b :: c :: l) with ((((acc ++ [a]) ++ [b]) ++ [c]) ++ l)
      by (by rewrite <- !app_assoc).
    apply IH; [done|simpl in Hf; lia|autorewrite with zlen; dlia|].
    destruct HP as [HP|[HP1 HP2]]; [by left|right]. autorewrite with zlen in *. dlia.
Qed.

Lemma reads_base64_stops l size P : is_bytes l -> 3 <= size -> (zlen l + 2) / 3 * 3 <= size ->
  stops P l size -> reads (read_base64 size) l (base64_text l) P.
Proof.
  intros Hl H3 Hs HP. unfold read_base64. rewrite (proj2 (Z.leb_le _ _)) by done.
  apply (reads_base64_loop l P Hl _ []); [|zlia|by rewrite zlen_nil, Z.sub_0_r].
  unfold zlen in Hs. dlia.
Qed.

(** A decoder with room for the data reads exactly the encoded text. *)
Lemma reads_base64 l size : is_bytes l -> 3 <= size -> (zlen l + 2) / 3 * 3 <= size ->
  reads (read_base64 size) l (base64_text l) (fun c => ~ is_b64 c).
Proof. intros. apply reads_base64_stops; auto. by left. Qed.

(** A buffer that is too small is filled with whole groups. *)
Lemma reads_base64_full l size : is_bytes l -> 3 <= size -> zlen l = size / 3 * 3 ->
  reads (read_base64 size) l (base64_text l) anything.
Proof. intros. apply reads_base64_stops; [done|done|dlia|right; dlia]. Qed.

End decode_spec.

Lemma base64_text_app l1 l2 : zlen l1 mod 3 = 0 ->
  base64_text (l1 ++ l2) = base64_text l1 ++ base64_text l2.
Proof.
  induction l1 as [|a|a b|a b c l1 IH] using b64_ind; intros Hm; [done|done|done|].
  cbn [app base64_text]. rewrite IH, app_assoc; [done|].
  autorewrite with zlen in Hm. dlia.
Qed.

(** ** Properties *)

(** C33: the decoder reads back what the encoder writes, on any pair of streams:
    from the text written for [l], followed by a character outside of the
    alphabet, a buffer with room for whole groups receives [l], and nothing
    after the text is consumed. *)
Theorem base64_roundtrip {Out Inp} `{OutputStreamSpec Out} `{InputStreamSpec Inp} l size :
  is_bytes l -> 3 <= size -> (zlen l + 2) / 3 * 3 <= size ->
  roundtrip (Out := Out) (Inp := Inp) (write_base64 l) (read_base64 size) l (fun c => ~ is_b64 c).
Proof.
  intros Hl H3 Hs. eapply roundtrip_intro; [by apply writes_base64|by apply reads_base64].
Qed.

Lemma base64_roundtrip_witness :
  roundtrip (Out := ByteArrayOutputStream) (Inp := ByteArrayInputStream)
    (write_base64 [0; 255; 3; 77]) (read_base64 6) [0; 255; 3; 77] (fun c => ~ is_b64 c).
Proof. apply (base64_roundtrip [0; 255; 3; 77] 6); [repeat constructor; done|lia|by vm_compute]. Defined.

(** A buffer that is too small for the data is filled with as many whole
    groups as fit; the rest of the text stays on the stream. *)
Lemma base64_partial {Out Inp} `{OutputStreamSpec Out} `{InputStreamSpec Inp} l size :
  is_bytes l -> 3 <= size -> zlen l = size / 3 * 3 ->
  roundtrip (Out := Out) (Inp := Inp) (write_base64 l) (read_base64 size) l anything.
Proof.
  intros Hl H3 Hs. eapply roundtrip_intro; [by apply writes_base64|by apply reads_base64_full].
Qed.

Lemma base64_partial_witness :
  roundtrip (Out := ByteArrayOutputStream) (Inp := ByteArrayInputStream)
    (write_base64 [0; 255; 3]) (read_base64 5) [0; 255; 3] anything.
Proof. apply (base64_partial [0; 255; 3] 5); [repeat constructor; done|lia|by vm_compute]. Defined.
