(* ===== verification/JsonWrite.v ===== *)
(** * JSON writer (framework/json.c, the json_write functions)

    Every writer is given with the text it produces: [dec_text] for the integer
    writers, [string_text] for the string writers.  Sizes of a [long] are those
    of the LP64 model: 64 bits. *)

From S2P Require Import Prelude Streams.

Definition char_escaping : list Z := [
    1; 1; 1; 1; 1; 1; 1; 1; 1; 1; 1; 1; 1; 1; 1; 1;
    1; 1; 1; 1; 1; 1; 1; 1; 1; 1; 1; 1; 1; 1; 1; 1;
    0; 0; 1; 0; 0; 0; 0; 0; 0; 0; 0; 0; 0; 0; 0; 0;
    0; 0; 0; 0; 0; 0; 0; 0; 0; 0; 0; 0; 0; 0; 0; 0;
    0; 0; 0; 0; 0; 0; 0; 0; 0; 0; 0; 0; 0; 0; 0; 0;
    0; 0; 0; 0; 0; 0; 0; 0; 0; 0; 0; 0; 1; 0; 0; 0;
    0; 0; 0; 0; 0; 0; 0; 0; 0; 0; 0; 0; 0; 0; 0; 0;
    0; 0; 0; 0; 0; 0; 0; 0; 0; 0; 0; 0; 0; 0; 0; 1;
    0; 0; 0; 0; 0; 0; 0; 0; 0; 0; 0; 0; 0; 0; 0; 0;
    0; 0; 0; 0; 0; 0; 0; 0; 0; 0; 0; 0; 0; 0; 0; 0;
    0; 0; 0; 0; 0; 0; 0; 0; 0; 0; 0; 0; 0; 0; 0; 0;
    0; 0; 0; 0; 0; 0; 0; 0; 0; 0; 0; 0; 0; 0; 0; 0;
    0; 0; 0; 0; 0; 0; 0; 0; 0; 0; 0; 0; 0; 0; 0; 0;
    0; 0; 0; 0; 0; 0; 0; 0; 0; 0; 0; 0; 0; 0; 0; 0;
    0; 0; 0; 0; 0; 0; 0; 0; 0; 0; 0; 0; 0; 0; 0; 0;
    0; 0; 0; 0; 0; 0; 0; 0; 0; 0; 0; 0; 0; 0; 0; 0 ].

(** [char_escaping[(unsigned char)ch]]. *)
Definition is_escaping (ch : Z) : bool :=
  match znth char_escaping (u8 ch) with Some e => negb (e =? 0) | None => false end.

Section json_write.
Context {St : Type} `{OutputStream St}.

(** The recursion of [json_write_ulong]: [fuel] bounds the number of digits. *)
Fixpoint json_write_ulong_rec (fuel : nat) (n : Z) : M St unit :=
  match fuel with
  | O => nofuel
  | S fuel =>
      if 10 <=? n
      then json_write_ulong_rec fuel (n / 10) ;;
           write_stream (u32 (n mod 10) + #"0")
      else write_stream (u32 n + #"0")
  end.

Definition json_write_ulong (n : Z) : M St unit :=
  json_write_ulong_rec (S (Z.to_nat (Z.log2 n))) n.

Definition json_write_long (n : Z) : M St unit :=
  let u := u64 n in
  if n <? 0
  then write_stream (#"-") ;; json_write_ulong (u64 (u64 (Z.lnot u) + 1))
  else json_write_ulong u.

Fixpoint json_write_uint64_rec (fuel : nat) (n : Z) : M St unit :=
  match fuel with
  | O => nofuel
  | S fuel =>
      if 10 <=? n
      then json_write_uint64_rec fuel (n / 10) ;;
           write_stream (s32 (n mod 10) + #"0")
      else write_stream (s32 n + #"0")
  end.

Definition json_write_uint64 (n : Z) : M St unit :=
  json_write_uint64_rec (S (Z.to_nat (Z.log2 n))) n.

Definition json_write_int64 (n : Z) : M St unit :=
  let u := u64 n in
  if n <? 0
  then write_stream (#"-") ;; json_write_uint64 (u64 (u64 (Z.lnot u) + 1))
  else json_write_uint64 u.

Definition json_write_boolean (b : Z) : M St unit :=
  if negb (b =? 0) then write_string (str "true") else write_string (str "false").

Definition hex_digit (n : Z) : Z :=
  let n := Z.land n 15 in
  if n <? 10 then #"0" + n else #"A" + (n - 10).

Definition write_escape_seq (ch : Z) : M St unit :=
  let n := Z.land ch 255 in
  if (n =? 34) || (n =? #"\") then write_stream (#"\") ;; write_stream n
  else if n =? 8 then write_stream (#"\") ;; write_stream (#"b")
  else if n =? 12 then write_stream (#"\") ;; write_stream (#"f")
  else if n =? 10 then write_stream (#"\") ;; write_stream (#"n")
  else if n =? 13 then write_stream (#"\") ;; write_stream (#"r")
  else if n =? 9 then write_stream (#"\") ;; write_stream (#"t")
  else
    write_stream (#"\") ;; write_stream (#"u") ;;
    write_stream (#"0") ;; write_stream (#"0") ;;
    write_stream (hex_digit (Z.shiftr n 4)) ;; write_stream (hex_digit n).

Definition json_write_char (ch : Z) : M St unit :=
  if is_escaping ch then write_escape_seq ch else write_stream (Z.land ch 255).

(** The characters up to the next one to be escaped ([ptr .. str]). *)
Fixpoint plain_run (l : bytes) : bytes * bytes :=
  match l with
  | [] => ([], [])
  | ch :: l' =>
      if is_escaping ch then ([], l)
      else let '(run, rest) := plain_run l' in (ch :: run, rest)
  end.

(** [memcpy] to the window when there is room, [write_block] otherwise; the
    length is an [unsigned]. *)
Definition write_run (run : bytes) : M St unit :=
  let n := u32 (zlen run) in
  fun s => if n <=? os_space s then os_store (ztake n run) s
           else os_write_block (ztake n run) s.

(** The loop of [json_write_string], whose string ends at the terminator, and
    of [json_write_string_len], whose string ends at [end]. *)
Fixpoint json_write_chars (fuel : nat) (l : bytes) : M St unit :=
  match fuel with
  | O => nofuel
  | S fuel =>
      let '(run, l) := plain_run l in
      (if 0 <? zlen run then write_run run else mret tt) ;;
      match l with
      | [] => mret tt
      | ch :: l => write_escape_seq ch ;; json_write_chars fuel l
      end
  end.

Definition json_write_string (s : option bytes) : M St unit :=
  match s with
  | None => write_string (str "null")
  | Some l =>
      write_stream 34 ;;
      json_write_chars (S (length l)) l ;;
      write_stream 34
  end.

(** [s] is the memory the pointer refers to. *)
Definition json_write_string_len (s : option bytes) (len : Z) : M St unit :=
  match s with
  | None => write_string (str "null")
  | Some m =>
      l ← of_option (mem_read m 0 len);
      write_stream 34 ;;
      json_write_chars (S (length l)) l ;;
      write_stream 34
  end.
End json_write.

(** ** The text written *)

Definition is_digit (c : Z) : bool := (#"0" <=? c) && (c <=? #"9").

(** The value of a string of decimal digits. *)
Definition dec_value_from (acc : Z) (l : bytes) : Z :=
  fold_left (fun a c => a * 10 + (c - #"0")) l acc.
Definition dec_value (l : bytes) : Z := dec_value_from 0 l.

Fixpoint dec_text_rec (fuel : nat) (n : Z) : bytes :=
  match fuel with
  | O => []
  | S fuel =>
      if 10 <=? n then dec_text_rec fuel (n / 10) ++ [n mod 10 + #"0"] else [n + #"0"]
  end.

Definition dec_text (n : Z) : bytes := dec_text_rec (S (Z.to_nat (Z.log2 n))) n.

Definition signed_text (n : Z) : bytes :=
  if n <? 0 then #"-" :: dec_text (- n) else dec_text n.

(** The characters a JSON string cannot hold as they are, and DEL. *)
Definition must_escape (ch : Z) : bool :=
  (ch <? 32) || (ch =? 34) || (ch =? 92) || (ch =? 127).

Definition char_text (ch : Z) : bytes :=
  if must_escape ch then
    match ch with
    | 34 => str "\" ++ [34]
    | 92 => str "\\"
    | 8 => str "\b"
    | 12 => str "\f"
    | 10 => str "\n"
    | 13 => str "\r"
    | 9 => str "\t"
    | _ => str "\u00" ++ [hex_digit (ch / 16); hex_digit (ch mod 16)]
    end
  else [ch].

Definition chars_text (l : bytes) : bytes := mjoin (char_text <$> l).
Definition string_text (l : bytes) : bytes := 34 :: chars_text l ++ [34].

Lemma chars_text_app l1 l2 : chars_text (l1 ++ l2) = chars_text l1 ++ chars_text l2.
Proof. unfold chars_text. by rewrite fmap_app, join_app. Qed.

Lemma chars_text_cons ch l : chars_text (ch :: l) = char_text ch ++ chars_text l.
Proof. done. Qed.

(** ** Decimal text *)

Lemma dec_value_from_app acc l1 l2 :
  dec_value_from acc (l1 ++ l2) = dec_value_from (dec_value_from acc l1) l2.
Proof. apply fold_left_app. Qed.

(** One more digit than the binary logarithm is enough. *)
Lemma log2_div10 n fuel : 10 <= n -> (Z.to_nat (Z.log2 n) < S fuel)%nat ->
  (Z.to_nat (Z.log2 (n / 10)) < fuel)%nat.
Proof.
  intros Hn Hf. assert (Z.log2 (n / 10) < Z.log2 n); [|pose proof (Z.log2_nonneg (n / 10)); lia].
  apply Z.log2_lt_pow2; [dlia|]. pose proof (Z.log2_spec n ltac:(lia)) as [_ Hs].
  rewrite Z.pow_succ_r in Hs by apply Z.log2_nonneg. dlia.
Qed.

Lemma dec_text_rec_ok fuel : forall n, 0 <= n -> (Z.to_nat (Z.log2 n) < fuel)%nat ->
  Forall is_digit (dec_text_rec fuel n) /\ dec_text_rec fuel n <> [] /\
  dec_value (dec_text_rec fuel n) = n.
Proof.
  induction fuel as [|fuel IH]; intros n Hn Hf; [lia|]. cbn [dec_text_rec].
  destruct (Z.leb_spec 10 n).
  - destruct (IH (n / 10)) as (Hd & Hne & Hv); [dlia|by apply log2_div10|].
    split_and!; [| |].
    + apply Forall_app; split; [done|]. apply Forall_singleton.
      apply andb_True; split; apply Is_true_true; apply Z.leb_le; dlia.
    + by intros [? ?]%app_eq_nil.
    + unfold dec_value in *. rewrite dec_value_from_app, Hv. cbn. dlia.
  - split_and!; [|done|cbn; lia]. apply Forall_singleton.
    apply andb_True; split; apply Is_true_true; apply Z.leb_le; lia.
Qed.

Lemma dec_text_ok n : 0 <= n ->
  Forall is_digit (dec_text n) /\ dec_text n <> [] /\ dec_value (dec_text n) = n.
Proof. intros. apply dec_text_rec_ok; [done|lia]. Qed.

Lemma dec_text_length fuel : forall n, (length (dec_text_rec fuel n) <= fuel)%nat.
Proof.
  induction fuel as [|fuel IH]; intros n; [done|]. cbn [dec_text_rec]. destruct (_ <=? _); [|cbn; lia]. rewrite length_app.
  specialize (IH (n / 10)). cbn [length]. lia.
Qed.

Lemma digit_range c : is_digit c -> 48 <= c <= 57.
Proof. intros [?%Is_true_true%Z.leb_le ?%Is_true_true%Z.leb_le]%andb_True. done. Qed.

Lemma digits_bytes l : Forall is_digit l -> is_bytes l.
Proof. intros Hl. apply (Forall_impl _ _ _ Hl). intros c Hc%digit_range. unfold is_byte. lia. Qed.

(** ** The escaping of characters *)

Lemma char_escaping_ok ch : is_byte ch -> is_escaping ch = must_escape ch.
Proof.
  intros Hch. apply (bool_decide_true (is_escaping ch = must_escape ch)).
  revert ch Hch. apply forall_below_spec. by vm_compute.
Qed.

Lemma hex_digit_byte n : is_byte (hex_digit n).
Proof.
  unfold hex_digit, is_byte. change 15 with (2 ^ 4 - 1). rewrite land_mod by lia.
  destruct (Z.ltb_spec (n mod 2 ^ 4) 10); dlia.
Qed.

#[export] Hint Resolve hex_digit_byte : bytes.

(** The [switch] on the character, one case after the other. *)
Lemma char_text_escape n : is_byte n -> must_escape n = true ->
  char_text n =
    if (n =? 34) || (n =? #"\") then [#"\"; n]
    else if n =? 8 then [#"\"; #"b"]
    else if n =? 12 then [#"\"; #"f"]
    else if n =? 10 then [#"\"; #"n"]
    else if n =? 13 then [#"\"; #"r"]
    else if n =? 9 then [#"\"; #"t"]
    else [#"\"; #"u"; #"0"; #"0"; hex_digit (Z.shiftr n 4); hex_digit n].
Proof.
  intros Hn He. match goal with |- ?x = ?y => enough (bool_decide (must_escape n = true -> x = y) = true)
    as E by (by apply bool_decide_true in E; apply E) end.
  clear He. revert n Hn. apply forall_below_spec. by vm_compute.
Qed.

Section writers.
Context `{OutputStreamSpec St}.

Lemma writes_ulong_rec fuel : forall n, 0 <= n -> (Z.to_nat (Z.log2 n) < fuel)%nat ->
  writes (json_write_ulong_rec fuel n) tt (dec_text_rec fuel n).
Proof.
  induction fuel as [|fuel IH]; intros n Hn Hf; [lia|].
  cbn [json_write_ulong_rec dec_text_rec]. destruct (Z.leb_spec 10 n).
  - rewrite wrapu_small by dlia. eapply writes_seq.
    + apply IH; [dlia|by apply log2_div10].
    + apply writes_byte. unfold is_byte. dlia.
  - rewrite wrapu_small by lia. apply writes_byte. unfold is_byte. lia.
Qed.

Lemma writes_ulong n : 0 <= n -> writes (json_write_ulong n) tt (dec_text n).
Proof. intros. apply writes_ulong_rec; [done|lia]. Qed.

Lemma wraps_small w x : 0 < w -> in_s w x -> wraps w x = x.
Proof.
  unfold in_s, wraps. intros Hw Hx. rewrite Z.mod_small; [lia|].
  replace (2 ^ w) with (2 ^ (w - 1) + 2 ^ (w - 1)); [lia|].
  replace w with (w - 1 + 1) at 3 by lia. rewrite Z.pow_add_r by lia. lia.
Qed.

Lemma writes_uint64_rec fuel : forall n, 0 <= n -> (Z.to_nat (Z.log2 n) < fuel)%nat ->
  writes (json_write_uint64_rec fuel n) tt (dec_text_rec fuel n).
Proof.
  induction fuel as [|fuel IH]; intros n Hn Hf; [lia|].
  cbn [json_write_uint64_rec dec_text_rec]. destruct (Z.leb_spec 10 n).
  - rewrite wraps_small by (unfold in_s; dlia). eapply writes_seq.
    + apply IH; [dlia|by apply log2_div10].
    + apply writes_byte. unfold is_byte. dlia.
  - rewrite wraps_small by (unfold in_s; lia). apply writes_byte. unfold is_byte. lia.
Qed.

Lemma writes_uint64 n : 0 <= n -> writes (json_write_uint64 n) tt (dec_text n).
Proof. intros. apply writes_uint64_rec; [done|lia]. Qed.

(** [~u + 1] is the magnitude of a negative number. *)
Lemma magnitude n : in_s 64 n -> n < 0 -> u64 (u64 (Z.lnot (u64 n)) + 1) = - n.
Proof. unfold in_s, wrapu, Z.lnot. intros. dlia. Qed.

Lemma writes_signed (w : Z -> M St unit) n :
  in_s 64 n -> (forall m, 0 <= m -> writes (w m) tt (dec_text m)) ->
  writes (if n <? 0 then write_stream (#"-") ;; w (u64 (u64 (Z.lnot (u64 n)) + 1))
          else w (u64 n)) tt (signed_text n).
Proof.
  intros Hn Hw. unfold signed_text. destruct (Z.ltb_spec n 0).
  - rewrite magnitude by done. eapply (writes_seq _ _ _ _ [_]); [by apply writes_byte|].
    apply Hw. lia.
  - rewrite wrapu_small by (unfold in_s in Hn; lia). auto.
Qed.

Lemma writes_long n : in_s 64 n -> writes (json_write_long n) tt (signed_text n).
Proof. intros Hn. by apply writes_signed, writes_ulong. Qed.

Lemma writes_int64 n : in_s 64 n -> writes (json_write_int64 n) tt (signed_text n).
Proof. intros Hn. by apply writes_signed, writes_uint64. Qed.

Lemma writes_boolean b : writes (json_write_boolean b) tt
  (if negb (b =? 0) then str "true" else str "false").
Proof.
  unfold json_write_boolean. destruct (negb (b =? 0)); apply writes_string;
    repeat constructor; done.
Qed.

Lemma writes_pair b1 b2 : is_byte b1 -> is_byte b2 ->
  writes (write_stream b1 ;; write_stream b2) tt [b1; b2].
Proof. intros. apply (writes_seq _ _ tt tt [b1] [b2]); auto with stream. Qed.

Lemma writes_escape ch : is_byte ch -> must_escape ch = true ->
  writes (write_escape_seq ch) tt (char_text ch).
Proof.
  intros Hb He. rewrite (char_text_escape ch Hb He). unfold write_escape_seq.
  replace (Z.land ch 255) with ch by (change 255 with (2 ^ 8 - 1);
    rewrite land_mod by lia; symmetry; apply Z.mod_small, Hb).
  repeat (case_match; [by apply writes_pair|]).
  do 5 (eapply (writes_seq _ _ tt tt [_]); [apply writes_byte; auto with bytes; done|]).
  auto with bytes stream.
Qed.

Lemma writes_char ch : is_byte ch -> writes (json_write_char ch) tt (char_text ch).
Proof.
  intros Hb. unfold json_write_char. rewrite char_escaping_ok by done.
  destruct (must_escape ch) eqn:He; [by apply writes_escape|].
  replace (Z.land ch 255) with ch by (change 255 with (2 ^ 8 - 1);
    rewrite land_mod by lia; symmetry; apply Z.mod_small, Hb).
  unfold char_text. rewrite He. auto with stream.
Qed.

Lemma plain_run_ok l : is_bytes l -> forall run rest, plain_run l = (run, rest) ->
  l = run ++ rest /\ chars_text run = run /\ is_bytes run /\ ESC ∉ run /\
  (forall ch k, rest = ch :: k -> must_escape ch = true).
Proof.
  induction 1 as [|ch l Hch Hl IH]; intros run rest; cbn [plain_run].
  { intros [= <- <-]. split_and!; [done..| |done]. apply not_elem_of_nil. }
  destruct (is_escaping ch) eqn:He; rewrite char_escaping_ok in He by done.
  { intros [= <- <-]. split_and!; [done..| |by intros ? ? [= <- _]]. apply not_elem_of_nil. }
  destruct (plain_run l) as [run' rest'] eqn:E. intros [= <- <-].
  destruct (IH _ _ eq_refl) as (-> & Hr & Hb & HE & Hk). split_and!; auto.
  - rewrite chars_text_cons, Hr. unfold char_text. by rewrite He.
  - apply not_elem_of_cons. split; [|done]. by intros <-.
Qed.

Lemma writes_run run : is_bytes run -> ESC ∉ run -> zlen run < 2 ^ 32 ->
  writes (write_run run) tt run.
Proof.
  intros Hb HE Hl. unfold write_run. pose proof (zlen_nonneg run).
  rewrite wrapu_small, ztake_all by lia. apply writes_fast; [done|done| |].
  - intros s ?%Z.leb_le. done.
  - by apply writes_block.
Qed.

Lemma writes_json_chars fuel : forall l, is_bytes l -> (length l < fuel)%nat ->
  zlen l < 2 ^ 32 -> writes (json_write_chars fuel l) tt (chars_text l).
Proof.
  induction fuel as [|fuel IH]; intros l Hl Hf Hz; [lia|]. cbn [json_write_chars].
  destruct (plain_run l) as [run rest] eqn:E.
  destruct (plain_run_ok l Hl _ _ E) as (-> & Hr & Hb & HE & Hk).
  apply Forall_app in Hl as [_ Hl]. rewrite length_app in Hf. rewrite zlen_app in Hz.
  rewrite chars_text_app. pose proof (zlen_nonneg run). pose proof (zlen_nonneg rest).
  apply (writes_seq _ _ tt).
  - rewrite Hr. destruct (Z.ltb_spec 0 (zlen run)); [apply writes_run; auto; lia|].
    destruct run; [apply writes_ret|]. pose proof (zlen_nonneg run). zlia.
  - destruct rest as [|ch rest]; [apply writes_ret|]. rewrite Forall_cons in Hl.
    destruct Hl as [Hch Hl]. change (ch :: rest) with ([ch] ++ rest).
    rewrite chars_text_app. apply (writes_seq _ _ tt).
    + rewrite chars_text_cons, app_nil_r. apply writes_escape; eauto.
    + apply IH; [done|simpl in Hf; lia|zlia].
Qed.

Lemma writes_quoted l : is_bytes l -> zlen l < 2 ^ 32 ->
  writes (write_stream 34 ;; json_write_chars (S (length l)) l ;; write_stream 34)
    tt (string_text l).
Proof.
  intros Hl Hz. unfold string_text. apply (writes_seq _ _ tt tt [34]); [by apply writes_byte|].
  apply (writes_seq _ _ tt tt); [apply writes_json_chars; auto|by apply writes_byte].
Qed.

Lemma writes_string_opt s : (forall l, s = Some l -> is_bytes l /\ zlen l < 2 ^ 32) ->
  writes (json_write_string s) tt
    (match s with Some l => string_text l | None => str "null" end).
Proof.
  intros Hs. destruct s as [l|]; cbn [json_write_string].
  - destruct (Hs l eq_refl). by apply writes_quoted.
  - apply writes_string. repeat constructor; done.
Qed.

Lemma writes_string_len m len : is_bytes m -> 0 <= len <= zlen m -> len < 2 ^ 32 ->
  writes (json_write_string_len (Some m) len) tt (string_text (ztake len m)).
Proof.
  intros Hm Hl Hz. unfold json_write_string_len. rewrite mem_read_ok by lia.
  cbn [of_option]. rewrite ret_bind, zdrop_0. apply writes_quoted; [auto with bytes|].
  rewrite zlen_ztake; lia.
Qed.
End writers.
