(* ===== verification/JsonRead.v ===== *)
(** * JSON reader (framework/json.c, the json_read functions)

    The readers of strings, numbers, booleans, structures and arrays, the
    temporary buffer in which they assemble strings, and the state machine that
    frees that buffer.  The readers are generic in the input stream; those that
    use the temporary buffer need a state that holds it ([JsonTmpBuf]). *)

From S2P Require Import Prelude Streams JsonWrite.

Definition MARKER_EOA : Z := 0.
Definition MEM_HEAP_LINK_SIZE : Z := 16.

Definition isspace (c : Z) : bool := ((9 <=? c) && (c <=? 13)) || (c =? 32).

(** ** The temporary buffer

    [tb_buf] is [tmp_buf], with [None] for [NULL]; [tb_events] is the number of
    [tmp_buf_event] events waiting in the event queue.  The array of lengths of
    [json_read_alloc_string_array] is static as well. *)
Record TmpBuf := {
  tb_buf : option bytes;
  tb_pos : Z;
  tb_size : Z;
  tb_timer : Z;
  tb_events : Z;
  tb_len_buf : list Z;
}.

Definition tmp_buf_init : TmpBuf :=
  {| tb_buf := None; tb_pos := 0; tb_size := 0; tb_timer := 0; tb_events := 0;
     tb_len_buf := [] |}.

(** The event has been taken from the queue. *)
Definition tmp_buf_event (t : TmpBuf) : TmpBuf :=
  let timer := u32 (tb_timer t - 1) in
  if timer =? 0 then
    {| tb_buf := None; tb_pos := 0; tb_size := 0; tb_timer := timer;
       tb_events := tb_events t - 1; tb_len_buf := tb_len_buf t |}
  else
    {| tb_buf := tb_buf t; tb_pos := tb_pos t; tb_size := tb_size t; tb_timer := timer;
       tb_events := tb_events t - 1 + 1; tb_len_buf := tb_len_buf t |}.

Definition realloc_tmp_buf (t : TmpBuf) : TmpBuf :=
  match tb_buf t with
  | None =>
      let size := 4096 - MEM_HEAP_LINK_SIZE in
      {| tb_buf := Some (alloc size); tb_pos := tb_pos t; tb_size := size;
         tb_timer := tb_timer t; tb_events := tb_events t; tb_len_buf := tb_len_buf t |}
  | Some m =>
      let size := Z.shiftl (tb_size t) 1 + MEM_HEAP_LINK_SIZE in
      {| tb_buf := Some (realloc m size); tb_pos := tb_pos t; tb_size := size;
         tb_timer := 10;
         tb_events := if tb_timer t =? 0 then tb_events t + 1 else tb_events t;
         tb_len_buf := tb_len_buf t |}
  end.

(** [memcpy(tmp_buf + tmp_buf_pos, l, n); tmp_buf_pos += n]. *)
Definition tmp_buf_store (l : bytes) (t : TmpBuf) : option TmpBuf :=
  m ← tb_buf t;
  m' ← mem_write m (tb_pos t) l;
  Some {| tb_buf := Some m'; tb_pos := tb_pos t + zlen l; tb_size := tb_size t;
          tb_timer := tb_timer t; tb_events := tb_events t; tb_len_buf := tb_len_buf t |}.

Definition tmp_buf_set_pos (pos : Z) (t : TmpBuf) : TmpBuf :=
  {| tb_buf := tb_buf t; tb_pos := pos; tb_size := tb_size t; tb_timer := tb_timer t;
     tb_events := tb_events t; tb_len_buf := tb_len_buf t |}.

Definition tmp_buf_set_len_buf (l : list Z) (t : TmpBuf) : TmpBuf :=
  {| tb_buf := tb_buf t; tb_pos := tb_pos t; tb_size := tb_size t; tb_timer := tb_timer t;
     tb_events := tb_events t; tb_len_buf := l |}.

(** [memcpy(dst, tmp_buf, tmp_buf_pos)]. *)
Definition tmp_buf_content (t : TmpBuf) : option bytes :=
  if tb_pos t =? 0 then Some []
  else m ← tb_buf t; mem_read m 0 (tb_pos t).

Class JsonTmpBuf (St : Type) := {
  tmp_buf : St -> TmpBuf;
  set_tmp_buf : TmpBuf -> St -> St;
}.

(** A C string stored in an array: the characters up to the first zero. *)
Fixpoint c_str (m : bytes) : bytes :=
  match m with
  | [] => []
  | c :: m => if c =? 0 then [] else c :: c_str m
  end.

(** ** Tokens *)

Section json_read.
Context {St : Type} `{InputStream St}.

(** Loops that stop at the end of the input at the latest. *)
Definition with_fuel {A} (f : nat -> M St A) : M St A := fun s => f (is_fuel s) s.

Fixpoint read_no_whitespace_loop (fuel : nat) : M St Z :=
  match fuel with
  | O => nofuel
  | S fuel =>
      ch ← read_stream;
      if (0 <? ch) && isspace ch then read_no_whitespace_loop fuel else mret ch
  end.
Definition read_no_whitespace : M St Z := with_fuel read_no_whitespace_loop.

Fixpoint json_peek_loop (fuel : nat) : M St Z :=
  match fuel with
  | O => nofuel
  | S fuel =>
      ch ← peek_stream;
      if (0 <? ch) && isspace ch then read_stream ;; json_peek_loop fuel else mret ch
  end.
Definition json_peek : M St Z := with_fuel json_peek_loop.
Definition skip_whitespace : M St unit := json_peek ;; mret tt.

Definition check_char (ch exp : Z) : M St unit :=
  if exp =? ch then mret tt else exception ERR_JSON_SYNTAX.

Definition json_test_char (x : Z) : M St unit :=
  (if existsb (Z.eqb x) [#":"; #","; #"{"; #"}"; #"["; #"]"; MARKER_EOA]
   then skip_whitespace else mret tt) ;;
  ch ← read_stream; check_char ch x.

(** [json_test_char(inp, 'u'); json_test_char(inp, 'l'); ...]. *)
Fixpoint test_chars (l : bytes) : M St unit :=
  match l with
  | [] => mret tt
  | c :: l => json_test_char c ;; test_chars l
  end.

Definition read_hex_digit : M St Z :=
  ch ← read_stream;
  if (#"0" <=? ch) && (ch <=? #"9") then mret (ch - #"0")
  else if (#"A" <=? ch) && (ch <=? #"F") then mret (ch - #"A" + 10)
  else if (#"a" <=? ch) && (ch <=? #"f") then mret (ch - #"a" + 10)
  else exception ERR_JSON_SYNTAX.

Definition read_hex_char : M St Z :=
  n ← (d ← read_hex_digit; mret (Z.shiftl d 12));
  n ← (d ← read_hex_digit; mret (Z.lor n (Z.shiftl d 8)));
  n ← (d ← read_hex_digit; mret (Z.lor n (Z.shiftl d 4)));
  d ← read_hex_digit; mret (Z.lor n d).

(** The bytes stored to [utf8]. *)
Definition utf8_seq (ch : Z) : bytes :=
  if ch <? 128 then [u8 ch]
  else if ch <? 2048 then
    [u8 (Z.lor (Z.shiftr ch 6) 192); u8 (Z.lor (Z.land ch 63) 128)]
  else
    [u8 (Z.lor (Z.shiftr ch 12) 224); u8 (Z.lor (Z.land (Z.shiftr ch 6) 63) 128);
     u8 (Z.lor (Z.land ch 63) 128)].

Definition read_esc_char : M St bytes :=
  ch ← read_stream;
  ch ← (if (ch =? 34) || (ch =? #"\") || (ch =? #"/") then mret ch
        else if ch =? #"b" then mret 8
        else if ch =? #"f" then mret 12
        else if ch =? #"n" then mret 10
        else if ch =? #"r" then mret 13
        else if ch =? #"t" then mret 9
        else if ch =? #"u" then read_hex_char
        else exception ERR_JSON_SYNTAX);
  mret (utf8_seq ch).

(** ** Strings in an array of the caller *)

(** [if (i < size - 1) str[i] = ch; i++], for each character. *)
Fixpoint str_store (a : bytes) (size i : Z) (l : bytes) : option (bytes * Z) :=
  match l with
  | [] => Some (a, i)
  | c :: l =>
      a ← (if i <? u64 (size - 1) then mem_write a i [u8 c] else Some a);
      str_store a size (u32 (i + 1)) l
  end.

Fixpoint json_read_string_loop (fuel : nat) (a : bytes) (size i : Z) : M St (bytes * Z) :=
  match fuel with
  | O => nofuel
  | S fuel =>
      ch ← read_stream;
      if ch <? 0 then exception ERR_JSON_SYNTAX
      else if ch =? 34 then mret (a, i)
      else
        l ← (if ch =? #"\" then read_esc_char else mret [ch]);
        '(a, i) ← of_option (str_store a size i l);
        json_read_string_loop fuel a size i
  end.

(** [a] is the array [str]; the result is the returned length and the array
    after the call. *)
Definition json_read_string (a : bytes) (size : Z) : M St (Z * bytes) :=
  ch ← read_no_whitespace;
  if ch =? #"n" then
    test_chars (str "ull") ;;
    a ← of_option (mem_write a 0 [0]);
    mret (-1, a)
  else if negb (ch =? 34) then exception ERR_PROTOCOL
  else
    '(a, i) ← with_fuel (fun fuel => json_read_string_loop fuel a size 0);
    a ← of_option (if i <? size then mem_write a i [0] else mem_write a (size - 1) [0]);
    mret (s32 i, a).

(** ** Booleans and numbers *)

Definition json_read_boolean : M St Z :=
  ch ← read_no_whitespace;
  if ch =? #"t" then test_chars (str "rue") ;; mret 1
  else (if ch =? #"f" then test_chars (str "alse") else exception ERR_JSON_SYNTAX) ;; mret 0.

(** The loop of the four readers; [next res d] is [res * 10 + d] in the type
    of the result. *)
Fixpoint read_digits (next : Z -> Z -> option Z) (fuel : nat) (res : Z) : M St Z :=
  match fuel with
  | O => nofuel
  | S fuel =>
      ch ← peek_stream;
      if (ch <? #"0") || (#"9" <? ch) then mret res
      else
        read_stream ;;
        res ← of_option (next res (ch - #"0"));
        read_digits next fuel res
  end.

(** The sign, and the first digit. *)
Definition read_sign : M St (bool * Z) :=
  ch ← read_no_whitespace;
  '(neg, ch) ← (if ch =? #"-" then ch ← read_stream; mret (true, ch) else mret (false, ch));
  if (ch <? #"0") || (#"9" <? ch) then exception ERR_JSON_SYNTAX
  else mret (neg, ch - #"0").

(** An overflow is undefined for a signed type. *)
Definition next_s64 (res d : Z) : option Z :=
  let r := res * 10 + d in if r <? 2 ^ 63 then Some r else None.
Definition next_u64 (res d : Z) : option Z := Some (u64 (res * 10 + d)).

Definition json_read_long : M St Z :=
  '(neg, res) ← read_sign;
  res ← with_fuel (fun fuel => read_digits next_s64 fuel res);
  mret (if neg : bool then - res else res).

Definition json_read_ulong : M St Z :=
  '(neg, res) ← read_sign;
  res ← with_fuel (fun fuel => read_digits next_u64 fuel res);
  mret (if neg : bool then u64 (u64 (Z.lnot res) + 1) else res).

Definition json_read_int64 : M St Z :=
  '(neg, res) ← read_sign;
  res ← with_fuel (fun fuel => read_digits next_s64 fuel res);
  mret (if neg : bool then - res else res).

Definition json_read_uint64 : M St Z :=
  '(neg, res) ← read_sign;
  res ← with_fuel (fun fuel => read_digits next_u64 fuel res);
  mret (if neg : bool then u64 (u64 (Z.lnot res) + 1) else res).

(** ** Structures and arrays; the call back has its argument in the state *)

Fixpoint json_read_struct_loop (call_back : bytes -> M St unit) (fuel : nat) : M St unit :=
  match fuel with
  | O => nofuel
  | S fuel =>
      '(_, nm) ← json_read_string (alloc 256) 256;
      json_test_char (#":") ;;
      call_back (c_str nm) ;;
      ch ← read_no_whitespace;
      if ch =? #"," then json_read_struct_loop call_back fuel
      else check_char ch (#"}")
  end.

Definition json_read_struct (call_back : bytes -> M St unit) : M St Z :=
  ch ← read_no_whitespace;
  if ch =? #"n" then test_chars (str "ull") ;; mret 0
  else if negb (ch =? #"{") then exception ERR_PROTOCOL
  else
    p ← json_peek;
    (if p =? #"}" then read_stream ;; mret tt
     else with_fuel (json_read_struct_loop call_back)) ;;
    mret 1.

Fixpoint json_read_array_loop (call_back : M St unit) (fuel : nat) : M St unit :=
  match fuel with
  | O => nofuel
  | S fuel =>
      call_back ;;
      ch ← read_no_whitespace;
      if ch =? #"," then json_read_array_loop call_back fuel
      else check_char ch (#"]")
  end.

Definition json_read_array (call_back : M St unit) : M St Z :=
  ch ← read_no_whitespace;
  if ch =? #"n" then test_chars (str "ull") ;; mret 0
  else if negb (ch =? #"[") then exception ERR_PROTOCOL
  else
    p ← json_peek;
    (if p =? #"]" then read_stream ;; mret tt
     else with_fuel (json_read_array_loop call_back)) ;;
    mret 1.

(** ** Strings in the temporary buffer *)
Section tmp.
Context `{JsonTmpBuf St}.

Definition on_tmp_buf (f : TmpBuf -> TmpBuf) : M St unit := fun s =>
  (Ok tt, set_tmp_buf (f (tmp_buf s)) s).
Definition try_tmp_buf (f : TmpBuf -> option TmpBuf) : M St unit := fun s =>
  match f (tmp_buf s) with
  | Some t => (Ok tt, set_tmp_buf t s)
  | None => (Undef, s)
  end.

Definition tmp_buf_add (ch : Z) : M St unit := fun s =>
  let t := tmp_buf s in
  let t := if tb_size t <=? tb_pos t then realloc_tmp_buf t else t in
  try_tmp_buf (fun _ => tmp_buf_store [u8 ch] t) s.

Fixpoint tmp_buf_add_all (l : bytes) : M St unit :=
  match l with
  | [] => mret tt
  | c :: l => tmp_buf_add c ;; tmp_buf_add_all l
  end.

Fixpoint read_chars_loop (fuel : nat) : M St unit :=
  match fuel with
  | O => nofuel
  | S fuel =>
      ch ← read_stream;
      if ch <? 0 then exception ERR_JSON_SYNTAX
      else if ch =? 34 then mret tt
      else
        (if ch =? #"\" then l ← read_esc_char; tmp_buf_add_all l else tmp_buf_add ch) ;;
        read_chars_loop fuel
  end.

(** [None] for [NULL]; the block includes the terminator. *)
Definition json_read_alloc_string : M St (option bytes) :=
  ch ← read_no_whitespace;
  if ch =? #"n" then test_chars (str "ull") ;; mret None
  else
    on_tmp_buf (tmp_buf_set_pos 0) ;;
    if negb (ch =? 34) then exception ERR_PROTOCOL
    else
      with_fuel read_chars_loop ;;
      tmp_buf_add 0 ;;
      t ← gets tmp_buf;
      m ← of_option (tmp_buf_content t);
      mret (Some m).

(** [if (len_pos >= len_buf_size)] the array of lengths grows. *)
Definition len_buf_grow (len_pos : Z) (t : TmpBuf) : TmpBuf :=
  let size := zlen (tb_len_buf t) in
  if size <=? len_pos
  then tmp_buf_set_len_buf (realloc (tb_len_buf t) (if size =? 0 then 256 else size * 2)) t
  else t.

(** [len_buf[len_pos] = len]. *)
Definition len_buf_store (len_pos len : Z) (t : TmpBuf) : option TmpBuf :=
  l ← mem_write (tb_len_buf t) len_pos [len];
  Some (tmp_buf_set_len_buf l t).

Fixpoint read_strings_loop (fuel : nat) (len_pos : Z) : M St Z :=
  match fuel with
  | O => nofuel
  | S fuel =>
      on_tmp_buf (len_buf_grow len_pos) ;;
      ch ← read_no_whitespace;
      len ←
        (if ch =? #"n" then test_chars (str "ull") ;; mret 0
         else
           buf_pos0 ← gets (fun s => tb_pos (tmp_buf s));
           if negb (ch =? 34) then exception ERR_PROTOCOL
           else
             with_fuel read_chars_loop ;;
             gets (fun s => tb_pos (tmp_buf s) - buf_pos0));
      tmp_buf_add 0 ;;
      try_tmp_buf (len_buf_store len_pos len) ;;
      ch ← read_no_whitespace;
      if ch =? #"," then read_strings_loop fuel (len_pos + 1)
      else check_char ch (#"]") ;; mret (len_pos + 1)
  end.

(** [arr[i] = str + j; j += len_buf[i] + 1]: the offsets of the pointers. *)
Fixpoint string_offsets (lens : list Z) (j : Z) : list Z :=
  match lens with
  | [] => []
  | len :: lens => j :: string_offsets lens (j + (len + 1))
  end.

(** The array of pointers, as offsets into the memory block that follows
    it, and that memory; [None] for [NULL]. *)
Definition json_read_alloc_string_array : M St (option (list Z * bytes)) :=
  ch ← read_no_whitespace;
  if ch =? #"n" then test_chars (str "ull") ;; mret None
  else if negb (ch =? #"[") then exception ERR_PROTOCOL
  else
    on_tmp_buf (tmp_buf_set_pos 0) ;;
    p ← json_peek;
    len_pos ← (if p =? #"]" then read_stream ;; mret 0
               else with_fuel (fun fuel => read_strings_loop fuel 0));
    tmp_buf_add 0 ;;
    t ← gets tmp_buf;
    m ← of_option (tmp_buf_content t);
    lens ← of_option (mem_read (tb_len_buf t) 0 len_pos);
    mret (Some (string_offsets lens 0, m)).
End tmp.
End json_read.
