(* ===== verification/JsonReadSpec.v ===== *)
(** * Correctness of the JSON readers

    Two judgements: [reads m a l P] of [Streams] for what a reader does on well
    formed input, and [parses] for what it does on any input: it consumes a
    part of the input or reports an error; it never loops, and never does what
    C leaves undefined. *)

From S2P Require Import Prelude Streams JsonWrite JsonRead.

(** ** Readers on any input

    [parses_from Pre n k m Q]: on an input of less than [n] bytes in a state that
    satisfies [Pre], [m] reports an error, or consumes at least [k] bytes and
    returns a value that satisfies [Q]. *)
Definition parses_from `{InputStreamSpec St} {A} (Pre : St -> Prop) (n k : nat)
    (m : M St A) (Q : A -> Prop) : Prop :=
  forall s, is_wf s -> (length (is_data s) < n)%nat -> Pre s ->
  match m s with
  | (Ok a, s') => Q a /\ is_wf s' /\ is_mark s' = is_mark s /\
      exists l, is_data s = l ++ is_data s' /\ (k <= length l)%nat
  | (Exc _, _) => True
  | _ => False
  end.

Definition parses `{InputStreamSpec St} {A} (n k : nat) (m : M St A) (Q : A -> Prop) : Prop :=
  parses_from (fun _ => True) n k m Q.

Definition any {A} : A -> Prop := fun _ => True.

(** Gives up without a further look at the stream. *)
Definition fails {St A} (m : M St A) : Prop := forall s, exists e s', m s = (Exc e, s').

Create HintDb parses.

Section parses.
Context `{InputStreamSpec St}.

Lemma parses_ret {A} n (a : A) (Q : A -> Prop) : Q a -> parses n 0 (mret a) Q.
Proof. intros HQ s Hs Hl _. cbn. split_and!; auto. exists []. split; [done|simpl; lia]. Qed.

Lemma parses_exception {A} n k e (Q : A -> Prop) : parses n k (exception e) Q.
Proof. intros s Hs Hl HP. exact I. Qed.

Lemma parses_any {A} Pre n k (m : M St A) Q : parses n k m Q -> parses_from Pre n k m Q.
Proof. intros Hm s Hs Hl _. by apply Hm. Qed.

Lemma parses_weaken {A} n n' k k' (m : M St A) (P Q : A -> Prop) :
  parses n k m P -> (forall a, P a -> Q a) -> (k' <= k)%nat -> (n' <= n)%nat ->
  parses n' k' m Q.
Proof.
  intros Hm HQ Hk Hn s Hs Hl _. specialize (Hm s Hs ltac:(lia) I).
  destruct (m s) as [[a| | |] s']; [|done..].
  destruct Hm as (HP & Hs' & HM & l & D & L). split_and!; auto. exists l. split; [done|lia].
Qed.

Lemma parses_le {A} n k k' (m : M St A) P : parses n k m P -> (k' <= k)%nat -> parses n k' m P.
Proof. intros Hm Hk. eapply parses_weaken; [done|done|lia|lia]. Qed.

Lemma parses_0 {A} n k (m : M St A) P : parses n k m P -> parses n 0 m any.
Proof. intros Hm. eapply parses_weaken; [done|done|lia|lia]. Qed.

Lemma parses_assoc {A B C} n k (m : M St A) (f : A -> M St B) (g : B -> M St C) Q :
  parses n k (m ≫= fun a => f a ≫= g) Q -> parses n k ((m ≫= f) ≫= g) Q.
Proof. intros Hm s Hs Hl HP. rewrite bind_assoc. by apply Hm. Qed.

Lemma parses_from_bind {A B} Pre n k1 k2 k (m : M St A) (f : A -> M St B) P Q :
  parses_from Pre n k1 m P -> (forall a, P a -> parses (n - k1) k2 (f a) Q) ->
  (k <= k1 + k2)%nat -> parses_from Pre n k (m ≫= f) Q.
Proof.
  intros Hm Hf Hk s Hs Hl HPre. unfold mbind, M_bind. specialize (Hm s Hs Hl HPre).
  destruct (m s) as [[a| | |] s1]; [|done..]. destruct Hm as (HP & Hs1 & HM & l1 & D1 & L1).
  rewrite D1, length_app in Hl. specialize (Hf a HP s1 Hs1 ltac:(lia) I).
  destruct (f a s1) as [[b| | |] s2]; [|done..].
  destruct Hf as (HQ & Hs2 & HM2 & l2 & D2 & L2). split_and!; [done|done|congruence|].
  exists (l1 ++ l2). rewrite D1, D2, app_assoc, length_app. split; [done|lia].
Qed.

Lemma parses_bind {A B} n k1 k2 k (m : M St A) (f : A -> M St B) P Q :
  parses n k1 m P -> (forall a, P a -> parses (n - k1) k2 (f a) Q) -> (k <= k1 + k2)%nat ->
  parses n k (m ≫= f) Q.
Proof. apply parses_from_bind. Qed.

(** What [read_stream] does: it takes the next byte, or returns the marker at
    the end of the input. *)
Definition takes (n : nat) (m : M St Z) : Prop :=
  forall s, is_wf s -> (length (is_data s) < n)%nat ->
  exists c s', m s = (Ok c, s') /\
    (c < 0 \/ is_byte c /\ is_wf s' /\ is_mark s' = is_mark s /\
     exists l, is_data s = l ++ c :: is_data s').

Lemma takes_stream n : takes n read_stream.
Proof.
  intros s Hs Hl. destruct (is_data s) as [|b l] eqn:D.
  - destruct (read_nil s Hs D) as (s' & ->). eexists _, s'. split; [done|].
    left. by apply is_mark_neg.
  - destruct (read_cons s b l Hs D) as (s' & E & Hs' & D' & M').
    pose proof (is_data_bytes s Hs) as HB. rewrite D in HB. inversion HB; subst.
    exists b, s'. split; [done|]. right. split_and!; auto. by exists [].
Qed.

(** The continuation meets a byte, or a marker, on which it has to give up. *)
Lemma parses_read {B} n k m (f : Z -> M St B) Q :
  takes n m ->
  (forall b, is_byte b -> parses (n - 1) k (f b) Q) ->
  (forall c, c < 0 -> fails (f c)) ->
  parses n (S k) (m ≫= f) Q.
Proof.
  intros Ht Hb Hm s Hs Hl _. destruct (Ht s Hs Hl) as (c & s' & E & [Hc|(Hc & Hs' & HM & l & D)]);
    rewrite (bind_ok _ _ _ _ _ E).
  - by destruct (Hm c Hc s') as (e & s'' & ->).
  - rewrite D, length_app in Hl. simpl in Hl. specialize (Hb c Hc s' Hs' ltac:(lia) I).
    destruct (f c s') as [[a| | |] s2]; [|done..].
    destruct Hb as (HQ & Hs2 & HM2 & l2 & D2 & L2). split_and!; [done|done|congruence|].
    exists (l ++ c :: l2). rewrite D, D2, <- app_assoc, length_app. split; [done|simpl; lia].
Qed.

(** After a byte has been seen, reading it succeeds. *)
Definition at_next (c : Z) (s : St) : Prop := is_next s = c.

Lemma parses_read_next n c : is_byte c -> parses_from (at_next c) n 1 read_stream any.
Proof.
  intros Hc s Hs Hl HN. unfold at_next, is_next in HN. destruct (is_data s) as [|b l] eqn:D.
  - pose proof (is_mark_neg s Hs). unfold is_byte in Hc. lia.
  - destruct (read_cons s b l Hs D) as (s' & -> & ? & D' & ?). split_and!; auto; [done|].
    exists [b]. by rewrite D'.
Qed.

(** What peeking returns: a byte or, at the end of the input, the marker. *)
Definition peeked (c : Z) : Prop := is_byte c \/ c < 0.

Definition peeks (n : nat) (m : M St Z) : Prop :=
  forall s, is_wf s -> (length (is_data s) < n)%nat ->
  exists c s', m s = (Ok c, s') /\ peeked c /\ is_next s' = c /\ is_wf s' /\
    is_mark s' = is_mark s /\ exists l, is_data s = l ++ is_data s'.

Lemma peeks_stream n : peeks n peek_stream.
Proof.
  intros s Hs Hl. unfold is_next. destruct (is_data s) as [|b l] eqn:D.
  - destruct (peek_nil s Hs D) as (s' & E & ? & D' & ?). eexists _, s'.
    rewrite D'. split_and!; eauto; [right; by apply is_mark_neg|by exists []].
  - destruct (peek_cons s b l Hs D) as (s' & E & ? & D' & ?). eexists _, s'.
    pose proof (is_data_bytes s Hs) as HB. rewrite D in HB. inversion HB; subst.
    rewrite D'. split_and!; eauto; [by left|by exists []].
Qed.

Lemma parses_peek {B} n k m (f : Z -> M St B) Q :
  peeks n m -> (forall c, peeked c -> parses_from (at_next c) n k (f c) Q) ->
  parses n k (m ≫= f) Q.
Proof.
  intros Hm Hf s Hs Hl _. destruct (Hm s Hs Hl) as (c & s1 & E & Hc & HN & Hs1 & HM & l & D).
  rewrite (bind_ok _ _ _ _ _ E). rewrite D, length_app in Hl.
  specialize (Hf c Hc s1 Hs1 ltac:(lia) HN). destruct (f c s1) as [[a| | |] s2]; [|done..].
  destruct Hf as (HQ & Hs2 & HM2 & l2 & D2 & L2). split_and!; [done|done|congruence|].
  exists (l ++ l2). rewrite D, D2, app_assoc, length_app. split; [done|lia].
Qed.

Lemma parses_with_fuel {A} n k (f : nat -> M St A) Q :
  (forall fuel, parses fuel k (f fuel) Q) -> parses n k (with_fuel f) Q.
Proof. intros Hf s Hs Hl _. apply Hf; [done| |done]. by apply is_data_fuel. Qed.

Lemma fails_exception {A} e : fails (exception (S := St) (A := A) e).
Proof. intros s. by exists e, s. Qed.

Lemma fails_bind {A B} (m : M St A) (f : A -> M St B) : fails m -> fails (m ≫= f).
Proof. intros Hm s. destruct (Hm s) as (e & s' & E). exists e, s'. by apply bind_exc. Qed.
End parses.

#[export] Hint Resolve parses_exception fails_exception fails_bind parses_any takes_stream
  peeks_stream : parses.

(** A marker: the code gives up. *)
Ltac fails_marker :=
  intros ? ?; unfold check_char; zcases; auto with parses.

(** Bind, with the length consumed by the second part left open. *)
Ltac pbind := eapply parses_bind; [| |].

(** ** The readers of tokens *)

Lemma isspace_byte c : isspace c = true -> 0 < c < 128.
Proof. unfold isspace. intros [[?%Z.leb_le ?%Z.leb_le]%andb_prop|?%Z.eqb_eq]%orb_prop; lia. Qed.

Section tokens.
Context `{InputStreamSpec St}.

Lemma takes_no_whitespace n : takes n read_no_whitespace.
Proof.
  intros s Hs _. unfold read_no_whitespace, with_fuel.
  pose proof (is_data_fuel s Hs) as Hf. revert s Hs Hf. generalize (is_fuel (St := St)) as F.
  intros F s. generalize (F s) as fuel. clear F. intros fuel. revert s.
  induction fuel as [|fuel IH]; intros s Hs Hf; [lia|]. cbn [read_no_whitespace_loop].
  destruct (takes_stream (S fuel) s Hs Hf) as (c & s1 & E & Hc). rewrite (bind_ok _ _ _ _ _ E).
  destruct ((0 <? c) && isspace c) eqn:Hw; [|by exists c, s1].
  apply andb_prop in Hw as [Hw%Z.ltb_lt _]. destruct Hc as [?|(Hc & Hs1 & HM & l & D)]; [lia|].
  rewrite D, length_app in Hf. simpl in Hf.
  destruct (IH s1 Hs1 ltac:(lia)) as (c2 & s2 & E2 & Hc2). exists c2, s2. split; [done|].
  destruct Hc2 as [?|(Hb & Hs2 & HM2 & l2 & D2)]; [by left|right].
  split_and!; [done|done|congruence|]. exists (l ++ c :: l2). by rewrite D, D2, <- app_assoc.
Qed.

Lemma peeks_json_peek n : peeks n json_peek.
Proof.
  intros s Hs _. unfold json_peek, with_fuel.
  pose proof (is_data_fuel s Hs) as Hf. revert Hf. generalize (is_fuel s) as fuel.
  intros fuel. revert s Hs. induction fuel as [|fuel IH]; intros s Hs Hf; [lia|].
  cbn [json_peek_loop].
  destruct (peeks_stream (S fuel) s Hs Hf) as (c & s1 & E & Hc & HN & Hs1 & HM & l & D).
  rewrite (bind_ok _ _ _ _ _ E).
  destruct ((0 <? c) && isspace c) eqn:Hw; [|exists c, s1; split_and!; by eauto].
  apply andb_prop in Hw as [Hw%Z.ltb_lt _]. rewrite D, length_app in Hf.
  unfold is_next in HN. destruct (is_data s1) as [|b l1] eqn:D1.
  { pose proof (is_mark_neg s1 Hs1). lia. }
  destruct (read_cons s1 b l1 Hs1 D1) as (s2 & E2 & Hs2 & D2 & M2).
  rewrite (bind_ok _ _ _ _ _ E2). simpl in Hf.
  destruct (IH s2 Hs2 ltac:(rewrite D2; lia)) as (c3 & s3 & E3 & Hc3 & HN3 & Hs3 & HM3 & l3 & D3).
  exists c3, s3. split_and!; [done|done|done|done|congruence|].
  exists (l ++ b :: l3). by rewrite D, <- D2, D3, <- app_assoc.
Qed.

Hint Resolve takes_no_whitespace peeks_json_peek : parses.

Lemma parses_check_char n ch x : parses n 0 (check_char ch x) any.
Proof. unfold check_char. destruct (x =? ch); [by apply parses_ret|auto with parses]. Qed.

Lemma parses_skip_whitespace n : parses n 0 skip_whitespace any.
Proof.
  unfold skip_whitespace. eapply parses_peek; [auto with parses|]. intros c Hc.
  apply parses_any. by apply parses_ret.
Qed.

Lemma parses_test_char n x : 0 <= x -> parses n 1 (json_test_char x) any.
Proof.
  intros Hx. unfold json_test_char. eapply (parses_bind _ 0 1 1 _ _ any); [|intros _ _|lia].
  - destruct (existsb _ _); [apply parses_skip_whitespace|by apply parses_ret].
  - rewrite Nat.sub_0_r. eapply parses_read; [auto with parses| |fails_marker].
    intros. apply parses_check_char.
Qed.

Lemma parses_test_chars n l : is_bytes l -> parses n 0 (test_chars l) any.
Proof.
  intros Hl. revert n. induction Hl as [|c l Hc Hl IH]; intros n; [by apply parses_ret|].
  cbn [test_chars]. eapply parses_bind; [apply parses_test_char|intros; apply IH|lia].
  unfold is_byte in Hc. lia.
Qed.

(** The constant words: null, true, false. *)
Lemma parses_word {A} n l (a : A) (Q : A -> Prop) :
  is_bytes l -> Q a -> parses n 0 (test_chars l ;; mret a) Q.
Proof.
  intros Hl HQ. eapply (parses_bind _ 0 0); [by apply parses_test_chars| |lia].
  intros _ _. by apply parses_ret.
Qed.

(** A byte that has to be one of a few, and nothing depends on which. *)
Lemma parses_hex_digit n : parses n 1 read_hex_digit any.
Proof.
  unfold read_hex_digit. eapply parses_read; [auto with parses| |fails_marker].
  intros b Hb. zcases; auto with parses; by apply parses_ret.
Qed.

Lemma parses_map {A B} n k (m : M St A) (f : A -> B) P :
  parses n k m P -> parses n k (a ← m; mret (f a)) any.
Proof. intros Hm. eapply parses_bind; [done|intros a _; by apply parses_ret|lia]. Qed.

Lemma parses_hex_char n : parses n 0 read_hex_char any.
Proof.
  unfold read_hex_char.
  do 3 (eapply parses_bind; [eapply parses_map, parses_hex_digit|intros ? _|apply Nat.le_0_l]).
  eapply parses_0, parses_map, parses_hex_digit.
Qed.

Lemma utf8_seq_ok ch : is_bytes (utf8_seq ch) /\ (0 < length (utf8_seq ch) <= 3)%nat.
Proof.
  unfold utf8_seq. destruct (ch <? 128); [|destruct (ch <? 2048)];
    (split; [repeat constructor; apply u8_is_byte|simpl; lia]).
Qed.

Lemma parses_esc_char n :
  parses n 1 read_esc_char (fun l => is_bytes l /\ (0 < length l <= 3)%nat).
Proof.
  unfold read_esc_char. eapply parses_read; [auto with parses| |fails_marker].
  intros b Hb. eapply (parses_bind _ 0 0 _ _ _ any).
  - zcases; try (by apply parses_ret); auto with parses. apply parses_hex_char.
  - intros c _. apply parses_ret, utf8_seq_ok.
  - lia.
Qed.

Lemma parses_of_option {A} n (o : option A) a (Q : A -> Prop) :
  o = Some a -> Q a -> parses n 0 (of_option o) Q.
Proof. intros -> HQ. by apply parses_ret. Qed.

(** Storing characters never leaves the array of [size] bytes. *)
Lemma str_store_ok size l : 0 < size < 2 ^ 64 -> forall a i, zlen a = size -> 0 <= i ->
  exists a' i', str_store a size i l = Some (a', i') /\ zlen a' = size /\ 0 <= i' .
Proof.
  intros Hsize. induction l as [|c l IH]; intros a i Ha Hi; cbn [str_store].
  { by exists a, i. }
  rewrite (wrapu_small 64) by lia.
  destruct (Z.ltb_spec i (size - 1)).
  - destruct (mem_write_ok a i [u8 c]) as (m & -> & Hm & _); [lia|zlia|]. cbn.
    apply IH; [lia|]. pose proof (wrapu_range 32 (i + 1)). lia.
  - cbn. apply IH; [lia|]. pose proof (wrapu_range 32 (i + 1)). lia.
Qed.

Lemma parses_string_loop size fuel : 0 < size < 2 ^ 64 -> forall a i,
  zlen a = size -> 0 <= i ->
  parses fuel 0 (json_read_string_loop fuel a size i) (fun r => zlen (fst r) = size /\ 0 <= snd r).
Proof.
  intros Hsize. induction fuel as [|fuel IH]; intros a i Ha Hi; [intros s Hs Hl; lia|].
  cbn [json_read_string_loop]. eapply (parses_le _ 1); [|lia].
  eapply parses_read; [auto with parses| |fails_marker].
  intros b Hb. rewrite (proj2 (Z.ltb_ge _ _)) by (unfold is_byte in Hb; lia).
  destruct (b =? 34); [by apply parses_ret|]. rewrite Nat.sub_succ, Nat.sub_0_r.
  eapply (parses_bind _ 0 0 _ _ _ any); [| |lia].
  - destruct (b =? #"\"); [|by apply parses_ret].
    eapply parses_0, parses_esc_char.
  - intros l _. rewrite Nat.sub_0_r.
    destruct (str_store_ok size l Hsize a i Ha Hi) as (a' & i' & E & Ha' & Hi').
    eapply (parses_bind _ 0 0); [by apply (parses_of_option _ _ _ (eq (a', i')) E)| |lia].
    intros ? <-. rewrite Nat.sub_0_r. by apply IH.
Qed.

Lemma parses_read_string n a size : 0 < size < 2 ^ 64 -> zlen a = size ->
  parses n 1 (json_read_string a size) (fun r => zlen (snd r) = size).
Proof.
  intros Hsize Ha. unfold json_read_string.
  eapply parses_read; [auto with parses| |fails_marker]. intros b Hb.
  destruct (b =? #"n").
  - eapply (parses_bind _ 0 0); [apply parses_test_chars; repeat constructor; done| |lia].
    intros _ _. destruct (mem_write_ok a 0 [0]) as (m & E & Hm & _); [lia|zlia|].
    eapply (parses_bind _ 0 0); [by apply (parses_of_option _ _ _ (eq m) E)| |lia].
    intros ? <-. apply parses_ret. simpl. lia.
  - destruct (negb (b =? 34)); [auto with parses|].
    eapply (parses_bind _ 0 0).
    + apply parses_with_fuel. intros fuel. apply parses_string_loop; [done|done|lia].
    + intros [a' i] [Ha' Hi]; simpl in *.
      assert (exists m, (if i <? size then mem_write a' i [0] else mem_write a' (size - 1) [0])
        = Some m /\ zlen m = size) as (m & E & Hm).
      { destruct (Z.ltb_spec i size); [destruct (mem_write_ok a' i [0]) as (m & -> & ? & _)|
          destruct (mem_write_ok a' (size - 1) [0]) as (m & -> & ? & _)]; try zlia;
          exists m; split; [done|lia|done|lia]. }
      eapply (parses_bind _ 0 0); [by apply (parses_of_option _ _ _ (eq m) E)| |lia].
      intros ? <-. by apply parses_ret.
    + lia.
Qed.

Lemma parses_boolean n : parses n 1 json_read_boolean (fun b => b = 0 \/ b = 1).
Proof.
  unfold json_read_boolean. eapply parses_read; [auto with parses| |fails_marker]. intros b Hb.
  destruct (b =? #"t"); [apply parses_word; [repeat constructor; done|by right]|].
  destruct (b =? #"f"); [apply parses_word; [repeat constructor; done|by left]|].
  eapply (parses_bind _ 0 0 _ _ _ any); [auto with parses| |lia].
  intros _ _. apply parses_ret. by left.
Qed.

(** The loop of the unsigned readers; [res * 10 + d] wraps around. *)
Lemma parses_digits fuel : forall res, in_u 64 res ->
  parses fuel 0 (read_digits next_u64 fuel res) (in_u 64).
Proof.
  induction fuel as [|fuel IH]; intros res Hr; [intros s Hs Hl; lia|]. cbn [read_digits].
  eapply parses_peek; [auto with parses|]. intros c Hc.
  destruct (Z.ltb_spec c (#"0")); cbn [orb]; [apply parses_any; by apply parses_ret|].
  destruct (Z.ltb_spec (#"9") c); [apply parses_any; by apply parses_ret|].
  eapply (parses_from_bind _ _ 1 0 0); [apply parses_read_next; unfold is_byte; lia| |lia].
  intros _ _. rewrite Nat.sub_succ, Nat.sub_0_r. unfold next_u64, of_option. rewrite ret_bind.
  apply IH. by apply wrapu_range.
Qed.

Lemma parses_sign n : parses n 1 read_sign (fun r => 0 <= snd r <= 9).
Proof.
  unfold read_sign. eapply parses_read; [auto with parses| |fails_marker]. intros b Hb.
  destruct (b =? #"-").
  - apply parses_assoc, (parses_le _ 1); [|lia].
    eapply parses_read; [auto with parses| |].
    + intros c Hc. rewrite ret_bind. zcases; [auto with parses..|]. apply parses_ret. simpl. lia.
    + intros c Hc. rewrite ret_bind. zcases. auto with parses.
  - rewrite ret_bind. zcases; [auto with parses..|]. apply parses_ret. simpl. lia.
  - rewrite ret_bind. zcases. auto with parses.
Qed.

(** The unsigned readers: the result wraps around. *)
Lemma parses_unsigned n (m : M St Z) :
  m = ('(neg, res) ← read_sign;
       res ← with_fuel (fun fuel => read_digits next_u64 fuel res);
       mret (if neg : bool then u64 (u64 (Z.lnot res) + 1) else res)) ->
  parses n 1 m (in_u 64).
Proof.
  intros ->. eapply (parses_bind _ 1 0); [apply parses_sign| |lia]. intros [neg d] Hd. simpl in Hd.
  eapply (parses_bind _ 0 0); [| |lia].
  - apply parses_with_fuel. intros fuel. apply parses_digits. unfold in_u. lia.
  - intros res Hr. apply parses_ret. destruct neg; [by apply wrapu_range|done].
Qed.

Lemma parses_ulong n : parses n 1 json_read_ulong (in_u 64).
Proof. by apply parses_unsigned. Qed.

Lemma parses_uint64 n : parses n 1 json_read_uint64 (in_u 64).
Proof. by apply parses_unsigned. Qed.

(** Structures and arrays, for call backs that consume what they like. *)
Lemma parses_struct_loop call_back fuel :
  (forall n nm, parses n 0 (call_back nm) any) ->
  parses fuel 0 (json_read_struct_loop call_back fuel) any.
Proof.
  intros Hcb. induction fuel as [|fuel IH]; [intros s Hs Hl; lia|].
  cbn [json_read_struct_loop]. apply (parses_le _ 1); [|lia].
  eapply (parses_bind _ 1 0); [by apply parses_read_string|intros [? nm] _|lia].
  eapply parses_bind; [by apply parses_test_char|intros _ _|apply Nat.le_0_l].
  eapply parses_bind; [apply Hcb|intros _ _|apply Nat.le_0_l].
  eapply parses_0, parses_read; [auto with parses| |fails_marker]. intros b Hb.
  destruct (b =? #","); [|apply parses_check_char].
  eapply parses_weaken; [apply IH|done|lia|lia].
Qed.

Lemma parses_array_loop call_back fuel :
  (forall n, parses n 0 call_back any) ->
  parses fuel 0 (json_read_array_loop call_back fuel) any.
Proof.
  intros Hcb. induction fuel as [|fuel IH]; [intros s Hs Hl; lia|].
  cbn [json_read_array_loop].
  eapply (parses_bind _ 0 0); [apply Hcb|intros _ _|lia].
  eapply parses_0, parses_read; [auto with parses| |fails_marker]. intros b Hb.
  destruct (b =? #","); [|apply parses_check_char].
  eapply parses_weaken; [apply IH|done|lia|lia].
Qed.

(** The common frame of structures and arrays. *)
Lemma parses_compound n (op cl : Z) (body : M St unit) :
  is_byte op -> is_byte cl -> (forall n, parses n 0 body any) ->
  parses n 1 (ch ← read_no_whitespace;
    if ch =? #"n" then test_chars (str "ull") ;; mret 0
    else if negb (ch =? op) then exception ERR_PROTOCOL
    else p ← json_peek; (if p =? cl then read_stream ;; mret tt else body) ;; mret 1)
    (fun r => r = 0 \/ r = 1).
Proof.
  unfold is_byte. intros Hop Hcl Hbody. eapply parses_read; [auto with parses| |fails_marker].
  intros b Hb. destruct (b =? #"n"); [apply parses_word; [repeat constructor; done|by left]|].
  destruct (b =? op); cbn [negb]; [|auto with parses].
  eapply parses_peek; [auto with parses|]. intros c Hc.
  eapply (parses_from_bind _ _ 0 0 _ _ _ any); [|intros _ _; apply parses_ret; by right|lia].
  destruct (Z.eqb_spec c cl) as [->|]; [|apply parses_any, Hbody].
  eapply (parses_from_bind _ _ 1 0); [by apply parses_read_next|intros _ _|lia].
  by apply parses_ret.
Qed.

Lemma parses_struct n call_back :
  (forall n nm, parses n 0 (call_back nm) any) ->
  parses n 1 (json_read_struct call_back) (fun r => r = 0 \/ r = 1).
Proof.
  intros Hcb. apply parses_compound; [done..|]. intros n'. apply parses_with_fuel.
  intros fuel. by apply parses_struct_loop.
Qed.

Lemma parses_array n call_back :
  (forall n, parses n 0 call_back any) ->
  parses n 1 (json_read_array call_back) (fun r => r = 0 \/ r = 1).
Proof.
  intros Hcb. apply parses_compound; [done..|]. intros n'. apply parses_with_fuel.
  intros fuel. by apply parses_array_loop.
Qed.
End tokens.

#[export] Hint Resolve takes_no_whitespace peeks_json_peek : parses.
