(* ===== verification/JsonRoundTrip.v ===== *)
(** * What the JSON writers print, the JSON readers read back

    The readers on the texts [dec_text], [signed_text] and [string_text] of the
    writers, and on any white space in front of them. *)

From S2P Require Import Prelude Streams JsonWrite JsonRead JsonReadSpec.

Abbreviation spaces := (Forall (fun c => isspace c = true)).
Abbreviation solid := (Forall (fun c => isspace c = false)).

Lemma spaces_bytes ws : spaces ws -> is_bytes ws.
Proof.
  intros Hws. apply (Forall_impl _ _ _ Hws). intros c Hc%isspace_byte. unfold is_byte. lia.
Qed.

Lemma not_space c : isspace c = false -> (0 <? c) && isspace c = false.
Proof. intros ->. apply andb_false_r. Qed.

Lemma is_space c : isspace c = true -> (0 <? c) && isspace c = true.
Proof. intros Hc. pose proof (isspace_byte c Hc). rewrite Hc. rewrite (proj2 (Z.ltb_lt _ _)); [done|lia]. Qed.

Section reads.
Context `{InputStreamSpec St}.

Lemma reads_with_fuel {A} (f : nat -> M St A) a l P :
  (forall fuel, (length l < fuel)%nat -> reads (f fuel) a l P) -> reads (with_fuel f) a l P.
Proof.
  intros Hf s rest Hs D HP. apply Hf; [|done..]. pose proof (is_data_fuel s Hs) as HF.
  rewrite D, length_app in HF. lia.
Qed.

Lemma reads_assoc {A B C} (m : M St A) (f : A -> M St B) (g : B -> M St C) c l P :
  reads (m ≫= fun a => f a ≫= g) c l P -> reads ((m ≫= f) ≫= g) c l P.
Proof. intros Hm s rest Hs D HP. rewrite bind_assoc. by apply Hm. Qed.

Lemma reads_byte {B} (f : Z -> M St B) b c l P :
  reads (f c) b l P -> reads (read_stream ≫= f) b (c :: l) P.
Proof.
  intros Hf. apply (reads_bind _ _ c b [c] l anything P); [auto with stream|done|by destruct l].
Qed.

(** Peeking at a byte. *)
Lemma reads_peek_byte {B} (f : Z -> M St B) b c l P :
  reads (f c) b (c :: l) P -> reads (peek_stream ≫= f) b (c :: l) P.
Proof. intros Hf. apply (reads_peek _ _ _ _ anything); [by intros ? ->|done]. Qed.

Lemma reads_bind' {A B} (m : M St A) (f : A -> M St B) a b l1 l2 Q :
  reads m a l1 anything -> reads (f a) b l2 Q -> reads (m ≫= f) b (l1 ++ l2) Q.
Proof. intros Hm Hf. apply (reads_bind _ _ a b l1 l2 anything Q); [done|done|by destruct l2]. Qed.

Lemma reads_ws_loop ws c : spaces ws -> isspace c = false ->
  forall fuel, (length ws < fuel)%nat ->
  reads (read_no_whitespace_loop fuel) c (ws ++ [c]) anything.
Proof.
  intros Hws Hc. induction Hws as [|w ws Hw Hws IH]; intros [|fuel] Hf; simpl in Hf; try lia;
    cbn [read_no_whitespace_loop app]; apply reads_byte.
  - rewrite not_space by done. auto with stream.
  - rewrite is_space by done. apply IH. lia.
Qed.

Lemma reads_ws ws c : spaces ws -> isspace c = false ->
  reads read_no_whitespace c (ws ++ [c]) anything.
Proof.
  intros Hws Hc. apply reads_with_fuel. intros fuel HF.
  apply reads_ws_loop; [done..|]. rewrite length_app in HF. simpl in HF. lia.
Qed.

Lemma reads_no_whitespace {B} (f : Z -> M St B) b ws c l P :
  spaces ws -> isspace c = false -> reads (f c) b l P ->
  reads (read_no_whitespace ≫= f) b (ws ++ c :: l) P.
Proof.
  intros Hws Hc Hf. replace (ws ++ c :: l) with ((ws ++ [c]) ++ l) by (by rewrite <- app_assoc).
  apply (reads_bind' _ _ c); [by apply reads_ws|done].
Qed.

(** Peeking consumes the white space in front of the next symbol. *)
Lemma reads_peek_ws ws c : spaces ws -> isspace c = false -> reads json_peek c ws (eq c).
Proof.
  intros Hws Hc. apply reads_with_fuel.
  induction Hws as [|w ws Hw Hws IH]; intros [|fuel] HF; simpl in HF; try lia;
    cbn [json_peek_loop].
  - apply (reads_peek _ _ _ _ (eq c)); [|done]. intros ? <-. rewrite not_space by done.
    apply reads_ret.
  - apply (reads_peek _ _ _ _ anything); [|done]. intros ? ->. rewrite is_space by done.
    apply reads_byte, IH. lia.
Qed.

Lemma reads_json_peek {B} (f : Z -> M St B) b ws c l P :
  spaces ws -> isspace c = false -> reads (f c) b (c :: l) P ->
  reads (json_peek ≫= f) b (ws ++ c :: l) P.
Proof. intros Hws Hc Hf. eapply reads_bind; [by apply reads_peek_ws|done|done]. Qed.

Lemma reads_skip_whitespace {B} (f : M St B) b ws c l P :
  spaces ws -> isspace c = false -> reads f b (c :: l) P ->
  reads (skip_whitespace ;; f) b (ws ++ c :: l) P.
Proof.
  intros Hws Hc Hf. apply reads_assoc. by apply reads_json_peek.
Qed.

Lemma reads_check_char c : reads (check_char c c) tt [] anything.
Proof. unfold check_char. rewrite Z.eqb_refl. auto with stream. Qed.

Lemma reads_test_char c : isspace c = false -> reads (json_test_char c) tt [c] anything.
Proof.
  intros Hc. unfold json_test_char. destruct (existsb _ _).
  - apply (reads_skip_whitespace _ _ [] c []); [done..|].
    apply reads_byte, reads_check_char.
  - rewrite ret_bind. apply reads_byte, reads_check_char.
Qed.

(** White space is skipped in front of the separators. *)
Lemma reads_test_char_ws ws c : spaces ws -> isspace c = false ->
  c ∈ [#":"; #","; #"{"; #"}"; #"["; #"]"] ->
  reads (json_test_char c) tt (ws ++ [c]) anything.
Proof.
  intros Hws Hc Hin. unfold json_test_char. destruct (existsb _ _) eqn:E.
  - apply reads_skip_whitespace; [done..|]. apply reads_byte, reads_check_char.
  - exfalso. apply not_true_iff_false in E. apply E. apply existsb_exists.
    exists c. rewrite Z.eqb_refl. split; [|done]. apply list_elem_of_In. rewrite !elem_of_cons in *. tauto.
Qed.

Lemma reads_test_chars l : solid l -> reads (test_chars l) tt l anything.
Proof.
  induction 1 as [|c l Hc Hl IH]; cbn [test_chars]; [auto with stream|].
  apply (reads_bind' _ _ tt tt [c] l); [by apply reads_test_char|done].
Qed.

Lemma reads_word {A} (a : A) l : solid l -> reads (test_chars l ;; mret a) a l anything.
Proof.
  intros Hl. rewrite <- (app_nil_r l). apply (reads_bind' _ _ tt); [|auto with stream].
  rewrite app_nil_r. by apply reads_test_chars.
Qed.

(** ** Numbers *)

Definition no_digit (c : Z) : Prop := is_digit c = false.

Lemma digit_cases c : is_digit c = negb ((c <? #"0") || (#"9" <? c)).
Proof. unfold is_digit. zcases; done. Qed.

Lemma digit_not_space c : is_digit c -> isspace c = false.
Proof. intros Hc%digit_range. unfold isspace. zcases; done. Qed.

Lemma dec_value_from_le l : Forall is_digit l -> forall acc, 0 <= acc ->
  acc <= dec_value_from acc l.
Proof.
  induction 1 as [|c l Hc%digit_range Hl IH]; intros acc Ha; [simpl; lia|].
  cbn. specialize (IH (acc * 10 + (c - 48))). unfold dec_value_from in IH. lia.
Qed.

Lemma reads_digits next max l : Forall is_digit l ->
  (forall r d, 0 <= r -> 0 <= d <= 9 -> r * 10 + d < max -> next r d = Some (r * 10 + d)) ->
  forall fuel acc, (length l < fuel)%nat -> 0 <= acc -> dec_value_from acc l < max ->
  reads (read_digits next fuel acc) (dec_value_from acc l) l no_digit.
Proof.
  intros Hl Hnext. induction Hl as [|c l Hc Hl IH]; intros [|fuel] acc Hf Ha Hm;
    simpl in Hf; try lia; cbn [read_digits].
  - apply (reads_peek _ _ _ _ no_digit); [|done]. intros c Hc. unfold no_digit in Hc.
    rewrite digit_cases in Hc. apply negb_false_iff in Hc. rewrite Hc. auto with stream.
  - apply reads_peek_byte. apply Is_true_true in Hc as Hc'. rewrite digit_cases in Hc'.
    apply negb_true_iff in Hc'. rewrite Hc'. apply reads_byte.
    apply digit_range in Hc. pose proof (dec_value_from_le l Hl (acc * 10 + (c - 48)) ltac:(lia)).
    cbn in Hm. change (fold_left _ l ?a) with (dec_value_from a l) in Hm.
    rewrite Hnext by lia. cbn [of_option]. rewrite ret_bind. apply IH; [lia..|done].
Qed.

Lemma next_s64_ok r d : 0 <= r -> 0 <= d <= 9 -> r * 10 + d < 2 ^ 63 ->
  next_s64 r d = Some (r * 10 + d).
Proof. intros. unfold next_s64. by rewrite (proj2 (Z.ltb_lt _ _)). Qed.

Lemma next_u64_ok r d : 0 <= r -> 0 <= d <= 9 -> r * 10 + d < 2 ^ 64 ->
  next_u64 r d = Some (r * 10 + d).
Proof. intros. unfold next_u64. by rewrite wrapu_small by lia. Qed.

(** All readers of numbers at once: the digits of [n], with a sign or not. *)
Lemma reads_number next max (fin : bool -> Z -> Z) (neg : bool) n ws :
  spaces ws -> 0 <= n < max ->
  (forall r d, 0 <= r -> 0 <= d <= 9 -> r * 10 + d < max -> next r d = Some (r * 10 + d)) ->
  reads ('(neg, res) ← read_sign;
         res ← with_fuel (fun fuel => read_digits next fuel res);
         mret (fin neg res)) (fin neg n)
    (ws ++ (if neg then [#"-"] else []) ++ dec_text n) no_digit.
Proof.
  intros Hws Hn Hnext. destruct (dec_text_ok n) as (Hd & Hne & Hv); [lia|].
  destruct (dec_text n) as [|c l]; [done|]. apply Forall_cons in Hd as [Hc Hl].
  pose proof (digit_range c Hc) as Hr.
  assert (HS : reads read_sign (neg, c - #"0")
    (ws ++ (if neg then [#"-"] else []) ++ [c]) anything).
  { assert ((c <? #"0") || (#"9" <? c) = false) as Hc0.
    { apply Is_true_true in Hc. rewrite digit_cases in Hc. by apply negb_true_iff in Hc. }
    unfold read_sign. destruct neg; cbn [app].
    - apply reads_no_whitespace; [done|done|]. cbn [Z.eqb Pos.eqb].
      apply reads_assoc, reads_byte. rewrite ret_bind, Hc0. auto with stream.
    - apply reads_no_whitespace; [done|by apply digit_not_space|].
      replace (c =? #"-") with false by (symmetry; apply Z.eqb_neq; lia).
      rewrite ret_bind, Hc0. auto with stream. }
  replace (ws ++ (if neg then [#"-"] else []) ++ c :: l)
    with ((ws ++ (if neg then [#"-"] else []) ++ [c]) ++ l) by (by rewrite <- !app_assoc).
  eapply reads_bind'; [exact HS|]. cbn beta iota. rewrite <- (app_nil_r l).
  apply (reads_bind _ _ n _ _ _ no_digit); [|auto with stream|by intros ?].
  apply reads_with_fuel. intros fuel HF. unfold dec_value in Hv. rewrite <- Hv. cbn.
  change (fold_left _ l ?a) with (dec_value_from a l). apply (reads_digits next max); auto; [lia|].
  cbn in Hv. change (fold_left _ l ?a) with (dec_value_from a l) in Hv. lia.
Qed.

Lemma next_signed_reads (neg : bool) n ws :
  spaces ws -> 0 <= n < 2 ^ 63 ->
  reads json_read_long (if neg then - n else n)
    (ws ++ (if neg then [#"-"] else []) ++ dec_text n) no_digit.
Proof.
  intros. apply (reads_number next_s64 (2 ^ 63) (fun neg r => if neg then - r else r));
    auto using next_s64_ok.
Qed.

Lemma signed_text_neg n : signed_text n = (if n <? 0 then [#"-"] else []) ++ dec_text (Z.abs n).
Proof. unfold signed_text. zcases; [rewrite Z.abs_neq|rewrite Z.abs_eq]; done || lia. Qed.

(** [LONG_MIN] is missing: its digits overflow before the sign is applied. *)
Lemma reads_long n ws : spaces ws -> - 2 ^ 63 < n < 2 ^ 63 ->
  reads json_read_long n (ws ++ signed_text n) no_digit.
Proof.
  intros Hws Hn. pose proof (next_signed_reads (n <? 0) (Z.abs n) ws Hws ltac:(lia)) as HR.
  rewrite signed_text_neg. replace n with (if n <? 0 then - Z.abs n else Z.abs n) at 1; [done|].
  zcases; lia.
Qed.

Lemma reads_int64 n ws : spaces ws -> - 2 ^ 63 < n < 2 ^ 63 ->
  reads json_read_int64 n (ws ++ signed_text n) no_digit.
Proof. apply reads_long. Qed.

(** The unsigned readers accept a sign and return the two's complement. *)
Lemma reads_ulong n ws : spaces ws -> - 2 ^ 64 < n < 2 ^ 64 ->
  reads json_read_ulong (u64 n) (ws ++ signed_text n) no_digit.
Proof.
  intros Hws Hn. rewrite signed_text_neg.
  replace (u64 n) with (if n <? 0 then u64 (u64 (Z.lnot (Z.abs n)) + 1) else Z.abs n).
  - apply (reads_number next_u64 (2 ^ 64)
      (fun neg r => if neg then u64 (u64 (Z.lnot r) + 1) else r)); auto using next_u64_ok. lia.
  - unfold wrapu, Z.lnot. zcases; dlia.
Qed.

Lemma reads_uint64 n ws : spaces ws -> - 2 ^ 64 < n < 2 ^ 64 ->
  reads json_read_uint64 (u64 n) (ws ++ signed_text n) no_digit.
Proof. apply reads_ulong. Qed.

Lemma reads_boolean (b : bool) ws : spaces ws ->
  reads json_read_boolean (b2z b) (ws ++ (if b then str "true" else str "false")) anything.
Proof.
  intros Hws. destruct b; cbn [str];
    (apply reads_no_whitespace; [done|done|]; cbn [Z.eqb Pos.eqb]);
    apply reads_word; repeat constructor; done.
Qed.

(** ** Escape sequences *)

Lemma reads_hex_digit d : 0 <= d < 16 -> reads read_hex_digit d [hex_digit d] anything.
Proof.
  intros Hd. unfold read_hex_digit. apply reads_byte.
  unfold hex_digit. change 15 with (2 ^ 4 - 1). rewrite land_mod, Z.mod_small by lia.
  zcases; match goal with |- reads (mret ?x) ?y _ _ => replace x with y by lia end;
    auto with stream.
Qed.

Lemma reads_map {A B} (m : M St A) (f : A -> B) a l :
  reads m a l anything -> reads (x ← m; mret (f x)) (f a) l anything.
Proof. intros Hm. rewrite <- (app_nil_r l). eapply reads_bind'; [done|auto with stream]. Qed.

Lemma reads_hex_char d1 d2 d3 d4 :
  0 <= d1 < 16 -> 0 <= d2 < 16 -> 0 <= d3 < 16 -> 0 <= d4 < 16 ->
  reads read_hex_char
    (Z.lor (Z.lor (Z.lor (Z.shiftl d1 12) (Z.shiftl d2 8)) (Z.shiftl d3 4)) d4)
    [hex_digit d1; hex_digit d2; hex_digit d3; hex_digit d4] anything.
Proof.
  intros H1 H2 H3 H4. unfold read_hex_char.
  set (v1 := Z.shiftl d1 12). set (v2 := Z.lor v1 _). set (v3 := Z.lor v2 _).
  apply (reads_bind' _ _ v1 _ [_]); [apply (reads_map _ (fun d => Z.shiftl d 12)); by apply reads_hex_digit|].
  apply (reads_bind' _ _ v2 _ [_]); [apply (reads_map _ (fun d => Z.lor v1 (Z.shiftl d 8))); by apply reads_hex_digit|].
  apply (reads_bind' _ _ v3 _ [_]); [apply (reads_map _ (fun d => Z.lor v2 (Z.shiftl d 4))); by apply reads_hex_digit|].
  apply (reads_map _ (fun d => Z.lor v3 d)). by apply reads_hex_digit.
Qed.

Lemma escape_facts c : is_byte c -> must_escape c = true ->
  utf8_seq c = [c] /\ hex_digit c = hex_digit (c mod 16) /\
  Z.lor (Z.lor (Z.lor (Z.shiftl 0 12) (Z.shiftl 0 8)) (Z.shiftl (Z.shiftr c 4) 4)) (c mod 16) = c.
Proof.
  intros Hb He. match goal with |- ?P => assert (E : bool_decide (must_escape c = true -> P) = true) end.
  { clear He. revert c Hb. apply forall_below_spec. by vm_compute. }
  apply bool_decide_true in E. auto.
Qed.

Lemma reads_esc_char c : is_byte c -> must_escape c = true ->
  exists esc, char_text c = #"\" :: esc /\ reads read_esc_char [c] esc anything.
Proof.
  intros Hb He. rewrite char_text_escape by done.
  destruct (escape_facts c Hb He) as (Hu & Hh & Hv). unfold is_byte in Hb.
  zcases; subst; (eexists; split; [done|]); apply reads_byte;
    try (rewrite <- Hu; apply (reads_ret (utf8_seq _))).
  cbn [Z.eqb Pos.eqb orb].
  replace [c] with (utf8_seq (Z.lor (Z.lor (Z.lor (Z.shiftl 0 12) (Z.shiftl 0 8))
    (Z.shiftl (Z.shiftr c 4) 4)) (c mod 16))) by (by rewrite Hv).
  apply (reads_map _ utf8_seq). rewrite Hh. rewrite Z.shiftr_div_pow2 by lia.
  apply (reads_hex_char 0 0 (c / 2 ^ 4) (c mod 16)); dlia.
Qed.

(** A character that is not escaped stands for itself, and ends nothing. *)
Lemma plain_char c : is_byte c -> must_escape c = false ->
  char_text c = [c] /\ c <> 34 /\ c <> #"\" /\ 0 <= c.
Proof.
  unfold is_byte, char_text. intros Hb He. rewrite He. unfold must_escape in He.
  revert He. zcases; intros; split_and!; done || lia.
Qed.

(** ** Strings in an array of the caller *)

Lemma str_store_app size l1 l2 a i :
  str_store a size i (l1 ++ l2) =
  ('(a, i) ← str_store a size i l1; str_store a size i l2).
Proof.
  revert a i. induction l1 as [|c l1 IH]; intros a i; cbn [str_store app]; [done|].
  destruct (if i <? u64 (size - 1) then _ else _); [|done]. apply IH.
Qed.

Lemma reads_string_loop size l : is_bytes l -> forall fuel a i a' i',
  (length (chars_text l ++ [34%Z]) < fuel)%nat ->
  str_store a size i l = Some (a', i') ->
  reads (json_read_string_loop fuel a size i) (a', i') (chars_text l ++ [34]) anything.
Proof.
  induction 1 as [|c l Hc Hl IH]; intros [|fuel] a i a' i' Hf E; try lia;
    cbn [json_read_string_loop].
  - apply reads_byte. cbn in *. simplify_eq. apply reads_ret.
  - rewrite chars_text_cons in *. change (c :: l) with ([c] ++ l) in E.
    rewrite str_store_app in E. destruct (str_store a size i [c]) as [[a1 i1]|] eqn:E1; [|done].
    assert (HR : (length (chars_text l ++ [34%Z]) < fuel)%nat ->
      reads ('(a, i) ← of_option (str_store a size i [c]); json_read_string_loop fuel a size i)
      (a', i') (chars_text l ++ [34]) anything).
    { intros Hf'. rewrite E1. cbn [of_option]. rewrite ret_bind. by apply IH. }
    rewrite <- app_assoc in *. rewrite length_app in Hf. destruct (must_escape c) eqn:He.
    + destruct (reads_esc_char c Hc He) as (esc & HE & HR').
      rewrite HE in *. cbn [app] in *. apply reads_byte. cbn [Z.eqb Pos.eqb Z.ltb Z.compare].
      eapply reads_bind'; [exact HR'|]. apply HR. simpl in Hf. lia.
    + destruct (plain_char c Hc He) as (HE & H34 & H92 & H0'). rewrite HE in *. cbn [app] in *.
      apply reads_byte. apply Z.eqb_neq in H34, H92. rewrite H34, H92.
      rewrite (proj2 (Z.ltb_ge _ _)) by done. rewrite ret_bind. apply HR. simpl in Hf. lia.
Qed.
End reads.

(** The array after the characters [l] have been stored: a prefix of [l]. *)
Lemma str_store_spec size l : 0 < size < 2 ^ 64 -> is_bytes l -> forall pre a,
  zlen a = size -> zlen pre + zlen l < 2 ^ 32 ->
  ztake (zlen pre `min` (size - 1)) a = ztake (size - 1) pre ->
  exists a', str_store a size (zlen pre) l = Some (a', zlen pre + zlen l) /\ zlen a' = size /\
    ztake ((zlen pre + zlen l) `min` (size - 1)) a' = ztake (size - 1) (pre ++ l).
Proof.
  intros Hs. induction 1 as [|c l Hc Hb IH]; intros pre a Ha Hl Hpre; cbn [str_store].
  { exists a. rewrite zlen_nil, Z.add_0_r, app_nil_r. done. }
  rewrite zlen_cons in *. pose proof (zlen_nonneg pre). pose proof (zlen_nonneg l).
  rewrite (wrapu_small 64), (wrapu_small 32), (u8_byte c) by (done || lia).
  replace (zlen pre + 1) with (zlen (pre ++ [c])) by zlia.
  replace (zlen pre + (zlen l + 1)) with (zlen (pre ++ [c]) + zlen l) by zlia.
  replace (pre ++ c :: l) with ((pre ++ [c]) ++ l) by (by rewrite <- app_assoc).
  destruct (Z.ltb_spec (zlen pre) (size - 1)) as [Hlt|Hge].
  - destruct (mem_write_ok a (zlen pre) [c]) as (m & -> & Hm & Ht); [lia|zlia|]. cbn.
    rewrite Z.min_l, (ztake_all (size - 1) pre) in Hpre by lia.
    apply IH; [lia|zlia|]. rewrite Hpre in Ht.
    rewrite Z.min_l, (ztake_all (size - 1)) by zlia. by rewrite zlen_app.
  - cbn. apply IH; [done|zlia|]. rewrite Z.min_r in * by zlia. rewrite Hpre.
    unfold ztake, zlen in *. rewrite take_app_le by lia. done.
Qed.

(** [l], as much as fits, ends up in the array as a C string. *)
Definition holds_string (a : bytes) (size : Z) (l : bytes) : Prop :=
  zlen a = size /\ ztake (zlen l `min` (size - 1) + 1) a = ztake (size - 1) l ++ [0].

Lemma c_str_prefix a n l : cstring l -> ztake n a = l ++ [0] -> c_str a = l.
Proof.
  intros Hl E. rewrite <- (ztake_zdrop n a), E, <- app_assoc. clear E.
  generalize (zdrop n a) as k. intros k.
  induction Hl as [|c l Hc Hl IH]; [done|]. cbn in *. rewrite IH.
  by replace (c =? 0) with false by (symmetry; apply Z.eqb_neq; lia).
Qed.

Lemma holds_string_c_str a size l : cstring l -> holds_string a size l ->
  c_str a = ztake (size - 1) l.
Proof. intros Hl [_ E]. eapply c_str_prefix; [|exact E]. by apply Forall_take. Qed.

Section read_string.
Context `{InputStreamSpec St}.

Lemma reads_string l ws a size : spaces ws -> is_bytes l -> 0 < size < 2 ^ 64 ->
  zlen a = size -> zlen l < 2 ^ 31 ->
  exists a', holds_string a' size l /\
    reads (json_read_string a size) (zlen l, a') (ws ++ string_text l) anything.
Proof.
  intros Hws Hl Hs Ha Hz.
  destruct (str_store_spec size l Hs Hl [] a) as (a1 & E & Ha1 & Ht);
    [done|rewrite zlen_nil; lia| |].
  { rewrite zlen_nil, Z.min_l by lia. unfold ztake. rewrite take_nil. done. }
  rewrite zlen_nil, Z.add_0_l, app_nil_l in *.
  set (k := zlen l `min` (size - 1)) in *. pose proof (zlen_nonneg l).
  destruct (mem_write_ok a1 k [0]) as (a2 & E2 & Ha2 & Ht2); [lia|zlia|].
  exists a2. split.
  { split; [lia|]. change (zlen l `min` (size - 1)) with k. rewrite <- Ht, <- Ht2. done. }
  unfold json_read_string, string_text. apply reads_no_whitespace; [done|done|].
  cbn [Z.eqb Pos.eqb negb]. rewrite <- (app_nil_r (chars_text l ++ [34])).
  eapply reads_bind'.
  - apply reads_with_fuel. intros fuel HF. by apply reads_string_loop.
  - cbv beta iota.
    assert ((if zlen l <? size then mem_write a1 (zlen l) [0] else mem_write a1 (size - 1) [0])
      = Some a2) as ->.
    { rewrite <- E2. subst k. zcases; f_equal; lia. }
    cbn [of_option]. rewrite ret_bind, (wraps_small 32); [apply reads_ret|done|].
    unfold in_s. lia.
Qed.
End read_string.

(** ** Properties *)

(** What the integer writers print, the integer readers read back, whatever
    follows unless it is a digit; the unsigned readers return the two's
    complement of a negative number.  The most negative number is not covered
    for the signed readers, see [json_long_min]. *)
Lemma json_integer_roundtrip {Out Inp} `{OutputStreamSpec Out} `{InputStreamSpec Inp} n :
  (- 2 ^ 63 < n < 2 ^ 63 ->
     roundtrip (Out := Out) (Inp := Inp) (json_write_long n) json_read_long n no_digit /\
     roundtrip (Out := Out) (Inp := Inp) (json_write_int64 n) json_read_int64 n no_digit /\
     roundtrip (Out := Out) (Inp := Inp) (json_write_long n) json_read_ulong (u64 n) no_digit) /\
  (0 <= n < 2 ^ 64 ->
     roundtrip (Out := Out) (Inp := Inp) (json_write_ulong n) json_read_ulong n no_digit /\
     roundtrip (Out := Out) (Inp := Inp) (json_write_uint64 n) json_read_uint64 n no_digit).
Proof.
  split; intros Hn.
  - assert (in_s 64 n) by (unfold in_s; lia). split_and!; (eapply roundtrip_intro;
      [first [by apply writes_long|by apply writes_int64]|]).
    + by apply (reads_long n []).
    + by apply (reads_int64 n []).
    + apply (reads_ulong n []); [done|lia].
  - pose proof (reads_ulong (St := Inp) n [] ltac:(done) ltac:(lia)) as HR.
    pose proof (reads_uint64 (St := Inp) n [] ltac:(done) ltac:(lia)) as HR'.
    rewrite wrapu_small in HR, HR' by done. unfold signed_text in HR, HR'.
    rewrite (proj2 (Z.ltb_ge n 0)) in HR, HR' by lia.
    split; (eapply roundtrip_intro; [|done]); [apply writes_ulong|apply writes_uint64]; lia.
Qed.

Lemma json_integer_roundtrip_witness :
  roundtrip (Out := ByteArrayOutputStream) (Inp := ByteArrayInputStream)
    (json_write_long (-1234567)) json_read_long (-1234567) no_digit /\
  roundtrip (Out := ByteArrayOutputStream) (Inp := ByteArrayInputStream)
    (json_write_ulong 18446744073709551615) json_read_ulong 18446744073709551615 no_digit.
Proof.
  split.
  - apply (json_integer_roundtrip (-1234567)). lia.
  - apply (json_integer_roundtrip 18446744073709551615). lia.
Defined.

(** the text [json_write_long] prints for the most negative [long] makes
    [json_read_long] overflow: the digits are collected in a signed variable
    before the sign is applied, and their value is one more than the type can
    hold.  The behaviour of the reader is undefined. *)
Lemma json_long_min :
  match json_write_long (- 2 ^ 63) create_byte_array_output_stream with
  | (Ok _, s) =>
      fst (json_read_long (create_byte_array_input_stream (ba_data s ++ [0]))) = Undef
  | _ => False
  end.
Proof. by vm_compute. Qed.

(** what [json_write_boolean] writes, [json_read_boolean] reads back. *)
Lemma json_boolean_roundtrip {Out Inp} `{OutputStreamSpec Out} `{InputStreamSpec Inp} (b : bool) :
  roundtrip (Out := Out) (Inp := Inp) (json_write_boolean (b2z b)) json_read_boolean (b2z b) anything.
Proof.
  eapply roundtrip_intro; [apply writes_boolean|]. destruct b.
  - by apply (reads_boolean true []).
  - by apply (reads_boolean false []).
Qed.

(** C32: [json_read_string] reads a written string of any bytes into an array of
    [size] bytes: it returns the full length, consumes exactly the string, and
    leaves in the array as much of it as fits, with a terminator; an array that
    is too small is never overrun. *)
Theorem json_string_buffer_roundtrip {Out Inp} `{OutputStreamSpec Out} `{InputStreamSpec Inp}
    l a size :
  is_bytes l -> 0 < size < 2 ^ 64 -> zlen a = size -> zlen l < 2 ^ 31 ->
  exists a', holds_string a' size l /\ (cstring l -> c_str a' = ztake (size - 1) l) /\
    roundtrip (Out := Out) (Inp := Inp) (json_write_string (Some l)) (json_read_string a size)
      (zlen l, a') anything.
Proof.
  intros Hl Hs Ha Hz. destruct (reads_string (St := Inp) l [] a size) as (a' & Hh & HR); [done..|].
  exists a'. split; [done|]. split; [intros Hc; by apply holds_string_c_str|].
  eapply roundtrip_intro; [|exact HR]. apply (writes_string_opt (Some l)).
  intros ? [= <-]. split; [done|lia].
Qed.

Lemma json_string_buffer_roundtrip_witness :
  exists a', holds_string a' 4 [65; 34; 10; 92; 66] /\ (cstring [65; 34; 10; 92; 66] ->
    c_str a' = ztake (4 - 1) [65; 34; 10; 92; 66]) /\
    roundtrip (Out := ByteArrayOutputStream) (Inp := ByteArrayInputStream)
      (json_write_string (Some [65; 34; 10; 92; 66])) (json_read_string [0; 0; 0; 0] 4)
      (5, a') anything.
Proof.
  apply (json_string_buffer_roundtrip [65; 34; 10; 92; 66] [0; 0; 0; 0] 4);
    [repeat constructor; done|lia|done|by vm_compute].
Defined.
