(* ===== verification/JsonTmp.v ===== *)
(** * The temporary buffer of the JSON reader

    What holds of [tmp_buf] between calls, the life cycle of the buffer
    (growth, and release by the timer event), and the readers that assemble
    their result in it. *)

From S2P Require Import Prelude Streams JsonWrite JsonRead JsonReadSpec JsonRoundTrip.

(** The buffer is allocated as its size says, and an event is waiting exactly
    while the timer runs. *)
Definition tmp_ok (t : TmpBuf) : Prop :=
  match tb_buf t with
  | None => tb_pos t = 0 /\ tb_size t = 0 /\ tb_timer t = 0
  | Some m => zlen m = tb_size t /\ 0 <= tb_pos t <= tb_size t /\ 0 < tb_size t
  end /\
  0 <= tb_timer t <= 10 /\ tb_events t = b2z (0 <? tb_timer t).

Definition tmp_data (t : TmpBuf) : bytes :=
  match tb_buf t with Some m => ztake (tb_pos t) m | None => [] end.

Lemma tmp_buf_init_ok : tmp_ok tmp_buf_init.
Proof. repeat split. all: done. Qed.

(** ** Operations of the buffer *)

Lemma realloc_tmp_buf_ok t : tmp_ok t ->
  tmp_ok (realloc_tmp_buf t) /\ tmp_data (realloc_tmp_buf t) = tmp_data t /\
  tb_pos (realloc_tmp_buf t) = tb_pos t /\ tb_pos t < tb_size (realloc_tmp_buf t) /\
  tb_len_buf (realloc_tmp_buf t) = tb_len_buf t /\
  tb_size t + MEM_HEAP_LINK_SIZE <= tb_size (realloc_tmp_buf t).
Proof.
  unfold tmp_ok, tmp_data, realloc_tmp_buf, MEM_HEAP_LINK_SIZE. intros [Hb [Ht He]].
  destruct (tb_buf t) as [m|]; cbn.
  - destruct Hb as (Hm & Hp' & Hs). rewrite Z.shiftl_mul_pow2 by lia.
    destruct (realloc_ok m (tb_size t * 2 ^ 1 + 16)) as [Hr1 Hr2]; [lia|].
    split_and!; try lia; try done.
    + rewrite He. zcases; done.
    + rewrite <- Hr2 at 2. by rewrite ztake_ztake by lia.
  - destruct Hb as (Hp' & Hs & Ht'). rewrite Hp'. split_and!; try lia; try done.
Qed.

Lemma tmp_buf_store_ok t l : tmp_ok t -> is_Some (tb_buf t) -> tb_pos t + zlen l <= tb_size t ->
  exists t', tmp_buf_store l t = Some t' /\ tmp_ok t' /\ tmp_data t' = tmp_data t ++ l /\
    tb_pos t' = tb_pos t + zlen l /\ tb_len_buf t' = tb_len_buf t /\ is_Some (tb_buf t').
Proof.
  unfold tmp_ok, tmp_data, tmp_buf_store. intros [Hb [Ht He]] [m Hm] Hl. rewrite Hm in *. cbn.
  destruct Hb as (Hz & Hp & Hs). destruct (mem_write_ok m (tb_pos t) l) as (m' & -> & Hm' & Hd); [lia..|].
  cbn. eexists. split; [done|]. cbn. pose proof (zlen_nonneg l). split_and!; try lia; try done.
Qed.

Lemma tmp_buf_set_pos_ok t : tmp_ok t ->
  tmp_ok (tmp_buf_set_pos 0 t) /\ tmp_data (tmp_buf_set_pos 0 t) = [].
Proof.
  unfold tmp_ok, tmp_data, tmp_buf_set_pos. cbn. intros [Hb [Ht He]].
  destruct (tb_buf t); split_and!; try lia; try done.
Qed.

Lemma tmp_buf_content_ok t : tmp_ok t -> tmp_buf_content t = Some (tmp_data t).
Proof.
  unfold tmp_ok, tmp_data, tmp_buf_content. intros [Hb _]. destruct (Z.eqb_spec (tb_pos t) 0) as [E|].
  - rewrite E. by destruct (tb_buf t).
  - destruct (tb_buf t) as [m|]; [|lia]. cbn. rewrite mem_read_ok by lia. by rewrite zdrop_0.
Qed.

(** ** Release of the buffer

    Ten events after the last growth the buffer is gone, and until then each
    event posts exactly one more. *)

Lemma tmp_buf_event_ok t : tmp_ok t -> 0 < tb_events t ->
  tmp_ok (tmp_buf_event t) /\ tb_timer (tmp_buf_event t) = tb_timer t - 1 /\
  (tb_timer t = 1 -> tb_buf (tmp_buf_event t) = None).
Proof.
  unfold tmp_ok, tmp_buf_event. intros [Hb [Ht He]] Hev.
  assert (0 < tb_timer t) as Htm by (revert Hev; rewrite He; zcases; done).
  rewrite wrapu_small by lia. destruct (Z.eqb_spec (tb_timer t - 1) 0) as [E|E]; cbn.
  - rewrite E. split_and!; try done. rewrite He. zcases; done.
  - split_and!; try lia; [|rewrite He; zcases; done].
    destruct (tb_buf t); lia.
Qed.

(** [n] turns of the timer, without a use of the buffer in between. *)
Fixpoint tmp_buf_events (n : nat) (t : TmpBuf) : TmpBuf :=
  match n with O => t | S n => tmp_buf_events n (tmp_buf_event t) end.

Lemma tmp_buf_events_ok n t : tmp_ok t -> Z.of_nat n <= tb_timer t -> tb_timer t <> 0 ->
  tmp_ok (tmp_buf_events n t) /\ tb_timer (tmp_buf_events n t) = tb_timer t - Z.of_nat n /\
  (Z.of_nat n = tb_timer t -> tb_buf (tmp_buf_events n t) = None).
Proof.
  revert t. induction n as [|n IH]; intros t Ht Hn Hne; cbn [tmp_buf_events].
  { split_and!; [done|lia|lia]. }
  assert (Hev : 0 < tb_events t).
  { destruct Ht as (_ & ? & ->). zcases. done. }
  destruct (tmp_buf_event_ok t Ht Hev) as (Ht' & Htm & Hb).
  destruct (Z.eq_dec (tb_timer t) 1) as [E|].
  - assert (n = 0%nat) as -> by lia. cbn. split_and!; [done|lia|auto].
  - destruct (IH (tmp_buf_event t)) as (H1 & H2 & H3); [done|lia|lia|].
    split_and!; [done|lia|intros; apply H3; lia].
Qed.

(** ** The state of a reader with its buffer *)

Class JsonTmpBufSpec (St : Type) `{InputStreamSpec St} `{JsonTmpBuf St} := {
  tmp_wf : forall s, is_wf s -> tmp_ok (tmp_buf s);
  read_tmp : forall s r s', read_stream s = (r, s') -> tmp_buf s' = tmp_buf s;
  peek_tmp : forall s r s', peek_stream s = (r, s') -> tmp_buf s' = tmp_buf s;
  set_tmp : forall s t, is_wf s -> tmp_ok t ->
    is_wf (set_tmp_buf t s) /\ is_data (set_tmp_buf t s) = is_data s /\
    is_mark (set_tmp_buf t s) = is_mark s /\ tmp_buf (set_tmp_buf t s) = t;
}.

Record json_state (St : Type) := { js_inp : St; js_tmp : TmpBuf }.
Arguments js_inp {St} _.
Arguments js_tmp {St} _.
Arguments Build_json_state {St} _ _.

Section json_state.
Context {St : Type} `{InputStream St}.

Definition on_inp {A} (m : M St A) : M (json_state St) A := fun s =>
  let '(r, i) := m (js_inp s) in (r, {| js_inp := i; js_tmp := js_tmp s |}).

#[export] Instance js_InputStream : InputStream (json_state St) := {
  is_window s := is_window (js_inp s);
  is_advance s := {| js_inp := is_advance (js_inp s); js_tmp := js_tmp s |};
  is_read := on_inp is_read;
  is_peek := on_inp is_peek;
  is_fuel s := is_fuel (js_inp s);
}.

#[export] Instance js_JsonTmpBuf : JsonTmpBuf (json_state St) := {
  tmp_buf := js_tmp;
  set_tmp_buf t s := {| js_inp := js_inp s; js_tmp := t |};
}.

Lemma js_read s : read_stream s = on_inp read_stream s.
Proof.
  unfold read_stream, on_inp. cbn. destruct (is_window (js_inp s)); [|done].
  unfold on_inp. done.
Qed.

Lemma js_peek s : peek_stream s = on_inp peek_stream s.
Proof.
  unfold peek_stream, on_inp. cbn. destruct (is_window (js_inp s)); [done|]. by destruct s.
Qed.
End json_state.

#[export] Program Instance js_InputStreamSpec `{InputStreamSpec St} :
    InputStreamSpec (json_state St) := {
  is_wf s := is_wf (js_inp s) /\ tmp_ok (js_tmp s);
  is_data s := is_data (js_inp s);
  is_mark s := is_mark (js_inp s);
}.
Next Obligation. intros St ?? s [Hs _]. exact (is_data_bytes _ Hs). Qed.
Next Obligation. intros St ?? s [Hs _]. exact (is_mark_neg _ Hs). Qed.
Next Obligation. intros St ?? s [Hs _]. exact (is_data_fuel _ Hs). Qed.
Next Obligation.
  intros St ?? s b l [Hs Ht] D. rewrite js_read. unfold on_inp.
  destruct (read_cons _ _ _ Hs D) as (s' & -> & ?). eexists. split; [done|]. cbn. by destruct_and!.
Qed.
Next Obligation.
  intros St ?? s [Hs Ht] D. rewrite js_read. unfold on_inp.
  destruct (read_nil _ Hs D) as (s' & ->). by eexists.
Qed.
Next Obligation.
  intros St ?? s b l [Hs Ht] D. rewrite js_peek. unfold on_inp.
  destruct (peek_cons _ _ _ Hs D) as (s' & -> & ?). eexists. split; [done|]. cbn. by destruct_and!.
Qed.
Next Obligation.
  intros St ?? s [Hs Ht] D. rewrite js_peek. unfold on_inp.
  destruct (peek_nil _ Hs D) as (s' & -> & ?). eexists. split; [done|]. cbn. by destruct_and!.
Qed.
Next Obligation. intros St ?? s b w [Hs Ht] D. exact (window_advance _ _ _ Hs D). Qed.

#[export] Program Instance js_JsonTmpBufSpec `{InputStreamSpec St} : JsonTmpBufSpec (json_state St).
Next Obligation. intros St ?? s [_ Ht]. done. Qed.
Next Obligation.
  intros St ?? s r s'. rewrite js_read. unfold on_inp. destruct (read_stream _). by intros [= _ <-].
Qed.
Next Obligation.
  intros St ?? s r s'. rewrite js_peek. unfold on_inp. destruct (peek_stream _). by intros [= _ <-].
Qed.
Next Obligation. intros St ?? s t [Hs _] Ht. done. Qed.

(** ** Reading into the buffer

    [appends m a l d P]: like [reads], and [m] adds [d] to the buffer. *)
Section appends.
Context `{JsonTmpBufSpec St}.

(** The streams with a fixed content of the buffer: what is proved of a
    reader for every stream shows that it leaves the buffer alone. *)
Program Definition frame_spec (t : TmpBuf) : InputStreamSpec St := {|
  is_wf s := is_wf s /\ tmp_buf s = t;
  is_data := is_data;
  is_mark := is_mark;
|}.
Next Obligation. intros t s [Hs _]. exact (is_data_bytes _ Hs). Qed.
Next Obligation. intros t s [Hs _]. exact (is_mark_neg _ Hs). Qed.
Next Obligation. intros t s [Hs _]. exact (is_data_fuel _ Hs). Qed.
Next Obligation.
  intros t s b l [Hs Ht] D. destruct (read_cons _ _ _ Hs D) as (s' & E & ? & ? & ?).
  pose proof (read_tmp _ _ _ E). exists s'. split_and!; auto. congruence.
Qed.
Next Obligation.
  intros t s [Hs Ht] D. destruct (read_nil _ Hs D) as (s' & E). by exists s'.
Qed.
Next Obligation.
  intros t s b l [Hs Ht] D. destruct (peek_cons _ _ _ Hs D) as (s' & E & ? & ? & ?).
  pose proof (peek_tmp _ _ _ E). exists s'. split_and!; auto. congruence.
Qed.
Next Obligation.
  intros t s [Hs Ht] D. destruct (peek_nil _ Hs D) as (s' & E & ? & ? & ?).
  pose proof (peek_tmp _ _ _ E). exists s'. split_and!; auto. congruence.
Qed.
Next Obligation. intros t s b w [Hs _] D. exact (window_advance _ _ _ Hs D). Qed.

(** [d] is the content of the buffer before, [d'] the content after. *)
Definition appends {A} (m : M St A) (a : A) (l d : bytes) (P : Z -> Prop) : Prop :=
  forall s rest, is_wf s -> is_data s = l ++ rest ->
  P (match rest with b :: _ => b | [] => is_mark s end) ->
  exists s', m s = (Ok a, s') /\ is_wf s' /\ is_data s' = rest /\ is_mark s' = is_mark s /\
    tmp_data (tmp_buf s') = tmp_data (tmp_buf s) ++ d /\
    tb_len_buf (tmp_buf s') = tb_len_buf (tmp_buf s).

Lemma appends_reads {A} (m : M St A) a l P :
  (forall t, @reads St _ (frame_spec t) _ m a l P) -> appends m a l [] P.
Proof.
  intros Hm s rest Hs D HP. destruct (Hm (tmp_buf s) s rest (conj Hs eq_refl) D HP)
    as (s' & E & [Hs' HT] & D' & M'). exists s'. rewrite HT, app_nil_r. done.
Qed.

Lemma appends_as_reads {A} (m : M St A) a l d P : appends m a l d P -> reads m a l P.
Proof.
  intros Hm s rest Hs D HP. destruct (Hm s rest Hs D HP) as (s' & ? & ? & ? & ? & _).
  by exists s'.
Qed.

Lemma appends_bind {A B} (m : M St A) (f : A -> M St B) a b l1 l2 d1 d2 P Q :
  appends m a l1 d1 P -> appends (f a) b l2 d2 Q -> follows P l2 Q ->
  appends (m ≫= f) b (l1 ++ l2) (d1 ++ d2) Q.
Proof.
  intros H1' H2' HF s rest Hs D HQ. rewrite <- app_assoc in D.
  destruct (H1' s _ Hs D) as (s1 & E1 & Hs1 & D1 & M1 & T1 & L1).
  { destruct l2; simpl in *; auto. }
  destruct (H2' s1 rest Hs1 D1) as (s2 & E2 & Hs2 & D2 & M2 & T2 & L2).
  { by rewrite M1. }
  exists s2. rewrite (bind_ok _ _ _ _ _ E1), E2, M2, M1, T2, T1, L2, L1, app_assoc. done.
Qed.

Lemma appends_bind' {A B} (m : M St A) (f : A -> M St B) a b l1 l2 d1 d2 Q :
  appends m a l1 d1 anything -> appends (f a) b l2 d2 Q ->
  appends (m ≫= f) b (l1 ++ l2) (d1 ++ d2) Q.
Proof. intros Hm Hf. eapply appends_bind; [done..|by destruct l2]. Qed.

Lemma appends_ret {A} (a : A) P : appends (mret a) a [] [] P.
Proof. apply appends_reads. intros t. apply reads_ret. Qed.

Lemma appends_assoc {A B C} (m : M St A) (f : A -> M St B) (g : B -> M St C) c l d P :
  appends (m ≫= fun a => f a ≫= g) c l d P -> appends ((m ≫= f) ≫= g) c l d P.
Proof. intros Hm s rest Hs D HP. rewrite bind_assoc. by apply Hm. Qed.

Lemma appends_byte {B} (f : Z -> M St B) b c l d P :
  appends (f c) b l d P -> appends (read_stream ≫= f) b (c :: l) d P.
Proof.
  intros Hf. apply (appends_bind' _ _ c b [c] l [] d); [|done].
  apply appends_reads. intros t. apply reads_stream.
Qed.

Lemma appends_add c : is_byte c -> appends (tmp_buf_add c) tt [] [c] anything.
Proof.
  intros Hc s rest Hs D _. unfold tmp_buf_add, try_tmp_buf. rewrite u8_byte by done.
  pose proof (tmp_wf s Hs) as Ht. set (t := tmp_buf s) in *.
  set (t1 := if tb_size t <=? tb_pos t then realloc_tmp_buf t else t).
  assert (tmp_ok t1 /\ tmp_data t1 = tmp_data t /\ tb_pos t1 < tb_size t1 /\
    tb_len_buf t1 = tb_len_buf t) as (Ht1 & Hd1 & Hl1 & HL1).
  { subst t1. destruct (Z.leb_spec (tb_size t) (tb_pos t)); [|done].
    destruct (realloc_tmp_buf_ok t Ht) as (? & ? & Hp & ? & ? & _). rewrite Hp. done. }
  assert (is_Some (tb_buf t1)) as HS.
  { destruct Ht1 as [Hb _]. destruct (tb_buf t1); [done|lia]. }
  destruct (tmp_buf_store_ok t1 [c] Ht1 HS) as (t2 & -> & Ht2 & Hd2 & _ & HL2 & _); [zlia|].
  destruct (set_tmp s t2 Hs Ht2) as (Hw & HD & HM & HT). eexists. split; [done|].
  rewrite HD, HM, HT, Hd2, Hd1, HL2, HL1. done.
Qed.

Lemma appends_add_all l : is_bytes l -> appends (tmp_buf_add_all l) tt [] l anything.
Proof.
  induction 1 as [|c l Hc Hl IH]; cbn [tmp_buf_add_all]; [apply appends_ret|].
  apply (appends_bind' _ _ tt tt [] [] [c] l); [by apply appends_add|done].
Qed.

Lemma appends_with_fuel {A} (f : nat -> M St A) a l d P :
  (forall fuel, (length l < fuel)%nat -> appends (f fuel) a l d P) ->
  appends (with_fuel f) a l d P.
Proof.
  intros Hf s rest Hs D HP. apply Hf; [|done..]. pose proof (is_data_fuel s Hs) as HF.
  rewrite D, length_app in HF. lia.
Qed.

Lemma appends_no_whitespace {B} (f : Z -> M St B) b ws c l d P :
  spaces ws -> isspace c = false -> appends (f c) b l d P ->
  appends (read_no_whitespace ≫= f) b (ws ++ c :: l) d P.
Proof.
  intros Hws Hc Hf. replace (ws ++ c :: l) with ((ws ++ [c]) ++ l) by (by rewrite <- app_assoc).
  apply (appends_bind' _ _ c b _ _ [] d); [|done]. apply appends_reads. intros t.
  by apply reads_ws.
Qed.

Lemma appends_json_peek {B} (f : Z -> M St B) b ws c l d P :
  spaces ws -> isspace c = false -> appends (f c) b (c :: l) d P ->
  appends (json_peek ≫= f) b (ws ++ c :: l) d P.
Proof.
  intros Hws Hc Hf. eapply (appends_bind _ _ c b ws _ [] d (eq c)); [|done|done].
  apply appends_reads. intros t. by apply reads_peek_ws.
Qed.

(** The characters of a string, up to the closing quote. *)
Lemma appends_chars l : is_bytes l -> forall fuel,
  (length (chars_text l ++ [34%Z]) < fuel)%nat ->
  appends (read_chars_loop fuel) tt (chars_text l ++ [34]) l anything.
Proof.
  induction 1 as [|c l Hc Hl IH]; intros [|fuel] Hf; try lia; cbn [read_chars_loop].
  - apply appends_byte, appends_ret.
  - rewrite chars_text_cons in *. rewrite <- app_assoc in *. rewrite length_app in Hf.
    change (c :: l) with ([c] ++ l).
    destruct (must_escape c) eqn:He.
    + destruct (reads_esc_char (St := St) c Hc He) as (esc & HE & _).
      assert (HR : forall t, @reads St _ (frame_spec t) _ read_esc_char [c] esc anything).
      { intros t. destruct (@reads_esc_char St _ (frame_spec t) c Hc He) as (esc' & HE' & HR).
        rewrite HE in HE'. by simplify_eq. }
      rewrite HE in *. cbn [app] in *. apply appends_byte. cbn [Z.eqb Pos.eqb Z.ltb Z.compare].
      apply (appends_bind' _ _ tt tt esc _ [c] l); [|apply IH; simpl in Hf; lia].
      rewrite <- (app_nil_r esc). apply (appends_bind' _ _ [c] tt esc [] [] [c]);
        [by apply appends_reads|]. by apply appends_add_all, bytes_singleton.
    + destruct (plain_char c Hc He) as (HE & H34 & H92 & H0'). rewrite HE in *. cbn [app] in *.
      apply appends_byte. apply Z.eqb_neq in H34, H92. rewrite H34, H92.
      rewrite (proj2 (Z.ltb_ge _ _)) by done.
      apply (appends_bind' _ _ tt tt [] _ [c] l); [by apply appends_add|].
      apply IH. simpl in Hf. lia.
Qed.

(** [json_read_alloc_string] returns what has been written, with a terminator. *)
Lemma reads_alloc_string l ws : spaces ws -> is_bytes l ->
  reads json_read_alloc_string (Some (l ++ [0])) (ws ++ string_text l) anything.
Proof.
  intros Hws Hl. unfold json_read_alloc_string, string_text.
  apply reads_no_whitespace; [done|done|]. cbn [Z.eqb Pos.eqb negb].
  intros s rest Hs D HP. destruct (tmp_buf_set_pos_ok (tmp_buf s) (tmp_wf s Hs)) as [Ht0 Hd0].
  destruct (set_tmp s _ Hs Ht0) as (Hw & HD & HM & HT).
  assert (HA : appends (with_fuel read_chars_loop ;; tmp_buf_add 0) tt
    ((chars_text l ++ [34]) ++ []) (l ++ [0]) anything).
  { eapply appends_bind'; [|by apply appends_add].
    apply appends_with_fuel. intros fuel HF. by apply appends_chars. }
  rewrite app_nil_r in HA.
  destruct (HA (set_tmp_buf (tmp_buf_set_pos 0 (tmp_buf s)) s) rest) as
    (s2 & E2 & Hs2 & D2 & M2 & T2 & _); [done|by rewrite HD|done|].
  exists s2. rewrite HT, Hd0 in T2. split; [|rewrite M2, HM; done].
  rewrite (bind_ok _ _ _ _ _ (eq_refl : on_tmp_buf (tmp_buf_set_pos 0) s = (Ok tt, _))).
  revert E2. generalize (set_tmp_buf (tmp_buf_set_pos 0 (tmp_buf s)) s) as s1. intros s1.
  change ((with_fuel read_chars_loop ;; tmp_buf_add 0 ;;
    (t ← gets tmp_buf; m ← of_option (tmp_buf_content t); mret (Some m))) s1 = ?x) with
    ((with_fuel read_chars_loop ≫= fun _ => tmp_buf_add 0 ≫= fun _ =>
    (t ← gets tmp_buf; m ← of_option (tmp_buf_content t); mret (Some m))) s1 = x).
  rewrite <- bind_assoc. intros E2. rewrite (bind_ok _ _ _ _ _ E2). unfold gets.
  unfold mbind at 1, M_bind at 1. rewrite (tmp_buf_content_ok _ (tmp_wf _ Hs2)), T2. done.
Qed.

(** The null string. *)
Lemma reads_alloc_string_null ws : spaces ws ->
  reads json_read_alloc_string None (ws ++ str "null") anything.
Proof.
  intros Hws. unfold json_read_alloc_string. apply reads_no_whitespace; [done|done|].
  apply reads_word. repeat constructor; done.
Qed.

(** ** Arrays of strings *)

Definition item_text (o : option bytes) : bytes :=
  match o with Some l => string_text l | None => str "null" end.
Definition item_data (o : option bytes) : bytes := default [] o ++ [0].

Fixpoint items_text (o : option bytes) (os : list (option bytes)) : bytes :=
  match os with
  | [] => item_text o ++ [#"]"]
  | o' :: os => item_text o ++ [#","] ++ items_text o' os
  end.

Lemma tmp_data_len t : tmp_ok t -> zlen (tmp_data t) = tb_pos t.
Proof.
  unfold tmp_ok, tmp_data. intros [Hb _]. destruct (tb_buf t); [|by rewrite zlen_nil; lia].
  apply zlen_ztake. lia.
Qed.

(** One element: its characters go to the buffer, the result is its length. *)
Lemma read_item_ok o s rest : is_wf s -> (forall l, o = Some l -> is_bytes l) ->
  is_data s = item_text o ++ rest ->
  exists s', (ch ← read_no_whitespace;
    if ch =? #"n" then test_chars (str "ull") ;; mret 0
    else
      buf_pos0 ← gets (fun s => tb_pos (tmp_buf s));
      if negb (ch =? 34) then exception ERR_PROTOCOL
      else with_fuel read_chars_loop ;; gets (fun s => tb_pos (tmp_buf s) - buf_pos0)) s
    = (Ok (zlen (default [] o)), s') /\ is_wf s' /\ is_data s' = rest /\
    is_mark s' = is_mark s /\
    tmp_data (tmp_buf s') = tmp_data (tmp_buf s) ++ default [] o /\
    tb_len_buf (tmp_buf s') = tb_len_buf (tmp_buf s).
Proof.
  intros Hs Ho D. destruct o as [l|]; cbn [item_text default] in *.
  - specialize (Ho l eq_refl).
    assert (HW : appends read_no_whitespace 34 [34] [] anything).
    { apply appends_reads. intros t. by apply (@reads_ws _ _ (frame_spec t) [] 34). }
    unfold string_text in D. change ((34 :: ?x) ++ rest) with ([34] ++ (x ++ rest)) in D.
    destruct (HW s _ Hs D) as (s1 & E1 & Hs1 & D1 & M1 & T1 & L1); [done|].
    rewrite (bind_ok _ _ _ _ _ E1). cbn [Z.eqb Pos.eqb negb].
    rewrite (bind_ok (gets _) _ s1 _ s1 eq_refl). cbv beta.
    assert (HA : appends (with_fuel read_chars_loop) tt (chars_text l ++ [34]) l anything).
    { apply appends_with_fuel. intros fuel HF. by apply appends_chars. }
    destruct (HA s1 rest Hs1 D1) as (s2 & E2 & Hs2 & D2 & M2 & T2 & L2); [done|].
    rewrite (bind_ok _ _ _ _ _ E2). rewrite app_nil_r in T1. exists s2.
    split_and!; [|done|done|congruence|by rewrite T2, T1|congruence].
    unfold gets. do 2 f_equal. pose proof (tmp_data_len _ (tmp_wf _ Hs1)).
    pose proof (tmp_data_len _ (tmp_wf _ Hs2)) as HL. rewrite T2, zlen_app in HL. cbn. lia.
  - assert (HN : appends (ch ← read_no_whitespace; if ch =? #"n" then test_chars (str "ull") ;; mret 0
      else
      buf_pos0 ← gets (fun s => tb_pos (tmp_buf s));
      if negb (ch =? 34) then exception ERR_PROTOCOL
      else with_fuel read_chars_loop ;; gets (fun s => tb_pos (tmp_buf s) - buf_pos0))
      0 (str "null") [] anything).
    { apply (appends_no_whitespace _ _ []); [done|done|]. apply appends_reads. intros t.
      cbn [Z.eqb Pos.eqb]. apply (@reads_word _ _ (frame_spec t)). repeat constructor; done. }
    by destruct (HN s rest Hs D) as (s' & ?); [|exists s'].
Qed.

Lemma len_buf_grow_ok pos t : 0 <= pos <= zlen (tb_len_buf t) ->
  pos < zlen (tb_len_buf (len_buf_grow pos t)) /\
  ztake pos (tb_len_buf (len_buf_grow pos t)) = ztake pos (tb_len_buf t) /\
  tmp_data (len_buf_grow pos t) = tmp_data t /\ (tmp_ok t -> tmp_ok (len_buf_grow pos t)).
Proof.
  intros Hp. unfold len_buf_grow. destruct (Z.leb_spec (zlen (tb_len_buf t)) pos); [|done].
  cbn. set (n := if _ =? 0 then _ else _). assert (zlen (tb_len_buf t) < n) by (subst n; zcases; lia).
  destruct (realloc_ok (tb_len_buf t) n) as [Hr1 Hr2]; [lia|]. split_and!; [lia| |done|done].
  replace pos with (zlen (tb_len_buf t)) by lia. rewrite Hr2. symmetry. by apply ztake_all.
Qed.

Lemma on_tmp_ok f s : is_wf s -> tmp_ok (f (tmp_buf s)) ->
  exists s', on_tmp_buf f s = (Ok tt, s') /\ is_wf s' /\ is_data s' = is_data s /\
    is_mark s' = is_mark s /\ tmp_buf s' = f (tmp_buf s).
Proof. intros Hs Ht. destruct (set_tmp s _ Hs Ht). eexists. split; [done|]. by destruct_and!. Qed.

Lemma len_buf_store_ok pos len s : is_wf s -> 0 <= pos < zlen (tb_len_buf (tmp_buf s)) ->
  exists s', try_tmp_buf (len_buf_store pos len) s = (Ok tt, s') /\ is_wf s' /\
    is_data s' = is_data s /\ is_mark s' = is_mark s /\
    tmp_data (tmp_buf s') = tmp_data (tmp_buf s) /\
    zlen (tb_len_buf (tmp_buf s')) = zlen (tb_len_buf (tmp_buf s)) /\
    ztake (pos + 1) (tb_len_buf (tmp_buf s')) = ztake pos (tb_len_buf (tmp_buf s)) ++ [len].
Proof.
  intros Hs Hp. unfold try_tmp_buf, len_buf_store.
  destruct (mem_write_ok (tb_len_buf (tmp_buf s)) pos [len]) as (m & -> & Hm & Ht); [lia|zlia|].
  cbn. set (t := tmp_buf_set_len_buf m (tmp_buf s)).
  assert (tmp_ok t) as Hok by apply (tmp_wf s Hs).
  destruct (set_tmp s t Hs Hok) as (Hw & HD & HM & HT). eexists. split; [done|].
  rewrite HD, HM, HT. by split_and!.
Qed.

Definition strings_result (os : list (option bytes)) (pos : Z) (s s' : St) : Prop :=
  is_wf s' /\ is_mark s' = is_mark s /\
  tmp_data (tmp_buf s') = tmp_data (tmp_buf s) ++ mjoin (item_data <$> os) /\
  pos + zlen os <= zlen (tb_len_buf (tmp_buf s')) /\
  ztake (pos + zlen os) (tb_len_buf (tmp_buf s')) =
    ztake pos (tb_len_buf (tmp_buf s)) ++ ((fun o => zlen (default [] o)) <$> os).

Lemma appends_separator (c : Z) : isspace c = false ->
  appends read_no_whitespace c [c] [] anything.
Proof. intros Hc. apply appends_reads. intros t. by apply (@reads_ws _ _ (frame_spec t) []). Qed.

(** The part of an iteration in front of the separator. *)
Lemma read_strings_step {B} (f : Z -> M St B) o pos s rest :
  is_wf s -> (forall l, o = Some l -> is_bytes l) -> is_data s = item_text o ++ rest ->
  0 <= pos <= zlen (tb_len_buf (tmp_buf s)) ->
  exists s', (on_tmp_buf (len_buf_grow pos) ;;
    ch ← read_no_whitespace;
    len ← (if ch =? #"n" then test_chars (str "ull") ;; mret 0
           else
             buf_pos0 ← gets (fun s => tb_pos (tmp_buf s));
             if negb (ch =? 34) then exception ERR_PROTOCOL
             else with_fuel read_chars_loop ;; gets (fun s => tb_pos (tmp_buf s) - buf_pos0));
    tmp_buf_add 0 ;;
    try_tmp_buf (len_buf_store pos len) ;;
    ch ← read_no_whitespace; f ch) s = (read_no_whitespace ≫= f) s' /\
    is_data s' = rest /\ strings_result [o] pos s s'.
Proof.
  intros Hs Ho D Hp. pose proof (tmp_wf s Hs) as Htok.
  destruct (len_buf_grow_ok pos (tmp_buf s) Hp) as (Hg1 & Hg2 & Hg3 & Hg4).
  destruct (on_tmp_ok (len_buf_grow pos) s Hs (Hg4 Htok)) as (s0 & E0 & Hs0 & D0 & M0 & T0).
  rewrite (bind_ok _ _ _ _ _ E0). rewrite <- D0 in D.
  destruct (read_item_ok o s0 _ Hs0 Ho D) as (s1 & E1 & Hs1 & D1 & M1 & T1 & L1).
  rewrite <- bind_assoc, (bind_ok _ _ _ _ _ E1).
  destruct (appends_add 0 bytes_0 s1 rest Hs1 D1 I) as (s2 & E2 & Hs2 & D2 & M2 & T2 & L2).
  rewrite (bind_ok _ _ _ _ _ E2).
  assert (HL2 : tb_len_buf (tmp_buf s2) = tb_len_buf (len_buf_grow pos (tmp_buf s)))
    by congruence.
  destruct (len_buf_store_ok pos (zlen (default [] o)) s2 Hs2) as
    (s3 & E3 & Hs3 & D3 & M3 & T3 & L3 & Z3); [rewrite HL2; lia|].
  exists s3. rewrite (bind_ok _ _ _ _ _ E3). split; [done|]. split; [congruence|].
  split_and!; [done|congruence| | |].
  - rewrite T3, T2, T1, T0, Hg3, <- app_assoc. cbn. by rewrite app_nil_r.
  - rewrite L3, HL2, zlen_cons, zlen_nil. lia.
  - rewrite (Z3 : ztake (pos + zlen [o]) _ = _), HL2, Hg2. done.
Qed.

Lemma read_strings_loop_ok os : forall o fuel pos s rest,
  is_wf s -> Forall (fun o => forall l, o = Some l -> is_bytes l) (o :: os) ->
  is_data s = items_text o os ++ rest -> (length os < fuel)%nat ->
  0 <= pos <= zlen (tb_len_buf (tmp_buf s)) ->
  exists s', read_strings_loop fuel pos s = (Ok (pos + zlen (o :: os)), s') /\
    is_data s' = rest /\ strings_result (o :: os) pos s s'.
Proof.
  induction os as [|o' os IH]; intros o [|fuel] pos s rest Hs Ho D Hf Hp; simpl in Hf; try lia;
    cbn [read_strings_loop items_text] in *; apply Forall_cons in Ho as [Ho Hos];
    rewrite <- app_assoc in D;
    match goal with |- context [read_no_whitespace ≫= ?f] =>
      destruct (read_strings_step f o pos s _ Hs Ho D Hp) as (s1 & -> & D1 & Hr) end;
    pose proof Hr as (Hs1 & M1 & T1 & P1 & Z1);
    [destruct (appends_separator (#"]") eq_refl s1 rest Hs1 D1 I) as (s2 & E2 & Hs2 & D2 & M2 & T2 & L2)
    |rewrite <- app_assoc in D1;
     destruct (appends_separator (#",") eq_refl s1 _ Hs1 D1 I) as (s2 & E2 & Hs2 & D2 & M2 & T2 & L2)];
    rewrite (bind_ok _ _ _ _ _ E2); cbn [Z.eqb Pos.eqb];
    rewrite app_nil_r in T2.
  - exists s2. split_and!; [done|done|]. unfold strings_result. rewrite T2, L2. split_and!; auto.
    congruence.
  - destruct (IH o' fuel (pos + 1) s2 rest Hs2 Hos D2 ltac:(lia)) as (s3 & E3 & D3 & Hs3 & M3 & T3 & P3 & Z3).
    { rewrite L2. zlia. }
    exists s3. rewrite E3. autorewrite with zlen in *. split_and!; [do 2 f_equal; lia|done|].
    unfold strings_result. autorewrite with zlen.
    replace (pos + (zlen os + 1 + 1)) with (pos + 1 + (zlen os + 1)) by lia.
    rewrite Z3, T3, T2, T1, L2. split_and!; [done|congruence| |lia|].
    + cbn. by rewrite app_nil_r, <- app_assoc.
    + replace (pos + 1) with (pos + (0 + 1)) by lia. rewrite Z1, <- app_assoc. done.
Qed.

(** The memory of the result, and where each string starts in it. *)
Definition array_text (os : list (option bytes)) : bytes :=
  #"[" :: match os with [] => [#"]"] | o :: os => items_text o os end.

Fixpoint string_starts (os : list (option bytes)) (j : Z) : list Z :=
  match os with
  | [] => []
  | o :: os => j :: string_starts os (j + zlen (item_data o))
  end.

Lemma string_offsets_starts os j :
  string_offsets ((fun o => zlen (default [] o)) <$> os) j = string_starts os j.
Proof.
  revert j. induction os as [|o os IH]; intros j; [done|]. cbn. rewrite IH.
  unfold item_data. by rewrite zlen_app.
Qed.

(** The tail of [json_read_alloc_string_array], after the elements. *)
Lemma strings_tail os s rest k m :
  is_wf s -> is_data s = rest ->
  tmp_data (tmp_buf s) = m -> zlen os = k -> k <= zlen (tb_len_buf (tmp_buf s)) ->
  ztake k (tb_len_buf (tmp_buf s)) = ((fun o => zlen (default [] o)) <$> os) ->
  exists s', (tmp_buf_add 0 ;;
    t ← gets tmp_buf;
    m ← of_option (tmp_buf_content t);
    lens ← of_option (mem_read (tb_len_buf t) 0 k);
    mret (Some (string_offsets lens 0, m))) s = (Ok (Some (string_starts os 0, m ++ [0])), s') /\
    is_wf s' /\ is_data s' = rest /\ is_mark s' = is_mark s.
Proof.
  intros Hs D T Hk HL HZ. pose proof (zlen_nonneg os).
  destruct (appends_add 0 bytes_0 s rest Hs D I) as (s1 & E1 & Hs1 & D1 & M1 & T1 & L1).
  rewrite (bind_ok _ _ _ _ _ E1), (bind_ok (gets _) _ s1 _ s1 eq_refl).
  rewrite (tmp_buf_content_ok _ (tmp_wf _ Hs1)). cbn [of_option]. rewrite ret_bind.
  rewrite L1, mem_read_ok by lia. cbn [of_option]. rewrite ret_bind, zdrop_0, HZ, T1, T.
  rewrite string_offsets_starts. by exists s1.
Qed.

Lemma reads_alloc_string_array os ws : spaces ws ->
  Forall (fun o => forall l, o = Some l -> is_bytes l) os ->
  reads json_read_alloc_string_array
    (Some (string_starts os 0, mjoin (item_data <$> os) ++ [0])) (ws ++ array_text os) anything.
Proof.
  intros Hws Hos. unfold json_read_alloc_string_array, array_text.
  apply reads_no_whitespace; [done|done|]. cbn [Z.eqb Pos.eqb negb].
  intros s rest Hs D HP.
  destruct (on_tmp_ok (tmp_buf_set_pos 0) s Hs) as (s0 & E0 & Hs0 & D0 & M0 & T0);
    [apply tmp_buf_set_pos_ok, tmp_wf, Hs|].
  rewrite (bind_ok _ _ _ _ _ E0). rewrite <- D0 in D.
  pose proof (proj2 (tmp_buf_set_pos_ok _ (tmp_wf _ Hs))) as Td. rewrite <- T0 in Td.
  assert (HPK : forall c l, isspace c = false -> is_data s0 = (c :: l) ++ rest ->
    exists s1, json_peek s0 = (Ok c, s1) /\ is_wf s1 /\ is_data s1 = (c :: l) ++ rest /\
      is_mark s1 = is_mark s0 /\ tmp_buf s1 = tmp_buf s0).
  { intros c l Hc Dc. destruct (@reads_peek_ws _ _ (frame_spec (tmp_buf s0)) [] c
      ltac:(done) Hc s0 ((c :: l) ++ rest) (conj Hs0 eq_refl) Dc eq_refl)
      as (s1 & E1 & [Hs1 T1] & D1 & M1). by exists s1. }
  destruct os as [|o os].
  - destruct (HPK (#"]") [] eq_refl D) as (s1 & E1 & Hs1 & D1 & M1 & T1).
    rewrite (bind_ok _ _ _ _ _ E1). cbn [Z.eqb Pos.eqb].
    destruct (read_cons s1 (#"]") rest Hs1 D1) as (s2 & E2 & Hs2 & D2 & M2).
    pose proof (read_tmp _ _ _ E2) as T2.
    rewrite bind_assoc, (bind_ok _ _ _ _ _ E2), ret_bind.
    destruct (strings_tail [] s2 rest 0 [] Hs2 D2) as (s3 & E3 & Hs3 & D3 & M3);
      [congruence|done|apply zlen_nonneg|done|].
    exists s3. rewrite E3. split_and!; [done|done|done|congruence].
  - assert (exists c l, items_text o os = c :: l /\ isspace c = false /\ (c =? #"]") = false)
      as (c & l & Ec & Hc & Hb).
    { destruct os, o; cbn; eexists _, _; done. }
    rewrite Ec in D. destruct (HPK c l Hc D) as (s1 & E1 & Hs1 & D1 & M1 & T1).
    rewrite (bind_ok _ _ _ _ _ E1), Hb. rewrite <- Ec in D1.
    assert (HF : (length os < is_fuel s1)%nat).
    { pose proof (is_data_fuel s1 Hs1) as HF. rewrite D1, length_app in HF.
      enough (length os <= length (items_text o os))%nat by lia. clear.
      revert o. induction os as [|o' os IH]; intros o; cbn; [lia|].
      rewrite length_app. simpl. specialize (IH o'). lia. }
    destruct (read_strings_loop_ok os o (is_fuel s1) 0 s1 rest Hs1 Hos D1 HF) as
      (s2 & E2 & D2 & Hs2 & M2 & T2 & P2 & Z2); [pose proof (zlen_nonneg (tb_len_buf (tmp_buf s1))); lia|].
    rewrite (bind_ok (with_fuel _) _ s1 _ s2 E2), !Z.add_0_l in *.
    destruct (strings_tail (o :: os) s2 rest (zlen (o :: os)) (mjoin (item_data <$> (o :: os))) Hs2 D2)
      as (s3 & E3 & Hs3 & D3 & M3); [by rewrite T2, T1, Td|done|done|done|].
    exists s3. rewrite E3. split_and!; [done|done|done|congruence].
Qed.
End appends.

(** ** The string readers on any input *)

Section parses_tmp.
Context `{JsonTmpBufSpec St}.

Lemma parses_appends {A} n (m : M St A) a d :
  appends m a [] d anything -> parses n 0 m (eq a).
Proof.
  intros Hm s Hs Hl _. destruct (Hm s (is_data s) Hs eq_refl I) as (s' & -> & Hs' & D' & M' & _).
  split_and!; auto. exists []. rewrite D'. split; [done|simpl; lia].
Qed.

Lemma parses_add n c : is_byte c -> parses n 0 (tmp_buf_add c) any.
Proof. intros Hc. eapply parses_0, parses_appends. by apply appends_add. Qed.

Lemma parses_chars_loop fuel : parses fuel 0 (read_chars_loop fuel) any.
Proof.
  induction fuel as [|fuel IH]; [intros s Hs Hl; lia|].
  cbn [read_chars_loop]. apply (parses_le _ 1); [|lia].
  eapply parses_read; [auto with parses| |fails_marker].
  intros b Hb. rewrite (proj2 (Z.ltb_ge _ _)) by (unfold is_byte in Hb; lia).
  destruct (b =? 34); [by apply parses_ret|].
  eapply (parses_bind _ 0 0 0 _ _ any); [|intros _ _|lia].
  - destruct (b =? #"\"); [|by apply parses_add].
    eapply parses_bind; [apply parses_esc_char|intros l [Hl _]|apply Nat.le_0_l].
    eapply parses_0, parses_appends. by apply appends_add_all.
  - eapply parses_weaken; [apply IH|done|lia|lia].
Qed.

Lemma parses_alloc_string n : parses n 1 json_read_alloc_string any.
Proof.
  unfold json_read_alloc_string. eapply parses_read; [auto with parses| |].
  2: { intros c Hc s. cbn. destruct (c =? #"n") eqn:En; [apply Z.eqb_eq in En; lia|].
       rewrite (bind_ok (on_tmp_buf _) _ s tt _ eq_refl).
       destruct (Z.eqb_spec c 34); [lia|]. cbn. by eexists _, _. }
  intros b Hb. destruct (b =? #"n"); [apply parses_word; [repeat constructor; done|done]|].
  eapply (parses_bind _ 0 0 0 _ _ any); [|intros _ _|lia].
  { intros s Hs Hl _. destruct (on_tmp_ok (tmp_buf_set_pos 0) s Hs) as (s' & -> & Hs' & D' & M' & _);
      [apply tmp_buf_set_pos_ok, tmp_wf, Hs|].
    split_and!; [exact I|done|done|]. exists []. rewrite D'. split; [done|simpl; lia]. }
  destruct (negb (b =? 34)); [auto with parses|].
  eapply (parses_bind _ 0 0); [apply parses_with_fuel, parses_chars_loop|intros _ _|lia].
  eapply (parses_bind _ 0 0); [by apply parses_add|intros _ _|lia].
  intros s Hs Hl _. rewrite (bind_ok (gets _) _ s _ s eq_refl).
  rewrite (tmp_buf_content_ok _ (tmp_wf _ Hs)). cbn. split_and!; auto; [done|].
  exists []. split; [done|simpl; lia].
Qed.
End parses_tmp.

(** ** Properties *)

(** The streams the witnesses run on. *)
Abbreviation json_bytes := (json_state ByteArrayInputStream).

Lemma json_bytes_spec : JsonTmpBufSpec json_bytes.
Proof. apply js_JsonTmpBufSpec. Defined.



(** [json_read_alloc_string_array] on the text of an array of strings and
    nulls, after any white space: it consumes exactly the array, and returns
    memory that holds the strings one after the other, each with a terminator,
    and pointers to their starts.  A null element is read as an empty string. *)
Lemma json_string_array_reads `{JsonTmpBufSpec St} os ws :
  spaces ws -> Forall (fun o => forall l, o = Some l -> is_bytes l) os ->
  reads json_read_alloc_string_array
    (Some (string_starts os 0, mjoin (item_data <$> os) ++ [0])) (ws ++ array_text os) anything.
Proof. apply reads_alloc_string_array. Qed.

Lemma json_string_array_reads_witness :
  reads (St := json_bytes) json_read_alloc_string_array (Some ([0; 3; 4], [65; 66; 0; 0; 10; 0; 0]))
    (str " [" ++ [34] ++ str "AB" ++ [34] ++ str ",null," ++ [34] ++ str "\n" ++ [34] ++ str "]") anything.
Proof.
  apply (json_string_array_reads [Some [65; 66]; None; Some [10]] [32]).
  - repeat constructor.
  - repeat constructor; intros ? [= <-]; repeat constructor; done.
Defined.

(** C31: no input leads the readers of strings, booleans, unsigned numbers,
    structures and arrays outside of their buffers or into an endless loop:
    each of them consumes at least one byte or reports an error, provided that
    the call backs behave. *)
Theorem json_readers_total `{JsonTmpBufSpec St} n a size
    (on_member : bytes -> M St unit) (on_element : M St unit) :
  0 < size < 2 ^ 64 -> zlen a = size ->
  (forall n nm, parses n 0 (on_member nm) any) -> (forall n, parses n 0 on_element any) ->
  parses n 1 (json_read_string a size) (fun r => zlen (snd r) = size) /\
  parses n 1 json_read_alloc_string any /\
  parses n 1 json_read_boolean (fun b => b = 0 \/ b = 1) /\
  parses n 1 json_read_ulong (in_u 64) /\
  parses n 1 json_read_uint64 (in_u 64) /\
  parses n 1 (json_read_struct on_member) (fun r => r = 0 \/ r = 1) /\
  parses n 1 (json_read_array on_element) (fun r => r = 0 \/ r = 1).
Proof.
  intros Hs Ha Hm He. split_and!; [by apply parses_read_string|apply parses_alloc_string
    |apply parses_boolean|apply parses_ulong|apply parses_uint64|by apply parses_struct
    |by apply parses_array].
Qed.

Lemma json_readers_total_witness :
  parses (St := json_bytes) 10 1 (json_read_struct (fun _ => mret tt)) (fun r => r = 0 \/ r = 1).
Proof.
  apply (json_readers_total 10 [0; 0] 2 (fun _ => mret tt) (mret tt)); [lia|done| |];
    intros; by apply parses_ret.
Defined.

(** The temporary buffer is released: whatever state it is in while its
    timer runs, exactly one timer event is waiting, and the buffer is gone
    after as many events as the timer says if it does not grow in between. *)
Lemma tmp_buf_released t : tmp_ok t -> tb_timer t <> 0 ->
  tb_events t = 1 /\
  tb_buf (tmp_buf_events (Z.to_nat (tb_timer t)) t) = None /\
  tb_events (tmp_buf_events (Z.to_nat (tb_timer t)) t) = 0.
Proof.
  intros Ht Hne. pose proof Ht as (_ & Htm & Hev).
  destruct (tmp_buf_events_ok (Z.to_nat (tb_timer t)) t Ht) as (Ht' & Htm' & Hb); [lia|done|].
  split_and!.
  - rewrite Hev. zcases. done.
  - apply Hb. lia.
  - destruct Ht' as (_ & _ & ->). rewrite Htm', Z2Nat.id by lia. by rewrite Z.sub_diag.
Qed.

Lemma tmp_buf_released_witness :
  let t := realloc_tmp_buf (realloc_tmp_buf tmp_buf_init) in
  tb_events t = 1 /\ tb_buf (tmp_buf_events 10 t) = None /\ tb_events (tmp_buf_events 10 t) = 0.
Proof.
  apply (tmp_buf_released (realloc_tmp_buf (realloc_tmp_buf tmp_buf_init))); [|done].
  apply realloc_tmp_buf_ok, realloc_tmp_buf_ok, tmp_buf_init_ok.
Defined.
