(* ===== verification/JsonBinary.v ===== *)
(** * Binary data in JSON (framework/json.c, json_write_binary and json_read_binary)

    Binary data travel as BASE64 text in quotes, or, on streams that support
    it, as they are, after their size in parentheses.  Writer and reader accept
    the data in pieces of any size. *)

From S2P Require Import Prelude Streams Base64 JsonWrite JsonRead JsonReadSpec JsonRoundTrip JsonTmp.

Definition ENCODING_BINARY : Z := 0.
Definition ENCODING_BASE64 : Z := 1.

(** The states of writer and reader have the same members; [bs_buf] are the
    three bytes of [buf]. *)
Record BinaryState := {
  bs_encoding : Z;
  bs_size_start : Z;
  bs_size_done : Z;
  bs_rem : Z;
  bs_buf : bytes;
}.

(** [*dst++ = *ptr++] while there is room for [n] bytes in all: what has been
    collected and what is left. *)
Fixpoint take_upto (n : nat) (acc l : bytes) : bytes * bytes :=
  match l with
  | c :: l' => if (length acc <? n)%nat then take_upto n (acc ++ [c]) l' else (acc, l)
  | [] => (acc, [])
  end.

Section write_binary.
Context {St : Type} `{OutputStream St}.

Definition json_write_binary_start (size : Z) : M St BinaryState := fun s =>
  let encoding := if os_supports_zero_copy s && (0 <? size) then ENCODING_BINARY
                  else ENCODING_BASE64 in
  let state := {| bs_encoding := encoding; bs_size_start := size; bs_size_done := 0;
                  bs_rem := 0; bs_buf := alloc 3 |} in
  ((if encoding =? ENCODING_BINARY
    then write_stream (#"(") ;; json_write_ulong size ;; write_stream (#")")
    else write_stream 34) ;;
   mret state) s.

Definition json_write_binary_data (state : BinaryState) (data : bytes) : M St BinaryState :=
  let len := zlen data in
  if len <=? 0 then mret state
  else if bs_encoding state =? ENCODING_BINARY then
    write_block_stream data ;;
    mret {| bs_encoding := bs_encoding state; bs_size_start := bs_size_start state;
            bs_size_done := u64 (bs_size_done state + len); bs_rem := bs_rem state;
            bs_buf := bs_buf state |}
  else
    let rem := bs_rem state in
    '(rem, buf, ptr) ←
      (if 0 <? rem then
         buf0 ← of_option (mem_read (bs_buf state) 0 rem);
         let '(group, ptr) := take_upto 3 buf0 data in
         buf ← of_option (mem_write (bs_buf state) 0 group);
         let rem := zlen group in
         assertm (rem <=? 3) ;;
         if 3 <=? rem then write_base64 buf ;; mret (0, buf, ptr)
         else mret (rem, buf, ptr)
       else mret (rem, bs_buf state, data));
    let len := zlen ptr in
    '(rem, buf, len) ←
      (if 0 <? len then
         assertm (rem =? 0) ;;
         let rem := len mod 3 in
         let len := len - rem in
         write_base64 (ztake len ptr) ;;
         buf ← (if 0 <? rem then of_option (mem_write buf 0 (zdrop len ptr)) else mret buf);
         mret (rem, buf, len)
       else mret (rem, buf, len));
    mret {| bs_encoding := bs_encoding state; bs_size_start := bs_size_start state;
            bs_size_done := u64 (bs_size_done state + len); bs_rem := rem; bs_buf := buf |}.

Definition json_write_binary_end (state : BinaryState) : M St unit :=
  if bs_encoding state =? ENCODING_BINARY then
    assertm (bs_size_start state =? bs_size_done state)
  else
    (if 0 <? bs_rem state
     then data ← of_option (mem_read (bs_buf state) 0 (bs_rem state));
          write_base64 data ;; mret tt
     else mret tt) ;;
    write_stream 34.

Definition json_write_binary (data : option bytes) : M St unit :=
  match data with
  | None => write_string (str "null")
  | Some data =>
      state ← json_write_binary_start (zlen data);
      state ← json_write_binary_data state data;
      json_write_binary_end state
  end.

(** The data in pieces. *)
Fixpoint json_write_binary_chunks (state : BinaryState) (ds : list bytes) : M St BinaryState :=
  match ds with
  | [] => mret state
  | d :: ds => state ← json_write_binary_data state d; json_write_binary_chunks state ds
  end.
End write_binary.

Section read_binary.
Context {St : Type} `{InputStream St}.

Definition json_read_binary_start : M St BinaryState :=
  let state encoding size :=
    {| bs_encoding := encoding; bs_size_start := size; bs_size_done := 0; bs_rem := 0;
       bs_buf := alloc 3 |} in
  ch ← read_no_whitespace;
  if ch =? #"(" then
    size ← json_read_ulong;
    json_test_char (#")") ;;
    mret (state ENCODING_BINARY size)
  else if ch =? 34 then mret (state ENCODING_BASE64 0)
  else if ch =? #"n" then test_chars (str "ull") ;; mret (state ENCODING_BINARY 0)
  else exception ERR_JSON_SYNTAX.

(** [inp->cur += n]. *)
Definition advance (n : nat) : M St unit := fun s => (Ok tt, Nat.iter n is_advance s).

(** The loop of the binary encoding: [data] has been read, [len] is wanted. *)
Fixpoint read_binary_loop (fuel : nat) (data : bytes) (len : Z) : M St bytes :=
  match fuel with
  | O => nofuel
  | S fuel =>
      if zlen data <? len then
        w ← gets is_window;
        match w with
        | _ :: _ =>
            let n := zlen w in
            let n := if len - zlen data <? n then len - zlen data else n in
            advance (Z.to_nat n) ;;
            read_binary_loop fuel (data ++ ztake n w) len
        | [] =>
            ch ← is_read;
            read_binary_loop fuel (data ++ [u8 ch]) len
        end
      else mret data
  end.

(** The loop of the BASE64 encoding: [data] has been read, [len] more bytes
    are wanted.  The result: what the state holds back ([rem] bytes in [buf]),
    the data, and whether the loop was left by [return]. *)
Fixpoint read_base64_data_loop (fuel : nat) (rem : Z) (buf data : bytes) (len : Z) :
    M St (Z * bytes * bytes * bool) :=
  match fuel with
  | O => nofuel
  | S fuel =>
      if 0 <? len then
        assertm (rem <=? 3) ;;
        held ← of_option (mem_read buf 0 rem);
        let i := if len <? rem then len else rem in
        let data := data ++ ztake i held in
        let len := len - i in
        if i <? rem then
          buf ← of_option (mem_write buf 0 (zdrop i held));
          mret (rem - i, buf, data, true)
        else if 3 <=? len then
          d ← read_base64 len;
          if zlen d =? 0 then mret (0, buf, data, false)
          else read_base64_data_loop fuel 0 buf (data ++ d) (len - zlen d)
        else
          d ← read_base64 3;
          buf ← of_option (mem_write buf 0 d);
          if zlen d =? 0 then mret (0, buf, data, false)
          else read_base64_data_loop fuel (zlen d) buf data len
      else mret (rem, buf, data, false)
  end.

(** Returns the bytes stored to the buffer of [len] bytes. *)
Definition json_read_binary_data (state : BinaryState) (len : Z) : M St (bytes * BinaryState) :=
  if bs_encoding state =? ENCODING_BINARY then
    let left := u64 (bs_size_start state - bs_size_done state) in
    let len := if left <? len then left else len in
    data ← read_binary_loop (S (Z.to_nat len)) [] len;
    mret (data, {| bs_encoding := bs_encoding state; bs_size_start := bs_size_start state;
                   bs_size_done := u64 (bs_size_done state + zlen data);
                   bs_rem := bs_rem state; bs_buf := bs_buf state |})
  else
    '(rem, buf, data, returned) ←
      read_base64_data_loop (Z.to_nat (2 * len + 3)) (bs_rem state) (bs_buf state) [] len;
    mret (data, {| bs_encoding := bs_encoding state; bs_size_start := bs_size_start state;
                   bs_size_done := if returned : bool then bs_size_done state
                                   else u64 (bs_size_done state + zlen data);
                   bs_rem := rem; bs_buf := buf |}).

Definition json_read_binary_end (state : BinaryState) : M St unit :=
  if negb (bs_rem state =? 0) then exception ERR_JSON_SYNTAX
  else if bs_encoding state =? ENCODING_BINARY then
    assertm (bs_size_start state =? bs_size_done state)
  else json_test_char 34.

(** ** Binary data in a heap block *)

Section tmp.
Context `{JsonTmpBuf St}.

(** The loop stops when nothing is read any more. *)
Fixpoint read_alloc_binary_loop (fuel : nat) (state : BinaryState) : M St BinaryState :=
  match fuel with
  | O => nofuel
  | S fuel =>
      on_tmp_buf (fun t => if tb_size t <=? tb_pos t then realloc_tmp_buf t else t) ;;
      room ← gets (fun s => tb_size (tmp_buf s) - tb_pos (tmp_buf s));
      '(rd, state) ← json_read_binary_data state room;
      if zlen rd =? 0 then mret state
      else try_tmp_buf (tmp_buf_store rd) ;; read_alloc_binary_loop fuel state
  end.

(** The block and its size, [None] for [NULL]. *)
Definition json_read_alloc_binary : M St (option bytes * Z) :=
  p ← json_peek;
  if p =? #"n" then read_stream ;; test_chars (str "ull") ;; mret (None, 0)
  else
    state ← json_read_binary_start;
    on_tmp_buf (tmp_buf_set_pos 0) ;;
    state ← with_fuel (fun fuel =>
      read_alloc_binary_loop (fuel + Z.to_nat (bs_size_start state)) state);
    pos ← gets (fun s => tb_pos (tmp_buf s));
    assertm ((bs_size_start state <=? 0) || (pos =? bs_size_start state)) ;;
    json_read_binary_end state ;;
    t ← gets tmp_buf;
    m ← of_option (tmp_buf_content t);
    mret (Some m, tb_pos t).
End tmp.
End read_binary.

(** ** The writer, for any way to cut the data *)

(** The text for data [d] announced with [size], on a stream that does or does
    not support binary data. *)
Definition binary_text (zero_copy : bool) (size : Z) (d : bytes) : bytes :=
  if zero_copy && (0 <? size) then #"(" :: dec_text size ++ [#")"] ++ d
  else 34 :: base64_text d ++ [34].

(** The bytes that wait for the rest of their group. *)
Definition bs_held (state : BinaryState) (h : bytes) : Prop :=
  zlen (bs_buf state) = 3 /\ bs_rem state = zlen h /\ zlen h < 3 /\
  is_bytes h /\ ztake (zlen h) (bs_buf state) = h.

Lemma take_upto_ok n acc l : (length acc <= n)%nat ->
  take_upto n acc l = (acc ++ take (n - length acc) l, drop (n - length acc) l).
Proof.
  revert acc. induction l as [|c l IH]; intros acc Ha; cbn [take_upto].
  { by rewrite take_nil, drop_nil, app_nil_r. }
  destruct (Nat.ltb_spec (length acc) n).
  - rewrite IH by (rewrite length_app; simpl; lia). rewrite length_app. simpl.
    replace (n - length acc)%nat with (S (n - (length acc + 1)))%nat by lia. cbn.
    by rewrite <- app_assoc.
  - replace (n - length acc)%nat with 0%nat by lia. by rewrite take_0, drop_0, app_nil_r.
Qed.

Lemma bs_held_store state h k : zlen (bs_buf state) = 3 -> zlen h <= 3 ->
  k = zlen h -> exists buf, mem_write (bs_buf state) 0 h = Some buf /\ zlen buf = 3 /\ ztake k buf = h.
Proof.
  intros Hb Hh ->. destruct (mem_write_ok (bs_buf state) 0 h) as (buf & E & Hl & Ht); [lia..|].
  exists buf. split_and!; [done|lia|]. by rewrite Z.add_0_l in Ht.
Qed.

Section writer.
Context `{OutputStreamSpec St}.

Lemma writes_ret_bind {A B} (m : M St A) a l (f : A -> B) :
  writes m a l -> writes (x ← m; mret (f x)) (f a) l.
Proof.
  intros Hm. rewrite <- (app_nil_r l). apply (writes_bind _ _ a); [done|apply writes_ret].
Qed.

(** The bytes held back by the state are completed to a group. *)
Lemma writes_fill state h d : bs_held state h -> is_bytes d -> 0 < zlen d ->
  exists q h1 buf ptr, h ++ d = q ++ h1 ++ ptr /\ zlen q mod 3 = 0 /\ zlen h1 < 3 /\
    zlen buf = 3 /\ ztake (zlen h1) buf = h1 /\ (h1 = [] \/ ptr = []) /\
    writes (if 0 <? bs_rem state then
         buf0 ← of_option (mem_read (bs_buf state) 0 (bs_rem state));
         let '(group, ptr) := take_upto 3 buf0 d in
         buf ← of_option (mem_write (bs_buf state) 0 group);
         let rem := zlen group in
         assertm (rem <=? 3) ;;
         if 3 <=? rem then write_base64 buf ;; mret (0, buf, ptr)
         else mret (rem, buf, ptr)
       else mret (bs_rem state, bs_buf state, d)) (zlen h1, buf, ptr) (base64_text q).
Proof.
  intros (Hb & Hr & Hh & Hhb & Ht) Hd Hdl. rewrite Hr. pose proof (zlen_nonneg h).
  destruct (Z.ltb_spec 0 (zlen h)) as [Hpos|Hz].
  2: { assert (h = []) as -> by (destruct h; [done|pose proof (zlen_nonneg h); zlia]).
       exists [], [], (bs_buf state), d. split_and!; try done; auto; apply writes_ret. }
  rewrite mem_read_ok by lia. rewrite zdrop_0, Ht. cbn [of_option]. rewrite ret_bind.
  rewrite take_upto_ok by (unfold zlen in *; lia).
  set (k := (3 - length h)%nat). set (g := h ++ take k d).
  assert (Hg : zlen g <= 3) by (unfold zlen, g, k in *; rewrite length_app, length_take; lia).
  destruct (bs_held_store state g (zlen g) Hb Hg eq_refl) as (buf & E & Hbuf & Hbt).
  cbn beta iota zeta. rewrite E. cbn [of_option]. rewrite ret_bind. replace (zlen g <=? 3) with true by (symmetry; by apply Z.leb_le).
  cbn [assertm]. rewrite ret_bind. destruct (Z.leb_spec 3 (zlen g)).
  - assert (buf = g) as ->.
    { rewrite <- Hbt. symmetry. apply ztake_all. lia. }
    exists g, [], g, (drop k d). split_and!; auto.
    + unfold g. rewrite <- !app_assoc. cbn. by rewrite take_drop.
    + replace (zlen g) with 3 by lia. done.
    + done.
    + rewrite <- (app_nil_r (base64_text g)). eapply writes_seq; [|apply writes_ret].
      apply writes_base64. apply Forall_app. split; [done|by apply Forall_take].
  - exists [], g, buf, (drop k d). split_and!; try done; try apply writes_ret.
    + unfold g. cbn. rewrite <- app_assoc. by rewrite take_drop.
    + right. apply drop_ge. unfold zlen, g, k in *. rewrite length_app, length_take in *. lia.
Qed.

(** Then the whole groups go out, and the rest is kept. *)
Lemma writes_groups h1 buf ptr : zlen h1 < 3 -> zlen buf = 3 -> ztake (zlen h1) buf = h1 ->
  (h1 = [] \/ ptr = []) -> is_bytes ptr ->
  exists q h2 buf' len, h1 ++ ptr = q ++ h2 /\ zlen q mod 3 = 0 /\ zlen h2 < 3 /\
    zlen buf' = 3 /\ ztake (zlen h2) buf' = h2 /\
    writes (if 0 <? zlen ptr then
         assertm (zlen h1 =? 0) ;;
         let rem := zlen ptr mod 3 in
         let len := zlen ptr - rem in
         write_base64 (ztake len ptr) ;;
         buf ← (if 0 <? rem then of_option (mem_write buf 0 (zdrop len ptr)) else mret buf);
         mret (rem, buf, len)
       else mret (zlen h1, buf, zlen ptr)) (zlen h2, buf', len) (base64_text q).
Proof.
  intros Hh Hb Ht Hor Hp. pose proof (zlen_nonneg ptr). destruct (Z.ltb_spec 0 (zlen ptr)).
  2: { assert (ptr = []) as -> by (destruct ptr; [done|pose proof (zlen_nonneg ptr); zlia]).
       exists [], h1, buf, 0. rewrite app_nil_r. split_and!; try done; auto; apply writes_ret. }
  destruct Hor as [->| ->]; [|by cbn in *].
  cbv zeta. set (rem := zlen ptr mod 3). set (len := zlen ptr - rem).
  assert (Hrem : 0 <= rem < 3) by (apply Z.mod_pos_bound; lia).
  assert (Hlen : 0 <= len <= zlen ptr) by (unfold len, rem; dlia).
  assert (Hm : zlen (ztake len ptr) mod 3 = 0) by (rewrite zlen_ztake by lia; unfold len, rem; dlia).
  assert (Hd : zlen (zdrop len ptr) = rem) by (rewrite zlen_zdrop by lia; lia).
  destruct (bs_held_store {| bs_encoding := 0; bs_size_start := 0; bs_size_done := 0; bs_rem := 0;
    bs_buf := buf |} (zdrop len ptr) rem) as (buf' & E & Hb' & Ht'); [done|lia|done|].
  cbn [bs_buf] in E.
  exists (ztake len ptr), (zdrop len ptr), (if 0 <? rem then buf' else buf), len.
  rewrite Hd. split_and!; [by rewrite ztake_zdrop|done|lia|by destruct (0 <? rem)| |].
  - destruct (Z.ltb_spec 0 rem); [done|]. replace rem with 0 by lia.
    destruct (zdrop len ptr) as [|x l] eqn:Ed; [done|]. pose proof (zlen_nonneg l). zlia.
  - change (assertm (zlen [] =? 0)) with (mret (M := M St) tt). rewrite ret_bind.
    rewrite <- (app_nil_r (base64_text _)). eapply writes_seq; [apply writes_base64; auto with bytes|].
    destruct (0 <? rem); [rewrite E|]; apply writes_ret.
Qed.

Lemma writes_data_base64 state h d :
  bs_encoding state = ENCODING_BASE64 -> bs_held state h -> is_bytes d ->
  exists state' q h', h ++ d = q ++ h' /\ zlen q mod 3 = 0 /\
    bs_encoding state' = ENCODING_BASE64 /\ bs_held state' h' /\
    writes (json_write_binary_data state d) state' (base64_text q).
Proof.
  intros HE HH Hd. unfold json_write_binary_data. rewrite HE. cbn [Z.eqb].
  pose proof (zlen_nonneg d). pose proof HH as (_ & _ & _ & Hhb & _). destruct (Z.leb_spec (zlen d) 0).
  { assert (d = []) as -> by (destruct d; [done|pose proof (zlen_nonneg d); zlia]).
    exists state, [], h. rewrite app_nil_r. split_and!; try done; auto; apply writes_ret. }
  destruct (writes_fill state h d HH Hd ltac:(lia)) as
    (q & h1 & buf & ptr & E & Hq & Hh1 & Hb & Ht & Hor & HW).
  assert (Hall : is_bytes (q ++ h1 ++ ptr)) by (rewrite <- E; auto with bytes).
  apply Forall_app in Hall as [_ Hall]. apply Forall_app in Hall as [Hb1 Hptr].
  destruct (writes_groups h1 buf ptr Hh1 Hb Ht Hor Hptr) as
    (q2 & h2 & buf2 & len & E2 & Hq2 & Hh2 & Hb2 & Ht2 & HW2).
  eexists _, (q ++ q2), h2. split; [by rewrite E, E2, app_assoc|].
  split; [rewrite zlen_app; dlia|]. split; [|split].
  3: { rewrite base64_text_app by done. cbv zeta. eapply writes_bind; [exact HW|].
       cbv beta iota zeta. rewrite <- (app_nil_r (base64_text q2)).
       eapply writes_bind; [exact HW2|]. cbv beta iota. apply writes_ret. }
  - done.
  - assert (Hall : is_bytes (q2 ++ h2)) by (rewrite <- E2; auto with bytes).
    apply Forall_app in Hall as [_ ?]. by split_and!.
Qed.

Lemma writes_chunks_base64 ds : forall state h,
  bs_encoding state = ENCODING_BASE64 -> bs_held state h -> Forall (Forall is_byte) ds ->
  writes (state ← json_write_binary_chunks state ds; json_write_binary_end state) tt
    (base64_text (h ++ mjoin ds) ++ [34]).
Proof.
  induction ds as [|d ds IH]; intros state h HE HH Hds; cbn [json_write_binary_chunks].
  - rewrite ret_bind. unfold json_write_binary_end. rewrite HE. change (mjoin []) with (@nil Z).
    rewrite app_nil_r. destruct HH as (Hb & Hr & Hh & Hhb & Ht). rewrite Hr.
    eapply writes_seq; [|by apply writes_byte]. destruct (Z.ltb_spec 0 (zlen h)).
    + rewrite mem_read_ok by lia. rewrite zdrop_0, Ht. cbn [of_option]. rewrite ret_bind.
      rewrite <- (app_nil_r (base64_text h)).
      eapply writes_seq; [by apply writes_base64|apply writes_ret].
    + destruct h; [apply writes_ret|]. pose proof (zlen_nonneg h). zlia.
  - apply Forall_cons in Hds as [Hd Hds].
    destruct (writes_data_base64 state h d HE HH Hd) as (state' & q & h' & E & Hq & HE' & HH' & HW).
    rewrite mjoin_cons, app_assoc, E, <- app_assoc, base64_text_app by done.
    rewrite <- app_assoc. intros s Hs. rewrite bind_assoc. revert s Hs.
    eapply writes_bind; [exact HW|by apply IH].
Qed.

(** The binary encoding counts the bytes. *)
Lemma writes_chunks_binary ds : forall state,
  bs_encoding state = ENCODING_BINARY -> Forall (Forall is_byte) ds ->
  0 <= bs_size_done state -> bs_size_done state + zlen (mjoin ds) = bs_size_start state ->
  bs_size_start state < 2 ^ 64 ->
  writes (state ← json_write_binary_chunks state ds; json_write_binary_end state) tt (mjoin ds).
Proof.
  induction ds as [|d ds IH]; intros state HE Hds H0' Hsz Hlt; cbn [json_write_binary_chunks].
  - rewrite ret_bind. unfold json_write_binary_end. rewrite HE, Z.eqb_refl.
    change (mjoin []) with (@nil Z) in *. rewrite zlen_nil in Hsz.
    replace (_ =? _) with true by (symmetry; apply Z.eqb_eq; lia). apply writes_ret.
  - apply Forall_cons in Hds as [Hd Hds]. rewrite mjoin_cons, zlen_app in *.
    pose proof (zlen_nonneg d). pose proof (zlen_nonneg (mjoin ds)).
    intros s Hs. rewrite bind_assoc. revert s Hs. unfold json_write_binary_data. rewrite HE, Z.eqb_refl.
    destruct (Z.leb_spec (zlen d) 0).
    + assert (d = []) as -> by (destruct d; [done|pose proof (zlen_nonneg d); zlia]).
      rewrite ret_bind. apply IH; auto.
    + intros s Hs. rewrite bind_assoc. revert s Hs. eapply writes_seq; [by apply writes_block|].
      rewrite ret_bind. apply IH; cbn [bs_encoding bs_size_start bs_size_done]; auto;
        rewrite wrapu_small; lia.
Qed.

(** Binary data come out as [binary_text], however they are cut. *)
Lemma write_binary_chunks_ok ds size s : os_wf s -> Forall (Forall is_byte) ds ->
  0 <= size < 2 ^ 64 ->
  (os_supports_zero_copy s = true -> 0 < size -> size = zlen (mjoin ds)) ->
  exists s', (state ← json_write_binary_start size;
              state ← json_write_binary_chunks state ds;
              json_write_binary_end state) s = (Ok tt, s') /\ os_wf s' /\
    os_data s' = os_data s ++ binary_text (os_supports_zero_copy s) size (mjoin ds) /\
    os_supports_zero_copy s' = os_supports_zero_copy s.
Proof.
  intros Hs Hds Hsize Hz. unfold binary_text.
  set (mode := os_supports_zero_copy s && (0 <? size)).
  set (st := {| bs_encoding := if mode then ENCODING_BINARY else ENCODING_BASE64;
    bs_size_start := size; bs_size_done := 0; bs_rem := 0; bs_buf := alloc 3 |}).
  assert (HS : exists s1, json_write_binary_start size s = (Ok st, s1) /\ os_wf s1 /\
    os_data s1 = os_data s ++ (if mode then #"(" :: dec_text size ++ [#")"] else [34]) /\
    os_supports_zero_copy s1 = os_supports_zero_copy s).
  { unfold json_write_binary_start. subst st. fold mode. destruct mode; cbn [Z.eqb].
    - assert (HW : writes (write_stream (#"(") ;; json_write_ulong size ;; write_stream (#")"))
        tt (#"(" :: dec_text size ++ [#")"])).
      { eapply (writes_seq _ _ tt tt [_]); [by apply writes_byte|].
        eapply writes_seq; [apply writes_ulong; lia|by apply writes_byte]. }
      destruct (HW s Hs) as (s1 & E1 & ?). exists s1. by rewrite (bind_ok _ _ _ _ _ E1).
    - destruct (writes_byte 34 ltac:(done) s Hs) as (s1 & E1 & ?). exists s1.
      by rewrite (bind_ok _ _ _ _ _ E1). }
  destruct HS as (s1 & E1 & Hs1 & D1 & Z1). rewrite (bind_ok _ _ _ _ _ E1).
  assert (HW : writes (state ← json_write_binary_chunks st ds; json_write_binary_end state) tt
    (if mode then mjoin ds else base64_text (mjoin ds) ++ [34])).
  { subst st. destruct mode eqn:Em.
    - apply andb_prop in Em as [Hm1 Hm2%Z.ltb_lt]. specialize (Hz Hm1 Hm2).
      apply writes_chunks_binary; cbn; auto; lia.
    - apply (writes_chunks_base64 ds _ []); [done| |done]. split_and!; try done. }
  destruct (HW s1 Hs1) as (s2 & E2 & Hs2 & D2 & Z2). exists s2. rewrite E2, D2, D1, <- app_assoc.
  split_and!; [done|done| |congruence]. f_equal. fold mode. destruct mode; cbn; by rewrite <- ?app_assoc.
Qed.

Lemma write_binary_ok d s : os_wf s -> is_bytes d -> zlen d < 2 ^ 64 ->
  exists s', json_write_binary (Some d) s = (Ok tt, s') /\ os_wf s' /\
    os_data s' = os_data s ++ binary_text (os_supports_zero_copy s) (zlen d) d /\
    os_supports_zero_copy s' = os_supports_zero_copy s.
Proof.
  intros Hs Hd Hl. pose proof (zlen_nonneg d).
  destruct (write_binary_chunks_ok [d] (zlen d) s) as (s' & E & ?);
    [done|by apply Forall_singleton|lia|cbn; by rewrite app_nil_r|].
  rewrite mjoin_cons, app_nil_r in *. exists s'. split; [|done]. rewrite <- E.
  unfold json_write_binary, mbind, M_bind. cbn.
  destruct (json_write_binary_start (zlen d) s) as [[st| | |] s1]; [|done..]. cbn.
  rewrite bind_ret. by destruct (json_write_binary_data st d s1) as [[st'| | |] s2].
Qed.
End writer.

(** ** The reader, for any sizes of the pieces *)

Lemma base64_text_len l : (length l <= length (base64_text l))%nat.
Proof. induction l as [|a|a b|a b c l IH] using b64_ind; cbn in *; lia. Qed.

Section reader.
Context `{InputStreamSpec St}.

(** Moving [cur] inside of the window is reading. *)
Lemma advance_ok n : forall s, is_wf s -> (n <= length (is_window s))%nat ->
  is_wf (Nat.iter n is_advance s) /\
  is_data s = take n (is_window s) ++ is_data (Nat.iter n is_advance s) /\
  is_mark (Nat.iter n is_advance s) = is_mark s.
Proof.
  induction n as [|n IH]; intros s Hs Hn; [done|]. rewrite Nat.iter_succ_r.
  destruct (is_window s) as [|b w] eqn:W; [simpl in Hn; lia|].
  destruct (window_advance s b w Hs W) as [Hb W'].
  assert (E : read_stream s = (Ok b, is_advance s)) by (unfold read_stream; by rewrite W).
  destruct (is_data s) as [|b' l] eqn:D.
  - destruct (read_nil s Hs D) as (s' & E'). rewrite E in E'. simplify_eq.
    pose proof (is_mark_neg s Hs). unfold is_byte in Hb. lia.
  - destruct (read_cons s b' l Hs D) as (s' & E' & Hs' & D' & M'). rewrite E in E'. injection E' as <- <-.
    destruct (IH (is_advance s) Hs') as (H1 & H2 & H3).
    { rewrite W'. simpl in Hn. lia. }
    split_and!; [done| |congruence]. cbn. rewrite W' in H2. by rewrite <- H2, D'.
Qed.

Lemma reads_binary_loop len fuel : forall acc d,
  zlen acc + zlen d = len -> is_bytes d -> (length d < fuel)%nat ->
  reads (read_binary_loop fuel acc len) (acc ++ d) d anything.
Proof.
  induction fuel as [|fuel IH]; intros acc d Hl Hd Hf s rest Hs D _; [lia|].
  cbn [read_binary_loop]. pose proof (zlen_nonneg d).
  destruct (Z.ltb_spec (zlen acc) len) as [Hlt|Hge].
  2: { assert (d = []) as -> by (destruct d; [done|pose proof (zlen_nonneg d); zlia]).
       rewrite app_nil_r. by exists s. }
  rewrite (bind_ok (gets _) _ s _ s eq_refl). destruct (is_window s) as [|b w] eqn:W.
  - destruct d as [|c d]; [rewrite zlen_nil in *; lia|]. cbn [app] in D.
    destruct (read_cons s c _ Hs D) as (s1 & E1 & Hs1 & D1 & M1).
    unfold read_stream in E1. rewrite W in E1. rewrite (bind_ok _ _ _ _ _ E1).
    apply Forall_cons in Hd as [Hc Hd]. rewrite u8_byte by done.
    destruct (IH (acc ++ [c]) d) with (s := s1) (rest := rest) as (s2 & E2 & Hs2 & D2 & M2);
      [zlia|done|simpl in Hf; lia|done..|].
    exists s2. rewrite E2, M2, <- app_assoc. done.
  - set (n := if len - zlen acc <? zlen (b :: w) then len - zlen acc else zlen (b :: w)).
    cbv zeta. fold n.
    assert (Hn : 0 < n <= zlen (b :: w) /\ n <= zlen d).
    { subst n. pose proof (zlen_nonneg w). rewrite zlen_cons in *. zcases; lia. }
    destruct (advance_ok (Z.to_nat n) s Hs) as (Hs1 & D1 & M1).
    { rewrite W. unfold zlen in Hn. lia. }
    rewrite (bind_ok (advance _) _ s tt _ eq_refl). set (s1 := Nat.iter _ _ s) in *.
    rewrite W in D1. change (take (Z.to_nat n) (b :: w)) with (ztake n (b :: w)) in D1.
    assert (Hw : zlen (ztake n (b :: w)) = n) by (apply zlen_ztake; lia).
    assert (Hsplit : ztake n (b :: w) = ztake n d /\ is_data s1 = zdrop n d ++ rest).
    { rewrite D1, <- (ztake_zdrop n d), <- app_assoc in D.
      apply app_inj_1 in D; [done|]. apply Nat2Z.inj. change (zlen (ztake n (b :: w)) = zlen (ztake n d)).
      rewrite Hw, zlen_ztake; lia. }
    destruct Hsplit as [HE D1']. rewrite HE.
    assert (Hdl : zlen (zdrop n d) = zlen d - n) by (apply zlen_zdrop; lia).
    destruct (IH (acc ++ ztake n d) (zdrop n d)) with (s := s1) (rest := rest)
      as (s2 & E2 & Hs2 & D2 & M2); [rewrite zlen_app, Hdl, zlen_ztake; lia|auto with bytes
      |unfold zlen in *; lia|done..|].
    exists s2. rewrite E2, M2, <- app_assoc, ztake_zdrop. done.
Qed.

(** One call of the BASE64 decoder: whole groups, or all of the rest. *)
Lemma read_base64_some size rest tail s :
  is_wf s -> is_data s = base64_text rest ++ tail -> is_bytes rest -> 3 <= size ->
  ~ is_b64 (match tail with b :: _ => b | [] => is_mark s end) ->
  exists p q s', rest = p ++ q /\ read_base64 size s = (Ok p, s') /\ zlen p <= size /\
    (p = [] -> rest = []) /\ is_wf s' /\ is_mark s' = is_mark s /\
    is_data s' = base64_text q ++ tail.
Proof.
  intros Hs D Hr H3 Ht. pose proof (zlen_nonneg rest).
  destruct (Z.leb_spec ((zlen rest + 2) / 3 * 3) size).
  - destruct (reads_base64 rest size Hr H3 ltac:(done) s tail Hs D Ht) as (s' & E & Hs' & D' & M').
    exists rest, [], s'. rewrite app_nil_r. split_and!; auto. dlia.
  - set (k := size / 3 * 3). assert (Hk : zlen (ztake k rest) = k) by (apply zlen_ztake; subst k; dlia).
    rewrite <- (ztake_zdrop k rest) in D. rewrite base64_text_app in D by (rewrite Hk; subst k; dlia).
    rewrite <- app_assoc in D.
    destruct (reads_base64_full (ztake k rest) size ltac:(auto with bytes) H3 ltac:(done) s _ Hs D I)
      as (s' & E & Hs' & D' & M').
    exists (ztake k rest), (zdrop k rest), s'. split_and!; auto; [by rewrite ztake_zdrop|subst k; dlia|].
    intros E0. rewrite E0, zlen_nil in Hk. subst k. dlia.
Qed.

(** What is left to be delivered: the bytes held back and those still to be
    decoded. *)
Definition left_ok (h buf : bytes) : Prop :=
  zlen buf = 3 /\ zlen h <= 3 /\ is_bytes h /\ ztake (zlen h) buf = h.

Lemma left_store buf h : zlen buf = 3 -> zlen h <= 3 -> is_bytes h ->
  exists buf', mem_write buf 0 h = Some buf' /\ left_ok h buf'.
Proof.
  intros Hb Hh Hhb. destruct (mem_write_ok buf 0 h) as (buf' & E & Hl & Ht); [lia..|].
  exists buf'. split; [done|]. split_and!; auto; lia.
Qed.

Lemma ztake_app_le {A} n (l k : list A) : n <= zlen l -> ztake n (l ++ k) = ztake n l.
Proof. intros. unfold ztake, zlen in *. apply take_app_le. lia. Qed.
Lemma zdrop_app_le {A} n (l k : list A) : n <= zlen l -> zdrop n (l ++ k) = zdrop n l ++ k.
Proof. intros. unfold zdrop, zlen in *. apply drop_app_le. lia. Qed.
Lemma ztake_app_ge {A} n (l k : list A) : zlen l <= n ->
  ztake n (l ++ k) = l ++ ztake (n - zlen l) k.
Proof.
  intros. unfold ztake, zlen in *. rewrite take_app_ge by lia. do 2 f_equal. lia.
Qed.
Lemma zdrop_app_ge {A} n (l k : list A) : zlen l <= n ->
  zdrop n (l ++ k) = zdrop (n - zlen l) k.
Proof. intros. unfold zdrop, zlen in *. rewrite drop_app_ge by lia. f_equal. lia. Qed.

Definition b64_result (s s' : St) (tail h' buf' rest' all : bytes) (len : Z) : Prop :=
  is_wf s' /\ is_mark s' = is_mark s /\ is_data s' = base64_text rest' ++ tail /\
  left_ok h' buf' /\ is_bytes rest' /\ h' ++ rest' = zdrop len all.

Ltac b64_parts :=
  split; [done|]; split; [congruence|]; split; [done|]; split; [first [assumption|by split_and!]|]; split; [auto with bytes|].

Lemma read_base64_data_loop_ok fuel : forall s h buf data len rest tail,
  is_wf s -> is_data s = base64_text rest ++ tail -> is_bytes rest ->
  ~ is_b64 (match tail with b :: _ => b | [] => is_mark s end) ->
  0 <= len -> left_ok h buf ->
  2 * len + (if zlen h =? 0 then 2 else 1) < Z.of_nat fuel ->
  exists s' h' buf' rest' returned,
    read_base64_data_loop fuel (zlen h) buf data len s =
      (Ok (zlen h', buf', data ++ ztake len (h ++ rest), returned), s') /\
    b64_result s s' tail h' buf' rest' (h ++ rest) len.
Proof.
  induction fuel as [|fuel IH]; intros s h buf data len rest tail Hs D Hr Ht Hlen HL Hf;
    [destruct (zlen h =? 0); lia|].
  cbn [read_base64_data_loop]. pose proof (zlen_nonneg h). pose proof (zlen_nonneg rest).
  destruct (Z.ltb_spec 0 len) as [Hpos|Hz].
  2: { replace len with 0 by lia. exists s, h, buf, rest, false. unfold b64_result.
       split; [unfold ztake; cbn; by rewrite app_nil_r|].
       rewrite zdrop_0. b64_parts. done. }
  pose proof HL as (Hb & Hh3 & Hhb & Hht).
  replace (zlen h <=? 3) with true by (symmetry; by apply Z.leb_le). cbn [assertm]. rewrite ret_bind.
  rewrite mem_read_ok by lia. rewrite zdrop_0, Hht. cbn [of_option]. rewrite ret_bind.
  cbv zeta. set (i := if len <? zlen h then len else zlen h).
  destruct (Z.ltb_spec i (zlen h)) as [Hi|Hi].
  { (* the caller wants less than what is held back *)
    assert (i = len /\ len < zlen h) as [-> Hlt] by (subst i; revert Hi; zcases; lia).
    destruct (left_store buf (zdrop len h)) as (buf' & E & HL'); [done|rewrite zlen_zdrop; lia|auto with bytes|].
    rewrite E. cbn [of_option]. rewrite ret_bind.
    exists s, (zdrop len h), buf', rest, true. rewrite zlen_zdrop, ztake_app_le by lia.
    split; [done|]. b64_parts. by rewrite zdrop_app_le by lia. }
  assert (i = zlen h /\ zlen h <= len) as [-> Hle] by (subst i; revert Hi; zcases; lia).
  rewrite (ztake_all (zlen h) h), (ztake_app_ge len h rest) by lia.
  set (len' := len - zlen h).
  assert (Hempty : forall A (l : list A), zlen l = 0 -> l = []).
  { intros A l. destruct l; [done|]. pose proof (zlen_nonneg l). rewrite zlen_cons. lia. }
  destruct (Z.leb_spec 3 len') as [H3|H3].
  - destruct (read_base64_some len' rest tail s Hs D Hr H3 Ht) as
      (p & q & s1 & -> & E1 & Hp & Hpe & Hs1 & M1 & D1).
    rewrite (bind_ok _ _ _ _ _ E1). apply Forall_app in Hr as [Hpb Hqb].
    destruct (Z.eqb_spec (zlen p) 0) as [H0p|H0p].
    + apply Hempty in H0p as ->. specialize (Hpe eq_refl). cbn in Hpe. subst q.
      exists s1, [], buf, [], false. split.
      { change (ztake len' ([] ++ [])) with (ztake len' (@nil Z)). unfold ztake.
        rewrite take_nil, app_nil_r. done. }
      b64_parts. rewrite zdrop_app_ge by lia. cbn [app]. unfold zdrop. by rewrite drop_nil.
    + destruct (IH s1 [] buf ((data ++ h) ++ p) (len' - zlen p) q tail) as
        (s2 & h2 & buf2 & rest2 & r2 & E2 & Hs2 & M2 & D2 & HL2 & Hb2 & HR2);
        [done|done|done|by rewrite M1|lia|by split_and!|pose proof (zlen_nonneg p); rewrite zlen_nil;
         revert Hf; subst len'; zcases; lia|].
      exists s2, h2, buf2, rest2, r2. rewrite zlen_nil in E2. rewrite E2. split.
      { rewrite <- !app_assoc, (ztake_app_ge len' p q) by lia. done. }
      b64_parts. rewrite HR2, (zdrop_app_ge len h) by lia. fold len'.
      by rewrite (zdrop_app_ge len' p q) by lia.
  - destruct (read_base64_some 3 rest tail s Hs D Hr ltac:(lia) Ht) as
      (p & q & s1 & -> & E1 & Hp & Hpe & Hs1 & M1 & D1).
    rewrite (bind_ok _ _ _ _ _ E1). apply Forall_app in Hr as [Hpb Hqb].
    destruct (left_store buf p Hb Hp Hpb) as (buf1 & Eb & HL1). rewrite Eb. cbn [of_option].
    rewrite ret_bind. destruct (Z.eqb_spec (zlen p) 0) as [H0p|H0p].
    + apply Hempty in H0p as ->. specialize (Hpe eq_refl). cbn in Hpe. subst q.
      exists s1, [], buf1, [], false. split.
      { change (ztake len' ([] ++ [])) with (ztake len' (@nil Z)). unfold ztake.
        rewrite take_nil, app_nil_r. done. }
      b64_parts. rewrite zdrop_app_ge by lia. cbn [app]. unfold zdrop. by rewrite drop_nil.
    + destruct (IH s1 p buf1 (data ++ h) len' q tail) as
        (s2 & h2 & buf2 & rest2 & r2 & E2 & Hs2 & M2 & D2 & HL2 & Hb2 & HR2);
        [done|done|done|by rewrite M1|lia|done|pose proof (zlen_nonneg p);
         revert Hf; subst len'; zcases; lia|].
      exists s2, h2, buf2, rest2, r2. rewrite E2. split; [by rewrite <- !app_assoc|].
      b64_parts. by rewrite HR2, (zdrop_app_ge len h) by lia.
Qed.

Lemma quote_not_b64 : ~ is_b64 34.
Proof. intros [x E]. by vm_compute in E. Qed.

(** [delivers state s R rest]: reader and stream together still hold [R], and
    [rest] follows the value on the stream. *)
Definition delivers (state : BinaryState) (s : St) (R rest : bytes) : Prop :=
  is_wf s /\ is_bytes R /\
  ((bs_encoding state = ENCODING_BINARY /\ bs_rem state = 0 /\ is_data s = R ++ rest /\
    0 <= bs_size_done state /\ bs_size_start state = bs_size_done state + zlen R /\
    bs_size_start state < 2 ^ 64) \/
   (bs_encoding state = ENCODING_BASE64 /\ bs_size_start state = 0 /\
    exists h r, R = h ++ r /\ left_ok h (bs_buf state) /\ bs_rem state = zlen h /\
      is_data s = base64_text r ++ 34 :: rest)).

(** A call delivers as much as is wanted and there is. *)
Lemma binary_data_ok state s R rest len : delivers state s R rest -> 0 <= len ->
  exists state' s', json_read_binary_data state len s = (Ok (ztake len R, state'), s') /\
    delivers state' s' (zdrop len R) rest /\ is_mark s' = is_mark s /\
    bs_size_start state' = bs_size_start state.
Proof.
  intros (Hs & HR & [(HE & Hrem & D & Hd & Hsz & Hlt)|(HE & Hsz & h & r & -> & HL & Hrem & D)]) Hlen;
    unfold json_read_binary_data; rewrite HE; try pose proof (zlen_nonneg R).
  - rewrite Z.eqb_refl. cbv zeta. rewrite wrapu_small by lia.
    replace (bs_size_start state - bs_size_done state) with (zlen R) by lia.
    set (k := if zlen R <? len then zlen R else len).
    assert (Hk : 0 <= k <= zlen R /\ ztake len R = ztake k R /\ zdrop len R = zdrop k R).
    { subst k. destruct (Z.ltb_spec (zlen R) len); [|split_and!; lia || done].
      rewrite !ztake_all, !zdrop_all by lia. split_and!; lia || done. }
    destruct Hk as (Hk & -> & ->).
    assert (Hz : zlen (ztake k R) = k) by (apply zlen_ztake; lia).
    rewrite <- (ztake_zdrop k R), <- app_assoc in D.
    destruct (reads_binary_loop k (S (Z.to_nat k)) [] (ztake k R)) with (s := s)
      (rest := zdrop k R ++ rest) as (s' & E & Hs' & D' & M');
      [rewrite zlen_nil; lia|auto with bytes|unfold zlen in Hz; lia|done..|].
    rewrite (bind_ok _ _ _ _ _ E). eexists _, s'. split; [done|]. split; [|done].
    split; [done|]. split; [auto with bytes|]. left. cbn [bs_encoding bs_rem bs_size_done bs_size_start app].
    rewrite Hz, zlen_zdrop by lia. rewrite wrapu_small by lia. split_and!; auto; lia.
  - replace (ENCODING_BASE64 =? ENCODING_BINARY) with false by done.
    apply Forall_app in HR as [Hh Hr].
    destruct (read_base64_data_loop_ok (Z.to_nat (2 * len + 3)) s h (bs_buf state) [] len r (34 :: rest))
      as (s' & h' & buf' & r' & ret & E & Hs' & M' & D' & HL' & Hr' & HR');
      [done|done|done|exact quote_not_b64|done|done|rewrite Z2Nat.id by lia; destruct (_ =? _); lia|].
    rewrite Hrem, (bind_ok _ _ _ _ _ E). eexists _, s'. split; [done|].
    split; [|done]. pose proof HL' as (_ & _ & Hh' & _). split; [done|].
    split; [rewrite <- HR'; auto with bytes|]. right. split; [done|]. split; [done|].
    exists h', r'. by split_and!.
Qed.

Lemma binary_end_ok state s rest : delivers state s [] rest ->
  exists s', json_read_binary_end state s = (Ok tt, s') /\ is_wf s' /\ is_data s' = rest /\
    is_mark s' = is_mark s.
Proof.
  intros (Hs & _ & [(HE & Hrem & D & Hd & Hsz & Hlt)|(HE & _ & h & r & E & HL & Hrem & D)]);
    unfold json_read_binary_end; rewrite HE, Hrem.
  - rewrite zlen_nil in Hsz. rewrite !Z.eqb_refl. cbn [negb].
    replace (_ =? _) with true by (symmetry; apply Z.eqb_eq; lia). by exists s.
  - symmetry in E. apply app_eq_nil in E as [-> ->].
    apply (reads_test_char 34 eq_refl s rest Hs D I).
Qed.

Lemma reads_then_ret {A B} (m : M St A) a (b : B) l :
  reads m a l anything -> reads (m ;; mret b) b l anything.
Proof. intros Hm. rewrite <- (app_nil_r l). eapply reads_bind'; [done|apply reads_ret]. Qed.

(** A stream that starts with the printed data. *)
Lemma binary_start_ok zc size d ws s rest :
  is_wf s -> spaces ws -> is_bytes d -> 0 <= size < 2 ^ 64 ->
  (zc = true -> 0 < size -> size = zlen d) ->
  is_data s = ws ++ binary_text zc size d ++ rest ->
  exists state s', json_read_binary_start s = (Ok state, s') /\ delivers state s' d rest /\
    is_mark s' = is_mark s /\
    (bs_size_start state = 0 \/ bs_size_start state = zlen d) /\
    (length d <= length (is_data s'))%nat.
Proof.
  intros Hs Hws Hd Hsize Hz D. unfold json_read_binary_start, binary_text in *.
  destruct (zc && (0 <? size)) eqn:Hm.
  - apply andb_prop in Hm as [Hm1 Hm2%Z.ltb_lt]. specialize (Hz Hm1 Hm2). cbv zeta.
    set (st := {| bs_encoding := ENCODING_BINARY; bs_size_start := size; bs_size_done := 0;
                  bs_rem := 0; bs_buf := alloc 3 |}).
    assert (HR : reads (size ← json_read_ulong; json_test_char (#")") ;;
      mret {| bs_encoding := ENCODING_BINARY; bs_size_start := size; bs_size_done := 0;
              bs_rem := 0; bs_buf := alloc 3 |}) st (dec_text size ++ [#")"]) anything).
    { eapply (reads_bind _ _ size).
      - pose proof (reads_ulong size [] ltac:(done) ltac:(lia)) as HR.
        rewrite wrapu_small in HR by lia. unfold signed_text in HR.
        rewrite (proj2 (Z.ltb_ge size 0)) in HR by lia. exact HR.
      - by eapply reads_then_ret, reads_test_char.
      - done. }
    replace (ws ++ (#"(" :: dec_text size ++ [#")"] ++ d) ++ rest)
      with ((ws ++ #"(" :: (dec_text size ++ [#")"])) ++ d ++ rest) in D
      by (rewrite <- !app_assoc; cbn; by rewrite <- !app_assoc).
    assert (HR' : reads read_no_whitespace (#"(") (ws ++ [#"("]) anything) by (by apply reads_ws).
    rewrite <- app_assoc in D. change ((#"(" :: ?x) ++ ?y) with ([#"("] ++ (x ++ y)) in D.
    rewrite app_assoc in D.
    destruct (HR' s _ Hs D I) as (s1 & E1 & Hs1 & D1 & M1). rewrite (bind_ok _ _ _ _ _ E1).
    cbn [Z.eqb Pos.eqb].
    destruct (HR s1 _ Hs1 D1 I) as (s2 & E2 & Hs2 & D2 & M2).
    exists st, s2. split; [exact E2|]. split; [|split; [congruence|split; [right; exact Hz|]]].
    2: { rewrite D2, length_app. lia. }
    split; [done|]. split; [done|]. left. cbn. split_and!; try done; lia.
  - set (st := {| bs_encoding := ENCODING_BASE64; bs_size_start := 0; bs_size_done := 0;
                  bs_rem := 0; bs_buf := alloc 3 |}).
    assert (HR' : reads read_no_whitespace 34 (ws ++ [34]) anything) by (by apply reads_ws).
    cbn [app] in D. change (34 :: ?x) with ([34] ++ x) in D at 1.
    rewrite (app_assoc ws) in D.
    destruct (HR' s _ Hs D I) as (s1 & E1 & Hs1 & D1 & M1). rewrite (bind_ok _ _ _ _ _ E1).
    exists st, s1. split; [done|]. split; [|split; [done|split; [by left|]]].
    2: { rewrite D1, !length_app. pose proof (base64_text_len d). lia. }
    split; [done|]. split; [done|].
    right. split; [done|]. split; [done|]. exists [], d.
    split; [done|]. split; [by split_and!|]. split; [done|]. by rewrite D1, <- app_assoc.
Qed.

(** The data in pieces of the given sizes. *)
Fixpoint json_read_binary_pieces (state : BinaryState) (lens : list Z) : M St (bytes * BinaryState) :=
  match lens with
  | [] => mret ([], state)
  | len :: lens =>
      '(d, state) ← json_read_binary_data state len;
      '(ds, state) ← json_read_binary_pieces state lens;
      mret (d ++ ds, state)
  end.

Lemma ztake_zdrop_add {A} n k (l : list A) : 0 <= n -> 0 <= k ->
  ztake n l ++ ztake k (zdrop n l) = ztake (n + k) l /\ zdrop k (zdrop n l) = zdrop (n + k) l.
Proof.
  intros. unfold ztake, zdrop. rewrite Z2Nat.inj_add by lia. rewrite drop_drop. split; [|done].
  by rewrite take_take_drop.
Qed.

Lemma binary_pieces_ok lens : Forall (fun n => 0 <= n) lens -> forall state s R rest,
  delivers state s R rest ->
  exists state' s', json_read_binary_pieces state lens s =
      (Ok (ztake (foldr Z.add 0 lens) R, state'), s') /\
    delivers state' s' (zdrop (foldr Z.add 0 lens) R) rest /\ is_mark s' = is_mark s.
Proof.
  induction 1 as [|n lens Hn Hl IH]; intros state s R rest HD; cbn [json_read_binary_pieces foldr].
  - by exists state, s.
  - destruct (binary_data_ok state s R rest n HD Hn) as (st1 & s1 & E1 & HD1 & M1 & _).
    rewrite (bind_ok _ _ _ _ _ E1). cbv beta iota.
    destruct (IH st1 s1 _ rest HD1) as (st2 & s2 & E2 & HD2 & M2). rewrite (bind_ok _ _ _ _ _ E2).
    assert (0 <= foldr Z.add 0 lens) by (clear -Hl; induction Hl; cbn; lia).
    destruct (ztake_zdrop_add n (foldr Z.add 0 lens) R) as [HT HZ]; [done..|].
    exists st2, s2. rewrite <- HT, <- HZ. split; [done|]. split; [done|congruence].
Qed.

(** Reading in any pieces that are large enough returns the data. *)
Lemma read_binary_pieces_ok zc size d ws lens :
  spaces ws -> is_bytes d -> 0 <= size < 2 ^ 64 -> (zc = true -> 0 < size -> size = zlen d) ->
  Forall (fun n => 0 <= n) lens -> zlen d <= foldr Z.add 0 lens ->
  reads (state ← json_read_binary_start;
         '(r, state) ← json_read_binary_pieces state lens;
         json_read_binary_end state ;; mret r) d (ws ++ binary_text zc size d) anything.
Proof.
  intros Hws Hd Hsize Hz Hl Hsum s rest Hs D _. rewrite <- app_assoc in D.
  destruct (binary_start_ok zc size d ws s rest) as (st1 & s1 & E1 & HD1 & M1 & _ & _); [done..|].
  rewrite (bind_ok _ _ _ _ _ E1).
  destruct (binary_pieces_ok lens Hl st1 s1 d rest HD1) as (st2 & s2 & E2 & HD2 & M2).
  rewrite (bind_ok _ _ _ _ _ E2). cbv beta iota. rewrite zdrop_all in HD2 by done.
  destruct (binary_end_ok st2 s2 rest HD2) as (s3 & E3 & Hs3 & D3 & M3).
  rewrite (bind_ok _ _ _ _ _ E3). rewrite ztake_all by done. exists s3.
  split_and!; [done|done|done|congruence].
Qed.
End reader.

(** ** Binary data in a heap block *)

Section alloc_binary.
Context `{JsonTmpBufSpec St}.

Lemma delivers_same st (s s' : St) R rest : delivers st s R rest -> is_wf s' ->
  is_data s' = is_data s -> delivers st s' R rest.
Proof. intros (_ & HR & HD) Hs' D. split; [done|]. split; [done|]. by rewrite D. Qed.

(** A call leaves the temporary buffer alone. *)
Lemma binary_data_frame st s R rest len : delivers st s R rest -> 0 <= len ->
  exists st' s', json_read_binary_data st len s = (Ok (ztake len R, st'), s') /\
    delivers st' s' (zdrop len R) rest /\ is_mark s' = is_mark s /\
    bs_size_start st' = bs_size_start st /\ tmp_buf s' = tmp_buf s.
Proof.
  intros (Hs & HR & HD) Hlen.
  destruct (@binary_data_ok St _ (frame_spec (tmp_buf s)) st s R rest len
    (conj (conj Hs eq_refl) (conj HR HD)) Hlen) as (st' & s' & E & ([Hs' T'] & HR' & HD') & M' & Z').
  by exists st', s'.
Qed.

Lemma read_alloc_binary_loop_ok fuel : forall st s R rest,
  delivers st s R rest -> (length R < fuel)%nat ->
  exists st' s', read_alloc_binary_loop fuel st s = (Ok st', s') /\
    delivers st' s' [] rest /\ is_mark s' = is_mark s /\ bs_size_start st' = bs_size_start st /\
    tmp_data (tmp_buf s') = tmp_data (tmp_buf s) ++ R.
Proof.
  induction fuel as [|fuel IH]; intros st s R rest HD Hf; [lia|]. cbn [read_alloc_binary_loop].
  pose proof HD as (Hs & _). pose proof (tmp_wf s Hs) as Ht.
  set (grow := fun t => if tb_size t <=? tb_pos t then realloc_tmp_buf t else t).
  assert (tmp_ok (grow (tmp_buf s)) /\ tmp_data (grow (tmp_buf s)) = tmp_data (tmp_buf s) /\
    0 <= tb_pos (grow (tmp_buf s)) < tb_size (grow (tmp_buf s)) /\
    is_Some (tb_buf (grow (tmp_buf s)))) as (Ht1 & Td1 & Hroom & HS).
  { assert (HS : forall t, tmp_ok t -> tb_pos t < tb_size t -> 0 <= tb_pos t /\ is_Some (tb_buf t)).
    { intros t [Hb _] Hp. destruct (tb_buf t); [split; [lia|done]|lia]. }
    subst grow. cbv beta. destruct (Z.leb_spec (tb_size (tmp_buf s)) (tb_pos (tmp_buf s))) as [Hle|Hlt].
    - destruct (realloc_tmp_buf_ok _ Ht) as (Hr & Hd & Hp & Hlt & _).
      rewrite Hp in *. destruct (HS _ Hr) as [? ?]; [lia|]. split_and!; auto; lia.
    - destruct (HS _ Ht Hlt). split_and!; auto. }
  destruct (on_tmp_ok grow s Hs Ht1) as (s1 & E1 & Hs1 & D1 & M1 & T1).
  rewrite (bind_ok _ _ _ _ _ E1), (bind_ok (gets _) _ s1 _ s1 eq_refl), T1.
  set (room := tb_size _ - tb_pos _).
  destruct (binary_data_frame st s1 R rest room) as (st2 & s2 & E2 & HD2 & M2 & Z2 & T2);
    [by eapply delivers_same|unfold room; lia|].
  rewrite (bind_ok _ _ _ _ _ E2). cbv beta iota. pose proof HD2 as (Hs2 & _).
  destruct (Z.eqb_spec (zlen (ztake room R)) 0) as [E0|E0].
  - assert (R = []) as ->.
    { destruct R as [|c R]; [done|]. exfalso. revert E0. unfold zlen, ztake.
      rewrite length_take. simpl. unfold room. lia. }
    exists st2, s2. rewrite T2, T1, Td1, app_nil_r.
    change (zdrop room []) with (drop (Z.to_nat room) (@nil Z)) in HD2. rewrite drop_nil in HD2.
    split_and!; [done|done|congruence|done|done].
  - destruct (tmp_buf_store_ok (tmp_buf s2) (ztake room R)) as (t3 & E3 & Ht3 & Td3 & _);
      [by apply tmp_wf|by rewrite T2, T1| |].
    { rewrite T2, T1. unfold zlen, ztake. rewrite length_take. unfold room. lia. }
    destruct (set_tmp s2 t3 Hs2 Ht3) as (Hs3 & D3 & M3 & T3).
    assert (E3' : try_tmp_buf (tmp_buf_store (ztake room R)) s2 = (Ok tt, set_tmp_buf t3 s2)).
    { unfold try_tmp_buf. by rewrite E3. }
    rewrite (bind_ok _ _ _ _ _ E3').
    destruct (IH st2 (set_tmp_buf t3 s2) (zdrop room R) rest) as (st4 & s4 & E4 & HD4 & M4 & Z4 & Td4);
      [by eapply delivers_same|unfold zdrop, zlen, ztake in *; rewrite length_take in E0;
       rewrite length_drop; lia|].
    exists st4, s4. rewrite E4, Td4, T3, Td3, T2, T1, Td1, <- app_assoc, ztake_zdrop.
    split_and!; [done|done|congruence|congruence|done].
Qed.

(** [json_read_alloc_binary] returns the data that have been written. *)
Lemma reads_alloc_binary zc size d ws : spaces ws -> is_bytes d -> 0 <= size < 2 ^ 64 ->
  (zc = true -> 0 < size -> size = zlen d) ->
  reads json_read_alloc_binary (Some d, zlen d) (ws ++ binary_text zc size d) anything.
Proof.
  intros Hws Hd Hsize Hz. unfold json_read_alloc_binary.
  assert (exists c l, binary_text zc size d = c :: l /\ isspace c = false /\ (c =? #"n") = false)
    as (c & l & Ec & Hc & Hn).
  { unfold binary_text. destruct (zc && _); eexists _, _; done. }
  rewrite Ec. apply reads_json_peek; [done|done|]. rewrite Hn. rewrite <- Ec. clear c l Ec Hc Hn.
  intros s rest Hs D _.
  destruct (binary_start_ok zc size d [] s rest) as (st & s1 & E1 & HD1 & M1 & HZ & HF); [done..|].
  rewrite (bind_ok _ _ _ _ _ E1). pose proof HD1 as (Hs1 & _).
  destruct (on_tmp_ok (tmp_buf_set_pos 0) s1 Hs1) as (s2 & E2 & Hs2 & D2 & M2 & T2);
    [apply tmp_buf_set_pos_ok, tmp_wf, Hs1|].
  pose proof (proj2 (tmp_buf_set_pos_ok _ (tmp_wf _ Hs1))) as Td2. rewrite <- T2 in Td2.
  rewrite (bind_ok _ _ _ _ _ E2).
  assert (HD2 : delivers st s2 d rest) by (by eapply delivers_same).
  pose proof (is_data_fuel s2 Hs2) as HF2. rewrite D2 in HF2.
  destruct (read_alloc_binary_loop_ok (is_fuel s2 + Z.to_nat (bs_size_start st)) st s2 d rest)
    as (st3 & s3 & E3 & HD3 & M3 & Z3 & Td3); [done|lia|].
  rewrite (bind_ok (with_fuel _) _ s2 st3 s3 E3), (bind_ok (gets _) _ s3 _ s3 eq_refl).
  pose proof HD3 as (Hs3 & _). rewrite Td2 in Td3. cbn [app] in Td3.
  pose proof (tmp_data_len _ (tmp_wf _ Hs3)) as Hp3. rewrite Td3 in Hp3. rewrite <- Hp3, Z3.
  replace (_ || _) with true.
  2: { destruct HZ as [-> | ->]; [done|]. by rewrite Z.eqb_refl, orb_true_r. }
  cbn [assertm]. rewrite ret_bind.
  destruct (@binary_end_ok St _ (frame_spec (tmp_buf s3)) st3 s3 rest) as
    (s4 & E4 & [Hs4 T4] & D4 & M4).
  { destruct HD3 as (_ & HR3 & HD3). by split. }
  rewrite (bind_ok _ _ _ _ _ E4), (bind_ok (gets _) _ s4 _ s4 eq_refl).
  rewrite (tmp_buf_content_ok _ (tmp_wf _ Hs4)). cbn [of_option]. rewrite ret_bind.
  change (is_mark s4 = is_mark s3) in M4.
  rewrite T4, Td3. exists s4. rewrite <- Hp3.
  split_and!; [done|done|done|congruence].
Qed.
End alloc_binary.

(** ** Properties *)

(** C30: binary data written in any pieces are read back in any pieces: the text
    on the stream depends only on the data (and on whether the stream carries
    binary data), and pieces that are large enough in all return the data.  In
    the binary encoding the size announced has to be the size of the data. *)
Theorem json_binary_pieces {Out Inp} `{OutputStreamSpec Out} `{InputStreamSpec Inp}
    (ds : list bytes) size lens o :
  os_wf o -> Forall (Forall is_byte) ds -> 0 <= size < 2 ^ 64 ->
  (os_supports_zero_copy o = true -> 0 < size -> size = zlen (mjoin ds)) ->
  Forall (fun n => 0 <= n) lens -> zlen (mjoin ds) <= foldr Z.add 0 lens ->
  exists o', (state ← json_write_binary_start size;
              state ← json_write_binary_chunks state ds;
              json_write_binary_end state) o = (Ok tt, o') /\ os_wf o' /\
    os_data o' = os_data o ++ binary_text (os_supports_zero_copy o) size (mjoin ds) /\
    reads (St := Inp) (state ← json_read_binary_start;
           '(r, state) ← json_read_binary_pieces state lens;
           json_read_binary_end state ;; mret r) (mjoin ds)
      (binary_text (os_supports_zero_copy o) size (mjoin ds)) anything.
Proof.
  intros Ho Hds Hsize Hz Hl Hsum.
  destruct (write_binary_chunks_ok ds size o) as (o' & E & Ho' & D & _); [done..|].
  exists o'. split_and!; [done|done|done|].
  apply (read_binary_pieces_ok _ size (mjoin ds) []); auto.
  clear -Hds. induction Hds; [constructor|rewrite mjoin_cons; auto with bytes].
Qed.

Lemma json_binary_pieces_witness :
  let ds := [[1]; []; [2; 3; 4; 5]; [6]] in
  let o := create_byte_array_output_stream in
  mjoin ds = [1; 2; 3; 4; 5; 6] /\
  exists o', (state ← json_write_binary_start 0;
              state ← json_write_binary_chunks state ds;
              json_write_binary_end state) o = (Ok tt, o') /\ os_wf o' /\
    os_data o' = os_data o ++ binary_text (os_supports_zero_copy o) 0 (mjoin ds) /\
    reads (St := ByteArrayInputStream) (state ← json_read_binary_start;
           '(r, state) ← json_read_binary_pieces state [1; 0; 4; 2];
           json_read_binary_end state ;; mret r) (mjoin ds)
      (binary_text (os_supports_zero_copy o) 0 (mjoin ds)) anything.
Proof.
  destruct create_byte_array_output_stream_ok as [Hw _]. split; [done|].
  apply (json_binary_pieces [[1]; []; [2; 3; 4; 5]; [6]] 0 [1; 0; 4; 2] create_byte_array_output_stream);
    [exact Hw|repeat constructor; done|lia|done|repeat constructor; done|by vm_compute].
Defined.

(** [json_read_alloc_binary] returns what [json_write_binary] wrote, in both
    encodings, in a heap block of the right size. *)
Lemma json_alloc_binary_roundtrip {Out Inp} `{OutputStreamSpec Out} `{JsonTmpBufSpec Inp} d :
  is_bytes d -> zlen d < 2 ^ 64 ->
  roundtrip (Out := Out) (Inp := Inp) (json_write_binary (Some d)) json_read_alloc_binary
    (Some d, zlen d) anything.
Proof.
  intros Hd Hz o Ho. destruct (write_binary_ok d o Ho Hd Hz) as (o' & E & Ho' & D & _).
  exists tt, o', (binary_text (os_supports_zero_copy o) (zlen d) d). split_and!; [done|done|done|].
  pose proof (zlen_nonneg d). by apply (reads_alloc_binary _ _ _ []).
Qed.

Lemma json_alloc_binary_roundtrip_witness :
  roundtrip (Out := ByteArrayOutputStream) (Inp := json_bytes)
    (json_write_binary (Some [0; 255; 7; 8])) json_read_alloc_binary (Some [0; 255; 7; 8], 4) anything.
Proof. apply (json_alloc_binary_roundtrip [0; 255; 7; 8]); [repeat constructor; done|by vm_compute]. Defined.
