(* ===== verification/JsonObject.v ===== *)
(** * Skipping and copying JSON values (framework/json.c, json_skip_object and
    json_read_object)

    [skip_object] reads one value of any kind and keeps its text, without the
    white space around its parts and with binary data turned into BASE64
    strings.  The grammar [value] relates the texts it accepts to the copies
    it makes. *)

From S2P Require Import Prelude Streams Base64 JsonWrite JsonRead JsonReadSpec JsonRoundTrip.
From S2P Require Import JsonTmp JsonBinary.

Definition is_numchar (c : Z) : bool :=
  is_digit c || (c =? #".") || (c =? #"e") || (c =? #"E") || (c =? #"-") || (c =? #"+").

Section skip_object.
Context {St : Type} `{InputStream St} `{JsonTmpBuf St}.

Definition skip_char : M St Z :=
  ch ← read_stream;
  if ch <? 0 then exception ERR_JSON_SYNTAX else tmp_buf_add ch ;; mret ch.

(** [check_char(skip_char(inp), 'u'); ...]. *)
Fixpoint skip_word (l : bytes) : M St unit :=
  match l with
  | [] => mret tt
  | c :: l => ch ← skip_char; check_char ch c ;; skip_word l
  end.

Fixpoint skip_string_loop (fuel : nat) : M St unit :=
  match fuel with
  | O => nofuel
  | S fuel =>
      ch ← read_stream;
      if ch <? 0 then exception ERR_JSON_SYNTAX
      else
        tmp_buf_add ch ;;
        if ch =? 34 then mret tt
        else (if ch =? #"\" then skip_char ;; mret tt else mret tt) ;; skip_string_loop fuel
  end.

Fixpoint skip_number_loop (fuel : nat) : M St unit :=
  match fuel with
  | O => nofuel
  | S fuel =>
      ch ← peek_stream;
      if ((ch <? #"0") || (#"9" <? ch)) && negb (ch =? #".") && negb (ch =? #"e") &&
         negb (ch =? #"E") && negb (ch =? #"-") && negb (ch =? #"+")
      then mret tt
      else skip_char ;; skip_number_loop fuel
  end.

Fixpoint skip_array_loop (skip : M St unit) (fuel : nat) : M St unit :=
  match fuel with
  | O => nofuel
  | S fuel =>
      skip ;;
      skip_whitespace ;;
      ch ← skip_char;
      if ch =? #"," then skip_array_loop skip fuel else check_char ch (#"]")
  end.

Fixpoint skip_members_loop (skip : M St unit) (fuel : nat) : M St unit :=
  match fuel with
  | O => nofuel
  | S fuel =>
      skip ;;
      skip_whitespace ;;
      c ← skip_char; check_char c (#":") ;;
      skip ;;
      skip_whitespace ;;
      ch ← skip_char;
      if ch =? #"," then skip_members_loop skip fuel else check_char ch (#"}")
  end.

(** The size in front of binary data, and the character after its digits. *)
Fixpoint read_size_loop (fuel : nat) (size : Z) : M St (Z * Z) :=
  match fuel with
  | O => nofuel
  | S fuel =>
      ch ← read_stream;
      if (ch <? #"0") || (#"9" <? ch) then mret (size, ch)
      else read_size_loop fuel (u64 (size * 10 + (ch - #"0")))
  end.

(** [for (i = 0; i < size; i++) cbf[i] = (char)read_stream(inp)]. *)
Fixpoint read_bytes (n : nat) : M St bytes :=
  match n with
  | O => mret []
  | S n => ch ← read_stream; l ← read_bytes n; mret (u8 ch :: l)
  end.

(** The BASE64 string of [d], made in a byte array stream. *)
Definition base64_string (d : bytes) : outcome bytes :=
  match (write_stream 34 ;; write_base64 d ;; write_stream 34) create_byte_array_output_stream with
  | (Ok _, out) =>
      match get_byte_array_output_stream_data out with Some (l, _) => Ok l | None => Undef end
  | (Exc e, _) => Exc e
  | (Undef, _) => Undef
  | (NoFuel, _) => NoFuel
  end.

(** [while (tmp_buf_pos + size > tmp_buf_size) realloc_tmp_buf()]. *)
Fixpoint tmp_buf_reserve (fuel : nat) (size : Z) (t : TmpBuf) : option TmpBuf :=
  match fuel with
  | O => None
  | S fuel =>
      if tb_size t <? tb_pos t + size then tmp_buf_reserve fuel size (realloc_tmp_buf t)
      else Some t
  end.

Definition read_binary_block : M St bytes :=
  '(size, ch) ← with_fuel (fun fuel => read_size_loop fuel 0);
  check_char ch (#")") ;;
  read_bytes (Z.to_nat size).

(** The case of an opening parenthesis. *)
Definition skip_binary : M St unit :=
  on_tmp_buf (fun t => tmp_buf_set_pos (tb_pos t - 1) t) ;;
  cbf ← read_binary_block;
  cbf ← (fun s => (base64_string cbf, s));
  try_tmp_buf (tmp_buf_reserve (S (length cbf)) (zlen cbf)) ;;
  try_tmp_buf (tmp_buf_store cbf).

(** [fuel] bounds the depth of the value. *)
Fixpoint skip_object (fuel : nat) : M St unit :=
  match fuel with
  | O => nofuel
  | S fuel =>
      skip_whitespace ;;
      ch ← skip_char;
      if ch =? #"n" then skip_word (str "ull")
      else if ch =? #"f" then skip_word (str "alse")
      else if ch =? #"t" then skip_word (str "rue")
      else if ch =? 34 then with_fuel skip_string_loop
      else if (ch =? #"-") || ((#"0" <=? ch) && (ch <=? #"9")) then with_fuel skip_number_loop
      else if ch =? #"[" then
        p ← json_peek;
        if p =? #"]" then skip_char ;; mret tt
        else with_fuel (skip_array_loop (skip_object fuel))
      else if ch =? #"{" then
        p ← json_peek;
        if p =? #"}" then skip_char ;; mret tt
        else with_fuel (skip_members_loop (skip_object fuel))
      else if ch =? #"(" then skip_binary
      else exception ERR_JSON_SYNTAX
  end.

(** The text of the value, with a terminator. *)
Definition json_read_object : M St bytes :=
  on_tmp_buf (tmp_buf_set_pos 0) ;;
  with_fuel skip_object ;;
  tmp_buf_add 0 ;;
  t ← gets tmp_buf;
  of_option (tmp_buf_content t).

Definition json_skip_object : M St unit :=
  on_tmp_buf (tmp_buf_set_pos 0) ;;
  with_fuel skip_object.
End skip_object.

(** ** The grammar

    [value t n]: [t] is the text of a value and [n] its copy.  The characters
    of a string are left as they are: any escape sequence is one backslash and
    one more character. *)

Inductive raw_chars : bytes -> Prop :=
| raw_nil : raw_chars []
| raw_plain c l : is_byte c -> c <> 34 -> c <> #"\" -> raw_chars l -> raw_chars (c :: l)
| raw_escape c l : is_byte c -> raw_chars l -> raw_chars (#"\" :: c :: l).

Inductive value : bytes -> bytes -> Prop :=
| value_null : value (str "null") (str "null")
| value_false : value (str "false") (str "false")
| value_true : value (str "true") (str "true")
| value_string l : raw_chars l -> value (34 :: l ++ [34]) (34 :: l ++ [34])
| value_number c l : (c =? #"-") || is_digit c = true -> Forall (fun c => is_numchar c = true) l ->
    value (c :: l) (c :: l)
| value_binary ds d : Forall is_digit ds -> dec_value ds = zlen d -> zlen d < 2 ^ 64 ->
    is_bytes d ->
    value (#"(" :: ds ++ #")" :: d) (34 :: base64_text d ++ [34])
| value_array0 ws : spaces ws -> value (#"[" :: ws ++ [#"]"]) (str "[]")
| value_array t n : items t n -> value (#"[" :: t ++ [#"]"]) (#"[" :: n ++ [#"]"])
| value_object0 ws : spaces ws -> value (#"{" :: ws ++ [#"}"]) (str "{}")
| value_object t n : members t n -> value (#"{" :: t ++ [#"}"]) (#"{" :: n ++ [#"}"])
with items : bytes -> bytes -> Prop :=
| items_one w1 t n w2 : spaces w1 -> value t n -> spaces w2 -> items (w1 ++ t ++ w2) n
| items_cons w1 t n w2 ts ns : spaces w1 -> value t n -> spaces w2 -> items ts ns ->
    items (w1 ++ t ++ w2 ++ #"," :: ts) (n ++ #"," :: ns)
with members : bytes -> bytes -> Prop :=
| members_one w1 k kn w2 w3 t n w4 : spaces w1 -> value k kn -> spaces w2 -> spaces w3 ->
    value t n -> spaces w4 ->
    members (w1 ++ k ++ w2 ++ #":" :: w3 ++ t ++ w4) (kn ++ #":" :: n)
| members_cons w1 k kn w2 w3 t n w4 ts ns : spaces w1 -> value k kn -> spaces w2 -> spaces w3 ->
    value t n -> spaces w4 -> members ts ns ->
    members (w1 ++ k ++ w2 ++ #":" :: w3 ++ t ++ w4 ++ #"," :: ts) (kn ++ #":" :: n ++ #"," :: ns).

Scheme value_min := Minimality for value Sort Prop
  with items_min := Minimality for items Sort Prop
  with members_min := Minimality for members Sort Prop.
Combined Scheme value_items_members_ind from value_min, items_min, members_min.

(** ** The reader on the texts of the grammar *)

Definition no_numchar (c : Z) : Prop := is_numchar c = false.

Lemma numchar_cases c : is_numchar c =
  negb (((c <? #"0") || (#"9" <? c)) && negb (c =? #".") && negb (c =? #"e") &&
        negb (c =? #"E") && negb (c =? #"-") && negb (c =? #"+")).
Proof. unfold is_numchar. rewrite digit_cases. by destruct ((c <? _) || _), (c =? #"."), (c =? #"e"), (c =? #"E"), (c =? #"-"), (c =? #"+"). Qed.

Lemma numchar_facts c : is_numchar c = true -> is_byte c.
Proof. unfold is_numchar, is_digit, is_byte. zcases; intros; done || lia. Qed.

Lemma digit_numchar c : is_digit c = true -> is_numchar c = true.
Proof. unfold is_numchar. by intros ->. Qed.

Lemma space_no_numchar c : isspace c = true -> no_numchar c.
Proof. unfold isspace, no_numchar, is_numchar, is_digit. zcases; done || lia. Qed.

Lemma follows_spaces ws c l Q : spaces ws -> no_numchar c -> follows no_numchar (ws ++ c :: l) Q.
Proof.
  intros Hws Hc. destruct Hws as [|w ws Hw Hws]; cbn; [done|]. by apply space_no_numchar.
Qed.

(** Peeking returns the next symbol, whatever it is. *)
Lemma reads_peek_next `{InputStreamSpec St} c : reads peek_stream c [] (eq c).
Proof.
  intros s rest Hs D ->. cbn in D. destruct rest as [|b l].
  - destruct (peek_nil s Hs D) as (s' & ? & ? & ? & ?). by exists s'.
  - destruct (peek_cons s b l Hs D) as (s' & ? & ? & ? & ?). by exists s'.
Qed.

Section sizes.
Context `{InputStreamSpec St}.

Lemma read_size_ok ds : Forall is_digit ds -> forall fuel acc c,
  (length (ds ++ [c]) < fuel)%nat -> is_digit c = false ->
  0 <= acc -> dec_value_from acc ds < 2 ^ 64 ->
  reads (read_size_loop fuel acc) (dec_value_from acc ds, c) (ds ++ [c]) anything.
Proof.
  intros Hds. induction Hds as [|d ds Hd Hds IH]; intros [|fuel] acc c Hf Hc Ha Hv;
    rewrite ?length_app in Hf; simpl in Hf; try lia; cbn [read_size_loop app]; apply reads_byte.
  - rewrite digit_cases in Hc. apply negb_false_iff in Hc. rewrite Hc. apply reads_ret.
  - pose proof (digit_range d Hd). apply Is_true_true in Hd. rewrite digit_cases in Hd.
    apply negb_true_iff in Hd. rewrite Hd.
    cbn in Hv. change (fold_left _ ds ?a) with (dec_value_from a ds) in Hv.
    pose proof (dec_value_from_le ds Hds (acc * 10 + (d - 48)) ltac:(lia)).
    rewrite wrapu_small by lia. apply IH; [rewrite length_app; simpl; lia|done|lia|done].
Qed.

Lemma reads_bytes d : is_bytes d -> reads (read_bytes (length d)) d d anything.
Proof.
  induction 1 as [|c d Hc Hd IH]; cbn [read_bytes length]; [apply reads_ret|].
  apply reads_byte. rewrite u8_byte by done.
  rewrite <- (app_nil_r d) at 3. apply (reads_bind' _ _ d); [exact IH|apply reads_ret].
Qed.
End sizes.

Section skip.
Context `{JsonTmpBufSpec St}.

Lemma appends_skip_char {B} (f : Z -> M St B) b c l d P : is_byte c ->
  appends (f c) b l d P -> appends (skip_char ≫= f) b (c :: l) (c :: d) P.
Proof.
  intros Hc Hf. apply appends_assoc. apply appends_byte.
  rewrite (proj2 (Z.ltb_ge _ _)) by (unfold is_byte in Hc; lia).
  apply appends_assoc. apply (appends_bind' _ _ tt b [] l [c] d); [by apply appends_add|].
  by rewrite ret_bind.
Qed.

Lemma appends_check {B} (f : M St B) b c l d P :
  appends f b l d P -> appends (check_char c c ;; f) b l d P.
Proof. intros Hf. unfold check_char. by rewrite Z.eqb_refl, ret_bind. Qed.

Lemma appends_skip_word l : is_bytes l -> appends (skip_word l) tt l l anything.
Proof.
  induction 1 as [|c l Hc Hl IH]; cbn [skip_word]; [apply appends_ret|].
  apply appends_skip_char; [done|]. by apply appends_check.
Qed.

Lemma appends_skip_ws {B} (f : M St B) b ws c l d P :
  spaces ws -> isspace c = false -> appends f b (c :: l) d P ->
  appends (skip_whitespace ;; f) b (ws ++ c :: l) d P.
Proof. intros Hws Hc Hf. apply appends_assoc. by apply appends_json_peek. Qed.

Lemma appends_skip_string l : raw_chars l -> forall fuel,
  (length (l ++ [34%Z]) < fuel)%nat ->
  appends (skip_string_loop fuel) tt (l ++ [34]) (l ++ [34]) anything.
Proof.
  induction 1 as [|c l Hc H34 H92 Hl IH|c l Hc Hl IH]; intros [|fuel] Hf; try lia;
    cbn [skip_string_loop app]; apply appends_byte.
  - cbn [Z.ltb Z.compare Z.eqb Pos.eqb]. apply (appends_bind' _ _ tt tt [] [] [34] []);
      [by apply appends_add|apply appends_ret].
  - rewrite (proj2 (Z.ltb_ge _ _)) by (unfold is_byte in Hc; lia).
    apply (appends_bind' _ _ tt tt [] _ [c] (l ++ [34])); [by apply appends_add|].
    apply Z.eqb_neq in H34, H92. rewrite H34, H92, ret_bind. apply IH.
    simpl in Hf. lia.
  - cbn [Z.ltb Z.compare Z.eqb Pos.eqb].
    apply (appends_bind' _ _ tt tt [] _ [#"\"] (c :: l ++ [34])); [by apply appends_add|].
    apply appends_assoc. apply appends_skip_char; [done|]. rewrite ret_bind. apply IH.
    simpl in Hf. lia.
Qed.

(** The next symbol, whatever it is. *)
Lemma appends_peek_next {B} (f : Z -> M St B) b l d P :
  (forall c, match l with x :: _ => c = x | [] => P c end -> appends (f c) b l d P) ->
  appends (peek_stream ≫= f) b l d P.
Proof.
  intros Hf s rest Hs D HP.
  set (c := match l ++ rest with x :: _ => x | [] => is_mark s end).
  assert (HA : appends peek_stream c [] [] (eq c)).
  { apply appends_reads. intros t. apply reads_peek_next. }
  destruct (HA s (l ++ rest) Hs D eq_refl) as (s1 & E1 & Hs1 & D1 & M1 & T1 & L1).
  rewrite (bind_ok _ _ _ _ _ E1). rewrite app_nil_r in T1.
  destruct (Hf c) with (s := s1) (rest := rest) as (s2 & E2 & Hs2 & D2 & M2 & T2 & L2);
    [by destruct l|done|done|by rewrite M1|].
  exists s2. rewrite E2, M2, M1, T2, T1, L2, L1. done.
Qed.

Lemma appends_skip_number l : Forall (fun c => is_numchar c = true) l -> forall fuel,
  (length l < fuel)%nat -> appends (skip_number_loop fuel) tt l l no_numchar.
Proof.
  induction 1 as [|c l Hc Hl IH]; intros [|fuel] Hf; simpl in Hf; try lia;
    cbn [skip_number_loop]; apply appends_peek_next; intros c' Hc'.
  - unfold no_numchar in Hc'. rewrite numchar_cases in Hc'. apply negb_false_iff in Hc'.
    rewrite Hc'. apply appends_ret.
  - subst c'. pose proof Hc as Hc'. rewrite numchar_cases in Hc'. apply negb_true_iff in Hc'.
    rewrite Hc'. apply appends_skip_char; [by apply numchar_facts|]. apply IH. lia.
Qed.

(** ** Binary data *)

Lemma base64_string_ok d : is_bytes d -> base64_string d = Ok (34 :: base64_text d ++ [34]).
Proof.
  intros Hd. unfold base64_string.
  assert (HW : writes (St := ByteArrayOutputStream) (write_stream 34 ;; write_base64 d ;; write_stream 34)
    tt (34 :: base64_text d ++ [34])).
  { apply (writes_seq _ _ tt tt [34]); [by apply writes_byte|].
    eapply writes_seq; [by apply writes_base64|by apply writes_byte]. }
  destruct create_byte_array_output_stream_ok as [Hw Hd0].
  destruct (HW _ Hw) as (s & -> & Hs & Hsd & _).
  destruct (get_byte_array_output_stream_data_ok s Hs) as (s' & -> & _). cbv in Hd0.
  change (os_data s) with (ba_data s) in Hsd. rewrite Hsd. done.
Qed.

Lemma tmp_buf_reserve_ok size fuel : forall t, tmp_ok t -> 0 <= size ->
  tb_pos t + size - tb_size t < Z.of_nat fuel -> (0 < fuel)%nat ->
  exists t', tmp_buf_reserve fuel size t = Some t' /\ tmp_ok t' /\ tmp_data t' = tmp_data t /\
    tb_pos t' + size <= tb_size t' /\ tb_len_buf t' = tb_len_buf t.
Proof.
  induction fuel as [|fuel IH]; intros t Ht Hsz Hf Hf0; [lia|]. cbn [tmp_buf_reserve].
  destruct (Z.ltb_spec (tb_size t) (tb_pos t + size)) as [Hlt|Hge]; [|by exists t].
  destruct (realloc_tmp_buf_ok t Ht) as (Ht' & Hd & Hp & _ & HL & Hs).
  unfold MEM_HEAP_LINK_SIZE in Hs.
  destruct (IH (realloc_tmp_buf t) Ht' Hsz) as (t' & -> & Ht2 & Hd2 & Hp2 & HL2); [lia|lia|].
  exists t'. rewrite Hd2, HL2. done.
Qed.

(** The parenthesis that has been copied is replaced by the BASE64 text. *)
Lemma skip_binary_ok ds d s rest pre :
  Forall is_digit ds -> dec_value ds = zlen d -> zlen d < 2 ^ 64 -> is_bytes d ->
  is_wf s -> is_data s = ds ++ #")" :: d ++ rest -> tmp_data (tmp_buf s) = pre ++ [#"("] ->
  exists s', skip_binary s = (Ok tt, s') /\ is_wf s' /\ is_data s' = rest /\
    is_mark s' = is_mark s /\ tmp_data (tmp_buf s') = pre ++ (34 :: base64_text d ++ [34]) /\
    tb_len_buf (tmp_buf s') = tb_len_buf (tmp_buf s).
Proof.
  intros Hds Hv Hz Hd Hs D T. unfold skip_binary.
  pose proof (tmp_wf s Hs) as Ht. pose proof (tmp_data_len _ Ht) as HL. rewrite T, zlen_app in HL.
  change (zlen [#"("]) with 1 in HL. pose proof (zlen_nonneg pre).
  set (back := fun t => tmp_buf_set_pos (tb_pos t - 1) t).
  assert (Hback : tmp_ok (back (tmp_buf s)) /\ tmp_data (back (tmp_buf s)) = pre /\
    is_Some (tb_buf (tmp_buf s))).
  { subst back. revert Ht T. unfold tmp_ok, tmp_data, tmp_buf_set_pos. cbn.
    destruct (tb_buf (tmp_buf s)) as [m|]; [|by intros _ [_ [=]]%eq_sym%app_eq_nil].
    intros [Hb ?] T. split_and!; try lia; try done.
    rewrite <- (ztake_ztake _ (tb_pos (tmp_buf s))), T by lia. apply ztake_app_exact. lia. }
  destruct Hback as (Hb1 & Hb2 & Hb3).
  destruct (on_tmp_ok back s Hs Hb1) as (s0 & E0 & Hs0 & D0 & M0 & T0).
  rewrite (bind_ok _ _ _ _ _ E0).
  assert (HA : appends read_binary_block d (ds ++ #")" :: d) [] anything).
  { apply appends_reads. intros t.
    replace (ds ++ #")" :: d) with ((ds ++ [#")"]) ++ d) by (by rewrite <- app_assoc).
    eapply reads_bind'.
    - apply reads_with_fuel. intros fuel HF. apply read_size_ok; [done|done|done|lia|].
      unfold dec_value in Hv. lia.
    - cbv beta iota. change (dec_value_from 0 ds) with (dec_value ds). rewrite Hv.
      change (check_char (#")") (#")")) with (mret (M := M St) tt). rewrite ret_bind.
      unfold zlen. rewrite Nat2Z.id. by apply reads_bytes. }
  destruct (HA s0 rest Hs0) as (s1 & E1 & Hs1 & D1 & M1 & T1 & L1);
    [by rewrite D0, D, <- app_assoc|done|].
  rewrite app_nil_r, T0, Hb2 in T1. rewrite (bind_ok _ _ _ _ _ E1).
  rewrite base64_string_ok by done.
  rewrite (bind_ok (fun s => (Ok _, s)) _ s1 _ s1 eq_refl).
  set (cbf := 34 :: base64_text d ++ [34]).
  pose proof (tmp_wf _ Hs1) as Ht1. pose proof (tmp_data_len _ Ht1) as Hp1.
  destruct (tmp_buf_reserve_ok (zlen cbf) (S (length cbf)) (tmp_buf s1)) as (t2 & E2 & Ht2 & Td2 & Hr2 & L2);
    [done|apply zlen_nonneg| |lia|].
  { destruct Ht1 as [Hb _]. unfold zlen. destruct (tb_buf (tmp_buf s1)); lia. }
  destruct (set_tmp s1 t2 Hs1 Ht2) as (Hs2 & D2 & M2 & T2).
  assert (E2' : try_tmp_buf (tmp_buf_reserve (S (length cbf)) (zlen cbf)) s1 = (Ok tt, set_tmp_buf t2 s1)).
  { unfold try_tmp_buf. by rewrite E2. }
  rewrite (bind_ok _ _ _ _ _ E2').
  assert (HS2 : is_Some (tb_buf t2)).
  { pose proof (tmp_data_len _ Ht2). destruct Ht2 as [Hb _]. destruct (tb_buf t2); [done|].
    unfold cbf in Hr2. pose proof (zlen_nonneg (base64_text d ++ [34])). zlia. }
  destruct (tmp_buf_store_ok t2 cbf Ht2 HS2 Hr2) as (t3 & E3 & Ht3 & Td3 & _ & L3 & _).
  destruct (set_tmp (set_tmp_buf t2 s1) t3 Hs2 Ht3) as (Hs3 & D3 & M3 & T3).
  exists (set_tmp_buf t3 (set_tmp_buf t2 s1)). unfold try_tmp_buf at 1. rewrite T2, E3.
  split_and!; [done|done|congruence|congruence| |].
  - by rewrite T3, Td3, Td2, T1.
  - rewrite T3, L3, L2, L1, T0. done.
Qed.

(** ** Values *)

Definition good_head (stop : Z) (t : bytes) : Prop :=
  exists c l, t = c :: l /\ isspace c = false /\ (c =? stop) = false.

Lemma value_head t n : value t n -> good_head (#"]") t /\ good_head (#"}") t.
Proof.
  assert (HG : forall c l, isspace c = false -> (c =? #"]") = false -> (c =? #"}") = false ->
    good_head (#"]") (c :: l) /\ good_head (#"}") (c :: l)).
  { intros c l ? ? ?. split; by exists c, l. }
  destruct 1 as [| | | |c l Hc _| | | | |]; try by apply HG.
  apply HG; revert Hc; unfold is_digit, isspace; zcases; done.
Qed.

Lemma good_head_app stop t k : good_head stop t -> good_head stop (t ++ k).
Proof. intros (c & l & -> & ?). by exists c, (l ++ k). Qed.

Definition value_ok (t n : bytes) : Prop := forall fuel ws,
  spaces ws -> (length t < fuel)%nat -> appends (skip_object fuel) tt (ws ++ t) n no_numchar.

(** [loop] is the loop over the elements, [stop] the character that ends it. *)
Definition elements_ok (loop : M St unit -> nat -> M St unit) (stop : Z) (t n : bytes) : Prop :=
  exists w r, t = w ++ r /\ spaces w /\ good_head stop r /\ forall w' fuel k,
    spaces w' -> (length r < fuel)%nat -> (length r < k)%nat ->
    appends (loop (skip_object fuel) k) tt (w' ++ r ++ [stop]) (n ++ [stop]) anything.

(** A value in front of white space and a separator. *)
Lemma value_step {B} (f : M St B) b w1 t n w2 c l d P fuel :
  value_ok t n -> spaces w1 -> spaces w2 -> (length t < fuel)%nat ->
  isspace c = false -> no_numchar c ->
  appends f b (c :: l) d P ->
  appends (skip_object fuel ;; skip_whitespace ;; f) b (w1 ++ t ++ w2 ++ c :: l) (n ++ d) P.
Proof.
  intros Hv Hw1 Hw2 Hl Hc Hn Hf.
  replace (w1 ++ t ++ w2 ++ c :: l) with ((w1 ++ t) ++ w2 ++ c :: l) by (by rewrite <- app_assoc).
  eapply appends_bind; [by apply Hv|by apply appends_skip_ws|by apply follows_spaces].
Qed.

Lemma array_step w1 t n w2 c l d fuel k :
  value_ok t n -> spaces w1 -> spaces w2 -> (length t < fuel)%nat ->
  is_byte c -> isspace c = false -> no_numchar c ->
  appends (if c =? #"," then skip_array_loop (skip_object fuel) k else check_char c (#"]")) tt l d anything ->
  appends (skip_array_loop (skip_object fuel) (S k)) tt (w1 ++ t ++ w2 ++ c :: l) (n ++ c :: d) anything.
Proof. intros. cbn [skip_array_loop]. apply value_step; auto. by apply appends_skip_char. Qed.

Lemma members_step w1 kt kn w2 w3 t n w4 c l d fuel k :
  value_ok kt kn -> value_ok t n -> spaces w1 -> spaces w2 -> spaces w3 -> spaces w4 ->
  (length kt < fuel)%nat -> (length t < fuel)%nat ->
  is_byte c -> isspace c = false -> no_numchar c ->
  appends (if c =? #"," then skip_members_loop (skip_object fuel) k else check_char c (#"}")) tt l d anything ->
  appends (skip_members_loop (skip_object fuel) (S k)) tt
    (w1 ++ kt ++ w2 ++ #":" :: w3 ++ t ++ w4 ++ c :: l) (kn ++ #":" :: n ++ c :: d) anything.
Proof.
  intros. cbn [skip_members_loop]. apply value_step; auto; [done|].
  apply appends_skip_char; [done|]. apply appends_check. apply value_step; auto.
  by apply appends_skip_char.
Qed.

Lemma appends_stop c : appends (check_char c c) tt [] [] anything.
Proof. unfold check_char. rewrite Z.eqb_refl. apply appends_ret. Qed.

(** The frame of arrays and objects. *)
Lemma appends_elements loop stop t n fuel :
  is_byte stop -> isspace stop = false -> elements_ok loop stop t n -> (length t < fuel)%nat ->
  appends (p ← json_peek; if p =? stop then skip_char ;; mret tt else with_fuel (loop (skip_object fuel)))
    tt (t ++ [stop]) (n ++ [stop]) anything.
Proof.
  intros Hb Hs (w & r & -> & Hw & (c & l & Er & Hc & Hst) & HL) Hl.
  rewrite length_app in Hl. rewrite <- app_assoc, Er. cbn [app].
  apply appends_json_peek; [done|done|]. rewrite Hst. apply appends_with_fuel. intros k Hk.
  change (c :: l ++ [stop]) with ([] ++ (c :: l) ++ [stop]) in *. rewrite <- Er in *.
  cbn [app] in Hk. rewrite length_app in Hk. apply HL; [done|lia|lia].
Qed.

Lemma appends_no_elements stop ws (loop : nat -> M St unit) :
  is_byte stop -> isspace stop = false -> spaces ws ->
  appends (p ← json_peek; if p =? stop then skip_char ;; mret tt else with_fuel loop)
    tt (ws ++ [stop]) [stop] anything.
Proof.
  intros Hb Hs Hws. apply appends_json_peek; [done|done|]. rewrite Z.eqb_refl.
  apply appends_skip_char; [done|]. apply appends_ret.
Qed.

Lemma appends_eta {A} (m : M St A) a l d P : appends (m ≫= mret) a l d P -> appends m a l d P.
Proof. intros Hm s rest Hs D HP. rewrite <- bind_ret. by apply Hm. Qed.

(** [appends] weakens what has to follow. *)
Lemma appends_any {A} (m : M St A) a l d P : appends m a l d anything -> appends m a l d P.
Proof. intros Hm s rest Hs D _. by apply Hm. Qed.

Lemma skip_binary_value ds d fuel ws :
  Forall is_digit ds -> dec_value ds = zlen d -> zlen d < 2 ^ 64 -> is_bytes d -> spaces ws ->
  appends (skip_object (S fuel)) tt (ws ++ #"(" :: ds ++ #")" :: d)
    (34 :: base64_text d ++ [34]) anything.
Proof.
  intros Hds Hv Hz Hd Hws s rest Hs D _. cbn [skip_object].
  assert (HA : appends (skip_whitespace ;; skip_char) (#"(") (ws ++ [#"("]) [#"("] anything).
  { apply appends_skip_ws; [done|done|]. apply appends_eta.
    apply (appends_skip_char mret (#"(") (#"(") [] [] anything); [done|apply appends_ret]. }
  replace ((ws ++ #"(" :: ds ++ #")" :: d) ++ rest) with ((ws ++ [#"("]) ++ ds ++ #")" :: d ++ rest) in D
    by (rewrite <- !app_assoc; cbn; rewrite <- app_assoc; done).
  destruct (HA s _ Hs D I) as (s1 & E1 & Hs1 & D1 & M1 & T1 & L1).
  rewrite <- bind_assoc, (bind_ok _ _ _ _ _ E1). cbn [Z.eqb Pos.eqb Z.leb Z.compare Pos.compare Pos.compare_cont andb orb].
  destruct (skip_binary_ok ds d s1 rest (tmp_data (tmp_buf s))) as
    (s2 & E2 & Hs2 & D2 & M2 & T2 & L2); [done..|].
  exists s2. rewrite E2, M2, T2, L2. by split_and!.
Qed.

Lemma value_ok_simple t n c l body :
  t = c :: l -> n = c :: body -> is_byte c -> isspace c = false ->
  (forall fuel, (length l < S fuel)%nat ->
     appends (if c =? #"n" then skip_word (str "ull")
      else if c =? #"f" then skip_word (str "alse")
      else if c =? #"t" then skip_word (str "rue")
      else if c =? 34 then with_fuel skip_string_loop
      else if (c =? #"-") || ((#"0" <=? c) && (c <=? #"9")) then with_fuel skip_number_loop
      else if c =? #"[" then
        p ← json_peek;
        if p =? #"]" then skip_char ;; mret tt
        else with_fuel (skip_array_loop (skip_object fuel))
      else if c =? #"{" then
        p ← json_peek;
        if p =? #"}" then skip_char ;; mret tt
        else with_fuel (skip_members_loop (skip_object fuel))
      else if c =? #"(" then skip_binary
      else exception ERR_JSON_SYNTAX) tt l body no_numchar) ->
  value_ok t n.
Proof.
  intros -> -> Hc Hsp Hb [|fuel] ws Hws Hl; [lia|]. cbn [skip_object].
  apply appends_skip_ws; [done|done|]. apply appends_skip_char; [done|].
  apply Hb. simpl in Hl. lia.
Qed.

Lemma number_ok c l : (c =? #"-") || is_digit c = true ->
  Forall (fun c => is_numchar c = true) l -> value_ok (c :: l) (c :: l).
Proof.
  intros Hc Hl.
  assert (Hcc : c = 45 \/ 48 <= c <= 57) by (revert Hc; unfold is_digit; zcases; lia).
  eapply value_ok_simple; [done|done|unfold is_byte; lia|unfold isspace; zcases; done|].
  intros fuel _. replace (_ || _) with true.
  replace (c =? #"n") with false by (symmetry; apply Z.eqb_neq; lia).
  replace (c =? #"f") with false by (symmetry; apply Z.eqb_neq; lia).
  replace (c =? #"t") with false by (symmetry; apply Z.eqb_neq; lia).
  replace (c =? 34) with false by (symmetry; apply Z.eqb_neq; lia).
  apply appends_with_fuel. intros k Hk. by apply appends_skip_number.
Qed.

Lemma word_ok c w : solid (c :: w) -> is_bytes (c :: w) ->
  c :: w = str "null" \/ c :: w = str "false" \/ c :: w = str "true" -> value_ok (c :: w) (c :: w).
Proof.
  intros Hs Hb Hc. apply Forall_cons in Hs as [? ?], Hb as [? ?].
  eapply value_ok_simple; [done..|]. intros fuel _.
  destruct Hc as [E|[E|E]]; injection E as -> ->; by apply appends_any, appends_skip_word.
Qed.

(** The compound values, from what holds of their elements. *)
Lemma array_ok t n : elements_ok skip_array_loop (#"]") t n ->
  value_ok (#"[" :: t ++ [#"]"]) (#"[" :: n ++ [#"]"]).
Proof.
  intros Hi. eapply value_ok_simple; [done..|]. intros fuel Hf. apply appends_any.
  apply appends_elements; [done|done|done|]. rewrite length_app in Hf. simpl in Hf. lia.
Qed.

Lemma object_ok t n : elements_ok skip_members_loop (#"}") t n ->
  value_ok (#"{" :: t ++ [#"}"]) (#"{" :: n ++ [#"}"]).
Proof.
  intros Hi. eapply value_ok_simple; [done..|]. intros fuel Hf. apply appends_any.
  apply appends_elements; [done|done|done|]. rewrite length_app in Hf. simpl in Hf. lia.
Qed.

Lemma empty_ok (b : bool) ws : spaces ws ->
  value_ok (if b then #"[" :: ws ++ [#"]"] else #"{" :: ws ++ [#"}"])
           (if b then str "[]" else str "{}").
Proof.
  intros Hws. destruct b; (eapply value_ok_simple; [done..|]); intros fuel _;
    by apply appends_any, appends_no_elements.
Qed.

(** Concatenations in right associated form, their lengths as sums. *)
Ltac norm_app := repeat (rewrite <- !app_assoc; cbn [app]).
Ltac norm_len := repeat (rewrite !length_app in *; simpl in *).

(** The list of elements starts with its first value. *)
Lemma elements_intro loop stop w1 t r ts n : spaces w1 -> good_head stop t -> ts = w1 ++ t ++ r ->
  (forall w' fuel k, spaces w' -> (length (t ++ r) < fuel)%nat -> (length (t ++ r) < S k)%nat ->
    appends (loop (skip_object fuel) (S k)) tt (w' ++ (t ++ r) ++ [stop]) (n ++ [stop]) anything) ->
  elements_ok loop stop ts n.
Proof.
  intros Hw1 Hg -> HL. exists w1, (t ++ r). split_and!; [done|done|by apply good_head_app|].
  intros w' fuel [|k] Hw' Hf Hk; [lia|]. by apply HL.
Qed.

Lemma items_one_ok w1 t n w2 : spaces w1 -> value t n -> value_ok t n -> spaces w2 ->
  elements_ok skip_array_loop (#"]") (w1 ++ t ++ w2) n.
Proof.
  intros Hw1 Hval Hv Hw2. eapply (elements_intro _ _ w1 t); [done|by eapply value_head|done|].
  intros w' fuel k Hw' Hf Hk. norm_len. norm_app.
  apply array_step; auto; try done; [lia|]. apply appends_stop.
Qed.

Lemma items_cons_ok w1 t n w2 ts ns : spaces w1 -> value t n -> value_ok t n -> spaces w2 ->
  elements_ok skip_array_loop (#"]") ts ns ->
  elements_ok skip_array_loop (#"]") (w1 ++ t ++ w2 ++ #"," :: ts) (n ++ #"," :: ns).
Proof.
  intros Hw1 Hval Hv Hw2 (w & r & -> & Hw & Hg & HL).
  eapply (elements_intro _ _ w1 t); [done|by eapply value_head|done|].
  intros w' fuel k Hw' Hf Hk. norm_len. norm_app.
  apply array_step; auto; try done; [lia|]. apply HL; [done|lia|lia].
Qed.

Lemma members_one_ok w1 kt kn w2 w3 t n w4 : spaces w1 -> value kt kn -> value_ok kt kn ->
  spaces w2 -> spaces w3 -> value_ok t n -> spaces w4 ->
  elements_ok skip_members_loop (#"}") (w1 ++ kt ++ w2 ++ #":" :: w3 ++ t ++ w4) (kn ++ #":" :: n).
Proof.
  intros Hw1 Hval Hk Hw2 Hw3 Hv Hw4. eapply (elements_intro _ _ w1 kt); [done|by eapply value_head|done|].
  intros w' fuel k Hw' Hf Hk'. norm_len. norm_app.
  apply members_step; auto; try done; [lia|lia|]. apply appends_stop.
Qed.

Lemma members_cons_ok w1 kt kn w2 w3 t n w4 ts ns : spaces w1 -> value kt kn -> value_ok kt kn ->
  spaces w2 -> spaces w3 -> value_ok t n -> spaces w4 ->
  elements_ok skip_members_loop (#"}") ts ns ->
  elements_ok skip_members_loop (#"}")
    (w1 ++ kt ++ w2 ++ #":" :: w3 ++ t ++ w4 ++ #"," :: ts) (kn ++ #":" :: n ++ #"," :: ns).
Proof.
  intros Hw1 Hval Hk Hw2 Hw3 Hv Hw4 (w & r & -> & Hw & Hg & HL).
  eapply (elements_intro _ _ w1 kt); [done|by eapply value_head|done|].
  intros w' fuel k Hw' Hf Hk'. norm_len. norm_app.
  apply members_step; auto; try done; [lia|lia|]. apply HL; [done|lia|lia].
Qed.

Lemma value_all :
  (forall t n, value t n -> value_ok t n) /\
  (forall t n, items t n -> elements_ok skip_array_loop (#"]") t n) /\
  (forall t n, members t n -> elements_ok skip_members_loop (#"}") t n).
Proof.
  apply value_items_members_ind with (P := value_ok)
    (P0 := elements_ok skip_array_loop (#"]")) (P1 := elements_ok skip_members_loop (#"}"));
    eauto using array_ok, object_ok, number_ok, items_one_ok, items_cons_ok,
      members_one_ok, members_cons_ok.
  - apply word_ok; [by repeat constructor..|auto].
  - apply word_ok; [by repeat constructor..|auto].
  - apply word_ok; [by repeat constructor..|auto].
  - intros l Hl. eapply value_ok_simple; [done..|]. intros fuel _.
    apply appends_any, appends_with_fuel. intros k Hk. by apply appends_skip_string.
  - intros ds d Hds Hv Hz Hd [|fuel] ws Hws Hf; [lia|]. by apply appends_any, skip_binary_value.
  - apply (empty_ok true).
  - apply (empty_ok false).
Qed.

(** [json_read_object] consumes one value and returns its copy. *)
Lemma reads_object t n ws : value t n -> spaces ws ->
  reads json_read_object (n ++ [0]) (ws ++ t) no_numchar.
Proof.
  intros Hv Hws s rest Hs D HP. unfold json_read_object.
  destruct (on_tmp_ok (tmp_buf_set_pos 0) s Hs) as (s0 & E0 & Hs0 & D0 & M0 & T0);
    [apply tmp_buf_set_pos_ok, tmp_wf, Hs|].
  pose proof (proj2 (tmp_buf_set_pos_ok _ (tmp_wf _ Hs))) as Td. rewrite <- T0 in Td.
  rewrite (bind_ok _ _ _ _ _ E0). rewrite <- D0 in D. rewrite <- M0 in HP.
  assert (HA : appends (with_fuel skip_object) tt (ws ++ t) n no_numchar).
  { apply appends_with_fuel. intros fuel Hf. rewrite length_app in Hf.
    apply value_all; [done|done|lia]. }
  destruct (HA s0 rest Hs0 D HP) as (s1 & E1 & Hs1 & D1 & M1 & T1 & _).
  destruct (appends_add 0 bytes_0 s1 rest Hs1 D1 I) as (s2 & E2 & Hs2 & D2 & M2 & T2 & _).
  rewrite (bind_ok _ _ _ _ _ E1), (bind_ok _ _ _ _ _ E2), (bind_ok (gets _) _ s2 _ s2 eq_refl).
  rewrite (tmp_buf_content_ok _ (tmp_wf _ Hs2)), T2, T1, Td. exists s2.
  split_and!; [done|done|done|congruence].
Qed.
End skip.

(** ** Properties *)

(** C29: [json_read_object] accepts every JSON value, with white space between
    any of its parts and with binary data in it: it consumes the value and
    nothing else, and returns its text without the white space and with binary
    data as BASE64 strings.  Nesting is bounded only by the input. *)
Theorem json_object_copied `{JsonTmpBufSpec St} t n ws : value t n -> spaces ws ->
  reads json_read_object (n ++ [0]) (ws ++ t) no_numchar.
Proof. apply reads_object. Qed.

Lemma json_object_copied_witness :
  reads (St := json_bytes) json_read_object
    (str "[1,{" ++ [34; 34] ++ str ":[]},-2.5e3," ++ [34] ++ str "AQID" ++ [34] ++ str "]" ++ [0])
    (str " [ 1 ,{" ++ [34; 34] ++ str " : [ ]} , -2.5e3,(3)" ++ [1; 2; 3] ++ str "]") no_numchar.
Proof.
  apply (json_object_copied
    (str "[ 1 ,{" ++ [34; 34] ++ str " : [ ]} , -2.5e3,(3)" ++ [1; 2; 3] ++ str "]")
    (str "[1,{" ++ [34; 34] ++ str ":[]},-2.5e3," ++ [34] ++ str "AQID" ++ [34] ++ str "]") (str " "));
    [|repeat constructor].
  apply (value_array (str " 1 ,{" ++ [34; 34] ++ str " : [ ]} , -2.5e3,(3)" ++ [1; 2; 3])
    (str "1,{" ++ [34; 34] ++ str ":[]},-2.5e3," ++ [34] ++ str "AQID" ++ [34])).
  apply (items_cons (str " ") (str "1") (str "1") (str " ")
    (str "{" ++ [34; 34] ++ str " : [ ]} , -2.5e3,(3)" ++ [1; 2; 3]));
    [repeat constructor|by repeat constructor|repeat constructor|].
  apply (items_cons [] (str "{" ++ [34; 34] ++ str " : [ ]}") (str "{" ++ [34; 34] ++ str ":[]}") (str " ")
    (str " -2.5e3,(3)" ++ [1; 2; 3])); [repeat constructor| |repeat constructor|].
  { apply (value_object ([34; 34] ++ str " : [ ]") ([34; 34] ++ str ":[]")).
    apply (members_one [] [34; 34] [34; 34] (str " ") (str " ") (str "[ ]") (str "[]") []);
      try (repeat constructor; done).
    - apply (value_string []). constructor.
    - apply (value_array0 (str " ")). repeat constructor. }
  apply (items_cons (str " ") (str "-2.5e3") (str "-2.5e3") [] (str "(3)" ++ [1; 2; 3]));
    [repeat constructor|by repeat constructor|repeat constructor|].
  apply (items_one [] (str "(3)" ++ [1; 2; 3]) ([34] ++ str "AQID" ++ [34]) []);
    [repeat constructor| |repeat constructor].
  apply (value_binary (str "3") [1; 2; 3]); [repeat constructor|done|by vm_compute|repeat constructor; done].
Defined.
