(* ===== verification/OutputBuf.v ===== *)
(** * Output queue (framework/outputbuf.c)

    The queue of buffers between a channel and the asynchronous write requests
    on its socket, and the pool of free buffers.  The first buffer of the queue
    belongs to the request in progress; new data go to the last buffer, unless
    that is the first one.  Specification: a FIFO of bytes ([queue_data]), whose
    front is taken by completed requests. *)

From S2P Require Import Prelude Streams.

Definition MEM_USAGE_FACTOR : Z := 128.
Definition OUTPUT_QUEUE_BUF_SIZE : Z := 128 * MEM_USAGE_FACTOR.
Definition MAX_POOL_SIZE : Z := 32.

Record OutputBuffer := { ob_buf : bytes; ob_len : Z; ob_pos : Z }.

(** [oq_queue] is the linked list, [oq_request] the data of the write request
    that [post_io_request] has posted and that is not done yet; [oq_pool] is the
    pool, a static variable of the file. *)
Record OutputQueue := {
  oq_error : Z;
  oq_queue : list OutputBuffer;
  oq_request : option bytes;
  oq_pool : list OutputBuffer;
  oq_pool_size : Z;
}.

Definition output_queue_ini (pool : list OutputBuffer) : OutputQueue :=
  {| oq_error := 0; oq_queue := []; oq_request := None; oq_pool := pool;
     oq_pool_size := zlen pool |}.

Definition set_queue (l : list OutputBuffer) (q : OutputQueue) : OutputQueue :=
  {| oq_error := oq_error q; oq_queue := l; oq_request := oq_request q;
     oq_pool := oq_pool q; oq_pool_size := oq_pool_size q |}.
Definition set_error (e : Z) (q : OutputQueue) : OutputQueue :=
  {| oq_error := e; oq_queue := oq_queue q; oq_request := oq_request q;
     oq_pool := oq_pool q; oq_pool_size := oq_pool_size q |}.
Definition set_request (r : option bytes) (q : OutputQueue) : OutputQueue :=
  {| oq_error := oq_error q; oq_queue := oq_queue q; oq_request := r;
     oq_pool := oq_pool q; oq_pool_size := oq_pool_size q |}.
Definition set_pool (p : list OutputBuffer) (n : Z) (q : OutputQueue) : OutputQueue :=
  {| oq_error := oq_error q; oq_queue := oq_queue q; oq_request := oq_request q;
     oq_pool := p; oq_pool_size := n |}.

(** The bytes of a buffer that have not been sent. *)
Definition ob_data (bf : OutputBuffer) : bytes :=
  zdrop (ob_pos bf) (ztake (ob_len bf) (ob_buf bf)).

(** A fresh buffer is zeroed, one of the pool keeps its old content. *)
Definition output_queue_alloc_obuf : M OutputQueue OutputBuffer := fun q =>
  match oq_pool q with
  | [] => (Ok {| ob_buf := alloc OUTPUT_QUEUE_BUF_SIZE; ob_len := 0; ob_pos := 0 |}, q)
  | bf :: pool =>
      (Ok {| ob_buf := ob_buf bf; ob_len := 0; ob_pos := 0 |}, set_pool pool (oq_pool_size q - 1) q)
  end.

Definition output_queue_free_obuf (bf : OutputBuffer) : M OutputQueue unit := fun q =>
  if oq_pool_size q <? MAX_POOL_SIZE
  then (Ok tt, set_pool (oq_pool q ++ [bf]) (oq_pool_size q + 1) q)
  else (Ok tt, q).

(** [q->post_io_request(bf)]: a request to write the unsent data of [bf]. *)
Definition post_io_request (bf : OutputBuffer) : M OutputQueue unit :=
  modify (set_request (Some (ob_data bf))).

(** [list_add_last(&bf->link, &q->queue); if (q->queue.next == &bf->link) post]. *)
Definition queue_append (bf : OutputBuffer) : M OutputQueue unit := fun q =>
  let q' := set_queue (oq_queue q ++ [bf]) q in
  match oq_queue q with
  | [] => post_io_request bf q'
  | _ => (Ok tt, q')
  end.

(** [link2buf(q->queue.prev)] and the queue without it. *)
Fixpoint split_last {A} (x : A) (l : list A) : list A * A :=
  match l with
  | [] => ([], x)
  | y :: l => let '(i, z) := split_last y l in (x :: i, z)
  end.

(** [memcpy(bp->buf + bp->buf_len, src, n); bp->buf_len += n]. *)
Definition buf_append (bp : OutputBuffer) (src : bytes) : option OutputBuffer :=
  m ← mem_write (ob_buf bp) (ob_len bp) src;
  Some {| ob_buf := m; ob_len := ob_len bp + zlen src; ob_pos := ob_pos bp |}.

Definition output_queue_add_obuf (bf : OutputBuffer) : M OutputQueue unit := fun q =>
  let add := queue_append {| ob_buf := ob_buf bf; ob_len := ob_len bf; ob_pos := 0 |} in
  match oq_queue q with
  | b1 :: b2 :: l =>
      let '(init, bp) := split_last b2 l in
      let gap := OUTPUT_QUEUE_BUF_SIZE - ob_len bp in
      (assertm (ob_pos bp =? 0) ;;
       if ob_len bf <=? gap then
         src ← of_option (mem_read (ob_buf bf) 0 (ob_len bf));
         bp ← of_option (buf_append bp src);
         modify (set_queue (b1 :: init ++ [bp])) ;;
         output_queue_free_obuf bf
       else add) q
  | _ => add q
  end.

Fixpoint queue_add_loop (fuel : nat) (buf : bytes) : M OutputQueue unit :=
  match fuel with
  | O => nofuel
  | S fuel =>
      let size := zlen buf in
      if 0 <? size then
        bf ← output_queue_alloc_obuf;
        let len := if OUTPUT_QUEUE_BUF_SIZE <? size then OUTPUT_QUEUE_BUF_SIZE else size in
        m ← of_option (mem_write (ob_buf bf) 0 (ztake len buf));
        queue_append {| ob_buf := m; ob_len := len; ob_pos := 0 |} ;;
        queue_add_loop fuel (zdrop len buf)
      else mret tt
  end.

Definition output_queue_add (buf : bytes) : M OutputQueue unit := fun q =>
  if negb (oq_error q =? 0) then (Ok tt, q)
  else
    (buf ←
       match oq_queue q with
       | b1 :: b2 :: l =>
           let '(init, bp) := split_last b2 l in
           let gap := OUTPUT_QUEUE_BUF_SIZE - ob_len bp in
           assertm (ob_pos bp =? 0) ;;
           (if 0 <? gap then
             let len := if gap <? zlen buf then gap else zlen buf in
             bp ← of_option (buf_append bp (ztake len buf));
             modify (set_queue (b1 :: init ++ [bp])) ;;
             mret (zdrop len buf)
           else mret buf)
       | _ => mret buf
       end;
     queue_add_loop (S (length buf)) buf) q.

Fixpoint output_queue_clear_loop (l : list OutputBuffer) : M OutputQueue unit :=
  match l with
  | [] => mret tt
  | bf :: l =>
      modify (set_queue l) ;;
      output_queue_free_obuf bf ;;
      output_queue_clear_loop l
  end.

Definition output_queue_clear : M OutputQueue unit :=
  l ← gets oq_queue; output_queue_clear_loop l.

(** The request in progress is done: [size] bytes have been written, or it
    failed with [error]. *)
Definition output_queue_done (error size : Z) : M OutputQueue unit :=
  modify (set_request None) ;;
  l ← gets oq_queue;
  match l with
  | [] => undef
  | bf :: l =>
      e ← gets oq_error;
      assertm (e =? 0) ;;
      (if negb (error =? 0) then modify (set_error error) ;; output_queue_clear
       else
         let bf := {| ob_buf := ob_buf bf; ob_len := ob_len bf; ob_pos := ob_pos bf + size |} in
         if ob_pos bf <? ob_len bf then modify (set_queue (bf :: l))
         else modify (set_queue l) ;; output_queue_free_obuf bf) ;;
      l ← gets oq_queue;
      match l with
      | [] => mret tt
      | bf :: _ => post_io_request bf
      end
  end.

(** ** Specification *)

Definition ob_ok (bf : OutputBuffer) : Prop :=
  zlen (ob_buf bf) = OUTPUT_QUEUE_BUF_SIZE /\ 0 <= ob_pos bf <= ob_len bf /\
  ob_len bf <= OUTPUT_QUEUE_BUF_SIZE.

(** The bytes that wait. *)
Definition queue_data (q : OutputQueue) : bytes := mjoin (ob_data <$> oq_queue q).

(** A request is in progress exactly while the queue is not empty, for the data
    of its first buffer; only that buffer may be sent in part. *)
Definition oq_ok (q : OutputQueue) : Prop :=
  Forall ob_ok (oq_queue q) /\
  Forall (fun bf => ob_pos bf = 0) (tail (oq_queue q)) /\
  Forall (fun bf => ob_data bf <> []) (oq_queue q) /\
  oq_request q = ob_data <$> head (oq_queue q) /\
  Forall (fun bf => zlen (ob_buf bf) = OUTPUT_QUEUE_BUF_SIZE) (oq_pool q) /\
  oq_pool_size q = zlen (oq_pool q) /\ oq_pool_size q <= MAX_POOL_SIZE.

(** The effect of an operation on the specification. *)
Definition queue_step (q q' : OutputQueue) (d : bytes) : Prop :=
  oq_ok q' /\ queue_data q' = queue_data q ++ d /\ oq_error q' = oq_error q /\
  (forall bf, head (oq_queue q) = Some bf -> head (oq_queue q') = Some bf).

Lemma split_last_ok {A} l : forall x i (z : A), split_last x l = (i, z) -> x :: l = i ++ [z].
Proof.
  induction l as [|y l IH]; intros x i z; cbn [split_last]; [by intros [= <- <-]|].
  destruct (split_last y l) as [i' z'] eqn:E. intros [= <- <-]. cbn. f_equal. by apply IH.
Qed.

Lemma ob_data_len bf : ob_ok bf -> zlen (ob_data bf) = ob_len bf - ob_pos bf.
Proof.
  intros (Hz & Hp & Hl). unfold ob_data. rewrite zlen_zdrop; rewrite zlen_ztake; lia.
Qed.

Lemma buf_append_ok bp src : ob_ok bp -> ob_len bp + zlen src <= OUTPUT_QUEUE_BUF_SIZE ->
  exists bp', buf_append bp src = Some bp' /\ ob_ok bp' /\ ob_data bp' = ob_data bp ++ src /\
    ob_pos bp' = ob_pos bp.
Proof.
  intros (Hz & Hp & Hl) Hs. pose proof (zlen_nonneg src). unfold buf_append.
  destruct (mem_write_ok (ob_buf bp) (ob_len bp) src) as (m & -> & Hm & Ht); [lia..|].
  eexists. split; [done|]. unfold ob_ok, ob_data. cbn. split; [split_and!; lia|].
  split; [|done]. rewrite Ht. unfold zdrop. rewrite drop_app_le; [done|].
  unfold ztake. rewrite length_take. unfold zlen in *. lia.
Qed.

Lemma free_obuf_ok bf q : oq_ok q -> zlen (ob_buf bf) = OUTPUT_QUEUE_BUF_SIZE ->
  exists q', output_queue_free_obuf bf q = (Ok tt, q') /\ oq_ok q' /\
    oq_queue q' = oq_queue q /\ oq_error q' = oq_error q.
Proof.
  intros (H1 & H2 & H3 & H4 & H5 & H6 & H7) Hb. unfold output_queue_free_obuf.
  destruct (Z.ltb_spec (oq_pool_size q) MAX_POOL_SIZE); eexists; (split; [done|]); [|done].
  split; [|done]. unfold oq_ok. cbn. rewrite zlen_app.
  split_and!; auto; [apply Forall_app; auto|change (zlen [bf]) with 1; lia|lia].
Qed.

Lemma alloc_obuf_ok q : oq_ok q ->
  exists bf q', output_queue_alloc_obuf q = (Ok bf, q') /\ oq_ok q' /\
    oq_queue q' = oq_queue q /\ oq_error q' = oq_error q /\
    zlen (ob_buf bf) = OUTPUT_QUEUE_BUF_SIZE /\ ob_len bf = 0 /\ ob_pos bf = 0.
Proof.
  intros (H1 & H2 & H3 & H4 & H5 & H6 & H7). unfold output_queue_alloc_obuf.
  destruct (oq_pool q) as [|bf pool] eqn:Ep; eexists _, _; (split; [done|]).
  - split_and!; done || (unfold oq_ok; rewrite Ep; by split_and!) || by apply zlen_alloc.
  - apply Forall_cons in H5 as [Hb Hp]. rewrite zlen_cons in H6.
    unfold oq_ok. cbn. split_and!; auto; lia.
Qed.

(** A new buffer at the end of the queue. *)
Lemma queue_append_ok bf q : oq_ok q -> ob_ok bf -> ob_pos bf = 0 -> ob_data bf <> [] ->
  exists q', queue_append bf q = (Ok tt, q') /\ queue_step q q' (ob_data bf).
Proof.
  intros (H1 & H2 & H3 & H4 & H5 & H6 & H7) Hb Hp Hd. unfold queue_append.
  destruct (oq_queue q) as [|b1 l] eqn:Eq; eexists; (split; [done|]);
    unfold queue_step, oq_ok, queue_data; cbn; rewrite ?Eq; cbn in *.
  - split_and!; auto; rewrite ?app_nil_r; auto; by intros ? [=].
  - split_and!; auto.
    + apply Forall_cons in H1 as [? ?]. apply Forall_cons. split; [done|]. apply Forall_app. auto.
    + apply Forall_app. auto.
    + apply Forall_cons in H3 as [? ?]. apply Forall_cons. split; [done|]. apply Forall_app. auto.
    + rewrite fmap_app, join_app. cbn. by rewrite app_nil_r, app_assoc.
Qed.

(** Data appended to the last buffer of a queue of at least two. *)
Lemma queue_extend_ok b1 init bp bp' d q : oq_ok q ->
  oq_queue q = b1 :: init ++ [bp] -> ob_ok bp' -> ob_pos bp' = 0 ->
  ob_data bp' = ob_data bp ++ d ->
  queue_step q (set_queue (b1 :: init ++ [bp']) q) d.
Proof.
  intros (H1 & H2 & H3 & H4 & H5 & H6 & H7) Eq Hb Hp Hd. rewrite Eq in *. cbn in *.
  apply Forall_cons in H1 as [? H1], H3 as [? H3]. apply Forall_app in H1 as [? _], H2 as [? _].
  apply Forall_app in H3 as [? H3]. rewrite Forall_singleton in H3.
  unfold queue_step, oq_ok, queue_data. cbn. rewrite Eq. split_and!; auto; cbn.
  - apply Forall_cons. split; [done|]. apply Forall_app. auto.
  - apply Forall_app. auto.
  - apply Forall_cons. split; [done|]. apply Forall_app. split; [done|]. apply Forall_singleton.
    rewrite Hd. intros [E _]%app_eq_nil. exact (H3 E).
  - rewrite !fmap_app, !join_app. cbn. rewrite Hd, !app_nil_r, !app_assoc. done.
Qed.

Lemma queue_step_trans q1 q2 q3 d1 d2 : queue_step q1 q2 d1 -> queue_step q2 q3 d2 ->
  queue_step q1 q3 (d1 ++ d2).
Proof.
  intros (H1 & D1 & E1 & F1) (H2 & D2 & E2 & F2).
  split_and!; [done|by rewrite D2, D1, app_assoc|congruence|auto].
Qed.

Lemma queue_last q b1 b2 l init bp : oq_ok q -> oq_queue q = b1 :: b2 :: l ->
  split_last b2 l = (init, bp) ->
  oq_queue q = b1 :: init ++ [bp] /\ ob_ok bp /\ ob_pos bp = 0.
Proof.
  intros (H1 & H2 & _) Eq Es%split_last_ok. rewrite Eq in *. cbn in H2. rewrite Es in *.
  apply Forall_cons in H1 as [_ H1]. apply Forall_app in H1 as [_ H1], H2 as [_ H2].
  rewrite Forall_singleton in H1, H2. done.
Qed.

Lemma add_obuf_ok bf q : oq_ok q -> zlen (ob_buf bf) = OUTPUT_QUEUE_BUF_SIZE ->
  0 < ob_len bf <= OUTPUT_QUEUE_BUF_SIZE ->
  exists q', output_queue_add_obuf bf q = (Ok tt, q') /\ queue_step q q' (ztake (ob_len bf) (ob_buf bf)).
Proof.
  intros Hq Hb Hl. set (bf0 := {| ob_buf := ob_buf bf; ob_len := ob_len bf; ob_pos := 0 |}).
  assert (HD : ob_data bf0 = ztake (ob_len bf) (ob_buf bf)) by done.
  assert (HA : exists q', queue_append bf0 q = (Ok tt, q') /\
    queue_step q q' (ztake (ob_len bf) (ob_buf bf))).
  { rewrite <- HD. apply queue_append_ok; [done|by split_and!; simpl; lia|done|].
    rewrite HD. intros E. apply (f_equal zlen) in E. rewrite zlen_ztake, zlen_nil in E; lia. }
  unfold output_queue_add_obuf. fold bf0. destruct (oq_queue q) as [|b1 [|b2 l]] eqn:Eq; [done|done|].
  destruct (split_last b2 l) as [init bp] eqn:Es.
  destruct (queue_last q b1 b2 l init bp Hq Eq Es) as (Eq' & Hbp & Hpos).
  cbv zeta. rewrite Hpos. cbn [Z.eqb assertm]. rewrite ret_bind.
  destruct (Z.leb_spec (ob_len bf) (OUTPUT_QUEUE_BUF_SIZE - ob_len bp)); [|done].
  rewrite mem_read_ok by lia. cbn [of_option]. rewrite ret_bind, zdrop_0.
  destruct (buf_append_ok bp (ztake (ob_len bf) (ob_buf bf)) Hbp) as (bp' & -> & Hbp' & Hd' & Hp').
  { rewrite zlen_ztake; lia. }
  cbn [of_option]. rewrite ret_bind, (bind_ok (modify _) _ q tt _ eq_refl).
  pose proof (queue_extend_ok b1 init bp bp' _ q Hq Eq' Hbp' ltac:(congruence) Hd') as (Hq1 & D1 & E1 & F1).
  destruct (free_obuf_ok bf _ Hq1 Hb) as (q2 & -> & Hq2 & Q2 & E2).
  exists q2. split; [done|]. unfold queue_step, queue_data. rewrite Q2, E2. split_and!; auto.
Qed.

Lemma queue_add_loop_ok fuel : forall buf q, oq_ok q -> (length buf < fuel)%nat ->
  exists q', queue_add_loop fuel buf q = (Ok tt, q') /\ queue_step q q' buf.
Proof.
  induction fuel as [|fuel IH]; intros buf q Hq Hf; [lia|]. cbn [queue_add_loop]. cbv zeta.
  destruct (Z.ltb_spec 0 (zlen buf)) as [Hz|Hz].
  2: { destruct buf; [|pose proof (zlen_nonneg buf); zlia]. exists q. split; [done|].
       split_and!; auto. by rewrite app_nil_r. }
  destruct (alloc_obuf_ok q Hq) as (bf & q1 & E1 & Hq1 & Q1 & Er1 & Hb & Hl & Hp).
  rewrite (bind_ok _ _ _ _ _ E1).
  set (len := if OUTPUT_QUEUE_BUF_SIZE <? zlen buf then OUTPUT_QUEUE_BUF_SIZE else zlen buf).
  assert (Hlen : 0 < len <= zlen buf /\ len <= OUTPUT_QUEUE_BUF_SIZE).
  { subst len. unfold OUTPUT_QUEUE_BUF_SIZE, MEM_USAGE_FACTOR in *. zcases; lia. }
  destruct (mem_write_ok (ob_buf bf) 0 (ztake len buf)) as (m & -> & Hm & Ht);
    [lia|rewrite zlen_ztake; lia|]. cbn [of_option]. rewrite ret_bind.
  rewrite zlen_ztake, Z.add_0_l in Ht by lia. cbn [app] in Ht.
  change (ztake 0 (ob_buf bf)) with (@nil Z) in Ht. cbn [app] in Ht.
  destruct (queue_append_ok {| ob_buf := m; ob_len := len; ob_pos := 0 |} q1 Hq1) as (q2 & E2 & HS2).
  { split_and!; cbn; lia. }
  { done. }
  { unfold ob_data. cbn. rewrite Ht. intros E. apply (f_equal zlen) in E.
    change (zdrop 0 ?l) with l in E. rewrite zlen_ztake, zlen_nil in E; lia. }
  rewrite (bind_ok _ _ _ _ _ E2).
  change (ob_data {| ob_buf := m; ob_len := len; ob_pos := 0 |}) with (ztake len m) in HS2. rewrite Ht in HS2.
  pose proof HS2 as (Hq2 & _). assert (Hdl : zlen (zdrop len buf) = zlen buf - len) by (apply zlen_zdrop; lia).
  destruct (IH (zdrop len buf) q2 Hq2) as (q3 & E3 & HS3); [unfold zlen in *; lia|].
  exists q3. split; [done|]. rewrite <- (ztake_zdrop len buf).
  eapply queue_step_trans; [|done]. destruct HS2 as (? & D2 & E2' & F2).
  unfold queue_step, queue_data in *. rewrite Q1 in *. split_and!; auto. congruence.
Qed.

Lemma add_ok buf q : oq_ok q -> oq_error q = 0 ->
  exists q', output_queue_add buf q = (Ok tt, q') /\ queue_step q q' buf.
Proof.
  intros Hq He. unfold output_queue_add. rewrite He. cbn [Z.eqb negb].
  assert (HL : forall q, oq_ok q -> exists q', queue_add_loop (S (length buf)) buf q = (Ok tt, q') /\
    queue_step q q' buf) by (intros; apply queue_add_loop_ok; auto).
  destruct (oq_queue q) as [|b1 [|b2 l]] eqn:Eq; [rewrite ret_bind; by apply HL..|].
  destruct (split_last b2 l) as [init bp] eqn:Es.
  destruct (queue_last q b1 b2 l init bp Hq Eq Es) as (Eq' & Hbp & Hpos).
  cbv zeta. rewrite Hpos. cbn [Z.eqb assertm]. rewrite ret_bind.
  set (gap := OUTPUT_QUEUE_BUF_SIZE - ob_len bp). destruct (Z.ltb_spec 0 gap) as [Hg|Hg].
  2: { rewrite ret_bind. by apply HL. }
  pose proof (zlen_nonneg buf). set (len := if gap <? zlen buf then gap else zlen buf).
  assert (Hlen : 0 <= len <= zlen buf /\ len <= gap) by (subst len; zcases; lia).
  destruct (buf_append_ok bp (ztake len buf) Hbp) as (bp' & E & Hbp' & Hd' & Hp').
  { rewrite zlen_ztake; lia. }
  rewrite E. cbn [of_option]. rewrite ret_bind, bind_assoc, (bind_ok (modify _) _ q tt _ eq_refl), ret_bind.
  pose proof (queue_extend_ok b1 init bp bp' _ q Hq Eq' Hbp' ltac:(congruence) Hd') as HS1.
  pose proof HS1 as (Hq1 & _). assert (Hdl : zlen (zdrop len buf) = zlen buf - len) by (apply zlen_zdrop; lia).
  destruct (queue_add_loop_ok (S (length (zdrop len buf))) (zdrop len buf) _ Hq1) as (q3 & E3 & HS3);
    [lia|].
  exists q3. split; [done|]. rewrite <- (ztake_zdrop len buf). by eapply queue_step_trans.
Qed.

(** ** Completed requests *)

Lemma clear_ok l : forall q, oq_queue q = l -> Forall ob_ok l ->
  Forall (fun bf => zlen (ob_buf bf) = OUTPUT_QUEUE_BUF_SIZE) (oq_pool q) ->
  oq_pool_size q = zlen (oq_pool q) -> oq_pool_size q <= MAX_POOL_SIZE ->
  exists q', output_queue_clear_loop l q = (Ok tt, q') /\ oq_queue q' = [] /\
    oq_error q' = oq_error q /\ oq_request q' = oq_request q /\
    Forall (fun bf => zlen (ob_buf bf) = OUTPUT_QUEUE_BUF_SIZE) (oq_pool q') /\
    oq_pool_size q' = zlen (oq_pool q') /\ oq_pool_size q' <= MAX_POOL_SIZE.
Proof.
  induction l as [|bf l IH]; intros q Eq Hl Hp Hs Hm; cbn [output_queue_clear_loop].
  - by exists q.
  - apply Forall_cons in Hl as [[Hb _] Hl].
    rewrite (bind_ok (modify _) _ q tt _ eq_refl). unfold output_queue_free_obuf.
    set (q1 := set_queue l q).
    destruct (Z.ltb_spec (oq_pool_size q1) MAX_POOL_SIZE) as [Hlt|Hge].
    + set (q2 := set_pool (oq_pool q1 ++ [bf]) (oq_pool_size q1 + 1) q1).
      assert (E : (if oq_pool_size q1 <? MAX_POOL_SIZE then (Ok tt, q2) else (Ok tt, q1)) = (Ok tt, q2)).
      { by rewrite (proj2 (Z.ltb_lt _ _)) by done. }
      destruct (IH q2) as (q3 & E3 & ? & ? & ? & ?); [done|done| | |subst q1 q2; cbn in *; lia|].
      { subst q2. cbn. apply Forall_app. auto. }
      { subst q1 q2. cbn. rewrite zlen_app. change (zlen [bf]) with 1. lia. }
      exists q3. rewrite (bind_ok _ _ _ _ _ E). done.
    + assert (E : forall x, (if oq_pool_size q1 <? MAX_POOL_SIZE then x else (Ok tt, q1)) = (Ok tt, q1)).
      { intros x. by rewrite (proj2 (Z.ltb_ge _ _)) by done. }
      destruct (IH q1) as (q3 & E3 & ?); [done..|].
      exists q3. by rewrite (bind_ok _ _ _ _ _ (E _)).
Qed.

(** The request for the first buffer, if there is one, makes the queue whole. *)
Lemma post_next q :
  Forall ob_ok (oq_queue q) -> Forall (fun bf => ob_pos bf = 0) (tail (oq_queue q)) ->
  Forall (fun bf => ob_data bf <> []) (oq_queue q) -> oq_request q = None ->
  Forall (fun bf => zlen (ob_buf bf) = OUTPUT_QUEUE_BUF_SIZE) (oq_pool q) ->
  oq_pool_size q = zlen (oq_pool q) -> oq_pool_size q <= MAX_POOL_SIZE ->
  exists q', (l ← gets oq_queue;
      match l with [] => mret tt | bf :: _ => post_io_request bf end) q = (Ok tt, q') /\
    oq_ok q' /\ oq_error q' = oq_error q /\ queue_data q' = queue_data q.
Proof.
  intros. rewrite (bind_ok (gets oq_queue) _ q _ q eq_refl).
  destruct (oq_queue q) as [|bf l] eqn:Eq; eexists; (split; [done|]);
    unfold oq_ok, queue_data; cbn; rewrite Eq; by split_and!.
Qed.

(** A completed write takes its bytes from the front of the queue, and the next
    request is for what follows. *)
Lemma done_ok q n d : oq_ok q -> oq_error q = 0 -> oq_request q = Some d -> 0 <= n <= zlen d ->
  exists q', output_queue_done 0 n q = (Ok tt, q') /\ oq_ok q' /\ oq_error q' = 0 /\
    queue_data q = ztake n d ++ queue_data q'.
Proof.
  intros (H1 & H2 & H3 & H4 & H5 & H6 & H7) He Hr Hn. unfold output_queue_done.
  rewrite (bind_ok (modify _) _ q tt _ eq_refl). set (q1 := set_request None q).
  rewrite (bind_ok (gets oq_queue) _ q1 _ q1 eq_refl). change (oq_queue q1) with (oq_queue q).
  destruct (oq_queue q) as [|bf l] eqn:Eq; [rewrite H4 in Hr; done|].
  rewrite H4 in Hr. cbn in Hr. injection Hr as Hr. subst d.
  rewrite (bind_ok (gets oq_error) _ q1 _ q1 eq_refl). change (oq_error q1) with (oq_error q). rewrite He.
  cbn [Z.eqb assertm negb]. rewrite ret_bind. cbn [tail] in *.
  apply Forall_cons in H1 as [Hb H1], H3 as [Hne H3]. pose proof (ob_data_len bf Hb) as Hlen.
  pose proof Hb as (Hz & Hp & Hl). cbv zeta. cbn [ob_pos ob_len].
  unfold queue_data at 1. rewrite Eq. cbn [fmap list_fmap]. rewrite mjoin_cons.
  destruct (Z.ltb_spec (ob_pos bf + n) (ob_len bf)) as [Hlt|Hge].
  - set (bf' := {| ob_buf := ob_buf bf; ob_len := ob_len bf; ob_pos := ob_pos bf + n |}).
    assert (Hd' : ob_data bf' = zdrop n (ob_data bf)).
    { unfold ob_data, bf', zdrop. cbn. rewrite drop_drop. f_equal. lia. }
    rewrite (bind_ok (modify _) _ q1 tt _ eq_refl).
    destruct (post_next (set_queue (bf' :: l) q1)) as (q2 & E2 & Hq2 & Er2 & D2); cbn; auto.
    { apply Forall_cons. split; [|done]. by split_and!; cbn; lia. }
    { apply Forall_cons. split; [|done]. rewrite Hd'. intros E. apply (f_equal zlen) in E.
      rewrite zlen_zdrop, zlen_nil in E; lia. }
    exists q2. split_and!; [done|done|by rewrite Er2|]. rewrite D2. unfold queue_data. cbn.
    rewrite Hd', app_assoc, ztake_zdrop. done.
  - rewrite bind_assoc, (bind_ok (modify _) _ q1 tt _ eq_refl). set (q2 := set_queue l q1).
    rewrite (ztake_all n (ob_data bf)) by lia.
    set (bf' := {| ob_buf := ob_buf bf; ob_len := ob_len bf; ob_pos := ob_pos bf + n |}).
    assert (HF : exists q3, output_queue_free_obuf bf' q2 = (Ok tt, q3) /\ oq_queue q3 = l /\
      oq_request q3 = None /\ oq_error q3 = oq_error q /\
      Forall (fun bf => zlen (ob_buf bf) = OUTPUT_QUEUE_BUF_SIZE) (oq_pool q3) /\
      oq_pool_size q3 = zlen (oq_pool q3) /\ oq_pool_size q3 <= MAX_POOL_SIZE).
    { unfold output_queue_free_obuf. change (oq_pool_size q2) with (oq_pool_size q).
      destruct (Z.ltb_spec (oq_pool_size q) MAX_POOL_SIZE); eexists; (split; [done|]); cbn; [|done].
      split_and!; auto; [by apply Forall_app; auto|rewrite zlen_app; change (zlen [bf']) with 1; lia|lia]. }
    destruct HF as (q3 & E3 & Q3 & R3 & Er3 & P3 & S3 & M3). rewrite (bind_ok _ _ _ _ _ E3).
    destruct (post_next q3) as (q4 & E4 & Hq4 & Er4 & D4); rewrite ?Q3; auto.
    { by destruct H2; [|]. }
    exists q4. split_and!; [done|done|congruence|]. rewrite D4. unfold queue_data. by rewrite Q3.
Qed.

(** A failed write drops everything, and no request is in progress any more. *)
Lemma done_error q e n d : oq_ok q -> oq_error q = 0 -> oq_request q = Some d -> e <> 0 ->
  exists q', output_queue_done e n q = (Ok tt, q') /\ oq_ok q' /\ oq_error q' = e /\
    queue_data q' = [] /\ oq_request q' = None.
Proof.
  intros (H1 & H2 & H3 & H4 & H5 & H6 & H7) He Hr Hne. unfold output_queue_done.
  rewrite (bind_ok (modify _) _ q tt _ eq_refl). set (q1 := set_request None q).
  rewrite (bind_ok (gets oq_queue) _ q1 _ q1 eq_refl). change (oq_queue q1) with (oq_queue q).
  destruct (oq_queue q) as [|bf l] eqn:Eq; [rewrite H4 in Hr; done|].
  rewrite (bind_ok (gets oq_error) _ q1 _ q1 eq_refl). change (oq_error q1) with (oq_error q). rewrite He.
  cbn [Z.eqb assertm]. rewrite ret_bind. replace (e =? 0) with false by (symmetry; by apply Z.eqb_neq).
  cbn [negb]. rewrite bind_assoc, (bind_ok (modify _) _ q1 tt _ eq_refl).
  set (q2 := set_error e q1). unfold output_queue_clear.
  rewrite bind_assoc, (bind_ok (gets oq_queue) _ q2 _ q2 eq_refl).
  destruct (clear_ok (oq_queue q2) q2) as (q3 & E3 & Q3 & Er3 & R3 & P3 & S3 & M3);
    [done|by cbn; rewrite Eq|done..|].
  rewrite (bind_ok _ _ _ _ _ E3), (bind_ok (gets oq_queue) _ q3 _ q3 eq_refl), Q3.
  exists q3. split; [done|]. unfold oq_ok, queue_data. rewrite Q3, Er3, R3. cbn. by split_and!.
Qed.

(** ** Runs of the queue

    What happens to a queue: clients add data or whole buffers, and the request
    in progress completes with some number of bytes or fails.  A completion is
    possible only while a request is in progress; the number of bytes written is
    at most the size of the request. *)

Inductive queue_event :=
| ev_add (d : bytes)
| ev_add_obuf (bf : OutputBuffer)
| ev_done (n : Z)
| ev_error (e : Z).

(** The bytes an event makes the socket accept. *)
Definition run_event (ev : queue_event) : M OutputQueue bytes :=
  match ev with
  | ev_add d => output_queue_add d ;; mret []
  | ev_add_obuf bf => output_queue_add_obuf bf ;; mret []
  | ev_done n =>
      r ← gets oq_request;
      match r with
      | Some d =>
          let n := Z.max 0 (Z.min n (zlen d)) in
          output_queue_done 0 n ;; mret (ztake n d)
      | None => mret []
      end
  | ev_error e =>
      r ← gets oq_request;
      match r with
      | Some d => output_queue_done e (-1) ;; mret []
      | None => mret []
      end
  end.

Fixpoint run_events (evs : list queue_event) : M OutputQueue bytes :=
  match evs with
  | [] => mret []
  | ev :: evs => d1 ← run_event ev; d2 ← run_events evs; mret (d1 ++ d2)
  end.

(** The data an event adds. *)
Definition ev_data (ev : queue_event) : bytes :=
  match ev with
  | ev_add d => d
  | ev_add_obuf bf => ztake (ob_len bf) (ob_buf bf)
  | _ => []
  end.

(** A buffer handed to the queue is an allocated one and holds some data. *)
Definition ev_ok (ev : queue_event) : Prop :=
  match ev with
  | ev_add_obuf bf => zlen (ob_buf bf) = OUTPUT_QUEUE_BUF_SIZE /\ 0 < ob_len bf <= OUTPUT_QUEUE_BUF_SIZE
  | _ => True
  end.

Definition ev_success (ev : queue_event) : Prop :=
  match ev with ev_error _ => False | _ => True end.

Lemma run_event_ok ev q : ev_ok ev -> ev_success ev -> oq_ok q -> oq_error q = 0 ->
  exists sent q', run_event ev q = (Ok sent, q') /\ oq_ok q' /\ oq_error q' = 0 /\
    sent ++ queue_data q' = queue_data q ++ ev_data ev.
Proof.
  intros Hev Hs Hq He. destruct ev as [d|bf|n|e]; cbn [run_event ev_data]; [| | |done].
  - destruct (add_ok d q Hq He) as (q' & E & Hq' & D & Er & _).
    exists [], q'. rewrite (bind_ok _ _ _ _ _ E). split_and!; done || congruence.
  - destruct Hev as [Hb Hl]. destruct (add_obuf_ok bf q Hq Hb Hl) as (q' & E & Hq' & D & Er & _).
    exists [], q'. rewrite (bind_ok _ _ _ _ _ E). split_and!; done || congruence.
  - rewrite (bind_ok (gets oq_request) _ q _ q eq_refl), app_nil_r.
    destruct (oq_request q) as [d|] eqn:Er; [|by exists [], q].
    cbv zeta. set (k := Z.max 0 _). pose proof (zlen_nonneg d).
    destruct (done_ok q k d Hq He Er) as (q' & E & Hq' & E' & D); [subst k; lia|].
    exists (ztake k d), q'. rewrite (bind_ok _ _ _ _ _ E). by split_and!.
Qed.

Lemma run_events_ok evs : forall q, Forall ev_ok evs -> Forall ev_success evs ->
  oq_ok q -> oq_error q = 0 ->
  exists sent q', run_events evs q = (Ok sent, q') /\ oq_ok q' /\ oq_error q' = 0 /\
    sent ++ queue_data q' = queue_data q ++ mjoin (ev_data <$> evs).
Proof.
  induction evs as [|ev evs IH]; intros q Hok Hs Hq He.
  - exists [], q. by rewrite app_nil_r.
  - apply Forall_cons in Hok as [Hok1 Hok], Hs as [Hs1 Hs].
    destruct (run_event_ok ev q Hok1 Hs1 Hq He) as (d1 & q1 & E1 & Hq1 & He1 & D1).
    destruct (IH q1 Hok Hs Hq1 He1) as (d2 & q2 & E2 & Hq2 & He2 & D2).
    exists (d1 ++ d2), q2. cbn [run_events]. rewrite (bind_ok _ _ _ _ _ E1), (bind_ok _ _ _ _ _ E2).
    split_and!; [done|done|done|]. cbn [fmap list_fmap].
    by rewrite mjoin_cons, <- app_assoc, D2, app_assoc, D1, app_assoc.
Qed.

Lemma output_queue_ini_ok : oq_ok (output_queue_ini []).
Proof. unfold oq_ok. cbn. by split_and!. Qed.

(** C34: however additions and completions of write requests interleave, with
    whatever part of its data each request writes, the bytes that reach the
    socket followed by the bytes that wait are the bytes that waited before
    followed by the bytes added, in order.  A request is in progress exactly
    while bytes wait, its data are the unsent data of the first buffer and no
    addition changes them. *)
Theorem output_queue_fifo evs q : oq_ok q -> oq_error q = 0 ->
  Forall ev_ok evs -> Forall ev_success evs ->
  exists sent q', run_events evs q = (Ok sent, q') /\ oq_ok q' /\ oq_error q' = 0 /\
    sent ++ queue_data q' = queue_data q ++ mjoin (ev_data <$> evs) /\
    (oq_request q' = None <-> queue_data q' = []).
Proof.
  intros Hq He Hok Hs. destruct (run_events_ok evs q Hok Hs Hq He) as (d & q' & E & Hq' & He' & D).
  exists d, q'. split_and!; [done|done|done|done|]. destruct Hq' as (_ & _ & HN & HR & _).
  unfold queue_data. rewrite HR. destruct (oq_queue q') as [|bf l]; [done|]. cbn [fmap list_fmap head].
  rewrite mjoin_cons. apply Forall_cons in HN as [HN _]. split; [done|]. by intros [? _]%app_eq_nil.
Qed.

Lemma output_queue_fifo_witness :
  let evs := [ev_add [1; 2; 3]; ev_done 2; ev_add [4]; ev_done 5; ev_add [5]; ev_add [6]; ev_done 1] in
  Forall ev_ok evs /\ Forall ev_success evs /\
  exists sent q', run_events evs (output_queue_ini []) = (Ok sent, q') /\ oq_ok q' /\ oq_error q' = 0 /\
    sent ++ queue_data q' = [1; 2; 3; 4; 5; 6] /\ (oq_request q' = None <-> queue_data q' = []).
Proof.
  intros evs. assert (H1 : Forall ev_ok evs) by (by repeat constructor).
  assert (H2 : Forall ev_success evs) by (by repeat constructor).
  split_and!; [exact H1|exact H2|].
  exact (output_queue_fifo evs (output_queue_ini []) output_queue_ini_ok eq_refl H1 H2).
Defined.

Lemma add_after_error d q : oq_error q <> 0 -> output_queue_add d q = (Ok tt, q).
Proof. intros He%Z.eqb_neq. unfold output_queue_add. by rewrite He. Qed.

(** When a write request fails, everything that waits is dropped, the error
    is kept, no request is posted any more and what is added later is dropped. *)
Lemma output_queue_error q e d later : oq_ok q -> oq_error q = 0 -> e <> 0 ->
  oq_request q = Some d ->
  exists q', run_events (ev_error e :: (ev_add <$> later)) q = (Ok [], q') /\ oq_ok q' /\
    oq_error q' = e /\ queue_data q' = [] /\ oq_request q' = None.
Proof.
  intros Hq He Hne Hr. destruct (done_error q e (-1) d Hq He Hr Hne) as (q' & E & Hq' & He' & D & R).
  exists q'. split; [|by split_and!]. cbn [run_events].
  assert (E1 : run_event (ev_error e) q = (Ok [], q')).
  { cbn [run_event]. rewrite (bind_ok (gets oq_request) _ q _ q eq_refl), Hr.
    by rewrite (bind_ok _ _ _ _ _ E). }
  assert (E2 : run_events (ev_add <$> later) q' = (Ok [], q')).
  { clear E1. induction later as [|x l IH]; [done|]. cbn [fmap list_fmap run_events run_event].
    assert (E2 : (output_queue_add x ;; mret []) q' = (Ok (@nil Z), q')).
    { rewrite (bind_ok _ _ _ _ _ (add_after_error x q' ltac:(congruence))). done. }
    by rewrite (bind_ok _ _ _ _ _ E2), (bind_ok _ _ _ _ _ IH). }
  by rewrite (bind_ok _ _ _ _ _ E1), (bind_ok _ _ _ _ _ E2).
Qed.

Lemma output_queue_error_witness :
  exists q, oq_ok q /\ oq_error q = 0 /\ oq_request q = Some [1; 2] /\
  exists q', run_events [ev_error 32; ev_add [3]; ev_add [4; 5]] q = (Ok [], q') /\ oq_ok q' /\
    oq_error q' = 32 /\ queue_data q' = [] /\ oq_request q' = None.
Proof.
  destruct (queue_append_ok {| ob_buf := [1; 2] ++ alloc (OUTPUT_QUEUE_BUF_SIZE - 2); ob_len := 2; ob_pos := 0 |}
    (output_queue_ini []) output_queue_ini_ok) as (q & E & Hq & _); [by split_and!|done|done|].
  injection E as <-. eexists. split_and!; [exact Hq|done|done|].
  exact (output_queue_error _ 32 [1; 2] [[3]; [4; 5]] Hq eq_refl ltac:(lia) eq_refl).
Defined.
