(* ===== verification/Wire.v ===== *)
(** * The escape encoding of TCF channels

    The symbols of a message (bytes and markers) travel over a byte stream: the
    byte [ESC] starts an escape sequence, [ESC 0] stands for the byte itself,
    [ESC 1] and [ESC 2] for the end of the message and of the stream, and [ESC 3]
    starts a block of binary data, whose size follows in groups of seven bits,
    low ones first.  The code has no such decoder in one place: the encoder is in
    channel_tcp.c and two decoders are interleaved with the management of the
    input buffer (inputbuf.c).  This is the specification all three are compared
    with. *)

From S2P Require Import Prelude Streams.

(** [WSize n i]: [i] groups of the size have been read and make [n]. *)
Inductive wstate :=
| WPlain
| WEsc
| WSize (n i : Z)
| WData (n : Z).

#[export] Instance wstate_eq_dec : EqDecision wstate.
Proof. solve_decision. Defined.

Definition wdata (n : Z) : wstate := if n =? 0 then WPlain else WData n.

(** Sizes of more than four groups do not fit an [int], they are not part of the
    encoding. *)
Definition wstep (st : wstate) (b : Z) : option (wstate * list Z) :=
  match st with
  | WPlain => if b =? ESC then Some (WEsc, []) else Some (WPlain, [b])
  | WEsc =>
      if b =? 0 then Some (WPlain, [ESC])
      else if b =? 1 then Some (WPlain, [MARKER_EOM])
      else if b =? 2 then Some (WPlain, [MARKER_EOS])
      else if b =? 3 then Some (WSize 0 0, [])
      else None
  | WSize n i =>
      if i <? 4 then
        let n := Z.lor n (Z.shiftl (Z.land b 127) (i * 7)) in
        if Z.land b 128 =? 0 then Some (wdata n, []) else Some (WSize n (i + 1), [])
      else None
  | WData n => Some (wdata (n - 1), [b])
  end.

Fixpoint wrun (st : wstate) (l : bytes) : option (wstate * list Z) :=
  match l with
  | [] => Some (st, [])
  | b :: l =>
      match wstep st b with
      | Some (st, d) =>
          match wrun st l with Some (st, d') => Some (st, d ++ d') | None => None end
      | None => None
      end
  end.

Lemma wrun_app l1 : forall l2 st,
  wrun st (l1 ++ l2) =
  match wrun st l1 with
  | Some (st, d1) => match wrun st l2 with Some (st, d2) => Some (st, d1 ++ d2) | None => None end
  | None => None
  end.
Proof.
  induction l1 as [|b l1 IH]; intros l2 st; cbn [wrun app].
  - by destruct (wrun st l2) as [[? ?]|].
  - destruct (wstep st b) as [[st1 d]|]; [|done]. rewrite IH.
    destruct (wrun st1 l1) as [[st2 d1]|]; [|done].
    destruct (wrun st2 l2) as [[st3 d2]|]; [|done]. by rewrite app_assoc.
Qed.

Lemma wrun_step st l1 l2 st1 d1 : wrun st l1 = Some (st1, d1) ->
  wrun st (l1 ++ l2) = match wrun st1 l2 with Some (st, d2) => Some (st, d1 ++ d2) | None => None end.
Proof. intros E. by rewrite wrun_app, E. Qed.

(** Plain data without [ESC] decode to themselves. *)
Lemma wrun_plain l : ESC ∉ l -> wrun WPlain l = Some (WPlain, l).
Proof.
  induction l as [|b l IH]; intros HE; [done|]. apply not_elem_of_cons in HE as [Hne HE].
  cbn [wrun wstep]. replace (b =? ESC) with false by (symmetry; apply Z.eqb_neq; congruence).
  by rewrite IH.
Qed.

Lemma wdata_pos n : 0 < n -> wdata n = WData n.
Proof. intros. unfold wdata. by zcases. Qed.

(** A block of binary data decodes to its bytes. *)
Lemma wrun_data l : forall n, n = zlen l -> 0 < n -> wrun (WData n) l = Some (WPlain, l).
Proof.
  induction l as [|b l IH]; intros n -> Hn; [done|]. cbn [wrun wstep].
  rewrite zlen_cons. replace (zlen l + 1 - 1) with (zlen l) by lia.
  destruct l as [|c l]; [done|]. pose proof (zlen_nonneg l).
  rewrite wdata_pos by zlia. rewrite (IH (zlen (c :: l))) by zlia. done.
Qed.

(** Part of a block. *)
Lemma wrun_data_part l n : zlen l < n -> wrun (WData n) l = Some (WData (n - zlen l), l).
Proof.
  revert n. induction l as [|b l IH]; intros n Hn.
  - by rewrite zlen_nil, Z.sub_0_r.
  - cbn [wrun wstep]. rewrite zlen_cons in *. pose proof (zlen_nonneg l).
    rewrite wdata_pos by lia. rewrite IH by lia. by replace (n - 1 - zlen l) with (n - (zlen l + 1)) by lia.
Qed.

(** The header of a block of [n] bytes with two groups of size. *)
Definition block_header (n : Z) : bytes :=
  [ESC; 3; Z.lor (Z.land n 127) 128; Z.shiftr n 7].

Lemma wrun_header n : 0 < n < 16384 -> wrun WPlain (block_header n) = Some (WData n, []).
Proof.
  intros Hn. unfold block_header. cbn [wrun wstep]. cbn [Z.eqb ESC Pos.eqb].
  set (lo := Z.land n 127). set (hi := Z.shiftr n 7).
  assert (Hlo : lo = n mod 128) by (subst lo; apply (land_mod n 7); lia).
  assert (Hhi : hi = n / 128) by (subst hi; rewrite Z.shiftr_div_pow2 by lia; done).
  assert (Hr1 : 0 <= lo < 128) by (rewrite Hlo; dlia).
  assert (Hr2 : 0 <= hi < 128) by (rewrite Hhi; dlia).
  assert (HL : Z.lor lo 128 = 128 + lo).
  { rewrite Z.lor_comm. exact (lor_shiftl_add 1 lo 7 ltac:(lia) Hr1). }
  assert (A : Z.land (128 + lo) 127 = lo /\ Z.land (128 + lo) 128 =? 0 = false).
  { pose proof (forall_below_spec 128 (fun lo => (Z.land (128 + lo) 127 =? lo) &&
      negb (Z.land (128 + lo) 128 =? 0)) eq_refl lo Hr1) as HA. cbv beta in HA.
    apply andb_prop in HA as [HA1%Z.eqb_eq HA2]. split; [done|]. by destruct (_ =? 0). }
  assert (B : Z.land hi 127 = hi /\ Z.land hi 128 =? 0 = true).
  { pose proof (forall_below_spec 128 (fun hi => (Z.land hi 127 =? hi) &&
      (Z.land hi 128 =? 0)) eq_refl hi Hr2) as HB. cbv beta in HB.
    by apply andb_prop in HB as [HB1%Z.eqb_eq HB2]. }
  destruct A as [A1 A2], B as [B1 B2]. rewrite HL.
  change (wstep WEsc 3) with (Some (WSize 0 0, @nil Z)). cbn [wstep].
  change (0 <? 4) with true. change (0 + 1) with 1. rewrite A1, A2. cbn iota. cbn [wstep].
  change (1 <? 4) with true. rewrite B1, B2. cbn iota. cbn [app].
  change (0 * 7) with 0. change (1 * 7) with 7.
  rewrite Z.shiftl_0_r, Z.lor_0_l, Z.lor_comm, lor_shiftl_add by lia. change (2 ^ 7) with 128.
  replace (hi * 128 + lo) with n by (rewrite Hlo, Hhi; dlia).
  rewrite wdata_pos by lia. done.
Qed.
