(* ===== verification/InputBuf.v ===== *)
(** * Input buffer (framework/inputbuf.c)

    The circular buffer between the socket and the input stream of a channel.
    Two decoders of the escape encoding run over it: one counts the messages
    as the data arrive ([ibuf_read_done]), the other decodes them for the reader
    ([ibuf_get_more]).  Pointers into the buffer are offsets from its start;
    [ib_cur] and [ib_end] are the window of the input stream.  [ENABLE_ZeroCopy]
    and [ENABLE_InputQueue] are set, as on Linux.

    Who owns the buffer is abstract: [InputBufOps] are the callbacks of the
    struct, [InputBufOwner] states what the buffer relies on. *)

From S2P Require Import Prelude Streams Wire.

Inductive HandleMsg := HandleMsgIdle | HandleMsgTriggered | HandleMsgActive.

#[export] Instance HandleMsg_eq_dec : EqDecision HandleMsg.
Proof. solve_decision. Defined.

Record InputBuf := {
  ib_buf : bytes;
  ib_buf_size : Z;
  ib_inp : Z;
  ib_cur : Z;
  ib_end : Z;
  ib_inp_esc : bool;
  ib_out_esc : bool;
  ib_eof : bool;
  ib_long_msg : bool;
  ib_message_count : Z;
  ib_handling_msg : HandleMsg;
  ib_out_size_mode : Z;
  ib_out_data_size : Z;
  ib_inp_size_mode : Z;
  ib_inp_data_size : Z;
}.

Definition set_ib_buf (x : bytes) (b : InputBuf) : InputBuf :=
    Build_InputBuf x (ib_buf_size b) (ib_inp b) (ib_cur b) (ib_end b) (ib_inp_esc b) (ib_out_esc
    b) (ib_eof b) (ib_long_msg b) (ib_message_count b) (ib_handling_msg b) (ib_out_size_mode b)
    (ib_out_data_size b) (ib_inp_size_mode b) (ib_inp_data_size b).
Definition set_ib_buf_size (x : Z) (b : InputBuf) : InputBuf :=
    Build_InputBuf (ib_buf b) x (ib_inp b) (ib_cur b) (ib_end b) (ib_inp_esc b) (ib_out_esc b)
    (ib_eof b) (ib_long_msg b) (ib_message_count b) (ib_handling_msg b) (ib_out_size_mode b)
    (ib_out_data_size b) (ib_inp_size_mode b) (ib_inp_data_size b).
Definition set_ib_inp (x : Z) (b : InputBuf) : InputBuf :=
    Build_InputBuf (ib_buf b) (ib_buf_size b) x (ib_cur b) (ib_end b) (ib_inp_esc b) (ib_out_esc
    b) (ib_eof b) (ib_long_msg b) (ib_message_count b) (ib_handling_msg b) (ib_out_size_mode b)
    (ib_out_data_size b) (ib_inp_size_mode b) (ib_inp_data_size b).
Definition set_ib_cur (x : Z) (b : InputBuf) : InputBuf :=
    Build_InputBuf (ib_buf b) (ib_buf_size b) (ib_inp b) x (ib_end b) (ib_inp_esc b) (ib_out_esc
    b) (ib_eof b) (ib_long_msg b) (ib_message_count b) (ib_handling_msg b) (ib_out_size_mode b)
    (ib_out_data_size b) (ib_inp_size_mode b) (ib_inp_data_size b).
Definition set_ib_end (x : Z) (b : InputBuf) : InputBuf :=
    Build_InputBuf (ib_buf b) (ib_buf_size b) (ib_inp b) (ib_cur b) x (ib_inp_esc b) (ib_out_esc
    b) (ib_eof b) (ib_long_msg b) (ib_message_count b) (ib_handling_msg b) (ib_out_size_mode b)
    (ib_out_data_size b) (ib_inp_size_mode b) (ib_inp_data_size b).
Definition set_ib_inp_esc (x : bool) (b : InputBuf) : InputBuf :=
    Build_InputBuf (ib_buf b) (ib_buf_size b) (ib_inp b) (ib_cur b) (ib_end b) x (ib_out_esc b)
    (ib_eof b) (ib_long_msg b) (ib_message_count b) (ib_handling_msg b) (ib_out_size_mode b)
    (ib_out_data_size b) (ib_inp_size_mode b) (ib_inp_data_size b).
Definition set_ib_out_esc (x : bool) (b : InputBuf) : InputBuf :=
    Build_InputBuf (ib_buf b) (ib_buf_size b) (ib_inp b) (ib_cur b) (ib_end b) (ib_inp_esc b) x
    (ib_eof b) (ib_long_msg b) (ib_message_count b) (ib_handling_msg b) (ib_out_size_mode b)
    (ib_out_data_size b) (ib_inp_size_mode b) (ib_inp_data_size b).
Definition set_ib_eof (x : bool) (b : InputBuf) : InputBuf :=
    Build_InputBuf (ib_buf b) (ib_buf_size b) (ib_inp b) (ib_cur b) (ib_end b) (ib_inp_esc b)
    (ib_out_esc b) x (ib_long_msg b) (ib_message_count b) (ib_handling_msg b) (ib_out_size_mode b)
    (ib_out_data_size b) (ib_inp_size_mode b) (ib_inp_data_size b).
Definition set_ib_long_msg (x : bool) (b : InputBuf) : InputBuf :=
    Build_InputBuf (ib_buf b) (ib_buf_size b) (ib_inp b) (ib_cur b) (ib_end b) (ib_inp_esc b)
    (ib_out_esc b) (ib_eof b) x (ib_message_count b) (ib_handling_msg b) (ib_out_size_mode b)
    (ib_out_data_size b) (ib_inp_size_mode b) (ib_inp_data_size b).
Definition set_ib_message_count (x : Z) (b : InputBuf) : InputBuf :=
    Build_InputBuf (ib_buf b) (ib_buf_size b) (ib_inp b) (ib_cur b) (ib_end b) (ib_inp_esc b)
    (ib_out_esc b) (ib_eof b) (ib_long_msg b) x (ib_handling_msg b) (ib_out_size_mode b)
    (ib_out_data_size b) (ib_inp_size_mode b) (ib_inp_data_size b).
Definition set_ib_handling_msg (x : HandleMsg) (b : InputBuf) : InputBuf :=
    Build_InputBuf (ib_buf b) (ib_buf_size b) (ib_inp b) (ib_cur b) (ib_end b) (ib_inp_esc b)
    (ib_out_esc b) (ib_eof b) (ib_long_msg b) (ib_message_count b) x (ib_out_size_mode b)
    (ib_out_data_size b) (ib_inp_size_mode b) (ib_inp_data_size b).
Definition set_ib_out_size_mode (x : Z) (b : InputBuf) : InputBuf :=
    Build_InputBuf (ib_buf b) (ib_buf_size b) (ib_inp b) (ib_cur b) (ib_end b) (ib_inp_esc b)
    (ib_out_esc b) (ib_eof b) (ib_long_msg b) (ib_message_count b) (ib_handling_msg b) x
    (ib_out_data_size b) (ib_inp_size_mode b) (ib_inp_data_size b).
Definition set_ib_out_data_size (x : Z) (b : InputBuf) : InputBuf :=
    Build_InputBuf (ib_buf b) (ib_buf_size b) (ib_inp b) (ib_cur b) (ib_end b) (ib_inp_esc b)
    (ib_out_esc b) (ib_eof b) (ib_long_msg b) (ib_message_count b) (ib_handling_msg b)
    (ib_out_size_mode b) x (ib_inp_size_mode b) (ib_inp_data_size b).
Definition set_ib_inp_size_mode (x : Z) (b : InputBuf) : InputBuf :=
    Build_InputBuf (ib_buf b) (ib_buf_size b) (ib_inp b) (ib_cur b) (ib_end b) (ib_inp_esc b)
    (ib_out_esc b) (ib_eof b) (ib_long_msg b) (ib_message_count b) (ib_handling_msg b)
    (ib_out_size_mode b) (ib_out_data_size b) x (ib_inp_data_size b).
Definition set_ib_inp_data_size (x : Z) (b : InputBuf) : InputBuf :=
    Build_InputBuf (ib_buf b) (ib_buf_size b) (ib_inp b) (ib_cur b) (ib_end b) (ib_inp_esc b)
    (ib_out_esc b) (ib_eof b) (ib_long_msg b) (ib_message_count b) (ib_handling_msg b)
    (ib_out_size_mode b) (ib_out_data_size b) (ib_inp_size_mode b) x.

Definition MAX_BUF_SIZE : Z := 16777216.

(** The callbacks.  [wait_read] is an argument of the reader: it completes a
    read itself, so its implementation needs [ibuf_read_done]. *)
Class InputBufOps (St : Type) := {
  ib : St -> InputBuf;
  set_ib : InputBuf -> St -> St;
  post_read : Z -> Z -> M St unit;
  trigger_message : M St unit;
  ib_fuel : St -> nat;
}.

(** [(ch & 0x7f) << (mode - 1) * 7] in type [int]. *)
Definition size_bits (ch mode : Z) : option Z :=
  let v := Z.shiftl (Z.land ch 127) ((mode - 1) * 7) in
  if ((mode - 1) * 7 <? 32) && (v <? 2 ^ 31) then Some v else None.

Section ops.
Context {St : Type} `{InputBufOps St}.

Definition update (f : InputBuf -> InputBuf) : M St unit := modify (fun s => set_ib (f (ib s)) s).

Definition ibuf_new_message : M St unit :=
  update (fun b => set_ib_message_count (ib_message_count b + 1) b) ;;
  trigger_message.

Definition ibuf_eof : M St unit :=
  b ← gets ib;
  if ib_eof b then mret tt
  else update (set_ib_eof true) ;; ibuf_new_message.

Definition ibuf_free_size : M St Z :=
  b ← gets ib;
  if ib_eof b then mret 0
  else
    (if ib_cur b =? ib_buf_size b then
       assertm (ib_cur b =? ib_end b) ;;
       update (fun b => set_ib_cur 0 (set_ib_end 0 b))
     else mret tt) ;;
    b ← gets ib;
    assertm ((0 <=? ib_inp b) && (ib_inp b <? ib_buf_size b)) ;;
    (if ib_cur b <=? ib_inp b then
       let size := ib_buf_size b - ib_inp b in
       mret (if ib_cur b =? 0 then size - 1 else size)
     else mret (ib_cur b - ib_inp b - 1)).

Definition ibuf_trigger_read : M St unit :=
  size ← ibuf_free_size;
  if 0 <? size then
    b ← gets ib;
    assertm (ib_inp b + size <=? ib_buf_size b) ;;
    post_read (ib_inp b) size
  else mret tt.

(** [while (out != max && *out != ESC) out++], from [out]; [n] is [max - out]. *)
Fixpoint scan_plain (l : bytes) (n : nat) : Z :=
  match n, l with
  | S n, b :: l => if b =? ESC then 0 else 1 + scan_plain l n
  | _, _ => 0
  end.

(** Positions after the one that follows the data at [out]. *)
Definition ib_max (b : InputBuf) (out : Z) : Z :=
  if out <=? ib_inp b then ib_inp b else ib_buf_size b.

Section get_more.
Context (wait_read : M St unit).

(** The loop of [ibuf_get_more] at [out]. *)
Fixpoint ibuf_get_more_loop (fuel : nat) (peeking : bool) (out : Z) : M St Z :=
  match fuel with
  | O => nofuel
  | S fuel =>
      b ← gets ib;
      let out := if out =? ib_buf_size b then 0 else out in
      if out =? ib_inp b then
        assertm (ib_long_msg b || ib_eof b) ;;
        update (set_ib_cur out) ;;
        if ib_eof b then mret MARKER_EOS
        else
          assertm (ib_message_count b =? 1) ;;
          ibuf_trigger_read ;;
          wait_read ;;
          b ← gets ib;
          ibuf_get_more_loop fuel peeking (ib_cur b)
      else
        ch ← of_option (znth (ib_buf b) out);
        if negb (ib_out_size_mode b =? 0) then
          assertm (negb (ib_out_esc b)) ;;
          v ← of_option (size_bits ch (ib_out_size_mode b));
          update (fun b =>
            set_ib_out_size_mode (if Z.land ch 128 =? 0 then 0 else ib_out_size_mode b + 1)
              (set_ib_out_data_size (Z.lor (ib_out_data_size b) v) b)) ;;
          ibuf_get_more_loop fuel peeking (out + 1)
        else if 0 <? ib_out_data_size b then
          assertm (negb (ib_out_esc b)) ;;
          let max := ib_max b (out + 1) in
          let '(out1, size) :=
            if max - out <? ib_out_data_size b
            then (max, ib_out_data_size b - (max - out))
            else (out + ib_out_data_size b, 0) in
          update (fun b => set_ib_out_data_size size
            (set_ib_end out1 (set_ib_cur (if peeking then out else out + 1) b))) ;;
          ibuf_trigger_read ;;
          mret ch
        else if ib_out_esc b then
          if ch =? 3 then
            update (fun b => set_ib_out_esc false (set_ib_out_data_size 0 (set_ib_out_size_mode 1 b))) ;;
            ibuf_get_more_loop fuel peeking (out + 1)
          else
            ch ←
              (if ch =? 0 then mret ESC
               else if ch =? 1 then
                 (if peeking then mret tt
                  else
                    update (fun b => set_ib_handling_msg HandleMsgIdle
                      (set_ib_message_count (ib_message_count b - 1) b)) ;;
                    b ← gets ib;
                    (if ib_message_count b =? 0 then mret tt else trigger_message)) ;;
                 mret MARKER_EOM
               else if ch =? 2 then mret MARKER_EOS
               else undef);
            let out := if peeking then out else out + 1 in
            update (fun b => set_ib_out_esc peeking (set_ib_cur out (set_ib_end out b))) ;;
            ibuf_trigger_read ;;
            mret ch
        else if negb (ch =? ESC) then
          let max := ib_max b (out + 1) in
          let end_ := out + 1 + scan_plain (zdrop (out + 1) (ib_buf b)) (Z.to_nat (max - (out + 1))) in
          update (fun b => set_ib_cur (if peeking then out else out + 1) (set_ib_end end_ b)) ;;
          b ← gets ib;
          assertm (ib_cur b <=? ib_end b) ;;
          ibuf_trigger_read ;;
          mret ch
        else
          update (set_ib_out_esc true) ;;
          ibuf_get_more_loop fuel peeking (out + 1)
  end.

Definition ibuf_get_more (peeking : bool) : M St Z := fun s =>
  let b := ib s in
  (assertm (0 <? ib_message_count b) ;;
   assertm (bool_decide (ib_handling_msg b = HandleMsgActive)) ;;
   assertm ((0 <=? ib_cur b) && (ib_cur b <=? ib_buf_size b)) ;;
   assertm (ib_cur b =? ib_end b) ;;
   ibuf_get_more_loop (S (2 * (length (ib_buf b) + ib_fuel s) + 2)) peeking (ib_cur b)) s.
End get_more.

Definition ibuf_init (b : InputBuf) : InputBuf :=
  let size := 128 * 128 in
  set_ib_buf_size size (set_ib_buf (alloc size) (set_ib_cur 0 (set_ib_end 0 (set_ib_inp 0
    (set_ib_out_data_size 0 (set_ib_out_size_mode 0
      (set_ib_inp_data_size 0 (set_ib_inp_size_mode 0 b)))))))).

Definition ibuf_flush : M St unit :=
  update (fun b =>
    set_ib_message_count 0 (set_ib_cur (ib_inp b) (set_ib_end (ib_inp b)
      (set_ib_out_data_size 0 (set_ib_out_size_mode 0
        (set_ib_inp_data_size 0 (set_ib_inp_size_mode 0 b))))))).

(** One escape sequence seen by [ibuf_read_done]. *)
Definition read_done_esc (ch : Z) : M St unit :=
  update (set_ib_inp_esc false) ;;
  (if ch =? 0 then mret tt
   else if ch =? 1 then
     b ← gets ib;
     (if ib_long_msg b then
        update (set_ib_long_msg false) ;; assertm (ib_message_count b =? 1)
      else ibuf_new_message)
   else if ch =? 2 then ibuf_eof
   else if ch =? 3 then update (fun b => set_ib_inp_data_size 0 (set_ib_inp_size_mode 1 b))
   else ibuf_eof).

(** The loop of [ibuf_read_done]; it returns the final value of [inp]. *)
Fixpoint read_done_loop (fuel : nat) (inp len : Z) : M St Z :=
  match fuel with
  | O => nofuel
  | S fuel =>
      if 0 <? len then
        b ← gets ib;
        let wrap p := if p =? ib_buf_size b then 0 else p in
        if negb (ib_inp_size_mode b =? 0) then
          assertm (negb (ib_inp_esc b)) ;;
          ch ← of_option (znth (ib_buf b) inp);
          v ← of_option (size_bits ch (ib_inp_size_mode b));
          update (fun b =>
            set_ib_inp_size_mode (if Z.land ch 128 =? 0 then 0 else ib_inp_size_mode b + 1)
              (set_ib_inp_data_size (Z.lor (ib_inp_data_size b) v) b)) ;;
          read_done_loop fuel (wrap (inp + 1)) (len - 1)
        else if 0 <? ib_inp_data_size b then
          assertm (negb (ib_inp_esc b)) ;;
          let '(n, size) :=
            if ib_inp_data_size b <? len then (ib_inp_data_size b, 0)
            else (len, ib_inp_data_size b - len) in
          update (set_ib_inp_data_size size) ;;
          let inp := inp + n in
          read_done_loop fuel (if ib_buf_size b <=? inp then inp - ib_buf_size b else inp) (len - n)
        else
          ch ← of_option (znth (ib_buf b) inp);
          (if ib_inp_esc b then read_done_esc ch
           else if ch =? ESC then update (set_ib_inp_esc true)
           else mret tt) ;;
          read_done_loop fuel (wrap (inp + 1)) (len - 1)
      else mret inp
  end.

(** A buffer twice as large, the unread data moved to its start. *)
Definition ibuf_grow (b : InputBuf) : option InputBuf :=
  let size := ib_buf_size b - ib_cur b in
  let scnt := ib_end b - ib_cur b in
  s1 ← mem_read (ib_buf b) (ib_cur b) size;
  tmp ← mem_write (alloc (ib_buf_size b * 2)) 0 s1;
  s2 ← mem_read (ib_buf b) 0 (ib_buf_size b - size);
  tmp ← mem_write tmp size s2;
  Some (set_ib_buf tmp (set_ib_inp (ib_buf_size b - 1) (set_ib_buf_size (ib_buf_size b * 2)
    (set_ib_cur 0 (set_ib_end scnt b))))).

(** What [ibuf_read_done] does when the data have been scanned: grow the buffer
    when it is full, then read more or start the incomplete message. *)
Definition ibuf_read_next : M St unit :=
  b ← gets ib;
  (if negb (ib_eof b) then
     size ← ibuf_free_size;
     b ← gets ib;
     (if (size =? 0) && (ib_buf_size b <? MAX_BUF_SIZE) then
        b ← of_option (ibuf_grow b); update (fun _ => b)
      else mret tt)
   else mret tt) ;;
  size ← ibuf_free_size;
  if 0 <? size then ibuf_trigger_read
  else
    b ← gets ib;
    if ib_message_count b =? 0 then update (set_ib_long_msg true) ;; ibuf_new_message
    else mret tt.

Definition ibuf_read_done (len : Z) : M St unit :=
  if len =? 0 then ibuf_eof
  else
    b ← gets ib;
    assertm (negb (ib_eof b)) ;;
    inp ← read_done_loop (S (Z.to_nat len)) (ib_inp b) len;
    update (set_ib_inp inp) ;;
    ibuf_read_next.

Definition ibuf_start_message : M St Z :=
  b ← gets ib;
  assertm (bool_decide (ib_handling_msg b = HandleMsgTriggered)) ;;
  if ib_message_count b =? 0 then update (set_ib_handling_msg HandleMsgIdle) ;; mret 0
  else if ib_eof b then update (set_ib_handling_msg HandleMsgIdle) ;; mret (-1)
  else update (set_ib_handling_msg HandleMsgActive) ;; mret 1.
End ops.
