(* ===== verification/InputBufSpec.v ===== *)
(** * Input buffer: the owner

    What the owner of the buffer promises, and triples for the programs that run on it. *)

From S2P Require Import Prelude Ring Streams Wire InputBuf.

(** ** The owner

    [pending] is the read request posted on the socket: a place in the buffer and
    its size; [net] are the bytes that the peer has sent or is going to send and
    that have not been read.  [wait_read] completes the pending read with some of
    them, or with none at the end of the connection. *)
Class InputBufOwner (St : Type) `{InputBufOps St} (wait_read : M St unit) := {
  own : St -> Prop;
  pending : St -> option (Z * Z);
  net : St -> bytes;
  ib_set : forall b s, ib (set_ib b s) = b;
  own_set : forall b s, own s -> own (set_ib b s);
  pending_set : forall b s, pending (set_ib b s) = pending s;
  net_set : forall b s, net (set_ib b s) = net s;
  net_fuel : forall s, own s -> (length (net s) <= ib_fuel s)%nat;
  post_read_ok : forall s off n, own s ->
    exists s', post_read off n s = (Ok tt, s') /\ own s' /\ ib s' = ib s /\ net s' = net s /\
      pending s' = Some (default (off, n) (pending s));
  trigger_ok : forall s, own s -> 0 < ib_message_count (ib s) ->
    exists s', trigger_message s = (Ok tt, s') /\ own s' /\ net s' = net s /\ pending s' = pending s /\
      ib s' = if bool_decide (ib_handling_msg (ib s) = HandleMsgIdle)
              then set_ib_handling_msg HandleMsgTriggered (ib s) else ib s;
  wait_ok : forall s off n, own s -> pending s = Some (off, n) -> 0 <= off -> 0 < n ->
    off + n <= zlen (ib_buf (ib s)) ->
    exists d s', wait_read s = ibuf_read_done (zlen d) s' /\ own s' /\ net s = d ++ net s' /\
      zlen d <= n /\ (d = [] -> net s = []) /\ pending s' = None /\
      exists m, mem_write (ib_buf (ib s)) off d = Some m /\ ib s' = set_ib_buf m (ib s);
}.

(** ** Triples

    [run m b N P a b' N' P']: started with the buffer [b], the incoming bytes [N]
    and the pending read [P], [m] succeeds with [a] and leaves [b'], [N'], [P']. *)
Section triples.
Context `{InputBufOwner St wait_read}.

Definition at_conf (s : St) (b : InputBuf) (N : bytes) (P : option (Z * Z)) : Prop :=
  own s /\ ib s = b /\ net s = N /\ pending s = P.

Definition run {A} (m : M St A) b N P (a : A) b' N' P' : Prop :=
  forall s, at_conf s b N P -> exists s', m s = (Ok a, s') /\ at_conf s' b' N' P'.

Lemma run_ret {A} (a : A) b N P : run (mret a) b N P a b N P.
Proof. intros s Hs. by exists s. Qed.

Lemma run_bind {A B} (m : M St A) (f : A -> M St B) b N P a b1 N1 P1 c b2 N2 P2 :
  run m b N P a b1 N1 P1 -> run (f a) b1 N1 P1 c b2 N2 P2 -> run (m ≫= f) b N P c b2 N2 P2.
Proof.
  intros H1 H2 s Hs. destruct (H1 s Hs) as (s1 & E1 & Hs1).
  rewrite (bind_ok _ _ _ _ _ E1). by apply H2.
Qed.

(** The same where the final buffer is only described. *)
Lemma run_bind_ex {A B} (m : M St A) (f : A -> M St B) b N P a b1 N1 P1 c N2 P2 (Q : InputBuf -> Prop) :
  run m b N P a b1 N1 P1 ->
  (exists b2, run (f a) b1 N1 P1 c b2 N2 P2 /\ Q b2) ->
  exists b2, run (m ≫= f) b N P c b2 N2 P2 /\ Q b2.
Proof. intros H1 (b2 & H2 & HQ). exists b2. split; [|done]. by eapply run_bind. Qed.

Lemma run_get b N P : run (gets ib) b N P b b N P.
Proof. intros s (? & <- & ?). by exists s. Qed.

Lemma run_assert (c : bool) b N P : c = true -> run (assertm c) b N P tt b N P.
Proof. intros ->. apply run_ret. Qed.

Lemma run_option {A} (o : option A) a b N P : o = Some a -> run (of_option o) b N P a b N P.
Proof. intros ->. apply run_ret. Qed.

Lemma run_update f b N P : run (update f) b N P tt (f b) N P.
Proof.
  intros s (Ho & <- & <- & <-). eexists. split; [done|].
  split_and!; [by apply own_set|apply ib_set|apply net_set|apply pending_set].
Qed.

Lemma run_post off n b N P : run (post_read off n) b N P tt b N (Some (default (off, n) P)).
Proof.
  intros s (Ho & <- & <- & <-). destruct (post_read_ok s off n Ho) as (s' & ? & ? & ? & ? & ?).
  by exists s'.
Qed.

Definition announce (h : HandleMsg) : HandleMsg :=
  match h with HandleMsgIdle => HandleMsgTriggered | h => h end.

Definition triggered (b : InputBuf) : InputBuf :=
  set_ib_handling_msg (announce (ib_handling_msg b)) b.

Lemma run_trigger b N P : 0 < ib_message_count b ->
  run trigger_message b N P tt (triggered b) N P.
Proof.
  intros Hc s (Ho & <- & <- & <-). destruct (trigger_ok s Ho Hc) as (s' & ? & ? & ? & ? & E).
  exists s'. split; [done|]. split; [done|]. split; [|done]. rewrite E. unfold triggered.
  destruct (ib s) as [? ? ? ? ? ? ? ? ? ? []]; done.
Qed.
End triples.

(** Symbolic execution of the next step of a program. *)
Ltac rstep :=
  first
    [ eapply run_bind; [apply run_get|]
    | eapply run_bind; [apply run_update|]
    | eapply run_bind; [apply run_option; eassumption|]
    | eapply run_bind; [apply run_assert|]
    | eapply run_bind; [apply run_ret|]
    | apply run_ret | apply run_update ]; cbv beta zeta.

(** ** Geometry *)

Definition geometry (b : InputBuf) : Prop :=
  zlen (ib_buf b) = ib_buf_size b /\ 2 <= ib_buf_size b /\ 0 <= ib_inp b < ib_buf_size b /\
  0 <= ib_cur b <= ib_buf_size b.

(** The window ends where the data end at the latest. *)
Definition window_ok (b : InputBuf) : Prop :=
  ib_cur b <= ib_end b <= ring_max (ib_buf_size b) (ib_cur b) (ib_inp b).

Definition free_room (b : InputBuf) : Z := room (ib_buf_size b) (ib_cur b) (ib_inp b).

(** The contiguous part of the room. *)
Definition free_size (b : InputBuf) : Z :=
  if ib_eof b then 0
  else if (ib_cur b =? ib_buf_size b) || (ib_cur b =? 0) then ib_buf_size b - ib_inp b - 1
  else if ib_cur b <=? ib_inp b then ib_buf_size b - ib_inp b
  else ib_cur b - ib_inp b - 1.

(** [ibuf_free_size] moves an empty window from the end of the buffer to its
    start. *)
Definition rewind (b : InputBuf) : InputBuf :=
  if negb (ib_eof b) && (ib_cur b =? ib_buf_size b) then set_ib_cur 0 (set_ib_end 0 b) else b.

(** A pending read goes to free space at the input position. *)
Definition pending_ok (b : InputBuf) (P : option (Z * Z)) : Prop :=
  match P with
  | None => True
  | Some (off, n) => off = ib_inp b /\ 0 < n /\ off + n <= ib_buf_size b /\ n <= free_room b
  end.

Definition triggered_read (b : InputBuf) (P : option (Z * Z)) : option (Z * Z) :=
  if 0 <? free_size b then Some (default (ib_inp b, free_size b) P) else P.

Lemma free_size_room b : geometry b -> 
  0 <= free_size b <= free_room b /\ ib_inp b + free_size b <= ib_buf_size b /\
  (free_size b = 0 -> ib_eof b = true \/ free_room b = 0).
Proof.
  intros (H1 & H2 & H3 & H4). unfold free_size, free_room, room.
  destruct (ib_eof b); zcases; split_and!; auto; try lia.
Qed.

Lemma rewind_ok b : geometry b -> window_ok b ->
  geometry (rewind b) /\ window_ok (rewind b) /\ free_room (rewind b) = free_room b /\
  free_size (rewind b) = free_size b /\
  ring (ib_buf (rewind b)) (ib_cur (rewind b)) (ib_inp (rewind b)) = ring (ib_buf b) (ib_cur b) (ib_inp b) /\
  ring (ib_buf (rewind b)) (ib_end (rewind b)) (ib_inp (rewind b)) = ring (ib_buf b) (ib_end b) (ib_inp b) /\
  slice (ib_buf (rewind b)) (ib_cur (rewind b)) (ib_end (rewind b)) = slice (ib_buf b) (ib_cur b) (ib_end b).
Proof.
  intros Hg Hw. pose proof Hg as (H1 & H2 & H3 & H4). unfold rewind.
  destruct (ib_eof b) eqn:Ee; [done|]. cbn [andb negb].
  destruct (Z.eqb_spec (ib_cur b) (ib_buf_size b)) as [E|]; [|done].
  unfold window_ok, ring_max in Hw. rewrite (proj2 (Z.leb_gt _ _)) in Hw by lia.
  assert (E2 : ib_end b = ib_cur b) by lia.
  unfold geometry, window_ok, free_room, free_size, ring_max, room. cbn. rewrite Ee, E2, E.
  rewrite <- H1, ring_wrap, !slice_nil by lia. split_and!; try done; zcases; rewrite ?orb_true_r; lia.
Qed.

Section geometry_runs.
Context `{InputBufOwner St wait_read}.

Lemma run_free_size b N P : geometry b -> (ib_cur b = ib_buf_size b -> ib_end b = ib_cur b) ->
  run ibuf_free_size b N P (free_size b) (rewind b) N P.
Proof.
  intros (H1 & H2 & H3 & H4) Hw. unfold ibuf_free_size, free_size, rewind. rstep.
  destruct (ib_eof b) eqn:Ee; [rstep|]. cbn [andb negb].
  destruct (Z.eqb_spec (ib_cur b) (ib_buf_size b)) as [E|].
  - eapply run_bind; [rstep; [lia|]; rstep|]. rstep. cbn.
    rstep; [lia|]. rewrite (proj2 (Z.leb_le _ _)) by lia. cbn. rstep.
  - rstep. rstep. rstep; [lia|]. cbn [orb].
    destruct (Z.leb_spec (ib_cur b) (ib_inp b)).
    + destruct (Z.eqb_spec (ib_cur b) 0); rstep.
    + rewrite (proj2 (Z.eqb_neq _ _)) by lia. rstep.
Qed.

Lemma run_trigger_read b N P : geometry b -> (ib_cur b = ib_buf_size b -> ib_end b = ib_cur b) ->
  run ibuf_trigger_read b N P tt (rewind b) N (triggered_read b P).
Proof.
  intros Hg Hw. unfold ibuf_trigger_read, triggered_read.
  eapply run_bind; [by apply run_free_size|].
  pose proof (free_size_room b Hg) as (? & ? & _).
  destruct (Z.ltb_spec 0 (free_size b)); [|rstep]. rstep.
  assert (E : ib_inp (rewind b) = ib_inp b /\ ib_buf_size (rewind b) = ib_buf_size b).
  { unfold rewind. by destruct (_ && _). }
  destruct E as [-> ->]. rstep; [lia|]. apply run_post.
Qed.
End geometry_runs.

Lemma triggered_read_ok b P : geometry b -> pending_ok b P -> pending_ok b (triggered_read b P).
Proof.
  intros Hg HP. pose proof (free_size_room b Hg) as (? & ? & _). unfold triggered_read.
  destruct (Z.ltb_spec 0 (free_size b)); [|done]. destruct P as [[off n]|]; [done|].
  cbn. split_and!; lia.
Qed.
