(* ===== verification/InputBufScan.v ===== *)
(** * Input buffer: counting the messages ([ibuf_read_done])

    The scanner of arriving data agrees with the escape encoding: it counts the
    ends of messages, announces them, notices the end of the stream, and the data
    become part of the ring. *)

From S2P Require Import Prelude Ring Streams Wire InputBuf InputBufSpec.

(** The state of one of the two decoders of the buffer. *)
Definition dec_state (mode size : Z) (esc : bool) : wstate :=
  if negb (mode =? 0) then WSize size (mode - 1)
  else if 0 <? size then WData size
  else if esc then WEsc else WPlain.

Definition dec_ok (mode size : Z) (esc : bool) : Prop :=
  0 <= mode /\ 0 <= size /\ (mode <> 0 \/ 0 < size -> esc = false).

Definition istate (b : InputBuf) : wstate :=
  dec_state (ib_inp_size_mode b) (ib_inp_data_size b) (ib_inp_esc b).
Definition iok (b : InputBuf) : Prop :=
  dec_ok (ib_inp_size_mode b) (ib_inp_data_size b) (ib_inp_esc b).
Definition ostate (b : InputBuf) : wstate :=
  dec_state (ib_out_size_mode b) (ib_out_data_size b) (ib_out_esc b).
Definition ook (b : InputBuf) : Prop :=
  dec_ok (ib_out_size_mode b) (ib_out_data_size b) (ib_out_esc b).

(** The number of ends of messages. *)
Fixpoint eoms (l : list Z) : Z :=
  match l with
  | [] => 0
  | x :: l => b2z (x =? MARKER_EOM) + eoms l
  end.

Definition eos (l : list Z) : bool := bool_decide (MARKER_EOS ∈ l).

Lemma eoms_app l1 l2 : eoms (l1 ++ l2) = eoms l1 + eoms l2.
Proof. induction l1; cbn [eoms app]; lia. Qed.

Lemma eoms_nonneg l : 0 <= eoms l.
Proof. induction l; cbn [eoms]; [lia|]. destruct (_ =? _); simpl; lia. Qed.

Lemma eoms_0 l : eoms l = 0 <-> MARKER_EOM ∉ l.
Proof.
  induction l as [|x l IH]; [split; [intros _; apply not_elem_of_nil|done]|].
  cbn [eoms]. rewrite not_elem_of_cons. pose proof (eoms_nonneg l).
  destruct (Z.eqb_spec x MARKER_EOM); simpl; [|rewrite <- IH; split; [intros; split; [done|lia]|intros [_ ?]; lia]].
  split; [lia|]. by intros [? _].
Qed.

Lemma eos_app l1 l2 : eos (l1 ++ l2) = eos l1 || eos l2.
Proof.
  unfold eos. apply Bool.eq_true_iff_eq. rewrite orb_true_iff, !bool_decide_eq_true. apply elem_of_app.
Qed.

(** Bytes are no markers. *)
Lemma bytes_no_marker l x : is_bytes l -> x < 0 -> x ∉ l.
Proof.
  intros Hl Hx HE. rewrite Forall_forall in Hl. apply Hl in HE. unfold is_byte in HE. lia.
Qed.

Lemma bytes_eoms l : is_bytes l -> eoms l = 0.
Proof. intros. apply eoms_0, bytes_no_marker; done. Qed.

Lemma bytes_eos l : is_bytes l -> eos l = false.
Proof. intros. apply bool_decide_eq_false_2, bytes_no_marker; done. Qed.

(** Part of a block of data, or all of it. *)
Lemma wrun_block l n : 0 < n -> zlen l <= n -> wrun (WData n) l = Some (wdata (n - zlen l), l).
Proof.
  intros Hn Hl. destruct (Z.eq_dec (zlen l) n) as [E|].
  - rewrite wrun_data by lia. by replace (n - zlen l) with 0 by lia.
  - rewrite wrun_data_part, wdata_pos by lia. done.
Qed.

Lemma size_bits_ok ch mode : 1 <= mode <= 4 ->
  size_bits ch mode = Some (Z.shiftl (Z.land ch 127) ((mode - 1) * 7)).
Proof.
  intros Hm. unfold size_bits.
  assert (0 <= Z.land ch 127 < 128).
  { change 127 with (2 ^ 7 - 1). rewrite land_mod by lia. dlia. }
  rewrite Z.shiftl_mul_pow2 by lia. rewrite (proj2 (Z.ltb_lt _ _)) by lia.
  assert (2 ^ ((mode - 1) * 7) <= 2 ^ 21) by (apply Z.pow_le_mono_r; lia).
  rewrite (proj2 (Z.ltb_lt _ _)) by nia. done.
Qed.

(** ** The counters *)

(** Complete messages in the buffer. *)
Definition msgs (b : InputBuf) : Z :=
  ib_message_count b - b2z (ib_eof b) - b2z (ib_long_msg b).

(** A long message is started when there is no complete one. *)
Definition counters_ok (b : InputBuf) : Prop :=
  0 <= msgs b /\ (ib_long_msg b = true -> msgs b = 0 /\ ib_eof b = false).

(** [b'] is [b] after [syms] have been seen. *)
Record scanned (b : InputBuf) (syms : list Z) (b' : InputBuf) : Prop := {
  sc_buf : ib_buf b' = ib_buf b;
  sc_size : ib_buf_size b' = ib_buf_size b;
  sc_inp : ib_inp b' = ib_inp b;
  sc_cur : ib_cur b' = ib_cur b;
  sc_end : ib_end b' = ib_end b;
  sc_esc : ib_out_esc b' = ib_out_esc b;
  sc_mode : ib_out_size_mode b' = ib_out_size_mode b;
  sc_data : ib_out_data_size b' = ib_out_data_size b;
  sc_eof : ib_eof b' = ib_eof b || eos syms;
  sc_long : ib_long_msg b' = ib_long_msg b && (eoms syms =? 0);
  sc_msgs : msgs b' = msgs b + eoms syms;
  sc_active : ib_handling_msg b' = HandleMsgActive <-> ib_handling_msg b = HandleMsgActive;
  sc_idle : ib_handling_msg b' = HandleMsgIdle ->
    ib_handling_msg b = HandleMsgIdle /\ ib_message_count b' = ib_message_count b;
  sc_triggered : ib_handling_msg b' = HandleMsgTriggered ->
    ib_handling_msg b = HandleMsgTriggered \/ 0 < msgs b' + b2z (ib_eof b');
}.

Lemma scanned_trans b1 s1 b2 s2 b3 : scanned b1 s1 b2 -> scanned b2 s2 b3 -> scanned b1 (s1 ++ s2) b3.
Proof.
  intros [] []. pose proof (eoms_nonneg s1). pose proof (eoms_nonneg s2).
  constructor; rewrite ?eoms_app, ?eos_app; try congruence; auto.
  - rewrite orb_assoc. congruence.
  - rewrite sc_long1, sc_long0, <- andb_assoc. f_equal. zcases; done || lia.
  - lia.
  - by rewrite sc_active1.
  - intros HI. destruct (sc_idle1 HI) as [HI' ?]. destruct (sc_idle0 HI'). split; congruence.
  - intros [HT|HT]%sc_triggered1; [|by right]. destruct (sc_triggered0 HT) as [|HM]; [by left|right].
    rewrite sc_eof1, sc_msgs1. destruct (ib_eof b2), (eos s2); cbn in *; lia.
Qed.

Lemma scanned_counters b s b' : scanned b s b' -> counters_ok b ->
  (ib_long_msg b = true -> eos s = false) -> counters_ok b'.
Proof.
  intros [] [Hm HL] HE. pose proof (eoms_nonneg s). split; [lia|].
  rewrite sc_long0. intros [Hl Hs%Z.eqb_eq]%andb_prop. destruct (HL Hl) as [? Hf].
  split; [lia|]. by rewrite sc_eof0, Hf, HE.
Qed.

Lemma scanned_refl b : scanned b [] b.
Proof. constructor; rewrite ?andb_true_r, ?orb_false_r; auto. simpl. lia. Qed.

Lemma scanned_ext b s s' b' : eoms s = eoms s' -> eos s = eos s' -> scanned b s b' -> scanned b s' b'.
Proof. intros E1 E2 []. constructor; congruence || by rewrite <- ?E1, <- ?E2. Qed.

(** ** The loop *)

(** An update that only touches the scanner. *)
Lemma scanned_update b b' :
  (exists e m d, b' = set_ib_inp_esc e (set_ib_inp_size_mode m (set_ib_inp_data_size d b))) ->
  scanned b [] b'.
Proof.
  intros (e & m & d & ->).
  constructor; cbn; rewrite ?andb_true_r, ?orb_false_r; auto. unfold msgs. cbn. lia.
Qed.

Lemma dec_wdata n : 0 <= n -> dec_state 0 n false = wdata n.
Proof. intros. unfold dec_state, wdata. cbn. zcases; done || lia. Qed.

(** One byte of the size of a block. *)
Lemma dec_size mode size esc ch st syms : dec_ok mode size esc -> mode <> 0 ->
  wstep (dec_state mode size esc) ch = Some (st, syms) ->
  exists v, size_bits ch mode = Some v /\ syms = [] /\ esc = false /\
    let mode' := if Z.land ch 128 =? 0 then 0 else mode + 1 in
    dec_state mode' (Z.lor size v) esc = st /\ dec_ok mode' (Z.lor size v) esc.
Proof.
  intros (Hm & Hs & He) Hne Hw. unfold dec_state in Hw. rewrite (proj2 (Z.eqb_neq _ _) Hne) in Hw.
  cbn [negb wstep] in Hw. destruct (Z.ltb_spec (mode - 1) 4); [|done].
  eexists. split; [apply size_bits_ok; lia|]. rewrite He by auto.
  assert (HL : 0 <= Z.lor size (Z.shiftl (Z.land ch 127) ((mode - 1) * 7))).
  { apply Z.lor_nonneg. split; [done|]. apply Z.shiftl_nonneg, Z.land_nonneg. lia. }
  cbv zeta. destruct (Z.land ch 128 =? 0); injection Hw as <- <-; (split_and!; [done|done| |]).
  - by apply dec_wdata.
  - by split_and!.
  - unfold dec_state. rewrite (proj2 (Z.eqb_neq _ _)) by lia. cbn. f_equal. lia.
  - split_and!; auto. lia.
Qed.

(** Some bytes of a block. *)
Lemma dec_block mode size esc n : dec_ok mode size esc -> mode = 0 -> 0 < size -> 0 <= n <= size ->
  esc = false /\ dec_state mode size esc = WData size /\
  dec_state mode (size - n) esc = wdata (size - n) /\ dec_ok mode (size - n) esc.
Proof.
  intros (Hm & Hs & He) -> Hp Hn. rewrite He by auto. split_and!; [done| |apply dec_wdata; lia|].
  - rewrite dec_wdata by done. by apply wdata_pos.
  - by split_and!; [|lia|].
Qed.

(** A character that is neither. *)
Lemma dec_char mode size esc : dec_ok mode size esc -> mode = 0 -> ~ 0 < size ->
  size = 0 /\ dec_state mode size esc = if esc then WEsc else WPlain.
Proof.
  intros (Hm & Hs & He) -> Hp. assert (size = 0) as -> by lia. done.
Qed.

Section loop.
Context `{InputBufOwner St wait_read}.

(** A message (or the end of the stream) is announced. *)
Lemma run_new_message b N P : 0 <= ib_message_count b ->
  run ibuf_new_message b N P tt
    (triggered (set_ib_message_count (ib_message_count b + 1) b)) N P.
Proof. intros. unfold ibuf_new_message. rstep. apply run_trigger. cbn. lia. Qed.

Lemma run_eof b N P : 0 <= ib_message_count b ->
  run ibuf_eof b N P tt
    (if ib_eof b then b
     else triggered (set_ib_message_count (ib_message_count b + 1) (set_ib_eof true b))) N P.
Proof.
  intros. unfold ibuf_eof. rstep. destruct (ib_eof b); [rstep|]. rstep.
  apply (run_new_message (set_ib_eof true b)). done.
Qed.

Lemma counters_nonneg b : counters_ok b -> 0 <= ib_message_count b.
Proof. unfold counters_ok, msgs. destruct (ib_eof b), (ib_long_msg b); cbn; lia. Qed.

(** One escape sequence. *)
Lemma run_esc b N P ch st syms : istate b = WEsc -> iok b -> counters_ok b ->
  wstep WEsc ch = Some (st, syms) -> (ib_long_msg b = true -> eos syms = false) ->
  exists b', run (read_done_esc ch) b N P tt b' N P /\ scanned b syms b' /\ istate b' = st /\ iok b'.
Proof.
  intros Hst Hok Hc Hw Hl. pose proof (counters_nonneg b Hc) as Hn.
  unfold istate, dec_state, iok, dec_ok in *.
  destruct (Z.eqb_spec (ib_inp_size_mode b) 0) as [Em|]; [|done].
  destruct (Z.ltb_spec 0 (ib_inp_data_size b)); [done|]. assert (Ed : ib_inp_data_size b = 0) by lia.
  destruct Hc as [Hm HL]. unfold msgs in *. unfold read_done_esc. cbn [wstep] in Hw.
  destruct (Z.eqb_spec ch 0); [|destruct (Z.eqb_spec ch 1); [|destruct (Z.eqb_spec ch 2);
    [|destruct (Z.eqb_spec ch 3); [|done]]]]; injection Hw as <- <-.
  - eexists. split; [rstep; rstep|]. cbn. rewrite Em, Ed. split; [|done].
    constructor; cbn; rewrite ?andb_true_r, ?orb_false_r; auto. unfold msgs. cbn. lia.
  - destruct (ib_long_msg b) eqn:El.
    + destruct (HL eq_refl) as [HM HE]. rewrite HE in *. cbn [b2z] in *.
      eexists. split; [rstep; rstep; cbn [ib_long_msg set_ib_inp_esc]; rewrite El; rstep|]; [|cbn].
      { apply run_assert. cbn. apply Z.eqb_eq. lia. }
      cbn. rewrite Em, Ed. split; [|done].
      constructor; cbn; rewrite ?HE, ?andb_true_r, ?orb_false_r, ?andb_false_r; auto.
      unfold msgs. cbn. rewrite HE, El. cbn. lia.
    + eexists. split; [rstep; rstep; cbn [ib_long_msg set_ib_inp_esc]; rewrite El; by apply run_new_message|]. cbn.
      rewrite Em, Ed. split; [|done].
      constructor; cbn; rewrite ?El, ?andb_true_r, ?orb_false_r, ?andb_false_r; auto.
      * unfold msgs. cbn. rewrite El. cbn. lia.
      * by destruct (ib_handling_msg b).
      * by destruct (ib_handling_msg b).
      * intros _. right. unfold msgs. cbn. rewrite El. cbn in *. lia.
  - eexists. split; [rstep; by apply run_eof|]. cbn. destruct (ib_eof b) eqn:Ee; cbn; rewrite Em, Ed; (split; [|done]).
    + constructor; cbn; rewrite ?Ee, ?andb_true_r, ?orb_true_r; auto. unfold msgs. cbn. lia.
    + constructor; cbn; rewrite ?Ee, ?andb_true_r, ?orb_true_r; auto.
      * unfold msgs. cbn. rewrite Ee. cbn. lia.
      * by destruct (ib_handling_msg b).
      * by destruct (ib_handling_msg b).
      * intros _. right. unfold msgs. cbn in *. lia.
  - eexists. split; [rstep; rstep|]. cbn. split; [|done].
    constructor; cbn; rewrite ?andb_true_r, ?orb_false_r; auto. unfold msgs. cbn. lia.
Qed.

(** One plain character. *)
Lemma run_char b N P ch st syms : iok b -> ib_inp_size_mode b = 0 -> ~ 0 < ib_inp_data_size b ->
  is_byte ch -> counters_ok b -> wstep (istate b) ch = Some (st, syms) ->
  (ib_long_msg b = true -> eos syms = false) ->
  exists b', run (if ib_inp_esc b then read_done_esc ch
                  else if ch =? ESC then update (set_ib_inp_esc true) else mret tt) b N P tt b' N P /\
    scanned b syms b' /\ istate b' = st /\ iok b'.
Proof.
  intros Hok Hm Hd Hch Hc Hw Hl. destruct (dec_char _ _ _ Hok Hm Hd) as [Ed Es]. unfold istate in Hw.
  rewrite Es in Hw. destruct (ib_inp_esc b) eqn:Ee.
  - apply (run_esc b N P ch st syms); done || by (unfold istate; rewrite Ee).
  - cbn [wstep] in Hw. destruct (Z.eqb_spec ch ESC); injection Hw as <- <-; eexists; (split; [rstep|]).
    + split; [|unfold istate, iok, dec_ok; cbn; rewrite Hm, Ed; split_and!; try done; intros [|]; lia].
      apply scanned_update. exists true, (ib_inp_size_mode b), (ib_inp_data_size b). by destruct b.
    + split; [|by unfold istate; rewrite Ee]. assert (HB : is_bytes [ch]) by auto with bytes.
      apply (scanned_ext b [] [ch]); [by rewrite (bytes_eoms [ch])|by rewrite (bytes_eos [ch])|apply scanned_refl].
Qed.

Lemma scan_loop fuel : forall d b inp N P st syms, (length d < fuel)%nat ->
  zlen (ib_buf b) = ib_buf_size b -> 0 <= inp < ib_buf_size b -> inp + zlen d <= ib_buf_size b ->
  slice (ib_buf b) inp (inp + zlen d) = d -> is_bytes d -> iok b -> counters_ok b ->
  wrun (istate b) d = Some (st, syms) -> (ib_long_msg b = true -> eos syms = false) ->
  exists b', run (read_done_loop fuel inp (zlen d)) b N P
      (if inp + zlen d =? ib_buf_size b then 0 else inp + zlen d) b' N P /\
    scanned b syms b' /\ istate b' = st /\ iok b'.
Proof.
  induction fuel as [|fuel IH]; intros d b inp N P st syms Hf Hz Hi Hd HS Hb Hok Hc Hw Hl; [lia|].
  pose proof (zlen_nonneg d). cbn [read_done_loop]. destruct (Z.ltb_spec 0 (zlen d)) as [Hp|Hp].
  2: { assert (d = []) as -> by (destruct d; [done|unfold zlen in Hp; simpl in Hp; lia]). injection Hw as <- <-. exists b. rewrite Z.add_0_r.
       rewrite (proj2 (Z.eqb_neq _ _)) by lia. split_and!; [rstep|apply scanned_refl|done|done]. }
  (* the rest of the loop, once [n] bytes have been seen *)
  assert (HT : forall n b1 s1 s2, 0 < n <= zlen d -> scanned b s1 b1 -> iok b1 ->
    wrun (istate b1) (zdrop n d) = Some (st, s2) -> syms = s1 ++ s2 ->
    exists b', run (read_done_loop fuel (if inp + n =? ib_buf_size b then 0 else inp + n) (zlen d - n)) b1 N P
      (if inp + zlen d =? ib_buf_size b then 0 else inp + zlen d) b' N P /\
      scanned b syms b' /\ istate b' = st /\ iok b').
  { intros n b1 s1 s2 Hn Hs1 Hok1 Hw1 ->. pose proof Hs1 as [].
    assert (HLz : zlen (zdrop n d) = zlen d - n) by (apply zlen_zdrop; lia).
    assert (HLE : ib_long_msg b = true -> eos s1 = false /\ eos s2 = false).
    { intros HL%Hl. rewrite eos_app in HL. by apply orb_false_iff in HL. }
    set (inp' := if inp + n =? ib_buf_size b then 0 else inp + n).
    assert (Hinp : inp' + zlen (zdrop n d) <= ib_buf_size b /\ 0 <= inp' < ib_buf_size b /\
      (if inp' + zlen (zdrop n d) =? ib_buf_size b then 0 else inp' + zlen (zdrop n d)) =
      (if inp + zlen d =? ib_buf_size b then 0 else inp + zlen d)).
    { subst inp'. rewrite HLz. zcases; lia. }
    destruct Hinp as (Hi1 & Hi2 & Hi3). rewrite <- HLz, <- Hi3, <- sc_size0.
    destruct (IH (zdrop n d) b1 inp' N P st s2) as (b' & Hr & Hs & Hst & Hok'); try (rewrite ?sc_size0; done).
    { unfold zlen in *. lia. }
    { congruence. }
    { rewrite sc_buf0. subst inp'. destruct (Z.eqb_spec (inp + n) (ib_buf_size b)).
      - rewrite HLz. replace (zlen d - n) with 0 by lia. rewrite Z.add_0_r, slice_nil.
        by rewrite zdrop_all by lia.
      - rewrite HLz. rewrite <- HS at 2. replace (inp + n + (zlen d - n)) with (inp + zlen d) by lia. by apply slice_drop; lia. }
    { by apply bytes_zdrop. }
    { apply (scanned_counters b s1); auto. by intros [? _]%HLE. }
    { rewrite sc_long0. by intros [[_ ?]%HLE _]%andb_prop. }
    exists b'. split_and!; auto. by eapply scanned_trans. }
  assert (Hone : forall ch st1 s1, head d = Some ch -> wstep (istate b) ch = Some (st1, s1) ->
    znth (ib_buf b) inp = Some ch /\ is_byte ch /\
    exists s2, wrun st1 (zdrop 1 d) = Some (st, s2) /\ syms = s1 ++ s2).
  { intros ch st1 s1 Ed Ew. destruct d as [|c d']; [done|]. injection Ed as ->. cbn [wrun] in Hw.
    rewrite Ew in Hw. change (zdrop 1 (ch :: d')) with d'.
    destruct (wrun st1 d') as [[st2 s2]|] eqn:E2; [|done]. injection Hw as <- <-.
    split_and!; [eapply slice_znth; [|exact HS]; lia|by inversion Hb|]. by exists s2. }
  assert (exists ch st1 s1, head d = Some ch /\ wstep (istate b) ch = Some (st1, s1)) as (ch & st1 & s1 & Eh & Ew).
  { destruct d as [|c d']; [zlia|]. cbn [wrun] in Hw. destruct (wstep (istate b) c) as [[st1 s1]|] eqn:E; [|done].
    by exists c, st1, s1. }
  destruct (Hone ch st1 s1 Eh Ew) as (Hnth & Hch & s2 & Hw2 & Esyms).
  eapply (run_bind_ex (gets ib)); [apply run_get|]. cbv zeta.
  destruct (Z.eqb_spec (ib_inp_size_mode b) 0) as [Em|Em]; cbn [negb].
  - destruct (Z.ltb_spec 0 (ib_inp_data_size b)) as [Hds|Hds].
    + set (n := Z.min (ib_inp_data_size b) (zlen d)).
      assert (EL : (if ib_inp_data_size b <? zlen d then (ib_inp_data_size b, 0)
        else (zlen d, ib_inp_data_size b - zlen d)) = (n, ib_inp_data_size b - n)).
      { subst n. zcases; f_equal; lia. }
      rewrite EL. destruct (dec_block _ _ _ n Hok Em Hds) as (E1 & E2 & E3 & E4); [subst n; lia|].
      eapply run_bind_ex; [apply run_assert; by rewrite E1|].
      eapply run_bind_ex; [apply run_update|].
      unfold istate in Hw. rewrite E2, <- (ztake_zdrop n d), wrun_app, wrun_block in Hw;
        [|lia|rewrite zlen_ztake; subst n; lia]. rewrite zlen_ztake in Hw by (subst n; lia).
      destruct (wrun (wdata _) (zdrop n d)) as [[st3 s3]|] eqn:E5; [|done]. injection Hw as -> <-.
      assert (Ei : (if ib_buf_size b <=? inp + n then inp + n - ib_buf_size b else inp + n) =
        (if inp + n =? ib_buf_size b then 0 else inp + n)) by (subst n; zcases; lia).
      rewrite Ei. apply (HT n _ (ztake n d) s3); [subst n; lia| |exact E4|by unfold istate; cbn; rewrite E3|done].
      apply (scanned_ext b [] (ztake n d)).
      { by rewrite (bytes_eoms (ztake n d)) by auto with bytes. }
      { by rewrite (bytes_eos (ztake n d)) by auto with bytes. }
      apply scanned_update. exists (ib_inp_esc b), (ib_inp_size_mode b), (ib_inp_data_size b - n). by destruct b.
    + eapply run_bind_ex; [by apply run_option|]. 
      destruct (run_char b N P ch st1 s1 Hok Em ltac:(lia) Hch Hc Ew) as (b1 & Hr1 & Hs1 & Hst1 & Hok1).
      { intros HL%Hl. rewrite Esyms, eos_app in HL. by apply orb_false_iff in HL as [? _]. }
      eapply run_bind_ex; [exact Hr1|]. apply (HT 1 b1 s1 s2); auto; [lia|by rewrite Hst1].
  - destruct (dec_size _ _ _ ch st1 s1 Hok Em Ew) as (v & Hv & -> & E1 & E2 & E3).
    eapply run_bind_ex; [apply run_assert; by rewrite E1|].
    eapply run_bind_ex; [by apply run_option|]. eapply run_bind_ex; [by apply run_option|].
    eapply run_bind_ex; [apply run_update|]. apply (HT 1 _ [] s2); auto; [lia| |].
    + apply scanned_update. exists (ib_inp_esc b), (if Z.land ch 128 =? 0 then 0 else ib_inp_size_mode b + 1),
        (Z.lor (ib_inp_data_size b) v). by destruct b.
    + unfold istate. cbn. by rewrite E2.
Qed.
End loop.
