(* ===== verification/InputBufDone.v ===== *)
(** * Input buffer: completed reads ([ibuf_read_done])

    The data of a completed read become part of the ring, the buffer grows when
    it is full, and either the next read is posted or there is a message to
    handle. *)

From S2P Require Import Prelude Ring Streams Wire InputBuf InputBufSpec InputBufScan.

(** Nothing but the place of the data and the announced messages change. *)
Record kept (b b' : InputBuf) : Prop := {
  kp_istate : istate b' = istate b;
  kp_iok : iok b -> iok b';
  kp_ostate : ostate b' = ostate b;
  kp_ook : ook b -> ook b';
  kp_eof : ib_eof b' = ib_eof b;
  kp_msgs : msgs b' = msgs b;
  kp_count : ib_message_count b <= ib_message_count b';
  kp_counters : counters_ok b -> counters_ok b';
  kp_active : ib_handling_msg b' = HandleMsgActive <-> ib_handling_msg b = HandleMsgActive;
  kp_idle : ib_handling_msg b' = HandleMsgIdle ->
    ib_handling_msg b = HandleMsgIdle /\ ib_message_count b' = ib_message_count b;
  kp_triggered : ib_handling_msg b' = HandleMsgTriggered ->
    ib_handling_msg b = HandleMsgTriggered \/ 0 < ib_message_count b';
}.

(** The ring of [b'] is the ring of [b] with [d] behind it; the window of the
    reader is the same data, unless it was not valid before. *)
Record moved (b : InputBuf) (d : bytes) (b' : InputBuf) : Prop := {
  mv_geometry : geometry b';
  mv_bytes : is_bytes (ib_buf b) -> is_bytes (ib_buf b');
  mv_ring : ring (ib_buf b') (ib_cur b') (ib_inp b') = ring (ib_buf b) (ib_cur b) (ib_inp b) ++ d;
  mv_top : ib_cur b' = ib_buf_size b' -> ib_end b' = ib_cur b';
  mv_window : window_ok b -> window_ok b' /\
    ring (ib_buf b') (ib_end b') (ib_inp b') = ring (ib_buf b) (ib_end b) (ib_inp b) ++ d /\
    slice (ib_buf b') (ib_cur b') (ib_end b') = slice (ib_buf b) (ib_cur b) (ib_end b);
}.

Lemma kept_refl b : kept b b.
Proof. constructor; auto. done. Qed.

Lemma kept_trans b1 b2 b3 : kept b1 b2 -> kept b2 b3 -> kept b1 b3.
Proof.
  intros [] []. constructor; auto; try congruence; [lia|by rewrite kp_active1| |].
  - intros HI. destruct (kp_idle1 HI) as [HI' ?]. destruct (kp_idle0 HI'). split; congruence.
  - intros [HT|HT]%kp_triggered1; [|by right]. destruct (kp_triggered0 HT); [by left|right; lia].
Qed.

Lemma moved_refl b : geometry b -> (ib_cur b = ib_buf_size b -> ib_end b = ib_cur b) -> moved b [] b.
Proof. intros. constructor; rewrite ?app_nil_r; auto. Qed.

Lemma moved_trans b1 d1 b2 d2 b3 : moved b1 d1 b2 -> moved b2 d2 b3 -> moved b1 (d1 ++ d2) b3.
Proof.
  intros [] []. constructor; auto.
  - by rewrite mv_ring1, mv_ring0, app_assoc.
  - intros Hw. destruct (mv_window0 Hw) as (Hw2 & R2 & S2). destruct (mv_window1 Hw2) as (Hw3 & R3 & S3).
    split_and!; [done|by rewrite R3, R2, app_assoc|congruence].
Qed.

Lemma rewind_kept b : kept b (rewind b).
Proof. unfold rewind. destruct (_ && _); constructor; auto; done. Qed.

Lemma rewind_moved b : geometry b -> (ib_cur b = ib_buf_size b -> ib_end b = ib_cur b) ->
  moved b [] (rewind b).
Proof.
  intros Hg Ht. pose proof Hg as (H1 & H2 & H3 & H4). unfold rewind.
  destruct (ib_eof b) eqn:Ee; [by apply moved_refl|]. cbn [andb negb].
  destruct (Z.eqb_spec (ib_cur b) (ib_buf_size b)) as [E|]; [|by apply moved_refl].
  specialize (Ht E). constructor; unfold geometry, window_ok, ring_max in *; cbn; rewrite ?app_nil_r.
  - split_and!; lia.
  - done.
  - rewrite E, <- H1, ring_wrap by lia. done.
  - lia.
  - intros _. rewrite Ht, E, <- H1, ring_wrap, !slice_nil by lia. split_and!; zcases; done || lia.
Qed.

Lemma rewind_pending b P : geometry b -> pending_ok b P -> pending_ok (rewind b) P.
Proof.
  intros (H1 & H2 & H3 & H4) HP. unfold rewind. destruct (_ && _) eqn:E; [|done].
  apply andb_prop in E as [_ E%Z.eqb_eq]. destruct P as [[off n]|]; [|done].
  unfold pending_ok, free_room, room in *. cbn. rewrite E in HP.
  rewrite (proj2 (Z.leb_gt _ _)) in HP by lia. rewrite (proj2 (Z.leb_le _ _)) by lia. lia.
Qed.

(** A full buffer grows without losing anything. *)
Lemma full_ring m p inp : 0 <= p < zlen m -> 0 <= inp < zlen m -> room (zlen m) p inp = 0 ->
  ring m p inp = ztake (zlen m - 1) (zdrop p m ++ ztake p m).
Proof.
  intros Hp Hi Hr. unfold room, ring in *. destruct (Z.leb_spec p inp).
  - assert (p = 0) as -> by lia. replace inp with (zlen m - 1) by lia. rewrite slice_0, zdrop_0.
    change (ztake 0 m) with (@nil Z). by rewrite app_nil_r.
  - replace p with (inp + 1) by lia. unfold ztake at 2. rewrite take_app.
    rewrite take_ge; [|unfold zdrop; rewrite length_drop; unfold zlen in *; lia]. f_equal.
    unfold ztake, zdrop. rewrite take_take, length_drop. f_equal. unfold zlen in *. lia.
Qed.

Lemma alloc_bytes n : is_bytes (alloc n).
Proof. unfold alloc. apply Forall_replicate. done. Qed.

Lemma grow_ok b : geometry b -> ib_cur b < ib_buf_size b -> free_room b = 0 ->
  exists b', ibuf_grow b = Some b' /\ kept b b' /\ moved b [] b'.
Proof.
  intros (H1 & H2 & H3 & H4) Hc Hr. unfold ibuf_grow, free_room in *.
  set (m := ib_buf b) in *. set (c := ib_cur b) in *. set (n := ib_buf_size b) in *.
  replace (n - (n - c)) with c by lia.
  rewrite (mem_read_ok m c (n - c)) by lia. cbn [option_bind mbind].
  rewrite (ztake_all (n - c) (zdrop c m)) by (rewrite zlen_zdrop; lia).
  assert (HZ : zlen (zdrop c m) = n - c) by (rewrite zlen_zdrop; lia).
  assert (HT : zlen (ztake c m) = c) by (rewrite zlen_ztake; lia).
  destruct (mem_write_ok (alloc (n * 2)) 0 (zdrop c m)) as (t1 & E1 & L1 & T1);
    [lia|rewrite zlen_alloc; lia|]. rewrite zlen_alloc in L1 by lia. rewrite E1. cbn [option_bind mbind].
  rewrite (mem_read_ok m 0 c) by lia. cbn [option_bind mbind]. rewrite zdrop_0.
  destruct (mem_write_ok t1 (n - c) (ztake c m)) as (t2 & E2 & L2 & T2); [lia|lia|].
  rewrite E2.
  rewrite Z.add_0_l, HZ in T1. rewrite T1, HT in T2. replace (n - c + c) with n in T2 by lia.
  change (ztake 0 (alloc (n * 2)) ++ zdrop c m) with (zdrop c m) in T2.
  assert (HR : ring t2 0 (n - 1) = ring m c (ib_inp b)).
  { rewrite (full_ring m); rewrite ?H1; [|lia|lia|done]. rewrite <- T2. unfold ring. rewrite (proj2 (Z.leb_le _ _)) by lia.
    rewrite slice_0. unfold ztake. rewrite take_take. f_equal. lia. }
  assert (HQ : forall q, c <= q <= ring_max n c (ib_inp b) ->
    q - c <= n - 1 /\ slice t2 0 (q - c) = slice m c q /\ ring t2 (q - c) (n - 1) = ring m q (ib_inp b)).
  { intros q Hq. assert (Hq' : q - c <= n - 1) by (unfold ring_max, room in *; zcases; destruct (_ <=? _) eqn:?; lia).
    assert (E : slice t2 0 (q - c) ++ ring t2 (q - c) (n - 1) = slice m c q ++ ring m q (ib_inp b)).
    { rewrite <- !ring_split; rewrite ?H1; try lia; [done|].
      unfold ring_max. rewrite (proj2 (Z.leb_le _ _)) by lia. lia. }
    split; [done|]. apply app_inj_1; [|done].
    assert (HL : zlen (slice t2 0 (q - c)) = zlen (slice m c q)); [|unfold zlen in HL; lia].
    unfold ring_max in Hq. rewrite !slice_len; [lia|lia|destruct (_ <=? _); lia|lia|lia]. }
  eexists. split; [done|]. split; [constructor; auto; done|].
  constructor; unfold geometry, window_ok; cbn; rewrite ?app_nil_r, ?L2, ?L1.
  - split_and!; lia.
  - intros Hm. eapply mem_write_bytes; [exact E2| |by apply bytes_ztake].
    eapply mem_write_bytes; [exact E1|apply alloc_bytes|by apply bytes_zdrop].
  - exact HR.
  - lia.
  - intros Hw. destruct (HQ (ib_end b) Hw) as (A & B & C). unfold ring_max. split_and!; [lia| |done|done].
    rewrite (proj2 (Z.leb_le _ _)) by lia. lia.
Qed.

Section read_done.
Context `{InputBufOwner St wait_read}.

(** The two uses of [ibuf_free_size]. *)
Lemma run_room b N P : geometry b -> (ib_cur b = ib_buf_size b -> ib_end b = ib_cur b) ->
  exists b', run ibuf_free_size b N P (free_size b) b' N P /\ kept b b' /\ moved b [] b' /\
    free_size b' = free_size b /\ (ib_eof b = false -> ib_cur b' < ib_buf_size b') /\
    free_room b' = free_room b /\ ib_buf_size b' = ib_buf_size b.
Proof.
  intros Hg Ht. exists (rewind b). split; [by apply run_free_size|].
  split; [apply rewind_kept|]. split; [by apply rewind_moved|].
  pose proof Hg as (H1 & H2 & H3 & H4). unfold rewind.
  destruct (ib_eof b) eqn:Ee; [by split_and!|]. cbn [andb negb].
  destruct (Z.eqb_spec (ib_cur b) (ib_buf_size b)) as [E|]; [|split_and!; done || lia].
  unfold free_size, free_room, room. cbn. rewrite Ee. split_and!; [|lia|zcases; lia|done].
  rewrite E, Z.eqb_refl, orb_true_r. done.
Qed.

(** The full buffer grows, up to its limit. *)
Lemma run_grow b N P : geometry b -> (ib_cur b = ib_buf_size b -> ib_end b = ib_cur b) ->
  exists b', run (b ← gets ib;
      if negb (ib_eof b) then
        size ← ibuf_free_size;
        b ← gets ib;
        (if (size =? 0) && (ib_buf_size b <? MAX_BUF_SIZE) then
           b ← of_option (ibuf_grow b); update (fun _ => b)
         else mret tt)
      else mret tt) b N P tt b' N P /\ kept b b' /\ moved b [] b'.
Proof.
  intros Hg Ht. eapply (run_bind_ex (gets ib)); [apply run_get|].
  destruct (ib_eof b) eqn:Ee; cbn [negb].
  { exists b. split; [apply run_ret|]. split; [apply kept_refl|by apply moved_refl]. }
  destruct (run_room b N P Hg Ht) as (b1 & R1 & K1 & M1 & F1 & C1 & O1 & S1).
  eapply run_bind_ex; [exact R1|]. eapply run_bind_ex; [apply run_get|].
  destruct (Z.eqb_spec (free_size b) 0) as [E|]; cbn [andb]; [|by exists b1; split; [apply run_ret|]].
  destruct (ib_buf_size b1 <? MAX_BUF_SIZE); [|by exists b1; split; [apply run_ret|]].
  pose proof M1 as [G1 _ _ _ _]. pose proof (free_size_room b Hg) as (_ & _ & HR).
  destruct (grow_ok b1 G1) as (b2 & E2 & K2 & M2); [auto|destruct (HR E); congruence|].
  exists b2. split; [eapply run_bind; [by apply run_option|apply run_update]|].
  split; [by eapply kept_trans|]. change (@nil Z) with (@nil Z ++ []). by eapply moved_trans.
Qed.

Lemma long_ok b : ib_message_count b = 0 -> counters_ok b ->
  kept b (triggered (set_ib_message_count (ib_message_count b + 1) (set_ib_long_msg true b))) /\
  ib_eof b = false.
Proof.
  intros Hc [Hm Hl]. unfold msgs in *.
  assert (ib_eof b = false /\ ib_long_msg b = false) as [Ee El].
  { destruct (ib_eof b), (ib_long_msg b); cbn in *; lia || done. }
  split; [|done]. constructor; unfold msgs; cbn; rewrite ?Ee, ?El; auto; cbn; try lia.
  - intros _. unfold counters_ok, msgs. cbn. rewrite Ee. cbn. split; [lia|]. split; [lia|done].
  - by destruct (ib_handling_msg b).
  - by destruct (ib_handling_msg b).
Qed.

Lemma run_read_next b N : geometry b -> (ib_cur b = ib_buf_size b -> ib_end b = ib_cur b) ->
  counters_ok b -> 
  exists b' P', run ibuf_read_next b N None tt b' N P' /\ kept b b' /\ moved b [] b' /\
    pending_ok b' P' /\ (P' = None -> 0 < ib_message_count b').
Proof.
  intros Hg Ht Hc. destruct (run_grow b N None Hg Ht) as (b1 & R1 & K1 & M1).
  pose proof M1 as [G1 _ _ T1 _].
  destruct (run_room b1 N None G1 T1) as (b2 & R2 & K2 & M2 & F2 & _ & _ & _).
  pose proof (kept_trans _ _ _ K1 K2) as K3. pose proof (moved_trans _ _ _ _ _ M1 M2) as M3.
  pose proof M2 as [G2 _ _ T2 _]. pose proof (kp_counters _ _ K3 Hc) as Hc2.
  assert (HE : forall b' P', run (if 0 <? free_size b1 then ibuf_trigger_read else
      b ← gets ib; if ib_message_count b =? 0 then update (set_ib_long_msg true) ;; ibuf_new_message
      else mret tt) b2 N None tt b' N P' -> run ibuf_read_next b N None tt b' N P').
  { intros b' P' HR. unfold ibuf_read_next. 
    assert (HA : forall (m1 : InputBuf -> M St unit) (m2 : M St unit), run ((b ← gets ib; m1 b) ;; m2) b N None tt b' N P' ->
      run (b ← gets ib; m1 b ;; m2) b N None tt b' N P').
    { intros m1 m2 HR' s Hs. destruct (HR' s Hs) as (s' & E & Hs'). exists s'. split; [|done].
      by rewrite bind_assoc in E. }
    apply (HA (fun b => if negb (ib_eof b) then _ else _)). eapply run_bind; [exact R1|]. eapply run_bind; [exact R2|exact HR]. }
  destruct (Z.ltb_spec 0 (free_size b1)) as [Hf|Hf].
  - exists (rewind b2), (triggered_read b2 None).
    split; [apply HE; by apply run_trigger_read|].
    split; [eapply kept_trans; [exact K3|apply rewind_kept]|].
    split; [change (@nil Z) with (([] ++ []) ++ @nil Z); eapply moved_trans; [exact M3|by apply rewind_moved]|].
    split; [by apply rewind_pending, triggered_read_ok|].
    unfold triggered_read. rewrite F2, (proj2 (Z.ltb_lt _ _) Hf). done.
  - destruct (Z.eqb_spec (ib_message_count b2) 0) as [E0|E0].
    + destruct (long_ok b2 E0 Hc2) as [K4 _]. eexists _, None. split.
      { apply HE. eapply run_bind; [apply run_get|]. rewrite (proj2 (Z.eqb_eq _ _) E0).
        eapply run_bind; [apply run_update|]. apply run_new_message. cbn. lia. }
      split; [by eapply kept_trans|]. split; [|split; [done|cbn; lia]].
      change (@nil Z) with (([] ++ []) ++ @nil Z). eapply moved_trans; [exact M3|].
      by constructor; cbn; rewrite ?app_nil_r.
    + exists b2, None. split.
      { apply HE. eapply run_bind; [apply run_get|]. rewrite (proj2 (Z.eqb_neq _ _) E0). apply run_ret. }
      split; [done|]. split; [done|]. split; [done|]. pose proof (counters_nonneg b2 Hc2). lia.
Qed.

(** What a completed read does to the buffer besides the data themselves. *)
Record received (b : InputBuf) (st : wstate) (syms : list Z) (b' : InputBuf) : Prop := {
  rc_istate : istate b' = st;
  rc_iok : iok b';
  rc_ostate : ostate b' = ostate b;
  rc_ook : ook b -> ook b';
  rc_eof : ib_eof b' = eos syms;
  rc_msgs : msgs b' = msgs b + eoms syms;
  rc_count : ib_message_count b <= ib_message_count b';
  rc_counters : counters_ok b';
  rc_active : ib_handling_msg b' = HandleMsgActive <-> ib_handling_msg b = HandleMsgActive;
  rc_idle : ib_handling_msg b' = HandleMsgIdle ->
    ib_handling_msg b = HandleMsgIdle /\ ib_message_count b' = ib_message_count b;
  rc_triggered : ib_handling_msg b' = HandleMsgTriggered ->
    ib_handling_msg b = HandleMsgTriggered \/ 0 < ib_message_count b';
}.

Lemma scanned_count b s b' : scanned b s b' -> counters_ok b -> ib_message_count b <= ib_message_count b'.
Proof.
  intros [] [Hm HL]. pose proof (eoms_nonneg s). unfold msgs in *. rewrite sc_eof, sc_long in sc_msgs.
  destruct (ib_long_msg b) eqn:El; cbn [andb b2z] in *.
  - destruct (HL eq_refl) as [HM HE]. rewrite HE in *. cbn [orb b2z] in *.
    destruct (Z.eqb_spec (eoms s) 0), (eos s); cbn [b2z] in *; lia.
  - destruct (ib_eof b), (eos s); cbn [orb b2z] in *; lia.
Qed.

Lemma run_read_done b N d st syms : geometry b -> (ib_cur b = ib_buf_size b -> ib_end b = ib_cur b) ->
  iok b -> counters_ok b -> ib_eof b = false -> 0 < zlen d -> ib_inp b + zlen d <= ib_buf_size b ->
  zlen d <= free_room b -> slice (ib_buf b) (ib_inp b) (ib_inp b + zlen d) = d -> is_bytes d ->
  wrun (istate b) d = Some (st, syms) -> (ib_long_msg b = true -> eos syms = false) ->
  exists b' P', run (ibuf_read_done (zlen d)) b N None tt b' N P' /\ moved b d b' /\
    received b st syms b' /\ pending_ok b' P' /\ (P' = None -> 0 < ib_message_count b').
Proof.
  intros Hg Ht Hok Hc He Hp Hsz Hr Hs Hb Hw Hl. pose proof Hg as (H1 & H2 & H3 & H4).
  destruct (scan_loop (S (Z.to_nat (zlen d))) d b (ib_inp b) N None st syms)
    as (b1 & R1 & S1 & St1 & Ok1); auto; [unfold zlen; lia|]. pose proof S1 as [].
  set (inp' := if ib_inp b + zlen d =? ib_buf_size b then 0 else ib_inp b + zlen d) in *.
  set (b2 := set_ib_inp inp' b1).
  assert (M2 : moved b d b2).
  { unfold free_room in Hr. rewrite <- H1 in *. unfold b2.
    constructor; unfold geometry, window_ok; cbn; rewrite ?sc_buf, ?sc_size, ?sc_cur, ?sc_end, <- ?H1; auto.
    - split_and!; try lia; subst inp'; zcases; lia.
    - subst inp'. by rewrite <- H1, ring_extend, Hs by lia.
    - intros Hw'. assert (Hend : ib_end b <= zlen (ib_buf b) /\ zlen d <= room (zlen (ib_buf b)) (ib_end b) (ib_inp b)).
      { unfold ring_max, room in *. destruct (Z.leb_spec (ib_cur b) (ib_inp b)); zcases; lia. }
      split_and!; [lia| |subst inp'; by rewrite <- H1, ring_extend, Hs by lia|done].
      subst inp'. unfold ring_max, room in *. destruct (Z.leb_spec (ib_cur b) (ib_inp b)); zcases; lia. }
  pose proof M2 as [G2 _ _ T2 _]. pose proof (scanned_counters _ _ _ S1 Hc Hl) as Hc1.
  destruct (run_read_next b2 N G2 T2 Hc1) as (b3 & P3 & R3 & [] & M3 & HP3 & Hprog).
  exists b3, P3. split_and!; [| | |done|done].
  - unfold ibuf_read_done. rewrite (proj2 (Z.eqb_neq _ _)) by lia.
    eapply run_bind; [apply run_get|]. eapply run_bind; [apply run_assert; by rewrite He|].
    eapply run_bind; [exact R1|]. eapply run_bind; [apply run_update|exact R3].
  - rewrite <- (app_nil_r d). by eapply moved_trans.
  - pose proof (scanned_count b syms b1 S1 Hc).
    constructor.
    + by rewrite kp_istate0.
    + by apply kp_iok0.
    + rewrite kp_ostate0. unfold ostate. cbn. by rewrite sc_esc, sc_mode, sc_data.
    + intros Hoo. apply kp_ook0. unfold ook in *. cbn. by rewrite sc_esc, sc_mode, sc_data.
    + rewrite kp_eof0. cbn. by rewrite sc_eof, He.
    + rewrite kp_msgs0. exact sc_msgs.
    + cbn in kp_count0. lia.
    + by apply kp_counters0.
    + rewrite kp_active0. exact sc_active.
    + intros HI. destruct (kp_idle0 HI) as [HI' Ei]. destruct (sc_idle HI'). cbn in Ei. split; congruence.
    + intros [HT|HT]%kp_triggered0; [|by right]. destruct (sc_triggered HT) as [|HM]; [by left|right].
      change (ib_message_count b2) with (ib_message_count b1) in kp_count0. unfold msgs in HM.
      destruct (ib_long_msg b1); cbn in *; lia.
Qed.
End read_done.
