(* ===== verification/InputBufRead.v ===== *)
(** * Input buffer: reading ([ibuf_get_more])

    The decoder on the reader's side delivers the symbols of the message in
    progress, whatever the place of the data in the buffer, and waits for more
    data when the message is longer than the buffer. *)

From S2P Require Import Prelude Ring Streams Wire InputBuf InputBufSpec InputBufScan InputBufDone.

Section message.

(** The symbols after the message that is being read, and whether the end of the
    stream has been seen. *)
Context (nxt : list Z) (ef : bool).

(** A message is being handled, the decoder is at [p] and has to deliver [data]
    before the end of the message; all data that follow, in the buffer or not yet
    received, are well-formed. *)
Record reading (b : InputBuf) (N : bytes) (P : option (Z * Z)) (p : Z) (data : list Z) : Prop := {
  rd_geometry : geometry b;
  rd_bytes : is_bytes (ib_buf b);
  rd_net : is_bytes N;
  rd_iok : iok b;
  rd_ook : ook b;
  rd_counters : counters_ok b;
  rd_pending : pending_ok b P;
  rd_active : ib_handling_msg b = HandleMsgActive;
  rd_count : 0 < ib_message_count b;
  rd_ef : ib_eof b = ef;
  rd_eof : ib_eof b = true -> N = [];
  rd_p : 0 <= p <= ib_buf_size b;
  rd_room : free_room b <= room (ib_buf_size b) p (ib_inp b);
  rd_data : is_bytes data;
  rd_syms : exists s1 s2 st, wrun (ostate b) (ring (ib_buf b) p (ib_inp b)) = Some (istate b, s1) /\
    wrun (istate b) N = Some (st, s2) /\ s1 ++ s2 = data ++ MARKER_EOM :: nxt /\
    eos (s1 ++ s2) = false /\ msgs b = eoms s1;
}.

(** Between two messages: [syms] are the symbols that have arrived or are on the
    way. *)
Record boundary (b : InputBuf) (N : bytes) (P : option (Z * Z)) (syms : list Z) : Prop := {
  bd_geometry : geometry b;
  bd_bytes : is_bytes (ib_buf b);
  bd_net : is_bytes N;
  bd_iok : iok b;
  bd_ook : ook b;
  bd_counters : counters_ok b;
  bd_pending : pending_ok b P;
  bd_active : ib_handling_msg b <> HandleMsgActive;
  bd_idle : ib_handling_msg b = HandleMsgIdle -> ib_message_count b = 0;
  bd_triggered : ib_handling_msg b = HandleMsgTriggered -> 0 < ib_message_count b;
  bd_eof : ib_eof b = true -> N = [];
  bd_window : ib_cur b = ib_end b;
  bd_syms : exists s1 s2 st, wrun (ostate b) (ring (ib_buf b) (ib_cur b) (ib_inp b)) = Some (istate b, s1) /\
    wrun (istate b) N = Some (st, s2) /\ s1 ++ s2 = syms /\ eos (s1 ++ s2) = false /\ msgs b = eoms s1;
}.

(** A read is posted, or there is something to handle. *)
Definition progress (b : InputBuf) (P : option (Z * Z)) : Prop := P = None -> 0 < ib_message_count b.

(** The same between two calls: the decoder is at the end of the window. *)
Record readable (b : InputBuf) (N : bytes) (P : option (Z * Z)) (data : list Z) : Prop := {
  rb_window : window_ok b;
  rb_reading : exists rest, data = slice (ib_buf b) (ib_cur b) (ib_end b) ++ rest /\
    reading b N P (ib_end b) rest;
}.

(** [b'] is [b] with another window and another state of the reader's decoder. *)
Record repositioned (b : InputBuf) (c e : Z) (b' : InputBuf) : Prop := {
  rp_buf : ib_buf b' = ib_buf b;
  rp_size : ib_buf_size b' = ib_buf_size b;
  rp_inp : ib_inp b' = ib_inp b;
  rp_cur : ib_cur b' = c;
  rp_end : ib_end b' = e;
  rp_istate : istate b' = istate b;
  rp_iok : iok b -> iok b';
  rp_eof : ib_eof b' = ib_eof b;
  rp_long : ib_long_msg b' = ib_long_msg b;
  rp_count : ib_message_count b' = ib_message_count b;
  rp_handling : ib_handling_msg b' = ib_handling_msg b;
}.

(** Moving the decoder over [l], which yields [syms]. *)
Lemma reading_move b N P p data b' c e q l syms data' :
  reading b N P p data -> repositioned b c e b' -> ook b' ->
  ring (ib_buf b) p (ib_inp b) = l ++ ring (ib_buf b) q (ib_inp b) ->
  wrun (ostate b) l = Some (ostate b', syms) -> data = syms ++ data' ->
  0 <= q <= ib_buf_size b -> 0 <= c <= ib_buf_size b ->
  free_room b <= room (ib_buf_size b) c (ib_inp b) ->
  room (ib_buf_size b) c (ib_inp b) <= room (ib_buf_size b) q (ib_inp b) ->
  reading b' N P q data'.
Proof.
  intros [] [] Hook HR Hw -> Hq Hc Hroom Hroom2. unfold geometry, free_room, counters_ok, msgs in *.
  constructor; unfold geometry, free_room, counters_ok, msgs;
    rewrite ?rp_buf0, ?rp_size0, ?rp_inp0, ?rp_cur0, ?rp_istate0, ?rp_eof0, ?rp_long0, ?rp_count0, ?rp_handling0; auto.
  - split_and!; lia.
  - destruct P as [[off n]|]; [|done]. unfold pending_ok, free_room in *.
    rewrite rp_size0, rp_inp0, rp_cur0. lia.
  - by apply Forall_app in rd_data0 as [_ ?].
  - destruct rd_syms0 as (s1 & s2 & st & W1 & W2 & E & Ee & Em).
    rewrite HR, (wrun_step _ _ _ _ _ Hw) in W1.
    destruct (wrun (ostate b') (ring _ q _)) as [[st1 s1']|]; [|done]. injection W1 as -> <-.
    rewrite <- !app_assoc in E. apply app_inv_head in E.
    apply Forall_app in rd_data0 as [Hb _].
    rewrite <- app_assoc, eos_app, (bytes_eos syms Hb) in Ee.
    rewrite eoms_app, (bytes_eoms syms Hb) in Em.
    exists s1', s2, st. split_and!; auto.
Qed.

Lemma window_room b e : geometry b -> ib_cur b <= e <= ring_max (ib_buf_size b) (ib_cur b) (ib_inp b) ->
  0 <= e <= ib_buf_size b /\ free_room b <= room (ib_buf_size b) e (ib_inp b).
Proof.
  intros (H1 & H2 & H3 & H4) Hw. unfold window_ok, ring_max, free_room, room in *.
  destruct (Z.leb_spec (ib_cur b) (ib_inp b)); zcases; lia.
Qed.

Lemma readable_kept b N P data b' P' : readable b N P data -> kept b b' -> moved b [] b' ->
  pending_ok b' P' -> readable b' N P' data.
Proof.
  intros [Hw (rest & -> & [])] [] [] HP. destruct (mv_window Hw) as (Hw' & HR & HS).
  destruct (window_room b' (ib_end b') mv_geometry Hw') as [He Hr].
  constructor; [done|]. exists rest. rewrite HS. split; [done|].
  constructor; auto; [by apply kp_active|lia|congruence|rewrite kp_eof; auto|].
  rewrite HR, app_nil_r, kp_ostate, kp_istate, kp_msgs. done.
Qed.

(** The next read is posted when there is room for it. *)
Lemma readable_trigger b N P data : readable b N P data ->
  readable (rewind b) N (triggered_read b P) data /\
  (ib_cur b = ib_buf_size b -> ib_end b = ib_cur b) /\ geometry b.
Proof.
  intros HR. pose proof HR as [Hw (rest & _ & [])].
  assert (Ht : ib_cur b = ib_buf_size b -> ib_end b = ib_cur b).
  { intros E. unfold window_ok, ring_max, geometry in *. rewrite (proj2 (Z.leb_gt _ _)) in Hw by lia. lia. }
  split; [|done]. eapply readable_kept; [exact HR|apply rewind_kept|by apply rewind_moved|].
  by apply rewind_pending, triggered_read_ok.
Qed.

Lemma scan_plain_ok l : forall n, 0 <= scan_plain l n <= Z.of_nat n /\ scan_plain l n <= zlen l /\
  ESC ∉ ztake (scan_plain l n) l.
Proof.
  induction l as [|b l IH]; intros [|n]; cbn [scan_plain]; try (split_and!; try apply not_elem_of_nil; unfold zlen; simpl; lia).
  destruct (Z.eqb_spec b ESC) as [|Hne].
  { split_and!; try lia; [pose proof (zlen_nonneg (b :: l)); lia|apply not_elem_of_nil]. }
  destruct (IH n) as (H1 & H2 & H3). rewrite zlen_cons. split_and!; try lia.
  unfold ztake. replace (Z.to_nat (1 + scan_plain l n)) with (S (Z.to_nat (scan_plain l n))) by lia.
  cbn [take]. apply not_elem_of_cons. split; [congruence|exact H3].
Qed.

(** Data without the marker come before it. *)
Lemma before_marker {A} (l : list A) : forall x data m r, l ++ x = data ++ m :: r -> m ∉ l -> exists k, data = l ++ k.
Proof.
  induction l as [|b l IH]; intros x data m r E Hm; [by exists data|].
  apply not_elem_of_cons in Hm as [Hne Hm]. destruct data as [|c data]; [by injection E as ->|].
  injection E as -> E. destruct (IH _ _ _ _ E Hm) as [k ->]. by exists k.
Qed.

(** After the end of a message more is read. *)
Lemma boundary_trigger b N P syms : boundary b N P syms -> 0 < free_room b ->
  boundary (rewind b) N (triggered_read b P) syms /\ progress (rewind b) (triggered_read b P) /\
  ib_eof (rewind b) = ib_eof b.
Proof.
  intros [] Hr. pose proof bd_geometry0 as (H1 & H2 & H3 & H4).
  assert (Ht : ib_cur b = ib_buf_size b -> ib_end b = ib_cur b) by congruence.
  pose proof (rewind_moved b bd_geometry0 Ht) as []. pose proof (rewind_kept b) as [].
  assert (HF : ib_handling_msg (rewind b) = ib_handling_msg b /\ ib_message_count (rewind b) = ib_message_count b /\
    ib_cur (rewind b) = ib_end (rewind b)).
  { unfold rewind. destruct (_ && _); by split_and!. }
  destruct HF as (F1 & F2 & F3). split; [|split; [|done]].
  - constructor; rewrite ?F1, ?F2, ?kp_eof, ?kp_msgs; auto.
    + by apply rewind_pending, triggered_read_ok.
    + by rewrite mv_ring, app_nil_r, kp_ostate, kp_istate.
  - unfold progress, triggered_read. rewrite F2. pose proof (free_size_room b bd_geometry0) as (HF1 & _ & HF2).
    destruct (Z.ltb_spec 0 (free_size b)); [done|]. intros _. destruct HF2 as [He|]; [lia| |lia].
    destruct bd_counters0 as [Hm Hl]. unfold msgs in *. rewrite He in *. destruct (ib_long_msg b); cbn in *; [|lia].
    by destruct Hl.
Qed.

(** ** One call *)
Section get_more.
Context `{InputBufOwner St wait_read}.

(** The end of a call that delivers data: the window is set, and more is read. *)
Lemma run_finish b N P data (f : InputBuf -> InputBuf) ch : readable (f b) N P data ->
  exists b' P', run (A := Z) (update f ;; ibuf_trigger_read ;; mret ch) b N P ch b' N P' /\
    readable b' N P' data.
Proof.
  intros HR. destruct (readable_trigger _ _ _ _ HR) as (HR' & Ht & Hg).
  exists (rewind (f b)), (triggered_read (f b) P). split; [|done].
  eapply run_bind; [apply run_update|]. eapply run_bind; [by apply run_trigger_read|apply run_ret].
Qed.

(** Data from [p] to [e], all of them symbols of the message, become the
    window. *)
Lemma reading_window b N P p ch rest b' e peeking : reading b N P p (ch :: rest) ->
  p < e <= ring_max (ib_buf_size b) p (ib_inp b) -> p <> ib_inp b -> znth (ib_buf b) p = Some ch ->
  repositioned b (if peeking : bool then p else p + 1) e b' -> ook b' ->
  wrun (ostate b) (slice (ib_buf b) p e) = Some (ostate b', slice (ib_buf b) p e) ->
  readable b' N P (if peeking then ch :: rest else rest).
Proof.
  intros HR He Hp Hch Hb' Hook Hw. pose proof HR as [Hg _ _ _ _ _ _ _ _ _ _ Hpr Hroom _ Hsy].
  pose proof Hg as (H1 & H2 & H3 & H4). set (c := if peeking then p else p + 1) in *.
  assert (HS : ring (ib_buf b) p (ib_inp b) = slice (ib_buf b) p e ++ ring (ib_buf b) e (ib_inp b)).
  { apply ring_split; rewrite ?H1; lia. }
  assert (Hmax : ring_max (ib_buf_size b) p (ib_inp b) <= ib_buf_size b) by (unfold ring_max; zcases; lia).
  assert (Hc : c <= e /\ e <= ring_max (ib_buf_size b) c (ib_inp b) /\ 0 <= c /\
    room (ib_buf_size b) p (ib_inp b) <= room (ib_buf_size b) c (ib_inp b) /\
    room (ib_buf_size b) c (ib_inp b) <= room (ib_buf_size b) e (ib_inp b)).
  { subst c. unfold ring_max, room in *. destruct peeking, (Z.leb_spec p (ib_inp b)); zcases; lia. }
  assert (HD : exists r, ch :: rest = slice (ib_buf b) p e ++ r).
  { destruct Hsy as (s1 & s2 & st & W1 & W2 & E & _). rewrite HS, (wrun_step _ _ _ _ _ Hw) in W1.
    destruct (wrun (ostate b') _) as [[st1 s1']|]; [|done]. injection W1 as _ <-.
    rewrite <- app_assoc in E. apply (before_marker _ _ _ _ _ E).
    apply bytes_no_marker; [by apply bytes_slice, HR|done]. }
  destruct HD as [r HD]. destruct Hb'. 
  assert (HRd : reading b' N P e r).
  { eapply (reading_move b N P p _ b' c e e); [exact HR|by constructor|done|exact HS|exact Hw|exact HD|lia|lia|lia|lia]. }
  constructor.
  - unfold window_ok. rewrite rp_cur0, rp_end0, rp_size0, rp_inp0. lia.
  - exists r. rewrite rp_end0, rp_buf0, rp_cur0. split; [|done]. subst c. destruct peeking; [done|].
    rewrite (slice_cons _ p e ch) in HD by (lia || done). by injection HD.
Qed.

(** What a call has to return, and leave. *)
Definition got (peeking : bool) (data : list Z) (ch : Z) b N P : Prop :=
  match data with
  | x :: rest => ch = x /\ readable b N P (if peeking then data else rest)
  | [] => ch = MARKER_EOM /\ if peeking then readable b N P []
      else boundary b N P nxt /\ progress b P /\ ib_eof b = ef
  end.

(** [m] does so; the bytes that a wait delivers are the choice of the owner. *)
Definition delivers (peeking : bool) (m : M St Z) b N P (data : list Z) : Prop :=
  forall s, at_conf s b N P -> exists ch s' b' N' P', m s = (Ok ch, s') /\ at_conf s' b' N' P' /\
    got peeking data ch b' N' P'.

Lemma delivers_bind {A} pk (m : M St A) (f : A -> M St Z) b N P a b1 N1 P1 data :
  run m b N P a b1 N1 P1 -> delivers pk (f a) b1 N1 P1 data -> delivers pk (m ≫= f) b N P data.
Proof.
  intros H1 H2 s Hs. destruct (H1 s Hs) as (s1 & E & Hs1). unfold delivers.
  rewrite (bind_ok _ _ _ _ _ E). by apply H2.
Qed.

Lemma delivers_run pk m b N P data ch b' N' P' :
  run m b N P ch b' N' P' -> got pk data ch b' N' P' -> delivers pk m b N P data.
Proof. intros HR HG s Hs. destruct (HR s Hs) as (s' & E & Hs'). by exists ch, s', b', N', P'. Qed.

(** A position at the end of the buffer is one at its start. *)
Lemma reading_wrap b N P p data : reading b N P p data ->
  reading b N P (if p =? ib_buf_size b then 0 else p) data /\
  ring (ib_buf b) (if p =? ib_buf_size b then 0 else p) (ib_inp b) = ring (ib_buf b) p (ib_inp b).
Proof.
  intros HR. destruct (Z.eqb_spec p (ib_buf_size b)) as [->|]; [|done].
  destruct HR. pose proof rd_geometry0 as (H1 & H2 & H3 & H4).
  assert (E : ring (ib_buf b) 0 (ib_inp b) = ring (ib_buf b) (ib_buf_size b) (ib_inp b)).
  { rewrite <- H1, ring_wrap by lia. done. }
  split; [|done]. constructor; auto; [lia| |by rewrite E].
  unfold room in *. rewrite (proj2 (Z.leb_gt _ _)) in rd_room0 by lia. zcases; lia.
Qed.

(** All data in the buffer have been consumed: the message is longer than the
    buffer, and a read is pending or can be posted. *)
Lemma reading_empty b N P p data : reading b N P p data -> p = ib_inp b ->
  ib_long_msg b = true /\ ib_eof b = false /\ ib_message_count b = 1 /\ N <> [] /\
  istate b = ostate b /\ msgs b = 0.
Proof.
  intros [] ->. destruct rd_syms0 as (s1 & s2 & st & W1 & W2 & E & Ee & Em).
  rewrite ring_empty in W1. injection W1 as Est <-. cbn [eoms] in Em.
  assert (HN : N <> []).
  { intros ->. injection W2 as _ <-. symmetry in E. apply app_eq_nil in E as [_ ?]. done. }
  unfold counters_ok, msgs in *. 
  destruct (ib_eof b); [by exfalso; apply HN, rd_eof0|]. destruct (ib_long_msg b); cbn [b2z] in *; [|lia].
  split_and!; auto. lia.
Qed.

Lemma set_cur_reading b N P p data : reading b N P p data -> p < ib_buf_size b ->
  reading (set_ib_cur p b) N P p data.
Proof.
  intros HR Hp. pose proof HR as []. pose proof rd_geometry0 as (H1 & H2 & H3 & H4).
  eapply (reading_move b N P p data _ p (ib_end b) p [] [] data); auto; try lia. by constructor.
Qed.

(** The read that is pending delivers the next part of the message. *)
Lemma reading_received b d N2 P p data m b' P' st sd : reading b (d ++ N2) P p data -> p = ib_inp b ->
  ib_cur b = p -> mem_write (ib_buf b) (ib_inp b) d = Some m -> 0 < zlen d -> zlen d <= free_room b ->
  wrun (istate b) d = Some (st, sd) ->
  moved (set_ib_buf m b) d b' -> received (set_ib_buf m b) st sd b' -> pending_ok b' P' ->
  reading b' N2 P' (ib_cur b') data /\ ring (ib_buf b') (ib_cur b') (ib_inp b') = d.
Proof.
  intros HR Hp Hcur Hm Hd Hroom Hst [] [] HP'. destruct (reading_empty _ _ _ _ _ HR Hp) as (Hl & He & Hc & HN & Hio & Hms).
  destruct HR. pose proof rd_geometry0 as (H1 & H2 & H3 & H4). cbn in *.
  apply Forall_app in rd_net0 as [Hb1 Hb2].
  assert (HRg : ring (ib_buf b') (ib_cur b') (ib_inp b') = d).
  { rewrite mv_ring. rewrite (ring_write (ib_buf b) _ _ d); [|lia|lia|done|].
    - rewrite Hcur, Hp, ring_empty. done.
    - by rewrite H1. }
  split; [|done]. destruct rd_syms0 as (s1 & s2 & st' & W1 & W2 & E & Ee & Em).
  rewrite Hp, ring_empty in W1. injection W1 as _ <-.
  rewrite (wrun_step _ _ _ _ _ Hst) in W2. destruct (wrun st N2) as [[st2 s2']|] eqn:E2; [|done].
  injection W2 as -> <-. pose proof mv_geometry as (? & ? & ? & ?).
  constructor; auto; try lia.
  - apply mv_bytes. by eapply mem_write_bytes.
  - by apply rc_active.
  - rewrite rc_eof, <- rd_ef0, He. cbn [app] in Ee. rewrite eos_app in Ee.
    by apply orb_false_iff in Ee as [-> _].
  - rewrite rc_eof. intros Hes. exfalso. cbn [app] in Ee. rewrite eos_app in Ee.
    apply orb_false_iff in Ee as [Ee _]. congruence.
  - by unfold free_room.
  - exists sd, s2', st'. rewrite HRg, rc_ostate, rc_istate.
    change (ostate (set_ib_buf m b)) with (ostate b). rewrite <- Hio. split_and!; auto.
    rewrite rc_msgs. unfold msgs in *. cbn. lia.
Qed.

(** Waiting for a part of a long message. *)
Lemma deliver_wait pk (loop : Z -> M St Z) b N P p data : reading b N P p data -> p = ib_inp b ->
  ib_cur b = p -> p < ib_buf_size b ->
  (forall b' N' P', reading b' N' P' (ib_cur b') data ->
    zlen (ring (ib_buf b') (ib_cur b') (ib_inp b')) + 2 * zlen N' < 2 * zlen N ->
    delivers pk (loop (ib_cur b')) b' N' P' data) ->
  delivers pk (ibuf_trigger_read ;; wait_read ;; b ← gets ib; loop (ib_cur b)) b N P data.
Proof.
  intros HR Hp Hcur Hlt IH. destruct (reading_empty _ _ _ _ _ HR Hp) as (Hl & He & Hc & HN & Hio & Hms).
  pose proof HR as [Hg Hb HNb Hiok Hook Hcn HP _ _ _ _ _ _ _ Hsy]. pose proof Hg as (H1 & H2 & H3 & H4).
  assert (Htop : ib_cur b = ib_buf_size b -> ib_end b = ib_cur b) by lia.
  assert (Erw : rewind b = b).
  { unfold rewind. by rewrite (proj2 (Z.eqb_neq _ _)), andb_false_r by lia. }
  eapply delivers_bind; [by apply run_trigger_read|]. rewrite Erw.
  pose proof (triggered_read_ok b P Hg HP) as HP1.
  assert (exists off n, triggered_read b P = Some (off, n)) as (off & n & EP).
  { unfold triggered_read. assert (HF : 0 < free_size b).
    { unfold free_size. rewrite He, (proj2 (Z.eqb_neq (ib_cur b) _)) by lia. cbn [orb].
      rewrite (proj2 (Z.leb_le _ _)) by lia. zcases; lia. }
    rewrite (proj2 (Z.ltb_lt _ _) HF). destruct P as [[off n]|]; cbn; eauto. }
  rewrite EP in *. destruct HP1 as (-> & Hn & Hs & Hroom).
  intros s1 (Ho & Eb & EN & EPd).
  destruct (wait_ok s1 (ib_inp b) n Ho EPd) as (d & s2 & EW & Ho2 & EN2 & Hd & Hnil & EP2 & m & Em & Eb2);
    [lia|done|rewrite Eb; lia|]. rewrite EN in EN2. rewrite Eb in Em, Eb2. rewrite EN2 in *.
  assert (Hdp : 0 < zlen d).
  { destruct d; [exfalso; apply HN; rewrite <- EN; by apply Hnil|]. rewrite zlen_cons. pose proof (zlen_nonneg d). lia. }
  destruct (mem_write_here _ _ _ _ Em) as [Hsl Hlen]; [lia|].
  destruct Hsy as (sy1 & sy2 & st & W1 & W2 & E & Ee & _).
  rewrite wrun_app in W2. destruct (wrun (istate b) d) as [[std sd]|] eqn:Ed; [|done].
  assert (Heos : eos sd = false).
  { destruct (wrun std _) as [[? ?]|]; [|done]. injection W2 as _ <-.
    rewrite !eos_app in Ee. apply orb_false_iff in Ee as [_ Ee]. by apply orb_false_iff in Ee as [? _]. }
  apply Forall_app in HNb as [Hdb _].
  destruct (run_read_done (set_ib_buf m b) (net s2) d std sd) as (b3 & P3 & R3 & M3 & RC3 & HP3 & _).
  1: by unfold geometry; cbn; rewrite Hlen.
  all: try first [assumption | exact Hiok | exact Hcn | cbn; lia | by intros _].
  { exact (Z.le_trans _ _ _ Hd Hroom). }
  destruct (R3 s2) as (s3 & E3 & Hs3); [done|]. unfold delivers.
  rewrite (bind_ok wait_read _ s1 tt s3) by (rewrite EW; exact E3).
  destruct (reading_received b d (net s2) P p data m b3 P3 std sd) as [HR3 HG3]; auto; [lia|].
  rewrite (bind_ok (gets ib) _ s3 b3 s3) by (destruct Hs3 as (_ & <- & _); done).
  apply (IH b3 (net s2) P3 HR3); [|done]. rewrite HG3, zlen_app. pose proof (zlen_nonneg (net s2)). lia.
Qed.

(** The next byte of the buffer. *)
Lemma reading_next b N P p data : reading b N P p data -> p < ib_buf_size b -> p <> ib_inp b ->
  exists ch st syms, znth (ib_buf b) p = Some ch /\ is_byte ch /\ wstep (ostate b) ch = Some (st, syms) /\
    ring (ib_buf b) p (ib_inp b) = [ch] ++ ring (ib_buf b) (p + 1) (ib_inp b) /\
    wrun (ostate b) [ch] = Some (st, syms) /\
    room (ib_buf_size b) p (ib_inp b) <= room (ib_buf_size b) (p + 1) (ib_inp b).
Proof.
  intros [] Hp Hne. pose proof rd_geometry0 as (H1 & H2 & H3 & H4).
  destruct (ring_cons (ib_buf b) p (ib_inp b)) as (ch & Hch & HR); [lia|lia|done|].
  destruct rd_syms0 as (s1 & s2 & st' & W1 & _). rewrite HR in W1. cbn [wrun] in W1.
  destruct (wstep (ostate b) ch) as [[st sy]|] eqn:Ew; [|done]. exists ch, st, sy.
  split_and!; [done| |done|done| |].
  - unfold znth in Hch. rewrite (proj2 (Z.leb_le _ _)) in Hch by lia.
    rewrite Forall_lookup in rd_bytes0. by eapply rd_bytes0.
  - cbn [wrun]. by rewrite Ew, app_nil_r.
  - unfold room. zcases; lia.
Qed.

(** The data that the message has next. *)
Lemma reading_head b N P p data ch l x r : reading b N P p data ->
  ring (ib_buf b) p (ib_inp b) = l ++ r -> wrun (ostate b) l = Some (x, [ch]) -> ch <> MARKER_EOS ->
  (ch = MARKER_EOM /\ data = []) \/ (ch <> MARKER_EOM /\ exists rest, data = ch :: rest).
Proof.
  intros [] HR Hw Hne. destruct rd_syms0 as (s1 & s2 & st' & W1 & _ & E & _).
  rewrite HR, (wrun_step _ _ _ _ _ Hw) in W1. destruct (wrun x r) as [[st2 s1']|]; [|done].
  injection W1 as _ <-. destruct data as [|y data]; cbn in E; injection E as E1 E2; [by left|right].
  subst y. split; [|by exists data]. apply Forall_cons in rd_data0 as [Hb _]. unfold is_byte, MARKER_EOM in *. lia.
Qed.

(** Data of the message: they become the window. *)
Lemma deliver_window pk b N P p data ch b1 e : reading b N P p data ->
  p < e <= ring_max (ib_buf_size b) p (ib_inp b) -> p <> ib_inp b -> znth (ib_buf b) p = Some ch ->
  repositioned b (if pk : bool then p else p + 1) e b1 -> ook b1 ->
  wrun (ostate b) (slice (ib_buf b) p e) = Some (ostate b1, slice (ib_buf b) p e) ->
  delivers pk (ibuf_trigger_read ;; mret ch) b1 N P data.
Proof.
  intros HR He Hp Hch Hf Hook Hw. pose proof HR as [Hg Hb _ _ _ _ _ _ _ _ _ Hpr _ _ Hsy].
  pose proof Hg as (H1 & H2 & H3 & H4).
  assert (exists rest, data = ch :: rest) as [rest ->].
  { destruct Hsy as (s1 & s2 & st' & W1 & _ & E & _).
    rewrite (ring_split _ p e) in W1 by (rewrite ?H1; lia). rewrite (wrun_step _ _ _ _ _ Hw) in W1.
    destruct (wrun (ostate b1) _) as [[? s1']|]; [|done]. injection W1 as _ <-. rewrite <- app_assoc in E.
    destruct (before_marker _ _ _ _ _ E) as [k ->].
    { apply bytes_no_marker; [by apply bytes_slice|done]. }
    rewrite (slice_cons _ p e ch) by (lia || done). by eexists. }
  pose proof (reading_window b N P p ch rest b1 e pk HR He Hp Hch Hf Hook Hw) as HW.
  destruct (readable_trigger _ _ _ _ HW) as (HR' & Ht & Hg').
  eapply delivers_bind; [by apply run_trigger_read|]. eapply delivers_run; [apply run_ret|]. by split.
Qed.

(** An empty window at the decoder. *)
Lemma readable_empty b N P q data : reading b N P q data -> ib_cur b = q -> ib_end b = q ->
  readable b N P data.
Proof.
  intros HR Hc He. constructor.
  - unfold window_ok, ring_max. destruct HR. rewrite Hc, He. zcases; lia.
  - exists data. by rewrite Hc, He, slice_nil.
Qed.

(** The end of the message has been read: it is over. *)
Lemma deliver_eom b N P p : reading b N P p [] -> p < ib_buf_size b -> p <> ib_inp b ->
  znth (ib_buf b) p = Some 1 -> ib_out_size_mode b = 0 -> ib_out_data_size b = 0 -> ib_out_esc b = true ->
  delivers false
    (ch ←
       ((update (fun b => set_ib_handling_msg HandleMsgIdle
           (set_ib_message_count (ib_message_count b - 1) b)) ;;
         b ← gets ib;
         (if ib_message_count b =? 0 then mret tt else trigger_message)) ;;
        mret MARKER_EOM);
     update (fun b => set_ib_out_esc false (set_ib_cur (p + 1) (set_ib_end (p + 1) b))) ;;
     ibuf_trigger_read ;; mret ch) b N P [].
Proof.
  intros HR Hp Hne Hch Hm Hd He. destruct (reading_next _ _ _ _ _ HR Hp Hne)
    as (ch' & st0 & syms & Hch' & _ & _ & Hring & _ & Hroom). rewrite Hch in Hch'. injection Hch' as <-.
  destruct HR. pose proof rd_geometry0 as (H1 & H2 & H3 & H4).
  destruct rd_syms0 as (s1 & s2 & st & W1 & W2 & E & Ee & Em).
  assert (Eo : ostate b = WEsc) by (unfold ostate; by rewrite Hm, Hd, He).
  rewrite Hring, Eo in W1. change (wrun WEsc ([1] ++ ?l)) with
    (match wrun WPlain l with Some (st, d') => Some (st, [MARKER_EOM] ++ d') | None => None end) in W1.
  destruct (wrun WPlain _) as [[st1 s1']|] eqn:W3; [|done]. injection W1 as -> <-. injection E as E.
  cbn [eoms] in Em. change (b2z (MARKER_EOM =? MARKER_EOM)) with 1 in Em. pose proof (eoms_nonneg s1').
  assert (Hl : ib_long_msg b = false).
  { destruct (ib_long_msg b) eqn:El; [|done]. destruct rd_counters0 as [_ HL]. destruct (HL El). lia. }
  set (b1 := set_ib_handling_msg HandleMsgIdle (set_ib_message_count (ib_message_count b - 1) b)).
  set (b2 := if ib_message_count b1 =? 0 then b1 else triggered b1).
  eapply (delivers_bind _ _ _ _ _ _ MARKER_EOM b2).
  { eapply run_bind; [|apply run_ret].
    eapply run_bind; [apply run_update|]. eapply run_bind; [apply run_get|]. fold b1. subst b2.
    destruct (Z.eqb_spec (ib_message_count b1) 0) as [E0|E0]; [apply run_ret|].
    apply run_trigger. subst b1. cbn in *. lia. }
  eapply delivers_bind; [apply run_update|]. set (b3 := set_ib_out_esc false _).
  assert (HF : ib_buf b3 = ib_buf b /\ ib_buf_size b3 = ib_buf_size b /\ ib_inp b3 = ib_inp b /\
    ib_cur b3 = p + 1 /\ ib_end b3 = p + 1 /\ istate b3 = istate b /\ (iok b -> iok b3) /\ ostate b3 = WPlain /\
    ib_eof b3 = ib_eof b /\ ib_long_msg b3 = false /\ ib_message_count b3 = ib_message_count b - 1 /\
    ib_handling_msg b3 = if ib_message_count b - 1 =? 0 then HandleMsgIdle else HandleMsgTriggered).
  { subst b3 b2 b1. unfold ostate, istate, iok. cbn [ib_message_count set_ib_handling_msg set_ib_message_count].
    destruct (ib_message_count b - 1 =? 0); cbn; rewrite ?Hm, ?Hd; split_and!; done. }
  assert (HM3 : msgs b3 = msgs b - 1).
  { destruct HF as (_ & _ & _ & _ & _ & _ & _ & _ & F9 & F10 & F11 & _). unfold msgs. rewrite F9, F10, F11, Hl. lia. }
  assert (Hook3 : ook b3).
  { subst b3 b2 b1. unfold ook, dec_ok in *. destruct (_ =? 0); cbn; rewrite Hm, Hd; split_and!; lia || done. }
  clearbody b3. destruct HF as (F1 & F2 & F3 & F4 & F5 & F6 & F7 & F8 & F9 & F10 & F11 & F12).
  assert (HG3 : geometry b3) by (unfold geometry; rewrite F1, F2, F3, F4; lia).
  assert (HP3 : pending_ok b3 P).
  { destruct P as [[off n]|]; [|done]. unfold pending_ok, free_room in *. rewrite F2, F3, F4. lia. }
  eapply delivers_bind; [apply run_trigger_read; [done|congruence]|].
  eapply delivers_run; [apply run_ret|]. split; [done|].
  rewrite <- rd_ef0, <- F9. apply boundary_trigger.
  - constructor; rewrite ?F1, ?F9, ?F11, ?F12; auto.
    + unfold counters_ok. rewrite F10, HM3. split; [lia|done].
    + by destruct (_ =? 0).
    + destruct (Z.eqb_spec (ib_message_count b - 1) 0); done.
    + destruct (Z.eqb_spec (ib_message_count b - 1) 0); [done|lia].
    + congruence.
    + exists s1', s2, st. rewrite F3, F4, F6, F8, HM3. split_and!; auto; [|lia].
      cbn [app] in Ee. change (MARKER_EOM :: ?l) with ([MARKER_EOM] ++ l) in Ee.
      by rewrite eos_app in Ee.
  - unfold free_room, room in *. rewrite F2, F3, F4. zcases; lia.
Qed.

(** A symbol that is an escape sequence; [p] is at its second byte. *)
Lemma deliver_esc pk (loop : Z -> M St Z) b N P p data ch : reading b N P p data ->
  p < ib_buf_size b -> p <> ib_inp b -> znth (ib_buf b) p = Some ch ->
  ib_out_size_mode b = 0 -> ib_out_data_size b = 0 -> ib_out_esc b = true ->
  (forall b', reading b' N P (p + 1) data -> 
    ring (ib_buf b) p (ib_inp b) = [ch] ++ ring (ib_buf b') (p + 1) (ib_inp b') ->
    delivers pk (loop (p + 1)) b' N P data) ->
  delivers pk
    (if ch =? 3 then
       update (fun b => set_ib_out_esc false (set_ib_out_data_size 0 (set_ib_out_size_mode 1 b))) ;;
       loop (p + 1)
     else
       ch ←
         (if ch =? 0 then mret ESC
          else if ch =? 1 then
            (if pk : bool then mret tt
             else
               update (fun b => set_ib_handling_msg HandleMsgIdle
                 (set_ib_message_count (ib_message_count b - 1) b)) ;;
               b ← gets ib;
               (if ib_message_count b =? 0 then mret tt else trigger_message)) ;;
            mret MARKER_EOM
          else if ch =? 2 then mret MARKER_EOS
          else undef);
       let out := if pk : bool then p else p + 1 in
       update (fun b => set_ib_out_esc pk (set_ib_cur out (set_ib_end out b))) ;;
       ibuf_trigger_read ;;
       mret ch) b N P data.
Proof.
  intros HR Hp Hne Hch Hm Hd He IH. destruct (reading_next _ _ _ _ _ HR Hp Hne)
    as (ch' & st & syms & Hch' & Hcb & Hst & Hring & Hwr & Hroom). rewrite Hch in Hch'. injection Hch' as <-.
  pose proof HR as []. pose proof rd_geometry0 as (H1 & H2 & H3 & H4).
  assert (Eo : ostate b = WEsc) by (unfold ostate; by rewrite Hm, Hd, He).
  rewrite Eo in Hst, Hwr. cbn [wstep] in Hst.
  destruct (Z.eqb_spec ch 3) as [->|].
  { injection Hst as <- <-. eapply delivers_bind; [apply run_update|]. apply IH.
    - eapply (reading_move b N P p data _ (ib_cur b) (ib_end b) (p + 1) [3] []); auto; try lia; try by constructor.
      + by rewrite Eo.
      + pose proof (free_size_room b rd_geometry0). unfold free_room. lia.
      + unfold free_room in *. lia.
    - exact Hring. }
  pose proof (free_size_room b rd_geometry0) as [? _]. unfold free_room in *.
  (* the window after a symbol, seen or consumed *)
  assert (HF : forall x rest, syms = [x] -> st = WPlain -> data = x :: rest ->
    delivers pk (let out := if pk : bool then p else p + 1 in
      update (fun b => set_ib_out_esc pk (set_ib_cur out (set_ib_end out b))) ;;
      ibuf_trigger_read ;; mret x) b N P data).
  { intros x rest -> -> ->. cbv zeta. set (q := if pk then p else p + 1).
    set (b1 := set_ib_out_esc pk (set_ib_cur q (set_ib_end q b))).
    assert (HR1 : reading b1 N P q (if pk then x :: rest else rest)).
    { subst b1 q. destruct pk.
      - eapply (reading_move b N P p _ _ p p p [] []); try lia; try exact HR; try done; try by constructor.
        + unfold ook, dec_ok in *. cbn. rewrite Hm, Hd. split_and!; lia.
        + unfold ostate. cbn. by rewrite Hm, Hd, He.
      - eapply (reading_move b N P p _ _ (p + 1) (p + 1) (p + 1) [ch] [x]); try lia; try exact HR; try done; try by constructor.
        3: unfold free_room; lia.
        { unfold ook, dec_ok. cbn. rewrite Hm, Hd. split_and!; try lia; done. }
        rewrite Eo. unfold ostate. cbn [ib_out_size_mode ib_out_data_size ib_out_esc set_ib_out_esc set_ib_cur set_ib_end].
        by rewrite Hm, Hd. }
    destruct (run_finish b N P _ (fun b => set_ib_out_esc pk (set_ib_cur q (set_ib_end q b))) x
      (readable_empty b1 N P q _ HR1 eq_refl eq_refl)) as (b2 & P2 & R2 & HR2).
    eapply delivers_run; [exact R2|]. split; [done|]. by destruct pk. }
  assert (HH : forall x, syms = [x] -> x <> MARKER_EOS ->
    (x = MARKER_EOM /\ data = []) \/ (x <> MARKER_EOM /\ exists rest, data = x :: rest)).
  { intros x -> Hx. eapply reading_head; [exact HR|exact Hring|rewrite Eo; exact Hwr|exact Hx]. }
  destruct (Z.eqb_spec ch 0); [|destruct (Z.eqb_spec ch 1); [|destruct (Z.eqb_spec ch 2); [|done]]];
    injection Hst as <- <-.
  - destruct (HH ESC eq_refl) as [[? _]|[_ [rest E]]]; [done|done|].
    eapply delivers_bind; [apply run_ret|]. by eapply HF.
  - destruct (HH MARKER_EOM eq_refl) as [[_ E]|[? _]]; [done| |done]. rewrite E in *.
    destruct pk; [|subst ch; by apply deliver_eom]. eapply delivers_bind; [eapply run_bind; apply run_ret|]. cbv zeta.
    set (b1 := set_ib_out_esc true (set_ib_cur p (set_ib_end p b))).
    assert (HR1 : reading b1 N P p []).
    { eapply (reading_move b N P p _ _ p p p [] []); try lia; try exact HR; try done; try by constructor.
      + unfold ook, dec_ok in *. cbn. rewrite Hm, Hd. split_and!; lia.
      + unfold ostate. cbn. by rewrite Hm, Hd, He. }
    destruct (run_finish b N P _ (fun b => set_ib_out_esc true (set_ib_cur p (set_ib_end p b))) MARKER_EOM
      (readable_empty b1 N P p _ HR1 eq_refl eq_refl)) as (b2 & P2 & R2 & HR2).
    eapply delivers_run; [exact R2|]. by split.
  - exfalso. destruct rd_syms0 as (s1 & s2 & st' & W1 & _ & _ & Ee & _).
    rewrite Hring, Eo, (wrun_step _ _ _ _ _ Hwr) in W1.
    destruct (wrun WPlain _) as [[? ?]|]; [|done]. injection W1 as _ <-. done.
Qed.

(** The loop, from any position. *)
Lemma deliver_loop pk fuel : forall b N P p data, reading b N P p data ->
  zlen (ring (ib_buf b) p (ib_inp b)) + 2 * zlen N < Z.of_nat fuel ->
  delivers pk (ibuf_get_more_loop wait_read fuel pk p) b N P data.
Proof.
  induction fuel as [|fuel IH]; intros b N P p0 data HR0 Hf;
    [pose proof (zlen_nonneg (ring (ib_buf b) p0 (ib_inp b))); pose proof (zlen_nonneg N); lia|].
  destruct (reading_wrap _ _ _ _ _ HR0) as [HR Ew]. cbn [ibuf_get_more_loop].
  eapply delivers_bind; [apply run_get|]. cbv zeta.
  rewrite <- Ew in Hf. set (p := if p0 =? ib_buf_size b then 0 else p0) in *.
  assert (Hp : p < ib_buf_size b).
  { subst p. destruct HR0. pose proof rd_geometry0 as (? & ? & ? & ?). zcases; lia. }
  clear Ew HR0. clearbody p. pose proof HR as []. pose proof rd_geometry0 as (H1 & H2 & H3 & H4).
  destruct (Z.eqb_spec p (ib_inp b)) as [E|Hne].
  { destruct (reading_empty _ _ _ _ _ HR E) as (Hl & He & Hc & HN & _).
    eapply delivers_bind; [apply run_assert; by rewrite Hl|]. eapply delivers_bind; [apply run_update|].
    rewrite He. eapply delivers_bind; [apply run_assert; by rewrite Hc|].
    eapply deliver_wait; [by apply set_cur_reading| done | done | done |].
    intros b' N' P' HR' Hm. apply IH; [done|]. pose proof (zlen_nonneg (ring (ib_buf b) p (ib_inp b))). lia. }
  destruct (reading_next _ _ _ _ _ HR Hp Hne) as (ch & st & syms & Hch & Hcb & Hst & Hring & Hwr & Hroom).
  assert (Hfuel : zlen (ring (ib_buf b) (p + 1) (ib_inp b)) + 2 * zlen N < Z.of_nat fuel).
  { rewrite Hring, zlen_app in Hf. change (zlen [ch]) with 1 in Hf. lia. }
  pose proof (free_size_room b rd_geometry0) as [? _].
  (* the decoder moves on without a symbol *)
  assert (HM : forall f : InputBuf -> InputBuf, syms = [] -> repositioned b (ib_cur b) (ib_end b) (f b) ->
    ook (f b) -> ostate (f b) = st ->
    delivers pk (update f ;; ibuf_get_more_loop wait_read fuel pk (p + 1)) b N P data).
  { intros f -> Hf1 Hook Hst1. eapply delivers_bind; [apply run_update|]. apply IH.
    - eapply (reading_move b N P p data _ (ib_cur b) (ib_end b) (p + 1) [ch] []); auto; try lia.
      + by rewrite Hst1.
      + unfold free_room in *. lia.
      + unfold free_room in *. lia.
    - destruct Hf1. by rewrite rp_buf0, rp_inp0. }
  eapply delivers_bind; [by apply run_option|].
  destruct (Z.eqb_spec (ib_out_size_mode b) 0) as [Em|Em]; cbn [negb].
  2: { unfold ostate in Hst. destruct (dec_size _ _ _ ch st syms rd_ook0 Em Hst) as (v & Hv & -> & E1 & E2 & E3).
       eapply delivers_bind; [apply run_assert; by rewrite E1|].
       eapply delivers_bind; [by apply run_option|]. by apply HM; [|constructor|..]. }
  assert (Hmax : ib_max b (p + 1) = ring_max (ib_buf_size b) p (ib_inp b)).
  { unfold ib_max, ring_max. zcases; lia. }
  assert (Hmx : p + 1 <= ring_max (ib_buf_size b) p (ib_inp b) <= ib_buf_size b).
  { unfold ring_max. zcases; lia. }
  destruct (Z.ltb_spec 0 (ib_out_data_size b)) as [Hd|Hd].
  { rewrite Hmax. set (max := ring_max _ _ _) in *. set (n := Z.min (ib_out_data_size b) (max - p)).
    destruct (dec_block _ _ _ n rd_ook0 Em Hd) as (E1 & E2 & E3 & E4); [lia|].
    assert (EL : (if max - p <? ib_out_data_size b then (max, ib_out_data_size b - (max - p))
      else (p + ib_out_data_size b, 0)) = (p + n, ib_out_data_size b - n)).
    { subst n. zcases; f_equal; lia. }
    rewrite EL. eapply delivers_bind; [apply run_assert; by rewrite E1|].
    eapply delivers_bind; [apply run_update|].
    eapply (deliver_window pk b N P p data ch _ (p + n)); [done|lia|done|done|by constructor|done|].
    unfold ostate at 1. rewrite E2, wrun_block; [|done|rewrite slice_len; lia].
    rewrite slice_len by lia. replace (p + n - p) with n by lia. unfold ostate. cbn. by rewrite E3. }
  destruct (dec_char _ _ _ rd_ook0 Em ltac:(lia)) as [Ed Es].
  destruct (ib_out_esc b) eqn:Ee.
  { eapply deliver_esc; try eassumption. intros b' HR' HRg. apply IH; [done|].
    rewrite Hring in HRg. apply app_inj_1 in HRg as [_ HRg]; [|done]. by rewrite <- HRg. }
  unfold ostate in Hst. rewrite Em, Ed, Ee in Hst. cbn [wstep dec_state Z.eqb negb Z.ltb Z.compare] in Hst.
  destruct (Z.eqb_spec ch ESC) as [->|HE]; cbn [negb].
  { injection Hst as <- <-. apply HM; [done|by constructor| |].
    - unfold ook, dec_ok. cbn. rewrite Em, Ed. split_and!; lia.
    - unfold ostate. cbn. by rewrite Em, Ed. }
  rewrite Hmax. set (max := ring_max _ _ _) in *.
  set (k := scan_plain (zdrop (p + 1) (ib_buf b)) (Z.to_nat (max - (p + 1)))).
  destruct (scan_plain_ok (zdrop (p + 1) (ib_buf b)) (Z.to_nat (max - (p + 1)))) as (K1 & K2 & K3). fold k in K1, K2, K3.
  eapply delivers_bind; [apply run_update|]. eapply delivers_bind; [apply run_get|].
  eapply delivers_bind; [apply run_assert; cbn; destruct pk; lia|].
  assert (EP : ostate b = WPlain) by (unfold ostate; by rewrite Em, Ed, Ee).
  eapply (deliver_window pk b N P p data ch _ (p + 1 + k)); [done|lia|done|done|by constructor|done|].
  change (ostate (set_ib_cur _ (set_ib_end _ b))) with (ostate b). rewrite EP. apply wrun_plain.
  rewrite (slice_cons _ _ _ ch) by (lia || done). apply not_elem_of_cons. split; [congruence|].
  unfold slice. by replace (p + 1 + k - (p + 1)) with k by lia.
Qed.

(** ** The whole function *)
Lemma get_more_ok pk b N P data : readable b N P data -> ib_cur b = ib_end b ->
  delivers pk (ibuf_get_more wait_read pk) b N P data.
Proof.
  intros [Hw (rest & -> & HR)] Hce. pose proof HR as []. pose proof rd_geometry0 as (H1 & H2 & H3 & H4).
  rewrite Hce, slice_nil in *. cbn [app] in *. intros s Hs. pose proof Hs as (Ho & Eb & EN & EP).
  unfold ibuf_get_more. rewrite Eb.
  assert (HF : zlen (ring (ib_buf b) (ib_end b) (ib_inp b)) + 2 * zlen N <
    Z.of_nat (S (2 * (length (ib_buf b) + ib_fuel s) + 2))).
  { pose proof (net_fuel s Ho) as Hn. rewrite EN in Hn. rewrite ring_len by lia.
    assert (0 <= room (zlen (ib_buf b)) (ib_end b) (ib_inp b)) by (unfold room; zcases; lia).
    unfold zlen in *. lia. }
  pose proof (deliver_loop pk _ b N P (ib_end b) rest HR HF) as HD. revert s Hs Ho Eb EN EP HF HD.
  intros s Hs _ _ _ _ _ HD.
  refine ((_ : delivers pk _ b N P rest) s Hs). rewrite Hce.
  eapply delivers_bind; [apply run_assert; lia|]. eapply delivers_bind; [apply run_assert; rewrite rd_active0; done|].
  eapply delivers_bind; [apply run_assert; lia|]. eapply delivers_bind; [apply run_assert; lia|]. exact HD.
Qed.
End get_more.

(** A byte taken from the window. *)
Lemma readable_advance b N P data x w : readable b N P data ->
  slice (ib_buf b) (ib_cur b) (ib_end b) = x :: w ->
  exists rest, data = x :: rest /\ readable (set_ib_cur (ib_cur b + 1) b) N P rest /\
    slice (ib_buf b) (ib_cur b + 1) (ib_end b) = w /\ is_byte x.
Proof.
  intros [Hw (rest & -> & HR)] HS. pose proof HR as []. pose proof rd_geometry0 as (H1 & H2 & H3 & H4).
  assert (Hlt : ib_cur b < ib_end b).
  { unfold window_ok in Hw. destruct (Z.eq_dec (ib_cur b) (ib_end b)) as [E|]; [|lia].
    rewrite E, slice_nil in HS. done. }
  assert (Hx : znth (ib_buf b) (ib_cur b) = Some x) by (eapply slice_znth; [|exact HS]; lia).
  pose proof HS as HS'. rewrite (slice_cons _ _ _ x) in HS' by (lia || done). injection HS' as HS'.
  exists (w ++ rest). rewrite HS. split; [done|]. split; [|split; [done|]].
  - assert (Hw1 : ib_cur b + 1 <= ib_end b <= ring_max (ib_buf_size b) (ib_cur b + 1) (ib_inp b) /\
      0 <= ib_cur b + 1 <= ib_buf_size b /\ free_room b <= room (ib_buf_size b) (ib_cur b + 1) (ib_inp b) <=
      room (ib_buf_size b) (ib_end b) (ib_inp b)).
    { unfold window_ok, ring_max, free_room, room in *. destruct (Z.leb_spec (ib_cur b) (ib_inp b)); zcases; lia. }
    constructor; [exact (proj1 Hw1)|]. exists rest. cbn. rewrite HS'. split; [done|].
    eapply (reading_move b N P (ib_end b) rest _ (ib_cur b + 1) (ib_end b) (ib_end b) [] []);
      try exact HR; try done; try lia.
  - unfold znth in Hx. rewrite (proj2 (Z.leb_le _ _)) in Hx by lia.
    rewrite Forall_lookup in rd_bytes0. by eapply rd_bytes0.
Qed.

(** ** The data of the message as a function of the state *)

Fixpoint before_eom (l : list Z) : list Z :=
  match l with
  | [] => []
  | x :: l => if x =? MARKER_EOM then [] else x :: before_eom l
  end.

Definition message_data (b : InputBuf) (N : bytes) : list Z :=
  slice (ib_buf b) (ib_cur b) (ib_end b) ++
  match wrun (ostate b) (ring (ib_buf b) (ib_end b) (ib_inp b) ++ N) with
  | Some (_, syms) => before_eom syms
  | None => []
  end.

Lemma before_eom_app l r : is_bytes l -> before_eom (l ++ MARKER_EOM :: r) = l.
Proof.
  induction 1 as [|x l Hx Hl IH]; [done|]. cbn [app before_eom]. rewrite IH.
  replace (x =? MARKER_EOM) with false; [done|]. symmetry. apply Z.eqb_neq. unfold is_byte, MARKER_EOM in *. lia.
Qed.

Lemma readable_data b N P data : readable b N P data -> message_data b N = data.
Proof.
  intros [Hw (rest & -> & [])]. unfold message_data. f_equal.
  destruct rd_syms0 as (s1 & s2 & st & W1 & W2 & E & _).
  rewrite (wrun_step _ _ _ _ _ W1), W2, E. by apply before_eom_app.
Qed.

Lemma readable_bytes b N P data : readable b N P data -> is_bytes data.
Proof. intros [Hw (rest & -> & [])]. apply bytes_app; [by apply bytes_slice|done]. Qed.
End message.

(** ** Between the messages *)
Section lifecycle.
Context `{InputBufOwner St wait_read}.

(** The next message is started. *)
Lemma run_start_message nxt ef b N P data : boundary b N P (data ++ MARKER_EOM :: nxt) -> is_bytes data ->
  ib_handling_msg b = HandleMsgTriggered -> ib_eof b = false -> ef = false ->
  run ibuf_start_message b N P 1 (set_ib_handling_msg HandleMsgActive b) N P /\
  readable nxt ef (set_ib_handling_msg HandleMsgActive b) N P data.
Proof.
  intros [] Hd Ht He ->. pose proof (bd_triggered0 Ht) as Hc. destruct bd_syms0 as (s1 & s2 & st & W1 & W2 & E & Ee & Em). split.
  - unfold ibuf_start_message. eapply run_bind; [apply run_get|].
    eapply run_bind; [apply run_assert; by rewrite Ht|].
    rewrite (proj2 (Z.eqb_neq _ _)) by lia. rewrite He. eapply run_bind; [apply run_update|apply run_ret].
  - pose proof bd_geometry0 as (H1 & H2 & H3 & H4). apply (readable_empty _ _ _ _ _ (ib_cur b)); [|done|done].
    constructor; auto; try done. by exists s1, s2, st.
Qed.

(** A completed read between two messages. *)
Lemma run_receive b d N P syms n m : boundary b (d ++ N) P syms -> P = Some (ib_inp b, n) ->
  ib_eof b = false -> 0 < zlen d <= n -> mem_write (ib_buf b) (ib_inp b) d = Some m ->
  exists b' P', run (ibuf_read_done (zlen d)) (set_ib_buf m b) N None tt b' N P' /\
    boundary b' N P' syms /\ progress b' P' /\ ib_eof b' = false.
Proof.
  intros [] -> He Hd Hm. pose proof bd_geometry0 as (H1 & H2 & H3 & H4).
  destruct bd_pending0 as (_ & Hn & Hs & Hroom). destruct bd_syms0 as (s1 & s2 & st & W1 & W2 & E & Ee & Em).
  apply Forall_app in bd_net0 as [Hdb Hnb]. rewrite wrun_app in W2.
  destruct (wrun (istate b) d) as [[std sd]|] eqn:Ed; [|done].
  destruct (wrun std N) as [[st2 s2']|] eqn:EN; [|done]. injection W2 as -> <-.
  rewrite !eos_app in Ee. apply orb_false_iff in Ee as [Ee1 Ee2]. apply orb_false_iff in Ee2 as [Ee2 Ee3].
  destruct (mem_write_here _ _ _ _ Hm) as [Hsl Hlen]; [lia|].
  destruct (run_read_done (set_ib_buf m b) N d std sd) as (b' & P' & R & [] & [] & HP & Hpr).
  1: by unfold geometry; cbn; rewrite Hlen.
  all: try first [assumption | exact bd_iok0 | exact bd_counters0 | cbn; lia | by intros _ | lia].
  { unfold free_room in *. cbn. lia. }
  exists b', P'. split; [done|]. split; [|split; [exact Hpr|congruence]].
  assert (Hw : window_ok (set_ib_buf m b)).
  { unfold window_ok, ring_max. cbn. rewrite <- bd_window0. zcases; lia. }
  destruct (mv_window Hw) as (Hw' & HR' & HS').
  assert (Hce : ib_cur b' = ib_end b').
  { cbn in HS'. rewrite bd_window0, slice_nil in HS'. apply (f_equal zlen) in HS'. pose proof mv_geometry as (? & ? & ? & ?).
    unfold window_ok, ring_max in Hw'. rewrite slice_len, zlen_nil in HS'; [lia|lia|]. destruct (_ <=? _); lia. }
  constructor; auto.
  - apply mv_bytes. by eapply mem_write_bytes.
  - intros HA. by apply bd_active0, rc_active.
  - intros HI. destruct (rc_idle HI) as [HI' ->]. by apply bd_idle0.
  - intros [HT|]%rc_triggered; [|done]. apply bd_triggered0 in HT. cbn in rc_count. lia.
  - congruence.
  - exists (s1 ++ sd), s2', st. rewrite mv_ring, rc_ostate, rc_istate. cbn.
    rewrite (ring_write (ib_buf b) _ _ d) by (rewrite ?H1; unfold free_room in *; lia || done).
    change (ostate (set_ib_buf m b)) with (ostate b).
    rewrite (wrun_step _ _ _ _ _ W1), Ed, <- app_assoc, !eos_app, Ee1, Ee2, Ee3, eoms_app, rc_msgs.
    split_and!; auto. change (msgs (set_ib_buf m b)) with (msgs b). lia.
Qed.
End lifecycle.
