(* ===== verification/ChannelTcp.v ===== *)
(** * TCP channel (framework/channel_tcp.c)

    The transport of the TCF protocol over a socket: an output stream that
    encodes messages into buffers and hands them to the output queue, and an
    input stream that decodes them from the input buffer.  Locks keep the channel
    alive while a request or an event refers to it.

    Pointers into the output buffer are offsets; [out.end] is always the end of
    the buffer.  [ct_events] are the posted events of the channel.  The socket is
    [ct_net], what the peer has sent, with [ct_chunks], the number of bytes the
    next reads return ([ct_sock_error] is the error that the read after the last
    byte reports), and [ct_sent], what it has accepted.  SSL is not modelled, and
    [ENABLE_OutputQueue], [ENABLE_InputQueue] and [ENABLE_ZeroCopy] are set. *)

From S2P Require Import Prelude Streams OutputBuf Wire InputBuf.

Definition CHANNEL_MAGIC : Z := 656443734.
Definition BUF_SIZE : Z := OUTPUT_QUEUE_BUF_SIZE.

Inductive ChannelState :=
| ChannelStateStartWait
| ChannelStateStarted
| ChannelStateHelloSent
| ChannelStateHelloReceived
| ChannelStateConnected
| ChannelStateRedirectSent
| ChannelStateRedirectReceived
| ChannelStateDisconnected.

#[export] Instance ChannelState_eq_dec : EqDecision ChannelState.
Proof. solve_decision. Defined.

Definition disconnected (s : ChannelState) : bool :=
  match s with ChannelStateDisconnected => true | _ => false end.

(** [tcp_flush_event] and [handle_channel_msg]. *)
Inductive ChannelEvent := flush_event | msg_event.

#[export] Instance ChannelEvent_eq_dec : EqDecision ChannelEvent.
Proof. solve_decision. Defined.

Record ChannelTCP := {
  ct_magic : Z;
  ct_socket : Z;
  ct_lock_cnt : Z;
  ct_state : ChannelState;
  ct_zero_copy : bool;
  ct_read_pending : bool;
  ct_read_buf : Z;
  ct_read_buf_size : Z;
  ct_ibuf : InputBuf;
  ct_bin_block : option Z;
  ct_obuf : OutputBuffer;
  ct_cur : Z;
  ct_out_errno : Z;
  ct_out_flush_cnt : Z;
  ct_out_eom_cnt : Z;
  ct_out_queue : OutputQueue;
  ct_events : list ChannelEvent;
  ct_net : bytes;
  ct_chunks : list Z;
  ct_sock_error : Z;
  ct_sent : bytes;
  ct_shutdown : bool;
}.

Definition set_ct_magic (x : Z) (c : ChannelTCP) : ChannelTCP :=
  Build_ChannelTCP x (ct_socket c) (ct_lock_cnt c) (ct_state c) (ct_zero_copy c) (ct_read_pending
    c) (ct_read_buf c) (ct_read_buf_size c) (ct_ibuf c) (ct_bin_block c) (ct_obuf c) (ct_cur c)
    (ct_out_errno c) (ct_out_flush_cnt c) (ct_out_eom_cnt c) (ct_out_queue c) (ct_events c)
    (ct_net c) (ct_chunks c) (ct_sock_error c) (ct_sent c) (ct_shutdown c).
Definition set_ct_socket (x : Z) (c : ChannelTCP) : ChannelTCP :=
  Build_ChannelTCP (ct_magic c) x (ct_lock_cnt c) (ct_state c) (ct_zero_copy c) (ct_read_pending
    c) (ct_read_buf c) (ct_read_buf_size c) (ct_ibuf c) (ct_bin_block c) (ct_obuf c) (ct_cur c)
    (ct_out_errno c) (ct_out_flush_cnt c) (ct_out_eom_cnt c) (ct_out_queue c) (ct_events c)
    (ct_net c) (ct_chunks c) (ct_sock_error c) (ct_sent c) (ct_shutdown c).
Definition set_ct_lock_cnt (x : Z) (c : ChannelTCP) : ChannelTCP :=
  Build_ChannelTCP (ct_magic c) (ct_socket c) x (ct_state c) (ct_zero_copy c) (ct_read_pending c)
    (ct_read_buf c) (ct_read_buf_size c) (ct_ibuf c) (ct_bin_block c) (ct_obuf c) (ct_cur c)
    (ct_out_errno c) (ct_out_flush_cnt c) (ct_out_eom_cnt c) (ct_out_queue c) (ct_events c)
    (ct_net c) (ct_chunks c) (ct_sock_error c) (ct_sent c) (ct_shutdown c).
Definition set_ct_state (x : ChannelState) (c : ChannelTCP) : ChannelTCP :=
  Build_ChannelTCP (ct_magic c) (ct_socket c) (ct_lock_cnt c) x (ct_zero_copy c) (ct_read_pending
    c) (ct_read_buf c) (ct_read_buf_size c) (ct_ibuf c) (ct_bin_block c) (ct_obuf c) (ct_cur c)
    (ct_out_errno c) (ct_out_flush_cnt c) (ct_out_eom_cnt c) (ct_out_queue c) (ct_events c)
    (ct_net c) (ct_chunks c) (ct_sock_error c) (ct_sent c) (ct_shutdown c).
Definition set_ct_zero_copy (x : bool) (c : ChannelTCP) : ChannelTCP :=
  Build_ChannelTCP (ct_magic c) (ct_socket c) (ct_lock_cnt c) (ct_state c) x (ct_read_pending c)
    (ct_read_buf c) (ct_read_buf_size c) (ct_ibuf c) (ct_bin_block c) (ct_obuf c) (ct_cur c)
    (ct_out_errno c) (ct_out_flush_cnt c) (ct_out_eom_cnt c) (ct_out_queue c) (ct_events c)
    (ct_net c) (ct_chunks c) (ct_sock_error c) (ct_sent c) (ct_shutdown c).
Definition set_ct_read_pending (x : bool) (c : ChannelTCP) : ChannelTCP :=
  Build_ChannelTCP (ct_magic c) (ct_socket c) (ct_lock_cnt c) (ct_state c) (ct_zero_copy c) x
    (ct_read_buf c) (ct_read_buf_size c) (ct_ibuf c) (ct_bin_block c) (ct_obuf c) (ct_cur c)
    (ct_out_errno c) (ct_out_flush_cnt c) (ct_out_eom_cnt c) (ct_out_queue c) (ct_events c)
    (ct_net c) (ct_chunks c) (ct_sock_error c) (ct_sent c) (ct_shutdown c).
Definition set_ct_read_buf (x : Z) (c : ChannelTCP) : ChannelTCP :=
  Build_ChannelTCP (ct_magic c) (ct_socket c) (ct_lock_cnt c) (ct_state c) (ct_zero_copy c)
    (ct_read_pending c) x (ct_read_buf_size c) (ct_ibuf c) (ct_bin_block c) (ct_obuf c) (ct_cur c)
    (ct_out_errno c) (ct_out_flush_cnt c) (ct_out_eom_cnt c) (ct_out_queue c) (ct_events c)
    (ct_net c) (ct_chunks c) (ct_sock_error c) (ct_sent c) (ct_shutdown c).
Definition set_ct_read_buf_size (x : Z) (c : ChannelTCP) : ChannelTCP :=
  Build_ChannelTCP (ct_magic c) (ct_socket c) (ct_lock_cnt c) (ct_state c) (ct_zero_copy c)
    (ct_read_pending c) (ct_read_buf c) x (ct_ibuf c) (ct_bin_block c) (ct_obuf c) (ct_cur c)
    (ct_out_errno c) (ct_out_flush_cnt c) (ct_out_eom_cnt c) (ct_out_queue c) (ct_events c)
    (ct_net c) (ct_chunks c) (ct_sock_error c) (ct_sent c) (ct_shutdown c).
Definition set_ct_ibuf (x : InputBuf) (c : ChannelTCP) : ChannelTCP :=
  Build_ChannelTCP (ct_magic c) (ct_socket c) (ct_lock_cnt c) (ct_state c) (ct_zero_copy c)
    (ct_read_pending c) (ct_read_buf c) (ct_read_buf_size c) x (ct_bin_block c) (ct_obuf c)
    (ct_cur c) (ct_out_errno c) (ct_out_flush_cnt c) (ct_out_eom_cnt c) (ct_out_queue c)
    (ct_events c) (ct_net c) (ct_chunks c) (ct_sock_error c) (ct_sent c) (ct_shutdown c).
Definition set_ct_bin_block (x : option Z) (c : ChannelTCP) : ChannelTCP :=
  Build_ChannelTCP (ct_magic c) (ct_socket c) (ct_lock_cnt c) (ct_state c) (ct_zero_copy c)
    (ct_read_pending c) (ct_read_buf c) (ct_read_buf_size c) (ct_ibuf c) x (ct_obuf c) (ct_cur c)
    (ct_out_errno c) (ct_out_flush_cnt c) (ct_out_eom_cnt c) (ct_out_queue c) (ct_events c)
    (ct_net c) (ct_chunks c) (ct_sock_error c) (ct_sent c) (ct_shutdown c).
Definition set_ct_obuf (x : OutputBuffer) (c : ChannelTCP) : ChannelTCP :=
  Build_ChannelTCP (ct_magic c) (ct_socket c) (ct_lock_cnt c) (ct_state c) (ct_zero_copy c)
    (ct_read_pending c) (ct_read_buf c) (ct_read_buf_size c) (ct_ibuf c) (ct_bin_block c) x
    (ct_cur c) (ct_out_errno c) (ct_out_flush_cnt c) (ct_out_eom_cnt c) (ct_out_queue c)
    (ct_events c) (ct_net c) (ct_chunks c) (ct_sock_error c) (ct_sent c) (ct_shutdown c).
Definition set_ct_cur (x : Z) (c : ChannelTCP) : ChannelTCP :=
  Build_ChannelTCP (ct_magic c) (ct_socket c) (ct_lock_cnt c) (ct_state c) (ct_zero_copy c)
    (ct_read_pending c) (ct_read_buf c) (ct_read_buf_size c) (ct_ibuf c) (ct_bin_block c) (ct_obuf
    c) x (ct_out_errno c) (ct_out_flush_cnt c) (ct_out_eom_cnt c) (ct_out_queue c) (ct_events c)
    (ct_net c) (ct_chunks c) (ct_sock_error c) (ct_sent c) (ct_shutdown c).
Definition set_ct_out_errno (x : Z) (c : ChannelTCP) : ChannelTCP :=
  Build_ChannelTCP (ct_magic c) (ct_socket c) (ct_lock_cnt c) (ct_state c) (ct_zero_copy c)
    (ct_read_pending c) (ct_read_buf c) (ct_read_buf_size c) (ct_ibuf c) (ct_bin_block c) (ct_obuf
    c) (ct_cur c) x (ct_out_flush_cnt c) (ct_out_eom_cnt c) (ct_out_queue c) (ct_events c) (ct_net
    c) (ct_chunks c) (ct_sock_error c) (ct_sent c) (ct_shutdown c).
Definition set_ct_out_flush_cnt (x : Z) (c : ChannelTCP) : ChannelTCP :=
  Build_ChannelTCP (ct_magic c) (ct_socket c) (ct_lock_cnt c) (ct_state c) (ct_zero_copy c)
    (ct_read_pending c) (ct_read_buf c) (ct_read_buf_size c) (ct_ibuf c) (ct_bin_block c) (ct_obuf
    c) (ct_cur c) (ct_out_errno c) x (ct_out_eom_cnt c) (ct_out_queue c) (ct_events c) (ct_net c)
    (ct_chunks c) (ct_sock_error c) (ct_sent c) (ct_shutdown c).
Definition set_ct_out_eom_cnt (x : Z) (c : ChannelTCP) : ChannelTCP :=
  Build_ChannelTCP (ct_magic c) (ct_socket c) (ct_lock_cnt c) (ct_state c) (ct_zero_copy c)
    (ct_read_pending c) (ct_read_buf c) (ct_read_buf_size c) (ct_ibuf c) (ct_bin_block c) (ct_obuf
    c) (ct_cur c) (ct_out_errno c) (ct_out_flush_cnt c) x (ct_out_queue c) (ct_events c) (ct_net
    c) (ct_chunks c) (ct_sock_error c) (ct_sent c) (ct_shutdown c).
Definition set_ct_out_queue (x : OutputQueue) (c : ChannelTCP) : ChannelTCP :=
  Build_ChannelTCP (ct_magic c) (ct_socket c) (ct_lock_cnt c) (ct_state c) (ct_zero_copy c)
    (ct_read_pending c) (ct_read_buf c) (ct_read_buf_size c) (ct_ibuf c) (ct_bin_block c) (ct_obuf
    c) (ct_cur c) (ct_out_errno c) (ct_out_flush_cnt c) (ct_out_eom_cnt c) x (ct_events c) (ct_net
    c) (ct_chunks c) (ct_sock_error c) (ct_sent c) (ct_shutdown c).
Definition set_ct_events (x : list ChannelEvent) (c : ChannelTCP) : ChannelTCP :=
  Build_ChannelTCP (ct_magic c) (ct_socket c) (ct_lock_cnt c) (ct_state c) (ct_zero_copy c)
    (ct_read_pending c) (ct_read_buf c) (ct_read_buf_size c) (ct_ibuf c) (ct_bin_block c) (ct_obuf
    c) (ct_cur c) (ct_out_errno c) (ct_out_flush_cnt c) (ct_out_eom_cnt c) (ct_out_queue c) x
    (ct_net c) (ct_chunks c) (ct_sock_error c) (ct_sent c) (ct_shutdown c).
Definition set_ct_net (x : bytes) (c : ChannelTCP) : ChannelTCP :=
  Build_ChannelTCP (ct_magic c) (ct_socket c) (ct_lock_cnt c) (ct_state c) (ct_zero_copy c)
    (ct_read_pending c) (ct_read_buf c) (ct_read_buf_size c) (ct_ibuf c) (ct_bin_block c) (ct_obuf
    c) (ct_cur c) (ct_out_errno c) (ct_out_flush_cnt c) (ct_out_eom_cnt c) (ct_out_queue c)
    (ct_events c) x (ct_chunks c) (ct_sock_error c) (ct_sent c) (ct_shutdown c).
Definition set_ct_chunks (x : list Z) (c : ChannelTCP) : ChannelTCP :=
  Build_ChannelTCP (ct_magic c) (ct_socket c) (ct_lock_cnt c) (ct_state c) (ct_zero_copy c)
    (ct_read_pending c) (ct_read_buf c) (ct_read_buf_size c) (ct_ibuf c) (ct_bin_block c) (ct_obuf
    c) (ct_cur c) (ct_out_errno c) (ct_out_flush_cnt c) (ct_out_eom_cnt c) (ct_out_queue c)
    (ct_events c) (ct_net c) x (ct_sock_error c) (ct_sent c) (ct_shutdown c).
Definition set_ct_sock_error (x : Z) (c : ChannelTCP) : ChannelTCP :=
  Build_ChannelTCP (ct_magic c) (ct_socket c) (ct_lock_cnt c) (ct_state c) (ct_zero_copy c)
    (ct_read_pending c) (ct_read_buf c) (ct_read_buf_size c) (ct_ibuf c) (ct_bin_block c) (ct_obuf
    c) (ct_cur c) (ct_out_errno c) (ct_out_flush_cnt c) (ct_out_eom_cnt c) (ct_out_queue c)
    (ct_events c) (ct_net c) (ct_chunks c) x (ct_sent c) (ct_shutdown c).
Definition set_ct_sent (x : bytes) (c : ChannelTCP) : ChannelTCP :=
  Build_ChannelTCP (ct_magic c) (ct_socket c) (ct_lock_cnt c) (ct_state c) (ct_zero_copy c)
    (ct_read_pending c) (ct_read_buf c) (ct_read_buf_size c) (ct_ibuf c) (ct_bin_block c) (ct_obuf
    c) (ct_cur c) (ct_out_errno c) (ct_out_flush_cnt c) (ct_out_eom_cnt c) (ct_out_queue c)
    (ct_events c) (ct_net c) (ct_chunks c) (ct_sock_error c) x (ct_shutdown c).
Definition set_ct_shutdown (x : bool) (c : ChannelTCP) : ChannelTCP :=
  Build_ChannelTCP (ct_magic c) (ct_socket c) (ct_lock_cnt c) (ct_state c) (ct_zero_copy c)
    (ct_read_pending c) (ct_read_buf c) (ct_read_buf_size c) (ct_ibuf c) (ct_bin_block c) (ct_obuf
    c) (ct_cur c) (ct_out_errno c) (ct_out_flush_cnt c) (ct_out_eom_cnt c) (ct_out_queue c)
    (ct_events c) (ct_net c) (ct_chunks c) (ct_sock_error c) (ct_sent c) x.

(** ** Locks *)

Definition post_event (e : ChannelEvent) : M ChannelTCP unit :=
  modify (fun c => set_ct_events (ct_events c ++ [e]) c).

(** [cancel_event] removes the first such event. *)
Fixpoint remove_event (e : ChannelEvent) (l : list ChannelEvent) : list ChannelEvent :=
  match l with
  | [] => []
  | x :: l => if bool_decide (x = e) then l else x :: remove_event e l
  end.

Definition cancel_event (e : ChannelEvent) : M ChannelTCP unit :=
  modify (fun c => set_ct_events (remove_event e (ct_events c)) c).

(** An operation of the output queue. *)
Definition lift_queue {A} (m : M OutputQueue A) : M ChannelTCP A := fun c =>
  let '(r, q) := m (ct_out_queue c) in (r, set_ct_out_queue q c).

Definition check_magic : M ChannelTCP unit :=
  c ← get; assertm (ct_magic c =? CHANNEL_MAGIC).

Definition delete_channel : M ChannelTCP unit :=
  c ← get;
  assertm (ct_lock_cnt c =? 0) ;;
  assertm (ct_out_flush_cnt c =? 0) ;;
  assertm (ct_magic c =? CHANNEL_MAGIC) ;;
  assertm (negb (ct_read_pending c)) ;;
  assertm (negb (bool_decide (ib_handling_msg (ct_ibuf c) = HandleMsgTriggered))) ;;
  modify (set_ct_socket (-1)) ;;
  modify (set_ct_magic 0) ;;
  lift_queue output_queue_clear ;;
  c ← get;
  lift_queue (output_queue_free_obuf (ct_obuf c)).

Definition tcp_lock : M ChannelTCP unit :=
  check_magic ;;
  modify (fun c => set_ct_lock_cnt (ct_lock_cnt c + 1) c).

Definition tcp_unlock : M ChannelTCP unit :=
  check_magic ;;
  c ← get;
  assertm (0 <? ct_lock_cnt c) ;;
  modify (set_ct_lock_cnt (ct_lock_cnt c - 1)) ;;
  c ← get;
  if ct_lock_cnt c =? 0 then assertm (negb (ct_read_pending c)) ;; delete_channel
  else mret tt.

Definition tcp_is_closed : M ChannelTCP bool :=
  check_magic ;;
  c ← get;
  assertm (0 <? ct_lock_cnt c) ;;
  mret (disconnected (ct_state c)).

(** ** Output *)

(** The queue posts a write request through [post_write_request], which locks the
    channel: [m] posts one when there is a request after it and none before. *)
Definition with_requests {A} (m : M OutputQueue A) : M ChannelTCP A :=
  c0 ← get;
  a ← lift_queue m;
  c1 ← get;
  match oq_request (ct_out_queue c0), oq_request (ct_out_queue c1) with
  | None, Some _ => assertm (0 <=? ct_socket c1) ;; tcp_lock ;; mret a
  | _, _ => mret a
  end.

Definition done_write_request (error size : Z) : M ChannelTCP unit :=
  c ← get;
  assertm (0 <=? ct_socket c) ;;
  lift_queue (modify (set_request None)) ;;
  with_requests (output_queue_done error size) ;;
  (if error =? 0 then mret tt else modify (set_ct_out_errno error)) ;;
  c ← get;
  (if (match oq_queue (ct_out_queue c) with [] => true | _ => false end) && disconnected (ct_state c)
   then modify (set_ct_shutdown true) else mret tt) ;;
  tcp_unlock.

(** The socket accepts [n] bytes of the request in progress. *)
Definition socket_write (n : Z) : M ChannelTCP unit :=
  c ← get;
  match oq_request (ct_out_queue c) with
  | Some d =>
      modify (set_ct_sent (ct_sent c ++ ztake n d)) ;;
      done_write_request 0 n
  | None => mret tt
  end.

Definition tcp_flush_with_flags : M ChannelTCP unit :=
  check_magic ;;
  c ← get;
  assertm (bool_decide (ct_bin_block c = None)) ;;
  assertm ((0 <=? ct_cur c) && (ct_cur c <=? BUF_SIZE)) ;;
  if ct_cur c =? 0 then mret tt
  else
    (if negb (disconnected (ct_state c)) && (ct_out_errno c =? 0) then
       let bf := {| ob_buf := ob_buf (ct_obuf c); ob_len := ct_cur c; ob_pos := ob_pos (ct_obuf c) |} in
       with_requests (output_queue_add_obuf bf) ;;
       bf ← lift_queue output_queue_alloc_obuf;
       modify (set_ct_obuf bf)
     else mret tt) ;;
    modify (set_ct_cur 0) ;;
    modify (set_ct_out_eom_cnt 0).

(** The event has been taken from the queue of events when it runs. *)
Definition tcp_flush_event : M ChannelTCP unit :=
  check_magic ;;
  modify (fun c => set_ct_out_flush_cnt (ct_out_flush_cnt c - 1) c) ;;
  c ← get;
  if ct_out_flush_cnt c =? 0 then tcp_flush_with_flags ;; tcp_unlock
  else if 3 <? ct_out_eom_cnt c then tcp_flush_with_flags
  else mret tt.

(** [*out.cur++ = byte], [memcpy(out.cur, l, n); out.cur += n]. *)
Definition out_put (l : bytes) : M ChannelTCP unit :=
  c ← get;
  m ← of_option (mem_write (ob_buf (ct_obuf c)) (ct_cur c) l);
  modify (fun c =>
    set_ct_cur (ct_cur c + zlen l)
      (set_ct_obuf {| ob_buf := m; ob_len := ob_len (ct_obuf c); ob_pos := ob_pos (ct_obuf c) |} c)).

(** [*(p) = byte]. *)
Definition out_poke (p b : Z) : M ChannelTCP unit :=
  c ← get;
  m ← of_option (mem_write (ob_buf (ct_obuf c)) p [b]);
  modify (set_ct_obuf {| ob_buf := m; ob_len := ob_len (ct_obuf c); ob_pos := ob_pos (ct_obuf c) |}).

(** [BUF_SIZE > 0x4000] is false: two bytes of size. *)
Definition tcp_bin_block_start : M ChannelTCP unit :=
  out_put [ESC] ;; out_put [3] ;; out_put [0] ;; out_put [0] ;;
  modify (fun c => set_ct_bin_block (Some (ct_cur c)) c).

Definition tcp_bin_block_end : M ChannelTCP unit :=
  c ← get;
  match ct_bin_block c with
  | None => undef
  | Some p =>
      let len := ct_cur c - p in
      (if len =? 0 then modify (set_ct_cur (ct_cur c - 4))
       else
         out_poke (p - 2) (u8 (Z.lor (Z.land len 127) 128)) ;;
         out_poke (p - 1) (u8 (Z.shiftr len 7))) ;;
      modify (set_ct_bin_block None)
  end.

(** [if (out.cur == out.end) tcp_flush_with_flags(c, MSG_MORE)]. *)
Definition flush_full : M ChannelTCP unit :=
  c ← get; if ct_cur c =? BUF_SIZE then tcp_flush_with_flags else mret tt.

Definition tcp_write_stream (byte : Z) : M ChannelTCP unit :=
  check_magic ;;
  c ← get;
  if negb (ct_zero_copy c) || (BUF_SIZE - 32 <=? ct_cur c) || (byte <? 0) then
    (if bool_decide (ct_bin_block c = None) then mret tt else tcp_bin_block_end) ;;
    flush_full ;;
    if (byte <? 0) || (byte =? ESC) then
      out_put [ESC] ;;
      esc ←
        (if byte =? ESC then mret 0
         else if byte =? MARKER_EOM then mret 1
         else if byte =? MARKER_EOS then mret 2
         else undef);
      flush_full ;;
      out_put [esc] ;;
      if byte =? MARKER_EOM then
        modify (fun c => set_ct_out_eom_cnt (ct_out_eom_cnt c + 1) c) ;;
        c ← get;
        if ct_out_flush_cnt c <? 2 then
          modify (set_ct_out_flush_cnt (ct_out_flush_cnt c + 1)) ;;
          (if ct_out_flush_cnt c =? 0 then tcp_lock else mret tt) ;;
          post_event flush_event
        else mret tt
      else mret tt
    else out_put [u8 byte]
  else
    (if bool_decide (ct_bin_block c = None) then tcp_bin_block_start else mret tt) ;;
    out_put [u8 byte].

(** The characters before the first [ESC]. *)
Fixpoint plain_prefix (l : bytes) : bytes :=
  match l with
  | [] => []
  | b :: l => if b =? ESC then [] else b :: plain_prefix l
  end.

(** The loop of [tcp_write_block_stream] on the bytes that are left. *)
Fixpoint tcp_write_block_loop (fuel : nat) (src : bytes) : M ChannelTCP unit :=
  match fuel with
  | O => nofuel
  | S fuel =>
      match src with
      | [] => mret tt
      | b :: rest =>
          c ← get;
          let n := Z.min (BUF_SIZE - ct_cur c) (zlen src) in
          if n =? 0 then tcp_write_stream b ;; tcp_write_block_loop fuel rest
          else if bool_decide (ct_bin_block c <> None) then
            out_put (ztake n src) ;; tcp_write_block_loop fuel (zdrop n src)
          else if negb (b =? ESC) then
            let l := plain_prefix (ztake n src) in
            out_put l ;; tcp_write_block_loop fuel (zdrop (zlen l) src)
          else tcp_write_stream b ;; tcp_write_block_loop fuel rest
      end
  end.

Definition tcp_write_block_stream (src : bytes) : M ChannelTCP unit :=
  tcp_write_block_loop (S (length src)) src.

#[export] Instance tcp_OutputStream : OutputStream ChannelTCP := {
  os_supports_zero_copy := ct_zero_copy;
  os_cur_null _ := false;
  os_space c := BUF_SIZE - ct_cur c;
  os_store := out_put;
  os_write := tcp_write_stream;
  os_write_block := tcp_write_block_stream;
}.

(** ** Input *)

Definition tcp_post_read (buf size : Z) : M ChannelTCP unit :=
  c ← get;
  if ct_read_pending c then mret tt
  else modify (fun c => set_ct_read_pending true (set_ct_read_buf buf (set_ct_read_buf_size size c))).

Definition tcp_trigger_message : M ChannelTCP unit :=
  c ← get;
  assertm (0 <? ib_message_count (ct_ibuf c)) ;;
  if bool_decide (ib_handling_msg (ct_ibuf c) = HandleMsgIdle) then
    post_event msg_event ;;
    modify (fun c => set_ct_ibuf (set_ib_handling_msg HandleMsgTriggered (ct_ibuf c)) c)
  else mret tt.

#[export] Instance tcp_InputBufOps : InputBufOps ChannelTCP := {
  ib := ct_ibuf;
  set_ib := set_ct_ibuf;
  post_read := tcp_post_read;
  trigger_message := tcp_trigger_message;
  ib_fuel c := length (ct_net c);
}.

(** The socket completes the read: some of the bytes the peer has sent, at least
    one if there is one, are in the buffer; [rval] and [error] of the request. *)
Definition socket_read : M ChannelTCP (Z * Z) :=
  c ← get;
  let k := match ct_chunks c with [] => zlen (ct_net c) | k :: _ => k end in
  let n := Z.min (Z.min (Z.max 1 k) (ct_read_buf_size c)) (zlen (ct_net c)) in
  m ← of_option (mem_write (ib_buf (ct_ibuf c)) (ct_read_buf c) (ztake n (ct_net c)));
  modify (fun c => set_ct_ibuf (set_ib_buf m (ct_ibuf c))
    (set_ct_net (zdrop n (ct_net c)) (set_ct_chunks (tail (ct_chunks c)) c))) ;;
  mret (n, if n =? 0 then ct_sock_error c else 0).

Definition tcp_channel_read_done (rval error : Z) : M ChannelTCP unit :=
  check_magic ;;
  c ← get;
  assertm (ct_read_pending c) ;;
  assertm (0 <? ct_lock_cnt c) ;;
  modify (set_ct_read_pending false) ;;
  let len := if error =? 0 then rval else 0 in
  if negb (disconnected (ct_state c)) then ibuf_read_done len
  else if 0 <? len then tcp_post_read 0 (ib_buf_size (ct_ibuf c))
  else tcp_unlock.

(** The completion of the request is waited for, and handled at once. *)
Definition tcp_wait_read : M ChannelTCP unit :=
  c ← get;
  assertm (0 <? ct_lock_cnt c) ;;
  assertm (ct_read_pending c) ;;
  '(rval, error) ← socket_read;
  tcp_channel_read_done rval error.

Definition tcp_read_stream : M ChannelTCP Z :=
  c ← get;
  assertm (0 <? ct_lock_cnt c) ;;
  let b := ct_ibuf c in
  if ib_cur b <? ib_end b then
    ch ← of_option (znth (ib_buf b) (ib_cur b));
    modify (set_ct_ibuf (set_ib_cur (ib_cur b + 1) b)) ;;
    mret ch
  else ibuf_get_more tcp_wait_read false.

Definition tcp_peek_stream : M ChannelTCP Z :=
  c ← get;
  assertm (0 <? ct_lock_cnt c) ;;
  let b := ct_ibuf c in
  if ib_cur b <? ib_end b then of_option (znth (ib_buf b) (ib_cur b))
  else ibuf_get_more tcp_wait_read true.

#[export] Instance tcp_InputStream : InputStream ChannelTCP := {
  is_window c := slice (ib_buf (ct_ibuf c)) (ib_cur (ct_ibuf c)) (ib_end (ct_ibuf c));
  is_advance c := set_ct_ibuf (set_ib_cur (ib_cur (ct_ibuf c) + 1) (ct_ibuf c)) c;
  is_read := tcp_read_stream;
  is_peek := tcp_peek_stream;
  is_fuel c := S (length (ib_buf (ct_ibuf c)) + length (ib_buf (ct_ibuf c)) + length (ct_net c));
}.

(** ** Messages *)

Definition channel_check_pending : M ChannelTCP unit :=
  c ← get;
  if bool_decide (ib_handling_msg (ct_ibuf c) = HandleMsgIdle) && negb (ib_message_count (ct_ibuf c) =? 0) then
    post_event msg_event ;;
    modify (fun c => set_ct_ibuf (set_ib_handling_msg HandleMsgTriggered (ct_ibuf c)) c)
  else mret tt.

Definition channel_get_message_count : M ChannelTCP Z :=
  c ← get;
  if bool_decide (ib_handling_msg (ct_ibuf c) <> HandleMsgTriggered) then mret 0
  else mret (ib_message_count (ct_ibuf c)).

(** [write_errno] (json.c), [notify_channel_closed] with the [disconnected] call
    back, [channel_close] and the message handler belong to other components. *)
Section messages.
Context (write_errno : Z -> M ChannelTCP unit) (notify_channel_closed : M ChannelTCP unit)
  (channel_close : M ChannelTCP unit) (receive : M ChannelTCP unit).

Definition send_eof_and_close (err : Z) : M ChannelTCP unit :=
  check_magic ;;
  c ← get;
  if disconnected (ct_state c) then mret tt
  else
    ibuf_flush ;;
    (if bool_decide (ib_handling_msg (ct_ibuf c) = HandleMsgTriggered) then
       cancel_event msg_event ;;
       modify (fun c => set_ct_ibuf (set_ib_handling_msg HandleMsgIdle (ct_ibuf c)) c)
     else mret tt) ;;
    write_stream MARKER_EOS ;;
    write_errno err ;;
    write_stream MARKER_EOM ;;
    tcp_flush_with_flags ;;
    c ← get;
    (match oq_queue (ct_out_queue c) with
     | [] => modify (set_ct_shutdown true)
     | _ => mret tt
     end) ;;
    modify (set_ct_state ChannelStateDisconnected) ;;
    c ← get;
    tcp_post_read 0 (ib_buf_size (ct_ibuf c)) ;;
    notify_channel_closed.

(** [connecting] sends the hello message. *)
Definition start_channel (connecting : M ChannelTCP unit) : M ChannelTCP unit :=
  check_magic ;;
  c ← get;
  assertm (0 <=? ct_socket c) ;;
  connecting ;;
  ibuf_trigger_read.

(** A trap catches what the handler raises. *)
Definition handle_channel_msg : M ChannelTCP unit :=
  check_magic ;;
  c ← get;
  assertm (bool_decide (ib_handling_msg (ct_ibuf c) = HandleMsgTriggered)) ;;
  assertm (negb (ib_message_count (ct_ibuf c) =? 0)) ;;
  has_msg ← ibuf_start_message;
  if has_msg <=? 0 then
    if (has_msg <? 0) && negb (disconnected (ct_state c)) then channel_close else mret tt
  else
    fun c =>
      match receive c with
      | (Exc error, c) => send_eof_and_close error c
      | r => r
      end.
End messages.

(** [loc_alloc_zero] of an input buffer. *)
Definition ibuf_zero : InputBuf :=
  Build_InputBuf [] 0 0 0 0 false false false false 0 HandleMsgIdle 0 0 0 0.

(** A new channel on the socket [sock]; [pool] is the pool of output buffers. *)
Definition create_channel (sock : Z) (pool : list OutputBuffer) (net : bytes) (chunks : list Z)
    (sock_error : Z) : option ChannelTCP :=
  match output_queue_alloc_obuf (output_queue_ini pool) with
  | (Ok bf, q) =>
      Some (Build_ChannelTCP CHANNEL_MAGIC sock 1 ChannelStateStartWait false false 0 0
        (ibuf_init ibuf_zero) None bf 0 0 0 0 q [] net chunks sock_error [] false)
  | _ => None
  end.
