(* ===== verification/ChannelIn.v ===== *)
(** * Channel input: the channel as an input stream

    The channel owns the input buffer ([InputBufOwner]): its socket delivers the
    bytes of the peer in any pieces.  While a message is handled the channel is an
    input stream of the symbols of that message ([InputStreamSpec]), so everything
    proved of the readers holds for messages from the wire. *)

From S2P Require Import Prelude Ring Streams OutputBuf Wire InputBuf InputBufSpec InputBufScan.
From S2P Require Import InputBufDone InputBufRead ChannelTcp.

Definition channel_live (c : ChannelTCP) : Prop :=
  ct_magic c = CHANNEL_MAGIC /\ 0 < ct_lock_cnt c /\ ct_state c <> ChannelStateDisconnected.

Definition pending_read (c : ChannelTCP) : option (Z * Z) :=
  if ct_read_pending c then Some (ct_read_buf c, ct_read_buf_size c) else None.

Lemma live_connected c : channel_live c -> disconnected (ct_state c) = false.
Proof. intros (_ & _ & Hs). by destruct (ct_state c). Qed.

Lemma post_read_live c off n : channel_live c ->
  exists c', tcp_post_read off n c = (Ok tt, c') /\ channel_live c' /\ ct_ibuf c' = ct_ibuf c /\
    ct_net c' = ct_net c /\ pending_read c' = Some (default (off, n) (pending_read c)).
Proof.
  intros Hc. unfold tcp_post_read, pending_read. rewrite (bind_ok get _ c c c eq_refl).
  destruct (ct_read_pending c) eqn:E; eexists; (split; [done|]); rewrite ?E; by split_and!.
Qed.

Lemma trigger_live c : channel_live c -> 0 < ib_message_count (ct_ibuf c) ->
  exists c', tcp_trigger_message c = (Ok tt, c') /\ channel_live c' /\ ct_net c' = ct_net c /\
    pending_read c' = pending_read c /\
    ct_ibuf c' = if bool_decide (ib_handling_msg (ct_ibuf c) = HandleMsgIdle)
                 then set_ib_handling_msg HandleMsgTriggered (ct_ibuf c) else ct_ibuf c.
Proof.
  intros Hc Hn. unfold tcp_trigger_message. rewrite (bind_ok get _ c c c eq_refl).
  rewrite (proj2 (Z.ltb_lt _ _) Hn). cbn [assertm]. rewrite ret_bind.
  case_bool_decide; eexists; (split; [done|]); by split_and!.
Qed.

(** The socket delivers a part of what the peer has sent. *)
Lemma socket_read_ok c off n : pending_read c = Some (off, n) -> 0 <= off -> 0 < n ->
  off + n <= zlen (ib_buf (ct_ibuf c)) ->
  exists d m k, socket_read c =
      (Ok (zlen d, if zlen d =? 0 then ct_sock_error c else 0),
       set_ct_ibuf (set_ib_buf m (ct_ibuf c)) (set_ct_net (zdrop (zlen d) (ct_net c)) (set_ct_chunks k c))) /\
    d = ztake (zlen d) (ct_net c) /\ zlen d <= n /\ zlen d <= zlen (ct_net c) /\ (zlen d = 0 -> ct_net c = []) /\
    mem_write (ib_buf (ct_ibuf c)) off d = Some m.
Proof.
  intros Hp Ho Hn Hs. unfold pending_read in Hp. destruct (ct_read_pending c); [|done]. injection Hp as E1 E2.
  unfold socket_read. rewrite (bind_ok get _ c c c eq_refl), E1, E2. cbv zeta.
  set (k := match ct_chunks c with [] => zlen (ct_net c) | k :: _ => k end).
  set (nn := Z.min (Z.min (Z.max 1 k) n) (zlen (ct_net c))). pose proof (zlen_nonneg (ct_net c)).
  assert (Hnn : 0 <= nn <= n /\ nn <= zlen (ct_net c) /\ (nn = 0 -> zlen (ct_net c) = 0)) by (subst nn; lia).
  clearbody nn. assert (Hd : zlen (ztake nn (ct_net c)) = nn) by (apply zlen_ztake; lia).
  destruct (mem_write_ok (ib_buf (ct_ibuf c)) off (ztake nn (ct_net c))) as (m & Em & _ & _); [lia|rewrite Hd; lia|].
  exists (ztake nn (ct_net c)), m, (tail (ct_chunks c)). rewrite Hd, Em. cbn [of_option]. rewrite ret_bind.
  split; [done|]. split_and!; try lia; try done.
  intros E0. destruct (ct_net c) as [|x l]; [done|]. rewrite zlen_cons in *. pose proof (zlen_nonneg l). lia.
Qed.

(** The completion of the read request, as an event. *)
Definition read_event : M ChannelTCP unit :=
  '(rval, error) ← socket_read;
  tcp_channel_read_done rval error.

Lemma read_event_live c off n : channel_live c -> pending_read c = Some (off, n) -> 0 <= off -> 0 < n ->
  off + n <= zlen (ib_buf (ct_ibuf c)) ->
  exists d c', read_event c = ibuf_read_done (zlen d) c' /\ channel_live c' /\ ct_net c = d ++ ct_net c' /\
    zlen d <= n /\ (d = [] -> ct_net c = []) /\ pending_read c' = None /\
    exists m, mem_write (ib_buf (ct_ibuf c)) off d = Some m /\ ct_ibuf c' = set_ib_buf m (ct_ibuf c).
Proof.
  intros Hc Hp Ho Hn Hs. destruct (socket_read_ok c off n Hp Ho Hn Hs) as (d & m & k & E & Ed & Hdn & Hdl & H0 & Em).
  pose proof Hc as (Hm & Hl & Hst).
  assert (Hrp : ct_read_pending c = true) by (unfold pending_read in Hp; by destruct (ct_read_pending c)).
  set (c1 := set_ct_ibuf (set_ib_buf m (ct_ibuf c)) (set_ct_net (zdrop (zlen d) (ct_net c)) (set_ct_chunks k c))) in *.
  exists d, (set_ct_read_pending false c1). split.
  - unfold read_event. rewrite (bind_ok _ _ _ _ _ E). unfold tcp_channel_read_done, check_magic.
    rewrite bind_assoc, (bind_ok get _ c1 c1 c1 eq_refl). change (ct_magic c1) with (ct_magic c). rewrite Hm, Z.eqb_refl.
    cbn [assertm]. rewrite ret_bind, (bind_ok get _ c1 c1 c1 eq_refl).
    change (ct_read_pending c1) with (ct_read_pending c). change (ct_lock_cnt c1) with (ct_lock_cnt c).
    rewrite Hrp, (proj2 (Z.ltb_lt _ _) Hl). cbn [assertm]. rewrite !ret_bind.
    rewrite (bind_ok (modify _) _ c1 tt (set_ct_read_pending false c1) eq_refl).
    change (ct_state c1) with (ct_state c). rewrite (live_connected c Hc). cbn [negb].
    destruct (Z.eqb_spec (zlen d) 0) as [Ez|Ez]; [|by rewrite Z.eqb_refl].
    destruct (ct_sock_error c =? 0); by rewrite Ez.
  - split; [by split_and!|]. split; [cbn; rewrite Ed at 1; by rewrite ztake_zdrop|]. split; [done|].
    split; [intros ->; by apply H0|]. split; [done|]. by exists m.
Qed.

Lemma wait_event c : channel_live c -> ct_read_pending c = true -> tcp_wait_read c = read_event c.
Proof.
  intros (_ & Hl & _) Hrp. unfold tcp_wait_read, read_event.
  rewrite (bind_ok get _ c c c eq_refl), (proj2 (Z.ltb_lt _ _) Hl), Hrp. done.
Qed.

#[export] Program Instance tcp_InputBufOwner : InputBufOwner ChannelTCP tcp_wait_read := {
  own := channel_live;
  pending := pending_read;
  net := ct_net;
}.
Solve Obligations with done.
Next Obligation. intros c off n Hc. by apply post_read_live. Qed.
Next Obligation. intros c Hc Hn. by apply trigger_live. Qed.
Next Obligation.
  intros c off n Hc Hp Ho Hn Hs. rewrite wait_event; [by apply (read_event_live c off n)|done|].
  unfold pending_read in Hp. by destruct (ct_read_pending c).
Qed.

(** ** The input stream *)

(** A message is being handled: [data] is what is left of it, [nxt] the symbols
    after it, [ef] tells whether the connection has been closed by the peer. *)
Definition channel_readable (nxt : list Z) (ef : bool) (c : ChannelTCP) (data : list Z) : Prop :=
  channel_live c /\ readable nxt ef (ct_ibuf c) (ct_net c) (pending_read c) data.

Lemma wrun_length l : forall st st' syms, wrun st l = Some (st', syms) -> (length syms <= length l)%nat.
Proof.
  induction l as [|b l IH]; intros st st' syms E; cbn [wrun] in E; [by injection E as <- <-|].
  destruct (wstep st b) as [[st1 d]|] eqn:E1; [|done].
  destruct (wrun st1 l) as [[st2 d']|] eqn:E2; [|done]. injection E as <- <-.
  rewrite length_app. apply IH in E2. cbn [length].
  assert (length d <= 1)%nat; [|lia].
  destruct st; cbn [wstep] in E1; repeat case_match; simplify_eq; simpl; lia.
Qed.

Lemma before_eom_length l : (length (before_eom l) <= length l)%nat.
Proof. induction l as [|x l IH]; cbn [before_eom]; [done|]. destruct (_ =? _); simpl; lia. Qed.

Lemma message_data_length b N : geometry b -> window_ok b ->
  (length (message_data b N) <= length (ib_buf b) + length (ib_buf b) + length N)%nat.
Proof.
  intros (H1 & H2 & H3 & H4) Hw. unfold message_data. rewrite length_app.
  assert (HS : (length (slice (ib_buf b) (ib_cur b) (ib_end b)) <= length (ib_buf b))%nat).
  { unfold slice, ztake, zdrop. rewrite length_take, length_drop. lia. }
  assert (HE : 0 <= ib_end b <= ib_buf_size b) by (unfold window_ok, ring_max in Hw; destruct (_ <=? _); lia).
  destruct (wrun _ _) as [[st syms]|] eqn:E; [|simpl; lia]. apply wrun_length in E.
  pose proof (before_eom_length syms). rewrite length_app in E.
  pose proof (ring_len (ib_buf b) (ib_end b) (ib_inp b)) as HL.
  assert (0 <= room (zlen (ib_buf b)) (ib_end b) (ib_inp b)) by (unfold room; zcases; lia).
  unfold zlen in *. lia.
Qed.

(** No message is being handled; [syms] are the symbols on the way. *)
Definition channel_idle (ef : bool) (c : ChannelTCP) (syms : list Z) : Prop :=
  channel_live c /\ boundary (ct_ibuf c) (ct_net c) (pending_read c) syms /\
  progress (ct_ibuf c) (pending_read c) /\ ib_eof (ct_ibuf c) = ef.

(** A call of the reader with an empty window. *)
Lemma channel_get_more pk nxt ef c data : channel_readable nxt ef c data ->
  slice (ib_buf (ct_ibuf c)) (ib_cur (ct_ibuf c)) (ib_end (ct_ibuf c)) = [] ->
  exists ch c', (if pk : bool then tcp_peek_stream else tcp_read_stream) c = (Ok ch, c') /\
    match data with
    | x :: rest => ch = x /\ channel_readable nxt ef c' (if pk then data else rest)
    | [] => ch = MARKER_EOM /\
        if pk then channel_readable nxt ef c' [] else channel_idle ef c' nxt
    end.
Proof.
  intros [Hc HR] HS. pose proof Hc as (Hm & Hl & Hst). pose proof HR as [Hw (rest & _ & [])].
  destruct rd_geometry as (H1 & H2 & H3 & H4).
  assert (Hce : ib_cur (ct_ibuf c) = ib_end (ct_ibuf c)).
  { unfold window_ok, ring_max in Hw. apply (f_equal zlen) in HS.
    rewrite slice_len, zlen_nil in HS; [lia|lia|]. destruct (_ <=? _) eqn:?; lia. }
  destruct (get_more_ok _ _ pk _ _ _ _ HR Hce c) as (ch & c' & b' & N' & P' & E & (Ho & Eb & EN & EP) & HG);
    [by split_and!|].
  exists ch, c'. split.
  - destruct pk; unfold tcp_peek_stream, tcp_read_stream;
      rewrite (bind_ok get _ c c c eq_refl), (proj2 (Z.ltb_lt _ _) Hl); cbn [assertm];
      rewrite ret_bind; cbv zeta; rewrite (proj2 (Z.ltb_ge _ _)) by lia; exact E.
  - subst. unfold got in HG. destruct data; destruct HG as [-> HG]; (split; [done|]).
    + destruct pk; by split.
    + by split.
Qed.

(** A byte of the window. *)
Lemma channel_window nxt ef c data x w : channel_readable nxt ef c data ->
  slice (ib_buf (ct_ibuf c)) (ib_cur (ct_ibuf c)) (ib_end (ct_ibuf c)) = x :: w ->
  exists rest, data = x :: rest /\ channel_readable nxt ef (is_advance c) rest /\ is_window (is_advance c) = w /\
    is_byte x.
Proof.
  intros [Hc HR] HS. destruct (readable_advance _ _ _ _ _ _ _ _ HR HS) as (rest & -> & HR' & HS' & Hx).
  by exists rest.
Qed.

Definition channel_data (c : ChannelTCP) : list Z := message_data (ct_ibuf c) (ct_net c).

Lemma channel_readable_data nxt ef c data : channel_readable nxt ef c data -> channel_data c = data.
Proof. intros [_ HR]. by eapply readable_data. Qed.

#[export] Program Instance tcp_InputStreamSpec : InputStreamSpec ChannelTCP := {
  is_wf c := exists nxt ef, channel_readable nxt ef c (channel_data c);
  is_data := channel_data;
  is_mark _ := MARKER_EOM;
}.
Next Obligation. intros c (nxt & ef & _ & HR). by eapply readable_bytes. Qed.
Next Obligation. done. Qed.
Next Obligation.
  intros c (nxt & ef & _ & [Hw (rest & _ & [])]). pose proof (message_data_length (ct_ibuf c) (ct_net c) rd_geometry Hw).
  unfold channel_data. simpl. lia.
Qed.
Next Obligation.
  intros c b l (nxt & ef & HR) HD. simpl in HR. rewrite HD in HR. unfold read_stream. simpl.
  destruct (slice _ _ _) as [|x w] eqn:ES.
  - destruct (channel_get_more false nxt ef c _ HR ES) as (ch & c' & E & -> & HR'). exists c'. split; [done|].
    rewrite (channel_readable_data _ _ _ _ HR'). by eauto.
  - destruct (channel_window nxt ef c _ x w HR ES) as (rest & [= <- <-] & HR' & _).
    exists (is_advance c). split; [done|].
    rewrite (channel_readable_data _ _ _ _ HR'). by eauto.
Qed.
Next Obligation.
  intros c (nxt & ef & HR) HD. simpl in HR. rewrite HD in HR. unfold read_stream. simpl.
  destruct (slice _ _ _) as [|x w] eqn:ES.
  - destruct (channel_get_more false nxt ef c _ HR ES) as (ch & c' & E & -> & _). by exists c'.
  - by destruct (channel_window nxt ef c _ x w HR ES) as (rest & ? & _).
Qed.
Next Obligation.
  intros c b l (nxt & ef & HR) HD. simpl in HR. rewrite HD in HR. unfold peek_stream. simpl.
  destruct (slice _ _ _) as [|x w] eqn:ES.
  - destruct (channel_get_more true nxt ef c _ HR ES) as (ch & c' & E & -> & HR'). exists c'. split; [done|].
    rewrite (channel_readable_data _ _ _ _ HR'). by eauto.
  - destruct (channel_window nxt ef c _ x w HR ES) as (rest & [= <- <-] & _). exists c. split; [done|].
    rewrite (channel_readable_data _ _ _ _ HR). by eauto.
Qed.
Next Obligation.
  intros c (nxt & ef & HR) HD. simpl in HR. rewrite HD in HR. unfold peek_stream. simpl.
  destruct (slice _ _ _) as [|x w] eqn:ES.
  - destruct (channel_get_more true nxt ef c _ HR ES) as (ch & c' & E & -> & HR'). exists c'. split; [done|].
    rewrite (channel_readable_data _ _ _ _ HR'). by eauto.
  - by destruct (channel_window nxt ef c _ x w HR ES) as (rest & ? & _).
Qed.
Next Obligation.
  intros c b w (nxt & ef & HR) HW. destruct (channel_window nxt ef c _ b w HR HW) as (rest & _ & _ & ? & ?). done.
Qed.
