(* ===== verification/ChannelOut.v ===== *)
(** * Channel output: the channel as an output stream

    While it is connected, a channel is an output stream of bytes and markers
    ([OutputStreamSpec]): what has been sent, what waits in the output queue and
    what is in the buffer, decoded, are exactly the symbols written so far. *)

From S2P Require Import Prelude Streams OutputBuf Wire InputBuf ChannelTcp.

(** The bytes that have left the output buffer. *)
Definition wire (c : ChannelTCP) : bytes := ct_sent c ++ queue_data (ct_out_queue c).

Definition request_posted (q : OutputQueue) : bool :=
  match oq_request q with Some _ => true | None => false end.

(** A connected channel.  A posted flush event and a write request in progress
    hold a lock each, and the owner of the channel at least one more. *)
Record out_ok (c : ChannelTCP) : Prop := {
  oo_magic : ct_magic c = CHANNEL_MAGIC;
  oo_socket : 0 <= ct_socket c;
  oo_state : disconnected (ct_state c) = false;
  oo_errno : ct_out_errno c = 0;
  oo_queue : oq_ok (ct_out_queue c);
  oo_qerr : oq_error (ct_out_queue c) = 0;
  oo_flush : 0 <= ct_out_flush_cnt c;
  oo_lock : b2z (0 <? ct_out_flush_cnt c) + b2z (request_posted (ct_out_queue c)) < ct_lock_cnt c;
  oo_buf : zlen (ob_buf (ct_obuf c)) = BUF_SIZE;
  oo_cur : 0 <= ct_cur c <= BUF_SIZE;
  oo_bytes : is_bytes (wire c ++ slice (ob_buf (ct_obuf c)) 0 (ct_cur c));
}.

(** The symbols of the channel are [data]; [st] tells whether an escape sequence
    has been started.  The size of an open block of binary data is not yet in its
    header. *)
Definition encodes_in (st : wstate) (c : ChannelTCP) (data : list Z) : Prop :=
  let m := ob_buf (ct_obuf c) in
  match ct_bin_block c with
  | None => wrun WPlain (wire c ++ slice m 0 (ct_cur c)) = Some (st, data)
  | Some p =>
      st = WPlain /\ 4 <= p < ct_cur c /\ slice m (p - 4) (p - 2) = [ESC; 3] /\
      exists d0, wrun WPlain (wire c ++ slice m 0 (p - 4)) = Some (WPlain, d0) /\
        data = d0 ++ slice m p (ct_cur c)
  end.

Abbreviation encodes := (encodes_in WPlain).

Definition with_buf (m : bytes) (c : ChannelTCP) : ChannelTCP :=
  set_ct_obuf {| ob_buf := m; ob_len := ob_len (ct_obuf c); ob_pos := ob_pos (ct_obuf c) |} c.

Lemma out_put_ok c l : out_ok c -> is_bytes l -> ct_cur c + zlen l <= BUF_SIZE ->
  exists m, out_put l c = (Ok tt, set_ct_cur (ct_cur c + zlen l) (with_buf m c)) /\
    out_ok (set_ct_cur (ct_cur c + zlen l) (with_buf m c)) /\
    (forall i j, 0 <= i <= j -> j <= ct_cur c -> slice m i j = slice (ob_buf (ct_obuf c)) i j) /\
    slice m (ct_cur c) (ct_cur c + zlen l) = l.
Proof.
  intros [] Hbl Hl. pose proof (zlen_nonneg l). unfold out_put. rewrite (bind_ok get _ c c c eq_refl).
  destruct (mem_write_ok (ob_buf (ct_obuf c)) (ct_cur c) l) as (m & Em & Hm & _); [lia|lia|].
  rewrite Em. cbn [of_option]. rewrite ret_bind. exists m. split; [done|].
  assert (HS : forall i j, 0 <= i <= j -> j <= ct_cur c -> slice m i j = slice (ob_buf (ct_obuf c)) i j).
  { intros i j Hi Hj. apply (mem_write_slice _ _ _ _ _ _ Em); lia. }
  assert (HH : slice m (ct_cur c) (ct_cur c + zlen l) = l) by (by destruct (mem_write_here _ _ _ _ Em ltac:(lia))).
  split; [|by split]. constructor; cbn; auto; try lia.
  rewrite <- (slice_app m 0 (ct_cur c)), HS, HH, app_assoc by lia. by apply bytes_app.
Qed.

(** What is put into the buffer outside of a block is decoded. *)
Lemma put_plain c st st' l data syms : is_bytes l -> out_ok c -> ct_bin_block c = None -> encodes_in st c data ->
  ct_cur c + zlen l <= BUF_SIZE -> wrun st l = Some (st', syms) ->
  exists c', out_put l c = (Ok tt, c') /\ out_ok c' /\ encodes_in st' c' (data ++ syms) /\ ct_bin_block c' = None /\
    ct_zero_copy c' = ct_zero_copy c /\ ct_cur c' = ct_cur c + zlen l.
Proof.
  intros Hbl Hok Hb He Hl Hw. destruct (out_put_ok c l Hok Hbl Hl) as (m & E & Hok' & HS & Hh).
  eexists. split; [exact E|]. split; [done|]. split; [|done]. pose proof (zlen_nonneg l). destruct Hok.
  unfold encodes_in in *. cbn. rewrite Hb in *.
  rewrite <- (slice_app m 0 (ct_cur c)), HS, Hh by lia.
  rewrite app_assoc. change (wire (set_ct_cur _ _)) with (wire c). by rewrite (wrun_step _ _ _ _ _ He), Hw.
Qed.

(** What is put into a block is data. *)
Lemma put_block c l data p : is_bytes l -> out_ok c -> ct_bin_block c = Some p -> encodes c data ->
  ct_cur c + zlen l <= BUF_SIZE ->
  exists c', out_put l c = (Ok tt, c') /\ out_ok c' /\ encodes c' (data ++ l) /\ ct_bin_block c' = Some p /\
    ct_zero_copy c' = ct_zero_copy c /\ ct_cur c' = ct_cur c + zlen l.
Proof.
  intros Hbl Hok Hb He Hl. destruct (out_put_ok c l Hok Hbl Hl) as (m & E & Hok' & HS & Hh).
  eexists. split; [exact E|]. split; [done|]. split; [|done]. pose proof (zlen_nonneg l).
  unfold encodes_in in *. cbn. rewrite Hb in *. destruct He as (Hst & Hp & Hh1 & d0 & Hw & ->).
  split; [done|]. split; [lia|]. rewrite !HS by lia. split; [done|]. exists d0. split; [done|].
  by rewrite <- (slice_app m p (ct_cur c)), HS, Hh, app_assoc by lia.
Qed.

(** ** Handing the buffer over *)

(** A lock for a request that the queue posts. *)
Lemma with_requests_ok {A} (m : M OutputQueue A) c a q : ct_magic c = CHANNEL_MAGIC -> 0 <= ct_socket c ->
  m (ct_out_queue c) = (Ok a, q) ->
  with_requests m c = (Ok a, set_ct_lock_cnt
    (ct_lock_cnt c + b2z (negb (request_posted (ct_out_queue c)) && request_posted q)) (set_ct_out_queue q c)).
Proof.
  intros Hm Hs Em. unfold with_requests, request_posted. rewrite (bind_ok get _ c c c eq_refl).
  set (c1 := set_ct_out_queue q c).
  assert (E1 : lift_queue m c = (Ok a, c1)) by (unfold lift_queue; by rewrite Em).
  rewrite (bind_ok _ _ _ _ _ E1), (bind_ok get _ c1 c1 c1 eq_refl). cbn [ct_out_queue c1 set_ct_out_queue].
  assert (E0 : set_ct_lock_cnt (ct_lock_cnt c + 0) c1 = c1) by (rewrite Z.add_0_r; done).
  destruct (oq_request (ct_out_queue c)), (oq_request q); cbn [negb andb b2z]; rewrite ?E0; [done..| |done].
  change (ct_socket c1) with (ct_socket c). rewrite (proj2 (Z.leb_le _ _) Hs). cbn [assertm]. rewrite ret_bind.
  unfold tcp_lock, check_magic. rewrite !bind_assoc, (bind_ok get _ c1 c1 c1 eq_refl).
  change (ct_magic c1) with (ct_magic c). by rewrite Hm, Z.eqb_refl.
Qed.

Lemma flush_ok c st data : out_ok c -> ct_bin_block c = None -> encodes_in st c data ->
  exists c', tcp_flush_with_flags c = (Ok tt, c') /\ out_ok c' /\ encodes_in st c' data /\
    ct_bin_block c' = None /\ ct_zero_copy c' = ct_zero_copy c /\ ct_cur c' = 0 /\
    ct_out_flush_cnt c' = ct_out_flush_cnt c /\ wire c' = wire c ++ slice (ob_buf (ct_obuf c)) 0 (ct_cur c) /\
    ct_sent c' = ct_sent c /\
    ct_lock_cnt c' - b2z (request_posted (ct_out_queue c')) = ct_lock_cnt c - b2z (request_posted (ct_out_queue c)).
Proof.
  intros Hok Hb He. pose proof Hok as []. unfold tcp_flush_with_flags, check_magic.
  rewrite bind_assoc, (bind_ok get _ c c c eq_refl), oo_magic0, Z.eqb_refl. cbn [assertm].
  rewrite ret_bind, (bind_ok get _ c c c eq_refl), Hb.
  rewrite (proj2 (Z.leb_le 0 _)), (proj2 (Z.leb_le _ BUF_SIZE)) by lia. cbn [andb assertm].
  rewrite bool_decide_eq_true_2 by done. cbn [assertm]. rewrite !ret_bind.
  destruct (Z.eqb_spec (ct_cur c) 0) as [Ez|Ez].
  { exists c. split; [done|]. split; [done|]. split; [done|]. rewrite Ez, slice_nil, app_nil_r. by split_and!. }
  rewrite oo_state0, oo_errno0. cbn [negb andb Z.eqb].
  set (bf := {| ob_buf := ob_buf (ct_obuf c); ob_len := ct_cur c; ob_pos := ob_pos (ct_obuf c) |}).
  destruct (add_obuf_ok bf (ct_out_queue c) oo_queue0) as (q & Eq & Hq & Dq & Erq & Fq); [done|cbn; unfold BUF_SIZE in *; lia|].
  destruct (alloc_obuf_ok q Hq) as (bf' & q2 & Eq2 & Hq2 & Q2 & Er2 & Hb2 & _).
  assert (R2 : request_posted q2 = request_posted q).
  { unfold request_posted. destruct Hq as (_ & _ & _ & -> & _), Hq2 as (_ & _ & _ & -> & _). by rewrite Q2. }
  assert (HR : request_posted (ct_out_queue c) = true -> request_posted q = true).
  { unfold request_posted. destruct oo_queue0 as (_ & _ & _ & -> & _), Hq as (_ & _ & _ & -> & _).
    destruct (head (oq_queue (ct_out_queue c))) as [b1|] eqn:Eh; [|done]. by rewrite (Fq _ eq_refl). }
  set (c1 := set_ct_lock_cnt (ct_lock_cnt c + b2z (negb (request_posted (ct_out_queue c)) && request_posted q))
    (set_ct_out_queue q c)).
  assert (E1 : with_requests (output_queue_add_obuf bf) c = (Ok tt, c1)) by (by apply with_requests_ok).
  assert (E2 : lift_queue output_queue_alloc_obuf c1 = (Ok bf', set_ct_out_queue q2 c1)).
  { unfold lift_queue. cbn [ct_out_queue c1 set_ct_lock_cnt set_ct_out_queue]. by rewrite Eq2. }
  rewrite bind_assoc, (bind_ok _ _ _ _ _ E1), bind_assoc, (bind_ok _ _ _ _ _ E2).
  eexists. split; [done|].
  assert (HW : ct_sent c ++ queue_data q2 = wire c ++ slice (ob_buf (ct_obuf c)) 0 (ct_cur c)).
  { unfold queue_data in *. rewrite Q2, Dq, slice_0. by rewrite app_assoc. }
  assert (HK : ct_lock_cnt c + b2z (negb (request_posted (ct_out_queue c)) && request_posted q) -
    b2z (request_posted q2) = ct_lock_cnt c - b2z (request_posted (ct_out_queue c))).
  { rewrite R2. destruct (request_posted (ct_out_queue c)) eqn:Ep; [rewrite HR by done|destruct (request_posted q)];
      cbn [b2z negb andb] in *; lia. }
  split; [|split; [|by split_and!]].
  - constructor; cbn; auto; try lia. rewrite slice_nil, app_nil_r. by rewrite HW.
  - unfold encodes_in in *. cbn. rewrite Hb in *. rewrite slice_nil, app_nil_r. by rewrite HW.
Qed.

(** ** Blocks *)

Lemma out_poke_ok c p b : out_ok c -> is_byte b -> 0 <= p < ct_cur c ->
  exists m, out_poke p b c = (Ok tt, with_buf m c) /\ out_ok (with_buf m c) /\
    (forall i j, 0 <= i <= j -> j <= p \/ p + 1 <= i /\ j <= ct_cur c ->
       slice m i j = slice (ob_buf (ct_obuf c)) i j) /\
    slice m p (p + 1) = [b].
Proof.
  intros [] Hbb Hp. unfold out_poke. rewrite (bind_ok get _ c c c eq_refl).
  destruct (mem_write_ok (ob_buf (ct_obuf c)) p [b]) as (m & Em & Hm & _);
    [lia|change (zlen [b]) with 1; lia|].
  rewrite Em. cbn [of_option]. rewrite ret_bind. exists m. split; [done|].
  assert (HS : forall i j, 0 <= i <= j -> j <= p \/ p + 1 <= i /\ j <= ct_cur c ->
    slice m i j = slice (ob_buf (ct_obuf c)) i j).
  { intros i j Hi Hj. apply (mem_write_slice _ _ _ _ _ _ Em); [lia|]. change (zlen [b]) with 1. lia. }
  assert (HH : slice m p (p + 1) = [b]) by (destruct (mem_write_here _ _ _ _ Em ltac:(lia)) as [E _]; exact E).
  split; [|by split]. constructor; cbn; auto; try lia. apply Forall_app in oo_bytes0 as [? HB].
  apply bytes_app; [done|]. rewrite <- (slice_app m 0 p), <- (slice_app m p (p + 1)), HH, !HS by lia.
  rewrite <- (slice_app _ 0 p), <- (slice_app _ p (p + 1)) in HB by lia.
  apply Forall_app in HB as [? HB]. apply Forall_app in HB as [_ ?]. auto with bytes.
Qed.

(** The header of a finished block gets its size. *)
Lemma bin_block_end_ok c data p : out_ok c -> ct_bin_block c = Some p -> encodes c data ->
  exists c', tcp_bin_block_end c = (Ok tt, c') /\ out_ok c' /\ encodes c' data /\ ct_bin_block c' = None /\
    ct_zero_copy c' = ct_zero_copy c /\ ct_cur c' = ct_cur c.
Proof.
  intros Hok Hb He. pose proof Hok as []. unfold encodes_in in He. rewrite Hb in He.
  destruct He as (_ & Hp & Hh & d0 & Hw & ->). unfold tcp_bin_block_end.
  rewrite (bind_ok get _ c c c eq_refl), Hb. cbv zeta. set (len := ct_cur c - p).
  unfold BUF_SIZE, OUTPUT_QUEUE_BUF_SIZE, MEM_USAGE_FACTOR in *.
  assert (Hlen : 0 < len < 16384) by (subst len; lia). rewrite (proj2 (Z.eqb_neq _ _)) by lia.
  set (lo := Z.lor (Z.land len 127) 128). set (hi := Z.shiftr len 7).
  assert (Hlo : u8 lo = lo).
  { apply u8_byte. unfold is_byte, lo. split; [apply Z.lor_nonneg; split; [apply Z.land_nonneg; lia|lia]|].
    rewrite Z.lor_comm. change 128 with (1 * 2 ^ 7). rewrite lor_mul_add; change 127 with (2 ^ 7 - 1); rewrite ?land_mod; dlia. }
  assert (Hhi : u8 hi = hi).
  { apply u8_byte. unfold is_byte, hi. rewrite Z.shiftr_div_pow2 by lia. change (2 ^ 7) with 128. dlia. }
  rewrite Hlo, Hhi. assert (Hlb : is_byte lo) by (rewrite <- Hlo; apply u8_is_byte).
  assert (Hhb : is_byte hi) by (rewrite <- Hhi; apply u8_is_byte).
  destruct (out_poke_ok c (p - 2) lo Hok Hlb) as (m1 & E1 & Hok1 & S1 & P1); [lia|].
  destruct (out_poke_ok (with_buf m1 c) (p - 1) hi Hok1 Hhb) as (m2 & E2 & Hok2 & S2 & P2); [cbn; lia|].
  cbn [ct_obuf ob_buf with_buf set_ct_obuf] in S2. change (ct_cur (with_buf m1 c)) with (ct_cur c) in S2.
  rewrite bind_assoc, (bind_ok _ _ _ _ _ E1), (bind_ok _ _ _ _ _ E2).
  eexists. split; [done|]. split; [by destruct Hok2|]. split; [|done].
  unfold encodes_in. cbn. replace (p - 2 + 1) with (p - 1) in P1 by lia. replace (p - 1 + 1) with p in P2 by lia.
  assert (EM : slice m2 0 (ct_cur c) = slice (ob_buf (ct_obuf c)) 0 (p - 4) ++ block_header len ++
    slice (ob_buf (ct_obuf c)) p (ct_cur c)).
  { rewrite <- (slice_app m2 0 (p - 4) (ct_cur c)), <- (slice_app m2 (p - 4) (p - 2) (ct_cur c)),
      <- (slice_app m2 (p - 2) (p - 1) (ct_cur c)), <- (slice_app m2 (p - 1) p (ct_cur c)) by lia.
    rewrite P2, !S2, P1, !S1, Hh by lia. done. }
  rewrite EM. change (wire _) with (wire c). rewrite app_assoc, (wrun_step _ _ _ _ _ Hw), wrun_app, wrun_header by done.
  rewrite wrun_data; [done|rewrite slice_len; lia|lia].
Qed.

(** Two stores in a row. *)
Lemma mem_write_app m i l1 m1 l2 : mem_write m i l1 = Some m1 -> 0 <= i ->
  mem_write m1 (i + zlen l1) l2 = mem_write m i (l1 ++ l2).
Proof.
  intros E Hi. pose proof (mem_write_here _ _ _ _ E Hi) as [_ HL].
  unfold mem_write in *. destruct (_ && _) eqn:EL; [|done]. injection E as E.
  apply andb_prop in EL as [_ EL%Z.leb_le]. pose proof (zlen_nonneg l1). pose proof (zlen_nonneg l2).
  rewrite (proj2 (Z.leb_le 0 (i + zlen l1))), (proj2 (Z.leb_le 0 i)) by lia. cbn [andb].
  rewrite HL, zlen_app. replace (i + zlen l1 + zlen l2) with (i + (zlen l1 + zlen l2)) by lia.
  destruct (_ <=? _) eqn:E2; [|done]. f_equal. rewrite <- E.
  assert (HZ : zlen (ztake i m ++ l1) = i + zlen l1) by (rewrite zlen_app, zlen_ztake; lia).
  rewrite (app_assoc (ztake i m)), ztake_app_exact by lia. rewrite <- !app_assoc. do 3 f_equal.
  rewrite app_assoc. unfold zdrop. rewrite drop_app_ge by (unfold zlen in *; lia).
  rewrite drop_drop. f_equal. unfold zlen in *. lia.
Qed.

Lemma out_put_app c l1 l2 : out_ok c -> ct_cur c + zlen (l1 ++ l2) <= BUF_SIZE ->
  (out_put l1 ;; out_put l2) c = out_put (l1 ++ l2) c.
Proof.
  intros [] Hl. rewrite zlen_app in Hl. pose proof (zlen_nonneg l1). pose proof (zlen_nonneg l2).
  unfold out_put. rewrite bind_assoc, !(bind_ok get _ c c c eq_refl).
  destruct (mem_write_ok (ob_buf (ct_obuf c)) (ct_cur c) l1) as (m & Em & Hm & _); [lia|lia|].
  rewrite Em. cbn [of_option]. rewrite ret_bind. 
  rewrite (bind_ok (modify _) _ c tt _ eq_refl), (bind_ok get _ _ _ _ eq_refl). cbn.
  rewrite (mem_write_app _ _ _ _ l2 Em) by lia.
  destruct (mem_write_ok (ob_buf (ct_obuf c)) (ct_cur c) (l1 ++ l2)) as (m2 & Em2 & _ & _); [lia|rewrite zlen_app; lia|].
  rewrite Em2. cbn [of_option]. rewrite !ret_bind. unfold modify. cbn. rewrite zlen_app.
  by replace (ct_cur c + zlen l1 + zlen l2) with (ct_cur c + (zlen l1 + zlen l2)) by lia.
Qed.

(** A block is started for its first byte. *)
Lemma bin_block_start_ok c data b : is_byte b -> out_ok c -> ct_bin_block c = None -> encodes c data ->
  ct_cur c + 5 <= BUF_SIZE ->
  exists c', (tcp_bin_block_start ;; out_put [b]) c = (Ok tt, c') /\ out_ok c' /\
    encodes c' (data ++ [b]) /\ ct_zero_copy c' = ct_zero_copy c.
Proof.
  intros Hbb Hok Hb He Hc. pose proof Hok as [].
  destruct (out_put_ok c [ESC; 3; 0; 0] Hok ltac:(by repeat constructor)) as (m & E & Hok1 & S1 & P1); [change (zlen [ESC; 3; 0; 0]) with 4; lia|].
  change (zlen [ESC; 3; 0; 0]) with 4 in *.
  set (c1 := set_ct_cur (ct_cur c + 4) (with_buf m c)) in *.
  set (c2 := set_ct_bin_block (Some (ct_cur c1)) c1).
  assert (Hok2 : out_ok c2) by (by destruct Hok1).
  assert (Es : tcp_bin_block_start c = (Ok tt, c2)).
  { destruct (out_put_ok c [ESC] Hok ltac:(by repeat constructor)) as (m1 & E1 & HO1 & _); [change (zlen [ESC]) with 1; lia|].
    destruct (out_put_ok _ [3] HO1 ltac:(by repeat constructor)) as (m2 & E2 & HO2 & _); [cbn; unfold zlen; cbn; lia|].
    destruct (out_put_ok _ [0] HO2 ltac:(by repeat constructor)) as (m3 & E3 & HO3 & _); [cbn; unfold zlen; cbn; lia|].
    destruct (out_put_ok _ [0] HO3 ltac:(by repeat constructor)) as (m4 & E4 & HO4 & _); [cbn; unfold zlen; cbn; lia|].
    match type of E4 with _ = (_, ?a) => set (a4 := a) in E4 end.
    assert (E5 : (out_put [ESC] ;; out_put [3] ;; out_put [0] ;; out_put [0]) c = (Ok tt, a4)).
    { by rewrite (bind_ok _ _ _ _ _ E1), (bind_ok _ _ _ _ _ E2), (bind_ok _ _ _ _ _ E3). }
    assert (E6 : out_put [ESC; 3; 0; 0] c = (Ok tt, a4)).
    { rewrite <- E5. change [ESC; 3; 0; 0] with ([ESC] ++ [3] ++ [0] ++ [0]).
      rewrite <- out_put_app, (bind_ok _ _ _ _ _ E1), (bind_ok _ _ _ _ _ E1); [|done|cbn; unfold zlen; cbn; lia].
      rewrite <- out_put_app, (bind_ok _ _ _ _ _ E2), (bind_ok _ _ _ _ _ E2); [|done|cbn; unfold zlen; cbn; lia].
      rewrite <- out_put_app; [done|done|cbn; unfold zlen; cbn; lia]. }
    assert (E7 : c1 = a4) by (rewrite E in E6; congruence).
    unfold tcp_bin_block_start. rewrite (bind_ok _ _ _ _ _ E1), (bind_ok _ _ _ _ _ E2),
      (bind_ok _ _ _ _ _ E3), (bind_ok _ _ _ _ _ E4). unfold c2, modify. cbv beta.
    rewrite <- E7. reflexivity. }
  destruct (out_put_ok c2 [b] Hok2 (bytes_singleton b Hbb)) as (m5 & E5 & Hok5 & S5 & P5); [cbn; change (zlen [b]) with 1; lia|].
  change (ct_cur c2) with (ct_cur c + 4) in *. change (zlen [b]) with 1 in *.
  change (ob_buf (ct_obuf c2)) with m in S5.
  eexists. split; [rewrite (bind_ok _ _ _ _ _ Es); exact E5|]. split; [done|]. split; [|done].
  unfold encodes_in in *. rewrite Hb in He. cbn. rewrite P5. split; [done|]. split; [lia|].
  replace (ct_cur c + 4 - 4) with (ct_cur c) by lia. rewrite !S5, (S1 0 (ct_cur c)) by lia. split; [|by exists data].
  replace (ct_cur c + 4 - 2) with (ct_cur c + 2) by lia.
  rewrite <- (slice_app m (ct_cur c) (ct_cur c + 2) (ct_cur c + 4)) in P1 by lia.
  change [ESC; 3; 0; 0] with ([ESC; 3] ++ [0; 0]) in P1. apply app_inj_1 in P1 as [? _]; [done|].
  assert (HL : zlen (slice m (ct_cur c) (ct_cur c + 2)) = 2); [|unfold zlen in HL; cbn; lia].
  destruct Hok1. cbn in *. rewrite slice_len; lia.
Qed.

(** ** The stream *)

Lemma flush_full_ok c st data : out_ok c -> ct_bin_block c = None -> encodes_in st c data ->
  exists c', flush_full c = (Ok tt, c') /\ out_ok c' /\ encodes_in st c' data /\ ct_bin_block c' = None /\
    ct_zero_copy c' = ct_zero_copy c /\ ct_cur c' < BUF_SIZE.
Proof.
  intros Hok Hb He. unfold flush_full. rewrite (bind_ok get _ c c c eq_refl).
  destruct (Z.eqb_spec (ct_cur c) BUF_SIZE) as [E|].
  - destruct (flush_ok c st data Hok Hb He) as (c' & Ec & Hok' & He' & Hb' & Hz & Hc & _).
    exists c'. by rewrite Hc.
  - exists c. destruct Hok. split_and!; done || lia.
Qed.

(** A block is closed, and there is room for a byte. *)
Lemma make_room_ok c data : out_ok c -> encodes c data ->
  exists c', ((if bool_decide (ct_bin_block c = None) then mret tt else tcp_bin_block_end) ;; flush_full) c =
      (Ok tt, c') /\ out_ok c' /\ encodes c' data /\ ct_bin_block c' = None /\
    ct_zero_copy c' = ct_zero_copy c /\ ct_cur c' < BUF_SIZE.
Proof.
  intros Hok He. destruct (ct_bin_block c) as [p|] eqn:Eb.
  - rewrite bool_decide_eq_false_2 by done.
    destruct (bin_block_end_ok c data p Hok Eb He) as (c1 & E1 & Hok1 & He1 & Hb1 & Hz1 & _).
    rewrite (bind_ok _ _ _ _ _ E1). rewrite <- Hz1. by apply flush_full_ok.
  - rewrite bool_decide_eq_true_2, ret_bind by done. by apply flush_full_ok.
Qed.

(** The flush event of a finished message. *)
Lemma count_eom_ok c data : out_ok c -> encodes c data ->
  exists c', (modify (fun c => set_ct_out_eom_cnt (ct_out_eom_cnt c + 1) c) ;;
      c ← get;
      if ct_out_flush_cnt c <? 2 then
        modify (set_ct_out_flush_cnt (ct_out_flush_cnt c + 1)) ;;
        (if ct_out_flush_cnt c =? 0 then tcp_lock else mret tt) ;;
        post_event flush_event
      else mret tt) c = (Ok tt, c') /\ out_ok c' /\ encodes c' data /\ ct_zero_copy c' = ct_zero_copy c /\
    ct_bin_block c' = ct_bin_block c /\ 0 < ct_out_flush_cnt c'.
Proof.
  intros [] He. rewrite (bind_ok (modify _) _ c tt _ eq_refl), (bind_ok get _ _ _ _ eq_refl). cbn.
  destruct (Z.ltb_spec (ct_out_flush_cnt c) 2) as [Hf|Hf].
  2: { eexists. split; [done|]. split; [by constructor|]. split; [exact He|]. split; [done|]. split; [done|]. cbn. lia. }
  rewrite (bind_ok (modify _) _ _ tt _ eq_refl). cbn.
  destruct (Z.eqb_spec (ct_out_flush_cnt c) 0) as [E|E].
  - unfold tcp_lock, check_magic. rewrite !bind_assoc, (bind_ok get _ _ _ _ eq_refl). cbn.
    rewrite oo_magic0, Z.eqb_refl. cbn [assertm]. rewrite ret_bind, (bind_ok (modify _) _ _ tt _ eq_refl).
    eexists. split; [done|]. split; [|split; [exact He|]; split; [done|]; split; [done|]; cbn; lia].
    constructor; cbn; auto; try lia. rewrite E in *. change (b2z (0 <? 0 + 1)) with 1. change (b2z (0 <? 0)) with 0 in *. lia.
  - rewrite ret_bind. eexists. split; [done|]. split; [|split; [exact He|]; split; [done|]; split; [done|]; cbn; lia].
    constructor; cbn; auto; try lia. 
    replace (0 <? ct_out_flush_cnt c) with true in oo_lock0 by lia.
    replace (0 <? ct_out_flush_cnt c + 1) with true by lia. lia.
Qed.

Definition out_symbol (b : Z) : Prop := is_byte b \/ b = MARKER_EOM \/ b = MARKER_EOS.

(** An escape sequence; the buffer may have to be flushed in the middle. *)
Lemma write_esc_ok b c data : out_symbol b -> b < 0 \/ b = ESC -> out_ok c -> ct_bin_block c = None ->
  encodes c data -> ct_cur c < BUF_SIZE ->
  exists c', (out_put [ESC] ;;
      esc ←
        (if b =? ESC then mret 0
         else if b =? MARKER_EOM then mret 1
         else if b =? MARKER_EOS then mret 2
         else undef);
      flush_full ;;
      out_put [esc] ;;
      if b =? MARKER_EOM then
        modify (fun c => set_ct_out_eom_cnt (ct_out_eom_cnt c + 1) c) ;;
        c ← get;
        if ct_out_flush_cnt c <? 2 then
          modify (set_ct_out_flush_cnt (ct_out_flush_cnt c + 1)) ;;
          (if ct_out_flush_cnt c =? 0 then tcp_lock else mret tt) ;;
          post_event flush_event
        else mret tt
      else mret tt) c = (Ok tt, c') /\ out_ok c' /\ encodes c' (data ++ [b]) /\
    ct_zero_copy c' = ct_zero_copy c /\
    (b = MARKER_EOM -> ct_bin_block c' = None /\ 0 < ct_out_flush_cnt c').
Proof.
  intros Hs Hb Hok Hbin He Hc.
  destruct (put_plain c WPlain WEsc [ESC] data [] ltac:(by repeat constructor) Hok Hbin He) as (c1 & E1 & Hok1 & He1 & Hb1 & Hz1 & _);
    [change (zlen [ESC]) with 1; lia|done|]. rewrite app_nil_r in He1. rewrite (bind_ok _ _ _ _ _ E1).
  set (esc := if b =? ESC then 0 else if b =? MARKER_EOM then 1 else 2).
  assert (Ee : forall (k : Z -> M ChannelTCP unit), ((if b =? ESC then mret 0 else if b =? MARKER_EOM then mret 1
      else if b =? MARKER_EOS then mret 2 else undef) ≫= k) c1 = k esc c1 /\ wrun WEsc [esc] = Some (WPlain, [b])).
  { intros k. subst esc. destruct (Z.eqb_spec b ESC) as [->|]; [done|].
    destruct (Z.eqb_spec b MARKER_EOM) as [->|]; [done|].
    destruct Hs as [Hby|[->| ->]]; [|done|done]. unfold is_byte in Hby. lia. }
  rewrite (proj1 (Ee _)). clear Hbin.
  assert (Hesc : is_bytes [esc]) by (apply bytes_singleton; subst esc; unfold is_byte; zcases; lia).
  destruct (flush_full_ok c1 WEsc data Hok1 Hb1 He1) as (c2 & E2 & Hok2 & He2 & Hb2 & Hz2 & Hc2).
  rewrite (bind_ok _ _ _ _ _ E2).
  destruct (put_plain c2 WEsc WPlain [esc] data [b] Hesc Hok2 Hb2 He2) as (c3 & E3 & Hok3 & He3 & Hb3 & Hz3 & _);
    [change (zlen [esc]) with 1; lia|by apply (Ee (fun _ => mret tt))|]. rewrite (bind_ok _ _ _ _ _ E3).
  destruct (Z.eqb_spec b MARKER_EOM) as [E|E].
  - destruct (count_eom_ok c3 _ Hok3 He3) as (c4 & E4 & Hok4 & He4 & Hz4 & Hb4 & Hf4).
    exists c4. split; [exact E4|]. split; [done|]. split; [done|]. split; [congruence|]. intros _. split; [congruence|done].
  - exists c3. split; [done|]. split; [done|]. split; [done|]. split; [congruence|]. done.
Qed.

Lemma write_stream_ok b c data : out_symbol b -> out_ok c -> encodes c data ->
  exists c', tcp_write_stream b c = (Ok tt, c') /\ out_ok c' /\ encodes c' (data ++ [b]) /\
    ct_zero_copy c' = ct_zero_copy c /\
    (b = MARKER_EOM -> ct_bin_block c' = None /\ 0 < ct_out_flush_cnt c').
Proof.
  intros Hb Hok He. pose proof Hok as []. unfold tcp_write_stream, check_magic.
  rewrite bind_assoc, (bind_ok get _ c c c eq_refl), oo_magic0, Z.eqb_refl. cbn [assertm].
  rewrite ret_bind, (bind_ok get _ c c c eq_refl).
  assert (Hpos : (b <? 0) = false -> is_byte b).
  { intros H. destruct Hb as [|[->| ->]]; done. }
  assert (Hneg : b <> MARKER_EOM \/ (b <? 0) = true) by (destruct (Z.eq_dec b MARKER_EOM) as [->|]; auto).
  destruct (negb (ct_zero_copy c) || (BUF_SIZE - 32 <=? ct_cur c) || (b <? 0)) eqn:Eg.
  - destruct (make_room_ok c data Hok He) as (c1 & E1 & Hok1 & He1 & Hb1 & Hz1 & Hc1).
    assert (HA : forall (k : M ChannelTCP unit),
      ((if bool_decide (ct_bin_block c = None) then mret tt else tcp_bin_block_end) ;; flush_full ;; k) c = k c1).
    { intros k. rewrite <- (bind_ok _ (fun _ => k) _ _ _ E1), bind_assoc. done. }
    rewrite HA. destruct ((b <? 0) || (b =? ESC)) eqn:Ex.
    + assert (Hbn : b < 0 \/ b = ESC) by (apply orb_prop in Ex as [H%Z.ltb_lt|H%Z.eqb_eq]; auto).
      destruct (write_esc_ok b c1 data Hb Hbn Hok1 Hb1 He1 Hc1) as (c2 & E2 & Hok2 & He2 & Hz2 & HM).
      exists c2. split; [exact E2|]. split; [done|]. split; [done|]. split; [congruence|done].
    + apply orb_false_iff in Ex as [Ex1 Ex2]. specialize (Hpos Ex1).
      destruct (put_plain c1 WPlain WPlain [b] data [b] (bytes_singleton b Hpos) Hok1 Hb1 He1) as (c2 & E2 & Hok2 & He2 & Hb2 & Hz2 & _);
        [change (zlen [b]) with 1; lia|cbn [wrun wstep]; by rewrite Ex2|].
      exists c2. rewrite u8_byte by done. split; [exact E2|]. split; [done|]. split; [done|]. split; [congruence|]. intros ->. done.
  - apply orb_false_iff in Eg as [Eg Eb]. apply orb_false_iff in Eg as [Ez Ec].
    specialize (Hpos Eb). rewrite u8_byte by done. apply Z.leb_gt in Ec.
    unfold BUF_SIZE, OUTPUT_QUEUE_BUF_SIZE, MEM_USAGE_FACTOR in *.
    destruct (ct_bin_block c) as [p|] eqn:Ep.
    + rewrite bool_decide_eq_false_2, ret_bind by done.
      destruct (put_block c [b] data p (bytes_singleton b Hpos) Hok Ep He) as (c' & E' & Hok' & He' & Hb' & Hz' & _);
        [change (zlen [b]) with 1; unfold BUF_SIZE, OUTPUT_QUEUE_BUF_SIZE, MEM_USAGE_FACTOR; lia|].
      exists c'. split; [done|]. split; [done|]. split; [done|]. split; [done|]. intros ->. done.
    + rewrite bool_decide_eq_true_2 by done.
      destruct (bin_block_start_ok c data b Hpos Hok Ep He) as (c' & E' & Hok' & He' & Hz');
        [unfold BUF_SIZE, OUTPUT_QUEUE_BUF_SIZE, MEM_USAGE_FACTOR; lia|].
      exists c'. split; [done|]. split; [done|]. split; [done|]. split; [done|]. intros ->. done.
Qed.

Lemma plain_prefix_ok l : exists r, l = plain_prefix l ++ r /\ ESC ∉ plain_prefix l.
Proof.
  induction l as [|b l [r [E Hn]]]; cbn [plain_prefix]; [exists []; split; [done|apply not_elem_of_nil]|].
  destruct (Z.eqb_spec b ESC) as [|Hne]; [exists (b :: l); split; [done|apply not_elem_of_nil]|].
  exists r. cbn. rewrite <- E. split; [done|]. apply not_elem_of_cons. split; [congruence|done].
Qed.

Lemma write_block_loop_ok fuel : forall src c data, (length src < fuel)%nat -> is_bytes src ->
  out_ok c -> encodes c data ->
  exists c', tcp_write_block_loop fuel src c = (Ok tt, c') /\ out_ok c' /\ encodes c' (data ++ src) /\
    ct_zero_copy c' = ct_zero_copy c.
Proof.
  induction fuel as [|fuel IH]; intros src c data Hf Hb Hok He; [lia|]. cbn [tcp_write_block_loop].
  destruct src as [|b rest]; [exists c; by rewrite app_nil_r|].
  rewrite (bind_ok get _ c c c eq_refl). cbv zeta. pose proof (oo_cur _ Hok) as Hcur.
  pose proof (zlen_nonneg rest). assert (Hz : zlen (b :: rest) = zlen rest + 1) by apply zlen_cons.
  set (n := Z.min (BUF_SIZE - ct_cur c) (zlen (b :: rest))).
  assert (Hn : 0 <= n <= zlen (b :: rest) /\ n <= BUF_SIZE - ct_cur c) by (subst n; lia).
  (* what remains after the first [k] bytes *)
  assert (HT : forall k c1, 0 < k <= zlen (b :: rest) -> out_ok c1 ->
    encodes c1 (data ++ ztake k (b :: rest)) -> ct_zero_copy c1 = ct_zero_copy c ->
    exists c', tcp_write_block_loop fuel (zdrop k (b :: rest)) c1 = (Ok tt, c') /\ out_ok c' /\
      encodes c' (data ++ b :: rest) /\ ct_zero_copy c' = ct_zero_copy c).
  { intros k c1 Hk Hok1 He1 Hz1.
    assert (HL : zlen (zdrop k (b :: rest)) = zlen (b :: rest) - k) by (apply zlen_zdrop; lia).
    destruct (IH (zdrop k (b :: rest)) c1 _ ltac:(unfold zlen in *; lia) (bytes_zdrop _ _ Hb) Hok1 He1)
      as (c' & E & Hok' & He' & Hz').
    exists c'. rewrite <- app_assoc, ztake_zdrop in He'. split_and!; done || congruence. }
  assert (HW : exists c', (tcp_write_stream b ;; tcp_write_block_loop fuel rest) c = (Ok tt, c') /\ out_ok c' /\
    encodes c' (data ++ b :: rest) /\ ct_zero_copy c' = ct_zero_copy c).
  { destruct (write_stream_ok b c data) as (c1 & E1 & Hok1 & He1 & Hz1 & _);
      [left; by inversion Hb|done|done|]. rewrite (bind_ok _ _ _ _ _ E1).
    apply (HT 1); done || lia. }
  destruct (Z.eqb_spec n 0) as [E0|E0]; [exact HW|].
  destruct (ct_bin_block c) as [p|] eqn:Ep.
  - rewrite bool_decide_eq_true_2 by done.
    destruct (put_block c (ztake n (b :: rest)) data p (bytes_ztake n _ Hb) Hok Ep He) as (c1 & E1 & Hok1 & He1 & _ & Hz1 & _);
      [rewrite zlen_ztake; lia|]. rewrite (bind_ok _ _ _ _ _ E1). apply HT; done || lia.
  - rewrite bool_decide_eq_false_2 by (intros Hne; by apply Hne).
    destruct (Z.eqb_spec b ESC) as [Hbe|Hbe]; cbn [negb]; [exact HW|].
    set (l := plain_prefix (ztake n (b :: rest))).
    destruct (plain_prefix_ok (ztake n (b :: rest))) as (r & Er & Hne). fold l in Er, Hne.
    assert (Hl : 0 < zlen l <= n).
    { apply (f_equal zlen) in Er as Er'. rewrite zlen_app, zlen_ztake in Er' by lia. pose proof (zlen_nonneg r).
      subst l. unfold ztake. destruct (Z.to_nat n) eqn:En; [lia|]. cbn [take plain_prefix] in *.
      rewrite (proj2 (Z.eqb_neq _ _) Hbe) in *. rewrite zlen_cons in *.
      pose proof (zlen_nonneg (plain_prefix (take n0 rest))). unfold ztake in *. rewrite En in *. cbn [take plain_prefix] in Er'.
      rewrite (proj2 (Z.eqb_neq _ _) Hbe), zlen_cons in Er'. lia. }
    assert (Hlb : is_bytes l).
    { pose proof (bytes_ztake n _ Hb) as HB. rewrite Er in HB. by apply Forall_app in HB as [? _]. }
    destruct (put_plain c WPlain WPlain l data l Hlb Hok Ep He) as (c1 & E1 & Hok1 & He1 & _ & Hz1 & _);
      [lia|by apply wrun_plain|]. rewrite (bind_ok _ _ _ _ _ E1).
    assert (El : ztake (zlen l) (b :: rest) = l).
    { rewrite <- (ztake_zdrop n (b :: rest)), Er, <- app_assoc. by apply ztake_app_exact. }
    apply HT; [lia|done|by rewrite El|done].
Qed.

(** Data that are stored directly. *)
Lemma store_ok c l data : is_bytes l -> out_ok c -> encodes c data -> ESC ∉ l -> zlen l <= BUF_SIZE - ct_cur c ->
  exists c', out_put l c = (Ok tt, c') /\ out_ok c' /\ encodes c' (data ++ l) /\ ct_zero_copy c' = ct_zero_copy c.
Proof.
  intros Hbl Hok He HE Hl. destruct (ct_bin_block c) as [p|] eqn:Ep.
  - destruct (put_block c l data p Hbl Hok Ep He) as (c' & ? & ? & ? & ? & ? & _); [lia|]. by exists c'.
  - destruct (put_plain c WPlain WPlain l data l Hbl Hok Ep He) as (c' & ? & ? & ? & ? & ? & _);
      [lia|by apply wrun_plain|]. by exists c'.
Qed.

(** The symbols as a function of the state. *)
Definition out_data (c : ChannelTCP) : list Z :=
  let m := ob_buf (ct_obuf c) in
  match ct_bin_block c with
  | None => match wrun WPlain (wire c ++ slice m 0 (ct_cur c)) with Some (_, d) => d | None => [] end
  | Some p =>
      match wrun WPlain (wire c ++ slice m 0 (p - 4)) with
      | Some (_, d) => d ++ slice m p (ct_cur c)
      | None => []
      end
  end.

Lemma encodes_data st c data : encodes_in st c data -> out_data c = data.
Proof.
  unfold encodes_in, out_data. destruct (ct_bin_block c) as [p|].
  - intros (_ & _ & _ & d0 & -> & ->). done.
  - by intros ->.
Qed.

Definition out_wf (c : ChannelTCP) : Prop := out_ok c /\ encodes c (out_data c).

Lemma out_wf_intro (m : M ChannelTCP unit) c l :
  (exists c', m c = (Ok tt, c') /\ out_ok c' /\ encodes c' (out_data c ++ l) /\ ct_zero_copy c' = ct_zero_copy c) ->
  exists c', m c = (Ok tt, c') /\ out_wf c' /\ out_data c' = out_data c ++ l /\ ct_zero_copy c' = ct_zero_copy c.
Proof.
  intros (c' & E & Hok & He & Hz). exists c'. pose proof (encodes_data _ _ _ He) as Hd. unfold out_wf. by rewrite Hd.
Qed.

#[export] Program Instance tcp_OutputStreamSpec : OutputStreamSpec ChannelTCP := {
  os_wf := out_wf;
  os_data := out_data;
  os_symbol := out_symbol;
}.
Next Obligation. by left. Qed.
Next Obligation. intros b [Hb|[->| ->]]; [unfold is_byte in Hb; lia|done..]. Qed.
Next Obligation. done. Qed.
Next Obligation. intros c l [Hok He] Hbl HE Hl. by apply out_wf_intro, store_ok. Qed.
Next Obligation.
  intros c b [Hok He] Hb. apply (out_wf_intro (tcp_write_stream b)).
  destruct (write_stream_ok b c _ Hb Hok He) as (c' & ? & ? & ? & ? & _). by exists c'.
Qed.
Next Obligation.
  intros c l [Hok He] Hl. apply (out_wf_intro (tcp_write_block_stream l)).
  apply write_block_loop_ok; auto.
Qed.

(** ** The socket and the events *)

Lemma unlock_ok c : ct_magic c = CHANNEL_MAGIC -> 1 < ct_lock_cnt c ->
  tcp_unlock c = (Ok tt, set_ct_lock_cnt (ct_lock_cnt c - 1) c).
Proof.
  intros Hm Hl. unfold tcp_unlock, check_magic. rewrite bind_assoc, (bind_ok get _ c c c eq_refl), Hm, Z.eqb_refl.
  cbn [assertm]. rewrite ret_bind, (bind_ok get _ c c c eq_refl), (proj2 (Z.ltb_lt _ _)) by lia.
  cbn [assertm]. rewrite ret_bind, (bind_ok (modify _) _ c tt _ eq_refl), (bind_ok get _ _ _ _ eq_refl). cbn.
  by rewrite (proj2 (Z.eqb_neq _ _)) by lia.
Qed.

(** The socket accepts a part of the request in progress. *)
Lemma socket_write_ok c n d st data : out_ok c -> encodes_in st c data ->
  oq_request (ct_out_queue c) = Some d -> 0 <= n <= zlen d ->
  exists c', socket_write n c = (Ok tt, c') /\ out_ok c' /\ encodes_in st c' data /\
    ct_bin_block c' = ct_bin_block c /\ ct_zero_copy c' = ct_zero_copy c /\
    ct_out_flush_cnt c' = ct_out_flush_cnt c /\ ct_sent c' = ct_sent c ++ ztake n d /\
    ct_cur c' = ct_cur c /\
    (length (queue_data (ct_out_queue c)) = length (ztake n d) + length (queue_data (ct_out_queue c')))%nat.
Proof.
  intros Hok He Hr Hn. pose proof Hok as []. unfold socket_write. rewrite (bind_ok get _ c c c eq_refl), Hr.
  rewrite (bind_ok (modify _) _ c tt _ eq_refl). set (c1 := set_ct_sent _ c).
  unfold done_write_request. rewrite (bind_ok get _ c1 c1 c1 eq_refl). change (ct_socket c1) with (ct_socket c).
  rewrite (proj2 (Z.leb_le _ _)) by done. cbn [assertm]. rewrite ret_bind.
  destruct (done_ok (ct_out_queue c) n d oo_queue0 oo_qerr0 Hr Hn) as (q & Eq & Hq & Erq & Dq).
  set (q0 := set_request None (ct_out_queue c)).
  assert (Eq0 : output_queue_done 0 n q0 = (Ok tt, q)) by exact Eq.
  rewrite (bind_ok (lift_queue (modify (set_request None))) _ c1 tt (set_ct_out_queue q0 c1) eq_refl). set (c2 := set_ct_out_queue q0 c1).
  rewrite (bind_ok _ _ _ _ _ (with_requests_ok (output_queue_done 0 n) c2 tt q oo_magic0 oo_socket0 Eq0)).
  set (c3 := set_ct_lock_cnt _ _). cbn [Z.eqb]. rewrite ret_bind, (bind_ok get _ c3 c3 c3 eq_refl).
  change (ct_state c3) with (ct_state c). rewrite oo_state0, andb_false_r, ret_bind.
  assert (HL : ct_lock_cnt c3 = ct_lock_cnt c + b2z (request_posted q)) by done.
  assert (Hrp : request_posted (ct_out_queue c) = true) by (unfold request_posted; by rewrite Hr).
  rewrite Hrp in oo_lock0. cbn [b2z] in oo_lock0.
  assert (Hb1 : 0 <= b2z (0 <? ct_out_flush_cnt c) /\ 0 <= b2z (request_posted q)).
  { destruct (0 <? ct_out_flush_cnt c), (request_posted q); cbn; lia. }
  rewrite unlock_ok; [|done|rewrite HL; lia]. eexists. split; [done|]. rewrite HL.
  assert (HW : (ct_sent c ++ ztake n d) ++ queue_data q = wire c) by (unfold wire; by rewrite Dq, app_assoc).
  split; [constructor; cbn; auto; try lia; by rewrite HW|]. split; [|split_and!; try done; cbn; by rewrite Dq, length_app].
  unfold encodes_in in *. cbn. rewrite HW. exact He.
Qed.

(** A posted flush event runs; no message is being written. *)
Lemma flush_event_ok c data : out_ok c -> encodes c data -> ct_bin_block c = None -> 0 < ct_out_flush_cnt c ->
  exists c', tcp_flush_event c = (Ok tt, c') /\ out_ok c' /\ encodes c' data /\ ct_bin_block c' = None /\
    ct_zero_copy c' = ct_zero_copy c /\ ct_out_flush_cnt c' = ct_out_flush_cnt c - 1 /\ ct_sent c' = ct_sent c /\
    (ct_out_flush_cnt c' = 0 -> ct_cur c' = 0) /\
    (length (queue_data (ct_out_queue c')) + Z.to_nat (ct_cur c') =
     length (queue_data (ct_out_queue c)) + Z.to_nat (ct_cur c))%nat.
Proof.
  intros Hok He Hb Hf. pose proof Hok as []. unfold tcp_flush_event, check_magic.
  rewrite bind_assoc, (bind_ok get _ c c c eq_refl), oo_magic0, Z.eqb_refl. cbn [assertm].
  rewrite ret_bind, (bind_ok (modify _) _ c tt _ eq_refl). set (c1 := set_ct_out_flush_cnt _ c).
  rewrite (bind_ok get _ c1 c1 c1 eq_refl). change (ct_out_flush_cnt c1) with (ct_out_flush_cnt c - 1).
  rewrite (proj2 (Z.ltb_lt _ _) Hf) in oo_lock0. cbn [b2z] in oo_lock0.
  pose proof (b2z_range (request_posted (ct_out_queue c))).
  assert (Hok1 : out_ok c1).
  { constructor; cbn; auto; try lia. destruct (0 <? ct_out_flush_cnt c - 1); cbn; lia. }
  assert (He1 : encodes c1 data) by exact He.
  destruct (flush_ok c1 WPlain data Hok1 Hb He1) as (c2 & E2 & Hok2 & He2 & Hb2 & Hz2 & Hc2 & Hf2 & Hw2 & Hs2 & Hk2).
  change (request_posted (ct_out_queue c1)) with (request_posted (ct_out_queue c)) in Hk2.
  change (ct_lock_cnt c1) with (ct_lock_cnt c) in Hk2.
  change (ct_out_flush_cnt c1) with (ct_out_flush_cnt c - 1) in Hf2.
  assert (HL : (length (queue_data (ct_out_queue c2)) + 0 =
    length (queue_data (ct_out_queue c)) + Z.to_nat (ct_cur c))%nat).
  { unfold wire in Hw2. rewrite Hs2 in Hw2. change (ct_sent c1) with (ct_sent c) in Hw2.
    rewrite <- app_assoc in Hw2. apply app_inv_head in Hw2. rewrite Hw2, length_app.
    change (ob_buf (ct_obuf c1)) with (ob_buf (ct_obuf c)). change (ct_cur c1) with (ct_cur c).
    change (queue_data (ct_out_queue c1)) with (queue_data (ct_out_queue c)).
    pose proof (slice_len (ob_buf (ct_obuf c)) 0 (ct_cur c)). unfold zlen in *. lia. }
  destruct (Z.eqb_spec (ct_out_flush_cnt c - 1) 0) as [E|E].
  - rewrite (bind_ok _ _ _ _ _ E2). pose proof Hok2 as [].
    pose proof (b2z_range (request_posted (ct_out_queue c2))).
    rewrite unlock_ok by (done || lia). eexists. split; [done|].
    split; [|split_and!; try done; cbn; by rewrite Hc2].
    constructor; try done; cbn [ct_out_flush_cnt ct_lock_cnt ct_out_queue set_ct_lock_cnt]; rewrite Hf2, E; try lia.
    change (b2z (0 <? 0)) with 0. lia.
  - destruct (3 <? ct_out_eom_cnt c1).
    + exists c2. split_and!; try done. by rewrite Hc2.
    + exists c1. split_and!; done.
Qed.
