(* ===== verification/Transport.v ===== *)
(** * Transport: from one channel to another

    What one channel writes, another reads, whatever the encoding, the pieces in
    which the sockets accept and deliver the bytes, and the place of the data in
    the buffers. *)

From S2P Require Import Prelude Streams OutputBuf Wire InputBuf InputBufSpec InputBufScan.
From S2P Require Import InputBufDone InputBufRead ChannelTcp ChannelIn ChannelOut.

(** ** The sender *)

(** The channel runs its flush events, and the socket accepts the data that wait:
    [ns] are the sizes of the pieces, at least one byte each. *)
Fixpoint drain (fuel : nat) (ns : list Z) : M ChannelTCP unit :=
  match fuel with
  | O => nofuel
  | S fuel =>
      c ← get;
      if 0 <? ct_out_flush_cnt c then tcp_flush_event ;; drain fuel ns
      else
        match oq_request (ct_out_queue c) with
        | Some d =>
            let n := match ns with [] => zlen d | n :: _ => Z.max 1 (Z.min n (zlen d)) end in
            socket_write n ;; drain fuel (tail ns)
        | None => mret tt
        end
  end.

Definition drain_fuel (c : ChannelTCP) : nat :=
  S (Z.to_nat (ct_out_flush_cnt c) + length (queue_data (ct_out_queue c)) + Z.to_nat (ct_cur c)).

Lemma request_data q d : oq_ok q -> oq_request q = Some d -> 0 < zlen d /\ exists r, queue_data q = d ++ r.
Proof.
  intros (_ & _ & HN & HR & _) E. rewrite HR in E. unfold queue_data.
  destruct (oq_queue q) as [|bf l]; [done|]. injection E as <-. apply Forall_cons in HN as [HN _]. split.
  - destruct (ob_data bf) as [|x r]; [done|]. rewrite zlen_cons. pose proof (zlen_nonneg r). lia.
  - by eexists.
Qed.

Lemma request_none q : oq_ok q -> oq_request q = None -> queue_data q = [].
Proof.
  intros (_ & _ & _ & HR & _) E. rewrite HR in E. unfold queue_data. by destruct (oq_queue q).
Qed.

(** Everything is sent. *)
Lemma drain_ok fuel : forall ns c data, (drain_fuel c <= fuel)%nat -> out_ok c -> encodes c data ->
  ct_bin_block c = None -> (ct_out_flush_cnt c = 0 -> ct_cur c = 0) ->
  exists c', drain fuel ns c = (Ok tt, c') /\ out_ok c' /\ ct_bin_block c' = None /\
    wrun WPlain (ct_sent c') = Some (WPlain, data).
Proof.
  induction fuel as [|fuel IH]; intros ns c data Hf Hok He Hb Hfl; [unfold drain_fuel in Hf; lia|].
  cbn [drain]. rewrite (bind_ok get _ c c c eq_refl). pose proof Hok as [].
  destruct (Z.ltb_spec 0 (ct_out_flush_cnt c)) as [Hp|Hp].
  - destruct (flush_event_ok c data Hok He Hb Hp) as (c1 & E1 & Hok1 & He1 & Hb1 & _ & Hf1 & Hs1 & Hc1 & Hm1).
    rewrite (bind_ok _ _ _ _ _ E1). apply IH; auto. unfold drain_fuel in *. lia.
  - specialize (Hfl ltac:(lia)). destruct (oq_request (ct_out_queue c)) as [d|] eqn:Er.
    + destruct (request_data _ d oo_queue Er) as [Hd _]. cbv zeta.
      set (n := match ns with [] => zlen d | n :: _ => Z.max 1 (Z.min n (zlen d)) end).
      assert (Hn : 0 < n <= zlen d) by (subst n; destruct ns; lia).
      destruct (socket_write_ok c n d WPlain data Hok He Er) as (c1 & E1 & Hok1 & He1 & Hb1 & _ & Hf1 & Hs1 & Hc1 & Hm1); [lia|].
      rewrite (bind_ok _ _ _ _ _ E1). apply IH; auto; [|congruence|congruence].
      unfold drain_fuel in *. assert (Hz : zlen (ztake n d) = n) by (apply zlen_ztake; lia). unfold zlen in Hz. lia.
    + exists c. split; [done|]. split; [done|]. split; [done|]. unfold encodes_in in He. rewrite Hb, Hfl, slice_nil in He.
      unfold wire in He. rewrite (request_none _ oo_queue Er), !app_nil_r in He. done.
Qed.

(** ** The receiver *)

(** An operation of the input buffer on a channel. *)
Lemma run_channel {A} (m : M ChannelTCP A) c b N P a b' N' P' : run m b N P a b' N' P' ->
  channel_live c -> ct_ibuf c = b -> ct_net c = N -> pending_read c = P ->
  exists c', m c = (Ok a, c') /\ channel_live c' /\ ct_ibuf c' = b' /\ ct_net c' = N' /\ pending_read c' = P'.
Proof. intros HR Hl Hb HN HP. destruct (HR c) as (c' & E & ?); [by split_and!|]. by exists c'. Qed.

(** A read completes between two messages. *)
Lemma read_event_ok c syms off n : channel_idle false c syms -> pending_read c = Some (off, n) ->
  ct_net c <> [] ->
  exists c', read_event c = (Ok tt, c') /\ channel_idle false c' syms /\
    (length (ct_net c') < length (ct_net c))%nat.
Proof.
  intros (Hl & Hb & Hpr & He) HP HN. pose proof Hb as []. rewrite HP in bd_pending.
  destruct bd_pending as (-> & Hn & Hs & _). pose proof bd_geometry as (H1 & H2 & H3 & H4).
  destruct (read_event_live c (ib_inp (ct_ibuf c)) n Hl HP) as (d & c1 & E & Hl1 & Hd & Hdn & Hd0 & HP1 & m & Em & Eb);
    [lia|lia|lia|].
  assert (Hdp : 0 < zlen d).
  { destruct d as [|x d]; [by rewrite Hd0 in HN|]. rewrite zlen_cons. pose proof (zlen_nonneg d). lia. }
  rewrite Hd in Hb.
  destruct (run_receive (ct_ibuf c) d (ct_net c1) (pending_read c) syms n m Hb HP He) as (b' & P' & R & Hb' & Hpr' & He');
    [lia|done|].
  destruct (run_channel _ c1 _ _ _ _ _ _ _ R Hl1 Eb eq_refl HP1) as (c2 & E2 & Hl2 & <- & HN2 & <-).
  exists c2. split; [by rewrite E|]. split.
  - by rewrite <- HN2 in Hb'.
  - rewrite HN2, Hd, length_app. unfold zlen in Hdp. lia.
Qed.

(** Data are received until a message can be handled. *)
Fixpoint receive_loop (fuel : nat) : M ChannelTCP unit :=
  match fuel with
  | O => nofuel
  | S fuel =>
      c ← get;
      if bool_decide (ib_handling_msg (ct_ibuf c) = HandleMsgTriggered) then mret tt
      else read_event ;; receive_loop fuel
  end.

(** A message on the way is announced once enough of it has been received. *)
Lemma receive_ok fuel : forall c data nxt, channel_idle false c (data ++ MARKER_EOM :: nxt) ->
  (length (ct_net c) < fuel)%nat ->
  exists c', receive_loop fuel c = (Ok tt, c') /\ channel_idle false c' (data ++ MARKER_EOM :: nxt) /\
    ib_handling_msg (ct_ibuf c') = HandleMsgTriggered /\ (length (ct_net c') <= length (ct_net c))%nat.
Proof.
  induction fuel as [|fuel IH]; intros c data nxt Hc Hf; [lia|]. cbn [receive_loop].
  rewrite (bind_ok get _ c c c eq_refl). case_bool_decide as HT; [by exists c|].
  pose proof Hc as (Hl & [] & Hpr & He).
  assert (HI : ib_message_count (ct_ibuf c) = 0).
  { apply bd_idle. destruct (ib_handling_msg (ct_ibuf c)); done. }
  destruct (pending_read c) as [[off n]|] eqn:HP; [|specialize (Hpr eq_refl); lia].
  assert (HN : ct_net c <> []).
  { destruct bd_syms as (s1 & s2 & st & W1 & W2 & E & Ee & Em). intros HN. rewrite HN in W2. injection W2 as _ <-.
    rewrite app_nil_r in E. subst s1. rewrite eoms_app in Em. cbn [eoms] in Em.
    change (b2z (MARKER_EOM =? MARKER_EOM)) with 1 in Em.
    pose proof (eoms_nonneg data). pose proof (eoms_nonneg nxt). unfold msgs in Em. rewrite He, HI in Em.
    destruct (ib_long_msg (ct_ibuf c)); cbn in Em; lia. }
  destruct (read_event_ok c _ off n Hc HP HN) as (c1 & E1 & Hc1 & Hm1). rewrite (bind_ok _ _ _ _ _ E1).
  destruct (IH c1 data nxt Hc1) as (c2 & E2 & Hc2 & HT2 & Hm2); [lia|]. exists c2. split_and!; try done; lia.
Qed.

(** The symbols of the message are read one by one. *)
Fixpoint read_message (fuel : nat) : M ChannelTCP bytes :=
  match fuel with
  | O => nofuel
  | S fuel =>
      ch ← read_stream;
      if ch =? MARKER_EOM then mret []
      else l ← read_message fuel; mret (ch :: l)
  end.

Lemma read_message_ok fuel : forall c data nxt ef, channel_readable nxt ef c data -> (length data < fuel)%nat ->
  exists c', read_message fuel c = (Ok data, c') /\ channel_idle ef c' nxt.
Proof.
  induction fuel as [|fuel IH]; intros c data nxt ef Hc Hf; [lia|]. cbn [read_message].
  assert (HB : is_bytes data) by (destruct Hc as [_ HR]; by eapply readable_bytes).
  assert (HR : exists ch c1, read_stream c = (Ok ch, c1) /\
    match data with
    | x :: rest => ch = x /\ channel_readable nxt ef c1 rest
    | [] => ch = MARKER_EOM /\ channel_idle ef c1 nxt
    end).
  { unfold read_stream. cbn [is_window tcp_InputStream]. destruct (slice _ _ _) as [|x w] eqn:ES.
    - exact (channel_get_more false nxt ef c data Hc ES).
    - destruct (channel_window nxt ef c data x w Hc ES) as (rest & -> & HR & _). by exists x, (is_advance c). }
  destruct HR as (ch & c1 & E1 & HR). rewrite (bind_ok _ _ _ _ _ E1). destruct data as [|x rest].
  - destruct HR as [-> HI]. by exists c1.
  - destruct HR as [-> HR]. apply Forall_cons in HB as [Hx _].
    rewrite (proj2 (Z.eqb_neq _ _)) by (unfold is_byte, MARKER_EOM in *; lia).
    destruct (IH c1 rest nxt ef HR) as (c2 & E2 & HI); [simpl in Hf; lia|]. exists c2.
    by rewrite (bind_ok _ _ _ _ _ E2).
Qed.

(** [n] messages, one after the other. *)
Fixpoint read_messages (n : nat) : M ChannelTCP (list bytes) :=
  match n with
  | O => mret []
  | S n =>
      c ← get;
      receive_loop (S (length (ct_net c))) ;;
      ibuf_start_message ;;
      c ← get;
      m ← read_message (is_fuel c);
      l ← read_messages n;
      mret (m :: l)
  end.

Definition message_symbols (ms : list bytes) : list Z := mjoin ((fun m => m ++ [MARKER_EOM]) <$> ms).

Lemma read_messages_ok ms : forall c nxt, Forall (fun m => is_bytes m) ms ->
  channel_idle false c (message_symbols ms ++ nxt) ->
  exists c', read_messages (length ms) c = (Ok ms, c') /\ channel_idle false c' nxt.
Proof.
  induction ms as [|m ms IH]; intros c nxt Hms Hc; [by exists c|]. apply Forall_cons in Hms as [Hm Hms].
  assert (ES : message_symbols (m :: ms) ++ nxt = m ++ MARKER_EOM :: message_symbols ms ++ nxt).
  { unfold message_symbols. cbn [fmap list_fmap]. by rewrite mjoin_cons, <- !app_assoc. }
  rewrite ES in Hc. cbn [length read_messages]. rewrite (bind_ok get _ c c c eq_refl).
  destruct (receive_ok _ c m _ Hc (Nat.lt_succ_diag_r _)) as (c1 & E1 & (Hl1 & Hb1 & _ & He1) & HT1 & _).
  rewrite (bind_ok _ _ _ _ _ E1).
  destruct (run_start_message _ false _ _ _ m Hb1 Hm HT1 He1 eq_refl) as [R2 HR2].
  destruct (run_channel _ c1 _ _ _ _ _ _ _ R2 Hl1 eq_refl eq_refl eq_refl) as (c2 & E2 & Hl2 & Eb2 & EN2 & EP2).
  rewrite (bind_ok _ _ _ _ _ E2), (bind_ok get _ c2 c2 c2 eq_refl).
  assert (HR : channel_readable (message_symbols ms ++ nxt) false c2 m).
  { split; [done|]. by rewrite Eb2, EN2, EP2. }
  assert (Hf : (length m < is_fuel c2)%nat).
  { rewrite <- (channel_readable_data _ _ _ _ HR). apply (@is_data_fuel ChannelTCP _ tcp_InputStreamSpec c2).
    exists (message_symbols ms ++ nxt), false. by rewrite (channel_readable_data _ _ _ _ HR). }
  destruct (read_message_ok _ c2 m _ _ HR Hf) as (c3 & E3 & Hc3). rewrite (bind_ok _ _ _ _ _ E3).
  destruct (IH c3 nxt Hms Hc3) as (c4 & E4 & Hc4). exists c4. by rewrite (bind_ok _ _ _ _ _ E4).
Qed.

(** ** New channels *)

Definition pool_ok (pool : list OutputBuffer) : Prop :=
  Forall (fun bf => zlen (ob_buf bf) = OUTPUT_QUEUE_BUF_SIZE) pool /\ zlen pool <= MAX_POOL_SIZE.

Lemma create_channel_ok sock pool net chunks err : 0 <= sock -> pool_ok pool ->
  exists c, create_channel sock pool net chunks err = Some c /\ out_ok c /\ encodes c [] /\
    ct_bin_block c = None /\ ct_out_flush_cnt c = 0 /\ ct_cur c = 0 /\ ct_net c = net /\
    ct_ibuf c = ibuf_init ibuf_zero /\ ct_read_pending c = false.
Proof.
  intros Hs [Hp1 Hp2]. unfold create_channel.
  assert (Hq : oq_ok (output_queue_ini pool)) by (unfold oq_ok; cbn; by split_and!).
  destruct (alloc_obuf_ok _ Hq) as (bf & q & -> & Hq' & Q & Er & Hb & _).
  assert (HD : queue_data q = []) by (unfold queue_data; by rewrite Q).
  assert (HR : request_posted q = false).
  { unfold request_posted. destruct Hq' as (_ & _ & _ & -> & _). by rewrite Q. }
  eexists. split; [done|]. split; [|split; [|by split_and!]].
  - constructor; cbn; rewrite ?HR, ?HD, ?slice_nil; auto; done || lia.
  - unfold encodes_in. cbn. unfold wire. cbn. by rewrite HD, slice_nil.
Qed.

(** The channel is idle once it has been started. *)
Lemma start_channel_ok c net syms st : out_ok c -> ct_ibuf c = ibuf_init ibuf_zero -> ct_net c = net ->
  ct_read_pending c = false -> is_bytes net -> wrun WPlain net = Some (st, syms) -> eos syms = false ->
  exists c', start_channel (mret tt) c = (Ok tt, c') /\ channel_idle false c' syms /\ ct_net c' = net.
Proof.
  intros Hok Hib Hnet Hrp Hb Hw He. pose proof Hok as [].
  assert (Hl : channel_live c).
  { split_and!; [done| |by intros Hs; rewrite Hs in oo_state].
    pose proof (b2z_range (0 <? ct_out_flush_cnt c)). pose proof (b2z_range (request_posted (ct_out_queue c))). lia. }
  set (b := ibuf_init ibuf_zero) in *. 
  assert (HB : boundary b net None syms).
  { constructor; auto; try done.
    - apply alloc_bytes.
    - by exists [], syms, st. }
  assert (Hroom : 0 < free_room b) by done.
  destruct (boundary_trigger b net None syms HB Hroom) as (HB' & Hpr & Hef).
  assert (HR : run ibuf_trigger_read b net None tt (rewind b) net (triggered_read b None)).
  { apply run_trigger_read; [apply HB|done]. }
  assert (HP : pending_read c = None) by (unfold pending_read; by rewrite Hrp).
  destruct (run_channel _ c _ _ _ _ _ _ _ HR Hl Hib Hnet HP) as (c' & E & Hl' & Eb & EN & EP).
  exists c'. split.
  - unfold start_channel, check_magic. rewrite bind_assoc, (bind_ok get _ c c c eq_refl), oo_magic, Z.eqb_refl.
    cbn [assertm]. rewrite ret_bind, (bind_ok get _ c c c eq_refl), (proj2 (Z.leb_le _ _)) by done.
    cbn [assertm]. by rewrite !ret_bind.
  - split; [|done]. unfold channel_idle. rewrite Eb, EN, EP. split_and!; auto.
Qed.

(** ** Messages *)

Definition write_message (ops : list stream_op) : M ChannelTCP unit :=
  run_ops ops ;; write_stream MARKER_EOM.

Fixpoint write_messages (ms : list (list stream_op)) : M ChannelTCP unit :=
  match ms with
  | [] => mret tt
  | ops :: ms => write_message ops ;; write_messages ms
  end.

Definition message_bytes (ops : list stream_op) : bytes := mjoin (op_data <$> ops).

(** No message is being written. *)
Definition between (c : ChannelTCP) : Prop :=
  ct_bin_block c = None /\ (ct_out_flush_cnt c = 0 -> ct_cur c = 0).

Lemma write_message_ok ops c data : Forall (fun op => is_bytes (op_data op)) ops -> out_ok c -> encodes c data ->
  exists c', write_message ops c = (Ok tt, c') /\ out_ok c' /\
    encodes c' (data ++ message_bytes ops ++ [MARKER_EOM]) /\ between c'.
Proof.
  intros Hops Hok He. unfold write_message.
  assert (HW : writes (St := ChannelTCP) (run_ops ops) tt (message_bytes ops)) by (by apply writes_ops).
  assert (Hwf : out_wf c) by (unfold out_wf; by rewrite (encodes_data _ _ _ He)).
  destruct (HW c Hwf) as (c1 & E1 & [Hok1 He1] & D1 & _). rewrite (bind_ok _ _ _ _ _ E1).
  change (os_data c1) with (out_data c1) in D1. change (os_data c) with (out_data c) in D1.
  rewrite D1, (encodes_data _ _ _ He) in He1.
  destruct (write_stream_ok MARKER_EOM c1 _ (or_intror (or_introl eq_refl)) Hok1 He1)
    as (c2 & E2 & Hok2 & He2 & _ & HM). destruct (HM eq_refl) as [Hb Hf].
  exists c2. split; [exact E2|]. rewrite <- app_assoc in He2. split_and!; auto. split; [done|lia].
Qed.

Lemma write_messages_ok ms : forall c data, Forall (Forall (fun op => is_bytes (op_data op))) ms ->
  out_ok c -> encodes c data -> between c ->
  exists c', write_messages ms c = (Ok tt, c') /\ out_ok c' /\
    encodes c' (data ++ message_symbols (message_bytes <$> ms)) /\ between c'.
Proof.
  induction ms as [|ops ms IH]; intros c data Hms Hok He Hb; [exists c; by rewrite app_nil_r|].
  apply Forall_cons in Hms as [Hops Hms].
  destruct (write_message_ok ops c data Hops Hok He) as (c1 & E1 & Hok1 & He1 & Hb1).
  destruct (IH c1 _ Hms Hok1 He1 Hb1) as (c2 & E2 & Hok2 & He2 & Hb2).
  exists c2. cbn [write_messages]. rewrite (bind_ok _ _ _ _ _ E1). split; [done|]. split; [done|]. split; [|done].
  unfold message_symbols in *. cbn [fmap list_fmap]. by rewrite mjoin_cons, app_assoc.
Qed.

Lemma message_symbols_eos ms : Forall (fun m => is_bytes m) ms -> eos (message_symbols ms) = false.
Proof.
  unfold message_symbols. induction 1 as [|m ms Hm Hms IH]; [done|]. cbn [fmap list_fmap].
  by rewrite mjoin_cons, !eos_app, IH, (bytes_eos m Hm).
Qed.

Lemma message_bytes_ok ms : Forall (Forall (fun op => is_bytes (op_data op))) ms ->
  Forall (fun m => is_bytes m) (message_bytes <$> ms).
Proof.
  induction 1 as [|ops ms Hops Hms IH]; [constructor|]. constructor; [|done].
  unfold message_bytes. clear -Hops. induction Hops; [constructor|]. cbn [fmap list_fmap]. rewrite mjoin_cons.
  by apply bytes_app.
Qed.

(** ** Properties *)

Lemma set_zero_copy_ok z c data : out_ok c -> encodes c data ->
  out_ok (set_ct_zero_copy z c) /\ encodes (set_ct_zero_copy z c) data.
Proof. intros [] He. split; [by constructor|exact He]. Qed.

(** C1: messages written to a channel in any way (characters, blocks, strings),
    with or without blocks of binary data, are received by the channel at the
    other end, complete, unchanged and in order, into whatever pieces the sockets
    cut the bytes and however long the messages are. *)
Theorem channel_transport ms zc sock1 sock2 pool1 pool2 ns chunks err :
  0 <= sock1 -> 0 <= sock2 -> pool_ok pool1 -> pool_ok pool2 ->
  Forall (Forall (fun op => is_bytes (op_data op))) ms ->
  exists c0 c1 c2 d0 d1 d2,
    create_channel sock1 pool1 [] [] 0 = Some c0 /\
    write_messages ms (set_ct_zero_copy zc c0) = (Ok tt, c1) /\
    drain (drain_fuel c1) ns c1 = (Ok tt, c2) /\
    create_channel sock2 pool2 (ct_sent c2) chunks err = Some d0 /\
    start_channel (mret tt) d0 = (Ok tt, d1) /\
    read_messages (length ms) d1 = (Ok (message_bytes <$> ms), d2).
Proof.
  intros Hs1 Hs2 Hp1 Hp2 Hms.
  destruct (create_channel_ok sock1 pool1 [] [] 0 Hs1 Hp1) as (c0 & E0 & Hok0 & He0 & Hb0 & _ & Hc0 & _).
  destruct (set_zero_copy_ok zc c0 [] Hok0 He0) as [Hok0' He0'].
  destruct (write_messages_ok ms _ _ Hms Hok0' He0') as (c1 & E1 & Hok1 & He1 & Hb1 & Hf1); [by split|].
  destruct (drain_ok _ ns c1 _ (le_n _) Hok1 He1 Hb1 Hf1) as (c2 & E2 & Hok2 & Hb2 & Hw2).
  destruct (create_channel_ok sock2 pool2 (ct_sent c2) chunks err Hs2 Hp2)
    as (d0 & F0 & Hokd & _ & _ & _ & _ & Hnet & Hib & Hrp).
  pose proof (message_bytes_ok ms Hms) as Hmb.
  assert (Hbs : is_bytes (ct_sent c2)).
  { destruct Hok2. unfold wire in oo_bytes. by apply Forall_app in oo_bytes as [[? _]%Forall_app _]. }
  destruct (start_channel_ok d0 (ct_sent c2) _ _ Hokd Hib Hnet Hrp Hbs Hw2) as (d1 & F1 & Hi1 & _).
  { by apply message_symbols_eos. }
  cbn [app] in Hi1. rewrite <- (app_nil_r (message_symbols _)) in Hi1.
  destruct (read_messages_ok _ d1 [] Hmb Hi1) as (d2 & F2 & _). rewrite length_fmap in F2.
  by exists c0, c1, c2, d0, d1, d2.
Qed.

Lemma channel_transport_witness :
  let ms := [[op_string [72; 105]; op_byte 3]; []; [op_block [3; 3; 0; 255]; op_stringz [65]]] in
  0 <= 4 /\ pool_ok [] /\ Forall (Forall (fun op => is_bytes (op_data op))) ms /\
  exists c0 c1 c2 d0 d1 d2,
    create_channel 4 [] [] [] 0 = Some c0 /\
    write_messages ms (set_ct_zero_copy true c0) = (Ok tt, c1) /\
    drain (drain_fuel c1) [1; 2; 3] c1 = (Ok tt, c2) /\
    create_channel 5 [] (ct_sent c2) [2; 1; 7] 104 = Some d0 /\
    start_channel (mret tt) d0 = (Ok tt, d1) /\
    read_messages 3 d1 = (Ok [[72; 105; 3]; []; [3; 3; 0; 255; 65; 0]], d2).
Proof.
  intros ms. assert (Hp : pool_ok []) by (split; [constructor|done]).
  assert (Hms : Forall (Forall (fun op => is_bytes (op_data op))) ms) by (by repeat constructor).
  split; [lia|]. split; [exact Hp|]. split; [exact Hms|].
  exact (channel_transport ms true 4 5 [] [] [1; 2; 3] [2; 1; 7] 104 ltac:(lia) ltac:(lia) Hp Hp Hms).
Defined.

(** What happens to a channel that is written to: clients write, the socket
    accepts a part of the request in progress, and the flush events run, between
    two messages. *)
Inductive out_event :=
| out_op (op : stream_op)
| out_mark (m : Z)
| out_accept (n : Z)
| out_flush.

Definition run_out (ev : out_event) : M ChannelTCP unit :=
  match ev with
  | out_op op => run_op op
  | out_mark m => write_stream m
  | out_accept n =>
      c ← get;
      match oq_request (ct_out_queue c) with
      | Some d => socket_write (Z.max 0 (Z.min n (zlen d)))
      | None => mret tt
      end
  | out_flush =>
      c ← get;
      if (0 <? ct_out_flush_cnt c) && bool_decide (ct_bin_block c = None) then tcp_flush_event else mret tt
  end.

Fixpoint run_outs (evs : list out_event) : M ChannelTCP unit :=
  match evs with
  | [] => mret tt
  | ev :: evs => run_out ev ;; run_outs evs
  end.

Definition out_event_symbols (ev : out_event) : list Z :=
  match ev with
  | out_op op => op_data op
  | out_mark m => [m]
  | _ => []
  end.

Definition out_event_ok (ev : out_event) : Prop :=
  match ev with
  | out_op op => is_bytes (op_data op)
  | out_mark m => m = MARKER_EOM \/ m = MARKER_EOS
  | _ => True
  end.

Lemma run_out_ok ev c : out_event_ok ev -> out_wf c ->
  exists c', run_out ev c = (Ok tt, c') /\ out_wf c' /\ out_data c' = out_data c ++ out_event_symbols ev.
Proof.
  intros Hev Hc. pose proof Hc as [Hok He]. destruct ev as [op|m|n|]; cbn [run_out out_event_symbols out_event_ok] in *.
  - assert (HW : writes (St := ChannelTCP) (run_ops [op]) tt (op_data op)).
    { rewrite <- (app_nil_r (op_data op)). apply (writes_ops [op]). by repeat constructor. }
    destruct (HW c Hc) as (c1 & E1 & Hwf1 & D1 & _). exists c1. split; [|done]. cbn [run_ops] in E1.
    unfold mbind, M_bind, mret, M_ret in E1. by destruct (run_op op c) as [[[]| | |] c2]; simplify_eq.
  - assert (HS : out_symbol m) by (by right).
    destruct (@writes_stream ChannelTCP _ tcp_OutputStreamSpec m HS c Hc) as (c1 & E1 & Hwf1 & D1 & _).
    by exists c1.
  - rewrite (bind_ok get _ c c c eq_refl), app_nil_r. destruct (oq_request _) as [d|] eqn:Er; [|by exists c].
    pose proof (zlen_nonneg d).
    destruct (socket_write_ok c (Z.max 0 (Z.min n (zlen d))) d WPlain _ Hok He Er)
      as (c1 & E1 & Hok1 & He1 & _); [lia|].
    exists c1. pose proof (encodes_data _ _ _ He1) as HD. unfold out_wf. by rewrite HD.
  - rewrite (bind_ok get _ c c c eq_refl), app_nil_r. destruct (Z.ltb_spec 0 (ct_out_flush_cnt c)) as [Hf|Hf]; cbn [andb];
      [|by exists c]. case_bool_decide as Hb; [|by exists c].
    destruct (flush_event_ok c _ Hok He Hb Hf) as (c1 & E1 & Hok1 & He1 & _).
    exists c1. pose proof (encodes_data _ _ _ He1) as HD. unfold out_wf. by rewrite HD.
Qed.

(** C2: however writes, completed write requests and flush events interleave, no
    buffer is overrun and no assertion fails, the queue stays consistent, every
    flush event and write request in progress keeps a lock on the channel, and
    what has been sent, what waits in the queue and what is in the buffer decode
    to exactly the symbols written, in order. *)
Theorem channel_output_symbols evs c : out_wf c -> Forall out_event_ok evs ->
  exists c', run_outs evs c = (Ok tt, c') /\ out_ok c' /\
    encodes c' (out_data c ++ mjoin (out_event_symbols <$> evs)).
Proof.
  intros Hc Hevs. revert c Hc. induction Hevs as [|ev evs Hev Hevs IH]; intros c Hc.
  - exists c. rewrite app_nil_r. split; [done|]. exact Hc.
  - destruct (run_out_ok ev c Hev Hc) as (c1 & E1 & Hc1 & D1). destruct (IH c1 Hc1) as (c2 & E2 & Hok2 & He2).
    exists c2. cbn [run_outs fmap list_fmap]. rewrite (bind_ok _ _ _ _ _ E1), mjoin_cons, app_assoc, <- D1. done.
Qed.

Lemma channel_output_symbols_witness :
  let evs := [out_op (op_string [72; 3]); out_mark MARKER_EOM; out_flush; out_op (op_byte 65); out_accept 2;
              out_mark MARKER_EOM; out_flush; out_accept 9] in
  exists c, create_channel 4 [] [] [] 0 = Some c /\ out_wf c /\ Forall out_event_ok evs /\
  exists c', run_outs evs c = (Ok tt, c') /\ out_ok c' /\ encodes c' (out_data c ++ [72; 3; -1; 65; -1]).
Proof.
  intros evs. assert (Hp : pool_ok []) by (split; [constructor|done]).
  destruct (create_channel_ok 4 [] [] [] 0 ltac:(lia) Hp) as (c & E & Hok & He & _).
  assert (Hc : out_wf c) by (unfold out_wf; rewrite (encodes_data _ _ _ He); by split).
  assert (Hevs : Forall out_event_ok evs) by (repeat constructor; done).
  exists c. split; [exact E|]. split; [exact Hc|]. split; [exact Hevs|].
  exact (channel_output_symbols evs c Hc Hevs).
Defined.
