(* ===== verification/ChannelClose.v ===== *)
(** * Channel close

    The ends of a channel: the peer closes the connection, or a message handler
    raises an exception. *)

From S2P Require Import Prelude Ring Streams OutputBuf Wire InputBuf InputBufSpec InputBufScan.
From S2P Require Import InputBufDone InputBufRead ChannelTcp ChannelIn ChannelOut Transport.

Section close.
Context (write_errno : Z -> M ChannelTCP unit) (notify_channel_closed : M ChannelTCP unit)
  (channel_close : M ChannelTCP unit) (receive : M ChannelTCP unit).

Abbreviation handle := (handle_channel_msg write_errno notify_channel_closed channel_close receive).

(** The end of the connection is announced like a message. *)
Lemma read_event_eof c syms off n : channel_idle false c syms -> pending_read c = Some (off, n) ->
  ct_net c = [] ->
  exists c', read_event c = (Ok tt, c') /\ channel_live c' /\ ib_eof (ct_ibuf c') = true /\
    ib_handling_msg (ct_ibuf c') = HandleMsgTriggered /\
    ib_message_count (ct_ibuf c') = ib_message_count (ct_ibuf c) + 1 /\ 0 < ib_message_count (ct_ibuf c').
Proof.
  intros (Hl & [] & _ & He) HP HN. rewrite HP in bd_pending. destruct bd_pending as (-> & Hn & Hs & _).
  pose proof bd_geometry as (H1 & H2 & H3 & H4).
  destruct (read_event_live c (ib_inp (ct_ibuf c)) n Hl HP) as (d & c1 & E & Hl1 & Hd & _ & _ & HP1 & m & Em & Eb);
    [lia|lia|lia|].
  assert (d = []) as -> by (rewrite HN in Hd; symmetry in Hd; by apply app_eq_nil in Hd as [? _]).
  pose proof (counters_nonneg _ bd_counters) as Hc.
  destruct (run_eof (ct_ibuf c1) (ct_net c1) None) with (s := c1) as (c2 & E2 & Hl2 & Eb2 & _);
    [by rewrite Eb|by split_and!|].
  rewrite Eb in Eb2. cbn [ib_eof set_ib_buf] in Eb2. rewrite He in Eb2.
  exists c2. rewrite E. split; [exact E2|]. change (own c2) with (channel_live c2) in Hl2.
  change (ib c2) with (ct_ibuf c2) in Eb2. rewrite Eb2. cbn. split_and!; auto; [|lia].
  destruct (ib_handling_msg (ct_ibuf c)); done.
Qed.

(** When the peer closes the connection, the channel is closed by the next
    message event.  Complete messages that have been received and not handled
    yet are not delivered. *)
Lemma channel_eof c syms off n : channel_idle false c syms -> pending_read c = Some (off, n) ->
  ct_net c = [] ->
  exists c1, read_event c = (Ok tt, c1) /\
    ib_message_count (ct_ibuf c1) = ib_message_count (ct_ibuf c) + 1 /\
    handle c1 = channel_close (set_ct_ibuf (set_ib_handling_msg HandleMsgIdle (ct_ibuf c1)) c1).
Proof.
  intros Hc HP HN. destruct (read_event_eof c syms off n Hc HP HN) as (c1 & E & Hl & He & HT & Hm & Hp).
  exists c1. split; [done|]. split; [done|]. pose proof Hl as (Hmg & _).
  unfold handle_channel_msg, check_magic.
  rewrite bind_assoc, (bind_ok get _ c1 c1 c1 eq_refl), Hmg, Z.eqb_refl. cbn [assertm].
  rewrite ret_bind, (bind_ok get _ c1 c1 c1 eq_refl), HT. cbn [assertm bool_decide].
  rewrite bool_decide_eq_true_2, (proj2 (Z.eqb_neq _ _)) by (done || lia). cbn [negb assertm]. rewrite !ret_bind.
  assert (ES : ibuf_start_message c1 = (Ok (-1), set_ct_ibuf (set_ib_handling_msg HandleMsgIdle (ct_ibuf c1)) c1)).
  { unfold ibuf_start_message. rewrite (bind_ok (gets ct_ibuf) _ c1 (ct_ibuf c1) c1 eq_refl), HT.
    rewrite bool_decide_eq_true_2 by done. cbn [assertm]. rewrite ret_bind, (proj2 (Z.eqb_neq _ _)) by lia.
    by rewrite He. }
  rewrite (bind_ok _ _ _ _ _ ES). cbn [Z.leb Z.ltb Z.compare]. set (c2 := set_ct_ibuf _ c1).
  change (ct_state c1) with (ct_state c1). rewrite (live_connected c1 Hl). done.
Qed.

(** Changes of the input buffer do not concern the output. *)
Lemma out_wf_ibuf b c : out_wf c -> out_wf (set_ct_ibuf b c) /\ out_data (set_ct_ibuf b c) = out_data c.
Proof. intros [[] He]. split; [|done]. split; [by constructor|exact He]. Qed.

Lemma out_wf_events l c : out_wf c -> out_wf (set_ct_events l c) /\ out_data (set_ct_events l c) = out_data c.
Proof. intros [[] He]. split; [|done]. split; [by constructor|exact He]. Qed.

(** What [send_eof_and_close] sends. *)
Lemma send_eof_ok c err text : out_wf c -> writes (St := ChannelTCP) (write_errno err) tt text ->
  exists c', send_eof_and_close write_errno notify_channel_closed err c = notify_channel_closed c' /\
    ct_state c' = ChannelStateDisconnected /\ ct_cur c' = 0 /\ ct_read_pending c' = true /\
    encodes c' (out_data c ++ [MARKER_EOS] ++ text ++ [MARKER_EOM]) /\
    (ct_shutdown c' = true \/ oq_queue (ct_out_queue c') <> []).
Proof.
  intros Hc Hw. pose proof Hc as [[] _]. unfold send_eof_and_close, check_magic.
  rewrite bind_assoc, (bind_ok get _ c c c eq_refl), oo_magic, Z.eqb_refl. cbn [assertm].
  rewrite ret_bind, (bind_ok get _ c c c eq_refl), oo_state.
  rewrite (bind_ok ibuf_flush _ c tt _ eq_refl). set (c1 := set_ib _ c).
  assert (H1 : out_wf c1 /\ out_data c1 = out_data c) by (by apply out_wf_ibuf). destruct H1 as [Hc1 D1].
  set (c2 := if bool_decide (ib_handling_msg (ct_ibuf c) = HandleMsgTriggered) then
    set_ct_ibuf (set_ib_handling_msg HandleMsgIdle (ct_ibuf c1)) (set_ct_events (remove_event msg_event (ct_events c1)) c1)
    else c1).
  assert (E2 : (if bool_decide (ib_handling_msg (ct_ibuf c) = HandleMsgTriggered) then
       cancel_event msg_event ;;
       modify (fun c => set_ct_ibuf (set_ib_handling_msg HandleMsgIdle (ct_ibuf c)) c)
     else mret tt) c1 = (Ok tt, c2)) by (subst c2; by case_bool_decide).
  assert (H2 : out_wf c2 /\ out_data c2 = out_data c).
  { subst c2. case_bool_decide; [|done]. destruct (out_wf_events (remove_event msg_event (ct_events c1)) c1 Hc1) as [Hc' D'].
    destruct (out_wf_ibuf (set_ib_handling_msg HandleMsgIdle (ct_ibuf c1)) _ Hc') as [? ->]. split; congruence. }
  rewrite (bind_ok _ _ _ _ _ E2). destruct H2 as [Hc2 D2]. clearbody c2.
  assert (HS : forall m, m = MARKER_EOM \/ m = MARKER_EOS -> out_symbol m) by (intros m Hm; by right).
  destruct (@writes_stream ChannelTCP _ tcp_OutputStreamSpec _ (HS _ (or_intror eq_refl)) c2 Hc2) as (c3 & E3 & Hc3 & D3 & _).
  rewrite (bind_ok _ _ _ _ _ E3). destruct (Hw c3 Hc3) as (c4 & E4 & Hc4 & D4 & _). rewrite (bind_ok _ _ _ _ _ E4).
  destruct Hc4 as [Hok4 He4]. change (os_data c4) with (out_data c4) in D4. change (os_data c3) with (out_data c3) in *.
  change (os_data c2) with (out_data c2) in D3.
  destruct (write_stream_ok MARKER_EOM c4 _ (HS _ (or_introl eq_refl)) Hok4 He4) as (c5 & E5 & Hok5 & He5 & _ & HM).
  destruct (HM eq_refl) as [Hb5 _].
  assert (E5' : write_stream MARKER_EOM c4 = (Ok tt, c5)) by exact E5. rewrite (bind_ok _ _ _ _ _ E5').
  destruct (flush_ok c5 WPlain _ Hok5 Hb5 He5) as (c6 & E6 & Hok6 & He6 & Hb6 & _ & Hc6 & _).
  rewrite (bind_ok _ _ _ _ _ E6), (bind_ok get _ c6 c6 c6 eq_refl).
  rewrite D4, D3, D2, <- !app_assoc in He6.
  destruct (oq_queue (ct_out_queue c6)) as [|bf l] eqn:EQ.
  - rewrite (bind_ok (modify _) _ c6 tt _ eq_refl), (bind_ok (modify _) _ _ tt _ eq_refl), (bind_ok get _ _ _ _ eq_refl).
    unfold tcp_post_read. rewrite bind_assoc, (bind_ok get _ _ _ _ eq_refl). cbn [ct_read_pending set_ct_state set_ct_shutdown].
    destruct (ct_read_pending c6) eqn:Er; [rewrite ret_bind|rewrite (bind_ok (modify _) _ _ tt _ eq_refl)];
      eexists; (split; [done|]); (split_and!; [done|done|done|exact He6|by left]).
  - rewrite ret_bind, (bind_ok (modify _) _ _ tt _ eq_refl), (bind_ok get _ _ _ _ eq_refl).
    unfold tcp_post_read. rewrite bind_assoc, (bind_ok get _ _ _ _ eq_refl). cbn [ct_read_pending set_ct_state].
    destruct (ct_read_pending c6) eqn:Er; [rewrite ret_bind|rewrite (bind_ok (modify _) _ _ tt _ eq_refl)];
      eexists; (split; [done|]); (split_and!; [done|done|done|exact He6|right; cbn; by rewrite EQ]).
Qed.

(** C23: an exception in a message handler is caught: whatever reply the handler
    has begun, the end of the stream, the error and the end of the message are
    sent after it, nothing stays in the buffer, and the channel is disconnected;
    the socket is shut down at once, or when the queue has been written. *)
Theorem channel_exception c c1 data nxt err text : channel_idle false c (data ++ MARKER_EOM :: nxt) ->
  is_bytes data -> ib_handling_msg (ct_ibuf c) = HandleMsgTriggered ->
  receive (set_ct_ibuf (set_ib_handling_msg HandleMsgActive (ct_ibuf c)) c) = (Exc err, c1) -> out_wf c1 ->
  writes (St := ChannelTCP) (write_errno err) tt text ->
  channel_readable nxt false (set_ct_ibuf (set_ib_handling_msg HandleMsgActive (ct_ibuf c)) c) data /\
  exists c', handle c = notify_channel_closed c' /\
    ct_state c' = ChannelStateDisconnected /\ ct_cur c' = 0 /\ ct_read_pending c' = true /\
    encodes c' (out_data c1 ++ [MARKER_EOS] ++ text ++ [MARKER_EOM]) /\
    (ct_shutdown c' = true \/ oq_queue (ct_out_queue c') <> []).
Proof.
  intros (Hl & Hb & _ & He) Hd HT HE Hc1 Hw. pose proof (bd_triggered _ _ _ _ Hb HT) as Hp.
  destruct (run_start_message nxt false _ _ _ data Hb Hd HT He eq_refl) as [R HR]. split; [by split|].
  destruct (send_eof_ok c1 err text Hc1 Hw) as (c' & E & Hst & Hrest). exists c'. split; [|done].
  pose proof Hl as (Hmg & _). unfold handle_channel_msg, check_magic.
  rewrite bind_assoc, (bind_ok get _ c c c eq_refl), Hmg, Z.eqb_refl. cbn [assertm].
  rewrite ret_bind, (bind_ok get _ c c c eq_refl), HT.
  rewrite bool_decide_eq_true_2, (proj2 (Z.eqb_neq _ _)) by (done || lia). cbn [negb assertm]. rewrite !ret_bind.
  assert (ES : ibuf_start_message c = (Ok 1, set_ct_ibuf (set_ib_handling_msg HandleMsgActive (ct_ibuf c)) c)).
  { unfold ibuf_start_message. rewrite (bind_ok (gets ct_ibuf) _ c (ct_ibuf c) c eq_refl), HT.
    rewrite bool_decide_eq_true_2 by done. cbn [assertm]. rewrite ret_bind, (proj2 (Z.eqb_neq _ _)) by lia.
    by rewrite He. }
  rewrite (bind_ok _ _ _ _ _ ES). cbn [Z.leb Z.compare]. by rewrite HE.
Qed.
End close.

(** A channel that has been created and started, with nothing on the way. *)
Lemma new_channel : exists c, channel_idle false c [] /\ pending_read c = Some (0, BUF_SIZE - 1) /\
  ct_net c = [].
Proof.
  destruct (create_channel_ok 4 [] [] [] 104) as (c & E0 & Hok & _ & _ & _ & _ & Hn & Hib & Hr); [lia|by split|].
  destruct (start_channel_ok c [] [] WPlain Hok Hib Hn Hr) as (c1 & E1 & Hc1 & N1); [constructor|done|done|].
  exists c1. split; [exact Hc1|]. split; [|exact N1].
  assert (HP : option_map (fun c => pending_read (start_channel (mret tt) c).2) (create_channel 4 [] [] [] 104) =
    Some (Some (0, BUF_SIZE - 1))) by (vm_compute; reflexivity).
  rewrite E0 in HP. cbn [option_map] in HP. rewrite E1 in HP. by injection HP.
Qed.

(** The fields of the output. *)
Definition out_part (c : ChannelTCP) :=
  ((ct_magic c, ct_socket c, ct_state c, ct_out_errno c, ct_out_flush_cnt c, ct_lock_cnt c, ct_zero_copy c),
   (ct_bin_block c, ct_obuf c, ct_cur c, ct_out_queue c, ct_sent c)).

Lemma out_part_wf c c' : out_part c' = out_part c -> out_wf c -> out_wf c'.
Proof.
  destruct c, c'. unfold out_part. cbn. intros E. injection E as -> -> -> -> -> -> -> -> -> -> -> ->.
  intros [[] He]. split; [by constructor|exact He].
Qed.

(** A message on the way is announced; the output is not concerned. *)
Lemma new_channel_triggered : exists c, channel_idle false c ([65; 66] ++ MARKER_EOM :: []) /\
  ib_handling_msg (ct_ibuf c) = HandleMsgTriggered /\ out_wf c.
Proof.
  destruct (create_channel_ok 4 [] [65; 66; ESC; 1] [] 104) as (c & E0 & Hok & He & _ & _ & _ & Hn & Hib & Hr);
    [lia|by split|].
  destruct (start_channel_ok c [65; 66; ESC; 1] [65; 66; MARKER_EOM] WPlain Hok Hib Hn Hr) as (c1 & E1 & Hc1 & N1);
    [by repeat constructor|done|done|].
  destruct (receive_ok 5 c1 [65; 66] [] Hc1) as (c2 & E2 & Hc2 & HT & _); [rewrite N1; simpl; lia|].
  exists c2. split; [exact Hc2|]. split; [exact HT|].
  assert (HP : option_map (fun c => out_part (receive_loop 5 (start_channel (mret tt) c).2).2)
    (create_channel 4 [] [65; 66; ESC; 1] [] 104) =
    option_map out_part (create_channel 4 [] [65; 66; ESC; 1] [] 104)) by (vm_compute; reflexivity).
  rewrite E0 in HP. cbn [option_map] in HP. rewrite E1 in HP. cbn [snd] in HP. rewrite E2 in HP.
  apply (inj Some) in HP. apply (out_part_wf c _ HP). unfold out_wf. by rewrite (encodes_data _ _ _ He).
Qed.

Lemma channel_eof_witness : exists c off n, channel_idle false c [] /\ pending_read c = Some (off, n) /\
  ct_net c = [] /\
  exists c1, read_event c = (Ok tt, c1) /\
    ib_message_count (ct_ibuf c1) = ib_message_count (ct_ibuf c) + 1 /\
    handle_channel_msg (fun _ => mret tt) (mret tt) (modify (set_ct_state ChannelStateDisconnected)) (mret tt) c1 =
      (Ok tt, set_ct_state ChannelStateDisconnected (set_ct_ibuf (set_ib_handling_msg HandleMsgIdle (ct_ibuf c1)) c1)).
Proof.
  destruct new_channel as (c & Hc & HP & HN). exists c, 0, (BUF_SIZE - 1).
  split; [exact Hc|]. split; [exact HP|]. split; [exact HN|].
  exact (channel_eof (fun _ => mret tt) (mret tt) (modify (set_ct_state ChannelStateDisconnected)) (mret tt)
    c [] _ _ Hc HP HN).
Defined.

(** A handler that begins a reply with the byte 82, then fails with the error 7;
    the text of the error is the byte 69. *)
Lemma channel_exception_witness :
  let receive := write_stream 82 ;; exception 7 in
  let write_errno := fun _ : Z => write_stream 69 in
  exists c c', channel_idle false c ([65; 66] ++ MARKER_EOM :: []) /\
    handle_channel_msg write_errno (mret tt) (mret tt) receive c = (Ok tt, c') /\
    ct_state c' = ChannelStateDisconnected /\ encodes c' (out_data c ++ [82; MARKER_EOS; 69; MARKER_EOM]).
Proof.
  intros receive write_errno.
  destruct new_channel_triggered as (c & Hc & HT & Hwf).
  assert (H82 : writes (St := ChannelTCP) (write_stream 82) tt [82]) by (apply writes_stream; by left).
  assert (H69 : writes (St := ChannelTCP) (write_errno 7) tt [69]) by (apply writes_stream; by left).
  set (ca := set_ct_ibuf (set_ib_handling_msg HandleMsgActive (ct_ibuf c)) c).
  destruct (out_wf_ibuf (set_ib_handling_msg HandleMsgActive (ct_ibuf c)) c Hwf) as [Ha Da].
  destruct (H82 ca Ha) as (c1 & E1 & Hwf1 & D1 & _).
  assert (HE : receive ca = (Exc 7, c1)) by (unfold receive; by rewrite (bind_ok _ _ _ _ _ E1)).
  assert (Hd : is_bytes [65; 66]) by (by repeat constructor).
  destruct (channel_exception write_errno (mret tt) (mret tt) receive c c1 [65; 66] [] 7 [69] Hc Hd HT HE Hwf1 H69)
    as [_ (c' & E & Hs & _ & _ & He & _)].
  exists c, c'. split; [exact Hc|]. split; [exact E|]. split; [exact Hs|].
  change (os_data c1) with (out_data c1) in D1. change (os_data ca) with (out_data ca) in D1.
  rewrite D1 in He. unfold ca in He. by rewrite Da, <- app_assoc in He.
Defined.
