(* ===== verification/Events.v ===== *)
(** * The event queue (framework/events.c)

    Everything the agent does runs in one dispatch thread that takes events from
    a queue; other threads may post events too.  The queues are linked lists of
    nodes; the nodes come from two free lists, one of them for the other threads.

    The store [ev_heap] holds the nodes by their addresses; [event_buf] is the
    range of addresses below [EVENT_BUF_SIZE].  A locked region of the code is one
    step: the threads meet only there, the rest of the state belongs to the dispatch
    thread. *)

From stdpp Require Import gmap.
From S2P Require Import Prelude.

(** ** Data *)

Record timespec := { tv_sec : Z; tv_nsec : Z }.

#[export] Instance timespec_eq_dec : EqDecision timespec.
Proof. solve_decision. Defined.

Record event_node := {
  en_next : option Z;
  en_runtime : timespec;
  en_handler : Z;
  en_arg : Z;
}.

Definition set_next (x : option Z) (n : event_node) : event_node :=
  Build_event_node x (en_runtime n) (en_handler n) (en_arg n).

Definition EVENT_BUF_SIZE : Z := 512.

(** Handlers and arguments are addresses; a handler is not null.  [cancel_handler]
    is null, or it and [cancel_arg].  [ev_brk]: the next address
    that [loc_alloc] returns. *)
Record Events := {
  ev_heap : gmap Z event_node;
  ev_brk : Z;
  free_queue : option Z;
  free_bg_queue : option Z;
  event_queue : option Z;
  event_last : option Z;
  timer_queue : option Z;
  cancel_handler : option (Z * Z);
  process_events : bool;
  exit_event : option Z;
}.

Definition set_heap (x : gmap Z event_node) (s : Events) : Events :=
  Build_Events x (ev_brk s) (free_queue s) (free_bg_queue s) (event_queue s) (event_last s) (timer_queue s)
    (cancel_handler s) (process_events s) (exit_event s).
Definition set_brk (x : Z) (s : Events) : Events :=
  Build_Events (ev_heap s) x (free_queue s) (free_bg_queue s) (event_queue s) (event_last s) (timer_queue s)
    (cancel_handler s) (process_events s) (exit_event s).
Definition set_free_queue (x : option Z) (s : Events) : Events :=
  Build_Events (ev_heap s) (ev_brk s) x (free_bg_queue s) (event_queue s) (event_last s) (timer_queue s)
    (cancel_handler s) (process_events s) (exit_event s).
Definition set_free_bg_queue (x : option Z) (s : Events) : Events :=
  Build_Events (ev_heap s) (ev_brk s) (free_queue s) x (event_queue s) (event_last s) (timer_queue s)
    (cancel_handler s) (process_events s) (exit_event s).
Definition set_event_queue (x : option Z) (s : Events) : Events :=
  Build_Events (ev_heap s) (ev_brk s) (free_queue s) (free_bg_queue s) x (event_last s) (timer_queue s)
    (cancel_handler s) (process_events s) (exit_event s).
Definition set_event_last (x : option Z) (s : Events) : Events :=
  Build_Events (ev_heap s) (ev_brk s) (free_queue s) (free_bg_queue s) (event_queue s) x (timer_queue s)
    (cancel_handler s) (process_events s) (exit_event s).
Definition set_timer_queue (x : option Z) (s : Events) : Events :=
  Build_Events (ev_heap s) (ev_brk s) (free_queue s) (free_bg_queue s) (event_queue s) (event_last s) x
    (cancel_handler s) (process_events s) (exit_event s).
Definition set_cancel (x : option (Z * Z)) (s : Events) : Events :=
  Build_Events (ev_heap s) (ev_brk s) (free_queue s) (free_bg_queue s) (event_queue s) (event_last s) (timer_queue s)
    x (process_events s) (exit_event s).
Definition set_process_events (x : bool) (s : Events) : Events :=
  Build_Events (ev_heap s) (ev_brk s) (free_queue s) (free_bg_queue s) (event_queue s) (event_last s) (timer_queue s)
    (cancel_handler s) x (exit_event s).
Definition set_exit_event (x : option Z) (s : Events) : Events :=
  Build_Events (ev_heap s) (ev_brk s) (free_queue s) (free_bg_queue s) (event_queue s) (event_last s) (timer_queue s)
    (cancel_handler s) (process_events s) x.

(** ** Time *)

Definition nsec_ok (t : timespec) : bool := tv_nsec t <? 1000000000.

(** The asserts are in [time_cmp]. *)
Definition time_cmp (tv1 tv2 : timespec) : M Events Z :=
  assertm (nsec_ok tv1) ;;
  assertm (nsec_ok tv2) ;;
  mret (if tv_sec tv1 <? tv_sec tv2 then -1
        else if tv_sec tv2 <? tv_sec tv1 then 1
        else if tv_nsec tv1 <? tv_nsec tv2 then -1
        else if tv_nsec tv2 <? tv_nsec tv1 then 1
        else 0).

(** [tv_sec] and [tv_nsec] are of type [long]. *)
Definition time_add_usec (tv : timespec) (usec : Z) : timespec :=
  let sec := s64 (tv_sec tv + usec / 1000000) in
  let nsec := s64 (tv_nsec tv + (usec mod 1000000) * 1000) in
  if 1000000000 <=? nsec then {| tv_sec := s64 (sec + 1); tv_nsec := nsec - 1000000000 |}
  else {| tv_sec := sec; tv_nsec := nsec |}.

(** ** Nodes *)

(** [ev->...]: undefined when the node has been freed. *)
Definition node (ev : Z) : M Events event_node := s ← get; of_option (ev_heap s !! ev).
Definition node_put (ev : Z) (n : event_node) : M Events unit :=
  node ev ;; modify (fun s => set_heap (<[ev := n]> (ev_heap s)) s).
Definition next_put (ev : Z) (x : option Z) : M Events unit := n ← node ev; node_put ev (set_next x n).

(** The content of memory from [loc_alloc] does not matter; [loc_alloc_zero] clears it. *)
Definition zero_node : event_node := Build_event_node None (Build_timespec 0 0) 0 0.

Definition loc_alloc : M Events Z :=
  s ← get;
  put (set_brk (ev_brk s + 1) (set_heap (<[ev_brk s := zero_node]> (ev_heap s)) s)) ;;
  mret (ev_brk s).

Definition loc_free (ev : Z) : M Events unit :=
  node ev ;; modify (fun s => set_heap (delete ev (ev_heap s)) s).

Definition alloc_event_node : M Events Z :=
  s ← get;
  match free_queue s with
  | Some ev => n ← node ev; modify (set_free_queue (en_next n)) ;; mret ev
  | None => loc_alloc
  end.

Definition alloc_event_node_bg : M Events Z :=
  s ← get;
  match free_bg_queue s with
  | Some ev => n ← node ev; modify (set_free_bg_queue (en_next n)) ;; mret ev
  | None => loc_alloc
  end.

Definition free_event_node (ev : Z) : M Events unit :=
  if (0 <=? ev) && (ev <? EVENT_BUF_SIZE) then
    s ← get;
    next_put ev (free_queue s) ;;
    modify (set_free_queue (Some ev))
  else loc_free ev.

(** ** Posting *)

(** The place of a timed event: after the ones that are not later.  The fuel is
    more than the number of nodes. *)
Fixpoint timer_place (fuel : nat) (runtime : timespec) (prev next : option Z) : M Events (option Z * option Z) :=
  match fuel with
  | O => nofuel
  | S fuel =>
      match next with
      | None => mret (prev, None)
      | Some x =>
          n ← node x;
          c ← time_cmp runtime (en_runtime n);
          if 0 <=? c then timer_place fuel runtime (Some x) (en_next n) else mret (prev, next)
      end
  end.

Definition heap_fuel (s : Events) : nat := S (size (ev_heap s)).

Definition timer_insert (ev : Z) : M Events unit :=
  n ← node ev;
  s ← get;
  '(prev, next) ← timer_place (heap_fuel s) (en_runtime n) None (timer_queue s);
  next_put ev next ;;
  match prev with
  | None => modify (set_timer_queue (Some ev))
  | Some p => next_put p (Some ev)
  end.

(** [now] is the time that [clock_gettime] returns. *)
Definition post_from_bg_thread (now : timespec) (handler arg delay : Z) : M Events unit :=
  let runtime := time_add_usec now delay in
  s ← get;
  if bool_decide (cancel_handler s = Some (handler, arg)) then modify (set_cancel None)
  else
    ev ← alloc_event_node_bg;
    node_put ev (Build_event_node None runtime handler arg) ;;
    timer_insert ev.

(** [is_event_thread]: who calls. *)
Definition post_event_with_delay (is_event_thread : bool) (now : timespec) (handler arg delay : Z) : M Events unit :=
  s ← get;
  if is_event_thread && bool_decide (cancel_handler s = None) then
    let runtime := time_add_usec now delay in
    ev ← alloc_event_node;
    node_put ev (Build_event_node None runtime handler arg) ;;
    timer_insert ev
  else post_from_bg_thread now handler arg delay.

Definition post_event (is_event_thread : bool) (now : timespec) (handler arg : Z) : M Events unit :=
  s ← get;
  if is_event_thread && bool_decide (cancel_handler s = None) then
    ev ← alloc_event_node;
    node_put ev (Build_event_node None (Build_timespec 0 0) handler arg) ;;
    s ← get;
    match event_queue s with
    | None =>
        assertm (bool_decide (event_last s = None)) ;;
        modify (fun s => set_event_last (Some ev) (set_event_queue (Some ev) s))
    | Some _ =>
        last ← of_option (event_last s);
        next_put last (Some ev) ;;
        modify (set_event_last (Some ev))
    end
  else post_from_bg_thread now handler arg 0.

(** ** Cancelling *)

(** The first node for [handler] and [arg], with the one before. *)
Fixpoint find_event (fuel : nat) (handler arg : Z) (prev ev : option Z) : M Events (option (option Z * Z * event_node)) :=
  match fuel with
  | O => nofuel
  | S fuel =>
      match ev with
      | None => mret None
      | Some x =>
          n ← node x;
          if (en_handler n =? handler) && (en_arg n =? arg) then mret (Some (prev, x, n))
          else find_event fuel handler arg (Some x) (en_next n)
      end
  end.

(** What [cancel_event] returns, or that it waits. *)
Inductive cancel_result := Cancelled (res : Z) | CancelWaits.

Definition cancel_event (is_event_thread : bool) (handler arg : Z) (wait : bool) : M Events cancel_result :=
  assertm is_event_thread ;;
  assertm (negb (handler =? 0)) ;;
  s ← get;
  assertm (bool_decide (cancel_handler s = None)) ;;
  r ← find_event (heap_fuel s) handler arg None (event_queue s);
  match r with
  | Some (prev, ev, n) =>
      (match en_next n with
       | None => assertm (bool_decide (event_last s = Some ev)) ;; modify (set_event_last prev)
       | Some _ => mret tt
       end) ;;
      (match prev with
       | None => modify (set_event_queue (en_next n))
       | Some p => next_put p (en_next n)
       end) ;;
      free_event_node ev ;;
      mret (Cancelled 1)
  | None =>
      r ← find_event (heap_fuel s) handler arg None (timer_queue s);
      match r with
      | Some (prev, ev, n) =>
          (match prev with
           | None => modify (set_timer_queue (en_next n))
           | Some p => next_put p (en_next n)
           end) ;;
          free_event_node ev ;;
          mret (Cancelled 1)
      | None =>
          if wait then modify (set_cancel (Some (handler, arg))) ;; mret CancelWaits
          else mret (Cancelled 0)
      end
  end.

(** ** Start and exit *)

(** [event_buf] is static; everything else starts as zero. *)
Definition start_events : Events :=
  Build_Events (list_to_map ((fun i => (i, zero_node)) <$> seqZ 0 EVENT_BUF_SIZE)) EVENT_BUF_SIZE
    None None None None None None false None.

Fixpoint ini_loop (l : list Z) : M Events unit :=
  match l with
  | [] => mret tt
  | ev :: l =>
      s ← get;
      next_put ev (free_queue s) ;;
      modify (set_free_queue (Some ev)) ;;
      ini_loop l
  end.

Definition ini_events_queue : M Events unit :=
  ini_loop (seqZ 0 EVENT_BUF_SIZE) ;;
  ev ← loc_alloc;
  modify (set_exit_event (Some ev)).

Definition cancel_event_loop : M Events unit := modify (set_process_events false).

(** The address of [exit_event_handler], which no other event uses. *)
Definition EXIT_HANDLER : Z := -1.

Definition exit_event_handler (now : timespec) : M Events unit :=
  s ← get;
  match event_queue s with
  | None => modify (set_process_events false)
  | Some _ => post_event true now EXIT_HANDLER 0
  end.

Definition exit_event_loop : M Events unit :=
  s ← get;
  match exit_event s with
  | None => mret tt
  | Some ev =>
      n ← node ev;
      node_put ev (Build_event_node (timer_queue s) (en_runtime n) EXIT_HANDLER (en_arg n)) ;;
      modify (set_timer_queue (Some ev)) ;;
      modify (set_exit_event None)
  end.

(** ** The event loop *)

(** Where the dispatch thread is: at the head of the loop, in the locked region
    (at its start or after a wait), about to take an event, in the handler of an
    event, in a [cancel_event] that waits, or out of the loop. *)
Inductive LoopPc := LoopHead | LoopRefill | LoopTake | LoopRunning (ev : Z) | LoopCancel (ev : Z) | LoopDone.

(** The state, and the local variables of [run_event_loop]. *)
Record Loop := {
  l_events : Events;
  l_pc : LoopPc;
  event_cnt : Z;
  last_tick_count_ms : Z;
  events_timer_ms : Z;
}.

Definition set_l_pc (x : LoopPc) (l : Loop) : Loop :=
  Build_Loop (l_events l) x (event_cnt l) (last_tick_count_ms l) (events_timer_ms l).
Definition set_event_cnt (x : Z) (l : Loop) : Loop :=
  Build_Loop (l_events l) (l_pc l) x (last_tick_count_ms l) (events_timer_ms l).
Definition set_last_tick (x : Z) (l : Loop) : Loop :=
  Build_Loop (l_events l) (l_pc l) (event_cnt l) x (events_timer_ms l).
Definition set_timer_ms (x : Z) (l : Loop) : Loop :=
  Build_Loop (l_events l) (l_pc l) (event_cnt l) (last_tick_count_ms l) x.

Definition on_events {A} (m : M Events A) : M Loop A := fun l =>
  let '(r, s) := m (l_events l) in
  (r, Build_Loop s (l_pc l) (event_cnt l) (last_tick_count_ms l) (events_timer_ms l)).

(** Nodes move to the free list of the other threads until it has two. *)
Fixpoint refill_free (fuel : nat) : M Events unit :=
  match fuel with
  | O => nofuel
  | S fuel =>
      s ← get;
      match free_queue s with
      | None => mret tt
      | Some x =>
          more ← (match free_bg_queue s with
                  | None => mret true
                  | Some y => n ← node y; mret (bool_decide (en_next n = None))
                  end);
          if (more : bool) then
            n ← node x;
            modify (set_free_queue (en_next n)) ;;
            next_put x (free_bg_queue s) ;;
            modify (set_free_bg_queue (Some x)) ;;
            refill_free fuel
          else mret tt
      end
  end.

(** The last timed event whose time has come. *)
Fixpoint last_due (fuel : nat) (timenow : timespec) (evlast ev : option Z) : M Events (option Z) :=
  match fuel with
  | O => nofuel
  | S fuel =>
      match ev with
      | None => mret evlast
      | Some x =>
          n ← node x;
          c ← time_cmp (en_runtime n) timenow;
          if c <=? 0 then last_due fuel timenow (Some x) (en_next n) else mret evlast
      end
  end.

(** One round of the inner loop; [false]: the thread waits on [event_cond]. *)
Definition poll_timers (timenow : timespec) : M Events bool :=
  s ← get;
  match timer_queue s with
  | Some _ =>
      evlast ← last_due (heap_fuel s) timenow None (timer_queue s);
      match evlast with
      | Some evlast =>
          n ← node evlast;
          modify (set_timer_queue (en_next n)) ;;
          next_put evlast (event_queue s) ;;
          (match event_queue s with
           | None => assertm (bool_decide (event_last s = None)) ;; modify (set_event_last (Some evlast))
           | Some _ => mret tt
           end) ;;
          modify (set_event_queue (timer_queue s)) ;;
          mret true
      | None => mret (match event_queue s with None => false | Some _ => true end)
      end
  | None => mret (match event_queue s with None => false | Some _ => true end)
  end.

(** The first event leaves the queue. *)
Definition take_event : M Events (Z * event_node) :=
  s ← get;
  ev ← of_option (event_queue s);
  n ← node ev;
  modify (set_event_queue (en_next n)) ;;
  (match en_next n with
   | None => assertm (bool_decide (event_last s = Some ev)) ;; modify (set_event_last None)
   | Some _ => mret tt
   end) ;;
  mret (ev, n).

Definition loop_head : M Loop unit :=
  l ← get;
  if negb (process_events (l_events l)) then modify (set_l_pc LoopDone)
  else if bool_decide (event_queue (l_events l) = None) || (100 <=? event_cnt l) ||
          ((1 <=? event_cnt l) && (100 <=? u32 (events_timer_ms l - last_tick_count_ms l))) then
    modify (set_event_cnt 0) ;;
    on_events (s ← get; refill_free (heap_fuel s)) ;;
    modify (set_l_pc LoopRefill)
  else modify (set_l_pc LoopTake).

Definition loop_refill (timenow : timespec) : M Loop unit :=
  l ← get;
  modify (set_last_tick (events_timer_ms l)) ;;
  ready ← on_events (poll_timers timenow);
  if (ready : bool) then modify (set_l_pc LoopTake) else mret tt.

Definition loop_take : M Loop unit :=
  '(ev, n) ← on_events take_event;
  l ← get;
  (if bool_decide (en_runtime n = Build_timespec 0 0) then modify (set_event_cnt (u32 (event_cnt l + 1))) else mret tt) ;;
  modify (set_l_pc (LoopRunning ev)).

Definition loop_return (ev : Z) : M Loop unit :=
  on_events (free_event_node ev) ;;
  modify (set_l_pc LoopHead).

(** [ini_events_queue] and the start of [run_event_loop]. *)
Definition run_event_loop (timer_ms : Z) : M Loop unit :=
  modify (fun l => Build_Loop (l_events l) LoopHead 0 timer_ms timer_ms) ;;
  on_events (modify (set_process_events true)).

(** ** The threads

    What the dispatch thread does next, where the handler of an event may post
    and cancel, and what other threads do in between. *)

Inductive action :=
| Head | Refill (now : timespec) | Take | Return
| Post (handler arg : Z) (now : timespec)
| PostDelay (handler arg delay : Z) (now : timespec)
| Cancel (handler arg : Z) (wait : bool)
| Wake
| ExitHandler (now : timespec)
| BgPost (handler arg delay : Z) (now : timespec)
| Tick (ms : Z)
| ExitLoop
| CancelLoop.

(** A step that does not fit the place of the dispatch thread does nothing. *)
Definition loop_step (a : action) : M Loop unit :=
  l ← get;
  match a, l_pc l with
  | Head, LoopHead => loop_head
  | Refill now, LoopRefill => loop_refill now
  | Take, LoopTake => loop_take
  | Return, LoopRunning ev => loop_return ev
  | Post h a now, LoopRunning _ => on_events (post_event true now h a)
  | PostDelay h a d now, LoopRunning _ => on_events (post_event_with_delay true now h a d)
  | Cancel h a wait, LoopRunning ev =>
      r ← on_events (cancel_event true h a wait);
      match r with Cancelled _ => mret tt | CancelWaits => modify (set_l_pc (LoopCancel ev)) end
  | Wake, LoopCancel ev =>
      match cancel_handler (l_events l) with None => modify (set_l_pc (LoopRunning ev)) | Some _ => mret tt end
  | ExitHandler now, LoopRunning ev => on_events (exit_event_handler now)
  | BgPost h a d now, _ => on_events (post_event_with_delay false now h a d)
  | Tick ms, _ => modify (set_timer_ms (u32 ms))
  | ExitLoop, _ => on_events exit_event_loop
  | CancelLoop, _ => on_events cancel_event_loop
  | _, _ => mret tt
  end.

Fixpoint loop_run (l : list action) : M Loop unit :=
  match l with
  | [] => mret tt
  | a :: l => loop_step a ;; loop_run l
  end.

Definition start_loop : Loop := Build_Loop start_events LoopDone 0 0 0.

(** The agent from its start. *)
Definition event_system (l : list action) : M Loop unit :=
  on_events ini_events_queue ;;
  run_event_loop 0 ;;
  loop_run l.
