(* ===== verification/EventsSpec.v ===== *)
(** * The event queue: its lists

    The linked lists of the event queue as lists of addresses and events; who
    owns a node is counted, so that the lists are disjoint, no node is lost and
    none is used after it has been freed. *)

From stdpp Require Import gmap.
From S2P Require Import Prelude Events.

(** ** Counting *)

Fixpoint cnt (x : Z) (l : list Z) : nat :=
  match l with
  | [] => O
  | y :: l => (Nat.b2n (x =? y)%Z + cnt x l)%nat
  end.

Lemma cnt_app x l k : cnt x (l ++ k) = (cnt x l + cnt x k)%nat.
Proof. induction l as [|y l IH]; [done|]. cbn. lia. Qed.

Lemma cnt_elem x l : x ∈ l -> (0 < cnt x l)%nat.
Proof. induction 1 as [x l|x y l _ IH]; cbn; [rewrite Z.eqb_refl; cbn; lia|lia]. Qed.

Lemma cnt_here x l : (0 < cnt x (x :: l))%nat.
Proof. cbn. rewrite Z.eqb_refl. cbn. lia. Qed.

Lemma cnt_cons x y l : cnt x (y :: l) = (Nat.b2n (x =? y)%Z + cnt x l)%nat.
Proof. done. Qed.

Lemma cnt_cons_0 x y l : cnt x (y :: l) = 0%nat -> x <> y /\ cnt x l = 0%nat.
Proof. rewrite cnt_cons. destruct (Z.eqb_spec x y); cbn; [lia|]. done. Qed.

(** 1 for a node of the store. *)
Definition mem (h : gmap Z event_node) (x : Z) : nat := match h !! x with Some _ => 1 | None => 0 end.

Lemma mem_insert h x n y : mem (<[x := n]> h) y = if y =? x then 1%nat else mem h y.
Proof. unfold mem. destruct (Z.eqb_spec y x) as [->|Hne]; [by rewrite lookup_insert_eq|by rewrite lookup_insert_ne]. Qed.

Lemma mem_delete h x y : mem (delete x h) y = if y =? x then 0%nat else mem h y.
Proof. unfold mem. destruct (Z.eqb_spec y x) as [->|Hne]; [by rewrite lookup_delete_eq|by rewrite lookup_delete_ne]. Qed.

Lemma mem_some h x n : h !! x = Some n -> mem h x = 1%nat.
Proof. unfold mem. by intros ->. Qed.

Lemma mem_is_some h x : mem h x = 1%nat -> exists n, h !! x = Some n.
Proof. unfold mem. destruct (h !! x) as [n|]; [by exists n|done]. Qed.

(** A store that is owned once has as many nodes as owners. *)
Lemma owned_size h l : (forall x, cnt x l = mem h x) -> length l = size h.
Proof.
  revert h. induction l as [|y l IH]; intros h Hl.
  - destruct (decide (h = ∅)) as [->|Hne]; [by rewrite map_size_empty|].
    apply map_choose in Hne as (x & n & Hx). specialize (Hl x). by rewrite (mem_some _ _ _ Hx) in Hl.
  - destruct (mem_is_some h y) as [n Hn].
    { specialize (Hl y). pose proof (cnt_here y l). unfold mem in *. destruct (h !! y); [done|lia]. }
    rewrite <- (insert_delete_id h y n Hn), map_size_insert_None by (by rewrite lookup_delete_eq). cbn. f_equal.
    apply IH. intros x. rewrite mem_delete. specialize (Hl x). cbn in Hl. destruct (Z.eqb_spec x y) as [E|]; cbn in Hl; [|lia].
    rewrite E, (mem_some _ _ _ Hn) in Hl. rewrite E. lia.
Qed.

(** ** Events and segments *)

Definition event : Type := timespec * (Z * Z).
Definition node_event (n : event_node) : event := (en_runtime n, (en_handler n, en_arg n)).

(** From [p] to [q] there are the nodes of [l]. *)
Fixpoint seg (h : gmap Z event_node) (p : option Z) (l : list (Z * event)) (q : option Z) : Prop :=
  match l with
  | [] => p = q
  | (x, e) :: l => p = Some x /\ exists n, h !! x = Some n /\ node_event n = e /\ seg h (en_next n) l q
  end.

Definition addrs (l : list (Z * event)) : list Z := l.*1.

Lemma addrs_app l k : addrs (l ++ k) = addrs l ++ addrs k.
Proof. apply fmap_app. Qed.

Lemma addrs_cons x e l : addrs ((x, e) :: l) = x :: addrs l.
Proof. done. Qed.

Lemma length_addrs l : length (addrs l) = length l.
Proof. apply length_fmap. Qed.

Lemma seg_app h p l k q : seg h p (l ++ k) q <-> exists r, seg h p l r /\ seg h r k q.
Proof.
  revert p. induction l as [|[x e] l IH]; intros p; cbn.
  - split; [by exists p|]. by intros (r & <- & H).
  - split.
    + intros (-> & n & Hn & He & H). apply IH in H as (r & H1 & H2). exists r. split; [|done]. split; [done|]. by exists n.
    + intros (r & (-> & n & Hn & He & H1) & H2). split; [done|]. exists n. split_and!; try done. apply IH. by exists r.
Qed.

Lemma seg_insert h p l q x n : cnt x (addrs l) = 0%nat -> seg h p l q -> seg (<[x := n]> h) p l q.
Proof.
  revert p. induction l as [|[y e] l IH]; intros p Hc; [done|]. rewrite addrs_cons in Hc. apply cnt_cons_0 in Hc as [Hne Hc].
  cbn. intros (-> & m & Hm & He & H). split; [done|].
  exists m. rewrite lookup_insert_ne by done. split_and!; try done. by apply IH.
Qed.

Lemma seg_delete h p l q x : cnt x (addrs l) = 0%nat -> seg h p l q -> seg (delete x h) p l q.
Proof.
  revert p. induction l as [|[y e] l IH]; intros p Hc; [done|]. rewrite addrs_cons in Hc. apply cnt_cons_0 in Hc as [Hne Hc].
  cbn. intros (-> & m & Hm & He & H). split; [done|].
  exists m. rewrite lookup_delete_ne by done. split_and!; try done. by apply IH.
Qed.

Lemma seg_last h p l x e q : seg h p (l ++ [(x, e)]) q <->
  exists n, seg h p l (Some x) /\ h !! x = Some n /\ node_event n = e /\ en_next n = q.
Proof.
  rewrite seg_app. cbn. split.
  - intros (r & H & -> & n & Hn & He & Hq). by exists n.
  - intros (n & H & Hn & He & Hq). exists (Some x). split; [done|]. split; [done|]. by exists n.
Qed.

(** The end of a segment is redirected. *)
Lemma seg_redirect h p l x e q q' n : cnt x (addrs l) = 0%nat -> seg h p (l ++ [(x, e)]) q -> h !! x = Some n ->
  seg (<[x := set_next q' n]> h) p (l ++ [(x, e)]) q'.
Proof.
  rewrite !seg_last. intros Hc (m & H & Hm & He & Hq) Hn. rewrite Hm in Hn. injection Hn as <-. exists (set_next q' m).
  split; [by apply seg_insert|]. split; [by rewrite lookup_insert_eq|]. by destruct m.
Qed.

Lemma seg_end h p l : seg h p l None -> p = fst <$> head l.
Proof. destruct l as [|[x e] l]; [done|]. by intros [-> _]. Qed.

(** ** Who owns the nodes *)

(** [lo_hand]: nodes in no list, in use by the dispatch thread. *)
Record layout := {
  lo_eq : list (Z * event);
  lo_tq : list (Z * event);
  lo_fq : list (Z * event);
  lo_bq : list (Z * event);
  lo_exit : list (Z * event);
  lo_hand : list Z;
}.

(** The fields of a layout of which only some change. *)
Definition with_eq (l : list (Z * event)) (hand : list Z) (lo : layout) : layout :=
  Build_layout l (lo_tq lo) (lo_fq lo) (lo_bq lo) (lo_exit lo) hand.
Definition with_tq (l : list (Z * event)) (hand : list Z) (lo : layout) : layout :=
  Build_layout (lo_eq lo) l (lo_fq lo) (lo_bq lo) (lo_exit lo) hand.

Definition owned (lo : layout) : list Z :=
  addrs (lo_eq lo) ++ addrs (lo_tq lo) ++ addrs (lo_fq lo) ++ addrs (lo_bq lo) ++ addrs (lo_exit lo) ++ lo_hand lo.

Record wf (s : Events) (lo : layout) : Prop := {
  wf_eq : seg (ev_heap s) (event_queue s) (lo_eq lo) None;
  wf_last : event_last s = fst <$> last (lo_eq lo);
  wf_tq : seg (ev_heap s) (timer_queue s) (lo_tq lo) None;
  wf_fq : seg (ev_heap s) (free_queue s) (lo_fq lo) None;
  wf_bq : seg (ev_heap s) (free_bg_queue s) (lo_bq lo) None;
  wf_exit : seg (ev_heap s) (exit_event s) (lo_exit lo) None;
  wf_exit_one : lo_exit lo = [] \/ exists x, lo_exit lo = [(x, node_event zero_node)];
  wf_own : forall x, cnt x (owned lo) = mem (ev_heap s) x;
  wf_pool : forall x, x ∈ addrs (lo_fq lo) ++ addrs (lo_bq lo) -> 0 <= x < EVENT_BUF_SIZE;
  wf_brk : EVENT_BUF_SIZE <= ev_brk s /\ forall x n, ev_heap s !! x = Some n -> x < ev_brk s;
}.

(** The counts of all the lists, for [lia]. *)
Lemma owned_cnt x lo : cnt x (owned lo) =
  (cnt x (addrs (lo_eq lo)) + cnt x (addrs (lo_tq lo)) + cnt x (addrs (lo_fq lo)) + cnt x (addrs (lo_bq lo)) +
   cnt x (addrs (lo_exit lo)) + cnt x (lo_hand lo))%nat.
Proof. unfold owned. rewrite !cnt_app. lia. Qed.

Lemma wf_cnt s lo x : wf s lo ->
  (cnt x (addrs (lo_eq lo)) + cnt x (addrs (lo_tq lo)) + cnt x (addrs (lo_fq lo)) + cnt x (addrs (lo_bq lo)) +
   cnt x (addrs (lo_exit lo)) + cnt x (lo_hand lo) = mem (ev_heap s) x)%nat.
Proof. intros H. rewrite <- owned_cnt. apply H. Qed.

Lemma mem_le h x : (mem h x <= 1)%nat.
Proof. unfold mem. destruct (h !! x); lia. Qed.

Lemma wf_lengths s lo : wf s lo ->
  (length (lo_eq lo) < heap_fuel s /\ length (lo_tq lo) < heap_fuel s /\ length (lo_fq lo) < heap_fuel s)%nat.
Proof.
  intros Hw. unfold heap_fuel. rewrite <- (owned_size _ _ (wf_own _ _ Hw)). unfold owned.
  rewrite !length_app, !length_addrs. lia.
Qed.

Lemma node_ok s x n : ev_heap s !! x = Some n -> node x s = (Ok n, s).
Proof. intros E. unfold node. rewrite (bind_ok get _ s s s eq_refl). by rewrite E. Qed.

Lemma node_put_ok s x n m : ev_heap s !! x = Some n -> node_put x m s = (Ok tt, set_heap (<[x := m]> (ev_heap s)) s).
Proof. intros E. unfold node_put. by rewrite (bind_ok _ _ _ _ _ (node_ok s x n E)). Qed.

Lemma next_put_ok s x n q : ev_heap s !! x = Some n ->
  next_put x q s = (Ok tt, set_heap (<[x := set_next q n]> (ev_heap s)) s).
Proof. intros E. unfold next_put. rewrite (bind_ok _ _ _ _ _ (node_ok s x n E)). by apply (node_put_ok s x n). Qed.

(** ** Nodes come and go *)

(** Everything but the nodes. *)
Definition misc (s : Events) := (cancel_handler s, process_events s).

(** A node in hand is in no list. *)
Lemma in_hand s lo x : wf s lo -> x ∈ lo_hand lo -> exists n, ev_heap s !! x = Some n /\
  cnt x (addrs (lo_eq lo)) = 0%nat /\ cnt x (addrs (lo_tq lo)) = 0%nat /\ cnt x (addrs (lo_fq lo)) = 0%nat /\
  cnt x (addrs (lo_bq lo)) = 0%nat /\ cnt x (addrs (lo_exit lo)) = 0%nat.
Proof.
  intros Hw Hx%cnt_elem. pose proof (wf_cnt s lo x Hw) as H. pose proof (mem_le (ev_heap s) x).
  destruct (mem_is_some (ev_heap s) x) as [n Hn]; [lia|]. exists n. split_and!; try done; lia.
Qed.

(** The counts of a new layout from those of the old one. *)
Ltac counts Hw :=
  let y := fresh "y" in let Hy := fresh "Hy" in
  intros y; pose proof (wf_cnt _ _ y Hw) as Hy; rewrite owned_cnt; cbn [lo_eq lo_tq lo_fq lo_bq lo_exit lo_hand with_eq with_tq] in *;
  repeat match goal with E : lo_eq _ = _ |- _ => rewrite E in * | E : lo_tq _ = _ |- _ => rewrite E in *
    | E : lo_fq _ = _ |- _ => rewrite E in * | E : lo_bq _ = _ |- _ => rewrite E in *
    | E : lo_exit _ = _ |- _ => rewrite E in * | E : lo_hand _ = _ |- _ => rewrite E in * end;
  rewrite ?addrs_app, ?addrs_cons, ?cnt_app, ?cnt_cons, ?mem_insert, ?mem_delete in *;
  cbn [cnt addrs fmap list_fmap Nat.b2n] in *.

Lemma alloc_fresh s lo : wf s lo -> ev_heap s !! ev_brk s = None.
Proof.
  intros Hw. destruct (ev_heap s !! ev_brk s) as [n|] eqn:E; [|done]. destruct (wf_brk _ _ Hw) as [_ H].
  specialize (H _ _ E). lia.
Qed.

(** [loc_alloc] *)
Lemma loc_alloc_ok s lo : wf s lo -> exists s', loc_alloc s = (Ok (ev_brk s), s') /\ misc s' = misc s /\
  wf s' (Build_layout (lo_eq lo) (lo_tq lo) (lo_fq lo) (lo_bq lo) (lo_exit lo) (ev_brk s :: lo_hand lo)).
Proof.
  intros Hw. pose proof (alloc_fresh _ _ Hw) as HN. eexists. split; [reflexivity|]. split; [done|].
  pose proof (wf_cnt _ _ (ev_brk s) Hw) as Hc. assert (HM : mem (ev_heap s) (ev_brk s) = 0%nat) by (unfold mem; by rewrite HN).
  rewrite HM in Hc. pose proof Hw as [H1 H2 H3 H4 H5 H6 H6' H7 H8 [H9 H10]]. 
  constructor; cbn [ev_heap ev_brk event_queue event_last timer_queue free_queue free_bg_queue exit_event set_brk set_heap
    lo_eq lo_tq lo_fq lo_bq lo_exit lo_hand]; try done; try (apply seg_insert; [lia|done]).
  - counts Hw. destruct (Z.eqb_spec y (ev_brk s)) as [->|]; cbn; lia.
  - split; [lia|]. intros x n Hx. destruct (decide (x = ev_brk s)) as [->|Hne]; [lia|].
    rewrite lookup_insert_ne in Hx by done. specialize (H10 _ _ Hx). lia.
Qed.

Lemma alloc_ok s lo : wf s lo -> exists x s' fq, alloc_event_node s = (Ok x, s') /\ misc s' = misc s /\
  wf s' (Build_layout (lo_eq lo) (lo_tq lo) fq (lo_bq lo) (lo_exit lo) (x :: lo_hand lo)).
Proof.
  intros Hw. unfold alloc_event_node. rewrite (bind_ok get _ s s s eq_refl). pose proof (wf_fq _ _ Hw) as Hq.
  destruct (lo_fq lo) as [|[x e] fq] eqn:E.
  - rewrite Hq. destruct (loc_alloc_ok s lo Hw) as (s' & -> & HM & Hw'). rewrite E in Hw'. by exists (ev_brk s), s', [].
  - destruct Hq as (-> & n & Hn & He & Hq). rewrite (bind_ok _ _ _ _ _ (node_ok s x n Hn)).
    eexists x, _, fq. split; [reflexivity|]. split; [done|].
    pose proof Hw as [H1 H2 H3 H4 H5 H6 H6' H7 H8 H9].
    constructor; cbn [ev_heap ev_brk event_queue event_last timer_queue free_queue free_bg_queue exit_event set_free_queue
      lo_eq lo_tq lo_fq lo_bq lo_exit lo_hand]; try done.
    + counts Hw. lia.
    + intros y Hy. apply H8. rewrite E, addrs_cons. cbn. by right.
Qed.

Lemma alloc_bg_ok s lo : wf s lo -> exists x s' bq, alloc_event_node_bg s = (Ok x, s') /\ misc s' = misc s /\
  wf s' (Build_layout (lo_eq lo) (lo_tq lo) (lo_fq lo) bq (lo_exit lo) (x :: lo_hand lo)).
Proof.
  intros Hw. unfold alloc_event_node_bg. rewrite (bind_ok get _ s s s eq_refl). pose proof (wf_bq _ _ Hw) as Hq.
  destruct (lo_bq lo) as [|[x e] bq] eqn:E.
  - rewrite Hq. destruct (loc_alloc_ok s lo Hw) as (s' & -> & HM & Hw'). rewrite E in Hw'. by exists (ev_brk s), s', [].
  - destruct Hq as (-> & n & Hn & He & Hq). rewrite (bind_ok _ _ _ _ _ (node_ok s x n Hn)).
    eexists x, _, bq. split; [reflexivity|]. split; [done|].
    pose proof Hw as [H1 H2 H3 H4 H5 H6 H6' H7 H8 H9].
    constructor; cbn [ev_heap ev_brk event_queue event_last timer_queue free_queue free_bg_queue exit_event set_free_bg_queue
      lo_eq lo_tq lo_fq lo_bq lo_exit lo_hand]; try done.
    + counts Hw. lia.
    + intros y Hy. apply H8. rewrite E, addrs_cons. apply elem_of_app in Hy as [Hy|Hy]; apply elem_of_app; [by left|].
      right. by right.
Qed.

Lemma free_ok s lo x hand : wf s lo -> lo_hand lo = x :: hand -> exists s' fq, free_event_node x s = (Ok tt, s') /\
  misc s' = misc s /\ wf s' (Build_layout (lo_eq lo) (lo_tq lo) fq (lo_bq lo) (lo_exit lo) hand).
Proof.
  intros Hw E. destruct (in_hand s lo x Hw) as (n & Hn & C1 & C2 & C3 & C4 & C5); [rewrite E; by left|].
  pose proof (mem_some _ _ _ Hn) as HM. pose proof Hw as [H1 H2 H3 H4 H5 H6 H6' H7 H8 [H9 H10]]. unfold free_event_node.
  destruct (_ && _) eqn:Ep.
  - rewrite (bind_ok get _ s s s eq_refl), (bind_ok _ _ _ _ _ (next_put_ok s x n _ Hn)).
    eexists _, ((x, node_event n) :: lo_fq lo). split; [reflexivity|]. split; [done|].
    constructor; cbn [ev_heap ev_brk event_queue event_last timer_queue free_queue free_bg_queue exit_event set_free_queue set_heap
      lo_eq lo_tq lo_fq lo_bq lo_exit lo_hand]; try done; try (apply seg_insert; done).
    + split; [done|]. exists (set_next (free_queue s) n). rewrite lookup_insert_eq. split; [done|]. split; [by destruct n|]. by apply seg_insert.
    + counts Hw. destruct (Z.eqb_spec y x) as [Eyx|]; [rewrite Eyx in *|]; cbn in *; lia.
    + intros y. rewrite addrs_cons. cbn [app]. intros [->|Hy]%elem_of_cons; [lia|by apply H8].
    + split; [done|]. intros y m. destruct (decide (y = x)) as [->|Hne]; [intros _; by eapply H10|].
      rewrite lookup_insert_ne by done. apply H10.
  - unfold loc_free. rewrite (bind_ok _ _ _ _ _ (node_ok s x n Hn)). eexists _, (lo_fq lo). split; [reflexivity|]. split; [done|].
    constructor; cbn [ev_heap ev_brk event_queue event_last timer_queue free_queue free_bg_queue exit_event set_heap
      lo_eq lo_tq lo_fq lo_bq lo_exit lo_hand]; try done; try (apply seg_delete; done).
    + counts Hw. destruct (Z.eqb_spec y x) as [Eyx|]; [rewrite Eyx in *|]; cbn in *; lia.
    + split; [done|]. intros y m. destruct (decide (y = x)) as [->|Hne]; [by rewrite lookup_delete_eq|].
      rewrite lookup_delete_ne by done. apply H10.
Qed.

(** A node in hand is written. *)
Lemma write_ok s lo x m : wf s lo -> x ∈ lo_hand lo -> exists s', node_put x m s = (Ok tt, s') /\ misc s' = misc s /\ wf s' lo /\
  ev_heap s' !! x = Some m /\ event_queue s' = event_queue s /\ event_last s' = event_last s /\ timer_queue s' = timer_queue s.
Proof.
  intros Hw Hx. destruct (in_hand s lo x Hw Hx) as (n & Hn & C1 & C2 & C3 & C4 & C5). pose proof (mem_some _ _ _ Hn) as HM.
  eexists. split; [by apply (node_put_ok s x n)|]. split; [done|]. split; [|split; [by apply lookup_insert_eq|done]].
  pose proof Hw as [H1 H2 H3 H4 H5 H6 H6' H7 H8 [H9 H10]]. constructor; cbn [ev_heap ev_brk event_queue event_last timer_queue free_queue free_bg_queue exit_event set_heap];
    try done; try (apply seg_insert; done).
  - intros y. rewrite mem_insert, H7. destruct (Z.eqb_spec y x) as [->|]; [done|done].
  - split; [done|]. intros y k. destruct (decide (y = x)) as [->|Hne]; [intros _; by eapply H10|].
    rewrite lookup_insert_ne by done. apply H10.
Qed.
