(* ===== verification/EventsOps.v ===== *)
(** * The event queue: its operations

    What each operation does to the lists of events: posting appends to the ready
    events or inserts into the timers, cancelling removes the first match, the
    loop moves the timed events that are due to the front and takes the first. *)

From stdpp Require Import gmap.
From S2P Require Import Prelude Events EventsSpec.

(** ** The operations on lists *)

(** Not later. *)
Definition t_le (a b : timespec) : bool :=
  (tv_sec a <? tv_sec b) || ((tv_sec a =? tv_sec b) && (tv_nsec a <=? tv_nsec b)).

Lemma t_le_trans a b c : t_le a b = true -> t_le b c = true -> t_le a c = true.
Proof. unfold t_le. lia. Qed.

Lemma t_le_total a b : t_le a b = false -> t_le b a = true.
Proof. unfold t_le. lia. Qed.

Lemma t_le_refl a : t_le a a = true.
Proof. unfold t_le. lia. Qed.

Lemma time_cmp_ok a b s : nsec_ok a = true -> nsec_ok b = true ->
  exists c, time_cmp a b s = (Ok c, s) /\ (0 <=? c) = t_le b a /\ (c <=? 0) = t_le a b.
Proof.
  unfold time_cmp. intros -> ->. eexists. split; [reflexivity|]. unfold t_le. zcases; lia.
Qed.

(** After the events that are not later. *)
Fixpoint t_insert (e : event) (l : list event) : list event :=
  match l with
  | [] => [e]
  | x :: l' => if t_le x.1 e.1 then x :: t_insert e l' else e :: l
  end.

(** The events that are due, and the others. *)
Fixpoint t_due (now : timespec) (l : list event) : list event * list event :=
  match l with
  | [] => ([], [])
  | x :: l' => if t_le x.1 now then let '(due, rest) := t_due now l' in (x :: due, rest) else ([], l)
  end.

Definition matches (handler arg : Z) (e : event) : bool := (e.2.1 =? handler) && (e.2.2 =? arg).

(** Without the first match, and that match. *)
Fixpoint remove_first (handler arg : Z) (l : list event) : option (event * list event) :=
  match l with
  | [] => None
  | x :: l =>
      if matches handler arg x then Some (x, l)
      else '(e, l') ← remove_first handler arg l; Some (e, x :: l')
  end.

Definition events_in (l : list (Z * event)) : list event := l.*2.

Lemma events_in_app l k : events_in (l ++ k) = events_in l ++ events_in k.
Proof. apply fmap_app. Qed.

(** The address in front of what comes after [l]. *)
Definition last_addr (prev : option Z) (l : list (Z * event)) : option Z :=
  match last l with Some (x, _) => Some x | None => prev end.

Lemma last_addr_cons prev x e l : last_addr prev ((x, e) :: l) = last_addr (Some x) l.
Proof. unfold last_addr. rewrite last_cons. by destruct (last l) as [[y k]|]. Qed.

Definition times_ok (l : list (Z * event)) : Prop := Forall (fun xe => nsec_ok (xe.2).1 = true) l.

(** ** Walks along a list *)

Lemma timer_place_ok s rt l : nsec_ok rt = true -> forall p fuel, seg (ev_heap s) p l None -> (length l < fuel)%nat ->
  times_ok l -> forall prev, exists l1 l2, l = l1 ++ l2 /\
  timer_place fuel rt prev p s = (Ok (last_addr prev l1, fst <$> head l2), s) /\
  forall x k, events_in (l1 ++ (x, (rt, k)) :: l2) = t_insert (rt, k) (events_in l).
Proof.
  intros Hrt. induction l as [|[x e] l IH]; intros p [|fuel] Hs Hf Ht prev; try (cbn in Hf; lia).
  - cbn in Hs. subst p. exists [], []. done.
  - destruct Hs as (-> & n & Hn & He & Hs). apply Forall_cons in Ht as [Ht1 Ht]. cbn in Ht1, Hf. cbn [timer_place].
    rewrite (bind_ok _ _ _ _ _ (node_ok s x n Hn)). replace (en_runtime n) with e.1 by (by rewrite <- He).
    destruct (time_cmp_ok rt e.1 s Hrt Ht1) as (c & Ec & Hc & _). rewrite (bind_ok _ _ _ _ _ Ec), Hc.
    destruct (t_le e.1 rt) eqn:El.
    + destruct (IH (en_next n) fuel Hs ltac:(lia) Ht (Some x)) as (l1 & l2 & -> & E & HI). exists ((x, e) :: l1), l2.
      split; [done|]. rewrite last_addr_cons. split; [exact E|]. intros y k. cbn. rewrite El. f_equal. apply HI.
    + exists [], ((x, e) :: l). split; [done|]. split; [done|]. intros y k. cbn. by rewrite El.
Qed.

Lemma find_event_ok s handler arg l : forall p fuel prev, seg (ev_heap s) p l None -> (length l < fuel)%nat ->
  match remove_first handler arg (events_in l) with
  | None => find_event fuel handler arg prev p s = (Ok None, s)
  | Some (e, rest) => exists l1 x n l2, l = l1 ++ (x, e) :: l2 /\ rest = events_in (l1 ++ l2) /\
      ev_heap s !! x = Some n /\ node_event n = e /\
      find_event fuel handler arg prev p s = (Ok (Some (last_addr prev l1, x, n)), s)
  end.
Proof.
  induction l as [|[x e] l IH]; intros p [|fuel] prev Hs Hf; try (cbn in Hf; lia).
  - cbn in Hs. by subst p.
  - destruct Hs as (-> & n & Hn & He & Hs). cbn in Hf. cbn [find_event].
    rewrite (bind_ok _ _ _ _ _ (node_ok s x n Hn)).
    replace ((en_handler n =? handler) && (en_arg n =? arg)) with (matches handler arg e) by (by rewrite <- He).
    change (events_in ((x, e) :: l)) with (e :: events_in l). cbn [remove_first]. destruct (matches handler arg e) eqn:Em.
    + by exists [], x, n, l.
    + specialize (IH (en_next n) fuel (Some x) Hs ltac:(lia)). destruct (remove_first handler arg (events_in l)) as [[e' rest]|].
      * destruct IH as (l1 & y & m & l2 & -> & -> & Hm & He' & E). exists ((x, e) :: l1), y, m, l2. cbn.
        rewrite last_addr_cons. split_and!; auto.
      * exact IH.
Qed.

Lemma last_due_ok s now l : nsec_ok now = true -> forall p fuel evlast, seg (ev_heap s) p l None -> (length l < fuel)%nat ->
  times_ok l -> exists l1 l2, l = l1 ++ l2 /\ t_due now (events_in l) = (events_in l1, events_in l2) /\
  last_due fuel now evlast p s = (Ok (last_addr evlast l1), s).
Proof.
  intros Hnow. induction l as [|[x e] l IH]; intros p [|fuel] evlast Hs Hf Ht; try (cbn in Hf; lia).
  - cbn in Hs. subst p. by exists [], [].
  - destruct Hs as (-> & n & Hn & He & Hs). apply Forall_cons in Ht as [Ht1 Ht]. cbn in Ht1, Hf. cbn [last_due].
    rewrite (bind_ok _ _ _ _ _ (node_ok s x n Hn)). replace (en_runtime n) with e.1 by (by rewrite <- He).
    destruct (time_cmp_ok e.1 now s Ht1 Hnow) as (c & Ec & _ & Hc). rewrite (bind_ok _ _ _ _ _ Ec), Hc.
    change (events_in ((x, e) :: l)) with (e :: events_in l). cbn [t_due]. destruct (t_le e.1 now) eqn:El.
    + destruct (IH (en_next n) fuel (Some x) Hs ltac:(lia) Ht) as (l1 & l2 & -> & E1 & E2). exists ((x, e) :: l1), l2.
      rewrite E1, last_addr_cons. done.
    + by exists [], ((x, e) :: l).
Qed.

(** ** Changes of a list *)

(** A node is put behind [l1]. *)
Lemma seg_link h p l1 l2 x e n : seg h p (l1 ++ l2) None -> h !! x = Some n -> node_event n = e ->
  cnt x (addrs (l1 ++ l2)) = 0%nat -> (forall y, (cnt y (addrs (l1 ++ l2)) <= 1)%nat) ->
  let h1 := <[x := set_next (fst <$> head l2) n]> h in
  match last l1 with
  | None => seg h1 (Some x) (l1 ++ (x, e) :: l2) None
  | Some (y, _) => exists m, h1 !! y = Some m /\ seg (<[y := set_next (Some x) m]> h1) p (l1 ++ (x, e) :: l2) None
  end.
Proof.
  intros Hs Hn He Hc Hd h1. assert (Hs1 : seg h1 p (l1 ++ l2) None) by (by apply seg_insert).
  assert (Hx : h1 !! x = Some (set_next (fst <$> head l2) n)) by (apply lookup_insert_eq).
  destruct l1 as [|[y k] l1 _] using rev_ind.
  - cbn. split; [done|]. exists (set_next (fst <$> head l2) n). split; [done|]. split; [by destruct n|].
    cbn in Hs1. cbn. by rewrite <- (seg_end _ _ _ Hs1).
  - rewrite last_snoc. rewrite seg_app in Hs1. destruct Hs1 as (q & H1 & H2). pose proof H1 as H1'.
    rewrite seg_last in H1'. destruct H1' as (m & _ & Hm & _ & Hq). exists m. split; [done|].
    rewrite addrs_app in Hc, Hd. rewrite addrs_app in Hc, Hd. rewrite !cnt_app in Hc. specialize (Hd y). rewrite !cnt_app in Hd.
    cbn in Hd, Hc. rewrite Z.eqb_refl in Hd. cbn in Hd. assert (Hxy : y <> x).
    { intros ->. rewrite Z.eqb_refl in Hc. cbn in Hc. lia. }
    rewrite seg_app. exists (Some x). split; [apply (seg_redirect _ _ _ _ _ q); [lia|done|done]|]. cbn. split; [done|].
    exists (set_next (fst <$> head l2) n). rewrite lookup_insert_ne by done. split; [done|]. split; [by destruct n|].
    cbn. rewrite <- (seg_end _ _ _ H2). apply seg_insert; [lia|done].
Qed.

(** A node is taken out. *)
Lemma seg_unlink h p l1 l2 x e n : seg h p (l1 ++ (x, e) :: l2) None -> h !! x = Some n ->
  (forall y, (cnt y (addrs (l1 ++ (x, e) :: l2)) <= 1)%nat) ->
  match last l1 with
  | None => seg h (en_next n) (l1 ++ l2) None
  | Some (y, _) => exists m, h !! y = Some m /\ seg (<[y := set_next (en_next n) m]> h) p (l1 ++ l2) None
  end.
Proof.
  intros Hs Hn Hd. rewrite seg_app in Hs. destruct Hs as (q & H1 & -> & n' & Hn' & He & H2).
  rewrite Hn in Hn'. injection Hn' as <-. destruct l1 as [|[y k] l1 _] using rev_ind; [exact H2|]. rewrite last_snoc.
  pose proof H1 as H1'. rewrite seg_last in H1'. destruct H1' as (m & _ & Hm & _ & Hq). exists m. split; [done|].
  specialize (Hd y). rewrite !addrs_app, !cnt_app in Hd. cbn in Hd. rewrite Z.eqb_refl in Hd. cbn in Hd.
  rewrite seg_app. exists (en_next n). split; [apply (seg_redirect _ _ _ _ _ (Some x)); [lia|done|done]|].
  apply seg_insert; [unfold addrs; lia|done].
Qed.

(** ** Posting *)

Lemma nodup_counts s lo y : wf s lo ->
  (cnt y (addrs (lo_eq lo)) <= 1 /\ cnt y (addrs (lo_tq lo)) <= 1)%nat.
Proof. intros Hw. pose proof (wf_cnt s lo y Hw). pose proof (mem_le (ev_heap s) y). lia. Qed.

Ltac wf_fields := cbn [ev_heap ev_brk event_queue event_last timer_queue free_queue free_bg_queue exit_event
  set_heap set_brk set_free_queue set_free_bg_queue set_event_queue set_event_last set_timer_queue set_cancel
  set_process_events set_exit_event lo_eq lo_tq lo_fq lo_bq lo_exit lo_hand with_eq with_tq] in *.

(** The bounds on the addresses, for stores with the same nodes. *)
Lemma brk_insert s lo x n : wf s lo -> (exists m, ev_heap s !! x = Some m) ->
  forall y k, <[x := n]> (ev_heap s) !! y = Some k -> y < ev_brk s.
Proof.
  intros Hw (m & Hm) y k. destruct (wf_brk _ _ Hw) as [_ H]. destruct (decide (y = x)) as [->|Hne]; [intros _; by eapply H|].
  rewrite lookup_insert_ne by done. apply H.
Qed.

Lemma append_ok s lo x hand n : wf s lo -> lo_hand lo = x :: hand -> ev_heap s !! x = Some n -> en_next n = None ->
  exists s', (s ← get;
    match event_queue s with
    | None => assertm (bool_decide (event_last s = None)) ;; modify (fun s => set_event_last (Some x) (set_event_queue (Some x) s))
    | Some _ => last ← of_option (event_last s); next_put last (Some x) ;; modify (set_event_last (Some x))
    end) s = (Ok tt, s') /\ misc s' = misc s /\ wf s' (with_eq (lo_eq lo ++ [(x, node_event n)]) hand lo).
Proof.
  intros Hw E Hn Hx. rewrite (bind_ok get _ s s s eq_refl).
  destruct (in_hand s lo x Hw) as (n' & Hn' & C1 & C2 & C3 & C4 & C5); [rewrite E; by left|]. rewrite Hn in Hn'. injection Hn' as <-.
  pose proof (mem_some _ _ _ Hn) as HM. pose proof Hw as [H1 H2 H3 H4 H5 H6 H6' H7 H8 [H9 H10]].
  destruct (lo_eq lo) as [|[y k] l _] eqn:EQ using rev_ind.
  - cbn in H1, H2. rewrite H1, H2. cbn. eexists. split; [reflexivity|]. split; [done|].
    constructor; wf_fields; try done.
    + cbn. split; [done|]. by exists n.
    + counts Hw. destruct (Z.eqb_spec y x) as [Eyx|]; [rewrite Eyx in *|]; cbn in *; lia.
  - rewrite last_snoc in H2. rewrite (seg_end _ _ _ H1). replace (fst <$> head (l ++ [(y, k)])) with (Some (default y (fst <$> head l))) by (by destruct l).
    rewrite H2. cbn [of_option fmap option_fmap option_map fst]. rewrite ret_bind. pose proof H1 as H1'. rewrite seg_last in H1'.
    destruct H1' as (m & _ & Hm & _ & Hq). rewrite (bind_ok _ _ _ _ _ (next_put_ok s y m _ Hm)). eexists. split; [reflexivity|].
    split; [done|]. rewrite addrs_app, cnt_app in C1. cbn in C1.
    assert (Hxy : y <> x) by (intros ->; rewrite Z.eqb_refl in C1; cbn in C1; lia).
    assert (HD : forall z, z = y -> cnt z (addrs l) = 0%nat /\ cnt z (addrs (lo_tq lo)) = 0%nat /\ cnt z (addrs (lo_fq lo)) = 0%nat /\
      cnt z (addrs (lo_bq lo)) = 0%nat /\ cnt z (addrs (lo_exit lo)) = 0%nat).
    { intros z ->. pose proof (wf_cnt _ _ y Hw) as Hc. rewrite EQ, addrs_app, cnt_app in Hc. cbn in Hc. rewrite Z.eqb_refl in Hc.
      pose proof (mem_le (ev_heap s) y). cbn in Hc. lia. }
    destruct (HD y eq_refl) as (D1 & D2 & D3 & D4 & D5).
    constructor; wf_fields; try done; try (by apply seg_insert).
    + rewrite seg_app. exists (Some x). split; [apply (seg_redirect _ _ _ _ _ None); done|]. cbn. split; [done|]. exists n.
      by rewrite lookup_insert_ne by done.
    + by rewrite last_snoc.
    + counts Hw. destruct (Z.eqb_spec y0 y) as [E1|]; cbn in *; [rewrite E1, (mem_some _ _ _ Hm) in *|]; lia.
    + split; [done|]. apply (brk_insert s lo); [done|by exists m].
Qed.

Lemma post_event_ok s lo now h a : wf s lo -> cancel_handler s = None ->
  exists s' x fq, post_event true now h a s = (Ok tt, s') /\ misc s' = misc s /\
    wf s' (Build_layout (lo_eq lo ++ [(x, (Build_timespec 0 0, (h, a)))]) (lo_tq lo) fq (lo_bq lo) (lo_exit lo) (lo_hand lo)).
Proof.
  intros Hw Hc. unfold post_event. rewrite (bind_ok get _ s s s eq_refl), Hc.
  rewrite (bool_decide_eq_true_2 (@None (Z * Z) = None)) by done. cbn [andb].
  destruct (alloc_ok s lo Hw) as (x & s1 & fq & E1 & M1 & W1). rewrite (bind_ok _ _ _ _ _ E1).
  set (lo1 := Build_layout _ _ fq _ _ _) in *.
  destruct (write_ok s1 lo1 x (Build_event_node None (Build_timespec 0 0) h a) W1) as (s2 & E2 & M2 & W2 & HN & _);
    [by left|]. rewrite (bind_ok _ _ _ _ _ E2).
  destruct (append_ok s2 lo1 x (lo_hand lo) _ W2 eq_refl HN eq_refl) as (s3 & E3 & M3 & W3). exists s3, x, fq.
  split; [exact E3|]. split; [congruence|exact W3].
Qed.

Lemma timer_insert_ok s lo x hand n : wf s lo -> lo_hand lo = x :: hand -> ev_heap s !! x = Some n ->
  nsec_ok (en_runtime n) = true -> times_ok (lo_tq lo) ->
  exists s' tq, timer_insert x s = (Ok tt, s') /\ misc s' = misc s /\ wf s' (with_tq tq hand lo) /\
    events_in tq = t_insert (node_event n) (events_in (lo_tq lo)).
Proof.
  intros Hw E Hn Hns Ht. unfold timer_insert. rewrite (bind_ok _ _ _ _ _ (node_ok s x n Hn)), (bind_ok get _ s s s eq_refl).
  destruct (in_hand s lo x Hw) as (n' & Hn' & C1 & C2 & C3 & C4 & C5); [rewrite E; by left|]. rewrite Hn in Hn'. injection Hn' as <-.
  destruct (timer_place_ok s (en_runtime n) (lo_tq lo) Hns (timer_queue s) (heap_fuel s)) with (prev := @None Z) as (l1 & l2 & EL & EP & EI);
    [apply Hw|apply (wf_lengths _ _ Hw)|done|]. rewrite (bind_ok _ _ _ _ _ EP).
  rewrite (bind_ok _ _ _ _ _ (next_put_ok s x n _ Hn)). set (s1 := set_heap _ s).
  pose proof Hw as [H1 H2 H3 H4 H5 H6 H6' H7 H8 [H9 H10]]. pose proof (mem_some _ _ _ Hn) as HM.
  pose proof (seg_link (ev_heap s) (timer_queue s) l1 l2 x (node_event n) n) as HL. rewrite <- EL in HL.
  specialize (HL H3 Hn eq_refl C2 (fun y => proj2 (nodup_counts s lo y Hw))). cbv zeta in HL.
  specialize (EI x (en_handler n, en_arg n)). fold (node_event n) in EI. unfold last_addr.
  destruct (last l1) as [[y k]|] eqn:EL1.
  - destruct HL as (m & Hm & HL). rewrite (next_put_ok s1 y m (Some x) Hm).
    eexists _, _. split; [reflexivity|]. split; [done|]. split; [|exact EI].
    assert (Hy : y <> x /\ cnt y (addrs (lo_eq lo)) = 0%nat /\ cnt y (addrs (lo_fq lo)) = 0%nat /\ cnt y (addrs (lo_bq lo)) = 0%nat /\ cnt y (addrs (lo_exit lo)) = 0%nat /\ mem (ev_heap s) y = 1%nat).
    { apply last_Some in EL1 as (l1' & ->). pose proof (wf_cnt _ _ y Hw) as Hc. pose proof (mem_le (ev_heap s) y).
      rewrite EL, !addrs_app, !cnt_app in Hc. cbn in Hc. rewrite Z.eqb_refl in Hc. cbn in Hc.
      split; [|lia]. intros ->. rewrite EL, !addrs_app, !cnt_app in C2. cbn in C2. rewrite Z.eqb_refl in C2. cbn in C2. lia. }
    destruct Hy as (Hyx & D1 & D2 & D3 & D5 & D4).
    constructor; wf_fields; try done; try (apply seg_insert; [done|]; by apply seg_insert).
    + subst s1. wf_fields. counts Hw. rewrite ?EL, ?addrs_app, ?cnt_app in *.
      destruct (Z.eqb_spec y0 y) as [E1|]; [rewrite E1 in *|]; destruct (Z.eqb_spec y0 x) as [E2|]; try rewrite E2 in *; cbn in *; lia.
    + split; [done|]. subst s1. wf_fields. intros z q. destruct (decide (z = y)) as [->|Hz].
      * intros _. rewrite lookup_insert_ne in Hm by done. by eapply H10.
      * rewrite lookup_insert_ne by done. apply (brk_insert s lo); [done|by exists n].
  - rewrite (proj1 (last_None l1) EL1) in *. eexists _, _. split; [reflexivity|]. split; [done|]. split; [|exact EI].
    constructor; wf_fields; try done; try (by apply seg_insert).
    + subst s1. wf_fields. counts Hw. destruct (Z.eqb_spec y x) as [Eyx|]; [rewrite Eyx in *|]; cbn in *; lia.
    + split; [done|]. apply (brk_insert s lo); [done|by exists n].
Qed.

Definition now_ok (t : timespec) : Prop := 0 <= tv_sec t < 2 ^ 62 /\ 0 <= tv_nsec t < 1000000000.

Lemma wraps_small64 x : 0 <= x < 2 ^ 63 -> s64 x = x.
Proof. intros Hx. unfold wraps, wrapu. change (2 ^ (64 - 1)) with (2 ^ 63). rewrite Z.mod_small; lia. Qed.

(** The sum in microseconds, and a normal form. *)
Lemma time_add_usec_ok now delay : now_ok now -> in_u 64 delay ->
  let t := time_add_usec now delay in
  0 <= tv_sec t < 2 ^ 63 /\ 0 <= tv_nsec t < 1000000000 /\
  tv_sec t * 1000000000 + tv_nsec t = tv_sec now * 1000000000 + tv_nsec now + delay * 1000.
Proof.
  intros [Hs Hn] Hd. unfold in_u in Hd. unfold time_add_usec.
  assert (H1 : 0 <= delay / 1000000 < 2 ^ 45) by dlia. assert (H2 : 0 <= delay mod 1000000 < 1000000) by dlia.
  pose proof (Z.div_mod delay 1000000 ltac:(lia)) as HD.
  rewrite (wraps_small64 (tv_sec now + _)), (wraps_small64 (tv_nsec now + _)) by lia.
  destruct (Z.leb_spec 1000000000 (tv_nsec now + delay mod 1000000 * 1000)); cbn; [rewrite wraps_small64 by lia|]; lia.
Qed.

(** The timers after a post: who calls does not matter. *)
Definition timed (now : timespec) (h a delay : Z) : event := (time_add_usec now delay, (h, a)).

Lemma nsec_ok_add now delay : now_ok now -> in_u 64 delay -> nsec_ok (time_add_usec now delay) = true.
Proof. intros H1 H2. destruct (time_add_usec_ok now delay H1 H2) as (_ & H & _). unfold nsec_ok. lia. Qed.

Lemma post_timer_ok s lo lo1 x now h a delay : wf s lo1 -> lo_hand lo1 = x :: lo_hand lo -> lo_eq lo1 = lo_eq lo -> lo_tq lo1 = lo_tq lo ->
  lo_exit lo1 = lo_exit lo -> now_ok now -> in_u 64 delay -> times_ok (lo_tq lo) ->
  exists s' lo', (node_put x (Build_event_node None (time_add_usec now delay) h a) ;; timer_insert x) s = (Ok tt, s') /\
    misc s' = misc s /\ wf s' lo' /\ lo_eq lo' = lo_eq lo /\ lo_exit lo' = lo_exit lo /\ lo_hand lo' = lo_hand lo /\
    events_in (lo_tq lo') = t_insert (timed now h a delay) (events_in (lo_tq lo)).
Proof.
  intros Hw E1 E2 E3 E4 Hnow Hd Ht.
  destruct (write_ok s lo1 x (Build_event_node None (time_add_usec now delay) h a) Hw) as (s2 & Ew & M2 & W2 & HN & _);
    [rewrite E1; by left|]. rewrite (bind_ok _ _ _ _ _ Ew).
  destruct (timer_insert_ok s2 lo1 x (lo_hand lo) _ W2 E1 HN) as (s3 & tq & E5 & M3 & W3 & EI);
    [by apply nsec_ok_add|by rewrite E3|]. exists s3, (with_tq tq (lo_hand lo) lo1). split; [exact E5|]. split; [congruence|].
  split; [exact W3|]. split_and!; try done. cbn [with_tq lo_tq]. by rewrite EI, E3.
Qed.

Lemma post_delay_ok s lo now h a delay : wf s lo -> cancel_handler s = None -> now_ok now -> in_u 64 delay -> times_ok (lo_tq lo) ->
  exists s' lo', post_event_with_delay true now h a delay s = (Ok tt, s') /\
    misc s' = misc s /\ wf s' lo' /\ lo_eq lo' = lo_eq lo /\ lo_exit lo' = lo_exit lo /\ lo_hand lo' = lo_hand lo /\
    events_in (lo_tq lo') = t_insert (timed now h a delay) (events_in (lo_tq lo)).
Proof.
  intros Hw Hc Hnow Hd Ht. unfold post_event_with_delay. rewrite (bind_ok get _ s s s eq_refl), Hc.
  rewrite (bool_decide_eq_true_2 (@None (Z * Z) = None)) by done. cbn [andb].
  destruct (alloc_ok s lo Hw) as (x & s1 & fq & E1 & M1 & W1). rewrite (bind_ok _ _ _ _ _ E1).
  destruct (post_timer_ok s1 lo _ x now h a delay W1 eq_refl eq_refl eq_refl eq_refl Hnow Hd Ht) as (s2 & lo' & E2 & M2 & H).
  exists s2, lo'. split; [exact E2|]. split; [congruence|exact H].
Qed.

Lemma post_bg_ok s lo now h a delay : wf s lo -> cancel_handler s <> Some (h, a) -> now_ok now -> in_u 64 delay -> times_ok (lo_tq lo) ->
  exists s' lo', post_from_bg_thread now h a delay s = (Ok tt, s') /\
    misc s' = misc s /\ wf s' lo' /\ lo_eq lo' = lo_eq lo /\ lo_exit lo' = lo_exit lo /\ lo_hand lo' = lo_hand lo /\
    events_in (lo_tq lo') = t_insert (timed now h a delay) (events_in (lo_tq lo)).
Proof.
  intros Hw Hc Hnow Hd Ht. unfold post_from_bg_thread. rewrite (bind_ok get _ s s s eq_refl).
  rewrite bool_decide_eq_false_2 by done.
  destruct (alloc_bg_ok s lo Hw) as (x & s1 & fq & E1 & M1 & W1). rewrite (bind_ok _ _ _ _ _ E1).
  destruct (post_timer_ok s1 lo _ x now h a delay W1 eq_refl eq_refl eq_refl eq_refl Hnow Hd Ht) as (s2 & lo' & E2 & M2 & H).
  exists s2, lo'. split; [exact E2|]. split; [congruence|exact H].
Qed.

(** ** Cancelling *)

(** A node of the ready events is unlinked. *)
Lemma unlink_eq_ok s lo l1 l2 x e n : wf s lo -> lo_eq lo = l1 ++ (x, e) :: l2 -> ev_heap s !! x = Some n ->
  exists s', ((match en_next n with
       | None => assertm (bool_decide (event_last s = Some x)) ;; modify (set_event_last (last_addr None l1))
       | Some _ => mret tt
       end) ;;
      (match last_addr None l1 with
       | None => modify (set_event_queue (en_next n))
       | Some p => next_put p (en_next n)
       end)) s = (Ok tt, s') /\ misc s' = misc s /\ wf s' (with_eq (l1 ++ l2) (x :: lo_hand lo) lo).
Proof.
  intros Hw EL Hn. pose proof Hw as [H1 H2 H3 H4 H5 H6 H6' H7 H8 [H9 H10]]. rewrite EL in H1, H2.
  pose proof (seg_unlink _ _ _ _ _ _ _ H1 Hn (fun y => ltac:(rewrite <- EL; apply (nodup_counts s lo y Hw)))) as HU.
  assert (Hend : en_next n = fst <$> head l2).
  { rewrite seg_app in H1. destruct H1 as (q & _ & -> & n' & Hn' & _ & H). rewrite Hn in Hn'. injection Hn' as <-. by eapply seg_end. }
  set (s1 := match en_next n with None => set_event_last (last_addr None l1) s | Some _ => s end).
  assert (E1 : (match en_next n with
       | None => assertm (bool_decide (event_last s = Some x)) ;; modify (set_event_last (last_addr None l1))
       | Some _ => mret tt end) s = (Ok tt, s1)).
  { subst s1. destruct (en_next n) as [q|] eqn:Eq; [done|]. destruct l2 as [|[y k] l2]; [|done].
    rewrite H2, last_snoc. cbn. by rewrite bool_decide_eq_true_2 by done. }
  rewrite (bind_ok _ _ _ _ _ E1). assert (HS : ev_heap s1 = ev_heap s /\ misc s1 = misc s) by (subst s1; by destruct (en_next n)).
  assert (HL : event_last s1 = fst <$> last (l1 ++ l2)).
  { subst s1. rewrite Hend. destruct l2 as [|[y k] l2]; cbn.
    - rewrite app_nil_r. unfold last_addr. by destruct (last l1) as [[]|].
    - rewrite H2, !last_app. cbn [last]. rewrite last_cons. by destruct (last ((y, k) :: l2)). }
  unfold last_addr. destruct (last l1) as [[y k]|] eqn:EL1.
  - destruct HU as (m & Hm & HU). rewrite (next_put_ok s1 y m (en_next n)) by (by rewrite (proj1 HS)).
    eexists. split; [reflexivity|]. split; [apply HS|].
    assert (HD : cnt y (addrs (lo_tq lo)) = 0%nat /\ cnt y (addrs (lo_fq lo)) = 0%nat /\ cnt y (addrs (lo_bq lo)) = 0%nat /\ cnt y (addrs (lo_exit lo)) = 0%nat).
    { apply last_Some in EL1 as (l1' & ->). pose proof (wf_cnt _ _ y Hw) as Hc. pose proof (mem_le (ev_heap s) y).
      rewrite EL, !addrs_app, !cnt_app in Hc. cbn in Hc. rewrite Z.eqb_refl in Hc. cbn in Hc. lia. }
    assert (HF : forall (f : Events -> option Z), (forall q, f (set_event_last q s) = f s) -> f s1 = f s) by (intros f Hf; subst s1; destruct (en_next n); auto).
    assert (HB : ev_brk s1 = ev_brk s) by (subst s1; by destruct (en_next n)).
    rewrite (proj1 HS). constructor; wf_fields; try done; rewrite ?(HF timer_queue), ?(HF free_queue), ?(HF free_bg_queue), ?(HF event_queue), ?(HF exit_event) by done; try done;
      try (by apply seg_insert; [apply HD|]).
    + counts Hw. destruct (Z.eqb_spec y0 x) as [Ex|]; destruct (Z.eqb_spec y0 y) as [Ey|]; try rewrite Ey in *; rewrite ?(mem_some _ _ _ Hm) in *; cbn in *; lia.
    + rewrite HB. split; [done|]. apply (brk_insert s lo); [done|by exists m].
  - eexists. split; [reflexivity|]. split; [apply HS|]. rewrite (proj1 (last_None l1) EL1) in *.
    assert (HF : forall (f : Events -> option Z), (forall q, f (set_event_last q s) = f s) -> f s1 = f s) by (intros f Hf; subst s1; destruct (en_next n); auto).
    assert (HB : ev_brk s1 = ev_brk s) by (subst s1; by destruct (en_next n)).
    constructor; wf_fields; rewrite ?(proj1 HS); try done; rewrite ?(HF timer_queue), ?(HF free_queue), ?(HF free_bg_queue), ?(HF event_queue), ?(HF exit_event), ?HB by done; try done.
    counts Hw. cbn in *. lia.
Qed.

(** A node of the timers is unlinked. *)
Lemma unlink_tq_ok s lo l1 l2 x e n : wf s lo -> lo_tq lo = l1 ++ (x, e) :: l2 -> ev_heap s !! x = Some n ->
  exists s', (match last_addr None l1 with
       | None => modify (set_timer_queue (en_next n))
       | Some p => next_put p (en_next n)
       end) s = (Ok tt, s') /\ misc s' = misc s /\ wf s' (with_tq (l1 ++ l2) (x :: lo_hand lo) lo).
Proof.
  intros Hw EL Hn. pose proof Hw as [H1 H2 H3 H4 H5 H6 H6' H7 H8 [H9 H10]]. rewrite EL in H3.
  pose proof (seg_unlink _ _ _ _ _ _ _ H3 Hn (fun y => ltac:(rewrite <- EL; apply (nodup_counts s lo y Hw)))) as HU.
  unfold last_addr. destruct (last l1) as [[y k]|] eqn:EL1.
  - destruct HU as (m & Hm & HU). rewrite (next_put_ok s y m (en_next n) Hm). eexists. split; [reflexivity|]. split; [done|].
    assert (HD : cnt y (addrs (lo_eq lo)) = 0%nat /\ cnt y (addrs (lo_fq lo)) = 0%nat /\ cnt y (addrs (lo_bq lo)) = 0%nat /\ cnt y (addrs (lo_exit lo)) = 0%nat).
    { apply last_Some in EL1 as (l1' & ->). pose proof (wf_cnt _ _ y Hw) as Hc. pose proof (mem_le (ev_heap s) y).
      rewrite EL, !addrs_app, !cnt_app in Hc. cbn in Hc. rewrite Z.eqb_refl in Hc. cbn in Hc. lia. }
    constructor; wf_fields; try done; try (by apply seg_insert; [apply HD|]).
    + counts Hw. destruct (Z.eqb_spec y0 x) as [Ex|]; destruct (Z.eqb_spec y0 y) as [Ey|]; try rewrite Ey in *; rewrite ?(mem_some _ _ _ Hm) in *; cbn in *; lia.
    + split; [done|]. apply (brk_insert s lo); [done|by exists m].
  - eexists. split; [reflexivity|]. split; [done|]. rewrite (proj1 (last_None l1) EL1) in *.
    constructor; wf_fields; try done. counts Hw. cbn in *. lia.
Qed.

(** What [cancel_event] does: the first match leaves the ready events, or the timers. *)
Lemma cancel_ok s lo h a wait : wf s lo -> cancel_handler s = None -> h <> 0 ->
  exists s' lo', wf s' lo' /\ lo_exit lo' = lo_exit lo /\ lo_hand lo' = lo_hand lo /\ process_events s' = process_events s /\
  match remove_first h a (events_in (lo_eq lo)) with
  | Some (e, l) => cancel_event true h a wait s = (Ok (Cancelled 1), s') /\ cancel_handler s' = None /\
      events_in (lo_eq lo') = l /\ lo_tq lo' = lo_tq lo
  | None => lo_eq lo' = lo_eq lo /\
      match remove_first h a (events_in (lo_tq lo)) with
      | Some (e, l) => cancel_event true h a wait s = (Ok (Cancelled 1), s') /\ cancel_handler s' = None /\ events_in (lo_tq lo') = l
      | None => lo_tq lo' = lo_tq lo /\
          if wait then cancel_event true h a wait s = (Ok CancelWaits, s') /\ cancel_handler s' = Some (h, a)
          else cancel_event true h a wait s = (Ok (Cancelled 0), s') /\ cancel_handler s' = None
      end
  end.
Proof.
  intros Hw Hc Hh. pose proof (wf_lengths _ _ Hw) as (HL1 & HL2 & _). unfold cancel_event. rewrite (proj2 (Z.eqb_neq h 0) Hh).
  cbn [assertm negb]. rewrite !ret_bind.
  rewrite (bind_ok get _ s s s eq_refl), (bool_decide_eq_true_2 (cancel_handler s = None)) by done. cbn [assertm]. rewrite ret_bind.
  pose proof (find_event_ok s h a (lo_eq lo) (event_queue s) (heap_fuel s) None (wf_eq _ _ Hw) HL1) as HF.
  destruct (remove_first h a (events_in (lo_eq lo))) as [[e l]|].
  { destruct HF as (l1 & x & n & l2 & EL & -> & Hn & He & EF). rewrite (bind_ok _ _ _ _ _ EF).
    destruct (unlink_eq_ok s lo l1 l2 x e n Hw EL Hn) as (s1 & EU & M1 & W1). rewrite <- bind_assoc, (bind_ok _ _ _ _ _ EU).
    destruct (free_ok s1 _ x (lo_hand lo) W1 eq_refl) as (s2 & fq & E2 & M2 & W2). rewrite (bind_ok _ _ _ _ _ E2).
    eexists s2, _. split; [exact W2|]. unfold misc in *. split_and!; try done; congruence. }
  rewrite (bind_ok _ _ _ _ _ HF).
  pose proof (find_event_ok s h a (lo_tq lo) (timer_queue s) (heap_fuel s) None (wf_tq _ _ Hw) HL2) as HG.
  destruct (remove_first h a (events_in (lo_tq lo))) as [[e l]|].
  { destruct HG as (l1 & x & n & l2 & EL & -> & Hn & He & EF). rewrite (bind_ok _ _ _ _ _ EF).
    destruct (unlink_tq_ok s lo l1 l2 x e n Hw EL Hn) as (s1 & EU & M1 & W1). rewrite (bind_ok _ _ _ _ _ EU).
    destruct (free_ok s1 _ x (lo_hand lo) W1 eq_refl) as (s2 & fq & E2 & M2 & W2). rewrite (bind_ok _ _ _ _ _ E2).
    eexists s2, _. split; [exact W2|]. unfold misc in *. split_and!; try done; congruence. }
  rewrite (bind_ok _ _ _ _ _ HG). destruct wait.
  - exists (set_cancel (Some (h, a)) s), lo. split; [|done]. by destruct Hw.
  - exists s, lo. done.
Qed.

(** ** The loop *)

Lemma refill_ok s lo : forall fuel, wf s lo -> (length (lo_fq lo) < fuel)%nat ->
  exists s' fq bq, refill_free fuel s = (Ok tt, s') /\ misc s' = misc s /\
    wf s' (Build_layout (lo_eq lo) (lo_tq lo) fq bq (lo_exit lo) (lo_hand lo)).
Proof.
  intros fuel. revert s lo. induction fuel as [|fuel IH]; intros s lo Hw Hf; [lia|]. cbn [refill_free].
  rewrite (bind_ok get _ s s s eq_refl). pose proof Hw as [H1 H2 H3 H4 H5 H6 H6' H7 H8 [H9 H10]].
  destruct (lo_fq lo) as [|[x e] fq] eqn:EF.
  { rewrite H4. exists s, [], (lo_bq lo). split; [done|]. split; [done|]. rewrite <- EF. by destruct lo. }
  pose proof H4 as H4'. destruct H4 as (-> & n & Hn & He & H4).
  assert (HM : exists more, (match free_bg_queue s with None => mret true | Some y => n ← node y; mret (bool_decide (en_next n = None)) end) s = (Ok more, s)).
  { destruct (lo_bq lo) as [|[y k] bq]; [rewrite H5; by exists true|]. destruct H5 as (-> & m & Hm & _).
    rewrite (bind_ok _ _ _ _ _ (node_ok s y m Hm)). by eexists. }
  destruct HM as (more & EM). rewrite (bind_ok _ _ _ _ _ EM). destruct more.
  2:{ eexists s, ((x, e) :: fq), (lo_bq lo). split; [done|]. split; [done|]. rewrite <- EF. by destruct lo. }
  rewrite (bind_ok _ _ _ _ _ (node_ok s x n Hn)), (bind_ok (modify _) _ s tt _ eq_refl).
  rewrite (bind_ok _ _ _ _ _ (next_put_ok (set_free_queue (en_next n) s) x n _ Hn)), (bind_ok (modify _) _ _ tt _ eq_refl).
  set (s1 := set_free_bg_queue _ _).
  assert (HC : cnt x (addrs (lo_eq lo)) = 0%nat /\ cnt x (addrs (lo_tq lo)) = 0%nat /\ cnt x (addrs fq) = 0%nat /\ cnt x (addrs (lo_bq lo)) = 0%nat /\ cnt x (addrs (lo_exit lo)) = 0%nat).
  { pose proof (wf_cnt _ _ x Hw) as Hc. pose proof (mem_le (ev_heap s) x). rewrite EF, addrs_cons, cnt_cons, Z.eqb_refl in Hc. cbn in Hc. lia. }
  destruct HC as (C1 & C2 & C3 & C4 & C5).
  assert (Hw1 : wf s1 (Build_layout (lo_eq lo) (lo_tq lo) fq ((x, e) :: lo_bq lo) (lo_exit lo) (lo_hand lo))).
  { constructor; subst s1; wf_fields; try done; try (by apply seg_insert).
    - cbn. split; [done|]. exists (set_next (free_bg_queue s) n). rewrite lookup_insert_eq. split; [done|]. split; [by destruct n|]. by apply seg_insert.
    - counts Hw. destruct (Z.eqb_spec y x) as [Ex|]; [rewrite Ex in *; rewrite ?(mem_some _ _ _ Hn) in *|]; cbn in *; lia.
    - intros y Hy. apply H8. rewrite addrs_cons in *. rewrite elem_of_app, elem_of_cons in *. tauto.
    - split; [done|]. apply (brk_insert s lo); [done|by exists n]. }
  destruct (IH s1 _ Hw1 ltac:(cbn in *; lia)) as (s2 & fq2 & bq2 & E2 & M2 & W2). exists s2, fq2, bq2. split; [exact E2|]. by split.
Qed.

Lemma poll_ok s lo now : wf s lo -> now_ok now -> times_ok (lo_tq lo) ->
  exists s' lo' due rest, t_due now (events_in (lo_tq lo)) = (due, rest) /\
    poll_timers now s = (Ok (negb (bool_decide (due ++ events_in (lo_eq lo) = []))), s') /\ misc s' = misc s /\ wf s' lo' /\
    events_in (lo_eq lo') = due ++ events_in (lo_eq lo) /\ events_in (lo_tq lo') = rest /\
    lo_exit lo' = lo_exit lo /\ lo_hand lo' = lo_hand lo.
Proof.
  intros Hw Hnow Ht. unfold poll_timers. rewrite (bind_ok get _ s s s eq_refl).
  pose proof Hw as [H1 H2 H3 H4 H5 H6 H6' H7 H8 [H9 H10]].
  assert (HE : (match event_queue s with None => false | Some _ => true end) = negb (bool_decide (events_in (lo_eq lo) = []))).
  { rewrite (seg_end _ _ _ H1). by destruct (lo_eq lo) as [|[y k] l]. }
  assert (Hnone : t_due now (events_in (lo_tq lo)) = ([], events_in (lo_tq lo)) -> exists lo' due rest,
    t_due now (events_in (lo_tq lo)) = (due, rest) /\ wf s lo' /\ due = [] /\
    events_in (lo_eq lo') = due ++ events_in (lo_eq lo) /\ events_in (lo_tq lo') = rest /\ lo_exit lo' = lo_exit lo /\ lo_hand lo' = lo_hand lo).
  { intros ->. exists lo, [], (events_in (lo_tq lo)). done. }
  destruct (lo_tq lo) as [|[x e] tq] eqn:ET.
  { rewrite H3, HE. destruct (Hnone eq_refl) as (lo' & due & rest & E & Hw' & -> & H). exists s, lo', [], rest. done. }
  rewrite <- ET in *. assert (HX : timer_queue s = Some x) by (rewrite ET in H3; by destruct H3).
  destruct (last_due_ok s now (lo_tq lo) ltac:(unfold nsec_ok; destruct Hnow; lia) (timer_queue s) (heap_fuel s) None H3) as (l1 & l2 & EL & ED & EP);
    [apply (wf_lengths _ _ Hw)|done|]. rewrite HX in H3, EP |- *. rewrite (bind_ok _ _ _ _ _ EP). unfold last_addr.
  destruct (last l1) as [[y k]|] eqn:EL1.
  2:{ rewrite (proj1 (last_None l1) EL1) in *. rewrite HE. cbn in EL. rewrite <- EL in ED.
      destruct (Hnone ED) as (lo' & due & rest & E & Hw' & -> & H). exists s, lo', [], rest. done. }
  apply last_Some in EL1 as (l1' & ->). pose proof H3 as H3'. rewrite EL, seg_app in H3'. destruct H3' as (q & HS1 & HS2).
  pose proof HS1 as HS1'. rewrite seg_last in HS1'. destruct HS1' as (m & _ & Hm & _ & Hq).
  rewrite (bind_ok _ _ _ _ _ (node_ok s y m Hm)), (bind_ok (modify _) _ s tt _ eq_refl).
  set (s1 := set_timer_queue (en_next m) s). rewrite (bind_ok _ _ _ _ _ (next_put_ok s1 y m _ Hm)). set (s2 := set_heap _ s1).
  assert (E3 : exists s3, (match event_queue s with
      | None => assertm (bool_decide (event_last s = None)) ;; modify (set_event_last (Some y)) | Some _ => mret tt end) s2 = (Ok tt, s3) /\
      s3 = set_event_last (fst <$> last ((l1' ++ [(y, k)]) ++ lo_eq lo)) s2).
  { rewrite last_app, (seg_end _ _ _ H1). destruct (lo_eq lo) as [|[z j] le] eqn:EQ.
    - rewrite H2, last_snoc. cbn. by eexists.
    - cbn [head fmap option_fmap option_map]. exists s2. split; [done|]. rewrite last_cons. subst s2 s1. rewrite last_cons in H2.
      destruct (last le) as [[]|]; cbn in *; rewrite <- H2; by destruct s. }
  destruct E3 as (s3 & E3 & ->). rewrite (bind_ok _ _ _ _ _ E3), (bind_ok (modify _) _ _ tt _ eq_refl).
  eexists (set_event_queue (Some x) (set_event_last (fst <$> last ((l1' ++ [(y, k)]) ++ lo_eq lo)) s2)), (Build_layout ((l1' ++ [(y, k)]) ++ lo_eq lo) l2 (lo_fq lo) (lo_bq lo) (lo_exit lo) (lo_hand lo)), _, _.
  split; [exact ED|]. split; [|split; [done|split; [|split_and!; [apply events_in_app|done|done|done]]]].
  { rewrite bool_decide_eq_false_2; [reflexivity|]. rewrite events_in_app. by destruct (events_in l1'). }
  assert (HC : cnt y (addrs (lo_eq lo)) = 0%nat /\ cnt y (addrs l1') = 0%nat /\ cnt y (addrs l2) = 0%nat /\ cnt y (addrs (lo_fq lo)) = 0%nat /\ cnt y (addrs (lo_bq lo)) = 0%nat /\ cnt y (addrs (lo_exit lo)) = 0%nat).
  { pose proof (wf_cnt _ _ y Hw) as Hc. pose proof (mem_le (ev_heap s) y). rewrite EL, !addrs_app, !cnt_app in Hc. cbn in Hc. rewrite Z.eqb_refl in Hc. cbn in Hc. lia. }
  destruct HC as (C1 & C2 & C3 & C4 & C5 & C6).
  constructor; subst s2 s1; wf_fields; try done; try (by apply seg_insert).
  - rewrite seg_app. exists (event_queue s). split; [by apply (seg_redirect _ _ _ _ _ q)|by apply seg_insert].
  - rewrite Hq. by apply seg_insert.
  - counts Hw. rewrite ?EL in *. rewrite ?addrs_app, ?cnt_app in *.
    destruct (Z.eqb_spec y0 y) as [Ey|]; [rewrite Ey in *; rewrite ?(mem_some _ _ _ Hm) in *|]; cbn in *; lia.
  - split; [done|]. apply (brk_insert s lo); [done|by exists m].
Qed.

Lemma take_ok s lo x e l : wf s lo -> lo_eq lo = (x, e) :: l ->
  exists s' n, take_event s = (Ok (x, n), s') /\ node_event n = e /\ misc s' = misc s /\ wf s' (with_eq l (x :: lo_hand lo) lo) /\
    ev_heap s' !! x = Some n.
Proof.
  intros Hw EQ. pose proof Hw as [H1 H2 H3 H4 H5 H6 H6' H7 H8 [H9 H10]]. rewrite EQ in H1, H2. destruct H1 as (HX & n & Hn & He & H1).
  unfold take_event. rewrite (bind_ok get _ s s s eq_refl), HX. cbn [of_option]. rewrite ret_bind, (bind_ok _ _ _ _ _ (node_ok s x n Hn)).
  rewrite (bind_ok (modify _) _ s tt _ eq_refl). set (s1 := set_event_queue _ s).
  assert (E2 : (match en_next n with None => assertm (bool_decide (event_last s = Some x)) ;; modify (set_event_last None) | Some _ => mret tt end) s1 =
    (Ok tt, set_event_last (fst <$> last l) s1)).
  { rewrite (seg_end _ _ _ H1). destruct l as [|[y k] l].
    - rewrite H2. cbn. by rewrite bool_decide_eq_true_2.
    - assert (EL : last ((x, e) :: (y, k) :: l) = last ((y, k) :: l)) by (rewrite !last_cons; by destruct (last l)).
      rewrite <- EL, <- H2. cbn [head fmap option_fmap option_map fst]. by destruct s. }
  rewrite (bind_ok _ _ _ _ _ E2). eexists _, n. split; [reflexivity|]. split; [done|]. split; [done|]. split; [|done].
  constructor; subst s1; wf_fields; try done. counts Hw. lia.
Qed.

Lemma exit_loop_ok s lo : wf s lo -> exists s' lo', exit_event_loop s = (Ok tt, s') /\ misc s' = misc s /\ wf s' lo' /\
  lo_eq lo' = lo_eq lo /\ lo_hand lo' = lo_hand lo /\ lo_exit lo' = [] /\
  events_in (lo_tq lo') = (match lo_exit lo with [] => [] | _ => [(Build_timespec 0 0, (EXIT_HANDLER, 0))] end) ++ events_in (lo_tq lo).
Proof.
  intros Hw. pose proof Hw as [H1 H2 H3 H4 H5 H6 H6' H7 H8 [H9 H10]]. unfold exit_event_loop. rewrite (bind_ok get _ s s s eq_refl).
  destruct H6' as [EX|[x EX]]; rewrite EX in H6; cbn in H6.
  { rewrite H6. exists s, lo. rewrite EX. done. }
  destruct H6 as (-> & n & Hn & He & _).
  pose proof (wf_cnt _ _ x Hw) as Hc. pose proof (mem_le (ev_heap s) x) as HM. rewrite EX, addrs_cons, cnt_cons, Z.eqb_refl in Hc. cbn in Hc.
  rewrite (bind_ok _ _ _ _ _ (node_ok s x n Hn)).
  rewrite (bind_ok _ _ _ _ _ (node_put_ok s x n _ Hn)), (bind_ok (modify _) _ _ tt _ eq_refl).
  eexists _, (Build_layout (lo_eq lo) ((x, (Build_timespec 0 0, (EXIT_HANDLER, 0))) :: lo_tq lo) (lo_fq lo) (lo_bq lo) [] (lo_hand lo)).
  split; [reflexivity|]. split; [done|]. split; [|split_and!; try done; by rewrite EX].
  constructor; wf_fields; try done; try (apply seg_insert; [lia|done]).
  - cbn. split; [done|]. eexists. rewrite lookup_insert_eq. split; [done|]. split; [|apply seg_insert; [lia|done]].
    unfold node_event in *. cbn. by inversion He.
  - by left.
  - counts Hw. destruct (Z.eqb_spec y x) as [Ex|]; [rewrite Ex in *; rewrite ?(mem_some _ _ _ Hn) in *|]; cbn in *; lia.
  - split; [done|]. apply (brk_insert s lo); [done|by exists n].
Qed.
