(* ===== verification/EventsRun.v ===== *)
(** * The event queue: what its users may rely on

    The queue as two lists of events with their history, and the threads as a
    sequence of steps in any order.  The code implements that queue; from there
    it follows that every event runs exactly once or is cancelled, in which
    order, and when. *)

From stdpp Require Import gmap sorting.
From S2P Require Import Prelude Events EventsSpec EventsOps.

(** ** The abstract queue *)

Inductive QPlace := QHead | QRefill | QTake | QRunning | QCancel | QDone.

(** [q_posted], [q_ran], [q_gone]: all the events that have been posted, run,
    cancelled; [q_polls]: when the loop has looked at the timers. *)
Record Queue := {
  q_ready : list event;
  q_timers : list event;
  q_place : QPlace;
  q_cancel : option (Z * Z);
  q_go : bool;
  q_exit : bool;
  q_cnt : Z;
  q_last : Z;
  q_ms : Z;
  q_posted : list event;
  q_ran : list event;
  q_gone : list event;
  q_polls : list timespec;
}.

Definition t_zero : timespec := Build_timespec 0 0.
Definition untimed (h a : Z) : event := (t_zero, (h, a)).

Definition with_lists (ready timers : list event) (q : Queue) : Queue :=
  Build_Queue ready timers (q_place q) (q_cancel q) (q_go q) (q_exit q) (q_cnt q) (q_last q) (q_ms q)
    (q_posted q) (q_ran q) (q_gone q) (q_polls q).
Definition at_place (p : QPlace) (q : Queue) : Queue :=
  Build_Queue (q_ready q) (q_timers q) p (q_cancel q) (q_go q) (q_exit q) (q_cnt q) (q_last q) (q_ms q)
    (q_posted q) (q_ran q) (q_gone q) (q_polls q).
Definition with_cancel (c : option (Z * Z)) (q : Queue) : Queue :=
  Build_Queue (q_ready q) (q_timers q) (q_place q) c (q_go q) (q_exit q) (q_cnt q) (q_last q) (q_ms q)
    (q_posted q) (q_ran q) (q_gone q) (q_polls q).
Definition with_flags (go ex : bool) (q : Queue) : Queue :=
  Build_Queue (q_ready q) (q_timers q) (q_place q) (q_cancel q) go ex (q_cnt q) (q_last q) (q_ms q)
    (q_posted q) (q_ran q) (q_gone q) (q_polls q).
Definition with_ticks (n last ms : Z) (q : Queue) : Queue :=
  Build_Queue (q_ready q) (q_timers q) (q_place q) (q_cancel q) (q_go q) (q_exit q) n last ms
    (q_posted q) (q_ran q) (q_gone q) (q_polls q).
Definition record (posted ran gone : list event) (polls : list timespec) (q : Queue) : Queue :=
  Build_Queue (q_ready q) (q_timers q) (q_place q) (q_cancel q) (q_go q) (q_exit q) (q_cnt q) (q_last q) (q_ms q)
    (q_posted q ++ posted) (q_ran q ++ ran) (q_gone q ++ gone) (q_polls q ++ polls).

Definition q_post (e : event) (q : Queue) : Queue := record [e] [] [] [] (with_lists (q_ready q ++ [e]) (q_timers q) q).
Definition q_post_timed (e : event) (q : Queue) : Queue :=
  record [e] [] [] [] (with_lists (q_ready q) (t_insert e (q_timers q)) q).

Definition q_head (q : Queue) : Queue :=
  if negb (q_go q) then at_place QDone q
  else if bool_decide (q_ready q = []) || (100 <=? q_cnt q) || ((1 <=? q_cnt q) && (100 <=? u32 (q_ms q - q_last q))) then
    at_place QRefill (with_ticks 0 (q_last q) (q_ms q) q)
  else at_place QTake q.

Definition q_refill (now : timespec) (q : Queue) : Queue :=
  let '(due, rest) := t_due now (q_timers q) in
  record [] [] [] [now] (at_place (if bool_decide (due ++ q_ready q = []) then QRefill else QTake)
    (with_ticks (q_cnt q) (q_ms q) (q_ms q) (with_lists (due ++ q_ready q) rest q))).

Definition q_take (q : Queue) : Queue :=
  match q_ready q with
  | [] => q
  | e :: l =>
      record [] [e] [] [] (at_place QRunning
        (with_ticks (if bool_decide (e.1 = t_zero) then u32 (q_cnt q + 1) else q_cnt q) (q_last q) (q_ms q) (with_lists l (q_timers q) q)))
  end.

Definition q_cancel_event (h a : Z) (wait : bool) (q : Queue) : Queue :=
  match remove_first h a (q_ready q) with
  | Some (e, l) => record [] [] [e] [] (with_lists l (q_timers q) q)
  | None =>
      match remove_first h a (q_timers q) with
      | Some (e, l) => record [] [] [e] [] (with_lists (q_ready q) l q)
      | None => if wait then at_place QCancel (with_cancel (Some (h, a)) q) else q
      end
  end.

Definition q_bg_post (h a delay : Z) (now : timespec) (q : Queue) : Queue :=
  if bool_decide (q_cancel q = Some (h, a)) then
    record [timed now h a delay] [] [timed now h a delay] [] (with_cancel None q)
  else q_post_timed (timed now h a delay) q.

Definition q_step (a : action) (q : Queue) : Queue :=
  match a, q_place q with
  | Head, QHead => q_head q
  | Refill now, QRefill => q_refill now q
  | Take, QTake => q_take q
  | Return, QRunning => at_place QHead q
  | Post h a now, QRunning => q_post (untimed h a) q
  | PostDelay h a d now, QRunning => q_post_timed (timed now h a d) q
  | Cancel h a wait, QRunning => q_cancel_event h a wait q
  | Wake, QCancel => match q_cancel q with None => at_place QRunning q | Some _ => q end
  | ExitHandler now, QRunning =>
      match q_ready q with [] => with_flags false (q_exit q) q | _ => q_post (untimed EXIT_HANDLER 0) q end
  | BgPost h a d now, _ => q_bg_post h a d now q
  | Tick ms, _ => with_ticks (q_cnt q) (q_last q) (u32 ms) q
  | ExitLoop, _ =>
      if q_exit q then
        record [untimed EXIT_HANDLER 0] [] [] [] (with_flags (q_go q) false (with_lists (q_ready q) (untimed EXIT_HANDLER 0 :: q_timers q) q))
      else q
  | CancelLoop, _ => with_flags false (q_exit q) q
  | _, _ => q
  end.

Definition q_run (l : list action) (q : Queue) : Queue := fold_left (fun q a => q_step a q) l q.

Definition q_start : Queue := Build_Queue [] [] QHead None true true 0 0 0 [] [] [] [].

(** ** The code implements it *)

Definition place_of (pc : LoopPc) : QPlace :=
  match pc with
  | LoopHead => QHead | LoopRefill => QRefill | LoopTake => QTake
  | LoopRunning _ => QRunning | LoopCancel _ => QCancel | LoopDone => QDone
  end.

Definition hand_of (pc : LoopPc) : list Z := match pc with LoopRunning ev | LoopCancel ev => [ev] | _ => [] end.

(** The lists of the code, with the nodes in hand, are those of the queue. *)
Record implements (l : Loop) (lo : layout) (q : Queue) : Prop := {
  im_wf : wf (l_events l) lo;
  im_ready : events_in (lo_eq lo) = q_ready q;
  im_timers : events_in (lo_tq lo) = q_timers q;
  im_times : times_ok (lo_tq lo);
  im_hand : lo_hand lo = hand_of (l_pc l);
  im_exit : q_exit q = negb (bool_decide (lo_exit lo = []));
  im_place : q_place q = place_of (l_pc l);
  im_cancel : q_cancel q = cancel_handler (l_events l);
  im_no_cancel : q_place q <> QCancel -> q_cancel q = None;
  im_go : q_go q = process_events (l_events l);
  im_cnt : q_cnt q = event_cnt l;
  im_last : q_last q = last_tick_count_ms l;
  im_ms : q_ms q = events_timer_ms l;
  im_take : q_place q = QTake -> q_ready q <> [];
}.

Definition act_ok (a : action) : Prop :=
  match a with
  | Refill now => now_ok now
  | PostDelay _ _ d now | BgPost _ _ d now => now_ok now /\ in_u 64 d
  | Cancel h _ _ => h <> 0
  | _ => True
  end.

Lemma on_events_ok {A} (m : M Events A) l r s : m (l_events l) = (Ok r, s) ->
  on_events m l = (Ok r, Build_Loop s (l_pc l) (event_cnt l) (last_tick_count_ms l) (events_timer_ms l)).
Proof. intros E. unfold on_events. by rewrite E. Qed.

Lemma t_insert_times e l : nsec_ok e.1 = true -> Forall (fun e => nsec_ok e.1 = true) l ->
  Forall (fun e => nsec_ok e.1 = true) (t_insert e l).
Proof.
  intros He Hl. induction Hl as [|x l Hx Hl IH]; cbn; [by repeat constructor|]. destruct (t_le _ _); by repeat constructor.
Qed.

Lemma times_in l : times_ok l <-> Forall (fun e => nsec_ok e.1 = true) (events_in l).
Proof. unfold times_ok, events_in. by rewrite Forall_fmap. Qed.

Lemma t_due_app now l : let '(due, rest) := t_due now l in l = due ++ rest /\ Forall (fun e => t_le e.1 now = true) due.
Proof.
  induction l as [|e l IH]; [by split|]. cbn. destruct (t_le e.1 now) eqn:E; [|by split]. destruct (t_due now l) as [due rest].
  destruct IH as [-> IH]. split; [done|]. by constructor.
Qed.

Lemma remove_first_app h a l e rest : remove_first h a l = Some (e, rest) ->
  exists l1 l2, l = l1 ++ e :: l2 /\ rest = l1 ++ l2 /\ matches h a e = true.
Proof.
  revert e rest. induction l as [|x l IH]; intros e rest; [done|]. cbn. destruct (matches h a x) eqn:E.
  - intros [= <- <-]. by exists [], l.
  - destruct (remove_first h a l) as [[e' l']|]; [|done]. intros [= <- <-]. destruct (IH e' l' eq_refl) as (l1 & l2 & -> & -> & H).
    by exists (x :: l1), l2.
Qed.

(** ** The start *)

Lemma start_mem x l : NoDup l -> cnt x l = mem (list_to_map ((fun i => (i, zero_node)) <$> l)) x.
Proof.
  induction 1 as [|y l Hy Hl IH]; [done|]. rewrite fmap_cons, list_to_map_cons, mem_insert, cnt_cons.
  destruct (Z.eqb_spec x y) as [->|]; [|done]. cbn. f_equal. rewrite IH. unfold mem.
  destruct (_ !! y) as [n|] eqn:E; [|done]. apply elem_of_list_to_map_2, list_elem_of_fmap in E as (z & [= <- _] & Hz). done.
Qed.

Lemma start_wf : wf start_events (Build_layout [] [] [] [] [] (seqZ 0 EVENT_BUF_SIZE)).
Proof.
  constructor; [reflexivity..|by left| | |].
  - intros x. unfold owned. cbn [lo_eq lo_tq lo_fq lo_bq lo_exit lo_hand addrs fmap list_fmap app]. apply start_mem, NoDup_seqZ.
  - intros x H. by apply not_elem_of_nil in H.
  - split; [done|]. intros x n Hn. unfold start_events in *. cbn [ev_heap ev_brk] in *.
    apply elem_of_list_to_map_2, list_elem_of_fmap in Hn as (z & [= -> _] & Hz). apply elem_of_seqZ in Hz. lia.
Qed.

Lemma ini_loop_ok l : forall s lo, wf s lo -> lo_hand lo = l -> Forall (fun x => 0 <= x < EVENT_BUF_SIZE) l ->
  exists s' fq, ini_loop l s = (Ok tt, s') /\ misc s' = misc s /\
    wf s' (Build_layout (lo_eq lo) (lo_tq lo) fq (lo_bq lo) (lo_exit lo) []).
Proof.
  induction l as [|x l IH]; intros s lo Hw E Hl.
  { exists s, (lo_fq lo). split; [done|]. split; [done|]. destruct lo. cbn in E. by subst. }
  apply Forall_cons in Hl as [Hx Hl]. destruct (free_ok s lo x l Hw E) as (s1 & fq & E1 & M1 & W1).
  unfold free_event_node in E1. replace ((0 <=? x) && (x <? EVENT_BUF_SIZE)) with true in E1 by lia.
  destruct (IH s1 _ W1 eq_refl Hl) as (s2 & fq2 & E2 & M2 & W2). exists s2, fq2. split; [|split; [congruence|exact W2]].
  cbn [ini_loop]. rewrite <- E2, <- (bind_ok _ (fun _ => ini_loop l) _ _ _ E1), bind_assoc.
  by rewrite !(bind_ok get _ s s s eq_refl), bind_assoc.
Qed.

Lemma ini_queue_ok : exists s lo, ini_events_queue start_events = (Ok tt, s) /\ misc s = misc start_events /\ wf s lo /\
  lo_eq lo = [] /\ lo_tq lo = [] /\ lo_hand lo = [] /\ lo_exit lo <> [].
Proof.
  unfold ini_events_queue. destruct (ini_loop_ok (seqZ 0 EVENT_BUF_SIZE) start_events _ start_wf eq_refl) as (s1 & fq & E1 & M1 & W1).
  { apply Forall_forall. intros x Hx. apply elem_of_seqZ in Hx. lia. }
  rewrite (bind_ok _ _ _ _ _ E1). destruct (loc_alloc_ok s1 _ W1) as (s2 & E2 & M2 & W2). rewrite (bind_ok _ _ _ _ _ E2).
  assert (Hx : ev_heap s2 !! ev_brk s1 = Some zero_node) by (injection E2 as <-; cbn; by rewrite lookup_insert_eq).
  cbn [lo_eq lo_tq lo_fq lo_bq lo_exit lo_hand] in W2.
  eexists _, (Build_layout [] [] fq [] [(ev_brk s1, node_event zero_node)] []). split; [reflexivity|].
  split; [exact (eq_trans M2 M1)|]. clear E1 E2 M1 M2 W1. split; [|done]. pose proof W2 as [H1 H2 H3 H4 H5 H6 H6' H7 H8 H9].
  constructor; wf_fields; try done.
  - split; [done|]. by exists zero_node.
  - right. by eexists.
Qed.

(** [run_event_loop] after any start that leaves the lists empty. *)
Lemma run_loop_ok (m : M Events unit) l s lo : m (l_events l) = (Ok tt, s) -> cancel_handler s = None -> wf s lo ->
  lo_eq lo = [] -> lo_tq lo = [] -> lo_hand lo = [] -> lo_exit lo <> [] ->
  exists L, (on_events m ;; run_event_loop 0) l = (Ok tt, L) /\ implements L lo q_start.
Proof.
  intros E HC Hw EQ ET EH EX. rewrite (bind_ok _ _ _ _ _ (on_events_ok m l tt s E)). eexists. split; [reflexivity|].
  constructor; cbn; rewrite ?EQ, ?ET; try done.
  - by destruct Hw.
  - by constructor.
  - by rewrite bool_decide_eq_false_2.
Qed.

Lemma run_loop_start : exists L lo, (on_events ini_events_queue ;; run_event_loop 0) start_loop = (Ok tt, L) /\ implements L lo q_start.
Proof.
  destruct ini_queue_ok as (s & lo & E & HM & Hw & EQ & ET & EH & EX). unfold misc in HM.
  assert (HC : cancel_handler s = None) by (apply (f_equal fst) in HM; exact HM).
  destruct (run_loop_ok ini_events_queue start_loop s lo E HC Hw EQ ET EH EX) as (L & EL & HI). exists L, lo. exact (conj EL HI).
Qed.

(** ** The steps *)

Lemma ready_none s lo : wf s lo -> bool_decide (event_queue s = None) = bool_decide (events_in (lo_eq lo) = []).
Proof. intros Hw. rewrite (seg_end _ _ _ (wf_eq _ _ Hw)). by destruct (lo_eq lo) as [|[x e] l]. Qed.

(** The part of the state that only the lists and flags of the queue depend on. *)
Lemma implements_events l lo q s' lo' q' : implements l lo q -> wf s' lo' ->
  events_in (lo_eq lo') = q_ready q' -> events_in (lo_tq lo') = q_timers q' -> times_ok (lo_tq lo') -> lo_hand lo' = lo_hand lo ->
  q_exit q' = negb (bool_decide (lo_exit lo' = [])) -> q_cancel q' = cancel_handler s' -> (q_place q <> QCancel -> q_cancel q' = None) ->
  q_go q' = process_events s' -> q_place q' = q_place q -> q_cnt q' = q_cnt q -> q_last q' = q_last q -> q_ms q' = q_ms q ->
  (q_place q = QTake -> q_ready q' <> []) ->
  implements (Build_Loop s' (l_pc l) (event_cnt l) (last_tick_count_ms l) (events_timer_ms l)) lo' q'.
Proof.
  intros []. intros. constructor; cbn; try congruence; match goal with E : q_place q' = q_place q |- _ => rewrite E end; done.
Qed.

Ltac open_implements HI EP := pose proof HI as []; rewrite EP in *; cbn [hand_of place_of] in *;
  match goal with P : q_place ?q = _, H : q_place ?q <> QCancel -> q_cancel ?q = None |- _ =>
    try (assert (q_cancel q = None) by (apply H; rewrite P; done))
  end.
Ltac close_implements := constructor; cbn;
  repeat match goal with E : l_pc ?l = _ |- context [l_pc ?l] => rewrite E | E : lo_exit ?lo = _ |- context [lo_exit ?lo] => rewrite E end;
  cbn; try done; try congruence; try (intros _; congruence).

Lemma head_ok l lo q : implements l lo q -> l_pc l = LoopHead ->
  exists l' lo', loop_head l = (Ok tt, l') /\ implements l' lo' (q_head q).
Proof.
  intros HI EP. open_implements HI EP. unfold loop_head, q_head. rewrite (bind_ok get _ l l l eq_refl), <- im_go0.
  destruct (q_go q) eqn:EG; cbn [negb].
  2:{ eexists _, lo. split; [reflexivity|]. close_implements. }
  rewrite (ready_none _ _ im_wf0), im_ready0, im_cnt0, im_last0, im_ms0. destruct (_ || _) eqn:EC.
  - rewrite (bind_ok (modify _) _ l tt _ eq_refl).
    destruct (refill_ok (l_events l) lo (heap_fuel (l_events l)) im_wf0) as (s' & fq & bq & E & HM & Hw); [apply wf_lengths, im_wf0|].
    rewrite (bind_ok _ _ _ _ _ (on_events_ok (s ← get; refill_free (heap_fuel s)) (set_event_cnt 0 l) tt s' E)).
    eexists _, _. split; [reflexivity|]. unfold misc in HM. close_implements.
  - eexists _, lo. split; [reflexivity|]. close_implements. intros _ HN. by rewrite HN in EC.
Qed.

Lemma refill_step_ok l lo q now : implements l lo q -> l_pc l = LoopRefill -> now_ok now ->
  exists l' lo', loop_refill now l = (Ok tt, l') /\ implements l' lo' (q_refill now q).
Proof.
  intros HI EP Hnow. open_implements HI EP. unfold loop_refill, q_refill. rewrite (bind_ok get _ l l l eq_refl), (bind_ok (modify _) _ l tt _ eq_refl).
  destruct (poll_ok (l_events l) lo now im_wf0 Hnow im_times0) as (s' & lo' & due & rest & ED & E & HM & Hw & EQ & ET & EX & EH).
  rewrite im_timers0 in ED. rewrite im_ready0 in E, EQ. rewrite ED.
  rewrite (bind_ok _ _ _ _ _ (on_events_ok _ (set_last_tick (events_timer_ms l) l) _ s' E)). unfold misc in HM.
  assert (HT : times_ok (lo_tq lo')).
  { apply times_in. rewrite ET. apply times_in in im_times0. rewrite im_timers0 in im_times0.
    pose proof (t_due_app now (q_timers q)) as HD. rewrite ED in HD. destruct HD as [HD _]. rewrite HD in im_times0. by apply Forall_app in im_times0 as [_ ?]. }
  destruct (bool_decide (due ++ q_ready q = [])) eqn:EB; cbn [negb]; eexists _, lo'; (split; [reflexivity|]); close_implements.
  intros _. by apply bool_decide_eq_false in EB.
Qed.

Lemma take_step_ok l lo q : implements l lo q -> l_pc l = LoopTake ->
  exists l' lo', loop_take l = (Ok tt, l') /\ implements l' lo' (q_take q).
Proof.
  intros HI EP. open_implements HI EP. unfold loop_take, q_take. specialize (im_take0 im_place0).
  destruct (lo_eq lo) as [|[x e] eq] eqn:EQ; [by rewrite <- im_ready0 in im_take0|].
  destruct (take_ok (l_events l) lo x e eq im_wf0 EQ) as (s' & n & E & He & HM & Hw & _). rewrite (bind_ok _ _ _ _ _ (on_events_ok _ l _ s' E)).
  rewrite <- im_ready0. cbn [events_in fmap list_fmap snd]. subst e. unfold node_event. cbn [fst]. fold t_zero. unfold misc in HM.
  rewrite (bind_ok get _ _ _ _ eq_refl).
  destruct (bool_decide (en_runtime n = t_zero)); eexists _, _; (split; [reflexivity|]); close_implements.
  all: unfold with_eq; cbn; by rewrite im_hand0.
Qed.

Lemma return_ok l lo q ev : implements l lo q -> l_pc l = LoopRunning ev ->
  exists l' lo', loop_return ev l = (Ok tt, l') /\ implements l' lo' (at_place QHead q).
Proof.
  intros HI EP. open_implements HI EP. unfold loop_return. destruct (free_ok (l_events l) lo ev [] im_wf0 im_hand0) as (s' & fq & E & HM & Hw).
  rewrite (bind_ok _ _ _ _ _ (on_events_ok _ l _ s' E)). unfold misc in HM. eexists _, _. split; [reflexivity|]. close_implements.
Qed.

(** A handler that posts or cancels, when the state of the loop stays as it is. *)
Ltac implements_lists HI := eapply (implements_events _ _ _ _ _ _ HI); cbn;
  repeat match goal with E : lo_exit ?lo = _ |- context [lo_exit ?lo] => rewrite E end; cbn; try done; try congruence; try (intros _; congruence).

Lemma post_step_ok l lo q ev h a now : implements l lo q -> l_pc l = LoopRunning ev ->
  exists l' lo', on_events (post_event true now h a) l = (Ok tt, l') /\ implements l' lo' (q_post (untimed h a) q).
Proof.
  intros HI EP. open_implements HI EP. destruct (post_event_ok (l_events l) lo now h a im_wf0) as (s' & x & fq & E & HM & Hw); [congruence|].
  rewrite (on_events_ok _ l _ s' E). unfold misc in HM. eexists _, _. split; [reflexivity|]. implements_lists HI.
  cbn. by rewrite events_in_app, im_ready0.
Qed.

Lemma insert_times lo lo' q e : times_ok (lo_tq lo) -> events_in (lo_tq lo) = q_timers q -> nsec_ok e.1 = true ->
  events_in (lo_tq lo') = t_insert e (events_in (lo_tq lo)) ->
  times_ok (lo_tq lo') /\ events_in (lo_tq lo') = t_insert e (q_timers q).
Proof.
  intros Ht Hq He E. split; [|by rewrite E, Hq]. apply times_in. rewrite E. apply t_insert_times; [done|]. by apply times_in.
Qed.

Lemma post_delay_step_ok l lo q ev h a d now : implements l lo q -> l_pc l = LoopRunning ev -> now_ok now -> in_u 64 d ->
  exists l' lo', on_events (post_event_with_delay true now h a d) l = (Ok tt, l') /\ implements l' lo' (q_post_timed (timed now h a d) q).
Proof.
  intros HI EP Hnow Hd. open_implements HI EP.
  destruct (post_delay_ok (l_events l) lo now h a d im_wf0) as (s' & lo' & E & HM & Hw & EQ & EX & EH & ET); try done; [congruence|].
  destruct (insert_times lo lo' q (timed now h a d) im_times0 im_timers0 (nsec_ok_add now d Hnow Hd) ET) as [HT ET'].
  rewrite (on_events_ok _ l _ s' E). unfold misc in HM. eexists _, lo'. split; [reflexivity|]. implements_lists HI.
Qed.

Lemma bg_step_ok l lo q h a d now : implements l lo q -> now_ok now -> in_u 64 d ->
  exists l' lo', on_events (post_event_with_delay false now h a d) l = (Ok tt, l') /\ implements l' lo' (q_bg_post h a d now q).
Proof.
  intros HI Hnow Hd. pose proof HI as []. unfold q_bg_post. destruct (decide (q_cancel q = Some (h, a))) as [EC|EC].
  - rewrite bool_decide_eq_true_2 by done.
    assert (E : post_event_with_delay false now h a d (l_events l) = (Ok tt, set_cancel None (l_events l))).
    { unfold post_event_with_delay, post_from_bg_thread. rewrite !(bind_ok get _ _ _ _ eq_refl). cbn [andb].
      rewrite !(bind_ok get _ _ _ _ eq_refl). by rewrite bool_decide_eq_true_2 by congruence. }
    rewrite (on_events_ok _ l _ _ E). exists (Build_Loop (set_cancel None (l_events l)) (l_pc l) (event_cnt l) (last_tick_count_ms l) (events_timer_ms l)), lo.
    split; [reflexivity|]. implements_lists HI. by destruct im_wf0.
  - rewrite bool_decide_eq_false_2 by done.
    destruct (post_bg_ok (l_events l) lo now h a d im_wf0) as (s' & lo' & E & HM & Hw & EQ & EX & EH & ET); try done; [congruence|].
    destruct (insert_times lo lo' q (timed now h a d) im_times0 im_timers0 (nsec_ok_add now d Hnow Hd) ET) as [HT ET'].
    rewrite (on_events_ok (post_event_with_delay false now h a d) l _ s' E). unfold misc in HM. eexists _, lo'. split; [reflexivity|]. implements_lists HI.
Qed.

Lemma cancel_step_ok l lo q ev h a wait : implements l lo q -> l_pc l = LoopRunning ev -> h <> 0 ->
  exists l' lo', (r ← on_events (cancel_event true h a wait);
      match r with Cancelled _ => mret tt | CancelWaits => modify (set_l_pc (LoopCancel ev)) end) l = (Ok tt, l') /\
    implements l' lo' (q_cancel_event h a wait q).
Proof.
  intros HI EP Hh. open_implements HI EP. unfold q_cancel_event.
  destruct (cancel_ok (l_events l) lo h a wait im_wf0) as (s' & lo' & Hw & EX & EH & HG & HC); [congruence|done|].
  rewrite im_ready0, im_timers0 in HC.
  destruct (remove_first h a (q_ready q)) as [[e ready]|]; cycle 1.
  { destruct HC as [EQ HC]. destruct (remove_first h a (q_timers q)) as [[e timers]|] eqn:ER; cycle 1.
    - destruct HC as [ET HC]. destruct wait; destruct HC as [E HC];
        rewrite (bind_ok _ _ _ _ _ (on_events_ok _ l _ s' E)); eexists _, lo'; (split; [reflexivity|]); close_implements.
    - destruct HC as (E & HC & ET). rewrite (bind_ok _ _ _ _ _ (on_events_ok _ l _ s' E)). eexists _, lo'. split; [reflexivity|].
      close_implements. apply times_in. rewrite ET. apply times_in in im_times0. rewrite im_timers0 in im_times0.
      apply remove_first_app in ER as (l1 & l2 & E1 & -> & _). rewrite E1 in im_times0.
      apply Forall_app in im_times0 as [? [_ ?]%Forall_cons]. by apply Forall_app. }
  destruct HC as (E & HC & EQ & ET). rewrite (bind_ok _ _ _ _ _ (on_events_ok _ l _ s' E)). eexists _, lo'. split; [reflexivity|].
  close_implements.
Qed.

Lemma exit_step_ok l lo q : implements l lo q ->
  exists l' lo', on_events exit_event_loop l = (Ok tt, l') /\ implements l' lo' (q_step ExitLoop q).
Proof.
  intros HI. pose proof HI as []. cbn [q_step]. destruct (exit_loop_ok (l_events l) lo im_wf0) as (s' & lo' & E & HM & Hw & EQ & EH & EX & ET).
  rewrite (on_events_ok _ l _ s' E). unfold misc in HM. eexists _, lo'. split; [reflexivity|].
  rewrite im_exit0. destruct (lo_exit lo) as [|x lx] eqn:EL; cbn in ET.
  - rewrite bool_decide_eq_true_2 by done. implements_lists HI. apply times_in. rewrite ET. by apply times_in.
  - rewrite bool_decide_eq_false_2 by done. cbn [negb]. implements_lists HI. 
    + rewrite ET. by rewrite im_timers0.
    + apply times_in. rewrite ET. constructor; [done|]. by apply times_in.
Qed.

Lemma flags_ok l lo q : implements l lo q ->
  exists l' lo', on_events cancel_event_loop l = (Ok tt, l') /\ implements l' lo' (q_step CancelLoop q).
Proof.
  intros HI. pose proof HI as []. eexists _, lo. split; [reflexivity|]. cbn [q_step]. implements_lists HI. by destruct im_wf0.
Qed.

Lemma tick_ok ms l lo q : implements l lo q ->
  exists l' lo', (modify (set_timer_ms (u32 ms)) : M Loop unit) l = (Ok tt, l') /\ implements l' lo' (q_step (Tick ms) q).
Proof. intros HI. pose proof HI as []. eexists _, lo. split; [reflexivity|]. cbn [q_step]. close_implements. Qed.

Lemma wake_ok l lo q ev : implements l lo q -> l_pc l = LoopCancel ev ->
  exists l' lo', (match cancel_handler (l_events l) with None => modify (set_l_pc (LoopRunning ev)) | Some _ => mret tt end : M Loop unit) l = (Ok tt, l') /\
    implements l' lo' (match q_cancel q with None => at_place QRunning q | Some _ => q end).
Proof.
  intros HI EP. open_implements HI EP. rewrite <- im_cancel0. destruct (q_cancel q) eqn:EC; [by exists l, lo|].
  eexists _, lo. split; [reflexivity|]. close_implements.
Qed.

Lemma exit_handler_ok l lo q ev now : implements l lo q -> l_pc l = LoopRunning ev ->
  exists l' lo', on_events (exit_event_handler now) l = (Ok tt, l') /\
    implements l' lo' (match q_ready q with [] => with_flags false (q_exit q) q | _ => q_post (untimed EXIT_HANDLER 0) q end).
Proof.
  intros HI EP. pose proof (ready_none _ _ (im_wf _ _ _ HI)) as HR. rewrite (im_ready _ _ _ HI) in HR.
  destruct (event_queue (l_events l)) as [x|] eqn:EQ.
  - assert (E : forall r s, post_event true now EXIT_HANDLER 0 (l_events l) = (r, s) -> exit_event_handler now (l_events l) = (r, s))
      by (intros r s E; unfold exit_event_handler; by rewrite (bind_ok get _ _ _ _ eq_refl), EQ).
    assert (EO : on_events (exit_event_handler now) l = on_events (post_event true now EXIT_HANDLER 0) l).
    { unfold on_events. destruct (post_event _ _ _ _ _) as [r s] eqn:EE. by rewrite (E r s eq_refl). }
    rewrite EO. destruct (q_ready q) as [|e r]; [done|]. by apply (post_step_ok l lo q ev EXIT_HANDLER 0 now).
  - assert (E : exit_event_handler now (l_events l) = (Ok tt, set_process_events false (l_events l)))
      by (unfold exit_event_handler; by rewrite (bind_ok get _ _ _ _ eq_refl), EQ).
    rewrite (on_events_ok _ l _ _ E). destruct (q_ready q) as [|e r] eqn:ER; [|done].
    pose proof HI as []. eexists _, lo. split; [reflexivity|]. implements_lists HI. by destruct im_wf0.
Qed.

Lemma loop_step_ok a l lo q : implements l lo q -> act_ok a ->
  exists l' lo', loop_step a l = (Ok tt, l') /\ implements l' lo' (q_step a q).
Proof.
  intros HI Ha. pose proof (im_place _ _ _ HI) as HP. unfold loop_step. rewrite (bind_ok get _ l l l eq_refl).
  assert (Hid : exists l' lo', (mret tt : M Loop unit) l = (Ok tt, l') /\ implements l' lo' q) by (by exists l, lo).
  destruct a; try (by destruct Ha; apply (bg_step_ok l lo q)); try (by apply (tick_ok ms l lo q)); try (by apply (exit_step_ok l lo q));
    try (by apply (flags_ok l lo q)); cbn [q_step act_ok] in *; destruct (l_pc l) eqn:EP; cbn [place_of] in HP; rewrite HP; try exact Hid.
  - by apply (head_ok l lo q).
  - by apply (refill_step_ok l lo q).
  - by apply (take_step_ok l lo q).
  - by apply (return_ok l lo q).
  - by apply (post_step_ok l lo q ev).
  - destruct Ha. by apply (post_delay_step_ok l lo q ev).
  - by apply (cancel_step_ok l lo q).
  - by apply (wake_ok l lo q).
  - by apply (exit_handler_ok l lo q ev).
Qed.

(** ** The events that run *)

(** The event whose handler the dispatch thread calls in a step. *)
Definition ran_now (l l' : Loop) : list event :=
  match l_pc l, l_pc l' with
  | LoopTake, LoopRunning ev => match ev_heap (l_events l') !! ev with Some n => [node_event n] | None => [] end
  | _, _ => []
  end.

(** The events that run, in the order of their calls. *)
Fixpoint loop_trace (acts : list action) (l : Loop) : list event :=
  match acts with
  | [] => []
  | a :: acts => let l' := (loop_step a l).2 in ran_now l l' ++ loop_trace acts l'
  end.

Definition system_trace (acts : list action) : list event :=
  loop_trace acts ((on_events ini_events_queue ;; run_event_loop 0) start_loop).2.

Lemma q_ran_step a q : a <> Take \/ q_place q <> QTake -> q_ran (q_step a q) = q_ran q.
Proof.
  intros H. destruct a; cbn [q_step]; try (destruct (q_place q) eqn:EP; try done).
  all: try (unfold q_head; destruct (negb _); [done|]; by destruct (_ || _)).
  all: try (unfold q_refill; destruct (t_due _ _); cbn; by rewrite app_nil_r).
  all: try (unfold q_bg_post; case_bool_decide; cbn; by rewrite app_nil_r).
  all: try (destruct (q_exit q); cbn; by rewrite ?app_nil_r).
  all: try (cbn; by rewrite app_nil_r).
  - by destruct H.
  - unfold q_cancel_event. destruct (remove_first _ _ (q_ready q)) as [[]|]; [cbn; by rewrite app_nil_r|].
    destruct (remove_first _ _ (q_timers q)) as [[]|]; [cbn; by rewrite app_nil_r|]. by destruct wait.
  - by destruct (q_cancel q).
  - destruct (q_ready q); cbn; by rewrite ?app_nil_r.
Qed.

#[export] Instance action_eq_dec : EqDecision action.
Proof. solve_decision. Defined.

(** Only [Take] starts a handler. *)
Lemma place_step a q : a <> Take -> q_place q = QTake -> q_place (q_step a q) = QTake.
Proof.
  intros Ha EP. destruct a; cbn [q_step]; rewrite ?EP; try done.
  - unfold q_bg_post. by case_bool_decide.
  - by destruct (q_exit q).
Qed.

Lemma ran_take l lo q l' : implements l lo q -> l_pc l = LoopTake -> loop_step Take l = (Ok tt, l') ->
  q_ran (q_step Take q) = q_ran q ++ ran_now l l'.
Proof.
  intros HI EP. open_implements HI EP. specialize (im_take0 im_place0).
  destruct (lo_eq lo) as [|[x e] eq] eqn:EQ; [by rewrite <- im_ready0 in im_take0|].
  destruct (take_ok (l_events l) lo x e eq im_wf0 EQ) as (s' & n & E & He & HM & Hw & Hn).
  unfold loop_step. rewrite (bind_ok get _ l l l eq_refl), EP. unfold loop_take. rewrite (bind_ok _ _ _ _ _ (on_events_ok _ l _ s' E)).
  rewrite (bind_ok get _ _ _ _ eq_refl). intros EL.
  assert (HL : l_pc l' = LoopRunning x /\ l_events l' = s') by (destruct (bool_decide (en_runtime n = _)); by injection EL as <-).
  destruct HL as [HL HE]. unfold ran_now. rewrite EP, HL, HE, Hn, He. cbn [q_step]. rewrite im_place0. unfold q_take. by rewrite <- im_ready0.
Qed.

Lemma ran_step a l lo q l' lo' : implements l lo q -> loop_step a l = (Ok tt, l') -> implements l' lo' (q_step a q) ->
  q_ran (q_step a q) = q_ran q ++ ran_now l l'.
Proof.
  intros HI EL HI'. destruct (decide (a = Take)) as [->|Ha]; [destruct (l_pc l) eqn:EP|];
    try (by apply (ran_take l lo q l' HI)).
  all: rewrite q_ran_step by (rewrite ?(im_place _ _ _ HI), ?EP; try (by right); by left).
  all: unfold ran_now; rewrite ?EP; rewrite ?app_nil_r; try done.
  destruct (l_pc l) eqn:EP; rewrite ?app_nil_r; try done. pose proof (place_step a q Ha) as HP.
  rewrite (im_place _ _ _ HI), (im_place _ _ _ HI'), EP in HP. specialize (HP eq_refl). destruct (l_pc l'); try done. by rewrite app_nil_r.
Qed.

Lemma run_ok acts : Forall act_ok acts -> forall l lo q, implements l lo q ->
  exists l' lo', loop_run acts l = (Ok tt, l') /\ implements l' lo' (q_run acts q) /\
    q_ran (q_run acts q) = q_ran q ++ loop_trace acts l.
Proof.
  induction 1 as [|a acts Ha _ IH]; intros l lo q HI; [exists l, lo; by rewrite app_nil_r|].
  destruct (loop_step_ok a l lo q HI Ha) as (l1 & lo1 & E1 & H1). cbn [loop_run loop_trace]. rewrite (bind_ok _ _ _ _ _ E1), E1.
  destruct (IH l1 lo1 _ H1) as (l2 & lo2 & E2 & H2 & HR). exists l2, lo2. split; [done|]. split; [done|].
  cbn [snd]. rewrite app_assoc, <- (ran_step a l lo q l1 lo1 HI E1 H1). exact HR.
Qed.

Lemma system_ok acts : Forall act_ok acts ->
  exists L lo, event_system acts start_loop = (Ok tt, L) /\ implements L lo (q_run acts q_start) /\
    system_trace acts = q_ran (q_run acts q_start).
Proof.
  intros Ha. destruct run_loop_start as (L0 & lo0 & E0 & H0). destruct (run_ok acts Ha L0 lo0 _ H0) as (L & lo & E & H & HT).
  exists L, lo. split; [|split; [exact H|]].
  - unfold event_system. rewrite <- E, <- (bind_ok _ (fun _ => loop_run acts) _ _ _ E0). by rewrite bind_assoc.
  - unfold system_trace. rewrite E0, HT. done.
Qed.

(** C3: The agent from its start, with any sequence of the actions of its
    handlers and of the other threads: no assertion fails, no node is used after
    it has been freed, none is lost; the linked lists and the events that run are
    those of the abstract queue after the same actions. *)
Theorem events_refine acts : Forall act_ok acts ->
  exists L lo, event_system acts start_loop = (Ok tt, L) /\ implements L lo (q_run acts q_start) /\
    system_trace acts = q_ran (q_run acts q_start).
Proof. apply system_ok. Qed.
