(* ===== verification/EventsOrder.v ===== *)
(** * The event queue: which events run, in which order and when

    The properties of the queue that its users build on, proved for the abstract
    queue by induction on the actions and stated of the code. *)

From stdpp Require Import gmap sorting.
From S2P Require Import Prelude Events EventsSpec EventsOps EventsRun.

(** An invariant of every step holds after any actions. *)
Lemma q_invariant (ok : action -> Prop) (P : Queue -> Prop) : P q_start -> (forall a q, ok a -> P q -> P (q_step a q)) ->
  forall acts, Forall ok acts -> P (q_run acts q_start).
Proof.
  intros H0 HS acts Ha. revert H0. generalize q_start. induction Ha as [|a acts Ha _ IH]; intros q Hq; [done|].
  cbn. apply IH, HS; done.
Qed.

(** ** Exactly once *)

Lemma t_insert_perm e l : t_insert e l ≡ₚ e :: l.
Proof. induction l as [|x l IH]; [done|]. cbn. destruct (t_le _ _); [|done]. rewrite IH. constructor. Qed.

Lemma t_due_perm now l due rest : t_due now l = (due, rest) -> l = due ++ rest.
Proof. intros E. pose proof (t_due_app now l) as H. rewrite E in H. apply H. Qed.

Lemma remove_first_perm h a l e rest : remove_first h a l = Some (e, rest) -> l ≡ₚ e :: rest.
Proof. intros E. apply remove_first_app in E as (l1 & l2 & -> & -> & _). by rewrite Permutation_middle. Qed.

Definition conserved (q : Queue) : Prop := q_posted q ≡ₚ q_ran q ++ q_gone q ++ q_ready q ++ q_timers q.

Lemma conserved_post e q : conserved q -> conserved (q_post e q).
Proof. unfold conserved, q_post. cbn. intros ->. rewrite !app_nil_r. solve_Permutation. Qed.

Lemma conserved_timed e q : conserved q -> conserved (q_post_timed e q).
Proof. unfold conserved, q_post_timed. cbn. intros ->. rewrite !app_nil_r, t_insert_perm. solve_Permutation. Qed.

Lemma conserved_refill now q : conserved q -> conserved (q_refill now q).
Proof.
  unfold conserved, q_refill. destruct (t_due _ _) as [due rest] eqn:E. cbn. intros ->. rewrite !app_nil_r.
  rewrite (t_due_perm _ _ _ _ E). solve_Permutation.
Qed.

Lemma conserved_take q : conserved q -> conserved (q_take q).
Proof. unfold conserved, q_take. destruct (q_ready q) as [|e l] eqn:E; cbn; intros ->; rewrite ?E, ?app_nil_r; [done|]. solve_Permutation. Qed.

Lemma conserved_cancel h a wait q : conserved q -> conserved (q_cancel_event h a wait q).
Proof.
  unfold conserved, q_cancel_event. intros Hq. destruct (remove_first h a (q_ready q)) as [[e l]|] eqn:E.
  - cbn. rewrite Hq, !app_nil_r, (remove_first_perm _ _ _ _ _ E). solve_Permutation.
  - destruct (remove_first h a (q_timers q)) as [[e l]|] eqn:E'; [|by destruct wait].
    cbn. rewrite Hq, !app_nil_r, (remove_first_perm _ _ _ _ _ E'). solve_Permutation.
Qed.

Lemma conserved_bg h a d now q : conserved q -> conserved (q_bg_post h a d now q).
Proof.
  intros Hq. unfold q_bg_post. case_bool_decide; [|by apply conserved_timed]. unfold conserved in *. cbn. rewrite Hq, !app_nil_r. solve_Permutation.
Qed.

Lemma conserved_exit q : conserved q -> conserved (q_step ExitLoop q).
Proof. intros Hq. cbn. destruct (q_exit q); [|exact Hq]. unfold conserved in *. cbn. rewrite Hq, !app_nil_r. solve_Permutation. Qed.

Lemma conserved_step a q : conserved q -> conserved (q_step a q).
Proof.
  intros Hq. destruct a; cbn [q_step]; try (destruct (q_place q); try exact Hq).
  all: auto using conserved_post, conserved_timed, conserved_refill, conserved_take, conserved_cancel, conserved_bg; try exact Hq; try (by apply conserved_exit).
  - unfold q_head. destruct (negb _); [exact Hq|]. by destruct (_ || _).
  - by destruct (q_cancel q).
  - destruct (q_ready q) eqn:E; [|by apply conserved_post]. unfold conserved in *. cbn. by rewrite Hq.
Qed.

Lemma conserved_run acts : conserved (q_run acts q_start).
Proof.
  apply (q_invariant (fun _ => True) conserved); [constructor|intros a q _; apply conserved_step|by apply Forall_true].
Qed.

(** C24: After any actions every event that has been posted has run exactly once,
    has been cancelled, or is still in one of the two lists. *)
Theorem events_conserved acts : Forall act_ok acts ->
  exists L lo, event_system acts start_loop = (Ok tt, L) /\ wf (l_events L) lo /\
    q_posted (q_run acts q_start) ≡ₚ
      system_trace acts ++ q_gone (q_run acts q_start) ++ events_in (lo_eq lo) ++ events_in (lo_tq lo).
Proof.
  intros Ha. destruct (system_ok acts Ha) as (L & lo & E & HI & HT). exists L, lo. split; [exact E|]. split; [apply HI|].
  rewrite HT, (im_ready _ _ _ HI), (im_timers _ _ _ HI). exact (conserved_run acts).
Qed.

(** ** The order *)

(** Posted without a delay by the dispatch thread. *)
Definition is_untimed (e : event) : Prop := e.1 = t_zero.

#[export] Instance is_untimed_dec e : Decision (is_untimed e).
Proof. unfold is_untimed. apply _. Defined.

(** The clock is past its epoch, and the loop is not shut down. *)
Definition order_ok (a : action) : Prop :=
  match a with
  | ExitLoop => False
  | PostDelay _ _ d now | BgPost _ _ d now => now_ok now /\ in_u 64 d /\ now <> t_zero
  | _ => act_ok a
  end.

Lemma order_act a : order_ok a -> act_ok a.
Proof. destruct a; cbn; tauto. Qed.

Lemma timed_not_untimed now h a d : now_ok now -> in_u 64 d -> now <> t_zero -> ~ is_untimed (timed now h a d).
Proof.
  intros Hn Hd Hz H. unfold is_untimed, timed in H. cbn in H. destruct (time_add_usec_ok now d Hn Hd) as (_ & _ & E). rewrite H in E.
  cbn in E. destruct Hn as [H1 H2]. unfold in_u in Hd. apply Hz. destruct now as [s n]. cbn in *. unfold t_zero. f_equal; lia.
Qed.

Lemma filter_timed l : Forall (fun e => ~ is_untimed e) l -> filter is_untimed l = [].
Proof. induction 1 as [|e l He Hl IH]; [done|]. by rewrite filter_cons_False. Qed.

Record fifo (q : Queue) : Prop := {
  ff_timers : Forall (fun e => ~ is_untimed e) (q_timers q);
  ff_order : filter is_untimed (q_ran q ++ q_ready q) `sublist_of` filter is_untimed (q_posted q);
}.

Lemma fifo_timed e q : ~ is_untimed e -> fifo q -> fifo (q_post_timed e q).
Proof.
  intros He [H1 H2]. unfold q_post_timed. constructor; cbn.
  - by rewrite t_insert_perm, Forall_cons.
  - rewrite app_nil_r, (filter_app _ _ [_]). rewrite (filter_timed [_]) by (by repeat constructor). by rewrite app_nil_r.
Qed.

Lemma fifo_refill now q : fifo q -> fifo (q_refill now q).
Proof.
  intros [H1 H2]. unfold q_refill. destruct (t_due _ _) as [due rest] eqn:E. rewrite (t_due_perm _ _ _ _ E) in H1.
  apply Forall_app in H1 as [H1 H3]. constructor; cbn; [done|]. rewrite !app_nil_r, !filter_app, (filter_timed due) by done.
  by rewrite filter_app in H2.
Qed.

Lemma fifo_take q : fifo q -> fifo (q_take q).
Proof.
  intros [H1 H2]. unfold q_take. destruct (q_ready q) as [|e l] eqn:E; [constructor; [done|by rewrite E]|].
  constructor; cbn; [done|]. by rewrite app_nil_r, <- app_assoc.
Qed.

Lemma fifo_cancel h a wait q : fifo q -> fifo (q_cancel_event h a wait q).
Proof.
  intros [H1 H2]. unfold q_cancel_event. destruct (remove_first h a (q_ready q)) as [[e l]|] eqn:E.
  - apply remove_first_app in E as (l1 & l2 & E & -> & _). constructor; cbn; [done|]. rewrite !app_nil_r. etrans; [|exact H2].
    rewrite E, !filter_app. do 2 (apply sublist_app; [done|]). rewrite filter_cons. case_decide; [by constructor|done].
  - destruct (remove_first h a (q_timers q)) as [[e l]|] eqn:E'; [|by destruct wait].
    rewrite (remove_first_perm _ _ _ _ _ E') in H1. apply Forall_cons in H1 as [_ H1]. constructor; cbn; [done|by rewrite !app_nil_r].
Qed.

Lemma fifo_post e q : is_untimed e -> fifo q -> fifo (q_post e q).
Proof.
  intros He [H1 H2]. unfold q_post. constructor; cbn; [done|]. rewrite app_nil_r, app_assoc, !(filter_app _ _ [e]).
  by apply sublist_app.
Qed.

Lemma fifo_bg h a d now q : ~ is_untimed (timed now h a d) -> fifo q -> fifo (q_bg_post h a d now q).
Proof.
  intros He Hq. unfold q_bg_post. case_bool_decide; [|by apply fifo_timed]. destruct Hq as [H1 H2]. constructor; cbn; [done|].
  rewrite app_nil_r, (filter_app _ _ [_]). rewrite (filter_timed [_]) by (by repeat constructor). by rewrite app_nil_r.
Qed.

Lemma fifo_same q q' : q_timers q' = q_timers q -> q_ready q' = q_ready q -> q_ran q' = q_ran q -> q_posted q' = q_posted q -> fifo q -> fifo q'.
Proof. intros E1 E2 E3 E4 [H1 H2]. constructor; by rewrite ?E1, ?E2, ?E3, ?E4. Qed.

Lemma fifo_step a q : order_ok a -> fifo q -> fifo (q_step a q).
Proof.
  intros Ha Hq. destruct a; cbn [q_step order_ok act_ok] in *; try (destruct (q_place q); try exact Hq).
  all: try (destruct Ha as (Ha1 & Ha2 & Ha3)).
  all: auto using fifo_refill, fifo_take, fifo_cancel, fifo_bg, fifo_timed, timed_not_untimed; try (by apply (fifo_same q)); try done.
  - unfold q_head. destruct (negb _); [by apply (fifo_same q)|]. destruct (_ || _); by apply (fifo_same q).
  - by apply fifo_post.
  - destruct (q_cancel q); [done|by apply (fifo_same q)].
  - destruct (q_ready q) eqn:E; [by apply (fifo_same q)|by apply fifo_post].
Qed.

Lemma fifo_run acts : Forall order_ok acts -> fifo (q_run acts q_start).
Proof. apply (q_invariant order_ok fifo); [by constructor|apply fifo_step]. Qed.


(** ** The time *)

Definition t_before (e1 e2 : event) : Prop := t_le e1.1 e2.1 = true.

Lemma t_insert_sorted e l : StronglySorted t_before l -> StronglySorted t_before (t_insert e l).
Proof.
  induction 1 as [|x l Hl IH Hx]; cbn; [by repeat constructor|]. destruct (t_le x.1 e.1) eqn:E.
  - constructor; [done|]. rewrite t_insert_perm. by constructor.
  - assert (H : t_before e x) by (by apply t_le_total). constructor; [by constructor|]. constructor; [done|].
    eapply Forall_impl; [exact Hx|]. intros y Hy. by eapply t_le_trans.
Qed.

Lemma sorted_app_inv (l1 l2 : list event) : StronglySorted t_before (l1 ++ l2) -> StronglySorted t_before l2.
Proof. induction l1 as [|x l1 IH]; [done|]. intros H. by apply IH; inversion H. Qed.

Lemma sorted_middle (l1 l2 : list event) e : StronglySorted t_before (l1 ++ e :: l2) -> StronglySorted t_before (l1 ++ l2).
Proof.
  induction l1 as [|x l1 IH]; cbn; intros H; inversion H as [|? ? H1 H2]; subst; [done|]. constructor; [by apply IH|].
  apply Forall_app in H2 as [H2 [_ H3]%Forall_cons]. by apply Forall_app.
Qed.

(** An event has come to its time when the loop has looked at a clock that has
    reached it. *)
Definition came (polls : list timespec) (e : event) : Prop := e.1 = t_zero \/ exists now, now ∈ polls /\ t_le e.1 now = true.

(** [event_cnt] is not more than 100: so many untimed events run, at most, before
    the loop looks at the timers again. *)
Definition t_pos (e : event) : Prop := 0 <= tv_sec e.1 /\ 0 <= tv_nsec e.1.

Record timely (q : Queue) : Prop := {
  ti_sorted : StronglySorted t_before (q_timers q);
  ti_pos : Forall t_pos (q_timers q);
  ti_came : Forall (came (q_polls q)) (q_ran q ++ q_ready q);
  ti_cnt : 0 <= q_cnt q <= 100;
  ti_take : q_place q = QTake -> q_cnt q < 100;
  ti_refill : q_place q = QRefill -> q_cnt q = 0;
}.

Lemma came_more polls now l : Forall (came polls) l -> Forall (came (polls ++ now)) l.
Proof.
  intros H. eapply Forall_impl; [exact H|]. intros e [He|(x & Hx & He)]; [by left|right]. exists x. split; [|done].
  apply elem_of_app. by left.
Qed.

Lemma timely_head q : timely q -> q_place q = QHead -> timely (q_head q).
Proof.
  intros [] HP. unfold q_head. destruct (negb _); [by constructor|]. destruct (_ || _) eqn:E; [constructor; cbn; done || lia|].
  constructor; cbn; try done. apply orb_false_iff in E as [E _]. apply orb_false_iff in E as [_ E]. lia.
Qed.

Lemma timely_refill now q : timely q -> q_place q = QRefill -> timely (q_refill now q).
Proof.
  intros [] HP. specialize (ti_refill0 HP). unfold q_refill. pose proof (t_due_app now (q_timers q)) as HD.
  destruct (t_due _ _) as [due rest] eqn:E. destruct HD as [HD HN]. rewrite HD in ti_sorted0, ti_pos0. constructor; cbn; try (rewrite ?app_nil_r; done || lia).
  - by eapply sorted_app_inv.
  - by apply Forall_app in ti_pos0 as [_ ?].
  - rewrite app_nil_r. apply Forall_app in ti_came0 as [H1 H2]. rewrite !Forall_app. split_and!; try by apply came_more.
    eapply Forall_impl; [exact HN|]. intros e He. right. exists now. split; [|done]. apply elem_of_app. right. by left.
Qed.

Lemma timely_take q : timely q -> q_place q = QTake -> timely (q_take q).
Proof.
  intros [] HP. specialize (ti_take0 HP). unfold q_take. destruct (q_ready q) as [|e l] eqn:E; [constructor; rewrite ?E; done|].
  assert (u32 (q_cnt q + 1) = q_cnt q + 1) as HU by (apply wrapu_small; lia).
  constructor; cbn; rewrite ?app_nil_r, <- ?app_assoc; try done. rewrite HU. case_bool_decide; lia.
Qed.

Lemma timely_same q q' : q_timers q' = q_timers q -> q_ready q' = q_ready q -> q_ran q' = q_ran q -> q_polls q' = q_polls q ->
  q_cnt q' = q_cnt q -> (q_place q' = q_place q \/ q_place q' <> QTake /\ q_place q' <> QRefill) -> timely q -> timely q'.
Proof. intros E1 E2 E3 E4 E5 HP []. constructor; rewrite ?E1, ?E2, ?E3, ?E4, ?E5; try done; destruct HP as [->|[]]; done. Qed.

Lemma timely_timed e q : t_pos e -> timely q -> timely (q_post_timed e q).
Proof.
  intros He []. constructor; cbn; rewrite ?app_nil_r; try done; [by apply t_insert_sorted|]. rewrite t_insert_perm. by constructor.
Qed.

Lemma timed_pos now h a d : now_ok now -> in_u 64 d -> t_pos (timed now h a d).
Proof. intros Hn Hd. destruct (time_add_usec_ok now d Hn Hd) as (H1 & H2 & _). split; cbn; lia. Qed.

Lemma timely_post e q : is_untimed e -> timely q -> timely (q_post e q).
Proof.
  intros He []. constructor; cbn; rewrite ?app_nil_r; try done. rewrite app_assoc. apply Forall_app. split; [done|].
  repeat constructor. exact He.
Qed.

Lemma timely_cancel h a wait q : timely q -> timely (q_cancel_event h a wait q).
Proof.
  intros Hq. pose proof Hq as []. unfold q_cancel_event. destruct (remove_first h a (q_ready q)) as [[e l]|] eqn:E.
  - apply remove_first_app in E as (l1 & l2 & E & -> & _). constructor; cbn; rewrite ?app_nil_r; try done. rewrite E in ti_came0.
    rewrite !Forall_app, Forall_cons in *. tauto.
  - destruct (remove_first h a (q_timers q)) as [[e l]|] eqn:E'.
    + apply remove_first_app in E' as (l1 & l2 & E' & -> & _). constructor; cbn; rewrite ?app_nil_r; try done; rewrite E' in ti_sorted0, ti_pos0.
      * by eapply sorted_middle.
      * apply Forall_app in ti_pos0 as [? [_ ?]%Forall_cons]. by apply Forall_app.
    + destruct wait; [|done]. apply (timely_same q); try done. by right.
Qed.

Lemma timely_bg h a d now q : now_ok now -> in_u 64 d -> timely q -> timely (q_bg_post h a d now q).
Proof.
  intros Hn Hd Hq. unfold q_bg_post. case_bool_decide; [|by apply timely_timed, Hq; apply timed_pos]. apply (timely_same q); cbn; rewrite ?app_nil_r; try done. by left.
Qed.

(** The exit event is in front of the timers: its time is 0. *)
Lemma timely_exit q : timely q -> timely (q_step ExitLoop q).
Proof.
  intros Hq. cbn [q_step]. destruct (q_exit q); [|done]. destruct Hq. constructor; cbn; rewrite ?app_nil_r; try done; [|by constructor].
  constructor; [done|]. eapply Forall_impl; [exact ti_pos0|]. intros e [H1 H2]. unfold t_before, t_le. change (tv_sec (untimed EXIT_HANDLER 0).1) with 0. change (tv_nsec (untimed EXIT_HANDLER 0).1) with 0. lia.
Qed.

Lemma timely_step a q : act_ok a -> timely q -> timely (q_step a q).
Proof.
  intros Ha Hq. destruct a; try (by apply timely_exit); cbn [q_step act_ok] in *; try (destruct (q_place q) eqn:EP; try exact Hq).
  all: try (destruct Ha as (Ha1 & Ha2)).
  all: auto using timely_head, timely_refill, timely_take, timely_cancel, timely_bg, timely_timed, timed_pos.
  all: try (by apply (timely_same q); rewrite ?EP; auto).
  all: try (by apply (timely_same q); cbn; auto).
  - by apply timely_post.
  - destruct (q_cancel q); [done|]. apply (timely_same q); try done. by right.
  - destruct (q_ready q) eqn:E; [|by apply timely_post]. apply (timely_same q); try done. by left.
Qed.

Lemma timely_run acts : Forall act_ok acts -> timely (q_run acts q_start).
Proof. apply (q_invariant act_ok timely); [by constructor; try constructor|apply timely_step]. Qed.


(** ** Progress *)

(** What the dispatch thread does by itself, once around the loop. *)
Definition round (now : timespec) : list action := [Head; Refill now; Take; Return].
Definition rounds (now : timespec) (n : nat) : list action := concat (replicate n (round now)).

Lemma q_run_app a b q : q_run (a ++ b) q = q_run b (q_run a q).
Proof. apply fold_left_app. Qed.

Lemma due_nothing now l : (t_due now l).1 = [] -> t_due now l = ([], l).
Proof. destruct l as [|e l]; [done|]. cbn. destruct (t_le e.1 now); [|done]. by destruct (t_due now l). Qed.

(** A round runs the first of the ready events. *)
Lemma round_ok now q e l : q_place q = QHead -> q_go q = true -> q_ready q = e :: l -> (t_due now (q_timers q)).1 = [] ->
  let q' := q_run (round now) q in
  q_place q' = QHead /\ q_go q' = true /\ q_ready q' = l /\ q_timers q' = q_timers q /\ q_ran q' = q_ran q ++ [e].
Proof.
  intros HP HG HR HT. unfold q_run, round. cbn [fold_left].
  assert (H1 : exists c t m, let q1 := q_step (Refill now) (q_step Head q) in
    q1 = Build_Queue (e :: l) (q_timers q) QTake (q_cancel q) true (q_exit q) c t m (q_posted q) (q_ran q) (q_gone q) (q_polls q1)).
  { cbv zeta. cbn [q_step]. rewrite HP. unfold q_head. rewrite HG. cbn [negb]. destruct (_ || _).
    - cbn. unfold q_refill. cbn. rewrite (due_nothing _ _ HT). cbn. rewrite HR. unfold record. cbn. rewrite HG, !app_nil_r. by do 3 eexists.
    - cbn. unfold at_place. rewrite HR, HG. by do 3 eexists. }
  destruct H1 as (c & t & m & E). cbv zeta in E. rewrite E. done.
Qed.

Lemma rounds_ok now l : forall q, q_place q = QHead -> q_go q = true -> q_ready q = l -> (t_due now (q_timers q)).1 = [] ->
  q_ran (q_run (rounds now (length l)) q) = q_ran q ++ l.
Proof.
  induction l as [|e l IH]; intros q HP HG HR HT; [by rewrite app_nil_r|].
  destruct (round_ok now q e l HP HG HR HT) as (P & G & R & T & E). cbn [length]. unfold rounds. cbn [replicate concat].
  rewrite q_run_app. fold (rounds now (length l)). rewrite (IH _ P G R) by (rewrite T; exact HT). by rewrite E, <- app_assoc.
Qed.

Lemma rounds_act now n : now_ok now -> Forall act_ok (rounds now n).
Proof. intros Hn. induction n as [|n IH]; [constructor|]. unfold rounds. cbn. do 4 (constructor; [done|]). exact IH. Qed.

(** C27: No event waits for ever: when the loop is at its head and no timer is due,
    as many rounds of the loop as there are ready events run all of them. *)
Theorem events_drain acts now : Forall act_ok acts -> now_ok now ->
  q_place (q_run acts q_start) = QHead -> q_go (q_run acts q_start) = true -> (t_due now (q_timers (q_run acts q_start))).1 = [] ->
  let ready := q_ready (q_run acts q_start) in
  system_trace (acts ++ rounds now (length ready)) = system_trace acts ++ ready.
Proof.
  intros Ha Hn HP HG HT. destruct (system_ok acts Ha) as (L & lo & _ & _ & E1).
  destruct (system_ok (acts ++ rounds now (length (q_ready (q_run acts q_start))))) as (L' & lo' & _ & _ & E2);
    [by apply Forall_app; split; [|apply rounds_act]|].
  cbv zeta. rewrite E1, E2, q_run_app. apply rounds_ok; exact HP || exact HG || exact HT || reflexivity.
Qed.

(** ** Examples *)

(** Another thread posts an event; its handler posts two events and one with a
    delay; the first of these cancels the second. *)
Definition t_sec (s : Z) : timespec := Build_timespec s 0.
Definition sample : list action :=
  [BgPost 5 0 10 (t_sec 1); Head; Refill (t_sec 1); Refill (t_sec 2); Take; Post 7 1 (t_sec 2); Post 8 2 (t_sec 2);
   PostDelay 9 3 1500000 (t_sec 2); Return; Head; Take; Cancel 8 2 true; Return; Head; Refill (t_sec 3); Refill (t_sec 4); Take; Return].

Example sample_runs : system_trace sample = [timed (t_sec 1) 5 0 10; untimed 7 1; timed (t_sec 2) 9 3 1500000] /\
  q_gone (q_run sample q_start) = [untimed 8 2].
Proof. split; vm_compute; reflexivity. Qed.

Lemma sample_ok : Forall order_ok sample.
Proof. unfold sample, order_ok, act_ok, now_ok, in_u. repeat (constructor; [cbn; try done; repeat split; try lia; done|]). constructor. Defined.

Lemma sample_act : Forall act_ok sample.
Proof. eapply Forall_impl; [exact sample_ok|apply order_act]. Defined.

Lemma events_refine_witness : Forall act_ok sample /\
  exists L lo, event_system sample start_loop = (Ok tt, L) /\ implements L lo (q_run sample q_start) /\
    system_trace sample = q_ran (q_run sample q_start).
Proof. split; [exact sample_act|]. exact (events_refine sample sample_act). Defined.

Lemma events_conserved_witness : Forall act_ok sample /\
  exists L lo, event_system sample start_loop = (Ok tt, L) /\ wf (l_events L) lo /\
    q_posted (q_run sample q_start) ≡ₚ
      system_trace sample ++ q_gone (q_run sample q_start) ++ events_in (lo_eq lo) ++ events_in (lo_tq lo).
Proof. split; [exact sample_act|]. exact (events_conserved sample sample_act). Defined.



(** Two events are ready, a timer is not due. *)
Definition sample2 : list action :=
  [BgPost 5 0 10 (t_sec 1); Head; Refill (t_sec 2); Take; Post 7 1 (t_sec 2); Post 8 2 (t_sec 2);
   PostDelay 9 3 1500000 (t_sec 2); Return].

Lemma sample2_act : Forall act_ok sample2.
Proof. unfold sample2, act_ok, now_ok, in_u. repeat (constructor; [cbn; try done; repeat split; try lia; done|]). constructor. Defined.

Lemma events_drain_witness :
  system_trace (sample2 ++ rounds (t_sec 3) 2) = system_trace sample2 ++ [untimed 7 1; untimed 8 2].
Proof.
  exact (events_drain sample2 (t_sec 3) sample2_act (conj (conj (Z.lt_le_incl 0 3 eq_refl) eq_refl) (conj (Z.le_refl 0) eq_refl)) eq_refl eq_refl eq_refl).
Defined.
