(* ===== verification/Protocol.v ===== *)
(** * Protocol (framework/protocol.c, client.c, notifications of channel.c)

    The dispatch of messages: the services of the agent register handlers of
    commands and events, clients send commands and wait for replies.  The module
    knows neither transports nor services: a channel is anything with the two
    streams and the call backs [ChannelIf], and handlers are addresses whose
    effect is given by [Handlers].

    The [World] is the state of the agent that these functions share: the hash
    tables of protocol.c, the objects [Protocol], the channels by their addresses
    and the state [w_user] of the services.  Names are C strings without their
    zeros. *)

From stdpp Require Import gmap.
From S2P Require Import Prelude Streams JsonWrite JsonRead JsonTmp OutputBuf ChannelTcp.

(** ** Data *)

Record ServiceInfo := { si_owner : Z; si_name : bytes }.

Record MessageHandlerInfo := {
  mh_p : Z;
  mh_service : ServiceInfo;
  mh_name : bytes;
  mh_handler : Z;
  mh_client_data : Z;
}.

Record EventHandlerInfo := {
  eh_c : Z;
  eh_service : ServiceInfo;
  eh_name : bytes;
  eh_handler : Z;
  eh_client_data : Z;
}.

(** [rh_id] is the address. *)
Record ReplyHandlerInfo := {
  rh_id : Z;
  rh_tokenid : Z;
  rh_c : Z;
  rh_handler : option Z;
  rh_progress : option Z;
  rh_client_data : Z;
}.

Definition MESSAGE_HASH_SIZE : Z := 5 * MEM_USAGE_FACTOR - 1.
Definition EVENT_HASH_SIZE : Z := 4 * MEM_USAGE_FACTOR - 1.
Definition REPLY_HASH_SIZE : Z := 4 * MEM_USAGE_FACTOR - 1.

Record Protocol := {
  p_id : Z;
  p_lock_cnt : Z;
  p_tokenid : Z;
  p_default_handler : option Z;
  p_client_data : Z;
}.

(** What a transport provides besides its streams; [ch_state] is the member
    [state] of a channel, [set_ch_zero_copy] sets [out.supports_zero_copy]. *)
Class ChannelIf (Ch : Type) := {
  ch_state : Ch -> ChannelState;
  set_ch_state : ChannelState -> Ch -> Ch;
  set_ch_zero_copy : bool -> Ch -> Ch;
  ch_is_closed : M Ch bool;
  ch_lock : M Ch unit;
  ch_unlock : M Ch unit;
}.

(** The members of a channel that the transport does not use; [c_trans] is the
    rest of it. *)
Record Channel (Ch : Type) := {
  c_protocol : Z;
  c_peer_service_list : option (list bytes);
  c_congestion_level : Z;
  c_disable_zero_copy : bool;
  c_notified_open : bool;
  c_connected : option Z;
  c_trans : Ch;
}.
Arguments c_protocol {Ch} _. Arguments c_peer_service_list {Ch} _. Arguments c_congestion_level {Ch} _.
Arguments c_disable_zero_copy {Ch} _. Arguments c_notified_open {Ch} _. Arguments c_connected {Ch} _. Arguments c_trans {Ch} _.
Arguments Build_Channel {Ch} _ _ _ _ _ _ _.

(** [w_brk]: the address of the next object; [w_posted]: the events
    [send_command_failed]; [w_clients] is [client_connection_root]. *)
Record World (Ch U : Type) := {
  w_services : list ServiceInfo;
  w_message_handlers : list (list MessageHandlerInfo);
  w_event_handlers : list (list EventHandlerInfo);
  w_reply_handlers : list (list ReplyHandlerInfo);
  w_protocols : gmap Z Protocol;
  w_proto_cnt : Z;
  w_channels : gmap Z (Channel Ch);
  w_clients : list Z;
  w_posted : list ReplyHandlerInfo;
  w_brk : Z;
  w_tmp : TmpBuf;
  w_user : U;
}.
Arguments w_services {Ch U} _. Arguments w_message_handlers {Ch U} _. Arguments w_event_handlers {Ch U} _.
Arguments w_reply_handlers {Ch U} _. Arguments w_protocols {Ch U} _. Arguments w_proto_cnt {Ch U} _. Arguments w_channels {Ch U} _.
Arguments w_clients {Ch U} _. Arguments w_posted {Ch U} _. Arguments w_brk {Ch U} _. Arguments w_tmp {Ch U} _. Arguments w_user {Ch U} _.
Arguments Build_World {Ch U} _ _ _ _ _ _ _ _ _ _ _ _.

Section set_fields.
Context {Ch U : Type}.
Implicit Types w : World Ch U.

Definition set_services x w : World Ch U :=
  Build_World x (w_message_handlers w) (w_event_handlers w) (w_reply_handlers w) (w_protocols w) (w_proto_cnt w)
    (w_channels w) (w_clients w) (w_posted w) (w_brk w) (w_tmp w) (w_user w).
Definition set_message_handlers x w : World Ch U :=
  Build_World (w_services w) x (w_event_handlers w) (w_reply_handlers w) (w_protocols w) (w_proto_cnt w)
    (w_channels w) (w_clients w) (w_posted w) (w_brk w) (w_tmp w) (w_user w).
Definition set_event_handlers x w : World Ch U :=
  Build_World (w_services w) (w_message_handlers w) x (w_reply_handlers w) (w_protocols w) (w_proto_cnt w)
    (w_channels w) (w_clients w) (w_posted w) (w_brk w) (w_tmp w) (w_user w).
Definition set_reply_handlers x w : World Ch U :=
  Build_World (w_services w) (w_message_handlers w) (w_event_handlers w) x (w_protocols w) (w_proto_cnt w)
    (w_channels w) (w_clients w) (w_posted w) (w_brk w) (w_tmp w) (w_user w).
Definition set_protocols x w : World Ch U :=
  Build_World (w_services w) (w_message_handlers w) (w_event_handlers w) (w_reply_handlers w) x (w_proto_cnt w)
    (w_channels w) (w_clients w) (w_posted w) (w_brk w) (w_tmp w) (w_user w).
Definition set_proto_cnt x w : World Ch U :=
  Build_World (w_services w) (w_message_handlers w) (w_event_handlers w) (w_reply_handlers w) (w_protocols w) x
    (w_channels w) (w_clients w) (w_posted w) (w_brk w) (w_tmp w) (w_user w).
Definition set_channels x w : World Ch U :=
  Build_World (w_services w) (w_message_handlers w) (w_event_handlers w) (w_reply_handlers w) (w_protocols w) (w_proto_cnt w)
    x (w_clients w) (w_posted w) (w_brk w) (w_tmp w) (w_user w).
Definition set_clients x w : World Ch U :=
  Build_World (w_services w) (w_message_handlers w) (w_event_handlers w) (w_reply_handlers w) (w_protocols w) (w_proto_cnt w)
    (w_channels w) x (w_posted w) (w_brk w) (w_tmp w) (w_user w).
Definition set_posted x w : World Ch U :=
  Build_World (w_services w) (w_message_handlers w) (w_event_handlers w) (w_reply_handlers w) (w_protocols w) (w_proto_cnt w)
    (w_channels w) (w_clients w) x (w_brk w) (w_tmp w) (w_user w).
Definition set_w_brk x w : World Ch U :=
  Build_World (w_services w) (w_message_handlers w) (w_event_handlers w) (w_reply_handlers w) (w_protocols w) (w_proto_cnt w)
    (w_channels w) (w_clients w) (w_posted w) x (w_tmp w) (w_user w).
Definition set_w_tmp x w : World Ch U :=
  Build_World (w_services w) (w_message_handlers w) (w_event_handlers w) (w_reply_handlers w) (w_protocols w) (w_proto_cnt w)
    (w_channels w) (w_clients w) (w_posted w) (w_brk w) x (w_user w).
Definition set_user x w : World Ch U :=
  Build_World (w_services w) (w_message_handlers w) (w_event_handlers w) (w_reply_handlers w) (w_protocols w) (w_proto_cnt w)
    (w_channels w) (w_clients w) (w_posted w) (w_brk w) (w_tmp w) x.

Definition set_c_trans x (c : Channel Ch) : Channel Ch :=
  Build_Channel (c_protocol c) (c_peer_service_list c) (c_congestion_level c) (c_disable_zero_copy c) (c_notified_open c) (c_connected c) x.
Definition set_peer_services x (c : Channel Ch) : Channel Ch :=
  Build_Channel (c_protocol c) x (c_congestion_level c) (c_disable_zero_copy c) (c_notified_open c) (c_connected c) (c_trans c).
Definition set_congestion_level x (c : Channel Ch) : Channel Ch :=
  Build_Channel (c_protocol c) (c_peer_service_list c) x (c_disable_zero_copy c) (c_notified_open c) (c_connected c) (c_trans c).
Definition set_notified_open x (c : Channel Ch) : Channel Ch :=
  Build_Channel (c_protocol c) (c_peer_service_list c) (c_congestion_level c) (c_disable_zero_copy c) x (c_connected c) (c_trans c).
End set_fields.

(** The handlers and listeners that are registered by their addresses: what a
    call of them does.  The arguments are those of the call backs of the code.
    [None] is the close listener of this module, [channel_closed]. *)
Class Handlers (Ch U : Type) := {
  command_handler : Z -> bytes -> Z -> Z -> M (World Ch U) unit;
  default_handler : Z -> Z -> list bytes -> Z -> M (World Ch U) unit;
  reply_handler : Z -> Z -> Z -> Z -> M (World Ch U) unit;
  progress_handler : Z -> Z -> Z -> M (World Ch U) unit;
  event_handler : Z -> Z -> Z -> M (World Ch U) unit;
  connected_handler : Z -> Z -> M (World Ch U) unit;
  open_listeners : list (Z -> M (World Ch U) unit);
  close_listeners : list (option (Z -> M (World Ch U) unit));
  client_connected : list (Z -> M (World Ch U) unit);
  client_disconnected : list (Z -> M (World Ch U) unit);
}.

(** ** Hash tables *)

(** Characters are signed. *)
Definition hash_name (h : Z) (l : bytes) : Z := fold_left (fun h b => u32 (h + wraps 8 b)) l h.

Definition message_hash (p : Z) (service name : bytes) : Z :=
  let h := Z.shiftr (u32 p) 4 in
  let h := hash_name h service in
  let h := hash_name h name in
  let h := u32 (h + h / MESSAGE_HASH_SIZE) in
  h mod MESSAGE_HASH_SIZE.

Definition event_hash (c : Z) (service name : bytes) : Z :=
  let h := Z.shiftr (u32 c) 4 in
  let h := hash_name h service in
  let h := hash_name h name in
  let h := u32 (h + h / EVENT_HASH_SIZE) in
  h mod EVENT_HASH_SIZE.

Definition reply_hash (c tokenid : Z) : Z := u32 (Z.shiftr (u32 c) 4 + u32 tokenid) mod REPLY_HASH_SIZE.

(** The first element that [f] accepts. *)
Definition find {A} (f : A -> bool) (l : list A) : option A := snd <$> list_find f l.

Definition match_message (p : Z) (service name : bytes) (mh : MessageHandlerInfo) : bool :=
  (mh_p mh =? p) && bool_decide (si_name (mh_service mh) = service) && bool_decide (mh_name mh = name).
Definition match_event (c : Z) (service name : bytes) (eh : EventHandlerInfo) : bool :=
  (eh_c eh =? c) && bool_decide (si_name (eh_service eh) = service) && bool_decide (eh_name eh = name).
Definition match_reply (c tokenid : Z) (rh : ReplyHandlerInfo) : bool :=
  (rh_c rh =? c) && (rh_tokenid rh =? tokenid).

(** Without the first element that [f] accepts. *)
Fixpoint remove_first {A} (f : A -> bool) (l : list A) : list A :=
  match l with
  | [] => []
  | x :: l => if f x then l else x :: remove_first f l
  end.

Section protocol.
Context {Ch U : Type} `{InputStream Ch} `{OutputStream Ch} `{ChannelIf Ch} `{Handlers Ch U}.

Abbreviation W := (World Ch U).

Definition get_channel (c : Z) : M W (Channel Ch) := w ← get; of_option (w_channels w !! c).
Definition upd_channel (c : Z) (f : Channel Ch -> Channel Ch) : M W unit :=
  ch ← get_channel c; modify (fun w => set_channels (<[c := f ch]> (w_channels w)) w).

(** An operation of the transport of the channel at [c]. *)
Definition on_chan {A} (c : Z) (m : M Ch A) : M W A := fun w =>
  match w_channels w !! c with
  | None => (Undef, w)
  | Some ch => let '(r, s) := m (c_trans ch) in (r, set_channels (<[c := set_c_trans s ch]> (w_channels w)) w)
  end.

(** A reader of JSON, which also uses the buffer of json.c. *)
Definition on_json {A} (c : Z) (m : M (json_state Ch) A) : M W A := fun w =>
  match w_channels w !! c with
  | None => (Undef, w)
  | Some ch =>
      let '(r, s) := m (Build_json_state (c_trans ch) (w_tmp w)) in
      (r, set_w_tmp (js_tmp s) (set_channels (<[c := set_c_trans (js_inp s) ch]> (w_channels w)) w))
  end.

Definition state_of (c : Z) : M W ChannelState := ch ← get_channel c; mret (ch_state (c_trans ch)).
Definition set_state (c : Z) (s : ChannelState) : M W unit := on_chan c (modify (set_ch_state s)).

(** [set_trap]: 0, or the error that [m] has raised. *)
Definition try_trap (m : M W unit) : M W Z := fun w =>
  match m w with
  | (Ok _, w') => (Ok 0, w')
  | (Exc e, w') => (Ok e, w')
  | (Undef, w') => (Undef, w')
  | (NoFuel, w') => (NoFuel, w')
  end.

(** ** Registration *)

Definition find_service (owner : Z) (name : bytes) (l : list ServiceInfo) : option ServiceInfo :=
  find (fun s => (si_owner s =? owner) && bool_decide (si_name s = name)) l.

Definition protocol_get_service (owner : Z) (name : bytes) : M W ServiceInfo :=
  w ← get;
  match find_service owner name (w_services w) with
  | Some s => mret s
  | None =>
      assertm (bool_decide (name <> str "ZeroCopy")) ;;
      let s := {| si_owner := owner; si_name := name |} in
      modify (set_services (s :: w_services w)) ;;
      mret s
  end.

Definition free_services (owner : Z) : M W unit :=
  modify (fun w => set_services (filter (fun s => si_owner s <> owner) (w_services w)) w).

Definition find_message_handler (p : Z) (service name : bytes) (w : W) : option MessageHandlerInfo :=
  l ← w_message_handlers w !! Z.to_nat (message_hash p service name);
  find (match_message p service name) l.

Definition find_event_handler (c : Z) (service name : bytes) (w : W) : option EventHandlerInfo :=
  l ← w_event_handlers w !! Z.to_nat (event_hash c service name);
  find (match_event c service name) l.

Definition find_reply_handler (c tokenid : Z) (take : bool) : M W (option ReplyHandlerInfo) :=
  w ← get;
  let h := Z.to_nat (reply_hash c tokenid) in
  l ← of_option (w_reply_handlers w !! h);
  match find (match_reply c tokenid) l with
  | Some rh =>
      (if take then modify (set_reply_handlers (<[h := remove_first (match_reply c tokenid) l]> (w_reply_handlers w)))
       else mret tt) ;;
      mret (Some rh)
  | None => mret None
  end.

Definition add_command_handler2 (p : Z) (service name : bytes) (handler client_data : Z) : M W unit :=
  let h := Z.to_nat (message_hash p service name) in
  s ← protocol_get_service p service;
  w ← get;
  l ← of_option (w_message_handlers w !! h);
  let mh := {| mh_p := p; mh_service := s; mh_name := name; mh_handler := handler; mh_client_data := client_data |} in
  put (set_message_handlers (<[h := mh :: l]> (w_message_handlers w)) w).

Definition add_event_handler2 (c : Z) (service name : bytes) (handler client_data : Z) : M W unit :=
  let h := Z.to_nat (event_hash c service name) in
  s ← protocol_get_service c service;
  w ← get;
  l ← of_option (w_event_handlers w !! h);
  let eh := {| eh_c := c; eh_service := s; eh_name := name; eh_handler := handler; eh_client_data := client_data |} in
  put (set_event_handlers (<[h := eh :: l]> (w_event_handlers w)) w).

(** ** Protocols *)

Definition get_protocol (p : Z) : M W Protocol := w ← get; of_option (w_protocols w !! p).
Definition put_protocol (p : Z) (x : Protocol) : M W unit := modify (fun w => set_protocols (<[p := x]> (w_protocols w)) w).

Definition set_lock_cnt (x : Z) (p : Protocol) : Protocol :=
  Build_Protocol (p_id p) x (p_tokenid p) (p_default_handler p) (p_client_data p).
Definition set_tokenid (x : Z) (p : Protocol) : Protocol :=
  Build_Protocol (p_id p) (p_lock_cnt p) x (p_default_handler p) (p_client_data p).

Definition set_default_message_handler2 (p : Z) (handler : option Z) (client_data : Z) : M W unit :=
  x ← get_protocol p;
  put_protocol p (Build_Protocol (p_id x) (p_lock_cnt x) (p_tokenid x) handler client_data).

Definition protocol_alloc : M W Z :=
  w ← get;
  let p := w_brk w in
  modify (set_w_brk (p + 1)) ;;
  put_protocol p (Build_Protocol (w_proto_cnt w) 1 1 None 0) ;;
  modify (set_proto_cnt (w_proto_cnt w + 1)) ;;
  mret p.

Definition protocol_reference (p : Z) : M W unit :=
  x ← get_protocol p;
  assertm (0 <? p_lock_cnt x) ;;
  put_protocol p (set_lock_cnt (p_lock_cnt x + 1) x).

Definition protocol_release (p : Z) : M W unit :=
  x ← get_protocol p;
  assertm (0 <? p_lock_cnt x) ;;
  put_protocol p (set_lock_cnt (p_lock_cnt x - 1) x) ;;
  if negb (p_lock_cnt x - 1 =? 0) then mret tt
  else
    modify (fun w => set_message_handlers (filter (fun mh => mh_p mh <> p) <$> w_message_handlers w) w) ;;
    free_services p ;;
    modify (fun w => set_protocols (delete p (w_protocols w)) w).

(** ** Commands *)

(** The first token, from [p->tokenid] on, that no pending command of the channel
    has.  The fuel is more than the number of pending commands. *)
Fixpoint new_token (fuel : nat) (c p : Z) : M W Z :=
  match fuel with
  | O => nofuel
  | S fuel =>
      x ← get_protocol p;
      let tokenid := p_tokenid x in
      put_protocol p (set_tokenid (u64 (tokenid + 1)) x) ;;
      rh ← find_reply_handler c tokenid false;
      match rh with Some _ => new_token fuel c p | None => mret tokenid end
  end.

Definition pending_cnt (w : W) : nat := length (concat (w_reply_handlers w)).

Definition protocol_send_command_with_progress (c : Z) (service name : bytes) (handler progress : option Z)
    (client_data : Z) : M W Z :=
  w ← get;
  let id := w_brk w in
  modify (set_w_brk (id + 1)) ;;
  ch ← get_channel c;
  closed ← on_chan c ch_is_closed;
  if closed || bool_decide (c_peer_service_list ch = None) then
    modify (fun w => set_posted (w_posted w ++ [Build_ReplyHandlerInfo id 0 c handler progress client_data]) w) ;;
    mret id
  else
    w ← get;
    tokenid ← new_token (S (pending_cnt w)) c (c_protocol ch);
    on_chan c (write_stringz (str "C")) ;;
    on_chan c (json_write_ulong tokenid) ;;
    on_chan c (write_stream 0) ;;
    on_chan c (write_stringz service) ;;
    on_chan c (write_stringz name) ;;
    let h := Z.to_nat (reply_hash c tokenid) in
    w ← get;
    l ← of_option (w_reply_handlers w !! h);
    put (set_reply_handlers (<[h := Build_ReplyHandlerInfo id tokenid c handler progress client_data :: l]> (w_reply_handlers w)) w) ;;
    mret id.

Definition protocol_send_command (c : Z) (service name : bytes) (handler : option Z) (client_data : Z) : M W Z :=
  protocol_send_command_with_progress c service name handler None client_data.

(** The first of the posted events. *)
Definition send_command_failed : M W unit :=
  w ← get;
  match w_posted w with
  | [] => mret tt
  | rh :: l =>
      modify (set_posted l) ;;
      match rh_handler rh with
      | Some h => reply_handler h (rh_c rh) (rh_client_data rh) ERR_CHANNEL_CLOSED
      | None => mret tt
      end
  end.

(** ** Handshake *)

Definition LOCATOR : bytes := str "Locator".

(** [for (i = 0; i < cnt; i++) listeners[i](c)]. *)
Fixpoint call_listeners (l : list (Z -> M W unit)) (c : Z) : M W unit :=
  match l with
  | [] => mret tt
  | f :: l => f c ;; call_listeners l c
  end.

Definition notify_client_connected (c : Z) : M W unit :=
  on_chan c ch_lock ;;
  modify (fun w => set_clients (w_clients w ++ [c]) w) ;;
  call_listeners client_connected c.

Definition notify_client_disconnected (c : Z) : M W unit :=
  modify (fun w => set_clients (filter (fun x => x <> c) (w_clients w)) w) ;;
  call_listeners client_disconnected c ;;
  on_chan c ch_unlock.

Definition notify_channel_opened (c : Z) : M W unit :=
  closed ← on_chan c ch_is_closed;
  assertm (negb closed) ;;
  st ← state_of c;
  assertm (bool_decide (st = ChannelStateConnected)) ;;
  ch ← get_channel c;
  if c_notified_open ch then mret tt
  else
    upd_channel c (set_notified_open true) ;;
    on_chan c ch_lock ;;
    call_listeners open_listeners c ;;
    notify_client_connected c ;;
    on_chan c ch_unlock.

Definition connect_done (c : Z) : M W unit :=
  st ← state_of c;
  assertm (bool_decide (st = ChannelStateConnected)) ;;
  notify_channel_opened c ;;
  ch ← get_channel c;
  match c_connected ch with
  | Some f => connected_handler f c
  | None => mret tt
  end.

(** The loop over [services]; [cnt]: how many names have been written. *)
Fixpoint write_services (c p cnt : Z) (l : list ServiceInfo) : M W unit :=
  match l with
  | [] => mret tt
  | s :: l =>
      if si_owner s =? p then
        (if negb (cnt =? 0) then on_chan c (write_stream #",") else mret tt) ;;
        on_chan c (json_write_string (Some (si_name s))) ;;
        write_services c p (cnt + 1) l
      else write_services c p cnt l
  end.

Definition send_hello_message (c : Z) : M W unit :=
  ch ← get_channel c;
  st ← state_of c;
  assertm (bool_decide (st = ChannelStateStarted) || bool_decide (st = ChannelStateHelloReceived)) ;;
  on_chan c (write_stringz (str "E")) ;;
  on_chan c (write_stringz LOCATOR) ;;
  on_chan c (write_stringz (str "Hello")) ;;
  on_chan c (write_stream #"[") ;;
  (if negb (c_disable_zero_copy ch) then on_chan c (json_write_string (Some (str "ZeroCopy"))) else mret tt) ;;
  w ← get;
  write_services c (c_protocol ch) (if c_disable_zero_copy ch then 0 else 1) (w_services w) ;;
  on_chan c (write_stream #"]") ;;
  on_chan c (write_stream 0) ;;
  on_chan c (write_stream MARKER_EOM) ;;
  st ← state_of c;
  if bool_decide (st = ChannelStateStarted) then set_state c ChannelStateHelloSent
  else set_state c ChannelStateConnected ;; connect_done c.

(** The names up to the closing bracket: what [json_read_alloc_string] returns
    ends with a zero; [strcmp] dereferences it.  Without names the list is null. *)
Fixpoint read_services (fuel : nat) (c : Z) (acc : list bytes) : M W (list bytes) :=
  match fuel with
  | O => nofuel
  | S fuel =>
      r ← on_json c json_read_alloc_string;
      service ← of_option r;
      (if bool_decide (c_str service = str "ZeroCopy") then on_chan c (modify (set_ch_zero_copy true)) else mret tt) ;;
      let acc := acc ++ [service] in
      ch ← on_chan c read_no_whitespace;
      if ch =? #"," then read_services fuel c acc
      else if ch =? #"]" then mret acc
      else exception ERR_JSON_SYNTAX
  end.

Definition chan_fuel (c : Z) : M W nat := ch ← get_channel c; mret (is_fuel (c_trans ch)).

Definition event_locator_hello (c : Z) : M W unit :=
  on_chan c (modify (set_ch_zero_copy false)) ;;
  ch ← on_chan c read_no_whitespace;
  if negb (ch =? #"[") then exception ERR_PROTOCOL
  else
    p ← on_chan c peek_stream;
    list ← (if p =? #"]" then on_chan c read_stream ;; mret []
            else fuel ← chan_fuel c; read_services fuel c []);
    ch ← on_chan c read_stream;
    if negb (ch =? 0) then exception ERR_JSON_SYNTAX
    else
      ch ← on_chan c read_stream;
      if negb (ch =? MARKER_EOM) then exception ERR_JSON_SYNTAX
      else
        st ← state_of c;
        if negb (bool_decide (st = ChannelStateStarted)) && negb (bool_decide (st = ChannelStateHelloSent)) then mret tt
        else
          upd_channel c (set_peer_services (match list with [] => None | _ => Some list end)) ;;
          if bool_decide (st = ChannelStateStarted) then set_state c ChannelStateHelloReceived
          else set_state c ChannelStateConnected ;; connect_done c.

(** ** Messages *)

(** [str] has [size] bytes; the characters that do not fit are dropped. *)
Fixpoint read_stringz_loop (fuel : nat) (size : Z) (acc : bytes) : M Ch bytes :=
  match fuel with
  | O => nofuel
  | S fuel =>
      ch ← read_stream;
      if ch <=? 0 then if ch =? 0 then mret acc else exception ERR_PROTOCOL
      else read_stringz_loop fuel size (if zlen acc <? size - 1 then acc ++ [ch] else acc)
  end.
Definition read_stringz (size : Z) : M Ch bytes := with_fuel (fun fuel => read_stringz_loop fuel size []).

Fixpoint skip_until_EOM_loop (fuel : nat) : M Ch unit :=
  match fuel with
  | O => nofuel
  | S fuel =>
      ch ← read_stream;
      if (ch =? MARKER_EOM) || (ch =? MARKER_EOS) then mret tt else skip_until_EOM_loop fuel
  end.
Definition skip_until_EOM : M Ch unit := with_fuel skip_until_EOM_loop.

Definition send_N (c : Z) (token : bytes) : M W unit :=
  on_chan c skip_until_EOM ;;
  on_chan c (write_stringz (str "N")) ;;
  on_chan c (write_stringz token) ;;
  on_chan c (write_stream MARKER_EOM).

Definition handle_command (c p : Z) (type : bytes) : M W Z :=
  token ← on_chan c (read_stringz 256);
  service ← on_chan c (read_stringz 256);
  name ← on_chan c (read_stringz 256);
  st ← state_of c;
  if negb (bool_decide (st = ChannelStateConnected)) then send_N c token ;; mret 0
  else
    try_trap (
      w ← get;
      match find_message_handler p service name w with
      | Some mh => command_handler (mh_handler mh) token c (mh_client_data mh)
      | None =>
          x ← get_protocol p;
          match p_default_handler x with
          | Some f => default_handler f c [type; token; service; name] (p_client_data x)
          | None => send_N c token
          end
      end).

(** [strtoul] of the C library, base 10: the value, when [errno] is 0 and all of
    the text has been used. *)
Fixpoint digits_value (acc : Z) (l : bytes) : option Z :=
  match l with
  | [] => Some acc
  | b :: l => if (#"0" <=? b) && (b <=? #"9") then digits_value (acc * 10 + (b - #"0")) l else None
  end.
Fixpoint skip_spaces (l : bytes) : bytes :=
  match l with
  | b :: l' => if isspace b then skip_spaces l' else l
  | [] => []
  end.
Definition strtoul (token : bytes) : option Z :=
  match token with
  | [] => Some 0
  | _ =>
      let '(neg, l) := match skip_spaces token with
        | b :: l => if b =? #"-" then (true, l) else if b =? #"+" then (false, l) else (false, b :: l)
        | [] => (false, [])
        end in
      match l with
      | [] => None
      | _ =>
          v ← digits_value 0 l;
          if v <? 2 ^ 64 then Some (if neg : bool then u64 (- v) else v) else None
      end
  end.

Definition handle_reply (c p : Z) (t : Z) : M W Z :=
  token ← on_chan c (read_stringz 256);
  try_trap (
    rh ← (match strtoul token with
          | Some tokenid => find_reply_handler c tokenid (negb (t =? #"P"))
          | None => mret None
          end);
    match rh with
    | None =>
        x ← get_protocol p;
        match p_default_handler x with
        | Some f => default_handler f c [[t]; token] (p_client_data x)
        | None => exception ERR_PROTOCOL
        end
    | Some rh =>
        if t =? #"P" then
          match rh_progress rh with
          | Some f => progress_handler f c (rh_client_data rh)
          | None => on_chan c skip_until_EOM
          end
        else
          n ← (if t =? #"N" then on_chan c skip_until_EOM ;; mret ERR_INV_COMMAND else mret 0);
          match rh_handler rh with
          | Some f => reply_handler f c (rh_client_data rh) n
          | None => on_chan c skip_until_EOM
          end
    end).

Definition handle_event (c p : Z) (type : bytes) : M W Z :=
  service ← on_chan c (read_stringz 256);
  name ← on_chan c (read_stringz 256);
  try_trap (
    st ← state_of c;
    if (bool_decide (st = ChannelStateStarted) || bool_decide (st = ChannelStateHelloSent)) &&
       bool_decide (service = LOCATOR) && bool_decide (name = str "Hello")
    then event_locator_hello c
    else
      w ← get;
      match find_event_handler c service name w with
      | Some eh => event_handler (eh_handler eh) c (eh_client_data eh)
      | None =>
          x ← get_protocol p;
          match p_default_handler x with
          | Some f => default_handler f c [type; service; name] (p_client_data x)
          | None => on_chan c skip_until_EOM
          end
      end).

(** The digits of a congestion level, of type [int], and the character after them. *)
Fixpoint read_level (fuel : nat) (n ch : Z) : M Ch (Z * Z) :=
  match fuel with
  | O => nofuel
  | S fuel =>
      if (#"0" <=? ch) && (ch <=? #"9") then
        let n := n * 10 + (ch - #"0") in
        assertm (n <? 2 ^ 31) ;;
        ch ← read_stream;
        read_level fuel n ch
      else mret (n, ch)
  end.

Definition handle_congestion (c : Z) : M W Z :=
  ch ← on_chan c read_stream;
  '(neg, ch) ← (if ch =? #"-" then ch ← on_chan c read_stream; mret (true, ch) else mret (false, ch));
  fuel ← chan_fuel c;
  '(n, ch) ← on_chan c (read_level (S fuel) 0 ch);
  ch ← (if ch =? 0 then on_chan c read_stream else mret ch);
  if negb (ch =? MARKER_EOM) then mret ERR_PROTOCOL
  else upd_channel c (set_congestion_level (if neg : bool then - n else n)) ;; mret 0.

Definition handle_protocol_message (c : Z) : M W unit :=
  ch ← get_channel c;
  let p := c_protocol ch in
  type ← on_chan c (read_stringz 8);
  error ← (match type with
    | [t] =>
        if t =? #"C" then handle_command c p type
        else if (t =? #"R") || (t =? #"P") || (t =? #"N") then handle_reply c p t
        else if t =? #"E" then handle_event c p type
        else if t =? #"F" then handle_congestion c
        else
          x ← get_protocol p;
          match p_default_handler x with
          | Some f => default_handler f c [type] (p_client_data x) ;; mret 0
          | None => mret ERR_PROTOCOL
          end
    | _ => mret ERR_PROTOCOL
    end);
  if error =? 0 then mret tt else exception error.

(** ** Closed channels *)

(** [*rhp], where [rhp] is the head of the list or the member [next] of [prev]. *)
Fixpoint from_cell (prev : Z) (l : list ReplyHandlerInfo) : option (list ReplyHandlerInfo) :=
  match l with
  | [] => None
  | rh :: l => if rh_id rh =? prev then Some l else from_cell prev l
  end.
Definition cell (prev : option Z) (l : list ReplyHandlerInfo) : option (list ReplyHandlerInfo) :=
  match prev with None => Some l | Some id => from_cell id l end.

(** [*rhp = x]. *)
Fixpoint set_cell_from (prev : Z) (x l : list ReplyHandlerInfo) : list ReplyHandlerInfo :=
  match l with
  | [] => []
  | rh :: l => if rh_id rh =? prev then rh :: x else rh :: set_cell_from prev x l
  end.
Definition set_cell (prev : option Z) (x l : list ReplyHandlerInfo) : list ReplyHandlerInfo :=
  match prev with None => x | Some id => set_cell_from id x l end.

Definition no_handler (id : Z) (rh : ReplyHandlerInfo) : ReplyHandlerInfo :=
  if rh_id rh =? id then Build_ReplyHandlerInfo id (rh_tokenid rh) (rh_c rh) None None 0 else rh.

Definition get_bucket (i : nat) : M W (list ReplyHandlerInfo) := w ← get; of_option (w_reply_handlers w !! i).
Definition put_bucket (i : nat) (l : list ReplyHandlerInfo) : M W unit :=
  modify (fun w => set_reply_handlers (<[i := l]> (w_reply_handlers w)) w).

(** One list of [reply_handlers]: a handler may send commands, so the list is
    read again after each call. *)
Fixpoint close_replies (fuel : nat) (c : Z) (i : nat) (prev : option Z) : M W unit :=
  match fuel with
  | O => nofuel
  | S fuel =>
      l ← get_bucket i;
      rest ← of_option (cell prev l);
      match rest with
      | [] => mret tt
      | rh :: _ =>
          if rh_c rh =? c then
            try_trap (match rh_handler rh with
                      | Some f => reply_handler f c (rh_client_data rh) ERR_CHANNEL_CLOSED
                      | None => mret tt
                      end) ;;
            st ← state_of c;
            l ← get_bucket i;
            if negb (bool_decide (st = ChannelStateDisconnected)) then
              put_bucket i (no_handler (rh_id rh) <$> l) ;;
              close_replies fuel c i (Some (rh_id rh))
            else
              next ← of_option (from_cell (rh_id rh) l);
              put_bucket i (set_cell prev next l) ;;
              close_replies fuel c i prev
          else close_replies fuel c i (Some (rh_id rh))
      end
  end.

Fixpoint close_buckets (c : Z) (buckets : list nat) : M W unit :=
  match buckets with
  | [] => mret tt
  | i :: buckets =>
      l ← get_bucket i;
      close_replies (S (length l)) c i None ;;
      close_buckets c buckets
  end.

Definition channel_closed (c : Z) : M W unit :=
  modify (fun w => set_event_handlers (filter (fun eh => eh_c eh <> c) <$> w_event_handlers w) w) ;;
  free_services c ;;
  close_buckets c (seq 0 (Z.to_nat REPLY_HASH_SIZE)) ;;
  upd_channel c (set_peer_services None).

Definition notify_channel_closed (c : Z) : M W unit :=
  st ← state_of c;
  assertm (negb (bool_decide (st = ChannelStateConnected))) ;;
  ch ← get_channel c;
  if negb (c_notified_open ch) then mret tt
  else
    upd_channel c (set_notified_open false) ;;
    on_chan c ch_lock ;;
    notify_client_disconnected c ;;
    call_listeners ((fun l => match l with Some f => f | None => channel_closed end) <$> close_listeners) c ;;
    on_chan c ch_unlock.
End protocol.
