(* ===== verification/ProtocolTable.v ===== *)
(** * Protocol: the tables of handlers

    A hash table holds what a plain list holds, and a search of one of its lists
    finds what a search of the plain list finds.  So handlers are found as they
    were registered, and commands get tokens that no other pending command has. *)

From stdpp Require Import gmap.
From S2P Require Import Prelude Streams JsonRead JsonTmp ChannelTcp Protocol.

(** ** Hash tables as lists *)

Section table.
Context {A : Type} (size : Z) (hash : A -> Z).
Hypothesis hash_range : forall x, 0 <= hash x < size.

Definition bucket_of (h : Z) (l : list A) : list A := filter (fun x => hash x = h) l.
Definition table_of (l : list A) : list (list A) := (fun i => bucket_of (Z.of_nat i) l) <$> seq 0 (Z.to_nat size).

Lemma table_lookup l h : 0 <= h < size -> table_of l !! Z.to_nat h = Some (bucket_of h l).
Proof.
  intros Hh. unfold table_of. rewrite list_lookup_fmap, lookup_seq_lt by lia. cbn. by rewrite Z2Nat.id by lia.
Qed.

Lemma table_lookup_some l i b : table_of l !! i = Some b -> b = bucket_of (Z.of_nat i) l.
Proof. unfold table_of. rewrite list_lookup_fmap. intros (j & [-> _]%lookup_seq & ->)%fmap_Some. done. Qed.

Lemma table_insert l x : <[Z.to_nat (hash x) := x :: bucket_of (hash x) l]> (table_of l) = table_of (x :: l).
Proof.
  pose proof (hash_range x) as Hx. apply list_eq. intros i. destruct (decide (i = Z.to_nat (hash x))) as [->|Hne].
  - rewrite list_lookup_insert_eq by (unfold table_of; rewrite length_fmap, length_seq; lia).
    rewrite table_lookup by lia. unfold bucket_of. by rewrite filter_cons_True.
  - rewrite list_lookup_insert_ne by done. unfold table_of. rewrite !list_lookup_fmap. destruct (seq _ _ !! i) as [j|] eqn:E; [|done].
    apply lookup_seq in E as [-> _]. cbn [fmap option_fmap option_map]. unfold bucket_of. rewrite filter_cons_False; [done|lia].
Qed.

Lemma table_filter (P : A -> Prop) `{!forall x, Decision (P x)} l : filter P <$> table_of l = table_of (filter P l).
Proof.
  unfold table_of. rewrite <- list_fmap_compose. apply list_fmap_ext. intros i j _. cbn. unfold bucket_of.
  induction l as [|x l IH]; [done|]. rewrite !filter_cons. repeat (case_decide; rewrite ?filter_cons); try done; by rewrite ?IH.
Qed.

Lemma find_cons (f : A -> bool) x l : find f (x :: l) = if f x then Some x else find f l.
Proof. unfold find. cbn. destruct (f x); [done|]. by destruct (list_find f l) as [[]|]. Qed.

Lemma find_some (f : A -> bool) l x : find f l = Some x -> x ∈ l /\ f x = true.
Proof.
  induction l as [|y l IH]; [done|]. rewrite find_cons. destruct (f y) eqn:E.
  - intros [= ->]. split; [by left|done].
  - intros (H & ?)%IH. split; [by right|done].
Qed.

Lemma find_none (f : A -> bool) l : find f l = None <-> forall x, x ∈ l -> f x = false.
Proof.
  induction l as [|y l IH].
  - split; [intros _ x Hx; by apply not_elem_of_nil in Hx|done].
  - rewrite find_cons. split.
    + destruct (f y) eqn:E; [done|]. intros H x [->|Hx]%elem_of_cons; [done|]. by apply (proj1 IH).
    + intros Hx. rewrite (Hx y) by (by left). apply IH. intros x Hl. apply Hx. by right.
Qed.

(** What the search accepts is all in one list of the table. *)
Lemma bucket_find (f : A -> bool) h l : (forall x, f x = true -> hash x = h) -> find f (bucket_of h l) = find f l.
Proof.
  intros Hf. unfold bucket_of. induction l as [|x l IH]; [done|]. rewrite filter_cons, find_cons.
  case_decide as Hx; [by rewrite find_cons, IH|]. rewrite IH. destruct (f x) eqn:E; [|done]. by apply Hf in E.
Qed.

Lemma table_remove (f : A -> bool) h l : 0 <= h < size -> (forall x, f x = true -> hash x = h) ->
  <[Z.to_nat h := remove_first f (bucket_of h l)]> (table_of l) = table_of (remove_first f l).
Proof.
  intros Hh Hf. assert (HR : forall k, bucket_of k (remove_first f l) = if k =? h then remove_first f (bucket_of h l) else bucket_of k l).
  { intros k. unfold bucket_of. induction l as [|x l IH]; [by destruct (_ =? _)|]. cbn [remove_first]. rewrite !filter_cons. destruct (f x) eqn:E.
    - rewrite (Hf x E), (decide_True_pi (P := h = h) eq_refl). cbn [remove_first]. rewrite E.
      destruct (Z.eqb_spec k h) as [Ek|Hne]; [by rewrite Ek|]. by rewrite decide_False by congruence.
    - rewrite filter_cons, IH. destruct (Z.eqb_spec k h) as [Ek|Hne]; [|done]. rewrite Ek. case_decide; [|done]. cbn. by rewrite E. }
  apply list_eq. intros i. destruct (decide (i = Z.to_nat h)) as [->|Hne].
  - rewrite list_lookup_insert_eq by (unfold table_of; rewrite length_fmap, length_seq; lia).
    rewrite table_lookup by lia. by rewrite HR, Z.eqb_refl.
  - rewrite list_lookup_insert_ne by done. unfold table_of. rewrite !list_lookup_fmap. destruct (seq _ _ !! i) as [j|] eqn:E; [|done].
    apply lookup_seq in E as [-> _]. cbn. rewrite HR. destruct (Z.eqb_spec (Z.of_nat i) h); [lia|done].
Qed.
End table.

Lemma mod_range x n : 0 < n -> 0 <= x mod n < n.
Proof. apply Z.mod_pos_bound. Qed.

Lemma message_hash_range p service name : 0 <= message_hash p service name < MESSAGE_HASH_SIZE.
Proof. by apply mod_range. Qed.
Lemma event_hash_range c service name : 0 <= event_hash c service name < EVENT_HASH_SIZE.
Proof. by apply mod_range. Qed.
Lemma reply_hash_range c t : 0 <= reply_hash c t < REPLY_HASH_SIZE.
Proof. by apply mod_range. Qed.

Definition mh_hash (mh : MessageHandlerInfo) : Z := message_hash (mh_p mh) (si_name (mh_service mh)) (mh_name mh).
Definition eh_hash (eh : EventHandlerInfo) : Z := event_hash (eh_c eh) (si_name (eh_service eh)) (eh_name eh).
Definition rh_hash (rh : ReplyHandlerInfo) : Z := reply_hash (rh_c rh) (rh_tokenid rh).

Definition message_table := table_of MESSAGE_HASH_SIZE mh_hash.
Definition event_table := table_of EVENT_HASH_SIZE eh_hash.
Definition reply_table := table_of REPLY_HASH_SIZE rh_hash.

Lemma match_message_hash p service name mh : match_message p service name mh = true -> mh_hash mh = message_hash p service name.
Proof. unfold match_message, mh_hash. intros [[->%Z.eqb_eq ->%bool_decide_eq_true]%andb_prop ->%bool_decide_eq_true]%andb_prop. done. Qed.
Lemma match_event_hash c service name eh : match_event c service name eh = true -> eh_hash eh = event_hash c service name.
Proof. unfold match_event, eh_hash. intros [[->%Z.eqb_eq ->%bool_decide_eq_true]%andb_prop ->%bool_decide_eq_true]%andb_prop. done. Qed.
Lemma match_reply_iff c t rh : match_reply c t rh = true <-> (rh_c rh, rh_tokenid rh) = (c, t).
Proof.
  unfold match_reply. rewrite andb_true_iff, !Z.eqb_eq. split; [by intros [-> ->]|]. by intros [= -> ->].
Qed.
Lemma match_reply_hash c t rh : match_reply c t rh = true -> rh_hash rh = reply_hash c t.
Proof. unfold rh_hash. by intros [= -> ->]%match_reply_iff. Qed.

(** ** Registration *)

Section registry.
Context {Ch U : Type} `{InputStream Ch} `{OutputStream Ch} `{ChannelIf Ch} `{Handlers Ch U}.

Abbreviation W := (World Ch U).

(** The static variables of the module. *)
Definition start_world (u : U) : W :=
  Build_World [] (replicate (Z.to_nat MESSAGE_HASH_SIZE) []) (replicate (Z.to_nat EVENT_HASH_SIZE) [])
    (replicate (Z.to_nat REPLY_HASH_SIZE) []) ∅ 0 ∅ [] [] 1 tmp_buf_init u.

Lemma find_message_ok p service name (w : W) l : w_message_handlers w = message_table l ->
  find_message_handler p service name w = find (match_message p service name) l.
Proof.
  intros E. unfold find_message_handler, message_table in *. rewrite E, table_lookup by apply message_hash_range. cbn [mbind option_bind].
  apply bucket_find. intros mh. apply match_message_hash.
Qed.

Lemma find_handler_ok c service name (w : W) l : w_event_handlers w = event_table l ->
  find_event_handler c service name w = find (match_event c service name) l.
Proof.
  intros E. unfold find_event_handler, event_table in *. rewrite E, table_lookup by apply event_hash_range. cbn [mbind option_bind].
  apply bucket_find. intros eh. apply match_event_hash.
Qed.

(** What [protocol_get_service] returns, and how the list changes. *)
Lemma get_service_ok owner name (w : W) : name <> str "ZeroCopy" -> NoDup (w_services w) ->
  exists l, protocol_get_service owner name w = (Ok (Build_ServiceInfo owner name), set_services l w) /\ NoDup l /\
    Build_ServiceInfo owner name ∈ l /\ (forall s, s ∈ w_services w -> s ∈ l) /\
    (forall s, s ∈ l -> s ∈ w_services w \/ s = Build_ServiceInfo owner name).
Proof.
  intros Hn Hd. unfold protocol_get_service. rewrite (bind_ok get _ w w w eq_refl).
  destruct (find_service owner name (w_services w)) as [s|] eqn:E.
  - apply find_some in E as [Hs [Ho%Z.eqb_eq Hm%bool_decide_eq_true]%andb_prop]. destruct s as [o m]. cbn in *. subst.
    exists (w_services w). split; [by destruct w|]. split; [done|]. split; [done|]. split; [done|]. intros s Hs'. by left.
  - unfold find_service in E. rewrite find_none in E. rewrite bool_decide_eq_true_2 by done. cbn [assertm]. rewrite ret_bind.
    exists (Build_ServiceInfo owner name :: w_services w). split; [done|]. split.
    + constructor; [|done]. intros Hin. apply E in Hin. cbn in Hin. by rewrite Z.eqb_refl, bool_decide_eq_true_2 in Hin.
    + split; [by left|]. split; [by right|]. intros s [->|Hs]%elem_of_cons; [by right|by left].
Qed.

(** What a client of the module may do. *)
Inductive reg_op :=
| RegCommand (p : Z) (service name : bytes) (handler client_data : Z)
| RegEvent (c : Z) (service name : bytes) (handler client_data : Z)
| RegAlloc
| RegReference (p : Z)
| RegRelease (p : Z).

(** A protocol that does not exist any more is left alone. *)
Definition run_reg (op : reg_op) : M W unit :=
  match op with
  | RegCommand p service name h d => add_command_handler2 p service name h d
  | RegEvent c service name h d => add_event_handler2 c service name h d
  | RegAlloc => protocol_alloc ;; mret tt
  | RegReference p => w ← get; if bool_decide (w_protocols w !! p = None) then mret tt else protocol_reference p
  | RegRelease p => w ← get; if bool_decide (w_protocols w !! p = None) then mret tt else protocol_release p
  end.

Fixpoint run_regs (ops : list reg_op) : M W unit :=
  match ops with
  | [] => mret tt
  | op :: ops => run_reg op ;; run_regs ops
  end.

(** The abstract registry: the handlers, newest first, and who is locked. *)
Record Registry := {
  rg_commands : list MessageHandlerInfo;
  rg_events : list EventHandlerInfo;
  rg_locks : gmap Z Z;
  rg_next : Z;
}.

Definition reg_step (op : reg_op) (r : Registry) : Registry :=
  match op with
  | RegCommand p service name h d =>
      Build_Registry (Build_MessageHandlerInfo p (Build_ServiceInfo p service) name h d :: rg_commands r) (rg_events r) (rg_locks r) (rg_next r)
  | RegEvent c service name h d =>
      Build_Registry (rg_commands r) (Build_EventHandlerInfo c (Build_ServiceInfo c service) name h d :: rg_events r) (rg_locks r) (rg_next r)
  | RegAlloc => Build_Registry (rg_commands r) (rg_events r) (<[rg_next r := 1]> (rg_locks r)) (rg_next r + 1)
  | RegReference p =>
      match rg_locks r !! p with
      | None => r
      | Some n => Build_Registry (rg_commands r) (rg_events r) (<[p := n + 1]> (rg_locks r)) (rg_next r)
      end
  | RegRelease p =>
      match rg_locks r !! p with
      | None => r
      | Some n =>
          if n =? 1 then
            Build_Registry (filter (fun mh => mh_p mh <> p) (rg_commands r)) (rg_events r) (delete p (rg_locks r)) (rg_next r)
          else Build_Registry (rg_commands r) (rg_events r) (<[p := n - 1]> (rg_locks r)) (rg_next r)
      end
  end.

Definition reg_run (ops : list reg_op) : Registry -> Registry := fold_left (fun r op => reg_step op r) ops.
Definition reg_start : Registry := Build_Registry [] [] ∅ 1.

Definition reg_op_ok (op : reg_op) : Prop :=
  match op with
  | RegCommand _ service _ _ _ | RegEvent _ service _ _ _ => service <> str "ZeroCopy"
  | _ => True
  end.

Record registers (w : W) (r : Registry) : Prop := {
  rs_commands : w_message_handlers w = message_table (rg_commands r);
  rs_events : w_event_handlers w = event_table (rg_events r);
  rs_locks : p_lock_cnt <$> w_protocols w = rg_locks r;
  rs_next : w_brk w = rg_next r;
  rs_positive : map_Forall (fun _ n => 0 < n) (rg_locks r);
  rs_nodup : NoDup (w_services w);
  rs_services : Forall (fun mh => mh_service mh ∈ w_services w /\ si_owner (mh_service mh) = mh_p mh) (rg_commands r);
}.

Lemma add_command_ok p service name h d (w : W) r : service <> str "ZeroCopy" -> registers w r ->
  exists w', add_command_handler2 p service name h d w = (Ok tt, w') /\ registers w' (reg_step (RegCommand p service name h d) r).
Proof.
  intros Hn []. unfold add_command_handler2. destruct (get_service_ok p service w Hn) as (l & E & Hd & Hin & Hold & _); [done|].
  rewrite (bind_ok _ _ _ _ _ E), (bind_ok get _ _ _ _ eq_refl). cbn [w_message_handlers set_services]. rewrite rs_commands0.
  unfold message_table. rewrite table_lookup by apply message_hash_range. cbn [of_option]. rewrite ret_bind. eexists. split; [reflexivity|].
  constructor; cbn; try done.
  - apply (table_insert _ mh_hash (fun x => message_hash_range _ _ _) _ (Build_MessageHandlerInfo p (Build_ServiceInfo p service) name h d)).
  - constructor; [done|]. eapply Forall_impl; [exact rs_services0|]. intros mh [H3 H4]. split; [by apply Hold|done].
Qed.

Lemma add_event_ok c service name h d (w : W) r : service <> str "ZeroCopy" -> registers w r ->
  exists w', add_event_handler2 c service name h d w = (Ok tt, w') /\ registers w' (reg_step (RegEvent c service name h d) r).
Proof.
  intros Hn []. unfold add_event_handler2. destruct (get_service_ok c service w Hn) as (l & E & Hd & Hin & Hold & _); [done|].
  rewrite (bind_ok _ _ _ _ _ E), (bind_ok get _ _ _ _ eq_refl). cbn [w_event_handlers set_services]. rewrite rs_events0.
  unfold event_table. rewrite table_lookup by apply event_hash_range. cbn [of_option]. rewrite ret_bind. eexists. split; [reflexivity|].
  constructor; cbn; try done.
  - apply (table_insert _ eh_hash (fun x => event_hash_range _ _ _) _ (Build_EventHandlerInfo c (Build_ServiceInfo c service) name h d)).
  - eapply Forall_impl; [exact rs_services0|]. intros mh [H3 H4]. split; [by apply Hold|done].
Qed.

Lemma get_protocol_ok p x (w : W) : w_protocols w !! p = Some x -> get_protocol p w = (Ok x, w).
Proof. intros E. unfold get_protocol. rewrite (bind_ok get _ w w w eq_refl), E. done. Qed.

Lemma release_ok p (w : W) r : registers w r ->
  exists w', run_reg (RegRelease p) w = (Ok tt, w') /\ registers w' (reg_step (RegRelease p) r).
Proof.
  intros Hr. pose proof Hr as []. cbn [run_reg reg_step]. rewrite (bind_ok get _ w w w eq_refl).
  assert (EL : rg_locks r !! p = p_lock_cnt <$> w_protocols w !! p) by (by rewrite <- rs_locks0, lookup_fmap). rewrite EL.
  destruct (w_protocols w !! p) as [x|] eqn:EP; cbn [fmap option_fmap option_map]; [|rewrite bool_decide_eq_true_2 by done; by exists w].
  rewrite bool_decide_eq_false_2 by done. assert (Hx : 0 < p_lock_cnt x) by (by apply (rs_positive0 p); rewrite EL).
  unfold protocol_release. rewrite (bind_ok _ _ _ _ _ (get_protocol_ok p x w EP)). replace (0 <? p_lock_cnt x) with true by lia.
  cbn [assertm]. rewrite ret_bind. destruct (Z.eqb_spec (p_lock_cnt x) 1) as [E1|E1].
  - rewrite E1. cbn [negb Z.sub Z.opp Z.add Z.pos_sub Z.eqb]. eexists. split; [reflexivity|].
    constructor; cbn; try done.
    + rewrite rs_commands0. apply table_filter.
    + by rewrite <- rs_locks0, delete_insert_eq, <- fmap_delete.
    + by apply map_Forall_delete.
    + by apply NoDup_filter.
    + apply Forall_forall. intros mh [Hp Hin]%list_elem_of_filter. rewrite Forall_forall in rs_services0.
      destruct (rs_services0 mh Hin) as [H3 H4]. split; [|done]. apply list_elem_of_filter. split; [congruence|done].
  - replace (p_lock_cnt x - 1 =? 0) with false by lia. cbn [negb]. eexists. split; [reflexivity|].
    constructor; cbn; try done.
    + by rewrite fmap_insert, rs_locks0.
    + apply map_Forall_insert_2; [lia|done].
Qed.

Lemma reg_ok op (w : W) r : reg_op_ok op -> registers w r ->
  exists w', run_reg op w = (Ok tt, w') /\ registers w' (reg_step op r).
Proof.
  intros Ho Hr. destruct op as [p service name h d|c service name h d| |p|p].
  - by apply add_command_ok.
  - by apply add_event_ok.
  - pose proof Hr as []. eexists. split; [reflexivity|]. constructor; cbn; try done.
    + by rewrite fmap_insert, rs_locks0, rs_next0.
    + by rewrite rs_next0.
    + by apply map_Forall_insert_2.
  - pose proof Hr as []. cbn [run_reg reg_step]. rewrite (bind_ok get _ w w w eq_refl).
    assert (EL : rg_locks r !! p = p_lock_cnt <$> w_protocols w !! p) by (by rewrite <- rs_locks0, lookup_fmap). rewrite EL.
    destruct (w_protocols w !! p) as [x|] eqn:EP; cbn [fmap option_fmap option_map]; [|rewrite bool_decide_eq_true_2 by done; by exists w].
    rewrite bool_decide_eq_false_2 by done. assert (Hx : 0 < p_lock_cnt x) by (by apply (rs_positive0 p); rewrite EL).
    unfold protocol_reference. rewrite (bind_ok _ _ _ _ _ (get_protocol_ok p x w EP)). replace (0 <? p_lock_cnt x) with true by lia.
    eexists. split; [reflexivity|]. constructor; cbn; try done.
    + by rewrite fmap_insert, rs_locks0.
    + apply map_Forall_insert_2; [lia|done].
  - by apply release_ok.
Qed.

Lemma table_start {A} (hash : A -> Z) n : replicate n [] = (fun i => bucket_of hash (Z.of_nat i) []) <$> seq 0 n.
Proof. rewrite (list_fmap_ext _ (fun _ => [])) by done. generalize 0%nat. induction n as [|n IH]; intros k; [done|]. cbn. f_equal. apply IH. Qed.

Lemma start_registers u : registers (start_world u) reg_start.
Proof.
  constructor; [apply (table_start mh_hash)|apply (table_start eh_hash)|apply fmap_empty|done|done|constructor|constructor].
Qed.

Lemma regs_ok ops : Forall reg_op_ok ops -> forall (w : W) r, registers w r ->
  exists w', run_regs ops w = (Ok tt, w') /\ registers w' (reg_run ops r).
Proof.
  induction 1 as [|op ops Ho _ IH]; intros w r Hr; [by exists w|]. destruct (reg_ok op w r Ho Hr) as (w1 & E1 & H1').
  cbn [run_regs]. rewrite (bind_ok _ _ _ _ _ E1). by apply IH.
Qed.

(** C15: After any registrations and releases a command or event is given to the
    handler that was registered last for its service and name and whose protocol
    has not been released; the hash tables, whatever their collisions, implement
    that list, protocols live as long as they are locked, and every service is
    announced once. *)
Theorem protocol_registry u ops : Forall reg_op_ok ops ->
  let r := reg_run ops reg_start in
  exists w, run_regs ops (start_world u) = (Ok tt, w) /\
    (forall p service name, find_message_handler p service name w = find (match_message p service name) (rg_commands r)) /\
    (forall c service name, find_event_handler c service name w = find (match_event c service name) (rg_events r)) /\
    (forall p, p_lock_cnt <$> w_protocols w !! p = rg_locks r !! p) /\
    NoDup (w_services w) /\ Forall (fun mh => mh_service mh ∈ w_services w) (rg_commands r).
Proof.
  intros Ho r. destruct (regs_ok ops Ho (start_world u) reg_start (start_registers u)) as (w & E & []). exists w. split; [done|].
  split; [intros; by apply find_message_ok|]. split; [intros; by apply find_handler_ok|]. split; [|split; [done|]].
  - intros p. by rewrite <- lookup_fmap, rs_locks0.
  - eapply Forall_impl; [exact rs_services0|]. by intros mh [? _].
Qed.
End registry.
