(* ===== verification/ProtocolMsg.v ===== *)
(** * Protocol: messages

    What the protocol relies on of a channel, [ChannelSpec], and which handler a
    message gets to, with the stream at its arguments. *)

From stdpp Require Import gmap.
From S2P Require Import Prelude Streams JsonWrite JsonRead JsonReadSpec JsonRoundTrip JsonTmp ChannelTcp Protocol ProtocolTable.

(** ** Channels *)

(** What a reader does not change. *)
Definition channel_out {Ch} `{OutputStreamSpec Ch} `{!ChannelIf Ch} (s : Ch) : list Z * bool * ChannelState :=
  (os_data s, os_supports_zero_copy s, ch_state s).

(** A channel that can be read and written: the input does not disturb the
    output, and neither changes the state. *)
Class ChannelSpec (Ch : Type) `{InputStreamSpec Ch} `{OutputStreamSpec Ch} `{!ChannelIf Ch} := {
  cs_eom : os_symbol MARKER_EOM;
  cs_read : forall s x s', is_wf s -> os_wf s -> read_stream s = (Ok x, s') ->
    os_wf s' /\ channel_out s' = channel_out s;
  cs_peek : forall s x s', is_wf s -> os_wf s -> peek_stream s = (Ok x, s') ->
    os_wf s' /\ channel_out s' = channel_out s;
  cs_store : forall l s s', os_wf s -> os_store l s = (Ok tt, s') -> ch_state s' = ch_state s;
  cs_write : forall b s s', os_wf s -> os_write b s = (Ok tt, s') -> ch_state s' = ch_state s;
  cs_block : forall l s s', os_wf s -> os_write_block l s = (Ok tt, s') -> ch_state s' = ch_state s;
  cs_closed : forall s, os_wf s -> ch_is_closed s = (Ok (disconnected (ch_state s)), s);
  cs_state : forall x s, disconnected x = false -> os_wf s ->
    os_wf (set_ch_state x s) /\ channel_out (set_ch_state x s) = (os_data s, os_supports_zero_copy s, x) /\
    (is_wf s -> is_wf (set_ch_state x s) /\ is_data (set_ch_state x s) = is_data s /\ is_mark (set_ch_state x s) = is_mark s);
  cs_zero_copy : forall x s, os_wf s ->
    os_wf (set_ch_zero_copy x s) /\ channel_out (set_ch_zero_copy x s) = (os_data s, x, ch_state s) /\
    (is_wf s -> is_wf (set_ch_zero_copy x s) /\ is_data (set_ch_zero_copy x s) = is_data s /\
       is_mark (set_ch_zero_copy x s) = is_mark s);
}.

(** ** Reading a name *)

Section names.
Context {Ch : Type} `{InputStreamSpec Ch}.

Lemma reads_stringz_loop size l : cstring l -> forall fuel acc, (length l < fuel)%nat ->
  zlen (acc ++ l) < size -> reads (read_stringz_loop fuel size acc) (acc ++ l) (l ++ [0]) anything.
Proof.
  induction 1 as [|b l Hb Hl IH]; intros fuel acc Hf Hs; destruct fuel as [|fuel]; try (simpl in Hf; lia); cbn [read_stringz_loop app].
  - rewrite app_nil_r. apply (reads_bind _ _ 0 _ [0] [] anything); [apply reads_stream| |done]. apply reads_ret.
  - apply (reads_bind _ _ b _ [b] (l ++ [0]) anything); [apply reads_stream| |by destruct l].
    replace (b <=? 0) with false by lia. rewrite zlen_app, zlen_cons in Hs. pose proof (zlen_nonneg l).
    replace (zlen acc <? size - 1) with true by lia. change (acc ++ b :: l) with (acc ++ [b] ++ l). rewrite app_assoc.
    apply IH; [simpl in Hf; lia|]. rewrite !zlen_app. change (zlen [b]) with 1. lia.
Qed.

Lemma reads_stringz size l : cstring l -> zlen l < size -> reads (read_stringz size) l (l ++ [0]) anything.
Proof.
  intros Hl Hs. apply reads_with_fuel. intros fuel HF. apply (reads_stringz_loop size l Hl fuel []); [|done].
  rewrite length_app in HF. simpl in HF. lia.
Qed.
End names.

(** ** The channels of a world *)

Section lift.
Context {Ch U : Type} `{ChannelSpec Ch}.

Abbreviation W := (World Ch U).

(** [w], where the transport of the channel at [c] is in the state [s]. *)
Definition with_trans (c : Z) (ch : Channel Ch) (s : Ch) (w : W) : W :=
  set_channels (<[c := set_c_trans s ch]> (w_channels w)) w.

Lemma with_trans_id c ch (w : W) : w_channels w !! c = Some ch -> with_trans c ch (c_trans ch) w = w.
Proof.
  intros E. unfold with_trans. replace (set_c_trans (c_trans ch) ch) with ch by (by destruct ch). rewrite insert_id by done. by destruct w.
Qed.

Lemma with_trans_lookup c ch s (w : W) : w_channels (with_trans c ch s w) !! c = Some (set_c_trans s ch).
Proof. cbn. by rewrite lookup_insert_eq. Qed.

Lemma with_trans_twice c ch s s' (w : W) :
  set_channels (<[c := set_c_trans s' (set_c_trans s ch)]> (w_channels (with_trans c ch s w))) (with_trans c ch s w) = with_trans c ch s' w.
Proof. unfold with_trans, set_channels. cbn. by rewrite insert_insert_eq. Qed.

Lemma on_chan_at {A} (m : M Ch A) c ch s r s' (w : W) : m s = (r, s') ->
  on_chan c m (with_trans c ch s w) = (r, with_trans c ch s' w).
Proof. intros E. unfold on_chan. rewrite with_trans_lookup. cbn [c_trans set_c_trans]. rewrite E. by rewrite with_trans_twice. Qed.

Lemma get_channel_at c ch s (w : W) : get_channel c (with_trans c ch s w) = (Ok (set_c_trans s ch), with_trans c ch s w).
Proof. unfold get_channel. rewrite (bind_ok get _ _ _ _ eq_refl). by rewrite with_trans_lookup. Qed.

Lemma state_of_at c ch s (w : W) : state_of c (with_trans c ch s w) = (Ok (ch_state s), with_trans c ch s w).
Proof. unfold state_of. by rewrite (bind_ok _ _ _ _ _ (get_channel_at c ch s w)). Qed.

(** What a reader of names does to the input, with the rest as it is. *)
Program Definition chan_frame (out : list Z * bool * ChannelState) : InputStreamSpec Ch := {|
  is_wf s := is_wf s /\ os_wf s /\ channel_out s = out;
  is_data := is_data;
  is_mark := is_mark;
|}.
Next Obligation. intros out s [Hs _]. exact (is_data_bytes _ Hs). Qed.
Next Obligation. intros out s [Hs _]. exact (is_mark_neg _ Hs). Qed.
Next Obligation. intros out s [Hs _]. exact (is_data_fuel _ Hs). Qed.
Next Obligation.
  intros out s b l (Hs & Ho & Hd) D. destruct (read_cons _ _ _ Hs D) as (s' & E & ? & ? & ?).
  destruct (cs_read _ _ _ Hs Ho E) as (? & ?). exists s'. split_and!; auto; congruence.
Qed.
Next Obligation. intros out s (Hs & _) D. destruct (read_nil _ Hs D) as (s' & E). by exists s'. Qed.
Next Obligation.
  intros out s b l (Hs & Ho & Hd) D. destruct (peek_cons _ _ _ Hs D) as (s' & E & ? & ? & ?).
  destruct (cs_peek _ _ _ Hs Ho E) as (? & ?). exists s'. split_and!; auto; congruence.
Qed.
Next Obligation.
  intros out s (Hs & Ho & Hd) D. destruct (peek_nil _ Hs D) as (s' & E & ? & ? & ?).
  destruct (cs_peek _ _ _ Hs Ho E) as (? & ?). exists s'. split_and!; auto; congruence.
Qed.
Next Obligation. intros out s b w [Hs _] D. exact (window_advance _ _ _ Hs D). Qed.

(** The channel can be read: [data] comes next; nothing else has changed since [s0]. *)
Definition reading (s0 : Ch) (data : bytes) (s : Ch) : Prop :=
  (is_wf s /\ os_wf s /\ channel_out s = channel_out s0) /\ is_data s = data /\ is_mark s = is_mark s0.

Lemma reading_start s : is_wf s -> os_wf s -> reading s (is_data s) s.
Proof. done. Qed.

Lemma reading_state s0 data s : reading s0 data s -> ch_state s = ch_state s0.
Proof. intros ((_ & _ & E) & _). exact (f_equal snd E). Qed.

Lemma on_chan_reads {A} (m : M Ch A) a l s0 rest s c ch (w : W) :
  (forall out, @reads Ch _ (chan_frame out) _ m a l anything) -> reading s0 (l ++ rest) s ->
  exists s', reading s0 rest s' /\ on_chan c m (with_trans c ch s w) = (Ok a, with_trans c ch s' w).
Proof.
  intros Hm ((Hw & Ho & Hd) & HD & HM). destruct (Hm (channel_out s0) s rest) as (s' & E & Hs' & HD' & HM'); [done..|].
  destruct Hs' as (Hw' & Ho' & Hd'). cbn in HD', HM'.
  exists s'. split; [split_and!; try done; congruence|]. by apply on_chan_at.
Qed.

(** [skip_until_EOM] reads the rest of the message. *)
Lemma skip_loop_ok s0 : forall data fuel s, reading s0 data s -> is_mark s0 = MARKER_EOM -> (length data < fuel)%nat ->
  exists s', skip_until_EOM_loop fuel s = (Ok tt, s') /\ os_wf s' /\ channel_out s' = channel_out s0.
Proof.
  induction data as [|b data IH]; intros fuel s ((Hw & Ho & Hd) & HD & HM) HZ Hf; destruct fuel as [|fuel]; try (simpl in Hf; lia);
    cbn [skip_until_EOM_loop].
  - destruct (read_nil s Hw HD) as (s' & E). destruct (cs_read _ _ _ Hw Ho E) as (Ho' & Hd'). rewrite (bind_ok _ _ _ _ _ E), HM, HZ.
    exists s'. split; [done|]. split_and!; try done; congruence.
  - destruct (read_cons s b data Hw HD) as (s' & E & Hw' & HD' & HM'). destruct (cs_read _ _ _ Hw Ho E) as (Ho' & Hd').
    rewrite (bind_ok _ _ _ _ _ E). pose proof (is_data_bytes s Hw) as HB. rewrite HD in HB. inversion HB as [|? ? Hb]; subst.
    unfold is_byte in Hb. unfold MARKER_EOM, MARKER_EOS. replace (b =? -1) with false by lia. replace (b =? -2) with false by lia. cbn [orb].
    apply IH; [|done|simpl in Hf; lia]. split_and!; try done; congruence.
Qed.

Lemma skip_ok s0 data s : reading s0 data s -> is_mark s0 = MARKER_EOM ->
  exists s', skip_until_EOM s = (Ok tt, s') /\ os_wf s' /\ channel_out s' = channel_out s0.
Proof.
  intros Hr Hm. unfold skip_until_EOM, with_fuel. apply (skip_loop_ok s0 data); [done..|]. destruct Hr as ((Hw & _) & HD & _).
  pose proof (is_data_fuel s Hw) as HF. by rewrite HD in HF.
Qed.
End lift.

(** ** Dispatch *)

Section dispatch.
Context {Ch U : Type} `{ChannelSpec Ch} `{!Handlers Ch U}.

Abbreviation W := (World Ch U).

(** A handler runs under a trap; its error is raised again. *)
Definition finish (m : M W unit) : M W unit := e ← try_trap m; if e =? 0 then mret tt else exception e.

(** The text of a message before its arguments. *)
Definition command_text (token service name : bytes) : bytes :=
  str "C" ++ [0] ++ token ++ [0] ++ service ++ [0] ++ name ++ [0].
Definition reply_text (t : Z) (token : bytes) : bytes := [t; 0] ++ token ++ [0].
Definition event_text (service name : bytes) : bytes := str "E" ++ [0] ++ service ++ [0] ++ name ++ [0].

(** A name that fits into the arrays of [handle_protocol_message]. *)
Definition short (l : bytes) : Prop := cstring l /\ zlen l < 256.

Lemma read_name l s0 rest s c ch (w : W) : short l -> reading s0 (l ++ [0] ++ rest) s ->
  exists s', reading s0 rest s' /\ on_chan c (read_stringz 256) (with_trans c ch s w) = (Ok l, with_trans c ch s' w).
Proof.
  intros [Hl Hz] Hr. rewrite app_assoc in Hr. apply (on_chan_reads _ _ (l ++ [0]) s0); [|done].
  intros out. by apply @reads_stringz.
Qed.

Lemma read_type t s0 rest s c ch (w : W) : 0 < t < 256 -> reading s0 ([t; 0] ++ rest) s ->
  exists s', reading s0 rest s' /\ on_chan c (read_stringz 8) (with_trans c ch s w) = (Ok [t], with_trans c ch s' w).
Proof.
  intros Ht Hr. apply (on_chan_reads _ _ ([t] ++ [0]) s0); [|done].
  intros out. apply @reads_stringz; [|done]. constructor; [done|constructor].
Qed.

(** What is done with a command whose handler has been looked for. *)
Definition call_command (c p : Z) (token service name : bytes) (mh : option MessageHandlerInfo) : M W unit :=
  match mh with
  | Some mh => command_handler (mh_handler mh) token c (mh_client_data mh)
  | None =>
      x ← get_protocol p;
      match p_default_handler x with
      | Some f => default_handler f c [str "C"; token; service; name] (p_client_data x)
      | None => send_N c token
      end
  end.

(** A command whose names fit gets to the handler registered for it, with the
    stream at its arguments; before the handshake it is rejected. *)
Lemma command_dispatch token service name args s0 s c ch (w : W) : short token -> short service -> short name ->
  reading s0 (command_text token service name ++ args) s ->
  exists s', reading s0 args s' /\
  handle_protocol_message c (with_trans c ch s w) =
    (if bool_decide (ch_state s0 = ChannelStateConnected)
     then finish (call_command c (c_protocol ch) token service name (find_message_handler (c_protocol ch) service name w))
     else send_N c token) (with_trans c ch s' w).
Proof.
  intros Ht Hs Hn Hr. unfold command_text in Hr. rewrite <- !app_assoc in Hr.
  destruct (read_type #"C" s0 (token ++ [0] ++ service ++ [0] ++ name ++ [0] ++ args) s c ch w) as (s1 & R1 & E1); [done..|].
  destruct (read_name token s0 _ s1 c ch w Ht R1) as (s2 & R2 & E2).
  destruct (read_name service s0 _ s2 c ch w Hs R2) as (s3 & R3 & E3).
  destruct (read_name name s0 _ s3 c ch w Hn R3) as (s4 & R4 & E4). exists s4. split; [exact R4|].
  unfold handle_protocol_message. rewrite (bind_ok _ _ _ _ _ (get_channel_at c ch s w)).
  cbn [c_protocol set_c_trans]. rewrite (bind_ok _ _ _ _ _ E1). cbv iota. change (#"C" =? #"C") with true. cbv iota.
  unfold handle_command. rewrite !bind_assoc, (bind_ok _ _ _ _ _ E2), bind_assoc, (bind_ok _ _ _ _ _ E3), bind_assoc, (bind_ok _ _ _ _ _ E4).
  rewrite bind_assoc, (bind_ok _ _ _ _ _ (state_of_at c ch s4 w)). pose proof (reading_state _ _ _ R4) as Hst. rewrite Hst.
  destruct (decide (ch_state s0 = ChannelStateConnected)) as [EC|EC].
  - rewrite bool_decide_eq_true_2 by done. cbn [negb]. reflexivity.
  - rewrite bool_decide_eq_false_2 by done. cbn [negb]. rewrite bind_assoc. rewrite <- (bind_ret (send_N c token)). 
    unfold mbind, M_bind. destruct (send_N c token _) as [[[]| | |] ?]; reflexivity.
Qed.

(** What is done with the reply to [rh]. *)
Definition call_reply (c t : Z) (rh : ReplyHandlerInfo) : M W unit :=
  if t =? #"P" then
    match rh_progress rh with
    | Some f => progress_handler f c (rh_client_data rh)
    | None => on_chan c skip_until_EOM
    end
  else
    n ← (if t =? #"N" then on_chan c skip_until_EOM ;; mret ERR_INV_COMMAND else mret 0);
    match rh_handler rh with
    | Some f => reply_handler f c (rh_client_data rh) n
    | None => on_chan c skip_until_EOM
    end.

Definition is_reply (t : Z) : Prop := t = #"R" \/ t = #"P" \/ t = #"N".

(** A final reply takes the command that waits for its token off the table. *)
Lemma reply_dispatch t token id rest s0 s c ch (w : W) l rh : is_reply t -> short token -> strtoul token = Some id ->
  reading s0 (reply_text t token ++ rest) s -> w_reply_handlers w = reply_table l -> find (match_reply c id) l = Some rh ->
  exists s', reading s0 rest s' /\
  handle_protocol_message c (with_trans c ch s w) =
    finish (call_reply c t rh) (with_trans c ch s'
      (set_reply_handlers (reply_table (if t =? #"P" then l else Protocol.remove_first (match_reply c id) l)) w)).
Proof.
  intros Ht Hs Hid Hr HW HF. unfold reply_text in Hr. rewrite <- !app_assoc in Hr.
  destruct (read_type t s0 (token ++ [0] ++ rest) s c ch w) as (s1 & R1 & E1); [destruct Ht as [-> |[-> | ->]]; done|done|].
  destruct (read_name token s0 _ s1 c ch w Hs R1) as (s2 & R2 & E2). exists s2. split; [exact R2|].
  unfold handle_protocol_message. rewrite (bind_ok _ _ _ _ _ (get_channel_at c ch s w)).
  cbn [c_protocol set_c_trans]. rewrite (bind_ok _ _ _ _ _ E1). cbv iota.
  replace (t =? #"C") with false by (destruct Ht as [-> |[-> | ->]]; done).
  replace ((t =? #"R") || (t =? #"P") || (t =? #"N")) with true by (destruct Ht as [-> |[-> | ->]]; done). cbv iota.
  unfold handle_reply. rewrite bind_assoc, (bind_ok _ _ _ _ _ E2), Hid.
  assert (EF : find_reply_handler c id (negb (t =? #"P")) (with_trans c ch s2 w) = (Ok (Some rh), with_trans c ch s2
      (set_reply_handlers (reply_table (if t =? #"P" then l else Protocol.remove_first (match_reply c id) l)) w))).
  { unfold find_reply_handler. rewrite (bind_ok get _ _ _ _ eq_refl). cbn [with_trans w_reply_handlers set_channels]. rewrite HW.
    unfold reply_table. rewrite table_lookup by apply reply_hash_range. cbn [of_option]. rewrite ret_bind.
    rewrite bucket_find by (intros x; apply match_reply_hash). rewrite HF.
    destruct (t =? #"P"); cbn [negb]; [rewrite ret_bind; f_equal; change (table_of REPLY_HASH_SIZE rh_hash l) with (reply_table l); rewrite <- HW; by destruct w|].
    rewrite (bind_ok (modify _) _ _ tt _ eq_refl). rewrite table_remove; [done|apply reply_hash_range|intros x; apply match_reply_hash]. }
  unfold finish, try_trap. unfold mbind at 1 3, M_bind at 1 3. rewrite (bind_ok _ _ _ _ _ EF). reflexivity.
Qed.

(** An event gets to its handler; [Hello] before the channel is connected is the
    handshake. *)
Definition call_event (c p : Z) (service name : bytes) (eh : option EventHandlerInfo) : M W unit :=
  match eh with
  | Some eh => event_handler (eh_handler eh) c (eh_client_data eh)
  | None =>
      x ← get_protocol p;
      match p_default_handler x with
      | Some f => default_handler f c [str "E"; service; name] (p_client_data x)
      | None => on_chan c skip_until_EOM
      end
  end.

Lemma event_dispatch service name args s0 s c ch (w : W) : short service -> short name ->
  reading s0 (event_text service name ++ args) s ->
  exists s', reading s0 args s' /\
  handle_protocol_message c (with_trans c ch s w) =
    finish (if (bool_decide (ch_state s0 = ChannelStateStarted) || bool_decide (ch_state s0 = ChannelStateHelloSent)) &&
       bool_decide (service = LOCATOR) && bool_decide (name = str "Hello")
      then event_locator_hello c
      else call_event c (c_protocol ch) service name (find_event_handler c service name w)) (with_trans c ch s' w).
Proof.
  intros Hs Hn Hr. unfold event_text in Hr. rewrite <- !app_assoc in Hr.
  destruct (read_type #"E" s0 (service ++ [0] ++ name ++ [0] ++ args) s c ch w) as (s1 & R1 & E1); [done..|].
  destruct (read_name service s0 _ s1 c ch w Hs R1) as (s2 & R2 & E2).
  destruct (read_name name s0 _ s2 c ch w Hn R2) as (s3 & R3 & E3). exists s3. split; [exact R3|].
  unfold handle_protocol_message. rewrite (bind_ok _ _ _ _ _ (get_channel_at c ch s w)).
  cbn [c_protocol set_c_trans]. rewrite (bind_ok _ _ _ _ _ E1). cbv iota. change (#"E" =? #"C") with false.
  change ((#"E" =? #"R") || (#"E" =? #"P") || (#"E" =? #"N")) with false. change (#"E" =? #"E") with true. cbv iota.
  unfold handle_event. rewrite !bind_assoc, (bind_ok _ _ _ _ _ E2), bind_assoc, (bind_ok _ _ _ _ _ E3).
  unfold finish, try_trap. unfold mbind at 1 3, M_bind at 1 3. rewrite (bind_ok _ _ _ _ _ (state_of_at c ch s3 w)).
  pose proof (reading_state _ _ _ R3) as Hst. rewrite Hst. destruct (_ && _ && _); reflexivity.
Qed.
End dispatch.
