(* ===== verification/ProtocolSend.v ===== *)
(** * Protocol: commands and replies

    A command that is sent gets a token that no pending command of its channel
    has; at the other end it gets to the handler of its name, and the reply with
    that token gets to the call back of the command, once. *)

From stdpp Require Import gmap.
From S2P Require Import Prelude Streams JsonWrite JsonRead JsonReadSpec JsonRoundTrip JsonTmp ChannelTcp Protocol ProtocolTable ProtocolMsg.

(** ** Pending commands *)

Definition rh_key (rh : ReplyHandlerInfo) : Z * Z := (rh_c rh, rh_tokenid rh).

(** The commands that wait for a reply: one for each channel and token. *)
Definition waiting {Ch U} (w : World Ch U) (l : list ReplyHandlerInfo) : Prop :=
  w_reply_handlers w = reply_table l /\ NoDup (rh_key <$> l).

Lemma find_reply_none c t l : find (match_reply c t) l = None <-> (c, t) ∉ rh_key <$> l.
Proof.
  rewrite find_none. split.
  - intros HN ([c' t'] & [= <- <-] & Hin)%list_elem_of_fmap.
    specialize (HN _ Hin). unfold match_reply in HN. cbn in HN. by rewrite !Z.eqb_refl in HN.
  - intros Hn x Hx. destruct (match_reply c t x) eqn:E; [|done]. apply match_reply_iff in E. destruct Hn.
    apply list_elem_of_fmap. by exists x.
Qed.

Lemma find_reply_in l rh : NoDup (rh_key <$> l) -> rh ∈ l -> find (match_reply (rh_c rh) (rh_tokenid rh)) l = Some rh.
Proof.
  induction l as [|x l IH]; [by intros _ ?%not_elem_of_nil|]. rewrite fmap_cons, NoDup_cons, find_cons.
  intros [Hx Hd] [->|Hin]%elem_of_cons.
  - unfold match_reply. by rewrite !Z.eqb_refl.
  - destruct (match_reply _ _ x) eqn:E; [|by apply IH]. apply match_reply_iff in E. destruct Hx.
    apply list_elem_of_fmap. by exists rh.
Qed.

(** Without the command that has been replied to. *)
Lemma remove_reply l rh : NoDup (rh_key <$> l) -> rh ∈ l ->
  exists l1 l2, l = l1 ++ rh :: l2 /\ Protocol.remove_first (match_reply (rh_c rh) (rh_tokenid rh)) l = l1 ++ l2 /\
    NoDup (rh_key <$> (l1 ++ l2)) /\ rh_key rh ∉ rh_key <$> (l1 ++ l2).
Proof.
  induction l as [|x l IH]; [by intros _ ?%not_elem_of_nil|]. rewrite fmap_cons, NoDup_cons. cbn [Protocol.remove_first].
  intros [Hx Hd] [->|Hin]%elem_of_cons.
  - unfold match_reply. rewrite !Z.eqb_refl. by exists [], l.
  - destruct (match_reply _ _ x) eqn:E.
    + apply match_reply_iff in E. destruct Hx. apply list_elem_of_fmap. by exists rh.
    + destruct (IH Hd Hin) as (l1 & l2 & -> & E2 & Hd' & Hn). exists (x :: l1), l2. rewrite E2. split; [done|]. split; [done|].
      cbn [app]. rewrite !fmap_cons. rewrite fmap_app, fmap_cons in Hx. split.
      * constructor; [|done]. rewrite fmap_app. intros Hc. apply Hx. rewrite elem_of_app, elem_of_cons. rewrite elem_of_app in Hc. tauto.
      * rewrite elem_of_cons. intros [Hk|Hk]; [|done]. unfold match_reply in E. injection Hk as E3 E4.
        by rewrite <- E3, <- E4, !Z.eqb_refl in E.
Qed.

(** All the lists of a hash table together. *)
Lemma table_concat {A} size (hash : A -> Z) l : (forall x, 0 <= hash x < size) -> concat (table_of size hash l) ≡ₚ l.
Proof.
  intros Hh. induction l as [|x l IH].
  - unfold table_of. generalize (Z.to_nat size), 0%nat. intros n. induction n as [|n IH]; intros k; [done|apply IH].
  - rewrite <- table_insert by done. pose proof (table_lookup size hash l (hash x) (Hh x)) as HL.
    apply list_elem_of_split_length in HL as (l1 & l2 & E & HLen). rewrite E in IH |- *. rewrite HLen.
    rewrite insert_app_r_alt, Nat.sub_diag by lia. cbn [insert list_insert]. rewrite concat_app in IH |- *. cbn [concat app] in *.
    rewrite <- Permutation_middle. by constructor.
Qed.

(** ** Tokens *)

Lemma u64_inj a b : 0 <= a < 2 ^ 64 -> 0 <= b < 2 ^ 64 -> forall t, u64 (t + a) = u64 (t + b) -> a = b.
Proof.
  intros Ha Hb t E. unfold wrapu in E. assert (H : (a - b) mod 2 ^ 64 = 0).
  { replace (a - b) with ((t + a) - (t + b)) by lia. rewrite Zminus_mod, E, Z.sub_diag. done. }
  apply Z.mod_divide in H as [q Hq]; [|lia]. assert (q = 0) by nia. lia.
Qed.

Section tokens.
Context {Ch U : Type} `{InputStream Ch} `{OutputStream Ch} `{ChannelIf Ch}.

Abbreviation W := (World Ch U).

Lemma put_protocol_ok p x (w : W) : put_protocol p x w = (Ok tt, set_protocols (<[p := x]> (w_protocols w)) w).
Proof. done. Qed.

Lemma find_reply_keep c t (w : W) l : w_reply_handlers w = reply_table l ->
  find_reply_handler c t false w = (Ok (find (match_reply c t) l), w).
Proof.
  intros HW. unfold find_reply_handler. rewrite (bind_ok get _ _ _ _ eq_refl), HW.
  unfold reply_table. rewrite table_lookup by apply reply_hash_range. cbn [of_option]. rewrite ret_bind.
  rewrite bucket_find by (intros x; apply match_reply_hash). by destruct (find _ l).
Qed.

(** [k] tokens have been tried. *)
Lemma new_token_loop c p t0 (l : list ReplyHandlerInfo) : zlen l < 2 ^ 64 ->
  forall fuel k (w : W) x, (k + fuel = S (length l))%nat -> (forall i, (i < k)%nat -> (c, u64 (t0 + Z.of_nat i)) ∈ rh_key <$> l) ->
  w_reply_handlers w = reply_table l -> w_protocols w !! p = Some x -> p_tokenid x = u64 (t0 + Z.of_nat k) ->
  exists t, new_token fuel c p w = (Ok t, set_protocols (<[p := set_tokenid (u64 (t + 1)) x]> (w_protocols w)) w) /\
    in_u 64 t /\ (c, t) ∉ rh_key <$> l.
Proof.
  intros Hl. induction fuel as [|fuel IH]; intros k w x Hk Hall HW HP HT.
  - exfalso. assert (Hsub : ((fun i => (c, u64 (t0 + Z.of_nat i))) <$> seq 0 k) ⊆+ (rh_key <$> l)).
    { apply NoDup_submseteq.
      - apply NoDup_fmap_2_strong; [|apply NoDup_seq]. intros a b Ha%elem_of_seq Hb%elem_of_seq [= E]. unfold zlen in Hl.
        apply u64_inj in E; lia.
      - intros y (i & -> & Hi%elem_of_seq)%list_elem_of_fmap. apply Hall. lia. }
    apply submseteq_length in Hsub. rewrite !length_fmap, length_seq in Hsub. lia.
  - cbn [new_token]. rewrite (bind_ok _ _ _ _ _ (get_protocol_ok p x w HP)), (bind_ok _ _ _ _ _ (put_protocol_ok p _ w)).
    set (w1 := set_protocols _ w). rewrite (bind_ok _ _ _ _ _ (find_reply_keep c (p_tokenid x) w1 l HW)).
    destruct (find _ l) as [rh|] eqn:EF.
    + destruct (IH (S k) w1 (set_tokenid (u64 (p_tokenid x + 1)) x)) as (t & E & Ht & Hn).
      * lia.
      * intros i Hi. destruct (decide (i = k)) as [->|Hne]; [|apply Hall; lia]. apply find_some in EF as [Hin HM].
        apply match_reply_iff in HM. rewrite <- HT, <- HM. apply list_elem_of_fmap. by exists rh.
      * done.
      * subst w1. cbn. by rewrite lookup_insert_eq.
      * cbn. rewrite HT. unfold wrapu. rewrite Zplus_mod_idemp_l. f_equal. lia.
      * exists t. split; [|done]. rewrite E. subst w1. unfold set_protocols. cbn. by rewrite insert_insert_eq.
    + exists (p_tokenid x). split; [done|]. split; [rewrite HT; by apply wrapu_range|]. by apply find_reply_none.
Qed.

(** A token is always found. *)
Lemma new_token_ok c p (w : W) x l : waiting w l -> zlen l < 2 ^ 64 -> w_protocols w !! p = Some x -> in_u 64 (p_tokenid x) ->
  exists t, new_token (S (pending_cnt w)) c p w = (Ok t, set_protocols (<[p := set_tokenid (u64 (t + 1)) x]> (w_protocols w)) w) /\
    in_u 64 t /\ (c, t) ∉ rh_key <$> l.
Proof.
  intros [HW Hd] Hl HP HT. unfold pending_cnt. rewrite HW. unfold reply_table.
  rewrite (Permutation_length (table_concat REPLY_HASH_SIZE rh_hash l (fun x' => reply_hash_range _ _))).
  apply (new_token_loop c p (p_tokenid x) l Hl _ 0%nat w x); try done; [intros i; lia|].
  rewrite Z.add_0_r. symmetry. by apply wrapu_small.
Qed.
End tokens.

(** The text of a token is read back. *)
Lemma digits_value_dec l : Forall is_digit l -> forall acc, digits_value acc l = Some (dec_value_from acc l).
Proof.
  induction 1 as [|b l Hb Hl IH]; intros acc; [done|]. cbn [digits_value]. apply digit_range in Hb.
  replace ((48 <=? b) && (b <=? 57)) with true by lia. apply IH.
Qed.

Lemma strtoul_dec t : in_u 64 t -> strtoul (dec_text t) = Some t.
Proof.
  intros Ht. destruct (dec_text_ok t ltac:(unfold in_u in Ht; lia)) as (Hd & Hne & Hv). unfold strtoul.
  destruct (dec_text t) as [|b l]; [done|]. apply Forall_cons in Hd as Hb. destruct Hb as [Hb _]. apply digit_range in Hb.
  cbn [skip_spaces]. replace (isspace b) with false by (unfold isspace; lia).
  replace (b =? 45) with false by lia. replace (b =? 43) with false by lia. rewrite digits_value_dec by done. cbn [mbind option_bind].
  unfold dec_value in Hv. rewrite Hv. unfold in_u in Ht. by replace (t <? 2 ^ 64) with true by lia.
Qed.

Lemma short_token t : in_u 64 t -> short (dec_text t).
Proof.
  intros Ht. unfold in_u in Ht. destruct (dec_text_ok t ltac:(lia)) as (Hd & _ & _). split.
  - eapply Forall_impl; [exact Hd|]. intros b Hb%digit_range. lia.
  - pose proof (dec_text_length (S (Z.to_nat (Z.log2 t))) t). unfold zlen, dec_text.
    assert (Z.log2 t <= 63); [|lia]. destruct (decide (t = 0)) as [->|]; [done|]. assert (Z.log2 t < 64); [|lia]. apply Z.log2_lt_pow2; lia.
Qed.

(** ** Sending *)

Section send.
Context {Ch U : Type} `{ChannelSpec Ch}.

Abbreviation W := (World Ch U).

(** What a writer does to the output, with the state as it is. *)
Program Definition out_frame (st : ChannelState) : OutputStreamSpec Ch := {|
  os_wf s := os_wf s /\ ch_state s = st;
  os_data := os_data;
  os_symbol := os_symbol;
|}.
Next Obligation. intros st b Hb. by apply os_symbol_byte. Qed.
Next Obligation. intros st b Hb. by apply os_symbol_le. Qed.
Next Obligation. intros st s [Hs _] E. by apply os_null_space. Qed.
Next Obligation.
  intros st s l [Hs Hst] Hl HE Hz. destruct (store_spec s l Hs Hl HE Hz) as (s' & E & ? & ? & ?). exists s'.
  pose proof (cs_store _ _ _ Hs E). split_and!; try done. congruence.
Qed.
Next Obligation.
  intros st s b [Hs Hst] Hb. destruct (write_spec s b Hs Hb) as (s' & E & ? & ? & ?). exists s'.
  pose proof (cs_write _ _ _ Hs E). split_and!; try done. congruence.
Qed.
Next Obligation.
  intros st s l [Hs Hst] Hl. destruct (write_block_spec s l Hs Hl) as (s' & E & ? & ? & ?). exists s'.
  pose proof (cs_block _ _ _ Hs E). split_and!; try done. congruence.
Qed.

(** [d] has been written since [s0]. *)
Definition sending (s0 : Ch) (d : list Z) (s : Ch) : Prop :=
  os_wf s /\ ch_state s = ch_state s0 /\ os_data s = os_data s0 ++ d.

Lemma on_chan_writes {A} (m : M Ch A) a l s0 d s c ch (w : W) :
  (forall st, @writes Ch _ (out_frame st) _ m a l) -> sending s0 d s ->
  exists s', sending s0 (d ++ l) s' /\ on_chan c m (with_trans c ch s w) = (Ok a, with_trans c ch s' w).
Proof.
  intros Hm (Hw & Hst & HD). destruct (Hm (ch_state s) s (conj Hw eq_refl)) as (s' & E & [Hw' Hst'] & HD' & _).
  change (@os_data Ch _ (out_frame (ch_state s)) s') with (os_data s') in HD'. change (@os_data Ch _ (out_frame (ch_state s)) s) with (os_data s) in HD'.
  exists s'. split; [|by apply on_chan_at]. split; [done|]. split; [congruence|]. by rewrite HD', HD, app_assoc.
Qed.

(** A channel on which commands can be sent. *)
Definition can_send (c : Z) (ch : Channel Ch) (w : W) : Prop :=
  w_channels w !! c = Some ch /\ os_wf (c_trans ch) /\ disconnected (ch_state (c_trans ch)) = false /\
  is_Some (c_peer_service_list ch) /\ exists x, w_protocols w !! c_protocol ch = Some x /\ in_u 64 (p_tokenid x).

Lemma send_ok c ch (w : W) l service name handler progress cd : can_send c ch w -> waiting w l -> zlen l < 2 ^ 64 ->
  cstring service -> cstring name ->
  exists t s' w', protocol_send_command_with_progress c service name handler progress cd w = (Ok (w_brk w), w') /\
    in_u 64 t /\ (c, t) ∉ rh_key <$> l /\ sending (c_trans ch) (command_text (dec_text t) service name) s' /\
    w_channels w' = <[c := set_c_trans s' ch]> (w_channels w) /\
    waiting w' (Build_ReplyHandlerInfo (w_brk w) t c handler progress cd :: l) /\ can_send c (set_c_trans s' ch) w' /\
    w_posted w' = w_posted w /\ w_user w' = w_user w.
Proof.
  intros (HC & Ho & Hst & HP & x & HX & HT) HW Hl Hs Hn. unfold protocol_send_command_with_progress.
  rewrite (bind_ok get _ w w w eq_refl), (bind_ok (modify _) _ w tt _ eq_refl). set (w0 := set_w_brk _ w).
  assert (HC0 : w_channels w0 !! c = Some ch) by exact HC. pose proof (with_trans_id c ch w0 HC0) as EW.
  assert (EG : get_channel c w0 = (Ok ch, w0)) by (unfold get_channel; by rewrite (bind_ok get _ _ _ _ eq_refl), HC0).
  assert (EC : on_chan c ch_is_closed w0 = (Ok false, w0)).
  { rewrite <- EW at 1. rewrite (on_chan_at ch_is_closed c ch _ _ _ w0 (cs_closed _ Ho)), Hst. by rewrite EW. }
  rewrite (bind_ok _ _ _ _ _ EG), (bind_ok _ _ _ _ _ EC). cbn [orb].
  rewrite bool_decide_eq_false_2 by (intros HE; rewrite HE in HP; by destruct HP). rewrite (bind_ok get _ _ _ _ eq_refl).
  destruct (new_token_ok c (c_protocol ch) w0 x l HW Hl HX HT) as (t & ET & Ht & HN). cbn [c_protocol set_c_trans].
  rewrite (bind_ok _ _ _ _ _ ET). set (w1 := set_protocols _ w0). destruct (dec_text_ok t ltac:(unfold in_u in Ht; lia)) as (Hd & _ & _).
  assert (EW1 : w1 = with_trans c ch (c_trans ch) w1) by (symmetry; by apply with_trans_id). rewrite EW1.
  assert (S0 : sending (c_trans ch) [] (c_trans ch)) by (split; [done|split; [done|by rewrite app_nil_r]]).
  destruct (on_chan_writes (write_stringz (str "C")) tt (str "C" ++ [0]) _ _ _ c ch w1 (fun st => @writes_stringz _ _ (out_frame st) (str "C") ltac:(by repeat constructor)) S0) as (s1 & S1 & E1).
  destruct (on_chan_writes (json_write_ulong t) tt (dec_text t) _ _ _ c ch w1 (fun st => @writes_ulong _ _ (out_frame st) t ltac:(unfold in_u in Ht; lia)) S1) as (s2 & S2 & E2).
  destruct (on_chan_writes (write_stream 0) tt [0] _ _ _ c ch w1 (fun st => @writes_byte _ _ (out_frame st) 0 ltac:(done)) S2) as (s3 & S3 & E3).
  destruct (on_chan_writes (write_stringz service) tt (service ++ [0]) _ _ _ c ch w1 (fun st => @writes_stringz _ _ (out_frame st) service (cstring_bytes _ Hs)) S3) as (s4 & S4 & E4).
  destruct (on_chan_writes (write_stringz name) tt (name ++ [0]) _ _ _ c ch w1 (fun st => @writes_stringz _ _ (out_frame st) name (cstring_bytes _ Hn)) S4) as (s5 & S5 & E5).
  rewrite (bind_ok _ _ _ _ _ E1), (bind_ok _ _ _ _ _ E2), (bind_ok _ _ _ _ _ E3), (bind_ok _ _ _ _ _ E4), (bind_ok _ _ _ _ _ E5).
  rewrite (bind_ok get _ _ _ _ eq_refl). destruct HW as [HW HD].
  assert (EB : w_reply_handlers (with_trans c ch s5 w1) !! Z.to_nat (reply_hash c t) = Some (bucket_of rh_hash (reply_hash c t) l))
    by (cbn; rewrite HW; apply table_lookup, reply_hash_range). rewrite EB. cbn [of_option]. rewrite ret_bind.
  exists t, s5. eexists. split; [reflexivity|]. split; [done|]. split; [done|].
  split; [unfold command_text; rewrite <- !app_assoc in S5; cbn [app] in S5; exact S5|]. split; [done|]. split; [|split; [|done]].
  - split; [|cbn; by constructor].
    cbn. rewrite HW. apply (table_insert _ rh_hash (fun x => reply_hash_range _ _) l (Build_ReplyHandlerInfo (w_brk w) t c handler progress cd)).
  - destruct S5 as (Ho5 & Hst5 & _). split; [cbn; by rewrite lookup_insert_eq|]. split; [done|]. split; [cbn; congruence|]. split; [done|].
    exists (set_tokenid (u64 (t + 1)) x). split; [cbn; by rewrite lookup_insert_eq|]. cbn. by apply wrapu_range.
Qed.
End send.

(** ** Remote calls *)

(** C7: A remote call.  [protocol_send_command] sends the command with a token
    that no other pending command of the channel has; it always finds one.  A peer
    that receives the command gives the token, and the arguments, to the handler
    of its name; when the reply with this token comes back, with whatever commands
    pending then, the call back of this command is called with the result, and
    the command is not pending any more. *)
Theorem protocol_rpc {Ch1 U1 Ch2 U2} `{ChannelSpec Ch1} `{!Handlers Ch1 U1} `{ChannelSpec Ch2} `{!Handlers Ch2 U2}
    (wa : World Ch1 U1) ca cha l service name f cd :
  can_send ca cha wa -> waiting wa l -> zlen l < 2 ^ 64 -> short service -> short name ->
  exists t s wa', protocol_send_command ca service name (Some f) cd wa = (Ok (w_brk wa), wa') /\
    let rh := Build_ReplyHandlerInfo (w_brk wa) t ca (Some f) None cd in
    (ca, t) ∉ rh_key <$> l /\ sending (c_trans cha) (command_text (dec_text t) service name) s /\
    w_channels wa' = <[ca := set_c_trans s cha]> (w_channels wa) /\ waiting wa' (rh :: l) /\
    (forall (wb : World Ch2 U2) cb chb sb args mh,
       reading sb (command_text (dec_text t) service name ++ args) sb -> ch_state sb = ChannelStateConnected ->
       find_message_handler (c_protocol chb) service name wb = Some mh ->
       exists sb', reading sb args sb' /\
         handle_protocol_message cb (with_trans cb chb sb wb) =
           finish (command_handler (mh_handler mh) (dec_text t) cb (mh_client_data mh)) (with_trans cb chb sb' wb)) /\
    (forall (wc : World Ch1 U1) chc sc result lc,
       reading sc (reply_text #"R" (dec_text t) ++ result) sc -> waiting wc lc -> rh ∈ lc ->
       exists sc' l1 l2, reading sc result sc' /\ lc = l1 ++ rh :: l2 /\ NoDup (rh_key <$> (l1 ++ l2)) /\
         (ca, t) ∉ rh_key <$> (l1 ++ l2) /\
         handle_protocol_message ca (with_trans ca chc sc wc) =
           finish (reply_handler f ca cd 0) (with_trans ca chc sc' (set_reply_handlers (reply_table (l1 ++ l2)) wc))).
Proof.
  intros HC HW Hl Hs Hn. destruct (send_ok ca cha wa l service name (Some f) None cd HC HW Hl) as (t & s & wa' & E & Ht & HN & HS & HCh & HW' & _);
    [apply Hs|apply Hn|]. exists t, s, wa'. split; [exact E|]. split; [done|]. split; [done|]. split; [done|]. split; [done|]. split.
  - intros wb cb chb sb args mh HR Hst HF.
    destruct (command_dispatch (dec_text t) service name args sb sb cb chb wb (short_token t Ht) Hs Hn HR) as (sb' & HR' & ED).
    exists sb'. split; [done|]. rewrite ED, bool_decide_eq_true_2, HF by done. done.
  - intros wc chc sc result lc HR [HWc HDc] Hin.
    destruct (remove_reply lc _ HDc Hin) as (l1 & l2 & El & ER & HD & HK). cbn [rh_c rh_tokenid] in ER.
    destruct (reply_dispatch #"R" (dec_text t) t result sc sc ca chc wc lc _ (or_introl eq_refl) (short_token t Ht) (strtoul_dec t Ht) HR HWc
      (find_reply_in lc _ HDc Hin)) as (sc' & HR' & ED).
    exists sc', l1, l2. split; [done|]. split; [done|]. split; [done|]. split; [done|].
    change (#"R" =? #"P") with false in ED. cbv iota in ED. cbn [rh_c rh_tokenid] in ED. rewrite ER in ED. exact ED.
Qed.
