(* ===== verification/ProtocolHello.v ===== *)
(** * Protocol: the handshake

    Each side sends [Hello] with the names of its services; what one side has
    written is what the other side reads, and a channel is connected when its
    message has been sent and the message of the peer has been received, in
    either order. *)

From stdpp Require Import gmap.
From S2P Require Import Prelude Streams JsonWrite JsonRead JsonReadSpec JsonRoundTrip JsonTmp ChannelTcp Protocol ProtocolTable ProtocolMsg ProtocolSend.

(** ** The text of the message *)

Definition more_text (l : list bytes) : bytes := concat ((fun n => #"," :: string_text n) <$> l).
Definition names_text (l : list bytes) : bytes :=
  match l with [] => [] | n :: l => string_text n ++ more_text l end.
Definition hello_args (l : list bytes) : bytes := [ #"["] ++ names_text l ++ [ #"]"; 0].
Definition hello_text (l : list bytes) : bytes := event_text LOCATOR (str "Hello") ++ hello_args l.

(** A name that can be sent and compared. *)
Definition service_name (l : bytes) : Prop := cstring l /\ zlen l < 2 ^ 32.

(** What [c] announces. *)
Definition announced {Ch U} (ch : Channel Ch) (w : World Ch U) : list bytes :=
  (if c_disable_zero_copy ch then [] else [str "ZeroCopy"]) ++
  (si_name <$> filter (fun s => si_owner s = c_protocol ch) (w_services w)).

Lemma zero_copy_name : service_name (str "ZeroCopy").
Proof. split; [repeat constructor; done|done]. Qed.

(** ** Sending *)

Section send.
Context {Ch U : Type} `{ChannelSpec Ch} `{!Handlers Ch U}.

Abbreviation W := (World Ch U).

Lemma send_byte b s0 d s c ch (w : W) : is_byte b -> sending s0 d s ->
  exists s', sending s0 (d ++ [b]) s' /\ on_chan c (write_stream b) (with_trans c ch s w) = (Ok tt, with_trans c ch s' w).
Proof. intros Hb. apply on_chan_writes. intros st. by apply @writes_byte. Qed.

Lemma send_stringz l s0 d s c ch (w : W) : is_bytes l -> sending s0 d s ->
  exists s', sending s0 (d ++ l ++ [0]) s' /\ on_chan c (write_stringz l) (with_trans c ch s w) = (Ok tt, with_trans c ch s' w).
Proof. intros Hb. apply on_chan_writes. intros st. by apply @writes_stringz. Qed.

Lemma send_name n s0 d s c ch (w : W) : service_name n -> sending s0 d s ->
  exists s', sending s0 (d ++ string_text n) s' /\
    on_chan c (json_write_string (Some n)) (with_trans c ch s w) = (Ok tt, with_trans c ch s' w).
Proof.
  intros [Hn Hz]. apply on_chan_writes. intros st. apply (@writes_string_opt _ _ (out_frame st) (Some n)).
  intros l [= <-]. split; [by apply cstring_bytes|done].
Qed.

(** The end of the message is a symbol, not a byte. *)
Lemma send_EOM s0 d s c ch (w : W) : sending s0 d s ->
  exists s', sending s0 (d ++ [MARKER_EOM]) s' /\
    on_chan c (write_stream MARKER_EOM) (with_trans c ch s w) = (Ok tt, with_trans c ch s' w).
Proof. apply on_chan_writes. pose proof (cs_eom (Ch := Ch)) as HE. intros st. by apply @writes_stream. Qed.

Lemma more_text_cons n l : more_text (n :: l) = (#"," :: string_text n) ++ more_text l.
Proof. done. Qed.

Lemma write_services_ok c p l : Forall (fun s => service_name (si_name s)) l -> forall cnt s0 d s ch (w : W), 0 <= cnt ->
  sending s0 d s ->
  let names := si_name <$> filter (fun s => si_owner s = p) l in
  exists s', sending s0 (d ++ (if cnt =? 0 then names_text names else more_text names)) s' /\
    write_services c p cnt l (with_trans c ch s w) = (Ok tt, with_trans c ch s' w).
Proof.
  induction 1 as [|x l Hx Hl IH]; intros cnt s0 d s ch w Hc Hs; cbv zeta.
  - exists s. split; [|done]. by destruct (cnt =? 0); rewrite app_nil_r.
  - cbn [write_services]. rewrite filter_cons. destruct (Z.eqb_spec (si_owner x) p) as [E|E].
    2: { rewrite decide_False by done. by apply IH. }
    rewrite decide_True by done. rewrite fmap_cons.
    assert (HF : exists s1, sending s0 (d ++ if cnt =? 0 then [] else [ #","]) s1 /\
      (if negb (cnt =? 0) then on_chan c (write_stream #",") else mret tt) (with_trans c ch s w) = (Ok tt, with_trans c ch s1 w)).
    { destruct (cnt =? 0); cbn [negb]; [exists s; by rewrite app_nil_r|by apply send_byte]. }
    destruct HF as (s1 & S1 & E1). destruct (send_name (si_name x) _ _ _ c ch w Hx S1) as (s2 & S2 & E2).
    destruct (IH (cnt + 1) s0 _ s2 ch w ltac:(lia) S2) as (s3 & S3 & E3). cbv zeta in S3. replace (cnt + 1 =? 0) with false in S3 by lia.
    exists s3. split; [|by rewrite (bind_ok _ _ _ _ _ E1), (bind_ok _ _ _ _ _ E2)].
    rewrite more_text_cons. rewrite <- !app_assoc in S3. by destruct (cnt =? 0).
Qed.

(** From [Started] the channel waits for the message of the peer; when that has
    come already, the channel is connected. *)
Definition hello_sent_state (st : ChannelState) : ChannelState :=
  if bool_decide (st = ChannelStateStarted) then ChannelStateHelloSent else ChannelStateConnected.

Lemma set_state_at x c ch s (w : W) :
  set_state c x (with_trans c ch s w) = (Ok tt, with_trans c ch (set_ch_state x s) w).
Proof. unfold set_state. by apply on_chan_at. Qed.

(** The text of the message, before the state changes. *)
Lemma send_hello_text c ch (w : W) s0 : os_wf s0 ->
  Forall (fun s => service_name (si_name s)) (w_services w) ->
  exists s', sending s0 (hello_text (announced ch w) ++ [MARKER_EOM]) s' /\
    forall k : M W unit,
    (on_chan c (write_stringz (str "E")) ;;
     on_chan c (write_stringz LOCATOR) ;;
     on_chan c (write_stringz (str "Hello")) ;;
     on_chan c (write_stream #"[") ;;
     (if negb (c_disable_zero_copy ch) then on_chan c (json_write_string (Some (str "ZeroCopy"))) else mret tt) ;;
     w ← get;
     write_services c (c_protocol ch) (if c_disable_zero_copy ch then 0 else 1) (w_services w) ;;
     on_chan c (write_stream #"]") ;;
     on_chan c (write_stream 0) ;;
     on_chan c (write_stream MARKER_EOM) ;; k) (with_trans c ch s0 w) = k (with_trans c ch s' w).
Proof.
  intros Ho Hl. assert (S0 : sending s0 [] s0) by (split; [done|split; [done|by rewrite app_nil_r]]).
  destruct (send_stringz (str "E") _ _ _ c ch w ltac:(by repeat constructor) S0) as (s1 & S1 & E1).
  destruct (send_stringz LOCATOR _ _ _ c ch w ltac:(by repeat constructor) S1) as (s2 & S2 & E2).
  destruct (send_stringz (str "Hello") _ _ _ c ch w ltac:(by repeat constructor) S2) as (s3 & S3 & E3).
  destruct (send_byte #"[" _ _ _ c ch w ltac:(done) S3) as (s4 & S4 & E4).
  assert (HZ : exists s5, sending s0 (event_text LOCATOR (str "Hello") ++ [ #"["] ++ (if c_disable_zero_copy ch then [] else string_text (str "ZeroCopy"))) s5 /\
    (if negb (c_disable_zero_copy ch) then on_chan c (json_write_string (Some (str "ZeroCopy"))) else mret tt) (with_trans c ch s4 w) =
      (Ok tt, with_trans c ch s5 w)).
  { destruct (c_disable_zero_copy ch); cbn [negb]; [exists s4; split; [exact S4|done]|].
    by apply (send_name (str "ZeroCopy") _ _ _ c ch w zero_copy_name S4). }
  destruct HZ as (s5 & S5 & E5).
  destruct (write_services_ok c (c_protocol ch) (w_services w) Hl (if c_disable_zero_copy ch then 0 else 1) _ _ _ ch w
    ltac:(by destruct (c_disable_zero_copy ch)) S5) as (s6 & S6 & E6). cbv zeta in S6.
  destruct (send_byte #"]" _ _ _ c ch w ltac:(done) S6) as (s7 & S7 & E7).
  destruct (send_byte 0 _ _ _ c ch w ltac:(done) S7) as (s8 & S8 & E8).
  destruct (send_EOM _ _ _ c ch w S8) as (s9 & S9 & E9). exists s9. split.
  - clear - S9. unfold hello_text, hello_args, announced. set (l := si_name <$> filter (fun s => si_owner s = c_protocol ch) (w_services w)) in *.
    replace (names_text ((if c_disable_zero_copy ch then [] else [str "ZeroCopy"]) ++ l)) with
      ((if c_disable_zero_copy ch then [] else string_text (str "ZeroCopy")) ++
       (if (if c_disable_zero_copy ch then 0 else 1) =? 0 then names_text l else more_text l)) by (by destruct (c_disable_zero_copy ch)).
    rewrite <- !app_assoc in S9 |- *. exact S9.
  - intros k. rewrite (bind_ok _ _ _ _ _ E1), (bind_ok _ _ _ _ _ E2), (bind_ok _ _ _ _ _ E3), (bind_ok _ _ _ _ _ E4), (bind_ok _ _ _ _ _ E5).
    rewrite (bind_ok get _ _ _ _ eq_refl). cbn [w_services with_trans set_channels].
    by rewrite (bind_ok _ _ _ _ _ E6), (bind_ok _ _ _ _ _ E7), (bind_ok _ _ _ _ _ E8), (bind_ok _ _ _ _ _ E9).
Qed.

Lemma send_hello_ok c ch (w : W) : w_channels w !! c = Some ch -> os_wf (c_trans ch) ->
  let st := ch_state (c_trans ch) in
  st = ChannelStateStarted \/ st = ChannelStateHelloReceived ->
  Forall (fun s => service_name (si_name s)) (w_services w) ->
  exists s, os_wf s /\ os_data s = os_data (c_trans ch) ++ hello_text (announced ch w) ++ [MARKER_EOM] /\
    ch_state s = hello_sent_state st /\
    send_hello_message c w =
      (if bool_decide (st = ChannelStateStarted) then mret tt else connect_done c) (with_trans c ch s w).
Proof.
  intros HC Ho st Hst Hl. destruct (send_hello_text c ch w (c_trans ch) Ho Hl) as (s & (Hs & Hss & Hsd) & HE).
  assert (Hx : disconnected (hello_sent_state st) = false) by (unfold hello_sent_state; by case_bool_decide).
  destruct (cs_state (hello_sent_state st) s Hx Hs) as (Ho' & Hout & _).
  exists (set_ch_state (hello_sent_state st) s). split; [done|]. split; [rewrite <- Hsd; exact (f_equal (fun x => x.1.1) Hout)|].
  split; [exact (f_equal snd Hout)|]. unfold send_hello_message.
  assert (EG : get_channel c w = (Ok ch, w)) by (unfold get_channel; by rewrite (bind_ok get _ _ _ _ eq_refl), HC).
  assert (ES : state_of c w = (Ok st, w)) by (unfold state_of; by rewrite (bind_ok _ _ _ _ _ EG)).
  rewrite (bind_ok _ _ _ _ _ EG), (bind_ok _ _ _ _ _ ES).
  replace (bool_decide (st = ChannelStateStarted) || bool_decide (st = ChannelStateHelloReceived)) with true
    by (destruct Hst as [-> | ->]; done). cbn [assertm]. rewrite ret_bind. rewrite (with_trans_id c ch w HC) in HE. rewrite HE.
  rewrite (bind_ok _ _ _ _ _ (state_of_at c ch s w)), Hss. fold st. unfold hello_sent_state.
  case_bool_decide; rewrite ?(bind_ok _ _ _ _ _ (set_state_at _ c ch s w)); [|done]. apply set_state_at.
Qed.
End send.

(** ** Receiving *)

Section receive.
Context {Ch U : Type} `{ChannelSpec Ch} `{!Handlers Ch U}.

Abbreviation W := (World Ch U).

(** From [s] the channel has got to [s']: [rest] comes next and its support for
    zero copy is [z]. *)
Definition moves (s : Ch) (z : bool) (rest : bytes) (s' : Ch) : Prop :=
  is_wf s' /\ os_wf s' /\ channel_out s' = (os_data s, z, ch_state s) /\ is_data s' = rest /\ is_mark s' = is_mark s.

Definition ready (s : Ch) : Prop := is_wf s /\ os_wf s.

Lemma moves_ready s z rest s' : moves s z rest s' -> ready s'.
Proof. by intros (? & ? & _). Qed.

Lemma moves_data s z rest s' : moves s z rest s' -> is_data s' = rest.
Proof. by intros (_ & _ & _ & ? & _). Qed.

Lemma moves_trans s z1 r1 s1 z2 r2 s2 : moves s z1 r1 s1 -> moves s1 z2 r2 s2 -> moves s z2 r2 s2.
Proof.
  intros (Hw1 & Ho1 & E1 & D1 & M1) (Hw2 & Ho2 & E2 & D2 & M2). split; [done|]. split; [done|]. split; [|split; [done|congruence]].
  rewrite E2. unfold channel_out in E1. by injection E1 as -> _ ->.
Qed.

Lemma moves_zero_copy s z rest s' : moves s z rest s' -> os_supports_zero_copy s' = z.
Proof. intros (_ & _ & E & _). exact (f_equal (fun x => x.1.2) E). Qed.

Lemma reading_moves s rest s' : reading s rest s' -> moves s (os_supports_zero_copy s) rest s'.
Proof. intros ((Hw & Ho & E) & D & M). done. Qed.

Lemma chan_reads {A} (m : M Ch A) a l rest s c ch (w : W) :
  (forall out, @reads Ch _ (chan_frame out) _ m a l anything) -> ready s -> is_data s = l ++ rest ->
  exists s', moves s (os_supports_zero_copy s) rest s' /\ on_chan c m (with_trans c ch s w) = (Ok a, with_trans c ch s' w).
Proof.
  intros Hm [Hw Ho] HD. destruct (on_chan_reads m a l s rest s c ch w Hm) as (s' & HR & E); [by rewrite <- HD; apply reading_start|].
  exists s'. split; [by apply reading_moves|done].
Qed.

Lemma json_reads {A} (m : M (json_state Ch) A) a l rest s c ch (w : W) t :
  (forall out, @reads _ _ (@js_InputStreamSpec Ch _ (chan_frame out)) _ m a l anything) -> ready s -> is_data s = l ++ rest -> tmp_ok t ->
  exists s' t', moves s (os_supports_zero_copy s) rest s' /\ tmp_ok t' /\
    on_json c m (with_trans c ch s (set_w_tmp t w)) = (Ok a, with_trans c ch s' (set_w_tmp t' w)).
Proof.
  intros Hm [Hw Ho] HD Ht.
  destruct (Hm (channel_out s) (Build_json_state s t) rest) as (s' & E & ((Hw' & Ho' & E') & Ht') & HD' & HM'); [done..|].
  exists (js_inp s'), (js_tmp s'). split; [done|]. split; [done|]. unfold on_json. cbn [w_tmp with_trans set_w_tmp set_channels w_channels].
  rewrite lookup_insert_eq. cbn [c_trans set_c_trans]. rewrite E. f_equal. unfold with_trans, set_w_tmp, set_channels. cbn. by rewrite insert_insert_eq.
Qed.

Lemma set_zero_copy_at z s c ch (w : W) : ready s ->
  exists s', moves s z (is_data s) s' /\ on_chan c (modify (set_ch_zero_copy z)) (with_trans c ch s w) = (Ok tt, with_trans c ch s' w).
Proof.
  intros [Hw Ho]. destruct (cs_zero_copy z s Ho) as (Ho' & E & HI). destruct (HI Hw) as (Hw' & HD & HM). exists (set_ch_zero_copy z s).
  split; [done|]. by apply on_chan_at.
Qed.

(** One turn of the loop, up to its branch. *)
Lemma read_one_service c n b rest s ch (w : W) t : service_name n -> ready s -> tmp_ok t -> isspace b = false ->
  is_data s = string_text n ++ b :: rest ->
  exists s' t', moves s (os_supports_zero_copy s || bool_decide (n = str "ZeroCopy")) rest s' /\ tmp_ok t' /\
    forall A (k : bytes -> Z -> M W A),
    (r ← on_json c json_read_alloc_string;
     service ← of_option r;
     (if bool_decide (c_str service = str "ZeroCopy") then on_chan c (modify (set_ch_zero_copy true)) else mret tt) ;;
     x ← on_chan c read_no_whitespace;
     k service x) (with_trans c ch s (set_w_tmp t w)) = k (n ++ [0]) b (with_trans c ch s' (set_w_tmp t' w)).
Proof.
  intros [Hn Hz] Hs Ht Hb HD.
  destruct (json_reads json_read_alloc_string (Some (n ++ [0])) (string_text n) (b :: rest) s c ch w t) as (s1 & t1 & M1 & Ht1 & E1); [|done..|].
  { intros out. apply (@reads_alloc_string _ _ _ _ (@js_JsonTmpBufSpec Ch _ (chan_frame out)) n []); [constructor|by apply cstring_bytes]. }
  assert (HZ : exists s2, moves s (os_supports_zero_copy s || bool_decide (n = str "ZeroCopy")) (b :: rest) s2 /\
    (if bool_decide (n = str "ZeroCopy") then on_chan c (modify (set_ch_zero_copy true)) else mret tt) (with_trans c ch s1 (set_w_tmp t1 w)) =
      (Ok tt, with_trans c ch s2 (set_w_tmp t1 w))).
  { case_bool_decide; [|exists s1; by rewrite orb_false_r].
    destruct (set_zero_copy_at true s1 c ch (set_w_tmp t1 w) (moves_ready _ _ _ _ M1)) as (s2 & M2 & E2). exists s2. split; [|done].
    rewrite orb_true_r. rewrite (moves_data _ _ _ _ M1) in M2. by eapply moves_trans. }
  destruct HZ as (s2 & M2 & E2).
  destruct (chan_reads read_no_whitespace b ([] ++ [b]) rest s2 c ch (set_w_tmp t1 w)) as (s3 & M3 & E3).
  { intros out. apply @reads_ws; [constructor|done]. }
  { by eapply moves_ready. }
  { by rewrite (moves_data _ _ _ _ M2). }
  exists s3, t1. split; [rewrite (moves_zero_copy _ _ _ _ M2) in M3; by eapply moves_trans|]. split; [done|]. intros A k.
  rewrite (bind_ok _ _ _ _ _ E1). cbn [of_option]. rewrite ret_bind.
  rewrite (c_str_prefix (n ++ [0]) (zlen (n ++ [0])) n Hn) by (by rewrite ztake_all).
  by rewrite (bind_ok _ _ _ _ _ E2), (bind_ok _ _ _ _ _ E3).
Qed.

(** The loop: the names, each with its zero, and whether one is [ZeroCopy]. *)
Lemma read_services_ok c l : forall n fuel acc s rest ch (w : W) t, Forall service_name (n :: l) -> ready s -> tmp_ok t ->
  is_data s = names_text (n :: l) ++ #"]" :: rest -> (length l < fuel)%nat ->
  exists s' t', moves s (os_supports_zero_copy s || bool_decide (str "ZeroCopy" ∈ n :: l)) rest s' /\ tmp_ok t' /\
    read_services fuel c acc (with_trans c ch s (set_w_tmp t w)) =
      (Ok (acc ++ ((fun n => n ++ [0]) <$> n :: l)), with_trans c ch s' (set_w_tmp t' w)).
Proof.
  induction l as [|n' l IH]; intros n fuel acc s rest ch w t HF Hs Ht HD Hf; (destruct fuel as [|fuel]; [simpl in Hf; lia|]);
    cbn [read_services]; apply Forall_cons in HF as [Hn HF]; cbn [names_text] in HD; rewrite <- app_assoc in HD.
  - destruct (read_one_service c n #"]" rest s ch w t Hn Hs Ht eq_refl HD) as (s1 & t1 & M1 & Ht1 & E1). exists s1, t1.
    split; [|split; [done|]]. 2: { rewrite E1. reflexivity. }
    replace (bool_decide (str "ZeroCopy" ∈ [n])) with (bool_decide (n = str "ZeroCopy")); [done|].
    apply bool_decide_ext. set_solver.
  - rewrite more_text_cons, <- app_assoc in HD.
    destruct (read_one_service c n #"," _ s ch w t Hn Hs Ht eq_refl HD) as (s1 & t1 & M1 & Ht1 & E1).
    destruct (IH n' fuel (acc ++ [n ++ [0]]) s1 rest ch w t1 HF (moves_ready _ _ _ _ M1) Ht1) as (s2 & t2 & M2 & Ht2 & E2);
      [rewrite (moves_data _ _ _ _ M1); cbn [names_text]; by rewrite <- app_assoc|simpl in Hf; lia|].
    exists s2, t2. split; [|split; [done|]]. 2: { rewrite E1. cbn [Z.eqb Pos.eqb]. rewrite E2. by rewrite <- app_assoc. }
    rewrite (moves_zero_copy _ _ _ _ M1), <- orb_assoc in M2. eapply moves_trans; [exact M1|].
    replace (bool_decide (str "ZeroCopy" ∈ n :: n' :: l)) with (bool_decide (n = str "ZeroCopy") || bool_decide (str "ZeroCopy" ∈ n' :: l)); [done|].
    rewrite <- bool_decide_or. apply bool_decide_ext. set_solver.
Qed.
Lemma chan_byte b rest s c ch (w : W) : ready s -> is_data s = b :: rest ->
  exists s', moves s (os_supports_zero_copy s) rest s' /\ on_chan c read_stream (with_trans c ch s w) = (Ok b, with_trans c ch s' w).
Proof. intros Hs HD. apply (chan_reads read_stream b [b]); [|done..]. intros out. apply @reads_stream. Qed.

Lemma chan_peek b rest s c ch (w : W) : ready s -> is_data s = b :: rest ->
  exists s', moves s (os_supports_zero_copy s) (b :: rest) s' /\ on_chan c peek_stream (with_trans c ch s w) = (Ok b, with_trans c ch s' w).
Proof.
  intros [Hw Ho] HD. destruct (peek_cons s b rest Hw HD) as (s' & E & Hw' & HD' & HM'). destruct (cs_peek _ _ _ Hw Ho E) as [Ho' E'].
  exists s'. split; [done|]. by apply on_chan_at.
Qed.

Lemma chan_end s c ch (w : W) : ready s -> is_data s = [] ->
  exists s', os_wf s' /\ channel_out s' = channel_out s /\ on_chan c read_stream (with_trans c ch s w) = (Ok (is_mark s), with_trans c ch s' w).
Proof.
  intros [Hw Ho] HD. destruct (read_nil s Hw HD) as (s' & E). destruct (cs_read _ _ _ Hw Ho E) as [Ho' E'].
  exists s'. split; [done|]. split; [done|]. by apply on_chan_at.
Qed.

(** The list of services of the peer: its members end with zeros, and the list is
    null when the peer has sent no names. *)
Definition peer_list (names : list bytes) : option (list bytes) :=
  match names with [] => None | _ => Some ((fun n => n ++ [0]) <$> names) end.

Definition hello_received_state (st : ChannelState) : ChannelState :=
  if bool_decide (st = ChannelStateStarted) then ChannelStateHelloReceived else ChannelStateConnected.

Lemma names_fuel l : forall n rest, (length l < length (names_text (n :: l) ++ rest))%nat.
Proof.
  assert (HL : forall l, (length l <= length (more_text l))%nat).
  { intros k. induction k as [|n k IH]; [done|]. rewrite more_text_cons, length_app. simpl. lia. }
  intros n rest. cbn [names_text]. rewrite !length_app. pose proof (HL l). unfold string_text. cbn. lia.
Qed.

(** The brackets and what is between them. *)
Lemma read_names_ok c names s rest ch (w : W) t : Forall service_name names -> ready s -> tmp_ok t ->
  is_data s = names_text names ++ #"]" :: rest ->
  exists s' t', moves s (os_supports_zero_copy s || bool_decide (str "ZeroCopy" ∈ names)) rest s' /\ tmp_ok t' /\
    (p ← on_chan c peek_stream;
     if p =? #"]" then on_chan c read_stream ;; mret []
     else fuel ← chan_fuel c; read_services fuel c []) (with_trans c ch s (set_w_tmp t w)) =
      (Ok (default [] (peer_list names)), with_trans c ch s' (set_w_tmp t' w)).
Proof.
  intros HF Hs Ht HD. destruct names as [|n l].
  - destruct (chan_peek #"]" rest s c ch (set_w_tmp t w) Hs HD) as (s1 & M1 & E1).
    destruct (chan_byte #"]" rest s1 c ch (set_w_tmp t w) (moves_ready _ _ _ _ M1) (moves_data _ _ _ _ M1)) as (s2 & M2 & E2).
    exists s2, t. split; [|split; [done|]].
    + rewrite (moves_zero_copy _ _ _ _ M1) in M2. replace (bool_decide (str "ZeroCopy" ∈ [])) with false by (symmetry; apply bool_decide_eq_false; set_solver).
      rewrite orb_false_r. by eapply moves_trans.
    + rewrite (bind_ok _ _ _ _ _ E1). change (#"]" =? #"]") with true. cbv iota. by rewrite (bind_ok _ _ _ _ _ E2).
  - pose proof HD as HD0. cbn [names_text] in HD0. unfold string_text in HD0. cbn [app] in HD0.
    destruct (chan_peek 34 _ s c ch (set_w_tmp t w) Hs HD0) as (s1 & M1 & E1).
    pose proof (moves_data _ _ _ _ M1) as HD1. rewrite <- HD0, HD in HD1.
    destruct (read_services_ok c l n (is_fuel s1) [] s1 rest ch w t HF (moves_ready _ _ _ _ M1) Ht HD1) as (s2 & t2 & M2 & Ht2 & E2).
    { pose proof (is_data_fuel s1 (proj1 (moves_ready _ _ _ _ M1))) as HFu. rewrite HD1 in HFu. pose proof (names_fuel l n (#"]" :: rest)). lia. }
    exists s2, t2. split; [|split; [done|]].
    + rewrite (moves_zero_copy _ _ _ _ M1) in M2. by eapply moves_trans.
    + rewrite (bind_ok _ _ _ _ _ E1). change (34 =? #"]") with false. cbv iota. unfold chan_fuel.
      rewrite bind_assoc, (bind_ok _ _ _ _ _ (get_channel_at c ch s1 _)), ret_bind. exact E2.
Qed.

Lemma upd_channel_at f c ch s (w : W) : (forall ch, c_trans (f ch) = c_trans ch) ->
  (forall ch, set_c_trans s (f (set_c_trans s ch)) = set_c_trans s (f ch)) ->
  upd_channel c f (with_trans c ch s w) = (Ok tt, with_trans c (f ch) s w).
Proof.
  intros Hf Hs. unfold upd_channel. rewrite (bind_ok _ _ _ _ _ (get_channel_at c ch s w)). unfold modify. do 2 f_equal. unfold with_trans, set_channels. cbn.
  rewrite insert_insert_eq. do 2 f_equal. rewrite <- Hs. specialize (Hf (set_c_trans s ch)). destruct (f (set_c_trans s ch)). cbn in *. by subst.
Qed.

Lemma hello_received c names s ch (w : W) t : Forall service_name names -> ready s -> tmp_ok t ->
  is_data s = hello_args names -> is_mark s = MARKER_EOM ->
  ch_state s = ChannelStateStarted \/ ch_state s = ChannelStateHelloSent ->
  exists s' t', os_wf s' /\ tmp_ok t' /\
    channel_out s' = (os_data s, bool_decide (str "ZeroCopy" ∈ names), hello_received_state (ch_state s)) /\
    event_locator_hello c (with_trans c ch s (set_w_tmp t w)) =
      (if bool_decide (ch_state s = ChannelStateStarted) then mret tt else connect_done c)
        (with_trans c (set_peer_services (peer_list names) ch) s' (set_w_tmp t' w)).
Proof.
  intros HF Hs Ht HD HM Hst. unfold event_locator_hello.
  destruct (set_zero_copy_at false s c ch (set_w_tmp t w) Hs) as (s1 & M1 & E1).
  pose proof (moves_data _ _ _ _ M1) as D1. rewrite HD in D1. unfold hello_args in D1.
  destruct (chan_reads read_no_whitespace #"[" ([] ++ [ #"["]) (names_text names ++ [ #"]"; 0]) s1 c ch (set_w_tmp t w)) as (s2 & M2 & E2);
    [intros out; by apply @reads_ws|by eapply moves_ready|by rewrite D1|].
  destruct (read_names_ok c names s2 [0] ch w t HF (moves_ready _ _ _ _ M2) Ht (moves_data _ _ _ _ M2)) as (s3 & t3 & M3 & Ht3 & E3).
  destruct (chan_byte 0 [] s3 c ch (set_w_tmp t3 w) (moves_ready _ _ _ _ M3) (moves_data _ _ _ _ M3)) as (s4 & M4 & E4).
  destruct (chan_end s4 c ch (set_w_tmp t3 w) (moves_ready _ _ _ _ M4) (moves_data _ _ _ _ M4)) as (s5 & Ho5 & O5 & E5).
  assert (MM : moves s (bool_decide (str "ZeroCopy" ∈ names)) [] s4).
  { rewrite (moves_zero_copy _ _ _ _ M3), (moves_zero_copy _ _ _ _ M2), (moves_zero_copy _ _ _ _ M1) in M4.
    eapply moves_trans; [exact M1|]. eapply moves_trans; [exact M2|]. eapply moves_trans; [exact M3|exact M4]. }
  destruct MM as (_ & _ & O4 & _ & HM4). rewrite HM4, HM in E5. rewrite O4 in O5.
  assert (Hst5 : ch_state s5 = ch_state s) by exact (f_equal snd O5).
  assert (Hx : disconnected (hello_received_state (ch_state s)) = false) by (unfold hello_received_state; destruct (bool_decide (ch_state s = _)); reflexivity).
  destruct (cs_state (hello_received_state (ch_state s)) s5 Hx Ho5) as (Ho6 & O6 & _).
  exists (set_ch_state (hello_received_state (ch_state s)) s5), t3. split; [done|]. split; [done|]. split.
  { rewrite O6. unfold channel_out in O5. by injection O5 as -> -> _. }
  rewrite (bind_ok _ _ _ _ _ E1), (bind_ok _ _ _ _ _ E2). change (negb (#"[" =? #"[")) with false. cbv iota.
  rewrite <- bind_assoc, (bind_ok _ _ _ _ _ E3), (bind_ok _ _ _ _ _ E4). cbn [Z.eqb negb]. rewrite (bind_ok _ _ _ _ _ E5).
  change (negb (MARKER_EOM =? MARKER_EOM)) with false. cbv iota. rewrite (bind_ok _ _ _ _ _ (state_of_at c ch s5 _)), Hst5.
  replace (negb (bool_decide (ch_state s = ChannelStateStarted)) && negb (bool_decide (ch_state s = ChannelStateHelloSent))) with false
    by (destruct Hst as [-> | ->]; done). cbv iota.
  replace (match default [] (peer_list names) with [] => None | _ => Some (default [] (peer_list names)) end) with (peer_list names) by (by destruct names).
  rewrite (bind_ok _ _ _ _ _ (upd_channel_at (set_peer_services (peer_list names)) c ch s5 _ (fun _ => eq_refl) (fun _ => eq_refl))).
  unfold hello_received_state. destruct (bool_decide (ch_state s = ChannelStateStarted)); [apply set_state_at|]. by rewrite (bind_ok _ _ _ _ _ (set_state_at _ c _ s5 _)).
Qed.
End receive.

(** ** The handshake *)

Lemma announced_names {Ch U} (ch : Channel Ch) (w : World Ch U) :
  Forall (fun s => service_name (si_name s)) (w_services w) -> Forall service_name (announced ch w).
Proof.
  intros Hl. apply Forall_app. split; [destruct (c_disable_zero_copy ch); by repeat constructor; apply zero_copy_name|].
  apply Forall_fmap, Forall_forall. intros s [_ Hin]%list_elem_of_filter. rewrite Forall_forall in Hl. by apply Hl.
Qed.

Lemma locator_name : short LOCATOR /\ short (str "Hello").
Proof. split; (split; [repeat constructor; done|done]). Qed.

Lemma finish_eq {Ch U} (m m' : M (World Ch U) unit) w w' : m w = m' w' -> finish m w = finish m' w'.
Proof. intros E. unfold finish, try_trap, mbind, M_bind. by rewrite E. Qed.

(** C8: The handshake.  An agent announces the services of its protocol, and zero
    copy unless it is disabled; an agent that receives this text, [sb], has exactly
    these names as the services of its peer and uses zero copy as announced.
    [connect_done] is called by whichever of the two comes second on a channel. *)
Theorem protocol_hello {Ch1 U1 Ch2 U2} `{ChannelSpec Ch1} `{!Handlers Ch1 U1} `{ChannelSpec Ch2} `{!Handlers Ch2 U2}
    (wa : World Ch1 U1) ca cha (wb : World Ch2 U2) cb chb sb tb :
  let names := announced cha wa in
  w_channels wa !! ca = Some cha -> os_wf (c_trans cha) -> Forall (fun s => service_name (si_name s)) (w_services wa) ->
  ch_state (c_trans cha) = ChannelStateStarted \/ ch_state (c_trans cha) = ChannelStateHelloReceived ->
  reading sb (hello_text names) sb -> is_mark sb = MARKER_EOM -> tmp_ok tb ->
  ch_state sb = ChannelStateStarted \/ ch_state sb = ChannelStateHelloSent ->
  (exists sa', os_wf sa' /\ os_data sa' = os_data (c_trans cha) ++ hello_text names ++ [MARKER_EOM] /\
     ch_state sa' = hello_sent_state (ch_state (c_trans cha)) /\
     send_hello_message ca wa =
       (if bool_decide (ch_state (c_trans cha) = ChannelStateStarted) then mret tt else connect_done ca) (with_trans ca cha sa' wa)) /\
  (exists sb' tb', os_wf sb' /\ tmp_ok tb' /\
     channel_out sb' = (os_data sb, bool_decide (str "ZeroCopy" ∈ names), hello_received_state (ch_state sb)) /\
     handle_protocol_message cb (with_trans cb chb sb (set_w_tmp tb wb)) =
       finish (if bool_decide (ch_state sb = ChannelStateStarted) then mret tt else connect_done cb)
         (with_trans cb (set_peer_services (peer_list names) chb) sb' (set_w_tmp tb' wb))).
Proof.
  intros names HC Ho HN Hsa HR HM Ht Hsb. split; [by apply send_hello_ok|].
  destruct (event_dispatch LOCATOR (str "Hello") (hello_args names) sb sb cb chb (set_w_tmp tb wb) (proj1 locator_name) (proj2 locator_name) HR)
    as (s1 & HR1 & E1). pose proof (reading_state _ _ _ HR1) as Hst. destruct HR1 as ((Hw1 & Ho1 & O1) & D1 & M1).
  destruct (hello_received cb names s1 chb wb tb (announced_names _ _ HN) (conj Hw1 Ho1) Ht D1 ltac:(congruence) ltac:(by rewrite Hst))
    as (s2 & t2 & Ho2 & Ht2 & O2 & E2). exists s2, t2. split; [done|]. split; [done|].
  rewrite Hst in E2, O2. split; [rewrite O2; exact (f_equal (fun x => (x.1.1, bool_decide (str "ZeroCopy" ∈ names), hello_received_state (ch_state sb))) O1)|].
  rewrite E1, (bool_decide_eq_true_2 (LOCATOR = LOCATOR)), (bool_decide_eq_true_2 (str "Hello" = str "Hello")), !andb_true_r by done.
  replace (bool_decide (ch_state sb = ChannelStateStarted) || bool_decide (ch_state sb = ChannelStateHelloSent)) with true
    by (destruct Hsb as [-> | ->]; done). by apply finish_eq.
Qed.
