(* ===== verification/ProtocolClose.v ===== *)
(** * Protocol: closed channels

    When a channel is closed, every command that waits for a reply on it is told
    so, once; the other commands keep waiting. *)

From stdpp Require Import gmap.
From S2P Require Import Prelude Streams JsonTmp ChannelTcp Protocol ProtocolTable ProtocolMsg.

(** ** The list of replies, walked by its cells *)

Lemma NoDup_drop_middle {A} (l k : list A) x : NoDup (l ++ x :: k) -> NoDup (l ++ k).
Proof. rewrite !NoDup_app, NoDup_cons. intros (? & HN & ? & ?). split; [done|]. split; [|done]. intros y Hy Hk. apply (HN y Hy). by right. Qed.

Definition prev_id (pre : list ReplyHandlerInfo) : option Z := rh_id <$> last pre.

Lemma from_cell_ok x pre rest : NoDup (rh_id <$> pre ++ x :: rest) -> from_cell (rh_id x) (pre ++ x :: rest) = Some rest.
Proof.
  induction pre as [|y pre IH]; cbn [app from_cell].
  - intros _. by rewrite Z.eqb_refl.
  - rewrite fmap_cons. intros [Hy HD]%NoDup_cons. destruct (Z.eqb_spec (rh_id y) (rh_id x)) as [E|]; [|by apply IH].
    contradict Hy. rewrite E. apply list_elem_of_fmap. exists x. split; [done|]. set_solver.
Qed.

Lemma set_cell_from_ok x pre l k : NoDup (rh_id <$> pre ++ x :: l) -> set_cell_from (rh_id x) k (pre ++ x :: l) = pre ++ x :: k.
Proof.
  induction pre as [|y pre IH]; cbn [app set_cell_from].
  - intros _. by rewrite Z.eqb_refl.
  - rewrite fmap_cons. intros [Hy HD]%NoDup_cons. destruct (Z.eqb_spec (rh_id y) (rh_id x)) as [E|]; [|by rewrite IH].
    contradict Hy. rewrite E. apply list_elem_of_fmap. exists x. split; [done|]. set_solver.
Qed.

Lemma cell_at pre rest : NoDup (rh_id <$> pre ++ rest) -> cell (prev_id pre) (pre ++ rest) = Some rest.
Proof.
  unfold prev_id. destruct pre as [|x pre _] using rev_ind; [done|]. rewrite last_snoc, <- app_assoc. cbn. apply from_cell_ok.
Qed.

Lemma set_cell_at pre rest k : NoDup (rh_id <$> pre ++ rest) -> set_cell (prev_id pre) k (pre ++ rest) = pre ++ k.
Proof.
  unfold prev_id. destruct pre as [|x pre _] using rev_ind; [done|]. rewrite last_snoc, <- !app_assoc. cbn. apply set_cell_from_ok.
Qed.

(** A command that nobody waits for any more; its reply is read and dropped. *)
Definition silent (rh : ReplyHandlerInfo) : ReplyHandlerInfo := no_handler (rh_id rh) rh.

Lemma no_handler_others id (l : list ReplyHandlerInfo) : id ∉ rh_id <$> l -> no_handler id <$> l = l.
Proof.
  induction l as [|y l IH]; [done|]. rewrite !fmap_cons. intros HN. rewrite IH by set_solver. f_equal. unfold no_handler.
  destruct (Z.eqb_spec (rh_id y) id) as [E|]; [|done]. set_solver.
Qed.

Lemma no_handler_ok x pre rest : NoDup (rh_id <$> pre ++ x :: rest) ->
  no_handler (rh_id x) <$> pre ++ x :: rest = pre ++ silent x :: rest.
Proof.
  rewrite fmap_app, fmap_cons. intros (_ & Hpre & [Hx _]%NoDup_cons)%NoDup_app. rewrite fmap_app, fmap_cons. f_equal; [|f_equal; by apply no_handler_others].
  apply no_handler_others. intros Hin. apply (Hpre _ Hin). left.
Qed.

Lemma silent_id x : rh_id (silent x) = rh_id x.
Proof. unfold silent, no_handler. by rewrite Z.eqb_refl. Qed.

(** What is left of a list: without the commands of a channel that is gone, or
    with silent ones while the transport may still get their replies. *)
Definition closed_list (c : Z) (gone : bool) (l : list ReplyHandlerInfo) : list ReplyHandlerInfo :=
  if gone then filter (fun rh => rh_c rh <> c) l else (fun rh => if rh_c rh =? c then silent rh else rh) <$> l.

(** A command of the channel that can still be found is silent. *)
Lemma closed_list_find c t gone l rh : find (match_reply c t) (closed_list c gone l) = Some rh -> gone = false /\ rh_handler rh = None.
Proof.
  unfold find. intros ([i rh'] & (Hl & Hm & _)%list_find_Some & [= <-])%fmap_Some. apply Is_true_eq_true, match_reply_iff in Hm. injection Hm as Hc _.
  apply list_elem_of_lookup_2 in Hl. destruct gone; cbn [closed_list] in Hl.
  - by apply list_elem_of_filter in Hl as [? _].
  - split; [done|]. apply list_elem_of_fmap in Hl as (x & -> & _). destruct (Z.eqb_spec (rh_c x) c) as [E|E]; [|done].
    unfold silent, no_handler. by rewrite Z.eqb_refl.
Qed.

Section close.
Context {Ch U : Type} `{ChannelSpec Ch} `{!Handlers Ch U}.

Abbreviation W := (World Ch U).

(** The call backs end, with or without an error, and change only the services. *)
Context (call : Z -> Z -> Z -> Z -> U -> U).
Definition quiet : Prop := forall h c d e (w : W), exists r,
  reply_handler h c d e w = (r, set_user (call h c d e (w_user w)) w) /\ (r = Ok tt \/ exists n, r = Exc n).

Definition told (c : Z) (u : U) (rh : ReplyHandlerInfo) : U :=
  match rh_handler rh with Some h => call h c (rh_client_data rh) ERR_CHANNEL_CLOSED u | None => u end.

Lemma told_ok c rh (w : W) : quiet -> exists n,
  try_trap (match rh_handler rh with
            | Some f => reply_handler f c (rh_client_data rh) ERR_CHANNEL_CLOSED
            | None => mret tt
            end) w = (Ok n, set_user (told c (w_user w) rh) w).
Proof.
  intros Hq. unfold told, try_trap. destruct (rh_handler rh) as [h|]; [|exists 0; by destruct w].
  destruct (Hq h c (rh_client_data rh) ERR_CHANNEL_CLOSED w) as (r & E & Hr). rewrite E.
  destruct Hr as [-> |[n ->]]; by eexists.
Qed.

(** [w] after a list has been worked off. *)
Definition closing (i : nat) (u : U) (l : list ReplyHandlerInfo) (w : W) : W :=
  set_user u (set_reply_handlers (<[i := l]> (w_reply_handlers w)) w).

Lemma closing_bucket i u l (w : W) : (i < length (w_reply_handlers w))%nat -> get_bucket i (closing i u l w) = (Ok l, closing i u l w).
Proof. intros Hi. unfold get_bucket. rewrite (bind_ok get _ _ _ _ eq_refl). cbn. by rewrite list_lookup_insert_eq. Qed.

Lemma closing_put i u l k (w : W) : put_bucket i k (closing i u l w) = (Ok tt, closing i u k w).
Proof. unfold put_bucket, modify, closing, set_user, set_reply_handlers. cbn. by rewrite list_insert_insert_eq. Qed.

Lemma closing_user i u u' l (w : W) : set_user u' (closing i u l w) = closing i u' l w.
Proof. done. Qed.

Lemma close_replies_ok c i ch (w : W) : quiet -> w_channels w !! c = Some ch -> (i < length (w_reply_handlers w))%nat ->
  let gone := bool_decide (ch_state (c_trans ch) = ChannelStateDisconnected) in
  forall rest fuel pre u, NoDup (rh_id <$> pre ++ rest) -> (length rest < fuel)%nat ->
  close_replies fuel c i (prev_id pre) (closing i u (pre ++ rest) w) =
    (Ok tt, closing i (fold_left (told c) (filter (fun rh => rh_c rh = c) rest) u) (pre ++ closed_list c gone rest) w).
Proof.
  intros Hq HC Hi gone. induction rest as [|rh rest IH]; intros fuel pre u HD Hf; (destruct fuel as [|fuel]; [simpl in Hf; lia|]); cbn [close_replies];
    rewrite (bind_ok _ _ _ _ _ (closing_bucket i u _ w Hi)), (cell_at pre _ HD); cbn [of_option]; rewrite ret_bind.
  { replace (closed_list c gone []) with (@nil ReplyHandlerInfo) by (by destruct gone). done. }
  assert (HI : forall rh', rh_id rh' = rh_id rh ->
    close_replies fuel c i (Some (rh_id rh)) (closing i (if rh_c rh =? c then told c u rh else u) (pre ++ rh' :: rest) w) =
      (Ok tt, closing i (fold_left (told c) (filter (fun rh => rh_c rh = c) rest) (if rh_c rh =? c then told c u rh else u))
        (pre ++ rh' :: closed_list c gone rest) w)).
  { intros rh' Hrh'. specialize (IH fuel (pre ++ [rh']) (if rh_c rh =? c then told c u rh else u)). rewrite <- !app_assoc in IH. cbn [app] in IH.
    unfold prev_id in IH. rewrite last_snoc in IH. cbn in IH. rewrite Hrh' in IH. apply IH; [|simpl in Hf; lia].
    rewrite !fmap_app, !fmap_cons, Hrh' in *. exact HD. }
  rewrite filter_cons. destruct (Z.eqb_spec (rh_c rh) c) as [E|E].
  2: { rewrite decide_False by done. rewrite HI by done. unfold closed_list. destruct gone; [by rewrite filter_cons, decide_True by done|].
       rewrite fmap_cons. by replace (rh_c rh =? c) with false by lia. }
  rewrite decide_True by done. cbn [fold_left]. destruct (told_ok c rh (closing i u (pre ++ rh :: rest) w) Hq) as (n & ET).
  rewrite (bind_ok _ _ _ _ _ ET), closing_user. change (w_user (closing i u (pre ++ rh :: rest) w)) with u.
  assert (ES : forall l, state_of c (closing i (told c u rh) l w) = (Ok (ch_state (c_trans ch)), closing i (told c u rh) l w)).
  { intros l. unfold state_of, get_channel. rewrite bind_assoc, (bind_ok get _ _ _ _ eq_refl). cbn [w_channels closing set_user set_reply_handlers].
    by rewrite HC. }
  rewrite (bind_ok _ _ _ _ _ (ES _)), (bind_ok _ _ _ _ _ (closing_bucket i _ _ w Hi)). fold gone. destruct gone eqn:EG; cbn [negb].
  - rewrite (from_cell_ok rh pre rest HD). cbn [of_option]. rewrite ret_bind, (set_cell_at pre _ rest HD), (bind_ok _ _ _ _ _ (closing_put i _ _ _ w)).
    rewrite IH; [|rewrite fmap_app, fmap_cons in HD; rewrite fmap_app; by eapply NoDup_drop_middle|simpl in Hf; lia]. unfold closed_list. rewrite filter_cons. by rewrite decide_False by (by intros []).
  - rewrite (no_handler_ok rh pre rest HD), (bind_ok _ _ _ _ _ (closing_put i _ _ _ w)). rewrite HI by apply silent_id.
    unfold closed_list. rewrite fmap_cons. by replace (rh_c rh =? c) with true by lia.
Qed.

(** The lists one after the other; [bs] is what is left of the table. *)
Lemma close_buckets_ok c ch (w : W) : quiet -> w_channels w !! c = Some ch ->
  let gone := bool_decide (ch_state (c_trans ch) = ChannelStateDisconnected) in
  forall bs pre u, NoDup (rh_id <$> concat bs) ->
  close_buckets c (seq (length pre) (length bs)) (set_user u (set_reply_handlers (pre ++ bs) w)) =
    (Ok tt, set_user (fold_left (told c) (filter (fun rh => rh_c rh = c) (concat bs)) u)
      (set_reply_handlers (pre ++ (closed_list c gone <$> bs)) w)).
Proof.
  intros Hq HC gone. induction bs as [|b bs IH]; intros pre u HD; cbn [length seq close_buckets]; [done|].
  set (w1 := set_user u (set_reply_handlers (pre ++ b :: bs) w)). cbn [concat] in HD. rewrite fmap_app in HD. apply NoDup_app in HD as (HDb & _ & HD).
  assert (Hi : (length pre < length (w_reply_handlers w1))%nat) by (cbn; rewrite length_app; cbn; lia).
  assert (EB : get_bucket (length pre) w1 = (Ok b, w1)).
  { unfold get_bucket. rewrite (bind_ok get _ _ _ _ eq_refl). cbn. by rewrite list_lookup_middle. }
  rewrite (bind_ok _ _ _ _ _ EB).
  assert (EI : forall k, <[length pre := k]> (pre ++ b :: bs) = (pre ++ [k]) ++ bs).
  { intros k. rewrite <- (Nat.add_0_r (length pre)), insert_app_r, <- app_assoc. done. }
  pose proof (close_replies_ok c (length pre) ch w1 Hq HC Hi b (S (length b)) [] u HDb ltac:(lia)) as EC. cbn [prev_id app last fmap option_fmap option_map] in EC.
  assert (EW : closing (length pre) u b w1 = w1).
  { unfold closing. cbn [w1 w_reply_handlers set_user set_reply_handlers]. rewrite EI, <- app_assoc. done. }
  rewrite EW in EC. rewrite (bind_ok _ _ _ _ _ EC). fold gone. unfold closing. cbn [w1 w_reply_handlers set_user set_reply_handlers]. rewrite EI.
  specialize (IH (pre ++ [closed_list c gone b]) (fold_left (told c) (filter (fun rh => rh_c rh = c) b) u) HD).
  rewrite length_app, Nat.add_1_r in IH. etransitivity; [exact IH|]. do 2 f_equal.
  - cbn [concat]. by rewrite filter_app, fold_left_app.
  - by rewrite <- app_assoc.
Qed.
End close.

(** C14: A closed channel.  Every command that waits for a reply on the channel has
    its handler called with [ERR_CHANNEL_CLOSED], exactly once, in the order of the
    table; an error of a handler does not stop the others.  Nothing of the channel
    is left: no event handler, no service, no pending command unless the transport
    can still deliver its reply, and that one has no handler; the commands of other
    channels are not touched. *)
Theorem protocol_channel_closed {Ch U} `{ChannelSpec Ch} `{!Handlers Ch U} call (w : World Ch U) c ch :
  quiet call -> w_channels w !! c = Some ch -> zlen (w_reply_handlers w) = REPLY_HASH_SIZE ->
  NoDup (rh_id <$> concat (w_reply_handlers w)) ->
  let gone := bool_decide (ch_state (c_trans ch) = ChannelStateDisconnected) in
  let pending := filter (fun rh => rh_c rh = c) (concat (w_reply_handlers w)) in
  exists w', channel_closed c w = (Ok tt, w') /\
    w_user w' = fold_left (told call c) pending (w_user w) /\
    w_reply_handlers w' = closed_list c gone <$> w_reply_handlers w /\
    w_event_handlers w' = filter (fun eh => eh_c eh <> c) <$> w_event_handlers w /\
    w_services w' = filter (fun s => si_owner s <> c) (w_services w) /\
    w_channels w' = <[c := set_peer_services None ch]> (w_channels w) /\
    (forall t l rh, find_reply_handler c t true w' = (Ok (Some rh), l) -> gone = false /\ rh_handler rh = None).
Proof.
  intros Hq HC Hz HD gone pending. set (w1 := set_services (filter (fun s => si_owner s <> c) (w_services w))
    (set_event_handlers (filter (fun eh => eh_c eh <> c) <$> w_event_handlers w) w)).
  pose proof (close_buckets_ok call c ch w1 Hq HC (w_reply_handlers w) [] (w_user w) HD) as E. cbn [length app] in E. fold gone pending in E.
  replace (set_user (w_user w) (set_reply_handlers (w_reply_handlers w) w1)) with w1 in E by done.
  set (w2 := set_user _ _) in E. exists (set_channels (<[c := set_peer_services None ch]> (w_channels w)) w2). split.
  { unfold channel_closed, free_services. rewrite (bind_ok (modify _) _ w tt _ eq_refl), (bind_ok (modify _) _ _ tt _ eq_refl).
    replace (Z.to_nat REPLY_HASH_SIZE) with (length (w_reply_handlers w)) by (unfold zlen in Hz; lia). fold w1. rewrite (bind_ok _ _ _ _ _ E).
    unfold upd_channel, get_channel. rewrite bind_assoc, (bind_ok get _ _ _ _ eq_refl). cbn [w2 w_channels set_user set_reply_handlers w1 set_services set_event_handlers].
    by rewrite HC. }
  do 5 (split; [done|]). intros t l rh. unfold find_reply_handler. rewrite (bind_ok get _ _ _ _ eq_refl).
  cbn [w_reply_handlers w2 set_channels set_user set_reply_handlers]. rewrite list_lookup_fmap.
  destruct (w_reply_handlers w !! _) as [b|]; [|done]. cbn [fmap option_fmap option_map of_option]. rewrite ret_bind.
  destruct (find _ _) as [rh'|] eqn:EF; [|done]. cbn. intros [= <- _]. by apply (closed_list_find c t gone b).
Qed.
