(* ===== verification/ProtocolRun.v ===== *)
(** * The TCP channel as a channel of the protocol

    Reading a channel does not disturb its output and writing does not change its
    state, so a TCP channel fulfils what the protocol relies on. *)

From stdpp Require Import gmap.
From S2P Require Import Prelude Ring Streams JsonWrite JsonRead JsonTmp OutputBuf Wire InputBuf InputBufSpec InputBufScan InputBufDone InputBufRead ChannelTcp ChannelIn ChannelOut Transport ChannelClose Protocol ProtocolTable ProtocolMsg ProtocolSend ProtocolHello ProtocolClose.

(** ** What stays as it is *)

(** [m] keeps what [f] shows of a state that satisfies [P]. *)
Definition keeps {St X A} (P : X -> Prop) (f : St -> X) (m : M St A) : Prop := forall s, P (f s) -> f (m s).2 = f s.

Section keeps.
Context {St X : Type} (P : X -> Prop) (f : St -> X).

Lemma keeps_bind {A B} (m : M St A) (k : A -> M St B) : keeps P f m -> (forall a, keeps P f (k a)) -> keeps P f (m ≫= k).
Proof.
  intros Hm Hk s Hs. specialize (Hm s Hs). unfold mbind, M_bind. destruct (m s) as [[a| | |] s1]; cbn in Hm |- *; try done.
  rewrite Hk; [done|by rewrite Hm].
Qed.

Lemma keeps_ret {A} (a : A) : keeps P f (mret a).
Proof. done. Qed.
Lemma keeps_undef {A} : keeps P f (@undef St A).
Proof. done. Qed.
Lemma keeps_nofuel {A} : keeps P f (@nofuel St A).
Proof. done. Qed.
Lemma keeps_get : keeps P f get.
Proof. done. Qed.
Lemma keeps_gets {A} (g : St -> A) : keeps P f (gets g).
Proof. done. Qed.
Lemma keeps_assert b : keeps P f (assertm b).
Proof. by destruct b. Qed.
Lemma keeps_option {A} (o : option A) : keeps P f (of_option o).
Proof. by destruct o. Qed.
Lemma keeps_modify g : (forall s, f (g s) = f s) -> keeps P f (modify g).
Proof. intros Hg s _. apply Hg. Qed.
Lemma keeps_if {A} (b : bool) (m1 m2 : M St A) : keeps P f m1 -> keeps P f m2 -> keeps P f (if b then m1 else m2).
Proof. by destruct b. Qed.
End keeps.

Create HintDb keeps.
#[export] Hint Resolve keeps_ret keeps_undef keeps_nofuel keeps_get keeps_gets keeps_assert keeps_option : keeps.

(** Through the structure of a function; branches on data are taken apart. *)
Ltac keep :=
  repeat first
    [ solve [auto with keeps]
    | apply keeps_bind; [|intros ?]
    | apply keeps_if
    | apply keeps_modify; solve [by intros []|intros ?; by repeat case_match|done]
    | match goal with |- keeps _ _ (match ?x with _ => _ end) => destruct x end
    | intros ? ].

(** ** Reading *)

Definition connected (x : Z * Z * ChannelState * Z * Z * Z * bool * (option Z * OutputBuffer * Z * OutputQueue * bytes)) : Prop :=
  disconnected x.1.1.1.1.1.2 = false.

Abbreviation keeps_out := (keeps connected out_part).

Lemma keeps_update g : keeps_out (update g).
Proof. by apply keeps_modify. Qed.

Lemma keeps_post_read off n : keeps_out (tcp_post_read off n).
Proof. unfold tcp_post_read. keep. Qed.

Lemma keeps_trigger : keeps_out tcp_trigger_message.
Proof. unfold tcp_trigger_message, post_event. keep. Qed.
#[export] Hint Resolve keeps_update keeps_post_read keeps_trigger : keeps.

Lemma keeps_new_message : keeps_out ibuf_new_message.
Proof. unfold ibuf_new_message. keep. Qed.

Lemma keeps_ibuf_eof : keeps_out ibuf_eof.
Proof. unfold ibuf_eof, ibuf_new_message. keep. Qed.

Lemma keeps_free_size : keeps_out ibuf_free_size.
Proof. unfold ibuf_free_size. keep. Qed.
#[export] Hint Resolve keeps_new_message keeps_ibuf_eof keeps_free_size : keeps.

Lemma keeps_trigger_read : keeps_out ibuf_trigger_read.
Proof. unfold ibuf_trigger_read. keep. Qed.
#[export] Hint Resolve keeps_trigger_read : keeps.

Lemma keeps_done_loop fuel : forall inp len, keeps_out (read_done_loop fuel inp len).
Proof. induction fuel as [|fuel IH]; intros inp len; cbn [read_done_loop]; [keep|]. unfold read_done_esc. cbv zeta. keep. Qed.

Lemma keeps_read_done len : keeps_out (ibuf_read_done len).
Proof. unfold ibuf_read_done, ibuf_read_next. pose proof keeps_done_loop. keep. Qed.
#[export] Hint Resolve keeps_read_done : keeps.

Lemma keeps_socket_read : keeps_out socket_read.
Proof. unfold socket_read. keep. Qed.
#[export] Hint Resolve keeps_socket_read : keeps.

(** A channel that is connected is not unlocked here. *)
Lemma keeps_channel_read_done rval error : keeps_out (tcp_channel_read_done rval error).
Proof.
  unfold tcp_channel_read_done, check_magic. intros c Hc.
  assert (HS : forall c, keeps_out (if negb (disconnected (ct_state c)) then ibuf_read_done (if error =? 0 then rval else 0)
    else if 0 <? (if error =? 0 then rval else 0) then tcp_post_read 0 (ib_buf_size (ct_ibuf c)) else tcp_unlock) \/ disconnected (ct_state c) = true).
  { intros c'. destruct (disconnected (ct_state c')); [by right|left]. cbn [negb]. keep. }
  destruct (HS c) as [HK|HK]; [|unfold connected in Hc; cbn in Hc; congruence].
  rewrite !bind_assoc, (bind_ok get _ c c c eq_refl). destruct (ct_magic c =? CHANNEL_MAGIC); [|done]. cbn [assertm]. rewrite ret_bind, (bind_ok get _ c c c eq_refl).
  destruct (ct_read_pending c); [|done]. destruct (0 <? ct_lock_cnt c); [|done]. cbn [assertm]. rewrite !ret_bind, (bind_ok (modify _) _ c tt _ eq_refl).
  specialize (HK (set_ct_read_pending false c) Hc). exact HK.
Qed.
#[export] Hint Resolve keeps_channel_read_done : keeps.

Lemma keeps_get_more_loop fuel : forall pk out, keeps_out (ibuf_get_more_loop tcp_wait_read fuel pk out).
Proof.
  induction fuel as [|fuel IH]; intros pk out; cbn [ibuf_get_more_loop]; [keep|]. unfold tcp_wait_read. cbv zeta. keep.
Qed.

Lemma keeps_get_more pk : keeps_out (ibuf_get_more tcp_wait_read pk).
Proof.
  intros c Hc. unfold ibuf_get_more. match goal with |- out_part (?m c).2 = _ => assert (HK : keeps_out m) end; [|by apply HK].
  pose proof keeps_get_more_loop. keep.
Qed.
#[export] Hint Resolve keeps_get_more : keeps.

Lemma keeps_read : keeps_out read_stream.
Proof.
  intros c Hc. unfold read_stream. cbn. destruct (slice _ _ _) as [|b w]; [|done]. revert c Hc. change (keeps_out tcp_read_stream).
  unfold tcp_read_stream. cbv zeta. keep.
Qed.

Lemma keeps_peek : keeps_out peek_stream.
Proof.
  intros c Hc. unfold peek_stream. cbn. destruct (slice _ _ _) as [|b w]; [|done]. revert c Hc. change (keeps_out tcp_peek_stream).
  unfold tcp_peek_stream. cbv zeta. keep.
Qed.

(** ** Writing *)

Abbreviation keeps_state := (keeps (fun _ => True) ct_state).

Lemma keeps_out_put l : keeps_state (out_put l).
Proof. unfold out_put. keep. Qed.
Lemma keeps_out_poke p b : keeps_state (out_poke p b).
Proof. unfold out_poke. keep. Qed.

Lemma keeps_lift_queue {A} (m : M OutputQueue A) : keeps_state (lift_queue m).
Proof. intros c _. unfold lift_queue. by destruct (m (ct_out_queue c)). Qed.

Lemma keeps_tcp_lock : keeps_state tcp_lock.
Proof. unfold tcp_lock, check_magic. keep. Qed.
#[export] Hint Resolve keeps_out_put keeps_out_poke keeps_lift_queue keeps_tcp_lock : keeps.

Lemma keeps_with_requests {A} (m : M OutputQueue A) : keeps_state (with_requests m).
Proof. unfold with_requests. keep. Qed.
#[export] Hint Resolve keeps_with_requests : keeps.

Lemma keeps_flush : keeps_state tcp_flush_with_flags.
Proof. unfold tcp_flush_with_flags, check_magic. cbv zeta. keep. Qed.
#[export] Hint Resolve keeps_flush : keeps.

Lemma keeps_write b : keeps_state (tcp_write_stream b).
Proof. unfold tcp_write_stream, check_magic, tcp_bin_block_end, tcp_bin_block_start, flush_full, post_event. cbv zeta. keep. Qed.
#[export] Hint Resolve keeps_write : keeps.

Lemma keeps_write_loop fuel : forall l, keeps_state (tcp_write_block_loop fuel l).
Proof. induction fuel as [|fuel IH]; intros l; cbn [tcp_write_block_loop]; [keep|]. cbv zeta. keep. Qed.

(** ** The instance *)

#[export] Instance tcp_ChannelIf : ChannelIf ChannelTCP := {
  ch_state := ct_state;
  set_ch_state := set_ct_state;
  set_ch_zero_copy := set_ct_zero_copy;
  ch_is_closed := tcp_is_closed;
  ch_lock := tcp_lock;
  ch_unlock := tcp_unlock;
}.

Lemma out_part_data c c' : out_part c' = out_part c -> out_data c' = out_data c.
Proof. destruct c, c'. unfold out_part. cbn. intros E. by injection E as -> -> -> -> -> -> -> -> -> -> -> ->. Qed.

Lemma out_part_state c c' : out_part c' = out_part c -> ct_state c' = ct_state c.
Proof. intros E. exact (f_equal (fun x => x.1.1.1.1.1.2) E). Qed.

Lemma keeps_out_spec {A} (m : M ChannelTCP A) c r c' : keeps_out m -> out_wf c -> m c = (r, c') ->
  out_wf c' /\ channel_out c' = channel_out c.
Proof.
  intros Hm Hc E. assert (HE : out_part c' = out_part c).
  { specialize (Hm c). rewrite E in Hm. apply Hm. unfold connected. destruct Hc as [[] _]. done. }
  split; [by apply (out_part_wf c)|]. unfold channel_out. cbn [os_data os_supports_zero_copy]. f_equal; [f_equal|]; [by apply out_part_data| |by apply out_part_state].
  exact (f_equal (fun x => x.1.2) HE).
Qed.

Lemma set_state_wf x c : disconnected x = false -> out_wf c -> out_wf (set_ct_state x c) /\ out_data (set_ct_state x c) = out_data c.
Proof. intros Hx [[] He]. split; [|done]. split; [by constructor|exact He]. Qed.

#[export] Program Instance tcp_ChannelSpec : ChannelSpec ChannelTCP.
Next Obligation. right. by left. Qed.
Next Obligation. intros s x s' _ Ho E. by apply (keeps_out_spec _ _ _ _ keeps_read Ho E). Qed.
Next Obligation. intros s x s' _ Ho E. by apply (keeps_out_spec _ _ _ _ keeps_peek Ho E). Qed.
Next Obligation. intros l s s' _ E. pose proof (keeps_out_put l s I) as H. cbn in E. by rewrite E in H. Qed.
Next Obligation. intros b s s' _ E. pose proof (keeps_write b s I) as H. cbn in E. by rewrite E in H. Qed.
Next Obligation. intros l s s' _ E. pose proof (keeps_write_loop (S (length l)) l s I) as H. change (os_write_block l s) with (tcp_write_block_loop (S (length l)) l s) in E.
  by rewrite E in H. Qed.
Next Obligation.
  intros c [[] _]. cbn. unfold tcp_is_closed, check_magic. rewrite bind_assoc, (bind_ok get _ c c c eq_refl), oo_magic, Z.eqb_refl.
  cbn [assertm]. rewrite ret_bind, (bind_ok get _ c c c eq_refl). pose proof (b2z_range (0 <? ct_out_flush_cnt c)).
  pose proof (b2z_range (request_posted (ct_out_queue c))). by replace (0 <? ct_lock_cnt c) with true by lia.
Qed.
Next Obligation.
  intros x c Hx Hc. destruct (set_state_wf x c Hx Hc) as [Hw Hd]. split; [exact Hw|]. split; [exact (f_equal (fun d => (d, _, _)) Hd)|].
  intros (nxt & ef & [[HM [HL HS]] HR]). split; [|done]. exists nxt, ef. split; [|exact HR]. split; [done|]. split; [done|]. cbn. intros E. by rewrite E in Hx.
Qed.
Next Obligation.
  intros x c [Hok He]. destruct (set_zero_copy_ok x c _ Hok He) as [Hok' He'].
  assert (HD : out_data (set_ct_zero_copy x c) = out_data c) by done.
  split; [split; [exact Hok'|exact He']|]. split; [exact (f_equal (fun d => (d, _, _)) HD)|].
  intros (nxt & ef & [HL HR]). split; [|done]. exists nxt, ef. split; [exact HL|exact HR].
Qed.

(** ** A channel with a message *)

Lemma keeps_read_event : keeps_out read_event.
Proof. unfold read_event. keep. Qed.

Lemma keeps_receive fuel : keeps_out (receive_loop fuel).
Proof. pose proof keeps_read_event. induction fuel as [|fuel IH]; cbn [receive_loop]; [keep|]. keep. Qed.

Lemma keeps_start : keeps_out (start_channel (mret tt)).
Proof. unfold start_channel, check_magic. keep. Qed.

(** A channel that is about to read a message. *)
Lemma message_channel st data : disconnected st = false -> is_bytes data -> ESC ∉ data ->
  exists c, reading c data c /\ ct_state c = st /\ is_mark c = MARKER_EOM.
Proof.
  intros Hst Hd HE. set (net := data ++ [ESC; 1]).
  destruct (create_channel_ok 4 [] net [] 104) as (c0 & E0 & Hok & He & _ & _ & _ & Hn & Hib & Hr); [lia|by split|].
  assert (HO : out_wf c0) by (unfold out_wf; by rewrite (encodes_data _ _ _ He)).
  assert (HW : wrun WPlain net = Some (WPlain, data ++ [MARKER_EOM])).
  { unfold net. rewrite (wrun_step WPlain data [ESC; 1] WPlain data) by (by apply wrun_plain). done. }
  destruct (start_channel_ok c0 net (data ++ [MARKER_EOM]) WPlain Hok Hib Hn Hr) as (c1 & E1 & Hc1 & N1);
    [unfold net; apply bytes_app; [done|by repeat constructor]|exact HW|by rewrite eos_app, bytes_eos|].
  destruct (keeps_out_spec _ _ _ _ keeps_start HO E1) as (HO1 & _).
  destruct (receive_ok (S (length (ct_net c1))) c1 data [] Hc1) as (c2 & E2 & (Hl & Hb & _ & Hf) & HT & _); [lia|].
  destruct (keeps_out_spec _ _ _ _ (keeps_receive _) HO1 E2) as (HO2 & _).
  destruct (run_start_message [] false _ _ _ data Hb Hd HT Hf eq_refl) as [_ HR].
  set (c3 := set_ct_ibuf (set_ib_handling_msg HandleMsgActive (ct_ibuf c2)) c2).
  assert (HR3 : channel_readable [] false c3 data) by (split; [exact Hl|exact HR]).
  destruct (out_wf_ibuf (set_ib_handling_msg HandleMsgActive (ct_ibuf c2)) c2 HO2) as [HO3 _].
  pose proof (cs_state (Ch := ChannelTCP) st c3 Hst) as HC. destruct (HC HO3) as (HO4 & HO5 & HI).
  destruct HI as (HW4 & HD4 & HM4); [exists [], false; by rewrite (channel_readable_data _ _ _ _ HR3)|].
  exists (set_ct_state st c3). split; [|split; [exact (f_equal snd HO5)|done]]. split; [done|]. split; [|done].
  change (is_data c3) with (channel_data c3) in HD4. rewrite (channel_readable_data _ _ _ _ HR3) in HD4. exact HD4.
Qed.

(** ** Protocol: agents over TCP

    Concrete worlds, with TCP channels and services that keep a log of their
    calls, in which the theorems about the protocol apply. *)

Definition log {Ch} (l : list Z) : M (World Ch (list Z)) unit := modify (fun w => set_user (w_user w ++ l) w).

#[export] Instance log_Handlers {Ch} : Handlers Ch (list Z) := {
  command_handler h _ c d := log [h; c; d];
  default_handler h c _ d := log [h; c; d];
  reply_handler h c d e := log [h; c; d; e];
  progress_handler h c d := log [h; c; d];
  event_handler h c d := log [h; c; d];
  connected_handler h c := log [h; c];
  open_listeners := [];
  close_listeners := [None];
  client_connected := [];
  client_disconnected := [];
}.

Lemma log_quiet {Ch} `{ChannelSpec Ch} : quiet (Ch := Ch) (fun h c d e u => u ++ [h; c; d; e]).
Proof. intros h c d e w. exists (Ok tt). split; [done|by left]. Qed.

(** An agent with one channel, at 1, and one protocol, at 2. *)
Definition the_channel (c : ChannelTCP) : Channel ChannelTCP := Build_Channel 2 (Some [str "Memory" ++ [0]]) 0 false true None c.
Definition agent (c : ChannelTCP) : World ChannelTCP (list Z) :=
  set_services [Build_ServiceInfo 2 (str "Memory")]
    (set_channels {[1 := the_channel c]} (set_protocols {[2 := Build_Protocol 0 1 1 None 0]} (start_world []))).

Lemma agent_can_send c : os_wf c -> disconnected (ct_state c) = false -> can_send 1 (the_channel c) (agent c).
Proof.
  intros Ho Hst. split; [cbn; by rewrite lookup_singleton_eq|]. split; [done|]. split; [done|]. split; [done|].
  exists (Build_Protocol 0 1 1 None 0). split; [cbn; by rewrite lookup_singleton_eq|done].
Qed.

Lemma agent_waiting c : waiting (agent c) [].
Proof. split; [cbn; apply (table_start rh_hash)|constructor]. Qed.

Lemma protocol_registry_witness :
  let ops := [RegAlloc; RegCommand 1 (str "A") (str "b") 7 0; RegReference 1; RegCommand 1 (str "A") (str "b") 8 0; RegRelease 1] in
  exists w, run_regs ops (start_world (Ch := ChannelTCP) ([] : list Z)) = (Ok tt, w) /\
    mh_handler <$> find_message_handler 1 (str "A") (str "b") w = Some 8 /\
    p_lock_cnt <$> w_protocols w !! 1 = Some 1.
Proof.
  intros ops. destruct (protocol_registry (Ch := ChannelTCP) ([] : list Z) ops) as (w & E & HF & _ & HL & _); [by repeat constructor|].
  exists w. split; [exact E|]. rewrite HF, HL. vm_compute. done.
Defined.

Lemma protocol_rpc_witness : exists c t s w',
  protocol_send_command 1 (str "Memory") (str "get") (Some 5) 7 (agent c) = (Ok 1, w') /\
  os_data s = os_data c ++ command_text (dec_text t) (str "Memory") (str "get") /\
  waiting w' [Build_ReplyHandlerInfo 1 t 1 (Some 5) None 7].
Proof.
  destruct (message_channel ChannelStateConnected []) as (c & ((_ & Ho & _) & _) & Hst & _); [done|constructor|set_solver|].
  destruct (protocol_rpc (Ch2 := ChannelTCP) (U2 := list Z) (agent c) 1 (the_channel c) [] (str "Memory") (str "get") 5 7) as (t & s & w' & E & _ & HS & _ & HW & _);
    [apply agent_can_send; [done|by rewrite Hst]|apply agent_waiting|done|split; [by repeat constructor|done]..|].
  exists c, t, s, w'. split; [exact E|]. split; [apply HS|exact HW].
Defined.

Lemma protocol_hello_witness : exists ca cb w sb,
  reading cb (hello_text [str "ZeroCopy"; str "Memory"]) cb /\
  send_hello_message 1 (agent ca) = (Ok tt, w) /\
  channel_out sb = (os_data cb, true, ChannelStateHelloReceived).
Proof.
  destruct (message_channel ChannelStateStarted (hello_text [str "ZeroCopy"; str "Memory"])) as (c & Hr & Hst & Hm);
    [done|vm_compute; by repeat constructor|vm_compute; set_solver|]. pose proof Hr as ((_ & Ho & _) & _).
  destruct (protocol_hello (U1 := list Z) (U2 := list Z) (agent c) 1 (the_channel c) (agent c) 1 (the_channel c) c tmp_buf_init)
    as [(sa & _ & _ & _ & EA) (sb & tb & _ & _ & EB & _)].
  all: try done.
  - cbn. repeat constructor.
  - by left.
  - by left.
  - cbn [c_trans the_channel ch_state tcp_ChannelIf] in EA, EB. rewrite Hst in EA, EB. exists c, c. eexists. exists sb. split; [exact Hr|]. split; [exact EA|exact EB].
Defined.

Lemma protocol_channel_closed_witness : exists c w',
  let w := set_reply_handlers (reply_table [Build_ReplyHandlerInfo 3 7 1 (Some 5) None 6; Build_ReplyHandlerInfo 4 8 9 (Some 5) None 6]) (agent c) in
  channel_closed 1 w = (Ok tt, w') /\ w_user w' = [5; 1; 6; ERR_CHANNEL_CLOSED].
Proof.
  destruct (message_channel ChannelStateStarted []) as (c0 & _); [done|constructor|set_solver|].
  set (c := set_ct_state ChannelStateDisconnected c0).
  set (w := set_reply_handlers (reply_table [Build_ReplyHandlerInfo 3 7 1 (Some 5) None 6; Build_ReplyHandlerInfo 4 8 9 (Some 5) None 6]) (agent c)).
  destruct (protocol_channel_closed _ w 1 (the_channel c) log_quiet) as (w' & E & HU & _).
  - cbn. by rewrite lookup_singleton_eq.
  - vm_compute. reflexivity.
  - cbn [w w_reply_handlers set_reply_handlers]. replace (rh_id <$> concat _) with [3; 4] by (vm_compute; reflexivity).
    apply NoDup_cons. split; [set_solver|apply NoDup_singleton].
  - exists c, w'. split; [exact E|]. rewrite HU. vm_compute. reflexivity.
Defined.
