(* ===== verification/Errors.v ===== *)
(** * Error reports (framework/errors.c)

    An error number is an errno of the C library, a code of errors.h, or the
    place of a message in a ring of 100 messages; a message may refer to an error
    report, which is shared by counting references.

    Strings are values: the text that [errno_to_str] returns is to be used before
    the next call, as the code does.  The C library is [CLib]. *)

From stdpp Require Import gmap.
From S2P Require Import Prelude Streams JsonWrite JsonRead JsonTmp.

(** Numbers of JSON as the library prints them in a style ([strtod], [snprintf]);
    [strerror], where it succeeds; [gai_strerror]; [clock_gettime] in milliseconds,
    0 when it fails. *)
Class CLib := {
  print_number : bytes -> bytes -> option bytes;
  strerror : Z -> option bytes;
  gai_strerror : Z -> bytes;
  clock_ms : Z;
}.

Definition ERR_BUFFER_OVERFLOW : Z := STD_ERR_BASE + 4.
Definition ERR_MESSAGE_MIN : Z := STD_ERR_BASE + 100.
Definition ERR_MESSAGE_MAX : Z := STD_ERR_BASE + 199.
Definition MESSAGE_CNT : Z := ERR_MESSAGE_MAX - ERR_MESSAGE_MIN + 1.
Definition SRC_GAI : Z := 2.
Definition SRC_MESSAGE : Z := 3.
Definition SRC_REPORT : Z := 4.

Record ErrorReport := {
  er_code : Z;
  er_format : option bytes;
  er_params : list bytes;
  er_time_stamp : Z;
  er_props : list (bytes * bytes);
}.

Record ReportBuffer := {
  rb_pub : ErrorReport;
  rb_posix_code : Z;
  rb_refs : Z;
  rb_gets : Z;
}.

(** [em_report]: the address of the report. *)
Record ErrorMessage := {
  em_source : Z;
  em_error : Z;
  em_text : option bytes;
  em_report : option Z;
}.

(** [e_buf] is what is in [msg_buf], of size [e_buf_max]; [e_reports] are the
    reports that are allocated, [e_brk] is the address of the next one. *)
Record Errors := {
  e_msgs : list ErrorMessage;
  e_msgs_pos : Z;
  e_buf : bytes;
  e_buf_max : Z;
  e_errno : Z;
  e_reports : gmap Z ReportBuffer;
  e_brk : Z;
  e_tmp : TmpBuf;
}.

Definition set_msgs x s := Build_Errors x (e_msgs_pos s) (e_buf s) (e_buf_max s) (e_errno s) (e_reports s) (e_brk s) (e_tmp s).
Definition set_msgs_pos x s := Build_Errors (e_msgs s) x (e_buf s) (e_buf_max s) (e_errno s) (e_reports s) (e_brk s) (e_tmp s).
Definition set_e_buf x max s := Build_Errors (e_msgs s) (e_msgs_pos s) x max (e_errno s) (e_reports s) (e_brk s) (e_tmp s).
Definition set_e_errno x s := Build_Errors (e_msgs s) (e_msgs_pos s) (e_buf s) (e_buf_max s) x (e_reports s) (e_brk s) (e_tmp s).
Definition set_reports x brk s := Build_Errors (e_msgs s) (e_msgs_pos s) (e_buf s) (e_buf_max s) (e_errno s) x brk (e_tmp s).
Definition set_e_tmp x s := Build_Errors (e_msgs s) (e_msgs_pos s) (e_buf s) (e_buf_max s) (e_errno s) (e_reports s) (e_brk s) x.

Definition no_message : ErrorMessage := Build_ErrorMessage 0 0 None None.
Definition errors_start : Errors :=
  Build_Errors (replicate (Z.to_nat MESSAGE_CNT) no_message) 0 [] 0 0 ∅ 1 tmp_buf_init.

Definition set_refs refs gets (r : ReportBuffer) : ReportBuffer := Build_ReportBuffer (rb_pub r) (rb_posix_code r) refs gets.
Definition set_pub p (r : ReportBuffer) : ReportBuffer := Build_ReportBuffer p (rb_posix_code r) (rb_refs r) (rb_gets r).

Abbreviation ME := (M Errors).

(** ** The message buffer *)

Definition realloc_msg_buf : ME unit :=
  s ← get;
  let len := zlen (e_buf s) in
  if (e_buf_max s <=? len + 128) || (len + 2048 <? e_buf_max s) then put (set_e_buf (e_buf s) (len + 256) s) else mret tt.

(** [msg_buf[msg_buf_len++] = ch]. *)
Definition msg_buf_put (ch : Z) : ME unit :=
  s ← get; assertm (zlen (e_buf s) <? e_buf_max s) ;; put (set_e_buf (e_buf s ++ [ch]) (e_buf_max s) s).

Fixpoint append_chars (l : bytes) : ME unit :=
  match l with
  | [] => mret tt
  | ch :: l => realloc_msg_buf ;; msg_buf_put ch ;; append_chars l
  end.

(** ** Reports and messages *)

Definition get_report (r : Z) : ME ReportBuffer := s ← get; of_option (e_reports s !! r).
Definition put_report (r : Z) (x : ReportBuffer) : ME unit :=
  modify (fun s => set_reports (<[r := x]> (e_reports s)) (e_brk s) s).

Definition release_report (report : option Z) : ME unit :=
  match report with
  | None => mret tt
  | Some r =>
      x ← get_report r;
      assertm (rb_gets x <? rb_refs x) ;;
      if rb_refs x - 1 =? 0 then modify (fun s => set_reports (delete r (e_reports s)) (e_brk s) s)
      else put_report r (set_refs (rb_refs x - 1) (rb_gets x) x)
  end.

Definition get_msg (i : Z) : ME ErrorMessage := s ← get; of_option (znth (e_msgs s) i).
Definition put_msg (i : Z) (m : ErrorMessage) : ME unit :=
  s ← get; assertm ((0 <=? i) && (i <? zlen (e_msgs s))) ;; put (set_msgs (<[Z.to_nat i := m]> (e_msgs s)) s).

(** The index of the message. *)
Definition alloc_msg (source : Z) : ME Z :=
  s ← get;
  let pos := e_msgs_pos s in
  modify (set_e_errno (ERR_MESSAGE_MIN + pos)) ;;
  modify (set_msgs_pos (if MESSAGE_CNT <=? pos + 1 then 0 else pos + 1)) ;;
  m ← get_msg pos;
  release_report (em_report m) ;;
  put_msg pos (Build_ErrorMessage source 0 None None) ;;
  mret pos.

Definition is_message (err : Z) : bool := (ERR_MESSAGE_MIN <=? err) && (err <=? ERR_MESSAGE_MAX).

(** A message may refer to another one; the fuel is used up by a message that
    refers to itself. *)
Fixpoint get_error_code (fuel : nat) (no : Z) : ME Z :=
  match fuel with
  | O => nofuel
  | S fuel =>
      if is_message no then
        m ← get_msg (no - ERR_MESSAGE_MIN);
        if (em_source m =? SRC_REPORT) || (em_source m =? SRC_MESSAGE) then
          posix ← (match em_report m with Some r => x ← get_report r; mret (rb_posix_code x) | None => mret 0 end);
          if negb (posix =? 0) then mret posix else get_error_code fuel (em_error m)
        else mret ERR_OTHER
      else mret no
  end.

(** ** Formatting *)

Section format.
Context `{CLib}.

(** The text that [json_read_double] passes to the C library. *)
Definition is_double_char (ch : Z) : bool :=
  ((#"0" <=? ch) && (ch <=? #"9")) || (ch =? #"-") || (ch =? #"+") || (ch =? #"e") || (ch =? #"E") || (ch =? #".").
Fixpoint read_double_loop {St} `{InputStream St} (fuel : nat) (acc : bytes) : M St bytes :=
  match fuel with
  | O => nofuel
  | S fuel =>
      ch ← peek_stream;
      if is_double_char ch then
        if 255 <=? zlen acc then exception ERR_BUFFER_OVERFLOW
        else ch ← read_stream; read_double_loop fuel (acc ++ [ch])
      else if zlen acc =? 0 then exception ERR_JSON_SYNTAX
      else mret acc
  end.
Definition json_read_double_text {St} `{InputStream St} : M St bytes :=
  skip_whitespace ;; with_fuel (fun fuel => read_double_loop (S fuel) []).

(** [p] is JSON text; [None] stands for a null pointer. *)
Definition read_parameter (type style p : bytes) : ME (option bytes) := fun s =>
  let inp := create_byte_array_input_stream p in
  match p with
  | 34 :: _ =>
      let '(r, js) := json_read_alloc_string (Build_json_state inp (e_tmp s)) in
      let s := set_e_tmp (js_tmp js) s in
      match r with
      | Ok x => ((match x with Some x => append_chars (c_str x) | None => mret tt end) ;; mret None) s
      | Exc _ => (Ok (Some p), s)
      | Undef => (Undef, s)
      | NoFuel => (NoFuel, s)
      end
  | _ =>
      if bool_decide (type = str "number") then
        match fst (json_read_double_text inp) with
        | Ok text => (Ok (Some (default p (print_number style text))), s)
        | Exc _ => (Ok (Some p), s)
        | Undef => (Undef, s)
        | NoFuel => (NoFuel, s)
        end
      else (Ok (Some p), s)
  end.

Definition append_format_parameter (type style param : bytes) : ME unit :=
  p ← read_parameter type style param;
  match p with Some p => append_chars p | None => mret tt end.

(** The digits of the number of a parameter, of type [int]. *)
Fixpoint format_index (index : Z) (fmt : bytes) : option (Z * bytes) :=
  match fmt with
  | ch :: l =>
      if (#"0" <=? ch) && (ch <=? #"9") then
        let index := index * 10 + (ch - #"0") in
        if index <? 2 ^ 31 then format_index index l else None
      else Some (index, fmt)
  | [] => Some (index, [])
  end.

(** A word of small letters, of which 15 fit. *)
Fixpoint format_word (acc fmt : bytes) : bytes * bytes :=
  match fmt with
  | ch :: l =>
      if (#"a" <=? ch) && (ch <=? #"z") then format_word (if zlen acc <? 15 then acc ++ [ch] else acc) l
      else (acc, fmt)
  | [] => (acc, [])
  end.

(** [,type,style], where they are there. *)
Definition format_style (fmt : bytes) : bytes * bytes * bytes :=
  match fmt with
  | ch :: l =>
      if ch =? #"," then
        let '(type, l) := format_word [] l in
        match l with
        | ch :: l' => if ch =? #"," then let '(style, l'') := format_word [] l' in (type, style, l'') else (type, [], l)
        | [] => (type, [], [])
        end
      else ([], [], fmt)
  | [] => ([], [], [])
  end.

Fixpoint format_end (fmt : bytes) : bytes :=
  match fmt with ch :: l => if ch =? #"}" then l else format_end l | [] => [] end.

(** The fuel is more than the length of [fmt], which gets shorter in every turn. *)
Fixpoint format_loop (fuel : nat) (fmt : bytes) (params : list bytes) (in_quotes : bool) : ME unit :=
  match fuel with
  | O => nofuel
  | S fuel =>
      match fmt with
      | [] => mret tt
      | ch :: l =>
          realloc_msg_buf ;;
          if in_quotes && (ch =? 39) then format_loop fuel l params false
          else if in_quotes then msg_buf_put ch ;; format_loop fuel l params in_quotes
          else if (ch =? 39) && (default 0 (head l) =? 39) then msg_buf_put ch ;; format_loop fuel (tail l) params in_quotes
          else if ch =? 39 then format_loop fuel l params true
          else if ch =? #"{" then
            '(index, l) ← of_option (format_index 0 l);
            let '(type, style, l) := format_style l in
            (match znth params index with Some p => append_format_parameter type style p | None => mret tt end) ;;
            format_loop fuel (format_end l) params in_quotes
          else msg_buf_put ch ;; format_loop fuel l params in_quotes
      end
  end.

(** The terminating zero is not part of the result. *)
Definition format_error_report_message (fmt : bytes) (params : list bytes) : ME bytes :=
  modify (fun s => set_e_buf [] (e_buf_max s) s) ;;
  format_loop (S (length fmt)) fmt params false ;;
  realloc_msg_buf ;;
  msg_buf_put 0 ;;
  s ← get;
  mret (c_str (e_buf s)).

(** ** Texts *)

Definition error_texts : list (Z * bytes) := [
  (1, str "Unspecified failure"); (2, str "JSON syntax error"); (3, str "Protocol format error");
  (4, str "Buffer overflow"); (5, str "Channel closed"); (6, str "Command canceled"); (7, str "Unknown peer");
  (8, str "Invalid BASE64 string"); (9, str "End of file"); (10, str "Already stopped"); (11, str "Already exited");
  (12, str "Already running"); (13, str "Already attached"); (14, str "Execution context is running");
  (15, str "Invalid data size"); (16, str "Invalid context"); (17, str "Invalid address"); (18, str "Invalid expression");
  (19, str "Format is not supported"); (20, str "Invalid number"); (21, str "Error reading DWARF data");
  (22, str "Symbol not found"); (23, str "Unsupported command"); (24, str "Invalid data type");
  (25, str "Command is not recognized"); (26, str "Invalid transport name"); (27, str "Invalid data cache state");
  (28, str "Context is not active"); (29, str "Invalid address of containing object")
].
Definition error_text (err : Z) : option bytes :=
  (fun x => snd (snd x)) <$> list_find (fun x => fst x = err - STD_ERR_BASE) error_texts.

(** [%08x]. *)
Definition lower_hex_digit (n : Z) : Z := if n <? 10 then #"0" + n else #"a" + (n - 10).
Definition hex8 (x : Z) : bytes := (fun i => lower_hex_digit (Z.land (Z.shiftr (u32 x) (4 * i)) 15)) <$> [7; 6; 5; 4; 3; 2; 1; 0].

Definition posix_strerror (err : Z) : bytes :=
  match strerror err with
  | Some (ch :: l) => ch :: l
  | _ => str "Error 0x" ++ hex8 err
  end.

(** [None] is a null pointer: a message without a text. *)
Fixpoint errno_to_str (fuel : nat) (err : Z) : ME (option bytes) :=
  match fuel with
  | O => nofuel
  | S fuel =>
      match error_text err with
      | Some text => mret (Some text)
      | None =>
          if err =? 0 then mret (Some (str "Success"))
          else if is_message err then
            m ← get_msg (err - ERR_MESSAGE_MIN);
            report ← (match em_report m with Some r => x ← get_report r; mret (Some x) | None => mret None end);
            match report ≫= fun x => (fun f => (f, er_params (rb_pub x))) <$> er_format (rb_pub x) with
            | Some (fmt, params) => text ← format_error_report_message fmt params; mret (Some text)
            | None =>
                if em_source m =? SRC_GAI then mret (Some (gai_strerror (em_error m)))
                else if em_source m =? SRC_MESSAGE then mret (em_text m)
                else if em_source m =? SRC_REPORT then errno_to_str fuel (em_error m)
                else mret (Some (posix_strerror err))
            end
          else mret (Some (posix_strerror err))
      end
  end.

(** More than the number of messages: a chain of them without a circle ends. *)
Definition error_fuel : nat := S (S (Z.to_nat MESSAGE_CNT)).

Definition set_errno (no : Z) (msg : option bytes) : ME Z :=
  modify (set_e_errno no) ;;
  match msg with
  | Some msg =>
      if no =? 0 then mret 0
      else
        i ← alloc_msg SRC_MESSAGE;
        s ← get;
        let err := e_errno s in
        error ← get_error_code error_fuel no;
        put_msg i (Build_ErrorMessage SRC_MESSAGE error None None) ;;
        text ←
          (if no =? ERR_OTHER then mret msg
           else
             str ← errno_to_str error_fuel no;
             str ← of_option str;
             match last msg with
             | None => mret str
             | Some ch => mret (if (ch =? #".") || (ch =? 10) then msg ++ [32] ++ str else msg ++ [ #"."; 32] ++ str)
             end);
        put_msg i (Build_ErrorMessage SRC_MESSAGE error (Some text) None) ;;
        modify (set_e_errno err) ;;
        mret err
  | None => mret no
  end.

Definition set_gai_errno (no : Z) : ME Z :=
  modify (set_e_errno no) ;;
  (if no =? 0 then mret tt else i ← alloc_msg SRC_GAI; put_msg i (Build_ErrorMessage SRC_GAI no None None)) ;;
  gets e_errno.

Definition set_error_report_errno (r : option Z) : ME Z :=
  modify (set_e_errno 0) ;;
  match r with
  | Some r =>
      i ← alloc_msg SRC_REPORT;
      x ← get_report r;
      let error := er_code (rb_pub x) + STD_ERR_BASE in
      assertm (error <? 2 ^ 31) ;;
      put_msg i (Build_ErrorMessage SRC_REPORT error None (Some r)) ;;
      put_report r (set_refs (rb_refs x + 1) (rb_gets x) x) ;;
      gets e_errno
  | None => gets e_errno
  end.

(** ** Reports *)

Definition alloc_report (x : ReportBuffer) : ME Z :=
  s ← get; put (set_reports (<[e_brk s := x]> (e_reports s)) (e_brk s + 1) s) ;; mret (e_brk s).

(** The report that [get_error_report] makes for an error without one. *)
Definition make_report (err : Z) (m : option ErrorMessage) (text : bytes) : option ReportBuffer :=
  let err := match m with
    | Some m => if em_source m =? SRC_MESSAGE then em_error m else ERR_OTHER
    | None => err
    end in
  let '(posix, props, err) :=
    if (err <? STD_ERR_BASE) || (ERR_MESSAGE_MAX <? err)
    then (err, [(str "AltOrg", string_text (str "Linux")); (str "AltCode", dec_text (u64 err))], ERR_OTHER)
    else (0, [], err) in
  if (STD_ERR_BASE <=? err) && (err <? ERR_MESSAGE_MIN)
  then Some (Build_ReportBuffer (Build_ErrorReport (err - STD_ERR_BASE) (Some text) [] clock_ms props) posix 1 1)
  else None.

Definition get_error_report (err : Z) : ME (option Z) :=
  m ← (if is_message err then m ← get_msg (err - ERR_MESSAGE_MIN); mret (Some m) else mret None);
  match m ≫= em_report with
  | Some r =>
      x ← get_report r;
      put_report r (set_refs (rb_refs x + 1) (rb_gets x + 1) x) ;;
      mret (Some r)
  | None =>
      if err =? 0 then mret None
      else
        text ← errno_to_str error_fuel err;
        text ← of_option text;
        x ← of_option (make_report err m text);
        r ← alloc_report x;
        (match m with
         | Some m =>
             put_msg (err - ERR_MESSAGE_MIN) (Build_ErrorMessage (em_source m) (em_error m) (em_text m) (Some r)) ;;
             put_report r (set_refs 2 1 x)
         | None => mret tt
         end) ;;
        mret (Some r)
  end.

Definition create_error_report : ME Z :=
  alloc_report (Build_ReportBuffer (Build_ErrorReport 0 None [] 0 []) 0 1 1).

Definition release_error_report (r : option Z) : ME unit :=
  match r with
  | None => mret tt
  | Some r =>
      x ← get_report r;
      assertm (0 <? rb_gets x) ;;
      put_report r (set_refs (rb_refs x) (rb_gets x - 1) x) ;;
      release_report (Some r)
  end.
End format.

(** Both pointers walk through the properties of [x], so these are equal to themselves. *)
Definition compare_error_reports (x y : option ErrorReport) : bool :=
  match x, y with
  | Some x, Some y =>
      bool_decide (er_code x = er_code y) && bool_decide (er_format x = er_format y) && bool_decide (er_params x = er_params y)
  | None, None => true
  | _, _ => false
  end.
