(* ===== verification/ErrorsSpec.v ===== *)
(** * Error reports: what holds of them

    The reports are counted right whatever clients do, and an error number of a
    message keeps its meaning until the ring of messages has gone round. *)

From stdpp Require Import gmap.
From S2P Require Import Prelude Streams JsonWrite JsonRead JsonTmp Errors.

(** ** Texts without formatting *)

(** A text that is its own format: no quote and no brace. *)
Definition plain (l : bytes) : Prop := Forall (fun ch => 0 < ch < 256 /\ ch <> 39 /\ ch <> #"{") l.

Lemma plain_app l k : plain l -> plain k -> plain (l ++ k).
Proof. intros. by apply Forall_app. Qed.

Lemma plain_chars l : forallb (fun ch => (0 <? ch) && (ch <? 256) && negb (ch =? 39) && negb (ch =? #"{")) l = true -> plain l.
Proof.
  intros Hl. rewrite forallb_forall in Hl. apply Forall_forall. intros ch Hch%list_elem_of_In%Hl. lia.
Qed.

(** [s'] differs from [s] in the message buffer only. *)
Definition same (s s' : Errors) : Prop := exists buf max, s' = set_e_buf buf max s.

Lemma same_refl s : same s s.
Proof. exists (e_buf s), (e_buf_max s). by destruct s. Qed.

Lemma same_trans s1 s2 s3 : same s1 s2 -> same s2 s3 -> same s1 s3.
Proof. intros (b1 & m1 & ->) (b2 & m2 & ->). by exists b2, m2. Qed.

Lemma realloc_msg_ok s : exists max, realloc_msg_buf s = (Ok tt, set_e_buf (e_buf s) max s) /\ zlen (e_buf s) < max.
Proof.
  unfold realloc_msg_buf. rewrite (bind_ok get _ _ _ _ eq_refl). destruct (_ || _) eqn:E; [exists (zlen (e_buf s) + 256); split; [done|lia]|].
  exists (e_buf_max s). split; [by destruct s|lia].
Qed.

Lemma put_char_ok ch s : zlen (e_buf s) < e_buf_max s -> msg_buf_put ch s = (Ok tt, set_e_buf (e_buf s ++ [ch]) (e_buf_max s) s).
Proof. intros Hl. unfold msg_buf_put. rewrite (bind_ok get _ _ _ _ eq_refl). by replace (zlen (e_buf s) <? e_buf_max s) with true by lia. Qed.

Section spec.
Context `{CLib}.

Lemma format_loop_plain params l : plain l -> forall fuel s, (length l < fuel)%nat ->
  exists max, format_loop fuel l params false s = (Ok tt, set_e_buf (e_buf s ++ l) max s).
Proof.
  induction 1 as [|ch l (Hr & Hq & Hb) Hl IH]; intros fuel s Hf; (destruct fuel as [|fuel]; [simpl in Hf; lia|]); cbn [format_loop].
  - exists (e_buf_max s). rewrite app_nil_r. by destruct s.
  - destruct (realloc_msg_ok s) as (max & E & Hm). rewrite (bind_ok _ _ _ _ _ E). cbn [andb]. replace (ch =? 39) with false by lia.
    replace (ch =? #"{") with false by lia. cbn [andb]. rewrite (bind_ok _ _ _ _ _ (put_char_ok ch (set_e_buf (e_buf s) max s) Hm)).
    destruct (IH fuel (set_e_buf (e_buf s ++ [ch]) max s)) as (max' & E'); [simpl in Hf; lia|]. exists max'.
    cbn [e_buf set_e_buf e_buf_max]. etransitivity; [exact E'|]. cbn. by rewrite <- app_assoc.
Qed.

Lemma c_str_zero l : plain l -> c_str (l ++ [0]) = l.
Proof. induction 1 as [|ch l Hc Hl IH]; [done|]. cbn. replace (ch =? 0) with false by lia. by rewrite IH. Qed.

Lemma format_plain l params s : plain l -> exists s', format_error_report_message l params s = (Ok l, s') /\ same s s'.
Proof.
  intros Hl. unfold format_error_report_message. rewrite (bind_ok (modify _) _ s tt _ eq_refl).
  destruct (format_loop_plain params l Hl (S (length l)) (set_e_buf [] (e_buf_max s) s)) as (m1 & E1); [lia|]. cbn [e_buf set_e_buf app] in E1.
  rewrite (bind_ok _ _ _ _ _ E1). destruct (realloc_msg_ok (set_e_buf l m1 s)) as (m2 & E2 & Hm). cbn [e_buf set_e_buf] in E2, Hm.
  rewrite (bind_ok _ _ _ _ _ E2), (bind_ok _ _ _ _ _ (put_char_ok 0 (set_e_buf l m2 s) Hm)), (bind_ok get _ _ _ _ eq_refl).
  cbn [e_buf set_e_buf]. eexists. split; [by rewrite c_str_zero|]. by eexists _, _.
Qed.

(** ** Reference counts *)

Definition held_cnt (r : Z) (held : list Z) : Z := zlen (filter (fun x => x = r) held).
Definition slot_cnt (r : Z) (msgs : list ErrorMessage) : Z := zlen (filter (fun m => em_report m = Some r) msgs).

(** A report is referred to by its holders and by the messages; nothing refers to
    what is not allocated. *)
Definition refs_ok (reports : gmap Z ReportBuffer) (msgs : list ErrorMessage) (held : list Z) : Prop :=
  (forall r x, reports !! r = Some x ->
     rb_gets x = held_cnt r held /\ rb_refs x = held_cnt r held + slot_cnt r msgs /\ 0 < rb_refs x) /\
  (forall r, reports !! r = None -> held_cnt r held = 0 /\ slot_cnt r msgs = 0).

Lemma held_cnt_cons r a held : held_cnt r (a :: held) = (if bool_decide (a = r) then 1 else 0) + held_cnt r held.
Proof. unfold held_cnt. rewrite filter_cons. case_decide; [rewrite bool_decide_eq_true_2, zlen_cons by done; lia|by rewrite bool_decide_eq_false_2]. Qed.

Lemma slot_cnt_app r l k : slot_cnt r (l ++ k) = slot_cnt r l + slot_cnt r k.
Proof. unfold slot_cnt. by rewrite filter_app, zlen_app. Qed.

Lemma slot_cnt_cons r m l : slot_cnt r (m :: l) = (if bool_decide (em_report m = Some r) then 1 else 0) + slot_cnt r l.
Proof. unfold slot_cnt. rewrite filter_cons. case_decide; [rewrite bool_decide_eq_true_2, zlen_cons by done; lia|by rewrite bool_decide_eq_false_2]. Qed.

Lemma slot_cnt_insert r i m m' msgs : msgs !! i = Some m ->
  slot_cnt r (<[i := m']> msgs) = slot_cnt r msgs - (if bool_decide (em_report m = Some r) then 1 else 0) + (if bool_decide (em_report m' = Some r) then 1 else 0).
Proof.
  intros Hi. rewrite <- (take_drop_middle msgs i m Hi) at 2. rewrite insert_take_drop by (by apply lookup_lt_Some in Hi).
  rewrite !slot_cnt_app, !slot_cnt_cons. lia.
Qed.

Lemma held_cnt_nonneg r held : 0 <= held_cnt r held.
Proof. apply zlen_nonneg. Qed.
Lemma slot_cnt_nonneg r l : 0 <= slot_cnt r l.
Proof. apply zlen_nonneg. Qed.

(** What a message must be like to be decoded: its number of an error is not that
    of a message. *)
Definition slot_ok (reports : gmap Z ReportBuffer) (m : ErrorMessage) : Prop :=
  (forall r, em_report m = Some r -> exists x, reports !! r = Some x /\ forall f, er_format (rb_pub x) = Some f -> plain f) /\
  (em_source m = SRC_MESSAGE -> exists t, em_text m = Some t /\ plain t) /\
  (em_source m = SRC_MESSAGE \/ em_source m = SRC_REPORT -> is_message (em_error m) = false).

(** Of the reports: codes and formats. *)
Definition pub_ok (p : ErrorReport) : Prop := 0 <= er_code p < 100 /\ forall f, er_format p = Some f -> plain f.

Record errors_ok (s : Errors) (held : list Z) : Prop := {
  eo_length : zlen (e_msgs s) = MESSAGE_CNT;
  eo_pos : 0 <= e_msgs_pos s < MESSAGE_CNT;
  eo_refs : refs_ok (e_reports s) (e_msgs s) held;
  eo_slots : Forall (slot_ok (e_reports s)) (e_msgs s);
  eo_pubs : map_Forall (fun _ x => pub_ok (rb_pub x) /\ is_message (rb_posix_code x) = false) (e_reports s);
  eo_fresh : map_Forall (fun r _ => r < e_brk s) (e_reports s);
}.

(** ** Decoding *)

(** The texts of the C library have no quotes and braces. *)
Definition clib_plain : Prop := (forall err t, strerror err = Some t -> plain t) /\ (forall n, plain (gai_strerror n)).

Lemma error_text_plain err t : error_text err = Some t -> plain t.
Proof.
  unfold error_text. intros ([i x] & (Hl & _)%list_find_Some & Ht)%fmap_Some. cbn in Ht. subst t. apply list_elem_of_lookup_2 in Hl.
  assert (HA : Forall (fun x => plain (snd x)) error_texts).
  { unfold error_texts. repeat (constructor; [apply plain_chars; vm_compute; reflexivity|]). constructor. }
  rewrite Forall_forall in HA. by apply HA.
Qed.

Lemma hex8_plain x : plain (hex8 x).
Proof.
  unfold hex8. apply Forall_fmap, Forall_forall. intros i _. cbn. change 15 with (Z.ones 4). rewrite Z.land_ones by lia.
  pose proof (Z.mod_pos_bound (Z.shiftr (u32 x) (4 * i)) (2 ^ 4) ltac:(lia)) as HB. change (2 ^ 4) with 16 in HB |- *.
  generalize dependent (Z.shiftr (u32 x) (4 * i) mod 16). intros k HB. unfold lower_hex_digit. destruct (_ <? _) eqn:E; lia.
Qed.

Lemma posix_plain err : clib_plain -> plain (posix_strerror err).
Proof.
  intros [Hs _]. unfold posix_strerror. assert (HD : plain (str "Error 0x" ++ hex8 err)) by (apply plain_app; [by apply plain_chars|apply hex8_plain]).
  specialize (Hs err). destruct (strerror err) as [[|ch l]|]; [done| |done]. by apply Hs.
Qed.

(** The message of a number is one that can be decoded. *)
Definition decodable (s : Errors) (err : Z) : Prop :=
  is_message err = true -> exists m, znth (e_msgs s) (err - ERR_MESSAGE_MIN) = Some m /\ slot_ok (e_reports s) m.

Lemma not_text err : is_message err = true -> error_text err = None.
Proof.
  unfold is_message, error_text, ERR_MESSAGE_MIN, ERR_MESSAGE_MAX. intros Hm. destruct (list_find _ _) as [[i x]|] eqn:E; [|done].
  apply list_find_Some in E as (Hl & He & _). apply list_elem_of_lookup_2 in Hl.
  assert (HA : Forall (fun x => fst x < 100) error_texts) by (unfold error_texts; repeat (constructor; [cbn; lia|]); constructor).
  rewrite Forall_forall in HA. specialize (HA x Hl). cbn in HA. lia.
Qed.

Definition msg_report (s : Errors) (m : ErrorMessage) : option ReportBuffer :=
  match em_report m with Some r => e_reports s !! r | None => None end.

(** The text of a number that is not that of a message. *)
Definition code_text (err : Z) : bytes :=
  match error_text err with
  | Some t => t
  | None => if err =? 0 then str "Success" else posix_strerror err
  end.

(** The text of a message, by its report or by its kind. *)
Definition msg_text (s : Errors) (m : ErrorMessage) (t : bytes) : Prop :=
  match (match msg_report s m with Some x => er_format (rb_pub x) | None => None end) with
  | Some f => t = f
  | None => (em_source m = SRC_MESSAGE -> em_text m = Some t) /\ (em_source m = SRC_REPORT -> t = code_text (em_error m))
  end.

Lemma code_text_plain err : clib_plain -> plain (code_text err).
Proof.
  intros Hc. unfold code_text. destruct (error_text err) as [t|] eqn:ET; [by eapply error_text_plain|].
  destruct (err =? 0); [by apply plain_chars|by apply posix_plain].
Qed.

Lemma str_plain err s fuel : is_message err = false -> errno_to_str (S fuel) err s = (Ok (Some (code_text err)), s).
Proof. intros Hm. cbn [errno_to_str]. unfold code_text. destruct (error_text err); [done|]. rewrite Hm. by destruct (err =? 0). Qed.

(** A message without a format of a report. *)
Lemma str_kind err s m fuel : clib_plain -> slot_ok (e_reports s) m ->
  exists t s', (if em_source m =? SRC_GAI then mret (Some (gai_strerror (em_error m)))
    else if em_source m =? SRC_MESSAGE then mret (em_text m)
    else if em_source m =? SRC_REPORT then errno_to_str (S fuel) (em_error m)
    else mret (Some (posix_strerror err))) s = (Ok (Some t), s') /\ plain t /\ same s s' /\
    (em_source m = SRC_MESSAGE -> em_text m = Some t) /\ (em_source m = SRC_REPORT -> t = code_text (em_error m)).
Proof.
  intros Hc (_ & Ht & He).
  destruct (Z.eqb_spec (em_source m) SRC_GAI) as [Eg|]; [exists (gai_strerror (em_error m)), s; split; [done|]; split; [apply Hc|]; split; [apply same_refl|by rewrite Eg]|].
  destruct (Z.eqb_spec (em_source m) SRC_MESSAGE) as [Eg|].
  { destruct (Ht Eg) as (t & Et & Hp). exists t, s. rewrite Et, Eg. split; [done|]. split; [done|]. split; [apply same_refl|done]. }
  destruct (Z.eqb_spec (em_source m) SRC_REPORT) as [Eg|]; [|eexists _, s; split; [done|]; split; [by apply posix_plain|]; split; [apply same_refl|done]].
  exists (code_text (em_error m)), s. split; [apply str_plain, He; by right|]. split; [by apply code_text_plain|]. split; [apply same_refl|done].
Qed.

Lemma str_message err s m fuel : clib_plain -> is_message err = true -> znth (e_msgs s) (err - ERR_MESSAGE_MIN) = Some m -> slot_ok (e_reports s) m ->
  exists t s', errno_to_str (S (S fuel)) err s = (Ok (Some t), s') /\ plain t /\ same s s' /\ msg_text s m t.
Proof.
  intros Hc Hm Hz Hs. pose proof Hs as (Hr & _). remember (S fuel) as fuel1 eqn:Ef. cbn [errno_to_str]. rewrite (not_text _ Hm). replace (err =? 0) with false by (unfold is_message, ERR_MESSAGE_MIN, STD_ERR_BASE in Hm; lia).
  rewrite Hm. assert (EM : get_msg (err - ERR_MESSAGE_MIN) s = (Ok m, s)) by (unfold get_msg; by rewrite (bind_ok get _ _ _ _ eq_refl), Hz).
  rewrite (bind_ok _ _ _ _ _ EM).
  assert (ER : exists o, (match em_report m with Some r => x ← get_report r; mret (Some x) | None => mret None end) s = (Ok o, s) /\
    msg_report s m = o /\ (forall x f, o = Some x -> er_format (rb_pub x) = Some f -> plain f)).
  { unfold msg_report. destruct (em_report m) as [r|]; [|by exists None]. destruct (Hr r eq_refl) as (x & Hx & Hp). exists (Some x). split; [|split; [done|intros x' f [= <-]; apply Hp]].
    unfold get_report. by rewrite bind_assoc, (bind_ok get _ _ _ _ eq_refl), Hx. }
  destruct ER as (o & EO & EX & HP). rewrite (bind_ok _ _ _ _ _ EO). unfold msg_text. rewrite EX.
  destruct o as [x|]; cbn [mbind option_bind]; [destruct (er_format (rb_pub x)) as [f|] eqn:EF|]; cbn [fmap option_fmap option_map].
  - destruct (format_plain f (er_params (rb_pub x)) s (HP _ _ eq_refl EF)) as (s' & E & Hsm). rewrite (bind_ok _ _ _ _ _ E). exists f, s'. split; [done|].
    split; [by eapply HP|done].
  - subst fuel1. by apply str_kind.
  - subst fuel1. by apply str_kind.
Qed.

(** The code of a message, and of any number. *)
Definition msg_code (s : Errors) (m : ErrorMessage) : Z :=
  let posix := match msg_report s m with Some x => rb_posix_code x | None => 0 end in
  if negb (posix =? 0) then posix else em_error m.

Definition posix_ok (s : Errors) : Prop := map_Forall (fun _ x => is_message (rb_posix_code x) = false) (e_reports s).

Lemma code_message err s m fuel : is_message err = true -> znth (e_msgs s) (err - ERR_MESSAGE_MIN) = Some m -> slot_ok (e_reports s) m -> posix_ok s ->
  exists c, get_error_code (S (S fuel)) err s = (Ok c, s) /\ is_message c = false /\
    (em_source m = SRC_MESSAGE \/ em_source m = SRC_REPORT -> c = msg_code s m).
Proof.
  intros Hm Hz (Hr & _ & He) Hp. remember (S fuel) as fuel1 eqn:Ef. cbn [get_error_code]. rewrite Hm.
  assert (EM : get_msg (err - ERR_MESSAGE_MIN) s = (Ok m, s)) by (unfold get_msg; by rewrite (bind_ok get _ _ _ _ eq_refl), Hz).
  rewrite (bind_ok _ _ _ _ _ EM). destruct ((em_source m =? SRC_REPORT) || (em_source m =? SRC_MESSAGE)) eqn:ES.
  2: { exists ERR_OTHER. split; [done|]. split; [done|]. intros [Es|Es]; rewrite Es in ES; done. }
  assert (ER : (match em_report m with Some r => x ← get_report r; mret (rb_posix_code x) | None => mret 0 end) s =
    (Ok (match msg_report s m with Some x => rb_posix_code x | None => 0 end), s)).
  { unfold msg_report. destruct (em_report m) as [r|]; [|done]. destruct (Hr r eq_refl) as (x & Hx & _). unfold get_report.
    by rewrite bind_assoc, (bind_ok get _ _ _ _ eq_refl), Hx. }
  rewrite (bind_ok _ _ _ _ _ ER). exists (msg_code s m). unfold msg_code. destruct (negb _) eqn:EN.
  - split; [done|]. split; [|done]. unfold msg_report in EN |- *. destruct (em_report m) as [r|]; [|done]. destruct (e_reports s !! r) as [x|] eqn:EX; [|done]. by apply (Hp r).
  - subst fuel1. assert (Hn : is_message (em_error m) = false) by (apply He; lia). split; [|done]. cbn [get_error_code]. by rewrite Hn.
Qed.

Lemma code_plain no s fuel : is_message no = false -> get_error_code (S fuel) no s = (Ok no, s).
Proof. intros Hm. cbn [get_error_code]. by rewrite Hm. Qed.

(** ** The ring *)

Definition next_pos (pos : Z) : Z := if MESSAGE_CNT <=? pos + 1 then 0 else pos + 1.

(** Reports are not changed, but may be released. *)
Definition reports_sub (rs rs' : gmap Z ReportBuffer) : Prop := forall r x', rs' !! r = Some x' ->
  exists x, rs !! r = Some x /\ rb_pub x' = rb_pub x /\ rb_posix_code x' = rb_posix_code x.

Lemma slot_report rs msgs held m r : refs_ok rs msgs held -> m ∈ msgs -> em_report m = Some r -> is_Some (rs !! r).
Proof.
  intros [_ HN] Hm Hr. destruct (rs !! r) as [x|] eqn:E; [done|]. destruct (HN r E) as [_ HS]. exfalso.
  apply list_elem_of_split in Hm as (l1 & l2 & ->). rewrite slot_cnt_app, slot_cnt_cons, bool_decide_eq_true_2 in HS by done.
  pose proof (slot_cnt_nonneg r l1). pose proof (slot_cnt_nonneg r l2). lia.
Qed.

Lemma slot_ok_sub rs rs' m : (forall r, em_report m = Some r -> is_Some (rs' !! r)) -> reports_sub rs rs' -> slot_ok rs m -> slot_ok rs' m.
Proof.
  intros HS Hsub (Hr & Ht & He). split; [|done]. intros r Er. destruct (HS r Er) as [x' Hx']. exists x'. split; [done|].
  destruct (Hsub r x' Hx') as (x & Hx & Hp & _). destruct (Hr r Er) as (y & Hy & Hf). rewrite Hx in Hy. injection Hy as <-. rewrite Hp. exact Hf.
Qed.

Lemma msg_at s held i : errors_ok s held -> 0 <= i < MESSAGE_CNT -> exists m, e_msgs s !! Z.to_nat i = Some m.
Proof. intros [] Hi. apply lookup_lt_is_Some. unfold zlen in eo_length0. lia. Qed.

Lemma get_msg_ok i m (s : Errors) : 0 <= i -> e_msgs s !! Z.to_nat i = Some m -> get_msg i s = (Ok m, s).
Proof. intros Hi Hm. unfold get_msg. rewrite (bind_ok get _ _ _ _ eq_refl). unfold znth. replace (0 <=? i) with true by lia. by rewrite Hm. Qed.

Lemma put_msg_ok i m (s : Errors) : 0 <= i < zlen (e_msgs s) -> put_msg i m s = (Ok tt, set_msgs (<[Z.to_nat i := m]> (e_msgs s)) s).
Proof. intros Hi. unfold put_msg. rewrite (bind_ok get _ _ _ _ eq_refl). by replace ((0 <=? i) && (i <? zlen (e_msgs s))) with true by lia. Qed.

(** A reference of a message is dropped. *)
Lemma release_slot rs msgs held i m m' : refs_ok rs msgs held -> msgs !! i = Some m -> em_report m' = None ->
  forall s, e_reports s = rs -> exists rs', release_report (em_report m) s = (Ok tt, set_reports rs' (e_brk s) s) /\
    refs_ok rs' (<[i := m']> msgs) held /\ reports_sub rs rs' /\ (forall r, rs !! r = None -> rs' !! r = None).
Proof.
  intros Hok Hi Hm' s Hs. assert (HC : forall r, slot_cnt r (<[i := m']> msgs) = slot_cnt r msgs - (if bool_decide (em_report m = Some r) then 1 else 0)).
  { intros r. rewrite (slot_cnt_insert r i m m' msgs Hi), Hm'. rewrite (bool_decide_eq_false_2 (None = Some r)) by done. lia. }
  destruct (em_report m) as [r|] eqn:ER.
  2: { exists rs. split; [cbn; subst rs; by destruct s|]. split; [|by split; [intros r x' ?; exists x'|]]. destruct Hok as [H1 H2]. split.
       - intros r x Hx. rewrite HC, bool_decide_eq_false_2 by done. rewrite Z.sub_0_r. by apply H1.
       - intros r Hx. rewrite HC, bool_decide_eq_false_2 by done. rewrite Z.sub_0_r. by apply H2. }
  destruct (slot_report rs msgs held m r Hok) as [x Hx]; [by eapply list_elem_of_lookup_2|done|]. pose proof Hok as [H1 H2]. destruct (H1 r x Hx) as (Hg & Hf & Hpos).
  assert (HP : 0 < slot_cnt r msgs).
  { rewrite <- (take_drop_middle msgs i m Hi), slot_cnt_app, slot_cnt_cons, bool_decide_eq_true_2 by done.
    pose proof (slot_cnt_nonneg r (take i msgs)). pose proof (slot_cnt_nonneg r (drop (S i) msgs)). lia. }
  pose proof (held_cnt_nonneg r held) as Hh. cbn [release_report].
  assert (EG : get_report r s = (Ok x, s)) by (unfold get_report; by rewrite (bind_ok get _ _ _ _ eq_refl), Hs, Hx).
  rewrite (bind_ok _ _ _ _ _ EG). replace (rb_gets x <? rb_refs x) with true by lia. cbn [assertm]. rewrite ret_bind.
  destruct (Z.eqb_spec (rb_refs x - 1) 0) as [E|E].
  - exists (delete r rs). split; [by subst rs|]. split; [split|split].
    + intros r' y. destruct (decide (r = r')) as [<-|Hn]; [by rewrite lookup_delete_eq|]. rewrite lookup_delete_ne by done. intros Hy.
      rewrite HC, bool_decide_eq_false_2 by congruence. rewrite Z.sub_0_r. by apply H1.
    + intros r'. destruct (decide (r = r')) as [<-|Hn]; [intros _; rewrite HC, bool_decide_eq_true_2 by done; pose proof (slot_cnt_nonneg r msgs); lia|].
      rewrite lookup_delete_ne by done. intros Hy. rewrite HC, bool_decide_eq_false_2 by congruence. rewrite Z.sub_0_r. by apply H2.
    + intros r' y [_ Hy]%lookup_delete_Some. by exists y.
    + intros r' Hr'. apply lookup_delete_None. by right.
  - exists (<[r := set_refs (rb_refs x - 1) (rb_gets x) x]> rs). split; [by subst rs|]. split; [split|split].
    + intros r' y. destruct (decide (r = r')) as [<-|Hn].
      * rewrite lookup_insert_eq. intros [= <-]. cbn. rewrite HC, bool_decide_eq_true_2 by done. lia.
      * rewrite lookup_insert_ne by done. intros Hy. rewrite HC, bool_decide_eq_false_2 by congruence. rewrite Z.sub_0_r. by apply H1.
    + intros r' [Hr' Hn]%lookup_insert_None. rewrite HC, bool_decide_eq_false_2 by congruence. rewrite Z.sub_0_r. by apply H2.
    + intros r' y. destruct (decide (r = r')) as [<-|Hn]; [rewrite lookup_insert_eq; intros [= <-]; by exists x|rewrite lookup_insert_ne by done; intros; by exists y].
    + intros r' Hr'. apply lookup_insert_None. split; [done|]. intros ->. congruence.
Qed.

Lemma alloc_msg_ok src s held : errors_ok s held -> exists rs',
  alloc_msg src s = (Ok (e_msgs_pos s), set_msgs (<[Z.to_nat (e_msgs_pos s) := Build_ErrorMessage src 0 None None]> (e_msgs s))
    (set_reports rs' (e_brk s) (set_msgs_pos (next_pos (e_msgs_pos s)) (set_e_errno (ERR_MESSAGE_MIN + e_msgs_pos s) s)))) /\
  refs_ok rs' (<[Z.to_nat (e_msgs_pos s) := Build_ErrorMessage src 0 None None]> (e_msgs s)) held /\
  reports_sub (e_reports s) rs' /\ (forall r, e_reports s !! r = None -> rs' !! r = None).
Proof.
  intros Hok. pose proof Hok as []. destruct (msg_at s held (e_msgs_pos s) Hok eo_pos0) as (m & Hm).
  set (s1 := set_msgs_pos (next_pos (e_msgs_pos s)) (set_e_errno (ERR_MESSAGE_MIN + e_msgs_pos s) s)).
  destruct (release_slot _ _ _ _ m (Build_ErrorMessage src 0 None None) eo_refs0 Hm eq_refl s1 eq_refl) as (rs' & E & Hr & Hsub & Hn).
  exists rs'. split; [|done]. unfold alloc_msg. rewrite (bind_ok get _ _ _ _ eq_refl), (bind_ok (modify _) _ _ tt _ eq_refl), (bind_ok (modify _) _ _ tt _ eq_refl).
  change (set_msgs_pos _ _) with s1. rewrite (bind_ok _ _ _ _ _ (get_msg_ok _ _ s1 (proj1 eo_pos0) Hm)), (bind_ok _ _ _ _ _ E).
  rewrite (bind_ok _ _ _ _ _ (put_msg_ok (e_msgs_pos s) _ (set_reports rs' (e_brk s1) s1) ltac:(cbn; lia))). reflexivity.
Qed.

(** What is known of the message [i]: its error and its text. *)
Definition slot_is (i no : Z) (text : bytes) (s : Errors) : Prop :=
  exists m, e_msgs s !! Z.to_nat i = Some m /\ em_source m = SRC_MESSAGE /\ em_error m = no /\ em_text m = Some text /\
    forall r x, em_report m = Some r -> e_reports s !! r = Some x ->
      er_format (rb_pub x) = Some text /\ (rb_posix_code x = 0 \/ rb_posix_code x = no).

Lemma slot_is_frame i no text s s' : slot_is i no text s -> e_msgs s' !! Z.to_nat i = e_msgs s !! Z.to_nat i ->
  reports_sub (e_reports s) (e_reports s') -> slot_is i no text s'.
Proof.
  intros (m & Hm & Hs & He & Ht & Hr) Hi Hsub. exists m. split; [by rewrite Hi|]. split; [done|]. split; [done|]. split; [done|].
  intros r x' Er Hx'. destruct (Hsub r x' Hx') as (x & Hx & Hp & Hq). rewrite Hp, Hq. by apply (Hr r).
Qed.

(** A state after a message has been filled in. *)
Lemma filled_ok s held rs' m' mf s2 : errors_ok s held -> em_report m' = None -> em_report mf = None ->
  refs_ok rs' (<[Z.to_nat (e_msgs_pos s) := m']> (e_msgs s)) held -> reports_sub (e_reports s) rs' ->
  (forall r, e_reports s !! r = None -> rs' !! r = None) -> slot_ok rs' mf ->
  e_msgs s2 = <[Z.to_nat (e_msgs_pos s) := mf]> (e_msgs s) -> e_reports s2 = rs' -> e_brk s2 = e_brk s -> e_msgs_pos s2 = next_pos (e_msgs_pos s) ->
  errors_ok s2 held.
Proof.
  intros Hok Hm' Hmf Href Hsub Hn Hslot EM ER EB EP. pose proof Hok as []. destruct (msg_at s held (e_msgs_pos s) Hok eo_pos0) as (m & Hm).
  assert (Href2 : refs_ok rs' (e_msgs s2) held).
  { assert (HC : forall r, slot_cnt r (e_msgs s2) = slot_cnt r (<[Z.to_nat (e_msgs_pos s) := m']> (e_msgs s)))
      by (intros r; rewrite EM, !(slot_cnt_insert r _ m) by done; by rewrite Hm', Hmf).
    destruct Href as [H1 H2]. split; intros r; rewrite HC; [apply H1|apply H2]. }
  constructor.
  - rewrite EM. unfold zlen in *. by rewrite length_insert.
  - rewrite EP. unfold next_pos. destruct (MESSAGE_CNT <=? e_msgs_pos s + 1) eqn:E; [unfold MESSAGE_CNT, ERR_MESSAGE_MAX, ERR_MESSAGE_MIN, STD_ERR_BASE; lia|lia].
  - by rewrite ER.
  - rewrite ER. apply Forall_forall. intros k Hk. pose proof Hk as Hk0. rewrite EM in Hk0. apply list_elem_of_lookup in Hk0 as [j Hj].
    destruct (decide (Z.to_nat (e_msgs_pos s) = j)) as [<-|Hne].
    + rewrite list_lookup_insert_eq in Hj by (apply lookup_lt_Some in Hm; lia). by injection Hj as <-.
    + rewrite list_lookup_insert_ne in Hj by done. apply (slot_ok_sub (e_reports s)); [|done|].
      * intros r Hr. by eapply slot_report.
      * rewrite Forall_forall in eo_slots0. apply eo_slots0. by eapply list_elem_of_lookup_2.
  - rewrite ER. intros r x' Hx'. destruct (Hsub r x' Hx') as (x & Hx & -> & ->). by apply (eo_pubs0 r).
  - rewrite ER, EB. intros r x' Hx'. destruct (Hsub r x' Hx') as (x & Hx & _). by apply (eo_fresh0 r x).
Qed.

(** The text of a new message. *)
Definition new_text (no : Z) (msg str : bytes) : bytes :=
  if no =? ERR_OTHER then msg
  else match last msg with
       | None => str
       | Some ch => if (ch =? #".") || (ch =? 10) then msg ++ [32] ++ str else msg ++ [ #"."; 32] ++ str
       end.

Lemma new_text_plain no msg str : plain msg -> plain str -> plain (new_text no msg str).
Proof.
  intros Hm Hs. unfold new_text. destruct (no =? ERR_OTHER); [done|]. destruct (last msg) as [ch|]; [|done].
  assert (plain [32] /\ plain [ #"."; 32]) as [H1 H2] by (split; by apply plain_chars).
  destruct (_ || _); repeat apply plain_app; done.
Qed.

(** A number that may be decoded while a message is made. *)
Definition usable (s : Errors) (no : Z) : Prop := is_message no = true -> no <> ERR_MESSAGE_MIN + e_msgs_pos s.

Lemma message_slot s held no : errors_ok s held -> is_message no = true ->
  exists m, znth (e_msgs s) (no - ERR_MESSAGE_MIN) = Some m /\ slot_ok (e_reports s) m /\ m ∈ e_msgs s.
Proof.
  intros Hok Hm. unfold is_message, ERR_MESSAGE_MAX in Hm. destruct (msg_at s held (no - ERR_MESSAGE_MIN) Hok) as (m & HM).
  { unfold MESSAGE_CNT, ERR_MESSAGE_MAX, ERR_MESSAGE_MIN in *. lia. }
  exists m. split; [unfold znth; by replace (0 <=? no - ERR_MESSAGE_MIN) with true by lia|]. assert (HI : m ∈ e_msgs s) by (by eapply list_elem_of_lookup_2).
  split; [|done]. pose proof (eo_slots _ _ Hok) as HS. rewrite Forall_forall in HS. by apply HS.
Qed.

Lemma set_same s s' : same s s' -> e_msgs s' = e_msgs s /\ e_reports s' = e_reports s /\ e_brk s' = e_brk s /\ e_msgs_pos s' = e_msgs_pos s.
Proof. by intros (b & m & ->). Qed.

(** The message at the position is being made: it is [m0] for now. *)
Record making (s : Errors) (held : list Z) (m0 : ErrorMessage) (s1 : Errors) : Prop := {
  mk_report : em_report m0 = None;
  mk_msgs : e_msgs s1 = <[Z.to_nat (e_msgs_pos s) := m0]> (e_msgs s);
  mk_refs : refs_ok (e_reports s1) (e_msgs s1) held;
  mk_sub : reports_sub (e_reports s) (e_reports s1);
  mk_none : forall r, e_reports s !! r = None -> e_reports s1 !! r = None;
  mk_brk : e_brk s1 = e_brk s;
  mk_pos : e_msgs_pos s1 = next_pos (e_msgs_pos s);
  mk_tmp : e_tmp s1 = e_tmp s;
}.

Lemma alloc_making src no s held : errors_ok s held -> exists s1,
  alloc_msg src (set_e_errno no s) = (Ok (e_msgs_pos s), s1) /\ e_errno s1 = ERR_MESSAGE_MIN + e_msgs_pos s /\
  making s held (Build_ErrorMessage src 0 None None) s1.
Proof.
  intros Hok. destruct (alloc_msg_ok src (set_e_errno no s) held) as (rs' & EA & Href & Hsub & Hnone); [by destruct Hok|].
  eexists. split; [exact EA|]. split; [done|]. by constructor.
Qed.

Lemma making_put s held m0 s1 mf : errors_ok s held -> making s held m0 s1 -> em_report mf = None ->
  exists s2, put_msg (e_msgs_pos s) mf s1 = (Ok tt, s2) /\ e_errno s2 = e_errno s1 /\ making s held mf s2.
Proof.
  intros Hok [] Hf. destruct (msg_at s held (e_msgs_pos s) Hok (eo_pos _ _ Hok)) as (m & Hm).
  assert (EM : <[Z.to_nat (e_msgs_pos s) := mf]> (e_msgs s1) = <[Z.to_nat (e_msgs_pos s) := mf]> (e_msgs s)) by (rewrite mk_msgs0; apply list_insert_insert_eq).
  eexists. split; [apply put_msg_ok|split; [done|constructor; cbn; try done]].
  - rewrite mk_msgs0. unfold zlen. rewrite length_insert. pose proof (eo_length _ _ Hok). pose proof (eo_pos _ _ Hok). unfold zlen in *. lia.
  - assert (HC : forall r, slot_cnt r (<[Z.to_nat (e_msgs_pos s) := mf]> (e_msgs s1)) = slot_cnt r (e_msgs s1))
      by (intros r; rewrite EM, mk_msgs0, !(slot_cnt_insert r _ m) by done; by rewrite mk_report0, Hf).
    destruct mk_refs0 as [H1 H2]. split; intros r; rewrite HC; [apply H1|apply H2].
Qed.

Lemma making_same s held m0 s1 s2 : making s held m0 s1 -> same s1 s2 -> making s held m0 s2.
Proof. intros [] (b & m & ->). by constructor. Qed.

(** A number is decoded as before while the message is being made. *)
Lemma making_decode s held m0 s1 no : errors_ok s held -> usable s no -> is_message no = true -> making s held m0 s1 ->
  exists m, znth (e_msgs s1) (no - ERR_MESSAGE_MIN) = Some m /\ slot_ok (e_reports s1) m /\ posix_ok s1.
Proof.
  intros Hok Hu Hm []. destruct (message_slot s held no Hok Hm) as (m & Hz & Hs & Hin). specialize (Hu Hm).
  unfold is_message in Hm. assert (Hne : Z.to_nat (e_msgs_pos s) <> Z.to_nat (no - ERR_MESSAGE_MIN)) by (pose proof (eo_pos _ _ Hok); lia).
  assert (HL : e_msgs s1 !! Z.to_nat (no - ERR_MESSAGE_MIN) = Some m).
  { rewrite mk_msgs0, list_lookup_insert_ne by done. unfold znth in Hz. by replace (0 <=? no - ERR_MESSAGE_MIN) with true in Hz by lia. }
  exists m. split; [unfold znth; by replace (0 <=? no - ERR_MESSAGE_MIN) with true by lia|]. split.
  - apply (slot_ok_sub (e_reports s)); [|done|done]. intros r Hr. eapply slot_report; [exact mk_refs0| |exact Hr]. by eapply list_elem_of_lookup_2.
  - intros r x' Hx'. destruct (mk_sub0 r x' Hx') as (x & Hx & _ & ->). by apply (eo_pubs _ _ Hok r x).
Qed.

Lemma making_code s held m0 s1 no : errors_ok s held -> usable s no -> making s held m0 s1 ->
  exists code, get_error_code error_fuel no s1 = (Ok code, s1) /\ is_message code = false /\ (is_message no = false -> code = no).
Proof.
  intros Hok Hu Hk. destruct (is_message no) eqn:Em.
  - destruct (making_decode s held m0 s1 no Hok Hu Em Hk) as (m & Hz & Hs & Hx). destruct (code_message no s1 m 100 Em Hz Hs Hx) as (c & E & Hm & _). by exists c.
  - exists no. split; [by apply code_plain|done].
Qed.

Lemma making_text s held m0 s1 no : clib_plain -> errors_ok s held -> usable s no -> making s held m0 s1 ->
  exists t s2, errno_to_str error_fuel no s1 = (Ok (Some t), s2) /\ plain t /\ same s1 s2 /\ (is_message no = false -> t = code_text no).
Proof.
  intros Hc Hok Hu Hk. destruct (is_message no) eqn:Em.
  - destruct (making_decode s held m0 s1 no Hok Hu Em Hk) as (m & Hz & Hs & Hx). destruct (str_message no s1 m 100 Hc Em Hz Hs) as (t & s2 & E & Ht & Hsm & _). by exists t, s2.
  - exists (code_text no), s1. split; [by apply str_plain|]. split; [by apply code_text_plain|]. split; [apply same_refl|done].
Qed.

(** A message that has been made. *)
Lemma made_ok s held mf s2 : errors_ok s held -> making s held mf s2 -> slot_ok (e_reports s2) mf -> errors_ok s2 held.
Proof.
  intros Hok [] Hslot. apply (filled_ok s held (e_reports s2) mf mf); try done. by rewrite <- mk_msgs0.
Qed.

(** What [set_errno] adds to the message: the text of the number. *)
Definition number_text (no : Z) (msg : bytes) : ME bytes :=
  if no =? ERR_OTHER then mret msg
  else
    str ← errno_to_str error_fuel no;
    str ← of_option str;
    match last msg with
    | None => mret str
    | Some ch => mret (if (ch =? #".") || (ch =? 10) then msg ++ [32] ++ str else msg ++ [ #"."; 32] ++ str)
    end.

Lemma number_text_ok s held m0 s1 no msg : clib_plain -> errors_ok s held -> usable s no -> making s held m0 s1 ->
  exists str s2, number_text no msg s1 = (Ok (new_text no msg str), s2) /\ plain str /\ same s1 s2 /\ (is_message no = false -> str = code_text no).
Proof.
  intros Hc Hok Hu Hk. unfold number_text, new_text. destruct (no =? ERR_OTHER).
  { exists (code_text no), s1. split; [done|]. split; [by apply code_text_plain|]. split; [apply same_refl|done]. }
  destruct (making_text s held m0 s1 no Hc Hok Hu Hk) as (t & s2 & E & Ht & Hsm & Hq). exists t, s2. split; [|done].
  rewrite (bind_ok _ _ _ _ _ E). cbn [of_option]. rewrite ret_bind. by destruct (last msg).
Qed.

Lemma set_errno_ok no msg s held : errors_ok s held -> clib_plain -> plain msg -> no <> 0 -> usable s no ->
  exists s' code str, set_errno no (Some msg) s = (Ok (ERR_MESSAGE_MIN + e_msgs_pos s), s') /\ errors_ok s' held /\
    (is_message no = false -> code = no /\ str = code_text no) /\
    e_errno s' = ERR_MESSAGE_MIN + e_msgs_pos s /\
    making s held (Build_ErrorMessage SRC_MESSAGE code (Some (new_text no msg str)) None) s'.
Proof.
  intros Hok Hc Hp H0 Hu. destruct (alloc_making SRC_MESSAGE no s held Hok) as (s1 & EA & EE & M1).
  destruct (making_code s held _ s1 no Hok Hu M1) as (code & EC & Hcode & Hcode').
  destruct (making_put s held _ s1 (Build_ErrorMessage SRC_MESSAGE code None None) Hok M1 eq_refl) as (s2 & EP2 & _ & M2).
  destruct (number_text_ok s held _ s2 no msg Hc Hok Hu M2) as (str & s3 & ES & Hstr & Hsm & Hstr').
  destruct (making_put s held _ s3 (Build_ErrorMessage SRC_MESSAGE code (Some (new_text no msg str)) None) Hok (making_same _ _ _ _ _ M2 Hsm) eq_refl) as (s4 & EP4 & _ & M4).
  exists (set_e_errno (ERR_MESSAGE_MIN + e_msgs_pos s) s4), code, str.
  assert (Hfin : making s held (Build_ErrorMessage SRC_MESSAGE code (Some (new_text no msg str)) None) (set_e_errno (ERR_MESSAGE_MIN + e_msgs_pos s) s4)) by (destruct M4; by constructor).
  split; [|split; [eapply made_ok; [done|exact Hfin|]|split; [by auto|done]]].
  - unfold set_errno. rewrite (bind_ok (modify _) _ s tt _ eq_refl). replace (no =? 0) with false by lia.
    rewrite (bind_ok _ _ _ _ _ EA), (bind_ok get _ _ _ _ eq_refl), EE, (bind_ok _ _ _ _ _ EC), (bind_ok _ _ _ _ _ EP2).
    fold (number_text no msg). by rewrite (bind_ok _ _ _ _ _ ES), (bind_ok _ _ _ _ _ EP4).
  - split; [done|]. split; [intros _; eexists; split; [done|by apply new_text_plain]|done].
Qed.
End spec.
