(* ===== verification/ErrorsRun.v ===== *)
(** * Error reports: whatever clients do

    A client holds reports, which it got or made, and errors by their numbers.
    The references stay counted right, and an error keeps its text and its code
    for 99 more messages. *)

From stdpp Require Import gmap.
From S2P Require Import Prelude Streams JsonWrite JsonRead JsonTmp Errors ErrorsSpec.

(** ** References *)

(** What a message is by itself. *)
Definition msg_ok (m : ErrorMessage) : Prop :=
  (em_source m = SRC_MESSAGE -> exists t, em_text m = Some t /\ plain t) /\
  (em_source m = SRC_MESSAGE \/ em_source m = SRC_REPORT -> is_message (em_error m) = false).

Definition report_ok (x : ReportBuffer) : Prop := pub_ok (rb_pub x) /\ is_message (rb_posix_code x) = false.

Lemma errors_ok_make s held : zlen (e_msgs s) = MESSAGE_CNT -> 0 <= e_msgs_pos s < MESSAGE_CNT -> refs_ok (e_reports s) (e_msgs s) held ->
  Forall msg_ok (e_msgs s) -> map_Forall (fun r x => report_ok x /\ r < e_brk s) (e_reports s) -> errors_ok s held.
Proof.
  intros Hl Hp Hr Hm Hx. constructor; try done.
  - rewrite Forall_forall in Hm |- *. intros m Hin. split; [|by apply Hm]. intros r Er.
    destruct (slot_report _ _ _ _ _ Hr Hin Er) as [x Hxr]. exists x. split; [done|]. by apply (Hx r x Hxr).
  - intros r x Hrx. apply (Hx r x Hrx).
  - intros r x Hrx. apply (Hx r x Hrx).
Qed.

Lemma errors_ok_parts s held : errors_ok s held -> Forall msg_ok (e_msgs s) /\ map_Forall (fun r x => report_ok x /\ r < e_brk s) (e_reports s).
Proof.
  intros Hok. split.
  - eapply Forall_impl; [exact (eo_slots _ _ Hok)|]. intros m (_ & Hm). exact Hm.
  - intros r x Hx. split; [by apply (eo_pubs _ _ Hok r)|by apply (eo_fresh _ _ Hok r x)].
Qed.

Lemma msg_ok_insert i m msgs : Forall msg_ok msgs -> msg_ok m -> Forall msg_ok (<[i := m]> msgs).
Proof. intros. by apply Forall_insert. Qed.

Lemma held_some r held rs msgs : refs_ok rs msgs held -> r ∈ held -> exists x, rs !! r = Some x.
Proof.
  intros [_ HN] Hin. destruct (rs !! r) as [x|] eqn:E; [by exists x|]. destruct (HN r E) as [HH _]. exfalso.
  apply list_elem_of_split in Hin as (l1 & l2 & ->). unfold held_cnt in HH. rewrite filter_app, filter_cons_True, zlen_app, zlen_cons in HH by done.
  pose proof (zlen_nonneg (filter (fun x => x = r) l1)). pose proof (zlen_nonneg (filter (fun x => x = r) l2)). lia.
Qed.

Lemma held_cnt_perm r held held' : held ≡ₚ held' -> held_cnt r held = held_cnt r held'.
Proof. intros Hp. unfold held_cnt, zlen. by rewrite (Permutation_length (filter_Permutation _ _ _ Hp)). Qed.

Lemma delete_none {A} (l : list A) k : l !! k = None -> delete k l = l.
Proof. revert k. induction l as [|x l IH]; intros [|k] Hk; try done. cbn in *. f_equal. by apply IH. Qed.

(** One more reference to a report, of a holder or of a message. *)
Lemma refs_get rs msgs held r x : refs_ok rs msgs held -> rs !! r = Some x ->
  refs_ok (<[r := set_refs (rb_refs x + 1) (rb_gets x + 1) x]> rs) msgs (r :: held).
Proof.
  intros [H1 H2] Hx. split; intros r'; (destruct (decide (r = r')) as [<-|Hn]; [rewrite lookup_insert_eq|rewrite lookup_insert_ne by done]).
  - intros y [= <-]. cbn. rewrite held_cnt_cons, bool_decide_eq_true_2 by done. specialize (H1 r x Hx). lia.
  - intros y Hy. rewrite held_cnt_cons, bool_decide_eq_false_2 by done. by apply H1.
  - done.
  - intros Hy. rewrite held_cnt_cons, bool_decide_eq_false_2 by done. by apply H2.
Qed.

Lemma refs_new rs msgs held r x : refs_ok rs msgs held -> rs !! r = None -> rb_refs x = 1 -> rb_gets x = 1 ->
  refs_ok (<[r := x]> rs) msgs (r :: held).
Proof.
  intros [H1 H2] Hx Hr Hg. split; intros r'; (destruct (decide (r = r')) as [<-|Hn]; [rewrite lookup_insert_eq|rewrite lookup_insert_ne by done]).
  - intros y [= <-]. rewrite held_cnt_cons, bool_decide_eq_true_2 by done. specialize (H2 r Hx). lia.
  - intros y Hy. rewrite held_cnt_cons, bool_decide_eq_false_2 by done. by apply H1.
  - done.
  - intros Hy. rewrite held_cnt_cons, bool_decide_eq_false_2 by done. by apply H2.
Qed.

Lemma refs_attach rs msgs held i m m' r x : refs_ok rs msgs held -> msgs !! i = Some m -> em_report m = None -> em_report m' = Some r ->
  rs !! r = Some x -> refs_ok (<[r := set_refs (rb_refs x + 1) (rb_gets x) x]> rs) (<[i := m']> msgs) held.
Proof.
  intros [H1 H2] Hi Hm Hm' Hx.
  assert (HC : forall r', slot_cnt r' (<[i := m']> msgs) = slot_cnt r' msgs + (if bool_decide (r = r') then 1 else 0)).
  { intros r'. rewrite (slot_cnt_insert r' i m m' msgs Hi), Hm, Hm', (bool_decide_eq_false_2 (None = Some r')) by done.
    rewrite (bool_decide_ext (Some r = Some r') (r = r')) by (split; congruence). lia. }
  split; intros r'; rewrite HC; (destruct (decide (r = r')) as [<-|Hn]; [rewrite lookup_insert_eq, bool_decide_eq_true_2 by done|rewrite lookup_insert_ne, bool_decide_eq_false_2 by done]).
  - intros y [= <-]. cbn. specialize (H1 r x Hx). lia.
  - intros y Hy. rewrite Z.add_0_r. by apply H1.
  - done.
  - intros Hy. rewrite Z.add_0_r. by apply H2.
Qed.

(** One reference less of a holder, and the report is gone with the last one. *)
Definition unheld (rs : gmap Z ReportBuffer) (r : Z) (x : ReportBuffer) : gmap Z ReportBuffer :=
  if rb_refs x - 1 =? 0 then delete r rs else <[r := set_refs (rb_refs x - 1) (rb_gets x - 1) x]> rs.

Lemma refs_put rs msgs held held' r x : refs_ok rs msgs held -> held ≡ₚ r :: held' -> rs !! r = Some x ->
  0 < rb_gets x /\ rb_gets x - 1 < rb_refs x /\ refs_ok (unheld rs r x) msgs held'.
Proof.
  intros [H1 H2] Hp Hx. assert (HC : forall r', held_cnt r' held = (if bool_decide (r = r') then 1 else 0) + held_cnt r' held')
    by (intros r'; by rewrite (held_cnt_perm _ _ _ Hp), held_cnt_cons).
  pose proof (H1 r x Hx) as (Hg & Hr & Hpos). rewrite HC, bool_decide_eq_true_2 in Hg, Hr by done.
  pose proof (held_cnt_nonneg r held'). pose proof (slot_cnt_nonneg r msgs). split; [lia|]. split; [lia|]. unfold unheld.
  destruct (Z.eqb_spec (rb_refs x - 1) 0); split; intros r';
    (destruct (decide (r = r')) as [<-|Hn]; [rewrite ?lookup_delete_eq, ?lookup_insert_eq|rewrite ?lookup_delete_ne, ?lookup_insert_ne by done;
      specialize (HC r'); rewrite bool_decide_eq_false_2, Z.add_0_l in HC by done; rewrite <- HC; auto]); [done|lia| |done].
  intros y [= <-]. cbn. lia.
Qed.

Lemma unheld_some rs r x r' y' : unheld rs r x !! r' = Some y' -> rs !! r = Some x ->
  exists y, rs !! r' = Some y /\ rb_pub y' = rb_pub y /\ rb_posix_code y' = rb_posix_code y.
Proof.
  intros Hy Hx. unfold unheld in Hy. destruct (_ =? 0).
  - apply lookup_delete_Some in Hy as [_ Hy]. by exists y'.
  - destruct (decide (r = r')) as [<-|Hn]; [rewrite lookup_insert_eq in Hy; injection Hy as <-; by exists x|].
    rewrite lookup_insert_ne in Hy by done. by exists y'.
Qed.

Section run.
Context `{CLib}.

(** ** Clients *)

(** The operations of a client; it holds a list of reports, [k] is a place in it.
    [OpCreate] makes a report and fills it in. *)
Inductive ErrorOp :=
  | OpSet (no : Z) (msg : bytes)
  | OpGai (no : Z)
  | OpSetReport (k : nat)
  | OpGetReport (err : Z)
  | OpCreate (pub : ErrorReport)
  | OpRelease (k : nat)
  | OpText (err : Z)
  | OpCode (err : Z).

#[export] Instance plain_dec l : Decision (plain l).
Proof. unfold plain. apply _. Defined.

Definition format_ok (f : option bytes) : Prop := match f with Some f => plain f | None => True end.
#[export] Instance format_ok_dec f : Decision (format_ok f).
Proof. destruct f; apply _. Defined.

(** The rules for a client: the text is plain, the error is not that of the
    message that is 100 messages old, codes of reports are less than 100, and it
    gives back what it holds.  It does not do anything else. *)
Definition run_op (op : ErrorOp) (held : list Z) : ME (list Z) :=
  s ← get;
  match op with
  | OpSet no msg =>
      if bool_decide (plain msg) && negb (no =? ERR_MESSAGE_MIN + e_msgs_pos s) then set_errno no (Some msg) ;; mret held else mret held
  | OpGai no => set_gai_errno no ;; mret held
  | OpSetReport k => set_error_report_errno (held !! k) ;; mret held
  | OpGetReport err => r ← get_error_report err; mret (match r with Some r => r :: held | None => held end)
  | OpCreate pub =>
      if (0 <=? er_code pub) && (er_code pub <? 100) && bool_decide (format_ok (er_format pub)) then
        r ← create_error_report;
        x ← get_report r;
        put_report r (set_pub pub x) ;;
        mret (r :: held)
      else mret held
  | OpRelease k => release_error_report (held !! k) ;; mret (delete k held)
  | OpText err => errno_to_str error_fuel err ;; mret held
  | OpCode err => get_error_code error_fuel err ;; mret held
  end.

Fixpoint run_ops (ops : list ErrorOp) (held : list Z) : ME (list Z) :=
  match ops with
  | [] => mret held
  | op :: ops => held ← run_op op held; run_ops ops held
  end.

(** What an operation leaves as it is: the messages that are not made anew. *)
Definition keeps (s s' : Errors) : Prop :=
  (e_msgs_pos s' = e_msgs_pos s \/ e_msgs_pos s' = next_pos (e_msgs_pos s)) /\
  forall i no text, 0 <= i -> i <> e_msgs_pos s -> plain text -> slot_is i no text s -> slot_is i no text s'.

Lemma keeps_all s : keeps s s.
Proof. split; [by left|done]. Qed.

Lemma keeps_errno n s : keeps s (set_e_errno n s).
Proof. split; [by left|done]. Qed.

Lemma keeps_same s s' : same s s' -> keeps s s'.
Proof. intros (b & m & ->). split; [by left|done]. Qed.

Lemma errors_ok_same s s' held : same s s' -> errors_ok s held -> errors_ok s' held.
Proof. by intros (b & m & ->) []. Qed.

Lemma making_keeps s held mf s' : making s held mf s' -> 0 <= e_msgs_pos s -> keeps s s'.
Proof.
  intros [] Hp. split; [by right|]. intros i no text Hi Hne Ht Hs. eapply slot_is_frame; [exact Hs| |done].
  rewrite mk_msgs, list_lookup_insert_ne by lia. done.
Qed.

(** The reports that a message refers to have not changed. *)
Lemma slot_is_reports i no text s held s' : errors_ok s held -> e_msgs s' = e_msgs s ->
  (forall r x x', e_reports s !! r = Some x -> e_reports s' !! r = Some x' -> rb_pub x' = rb_pub x /\ rb_posix_code x' = rb_posix_code x) ->
  slot_is i no text s -> slot_is i no text s'.
Proof.
  intros Hok Hm Hk (m & Hi & Hs & He & Ht & Hr). exists m. split; [by rewrite Hm|]. do 3 (split; [done|]).
  intros r x' Er Hx'. destruct (slot_report _ _ _ m r (eo_refs _ _ Hok)) as [x Hx]; [by eapply list_elem_of_lookup_2|done|].
  destruct (Hk r x x' Hx Hx') as [-> ->]. by apply (Hr r).
Qed.

(** An operation that does what it has to. *)
Definition step_ok {A} (f : ME A) (s : Errors) (next : A -> list Z) : Prop :=
  exists a s', f s = (Ok a, s') /\ errors_ok s' (next a) /\ keeps s s'.

Lemma set_errno_step no msg s held : clib_plain -> errors_ok s held -> plain msg -> no <> ERR_MESSAGE_MIN + e_msgs_pos s ->
  step_ok (set_errno no (Some msg)) s (fun _ => held).
Proof.
  intros Hc Hok Hp Hu. destruct (decide (no = 0)) as [->|H0].
  - exists 0, (set_e_errno 0 s). split; [done|]. split; [by destruct Hok|apply keeps_errno].
  - destruct (set_errno_ok no msg s held Hok Hc Hp H0 (fun _ => Hu)) as (s' & code & str & E & Hok' & _ & _ & Hk).
    eexists _, s'. split; [exact E|]. split; [done|]. eapply making_keeps; [exact Hk|]. apply (eo_pos _ _ Hok).
Qed.

Lemma set_gai_errno_step no s held : errors_ok s held -> step_ok (set_gai_errno no) s (fun _ => held).
Proof.
  intros Hok. unfold step_ok, set_gai_errno. rewrite (bind_ok (modify _) _ s tt _ eq_refl). destruct (no =? 0).
  - eexists _, _. split; [reflexivity|]. split; [by destruct Hok|apply keeps_errno].
  - destruct (alloc_making SRC_GAI no s held Hok) as (s1 & EA & EE & M1).
    destruct (making_put s held _ s1 (Build_ErrorMessage SRC_GAI no None None) Hok M1 eq_refl) as (s2 & EP & EE2 & M2).
    rewrite bind_assoc, (bind_ok _ _ _ _ _ EA), (bind_ok _ _ _ _ _ EP). eexists _, s2. split; [reflexivity|]. split.
    + apply (made_ok s held _ s2 Hok M2). split; [done|]. split; [done|]. intros [Hs|Hs]; discriminate Hs.
    + eapply making_keeps; [exact M2|apply (eo_pos _ _ Hok)].
Qed.

(** The state after an error has been made of the report [r]. *)
Definition with_error (r : Z) (x : ReportBuffer) (i : Z) (s1 : Errors) : Errors :=
  let mf := Build_ErrorMessage SRC_REPORT (er_code (rb_pub x) + STD_ERR_BASE) None (Some r) in
  set_reports (<[r := set_refs (rb_refs x + 1) (rb_gets x) x]> (e_reports s1)) (e_brk s1) (set_msgs (<[Z.to_nat i := mf]> (e_msgs s1)) s1).

Lemma set_report_eq r s held : errors_ok s held -> r ∈ held -> exists s1 x,
  making s held (Build_ErrorMessage SRC_REPORT 0 None None) s1 /\ e_reports s1 !! r = Some x /\ 0 <= er_code (rb_pub x) < 100 /\
  set_error_report_errno (Some r) s = (Ok (ERR_MESSAGE_MIN + e_msgs_pos s), with_error r x (e_msgs_pos s) s1).
Proof.
  intros Hok ER. unfold set_error_report_errno. rewrite (bind_ok (modify _) _ s tt _ eq_refl).
  destruct (alloc_making SRC_REPORT 0 s held Hok) as (s1 & EA & EE & M1). destruct (held_some r held _ _ (mk_refs _ _ _ _ M1) ER) as [x Hx].
  exists s1, x. split; [done|]. split; [done|]. rewrite (bind_ok _ _ _ _ _ EA).
  assert (EG : get_report r s1 = (Ok x, s1)) by (unfold get_report; by rewrite (bind_ok get _ _ _ _ eq_refl), Hx). rewrite (bind_ok _ _ _ _ _ EG).
  destruct (mk_sub _ _ _ _ M1 r x Hx) as (x0 & Hx0 & Hpub & _). destruct (errors_ok_parts _ _ Hok) as [_ Hreps].
  destruct (Hreps r x0 Hx0) as [[[Hcode _] _] _]. rewrite <- Hpub in Hcode. split; [done|]. cbv zeta.
  replace (er_code (rb_pub x) + STD_ERR_BASE <? 2 ^ 31) with true by (unfold STD_ERR_BASE in *; lia). cbn [assertm]. rewrite ret_bind.
  rewrite (bind_ok _ _ _ _ _ (put_msg_ok (e_msgs_pos s) _ s1 ltac:(rewrite (mk_msgs _ _ _ _ M1); unfold zlen; rewrite length_insert; pose proof (eo_length _ _ Hok); pose proof (eo_pos _ _ Hok); unfold zlen in *; lia))).
  rewrite (bind_ok (put_report _ _) _ _ tt _ eq_refl). unfold gets. cbn. by rewrite EE.
Qed.

Lemma with_error_ok r x s held s1 : errors_ok s held -> making s held (Build_ErrorMessage SRC_REPORT 0 None None) s1 ->
  e_reports s1 !! r = Some x -> 0 <= er_code (rb_pub x) < 100 -> errors_ok (with_error r x (e_msgs_pos s) s1) held.
Proof.
  intros Hok M1 Hx Hcode. destruct (msg_at s held (e_msgs_pos s) Hok (eo_pos _ _ Hok)) as (m & Hm). destruct (errors_ok_parts _ _ Hok) as [Hmsgs Hreps].
  assert (HL : e_msgs s1 !! Z.to_nat (e_msgs_pos s) = Some (Build_ErrorMessage SRC_REPORT 0 None None))
    by (rewrite (mk_msgs _ _ _ _ M1); apply list_lookup_insert_eq; by apply lookup_lt_Some in Hm).
  apply errors_ok_make; cbn.
  - rewrite (mk_msgs _ _ _ _ M1). unfold zlen. rewrite !length_insert. apply (eo_length _ _ Hok).
  - rewrite (mk_pos _ _ _ _ M1). unfold next_pos. pose proof (eo_pos _ _ Hok). destruct (MESSAGE_CNT <=? _) eqn:E; [done|lia].
  - eapply refs_attach; [apply M1|exact HL|done|done|done].
  - apply msg_ok_insert; [|split; [done|intros _; cbn; unfold is_message, ERR_MESSAGE_MIN; lia]].
    rewrite (mk_msgs _ _ _ _ M1). apply msg_ok_insert; [done|]. split; [done|done].
  - intros r' y' Hy'. assert (exists y, e_reports s1 !! r' = Some y /\ rb_pub y' = rb_pub y /\ rb_posix_code y' = rb_posix_code y) as (y & Hy & Hp1 & Hp2).
    { destruct (decide (r = r')) as [<-|Hn]; [rewrite lookup_insert_eq in Hy'; injection Hy' as <-; by exists x|]. rewrite lookup_insert_ne in Hy' by done. by exists y'. }
    destruct (mk_sub _ _ _ _ M1 r' y Hy) as (z & Hz & Hp3 & Hp4). unfold report_ok. rewrite Hp1, Hp2, Hp3, Hp4, (mk_brk _ _ _ _ M1). apply (Hreps r' z Hz).
Qed.

Lemma set_report_step held k s : errors_ok s held -> step_ok (set_error_report_errno (held !! k)) s (fun _ => held).
Proof.
  intros Hok. unfold step_ok. destruct (held !! k) as [r|] eqn:ER.
  2: { eexists _, (set_e_errno 0 s). split; [reflexivity|]. split; [by destruct Hok|apply keeps_errno]. }
  apply list_elem_of_lookup_2 in ER. destruct (set_report_eq r s held Hok ER) as (s1 & x & M1 & Hx & Hcode & E).
  eexists _, _. split; [exact E|]. split; [by apply with_error_ok|]. split; [right; apply (mk_pos _ _ _ _ M1)|].
  intros i no text Hi Hne Ht Hs. eapply slot_is_frame; [exact Hs| |].
  - cbn. pose proof (eo_pos _ _ Hok). rewrite list_lookup_insert_ne, (mk_msgs _ _ _ _ M1), list_lookup_insert_ne by lia. done.
  - intros r' y' Hy'. cbn in Hy'. destruct (decide (r = r')) as [<-|Hn].
    + rewrite lookup_insert_eq in Hy'. injection Hy' as <-. by apply (mk_sub _ _ _ _ M1 r x).
    + rewrite lookup_insert_ne in Hy' by done. by apply (mk_sub _ _ _ _ M1 r' y').
Qed.

(** ** Getting a report *)

Lemma make_report_ok err m text : plain text ->
  match m with Some m => msg_ok m | None => is_message err = false end ->
  exists x, make_report err m text = Some x /\ report_ok x /\ rb_refs x = 1 /\ rb_gets x = 1 /\ er_format (rb_pub x) = Some text /\
    forall m0, m = Some m0 -> em_source m0 = SRC_MESSAGE -> rb_posix_code x = 0 \/ rb_posix_code x = em_error m0.
Proof.
  intros Ht Hm. unfold make_report. set (e := match m with Some m => _ | None => _ end).
  assert (He : is_message e = false).
  { subst e. destruct m as [m|]; [|done]. destruct (Z.eqb_spec (em_source m) SRC_MESSAGE); [apply Hm; by left|done]. }
  assert (Hem : forall m0, m = Some m0 -> em_source m0 = SRC_MESSAGE -> e = em_error m0) by (intros m0 -> Hs; subst e; cbn; by rewrite Hs).
  clearbody e. destruct ((e <? STD_ERR_BASE) || (ERR_MESSAGE_MAX <? e)) eqn:Eo.
  - eexists. split; [reflexivity|]. split; [split; [split; [cbn; unfold ERR_OTHER; lia|by intros f [= <-]]|done]|]. do 3 (split; [done|]).
    intros m0 Em Es. right. by apply Hem.
  - unfold is_message in He. replace ((STD_ERR_BASE <=? e) && (e <? ERR_MESSAGE_MIN)) with true by lia.
    eexists. split; [reflexivity|]. split; [split; [split; [cbn; unfold ERR_MESSAGE_MIN in *; lia|by intros f [= <-]]|done]|]. do 3 (split; [done|]). by left.
Qed.

(** The message of a number, and its text. *)
Lemma message_text err s held : clib_plain -> errors_ok s held ->
  exists t s', errno_to_str error_fuel err s = (Ok (Some t), s') /\ plain t /\ same s s' /\
    (forall m, is_message err = true -> znth (e_msgs s) (err - ERR_MESSAGE_MIN) = Some m -> msg_text s m t).
Proof.
  intros Hc Hok. destruct (is_message err) eqn:Em.
  - destruct (message_slot s held err Hok Em) as (m & Hz & Hs & _). destruct (str_message err s m 100 Hc Em Hz Hs) as (t & s' & E & Hp & Hsm & Ht).
    exists t, s'. split; [exact E|]. do 2 (split; [done|]). intros m' _ Hm'. by simplify_eq.
  - exists (code_text err), s. split; [by apply str_plain|]. split; [by apply code_text_plain|]. split; [apply same_refl|done].
Qed.

Lemma fresh_none s held : errors_ok s held -> e_reports s !! e_brk s = None.
Proof. intros Hok. destruct (e_reports s !! e_brk s) as [x|] eqn:E; [|done]. pose proof (eo_fresh _ _ Hok _ _ E). cbv beta in *. lia. Qed.

(** A new report with the holder. *)
Lemma alloc_report_step x s held : errors_ok s held -> report_ok x -> rb_refs x = 1 -> rb_gets x = 1 ->
  alloc_report x s = (Ok (e_brk s), set_reports (<[e_brk s := x]> (e_reports s)) (e_brk s + 1) s) /\
  errors_ok (set_reports (<[e_brk s := x]> (e_reports s)) (e_brk s + 1) s) (e_brk s :: held).
Proof.
  intros Hok Hx Hr Hg. split; [done|]. pose proof (fresh_none _ _ Hok) as Hn. destruct (errors_ok_parts _ _ Hok) as [Hm Hp]. apply errors_ok_make; cbn.
  - apply (eo_length _ _ Hok).
  - apply (eo_pos _ _ Hok).
  - apply refs_new; [apply (eo_refs _ _ Hok)|done|done|done].
  - done.
  - apply map_Forall_insert; [done|]. split; [split; [done|lia]|]. intros r y Hy. destruct (Hp r y Hy). split; [done|lia].
Qed.

Lemma reports_new_same s held r x x' y brk : errors_ok s held -> e_reports s !! r = Some x ->
  e_reports (set_reports (<[e_brk s := y]> (e_reports s)) brk s) !! r = Some x' -> rb_pub x' = rb_pub x /\ rb_posix_code x' = rb_posix_code x.
Proof.
  intros Hok Hx. cbn. pose proof (fresh_none _ _ Hok). rewrite lookup_insert_ne by congruence. intros. by simplify_eq.
Qed.

(** The holders are more by one: the report of the message. *)
Lemma get_known_eq err m r x s : is_message err = true -> znth (e_msgs s) (err - ERR_MESSAGE_MIN) = Some m -> em_report m = Some r -> e_reports s !! r = Some x ->
  get_error_report err s = (Ok (Some r), set_reports (<[r := set_refs (rb_refs x + 1) (rb_gets x + 1) x]> (e_reports s)) (e_brk s) s).
Proof.
  intros Em Hz Hr Hx. unfold get_error_report. rewrite Em.
  assert (EM : get_msg (err - ERR_MESSAGE_MIN) s = (Ok m, s)) by (unfold get_msg; by rewrite (bind_ok get _ _ _ _ eq_refl), Hz).
  assert (EG : get_report r s = (Ok x, s)) by (unfold get_report; by rewrite (bind_ok get _ _ _ _ eq_refl), Hx).
  rewrite bind_assoc, (bind_ok _ _ _ _ _ EM), ret_bind. cbn [mbind option_bind]. by rewrite Hr, (bind_ok _ _ _ _ _ EG).
Qed.

Lemma get_known_step err m r s held : errors_ok s held -> is_message err = true -> znth (e_msgs s) (err - ERR_MESSAGE_MIN) = Some m -> em_report m = Some r ->
  step_ok (get_error_report err) s (fun o => match o with Some r => r :: held | None => held end).
Proof.
  intros Hok Em Hz Hr. destruct (message_slot s held err Hok Em) as (m' & Hz' & _ & Hin). rewrite Hz in Hz'. injection Hz' as <-.
  destruct (slot_report _ _ _ _ _ (eo_refs _ _ Hok) Hin Hr) as [x Hx].
  destruct (errors_ok_parts _ _ Hok) as [Hmsgs Hreps]. eexists _, _. split; [by apply (get_known_eq err m r x)|]. split.
  - apply errors_ok_make; cbn; [apply (eo_length _ _ Hok)|apply (eo_pos _ _ Hok)|apply refs_get; [apply (eo_refs _ _ Hok)|done]|done|].
    intros r' y'. destruct (decide (r = r')) as [<-|Hn]; [rewrite lookup_insert_eq; intros [= <-]; by apply (Hreps r x)|rewrite lookup_insert_ne by done; apply Hreps].
  - split; [by left|]. intros i no text _ _ _. apply (slot_is_reports _ _ _ s held); [done|done|]. intros r' y y' Hy. cbn.
    destruct (decide (r = r')) as [<-|Hn]; [rewrite lookup_insert_eq; intros [= <-]; by simplify_eq|rewrite lookup_insert_ne by done; intros; by simplify_eq].
Qed.

Lemma get_code_step err s held : clib_plain -> errors_ok s held -> is_message err = false ->
  step_ok (get_error_report err) s (fun o => match o with Some r => r :: held | None => held end).
Proof.
  intros Hc Hok Em. unfold step_ok, get_error_report. rewrite Em, ret_bind. cbn [mbind option_bind]. destruct (err =? 0).
  { eexists _, s. split; [reflexivity|]. split; [done|apply keeps_all]. }
  unfold error_fuel. rewrite (bind_ok _ _ _ _ _ (str_plain err s _ Em)). cbn [of_option]. rewrite ret_bind.
  destruct (make_report_ok err None (code_text err) (code_text_plain err Hc) Em) as (x & Ex & Hx & Hr & Hg & _). rewrite Ex. cbn [of_option]. rewrite ret_bind.
  destruct (alloc_report_step x s held Hok Hx Hr Hg) as [EA Hok']. rewrite (bind_ok _ _ _ _ _ EA), ret_bind.
  eexists _, _. split; [reflexivity|]. split; [done|]. split; [by left|]. intros i no text _ _ _. apply (slot_is_reports _ _ _ s held); [done|done|].
  intros r y y'. by apply (reports_new_same s held).
Qed.

(** The report [x] of the message [m] at [j]. *)
Definition attached (j : Z) (m : ErrorMessage) (x : ReportBuffer) (s : Errors) : Errors :=
  let r := e_brk s in
  set_reports (<[r := set_refs 2 1 x]> (<[r := x]> (e_reports s))) (r + 1)
    (set_msgs (<[Z.to_nat j := Build_ErrorMessage (em_source m) (em_error m) (em_text m) (Some r)]> (e_msgs s)) s).

Lemma attached_ok j m x s held : errors_ok s held -> e_msgs s !! Z.to_nat j = Some m -> em_report m = None -> report_ok x -> rb_refs x = 1 -> rb_gets x = 1 ->
  errors_ok (attached j m x s) (e_brk s :: held).
Proof.
  intros Hok Hj Hm Hx Hr Hg. destruct (alloc_report_step x s held Hok Hx Hr Hg) as [_ Hok1]. destruct (errors_ok_parts _ _ Hok1) as [Hmsgs Hreps]. cbn in Hmsgs, Hreps.
  apply errors_ok_make; cbn.
  - unfold zlen. rewrite length_insert. apply (eo_length _ _ Hok).
  - apply (eo_pos _ _ Hok).
  - replace (set_refs 2 1 x) with (set_refs (rb_refs x + 1) (rb_gets x) x) by (by rewrite Hr, Hg).
    eapply refs_attach; [apply (eo_refs _ _ Hok1)|exact Hj|done|done|cbn; apply lookup_insert_eq].
  - apply msg_ok_insert; [done|]. rewrite Forall_forall in Hmsgs. apply (Hmsgs m). by eapply list_elem_of_lookup_2.
  - intros r' y'. destruct (decide (e_brk s = r')) as [<-|Hn]; [rewrite lookup_insert_eq; intros [= <-]; split; [done|lia]|rewrite lookup_insert_ne by done; apply Hreps].
Qed.

Lemma attached_keeps j m x s held text : errors_ok s held -> 0 <= j -> e_msgs s !! Z.to_nat j = Some m -> em_report m = None ->
  er_format (rb_pub x) = Some text -> (em_source m = SRC_MESSAGE -> em_text m = Some text /\ (rb_posix_code x = 0 \/ rb_posix_code x = em_error m)) ->
  keeps s (attached j m x s).
Proof.
  intros Hok Hj0 Hj Hm Hf Ht. split; [by left|]. intros i no t Hi _ _ Hs. destruct (decide (i = j)) as [->|Hne].
  - destruct Hs as (m' & Hm' & Hs & He & Htx & _). rewrite Hj in Hm'. injection Hm' as <-. destruct (Ht Hs) as [Htm Hp]. rewrite Htx in Htm. injection Htm as ->.
    exists (Build_ErrorMessage (em_source m) (em_error m) (em_text m) (Some (e_brk s))). split; [cbn; apply list_lookup_insert_eq; by apply lookup_lt_Some in Hj|].
    do 3 (split; [done|]). cbn. intros r y [= <-]. rewrite lookup_insert_eq. intros [= <-]. split; [done|]. by rewrite <- He.
  - destruct Hs as (m' & Hm' & Hs & He & Htx & Hr). exists m'. split; [cbn; rewrite list_lookup_insert_ne by lia; done|]. do 3 (split; [done|]).
    intros r y Er. destruct (slot_report _ _ _ m' r (eo_refs _ _ Hok)) as [z Hz]; [by eapply list_elem_of_lookup_2|done|].
    pose proof (fresh_none _ _ Hok). cbn. rewrite !lookup_insert_ne by congruence. by apply Hr.
Qed.

Lemma get_new_step err m s held : clib_plain -> errors_ok s held -> is_message err = true -> znth (e_msgs s) (err - ERR_MESSAGE_MIN) = Some m -> em_report m = None ->
  step_ok (get_error_report err) s (fun o => match o with Some r => r :: held | None => held end).
Proof.
  intros Hc Hok Em Hz Hr. unfold step_ok, get_error_report. rewrite Em.
  assert (EM : get_msg (err - ERR_MESSAGE_MIN) s = (Ok m, s)) by (unfold get_msg; by rewrite (bind_ok get _ _ _ _ eq_refl), Hz).
  rewrite bind_assoc, (bind_ok _ _ _ _ _ EM), ret_bind. cbn [mbind option_bind]. rewrite Hr. unfold is_message in Em.
  replace (err =? 0) with false by (unfold ERR_MESSAGE_MIN, STD_ERR_BASE in *; lia). destruct (message_text err s held Hc Hok) as (t & s1 & ET & Hp & Hsm & Ht).
  specialize (Ht m Em Hz). rewrite (bind_ok _ _ _ _ _ ET). cbn [of_option]. rewrite ret_bind.
  assert (Hmsg : msg_ok m) by (destruct (errors_ok_parts _ _ Hok) as [HM _]; rewrite Forall_forall in HM; destruct (message_slot s held err Hok Em) as (m' & Hz' & _ & Hin); apply HM; by simplify_eq).
  destruct (make_report_ok err (Some m) t Hp Hmsg) as (x & Ex & Hx & Hrf & Hg & Hf & Hpx). rewrite Ex. cbn [of_option]. rewrite ret_bind.
  assert (Hj : e_msgs s1 !! Z.to_nat (err - ERR_MESSAGE_MIN) = Some m).
  { destruct (set_same _ _ Hsm) as (-> & _). unfold znth in Hz. by replace (0 <=? err - ERR_MESSAGE_MIN) with true in Hz by lia. }
  pose proof (errors_ok_same _ _ _ Hsm Hok) as Hok1. destruct (alloc_report_step x s1 held Hok1 Hx Hrf Hg) as [EA _].
  rewrite (bind_ok _ _ _ _ _ EA), bind_assoc. rewrite (bind_ok _ _ _ _ _ (put_msg_ok (err - ERR_MESSAGE_MIN) _ (set_reports (<[e_brk s1 := x]> (e_reports s1)) (e_brk s1 + 1) s1)
    ltac:(cbn; rewrite (eo_length _ _ Hok1); unfold MESSAGE_CNT; lia))), (bind_ok (put_report _ _) _ _ tt _ eq_refl).
  exists (Some (e_brk s1)), (attached (err - ERR_MESSAGE_MIN) m x s1). split; [reflexivity|]. split; [by apply attached_ok|].
  destruct (attached_keeps (err - ERR_MESSAGE_MIN) m x s1 held t Hok1 ltac:(lia) Hj Hr Hf) as [HK1 HK2].
  { intros Hs. split; [|by apply Hpx]. unfold msg_text, msg_report in Ht. rewrite Hr in Ht. by apply Ht. }
  destruct Hsm as (b & mx & ->). by split.
Qed.

Lemma get_report_step err s held : clib_plain -> errors_ok s held ->
  step_ok (get_error_report err) s (fun o => match o with Some r => r :: held | None => held end).
Proof.
  intros Hc Hok. destruct (is_message err) eqn:Em; [|by apply get_code_step].
  destruct (message_slot s held err Hok Em) as (m & Hz & _). destruct (em_report m) eqn:Er; [by eapply get_known_step|by eapply get_new_step].
Qed.

(** ** Making and releasing *)

Lemma create_step pub s held : errors_ok s held -> pub_ok pub ->
  step_ok (r ← create_error_report; x ← get_report r; put_report r (set_pub pub x) ;; mret (r :: held)) s (fun held => held).
Proof.
  intros Hok Hp. unfold step_ok, create_error_report, alloc_report. rewrite bind_assoc, (bind_ok get _ _ _ _ eq_refl), bind_assoc, (bind_ok (put _) _ _ tt _ eq_refl), ret_bind.
  set (x := Build_ReportBuffer (Build_ErrorReport 0 None [] 0 []) 0 1 1). set (s1 := set_reports _ _ s).
  assert (EG : get_report (e_brk s) s1 = (Ok x, s1)) by (unfold get_report; by rewrite (bind_ok get _ _ _ _ eq_refl); cbn; rewrite lookup_insert_eq).
  rewrite (bind_ok _ _ _ _ _ EG), (bind_ok (put_report _ _) _ _ tt _ eq_refl). eexists _, _. split; [reflexivity|].
  assert (Hx : report_ok (set_pub pub x)) by (by split). destruct (alloc_report_step (set_pub pub x) s held Hok Hx eq_refl eq_refl) as [_ Hok'].
  cbn. rewrite insert_insert_eq. split; [exact Hok'|]. split; [by left|]. intros i no text _ _ _. apply (slot_is_reports _ _ _ s held); [done|done|].
  intros r y y'. by apply (reports_new_same s held).
Qed.

Lemma release_eq r x s : e_reports s !! r = Some x -> 0 < rb_gets x -> rb_gets x - 1 < rb_refs x ->
  release_error_report (Some r) s = (Ok tt, set_reports (unheld (e_reports s) r x) (e_brk s) s).
Proof.
  intros Hx Hg Hlt. unfold release_error_report. assert (EG : get_report r s = (Ok x, s)) by (unfold get_report; by rewrite (bind_ok get _ _ _ _ eq_refl), Hx).
  rewrite (bind_ok _ _ _ _ _ EG). replace (0 <? rb_gets x) with true by lia. cbn [assertm]. rewrite ret_bind, (bind_ok (put_report _ _) _ _ tt _ eq_refl).
  unfold release_report. set (s1 := set_reports _ _ s). set (x1 := set_refs _ _ x) in s1.
  assert (EG1 : get_report r s1 = (Ok x1, s1)) by (unfold get_report; by rewrite (bind_ok get _ _ _ _ eq_refl); cbn; rewrite lookup_insert_eq).
  rewrite (bind_ok _ _ _ _ _ EG1). replace (rb_gets x1 <? rb_refs x1) with true by (cbn; lia). cbn [assertm]. rewrite ret_bind. unfold unheld.
  change (rb_refs x1) with (rb_refs x). destruct (rb_refs x - 1 =? 0); unfold put_report, modify; cbn.
  - by rewrite delete_insert_eq.
  - by rewrite insert_insert_eq.
Qed.

Lemma release_step r s held held' : errors_ok s held -> held ≡ₚ r :: held' -> exists x, e_reports s !! r = Some x /\
  let s' := set_reports (unheld (e_reports s) r x) (e_brk s) s in
  release_error_report (Some r) s = (Ok tt, s') /\ errors_ok s' held' /\ keeps s s'.
Proof.
  intros Hok Hp. destruct (held_some r held _ _ (eo_refs _ _ Hok)) as [x Hx]; [rewrite Hp; left|]. exists x. split; [done|]. cbv zeta.
  destruct (refs_put _ _ _ _ _ _ (eo_refs _ _ Hok) Hp Hx) as (Hg & Hlt & Href). destruct (errors_ok_parts _ _ Hok) as [Hmsgs Hreps].
  split; [by apply release_eq|]. split.
  - apply errors_ok_make; cbn; [apply (eo_length _ _ Hok)|apply (eo_pos _ _ Hok)|done|done|].
    intros r' y' Hy'. destruct (unheld_some _ _ _ _ _ Hy' Hx) as (y & Hy & Hp1 & Hp2). unfold report_ok. rewrite Hp1, Hp2. by apply (Hreps r' y).
  - split; [by left|]. intros i no text _ _ _. apply (slot_is_reports _ _ _ s held); [done|done|]. intros r' y y' Hy Hy'.
    destruct (unheld_some _ _ _ _ _ Hy' Hx) as (z & Hz & ?). by simplify_eq.
Qed.

(** ** Operations *)

Lemma format_ok_plain f : format_ok f -> forall l, f = Some l -> plain l.
Proof. by intros Hf l ->. Qed.

Lemma step_then {A} (f : ME A) (next : A -> list Z) s : step_ok f s next -> exists held' s', (a ← f; mret (next a)) s = (Ok held', s') /\ errors_ok s' held' /\ keeps s s'.
Proof. intros (a & s' & E & Hok & Hk). exists (next a), s'. by rewrite (bind_ok _ _ _ _ _ E). Qed.

Lemma run_op_ok op s held : clib_plain -> errors_ok s held ->
  exists held' s', run_op op held s = (Ok held', s') /\ errors_ok s' held' /\ keeps s s'.
Proof.
  intros Hc Hok. assert (Hskip : exists held' s', (mret held : ME _) s = (Ok held', s') /\ errors_ok s' held' /\ keeps s s')
    by (exists held, s; split; [done|]; split; [done|apply keeps_all]).
  unfold run_op. rewrite (bind_ok get _ _ _ _ eq_refl). destruct op as [no msg|no|k|err|pub|k|err|err].
  - destruct (bool_decide (plain msg) && _) eqn:E; [|done]. apply andb_true_iff in E as [Hp%bool_decide_eq_true_1 Hn].
    apply (step_then _ (fun _ => held)), set_errno_step; [done|done|done|lia].
  - by apply (step_then _ (fun _ => held)), set_gai_errno_step.
  - by apply (step_then _ (fun _ => held)), set_report_step.
  - by apply (step_then _ _ s (get_report_step err s held Hc Hok)).
  - destruct ((0 <=? er_code pub) && _ && _) eqn:E; [|done]. apply andb_true_iff in E as [E Hf%bool_decide_eq_true_1].
    assert (Hp : pub_ok pub) by (split; [lia|by apply format_ok_plain]). apply (create_step pub s held Hok Hp).
  - destruct (held !! k) as [r|] eqn:Ek.
    + destruct (release_step r s held (delete k held) Hok) as (x & _ & E & Hok' & Hk); [by apply delete_Permutation|].
      apply (step_then _ (fun _ => delete k held)). by eexists tt, _.
    + cbn [release_error_report]. rewrite ret_bind. by rewrite delete_none.
  - destruct (message_text err s held Hc Hok) as (t & s' & E & _ & Hsm & _). apply (step_then _ (fun _ => held)).
    exists (Some t), s'. split; [done|]. split; [by eapply errors_ok_same|by apply keeps_same].
  - apply (step_then _ (fun _ => held)). destruct (is_message err) eqn:Em.
    + destruct (message_slot s held err Hok Em) as (m & Hz & Hs & _). destruct (code_message err s m 100 Em Hz Hs) as (c & E & _).
      { intros r x Hx. by apply (eo_pubs _ _ Hok r x). } exists c, s. split; [exact E|]. split; [done|apply keeps_all].
    + exists err, s. split; [by apply code_plain|]. split; [done|apply keeps_all].
Qed.

Lemma run_ops_ok ops held s : clib_plain -> errors_ok s held ->
  exists held' s', run_ops ops held s = (Ok held', s') /\ errors_ok s' held' /\
  forall i no text, 0 <= i < MESSAGE_CNT -> plain text -> Z.of_nat (length ops) <= (i - e_msgs_pos s) mod MESSAGE_CNT -> slot_is i no text s -> slot_is i no text s'.
Proof.
  intros Hc. revert held s. induction ops as [|op ops IH]; intros held s Hok; cbn [run_ops].
  { exists held, s. split; [done|]. split; [done|]. by intros. }
  destruct (run_op_ok op s held Hc Hok) as (h1 & s1 & E1 & Hok1 & Hpos & Hk). destruct (IH h1 s1 Hok1) as (h2 & s2 & E2 & Hok2 & Hk2).
  exists h2, s2. split; [by rewrite (bind_ok _ _ _ _ _ E1)|]. split; [done|]. intros i no text Hi Ht Hd Hs.
  pose proof (eo_pos _ _ Hok) as HP. assert (Hn : i <> e_msgs_pos s) by (intros ->; rewrite Z.sub_diag, Zmod_0_l in Hd; cbn [length] in Hd; lia).
  apply Hk2; [done|done| |apply Hk; [lia|done|done|done]].
  assert ((i - e_msgs_pos s) mod MESSAGE_CNT <= (i - e_msgs_pos s1) mod MESSAGE_CNT + 1); [|cbn [length] in Hd; lia].
  destruct Hpos as [E1p | E1p]; rewrite E1p; [lia|]. clear E1p. unfold next_pos, MESSAGE_CNT, ERR_MESSAGE_MAX, ERR_MESSAGE_MIN in *. destruct (_ <=? _) eqn:E; Z.to_euclidean_division_equations; lia.
Qed.

Lemma errors_start_ok : errors_ok errors_start [].
Proof.
  constructor.
  - done.
  - done.
  - split; [done|]. intros r _. split; [done|]. unfold errors_start, slot_cnt, MESSAGE_CNT. by vm_compute.
  - apply Forall_replicate. split; [done|]. split; [done|]. intros [?|?]; discriminate.
  - done.
  - done.
Qed.

(** A number of a message in the ring is decoded. *)
Lemma slot_decodes i no text s held : clib_plain -> errors_ok s held -> 0 <= i < MESSAGE_CNT -> slot_is i no text s -> is_message no = false ->
  (exists s', errno_to_str error_fuel (ERR_MESSAGE_MIN + i) s = (Ok (Some text), s')) /\
  get_error_code error_fuel (ERR_MESSAGE_MIN + i) s = (Ok no, s).
Proof.
  intros Hc Hok Hi (m & Hm & Hs & He & Ht & Hr) Hno.
  assert (Em : is_message (ERR_MESSAGE_MIN + i) = true) by (unfold is_message, MESSAGE_CNT in *; lia).
  assert (Hz : znth (e_msgs s) (ERR_MESSAGE_MIN + i - ERR_MESSAGE_MIN) = Some m)
    by (replace (ERR_MESSAGE_MIN + i - ERR_MESSAGE_MIN) with i by lia; unfold znth; by replace (0 <=? i) with true by lia).
  assert (Hslot : slot_ok (e_reports s) m) by (pose proof (eo_slots _ _ Hok) as HS; rewrite Forall_forall in HS; apply HS; by eapply list_elem_of_lookup_2).
  assert (HX : forall x, msg_report s m = Some x -> er_format (rb_pub x) = Some text /\ (rb_posix_code x = 0 \/ rb_posix_code x = no)).
  { unfold msg_report. intros x Hx. destruct (em_report m) as [r|]; [by apply (Hr r)|done]. }
  split.
  - destruct (str_message _ s m 100 Hc Em Hz Hslot) as (t & s' & E & _ & _ & Htx). exists s'. etransitivity; [exact E|]. do 3 f_equal. unfold msg_text in Htx.
    destruct (msg_report s m) as [x|]; [destruct (HX x eq_refl) as [Hf _]; by rewrite Hf in Htx|]. destruct Htx as [Htx _]. specialize (Htx Hs). congruence.
  - destruct (code_message _ s m 100 Em Hz Hslot) as (c & E & _ & Hcode); [intros r x Hx; by apply (eo_pubs _ _ Hok r x)|].
    etransitivity; [exact E|]. do 2 f_equal. rewrite (Hcode (or_introl Hs)). unfold msg_code. destruct (msg_report s m) as [x|]; [|done].
    destruct (HX x eq_refl) as [_ [Hp|Hp]]; rewrite Hp; [done|]. destruct (negb (no =? 0)); [done|]. done.
Qed.

(** C11: Whatever clients do with errors and reports, no assertion of errors.c fails
    and no freed report is used: of every report that is there, [gets] is the number
    of times it is held and [refs] is that and the number of messages that have it,
    it is not 0, and what is held or in a message is there. *)
Theorem reports_counted ops : clib_plain ->
  exists held s, run_ops ops [] errors_start = (Ok held, s) /\ refs_ok (e_reports s) (e_msgs s) held.
Proof.
  intros Hc. destruct (run_ops_ok ops [] errors_start Hc errors_start_ok) as (held & s & E & Hok & _).
  exists held, s. split; [done|apply (eo_refs _ _ Hok)].
Qed.

End run.

(** A C library for examples. *)
Definition example_clib : CLib := {|
  print_number := fun _ _ => None;
  strerror := fun err => if err =? 2 then Some (str "No such file or directory") else None;
  gai_strerror := fun _ => str "Name does not resolve";
  clock_ms := 0;
|}.

Lemma example_clib_plain : clib_plain (H := example_clib).
Proof.
  split; [|intros; by apply plain_chars]. cbn. intros err t. destruct (err =? 2); [intros [= <-]; by apply plain_chars|done].
Qed.

Lemma reports_counted_witness : clib_plain (H := example_clib) /\
  exists held s, run_ops (H := example_clib) [OpSet 2 (str "Cannot open"); OpGetReport (ERR_MESSAGE_MIN + 0); OpSetReport 0; OpRelease 0] [] errors_start = (Ok held, s) /\
    refs_ok (e_reports s) (e_msgs s) held.
Proof. split; [apply example_clib_plain|apply (reports_counted (H := example_clib)), example_clib_plain]. Defined.


(** A report that is received with the code 100 + [i] of another agent makes the
    message [i] refer to itself: its code is looked for without end. *)
Example report_refers_to_itself :
  fst ((r ← create_error_report; x ← get_report r; put_report r (set_pub (Build_ErrorReport 100 None [] 0 []) x) ;;
    err ← set_error_report_errno (Some r); get_error_code 1000 err) errors_start) = NoFuel.
Proof. vm_compute. reflexivity. Qed.

(** Only properties differ, and the reports compare as equal. *)
Example compare_ignores_props :
  compare_error_reports (Some (Build_ErrorReport 1 None [] 0 [(str "A", str "1")])) (Some (Build_ErrorReport 1 None [] 0 [])) = true.
Proof. reflexivity. Qed.
