(* ===== verification/JsonError.v ===== *)
(** * Errors in messages (framework/json.c, [write_errno] and [read_errno])

    An error is sent as a JSON object: the fields of its report.  The reader makes
    a report of its own and an error number that refers to it. *)

From stdpp Require Import gmap.
From S2P Require Import Prelude Streams JsonWrite JsonRead JsonTmp JsonObject Errors.

(** A stream next to the errors of the agent. *)
Record err_state (St : Type) := { es_io : St; es_err : Errors }.
Arguments es_io {St} _.
Arguments es_err {St} _.
Arguments Build_err_state {St} _ _.

Definition on_io {St A} (m : M St A) : M (err_state St) A := fun s =>
  let '(r, i) := m (es_io s) in (r, Build_err_state i (es_err s)).
Definition on_err {St A} (m : ME A) : M (err_state St) A := fun s =>
  let '(r, e) := m (es_err s) in (r, Build_err_state (es_io s) e).

(** The buffer for strings is the one that the formatting of errors uses. *)
#[export] Instance es_InputStream `{InputStream St} : InputStream (err_state St) := {
  is_window s := is_window (es_io s);
  is_advance s := Build_err_state (is_advance (es_io s)) (es_err s);
  is_read := on_io is_read;
  is_peek := on_io is_peek;
  is_fuel s := is_fuel (es_io s);
}.

#[export] Instance es_JsonTmpBuf {St} : JsonTmpBuf (err_state St) := {
  tmp_buf s := e_tmp (es_err s);
  set_tmp_buf t s := Build_err_state (es_io s) (set_e_tmp t (es_err s));
}.

Definition set_er_code x (r : ErrorReport) := Build_ErrorReport x (er_format r) (er_params r) (er_time_stamp r) (er_props r).
Definition set_er_format x (r : ErrorReport) := Build_ErrorReport (er_code r) x (er_params r) (er_time_stamp r) (er_props r).
Definition set_er_params x (r : ErrorReport) := Build_ErrorReport (er_code r) (er_format r) x (er_time_stamp r) (er_props r).
Definition set_er_time x (r : ErrorReport) := Build_ErrorReport (er_code r) (er_format r) (er_params r) x (er_props r).
Definition set_er_props x (r : ErrorReport) := Build_ErrorReport (er_code r) (er_format r) (er_params r) (er_time_stamp r) x.

(** [err->... = ...]. *)
Definition change_report (r : Z) (f : ErrorReport -> ErrorReport) : ME unit :=
  x ← get_report r; put_report r (set_pub (f (rb_pub x)) x).

(** ** Reading *)

Section read.
Context `{InputStream St}.

Definition read_errno_param (r : Z) : M (err_state St) unit :=
  x ← json_read_object; on_err (change_report r (fun p => set_er_params (er_params p ++ [c_str x]) p)).

Definition read_error_member (r : Z) (name : bytes) : M (err_state St) unit :=
  if bool_decide (name = str "Code") then n ← json_read_long; on_err (change_report r (set_er_code (wraps 32 n)))
  else if bool_decide (name = str "Time") then n ← json_read_uint64; on_err (change_report r (set_er_time n))
  else if bool_decide (name = str "Format") then x ← json_read_alloc_string; on_err (change_report r (set_er_format (c_str <$> x)))
  else if bool_decide (name = str "Params") then json_read_array (read_errno_param r) ;; mret tt
  else x ← json_read_object; on_err (change_report r (fun p => set_er_props ((name, c_str x) :: er_props p) p)).

(** [err] is the report, once it has been made. *)
Fixpoint read_error_loop (fuel : nat) (err : option Z) : M (err_state St) Z :=
  match fuel with
  | O => nofuel
  | S fuel =>
      '(_, nm) ← json_read_string (alloc 256) 256;
      json_test_char (#":") ;;
      r ← match err with Some r => mret r | None => on_err create_error_report end;
      read_error_member r (c_str nm) ;;
      ch ← read_no_whitespace;
      if ch =? #"," then read_error_loop fuel (Some r)
      else check_char ch (#"}") ;; mret r
  end.

Definition read_error_object : M (err_state St) Z :=
  ch ← read_no_whitespace;
  if ch =? #"n" then test_chars (str "ull") ;; mret 0
  else
    check_char ch (#"{") ;;
    p ← json_peek;
    if p =? #"}" then read_stream ;; mret 0
    else
      r ← with_fuel (fun fuel => read_error_loop fuel None);
      x ← on_err (get_report r);
      no ← (if negb (er_code (rb_pub x) =? 0) then on_err (set_error_report_errno (Some r)) else mret 0);
      on_err (release_error_report (Some r)) ;;
      mret no.

Definition read_errno : M (err_state St) Z :=
  p ← json_peek;
  no ← (if negb (p =? MARKER_EOA) then read_error_object else mret 0);
  json_test_char MARKER_EOA ;;
  mret no.
End read.

(** ** Writing *)

Section write.
Context `{OutputStream St} `{CLib}.

Fixpoint write_params (first : bool) (params : list bytes) : M St unit :=
  match params with
  | [] => mret tt
  | p :: params => (if first then mret tt else write_stream (#",")) ;; write_string p ;; write_params false params
  end.

Fixpoint write_props (props : list (bytes * bytes)) : M St unit :=
  match props with
  | [] => mret tt
  | (name, v) :: props =>
      write_stream (#",") ;; json_write_string (Some name) ;; write_stream (#":") ;; write_string v ;; write_props props
  end.

Definition write_error_props (rep : ErrorReport) : M St unit :=
  (if negb (er_time_stamp rep =? 0) then
     write_stream (#",") ;; json_write_string (Some (str "Time")) ;; write_stream (#":") ;; json_write_uint64 (er_time_stamp rep)
   else mret tt) ;;
  (match er_format rep with
   | Some f => write_stream (#",") ;; json_write_string (Some (str "Format")) ;; write_stream (#":") ;; json_write_string (Some f)
   | None => mret tt
   end) ;;
  (if 0 <? zlen (er_params rep) then
     write_stream (#",") ;; json_write_string (Some (str "Params")) ;; write_stream (#":") ;; write_stream (#"[") ;;
     write_params true (er_params rep) ;; write_stream (#"]")
   else mret tt) ;;
  write_props (er_props rep).

Definition write_error_object (err : Z) : M (err_state St) unit :=
  rep ← on_err (get_error_report err);
  match rep with
  | None => on_io (write_string (str "null"))
  | Some r =>
      x ← on_err (get_report r);
      let rep := rb_pub x in
      on_io (write_stream (#"{") ;; json_write_string (Some (str "Code")) ;; write_stream (#":") ;; json_write_long (er_code rep) ;;
        write_error_props rep) ;;
      on_err (release_error_report (Some r)) ;;
      on_io (write_stream (#"}"))
  end.

Definition write_errno (err : Z) : M (err_state St) unit :=
  (if negb (err =? 0) then write_error_object err else mret tt) ;; on_io (write_stream 0).

Definition write_service_error (err : Z) (service_name : bytes) (service_error : Z) : M (err_state St) unit :=
  rep ← on_err (get_error_report err);
  (match rep with
   | None => mret tt
   | Some r =>
       x ← on_err (get_report r);
       let rep := rb_pub x in
       on_io (write_stream (#"{") ;; json_write_string (Some (str "Service")) ;; write_stream (#":") ;; json_write_string (Some service_name) ;;
         write_stream (#",") ;; json_write_string (Some (str "Code")) ;; write_stream (#":") ;; json_write_long service_error ;;
         write_error_props rep) ;;
       on_err (release_error_report (Some r)) ;;
       on_io (write_stream (#"}"))
   end) ;;
  on_io (write_stream 0).
End write.
