(* ===== verification/JsonErrorSpec.v ===== *)
(** * An error on its way from one agent to another

    The reader gets a report with the fields of the report that was written, in
    an error number of its own. *)

From stdpp Require Import gmap.
From S2P Require Import Prelude Streams JsonWrite JsonRead JsonReadSpec JsonRoundTrip JsonTmp JsonObject Errors ErrorsSpec ErrorsRun JsonError.

(** ** The text of a report *)

Abbreviation fields := (list (bytes * bytes)).

Definition field_text (x : bytes * bytes) : bytes := string_text (fst x) ++ #":" :: snd x.
(** The fields after the first one. *)
Definition tail_text (l : fields) : bytes := mjoin ((fun x => #"," :: field_text x) <$> l).
Definition params_text (ps : list bytes) : bytes :=
  match ps with [] => [] | p :: ps => p ++ mjoin ((fun p => #"," :: p) <$> ps) end.

Definition time_fields (rep : ErrorReport) : fields := if er_time_stamp rep =? 0 then [] else [(str "Time", dec_text (er_time_stamp rep))].
Definition format_fields (rep : ErrorReport) : fields := match er_format rep with Some f => [(str "Format", string_text f)] | None => [] end.
Definition params_fields (rep : ErrorReport) : fields :=
  match er_params rep with [] => [] | ps => [(str "Params", #"[" :: params_text ps ++ [ #"]"])] end.
Definition rest_fields (rep : ErrorReport) : fields := time_fields rep ++ format_fields rep ++ params_fields rep ++ er_props rep.

Definition report_text (rep : ErrorReport) : bytes :=
  #"{" :: field_text (str "Code", signed_text (er_code rep)) ++ tail_text (rest_fields rep) ++ [ #"}"].

Lemma tail_text_app l k : tail_text (l ++ k) = tail_text l ++ tail_text k.
Proof. unfold tail_text. by rewrite fmap_app, join_app. Qed.

Lemma tail_text_one x : tail_text [x] = #"," :: field_text x.
Proof. unfold tail_text. cbn. by rewrite app_nil_r. Qed.

Lemma tail_length l : (length l <= length (tail_text l))%nat.
Proof.
  induction l as [|x l IH]; [done|]. change (tail_text (x :: l)) with ((#"," :: field_text x) ++ tail_text l). rewrite length_app. cbn [length]. lia.
Qed.

(** Names that are not those of a field of the record. *)
Definition prop_name (nm : bytes) : Prop :=
  cstring nm /\ zlen nm < 256 /\ nm <> str "Code" /\ nm <> str "Time" /\ nm <> str "Format" /\ nm <> str "Params".

(** JSON text without white space, as [json_read_object] returns it. *)
Definition json_text (v : bytes) : Prop := value v v /\ cstring v.

Record wire_ok (rep : ErrorReport) : Prop := {
  wk_code : in_s 32 (er_code rep);
  wk_time : in_u 64 (er_time_stamp rep);
  wk_format : forall f, er_format rep = Some f -> cstring f /\ zlen f < 2 ^ 32;
  wk_params : Forall json_text (er_params rep);
  wk_props : Forall (fun x => prop_name (fst x) /\ json_text (snd x)) (er_props rep);
}.

Lemma cstring_is_bytes l : cstring l -> is_bytes l.
Proof. intros Hl. eapply Forall_impl; [exact Hl|]. intros c Hc. cbv beta in Hc. unfold is_byte. lia. Qed.

Lemma plain_cstring l : plain l -> cstring l.
Proof. intros Hl. eapply Forall_impl; [exact Hl|]. by intros c (? & _). Qed.

Lemma cstring_chars nm : forallb (fun c => (0 <? c) && (c <? 256)) nm = true -> cstring nm.
Proof. intros Hn. rewrite forallb_forall in Hn. apply Forall_forall. intros c Hc%list_elem_of_In%Hn. lia. Qed.

Section write.
Context `{OutputStreamSpec St}.

Lemma writes_name nm : is_bytes nm -> zlen nm < 2 ^ 32 -> writes (json_write_string (Some nm)) tt (string_text nm).
Proof. intros Hb Hl. apply (writes_string_opt (Some nm)). by intros ? [= <-]. Qed.

Lemma writes_field {A} nm v (w : M St A) a : is_bytes nm -> zlen nm < 2 ^ 32 -> writes w a v ->
  writes (json_write_string (Some nm) ;; write_stream (#":") ;; w) a (field_text (nm, v)).
Proof.
  intros Hb Hl Hw. unfold field_text. cbn [fst snd]. eapply writes_seq; [by apply writes_name|].
  apply (writes_seq _ _ tt a [ #":"] v); [by apply writes_byte|done].
Qed.

Lemma writes_next {A} x (w : M St A) a : writes w a (field_text x) -> writes (write_stream (#",") ;; w) a (#"," :: field_text x).
Proof. intros Hw. apply (writes_seq _ _ tt a [ #","]); [by apply writes_byte|done]. Qed.

Lemma writes_props props : Forall (fun x => prop_name (fst x) /\ json_text (snd x)) props -> writes (write_props props) tt (tail_text props).
Proof.
  induction 1 as [|[nm v] props [Hn Hv] Hp IH]; cbn [write_props]; [apply writes_ret|]. cbn [fst snd] in *.
  change (tail_text ((nm, v) :: props)) with ((#"," :: field_text (nm, v)) ++ tail_text props).
  destruct Hn as (Hn & Hl & _). destruct Hv as [_ Hv].
  unfold field_text. cbn [fst snd]. cbn [app]. rewrite <- app_assoc.
  apply (writes_seq _ _ tt tt [ #","]); [by apply writes_byte|]. eapply writes_seq; [apply writes_name; [by apply cstring_is_bytes|lia]|].
  apply (writes_seq _ _ tt tt [ #":"]); [by apply writes_byte|]. eapply writes_seq; [by apply writes_string, cstring_is_bytes|done].
Qed.

Lemma writes_params first ps : Forall json_text ps ->
  writes (write_params first ps) tt (if first : bool then params_text ps else mjoin ((fun p => #"," :: p) <$> ps)).
Proof.
  intros Hp. revert first. induction Hp as [|p ps [_ Hv] Hp IH]; intros first; cbn [write_params]; [destruct first; apply writes_ret|].
  pose proof (writes_seq _ _ _ _ _ _ (writes_string p (cstring_is_bytes p Hv)) (IH false)) as HW. destruct first; cbn.
  - rewrite ret_bind. exact HW.
  - apply (writes_seq _ _ tt tt [ #","]); [by apply writes_byte|exact HW].
Qed.

Lemma short_name (nm : bytes) : forallb (fun c => (0 <=? c) && (c <? 256)) nm && (zlen nm <? 256) = true -> is_bytes nm /\ zlen nm < 2 ^ 32.
Proof.
  intros [Hb Hl]%andb_true_iff. split; [|lia]. rewrite forallb_forall in Hb. apply Forall_forall.
  intros c Hc%list_elem_of_In%Hb. unfold is_byte. lia.
Qed.

Lemma writes_error_props rep : wire_ok rep -> writes (write_error_props rep) tt (tail_text (rest_fields rep)).
Proof.
  intros []. unfold write_error_props, rest_fields. rewrite !tail_text_app. apply (writes_seq _ _ tt tt).
  { unfold time_fields. destruct (er_time_stamp rep =? 0); [apply writes_ret|]. rewrite tail_text_one. unfold in_u in *.
    apply writes_next, writes_field; [by apply short_name|done|apply writes_uint64; lia]. }
  apply (writes_seq _ _ tt tt).
  { unfold format_fields. destruct (er_format rep) as [f|]; [|apply writes_ret]. destruct (wk_format0 f eq_refl). rewrite tail_text_one.
    apply writes_next, writes_field; [by apply short_name|done|apply writes_name; [by apply cstring_is_bytes|done]]. }
  apply (writes_seq _ _ tt tt).
  { unfold params_fields. destruct (er_params rep) as [|p ps] eqn:EP; [apply writes_ret|]. rewrite zlen_cons. pose proof (zlen_nonneg ps).
    replace (0 <? zlen ps + 1) with true by lia. rewrite tail_text_one.
    apply writes_next, writes_field; [by apply short_name|done|]. apply (writes_seq _ _ tt tt [ #"["]); [by apply writes_byte|].
    eapply writes_seq; [by apply (writes_params true)|by apply writes_byte]. }
  by apply writes_props.
Qed.
End write.

(** ** Reading next to the errors *)

Definition no_tmp (e : Errors) : Errors := set_e_tmp tmp_buf_init e.

Lemma es_read `{InputStream St} (s : err_state St) : read_stream s = on_io read_stream s.
Proof. unfold read_stream, on_io. cbn. by destruct (is_window (es_io s)). Qed.

Lemma es_peek `{InputStream St} (s : err_state St) : peek_stream s = on_io peek_stream s.
Proof. unfold peek_stream, on_io. cbn. destruct (is_window (es_io s)); [done|by destruct s]. Qed.

(** The streams whose errors are [e], but for the buffer: a reader of JSON keeps them. *)
#[program] Definition es_spec `{InputStreamSpec St} (e : Errors) : InputStreamSpec (err_state St) := {|
  is_wf s := is_wf (es_io s) /\ tmp_ok (e_tmp (es_err s)) /\ no_tmp (es_err s) = e;
  is_data s := is_data (es_io s);
  is_mark s := is_mark (es_io s);
|}.
Next Obligation. intros St ?? e s (Hs & _). exact (is_data_bytes _ Hs). Qed.
Next Obligation. intros St ?? e s (Hs & _). exact (is_mark_neg _ Hs). Qed.
Next Obligation. intros St ?? e s (Hs & _). exact (is_data_fuel _ Hs). Qed.
Next Obligation.
  intros St ?? e s b l (Hs & Ht) D. rewrite es_read. unfold on_io.
  destruct (read_cons _ _ _ Hs D) as (s' & -> & ?). eexists. split; [done|]. cbn. by destruct_and!.
Qed.
Next Obligation.
  intros St ?? e s (Hs & Ht) D. rewrite es_read. unfold on_io. destruct (read_nil _ Hs D) as (s' & ->). by eexists.
Qed.
Next Obligation.
  intros St ?? e s b l (Hs & Ht) D. rewrite es_peek. unfold on_io.
  destruct (peek_cons _ _ _ Hs D) as (s' & -> & ?). eexists. split; [done|]. cbn. by destruct_and!.
Qed.
Next Obligation.
  intros St ?? e s (Hs & Ht) D. rewrite es_peek. unfold on_io.
  destruct (peek_nil _ Hs D) as (s' & -> & ?). eexists. split; [done|]. cbn. by destruct_and!.
Qed.
Next Obligation. intros St ?? e s b w (Hs & _) D. exact (window_advance _ _ _ Hs D). Qed.

Lemma es_tmp_spec `{InputStreamSpec St} e : @JsonTmpBufSpec (err_state St) _ (es_spec e) _.
Proof.
  split.
  - intros s (_ & Ht & _). exact Ht.
  - intros s r s'. rewrite es_read. unfold on_io. destruct (read_stream _). by intros [= _ <-].
  - intros s r s'. rewrite es_peek. unfold on_io. destruct (peek_stream _). by intros [= _ <-].
  - intros s t (Hs & _ & He) Ht. done.
Qed.

Section goes.
Context `{InputStreamSpec St}.

Abbreviation wf e := (@is_wf _ _ (es_spec e)).
Abbreviation data := (fun s : err_state St => is_data (es_io s)).
Abbreviation mark := (fun s : err_state St => is_mark (es_io s)).

(** [m] reads [l], and turns the errors [e] into [e']. *)
Definition goes {A} (e : Errors) (m : M (err_state St) A) (a : A) (l : bytes) (P : Z -> Prop) (e' : Errors) : Prop :=
  forall s rest, wf e s -> data s = l ++ rest -> P (match rest with b :: _ => b | [] => mark s end) ->
  exists s', m s = (Ok a, s') /\ wf e' s' /\ data s' = rest /\ mark s' = mark s.

(** Errors change regardless of the buffer. *)
Definition errs {A} (e : Errors) (f : ME A) (a : A) (e' : Errors) : Prop :=
  forall s, no_tmp s = e -> exists s', f s = (Ok a, s') /\ no_tmp s' = e' /\ e_tmp s' = e_tmp s.

Lemma goes_reads {A} e (m : M (err_state St) A) a l P : @reads _ _ (es_spec e) _ m a l P -> goes e m a l P e.
Proof. done. Qed.

Lemma goes_bind {A B} e e1 e2 (m : M _ A) (f : A -> M _ B) a b l1 l2 P Q :
  goes e m a l1 P e1 -> goes e1 (f a) b l2 Q e2 -> follows P l2 Q -> goes e (m ≫= f) b (l1 ++ l2) Q e2.
Proof.
  intros H1 H2 HF s rest Hs D HQ. rewrite <- app_assoc in D. destruct (H1 s _ Hs D) as (s1 & E1 & Hs1 & D1 & M1).
  { destruct l2; simpl in *; auto. }
  destruct (H2 s1 rest Hs1 D1) as (s2 & E2 & Hs2 & D2 & M2); [by rewrite M1|].
  exists s2. rewrite (bind_ok _ _ _ _ _ E1), E2, M2. done.
Qed.

Lemma goes_bind' {A B} e e1 e2 (m : M _ A) (f : A -> M _ B) a b l1 l2 Q :
  goes e m a l1 anything e1 -> goes e1 (f a) b l2 Q e2 -> goes e (m ≫= f) b (l1 ++ l2) Q e2.
Proof. intros H1 H2. eapply goes_bind; [done|done|by destruct l2]. Qed.

Lemma goes_any {A} e (m : M _ A) a l P e' : goes e m a l anything e' -> goes e m a l P e'.
Proof. intros Hm s rest Hs D _. by apply Hm. Qed.

Lemma goes_err {A} e (f : ME A) a e' : errs e f a e' -> goes e (on_err f) a [] anything e'.
Proof.
  intros Hf s rest (Hs & Ht & He) D _. destruct (Hf _ He) as (e1 & E & E1 & E2). unfold on_err. rewrite E.
  eexists. split; [done|]. cbn. rewrite E2. done.
Qed.

Lemma goes_err_then {A B} e e1 e2 (f : ME A) a (k : A -> M _ B) b l Q :
  errs e f a e1 -> goes e1 (k a) b l Q e2 -> goes e (on_err f ≫= k) b l Q e2.
Proof. intros Hf Hk. rewrite <- (app_nil_l l). eapply goes_bind'; [by apply goes_err|done]. Qed.

Lemma goes_with_fuel {A} (f : nat -> M (err_state St) A) e a l P e' :
  (forall fuel, (length l < fuel)%nat -> goes e (f fuel) a l P e') -> goes e (with_fuel f) a l P e'.
Proof.
  intros Hf s rest Hs D HP. apply Hf; [|done..]. destruct Hs as (Hs & _). pose proof (is_data_fuel _ Hs) as HF.
  cbv beta in D. rewrite D, length_app in HF. cbn. lia.
Qed.

Lemma goes_no_whitespace {B} e (f : Z -> M _ B) b c l P e' : isspace c = false -> goes e (f c) b l P e' -> goes e (read_no_whitespace ≫= f) b (c :: l) P e'.
Proof.
  intros Hc Hf. apply (goes_bind' e e e' _ _ c b [c] l); [|done]. apply goes_reads. by apply (@reads_ws _ _ (es_spec e) [] c).
Qed.

Lemma goes_json_peek {B} e (f : Z -> M _ B) b c l P e' : isspace c = false -> goes e (f c) b (c :: l) P e' -> goes e (json_peek ≫= f) b (c :: l) P e'.
Proof.
  intros Hc Hf. apply (goes_bind e e e' _ _ c b [] (c :: l) (eq c)); [|done|done]. apply goes_reads. by apply (@reads_peek_ws _ _ (es_spec e) [] c).
Qed.

Lemma goes_test_char {B} e (f : unit -> M _ B) b c l P e' : isspace c = false -> goes e (f tt) b l P e' -> goes e (json_test_char c ≫= f) b (c :: l) P e'.
Proof.
  intros Hc Hf. apply (goes_bind' e e e' _ _ tt b [c] l); [|done]. apply goes_reads. by apply (@reads_test_char _ _ (es_spec e)).
Qed.

(** ** The report that is being filled in *)

Definition with_report (e : Errors) (p : ErrorReport) : Errors :=
  set_reports (<[e_brk e := Build_ReportBuffer p 0 1 1]> (e_reports e)) (e_brk e + 1) e.

Definition blank_report : ErrorReport := Build_ErrorReport 0 None [] 0 [].

Lemma errs_create e : errs e create_error_report (e_brk e) (with_report e blank_report).
Proof. intros s <-. eexists. by split; [|split]. Qed.

Lemma errs_change e p f : errs (with_report e p) (change_report (e_brk e) f) tt (with_report e (f p)).
Proof.
  intros s Hs. pose proof (f_equal e_reports Hs) as HR. pose proof (f_equal e_brk Hs) as HB. cbn in HR, HB.
  assert (EG : get_report (e_brk e) s = (Ok (Build_ReportBuffer p 0 1 1), s))
    by (unfold get_report; by rewrite (bind_ok get _ _ _ _ eq_refl), HR, lookup_insert_eq).
  unfold change_report. rewrite (bind_ok _ _ _ _ _ EG). eexists. split; [reflexivity|]. split; [|done].
  change (set_reports (<[e_brk e := Build_ReportBuffer (f p) 0 1 1]> (e_reports s)) (e_brk s) (no_tmp s) = with_report e (f p)).
  rewrite HR, HB, Hs, insert_insert_eq. done.
Qed.

Definition reads_member (nm v : bytes) (p p1 : ErrorReport) : Prop :=
  forall e, goes (with_report e p) (read_error_member (e_brk e) nm) tt v no_numchar (with_report e p1).

Lemma goes_then_change {A} (m : M _ A) a l P e p f : (forall e, @reads _ _ (es_spec e) _ m a l P) ->
  goes (with_report e p) (x ← m; on_err (change_report (e_brk e) (f x))) tt l P (with_report e (f a p)).
Proof.
  intros Hm. rewrite <- (app_nil_r l). eapply goes_bind; [apply goes_reads, Hm|apply goes_any, goes_err, errs_change|cbn; auto].
Qed.

Lemma goes_weaken {A} e (m : M _ A) a l (P Q : Z -> Prop) e' : goes e m a l P e' -> (forall c, Q c -> P c) -> goes e m a l Q e'.
Proof. intros Hm HQ s rest Hs D HP. apply Hm; auto. Qed.

Lemma no_number c : no_numchar c -> no_digit c.
Proof. unfold no_numchar, no_digit. intros Hc. destruct (is_digit c) eqn:E; [|done]. apply digit_numchar in E. congruence. Qed.

Lemma c_str_end l : cstring l -> c_str (l ++ [0]) = l.
Proof. induction 1 as [|c l Hc Hl IH]; [done|]. cbn. cbv beta in Hc. replace (c =? 0) with false by lia. by rewrite IH. Qed.

Lemma member_code n p : in_s 32 n -> reads_member (str "Code") (signed_text n) p (set_er_code n p).
Proof.
  intros Hn e. unfold read_error_member. rewrite bool_decide_eq_true_2 by done. eapply goes_weaken; [|exact no_number].
  replace (set_er_code n p) with (set_er_code (wraps 32 n) p) by (by rewrite wraps_small).
  apply (goes_then_change _ n _ _ e p (fun n => set_er_code (wraps 32 n))). intros e'. apply (@reads_long _ _ (es_spec e') n []); [done|unfold in_s in Hn; lia].
Qed.

Lemma member_time n p : in_u 64 n -> reads_member (str "Time") (dec_text n) p (set_er_time n p).
Proof.
  intros Hn e. unfold in_u in Hn. unfold read_error_member. rewrite bool_decide_eq_false_2, bool_decide_eq_true_2 by done. eapply goes_weaken; [|exact no_number].
  apply (goes_then_change _ n _ _ e p (fun n => set_er_time n)). intros e'. pose proof (@reads_uint64 _ _ (es_spec e') n [] ltac:(done) ltac:(lia)) as HR.
  cbn [app] in HR. unfold signed_text in HR. replace (n <? 0) with false in HR by lia. by rewrite wrapu_small in HR.
Qed.

Lemma member_format f p : cstring f -> reads_member (str "Format") (string_text f) p (set_er_format (Some f) p).
Proof.
  intros Hf e. unfold read_error_member. rewrite !bool_decide_eq_false_2, bool_decide_eq_true_2 by done. apply goes_any.
  replace (Some f) with (c_str <$> Some (f ++ [0])) by (cbn; by rewrite c_str_end).
  apply (goes_then_change _ (Some (f ++ [0])) _ _ e p (fun x => set_er_format (c_str <$> x))). intros e'.
  apply (@reads_alloc_string _ _ (es_spec e') _ (es_tmp_spec e') f []); [done|by apply cstring_is_bytes].
Qed.

Lemma member_prop nm v p : prop_name nm -> json_text v -> reads_member nm v p (set_er_props ((nm, v) :: er_props p) p).
Proof.
  intros (_ & _ & N1 & N2 & N3 & N4) [Hv Hc] e. unfold read_error_member. rewrite !bool_decide_eq_false_2 by done.
  rewrite <- (c_str_end v Hc) at 2. apply (goes_then_change _ (v ++ [0]) _ _ e p (fun x p => set_er_props ((nm, c_str x) :: er_props p) p)).
  intros e'. apply (@reads_object _ _ (es_spec e') _ (es_tmp_spec e') v v []); done.
Qed.

Lemma json_text_head v : json_text v -> exists c l, v = c :: l /\ isspace c = false /\ (c =? #"]") = false.
Proof. intros [Hv _]. exact (proj1 (value_head v v Hv)). Qed.

Lemma goes_param e p v : json_text v ->
  goes (with_report e p) (read_errno_param (e_brk e)) tt v no_numchar (with_report e (set_er_params (er_params p ++ [v]) p)).
Proof.
  intros [Hv Hc]. unfold read_errno_param. rewrite <- (c_str_end v Hc) at 2.
  apply (goes_then_change _ (v ++ [0]) _ _ e p (fun x p => set_er_params (er_params p ++ [c_str x]) p)).
  intros e'. apply (@reads_object _ _ (es_spec e') _ (es_tmp_spec e') v v []); done.
Qed.

Lemma goes_check c e : goes e (check_char c c) tt [] anything e.
Proof. apply goes_reads, (@reads_check_char _ _ (es_spec e)). Qed.

Lemma params_loop e ps : forall v p fuel, json_text v -> Forall json_text ps -> (length ps < fuel)%nat ->
  goes (with_report e p) (json_read_array_loop (read_errno_param (e_brk e)) fuel) tt (params_text (v :: ps) ++ [ #"]"]) anything
    (with_report e (set_er_params (er_params p ++ v :: ps) p)).
Proof.
  induction ps as [|v2 ps IH]; intros v p [|fuel] Hv Hps Hf; [simpl in Hf; lia| |simpl in Hf; lia|]; cbn [json_read_array_loop params_text fmap list_fmap mjoin list_join].
  - rewrite app_nil_r. eapply goes_bind; [by apply goes_param| |done]. apply goes_no_whitespace; [done|]. apply goes_check.
  - inversion_clear Hps as [|? ? Hv2 Hps2]. replace ((v ++ (#"," :: v2) ++ mjoin ((fun p => #"," :: p) <$> ps)) ++ [ #"]"])
      with (v ++ #"," :: params_text (v2 :: ps) ++ [ #"]"]) by (cbn; rewrite <- !app_assoc; cbn; by rewrite <- !app_assoc).
    eapply goes_bind; [by apply goes_param| |done]. apply goes_no_whitespace; [done|]. cbn [Z.eqb Pos.eqb].
    replace (set_er_params (er_params p ++ v :: v2 :: ps) p) with (set_er_params (er_params (set_er_params (er_params p ++ [v]) p) ++ v2 :: ps) (set_er_params (er_params p ++ [v]) p))
      by (cbn; by rewrite <- app_assoc). apply IH; [done|done|simpl in Hf; lia].
Qed.

Lemma params_length (ps : list bytes) : (length ps <= length (mjoin ((fun p : bytes => #"," :: p) <$> ps)))%nat.
Proof. induction ps as [|x ps IH]; cbn; [lia|]. rewrite length_app. apply le_n_S. etransitivity; [exact IH|]. apply Nat.le_add_l. Qed.

Lemma member_params v ps p : json_text v -> Forall json_text ps ->
  reads_member (str "Params") (#"[" :: params_text (v :: ps) ++ [ #"]"]) p (set_er_params (er_params p ++ v :: ps) p).
Proof.
  intros Hv Hps e. unfold read_error_member. rewrite !bool_decide_eq_false_2, bool_decide_eq_true_2 by done. apply goes_any.
  rewrite <- (app_nil_r (_ :: _)). eapply goes_bind'; [|apply goes_reads, reads_ret].
  unfold json_read_array. apply goes_no_whitespace; [done|]. cbn [Z.eqb Pos.eqb negb].
  destruct (json_text_head v Hv) as (c & l & -> & Hc & Hb). cbn [params_text app]. apply goes_json_peek; [done|]. rewrite Hb.
  rewrite <- (app_nil_r (c :: _)). eapply goes_bind'; [|apply goes_reads, reads_ret].
  change (c :: (l ++ mjoin ((fun p => #"," :: p) <$> ps)) ++ [ #"]"]) with (params_text ((c :: l) :: ps) ++ [ #"]"]).
  apply goes_with_fuel. intros fuel Hf. apply params_loop; [done|done|]. cbn [params_text] in Hf. rewrite !length_app in Hf.
  pose proof (params_length ps) as HL. cbn [length] in *. lia.
Qed.

(** The fields of an object, one after the other. *)
Inductive fills : fields -> ErrorReport -> ErrorReport -> Prop :=
| fills_nil p : fills [] p p
| fills_cons nm v ms p p1 p2 : cstring nm -> zlen nm < 256 -> reads_member nm v p p1 -> fills ms p1 p2 -> fills ((nm, v) :: ms) p p2.

Lemma fills_app l k p p1 p2 : fills l p p1 -> fills k p1 p2 -> fills (l ++ k) p p2.
Proof. induction 1 as [|nm v ms p p1' p2' Hn Hl Hm Hf IH]; intros Hk; [done|]. econstructor; [done|done|exact Hm|by apply IH]. Qed.

Lemma goes_name {B} e (f : Z * bytes -> M _ B) b nm l P e' : cstring nm -> zlen nm < 256 -> (forall n a, c_str a = nm -> goes e (f (n, a)) b l P e') ->
  goes e (json_read_string (alloc 256) 256 ≫= f) b (string_text nm ++ l) P e'.
Proof.
  intros Hn Hl Hf. destruct (@reads_string _ _ (es_spec e) nm [] (alloc 256) 256) as (a & Ha & HR); [done|by apply cstring_is_bytes|lia|done|lia|].
  eapply goes_bind'; [apply goes_reads, HR|]. apply Hf. rewrite (holds_string_c_str a 256 nm Hn Ha). unfold ztake. unfold zlen in Hl. rewrite take_ge; [done|lia].
Qed.

Lemma error_loop e : forall x ms p p' fuel err e0, fills (x :: ms) p p' -> (length ms < fuel)%nat ->
  match err with Some r => r = e_brk e /\ e0 = with_report e p | None => e0 = e /\ p = blank_report end ->
  goes e0 (read_error_loop fuel err) (e_brk e) (field_text x ++ tail_text ms ++ [ #"}"]) anything (with_report e p').
Proof.
  intros x ms. revert x. induction ms as [|y ms IH]; intros [nm v] p p' [|fuel] err e0 Hfill Hf Herr; [simpl in Hf; lia| |simpl in Hf; lia|];
    inversion_clear Hfill as [|? ? ? ? p1 ? Hn Hl Hm Hms]; cbn [read_error_loop]; unfold field_text; cbn [fst snd]; rewrite <- app_assoc; cbn [app];
    (apply goes_name; [done|done|]; intros n a Ha; rewrite Ha; apply goes_test_char; [done|]).
  all: assert (HR : forall (k : Z -> M (err_state St) Z) l, goes (with_report e p) (k (e_brk e)) (e_brk e) l anything (with_report e p') ->
     goes e0 ((match err with Some r => mret r | None => on_err create_error_report end) ≫= k) (e_brk e) l anything (with_report e p'))
    by (intros k l Hk; destruct err as [r|]; destruct Herr as [-> ->]; [rewrite ret_bind; done|eapply goes_err_then; [apply errs_create|done]]);
    apply HR; clear HR; (eapply goes_bind; [apply Hm| |done]).
  - inversion_clear Hms. apply goes_no_whitespace; [done|]. cbn [Z.eqb Pos.eqb]. rewrite <- (app_nil_l []). eapply goes_bind'; [apply goes_check|apply goes_reads, reads_ret].
  - change (tail_text (y :: ms)) with ((#"," :: field_text y) ++ tail_text ms). cbn [app]. rewrite <- app_assoc. apply goes_no_whitespace; [done|]. cbn [Z.eqb Pos.eqb].
    eapply IH; [exact Hms|simpl in Hf; lia|done].
Qed.
End goes.

(** ** What arrives *)

(** The properties are put in front of each other. *)
Definition received (rep : ErrorReport) : ErrorReport := set_er_props (rev (er_props rep)) rep.

Section arrives.
Context `{InputStreamSpec St}.

Lemma fills_props props : forall p, Forall (fun x => prop_name (fst x) /\ json_text (snd x)) props ->
  fills (St := St) props p (set_er_props (rev props ++ er_props p) p).
Proof.
  induction props as [|[nm v] props IH]; intros p Hp; [destruct p; constructor|]. inversion_clear Hp as [|? ? [Hn Hv] Hps]. cbn [fst snd] in *.
  econstructor; [apply Hn|apply Hn|by apply member_prop|]. cbn [rev]. rewrite <- app_assoc. exact (IH _ Hps).
Qed.

Lemma fills_report rep : wire_ok rep -> fills (St := St) ((str "Code", signed_text (er_code rep)) :: rest_fields rep) blank_report (received rep).
Proof.
  intros [].
  econstructor; [by apply cstring_chars|done|by apply member_code|]. destruct rep as [code format params time props]. cbn [er_code er_format er_params er_time_stamp er_props] in *.
  unfold rest_fields, received. cbn [er_props]. eapply fills_app; [|eapply fills_app; [|eapply fills_app]].
  - instantiate (1 := Build_ErrorReport code None [] time []). unfold time_fields. cbn [er_time_stamp]. destruct (Z.eqb_spec time 0) as [->|]; [constructor|].
    econstructor; [by apply cstring_chars|done|by apply member_time|constructor].
  - instantiate (1 := Build_ErrorReport code format [] time []). unfold format_fields. cbn [er_format]. destruct format as [f|]; [|constructor].
    destruct (wk_format0 f eq_refl). econstructor; [by apply cstring_chars|done|by apply member_format|constructor].
  - instantiate (1 := Build_ErrorReport code format params time []). unfold params_fields. cbn [er_params]. destruct params as [|v ps]; [constructor|].
    inversion_clear wk_params0. econstructor; [by apply cstring_chars|done|by apply member_params|constructor].
  - pose proof (fills_props props (Build_ErrorReport code format params time []) wk_props0) as HF. cbn [er_props] in HF. by rewrite app_nil_r in HF.
Qed.

Lemma errors_ok_tmp s held : errors_ok (no_tmp s) held <-> errors_ok s held.
Proof. split; intros []; by constructor. Qed.

Abbreviation wf e := (@is_wf _ _ (es_spec e)).

Lemma goes_ok {A B} e (m : M (err_state St) A) a l e' s rest (k : A -> M _ B) : goes e m a l anything e' -> wf e s -> is_data (es_io s) = l ++ rest ->
  exists s', (m ≫= k) s = k a s' /\ wf e' s' /\ is_data (es_io s') = rest /\ is_mark (es_io s') = is_mark (es_io s).
Proof. intros Hm Hs D. destruct (Hm s rest Hs D I) as (s' & E & HH). exists s'. by rewrite (bind_ok _ _ _ _ _ E). Qed.

Lemma peek_ok {B} e c s rest (k : Z -> M _ B) : isspace c = false -> wf e s -> is_data (es_io s) = c :: rest ->
  exists s', (json_peek ≫= k) s = k c s' /\ wf e s' /\ is_data (es_io s') = c :: rest /\ is_mark (es_io s') = is_mark (es_io s).
Proof.
  intros Hc Hs D. destruct (@reads_peek_ws _ _ (es_spec e) [] c ltac:(done) Hc s (c :: rest) Hs D eq_refl) as (s' & E & HH). exists s'. by rewrite (bind_ok _ _ _ _ _ E).
Qed.

(** What is done with the report that has been read. *)
Definition report_done (r : Z) : M (err_state St) Z :=
  x ← on_err (get_report r);
  no ← (if negb (er_code (rb_pub x) =? 0) then on_err (set_error_report_errno (Some r)) else mret 0);
  on_err (release_error_report (Some r)) ;;
  mret no.

Lemma read_object_ok e rep s rest : wire_ok rep -> wf e s -> is_data (es_io s) = report_text rep ++ rest ->
  exists s', read_error_object s = report_done (e_brk e) s' /\ wf (with_report e (received rep)) s' /\ is_data (es_io s') = rest /\ is_mark (es_io s') = is_mark (es_io s).
Proof.
  intros Hwire Hs D. unfold read_error_object.
  destruct (goes_ok e read_no_whitespace (#"{") [ #"{"] e s (field_text (str "Code", signed_text (er_code rep)) ++ tail_text (rest_fields rep) ++ [ #"}"] ++ rest)
    (fun ch => if ch =? #"n" then test_chars (str "ull") ;; mret 0 else check_char ch (#"{") ;; p ← json_peek; if p =? #"}" then read_stream ;; mret 0 else
      r ← with_fuel (fun fuel => read_error_loop fuel None); report_done r)) as (s1 & E1 & Hs1 & D1 & M1).
  - apply goes_reads. by apply (@reads_ws _ _ (es_spec e) [] (#"{")).
  - done.
  - rewrite D. unfold report_text. cbn [app]. by rewrite <- !app_assoc.
  - change (report_done) with (fun r => x ← on_err (St := St) (get_report r);
      no ← (if negb (er_code (rb_pub x) =? 0) then on_err (set_error_report_errno (Some r)) else mret 0); on_err (release_error_report (Some r)) ;; mret no) in E1.
    rewrite E1. cbn [Z.eqb Pos.eqb]. unfold check_char. cbn [Z.eqb Pos.eqb]. rewrite ret_bind.
    change (field_text _) with (34 :: chars_text (str "Code") ++ [34] ++ #":" :: signed_text (er_code rep)) in D1. cbn [app] in D1.
    match goal with |- context [json_peek ≫= ?k] => destruct (peek_ok e 34 s1 _ k eq_refl Hs1 D1) as (s2 & E2 & Hs2 & D2 & M2) end.
    rewrite E2. cbn [Z.eqb Pos.eqb].
    match goal with |- context [with_fuel ?m ≫= ?k] => destruct (goes_ok e (with_fuel m) (e_brk e)
       (field_text (str "Code", signed_text (er_code rep)) ++ tail_text (rest_fields rep) ++ [ #"}"]) (with_report e (received rep)) s2 rest k) as (s3 & E3 & Hs3 & D3 & M3) end.
    + apply goes_with_fuel. intros fuel Hf. eapply error_loop; [by apply fills_report| |by split].
      rewrite !length_app in Hf. assert (length (rest_fields rep) <= length (tail_text (rest_fields rep)))%nat; [|lia].
      apply tail_length.
    + done.
    + rewrite D2. cbn. by rewrite <- !app_assoc.
    + exists s3. rewrite E3, M3, M2, M1. done.
Qed.

Context `{CLib}.

Definition report_message (rep : ErrorReport) : bytes :=
  match er_format rep with Some f => f | None => code_text (STD_ERR_BASE + er_code rep) end.

(** The number stands for the report: its code, its text, the report itself. *)
Definition carries (no : Z) (rep : ErrorReport) (f : Errors) : Prop :=
  get_error_code error_fuel no f = (Ok (STD_ERR_BASE + er_code rep), f) /\
  (exists f', errno_to_str error_fuel no f = (Ok (Some (report_message rep)), f')) /\
  exists r x f', get_error_report no f = (Ok (Some r), f') /\ e_reports f' !! r = Some x /\ rb_pub x = rep.

(** The message that refers to the report. *)
Definition report_at (no : Z) (rep : ErrorReport) (f : Errors) : Prop := exists i m r x,
  no = ERR_MESSAGE_MIN + i /\ 0 <= i < MESSAGE_CNT /\ e_msgs f !! Z.to_nat i = Some m /\ em_source m = SRC_REPORT /\ em_report m = Some r /\
  em_error m = er_code (rb_pub x) + STD_ERR_BASE /\ e_reports f !! r = Some x /\ rb_posix_code x = 0 /\ rb_pub x = rep.

Lemma report_carries no rep f held : clib_plain -> errors_ok f held -> report_at no rep f -> carries no rep f.
Proof.
  intros Hc Hok (i & m & r & x & -> & Hi & Hm & Hs & Hr & He & Hx & Hp & <-).
  assert (Em : is_message (ERR_MESSAGE_MIN + i) = true) by (unfold is_message, MESSAGE_CNT in *; lia).
  assert (Hz : znth (e_msgs f) (ERR_MESSAGE_MIN + i - ERR_MESSAGE_MIN) = Some m)
    by (replace (ERR_MESSAGE_MIN + i - ERR_MESSAGE_MIN) with i by lia; unfold znth; by replace (0 <=? i) with true by lia).
  assert (Hslot : slot_ok (e_reports f) m) by (pose proof (eo_slots _ _ Hok) as HS; rewrite Forall_forall in HS; apply HS; by eapply list_elem_of_lookup_2).
  assert (HR : msg_report f m = Some x) by (unfold msg_report; by rewrite Hr). split; [|split].
  - destruct (code_message _ f m 100 Em Hz Hslot) as (c & E & _ & Hcode); [intros r' x' Hx'; by apply (eo_pubs _ _ Hok r' x')|].
    etransitivity; [exact E|]. do 2 f_equal. rewrite (Hcode (or_intror Hs)). unfold msg_code. rewrite HR, Hp. cbn. rewrite He. lia.
  - destruct (str_message _ f m 100 Hc Em Hz Hslot) as (t & f' & E & _ & _ & Htx). exists f'. etransitivity; [exact E|]. do 3 f_equal.
    unfold msg_text in Htx. rewrite HR in Htx. unfold report_message. destruct (er_format (rb_pub x)); [done|]. rewrite (proj2 Htx Hs), He, Z.add_comm. done.
  - eexists r, _, _. split; [by apply (get_known_eq _ m r x)|]. cbn. by rewrite lookup_insert_eq.
Qed.

Lemma report_done_ok e p s held : errors_ok e held -> pub_ok p -> er_code p <> 0 -> wf (with_report e p) s ->
  exists no f', report_done (e_brk e) s = (Ok no, Build_err_state (es_io s) f') /\ errors_ok f' held /\ tmp_ok (e_tmp f') /\ report_at no p f'.
Proof.
  intros Hok Hp Hnz (_ & Ht & He). destruct s as [io f]. cbn [es_io es_err] in *. unfold report_done, on_err.
  set (r := e_brk e) in *. set (x0 := Build_ReportBuffer p 0 1 1).
  assert (Hok1 : errors_ok f (r :: held)).
  { apply errors_ok_tmp. rewrite He. apply (alloc_report_step x0 e held Hok); done. }
  assert (Hx0 : e_reports f !! r = Some x0) by (pose proof (f_equal e_reports He) as HR; cbn in HR; rewrite HR; apply lookup_insert_eq).
  assert (EG : get_report r f = (Ok x0, f)) by (unfold get_report; by rewrite (bind_ok get _ _ _ _ eq_refl), Hx0).
  destruct (set_report_eq r f (r :: held) Hok1) as (f1 & x & M1 & Hx & Hcode & ES); [left|].
  destruct (mk_sub _ _ _ _ M1 r x Hx) as (x1 & Hx1 & Hpub & Hpos). rewrite Hx0 in Hx1. injection Hx1 as <-. cbn in Hpub, Hpos.
  set (f2 := with_error r x (e_msgs_pos f) f1) in *. assert (Hok2 : errors_ok f2 (r :: held)) by (by apply with_error_ok).
  destruct (release_step r f2 (r :: held) held Hok2) as (x2 & Hx2 & ER & Hok3 & _); [done|].
  exists (ERR_MESSAGE_MIN + e_msgs_pos f), (set_reports (unheld (e_reports f2) r x2) (e_brk f2) f2). split; [|split; [done|split; [by cbn; rewrite (mk_tmp _ _ _ _ M1)|]]].
  - unfold mbind at 1, M_bind at 1. cbn [es_err es_io]. rewrite EG. cbn [rb_pub x0]. replace (er_code p =? 0) with false by lia. cbn [negb].
    unfold mbind at 1, M_bind at 1. cbn [es_err es_io]. rewrite ES. unfold mbind at 1, M_bind at 1. cbn [es_err es_io]. by rewrite ER.
  - cbn in Hx2. rewrite lookup_insert_eq in Hx2. injection Hx2 as <-. pose proof (eo_pos _ _ Hok1) as HP.
    assert (Hlen : (Z.to_nat (e_msgs_pos f) < length (e_msgs f1))%nat)
      by (rewrite (mk_msgs _ _ _ _ M1), length_insert; pose proof (eo_length _ _ Hok1); unfold zlen in *; lia).
    destruct (eo_refs _ _ Hok2) as [HR _]. destruct (HR r _ (lookup_insert_eq _ _ _)) as (Hg & Hf & _). cbn [set_refs rb_gets rb_refs] in Hg, Hf.
    assert (Hslot : 0 < slot_cnt r (e_msgs f2)).
    { assert (HI : e_msgs f2 !! Z.to_nat (e_msgs_pos f) = Some (Build_ErrorMessage SRC_REPORT (er_code (rb_pub x) + STD_ERR_BASE) None (Some r))) by (cbn; by apply list_lookup_insert_eq).
      rewrite <- (take_drop_middle _ _ _ HI), slot_cnt_app, slot_cnt_cons, bool_decide_eq_true_2 by done.
      pose proof (slot_cnt_nonneg r (take (Z.to_nat (e_msgs_pos f)) (e_msgs f2))). pose proof (slot_cnt_nonneg r (drop (S (Z.to_nat (e_msgs_pos f))) (e_msgs f2))). lia. }
    rewrite held_cnt_cons, bool_decide_eq_true_2 in Hg, Hf by done. pose proof (held_cnt_nonneg r held).
    set (x3 := set_refs (rb_refs x + 1 - 1) (rb_gets x - 1) x).
    exists (e_msgs_pos f), (Build_ErrorMessage SRC_REPORT (er_code (rb_pub x) + STD_ERR_BASE) None (Some r)), r, x3.
    split; [done|]. split; [done|]. split; [cbn; by apply list_lookup_insert_eq|]. do 3 (split; [done|]). split; [|done].
    cbn. unfold unheld. cbn [set_refs rb_refs]. replace (rb_refs x + 1 - 1 =? 0) with false by lia. apply lookup_insert_eq.
Qed.

Lemma read_errno_ok rep f held i rest : clib_plain -> wire_ok rep -> pub_ok rep -> er_code rep <> 0 -> errors_ok f held -> tmp_ok (e_tmp f) ->
  is_wf i -> is_data i = report_text rep ++ 0 :: rest ->
  exists no i' f', read_errno (Build_err_state i f) = (Ok no, Build_err_state i' f') /\ is_wf i' /\ is_data i' = rest /\ is_mark i' = is_mark i /\
    errors_ok f' held /\ tmp_ok (e_tmp f') /\ carries no (received rep) f'.
Proof.
  intros Hc Hwire Hp Hnz Hok Ht Hi D. unfold read_errno. set (e := no_tmp f).
  assert (Hs : wf e (Build_err_state i f)) by done.
  assert (D0 : is_data (es_io (Build_err_state i f)) = #"{" :: (field_text (str "Code", signed_text (er_code rep)) ++ tail_text (rest_fields rep) ++ [ #"}"]) ++ 0 :: rest) by done.
  match goal with |- context [json_peek ≫= ?k] => destruct (peek_ok e (#"{") _ _ k eq_refl Hs D0) as (s1 & E1 & Hs1 & D1 & M1) end.
  rewrite E1. clear E1. change (negb (#"{" =? MARKER_EOA)) with true. cbv iota.
  destruct (read_object_ok e rep s1 (0 :: rest) Hwire Hs1) as (s2 & E2 & Hs2 & D2 & M2); [exact D1|].
  destruct (report_done_ok e (received rep) s2 held) as (no & f' & E3 & Hok' & Ht' & Hcar); [by apply errors_ok_tmp|by destruct Hp|done|done|].
  assert (ER : read_error_object s1 = (Ok no, Build_err_state (es_io s2) f')) by (by rewrite E2). rewrite (bind_ok _ _ _ _ _ ER).
  destruct (goes_ok (no_tmp f') (json_test_char MARKER_EOA) tt [0] (no_tmp f') (Build_err_state (es_io s2) f') rest (fun _ => mret no)) as (s3 & E4 & Hs3 & D3 & M3).
  - apply goes_reads. by apply (@reads_test_char _ _ (es_spec (no_tmp f'))).
  - split; [apply Hs2|done].
  - exact D2.
  - exists no, (es_io s3), (es_err s3). rewrite E4. destruct Hs3 as (Hw & Ht3 & He3). split; [by destruct s3|]. split; [done|]. split; [done|].
    split; [by rewrite M3; cbn; rewrite M2, M1|].
    assert (HE : es_err s3 = set_e_tmp (e_tmp (es_err s3)) f') by (destruct (es_err s3), f'; cbn in *; unfold no_tmp, set_e_tmp in He3; cbn in He3; by injection He3 as -> -> -> -> -> -> ->).
    assert (Hok3 : errors_ok (es_err s3) held) by (apply errors_ok_tmp; rewrite He3; by apply errors_ok_tmp). split; [done|]. split; [done|].
    eapply report_carries; [done|done|]. rewrite HE. exact Hcar.
Qed.

End arrives.

(** ** What is sent *)

Section sends.
Context `{OutputStreamSpec St} `{CLib}.

Lemma write_errno_ok err e e1 held r x o : errors_ok e held -> clib_plain -> err <> 0 -> get_error_report err e = (Ok (Some r), e1) -> e_reports e1 !! r = Some x ->
  wire_ok (rb_pub x) -> os_wf o ->
  exists o' e2, write_errno err (Build_err_state o e) = (Ok tt, Build_err_state o' e2) /\ os_wf o' /\
    os_data o' = os_data o ++ report_text (rb_pub x) ++ [0] /\ errors_ok e2 held /\ pub_ok (rb_pub x).
Proof.
  intros Hok Hc Hnz EG Hx Hwire Ho. destruct (get_report_step err e held Hc Hok) as (a & e1' & EG' & Hok1 & _). rewrite EG in EG'. injection EG' as <- <-.
  destruct (release_step r e1 (r :: held) held Hok1) as (x' & Hx' & ER & Hok2 & _); [done|]. rewrite Hx in Hx'. injection Hx' as <-.
  assert (HW : writes (write_stream (#"{") ;; json_write_string (Some (str "Code")) ;; write_stream (#":") ;; json_write_long (er_code (rb_pub x)) ;; write_error_props (rb_pub x)) tt
    (#"{" :: field_text (str "Code", signed_text (er_code (rb_pub x))) ++ tail_text (rest_fields (rb_pub x)))).
  { apply (writes_seq _ _ tt tt [ #"{"]); [by apply writes_byte|]. unfold field_text. cbn [fst snd]. rewrite <- app_assoc.
    eapply writes_seq; [apply writes_name; by apply short_name|]. cbn [app]. apply (writes_seq _ _ tt tt [ #":"]); [by apply writes_byte|].
    eapply writes_seq; [apply writes_long; destruct Hwire; unfold in_s in *; lia|by apply writes_error_props]. }
  destruct (HW o Ho) as (o1 & E1 & Ho1 & D1 & _). destruct (writes_byte (#"}") ltac:(done) o1 Ho1) as (o2 & E2 & Ho2 & D2 & _).
  destruct (writes_byte 0 ltac:(done) o2 Ho2) as (o3 & E3 & Ho3 & D3 & _).
  exists o3. eexists. split; [|split; [done|split; [|split; [exact Hok2|]]]].
  - unfold write_errno. replace (err =? 0) with false by lia. cbn [negb]. unfold write_error_object. rewrite bind_assoc.
    assert (S1 : on_err (St := St) (get_error_report err) (Build_err_state o e) = (Ok (Some r), Build_err_state o e1)) by (unfold on_err; cbn; by rewrite EG).
    rewrite (bind_ok _ _ _ _ _ S1), bind_assoc.
    assert (S2 : on_err (St := St) (get_report r) (Build_err_state o e1) = (Ok x, Build_err_state o e1)) by (unfold on_err, get_report; cbn [es_err es_io]; by rewrite (bind_ok get _ _ _ _ eq_refl), Hx).
    rewrite (bind_ok _ _ _ _ _ S2), bind_assoc. match goal with |- context [on_io ?w ≫= _] => assert (S3 : on_io w (Build_err_state o e1) = (Ok tt, Build_err_state o1 e1)) by (unfold on_io; cbn [es_io es_err]; by rewrite E1) end.
    rewrite (bind_ok _ _ _ _ _ S3), bind_assoc.
    assert (S4 : on_err (St := St) (release_error_report (Some r)) (Build_err_state o1 e1) = (Ok tt, Build_err_state o1 (set_reports (unheld (e_reports e1) r x) (e_brk e1) e1)))
      by (unfold on_err; cbn [es_err es_io]; by rewrite ER).
    rewrite (bind_ok _ _ _ _ _ S4). match goal with |- (on_io ?w ≫= _) ?s = _ => assert (S5 : on_io w s = (Ok tt, Build_err_state o2 (es_err s))) by (unfold on_io; cbn [es_io es_err]; by rewrite E2) end.
    rewrite (bind_ok _ _ _ _ _ S5). unfold on_io. cbn [es_io es_err]. by rewrite E3.
  - rewrite D3, D2, D1. unfold report_text. cbn [app]. rewrite <- !app_assoc. cbn. by rewrite <- !app_assoc.
  - destruct (errors_ok_parts _ _ Hok1) as [_ HP]. apply (HP r x Hx).
Qed.
End sends.

(** ** Properties *)


(** An errno of the C library. *)
Definition example_report : ErrorReport :=
  Build_ErrorReport 1 (Some (str "No such file or directory")) [] 0 [(str "AltOrg", string_text (str "Linux")); (str "AltCode", str "2")].

Lemma example_wire_ok : wire_ok example_report.
Proof.
  constructor; cbn.
  - unfold in_s. lia.
  - unfold in_u. lia.
  - intros f [= <-]. split; [|done]. by apply plain_cstring, plain_chars.
  - constructor.
  - assert (HP : prop_name (str "AltOrg") /\ prop_name (str "AltCode")) by (split; (split; [by apply cstring_chars|split_and!; done])).
    apply Forall_cons. split; [split; [apply HP|split; [|by apply cstring_chars]]|apply Forall_cons; split; [split; [apply HP|split; [|by apply cstring_chars]]|constructor]].
    + apply (value_string (str "Linux")). repeat (apply raw_plain; [done|done|done|]). constructor.
    + by apply (value_number (#"2") []).
Qed.

