(* ===== verification/Cache.v ===== *)
(** * Data caches (framework/cache.c)

    A cache holds data of a remote target.  A client that misses data is stopped
    by an exception and waits in the list of the cache; when the cache has been
    filled the client is run again from its start.

    A client, a channel and a cache are known by their addresses; the arguments of
    a client are a block of memory, which is copied when the client has to wait.
    The state of the rest of the agent is [cw_user].  The arrays that grow with
    their content are lists. *)

From stdpp Require Import gmap.
From S2P Require Import Prelude.

Record WaitingCacheClient := {
  wc_id : Z;
  wc_client : option Z;
  wc_channel : option Z;
  wc_args : option Z;
  wc_args_size : Z;
  wc_args_copy : bool;
}.

(** After [memset(&current_client, 0, ...)]. *)
Definition no_client : WaitingCacheClient := Build_WaitingCacheClient 0 None None None 0 false.

(** [cw_wait] has the lists of clients of the caches; [cw_buf] is the static buffer
    [wait_list_buf]; [cw_events] are the buffers posted with [cache_notify_event];
    [cw_heap] has the blocks of memory and [cw_brk] the address of the next one. *)
Record CacheWorld (U : Type) := {
  cw_current : WaitingCacheClient;
  cw_cache : option Z;
  cw_miss_cnt : Z;
  cw_buf : list WaitingCacheClient;
  cw_id_cnt : Z;
  cw_list : list Z;
  cw_def_channel : option Z;
  cw_wait : gmap Z (list WaitingCacheClient);
  cw_events : list (list WaitingCacheClient);
  cw_heap : gmap Z bytes;
  cw_brk : Z;
  cw_user : U;
}.
Arguments cw_current {U} _. Arguments cw_cache {U} _. Arguments cw_miss_cnt {U} _. Arguments cw_buf {U} _.
Arguments cw_id_cnt {U} _. Arguments cw_list {U} _. Arguments cw_def_channel {U} _. Arguments cw_wait {U} _.
Arguments cw_events {U} _. Arguments cw_heap {U} _. Arguments cw_brk {U} _. Arguments cw_user {U} _.
Arguments Build_CacheWorld {U} _ _ _ _ _ _ _ _ _ _ _ _.

Section set_fields.
Context {U : Type}.
Implicit Types w : CacheWorld U.

(** The client that runs: it, the cache it waits for, its misses, its channel. *)
Definition set_running cur cache cnt def w : CacheWorld U :=
  Build_CacheWorld cur cache cnt (cw_buf w) (cw_id_cnt w) (cw_list w) def (cw_wait w) (cw_events w) (cw_heap w) (cw_brk w) (cw_user w).
Definition set_current x w := set_running x (cw_cache w) (cw_miss_cnt w) (cw_def_channel w) w.
Definition set_cw_buf x w : CacheWorld U :=
  Build_CacheWorld (cw_current w) (cw_cache w) (cw_miss_cnt w) x (cw_id_cnt w) (cw_list w) (cw_def_channel w) (cw_wait w)
    (cw_events w) (cw_heap w) (cw_brk w) (cw_user w).
Definition set_id_cnt x w : CacheWorld U :=
  Build_CacheWorld (cw_current w) (cw_cache w) (cw_miss_cnt w) (cw_buf w) x (cw_list w) (cw_def_channel w) (cw_wait w)
    (cw_events w) (cw_heap w) (cw_brk w) (cw_user w).
Definition set_lists lst wait w : CacheWorld U :=
  Build_CacheWorld (cw_current w) (cw_cache w) (cw_miss_cnt w) (cw_buf w) (cw_id_cnt w) lst (cw_def_channel w) wait
    (cw_events w) (cw_heap w) (cw_brk w) (cw_user w).
Definition set_cw_events x w : CacheWorld U :=
  Build_CacheWorld (cw_current w) (cw_cache w) (cw_miss_cnt w) (cw_buf w) (cw_id_cnt w) (cw_list w) (cw_def_channel w) (cw_wait w)
    x (cw_heap w) (cw_brk w) (cw_user w).
Definition set_heap h brk w : CacheWorld U :=
  Build_CacheWorld (cw_current w) (cw_cache w) (cw_miss_cnt w) (cw_buf w) (cw_id_cnt w) (cw_list w) (cw_def_channel w) (cw_wait w)
    (cw_events w) h brk (cw_user w).
Definition set_cw_user x w : CacheWorld U :=
  Build_CacheWorld (cw_current w) (cw_cache w) (cw_miss_cnt w) (cw_buf w) (cw_id_cnt w) (cw_list w) (cw_def_channel w) (cw_wait w)
    (cw_events w) (cw_heap w) (cw_brk w) x.
End set_fields.

Definition cache_start {U} (u : U) : CacheWorld U :=
  Build_CacheWorld no_client None 0 [] 0 [] None ∅ [] ∅ 1 u.

Definition CTLE_START : Z := 1.
Definition CTLE_RETRY : Z := 2.
Definition CTLE_ABORT : Z := 3.
Definition CTLE_COMMIT : Z := 4.

(** The transaction listeners, and what is defined elsewhere: the clients, the
    locks of a channel, and the error codes of errors.c. *)
Class CacheListeners (U : Type) := cache_listeners : list (Z -> M (CacheWorld U) unit).

Class CacheEnv (U : Type) := {
  cache_client : Z -> option Z -> M (CacheWorld U) unit;
  cache_channel_lock : Z -> M U unit;
  cache_channel_unlock : Z -> M U unit;
  cache_error_code : U -> Z -> Z;
}.

Section cache.
Context {U : Type} `{CacheListeners U} `{CacheEnv U}.

Abbreviation W := (CacheWorld U).

Definition on_user {A} (m : M U A) : M W A := fun w => let '(r, u) := m (cw_user w) in (r, set_cw_user u w).

Definition loc_alloc_copy (data : bytes) : M W Z :=
  w ← get; put (set_heap (<[cw_brk w := data]> (cw_heap w)) (cw_brk w + 1) w) ;; mret (cw_brk w).
Definition loc_free_args (a : option Z) : M W unit :=
  match a with
  | None => mret tt
  | Some a => w ← get; assertm (bool_decide (is_Some (cw_heap w !! a))) ;; put (set_heap (delete a (cw_heap w)) (cw_brk w) w)
  end.

Fixpoint call_cache_listeners (l : list (Z -> M W unit)) (evt : Z) : M W unit :=
  match l with
  | [] => mret tt
  | f :: l => f evt ;; call_cache_listeners l evt
  end.

(** What ends a transaction. *)
Definition reset_client : M W unit := modify (set_running no_client None 0 None).

(** The arguments of a client that has to wait are copied once. *)
Definition copy_args (cur : WaitingCacheClient) : M W WaitingCacheClient :=
  match wc_args cur with
  | Some a =>
      if wc_args_copy cur then mret cur
      else
        w ← get;
        block ← of_option (cw_heap w !! a);
        data ← of_option (mem_read block 0 (wc_args_size cur));
        mem ← loc_alloc_copy data;
        let cur := Build_WaitingCacheClient (wc_id cur) (wc_client cur) (wc_channel cur) (Some mem) (wc_args_size cur) true in
        modify (set_current cur) ;;
        mret cur
  | None => mret cur
  end.

(** The client goes to the end of the list of [cache]. *)
Definition enqueue_client (cache : Z) : M W unit :=
  w ← get;
  cur ← copy_args (cw_current w);
  w ← get;
  let l := default [] (cw_wait w !! cache) in
  (if zlen l =? 0 then modify (set_lists (cw_list w ++ [cache]) (cw_wait w)) else mret tt) ;;
  (match wc_channel cur with Some ch => on_user (cache_channel_lock ch) | None => mret tt end) ;;
  modify (fun w => set_lists (cw_list w) (<[cache := l ++ [cur]]> (cw_wait w)) w) ;;
  call_cache_listeners cache_listeners CTLE_ABORT.

(** [set_trap]: the error, 0 when there was none. *)
Definition cache_trap (m : M W unit) : M W Z := fun w =>
  match m w with
  | (Ok _, w') => (Ok 0, w')
  | (Exc e, w') => (Ok e, w')
  | (Undef, w') => (Undef, w')
  | (NoFuel, w') => (NoFuel, w')
  end.

Definition run_cache_client (retry : bool) : M W unit :=
  w ← get;
  let cur := cw_current w in
  let id := wc_id cur in
  assertm (negb (id =? 0)) ;;
  put (set_running cur None 0 None w) ;;
  let args_copy := if wc_args_copy cur then wc_args cur else None in
  call_cache_listeners cache_listeners (if retry then CTLE_RETRY else CTLE_START) ;;
  client ← of_option (wc_client cur);
  error ← cache_trap (cache_client client (wc_args cur));
  w ← get;
  if (error =? 0) || negb (id =? wc_id (cw_current w)) then
    assertm (wc_id (cw_current w) =? 0) ;;
    assertm (cw_miss_cnt w =? 0) ;;
    loc_free_args args_copy
  else
    (match cw_cache w with
     | Some cache =>
         if negb (cache_error_code (cw_user w) error =? ERR_CACHE_MISS) || (cw_miss_cnt w =? 0) then
           call_cache_listeners cache_listeners CTLE_COMMIT ;;
           reset_client ;;
           loc_free_args args_copy
         else
           enqueue_client cache ;;
           reset_client
     | None =>
         call_cache_listeners cache_listeners CTLE_COMMIT ;;
         reset_client ;;
         loc_free_args args_copy
     end).

Definition cache_enter (client : Z) (channel args : option Z) (args_size : Z) : M W unit :=
  w ← get;
  assertm (wc_id (cw_current w) =? 0) ;;
  assertm (bool_decide (wc_client (cw_current w) = None)) ;;
  let id := cw_id_cnt w in
  let cnt := u32 (id + 1) in
  let '(id, cnt) := if id =? 0 then (cnt, u32 (cnt + 1)) else (id, cnt) in
  modify (set_id_cnt cnt) ;;
  modify (set_current (Build_WaitingCacheClient id (Some client) channel args args_size false)) ;;
  run_cache_client false.

Definition cache_exit : M W unit :=
  w ← get;
  assertm (bool_decide (wc_client (cw_current w) <> None)) ;;
  if 0 <? cw_miss_cnt w then exception ERR_CACHE_MISS
  else
    call_cache_listeners cache_listeners CTLE_COMMIT ;;
    reset_client.

Definition cache_wait (cache : Z) : M W unit :=
  w ← get;
  assertm (bool_decide (wc_client (cw_current w) <> None)) ;;
  assertm (cw_miss_cnt w + 1 <? 2 ^ 31) ;;
  put (set_running (cw_current w) (Some cache) (cw_miss_cnt w + 1) (cw_def_channel w) w) ;;
  exception ERR_CACHE_MISS.

Definition unlock_client (client : WaitingCacheClient) : M W unit :=
  match wc_channel client with Some ch => on_user (cache_channel_unlock ch) | None => mret tt end.

(** The clients are taken from the static buffer, one after the other. *)
Fixpoint notify_loop (n : nat) (i : Z) : M W unit :=
  match n with
  | O => mret tt
  | S n =>
      w ← get;
      client ← of_option (znth (cw_buf w) i);
      modify (set_current client) ;;
      run_cache_client true ;;
      w ← get;
      client ← of_option (znth (cw_buf w) i);
      unlock_client client ;;
      notify_loop n (i + 1)
  end.

Definition cache_notify (cache : Z) : M W unit :=
  w ← get;
  let l := default [] (cw_wait w !! cache) in
  if zlen l =? 0 then mret tt
  else
    put (set_cw_buf (l ++ zdrop (zlen l) (cw_buf w))
      (set_lists (filter (fun c => c <> cache) (cw_list w)) (<[cache := []]> (cw_wait w)) w)) ;;
    notify_loop (length l) 0.

(** One posted event: the buffer is the event's own. *)
Fixpoint notify_event_loop (buf : list WaitingCacheClient) : M W unit :=
  match buf with
  | [] => mret tt
  | client :: buf =>
      modify (set_current client) ;;
      run_cache_client true ;;
      unlock_client client ;;
      notify_event_loop buf
  end.

Definition cache_notify_event : M W unit :=
  w ← get;
  match cw_events w with
  | [] => mret tt
  | buf :: events => put (set_cw_events events w) ;; notify_event_loop buf
  end.

Definition cache_notify_later (cache : Z) : M W unit :=
  w ← get;
  let l := default [] (cw_wait w !! cache) in
  if zlen l =? 0 then mret tt
  else
    put (set_cw_events (cw_events w ++ [l])
      (set_lists (filter (fun c => c <> cache) (cw_list w)) (<[cache := []]> (cw_wait w)) w)).

Definition cache_channel (w : W) : option Z :=
  match wc_channel (cw_current w) with
  | Some ch => Some ch
  | None => match wc_client (cw_current w) with Some _ => cw_def_channel w | None => None end
  end.

Definition cache_set_def_channel (channel : option Z) : M W unit :=
  modify (fun w => set_running (cw_current w) (cw_cache w) (cw_miss_cnt w) channel w).

Definition cache_transaction_id (w : W) : Z := wc_id (cw_current w).
Definition cache_miss_count (w : W) : Z := cw_miss_cnt w.

Definition cache_dispose (cache : Z) : M W unit :=
  w ← get;
  assertm (zlen (default [] (cw_wait w !! cache)) =? 0) ;;
  assertm (bool_decide (cache ∉ cw_list w)) ;;
  put (set_lists (cw_list w) (delete cache (cw_wait w)) w).
End cache.
