(* ===== verification/CacheSpec.v ===== *)
(** * Data caches: transactions

    Clients as the comment of cache.h describes them: they read data of caches,
    are stopped where data are missing, and act after [cache_exit].  Their runs
    implement a list of transactions that wait for data. *)

From stdpp Require Import gmap.
From S2P Require Import Prelude Cache.

(** ** Clients *)

(** What a client needs, one datum after the other, and what it does in the end. *)
Inductive Request (V E : Type) :=
| Need (cache : Z) (k : V -> Request V E)
| Act (e : E).
Arguments Need {V E} _ _. Arguments Act {V E} _.

(** The data, the actions with the identifiers of their transactions, the locks. *)
Record Data (V E : Type) := {
  d_values : gmap Z V;
  d_log : list (Z * E);
  d_locks : gmap Z Z;
}.
Arguments d_values {V E} _. Arguments d_log {V E} _. Arguments d_locks {V E} _. Arguments Build_Data {V E} _ _ _.

Section spec.
Context {V E : Type} (prog : Z -> bytes -> Request V E).

Abbreviation W := (CacheWorld (Data V E)).

#[local] Instance no_listeners : CacheListeners (Data V E) := [].

Definition add_log (x : Z * E) (d : Data V E) : Data V E := Build_Data (d_values d) (d_log d ++ [x]) (d_locks d).
Definition set_values x (d : Data V E) : Data V E := Build_Data x (d_log d) (d_locks d).
Definition locks_of (ch : Z) (d : Data V E) : Z := default 0 (d_locks d !! ch).
Definition set_locks (ch n : Z) (d : Data V E) : Data V E := Build_Data (d_values d) (d_log d) (<[ch := n]> (d_locks d)).

Fixpoint exec (r : Request V E) : M W unit :=
  match r with
  | Act e => w ← get; let id := cache_transaction_id w in cache_exit ;; on_user (modify (add_log (id, e)))
  | Need c k => w ← get; match d_values (cw_user w) !! c with Some v => exec (k v) | None => cache_wait c end
  end.

Definition client_body (client : Z) (args : option Z) : M W unit :=
  w ← get;
  data ← (match args with Some a => of_option (cw_heap w !! a) | None => mret [] end);
  exec (prog client data).

#[local] Instance spec_env : CacheEnv (Data V E) := {
  cache_client := client_body;
  cache_channel_lock ch := modify (fun d => set_locks ch (locks_of ch d + 1) d);
  cache_channel_unlock ch := d ← get; assertm (0 <? locks_of ch d) ;; put (set_locks ch (locks_of ch d - 1) d);
  cache_error_code _ e := e;
}.

(** ** What happens to the agent *)

Inductive cache_op :=
| Enter (client : Z) (channel : option Z) (data : bytes)
| Fill (cache : Z) (v : V)
| Clear (cache : Z)
| Notify (cache : Z)
| NotifyLater (cache : Z)
| RunEvent.

(** A command handler has the arguments in its own memory. *)
Definition run_op (op : cache_op) : M W unit :=
  match op with
  | Enter client channel data =>
      a ← loc_alloc_copy data;
      cache_enter client channel (Some a) (zlen data) ;;
      loc_free_args (Some a)
  | Fill c v => on_user (modify (fun d => set_values (<[c := v]> (d_values d)) d))
  | Clear c => on_user (modify (fun d => set_values (delete c (d_values d)) d))
  | Notify c => cache_notify c
  | NotifyLater c => cache_notify_later c
  | RunEvent => cache_notify_event
  end.

Fixpoint run_ops (ops : list cache_op) : M W unit :=
  match ops with [] => mret tt | op :: ops => run_op op ;; run_ops ops end.

(** ** Transactions *)

Record Tx := { tx_id : Z; tx_client : Z; tx_channel : option Z; tx_data : bytes }.

Fixpoint eval (vals : gmap Z V) (r : Request V E) : Z + E :=
  match r with
  | Act e => inr e
  | Need c k => match vals !! c with Some v => eval vals (k v) | None => inl c end
  end.

Record Txs := {
  t_values : gmap Z V;
  t_log : list (Z * E);
  t_wait : gmap Z (list Tx);
  t_events : list (list Tx);
  t_next : Z;
}.

Definition t_waiting (c : Z) (t : Txs) : list Tx := default [] (t_wait t !! c).
Definition t_set_wait (c : Z) (l : list Tx) (t : Txs) : Txs :=
  Build_Txs (t_values t) (t_log t) (<[c := l]> (t_wait t)) (t_events t) (t_next t).

(** A transaction commits, or waits for the first datum that is missing. *)
Definition tx_run (t : Txs) (x : Tx) : Txs :=
  match eval (t_values t) (prog (tx_client x) (tx_data x)) with
  | inr e => Build_Txs (t_values t) (t_log t ++ [(tx_id x, e)]) (t_wait t) (t_events t) (t_next t)
  | inl c => t_set_wait c (t_waiting c t ++ [x]) t
  end.

Definition tx_op (op : cache_op) (t : Txs) : Txs :=
  match op with
  | Enter client channel data =>
      tx_run (Build_Txs (t_values t) (t_log t) (t_wait t) (t_events t) (t_next t + 1)) (Build_Tx (t_next t) client channel data)
  | Fill c v => Build_Txs (<[c := v]> (t_values t)) (t_log t) (t_wait t) (t_events t) (t_next t)
  | Clear c => Build_Txs (delete c (t_values t)) (t_log t) (t_wait t) (t_events t) (t_next t)
  | Notify c => match t_waiting c t with [] => t | l => fold_left tx_run l (t_set_wait c [] t) end
  | NotifyLater c =>
      match t_waiting c t with
      | [] => t
      | l => Build_Txs (t_values t) (t_log t) (<[c := []]> (t_wait t)) (t_events t ++ [l]) (t_next t)
      end
  | RunEvent =>
      match t_events t with
      | [] => t
      | l :: ev => fold_left tx_run l (Build_Txs (t_values t) (t_log t) (t_wait t) ev (t_next t))
      end
  end.

Definition tx_ops (ops : list cache_op) (t : Txs) : Txs := fold_left (fun t op => tx_op op t) ops t.

Definition tx_start (vals : gmap Z V) : Txs := Build_Txs vals [] ∅ [] 1.

(** ** The state of the agent and the transactions *)

(** All that wait, in lists or in events. *)
Definition all_of {A} (wait : gmap Z (list A)) (events : list (list A)) : list A := concat (map_to_list wait).*2 ++ concat events.

Definition addrs (l : list WaitingCacheClient) : list Z := omap wc_args l.
Definition locked_by (ch : Z) (l : list WaitingCacheClient) : Z := zlen (filter (fun c => wc_channel c = Some ch) l).

(** How a transaction is kept while it waits. *)
Definition keeps_tx (heap : gmap Z bytes) (c : WaitingCacheClient) (x : Tx) : Prop :=
  exists a, c = Build_WaitingCacheClient (tx_id x) (Some (tx_client x)) (tx_channel x) (Some a) (zlen (tx_data x)) true /\
    heap !! a = Some (tx_data x) /\ tx_id x <> 0.

Definition keeps_all (heap : gmap Z bytes) (wait : gmap Z (list WaitingCacheClient)) (events : list (list WaitingCacheClient)) (t : Txs) : Prop :=
  (forall c, Forall2 (keeps_tx heap) (default [] (wait !! c)) (t_waiting c t)) /\
  Forall2 (Forall2 (keeps_tx heap)) events (t_events t).

(** The memory is that of the clients [l] and of others, [own]. *)
Definition heap_inv (heap : gmap Z bytes) (brk : Z) (own : list Z) (l : list WaitingCacheClient) : Prop :=
  (forall a, is_Some (heap !! a) <-> a ∈ own ++ addrs l) /\ NoDup (own ++ addrs l) /\ Forall (fun a => a < brk) (own ++ addrs l).

(** [todo] are the clients that a notification has still to run. *)
Record cache_inv (w : W) (t : Txs) (todo : list WaitingCacheClient) (xs : list Tx) (own : list Z) : Prop := {
  ci_values : d_values (cw_user w) = t_values t;
  ci_log : d_log (cw_user w) = t_log t;
  ci_todo : Forall2 (keeps_tx (cw_heap w)) todo xs;
  ci_kept : keeps_all (cw_heap w) (cw_wait w) (cw_events w) t;
  ci_heap : heap_inv (cw_heap w) (cw_brk w) own (todo ++ all_of (cw_wait w) (cw_events w));
  ci_locks : forall ch, locks_of ch (cw_user w) = locked_by ch (todo ++ all_of (cw_wait w) (cw_events w));
}.

Definition idle (w : W) : Prop :=
  cw_current w = no_client /\ cw_cache w = None /\ cw_miss_cnt w = 0 /\ cw_def_channel w = None.

(** ** Lemmas on lists and memory *)

Lemma all_of_insert {A} c (l : list A) wait events :
  all_of (<[c := l]> wait) events ++ default [] (wait !! c) ≡ₚ all_of wait events ++ l.
Proof.
  unfold all_of. rewrite <- insert_delete_eq, map_to_list_insert by apply lookup_delete_eq. cbn [fmap list_fmap concat].
  destruct (wait !! c) as [l0|] eqn:EC; cbn [default].
  - rewrite <- (insert_delete_id wait c l0 EC) at 2. rewrite map_to_list_insert by apply lookup_delete_eq. cbn [fmap list_fmap concat]. solve_Permutation.
  - rewrite delete_id by done. solve_Permutation.
Qed.

Lemma all_of_wait {A} c (wait : gmap Z (list A)) events : default [] (wait !! c) ⊆ all_of wait events.
Proof.
  intros x Hx. pose proof (all_of_insert c [] wait events) as HP. rewrite app_nil_r in HP. rewrite <- HP. set_solver.
Qed.

Lemma all_of_event {A} l (wait : gmap Z (list A)) events : l ∈ events -> l ⊆ all_of wait events.
Proof. intros Hl x Hx. apply elem_of_app. right. apply list_elem_of_In, in_concat. exists l. by rewrite <- !list_elem_of_In. Qed.

Lemma args_app l k : addrs (l ++ k) = addrs l ++ addrs k.
Proof. apply omap_app. Qed.

Lemma addrs_elem a l : a ∈ addrs l <-> exists c, c ∈ l /\ wc_args c = Some a.
Proof. apply list_elem_of_omap. Qed.

Lemma heap_inv_perm heap brk own l k : l ≡ₚ k -> heap_inv heap brk own l -> heap_inv heap brk own k.
Proof.
  intros HP (HD & HN & HF). assert (HA : own ++ addrs l ≡ₚ own ++ addrs k) by (unfold addrs; by rewrite HP).
  split; [intros a; by rewrite HD, HA|]. split; by rewrite <- HA.
Qed.

Lemma locked_by_perm ch l k : l ≡ₚ k -> locked_by ch l = locked_by ch k.
Proof. intros HP. unfold locked_by, zlen. by rewrite HP. Qed.

Lemma keeps_list heap heap' l xs : (forall a, a ∈ addrs l -> heap' !! a = heap !! a) ->
  Forall2 (keeps_tx heap) l xs -> Forall2 (keeps_tx heap') l xs.
Proof.
  intros HA HF. induction HF as [|c x l xs (a & -> & Hh & Hn) HF IH]; [constructor|]. constructor.
  - exists a. split; [done|]. split; [|done]. rewrite HA; [done|]. left.
  - apply IH. intros b Hb. apply HA. right. exact Hb.
Qed.

Lemma keeps_all_heap heap heap' wait events t : (forall a, a ∈ addrs (all_of wait events) -> heap' !! a = heap !! a) ->
  keeps_all heap wait events t -> keeps_all heap' wait events t.
Proof.
  intros HA [HW HE]. assert (HL : forall l : list WaitingCacheClient, l ⊆ all_of wait events -> forall a, a ∈ addrs l -> heap' !! a = heap !! a).
  { intros l Hl a (c & Hc & Ha)%addrs_elem. apply HA, addrs_elem. exists c. split; [by apply Hl|done]. }
  split; [intros c; eapply keeps_list; [|apply HW]; apply HL, all_of_wait|].
  assert (HS : forall l, l ∈ events -> l ⊆ all_of wait events) by (intros; by apply all_of_event). clear HA HW. revert HS HL. generalize (all_of wait events). intros al HS HL.
  induction HE as [|l xs ev evs Hl HE IH]; [constructor|]. constructor.
  - eapply keeps_list; [|exact Hl]. apply HL, HS. left.
  - apply IH. intros k Hk. apply HS. by right.
Qed.

Lemma heap_inv_free heap brk own a l k : heap_inv heap brk own k -> addrs k ≡ₚ a :: addrs l -> heap_inv (delete a heap) brk own l.
Proof.
  intros (HD & HN & HF) HP. rewrite HP in HN, HF. assert (HN' : NoDup (a :: own ++ addrs l)).
  { assert (HQ : own ++ a :: addrs l ≡ₚ a :: own ++ addrs l) by solve_Permutation. by rewrite <- HQ. }
  apply NoDup_cons in HN' as [Ha HN']. split; [|split; [done|]].
  - intros b. destruct (decide (a = b)) as [<-|Hb]; [rewrite lookup_delete_eq; split; [by intros []|done]|].
    rewrite lookup_delete_ne by done. rewrite HD, HP. set_solver.
  - rewrite Forall_app, Forall_cons in HF. apply Forall_app. tauto.
Qed.

Lemma heap_inv_alloc heap brk own a data l : heap_inv heap brk own l -> a = brk -> heap_inv (<[a := data]> heap) (brk + 1) (a :: own) l.
Proof.
  intros (HD & HN & HF) ->. rewrite Forall_forall in HF. split; [|split].
  - intros b. destruct (decide (brk = b)) as [<-|Hb]; [rewrite lookup_insert_eq; split; [left|by eexists]|].
    rewrite lookup_insert_ne by done. rewrite HD. set_solver.
  - cbn. constructor; [|done]. intros Hin%HF. lia.
  - cbn. constructor; [lia|]. apply Forall_forall. intros b Hb%HF. lia.
Qed.

Lemma heap_inv_give heap brk own a l k : heap_inv heap brk (a :: own) l -> addrs k ≡ₚ a :: addrs l -> heap_inv heap brk own k.
Proof.
  intros (HD & HN & HF) HP. assert (HQ : (a :: own) ++ addrs l ≡ₚ own ++ addrs k) by (rewrite HP; solve_Permutation).
  split; [intros b; by rewrite HD, HQ|]. split; by rewrite <- HQ.
Qed.

(** ** A client *)

Lemma exec_ok r : forall (w : W) cur, cw_current w = cur -> wc_client cur <> None -> cw_miss_cnt w = 0 ->
  exec r w = match eval (d_values (cw_user w)) r with
             | inr e => (Ok tt, set_cw_user (add_log (wc_id cur, e) (cw_user w)) (set_running no_client None 0 None w))
             | inl c => (Exc ERR_CACHE_MISS, set_running cur (Some c) 1 (cw_def_channel w) w)
             end.
Proof.
  induction r as [c k IH|e]; intros w cur Hc Hn Hm; cbn [exec eval].
  - rewrite (bind_ok get _ _ _ _ eq_refl). destruct (d_values (cw_user w) !! c) as [v|]; [by apply IH|].
    unfold cache_wait. rewrite (bind_ok get _ _ _ _ eq_refl), Hc, bool_decide_eq_true_2 by done. cbn [assertm]. rewrite ret_bind, Hm. done.
  - rewrite (bind_ok get _ _ _ _ eq_refl). unfold cache_exit. rewrite bind_assoc, (bind_ok get _ _ _ _ eq_refl), Hc, bool_decide_eq_true_2 by done.
    cbn [assertm]. rewrite ret_bind, Hm. cbn [Z.ltb Z.compare]. unfold cache_transaction_id. rewrite Hc. done.
Qed.

Definition committed (cur : WaitingCacheClient) (e : E) (w : W) : W :=
  set_cw_user (add_log (wc_id cur, e) (cw_user w)) (set_running no_client None 0 None w).
Definition freed (copy : bool) (a : Z) (w : W) : W := if copy then set_heap (delete a (cw_heap w)) (cw_brk w) w else w.

(** The client with its own arguments. *)
Definition copied (cur : WaitingCacheClient) (data : bytes) (w : W) : WaitingCacheClient * W :=
  if wc_args_copy cur then (cur, w)
  else (Build_WaitingCacheClient (wc_id cur) (wc_client cur) (wc_channel cur) (Some (cw_brk w)) (wc_args_size cur) true,
        set_heap (<[cw_brk w := data]> (cw_heap w)) (cw_brk w + 1) w).

Definition lock_user (ch : option Z) (d : Data V E) : Data V E :=
  match ch with Some ch => set_locks ch (locks_of ch d + 1) d | None => d end.

Definition stalled (cur : WaitingCacheClient) (k : Z) (w : W) : W :=
  let l := default [] (cw_wait w !! k) in
  set_running no_client None 0 None
    (set_lists (if zlen l =? 0 then cw_list w ++ [k] else cw_list w) (<[k := l ++ [cur]]> (cw_wait w))
      (set_cw_user (lock_user (wc_channel cur) (cw_user w)) w)).

Definition after_run (cur : WaitingCacheClient) (a cl : Z) (data : bytes) (w : W) : W :=
  match eval (d_values (cw_user w)) (prog cl data) with
  | inr e => freed (wc_args_copy cur) a (committed cur e w)
  | inl k => let '(cur, w) := copied cur data w in stalled cur k w
  end.

Lemma enqueue_ok k cur a data cnt def (w : W) : wc_args cur = Some a -> cw_heap w !! a = Some data -> wc_args_size cur = zlen data ->
  (enqueue_client k ;; reset_client) (set_running cur (Some k) cnt def w) =
    (Ok tt, let '(cur, w) := copied cur data w in stalled cur k w).
Proof.
  intros Ha Hh Hs. unfold enqueue_client. rewrite bind_assoc, (bind_ok get _ _ _ _ eq_refl). cbn [cw_current set_running].
  assert (EC : copy_args cur (set_running cur (Some k) cnt def w) =
    (Ok (copied cur data w).1, set_running (copied cur data w).1 (Some k) cnt def (copied cur data w).2)).
  { unfold copy_args, copied. rewrite Ha. destruct (wc_args_copy cur); [done|]. rewrite (bind_ok get _ _ _ _ eq_refl). cbn [cw_heap set_running].
    rewrite Hh. cbn [of_option]. rewrite ret_bind, Hs, mem_read_ok by (pose proof (zlen_nonneg data); lia).
    cbn [of_option]. rewrite ret_bind, zdrop_0, ztake_all by lia. reflexivity. }
  rewrite bind_assoc, (bind_ok _ _ _ _ _ EC). destruct (copied cur data w) as [cur' w']. cbn [fst snd].
  rewrite bind_assoc, (bind_ok get _ _ _ _ eq_refl). cbn [cw_wait set_running]. unfold stalled, lock_user, on_user.
  destruct (zlen (default [] (cw_wait w' !! k)) =? 0), (wc_channel cur') as [ch|]; reflexivity.
Qed.

Lemma args_free_ok a (w : W) : is_Some (cw_heap w !! a) -> loc_free_args (Some a) w = (Ok tt, set_heap (delete a (cw_heap w)) (cw_brk w) w).
Proof. intros Ha. unfold loc_free_args. rewrite (bind_ok get _ _ _ _ eq_refl), bool_decide_eq_true_2 by done. done. Qed.

Lemma client_run_ok retry (w : W) cur a cl data : cw_current w = cur -> wc_id cur <> 0 -> wc_client cur = Some cl -> wc_args cur = Some a ->
  cw_heap w !! a = Some data -> wc_args_size cur = zlen data ->
  run_cache_client retry w = (Ok tt, after_run cur a cl data w).
Proof.
  intros Hc Hid Hcl Ha Hh Hs. unfold run_cache_client. rewrite (bind_ok get _ _ _ _ eq_refl), Hc.
  replace (wc_id cur =? 0) with false by lia. cbn [negb assertm]. rewrite ret_bind. rewrite (bind_ok (put _) _ _ tt _ eq_refl).
  cbn [call_cache_listeners cache_listeners no_listeners]. rewrite ret_bind, Hcl. cbn [of_option]. rewrite ret_bind, Ha.
  set (w1 := set_running cur None 0 None w).
  assert (EX : cache_client cl (Some a) w1 = exec (prog cl data) w1).
  { unfold cache_client, spec_env, client_body. rewrite (bind_ok get _ _ _ _ eq_refl). cbn [cw_heap w1 set_running]. rewrite Hh. done. }
  pose proof (exec_ok (prog cl data) w1 cur eq_refl ltac:(congruence) eq_refl) as EE. rewrite <- EX in EE. unfold after_run.
  change (d_values (cw_user w1)) with (d_values (cw_user w)) in EE. destruct (eval (d_values (cw_user w)) (prog cl data)) as [k|e].
  - assert (ET : cache_trap (cache_client cl (Some a)) w1 = (Ok ERR_CACHE_MISS, set_running cur (Some k) 1 None w)) by (unfold cache_trap; by rewrite EE).
    rewrite (bind_ok _ _ _ _ _ ET), (bind_ok get _ _ _ _ eq_refl). cbn [cw_current set_running]. rewrite Z.eqb_refl. cbn [negb].
    change ((ERR_CACHE_MISS =? 0) || false) with false. cbn [cw_cache set_running cw_miss_cnt cw_user cache_error_code spec_env].
    change (negb (ERR_CACHE_MISS =? ERR_CACHE_MISS) || (1 =? 0)) with false. cbv iota. by eapply enqueue_ok.
  - assert (ET : cache_trap (cache_client cl (Some a)) w1 = (Ok 0, committed cur e w)) by (unfold cache_trap; by rewrite EE).
    rewrite (bind_ok _ _ _ _ _ ET), (bind_ok get _ _ _ _ eq_refl). cbn [Z.eqb orb]. cbn [committed cw_current set_cw_user set_running wc_id no_client Z.eqb assertm cw_miss_cnt].
    rewrite !ret_bind. destruct (wc_args_copy cur); [|done]. apply args_free_ok. change (is_Some (cw_heap w !! a)). by rewrite Hh.
Qed.

(** ** Locks *)

Lemma locks_of_set ch n ch' (d : Data V E) : locks_of ch' (set_locks ch n d) = if ch =? ch' then n else locks_of ch' d.
Proof.
  unfold locks_of, set_locks. cbn. destruct (Z.eqb_spec ch ch') as [->|Hn]; [by rewrite lookup_insert_eq|by rewrite lookup_insert_ne].
Qed.

Lemma locked_by_cons ch c l : locked_by ch (c :: l) = (if bool_decide (wc_channel c = Some ch) then 1 else 0) + locked_by ch l.
Proof. unfold locked_by. rewrite filter_cons. case_decide; [rewrite bool_decide_eq_true_2, zlen_cons by done; lia|by rewrite bool_decide_eq_false_2]. Qed.

Lemma locked_by_nonneg ch l : 0 <= locked_by ch l.
Proof. apply zlen_nonneg. Qed.

Lemma lock_user_ok c l d : (forall ch, locks_of ch d = locked_by ch l) ->
  d_values (lock_user (wc_channel c) d) = d_values d /\ d_log (lock_user (wc_channel c) d) = d_log d /\
  forall ch, locks_of ch (lock_user (wc_channel c) d) = locked_by ch (c :: l).
Proof.
  intros HL. split; [by destruct (wc_channel c)|]. split; [by destruct (wc_channel c)|]. intros ch. rewrite locked_by_cons. unfold lock_user.
  destruct (wc_channel c) as [ch'|]; [|by rewrite bool_decide_eq_false_2, HL by done]. rewrite locks_of_set, !HL.
  destruct (Z.eqb_spec ch' ch) as [->|]; [rewrite bool_decide_eq_true_2 by done; lia|rewrite bool_decide_eq_false_2 by congruence; lia].
Qed.

Lemma client_unlock_ok c l (w : W) : (forall ch, locks_of ch (cw_user w) = locked_by ch (c :: l)) ->
  exists u, unlock_client c w = (Ok tt, set_cw_user u w) /\ d_values u = d_values (cw_user w) /\ d_log u = d_log (cw_user w) /\
    forall ch, locks_of ch u = locked_by ch l.
Proof.
  intros HL. unfold unlock_client. destruct (wc_channel c) as [ch'|] eqn:EC.
  - exists (set_locks ch' (locks_of ch' (cw_user w) - 1) (cw_user w)). split; [|split; [done|split; [done|]]].
    + unfold on_user. cbn [cache_channel_unlock spec_env]. rewrite (bind_ok get _ _ _ _ eq_refl). rewrite HL, locked_by_cons, EC, bool_decide_eq_true_2 by done.
      pose proof (locked_by_nonneg ch' l). replace (0 <? 1 + locked_by ch' l) with true by lia. reflexivity.
    + intros ch. rewrite locks_of_set, !HL, !locked_by_cons, EC.
      destruct (Z.eqb_spec ch' ch) as [->|]; [rewrite !bool_decide_eq_true_2 by done; lia|rewrite (bool_decide_eq_false_2 (Some ch' = Some ch)) by congruence; lia].
  - exists (cw_user w). split; [by destruct w|]. split; [done|]. split; [done|]. intros ch. by rewrite HL, locked_by_cons, EC, bool_decide_eq_false_2.
Qed.

(** ** Running a client that has waited *)

Lemma all_of_add k (c : WaitingCacheClient) wait events :
  all_of (<[k := default [] (wait !! k) ++ [c]]> wait) events ≡ₚ c :: all_of wait events.
Proof.
  pose proof (all_of_insert k (default [] (wait !! k) ++ [c]) wait events) as HP.
  apply (Permutation_app_inv_r (default [] (wait !! k))). rewrite HP. solve_Permutation.
Qed.

Lemma t_waiting_set k l t c : t_waiting c (t_set_wait k l t) = if bool_decide (k = c) then l else t_waiting c t.
Proof. unfold t_waiting, t_set_wait. cbn. case_bool_decide as Hk; [subst; by rewrite lookup_insert_eq|by rewrite lookup_insert_ne]. Qed.

Lemma keeps_all_add heap wait events t k c x : keeps_all heap wait events t -> keeps_tx heap c x ->
  keeps_all heap (<[k := default [] (wait !! k) ++ [c]]> wait) events (t_set_wait k (t_waiting k t ++ [x]) t).
Proof.
  intros [HW HE] Hc. split; [|exact HE]. intros c'. rewrite t_waiting_set. case_bool_decide as Hk; [subst c'|by rewrite lookup_insert_ne].
  rewrite lookup_insert_eq. cbn. apply Forall2_app; [apply HW|by constructor].
Qed.

Lemma client_step_ok (w : W) t c x todo xs own : cache_inv w t (c :: todo) (x :: xs) own -> idle w ->
  exists w1 w2, (modify (set_current c) ;; run_cache_client true) w = (Ok tt, w1) /\ cw_buf w1 = cw_buf w /\
    unlock_client c w1 = (Ok tt, w2) /\ cw_buf w2 = cw_buf w /\ cw_id_cnt w2 = cw_id_cnt w /\
    cache_inv w2 (tx_run t x) todo xs own /\ idle w2.
Proof.
  intros [] Hi. apply Forall2_cons in ci_todo0 as [(a & Ec & Hh & Hid) HT]. rewrite (bind_ok (modify _) _ w tt _ eq_refl).
  rewrite (client_run_ok true (set_current c w) c a (tx_client x) (tx_data x)); [|by rewrite Ec..].
  assert (Hcp : wc_args_copy c = true) by (by rewrite Ec). assert (Hwi : wc_id c = tx_id x) by (by rewrite Ec).
  assert (HA : addrs ((c :: todo) ++ all_of (cw_wait w) (cw_events w)) = a :: addrs (todo ++ all_of (cw_wait w) (cw_events w))) by (by rewrite Ec).
  unfold after_run, tx_run, copied. rewrite Hcp. change (d_values (cw_user (set_current c w))) with (d_values (cw_user w)). rewrite ci_values0.
  destruct (eval (t_values t) (prog (tx_client x) (tx_data x))) as [k|e].
  - destruct (lock_user_ok c _ _ ci_locks0) as (Hv & Hl & Hlk). pose proof (all_of_add k c (cw_wait w) (cw_events w)) as HP.
    set (w1 := stalled c k (set_current c w)).
    destruct (client_unlock_ok c (todo ++ c :: all_of (cw_wait w) (cw_events w)) w1) as (u & EU & Hu1 & Hu2 & Hu3).
    { intros ch. etransitivity; [apply Hlk|]. apply locked_by_perm. constructor. solve_Permutation. }
    exists w1, (set_cw_user u w1). split; [done|]. split; [done|]. split; [exact EU|]. split; [done|]. split; [done|]. split; [|done].
    assert (HP' : todo ++ all_of (<[k := default [] (cw_wait w !! k) ++ [c]]> (cw_wait w)) (cw_events w) ≡ₚ (c :: todo) ++ all_of (cw_wait w) (cw_events w))
      by (rewrite HP; solve_Permutation).
    constructor; cbn [cw_user set_cw_user cw_heap cw_brk cw_wait cw_events w1 stalled set_running set_lists set_current].
    + rewrite Hu1. cbn. by rewrite Hv.
    + rewrite Hu2. cbn. by rewrite Hl.
    + exact HT.
    + apply keeps_all_add; [done|]. by exists a.
    + eapply heap_inv_perm; [symmetry; exact HP'|done].
    + intros ch. rewrite Hu3. apply locked_by_perm. by rewrite HP.
  - set (w1 := freed true a (committed c e (set_current c w))).
    destruct (client_unlock_ok c (todo ++ all_of (cw_wait w) (cw_events w)) w1 ci_locks0) as (u & EU & Hu1 & Hu2 & Hu3).
    pose proof (heap_inv_free _ _ _ a _ _ ci_heap0 ltac:(by rewrite HA)) as Hfree.
    assert (HN : a ∉ addrs (todo ++ all_of (cw_wait w) (cw_events w))).
    { destruct ci_heap0 as (_ & HN & _). rewrite HA in HN. apply NoDup_app in HN as (_ & _ & HN). by apply NoDup_cons in HN as [? _]. }
    assert (HD : forall l, l ⊆ todo ++ all_of (cw_wait w) (cw_events w) -> forall b, b ∈ addrs l -> delete a (cw_heap w) !! b = cw_heap w !! b).
    { intros l Hl b Hb. apply lookup_delete_ne. intros <-. apply HN. apply addrs_elem in Hb as (c' & ? & ?). apply addrs_elem. exists c'. split; [by apply Hl|done]. }
    exists w1, (set_cw_user u w1). split; [done|]. split; [done|]. split; [exact EU|]. split; [done|]. split; [done|]. split; [|done].
    constructor; cbn [cw_user set_cw_user cw_heap cw_brk cw_wait cw_events w1 freed committed set_heap set_running set_current].
    + rewrite Hu1. done.
    + rewrite Hu2. cbn. by rewrite ci_log0, Hwi.
    + eapply keeps_list; [|exact HT]. apply HD. set_solver.
    + eapply keeps_all_heap; [|exact ci_kept0]. apply HD. set_solver.
    + exact Hfree.
    + exact Hu3.
Qed.

(** ** Notifications *)

Lemma notify_loop_ok todo : forall (w : W) t xs own pre rest, cache_inv w t todo xs own -> idle w -> cw_buf w = pre ++ todo ++ rest ->
  exists w', notify_loop (length todo) (zlen pre) w = (Ok tt, w') /\ cache_inv w' (fold_left tx_run xs t) [] [] own /\ idle w' /\
    cw_id_cnt w' = cw_id_cnt w.
Proof.
  induction todo as [|c todo IH]; intros w t xs own pre rest Hw Hi Hb.
  - pose proof (ci_todo _ _ _ _ _ Hw) as HT. apply Forall2_nil_inv_l in HT. subst xs. by exists w.
  - pose proof (ci_todo _ _ _ _ _ Hw) as HT. destruct xs as [|x xs]; [by apply Forall2_cons_nil_inv in HT|].
    destruct (client_step_ok w t c x todo xs own Hw Hi) as (w1 & w2 & E1 & B1 & E2 & B2 & N2 & Hw2 & Hi2).
    destruct (IH w2 (tx_run t x) xs own (pre ++ [c]) rest Hw2 Hi2) as (w3 & E3 & Hw3 & Hi3 & N3); [by rewrite B2, Hb, <- app_assoc|].
    exists w3. split; [|by rewrite N3, N2]. cbn [length notify_loop]. rewrite (bind_ok get _ _ _ _ eq_refl).
    assert (HZ : znth (cw_buf w) (zlen pre) = Some c).
    { rewrite Hb. cbn [app]. unfold znth. rewrite (proj2 (Z.leb_le _ _)) by apply zlen_nonneg. unfold zlen. by rewrite Nat2Z.id, list_lookup_middle. }
    rewrite HZ. cbn [of_option]. rewrite ret_bind, <- bind_assoc, (bind_ok _ _ _ _ _ E1), (bind_ok get _ _ _ _ eq_refl), B1, HZ. cbn [of_option].
    rewrite ret_bind, (bind_ok _ _ _ _ _ E2). rewrite zlen_app in E3. exact E3.
Qed.

Lemma event_loop_ok todo : forall (w : W) t xs own, cache_inv w t todo xs own -> idle w ->
  exists w', notify_event_loop todo w = (Ok tt, w') /\ cache_inv w' (fold_left tx_run xs t) [] [] own /\ idle w' /\ cw_id_cnt w' = cw_id_cnt w.
Proof.
  induction todo as [|c todo IH]; intros w t xs own Hw Hi.
  - pose proof (ci_todo _ _ _ _ _ Hw) as HT. apply Forall2_nil_inv_l in HT. subst xs. by exists w.
  - pose proof (ci_todo _ _ _ _ _ Hw) as HT. destruct xs as [|x xs]; [by apply Forall2_cons_nil_inv in HT|].
    destruct (client_step_ok w t c x todo xs own Hw Hi) as (w1 & w2 & E1 & _ & E2 & _ & N2 & Hw2 & Hi2).
    destruct (IH w2 (tx_run t x) xs own Hw2 Hi2) as (w3 & E3 & Hw3 & Hi3 & N3). exists w3. split; [|by rewrite N3, N2].
    cbn [notify_event_loop]. by rewrite <- bind_assoc, (bind_ok _ _ _ _ _ E1), (bind_ok _ _ _ _ _ E2).
Qed.

(** The list of a cache is taken off. *)
Lemma take_list_ok c (w w1 : W) t own : cache_inv w t [] [] own ->
  cw_user w1 = cw_user w -> cw_heap w1 = cw_heap w -> cw_brk w1 = cw_brk w -> cw_events w1 = cw_events w -> cw_wait w1 = <[c := []]> (cw_wait w) ->
  cache_inv w1 (t_set_wait c [] t) (default [] (cw_wait w !! c)) (t_waiting c t) own.
Proof.
  intros [] EU EH EB EE EW. pose proof (all_of_insert c [] (cw_wait w) (cw_events w)) as HP. rewrite app_nil_r in HP.
  assert (HP' : [] ++ all_of (cw_wait w) (cw_events w) ≡ₚ default [] (cw_wait w !! c) ++ all_of (cw_wait w1) (cw_events w))
    by (rewrite EW, <- HP; cbn; apply Permutation_app_comm).
  destruct ci_kept0 as [HW HE]. constructor; rewrite ?EU, ?EH, ?EB, ?EE; try done.
  - split; [|exact HE]. intros c'. rewrite t_waiting_set, EW. case_bool_decide as Hk; [subst c'; rewrite lookup_insert_eq; constructor|by rewrite lookup_insert_ne].
  - eapply heap_inv_perm; [exact HP'|exact ci_heap0].
  - intros ch. rewrite ci_locks0. apply locked_by_perm. exact HP'.
Qed.

(** The counter of identifiers: 0 is not one. *)
Definition ids_ok (w : W) (t : Txs) : Prop := 0 < t_next t /\ cw_id_cnt w = (if t_next t =? 1 then 0 else t_next t).

Lemma tx_run_next t x : t_next (tx_run t x) = t_next t.
Proof. unfold tx_run. by destruct (eval _ _). Qed.

Lemma fold_next xs : forall t, t_next (fold_left tx_run xs t) = t_next t.
Proof. induction xs as [|x xs IH]; intros t; [done|]. cbn. by rewrite IH, tx_run_next. Qed.

Lemma no_clients l xs heap : Forall2 (keeps_tx heap) l xs -> zlen l = 0 <-> xs = [].
Proof. intros HF. pose proof (Forall2_length _ _ _ HF). destruct l, xs; try done. Qed.

Lemma notify_ok c (w : W) t own : cache_inv w t [] [] own -> idle w -> ids_ok w t ->
  exists w', cache_notify c w = (Ok tt, w') /\ cache_inv w' (tx_op (Notify c) t) [] [] own /\ idle w' /\ ids_ok w' (tx_op (Notify c) t).
Proof.
  intros Hw Hi [Hn Hc]. unfold cache_notify. rewrite (bind_ok get _ _ _ _ eq_refl). set (l := default [] (cw_wait w !! c)).
  pose proof (no_clients l (t_waiting c t) _ (proj1 (ci_kept _ _ _ _ _ Hw) c)) as HE. cbn [tx_op]. destruct (Z.eqb_spec (zlen l) 0) as [Ez|Ez].
  { apply HE in Ez. rewrite Ez. by exists w. }
  set (w1 := set_cw_buf _ _). pose proof (take_list_ok c w w1 t own Hw eq_refl eq_refl eq_refl eq_refl eq_refl) as Hw1. fold l in Hw1.
  destruct (notify_loop_ok l w1 _ _ _ [] (zdrop (zlen l) (cw_buf w)) Hw1 Hi eq_refl) as (w2 & E2 & Hw2 & Hi2 & N2).
  exists w2. rewrite (bind_ok (put _) _ _ tt _ eq_refl). split; [exact E2|]. destruct (t_waiting c t) as [|x xs] eqn:ET; [tauto|].
  split; [exact Hw2|]. split; [done|]. unfold ids_ok. rewrite fold_next, N2. done.
Qed.

Lemma notify_later_ok c (w : W) t own : cache_inv w t [] [] own -> idle w -> ids_ok w t ->
  exists w', cache_notify_later c w = (Ok tt, w') /\ cache_inv w' (tx_op (NotifyLater c) t) [] [] own /\ idle w' /\ ids_ok w' (tx_op (NotifyLater c) t).
Proof.
  intros Hw Hi Hn. unfold cache_notify_later. rewrite (bind_ok get _ _ _ _ eq_refl). set (l := default [] (cw_wait w !! c)).
  pose proof (proj1 (ci_kept _ _ _ _ _ Hw) c) as HF. fold l in HF. pose proof (no_clients l (t_waiting c t) _ HF) as HE. cbn [tx_op]. destruct (Z.eqb_spec (zlen l) 0) as [Ez|Ez].
  { apply HE in Ez. rewrite Ez. by exists w. }
  eexists. split; [reflexivity|]. destruct (t_waiting c t) as [|x xs] eqn:ET; [tauto|]. split; [|done].
  pose proof (all_of_insert c [] (cw_wait w) (cw_events w)) as HP. rewrite app_nil_r in HP. fold l in HP. destruct Hw as [HVa HLo HTo [HW HEv] HHe HLk].
  assert (HP' : all_of (<[c := []]> (cw_wait w)) (cw_events w ++ [l]) ≡ₚ all_of (cw_wait w) (cw_events w)).
  { rewrite <- HP. unfold all_of. rewrite concat_app. cbn. rewrite app_nil_r. solve_Permutation. }
  constructor; try done; cbn [cw_user cw_heap cw_brk cw_wait cw_events set_cw_events set_lists].
  - split; [|apply Forall2_app; [exact HEv|by constructor]]. intros c'. unfold t_waiting. cbn [t_wait].
    destruct (decide (c = c')) as [<-|Hk]; [rewrite !lookup_insert_eq; constructor|rewrite !lookup_insert_ne by done; apply HW].
  - eapply heap_inv_perm; [symmetry; exact HP'|done].
  - intros ch. rewrite HLk. apply locked_by_perm. symmetry. exact HP'.
Qed.

Lemma event_ok (w : W) t own : cache_inv w t [] [] own -> idle w -> ids_ok w t ->
  exists w', cache_notify_event w = (Ok tt, w') /\ cache_inv w' (tx_op RunEvent t) [] [] own /\ idle w' /\ ids_ok w' (tx_op RunEvent t).
Proof.
  intros Hw Hi [Hn Hc]. unfold cache_notify_event. rewrite (bind_ok get _ _ _ _ eq_refl). pose proof Hw as []. destruct ci_kept0 as [HW HE]. cbn [tx_op].
  destruct (cw_events w) as [|buf ev] eqn:EE; [apply Forall2_nil_inv_l in HE; rewrite HE; by exists w|].
  destruct (t_events t) as [|xs evs] eqn:ET; [by apply Forall2_cons_nil_inv in HE|]. apply Forall2_cons in HE as [Hb HE].
  rewrite (bind_ok (put _) _ _ tt _ eq_refl).
  destruct (event_loop_ok buf (set_cw_events ev w) (Build_Txs (t_values t) (t_log t) (t_wait t) evs (t_next t)) xs own) as (w2 & E2 & Hw2 & Hi2 & N2);
    [|done|exists w2; split; [exact E2|]; split; [exact Hw2|]; split; [done|]; unfold ids_ok; rewrite fold_next, N2; done].
  assert (HP' : [] ++ all_of (cw_wait w) (buf :: ev) ≡ₚ buf ++ all_of (cw_wait w) ev) by (unfold all_of; cbn; solve_Permutation).
  constructor; cbn [cw_user cw_heap cw_brk cw_wait cw_events set_cw_events]; try done.
  - eapply heap_inv_perm; [exact HP'|done].
  - intros ch. rewrite ci_locks0. by apply locked_by_perm.
Qed.

(** ** Starting a transaction *)

Lemma heap_inv_free_own heap brk a own l : heap_inv heap brk (a :: own) l -> heap_inv (delete a heap) brk own l.
Proof.
  intros (HD & HN & HF). cbn in HN, HF. apply NoDup_cons in HN as [Ha HN]. apply Forall_cons in HF as [_ HF]. split; [|done]. intros b.
  destruct (decide (a = b)) as [<-|Hb]; [rewrite lookup_delete_eq; split; [by intros []|done]|].
  rewrite lookup_delete_ne by done. rewrite HD. set_solver.
Qed.

Lemma args_alloc_ok data (w : W) t own : cache_inv w t [] [] own ->
  cache_inv (set_heap (<[cw_brk w := data]> (cw_heap w)) (cw_brk w + 1) w) t [] [] (cw_brk w :: own).
Proof.
  intros []. constructor; cbn [cw_user cw_heap cw_brk cw_wait cw_events set_heap]; try done.
  - eapply keeps_all_heap; [|exact ci_kept0]. intros a Ha. apply lookup_insert_ne. intros <-.
    destruct ci_heap0 as (_ & _ & HF). rewrite Forall_forall in HF. specialize (HF (cw_brk w)). assert (cw_brk w < cw_brk w); [|lia]. apply HF. set_solver.
  - by apply heap_inv_alloc.
Qed.

Lemma free_own_ok a (w : W) t own : cache_inv w t [] [] (a :: own) ->
  loc_free_args (Some a) w = (Ok tt, set_heap (delete a (cw_heap w)) (cw_brk w) w) /\
  cache_inv (set_heap (delete a (cw_heap w)) (cw_brk w) w) t [] [] own.
Proof.
  intros []. split; [apply args_free_ok, ci_heap0; set_solver|]. constructor; cbn [cw_user cw_heap cw_brk cw_wait cw_events set_heap]; try done.
  - eapply keeps_all_heap; [|exact ci_kept0]. intros b Hb. apply lookup_delete_ne. intros <-.
    destruct ci_heap0 as (_ & HN & _). cbn in HN. apply NoDup_cons in HN as [HN _]. set_solver.
  - by apply heap_inv_free_own.
Qed.

(** A client that runs for the first time, with arguments at [a]. *)
Lemma start_ok (w : W) t own a id cl ch data : cache_inv w t [] [] (a :: own) -> cw_heap w !! a = Some data -> id <> 0 ->
  let cur := Build_WaitingCacheClient id (Some cl) ch (Some a) (zlen data) false in
  exists w', run_cache_client false (set_current cur w) = (Ok tt, w') /\ cache_inv w' (tx_run t (Build_Tx id cl ch data)) [] [] (a :: own) /\
    idle w' /\ cw_id_cnt w' = cw_id_cnt w.
Proof.
  intros Hw Hh Hid cur. rewrite (client_run_ok false (set_current cur w) cur a cl data); try done. unfold after_run, tx_run. cbn [tx_client tx_data tx_id].
  change (d_values (cw_user (set_current cur w))) with (d_values (cw_user w)). rewrite (ci_values _ _ _ _ _ Hw).
  destruct (eval (t_values t) (prog cl data)) as [k|e]; (eexists; split; [reflexivity|]; split; [|done]).
  2: { destruct Hw. constructor; try done. cbn. by rewrite ci_log0. }
  pose proof (args_alloc_ok data w t (a :: own) Hw) as Hw1. set (c := Build_WaitingCacheClient id (Some cl) ch (Some (cw_brk w)) (zlen data) true).
  destruct Hw1 as [HVa HLo _ HK HHe HLk]. destruct (lock_user_ok c _ _ HLk) as (Hv & Hl & Hlk).
  pose proof (all_of_add k c (cw_wait w) (cw_events w)) as HP.
  constructor; cbn [copied cur wc_args_copy stalled cw_user cw_heap cw_brk cw_wait cw_events set_heap set_current set_running set_lists set_cw_user wc_channel]; try done.
  - etransitivity; [exact Hv|exact HVa].
  - etransitivity; [exact Hl|exact HLo].
  - apply (keeps_all_add _ _ _ _ _ c); [exact HK|]. exists (cw_brk w). split; [done|]. cbn. by rewrite lookup_insert_eq.
  - eapply heap_inv_give; [exact HHe|]. cbn [app]. unfold addrs. exact (omap_Permutation wc_args _ _ HP).
  - intros ch'. etransitivity; [apply Hlk|]. apply locked_by_perm. symmetry. exact HP.
Qed.

Lemma enter_ok cl ch data (w : W) t own : cache_inv w t [] [] own -> idle w -> ids_ok w t -> t_next t + 1 < 2 ^ 32 ->
  exists w', run_op (Enter cl ch data) w = (Ok tt, w') /\ cache_inv w' (tx_op (Enter cl ch data) t) [] [] own /\ idle w' /\
    ids_ok w' (tx_op (Enter cl ch data) t).
Proof.
  intros Hw (Hc & Hca & Hm & Hdef) [Hn Hid] Hb. cbn [run_op tx_op].
  assert (EA : loc_alloc_copy data w = (Ok (cw_brk w), set_heap (<[cw_brk w := data]> (cw_heap w)) (cw_brk w + 1) w)) by done.
  rewrite (bind_ok _ _ _ _ _ EA). pose proof (args_alloc_ok data w t own Hw) as Hw1. set (w1 := set_heap _ _ w) in *.
  set (t1 := Build_Txs (t_values t) (t_log t) (t_wait t) (t_events t) (t_next t + 1)).
  assert (Hw2 : cache_inv (set_id_cnt (t_next t + 1) w1) t1 [] [] (cw_brk w :: own)) by (by destruct Hw1).
  destruct (start_ok _ t1 own (cw_brk w) (t_next t) cl ch data Hw2) as (w3 & E3 & Hw3 & Hi3 & N3); [cbn; by rewrite lookup_insert_eq|lia|].
  destruct (free_own_ok _ _ _ _ Hw3) as (E4 & Hw4). eexists. split; [|split; [exact Hw4|split; [exact Hi3|]]].
  - assert (EC : cache_enter cl ch (Some (cw_brk w)) (zlen data) w1 = (Ok tt, w3)); [|by rewrite (bind_ok _ _ _ _ _ EC)].
    rewrite <- E3. unfold cache_enter. rewrite (bind_ok get _ _ _ _ eq_refl). cbn [w1 cw_current set_heap cw_id_cnt]. rewrite Hc.
    change (wc_id no_client =? 0) with true. change (bool_decide (wc_client no_client = None)) with true. cbn [assertm]. rewrite !ret_bind, Hid.
    destruct (Z.eqb_spec (t_next t) 1) as [E1|E1].
    + rewrite E1. reflexivity.
    + replace (t_next t =? 0) with false by lia. rewrite wrapu_small by lia. reflexivity.
  - split; rewrite tx_run_next; cbn; [lia|]. rewrite N3. cbn. by replace (t_next t + 1 =? 1) with false by lia.
Qed.

(** ** Any sequence of operations *)

Definition is_enter (op : cache_op) : bool := match op with Enter _ _ _ => true | _ => false end.
Definition enters (ops : list cache_op) : Z := zlen (filter is_enter ops).

Lemma tx_op_next op t : t_next (tx_op op t) = t_next t + b2z (is_enter op).
Proof.
  destruct op as [cl ch data|c v|c|c|c|]; cbn [tx_op is_enter b2z]; try (cbn; lia).
  - by rewrite tx_run_next.
  - destruct (t_waiting c t); [lia|]. rewrite fold_next. cbn. lia.
  - destruct (t_waiting c t); cbn; lia.
  - destruct (t_events t); [lia|]. rewrite fold_next. cbn. lia.
Qed.

Lemma op_ok op (w : W) t own : cache_inv w t [] [] own -> idle w -> ids_ok w t -> t_next t + b2z (is_enter op) < 2 ^ 32 ->
  exists w', run_op op w = (Ok tt, w') /\ cache_inv w' (tx_op op t) [] [] own /\ idle w' /\ ids_ok w' (tx_op op t).
Proof.
  intros Hw Hi Hn Hb. destruct op as [cl ch data|c v|c|c|c|].
  - by apply enter_ok.
  - destruct Hw. eexists. split; [reflexivity|]. split; [|done]. constructor; try done. cbn. by rewrite ci_values0.
  - destruct Hw. eexists. split; [reflexivity|]. split; [|done]. constructor; try done. cbn. by rewrite ci_values0.
  - by apply notify_ok.
  - by apply notify_later_ok.
  - by apply event_ok.
Qed.

Lemma enters_cons op ops : enters (op :: ops) = b2z (is_enter op) + enters ops.
Proof. unfold enters. rewrite filter_cons. case_decide as Hd; destruct (is_enter op); try done; rewrite ?zlen_cons; cbn [b2z]; lia. Qed.

Lemma ops_ok ops : forall (w : W) t own, cache_inv w t [] [] own -> idle w -> ids_ok w t -> t_next t + enters ops < 2 ^ 32 ->
  exists w', run_ops ops w = (Ok tt, w') /\ cache_inv w' (tx_ops ops t) [] [] own /\ idle w' /\ ids_ok w' (tx_ops ops t).
Proof.
  induction ops as [|op ops IH]; intros w t own Hw Hi Hn Hb; [by exists w|]. rewrite enters_cons in Hb.
  assert (HE : 0 <= enters ops) by apply zlen_nonneg.
  destruct (op_ok op w t own Hw Hi Hn ltac:(lia)) as (w1 & E1 & Hw1 & Hi1 & Hn1).
  destruct (IH w1 (tx_op op t) own Hw1 Hi1 Hn1) as (w2 & E2 & Hw2 & Hi2 & Hn2); [rewrite tx_op_next; lia|].
  exists w2. split; [|done]. cbn [run_ops]. by rewrite (bind_ok _ _ _ _ _ E1).
Qed.

(** The caches before any transaction. *)
Definition cache_initial (vals : gmap Z V) : W := cache_start (Build_Data vals [] ∅).

Lemma initial_ok vals : cache_inv (cache_initial vals) (tx_start vals) [] [] [] /\ idle (cache_initial vals) /\ ids_ok (cache_initial vals) (tx_start vals).
Proof.
  assert (HN : all_of (∅ : gmap Z (list WaitingCacheClient)) [] = []) by (unfold all_of; by rewrite map_to_list_empty).
  split; [|done]. constructor; try done. unfold heap_inv. cbn. rewrite HN. split; [|split; constructor].
  intros a. cbn. rewrite lookup_empty. split; [by intros []|set_solver].
Qed.

(** ** Transactions happen once *)

Definition t_pending (t : Txs) : list Tx := all_of (t_wait t) (t_events t).

Lemma tx_pending_add k x t : t_pending (t_set_wait k (t_waiting k t ++ [x]) t) ≡ₚ x :: t_pending t.
Proof.
  unfold t_pending, t_set_wait. cbn. pose proof (all_of_insert k (t_waiting k t ++ [x]) (t_wait t) (t_events t)) as HP.
  apply (Permutation_app_inv_r (t_waiting k t)). unfold t_waiting in *. rewrite HP. solve_Permutation.
Qed.

(** Every transaction is either done or waiting. *)
Definition t_ids (t : Txs) : list Z := (t_log t).*1 ++ (tx_id <$> t_pending t).

Lemma tx_run_ids t x : t_ids (tx_run t x) ≡ₚ tx_id x :: t_ids t.
Proof.
  unfold tx_run, t_ids. destruct (eval _ _) as [k|e].
  - rewrite tx_pending_add. cbn. solve_Permutation.
  - cbn. rewrite fmap_app. cbn. unfold t_pending. cbn. solve_Permutation.
Qed.

Lemma fold_ids xs : forall t, t_ids (fold_left tx_run xs t) ≡ₚ (tx_id <$> xs) ++ t_ids t.
Proof.
  induction xs as [|x xs IH]; intros t; [done|]. cbn [fold_left]. rewrite IH, tx_run_ids. cbn. solve_Permutation.
Qed.

Lemma take_ids c t : (tx_id <$> t_waiting c t) ++ t_ids (t_set_wait c [] t) ≡ₚ t_ids t.
Proof.
  pose proof (all_of_insert c [] (t_wait t) (t_events t)) as HP. rewrite app_nil_r in HP. unfold t_ids, t_pending, t_set_wait, t_waiting. cbn.
  rewrite <- HP, fmap_app. solve_Permutation.
Qed.

Lemma tx_op_ids op t : t_ids (tx_op op t) ≡ₚ (if is_enter op then [t_next t] else []) ++ t_ids t.
Proof.
  destruct op as [cl ch data|c v|c|c|c|]; cbn [tx_op is_enter]; try done.
  - by rewrite tx_run_ids.
  - destruct (t_waiting c t) as [|x xs] eqn:E1; [done|]. rewrite fold_ids, <- E1. by rewrite take_ids.
  - destruct (t_waiting c t) as [|x xs] eqn:E1; [done|]. rewrite <- (take_ids c t), E1. unfold t_ids, t_pending, all_of, t_set_wait. cbn [t_log t_wait t_events].
    rewrite concat_app. cbn. rewrite app_nil_r, !fmap_app. cbn. solve_Permutation.
  - destruct (t_events t) as [|xs ev] eqn:E1; [done|]. rewrite fold_ids. unfold t_ids, t_pending, all_of. rewrite E1. cbn. rewrite !fmap_app. solve_Permutation.
Qed.

Lemma tx_ops_ids ops : forall t, t_ids (tx_ops ops t) ≡ₚ seqZ (t_next t) (enters ops) ++ t_ids t.
Proof.
  induction ops as [|op ops IH]; intros t; [done|]. unfold tx_ops. cbn [fold_left]. change (fold_left _ ops ?x) with (tx_ops ops x). rewrite IH, tx_op_ids, tx_op_next, enters_cons.
  assert (HE : 0 <= enters ops) by apply zlen_nonneg. destruct (is_enter op); cbn [b2z].
  - rewrite (seqZ_cons (t_next t)) by lia. replace (Z.pred (1 + enters ops)) with (enters ops) by lia. replace (Z.succ (t_next t)) with (t_next t + 1) by lia. solve_Permutation.
  - rewrite !Z.add_0_r, Z.add_0_l. done.
Qed.

(** A datum that is there stops nobody. *)
Lemma eval_filled vals r c : eval vals r = inl c -> vals !! c = None.
Proof. induction r as [c' k IH|e]; cbn; [|done]. destruct (vals !! c') as [v|] eqn:EV; [apply IH|by intros [= <-]]. Qed.

Lemma fold_filled c xs : forall t, is_Some (t_values t !! c) -> t_waiting c t = [] -> t_waiting c (fold_left tx_run xs t) = [].
Proof.
  induction xs as [|x xs IH]; intros t Hc Hw; [done|]. cbn [fold_left]. apply IH.
  - unfold tx_run. by destruct (eval _ _).
  - unfold tx_run. destruct (eval _ _) as [k|e] eqn:EE; [|done]. rewrite t_waiting_set. case_bool_decide as Hk; [|done]. subst k.
    apply eval_filled in EE. rewrite EE in Hc. by destruct Hc.
Qed.

Lemma tx_notify_filled c t : is_Some (t_values t !! c) -> t_waiting c (tx_op (Notify c) t) = [].
Proof.
  intros Hc. cbn [tx_op]. destruct (t_waiting c t) as [|x xs] eqn:E1; [done|]. apply fold_filled; [done|]. by rewrite t_waiting_set, bool_decide_eq_true_2.
Qed.

Lemma keeps_ids heap l xs : Forall2 (keeps_tx heap) l xs -> wc_id <$> l = tx_id <$> xs.
Proof. induction 1 as [|c x l xs (a & -> & _) _ IH]; [done|]. cbn. by rewrite IH. Qed.
End spec.





(** ** Notifications inside of notifications

    All notifications share one static buffer.  Here client 1, when it has got its
    data from cache 1, notifies cache 2: client 2, which waits for cache 1 as well,
    never runs again, and client 4 runs twice. *)

Section nested.
#[local] Instance quiet_listeners : CacheListeners (bool * list Z) := [].

Definition nested_client (notify : M (CacheWorld (bool * list Z)) unit) (client : Z) : M (CacheWorld (bool * list Z)) unit :=
  w ← get;
  let filled : bool := fst (cw_user w) in
  if filled then
    cache_exit ;;
    on_user (modify (fun u => (fst u, snd u ++ [client]))) ;;
    (if client =? 1 then notify else mret tt)
  else cache_wait (if client <=? 2 then 1 else 2).

Fixpoint nested_env (n : nat) : CacheEnv (bool * list Z) := {|
  cache_client client _ := nested_client (match n with O => undef | S n => @cache_notify _ _ (nested_env n) 2 end) client;
  cache_channel_lock _ := mret tt;
  cache_channel_unlock _ := mret tt;
  cache_error_code _ e := e;
|}.

Definition nested_run : M (CacheWorld (bool * list Z)) unit :=
  let enter c := @cache_enter _ _ (nested_env 3) c None None 0 in
  enter 1 ;; enter 2 ;; enter 3 ;; enter 4 ;;
  on_user (modify (fun u => (true, snd u))) ;;
  @cache_notify _ _ (nested_env 3) 1.

Example nested_notification_loses_client :
  let '(r, w) := nested_run (cache_start (false, [])) in r = Ok tt /\ snd (cw_user w) = [1; 3; 4; 4].
Proof. vm_compute. split; reflexivity. Qed.
End nested.
