(* ===== verification/SigSets.v ===== *)
(** * Signal sets (sigsets.c)

    A set of signal numbers is a sorted array that grows on demand
    ([ENABLE_UnlimitedSignals]), or one machine word.  [SigSetOps] are the
    operations of [sigsets.h], [SigSetSpec] says that they implement a finite set
    of numbers; both representations are instances, so they cannot be told apart
    on the numbers that the word can hold. *)

From stdpp Require Import sorting gmap.
From S2P Require Import Prelude.

(** ** The sorted array *)

Record SigSet := {
  ss_cnt : Z;
  ss_max : Z;
  ss_buf : list Z;
}.

(** The binary search, on [unsigned]. *)
Fixpoint search_loop (fuel : nat) (buf : list Z) (bit l h : Z) : option Z :=
  match fuel with
  | O => None
  | S fuel =>
      if l <? h then
        let k := u32 (l + h) / 2 in
        x ← znth buf k;
        if bit <? x then search_loop fuel buf bit l k
        else if x <? bit then search_loop fuel buf bit (u32 (k + 1)) h
        else Some k
      else Some l
  end.

Definition search (bit : Z) : M SigSet Z :=
  set ← get;
  of_option (search_loop (S (Z.to_nat (ss_cnt set))) (ss_buf set) bit 0 (ss_cnt set)).

Definition sigset_is_empty : M SigSet bool :=
  set ← get; mret (ss_cnt set =? 0).

Definition sigset_get (bit : Z) : M SigSet bool :=
  n ← search bit;
  set ← get;
  if n <? ss_cnt set then x ← of_option (znth (ss_buf set) n); mret (x =? bit)
  else mret false.

(** [None] when it returns 0; otherwise the new value of the bit. *)
Definition sigset_get_next (bit : Z) : M SigSet (option Z) :=
  n ← search (u32 (bit + 1));
  set ← get;
  if ss_cnt set <=? n then mret None
  else x ← of_option (znth (ss_buf set) n); mret (Some x).

(** [max += 8]; what [loc_realloc] leaves in the new cells is never read. *)
Definition sigset_grow : M SigSet unit :=
  set ← get;
  if ss_max set <=? ss_cnt set then
    let max := u32 (ss_max set + 8) in
    put {| ss_cnt := ss_cnt set; ss_max := max;
           ss_buf := ztake max (ss_buf set ++ replicate (Z.to_nat (max - zlen (ss_buf set))) 0) |}
  else mret tt.

(** [memmove] of [n] cells from [src] to [dst] of the same array. *)
Definition cells_move (buf : list Z) (dst src n : Z) : option (list Z) :=
  d ← mem_read buf src n; mem_write buf dst d.

Definition sigset_set (bit : Z) (value : bool) : M SigSet unit :=
  n ← search bit;
  set ← get;
  assertm ((0 <? bit) || ((bit =? 0) && negb value)) ;;
  assertm (n <=? ss_cnt set) ;;
  if value then
    x ← (if n <? ss_cnt set then of_option (Some <$> znth (ss_buf set) n) else mret None);
    if bool_decide (x = Some bit) then mret tt
    else
      sigset_grow ;;
      set ← get;
      buf ← of_option (cells_move (ss_buf set) (n + 1) n (ss_cnt set - n));
      buf ← of_option (mem_write buf n [bit]);
      put {| ss_cnt := u32 (ss_cnt set + 1); ss_max := ss_max set; ss_buf := buf |}
  else
    x ← (if ss_cnt set <=? n then mret None else of_option (Some <$> znth (ss_buf set) n));
    if negb (bool_decide (x = Some bit)) then mret tt
    else
      buf ← of_option (cells_move (ss_buf set) n (n + 1) (ss_cnt set - n - 1));
      put {| ss_cnt := u32 (ss_cnt set - 1); ss_max := ss_max set; ss_buf := buf |}.

(** The new value of [dst]; [loc_alloc] of no cells is left out. *)
Definition sigset_copy (src : SigSet) : option SigSet :=
  if 0 <? ss_cnt src then
    d ← mem_read (ss_buf src) 0 (ss_cnt src);
    Some {| ss_cnt := ss_cnt src; ss_max := ss_cnt src; ss_buf := d |}
  else Some {| ss_cnt := ss_cnt src; ss_max := ss_cnt src; ss_buf := [] |}.

Definition sigset_clear : M SigSet unit :=
  put {| ss_cnt := 0; ss_max := 0; ss_buf := [] |}.

(** ** The machine word *)

Definition word_is_empty : M Z bool := set ← get; mret (set =? 0).

Definition word_get (bit : Z) : M Z bool :=
  assertm (bit <? 32) ;;
  set ← get; mret (negb (Z.land set (Z.shiftl 1 bit) =? 0)).

Fixpoint word_get_next_loop (fuel : nat) (bit : Z) : M Z (option Z) :=
  match fuel with
  | O => nofuel
  | S fuel =>
      if bit <? 32 then
        set ← get;
        if (0 <? bit) && negb (Z.land set (Z.shiftl 1 bit) =? 0) then mret (Some bit)
        else word_get_next_loop fuel (u32 (bit + 1))
      else mret None
  end.

Definition word_get_next (bit : Z) : M Z (option Z) :=
  word_get_next_loop 33 (u32 (bit + 1)).

Definition word_set (bit : Z) (value : bool) : M Z unit :=
  assertm (((0 <? bit) && (bit <? 32)) || ((bit =? 0) && negb value)) ;;
  if value then modify (fun set => Z.lor set (Z.shiftl 1 bit))
  else modify (fun set => Z.land set (u64 (Z.lnot (Z.shiftl 1 bit)))).

Definition word_copy (src : Z) : option Z := Some src.

Definition word_clear : M Z unit := put 0.

(** ** The interface *)

(** [sig_empty] is a set filled with zeros, [sig_bits] the numbers that can be
    members. *)
Class SigSetOps (St : Type) := {
  sig_empty : St;
  sig_bits : Z;
  sig_is_empty : M St bool;
  sig_get : Z -> M St bool;
  sig_get_next : Z -> M St (option Z);
  sig_set : Z -> bool -> M St unit;
  sig_copy : St -> option St;
  sig_clear : M St unit;
}.

#[export] Instance array_ops : SigSetOps SigSet := {
  sig_empty := {| ss_cnt := 0; ss_max := 0; ss_buf := [] |};
  sig_bits := 2 ^ 32;
  sig_is_empty := sigset_is_empty;
  sig_get := sigset_get;
  sig_get_next := sigset_get_next;
  sig_set := sigset_set;
  sig_copy := sigset_copy;
  sig_clear := sigset_clear;
}.

#[export] Instance word_ops : SigSetOps Z := {
  sig_empty := 0;
  sig_bits := 32;
  sig_is_empty := word_is_empty;
  sig_get := word_get;
  sig_get_next := word_get_next;
  sig_set := word_set;
  sig_copy := word_copy;
  sig_clear := word_clear;
}.

(** [x] is the first member after [bit]; after the last [unsigned] comes 0. *)
Definition next_member (X : gset Z) (bit : Z) (r : option Z) : Prop :=
  match r with
  | Some x => x ∈ X /\ u32 (bit + 1) <= x /\ forall y, y ∈ X -> u32 (bit + 1) <= y -> x <= y
  | None => forall y, y ∈ X -> y < u32 (bit + 1)
  end.

Definition update_set (bit : Z) (value : bool) (X : gset Z) : gset Z :=
  if value then {[ bit ]} ∪ X else X ∖ {[ bit ]}.

(** [sig_rel n s X]: [s] holds the members of [X], and has been through [n]
    changes. *)
Class SigSetSpec (St : Type) `{SigSetOps St} := {
  sig_rel : nat -> St -> gset Z -> Prop;
  sig_rel_more n s X : sig_rel n s X -> sig_rel (S n) s X;
  sig_members n s X x : sig_rel n s X -> x ∈ X -> 0 < x < sig_bits;
  sig_empty_ok n : sig_rel n sig_empty ∅;
  sig_is_empty_ok n s X : sig_rel n s X -> sig_is_empty s = (Ok (bool_decide (X = ∅)), s);
  sig_get_ok n s X bit : sig_rel n s X -> 0 <= bit < sig_bits ->
    sig_get bit s = (Ok (bool_decide (bit ∈ X)), s);
  sig_get_next_ok n s X bit : sig_rel n s X -> 0 <= bit < 2 ^ 32 ->
    exists r, sig_get_next bit s = (Ok r, s) /\ next_member X bit r;
  sig_set_ok n s X bit value : sig_rel n s X -> Z.of_nat n < 2 ^ 31 -> 0 <= bit < sig_bits ->
    (bit = 0 -> value = false) ->
    exists s', sig_set bit value s = (Ok tt, s') /\ sig_rel (S n) s' (update_set bit value X);
  sig_copy_ok n s X : sig_rel n s X -> exists s', sig_copy s = Some s' /\ sig_rel n s' X;
  sig_clear_ok n s X : sig_rel n s X -> exists s', sig_clear s = (Ok tt, s') /\ sig_rel n s' ∅;
}.

(** ** The array implements the interface *)

Definition members (s : SigSet) : list Z := ztake (ss_cnt s) (ss_buf s).

Record array_rel (n : nat) (s : SigSet) (X : gset Z) : Prop := {
  ar_len : zlen (ss_buf s) = ss_max s;
  ar_cnt : 0 <= ss_cnt s <= ss_max s;
  ar_bound : ss_cnt s <= Z.of_nat n /\ ss_max s <= Z.of_nat n + 8;
  ar_fit : ss_max s <= 2 ^ 31 + 8 /\ ss_cnt s <= 2 ^ 31;
  ar_sorted : StronglySorted Z.lt (members s);
  ar_members : forall x, x ∈ X <-> x ∈ members s;
  ar_range : Forall (fun x => 0 < x < 2 ^ 32) (members s);
}.

Lemma zlen_members n s X : array_rel n s X -> zlen (members s) = ss_cnt s.
Proof. intros []. apply zlen_ztake. lia. Qed.

Lemma znth_ztake {A} (l : list A) n i : 0 <= i < n -> znth (ztake n l) i = znth l i.
Proof.
  intros Hi. unfold znth, ztake. rewrite (proj2 (Z.leb_le _ _)) by lia.
  rewrite lookup_take. case_decide; [done|lia].
Qed.

Lemma znth_elem {A} (l : list A) i x : znth l i = Some x -> x ∈ l.
Proof. unfold znth. destruct (0 <=? i); [|done]. apply list_elem_of_lookup_2. Qed.

Lemma znth_range {A} (l : list A) i x : znth l i = Some x -> 0 <= i < zlen l.
Proof. unfold znth, zlen. destruct (Z.leb_spec 0 i); [|done]. intros Hl%lookup_lt_Some. lia. Qed.

Lemma elem_znth {A} (l : list A) x : x ∈ l -> exists i, 0 <= i < zlen l /\ znth l i = Some x.
Proof.
  intros [i Hi]%list_elem_of_lookup_1. exists (Z.of_nat i). pose proof (lookup_lt_Some _ _ _ Hi).
  unfold znth, zlen. rewrite (proj2 (Z.leb_le _ _)), Nat2Z.id by lia. split; [lia|done].
Qed.

Lemma sorted_lt l i j x y : StronglySorted Z.lt l -> znth l i = Some x -> znth l j = Some y -> i < j -> x < y.
Proof.
  unfold znth. destruct (Z.leb_spec 0 i); [|done]. destruct (Z.leb_spec 0 j); [|done].
  intros Hs Hx Hy Hij. rewrite <- (take_drop_middle l (Z.to_nat i) x Hx) in Hs, Hy.
  apply StronglySorted_app_1_r in Hs. apply StronglySorted_cons in Hs as [Hs _].
  pose proof (lookup_lt_Some _ _ _ Hx). rewrite lookup_app_r, length_take in Hy by (rewrite length_take; lia).
  replace (Z.to_nat j - _)%nat with (S (Z.to_nat j - Z.to_nat i - 1)) in Hy by lia. cbn in Hy.
  rewrite Forall_forall in Hs. apply Hs. by eapply list_elem_of_lookup_2.
Qed.

(** The position [n] of [bit]: smaller members are before it, the others not. *)
Definition position (l : list Z) (bit n : Z) : Prop :=
  0 <= n <= zlen l /\ (forall i x, znth l i = Some x -> i < n -> x < bit) /\
  (forall i x, znth l i = Some x -> n <= i -> bit <= x).

Lemma search_loop_ok buf bit c fuel : forall l h, StronglySorted Z.lt (ztake c buf) ->
  0 <= l <= h -> h <= c -> c <= zlen buf -> c <= 2 ^ 31 -> h - l < Z.of_nat fuel ->
  (forall i x, znth (ztake c buf) i = Some x -> i < l -> x < bit) ->
  (forall i x, znth (ztake c buf) i = Some x -> h <= i -> bit <= x) ->
  exists n, search_loop fuel buf bit l h = Some n /\ position (ztake c buf) bit n.
Proof.
  induction fuel as [|fuel IH]; intros l h Hs Hl Hh Hc H31 Hf Hlo Hhi; [lia|]. cbn [search_loop].
  assert (Hz : zlen (ztake c buf) = c) by (apply zlen_ztake; lia).
  destruct (Z.ltb_spec l h) as [Hlt|Hge].
  - assert (Ek : u32 (l + h) = l + h) by (apply wrapu_small; lia). rewrite Ek. set (k := (l + h) / 2).
    assert (Hk : l <= k < h) by (subst k; dlia).
    assert (E1 : u32 (k + 1) = k + 1) by (apply wrapu_small; lia).
    destruct (znth_Some (ztake c buf) k) as [x Ex]; [lia|]. pose proof Ex as Ex'. rewrite znth_ztake in Ex' by lia.
    rewrite Ex'. cbn. destruct (Z.ltb_spec bit x); [|destruct (Z.ltb_spec x bit)].
    + apply IH; auto; try lia. intros i y Ey Hi. destruct (decide (i = k)) as [->|Hne]; [congruence || (rewrite Ex in Ey; injection Ey as ->; lia)|].
      pose proof (sorted_lt _ _ _ _ _ Hs Ex Ey). lia.
    + rewrite E1. apply IH; auto; try lia. intros i y Ey Hi. destruct (decide (i = k)) as [->|Hne].
      { rewrite Ex in Ey. injection Ey as ->. lia. }
      pose proof (sorted_lt _ _ _ _ _ Hs Ey Ex). lia.
    + exists k. split; [done|]. split; [lia|]. split; intros i y Ey Hi.
      * pose proof (sorted_lt _ _ _ _ _ Hs Ey Ex). lia.
      * destruct (decide (i = k)) as [->|Hne]; [rewrite Ex in Ey; injection Ey as ->; lia|].
        pose proof (sorted_lt _ _ _ _ _ Hs Ex Ey). lia.
  - exists l. split; [done|]. split; [lia|]. split; [done|]. intros i x Ex Hi. apply (Hhi i); [done|lia].
Qed.

Lemma search_ok n s X bit : array_rel n s X ->
  exists k, search bit s = (Ok k, s) /\ position (members s) bit k.
Proof.
  intros HR. pose proof (zlen_members _ _ _ HR) as Hz. destruct HR. unfold search.
  rewrite (bind_ok get _ s s s eq_refl).
  destruct (search_loop_ok (ss_buf s) bit (ss_cnt s) (S (Z.to_nat (ss_cnt s))) 0 (ss_cnt s)) as (k & E & Hk);
    try done; try lia.
  - intros i x Ex Hi. unfold znth in Ex. destruct (Z.leb_spec 0 i); [lia|done].
  - intros i x Ex Hi. unfold znth in Ex. destruct (Z.leb_spec 0 i); [|done]. apply lookup_lt_Some in Ex.
    fold (members s) in *. unfold zlen in Hz. lia.
  - exists k. by rewrite E.
Qed.

(** Where a member is. *)
Lemma position_elem l bit k : StronglySorted Z.lt l -> position l bit k -> bit ∈ l <-> znth l k = Some bit.
Proof.
  intros Hs (Hk & Hlo & Hhi). split; [|apply znth_elem]. intros (i & Hi & Ei)%elem_znth.
  destruct (decide (i < k)) as [Hlt|Hge]; [specialize (Hlo i bit Ei Hlt); lia|].
  destruct (decide (i = k)) as [<-|Hne]; [done|]. destruct (znth_Some l k) as [x Ex]; [lia|].
  specialize (Hhi k x Ex ltac:(lia)). pose proof (sorted_lt _ _ _ _ _ Hs Ex Ei). lia.
Qed.

Lemma position_before l bit k x : position l bit k -> x ∈ ztake k l -> x < bit.
Proof.
  intros (Hk & Hlo & _) (i & Hi & Ei)%elem_znth. rewrite zlen_ztake in Hi by lia.
  rewrite znth_ztake in Ei by lia. apply (Hlo i); [done|lia].
Qed.

Lemma position_after l bit k x : position l bit k -> x ∈ zdrop k l -> bit <= x.
Proof.
  intros (Hk & _ & Hhi) (i & Hi & Ei)%elem_znth. apply (Hhi (k + i)); [|lia].
  revert Ei. unfold znth, zdrop. rewrite !(proj2 (Z.leb_le _ _)) by lia.
  rewrite lookup_drop. by rewrite Z2Nat.inj_add by lia.
Qed.

Lemma array_get_ok n s X bit : array_rel n s X -> sigset_get bit s = (Ok (bool_decide (bit ∈ X)), s).
Proof.
  intros HR. destruct (search_ok n s X bit HR) as (k & E & Hk). pose proof (zlen_members _ _ _ HR) as Hz.
  pose proof (position_elem _ _ _ (ar_sorted _ _ _ HR) Hk) as HE. rewrite <- (ar_members _ _ _ HR) in HE.
  unfold sigset_get. rewrite (bind_ok _ _ _ _ _ E), (bind_ok get _ s s s eq_refl).
  pose proof Hk as (Hr & _). destruct (Z.ltb_spec k (ss_cnt s)) as [Hlt|Hge].
  - destruct (znth_Some (members s) k) as [x Ex]; [lia|]. pose proof Ex as Ex'. unfold members in Ex'.
    rewrite znth_ztake in Ex' by lia. rewrite Ex'. cbn [of_option]. rewrite ret_bind. unfold mret, M_ret. do 2 f_equal.
    case_bool_decide as Hb; [apply HE in Hb; rewrite Ex in Hb; injection Hb as ->; apply Z.eqb_refl|].
    apply Z.eqb_neq. intros ->. by apply Hb, HE.
  - rewrite bool_decide_eq_false_2; [done|]. intros Hb%HE%znth_range. lia.
Qed.

Lemma array_next_ok n s X bit : array_rel n s X ->
  exists r, sigset_get_next bit s = (Ok r, s) /\ next_member X bit r.
Proof.
  intros HR. destruct (search_ok n s X (u32 (bit + 1)) HR) as (k & E & Hk).
  pose proof (zlen_members _ _ _ HR) as Hz. pose proof Hk as (Hr & Hlo & Hhi).
  unfold sigset_get_next. rewrite (bind_ok _ _ _ _ _ E), (bind_ok get _ s s s eq_refl).
  destruct (Z.leb_spec (ss_cnt s) k) as [Hge|Hlt].
  - exists None. split; [done|]. intros y (i & Hi & Ei)%(ar_members _ _ _ HR)%elem_znth. apply (Hlo i); [done|lia].
  - destruct (znth_Some (members s) k) as [x Ex]; [lia|]. pose proof Ex as Ex'. unfold members in Ex'.
    rewrite znth_ztake in Ex' by lia. rewrite Ex'. exists (Some x). split; [done|].
    split; [by eapply (ar_members _ _ _ HR), znth_elem|]. split; [apply (Hhi k); [done|lia]|].
    intros y (i & Hi & Ei)%(ar_members _ _ _ HR)%elem_znth Hy.
    destruct (decide (i < k)) as [Hik|Hik]; [specialize (Hlo i y Ei Hik); lia|].
    destruct (decide (i = k)) as [->|Hne]; [rewrite Ex in Ei; injection Ei as ->; lia|].
    pose proof (sorted_lt _ _ _ _ _ (ar_sorted _ _ _ HR) Ex Ei). lia.
Qed.

(** Room for one more. *)
Lemma array_grow_ok n s X : array_rel n s X -> Z.of_nat n < 2 ^ 31 ->
  exists s', sigset_grow s = (Ok tt, s') /\ array_rel n s' X /\ members s' = members s /\
    ss_cnt s' = ss_cnt s /\ ss_cnt s' < ss_max s'.
Proof.
  intros HR Hn. pose proof HR as []. unfold sigset_grow. rewrite (bind_ok get _ s s s eq_refl).
  destruct (Z.leb_spec (ss_max s) (ss_cnt s)) as [Hle|Hgt]; [|by exists s].
  assert (EM : u32 (ss_max s + 8) = ss_max s + 8) by (apply wrapu_small; lia).
  rewrite EM. set (b := ztake _ _). assert (Hb : b = ss_buf s ++ replicate 8 0).
  { subst b. rewrite ar_len0. replace (Z.to_nat _) with 8%nat by lia. apply ztake_all.
    rewrite zlen_app, ar_len0. change (zlen (replicate 8 0)) with 8. lia. }
  eexists. split; [done|]. assert (HM : ztake (ss_cnt s) b = members s).
  { rewrite Hb. unfold members, ztake. rewrite take_app_le; [done|]. unfold zlen in *. lia. }
  split; [|split; [exact HM|]; cbn; split; [done|lia]].
  constructor; cbn; unfold members in *; cbn; rewrite ?HM; auto; try lia.
  rewrite Hb, zlen_app, ar_len0. change (zlen (replicate 8 0)) with 8. lia.
Qed.

(** [memmove] of the cells from [src] to [dst]. *)
Lemma cells_move_ok buf dst src n : 0 <= src -> 0 <= dst -> 0 <= n -> src + n <= zlen buf -> dst + n <= zlen buf ->
  exists b, cells_move buf dst src n = Some b /\ zlen b = zlen buf /\
    slice b 0 dst = slice buf 0 dst /\ slice b dst (dst + n) = slice buf src (src + n).
Proof.
  intros. unfold cells_move, mem_read. rewrite !(proj2 (Z.leb_le _ _)) by lia. cbn [andb mbind option_bind].
  set (d := ztake n (zdrop src buf)). assert (Hd : zlen d = n) by (apply zlen_ztake; rewrite zlen_zdrop; lia).
  destruct (mem_write_ok buf dst d) as (b & E & _); [lia|lia|]. exists b. split; [exact E|].
  destruct (mem_write_here _ _ _ _ E) as [H4 H5]; [lia|]. split; [done|]. split.
  - apply (mem_write_slice _ _ _ _ _ _ E); lia.
  - rewrite Hd in H4. rewrite H4. unfold slice, d. do 2 f_equal. lia.
Qed.

(** [memmove] and the assignment of [sigset_set]. *)
Lemma insert_cells buf c k x : 0 <= k <= c -> c < zlen buf ->
  exists b1 b2, cells_move buf (k + 1) k (c - k) = Some b1 /\ mem_write b1 k [x] = Some b2 /\
    zlen b2 = zlen buf /\ ztake (c + 1) b2 = slice buf 0 k ++ x :: slice buf k c.
Proof.
  intros Hk Hc. destruct (cells_move_ok buf (k + 1) k (c - k)) as (b1 & E1 & L1 & H1 & H2); try lia.
  destruct (mem_write_ok b1 k [x]) as (b2 & E2 & _); [lia|change (zlen [x]) with 1; lia|].
  exists b1, b2. do 2 (split; [done|]). destruct (mem_write_here _ _ _ _ E2) as [H3 L2]; [lia|].
  change (zlen [x]) with 1 in *. split; [lia|].
  rewrite <- slice_0, <- (slice_app b2 0 k), <- (slice_app b2 k (k + 1)) by lia. rewrite H3.
  rewrite (mem_write_slice _ _ _ _ 0 k E2), (mem_write_slice _ _ _ _ (k + 1) (c + 1) E2)
    by (change (zlen [x]) with 1; lia).
  replace (k + 1 + (c - k)) with (c + 1) in H2 by lia. replace (k + (c - k)) with c in H2 by lia. rewrite H2.
  assert (HS : slice b1 0 k = slice buf 0 k); [|by rewrite HS].
  rewrite <- (slice_app b1 0 k (k + 1)), <- (slice_app buf 0 k (k + 1)) in H1 by lia.
  apply app_inj_1 in H1 as [? _]; [done|]. pose proof (slice_len b1 0 k). pose proof (slice_len buf 0 k).
  unfold zlen in *. lia.
Qed.

Lemma delete_cells buf c k : 0 <= k < c -> c <= zlen buf ->
  exists b1, cells_move buf k (k + 1) (c - k - 1) = Some b1 /\ zlen b1 = zlen buf /\
    ztake (c - 1) b1 = slice buf 0 k ++ slice buf (k + 1) c.
Proof.
  intros Hk Hc. destruct (cells_move_ok buf k (k + 1) (c - k - 1)) as (b1 & E1 & L1 & H1 & H2); try lia.
  exists b1. do 2 (split; [done|]). rewrite <- slice_0, <- (slice_app b1 0 k) by lia.
  replace (k + (c - k - 1)) with (c - 1) in H2 by lia. replace (k + 1 + (c - k - 1)) with c in H2 by lia.
  by rewrite H1, H2.
Qed.

(** The members around a position. *)
Lemma members_split s k : 0 <= k <= ss_cnt s -> ss_cnt s <= zlen (ss_buf s) ->
  ztake k (members s) = slice (ss_buf s) 0 k /\ zdrop k (members s) = slice (ss_buf s) k (ss_cnt s) /\
  members s = slice (ss_buf s) 0 k ++ slice (ss_buf s) k (ss_cnt s).
Proof.
  intros Hk Hc. unfold members. rewrite <- (slice_0 _ (ss_cnt s)), <- (slice_app _ 0 k) by lia.
  assert (HL : zlen (slice (ss_buf s) 0 k) = k) by (rewrite slice_len; lia). split; [|split; [|done]].
  - apply ztake_app_exact. lia.
  - unfold zdrop. rewrite drop_app_ge by (unfold zlen in HL; lia).
    replace (Z.to_nat k - _)%nat with 0%nat by (unfold zlen in HL; lia). done.
Qed.

(** What the assignments of [sigset_set] leave. *)
Lemma array_insert n s X bit k b : array_rel n s X -> Z.of_nat n < 2 ^ 31 -> 0 < bit < 2 ^ 32 ->
  position (members s) bit k -> bit ∉ X -> ss_cnt s < ss_max s -> zlen b = ss_max s ->
  ztake (ss_cnt s + 1) b = slice (ss_buf s) 0 k ++ bit :: slice (ss_buf s) k (ss_cnt s) ->
  array_rel (S n) {| ss_cnt := u32 (ss_cnt s + 1); ss_max := ss_max s; ss_buf := b |} ({[ bit ]} ∪ X).
Proof.
  intros HR Hn Hb Hk HN Hm Lb Eb. pose proof HR as []. pose proof Hk as (Hr & _).
  pose proof (zlen_members _ _ _ HR) as Hz. destruct (members_split s k) as (E1 & E2 & E3); [lia|lia|].
  assert (EC : u32 (ss_cnt s + 1) = ss_cnt s + 1) by (apply wrapu_small; lia). rewrite EC.
  assert (HM : members {| ss_cnt := ss_cnt s + 1; ss_max := ss_max s; ss_buf := b |} =
    ztake k (members s) ++ bit :: zdrop k (members s)) by (rewrite E1, E2; exact Eb).
  assert (HNm : bit ∉ members s) by (by rewrite <- ar_members0).
  assert (HP : members {| ss_cnt := ss_cnt s + 1; ss_max := ss_max s; ss_buf := b |} ≡ₚ bit :: members s).
  { rewrite HM, <- Permutation_middle. by rewrite ztake_zdrop. }
  constructor; cbn; try lia.
  - rewrite HM. rewrite <- (ztake_zdrop k (members s)), StronglySorted_app in ar_sorted0.
    destruct ar_sorted0 as (S1 & S2 & S3). apply StronglySorted_app. split_and!; [|done|].
    + intros x y Hx [->|Hy]%elem_of_cons; [by eapply position_before|by apply S1].
    + apply StronglySorted_cons. split; [|done]. apply Forall_forall. intros y Hy.
      pose proof (position_after _ _ _ _ Hk Hy). assert (bit <> y); [|lia]. intros <-. apply HNm.
      rewrite <- (ztake_zdrop k (members s)). apply elem_of_app. by right.
  - intros x. rewrite HP, elem_of_cons, elem_of_union, elem_of_singleton, ar_members0. done.
  - rewrite HP. constructor; [lia|done].
Qed.

Lemma array_delete n s X bit k b : array_rel n s X -> position (members s) bit k -> znth (members s) k = Some bit ->
  zlen b = ss_max s -> ztake (ss_cnt s - 1) b = slice (ss_buf s) 0 k ++ slice (ss_buf s) (k + 1) (ss_cnt s) ->
  array_rel (S n) {| ss_cnt := u32 (ss_cnt s - 1); ss_max := ss_max s; ss_buf := b |} (X ∖ {[ bit ]}).
Proof.
  intros HR Hk Ek Lb Eb. pose proof HR as []. pose proof (znth_range _ _ _ Ek) as Hr.
  pose proof (zlen_members _ _ _ HR) as Hz. destruct (members_split s k) as (E1 & E2 & E3); [lia|lia|].
  assert (EC : u32 (ss_cnt s - 1) = ss_cnt s - 1) by (apply wrapu_small; lia). rewrite EC.
  assert (HS : slice (ss_buf s) k (ss_cnt s) = bit :: slice (ss_buf s) (k + 1) (ss_cnt s)).
  { apply slice_cons; [lia|]. unfold members in Ek. by rewrite znth_ztake in Ek by lia. }
  set (s' := {| ss_cnt := ss_cnt s - 1; ss_max := ss_max s; ss_buf := b |}).
  assert (HM : members s' = slice (ss_buf s) 0 k ++ slice (ss_buf s) (k + 1) (ss_cnt s)) by exact Eb.
  assert (HP : members s ≡ₚ bit :: members s').
  { rewrite HM, E3, HS. symmetry. apply Permutation_middle. }
  rewrite E3, HS in ar_sorted0. apply StronglySorted_app in ar_sorted0 as (S1 & S2 & S3).
  apply StronglySorted_cons in S3 as [S3 S4].
  constructor; cbn; try lia.
  - rewrite HM. apply StronglySorted_app. split_and!; [|done|done]. intros x y Hx Hy. apply S1; [done|].
    apply elem_of_cons. by right.
  - intros x. rewrite elem_of_difference, elem_of_singleton, ar_members0, HP, elem_of_cons.
    split; [tauto|]. intros Hx. split; [by right|]. intros ->. rewrite HM, elem_of_app in Hx. destruct Hx as [Hx|Hx].
    + specialize (S1 bit bit Hx ltac:(apply elem_of_cons; by left)). lia.
    + rewrite Forall_forall in S3. specialize (S3 bit Hx). lia.
  - rewrite HP in ar_range0. by inversion ar_range0.
Qed.

Lemma array_more n s X : array_rel n s X -> array_rel (S n) s X.
Proof. intros []. constructor; auto; lia. Qed.

(** [n < cnt && buf[n] == bit] reads a member. *)
Lemma cell_ok n s X k : array_rel n s X -> 0 <= k <= zlen (members s) ->
  (if k <? ss_cnt s then of_option (Some <$> znth (ss_buf s) k) else mret None) s = (Ok (znth (members s) k), s).
Proof.
  intros HR Hk. pose proof (zlen_members _ _ _ HR) as Hz. destruct (Z.ltb_spec k (ss_cnt s)) as [Hlt|Hge].
  - destruct (znth_Some (members s) k) as [x Ex]; [lia|]. rewrite Ex. unfold members in Ex.
    rewrite znth_ztake in Ex by lia. by rewrite Ex.
  - destruct (znth (members s) k) eqn:Ex; [apply znth_range in Ex; lia|done].
Qed.

Lemma array_set_ok n s X bit value : array_rel n s X -> Z.of_nat n < 2 ^ 31 -> 0 <= bit < 2 ^ 32 ->
  (bit = 0 -> value = false) ->
  exists s', sigset_set bit value s = (Ok tt, s') /\ array_rel (S n) s' (update_set bit value X).
Proof.
  intros HR Hn Hb Hv. destruct (search_ok n s X bit HR) as (k & E & Hk). pose proof (zlen_members _ _ _ HR) as Hz.
  pose proof (position_elem _ _ _ (ar_sorted _ _ _ HR) Hk) as HE. pose proof Hk as (Hr & _).
  unfold sigset_set. rewrite (bind_ok _ _ _ _ _ E), (bind_ok get _ s s s eq_refl).
  assert (HA : (0 <? bit) || ((bit =? 0) && negb value) = true).
  { destruct (Z.ltb_spec 0 bit); [done|]. assert (bit = 0) as -> by lia. by rewrite Hv. }
  rewrite HA. cbn [assertm]. rewrite ret_bind. rewrite (proj2 (Z.leb_le k _)) by lia. cbn [assertm]. rewrite ret_bind.
  destruct value.
  - assert (HX : (if k <? ss_cnt s then of_option (Some <$> znth (ss_buf s) k) else mret None) s =
      (Ok (znth (members s) k), s)) by exact (cell_ok n s X k HR Hr).
    rewrite (bind_ok _ _ _ _ _ HX). case_bool_decide as Hd.
    + exists s. split; [done|]. assert (HU : update_set bit true X = X).
      { apply set_eq. intros x. cbn. rewrite elem_of_union, elem_of_singleton, (ar_members _ _ _ HR).
        split; [intros [->|]; [by apply HE|done]|by right]. }
      rewrite HU. by apply array_more.
    + destruct (array_grow_ok n s X HR Hn) as (s1 & Eg & HR1 & HM1 & Hc1 & Hlt). rewrite <- HM1 in Hk, HE, Hd, Hz, Hr; rewrite <- Hc1 in Hz.
      rewrite (bind_ok _ _ _ _ _ Eg), (bind_ok get _ s1 s1 s1 eq_refl).
      pose proof (ar_len _ _ _ HR1) as HL.
      destruct (insert_cells (ss_buf s1) (ss_cnt s1) k bit) as (b1 & b2 & F1 & F2 & F3 & F4); [lia|lia|].
      rewrite F1. cbn [of_option]. rewrite ret_bind, F2. cbn [of_option]. rewrite ret_bind.
      assert (bit <> 0) by (intros E0; by specialize (Hv E0)). assert (bit ∉ X) by (by rewrite (ar_members _ _ _ HR1), HE).
      eexists. split; [done|]. apply (array_insert n s1 X bit k); auto; lia.
  - assert (HX : (if ss_cnt s <=? k then mret None else of_option (Some <$> znth (ss_buf s) k)) s =
      (Ok (znth (members s) k), s)).
    { rewrite <- (cell_ok n s X k HR Hr). by destruct (Z.leb_spec (ss_cnt s) k), (Z.ltb_spec k (ss_cnt s)); try lia. }
    rewrite (bind_ok _ _ _ _ _ HX). case_bool_decide as Hd; cbn [negb].
    + pose proof (znth_range _ _ _ Hd) as Hk'. pose proof (ar_len _ _ _ HR) as HL. pose proof (ar_cnt _ _ _ HR).
      destruct (delete_cells (ss_buf s) (ss_cnt s) k) as (b1 & F1 & F3 & F4); [lia|lia|].
      rewrite F1. cbn [of_option]. rewrite ret_bind. eexists. split; [done|].
      apply (array_delete n s X bit k); auto; lia.
    + exists s. split; [done|]. assert (HU : update_set bit false X = X).
      { apply set_eq. intros x. cbn. rewrite elem_of_difference, elem_of_singleton.
        split; [by intros []|]. intros Hx. split; [done|]. intros ->. by apply Hd, HE, (ar_members _ _ _ HR). }
      rewrite HU. by apply array_more.
Qed.

#[export] Program Instance array_spec : SigSetSpec SigSet := { sig_rel := array_rel }.
Next Obligation. intros n s X. apply array_more. Qed.
Next Obligation.
  intros n s X x HR Hx. pose proof HR as []. rewrite ar_members0 in Hx. rewrite Forall_forall in ar_range0. by apply ar_range0.
Qed.
Next Obligation. intros n. constructor; cbn; try lia; try constructor; try set_solver. Qed.
Next Obligation.
  intros n s X HR. pose proof (zlen_members _ _ _ HR) as Hz. change (sig_is_empty s) with (Ok (ss_cnt s =? 0), s).
  do 2 f_equal. destruct HR. case_bool_decide as HE.
  - apply Z.eqb_eq. destruct (members s) as [|x l] eqn:EM; [done|]. exfalso.
    assert (x ∈ X) by (apply ar_members0; rewrite ?EM; set_solver). set_solver.
  - apply Z.eqb_neq. intros E0. apply HE. apply set_eq. intros x. rewrite ar_members0.
    destruct (members s); [set_solver|]. rewrite zlen_cons in Hz. pose proof (zlen_nonneg l). lia.
Qed.
Next Obligation. intros n s X bit HR _. by eapply array_get_ok. Qed.
Next Obligation. intros n s X bit HR _. by eapply array_next_ok. Qed.
Next Obligation. intros n s X bit value. apply array_set_ok. Qed.
Next Obligation.
  intros n s X HR. pose proof (zlen_members _ _ _ HR) as Hz. destruct HR. cbn. unfold sigset_copy.
  destruct (Z.ltb_spec 0 (ss_cnt s)) as [Hp|Hp].
  - unfold mem_read. rewrite !(proj2 (Z.leb_le _ _)) by lia. cbn. eexists. split; [done|].
    assert (HM : ztake (ss_cnt s) (ztake (ss_cnt s) (zdrop 0 (ss_buf s))) = members s).
    { rewrite zdrop_0. apply ztake_all. fold (members s). lia. }
    constructor; unfold members in *; cbn in *; rewrite ?HM; auto; lia.
  - eexists. split; [done|]. assert (HM : members s = []) by (unfold members, ztake; by replace (Z.to_nat (ss_cnt s)) with 0%nat by lia).
    rewrite HM in *. replace (ss_cnt s) with 0 by lia. constructor; unfold members; cbn; auto; lia.
Qed.
Next Obligation.
  intros n s X HR. eexists. split; [done|]. constructor; cbn; try lia; try constructor; try set_solver.
Qed.

(** ** The word implements the interface *)

Record word_rel (n : nat) (s : Z) (X : gset Z) : Prop := {
  wr_members : forall x, x ∈ X <-> 0 < x < 32 /\ Z.testbit s x = true;
  wr_range : 0 <= s < 2 ^ 32;
  wr_zero : Z.testbit s 0 = false;
}.

Lemma bit_test s bit : 0 <= bit -> negb (Z.land s (Z.shiftl 1 bit) =? 0) = Z.testbit s bit.
Proof.
  intros Hb. rewrite Z.shiftl_1_l. destruct (Z.eqb_spec (Z.land s (2 ^ bit)) 0) as [E|E]; cbn [negb].
  - apply (f_equal (fun z => Z.testbit z bit)) in E. rewrite Z.land_spec, Z.pow2_bits_true, andb_true_r, Z.bits_0 in E by done.
    by rewrite E.
  - destruct (Z.testbit s bit) eqn:Et; [done|]. exfalso. apply E. apply Z.bits_inj'. intros i Hi.
    rewrite Z.land_spec, Z.bits_0. destruct (decide (i = bit)) as [->|Hne]; [by rewrite Et|].
    rewrite Z.pow2_bits_false by done. by rewrite andb_false_r.
Qed.

Lemma word_bit n s X bit : word_rel n s X -> 0 <= bit < 32 -> Z.testbit s bit = bool_decide (bit ∈ X).
Proof.
  intros [] Hb. case_bool_decide as HX; [by apply wr_members0 in HX as []|].
  destruct (Z.testbit s bit) eqn:E; [|done]. exfalso. apply HX, wr_members0. split; [|done].
  destruct (decide (bit = 0)) as [->|]; [congruence|lia].
Qed.

Lemma word_get_next_ok n s X fuel : word_rel n s X -> forall b, 0 <= b < 2 ^ 32 -> 33 - b <= Z.of_nat fuel ->
  (0 < fuel)%nat ->
  exists r, word_get_next_loop fuel b s = (Ok r, s) /\
    match r with
    | Some x => x ∈ X /\ b <= x /\ forall y, y ∈ X -> b <= y -> x <= y
    | None => forall y, y ∈ X -> y < b
    end.
Proof.
  intros HR. induction fuel as [|fuel IH]; intros b Hb Hf H0; [lia|]. cbn [word_get_next_loop].
  destruct (Z.ltb_spec b 32) as [Hlt|Hge].
  - rewrite (bind_ok get _ s s s eq_refl), bit_test, (word_bit n s X b HR) by lia.
    case_bool_decide as HX; rewrite ?andb_true_r, ?andb_false_r.
    + pose proof HX as [Hx _]%(wr_members _ _ _ HR). rewrite (proj2 (Z.ltb_lt _ _)) by lia.
      exists (Some b). split; [done|]. split; [done|]. split; [lia|]. intros y _ Hy. lia.
    + assert (EU : u32 (b + 1) = b + 1) by (apply wrapu_small; lia). rewrite EU.
      destruct (IH (b + 1)) as (r & E & Hr); [lia|lia|lia|]. exists r. split; [exact E|].
      destruct r as [x|].
      * destruct Hr as (H1 & H2 & H3). split; [done|]. split; [lia|]. intros y Hy Hby. apply H3; [done|].
        assert (y <> b) by (intros ->; done). lia.
      * intros y Hy. specialize (Hr y Hy). assert (y <> b) by (intros ->; done). lia.
  - exists None. split; [done|]. intros y [Hy _]%(wr_members _ _ _ HR). lia.
Qed.

Lemma log2_word s : 0 <= s < 2 ^ 32 -> Z.log2 s < 32.
Proof. intros Hs. destruct (decide (s = 0)) as [->|]; [done|]. apply Z.log2_lt_pow2; lia. Qed.

Lemma word_set_ok n s X bit value : word_rel n s X -> 0 <= bit < 32 -> (bit = 0 -> value = false) ->
  exists s', word_set bit value s = (Ok tt, s') /\ word_rel (S n) s' (update_set bit value X).
Proof.
  intros HR Hb Hv. pose proof HR as []. unfold word_set.
  assert (HA : ((0 <? bit) && (bit <? 32)) || ((bit =? 0) && negb value) = true).
  { rewrite (proj2 (Z.ltb_lt bit 32)) by lia. destruct (Z.ltb_spec 0 bit); [done|].
    assert (bit = 0) as -> by lia. by rewrite Hv. }
  rewrite HA. cbn [assertm]. rewrite ret_bind, Z.shiftl_1_l.
  assert (Hp : 0 < 2 ^ bit <= 2 ^ 31) by (split; [lia|apply Z.pow_le_mono_r; lia]).
  destruct value; (eexists; split; [done|]); cbn [update_set].
  - assert (HB : forall i, 0 <= i -> Z.testbit (Z.lor s (2 ^ bit)) i = Z.testbit s i || (bit =? i)).
    { intros i Hi. by rewrite Z.lor_spec, Z.pow2_bits_eqb by lia. }
    constructor.
    + intros x. rewrite elem_of_union, elem_of_singleton, wr_members0. split.
      * intros [->|[H1 H2]]; (split; [|rewrite HB by lia]); try lia.
        by rewrite H2.
      * intros [H1 H2]. rewrite HB in H2 by lia. apply orb_prop in H2 as [H2|H2%Z.eqb_eq]; [by right|by left].
    + split; [apply Z.lor_nonneg; lia|]. apply Z.log2_lt_cancel. rewrite Z.log2_lor by lia.
      pose proof (log2_word s wr_range0).
      rewrite Z.log2_pow2, (Z.log2_pow2 32) by lia. lia.
    + rewrite HB, wr_zero0 by lia. cbn. apply Z.eqb_neq. intros E0. by specialize (Hv E0).
  - assert (HB : forall i, 0 <= i < 32 -> Z.testbit (Z.land s (u64 (Z.lnot (2 ^ bit)))) i = Z.testbit s i && negb (bit =? i)).
    { intros i Hi. rewrite Z.land_spec. unfold wrapu. rewrite Z.mod_pow2_bits_low by lia.
      by rewrite Z.lnot_spec, Z.pow2_bits_eqb by lia. }
    constructor.
    + intros x. rewrite elem_of_difference, elem_of_singleton, wr_members0. split.
      * intros [[H1 H2] H3]. split; [done|]. rewrite HB, H2 by lia. cbn. apply negb_true_iff, Z.eqb_neq. congruence.
      * intros [H1 H2]. rewrite HB in H2 by lia. apply andb_prop in H2 as [H2 H3%negb_true_iff%Z.eqb_neq].
        split; [done|congruence].
    + pose proof (wrapu_range 64 (Z.lnot (2 ^ bit)) ltac:(lia)). split; [apply Z.land_nonneg; lia|].
      destruct (decide (Z.land s (u64 (Z.lnot (2 ^ bit))) = 0)) as [->|Hne]; [lia|].
      apply Z.log2_lt_cancel. rewrite (Z.log2_pow2 32) by lia.
      pose proof (Z.log2_land s (u64 (Z.lnot (2 ^ bit))) ltac:(lia) ltac:(lia)).
      pose proof (log2_word s wr_range0).
      lia.
    + rewrite HB, wr_zero0 by lia. done.
Qed.

#[export] Program Instance word_spec : SigSetSpec Z := { sig_rel := word_rel }.
Next Obligation. intros n s X []. by constructor. Qed.
Next Obligation. intros n s X x HR Hx. by apply (wr_members _ _ _ HR) in Hx as []. Qed.
Next Obligation. intros n. constructor; cbn; [|lia|done]. intros x. rewrite Z.bits_0. split; [set_solver|by intros []]. Qed.
Next Obligation.
  intros n s X HR. change (sig_is_empty s) with (Ok (s =? 0), s). do 2 f_equal. pose proof HR as [].
  case_bool_decide as HE.
  - apply Z.eqb_eq, Z.bits_inj'. intros i Hi. rewrite Z.bits_0. destruct (decide (i < 32)) as [Hlt|Hge].
    + rewrite (word_bit n s X i HR) by lia. rewrite HE. by apply bool_decide_eq_false_2, not_elem_of_empty.
    + apply (testbit_small 32); lia.
  - apply Z.eqb_neq. intros ->. apply HE. apply set_eq. intros x. rewrite wr_members0, Z.bits_0.
    split; [by intros []|set_solver].
Qed.
Next Obligation.
  intros n s X bit HR Hb. cbn in *. unfold word_get. rewrite (proj2 (Z.ltb_lt _ _)) by lia. cbn [assertm].
  rewrite ret_bind, (bind_ok get _ s s s eq_refl), bit_test, (word_bit n s X bit HR) by lia. done.
Qed.
Next Obligation.
  intros n s X bit HR Hb. pose proof (wrapu_range 32 (bit + 1) ltac:(lia)).
  destruct (word_get_next_ok n s X 33 HR (u32 (bit + 1))) as (r & E & Hr); [lia|lia|lia|]. by exists r.
Qed.
Next Obligation. intros n s X bit value HR _. by apply word_set_ok. Qed.
Next Obligation. intros n s X HR. by exists s. Qed.
Next Obligation.
  intros n s X HR. exists 0. split; [done|]. constructor; cbn; [|lia|done]. intros x. rewrite Z.bits_0.
  split; [set_solver|by intros []].
Qed.

(** ** Clients *)

Inductive sig_op :=
| SigIsEmpty
| SigGet (bit : Z)
| SigGetNext (bit : Z)
| SigSetBit (bit : Z) (value : bool)
| SigCopy
| SigClear.

Inductive sig_result :=
| ResBool (b : bool)
| ResNext (r : option Z)
| ResNone.

(** What the operations mean for a finite set of numbers. *)
Inductive sig_step (X : gset Z) : sig_op -> gset Z -> sig_result -> Prop :=
| step_is_empty : sig_step X SigIsEmpty X (ResBool (bool_decide (X = ∅)))
| step_get bit : sig_step X (SigGet bit) X (ResBool (bool_decide (bit ∈ X)))
| step_get_next bit r : next_member X bit r -> sig_step X (SigGetNext bit) X (ResNext r)
| step_set bit value : sig_step X (SigSetBit bit value) (update_set bit value X) ResNone
| step_copy : sig_step X SigCopy X ResNone
| step_clear : sig_step X SigClear ∅ ResNone.

Inductive sig_steps : gset Z -> list sig_op -> gset Z -> list sig_result -> Prop :=
| steps_nil X : sig_steps X [] X []
| steps_cons X X1 X2 op ops r rs : sig_step X op X1 r -> sig_steps X1 ops X2 rs ->
    sig_steps X (op :: ops) X2 (r :: rs).

Section client.
Context `{SigSetOps St}.

Definition run_sig_op (op : sig_op) : M St sig_result :=
  match op with
  | SigIsEmpty => b ← sig_is_empty; mret (ResBool b)
  | SigGet bit => b ← sig_get bit; mret (ResBool b)
  | SigGetNext bit => r ← sig_get_next bit; mret (ResNext r)
  | SigSetBit bit value => sig_set bit value ;; mret ResNone
  | SigCopy => src ← get; dst ← of_option (sig_copy src); put dst ;; mret ResNone
  | SigClear => sig_clear ;; mret ResNone
  end.

Fixpoint run_sig_ops (ops : list sig_op) : M St (list sig_result) :=
  match ops with
  | [] => mret []
  | op :: ops => r ← run_sig_op op; rs ← run_sig_ops ops; mret (r :: rs)
  end.

(** The numbers a client may use. *)
Definition sig_op_ok (op : sig_op) : Prop :=
  match op with
  | SigGet bit => 0 <= bit < sig_bits
  | SigGetNext bit => 0 <= bit < 2 ^ 32
  | SigSetBit bit value => 0 <= bit < sig_bits /\ (bit = 0 -> value = false)
  | _ => True
  end.
End client.

Section client_spec.
Context `{SigSetSpec St}.

Lemma run_sig_op_ok n s X op : sig_rel n s X -> Z.of_nat n < 2 ^ 31 -> sig_op_ok op ->
  exists r s' X', run_sig_op op s = (Ok r, s') /\ sig_step X op X' r /\ sig_rel (S n) s' X'.
Proof.
  intros HR Hn Hop. destruct op as [|bit|bit|bit value| |]; cbn [run_sig_op sig_op_ok] in *.
  - rewrite (bind_ok _ _ _ _ _ (sig_is_empty_ok n s X HR)). do 3 eexists. split; [done|]. split; [constructor|].
    by apply sig_rel_more.
  - rewrite (bind_ok _ _ _ _ _ (sig_get_ok n s X bit HR Hop)). do 3 eexists. split; [done|]. split; [constructor|].
    by apply sig_rel_more.
  - destruct (sig_get_next_ok n s X bit HR Hop) as (r & E & Hr). rewrite (bind_ok _ _ _ _ _ E).
    do 3 eexists. split; [done|]. split; [by constructor|]. by apply sig_rel_more.
  - destruct (sig_set_ok n s X bit value HR Hn (proj1 Hop) (proj2 Hop)) as (s' & E & HR'). rewrite (bind_ok _ _ _ _ _ E).
    do 3 eexists. split; [done|]. split; [by constructor|done].
  - rewrite (bind_ok get _ s s s eq_refl). destruct (sig_copy_ok n s X HR) as (s' & -> & HR').
    cbn [of_option]. rewrite ret_bind. exists ResNone, s', X. split; [done|]. split; [by constructor|]. by apply sig_rel_more.
  - destruct (sig_clear_ok n s X HR) as (s' & E & HR'). rewrite (bind_ok _ _ _ _ _ E).
    do 3 eexists. split; [done|]. split; [by constructor|]. by apply sig_rel_more.
Qed.

Lemma run_sig_ops_ok ops : forall n s X, sig_rel n s X -> Z.of_nat n + zlen ops <= 2 ^ 31 -> Forall sig_op_ok ops ->
  exists rs s' X', run_sig_ops ops s = (Ok rs, s') /\ sig_steps X ops X' rs /\ sig_rel (n + length ops) s' X'.
Proof.
  induction ops as [|op ops IH]; intros n s X HR Hn Hops.
  - exists [], s, X. cbn [length]. rewrite Nat.add_0_r. split; [done|]. split; [constructor|done].
  - apply Forall_cons in Hops as [Hop Hops]. rewrite zlen_cons in Hn. pose proof (zlen_nonneg ops).
    destruct (run_sig_op_ok n s X op HR ltac:(lia) Hop) as (r & s1 & X1 & E1 & S1 & HR1).
    destruct (IH (S n) s1 X1 HR1) as (rs & s2 & X2 & E2 & S2 & HR2); [lia|done|].
    exists (r :: rs), s2, X2. cbn [run_sig_ops length]. rewrite (bind_ok _ _ _ _ _ E1), (bind_ok _ _ _ _ _ E2).
    split; [done|]. split; [by econstructor|]. by rewrite Nat.add_succ_r.
Qed.
End client_spec.

(** The meaning of the operations leaves no choice. *)
Lemma next_member_unique X bit r1 r2 : next_member X bit r1 -> next_member X bit r2 -> r1 = r2.
Proof.
  destruct r1 as [x|], r2 as [y|]; cbn; intros H1 H2; auto.
  - destruct H1 as (? & ? & H1), H2 as (? & ? & H2). f_equal.
    specialize (H1 y ltac:(done) ltac:(done)). specialize (H2 x ltac:(done) ltac:(done)). lia.
  - destruct H1 as (Hx & ? & _). specialize (H2 x Hx). lia.
  - destruct H2 as (Hy & ? & _). specialize (H1 y Hy). lia.
Qed.

Lemma sig_steps_unique X ops X1 rs1 : sig_steps X ops X1 rs1 -> forall X2 rs2, sig_steps X ops X2 rs2 ->
  X1 = X2 /\ rs1 = rs2.
Proof.
  induction 1 as [X|X X1 X2 op ops r rs Hop Hops IH]; intros X3 rs3 HS; inversion HS as [|? Y ? ? ? ? ? Hop' Hops']; subst; [done|].
  assert (X1 = Y /\ r = r0) as [<- <-].
  { inversion Hop; subst; inversion Hop'; subst; try done. split; [done|]. f_equal. by eapply next_member_unique. }
  destruct (IH _ _ Hops') as [-> ->]. done.
Qed.

(** C35: the sorted array implements a finite set of signal numbers: whatever
    operations a client makes on a set filled with zeros, no index is out of
    range, no assertion fails, and every result is the one for finite sets; the
    array stays sorted, without duplicates, and has room for its members. *)
Theorem sigset_refinement ops : zlen ops <= 2 ^ 31 -> Forall (sig_op_ok (St := SigSet)) ops ->
  exists rs s X, run_sig_ops ops (sig_empty (St := SigSet)) = (Ok rs, s) /\ sig_steps ∅ ops X rs /\
    array_rel (length ops) s X.
Proof.
  intros Hn Hops. destruct (run_sig_ops_ok ops 0 sig_empty ∅ (sig_empty_ok (St := SigSet) 0)) as (rs & s & X & E & HS & HR); [lia|done|].
  by exists rs, s, X.
Qed.

Lemma sigset_refinement_witness :
  let ops := [SigSetBit 11 true; SigSetBit 4000000000 true; SigSetBit 2 true; SigGetNext 2; SigGetNext (2 ^ 32 - 1);
              SigSetBit 11 false; SigGet 11; SigCopy; SigGet 4000000000] in
  zlen ops <= 2 ^ 31 /\ Forall (sig_op_ok (St := SigSet)) ops /\
  exists s X, run_sig_ops ops (sig_empty (St := SigSet)) =
      (Ok [ResNone; ResNone; ResNone; ResNext (Some 11); ResNext (Some 2); ResNone; ResBool false; ResNone; ResBool true], s) /\
    array_rel 9 s X.
Proof.
  intros ops. assert (Hn : zlen ops <= 2 ^ 31) by done.
  assert (Hops : Forall (sig_op_ok (St := SigSet)) ops) by (repeat constructor; cbn; lia || done).
  split; [exact Hn|]. split; [exact Hops|].
  destruct (sigset_refinement ops Hn Hops) as (rs & s & X & E & _ & HR). exists s, X. split; [|exact HR].
  rewrite E. vm_compute in E. by injection E as <- _.
Defined.

(** C36: the two representations cannot be told apart: with signal numbers below
    32 the sorted array and the machine word give the same results to every
    client. *)
Theorem sigset_equivalence ops : zlen ops <= 2 ^ 31 -> Forall (sig_op_ok (St := Z)) ops ->
  exists rs s w, run_sig_ops ops (sig_empty (St := SigSet)) = (Ok rs, s) /\
    run_sig_ops ops (sig_empty (St := Z)) = (Ok rs, w).
Proof.
  intros Hn Hops.
  assert (Hops' : Forall (sig_op_ok (St := SigSet)) ops).
  { eapply Forall_impl; [exact Hops|]. intros [] Hop; unfold sig_op_ok, sig_bits, array_ops, word_ops in *; try done; try lia.
    destruct Hop as [Hb Hv]. split; [lia|exact Hv]. }
  destruct (run_sig_ops_ok ops 0 sig_empty ∅ (sig_empty_ok (St := SigSet) 0)) as (rs & s & X & E & HS & _); [lia|done|].
  destruct (run_sig_ops_ok ops 0 sig_empty ∅ (sig_empty_ok (St := Z) 0)) as (rs' & w & X' & E' & HS' & _); [lia|done|].
  destruct (sig_steps_unique _ _ _ _ HS _ _ HS') as [_ <-]. by exists rs, s, w.
Qed.

Lemma sigset_equivalence_witness :
  let ops := [SigSetBit 31 true; SigSetBit 9 true; SigGetNext 0; SigGetNext 9; SigSetBit 31 false; SigGetNext 9; SigIsEmpty] in
  let rs := [ResNone; ResNone; ResNext (Some 9); ResNext (Some 31); ResNone; ResNext None; ResBool false] in
  zlen ops <= 2 ^ 31 /\ Forall (sig_op_ok (St := Z)) ops /\
  exists s w, run_sig_ops ops (sig_empty (St := SigSet)) = (Ok rs, s) /\
    run_sig_ops ops (sig_empty (St := Z)) = (Ok rs, w).
Proof.
  intros ops rs. assert (Hn : zlen ops <= 2 ^ 31) by done.
  assert (Hops : Forall (sig_op_ok (St := Z)) ops) by (repeat constructor; cbn; lia || done).
  split; [exact Hn|]. split; [exact Hops|].
  destruct (sigset_equivalence ops Hn Hops) as (rs' & s & w & E & E'). exists s, w. rewrite E, E'.
  vm_compute in E'. injection E' as <- _. done.
Defined.
