(* ===== verification/ContextQuery.v ===== *)
(** * Context queries (contextquery.c): parser and matching

    A query is a path of parts, a part is a list of properties or a wild card.
    [parse_context_query] builds the parts from the text, [match_query] runs them
    against a context and its ancestors.  What contexts are, who their parents
    are and what a comparator answers is up to the client. *)

From S2P Require Import Prelude.

(** ** Data *)

(** [Attribute *]: [NoAttr] is [NULL]. *)
Inductive Attribute :=
| NoAttr
| Attr (next parent : Attribute) (name : option bytes) (value : bytes).

Record QueryState := {
  qs_attrs : Attribute;
  qs_str_buf : bytes;
  qs_str_pos : Z;
  qs_str_max : Z;
  qs_abs_path : bool;
}.

Definition set_str_buf (buf : bytes) (pos max : Z) (s : QueryState) : QueryState :=
  {| qs_attrs := qs_attrs s; qs_str_buf := buf; qs_str_pos := pos; qs_str_max := max;
     qs_abs_path := qs_abs_path s |}.
Definition set_attrs (a : Attribute) (s : QueryState) : QueryState :=
  {| qs_attrs := a; qs_str_buf := qs_str_buf s; qs_str_pos := qs_str_pos s; qs_str_max := qs_str_max s;
     qs_abs_path := qs_abs_path s |}.
Definition set_abs_path (b : bool) (s : QueryState) : QueryState :=
  {| qs_attrs := qs_attrs s; qs_str_buf := qs_str_buf s; qs_str_pos := qs_str_pos s; qs_str_max := qs_str_max s;
     qs_abs_path := b |}.

(** [a == NULL] *)
Definition is_null (a : Attribute) : bool := match a with NoAttr => true | _ => false end.

Definition set_next (a next : Attribute) : Attribute :=
  match a with
  | NoAttr => NoAttr
  | Attr _ parent name value => Attr next parent name value
  end.

Definition set_parent (a parent : Attribute) : Attribute :=
  match a with
  | NoAttr => NoAttr
  | Attr next _ name value => Attr next parent name value
  end.

(** A step that may end with a message and -1: [None]. *)
Definition try_bind {S A B} (m : M S (option A)) (f : A -> M S (option B)) : M S (option B) :=
  o ← m; match o with Some a => f a | None => mret None end.
Notation "x '←?' m ; f" := (try_bind m (fun x => f))
  (at level 20, m at level 100, f at level 200, right associativity, only parsing).
Notation "' x '←?' m ; f" := (try_bind m (fun x => f))
  (at level 20, x pattern, m at level 100, f at level 200, right associativity, only parsing).

(** ** The parser *)

(** What is left of the text is a list of characters; [*q]. *)
Definition cur (q : bytes) : Z := match q with c :: _ => c | [] => 0 end.

Definition add_char (ch : Z) : M QueryState unit :=
  s ← get;
  (if qs_str_max s <=? qs_str_pos s then
     let max := u64 (qs_str_max s * 2) in
     put (set_str_buf (ztake max (qs_str_buf s ++ replicate (Z.to_nat (max - zlen (qs_str_buf s))) 0))
            (qs_str_pos s) max s)
   else mret tt) ;;
  s ← get;
  buf ← of_option (mem_write (qs_str_buf s) (qs_str_pos s) [ch]);
  put (set_str_buf buf (qs_str_pos s + 1) (qs_str_max s) s).

Definition reset_str : M QueryState unit :=
  modify (fun s => set_str_buf (qs_str_buf s) 0 (qs_str_max s) s).

(** [tmp_strdup(str_buf)]. *)
Fixpoint c_string (buf : bytes) : option bytes :=
  match buf with
  | [] => None
  | b :: buf => if b =? 0 then Some [] else cons b <$> c_string buf
  end.

Definition dup_str : M QueryState bytes :=
  s ← get; of_option (c_string (qs_str_buf s)).

Definition parse_wildcard (q : bytes) : M QueryState (option bytes) :=
  reset_str ;;
  add_char (cur q) ;;
  let q := tail q in
  q ← (if cur q =? #"*" then add_char (cur q) ;; mret (tail q) else mret q);
  if negb (cur q =? 0) && negb (cur q =? #"/") then mret None
  else add_char 0 ;; mret (Some q).

Definition is_digit (c : Z) : bool := (#"0" <=? c) && (c <=? #"9").

Definition is_symbol (c : Z) : bool :=
  (c =? #"_") || is_digit c || ((#"a" <=? c) && (c <=? #"z")) || ((#"A" <=? c) && (c <=? #"Z")).

(** [while (p(c)) add_char(c++)]; the terminating zero is not in [p]. *)
Fixpoint add_while (p : Z -> bool) (q : bytes) : M QueryState bytes :=
  match q with
  | c :: r => if p c then add_char c ;; add_while p r else mret q
  | [] => mret []
  end.

Definition parse_number (q : bytes) : M QueryState (option bytes) :=
  reset_str ;;
  q ← add_while is_digit q;
  if negb (cur q =? #",") && negb (cur q =? #"/") && negb (cur q =? 0) then mret None
  else add_char 0 ;; mret (Some q).

Definition parse_symbol (q : bytes) : M QueryState (option bytes) :=
  reset_str ;;
  q ← add_while is_symbol q;
  if negb (cur q =? #"/") && negb (cur q =? #"=") && negb (cur q =? #",") && negb (cur q =? 0) then mret None
  else add_char 0 ;; mret (Some q).

Definition QUOTE : Z := 34.
Definition BACKSLASH : Z := 92.

Fixpoint quoted_loop (q : bytes) : M QueryState (option bytes) :=
  match q with
  | [] => mret None
  | c :: r =>
      if c =? QUOTE then mret (Some r)
      else if c =? BACKSLASH then
        match r with
        | [] => mret None
        | d :: r =>
            if negb (d =? BACKSLASH) && negb (d =? QUOTE) then mret None
            else add_char d ;; quoted_loop r
        end
      else add_char c ;; quoted_loop r
  end.

Definition parse_quoted_string (q : bytes) : M QueryState (option bytes) :=
  reset_str ;;
  q ←? quoted_loop (tail q);
  add_char 0 ;; mret (Some q).

Definition parse_string (q : bytes) : M QueryState (option bytes) :=
  if cur q =? QUOTE then parse_quoted_string q else parse_symbol q.

Definition parse_value (q : bytes) : M QueryState (option bytes) :=
  if is_digit (cur q) then parse_number q
  else if cur q =? QUOTE then parse_quoted_string q
  else parse_symbol q.

(** [*c == '/' || *c == '=' || *c == ',' || *c == '\0'] *)
Definition is_separator (c : Z) : bool :=
  (c =? #"/") || (c =? #"=") || (c =? #",") || (c =? 0).

Definition parse_property (q : bytes) : M QueryState (option (Attribute * bytes)) :=
  q ←? parse_string q;
  name ← dup_str;
  if cur q =? #"=" then
    let q := tail q in
    if is_separator (cur q) then mret None
    else
      q ←? parse_value q;
      value ← dup_str;
      if cur q =? #"=" then mret None
      else mret (Some (Attr NoAttr NoAttr (Some name) value, q))
  else mret (Some (Attr NoAttr NoAttr None name, q)).

Fixpoint parse_loop (fuel : nat) (attr : Attribute) (q : bytes) : M QueryState (option Attribute) :=
  match fuel with
  | O => nofuel
  | S fuel =>
      if cur q =? 0 then mret (Some attr)
      else
        reset_str ;;
        '(a, q) ←?
          (if cur q =? #"*" then
             q ←? parse_wildcard q;
             value ← dup_str;
             mret (Some (Attr NoAttr NoAttr None value, q))
           else parse_property q);
        let attr := set_next a attr in
        if cur q =? #"/" then
          s ← get;
          put (set_attrs (set_parent attr (qs_attrs s)) s) ;;
          let q := tail q in
          if is_separator (cur q) then mret None else parse_loop fuel NoAttr q
        else if cur q =? #"," then
          let q := tail q in
          if is_separator (cur q) then mret None else parse_loop fuel attr q
        else parse_loop fuel attr q
  end.

(** [q = None] is [NULL]. *)
Definition parse_context_query (q : option bytes) : M QueryState Z :=
  put {| qs_attrs := NoAttr; qs_str_buf := []; qs_str_pos := 0; qs_str_max := 0; qs_abs_path := false |} ;;
  match q with
  | None | Some [] => mret 0
  | Some q =>
      modify (set_str_buf (replicate 64 0) 0 64) ;;
      let abs_path := cur q =? #"/" in
      modify (set_abs_path abs_path) ;;
      let q := if abs_path then tail q else q in
      if is_separator (cur q) then mret (-1)
      else
        r ← parse_loop (S (length q)) NoAttr q;
        match r with
        | None => mret (-1)
        | Some NoAttr => undef
        | Some attr =>
            s ← get;
            put (set_attrs (set_parent attr (qs_attrs s)) s) ;;
            mret 0
        end
  end.

(** ** Matching *)

Definition to_lower (c : Z) : Z := if (#"A" <=? c) && (c <=? #"Z") then c + 32 else c.

(** [strcasecmp(a, b) == 0], in the C locale. *)
Definition same_name (a b : bytes) : bool := bool_decide (to_lower <$> a = to_lower <$> b).

Definition DEFAULT_CONTEXT_QUERY_COMPARATOR : bytes := [42].

Section matching.
Context {Ctx : Type}.

(** The call back may ask for the name of the attribute
    ([get_context_query_attr_name]): it is an argument here. *)
Record Comparator := {
  cmp_attr_name : bytes;
  cmp_callback : bytes -> Ctx -> bytes -> bool;
}.

Definition add_context_query_comparator (attr_name : bytes) (callback : bytes -> Ctx -> bytes -> bool)
    (comparators : list Comparator) : list Comparator :=
  {| cmp_attr_name := attr_name; cmp_callback := callback |} :: comparators.

Fixpoint find_comparator (key : bytes) (l : list Comparator) : option Comparator :=
  match l with
  | [] => None
  | c :: l => if same_name (cmp_attr_name c) key then Some c else find_comparator key l
  end.

Fixpoint default_comparators (ctx : Ctx) (key val : bytes) (l : list Comparator) : bool :=
  match l with
  | [] => false
  | c :: l =>
      if bool_decide (cmp_attr_name c = DEFAULT_CONTEXT_QUERY_COMPARATOR) && cmp_callback c key ctx val then true
      else default_comparators ctx key val l
  end.

Definition match_attribute (comparators : list Comparator) (ctx : Ctx) (key val : bytes) : bool :=
  match find_comparator key comparators with
  | Some c => cmp_callback c key ctx val
  | None => default_comparators ctx key val comparators
  end.

Context (comparators : list Comparator) (get_parent : Ctx -> option Ctx) (abs_path : bool).

Definition WILD : bytes := [42].
Definition WILD_SEQ : bytes := [42; 42].
Definition NAME : bytes := str "Name".

(** [while (attr != NULL)] of [match]. *)
Fixpoint match_attributes (ctx : Ctx) (attr : Attribute) : bool :=
  match attr with
  | NoAttr => true
  | Attr next _ name value =>
      (match name with
       | Some name => match_attribute comparators ctx name value
       | None => bool_decide (value = WILD) || match_attribute comparators ctx NAME value
       end) && match_attributes ctx next
  end.

(** [while (parent != NULL)] of [match]: [n] bounds the number of ancestors. *)
Fixpoint match_ancestors (n : nat) (f : Ctx -> option bool) (parent : option Ctx) : option bool :=
  match parent with
  | None => Some false
  | Some ctx =>
      match n with
      | O => None
      | S n => r ← f ctx; if (r : bool) then Some true else match_ancestors n f (get_parent ctx)
      end
  end.

(** [None]: a null pointer, or more than [n] ancestors. *)
Fixpoint match_query (n : nat) (attr : Attribute) (ctx : Ctx) : option bool :=
  match attr with
  | NoAttr => None
  | Attr next up name value =>
      let parent := get_parent ctx in
      if bool_decide (name = None) && bool_decide (value = WILD_SEQ) then
        match up with
        | NoAttr => Some true
        | _ =>
            r ← match_query n up ctx;
            if (r : bool) then Some true else match_ancestors n (match_query n up) parent
        end
      else
        r ← (match up, parent with
             | NoAttr, _ => Some true
             | _, None => Some false
             | _, Some p => match_query n up p
             end);
        if negb r then Some false
        else if is_null up && abs_path && bool_decide (is_Some parent) then Some false
        else Some (match_attributes ctx attr)
  end.

Definition run_context_query_ext (n : nat) (attrs : Attribute) (ctx : Ctx) : option bool :=
  match attrs with
  | NoAttr => Some (negb abs_path)
  | _ => match_query n attrs ctx
  end.
End matching.
Arguments Comparator : clear implicits.

(** The result of the parser is not looked at. *)
Definition context_query {Ctx} (comparators : list (Comparator Ctx)) (get_parent : Ctx -> option Ctx) (n : nat)
    (ctx : Ctx) (query : option bytes) : M QueryState bool :=
  parse_context_query query ;;
  s ← get;
  of_option (run_context_query_ext comparators get_parent (qs_abs_path s) n (qs_attrs s) ctx).
