(* ===== verification/ContextQueryParse.v ===== *)
(** * Context queries: the parser

    The parser of contextquery.c collects the strings in a buffer that grows.  It
    is shown equal to a reader that works on the text alone, and the reader is
    shown to read back what is printed by the grammar of contextquery.h. *)

From S2P Require Import Prelude ContextQuery.

(** ** The buffer *)

(** [t] has been collected; [b] bounds what may still be. *)
Record str_ok (b : Z) (s : QueryState) (t : bytes) : Prop := {
  so_len : zlen (qs_str_buf s) = qs_str_max s;
  so_pos : qs_str_pos s = zlen t;
  so_text : ztake (zlen t) (qs_str_buf s) = t;
  so_fit : zlen t <= qs_str_max s;
  so_max : 0 < qs_str_max s <= 2 * b;
  so_bound : b < 2 ^ 61;
}.

Definition str_fit (b : Z) (s : QueryState) : Prop := exists t, str_ok b s t.

Definition same_query (s s' : QueryState) : Prop :=
  qs_attrs s' = qs_attrs s /\ qs_abs_path s' = qs_abs_path s.

Lemma same_query_trans s1 s2 s3 : same_query s1 s2 -> same_query s2 s3 -> same_query s1 s3.
Proof. unfold same_query. intuition congruence. Qed.

Lemma same_query_refl s : same_query s s.
Proof. done. Qed.

#[local] Hint Resolve same_query_trans same_query_refl : core.

Lemma add_char_ok b s t ch : str_ok b s t -> zlen t < b ->
  exists s', add_char ch s = (Ok tt, s') /\ str_ok b s' (t ++ [ch]) /\ same_query s s'.
Proof.
  intros [] Hb. unfold add_char. rewrite (bind_ok get _ s s s eq_refl), so_pos0.
  pose proof (zlen_nonneg t).
  set (s1 := if qs_str_max s <=? zlen t then
    set_str_buf (ztake (u64 (qs_str_max s * 2)) (qs_str_buf s ++
      replicate (Z.to_nat (u64 (qs_str_max s * 2) - zlen (qs_str_buf s))) 0)) (zlen t) (u64 (qs_str_max s * 2)) s
    else s).
  assert (E1 : (if qs_str_max s <=? zlen t then put s1 else mret tt) s = (Ok tt, s1))
    by (subst s1; by destruct (_ <=? _)).
  assert (H1 : str_ok b s1 t /\ zlen t < qs_str_max s1 /\ same_query s s1).
  { subst s1. destruct (Z.leb_spec (qs_str_max s) (zlen t)) as [Hle|Hgt]; [|by split].
    assert (EU : u64 (qs_str_max s * 2) = qs_str_max s * 2) by (apply wrapu_small; lia). rewrite EU.
    set (pad := replicate _ 0). assert (HP : zlen pad = qs_str_max s).
    { subst pad. unfold zlen at 1. rewrite length_replicate, so_len0. lia. }
    split; [|split; [cbn; lia|done]]. constructor; cbn; try lia.
    - rewrite zlen_ztake; [done|]. rewrite zlen_app. lia.
    - rewrite (ztake_all (qs_str_max s * 2)) by (rewrite zlen_app; lia).
      unfold ztake. rewrite take_app_le; [exact so_text0|]. unfold zlen in *. lia. }
  destruct H1 as ([] & Hlt & Hs1).
  assert (E1' : (if qs_str_max s <=? zlen t then
       let max := u64 (qs_str_max s * 2) in
       put (set_str_buf (ztake max (qs_str_buf s ++ replicate (Z.to_nat (max - zlen (qs_str_buf s))) 0)) (zlen t) max s)
     else mret tt) s = (Ok tt, s1)) by (subst s1; by destruct (_ <=? _)).
  rewrite (bind_ok _ _ _ _ _ E1'), (bind_ok get _ s1 s1 s1 eq_refl), so_pos1.
  destruct (mem_write_ok (qs_str_buf s1) (zlen t) [ch]) as (m & Em & Lm & Tm); [lia|change (zlen [ch]) with 1; lia|].
  rewrite Em. cbn [of_option]. rewrite ret_bind. eexists. split; [done|]. change (zlen [ch]) with 1 in Tm.
  split; [|done]. constructor; cbn; try lia; rewrite ?zlen_app; change (zlen [ch]) with 1; try lia.
  rewrite Tm. by rewrite so_text1.
Qed.

(** The calls that only collect characters. *)
Definition collects {A} (m : M QueryState A) (a : A) (l : bytes) : Prop :=
  forall b s t, str_ok b s t -> zlen t + zlen l <= b ->
  exists s', m s = (Ok a, s') /\ str_ok b s' (t ++ l) /\ same_query s s'.

Lemma collects_ret {A} (a : A) : collects (mret a) a [].
Proof. intros b s t Hs _. exists s. by rewrite app_nil_r. Qed.

Lemma collects_add_char ch : collects (add_char ch) tt [ch].
Proof. intros b s t Hs Hb. change (zlen [ch]) with 1 in Hb. apply add_char_ok; [done|lia]. Qed.

Lemma collects_bind {A B} (m : M QueryState A) (f : A -> M QueryState B) a c l1 l2 :
  collects m a l1 -> collects (f a) c l2 -> collects (m ≫= f) c (l1 ++ l2).
Proof.
  intros Hm Hf b s t Hs Hb. rewrite zlen_app in Hb. pose proof (zlen_nonneg l1). pose proof (zlen_nonneg l2).
  destruct (Hm b s t Hs) as (s1 & E1 & Hs1 & Q1); [lia|].
  destruct (Hf b s1 (t ++ l1) Hs1) as (s2 & E2 & Hs2 & Q2); [rewrite zlen_app; lia|].
  exists s2. rewrite (bind_ok _ _ _ _ _ E1), app_assoc. eauto.
Qed.

(** A string has been parsed: it is what [tmp_strdup] finds, and [q] is left. *)
Definition parses {A} (m : M QueryState (option A)) (size : Z) (r : option (bytes * A)) : Prop :=
  forall b s, str_fit b s -> size < b ->
  exists s', m s = (Ok (snd <$> r), s') /\ str_fit b s' /\ same_query s s' /\
    match r with Some (t, _) => cstring t -> dup_str s' = (Ok t, s') | None => True end.

Lemma c_string_zero t l : cstring t -> c_string (t ++ 0 :: l) = Some t.
Proof.
  induction 1 as [|x t Hx Ht IH]; [done|]. cbn [c_string app]. rewrite (proj2 (Z.eqb_neq _ _)) by lia. by rewrite IH.
Qed.

Lemma str_ok_reset b s t : str_ok b s t -> exists s', reset_str s = (Ok tt, s') /\ str_ok b s' [] /\ same_query s s'.
Proof.
  intros []. eexists. split; [done|]. split; [|done]. constructor; cbn; auto; try lia. 
  change (zlen []) with 0. lia.
Qed.

(** Collect, then terminate the string. *)
Lemma parses_collect (m : M QueryState (option bytes)) size t (q : option bytes) :
  collects m q t -> zlen t <= size ->
  parses (reset_str ;; q ←? m; add_char 0 ;; mret (Some q)) size (match q with Some q => Some (t, q) | None => None end).
Proof.
  intros Hm Ht b s [t0 Hs] Hb. destruct (str_ok_reset b s t0 Hs) as (s1 & E1 & Hs1 & Q1).
  rewrite (bind_ok _ _ _ _ _ E1). destruct (Hm b s1 [] Hs1) as (s2 & E2 & Hs2 & Q2); [change (zlen []) with 0; lia|].
  unfold try_bind. rewrite (bind_ok _ _ _ _ _ E2). cbn [app] in Hs2. destruct q as [q|].
  - destruct (add_char_ok b s2 t 0 Hs2) as (s3 & E3 & Hs3 & Q3); [lia|]. rewrite (bind_ok _ _ _ _ _ E3).
    exists s3. split; [done|]. split; [by exists (t ++ [0])|]. split; [eauto|]. intros Hc.
    unfold dup_str. rewrite (bind_ok get _ s3 s3 s3 eq_refl). destruct Hs3.
    rewrite <- (ztake_zdrop (zlen (t ++ [0])) (qs_str_buf s3)), so_text0, <- app_assoc. cbn [app].
    by rewrite c_string_zero.
  - exists s2. split; [done|]. split; [by exists t|]. split; [eauto|done].
Qed.

(** ** Reading the text alone *)

Fixpoint span (p : Z -> bool) (q : bytes) : bytes * bytes :=
  match q with
  | c :: r => if p c then let '(t, r) := span p r in (c :: t, r) else ([], q)
  | [] => ([], [])
  end.

Definition read_wildcard (q : bytes) : option (bytes * bytes) :=
  let '(t, r) := if cur (tail q) =? #"*" then ([cur q; cur (tail q)], tail (tail q)) else ([cur q], tail q) in
  if negb (cur r =? 0) && negb (cur r =? #"/") then None else Some (t, r).

Definition read_number (q : bytes) : option (bytes * bytes) :=
  let '(t, r) := span is_digit q in
  if negb (cur r =? #",") && negb (cur r =? #"/") && negb (cur r =? 0) then None else Some (t, r).

Definition read_symbol (q : bytes) : option (bytes * bytes) :=
  let '(t, r) := span is_symbol q in
  if negb (cur r =? #"/") && negb (cur r =? #"=") && negb (cur r =? #",") && negb (cur r =? 0) then None
  else Some (t, r).

(** The string may be incomplete: the text collected, and what is left. *)
Fixpoint read_quoted (q : bytes) : bytes * option bytes :=
  match q with
  | [] => ([], None)
  | c :: r =>
      if c =? QUOTE then ([], Some r)
      else if c =? BACKSLASH then
        match r with
        | [] => ([], None)
        | d :: r =>
            if negb (d =? BACKSLASH) && negb (d =? QUOTE) then ([], None)
            else let '(t, o) := read_quoted r in (d :: t, o)
        end
      else let '(t, o) := read_quoted r in (c :: t, o)
  end.

Definition read_quoted_string (q : bytes) : option (bytes * bytes) :=
  let '(t, o) := read_quoted (tail q) in
  match o with Some r => Some (t, r) | None => None end.

Definition read_string (q : bytes) : option (bytes * bytes) :=
  if cur q =? QUOTE then read_quoted_string q else read_symbol q.

Definition read_value (q : bytes) : option (bytes * bytes) :=
  if is_digit (cur q) then read_number q
  else if cur q =? QUOTE then read_quoted_string q
  else read_symbol q.

Definition read_property (q : bytes) : option (Attribute * bytes) :=
  '(name, q) ← read_string q;
  if cur q =? #"=" then
    if is_separator (cur (tail q)) then None
    else
      '(value, q) ← read_value (tail q);
      if cur q =? #"=" then None else Some (Attr NoAttr NoAttr (Some name) value, q)
  else Some (Attr NoAttr NoAttr None name, q).

Definition read_item (q : bytes) : option (Attribute * bytes) :=
  if cur q =? #"*" then '(value, q) ← read_wildcard q; Some (Attr NoAttr NoAttr None value, q)
  else read_property q.

(** The parts before the last one, and the last one if there is no error. *)
Fixpoint read_loop (fuel : nat) (attr attrs : Attribute) (q : bytes) : Attribute * option Attribute :=
  match fuel with
  | O => (attrs, None)
  | S fuel =>
      if cur q =? 0 then (attrs, Some attr)
      else
        match read_item q with
        | None => (attrs, None)
        | Some (a, q) =>
            let attr := set_next a attr in
            if cur q =? #"/" then
              let attrs := set_parent attr attrs in
              if is_separator (cur (tail q)) then (attrs, None) else read_loop fuel NoAttr attrs (tail q)
            else if cur q =? #"," then
              if is_separator (cur (tail q)) then (attrs, None) else read_loop fuel attr attrs (tail q)
            else read_loop fuel attr attrs q
        end
  end.

(** Return code, attributes and kind of path of a query. *)
Definition read_query (q : bytes) : Z * Attribute * bool :=
  match q with
  | [] => (0, NoAttr, false)
  | _ =>
      let abs := cur q =? #"/" in
      let q := if abs then tail q else q in
      if is_separator (cur q) then (-1, NoAttr, abs)
      else
        match read_loop (S (length q)) NoAttr NoAttr q with
        | (attrs, None) => (-1, attrs, abs)
        | (attrs, Some attr) => (0, set_parent attr attrs, abs)
        end
  end.

Lemma zlen_tail {A} (l : list A) : zlen (tail l) <= zlen l.
Proof. destruct l as [|x l]; [done|]. rewrite zlen_cons. cbn [tail]. lia. Qed.

Lemma cstring_tail l : cstring l -> cstring (tail l).
Proof. intros Hl. destruct Hl; [constructor|done]. Qed.

Lemma cur_zero q : cstring q -> cur q = 0 <-> q = [].
Proof. intros Hq. destruct Hq as [|c q Hc Hq]; [done|]. cbn. split; [lia|done]. Qed.

Lemma span_ok p q : let '(t, r) := span p q in q = t ++ r /\ Forall (fun c => p c = true) t.
Proof.
  induction q as [|c q IH]; [done|]. cbn [span]. destruct (p c) eqn:E; [|done]. destruct (span p q) as [t r].
  destruct IH as [-> IH]. split; [done|by constructor].
Qed.

(** What a reader returns is a part of the text. *)
Definition part_of (q t : bytes) (r : bytes) : Prop :=
  cstring t /\ zlen t <= zlen q /\ exists u, q = u ++ r /\ (length r <= length q)%nat.

Lemma part_cstring q t r : cstring q -> part_of q t r -> cstring r.
Proof. intros Hq (_ & _ & u & -> & _). by apply Forall_app in Hq as []. Qed.

Lemma part_cons c q t r : 0 < c < 256 -> part_of q t r -> part_of (c :: q) (c :: t) r.
Proof.
  intros Hc (H1 & H2 & u & -> & H3). split; [by constructor|]. split; [rewrite !zlen_cons; lia|].
  exists (c :: u). split; [done|]. cbn. lia.
Qed.

Lemma part_skip c q t r : part_of q t r -> part_of (c :: q) t r.
Proof.
  intros (H1 & H2 & u & -> & H3). split; [done|]. split; [rewrite zlen_cons; lia|].
  exists (c :: u). split; [done|]. cbn. lia.
Qed.

Lemma part_nil q : part_of q [] q.
Proof. split; [constructor|]. split; [apply zlen_nonneg|]. by exists []. Qed.

Lemma part_tail q t r : part_of (tail q) t r -> part_of q t r.
Proof. destruct q; [done|]. apply part_skip. Qed.

Lemma span_part p q : cstring q -> part_of q (span p q).1 (span p q).2.
Proof.
  induction 1 as [|c q Hc Hq IH]; [apply part_nil|]. cbn [span]. destruct (p c); [|apply part_nil].
  destruct (span p q) as [t r]. by apply part_cons.
Qed.

Lemma read_quoted_part n : forall q, (length q < n)%nat -> cstring q ->
  part_of q (read_quoted q).1 (default [] (read_quoted q).2).
Proof.
  induction n as [|n IH]; intros q Hn Hq; [lia|]. destruct Hq as [|c q Hc Hq]; [apply part_nil|].
  cbn [read_quoted]. simpl in Hn.
  assert (HN : part_of (c :: q) [] []).
  { split; [constructor|]. split; [apply zlen_nonneg|]. exists (c :: q). split; [by rewrite app_nil_r|]. cbn. lia. }
  destruct (c =? QUOTE); [apply part_skip, part_nil|]. destruct (c =? BACKSLASH).
  - destruct Hq as [|d q Hd Hq]; [done|]. destruct (negb _ && negb _); [done|].
    simpl in Hn. specialize (IH q ltac:(lia) Hq). destruct (read_quoted q) as [t o].
    by apply part_skip, part_cons.
  - specialize (IH q ltac:(lia) Hq). destruct (read_quoted q) as [t o]. by apply part_cons.
Qed.

Lemma collects_while p q : collects (add_while p q) (span p q).2 (span p q).1.
Proof.
  induction q as [|c q IH]; [apply collects_ret|]. cbn [add_while span]. destruct (p c); [|apply collects_ret].
  destruct (span p q) as [t r]. change (c :: t) with ([c] ++ t).
  apply (collects_bind _ _ tt); [apply collects_add_char|exact IH].
Qed.

Lemma collects_quoted n : forall q, (length q < n)%nat -> collects (quoted_loop q) (read_quoted q).2 (read_quoted q).1.
Proof.
  induction n as [|n IH]; intros q Hn; [lia|]. destruct q as [|c q]; [apply collects_ret|].
  cbn [quoted_loop read_quoted]. simpl in Hn. destruct (c =? QUOTE); [apply collects_ret|].
  destruct (c =? BACKSLASH).
  - destruct q as [|d q]; [apply collects_ret|]. destruct (negb _ && negb _); [apply collects_ret|].
    simpl in Hn. specialize (IH q ltac:(lia)). destruct (read_quoted q) as [t o]. change (d :: t) with ([d] ++ t).
    apply (collects_bind _ _ tt); [apply collects_add_char|exact IH].
  - specialize (IH q ltac:(lia)). destruct (read_quoted q) as [t o]. change (c :: t) with ([c] ++ t).
    apply (collects_bind _ _ tt); [apply collects_add_char|exact IH].
Qed.

Lemma parses_ext {A} (m m' : M QueryState (option A)) size r :
  (forall s, m s = m' s) -> parses m' size r -> parses m size r.
Proof. intros He Hm b s Hs Hb. rewrite He. by apply Hm. Qed.

(** The common shape of the parsers of strings without quotes. *)
Lemma parses_token (m : M QueryState bytes) (bad : bytes -> bool) size t r : collects m r t -> zlen t <= size ->
  parses (reset_str ;; q ← m; if bad q then mret None else add_char 0 ;; mret (Some q)) size
    (if bad r then None else Some (t, r)).
Proof.
  intros Hm Ht.
  assert (Hm' : collects (q ← m; mret (if bad q then None else Some q)) (if bad r then None else Some r) t).
  { rewrite <- (app_nil_r t). eapply collects_bind; [exact Hm|apply collects_ret]. }
  pose proof (parses_collect _ size t _ Hm' Ht) as HP.
  assert (ER : (if bad r then None else Some (t, r)) =
    match (if bad r then None else Some r) with Some q => Some (t, q) | None => None end) by (by destruct (bad r)).
  rewrite ER. eapply parses_ext; [|exact HP]. intros s. unfold try_bind, mbind, M_bind.
  destruct (reset_str s) as [[[]| | |] s1]; try done. destruct (m s1) as [[q| | |] s2]; try done. cbn.
  by destruct (bad q).
Qed.

Lemma parses_number q : cstring q -> parses (parse_number q) (zlen q) (read_number q).
Proof.
  intros Hq. unfold read_number. pose proof (collects_while is_digit q) as HC. pose proof (span_part is_digit q Hq) as HP.
  destruct (span is_digit q) as [t r]. apply (parses_token _ (fun q => _)); [exact HC|]. by destruct HP as (_ & ? & _).
Qed.

Lemma parses_symbol q : cstring q -> parses (parse_symbol q) (zlen q) (read_symbol q).
Proof.
  intros Hq. unfold read_symbol. pose proof (collects_while is_symbol q) as HC. pose proof (span_part is_symbol q Hq) as HP.
  destruct (span is_symbol q) as [t r]. apply (parses_token _ (fun q => _)); [exact HC|]. by destruct HP as (_ & ? & _).
Qed.

Lemma parses_quoted_string q : cstring q -> parses (parse_quoted_string q) (zlen q) (read_quoted_string q).
Proof.
  intros Hq. unfold read_quoted_string, parse_quoted_string.
  pose proof (collects_quoted _ (tail q) (Nat.lt_succ_diag_r _)) as HC.
  pose proof (read_quoted_part _ (tail q) (Nat.lt_succ_diag_r _) (cstring_tail _ Hq)) as HP.
  destruct (read_quoted (tail q)) as [t o]. apply parses_collect; [exact HC|].
  destruct HP as (_ & HP & _). cbn in HP. pose proof (zlen_tail q). lia.
Qed.

Lemma parses_string q : cstring q -> parses (parse_string q) (zlen q) (read_string q).
Proof.
  intros Hq. unfold parse_string, read_string.
  destruct (_ =? _); [by apply parses_quoted_string|by apply parses_symbol].
Qed.

Lemma parses_value q : cstring q -> parses (parse_value q) (zlen q) (read_value q).
Proof.
  intros Hq. unfold parse_value, read_value. destruct (is_digit _); [by apply parses_number|].
  destruct (_ =? _); [by apply parses_quoted_string|by apply parses_symbol].
Qed.

Lemma parses_wildcard q : q <> [] -> cstring q -> parses (parse_wildcard q) (zlen q) (read_wildcard q).
Proof.
  intros Hne Hq. unfold parse_wildcard, read_wildcard.
  set (m := add_char (cur q) ;; if cur (tail q) =? #"*" then add_char (cur (tail q)) ;; mret (tail (tail q)) else mret (tail q)).
  assert (HC : exists t r, collects m r t /\ zlen t <= zlen q /\
    (if cur (tail q) =? #"*" then ([cur q; cur (tail q)], tail (tail q)) else ([cur q], tail q)) = (t, r)).
  { destruct q as [|c q]; [done|]. cbn [cur tail] in *. subst m. pose proof (zlen_nonneg q). destruct (Z.eqb_spec (cur q) #"*") as [E|E].
    - exists [c; cur q], (tail q). split; [|split; [|done]].
      + apply (collects_bind _ _ tt _ [c] [cur q]); [apply collects_add_char|].
        apply (collects_bind _ _ tt _ [cur q] []); [apply collects_add_char|apply collects_ret].
      + destruct q as [|d q]; [done|]. rewrite !zlen_cons. change (zlen []) with 0. pose proof (zlen_nonneg q). lia.
    - exists [c], q. split; [|split; [rewrite !zlen_cons; change (zlen []) with 0; lia|done]].
      apply (collects_bind _ _ tt _ [c] []); [apply collects_add_char|apply collects_ret]. }
  destruct HC as (t & r & HC & HZ & ->).
  eapply parses_ext; [|apply (parses_token m (fun q => negb (cur q =? 0) && negb (cur q =? #"/"))); [exact HC|exact HZ]].
  intros s. unfold m, mbind, M_bind. destruct (reset_str s) as [[[]| | |] s1]; try done.
  destruct (add_char (cur q) s1) as [[[]| | |] s2]; try done.
Qed.

Lemma number_part q t r : cstring q -> read_number q = Some (t, r) -> part_of q t r.
Proof.
  intros Hq. unfold read_number. pose proof (span_part is_digit q Hq). destruct (span is_digit q) as [t' r'].
  destruct (_ && _); [done|]. intros E. by injection E as <- <-.
Qed.

Lemma symbol_part q t r : cstring q -> read_symbol q = Some (t, r) -> part_of q t r.
Proof.
  intros Hq. unfold read_symbol. pose proof (span_part is_symbol q Hq). destruct (span is_symbol q) as [t' r'].
  destruct (_ && _); [done|]. intros E. by injection E as <- <-.
Qed.

Lemma quoted_part q t r : cstring q -> read_quoted_string q = Some (t, r) -> part_of q t r.
Proof.
  intros Hq. unfold read_quoted_string.
  pose proof (read_quoted_part _ (tail q) (Nat.lt_succ_diag_r _) (cstring_tail _ Hq)) as HP.
  destruct (read_quoted (tail q)) as [t' [r'|]]; [|done]. intros E. injection E as <- <-. by apply part_tail.
Qed.

Lemma string_part q t r : cstring q -> read_string q = Some (t, r) -> part_of q t r.
Proof. unfold read_string. destruct (_ =? _); [apply quoted_part|apply symbol_part]. Qed.

Lemma value_part q t r : cstring q -> read_value q = Some (t, r) -> part_of q t r.
Proof.
  unfold read_value. destruct (is_digit _); [apply number_part|].
  destruct (_ =? _); [apply quoted_part|apply symbol_part].
Qed.

Lemma wildcard_part q t r : cstring q -> read_wildcard q = Some (t, r) -> q <> [] -> part_of q t r.
Proof.
  intros Hq. unfold read_wildcard. intros E Hne. destruct Hq as [|c q Hc Hq]; [done|]. cbn [cur tail] in E.
  destruct (Z.eqb_spec (cur q) #"*") as [Es|Es].
  - destruct Hq as [|d q Hd Hq]; [done|]. cbn [cur tail] in E. destruct (_ && _); [done|]. injection E as <- <-.
    by apply part_cons, part_cons, part_nil.
  - destruct (_ && _); [done|]. injection E as <- <-. by apply part_cons, part_nil.
Qed.

(** A parser of attributes agrees with its reader. *)
Definition agrees (m : M QueryState (option (Attribute * bytes))) (size : Z) (r : option (Attribute * bytes)) : Prop :=
  forall b s, str_fit b s -> size < b -> exists s', m s = (Ok r, s') /\ str_fit b s' /\ same_query s s'.

(** Parse a string, duplicate it, go on with [f]. *)
Lemma agrees_string (m : M QueryState (option bytes)) (f : bytes -> bytes -> M QueryState (option (Attribute * bytes)))
    size r g :
  parses m size r ->
  (forall t q, r = Some (t, q) -> cstring t /\ agrees (f t q) size (g t q)) ->
  agrees (q ←? m; t ← dup_str; f t q) size ('(t, q) ← r; g t q).
Proof.
  intros Hm Hf b s Hs Hb. destruct (Hm b s Hs Hb) as (s1 & E1 & Hs1 & Q1 & HT). unfold try_bind.
  rewrite (bind_ok _ _ _ _ _ E1). destruct r as [[t q]|]; cbn [snd fmap option_fmap option_map mbind option_bind].
  - destruct (Hf t q eq_refl) as [Ht Hf']. rewrite (bind_ok _ _ _ _ _ (HT Ht)).
    destruct (Hf' b s1 Hs1 Hb) as (s2 & E2 & Hs2 & Q2). exists s2. eauto.
  - exists s1. eauto.
Qed.

Lemma agrees_ret r size : agrees (mret r) size r.
Proof. intros b s Hs _. exists s. eauto. Qed.

Lemma agrees_le m n n' r : agrees m n r -> n <= n' -> agrees m n' r.
Proof. intros Hm Hn b s Hs Hb. apply Hm; [done|lia]. Qed.

Lemma query_parses_le {A} (m : M QueryState (option A)) n n' r : parses m n r -> n <= n' -> parses m n' r.
Proof. intros Hm Hn b s Hs Hb. apply Hm; [done|lia]. Qed.

Lemma part_zlen q t r : part_of q t r -> zlen r <= zlen q.
Proof. intros (_ & _ & u & -> & _). rewrite zlen_app. pose proof (zlen_nonneg u). lia. Qed.

Lemma agrees_property q : cstring q -> agrees (parse_property q) (zlen q) (read_property q).
Proof.
  intros Hq. unfold parse_property, read_property. apply agrees_string; [by apply parses_string|].
  intros t r E. pose proof (string_part _ _ _ Hq E) as HP. split; [apply HP|].
  pose proof (part_cstring _ _ _ Hq HP) as Hr. pose proof (part_zlen _ _ _ HP) as HZ. pose proof (zlen_tail r).
  destruct (cur r =? #"="); [|apply agrees_ret]. cbv zeta. destruct (is_separator _); [apply agrees_ret|].
  pose proof (cstring_tail _ Hr) as Hr'. apply agrees_string.
  - eapply query_parses_le; [by apply parses_value|lia].
  - intros v r' E'. split; [by apply (value_part _ _ _ Hr' E')|]. destruct (_ =? _); apply agrees_ret.
Qed.

Lemma agrees_item q : q <> [] -> cstring q ->
  agrees (if cur q =? #"*" then
            q ←? parse_wildcard q; value ← dup_str; mret (Some (Attr NoAttr NoAttr None value, q))
          else parse_property q) (zlen q) (read_item q).
Proof.
  intros Hne Hq. unfold read_item. destruct (_ =? _); [|by apply agrees_property].
  apply agrees_string; [by apply parses_wildcard|]. intros t r E.
  split; [by apply (wildcard_part _ _ _ Hq E Hne)|apply agrees_ret].
Qed.

(** An item is not empty. *)
Lemma symbol_separator c : is_symbol c = true -> is_separator c = false.
Proof.
  unfold is_symbol, is_separator, is_digit. intros Hc. apply not_true_is_false. intros Hs. revert Hc Hs.
  rewrite !orb_true_iff, !andb_true_iff, !Z.eqb_eq, !Z.leb_le. lia.
Qed.

Lemma read_string_progress q t r : read_string q = Some (t, r) -> is_separator (cur q) = false -> cstring q ->
  (length r < length q)%nat.
Proof.
  unfold read_string. intros E Hs Hq. destruct q as [|c q]; [done|]. cbn [cur] in *. destruct (_ =? _).
  - unfold read_quoted_string in E. cbn [tail] in E. apply Forall_cons in Hq as [_ Hq].
    pose proof (read_quoted_part _ q (Nat.lt_succ_diag_r _) Hq) as (_ & _ & u & HP & HL).
    destruct (read_quoted q) as [t' [r'|]]; [|done]. injection E as <- <-. cbn in HL |- *. lia.
  - unfold read_symbol in E. cbn [span] in E. destruct (is_symbol c).
    + apply Forall_cons in Hq as [_ Hq]. pose proof (span_part is_symbol q Hq) as (_ & _ & u & HP & HL).
      destruct (span is_symbol q) as [t' r']. destruct (_ && _); [done|]. injection E as <- <-. cbn in *. lia.
    + cbn [cur] in E. unfold is_separator in Hs. rewrite !orb_false_iff in Hs. destruct Hs as (((H1 & H2) & H3) & H4).
      by rewrite H1, H2, H3, H4 in E.
Qed.

Lemma read_item_progress q a r : read_item q = Some (a, r) -> is_separator (cur q) = false -> cstring q ->
  cstring r /\ (length r < length q)%nat /\ a <> NoAttr /\ cur r <> #"=".
Proof.
  unfold read_item. intros E Hs Hq. assert (Hne : q <> []) by (by intros ->). destruct (_ =? _).
  - destruct (read_wildcard q) as [[v r']|] eqn:EW; [|done]. cbn in E. injection E as <- <-.
    pose proof (wildcard_part _ _ _ Hq EW Hne) as HP. split; [by eapply part_cstring|].
    unfold read_wildcard in EW. destruct q as [|c q]; [done|]. cbn [cur tail] in EW.
    destruct (cur q =? #"*") eqn:E2.
    + destruct (_ && _) eqn:E3; [done|]. injection EW as <- <-. split; [destruct q; cbn; lia|]. split; [done|].
      intros E4. by rewrite E4 in E3.
    + destruct (_ && _) eqn:E3; [done|]. injection EW as <- <-. split; [cbn; lia|]. split; [done|].
      intros E4. by rewrite E4 in E3.
  - unfold read_property in E. destruct (read_string q) as [[n r1]|] eqn:ES; [|done]. cbn [mbind option_bind] in E.
    pose proof (string_part _ _ _ Hq ES) as HP. pose proof (part_cstring _ _ _ Hq HP) as Hr1.
    pose proof (read_string_progress _ _ _ ES Hs Hq) as HL. destruct (Z.eqb_spec (cur r1) #"=") as [E1|E1].
    + destruct (is_separator (cur (tail r1))); [done|]. destruct (read_value (tail r1)) as [[v r2]|] eqn:EV; [|done].
      cbn [mbind option_bind] in E. destruct (Z.eqb_spec (cur r2) #"="); [done|]. injection E as <- <-.
      pose proof (value_part _ _ _ (cstring_tail _ Hr1) EV) as HP2. split; [by eapply part_cstring, HP2; apply cstring_tail|].
      split; [|done]. destruct HP2 as (_ & _ & u & _ & HL2). destruct r1; cbn in *; lia.
    + injection E as <- <-. by split_and!.
Qed.

Lemma set_next_some a next : a <> NoAttr -> set_next a next <> NoAttr.
Proof. by destruct a. Qed.

Lemma separator_zero c : is_separator c = false -> c <> 0.
Proof. by intros H ->. Qed.

Lemma separator_cases c : c <> #"/" -> c <> #"," -> c <> #"=" -> c = 0 \/ is_separator c = false.
Proof. unfold is_separator. zcases. Qed.

Lemma agrees_loop fuel : forall q attr s b, cstring q -> str_fit b s -> zlen q < b ->
  cur q = 0 /\ attr <> NoAttr \/ is_separator (cur q) = false -> (length q < fuel)%nat ->
  exists s', parse_loop fuel attr q s = (Ok (read_loop fuel attr (qs_attrs s) q).2, s') /\
    qs_attrs s' = (read_loop fuel attr (qs_attrs s) q).1 /\ qs_abs_path s' = qs_abs_path s /\
    (read_loop fuel attr (qs_attrs s) q).2 <> Some NoAttr.
Proof.
  induction fuel as [|fuel IH]; intros q attr s b Hq Hs Hb Hc Hf; [lia|]. cbn [parse_loop read_loop].
  destruct (Z.eqb_spec (cur q) 0) as [E0|E0].
  { exists s. destruct Hc as [[_ Ha]|Hc]; [|by rewrite E0 in Hc]. split_and!; [done|done|done|]. intros [=]. by apply Ha. }
  destruct Hc as [[? _]|Hc]; [done|]. assert (Hne : q <> []) by (by intros ->).
  destruct Hs as [t Hs]. destruct (str_ok_reset b s t Hs) as (s1 & E1 & Hs1 & Q1). rewrite (bind_ok _ _ _ _ _ E1).
  destruct (agrees_item q Hne Hq b s1 (ex_intro _ _ Hs1) Hb) as (s2 & E2 & Hs2 & Q2).
  unfold try_bind at 1. rewrite (bind_ok _ _ _ _ _ E2).
  destruct (same_query_trans _ _ _ Q1 Q2) as [QA QP]. destruct (read_item q) as [[a r]|] eqn:ER.
  2:{ exists s2. by split_and!. }
  destruct (read_item_progress _ _ _ ER Hc Hq) as (Hr & HL & Ha & Heq). pose proof (set_next_some a attr Ha) as Ha'.
  assert (Hz : zlen r < b /\ zlen (tail r) < b) by (pose proof (zlen_tail r); unfold zlen in *; lia).
  assert (Ht : (length (tail r) <= length r)%nat) by (destruct r; cbn; lia).
  destruct (Z.eqb_spec (cur r) #"/") as [Es|Es]; [|destruct (Z.eqb_spec (cur r) #",") as [Ec|Ec]].
  - rewrite (bind_ok get _ s2 s2 s2 eq_refl), QA.
    rewrite (bind_ok (put _) _ s2 tt _ eq_refl). set (s3 := set_attrs _ s2).
    destruct (is_separator (cur (tail r))) eqn:Et; [exists s3; by split_and!|].
    assert (Hs3 : str_fit b s3) by (destruct Hs2 as [t2 []]; exists t2; by constructor).
    destruct (IH (tail r) NoAttr s3 b (cstring_tail _ Hr) Hs3) as (s' & E' & H1 & H2 & H3); [lia|by right|lia|].
    exists s'. split_and!; [exact E'|exact H1|by rewrite H2|exact H3].
  - destruct (is_separator (cur (tail r))) eqn:Et; [exists s2; by split_and!|].
    destruct (IH (tail r) (set_next a attr) s2 b (cstring_tail _ Hr) Hs2) as (s' & E' & H1 & H2 & H3); [lia|by right|lia|].
    rewrite QA in *. exists s'. split_and!; [exact E'|exact H1|congruence|exact H3].
  - destruct (IH r (set_next a attr) s2 b Hr Hs2) as (s' & E' & H1 & H2 & H3);
      [lia|destruct (separator_cases (cur r) Es Ec Heq); auto|lia|].
    rewrite QA in *. exists s'. split_and!; [exact E'|exact H1|congruence|exact H3].
Qed.

(** The parser agrees with the reader. *)
Lemma parse_query_agrees q s : cstring q -> zlen q < 2 ^ 60 ->
  exists s', parse_context_query (Some q) s = (Ok (read_query q).1.1, s') /\
    qs_attrs s' = (read_query q).1.2 /\ qs_abs_path s' = (read_query q).2.
Proof.
  intros Hq Hl. unfold parse_context_query. rewrite (bind_ok (put _) _ s tt _ eq_refl).
  destruct q as [|c q0]; [eexists; by split_and!|]. set (q := c :: q0) in *. unfold read_query. fold q.
  change (match q with [] => (0, NoAttr, false) | _ :: _ => ?x end) with x.
  set (s0 := Build_QueryState _ _ _ _ _). rewrite (bind_ok (modify _) _ s0 tt _ eq_refl).
  cbv zeta. set (abs := cur q =? #"/"). set (r := if abs then tail q else q).
  rewrite (bind_ok (modify _) _ _ tt _ eq_refl). set (s1 := set_abs_path abs _).
  destruct (is_separator (cur r)) eqn:Es; [exists s1; by split_and!|].
  assert (Hr : cstring r) by (subst r; destruct abs; [by apply cstring_tail|done]).
  assert (Hz : zlen r <= zlen q) by (subst r; destruct abs; [apply zlen_tail|done]).
  pose proof (zlen_nonneg r).
  assert (Hs1 : str_fit (Z.max 64 (zlen r + 1)) s1) by (exists []; constructor; done || (cbn; lia)).
  destruct (agrees_loop (S (length r)) r NoAttr s1 _ Hr Hs1) as (s2 & E2 & H1 & H2 & H3); [lia|by right|lia|].
  rewrite (bind_ok _ _ _ _ _ E2). change (qs_attrs s1) with NoAttr in *.
  destruct (read_loop _ _ _ r) as [attrs [attr|]]; cbn [fst snd] in *; [|exists s2; by split_and!].
  destruct attr as [|next parent name value]; [done|].
  rewrite (bind_ok get _ s2 s2 s2 eq_refl), H1, (bind_ok (put _) _ s2 tt _ eq_refl).
  eexists. split; [done|]. by split.
Qed.
