(* ===== verification/ContextQuerySpec.v ===== *)
(** * Context queries: what they mean

    Queries are printed by the grammar of contextquery.h and parsed back, and
    matching is given its meaning on paths of contexts. *)

From Stdlib Require Import Btauto.
From S2P Require Import Prelude ContextQuery ContextQueryParse.

(** ** Queries and their text *)

(** A part is a list of properties; a property without a name is a string or a
    wild card. *)
Abbreviation property := (option bytes * bytes)%type.
Abbreviation part := (list property).

Fixpoint escape (s : bytes) : bytes :=
  match s with
  | [] => []
  | c :: s => if (c =? QUOTE) || (c =? BACKSLASH) then BACKSLASH :: c :: escape s else c :: escape s
  end.

Definition quote (s : bytes) : bytes := QUOTE :: escape s ++ [QUOTE].

Definition all_nonempty (p : Z -> bool) (s : bytes) : bool := negb (bool_decide (s = [])) && forallb p s.

Definition print_string (s : bytes) : bytes := if all_nonempty is_symbol s then s else quote s.

Definition print_value (s : bytes) : bytes :=
  if all_nonempty is_digit s then s
  else if all_nonempty is_symbol s && negb (is_digit (cur s)) then s
  else quote s.

Definition print_property (p : property) : bytes :=
  match p with
  | (None, v) => print_string v
  | (Some n, v) => print_string n ++ #"=" :: print_value v
  end.

Fixpoint join (sep : Z) (l : list bytes) : bytes :=
  match l with
  | [] => []
  | [x] => x
  | x :: l => x ++ sep :: join sep l
  end.

Definition print_part (p : part) : bytes :=
  if bool_decide (p = [(None, WILD)]) then WILD
  else if bool_decide (p = [(None, WILD_SEQ)]) then WILD_SEQ
  else join #"," (print_property <$> p).

Definition print_query (abs : bool) (parts : list part) : bytes :=
  (if abs then [#"/"] else []) ++ join #"/" (print_part <$> parts).

(** The attributes of a part: the last property comes first. *)
Fixpoint chain (p : part) (attr : Attribute) : Attribute :=
  match p with
  | [] => attr
  | (n, v) :: p => chain p (Attr attr NoAttr n v)
  end.

Fixpoint attributes (parts : list part) (attrs : Attribute) : Attribute :=
  match parts with
  | [] => attrs
  | p :: parts => attributes parts (set_parent (chain p NoAttr) attrs)
  end.

Definition property_ok (p : property) : Prop :=
  cstring p.2 /\ match p.1 with Some n => cstring n | None => True end.

Definition query_ok (parts : list part) : Prop :=
  parts <> [] /\ Forall (fun p => p <> [] /\ Forall property_ok p) parts.

(** ** Reading back *)

Lemma span_all p t r : forallb p t = true -> p (cur r) = false \/ r = [] -> span p (t ++ r) = (t, r).
Proof.
  intros Ht Hr. induction t as [|c t IH]; cbn in *.
  - destruct r as [|c r]; [done|]. cbn in *. by destruct Hr as [->|].
  - apply andb_prop in Ht as [Hc Ht]. by rewrite Hc, IH.
Qed.

(** What may follow a string: [sep] allows an equality sign too. *)
Definition ends (eq : bool) (r : bytes) : Prop :=
  match r with
  | [] => True
  | c :: _ => c = #"/" \/ c = #"," \/ (eq = true /\ c = #"=")
  end.

Lemma ends_weaken eq r : ends false r -> ends eq r.
Proof. destruct r; [done|]. cbn. intros [?|[?|[? _]]]; auto; done. Qed.

Lemma read_quoted_escape s r : read_quoted (escape s ++ QUOTE :: r) = (s, Some r).
Proof.
  induction s as [|c s IH]; [done|]. cbn [escape].
  destruct (Z.eqb_spec c QUOTE) as [->|H1]; [cbn; by rewrite IH|].
  destruct (Z.eqb_spec c BACKSLASH) as [->|H2]; cbn [orb app read_quoted]; [cbn; by rewrite IH|].
  rewrite (proj2 (Z.eqb_neq _ _) H1), (proj2 (Z.eqb_neq _ _) H2). by rewrite IH.
Qed.

Lemma read_quote s r : read_quoted_string (quote s ++ r) = Some (s, r).
Proof.
  unfold read_quoted_string, quote. cbn [tail app]. rewrite <- app_assoc. cbn [app]. by rewrite read_quoted_escape.
Qed.

Lemma ends_symbol eq r : ends eq r -> is_symbol (cur r) = false \/ r = [].
Proof. destruct r as [|c r]; [by right|]. cbn. intros [->|[->|[_ ->]]]; by left. Qed.

Lemma ends_digit eq r : ends eq r -> is_digit (cur r) = false \/ r = [].
Proof. destruct r as [|c r]; [by right|]. cbn. intros [->|[->|[_ ->]]]; by left. Qed.

Lemma all_nonempty_cons p s : all_nonempty p s = true -> exists c t, s = c :: t /\ p c = true /\ forallb p s = true.
Proof.
  unfold all_nonempty. intros [H1 H2]%andb_prop. destruct s as [|c t]; [done|]. exists c, t.
  split; [done|]. split; [|done]. cbn in H2. by apply andb_prop in H2 as [].
Qed.

Lemma symbol_not_quote c : is_symbol c = true -> (c =? QUOTE) = false.
Proof. intros Hc. destruct (Z.eqb_spec c QUOTE) as [->|]; done. Qed.

Lemma read_symbol_app s r eq : forallb is_symbol s = true -> ends eq r -> read_symbol (s ++ r) = Some (s, r).
Proof.
  intros Hs Hr. unfold read_symbol. rewrite (span_all is_symbol s r Hs (ends_symbol _ _ Hr)).
  destruct r as [|c r]; [done|]. cbn in *. destruct Hr as [->|[->|[_ ->]]]; done.
Qed.

Lemma read_print_string s r : ends true r -> read_string (print_string s ++ r) = Some (s, r).
Proof.
  intros Hr. unfold print_string, read_string. destruct (all_nonempty is_symbol s) eqn:E.
  - destruct (all_nonempty_cons _ _ E) as (c & t & -> & Hc & Ht). cbn [cur app].
    rewrite (symbol_not_quote c Hc). by apply (read_symbol_app (c :: t) r true).
  - unfold quote at 1. cbn [app cur]. rewrite Z.eqb_refl. apply read_quote.
Qed.

Lemma read_print_value s r : ends false r -> read_value (print_value s ++ r) = Some (s, r).
Proof.
  intros Hr. unfold print_value, read_value. destruct (all_nonempty is_digit s) eqn:E.
  - destruct (all_nonempty_cons _ _ E) as (c & t & -> & Hc & Ht). cbn [cur app]. rewrite Hc.
    unfold read_number. change (c :: t ++ r) with ((c :: t) ++ r).
    rewrite (span_all is_digit (c :: t) r Ht (ends_digit _ _ Hr)).
    destruct r as [|d r]; [done|]. cbn in *. destruct Hr as [->|[->|[? _]]]; done.
  - destruct (all_nonempty is_symbol s && negb (is_digit (cur s))) eqn:E2.
    + apply andb_prop in E2 as [E2 E3%negb_true_iff].
      destruct (all_nonempty_cons _ _ E2) as (c & t & -> & Hc & Ht). cbn [cur app] in *.
      rewrite E3, (symbol_not_quote c Hc). by apply (read_symbol_app (c :: t) r true), ends_weaken.
    + unfold quote at 1 2. cbn [app cur]. change (is_digit QUOTE) with false. rewrite Z.eqb_refl. apply read_quote.
Qed.

(** The first character of what is printed. *)
Definition starts (l : bytes) : Prop := exists c t, l = c :: t /\ (is_symbol c = true \/ c = QUOTE).

Lemma starts_separator l r : starts l -> is_separator (cur (l ++ r)) = false.
Proof. intros (c & t & -> & [Hc| ->]); cbn; [by apply symbol_separator|done]. Qed.

Lemma starts_star l r : starts l -> (cur (l ++ r) =? #"*") = false.
Proof. intros (c & t & -> & [Hc| ->]); cbn; [|done]. destruct (Z.eqb_spec c #"*") as [->|]; done. Qed.

Lemma digit_symbol c : is_digit c = true -> is_symbol c = true.
Proof. unfold is_symbol. intros ->. by rewrite orb_true_r. Qed.

Lemma starts_quote s : starts (quote s).
Proof. exists QUOTE, (escape s ++ [QUOTE]). split; [done|by right]. Qed.

Lemma starts_string s : starts (print_string s).
Proof.
  unfold print_string. destruct (all_nonempty is_symbol s) eqn:E; [|apply starts_quote].
  destruct (all_nonempty_cons _ _ E) as (c & t & -> & Hc & _). exists c, t. split; [done|by left].
Qed.

Lemma starts_value s : starts (print_value s).
Proof.
  unfold print_value. destruct (all_nonempty is_digit s) eqn:E.
  - destruct (all_nonempty_cons _ _ E) as (c & t & -> & Hc & _). exists c, t. split; [done|by left; apply digit_symbol].
  - destruct (all_nonempty is_symbol s) eqn:E2; cbn [andb]; [|apply starts_quote].
    destruct (negb _); [|apply starts_quote].
    destruct (all_nonempty_cons _ _ E2) as (c & t & -> & Hc & _). exists c, t. split; [done|by left].
Qed.

Lemma starts_app l r : starts l -> starts (l ++ r).
Proof. intros (c & t & -> & Hc). by exists c, (t ++ r). Qed.

Lemma starts_property p : starts (print_property p).
Proof. destruct p as [[n|] v]; cbn; [apply starts_app|]; apply starts_string. Qed.

Lemma read_print_property n v r : ends false r ->
  read_property (print_property (n, v) ++ r) = Some (Attr NoAttr NoAttr n v, r).
Proof.
  intros Hr. unfold read_property. destruct n as [n|]; cbn [print_property].
  - rewrite <- app_assoc. cbn [app]. rewrite read_print_string by (cbn; auto). cbn [mbind option_bind cur].
    rewrite Z.eqb_refl. cbn [tail]. rewrite (starts_separator _ _ (starts_value v)), read_print_value by done.
    cbn [mbind option_bind]. destruct r as [|c r]; [done|]. cbn in *. destruct Hr as [->|[->|[? _]]]; done.
  - rewrite read_print_string by (by apply ends_weaken). cbn [mbind option_bind].
    destruct r as [|c r]; [done|]. cbn in *. destruct Hr as [->|[->|[? _]]]; done.
Qed.

(** Fuel above the length of the text makes no difference. *)
Lemma read_loop_fuel f1 : forall f2 q attr attrs, cstring q -> cur q = 0 \/ is_separator (cur q) = false ->
  (length q < f1)%nat -> (length q < f2)%nat -> read_loop f1 attr attrs q = read_loop f2 attr attrs q.
Proof.
  induction f1 as [|f1 IH]; intros f2 q attr attrs Hq Hc H1 H2; [lia|]. destruct f2 as [|f2]; [lia|].
  cbn [read_loop]. destruct (Z.eqb_spec (cur q) 0) as [|E0]; [done|]. destruct Hc as [|Hc]; [done|].
  destruct (read_item q) as [[a r]|] eqn:ER; [|done].
  destruct (read_item_progress _ _ _ ER Hc Hq) as (Hr & HL & Ha & Heq).
  assert (Ht : (length (tail r) <= length r)%nat) by (destruct r; cbn; lia).
  destruct (Z.eqb_spec (cur r) #"/") as [Es|Es]; [|destruct (Z.eqb_spec (cur r) #",") as [Ec|Ec]].
  - destruct (is_separator (cur (tail r))) eqn:Et; [done|]. apply IH; [by apply cstring_tail|by right|lia|lia].
  - destruct (is_separator (cur (tail r))) eqn:Et; [done|]. apply IH; [by apply cstring_tail|by right|lia|lia].
  - apply IH; [done|by apply separator_cases|lia|lia].
Qed.

(** The loop after a part. *)
Definition after_part (fuel : nat) (attr attrs : Attribute) (r : bytes) : Attribute * option Attribute :=
  match r with
  | [] => (attrs, Some attr)
  | _ :: r =>
      if is_separator (cur r) then (set_parent attr attrs, None)
      else read_loop fuel NoAttr (set_parent attr attrs) r
  end.

(** A part is followed by the next one or by nothing. *)
Definition part_end (r : bytes) : Prop := r = [] \/ exists r', r = #"/" :: r'.

Lemma part_end_ends r : part_end r -> ends false r.
Proof. intros [->|[r' ->]]; cbn; auto. Qed.

(** One turn of the loop for the last item of a part. *)
Lemma read_loop_last fuel fuel' q a r attr attrs : cstring q -> is_separator (cur q) = false ->
  read_item q = Some (a, r) -> part_end r -> (length q < fuel)%nat -> (length r <= fuel')%nat -> set_next a attr <> NoAttr ->
  read_loop fuel attr attrs q = after_part fuel' (set_next a attr) attrs r.
Proof.
  intros Hq Hs HI Hr Hf Hf' Ha. destruct fuel as [|fuel]; [lia|]. cbn [read_loop].
  rewrite (proj2 (Z.eqb_neq _ _)), HI by (by apply separator_zero).
  destruct (read_item_progress _ _ _ HI Hs Hq) as (Hcr & HL & _ & _). destruct Hr as [->|[r' ->]]; cbn [cur tail after_part].
  - cbn. destruct fuel; [destruct q; simpl in *; lia|]. done.
  - rewrite Z.eqb_refl. destruct (is_separator (cur r')) eqn:E; [done|]. apply Forall_cons in Hcr as [_ Hcr].
    simpl in *. apply read_loop_fuel; [done|by right|lia|lia].
Qed.

Lemma join_cons sep x l : join sep (x :: l) = x ++ match l with [] => [] | _ => sep :: join sep l end.
Proof. destruct l; cbn [join]; [by rewrite app_nil_r|done]. Qed.

Lemma item_of_property q : (cur q =? #"*") = false -> read_item q = read_property q.
Proof. unfold read_item. by intros ->. Qed.

Lemma read_loop_props p : forall fuel fuel' attr attrs r, p <> [] ->
  cstring (join #"," (print_property <$> p) ++ r) -> part_end r ->
  (length (join #"," (print_property <$> p) ++ r) < fuel)%nat -> (length r <= fuel')%nat ->
  read_loop fuel attr attrs (join #"," (print_property <$> p) ++ r) = after_part fuel' (chain p attr) attrs r.
Proof.
  induction p as [|[n v] p IH]; intros fuel fuel' attr attrs r Hne Hc Hr Hf Hf'; [done|].
  cbn [fmap list_fmap chain] in *. pose proof (starts_property (n, v)) as HS. destruct p as [|p2 p].
  - cbn [fmap list_fmap join] in *. eapply (read_loop_last fuel fuel' _ (Attr NoAttr NoAttr n v)); try done.
    + by apply starts_separator.
    + rewrite item_of_property by (by apply starts_star). by apply read_print_property, part_end_ends.
  - rewrite join_cons in Hc, Hf |- *. change (print_property <$> p2 :: p) with (print_property p2 :: (print_property <$> p)) in *.
    cbn [app] in *. rewrite <- app_assoc in Hc, Hf |- *. cbn [app] in Hc, Hf |- *.
    set (q := join _ (print_property p2 :: _) ++ r) in *.
    assert (Hcq : cstring q) by (apply Forall_app in Hc as [_ Hc]; by apply Forall_cons in Hc as []).
    assert (Hsq : is_separator (cur q) = false).
    { subst q. rewrite join_cons, <- app_assoc. apply starts_separator, starts_property. }
    destruct fuel as [|fuel]; [lia|]. cbn [read_loop].
    rewrite (proj2 (Z.eqb_neq _ _)) by (by apply separator_zero, starts_separator).
    rewrite item_of_property, read_print_property by (by apply starts_star || (cbn; auto)).
    cbn [cur tail]. change (#"," =? #"/") with false. rewrite Z.eqb_refl, Hsq. cbn [set_next].
    rewrite length_app in Hf. simpl in Hf. apply (IH fuel fuel'); [done|done|done|fold q; lia|done].
Qed.

Lemma print_part_starts p r : p <> [] -> is_separator (cur (print_part p ++ r)) = false.
Proof.
  intros Hp. unfold print_part. case_bool_decide; [done|]. case_bool_decide; [done|].
  destruct p as [|p1 p]; [done|]. cbn [fmap list_fmap]. rewrite join_cons, <- app_assoc.
  apply starts_separator, starts_property.
Qed.

Lemma read_loop_part p fuel fuel' attrs r : p <> [] -> cstring (print_part p ++ r) -> part_end r ->
  (length (print_part p ++ r) < fuel)%nat -> (length r <= fuel')%nat ->
  read_loop fuel NoAttr attrs (print_part p ++ r) = after_part fuel' (chain p NoAttr) attrs r.
Proof.
  intros Hp Hc Hr Hf Hf'. pose proof (print_part_starts p r Hp) as Hs. unfold print_part in *.
  case_bool_decide as E1; [|case_bool_decide as E2].
  - rewrite E1. eapply (read_loop_last fuel fuel' _ (Attr NoAttr NoAttr None WILD)); try done.
    destruct Hr as [->|[r' ->]]; done.
  - rewrite E2. eapply (read_loop_last fuel fuel' _ (Attr NoAttr NoAttr None WILD_SEQ)); try done.
    destruct Hr as [->|[r' ->]]; done.
  - by apply read_loop_props.
Qed.

Lemma read_loop_parts parts : forall p fuel attrs, Forall (fun p => p <> []) (p :: parts) ->
  cstring (join #"/" (print_part <$> p :: parts)) -> (length (join #"/" (print_part <$> p :: parts)) < fuel)%nat ->
  exists a A, read_loop fuel NoAttr attrs (join #"/" (print_part <$> p :: parts)) = (A, Some a) /\
    set_parent a A = attributes (p :: parts) attrs.
Proof.
  induction parts as [|p2 parts IH]; intros p fuel attrs Hne Hc Hf; apply Forall_cons in Hne as [Hp Hne].
  - cbn [fmap list_fmap join] in *. rewrite <- (app_nil_r (print_part p)) in Hc, Hf |- *.
    rewrite (read_loop_part p fuel 0 attrs []) by (done || by left). by eexists _, _.
  - assert (EJ : join #"/" (print_part <$> p :: p2 :: parts) =
      print_part p ++ #"/" :: join #"/" (print_part <$> p2 :: parts)) by (by rewrite fmap_cons, join_cons).
    rewrite EJ in Hc, Hf |- *. set (r := join #"/" (print_part <$> p2 :: parts)) in *.
    assert (Hcr : cstring r) by (apply Forall_app in Hc as [_ Hc]; by apply Forall_cons in Hc as []).
    rewrite (read_loop_part p fuel (S (length r)) attrs (#"/" :: r)); [|done|done|by right; exists r|done|cbn; lia].
    cbn [after_part]. assert (Hs : is_separator (cur r) = false).
    { subst r. rewrite fmap_cons, join_cons. apply print_part_starts. by apply Forall_cons in Hne as []. }
    rewrite Hs. destruct (IH p2 (S (length r)) (set_parent (chain p NoAttr) attrs) Hne Hcr) as (a & A & E & HA); [by fold r; lia|].
    exists a, A. by split.
Qed.

Lemma cstring_quote s : cstring s -> cstring (quote s).
Proof.
  intros Hs. constructor; [done|]. apply Forall_app. split; [|by repeat constructor].
  induction Hs as [|c s Hc Hs IH]; [constructor|]. cbn. destruct (_ || _); repeat constructor; done || lia.
Qed.

Lemma cstring_print_string s : cstring s -> cstring (print_string s).
Proof. intros Hs. unfold print_string. destruct (all_nonempty _ _); [done|by apply cstring_quote]. Qed.

Lemma cstring_print_value s : cstring s -> cstring (print_value s).
Proof.
  intros Hs. unfold print_value. destruct (all_nonempty _ _); [done|]. destruct (_ && _); [done|by apply cstring_quote].
Qed.

Lemma cstring_join sep l : 0 < sep < 256 -> Forall cstring l -> cstring (join sep l).
Proof.
  intros Hsep Hl. induction Hl as [|x l Hx Hl IH]; [constructor|]. rewrite join_cons. apply Forall_app. split; [done|].
  destruct l; [constructor|by constructor].
Qed.

Lemma cstring_print_query abs parts : Forall (fun p => p <> [] /\ Forall property_ok p) parts ->
  cstring (print_query abs parts).
Proof.
  intros Hp. apply Forall_app. split; [destruct abs; by repeat constructor|].
  apply cstring_join; [done|]. apply Forall_fmap. eapply Forall_impl; [exact Hp|]. intros p [_ Hpp]. cbn. unfold print_part.
  case_bool_decide; [by repeat constructor|]. case_bool_decide; [by repeat constructor|].
  apply cstring_join; [done|]. apply Forall_fmap. eapply Forall_impl; [exact Hpp|]. intros [[n|] v] [Hv Hn]; cbn in *.
  - apply Forall_app. split; [by apply cstring_print_string|]. constructor; [done|by apply cstring_print_value].
  - by apply cstring_print_string.
Qed.

Lemma read_print_query abs parts : query_ok parts ->
  read_query (print_query abs parts) = (0, attributes parts NoAttr, abs).
Proof.
  intros [Hne Hok]. pose proof (cstring_print_query abs parts Hok) as Hc. destruct parts as [|p parts]; [done|].
  assert (Hp : Forall (fun p => p <> []) (p :: parts)) by (eapply Forall_impl; [exact Hok|by intros ? []]).
  set (t := join #"/" (print_part <$> p :: parts)) in *.
  assert (Ht : is_separator (cur t) = false).
  { subst t. rewrite fmap_cons, join_cons. apply print_part_starts. by apply Forall_cons in Hp as []. }
  unfold print_query in *. fold t in Hc |- *. apply Forall_app in Hc as [_ Hc].
  assert (Hsl : (cur t =? #"/") = false).
  { destruct (Z.eqb_spec (cur t) #"/") as [E|]; [|done]. by rewrite E in Ht. }
  destruct (read_loop_parts parts p (S (length t)) NoAttr Hp Hc) as (a & A & E & HA); [fold t; lia|]. fold t in E.
  destruct t as [|c t'] eqn:Et; [done|]. unfold read_query. destruct abs; cbn [app].
  - cbv zeta. change (cur (#"/" :: c :: t') =? #"/") with true. cbn [tail]. rewrite Ht, E. by rewrite HA.
  - cbv zeta. rewrite Hsl, Ht, E. by rewrite HA.
Qed.

(** ** Matching *)

Section meaning.
Context {Ctx : Type} (comparators : list (Comparator Ctx)) (get_parent : Ctx -> option Ctx) (abs : bool).

(** A context and its ancestors. *)
Inductive ancestry : Ctx -> list Ctx -> Prop :=
| ancestry_top c : get_parent c = None -> ancestry c [c]
| ancestry_up c p l : get_parent c = Some p -> ancestry p l -> ancestry c (c :: l).

Definition property_matches (c : Ctx) (p : property) : bool :=
  match p with
  | (Some n, v) => match_attribute comparators c n v
  | (None, v) => bool_decide (v = WILD) || match_attribute comparators c NAME v
  end.

Definition part_matches (p : part) (c : Ctx) : bool := forallb (property_matches c) p.

(** The wild card of sequences is looked for in the last property. *)
Definition is_sequence (p : part) : bool := bool_decide (last p = Some (None, WILD_SEQ)).

(** Parts, the last one first, against a context and its ancestors. *)
Inductive path_matches : list part -> list Ctx -> Prop :=
| matches_first p c cs : is_sequence p = false -> part_matches p c = true -> (abs = true -> cs = []) ->
    path_matches [p] (c :: cs)
| matches_next p p' ps c cs : is_sequence p = false -> part_matches p c = true -> path_matches (p' :: ps) cs ->
    path_matches (p :: p' :: ps) (c :: cs)
| matches_any p c cs : is_sequence p = true -> path_matches [p] (c :: cs)
| matches_sequence p p' ps cs0 cs : is_sequence p = true -> path_matches (p' :: ps) cs ->
    path_matches (p :: p' :: ps) (cs0 ++ cs).

Lemma path_matches_nonempty ps cs : path_matches ps cs -> cs <> [].
Proof. induction 1; try done. by intros [-> ->]%app_eq_nil. Qed.

Lemma ancestry_head c l : ancestry c l -> exists cs, l = c :: cs.
Proof. destruct 1; eauto. Qed.

Lemma ancestry_parent c d cs : ancestry c (d :: cs) ->
  d = c /\ ((get_parent c = None /\ cs = []) \/ exists p, get_parent c = Some p /\ ancestry p cs).
Proof. intros H. inversion H; subst; split; eauto. Qed.

(** The attributes of a query, the last part first. *)
Fixpoint build (ps : list part) : Attribute :=
  match ps with
  | [] => NoAttr
  | p :: ps => set_parent (chain p NoAttr) (build ps)
  end.

Lemma attributes_build parts ps : attributes parts (build ps) = build (rev_append parts ps).
Proof. revert ps. induction parts as [|p parts IH]; intros ps; [done|]. cbn [attributes rev_append]. apply (IH (p :: ps)). Qed.

Lemma chain_app p1 p2 a : chain (p1 ++ p2) a = chain p2 (chain p1 a).
Proof. revert a. induction p1 as [|[n v] p1 IH]; intros a; [done|]. cbn. apply IH. Qed.

Lemma match_chain c p a : match_attributes comparators c (chain p a) = part_matches p c && match_attributes comparators c a.
Proof.
  revert a. induction p as [|[n v] p IH]; intros a; [done|]. cbn [chain part_matches forallb]. rewrite IH.
  cbn [match_attributes]. fold (part_matches p c). destruct n; cbn [property_matches]; btauto.
Qed.

Lemma match_set_parent c a up : match_attributes comparators c (set_parent a up) = match_attributes comparators c a.
Proof. by destruct a. Qed.

Lemma build_shape p ps : p <> [] -> exists next n v, build (p :: ps) = Attr next (build ps) n v /\
  (bool_decide (n = None) && bool_decide (v = WILD_SEQ)) = is_sequence p.
Proof.
  intros Hp. destruct (exists_last Hp) as (p' & [n v] & ->). exists (chain p' NoAttr), n, v. cbn [build]. rewrite chain_app.
  split; [done|]. unfold is_sequence. rewrite last_snoc.
  destruct n; repeat case_bool_decide; try done; simplify_eq.
Qed.

(** The loop over the ancestors. *)
Lemma match_ancestors_ok n f (P : list Ctx -> Prop) :
  (forall c l, ancestry c l -> (length l <= n)%nat -> exists b, f c = Some b /\ (b = true <-> P l)) ->
  forall k c cs, ancestry c (c :: cs) -> (length cs <= k)%nat -> (length cs <= n)%nat ->
  exists b, match_ancestors get_parent k f (get_parent c) = Some b /\
    (b = true <-> exists l1 l2, cs = l1 ++ l2 /\ l2 <> [] /\ P l2).
Proof.
  intros Hf k. induction k as [|k IH]; intros c cs Hc Hk Hn; apply ancestry_parent in Hc as [_ [[-> ->]|(p & -> & Hp)]].
  - exists false. split; [done|]. split; [done|]. intros (l1 & l2 & E & Hne & _). by apply symmetry, app_eq_nil in E as [_ ->].
  - destruct (ancestry_head _ _ Hp) as [cs' ->]. simpl in Hk. lia.
  - exists false. split; [done|]. split; [done|]. intros (l1 & l2 & E & Hne & _). by apply symmetry, app_eq_nil in E as [_ ->].
  - cbn [match_ancestors]. destruct (ancestry_head _ _ Hp) as [cs' ->]. simpl in Hk, Hn.
    destruct (Hf p (p :: cs') Hp Hn) as (b & -> & Hb). cbn [mbind option_bind]. destruct b.
    + exists true. split; [done|]. split; [|done]. intros _. exists [], (p :: cs'). split; [done|]. split; [done|]. by apply Hb.
    + destruct (IH p cs' Hp) as (b & -> & Hb'); [lia|lia|]. exists b. split; [done|]. rewrite Hb'. split.
      * intros (l1 & l2 & -> & Hne & HP). by exists (p :: l1), l2.
      * intros (l1 & l2 & E & Hne & HP). destruct l1 as [|x l1]; cbn in E.
        -- subst l2. apply Hb in HP. done.
        -- injection E as <- ->. by exists l1, l2.
Qed.

(** The first part of a query. *)
Lemma match_last n p next nm v c cs : ancestry c (c :: cs) ->
  (bool_decide (nm = None) && bool_decide (v = WILD_SEQ)) = is_sequence p ->
  match_attributes comparators c (Attr next NoAttr nm v) = part_matches p c ->
  exists b, match_query comparators get_parent abs n (Attr next NoAttr nm v) c = Some b /\
    (b = true <-> path_matches [p] (c :: cs)).
Proof.
  intros Hc ES HA. cbn [match_query]. rewrite ES, HA. cbn [is_null]. destruct (is_sequence p) eqn:EQ.
  - exists true. split; [done|]. split; [|done]. intros _. by constructor.
  - cbn [mbind option_bind negb andb]. apply ancestry_parent in Hc as [_ Hc].
    assert (HB : path_matches [p] (c :: cs) <-> part_matches p c = true /\ (abs = true -> cs = [])).
    { split; [intros H; inversion H; subst; by auto || congruence|]. intros []. by constructor. }
    setoid_rewrite HB. destruct abs; cbn [andb].
    + destruct Hc as [[-> ->]|(q & -> & Hq)]; cbn.
      * eexists. split; [done|]. split; [by auto|by intros []].
      * exists false. split; [done|]. destruct (ancestry_head _ _ Hq) as [cs' ->].
        split; [done|]. intros [_ H]. by specialize (H eq_refl).
    + eexists. split; [done|]. split; [by auto|by intros []].
Qed.

Lemma match_query_ok n ps : Forall (fun p => p <> []) ps -> ps <> [] -> forall c l, ancestry c l ->
  (length l <= S n)%nat ->
  exists b, match_query comparators get_parent abs n (build ps) c = Some b /\ (b = true <-> path_matches ps l).
Proof.
  induction ps as [|p ps IH]; intros Hne Hps c l Hc Hl; [done|]. apply Forall_cons in Hne as [Hp Hne].
  destruct (build_shape p ps Hp) as (next & nm & v & EB & ES). destruct (ancestry_head _ _ Hc) as [cs ->].
  pose proof (match_chain c p NoAttr) as HM. cbn [match_attributes] in HM. rewrite andb_true_r in HM.
  assert (HA : match_attributes comparators c (Attr next (build ps) nm v) = part_matches p c)
    by (rewrite <- EB; cbn [build]; by rewrite match_set_parent).
  rewrite EB. destruct ps as [|p2 ps]; [by apply match_last|]. cbn [match_query]. rewrite ES, HA.
  destruct (build_shape p2 ps) as (next2 & nm2 & v2 & EB2 & _); [by apply Forall_cons in Hne as []|].
  specialize (IH Hne ltac:(done)). set (up := build (p2 :: ps)) in *. 
  assert (HU : is_null up = false) by (by rewrite EB2).
  destruct (is_sequence p) eqn:EQ.
  - destruct (IH c (c :: cs) Hc Hl) as (b & E & Hb).
    assert (HB : path_matches (p :: p2 :: ps) (c :: cs) <-> exists l1 l2, c :: cs = l1 ++ l2 /\ path_matches (p2 :: ps) l2).
    { split; [intros H; inversion H; subst; try congruence; eauto|]. intros (l1 & l2 & -> & H). by constructor. }
    setoid_rewrite HB. destruct up as [|] eqn:EU; [done|]. rewrite <- EU in *. rewrite E. cbn [mbind option_bind]. destruct b.
    + exists true. split; [done|]. split; [|done]. intros _. exists [], (c :: cs). split; [done|]. by apply Hb.
    + simpl in Hl. destruct (match_ancestors_ok n (match_query comparators get_parent abs n up) (path_matches (p2 :: ps)))
        with (k := n) (c := c) (cs := cs) as (b & -> & Hb'); [intros d l Hd Hld; apply IH; [done|lia]|done|lia|lia|].
      exists b. split; [done|]. rewrite Hb'. split.
      * intros (l1 & l2 & -> & _ & H). by exists (c :: l1), l2.
      * intros (l1 & l2 & E2 & H). destruct l1 as [|x l1]; cbn in E2; [subst l2; by apply Hb in H|].
        injection E2 as <- ->. exists l1, l2. split; [done|]. split; [by eapply path_matches_nonempty|done].
  - assert (HB : path_matches (p :: p2 :: ps) (c :: cs) <-> part_matches p c = true /\ path_matches (p2 :: ps) cs).
    { split; [intros H; inversion H; subst; by auto || congruence|]. intros []. by constructor. }
    setoid_rewrite HB. apply ancestry_parent in Hc as [_ [[-> ->]|(q & -> & Hq)]].
    + exists false. split; [by destruct up|]. split; [done|]. intros [_ H]. by apply path_matches_nonempty in H.
    + simpl in Hl. destruct (IH q cs Hq) as (b & E & Hb); [lia|].
      destruct up as [|] eqn:EU; [done|]. rewrite <- EU in *. rewrite E, HU. cbn [mbind option_bind andb]. setoid_rewrite <- Hb.
      destruct b; cbn [negb]; (eexists; split; [done|]); [by split; [auto|intros []]|by split; [done|intros []]].
Qed.
End meaning.

(** ** The theorems *)

(** C38: the parser accepts every query of the grammar and builds its attributes:
    strings of any characters, in quotes or not, numbers, wild cards, any number
    of properties and parts. *)
Theorem context_query_parsed abs parts s : query_ok parts -> zlen (print_query abs parts) < 2 ^ 60 ->
  exists s', parse_context_query (Some (print_query abs parts)) s = (Ok 0, s') /\
    qs_attrs s' = build (reverse parts) /\ qs_abs_path s' = abs.
Proof.
  intros Hok Hl. pose proof (cstring_print_query abs parts (proj2 Hok)) as Hc.
  destruct (parse_query_agrees _ s Hc Hl) as (s' & E & HA & HP). rewrite (read_print_query abs parts Hok) in *.
  exists s'. split; [exact E|]. split; [|exact HP]. rewrite HA. apply (attributes_build parts []).
Qed.


Lemma match_query_total {Ctx} (comparators : list (Comparator Ctx)) get_parent abs n a : a <> NoAttr ->
  forall c l, ancestry get_parent c l -> (length l <= S n)%nat ->
  exists b, match_query comparators get_parent abs n a c = Some b.
Proof.
  induction a as [|next _ up IH name value]; intros Ha c l Hc Hl; [done|]. cbn [match_query].
  destruct (ancestry_head _ _ _ Hc) as [cs ->].
  destruct (bool_decide _ && bool_decide _).
  - destruct up as [|nx u nm v] eqn:EU; [by eexists|]. rewrite <- EU in *. assert (Hu : up <> NoAttr) by (by rewrite EU).
    destruct (IH Hu c (c :: cs) Hc Hl) as [[] ->]; cbn [mbind option_bind]; [by eexists|]. simpl in Hl.
    destruct (match_ancestors_ok get_parent n (match_query comparators get_parent abs n up)
      (fun l => match l with d :: _ => match_query comparators get_parent abs n up d = Some true | [] => False end))
      with (k := n) (c := c) (cs := cs) as (b & E & _); [|done|lia|lia|by exists b].
    intros d l Hd Hld. destruct (IH Hu d l Hd) as [b E]; [lia|]. exists b. split; [done|].
    destruct (ancestry_head _ _ _ Hd) as [ds ->]. rewrite E. split; [by intros ->|by intros [= ->]].
  - destruct (ancestry_parent _ _ _ _ Hc) as [_ [[-> ->]|(p & -> & Hp)]].
    + destruct up; cbn [mbind option_bind]; [|by eexists]. cbn [negb]. destruct (_ && _ && _); by eexists.
    + simpl in Hl. destruct up as [|nx u nm v] eqn:EU.
      * cbn [mbind option_bind negb]. destruct (_ && _ && _); by eexists.
      * rewrite <- EU in *. destruct (IH ltac:(by rewrite EU) p cs Hp) as [b ->]; [lia|]. cbn [mbind option_bind].
        destruct b; cbn [negb]; [|by eexists]. destruct (_ && _ && _); by eexists.
Qed.

Lemma read_query_code q : (read_query q).1.1 = 0 \/ (read_query q).1.1 = -1.
Proof.
  unfold read_query. destruct q as [|c q]; [by left|]. cbv zeta. destruct (is_separator _); [by right|].
  destruct (read_loop _ _ _ _) as [attrs [attr|]]; [by left|by right].
Qed.

(** C39: any text can be given as a query: the parser returns 0 or -1 without
    reading or writing outside of the text and of its buffer, however long the
    strings are, and what it leaves can be matched against any context. *)
Theorem context_query_total {Ctx} (comparators : list (Comparator Ctx)) get_parent n c l q s :
  ancestry get_parent c l -> (length l <= S n)%nat -> cstring q -> zlen q < 2 ^ 60 ->
  exists r s', parse_context_query (Some q) s = (Ok r, s') /\ (r = 0 \/ r = -1) /\
  exists b, context_query comparators get_parent n c (Some q) s = (Ok b, s').
Proof.
  intros Hc Hn Hq Hl. destruct (parse_query_agrees q s Hq Hl) as (s' & E & _ & _). exists (read_query q).1.1, s'.
  split; [exact E|]. split; [apply read_query_code|]. unfold context_query.
  rewrite (bind_ok _ _ _ _ _ E), (bind_ok get _ s' s' s' eq_refl). unfold run_context_query_ext.
  destruct (qs_attrs s') as [|next up name value] eqn:EA; [by eexists|]. rewrite <- EA.
  destruct (match_query_total comparators get_parent (qs_abs_path s') n (qs_attrs s')) with (c := c) (l := l)
    as [b EM]; [by rewrite EA|done|done|]. exists b. by rewrite EM.
Qed.

(** ** Examples: a context is the list of the names on its path *)

Definition path_parent (c : list bytes) : option (list bytes) :=
  match c with
  | _ :: (_ :: _) as p => Some p
  | _ => None
  end.

Definition path_comparators : list (Comparator (list bytes)) :=
  add_context_query_comparator NAME (fun _ c v => bool_decide (head c = Some v)) [].

Definition no_query : QueryState :=
  {| qs_attrs := NoAttr; qs_str_buf := []; qs_str_pos := 0; qs_str_max := 0; qs_abs_path := false |}.

Definition selects (q : string) (c : list string) : outcome bool :=
  (context_query path_comparators path_parent 9 (str <$> c) (Some (str q)) no_query).1.

Lemma path_ancestry : ancestry path_parent [str "b"; str "a"] [[str "b"; str "a"]; [str "a"]].
Proof. apply (ancestry_up _ _ [str "a"]); [done|]. by apply ancestry_top. Qed.

Lemma context_query_parsed_witness :
  let parts := [[(None, str "a b")]; [(None, WILD_SEQ)]; [(Some (str "pid"), str "12"); (Some (str "x_1"), [])]] in
  query_ok parts /\ zlen (print_query true parts) < 2 ^ 60 /\
  exists s', parse_context_query (Some (print_query true parts)) no_query = (Ok 0, s') /\
    qs_attrs s' = build (reverse parts) /\ qs_abs_path s' = true.
Proof.
  intros parts.
  assert (Hok : query_ok parts) by (split; [done|]; repeat constructor; done).
  assert (Hl : zlen (print_query true parts) < 2 ^ 60) by done.
  split; [exact Hok|]. split; [exact Hl|]. exact (context_query_parsed true parts no_query Hok Hl).
Defined.


Lemma context_query_total_witness : cstring (str "a/=") /\
  exists r s', parse_context_query (Some (str "a/=")) no_query = (Ok r, s') /\ (r = 0 \/ r = -1) /\
  exists b, context_query path_comparators path_parent 9 [str "b"; str "a"] (Some (str "a/=")) no_query = (Ok b, s').
Proof.
  assert (Hq : cstring (str "a/=")) by (by repeat constructor). split; [exact Hq|].
  exact (context_query_total path_comparators path_parent 9 _ _ (str "a/=") no_query path_ancestry
    ltac:(simpl; lia) Hq ltac:(done)).
Defined.

(** A query with an error in its first part selects every context. *)
Lemma invalid_query_selects : selects "!" ["b"; "a"]%string = Ok true.
Proof. vm_compute. reflexivity. Qed.

(** The sequence may be empty at the end of a query, not at its start. *)
Lemma empty_sequence :
  selects "/server/**" ["server"]%string = Ok true /\ selects "**/server" ["server"]%string = Ok false.
Proof. vm_compute. done. Qed.
