(* ===== verification/StreamsSvc.v ===== *)
(** * Streams service (services/streamsservice.c)

    Virtual streams: a buffer between a client of the service inside of the agent
    and any number of clients on channels, who read or write it with commands
    that wait until there are data or room.

    Intrusive lists are lists of addresses.  Events are a queue of calls that
    [sw_posted] holds until the dispatch loop runs them.  The channels are the
    owners of their streams; numbers of errors are those of [ErrnoIf]. *)

From stdpp Require Import gmap.
From S2P Require Import Prelude Ring Streams JsonWrite JsonRead JsonBinary OutputBuf.

Definition ERR_COMMAND_CANCELLED : Z := STD_ERR_BASE + 6.
Definition VS_EVENT_SPACE_AVAILABLE : Z := 1.
Definition VS_EVENT_DATA_AVAILABLE : Z := 2.
Definition VS_ENABLE_REMOTE_READ : Z := 1.
Definition VS_ENABLE_REMOTE_WRITE : Z := 2.
Definition HANDLE_HASH_SIZE : Z := 4 * MEM_USAGE_FACTOR - 1.
Definition STREAMS : bytes := str "Streams".
Definition STREAM_BASE_ID : bytes := str "VS".

(** Errors: [set_fmt_errno] with the text that has been formatted returns the
    number, [write_errno] writes to the stream of a channel. *)
Class ErrnoIf (E Ch : Type) := {
  set_fmt_errno : Z -> bytes -> M E Z;
  write_errno : Z -> M (E * Ch) unit;
}.

(** A stream is still a stream when errors are next to it. *)
Definition snd_lift {E Ch A} (m : M Ch A) : M (E * Ch) A := fun '(e, c) => let '(r, c) := m c in (r, (e, c)).

#[export] Instance pair_OutputStream {E} `{OutputStream Ch} : OutputStream (E * Ch) := {
  os_supports_zero_copy s := os_supports_zero_copy (snd s);
  os_cur_null s := os_cur_null (snd s);
  os_space s := os_space (snd s);
  os_store l := snd_lift (os_store l);
  os_write b := snd_lift (os_write b);
  os_write_block l := snd_lift (os_write_block l);
}.

(** ** The data *)

Record ReadRequest := { rr_token : bytes; rr_size : Z }.

Record WriteRequest := {
  wr_token : bytes;
  wr_data : bytes;
  wr_offs : Z;
  wr_size : Z;
  wr_eos : bool;
}.

Record StreamClient := {
  sc_read_requests : list ReadRequest;
  sc_write_requests : list WriteRequest;
  sc_stream : Z;
  sc_channel : Z;
  sc_pos : Z;
}.

(** [vs_clients] are addresses of clients; [vs_callback] is [None] for [NULL]. *)
Record VirtualStream := {
  vs_type : bytes;
  vs_id : Z;
  vs_access : Z;
  vs_callback : option Z;
  vs_ref_cnt : Z;
  vs_deleted : bool;
  vs_clients : list Z;
  vs_pos : Z;
  vs_buf : bytes;
  vs_buf_len : Z;
  vs_buf_inp : Z;
  vs_buf_out : Z;
  vs_eos_inp : bool;
  vs_eos_out : bool;
  vs_data_available_posted : bool;
  vs_space_available_posted : bool;
}.

Record Subscription := { sb_type : bytes; sb_channel : Z }.

(** The event handlers that are posted with a stream as the argument. *)
Inductive StreamEvent := delete_stream_event | notify_data_event | notify_space_event.

Record StreamWorld (E Ch : Type) := {
  sw_streams : gmap Z VirtualStream;
  sw_clients : gmap Z StreamClient;
  sw_all_streams : list Z;
  sw_all_clients : list Z;
  sw_hash : list (list Z);
  sw_subscriptions : list Subscription;
  sw_id_cnt : Z;
  sw_brk : Z;
  sw_posted : list (StreamEvent * Z);
  sw_channels : gmap Z Ch;
  sw_errors : E;
}.
Arguments sw_streams {E Ch} _. Arguments sw_clients {E Ch} _. Arguments sw_all_streams {E Ch} _. Arguments sw_all_clients {E Ch} _.
Arguments sw_hash {E Ch} _. Arguments sw_subscriptions {E Ch} _. Arguments sw_id_cnt {E Ch} _. Arguments sw_brk {E Ch} _.
Arguments sw_posted {E Ch} _. Arguments sw_channels {E Ch} _. Arguments sw_errors {E Ch} _.
Arguments Build_StreamWorld {E Ch} _ _ _ _ _ _ _ _ _ _ _.

Section setters.
Context {E Ch : Type}.
Implicit Types w : StreamWorld E Ch.

Definition set_streams x w : StreamWorld E Ch := Build_StreamWorld x (sw_clients w) (sw_all_streams w) (sw_all_clients w) (sw_hash w) (sw_subscriptions w) (sw_id_cnt w) (sw_brk w) (sw_posted w) (sw_channels w) (sw_errors w).
Definition set_clients x w : StreamWorld E Ch := Build_StreamWorld (sw_streams w) x (sw_all_streams w) (sw_all_clients w) (sw_hash w) (sw_subscriptions w) (sw_id_cnt w) (sw_brk w) (sw_posted w) (sw_channels w) (sw_errors w).
Definition set_all_streams x w : StreamWorld E Ch := Build_StreamWorld (sw_streams w) (sw_clients w) x (sw_all_clients w) (sw_hash w) (sw_subscriptions w) (sw_id_cnt w) (sw_brk w) (sw_posted w) (sw_channels w) (sw_errors w).
Definition set_all_clients x w : StreamWorld E Ch := Build_StreamWorld (sw_streams w) (sw_clients w) (sw_all_streams w) x (sw_hash w) (sw_subscriptions w) (sw_id_cnt w) (sw_brk w) (sw_posted w) (sw_channels w) (sw_errors w).
Definition set_hash x w : StreamWorld E Ch := Build_StreamWorld (sw_streams w) (sw_clients w) (sw_all_streams w) (sw_all_clients w) x (sw_subscriptions w) (sw_id_cnt w) (sw_brk w) (sw_posted w) (sw_channels w) (sw_errors w).
Definition set_subscriptions x w : StreamWorld E Ch := Build_StreamWorld (sw_streams w) (sw_clients w) (sw_all_streams w) (sw_all_clients w) (sw_hash w) x (sw_id_cnt w) (sw_brk w) (sw_posted w) (sw_channels w) (sw_errors w).
Definition set_id_cnt x w : StreamWorld E Ch := Build_StreamWorld (sw_streams w) (sw_clients w) (sw_all_streams w) (sw_all_clients w) (sw_hash w) (sw_subscriptions w) x (sw_brk w) (sw_posted w) (sw_channels w) (sw_errors w).
Definition set_brk x w : StreamWorld E Ch := Build_StreamWorld (sw_streams w) (sw_clients w) (sw_all_streams w) (sw_all_clients w) (sw_hash w) (sw_subscriptions w) (sw_id_cnt w) x (sw_posted w) (sw_channels w) (sw_errors w).
Definition set_posted x w : StreamWorld E Ch := Build_StreamWorld (sw_streams w) (sw_clients w) (sw_all_streams w) (sw_all_clients w) (sw_hash w) (sw_subscriptions w) (sw_id_cnt w) (sw_brk w) x (sw_channels w) (sw_errors w).
Definition set_channels (x : gmap Z Ch) w : StreamWorld E Ch := Build_StreamWorld (sw_streams w) (sw_clients w) (sw_all_streams w) (sw_all_clients w) (sw_hash w) (sw_subscriptions w) (sw_id_cnt w) (sw_brk w) (sw_posted w) x (sw_errors w).
Definition set_errors (x : E) w : StreamWorld E Ch := Build_StreamWorld (sw_streams w) (sw_clients w) (sw_all_streams w) (sw_all_clients w) (sw_hash w) (sw_subscriptions w) (sw_id_cnt w) (sw_brk w) (sw_posted w) (sw_channels w) x.
End setters.

Definition set_ref_cnt n x := Build_VirtualStream (vs_type x) (vs_id x) (vs_access x) (vs_callback x) n (vs_deleted x) (vs_clients x) (vs_pos x) (vs_buf x) (vs_buf_len x) (vs_buf_inp x) (vs_buf_out x) (vs_eos_inp x) (vs_eos_out x) (vs_data_available_posted x) (vs_space_available_posted x).
Definition set_deleted n x := Build_VirtualStream (vs_type x) (vs_id x) (vs_access x) (vs_callback x) (vs_ref_cnt x) n (vs_clients x) (vs_pos x) (vs_buf x) (vs_buf_len x) (vs_buf_inp x) (vs_buf_out x) (vs_eos_inp x) (vs_eos_out x) (vs_data_available_posted x) (vs_space_available_posted x).
Definition set_vs_clients n x := Build_VirtualStream (vs_type x) (vs_id x) (vs_access x) (vs_callback x) (vs_ref_cnt x) (vs_deleted x) n (vs_pos x) (vs_buf x) (vs_buf_len x) (vs_buf_inp x) (vs_buf_out x) (vs_eos_inp x) (vs_eos_out x) (vs_data_available_posted x) (vs_space_available_posted x).
Definition set_vs_input buf inp pos eos x := Build_VirtualStream (vs_type x) (vs_id x) (vs_access x) (vs_callback x) (vs_ref_cnt x) (vs_deleted x) (vs_clients x) pos buf (vs_buf_len x) inp (vs_buf_out x) eos (vs_eos_out x) (vs_data_available_posted x) (vs_space_available_posted x).
Definition set_buf_out n x := Build_VirtualStream (vs_type x) (vs_id x) (vs_access x) (vs_callback x) (vs_ref_cnt x) (vs_deleted x) (vs_clients x) (vs_pos x) (vs_buf x) (vs_buf_len x) (vs_buf_inp x) n (vs_eos_inp x) (vs_eos_out x) (vs_data_available_posted x) (vs_space_available_posted x).
Definition set_eos_out n x := Build_VirtualStream (vs_type x) (vs_id x) (vs_access x) (vs_callback x) (vs_ref_cnt x) (vs_deleted x) (vs_clients x) (vs_pos x) (vs_buf x) (vs_buf_len x) (vs_buf_inp x) (vs_buf_out x) (vs_eos_inp x) n (vs_data_available_posted x) (vs_space_available_posted x).
Definition set_data_posted n x := Build_VirtualStream (vs_type x) (vs_id x) (vs_access x) (vs_callback x) (vs_ref_cnt x) (vs_deleted x) (vs_clients x) (vs_pos x) (vs_buf x) (vs_buf_len x) (vs_buf_inp x) (vs_buf_out x) (vs_eos_inp x) (vs_eos_out x) n (vs_space_available_posted x).
Definition set_space_posted n x := Build_VirtualStream (vs_type x) (vs_id x) (vs_access x) (vs_callback x) (vs_ref_cnt x) (vs_deleted x) (vs_clients x) (vs_pos x) (vs_buf x) (vs_buf_len x) (vs_buf_inp x) (vs_buf_out x) (vs_eos_inp x) (vs_eos_out x) (vs_data_available_posted x) n.

Definition set_read_requests l x := Build_StreamClient l (sc_write_requests x) (sc_stream x) (sc_channel x) (sc_pos x).
Definition set_write_requests l x := Build_StreamClient (sc_read_requests x) l (sc_stream x) (sc_channel x) (sc_pos x).
Definition set_sc_pos n x := Build_StreamClient (sc_read_requests x) (sc_write_requests x) (sc_stream x) (sc_channel x) n.
Definition set_wr_offs n r := Build_WriteRequest (wr_token r) (wr_data r) n (wr_size r) (wr_eos r).

(** What is in the buffer, and what fits into it, of type [size_t]. *)
Definition buf_used (x : VirtualStream) : Z := u64 (vs_buf_inp x + vs_buf_len x - vs_buf_out x) mod vs_buf_len x.
Definition buf_room (x : VirtualStream) : Z := u64 (vs_buf_out x + vs_buf_len x - vs_buf_inp x - 1) mod vs_buf_len x.

(** ** Names of streams *)

(** [strtoul(s, &p, 10)]: the number, and what [p] points to. *)
Fixpoint skip_spaces (s : bytes) : bytes :=
  match s with c :: l => if isspace c then skip_spaces l else s | [] => [] end.
Fixpoint take_digits (s : bytes) : bytes * bytes :=
  match s with
  | c :: l => if is_digit c then let '(d, r) := take_digits l in (c :: d, r) else ([], s)
  | [] => ([], [])
  end.
Definition strtoul (s : bytes) : Z * bytes :=
  let '(neg, l) := match skip_spaces s with
    | c :: l => if c =? #"-" then (true, l) else if c =? #"+" then (false, l) else (false, c :: l)
    | [] => (false, [])
    end in
  match take_digits l with
  | ([], _) => (0, s)
  | (d, r) => let n := dec_value d in (if 2 ^ 64 <=? n then 2 ^ 64 - 1 else if neg : bool then u64 (- n) else n, r)
  end.

Fixpoint skip_prefix (p s : bytes) : option bytes :=
  match p, s with
  | [], _ => Some s
  | c :: p, d :: s => if d =? c then skip_prefix p s else None
  | _ :: _, [] => None
  end.

Definition str2id (s : bytes) : option Z :=
  match skip_prefix STREAM_BASE_ID s with
  | Some s => let '(n, p) := strtoul s in match p with [] => Some (u32 n) | _ :: _ => None end
  | None => None
  end.

Definition virtual_stream_get_id (x : VirtualStream) : bytes := STREAM_BASE_ID ++ dec_text (vs_id x).

Definition get_client_hash (id c : Z) : Z := u32 (id + u32 c) mod HANDLE_HASH_SIZE.

(** [strlcpy] into an array of 256 bytes. *)
Definition strlcpy256 (s : bytes) : bytes := ztake 255 s.

Section service.
Context {E Ch : Type} `{InputStream Ch} `{OutputStream Ch} `{ErrnoIf E Ch}.
(** The clients of the service inside of the agent: [stream->callback(stream, event, args)]. *)
Context (call_back : Z -> Z -> Z -> M (StreamWorld E Ch) unit).

Abbreviation W := (M (StreamWorld E Ch)).

(** [c->out] and [c->inp]. *)
Definition on_out {A} (c : Z) (m : M (E * Ch) A) : W A := fun w =>
  match sw_channels w !! c with
  | None => (Undef, w)
  | Some ch => let '(r, (e, ch)) := m (sw_errors w, ch) in (r, set_errors e (set_channels (<[c := ch]> (sw_channels w)) w))
  end.
Definition on_inp {A} (c : Z) (m : M Ch A) : W A := fun w =>
  match sw_channels w !! c with
  | None => (Undef, w)
  | Some ch => let '(r, ch) := m ch in (r, set_channels (<[c := ch]> (sw_channels w)) w)
  end.
Definition set_errno_text (no : Z) (text : bytes) : W Z := fun w =>
  let '(r, e) := set_fmt_errno (Ch := Ch) no text (sw_errors w) in (r, set_errors e w).

(** An exception is printed. *)
Definition trapped (m : W unit) : W unit := fun w =>
  match m w with (Exc _, w') => (Ok tt, w') | r => r end.

Definition get_stream (s : Z) : W VirtualStream := w ← get; of_option (sw_streams w !! s).
Definition put_stream (s : Z) (x : VirtualStream) : W unit := modify (fun w => set_streams (<[s := x]> (sw_streams w)) w).
Definition change_stream (s : Z) (f : VirtualStream -> VirtualStream) : W unit := x ← get_stream s; put_stream s (f x).
Definition get_client (c : Z) : W StreamClient := w ← get; of_option (sw_clients w !! c).
Definition put_client (c : Z) (x : StreamClient) : W unit := modify (fun w => set_clients (<[c := x]> (sw_clients w)) w).
Definition change_client (c : Z) (f : StreamClient -> StreamClient) : W unit := x ← get_client c; put_client c (f x).

Definition post_event (handler : StreamEvent) (s : Z) : W unit := modify (fun w => set_posted (sw_posted w ++ [(handler, s)]) w).
Definition alloc_address : W Z := w ← get; put (set_brk (sw_brk w + 1) w) ;; mret (sw_brk w).

(** [list_remove]. *)
Definition list_remove (a : Z) (l : list Z) : list Z := filter (fun b => b <> a) l.

Fixpoint find_in_bucket (l : list Z) (id c : Z) : W (option Z) :=
  match l with
  | [] => mret None
  | a :: l =>
      x ← get_client a;
      y ← get_stream (sc_stream x);
      if (vs_id y =? id) && (sc_channel x =? c) then mret (Some a) else find_in_bucket l id c
  end.

(** The client, or an error. *)
Definition find_client (s : bytes) (c : Z) : W (Z + Z) :=
  r ← match str2id s with
      | Some id => w ← get; l ← of_option (znth (sw_hash w) (get_client_hash id c)); find_in_bucket l id c
      | None => mret None
      end;
  match r with
  | Some a => mret (inl a)
  | None => err ← set_errno_text ERR_OTHER (str "No such stream: " ++ s); mret (inr err)
  end.

(** ** Messages *)

Definition send_event_stream_created (type id : bytes) (context_id : option bytes) : M (E * Ch) unit :=
  write_stringz (str "E") ;; write_stringz STREAMS ;; write_stringz (str "created") ;;
  json_write_string (Some type) ;; write_stream 0 ;;
  json_write_string (Some id) ;; write_stream 0 ;;
  json_write_string context_id ;; write_stream 0 ;;
  write_stream MARKER_EOM.

Definition send_event_stream_disposed (type id : bytes) : M (E * Ch) unit :=
  write_stringz (str "E") ;; write_stringz STREAMS ;; write_stringz (str "disposed") ;;
  json_write_string (Some type) ;; write_stream 0 ;;
  json_write_string (Some id) ;; write_stream 0 ;;
  write_stream MARKER_EOM.

(** The reply of commands that return an error only. *)
Definition send_reply (token : bytes) (err : Z) : M (E * Ch) unit :=
  write_stringz (str "R") ;; write_stringz token ;; write_errno err ;; write_stream MARKER_EOM.

(** The reply of [read] without data. *)
Definition send_read_error (token : bytes) (err eos : Z) : M (E * Ch) unit :=
  write_stringz (str "R") ;; write_stringz token ;; write_stringz (str "null") ;; write_errno err ;;
  json_write_long 0 ;; write_stream 0 ;; json_write_boolean eos ;; write_stream 0 ;; write_stream MARKER_EOM.

(** The request is the first one of the client. *)
Definition delete_read_request (a : Z) (r : ReadRequest) : W unit :=
  x ← get_client a;
  trapped (on_out (sc_channel x) (send_read_error (rr_token r) ERR_COMMAND_CANCELLED 1)) ;;
  change_client a (fun x => set_read_requests (tail (sc_read_requests x)) x).

Definition delete_write_request (a : Z) (r : WriteRequest) (error : Z) : W unit :=
  x ← get_client a;
  trapped (on_out (sc_channel x) (send_reply (wr_token r) error)) ;;
  change_client a (fun x => set_write_requests (tail (sc_write_requests x)) x).

(** ** Events *)

Definition delete_stream (s : Z) : W unit :=
  x ← get_stream s;
  assertm (bool_decide (vs_clients x = [])) ;;
  assertm (vs_deleted x) ;;
  modify (fun w => set_all_streams (list_remove s (sw_all_streams w)) w) ;;
  modify (fun w => set_streams (delete s (sw_streams w)) w).

Definition notify_data_available (s : Z) : W unit :=
  x ← get_stream s;
  put_stream s (set_data_posted false x) ;;
  if vs_deleted x || vs_eos_out x then mret tt
  else match vs_callback x with None => mret tt | Some f => call_back f s VS_EVENT_DATA_AVAILABLE end.

Definition notify_space_available (s : Z) : W unit :=
  x ← get_stream s;
  put_stream s (set_space_posted false x) ;;
  if vs_deleted x || vs_eos_inp x then mret tt
  else match vs_callback x with None => mret tt | Some f => call_back f s VS_EVENT_SPACE_AVAILABLE end.

(** The next event of the service; [events_fifo] says that the queue keeps their order. *)
Definition run_event : W unit :=
  w ← get;
  match sw_posted w with
  | [] => mret tt
  | (handler, s) :: l =>
      put (set_posted l w) ;;
      match handler with
      | delete_stream_event => delete_stream s
      | notify_data_event => notify_data_available s
      | notify_space_event => notify_space_available s
      end
  end.

Definition post_space_available (s : Z) : W unit :=
  x ← get_stream s;
  if vs_space_available_posted x then mret tt else post_event notify_space_event s ;; change_stream s (set_space_posted true).

(** ** Clients *)

Definition has_access (x : VirtualStream) (mask : Z) : bool := negb (Z.land (vs_access x) mask =? 0).

Fixpoint min_client_pos (l : list Z) (pos min_pos : Z) : W Z :=
  match l with
  | [] => mret min_pos
  | a :: l =>
      x ← get_client a;
      assertm (sc_pos x <=? pos) ;;
      min_client_pos l pos (if sc_pos x <? min_pos then sc_pos x else min_pos)
  end.

Definition advance_stream_buffer (s : Z) : W unit :=
  x ← get_stream s;
  let len := buf_used x in
  let no_pos := u64 (Z.lnot 0) in
  let buf_pos := u64 (vs_pos x - len) in
  assertm (has_access x VS_ENABLE_REMOTE_READ) ;;
  min_pos ← min_client_pos (vs_clients x) (vs_pos x) no_pos;
  (if min_pos =? no_pos then change_stream s (set_buf_out (vs_buf_inp x))
   else if buf_pos <? min_pos then
     assertm (min_pos - buf_pos <=? len) ;;
     change_stream s (set_buf_out (u64 (vs_buf_out x + u32 (min_pos - buf_pos)) mod vs_buf_len x))
   else mret tt) ;;
  y ← get_stream s;
  if len =? buf_used y then mret tt else post_space_available s.

Definition create_client (s channel : Z) : W Z :=
  x ← get_stream s;
  a ← alloc_address;
  put_client a (Build_StreamClient [] [] s channel (u64 (vs_pos x - buf_used x))) ;;
  let h := get_client_hash (vs_id x) channel in
  w ← get;
  l ← of_option (znth (sw_hash w) h);
  modify (fun w => set_hash (<[Z.to_nat h := a :: l]> (sw_hash w)) w) ;;
  modify (fun w => set_all_clients (a :: sw_all_clients w) w) ;;
  put_stream s (set_ref_cnt (vs_ref_cnt x + 1) (set_vs_clients (a :: vs_clients x) x)) ;;
  mret a.

Fixpoint delete_read_requests (a : Z) (l : list ReadRequest) : W unit :=
  match l with [] => mret tt | r :: l => delete_read_request a r ;; delete_read_requests a l end.
Fixpoint delete_write_requests (a : Z) (l : list WriteRequest) (error : Z) : W unit :=
  match l with [] => mret tt | r :: l => delete_write_request a r error ;; delete_write_requests a l error end.

(** The client is in one bucket, of the hash that it was added with. *)
Definition delete_client (a : Z) : W unit :=
  x ← get_client a;
  let s := sc_stream x in
  y ← get_stream s;
  assertm (0 <? vs_ref_cnt y) ;;
  trapped (on_out (sc_channel x) (send_event_stream_disposed (vs_type y) (virtual_stream_get_id y))) ;;
  modify (fun w => set_hash (list_remove a <$> sw_hash w) w) ;;
  change_stream s (fun y => set_vs_clients (list_remove a (vs_clients y)) y) ;;
  modify (fun w => set_all_clients (list_remove a (sw_all_clients w)) w) ;;
  delete_read_requests a (sc_read_requests x) ;;
  delete_write_requests a (sc_write_requests x) ERR_COMMAND_CANCELLED ;;
  modify (fun w => set_clients (delete a (sw_clients w)) w) ;;
  change_stream s (fun y => set_ref_cnt (vs_ref_cnt y - 1) y) ;;
  y ← get_stream s;
  if vs_ref_cnt y =? 0 then
    assertm (bool_decide (vs_clients y = [])) ;; assertm (vs_deleted y) ;; post_event delete_stream_event s
  else if has_access y VS_ENABLE_REMOTE_READ then advance_stream_buffer s
  else mret tt.

Definition send_read_reply (a : Z) (token : bytes) (size : Z) : W unit :=
  x ← get_client a;
  y ← get_stream (sc_stream x);
  let len := buf_used y in
  assertm ((0 <? len) || vs_eos_inp y) ;;
  assertm (sc_pos x <=? vs_pos y) ;;
  let behind := vs_pos y - sc_pos x in
  let '(lost, len) := if len <? behind then (wraps 64 (behind - len), len) else (0, u32 behind) in
  let pos := u64 (vs_buf_inp y + vs_buf_len y - len) mod vs_buf_len y in
  let len := if size <? len then size else len in
  let read1 := if pos + len <=? vs_buf_len y then len else vs_buf_len y - pos in
  let read2 := len - read1 in
  data1 ← of_option (mem_read (vs_buf y) pos read1);
  data2 ← of_option (mem_read (vs_buf y) 0 read2);
  let new_pos := u64 (sc_pos x + lost + read1 + read2) in
  change_client a (set_sc_pos new_pos) ;;
  assertm (new_pos <=? vs_pos y) ;;
  let eos := (new_pos =? vs_pos y) && vs_eos_inp y in
  assertm (eos || (0 <? lost + read1 + read2)) ;;
  on_out (sc_channel x) (
    write_stringz (str "R") ;;
    write_stringz token ;;
    (if 0 <? read1 + read2 then
       state ← json_write_binary_start (read1 + read2);
       state ← json_write_binary_data state data1;
       state ← json_write_binary_data state data2;
       json_write_binary_end state ;;
       write_stream 0
     else write_stringz (str "null")) ;;
    write_errno 0 ;;
    json_write_long lost ;; write_stream 0 ;;
    json_write_boolean (b2z eos) ;; write_stream 0 ;;
    write_stream MARKER_EOM).

(** ** The owner of a stream *)

Fixpoint create_clients (s : Z) (type : bytes) (context_id : option bytes) (l : list Subscription) : W unit :=
  match l with
  | [] => mret tt
  | h :: l =>
      x ← get_stream s;
      (if bool_decide (type = sb_type h) then
         create_client s (sb_channel h) ;;
         trapped (on_out (sb_channel h) (send_event_stream_created (vs_type x) (virtual_stream_get_id x) context_id))
       else mret tt) ;;
      create_clients s type context_id l
  end.

(** A length of [SIZE_MAX] would leave no buffer. *)
Definition virtual_stream_create (type : bytes) (context_id : option bytes) (buf_len access : Z) (callback : option Z) : W Z :=
  assertm (buf_len + 1 <? 2 ^ 64) ;;
  let buf_len := buf_len + 1 in
  s ← alloc_address;
  w ← get;
  put_stream s (Build_VirtualStream (strlcpy256 type) (sw_id_cnt w) access callback 1 false [] 0 (alloc buf_len) buf_len 0 0 false false false false) ;;
  modify (set_id_cnt (u32 (sw_id_cnt w + 1))) ;;
  create_clients s type context_id (sw_subscriptions w) ;;
  modify (fun w => set_all_streams (s :: sw_all_streams w) w) ;;
  mret s.

Fixpoint find_in_streams (l : list Z) (id : Z) : W (option Z) :=
  match l with
  | [] => mret None
  | s :: l => x ← get_stream s; if (vs_id x =? id) && negb (vs_deleted x) then mret (Some s) else find_in_streams l id
  end.

(** The stream, or an error. *)
Definition virtual_stream_find (id : bytes) : W (Z + Z) :=
  r ← match str2id id with
      | Some n => w ← get; find_in_streams (sw_all_streams w) n
      | None => mret None
      end;
  mret (match r with Some s => inl s | None => inr ERR_INV_CONTEXT end).

(** The read requests of a client are answered while there is something to send. *)
Fixpoint answer_requests (a s : Z) (l : list ReadRequest) : W unit :=
  match l with
  | [] => mret tt
  | r :: l =>
      x ← get_client a;
      y ← get_stream s;
      if (sc_pos x <? vs_pos y) || vs_eos_inp y then
        change_client a (fun x => set_read_requests (tail (sc_read_requests x)) x) ;;
        send_read_reply a (rr_token r) (rr_size r) ;;
        answer_requests a s l
      else mret tt
  end.

Fixpoint answer_clients (s : Z) (l : list Z) : W unit :=
  match l with
  | [] => mret tt
  | a :: l => x ← get_client a; answer_requests a s (sc_read_requests x) ;; answer_clients s l
  end.

(** [memcpy] into the circular buffer. *)
Definition buf_store (x : VirtualStream) (d : bytes) : option bytes :=
  let len := zlen d in
  if vs_buf_inp x + len <=? vs_buf_len x then mem_write (vs_buf x) (vs_buf_inp x) d
  else
    let n := vs_buf_len x - vs_buf_inp x in
    m ← mem_write (vs_buf x) (vs_buf_inp x) (ztake n d); mem_write m 0 (zdrop n d).

(** The error, and [*data_size], which is 0 before. *)
Definition virtual_stream_add_data (s : Z) (buf : bytes) (eos : bool) : W (Z * Z) :=
  x ← get_stream s;
  let err := if vs_eos_inp x then ERR_EOF else 0 in
  size ←
    (if err =? 0 then
       let len := buf_room x in
       assertm (len <? vs_buf_len x) ;;
       let len := if zlen buf <? len then zlen buf else len in
       m ← of_option (buf_store x (ztake len buf));
       put_stream s (set_vs_input m (u64 (vs_buf_inp x + len) mod vs_buf_len x) (u64 (vs_pos x + len)) (eos && (zlen buf =? len)) x) ;;
       mret len
     else mret 0);
  x ← get_stream s;
  (if has_access x VS_ENABLE_REMOTE_READ then
     if (err =? 0) && (vs_eos_inp x || (0 <? size)) then
       answer_clients s (vs_clients x) ;; advance_stream_buffer s
     else mret tt
   else if vs_data_available_posted x then mret tt
   else post_event notify_data_event s ;; change_stream s (set_data_posted true)) ;;
  mret (err, size).

(** The other requests of a client are cancelled after an error. *)
Definition write_client (a s : Z) : W unit :=
  x ← get_client a;
  match sc_write_requests x with
  | [] => mret tt
  | r :: l =>
      rest ← of_option (mem_read (wr_data r) (wr_offs r) (wr_size r - wr_offs r));
      '(error, done) ← virtual_stream_add_data s rest (wr_eos r);
      change_client a (fun x => set_write_requests (set_wr_offs (wr_offs r + done) r :: l) x) ;;
      (if negb (error =? 0) || (wr_size r <=? wr_offs r + done) then delete_write_request a r error else mret tt) ;;
      (if negb (error =? 0) then delete_write_requests a l ERR_COMMAND_CANCELLED else mret tt)
  end.

Fixpoint write_clients (s : Z) (l : list Z) : W unit :=
  match l with [] => mret tt | a :: l => write_client a s ;; write_clients s l end.

(** [memcpy] out of the circular buffer. *)
Definition buf_fetch (x : VirtualStream) (len : Z) : option bytes :=
  if vs_buf_out x + len <=? vs_buf_len x then mem_read (vs_buf x) (vs_buf_out x) len
  else
    let n := vs_buf_len x - vs_buf_out x in
    d1 ← mem_read (vs_buf x) (vs_buf_out x) n; d2 ← mem_read (vs_buf x) 0 (len - n); Some (d1 ++ d2).

(** The data, and [*eos]. *)
Definition virtual_stream_get_data (s : Z) (buf_size : Z) : W (bytes * bool) :=
  x ← get_stream s;
  let len := buf_used x in
  let '(len, eos) := if buf_size <? len then (buf_size, false) else (len, vs_eos_inp x) in
  (if eos : bool then change_stream s (set_eos_out true) else mret tt) ;;
  d ← of_option (buf_fetch x len);
  (if has_access x VS_ENABLE_REMOTE_WRITE then write_clients s (vs_clients x) else mret tt) ;;
  (if negb (has_access x VS_ENABLE_REMOTE_READ) && (0 <? len) then
     change_stream s (fun x => set_buf_out (u64 (vs_buf_out x + len) mod vs_buf_len x) x) ;;
     x ← get_stream s;
     assertm (negb eos || (vs_buf_out x =? vs_buf_inp x)) ;;
     post_space_available s
   else mret tt) ;;
  mret (d, eos).

Definition virtual_stream_is_empty (s : Z) : W bool :=
  x ← get_stream s; assertm (negb (vs_deleted x)) ;; mret (vs_buf_out x =? vs_buf_inp x).

Definition virtual_stream_data_size (s : Z) : W Z := x ← get_stream s; mret (buf_used x).

Definition virtual_stream_drop_data (s size : Z) : W unit :=
  len ← virtual_stream_data_size s;
  let len := if size <? len then size else len in
  change_stream s (fun x => set_buf_out (u64 (vs_buf_out x + len) mod vs_buf_len x) x).

Definition virtual_stream_delete (s : Z) : W unit :=
  x ← get_stream s;
  assertm (negb (vs_deleted x)) ;;
  put_stream s (set_ref_cnt (vs_ref_cnt x - 1) (set_deleted true x)) ;;
  if 0 <? vs_ref_cnt x - 1 then mret tt
  else assertm (bool_decide (vs_clients x = [])) ;; post_event delete_stream_event s.

(** ** Commands *)

Fixpoint find_subscription (l : list Subscription) (c : Z) (type : bytes) : bool :=
  match l with
  | [] => false
  | h :: l => if (sb_channel h =? c) && bool_decide (type = sb_type h) then true else find_subscription l c type
  end.

(** The error, 0 for none. *)
Definition virtual_stream_subscribe (c : Z) (type : bytes) : W Z :=
  w ← get;
  if find_subscription (sw_subscriptions w) c type then set_errno_text ERR_OTHER (str "Already subscribed")
  else modify (fun w => set_subscriptions (Build_Subscription (strlcpy256 type) c :: sw_subscriptions w) w) ;; mret 0.

Fixpoint remove_subscription (l : list Subscription) (c : Z) (type : bytes) : option (list Subscription) :=
  match l with
  | [] => None
  | h :: l =>
      if (sb_channel h =? c) && bool_decide (type = sb_type h) then Some l
      else l' ← remove_subscription l c type; Some (h :: l')
  end.

Definition virtual_stream_unsubscribe (c : Z) (type : bytes) : W Z :=
  w ← get;
  match remove_subscription (sw_subscriptions w) c type with
  | Some l => modify (set_subscriptions l) ;; mret 0
  | None => mret ERR_INV_CONTEXT
  end.

Definition virtual_stream_read (c : Z) (token id : bytes) (size : Z) : W Z :=
  r ← find_client id c;
  match r with
  | inr err => mret err
  | inl a =>
      x ← get_client a;
      y ← get_stream (sc_stream x);
      if negb (has_access y VS_ENABLE_REMOTE_READ) then mret ERR_UNSUPPORTED
      else if (sc_pos x =? vs_pos y) && negb (vs_eos_inp y) then
        put_client a (set_read_requests (sc_read_requests x ++ [Build_ReadRequest (strlcpy256 token) size]) x) ;; mret 0
      else
        assertm (bool_decide (sc_read_requests x = [])) ;;
        assertm (sc_channel x =? c) ;;
        send_read_reply a token size ;;
        advance_stream_buffer (sc_stream x) ;;
        mret 0
  end.

(** The data of a command; [data] is the block for what does not fit: its content
    and its size.  What the peer does not send of it is not initialised. *)
Fixpoint write_loop (fuel : nat) (c : Z) (stream : option Z) (size : Z) (state : BinaryState) (err offs : Z) (data : option (bytes * Z)) :
    W (Z * Z * option (bytes * Z) * BinaryState) :=
  match fuel with
  | O => nofuel
  | S fuel =>
      match data with
      | Some (content, max) =>
          '(d, state) ← on_inp c (json_read_binary_data state (u64 (size - offs - zlen content)));
          if zlen d =? 0 then mret (err, offs, data, state)
          else assertm (zlen content + zlen d <=? max) ;; write_loop fuel c stream size state err offs (Some (content ++ d, max))
      | None =>
          '(d, state) ← on_inp c (json_read_binary_data state 256);
          if zlen d =? 0 then mret (err, offs, data, state)
          else if negb (err =? 0) then write_loop fuel c stream size state err offs data
          else
            s ← of_option stream;
            '(err, done) ← virtual_stream_add_data s d false;
            assertm (done <=? zlen d) ;;
            let offs := offs + done in
            if (err =? 0) && (done <? zlen d) then
              let max := u64 (size - offs) in
              assertm (zlen d - done <=? max) ;;
              write_loop fuel c stream size state err offs (Some (zdrop done d, max))
            else write_loop fuel c stream size state err offs data
      end
  end.

Definition virtual_stream_write (c : Z) (token id : bytes) (size : Z) : W Z :=
  r ← find_client id c;
  '(err, client) ← match r with
    | inr err => mret (err, None)
    | inl a =>
        x ← get_client a;
        y ← get_stream (sc_stream x);
        mret (if negb (has_access y VS_ENABLE_REMOTE_WRITE) then (ERR_UNSUPPORTED, None) else (0, Some (a, sc_stream x, sc_write_requests x)))
    end;
  let data := match client with Some (_, _, _ :: _) => Some ([], size) | _ => None end in
  state ← on_inp c json_read_binary_start;
  fuel ← on_inp c (gets is_fuel);
  '(err, offs, data, state) ← write_loop (S (fuel + Z.to_nat (bs_size_start state))) c (x ← client; Some (snd (fst x))) size state err 0 data;
  on_inp c (json_read_binary_end state) ;;
  match data, client with
  | Some (content, max), Some (a, _, _) =>
      let r := Build_WriteRequest (strlcpy256 token) (content ++ alloc (max - zlen content)) 0 (u64 (size - offs)) false in
      change_client a (fun x => set_write_requests (sc_write_requests x ++ [r]) x) ;; mret err
  | _, _ => if err =? 0 then on_out c (send_reply token 0) ;; mret 0 else mret err
  end.

Definition virtual_stream_eos (c : Z) (token id : bytes) : W Z :=
  r ← find_client id c;
  match r with
  | inr err => mret err
  | inl a =>
      x ← get_client a;
      y ← get_stream (sc_stream x);
      if negb (has_access y VS_ENABLE_REMOTE_WRITE) then mret ERR_UNSUPPORTED
      else if bool_decide (sc_write_requests x = []) then
        '(err, _) ← virtual_stream_add_data (sc_stream x) [] true;
        if err =? 0 then on_out c (send_reply token 0) ;; mret 0 else mret err
      else
        put_client a (set_write_requests (sc_write_requests x ++ [Build_WriteRequest (strlcpy256 token) [] 0 0 true]) x) ;; mret 0
  end.

Definition virtual_stream_connect (c : Z) (id : bytes) : W Z :=
  r ← find_client id c;
  match r with
  | inl _ => mret 0
  | inr _ =>
      r ← virtual_stream_find id;
      match r with
      | inr err => mret err
      | inl s => create_client s c ;; mret 0
      end
  end.

Definition virtual_stream_disconnect (c : Z) (id : bytes) : W Z :=
  r ← find_client id c;
  match r with inr err => mret err | inl a => delete_client a ;; mret 0 end.

(** A string argument in an array of 256 bytes. *)
Definition read_string_arg (c : Z) : W bytes :=
  on_inp c ('(_, s) ← json_read_string (alloc 256) 256; json_test_char MARKER_EOA ;; mret (c_str s)).
Definition read_end (c : Z) : W unit := on_inp c (json_test_char MARKER_EOM).

(** What a command does after its arguments have been read. *)
Definition answer_subscribe (token : bytes) (c : Z) (type : bytes) : W unit :=
  err ← virtual_stream_subscribe c type;
  on_out c (send_reply token err).

Definition answer_unsubscribe (token : bytes) (c : Z) (type : bytes) : W unit :=
  err ← virtual_stream_unsubscribe c type;
  on_out c (send_reply token err).

Definition answer_read (token : bytes) (c : Z) (id : bytes) (size : Z) : W unit :=
  err ← virtual_stream_read c token id size;
  if err =? 0 then mret tt else on_out c (send_read_error token err 0).

Definition answer_eos (token : bytes) (c : Z) (id : bytes) : W unit :=
  err ← virtual_stream_eos c token id;
  if err =? 0 then mret tt else on_out c (send_reply token err).

Definition answer_connect (token : bytes) (c : Z) (id : bytes) : W unit :=
  err ← virtual_stream_connect c id;
  on_out c (send_reply token err).

Definition answer_disconnect (token : bytes) (c : Z) (id : bytes) : W unit :=
  err ← virtual_stream_disconnect c id;
  on_out c (send_reply token err).

Definition command_subscribe (token : bytes) (c : Z) : W unit :=
  type ← read_string_arg c; read_end c ;; answer_subscribe token c type.

Definition command_unsubscribe (token : bytes) (c : Z) : W unit :=
  type ← read_string_arg c; read_end c ;; answer_unsubscribe token c type.

Definition command_read (token : bytes) (c : Z) : W unit :=
  id ← read_string_arg c;
  size ← on_inp c (size ← json_read_ulong; json_test_char MARKER_EOA ;; mret size);
  read_end c ;; answer_read token c id size.

Definition command_write (token : bytes) (c : Z) : W unit :=
  id ← read_string_arg c;
  size ← on_inp c (size ← json_read_long; json_test_char MARKER_EOA ;; mret size);
  err ← virtual_stream_write c token id (u64 size);
  on_inp c (json_test_char MARKER_EOA) ;; read_end c ;;
  if err =? 0 then mret tt else on_out c (send_reply token err).

Definition command_eos (token : bytes) (c : Z) : W unit :=
  id ← read_string_arg c; read_end c ;; answer_eos token c id.

Definition command_connect (token : bytes) (c : Z) : W unit :=
  id ← read_string_arg c; read_end c ;; answer_connect token c id.

Definition command_disconnect (token : bytes) (c : Z) : W unit :=
  id ← read_string_arg c; read_end c ;; answer_disconnect token c id.

Fixpoint close_clients (c : Z) (l : list Z) : W unit :=
  match l with
  | [] => mret tt
  | a :: l => x ← get_client a; (if sc_channel x =? c then delete_client a else mret tt) ;; close_clients c l
  end.

Definition channel_close_listener (c : Z) : W unit :=
  w ← get;
  close_clients c (sw_all_clients w) ;;
  modify (fun w => set_subscriptions (filter (fun h => sb_channel h <> c) (sw_subscriptions w)) w).
End service.

Definition streams_start {E Ch} (channels : gmap Z Ch) (e : E) : StreamWorld E Ch :=
  Build_StreamWorld ∅ ∅ [] [] (replicate (Z.to_nat HANDLE_HASH_SIZE) []) [] 0 1 [] channels e.
