(* ===== verification/StreamsSpec.v ===== *)
(** * Streams service: the buffer of a stream and the specification

    The buffer holds the last part of the data that have been added; an abstract
    stream holds all of them. *)

From stdpp Require Import gmap.
From S2P Require Import Prelude Ring Streams JsonWrite JsonRead JsonBinary StreamsSvc.

(** The places in the buffer, which has one free byte at least; positions do not
    wrap around. *)
Record buf_ok (y : VirtualStream) : Prop := {
  bo_len : 1 <= vs_buf_len y <= 2 ^ 32;
  bo_buf : zlen (vs_buf y) = vs_buf_len y;
  bo_bytes : is_bytes (vs_buf y);
  bo_inp : 0 <= vs_buf_inp y < vs_buf_len y;
  bo_out : 0 <= vs_buf_out y < vs_buf_len y;
}.

(** What is in the buffer. *)
Definition content (y : VirtualStream) : bytes := ring (vs_buf y) (vs_buf_out y) (vs_buf_inp y).

Lemma mod_once a n : 0 <= a < 2 * n -> a mod n = if a <? n then a else a - n.
Proof. intros Ha. zcases; [by apply Z.mod_small; lia|]. symmetry. apply (Z.mod_unique _ _ 1); lia. Qed.

Lemma used_len y : buf_ok y -> buf_used y = zlen (content y).
Proof.
  intros []. unfold buf_used, content. rewrite ring_len by lia. rewrite bo_buf0. rewrite wrapu_small by lia. rewrite mod_once by lia.
  unfold room. zcases; lia.
Qed.

Lemma room_len y : buf_ok y -> buf_room y = vs_buf_len y - 1 - zlen (content y) /\ 0 <= buf_room y < vs_buf_len y.
Proof.
  intros []. unfold buf_room, content. rewrite ring_len by lia. rewrite bo_buf0. rewrite wrapu_small by lia. rewrite mod_once by lia.
  unfold room. zcases; lia.
Qed.

Lemma content_max y : buf_ok y -> 0 <= zlen (content y) < vs_buf_len y.
Proof. intros Hy. pose proof (room_len y Hy). pose proof (zlen_nonneg (content y)). lia. Qed.

Lemma content_bytes y : buf_ok y -> is_bytes (content y).
Proof.
  intros []. unfold content, ring. destruct (_ <=? _); [by apply bytes_slice|].
  apply bytes_app; [by apply bytes_zdrop|by apply bytes_ztake].
Qed.

Lemma content_len y : buf_ok y -> zlen (content y) =
  if vs_buf_out y <=? vs_buf_inp y then vs_buf_inp y - vs_buf_out y else vs_buf_len y - vs_buf_out y + vs_buf_inp y.
Proof. intros []. unfold content. rewrite ring_len by lia. rewrite bo_buf0. unfold room. zcases; lia. Qed.

(** Adding data. *)
Lemma buf_store_ok y d : buf_ok y -> is_bytes d -> zlen d <= buf_room y -> exists m,
  buf_store y d = Some m /\ forall pos eos, let y' := set_vs_input m (u64 (vs_buf_inp y + zlen d) mod vs_buf_len y) pos eos y in
  buf_ok y' /\ content y' = content y ++ d.
Proof.
  intros Hy Hb Hd. pose proof (room_len y Hy) as [HR HR2]. pose proof (zlen_nonneg d). pose proof Hy as []. unfold content in HR. rewrite ring_len in HR by lia.
  destruct (ring_store (vs_buf y) (vs_buf_out y) (vs_buf_inp y) d) as (m & E & Hl & Hc); [lia|lia|lia|]. rewrite bo_buf0 in *. exists m. split.
  { unfold buf_store. rewrite <- E. done. }
  intros pos eos. cbv zeta. rewrite wrapu_small by (lia).
  assert (Hm : (vs_buf_inp y + zlen d) mod vs_buf_len y = if vs_buf_inp y + zlen d <? vs_buf_len y then vs_buf_inp y + zlen d else vs_buf_inp y + zlen d - vs_buf_len y)
    by (apply mod_once; unfold room in *; revert Hd HR; zcases; lia).
  rewrite Hm. split; [|exact Hc]. constructor; cbn; [done|done| | |done].
  - revert E. zcases; intros E; [by eapply mem_write_bytes|]. destruct (mem_write _ _ _) as [m1|] eqn:E1; [|done]. cbn in E.
    eapply mem_write_bytes; [exact E| |by apply bytes_zdrop]. eapply mem_write_bytes; [exact E1|done|by apply bytes_ztake].
  - unfold room in *. revert Hd HR. zcases; lia.
Qed.

(** Taking data: [k] bytes are skipped in front of them. *)
Lemma fetch_ok y k n : buf_ok y -> 0 <= k -> 0 <= n -> k + n <= zlen (content y) ->
  let pos := u64 (vs_buf_inp y + vs_buf_len y - (zlen (content y) - k)) mod vs_buf_len y in
  0 <= pos < vs_buf_len y /\
  if pos + n <=? vs_buf_len y then mem_read (vs_buf y) pos n = Some (ztake n (zdrop k (content y)))
  else exists d1 d2, mem_read (vs_buf y) pos (vs_buf_len y - pos) = Some d1 /\ mem_read (vs_buf y) 0 (n - (vs_buf_len y - pos)) = Some d2 /\
    d1 ++ d2 = ztake n (zdrop k (content y)).
Proof.
  intros Hy Hk Hn Hkn. pose proof (content_max y Hy) as Hmax. pose proof Hy as []. cbv zeta.
  assert (Hpos : u64 (vs_buf_inp y + vs_buf_len y - (zlen (content y) - k)) mod vs_buf_len y =
    if vs_buf_out y + k <? zlen (vs_buf y) then vs_buf_out y + k else vs_buf_out y + k - zlen (vs_buf y)).
  { rewrite wrapu_small by lia. rewrite bo_buf0, content_len in * by done. rewrite mod_once by (revert Hmax Hkn; zcases; lia). revert Hkn. zcases; lia. }
  rewrite Hpos. set (pos := if _ <? _ then _ else _). assert (Hp : 0 <= pos < vs_buf_len y) by (subst pos; zcases; lia). split; [done|].
  assert (HC : ring (vs_buf y) pos (vs_buf_inp y) = zdrop k (content y)) by (apply ring_advance; unfold content in *; lia).
  rewrite <- HC, <- bo_buf0. apply ring_read; [lia|lia|]. rewrite HC, zlen_zdrop by lia. lia.
Qed.

(** Advancing the output position. *)
Lemma buf_advance_ok y n : buf_ok y -> 0 <= n <= zlen (content y) ->
  let y' := set_buf_out (u64 (vs_buf_out y + n) mod vs_buf_len y) y in buf_ok y' /\ content y' = zdrop n (content y).
Proof.
  intros Hy Hn. pose proof (content_max y Hy). pose proof Hy as []. cbv zeta. rewrite wrapu_small by lia. rewrite mod_once by lia.
  split; [constructor; cbn; try done; zcases; lia|]. unfold content in *. cbn. rewrite <- bo_buf0. apply ring_advance; lia.
Qed.

Lemma get_ok y n : buf_ok y -> 0 <= n <= zlen (content y) -> buf_fetch y n = Some (ztake n (content y)).
Proof.
  intros Hy Hn. pose proof Hy as []. unfold buf_fetch. pose proof (ring_read (vs_buf y) (vs_buf_out y) (vs_buf_inp y) n) as HR.
  rewrite bo_buf0 in HR. fold (content y) in HR. specialize (HR bo_out0 bo_inp0 Hn). revert HR. zcases; [done|].
  intros (d1 & d2 & E1 & E2 & E3). rewrite E1. cbn. rewrite E2. cbn. by rewrite E3.
Qed.

(** ** Streams service: the specification

    The owner of a stream adds data to it; every client reads all of it, at its
    own pace; a client that asks for data when there are none waits for them.
    [spec_step] is this in terms of what happens: it accepts an event or not.

    [does] says what an operation of the service does with its trace of events;
    the replies with data are tied to what the channels carry. *)

(** ** Streams and their readers *)

Record SpecStream := { ss_log : bytes; ss_ended : bool; ss_taken : Z }.
Record SpecReader := { sr_stream : Z; sr_pos : Z; sr_asks : list ReadRequest }.
Record Spec := { sp_streams : gmap Z SpecStream; sp_readers : gmap Z SpecReader; sp_left : gset Z }.

(** [MRead]: data for a client, none of which are lost. *)
Inductive Msg := MRead (a : Z) (token data : bytes) (eos : bool) | MOther.

(** A stream is created; a client joins it at a place of its data, and leaves it;
    the owner adds data, or a client does; the owner takes data; a client asks for
    data; a message. *)
Inductive Ev :=
| EOpen (s : Z)
| EJoin (a s pos : Z)
| ELeave (a : Z)
| EAdd (from : option Z) (s : Z) (d : bytes) (eos : bool)
| EGot (s : Z) (d : bytes) (eos : bool)
| EAsk (a : Z) (r : ReadRequest)
| ESay (c : Z) (m : Msg).

Definition on_stream (s : Z) (y : SpecStream) (A : Spec) : Spec := Build_Spec (<[s := y]> (sp_streams A)) (sp_readers A) (sp_left A).
Definition on_reader (a : Z) (x : SpecReader) (A : Spec) : Spec := Build_Spec (sp_streams A) (<[a := x]> (sp_readers A)) (sp_left A).

(** The data that are next for a reader, who gets as much as it asks for; it is
    told the end together with the last of them. *)
Definition spec_step (A : Spec) (e : Ev) : option Spec :=
  match e with
  | EOpen s => match sp_streams A !! s with None => Some (on_stream s (Build_SpecStream [] false 0) A) | Some _ => None end
  | EJoin a s pos =>
      y ← sp_streams A !! s;
      match sp_readers A !! a with
      | None => if bool_decide (a ∉ sp_left A) && (0 <=? pos) && (pos <=? zlen (ss_log y)) then Some (on_reader a (Build_SpecReader s pos []) A) else None
      | Some _ => None
      end
  | ELeave a => Some (Build_Spec (sp_streams A) (delete a (sp_readers A)) ({[a]} ∪ sp_left A))
  | EAdd _ s d eos =>
      y ← sp_streams A !! s;
      if ss_ended y then None else Some (on_stream s (Build_SpecStream (ss_log y ++ d) eos (ss_taken y)) A)
  | EGot s d eos =>
      y ← sp_streams A !! s;
      let next := ss_taken y + zlen d in
      if bool_decide (d = slice (ss_log y) (ss_taken y) next) && Bool.eqb eos (ss_ended y && (next =? zlen (ss_log y)))
      then Some (on_stream s (Build_SpecStream (ss_log y) (ss_ended y) next) A) else None
  | EAsk a r => x ← sp_readers A !! a; Some (on_reader a (Build_SpecReader (sr_stream x) (sr_pos x) (sr_asks x ++ [r])) A)
  | ESay _ MOther => Some A
  | ESay _ (MRead a token d eos) =>
      x ← sp_readers A !! a;
      y ← sp_streams A !! sr_stream x;
      match sr_asks x with
      | [] => None
      | r :: rest =>
          let next := sr_pos x + zlen d in
          if bool_decide (token = rr_token r) && bool_decide (d = ztake (rr_size r) (zdrop (sr_pos x) (ss_log y))) &&
             Bool.eqb eos (ss_ended y && (next =? zlen (ss_log y))) && (eos || (0 <? zlen d))
          then Some (on_reader a (Build_SpecReader (sr_stream x) next rest) A) else None
      end
  end.

Abbreviation Trace := (list Ev).

Fixpoint spec_run (A : Spec) (t : Trace) : option Spec :=
  match t with [] => Some A | e :: t => A ← spec_step A e; spec_run A t end.

Lemma spec_run_app A A' t1 t2 : spec_run A t1 = Some A' -> spec_run A (t1 ++ t2) = spec_run A' t2.
Proof.
  revert A. induction t1 as [|e t1 IH]; intros A; cbn; [by intros [= ->]|]. destruct (spec_step A e); [apply IH|done].
Qed.

(** ** Errors as they are needed *)

Class ErrnoSpec (E Ch : Type) `{OutputStreamSpec Ch} `{!ErrnoIf E Ch} := {
  ei_ok : E -> Prop;
  ei_err : E -> Z -> Prop;
  ei_eom : os_symbol (St := Ch) MARKER_EOM;
  ei_code : forall e n, STD_ERR_BASE < n < STD_ERR_BASE + 100 -> ei_err e n;
  ei_set : forall e no text, ei_ok e -> STD_ERR_BASE < no < STD_ERR_BASE + 100 -> cstring text ->
    exists err e', set_fmt_errno (Ch := Ch) no text e = (Ok err, e') /\ ei_ok e' /\ err <> 0 /\ ei_err e' err;
  ei_none : forall e (ch : Ch), ei_ok e -> os_wf ch ->
    exists ch', write_errno 0 (e, ch) = (Ok tt, (e, ch')) /\ os_wf ch' /\ os_data ch' = os_data ch ++ [0] /\
      os_supports_zero_copy ch' = os_supports_zero_copy ch;
  ei_write : forall e (ch : Ch) err, ei_ok e -> ei_err e err -> os_wf ch ->
    exists e' ch' text, write_errno err (e, ch) = (Ok tt, (e', ch')) /\ ei_ok e' /\ os_wf ch' /\ os_data ch' = os_data ch ++ text /\
      os_supports_zero_copy ch' = os_supports_zero_copy ch;
}.

(** ** Messages *)

Definition read_text (zc : bool) (token data : bytes) (eos : bool) : list Z :=
  str "R" ++ [0] ++ token ++ [0] ++
  (if 0 <? zlen data then binary_text zc (zlen data) data ++ [0] else str "null" ++ [0]) ++
  [0] ++ str "0" ++ [0] ++ (if eos then str "true" else str "false") ++ [0] ++ [MARKER_EOM].

Section writers.
Context {E Ch : Type} `{ErrnoSpec E Ch}.

(** The stream of a channel next to errors [e] that no writer but [write_errno] touches. *)
#[local, program] Instance pair_OutputStreamSpec (e : E) : OutputStreamSpec (E * Ch) | 100 := {|
  os_wf s := fst s = e /\ os_wf (snd s);
  os_data s := os_data (snd s);
  os_symbol := os_symbol (St := Ch);
|}.
Next Obligation. exact (fun _ => os_symbol_byte (St := Ch)). Qed.
Next Obligation. exact (fun _ => os_symbol_le (St := Ch)). Qed.
Next Obligation. intros e [e1 s] [_ Hs]. exact (os_null_space s Hs). Qed.
Next Obligation.
  intros e [e1 s] l [He Hs] Hl HE Hz. destruct (store_spec s l Hs Hl HE Hz) as (s' & E' & HH). exists (e1, s'). cbn. unfold snd_lift. rewrite E'. by destruct_and!.
Qed.
Next Obligation.
  intros e [e1 s] b [He Hs] Hb. destruct (write_spec s b Hs Hb) as (s' & E' & HH). exists (e1, s'). cbn. unfold snd_lift. rewrite E'. by destruct_and!.
Qed.
Next Obligation.
  intros e [e1 s] l [He Hs] Hl. destruct (write_block_spec s l Hs Hl) as (s' & E' & HH). exists (e1, s'). cbn. unfold snd_lift. rewrite E'. by destruct_and!.
Qed.

(** [m] sends a text on a channel next to the errors [e]. *)
Definition tells (m : M (E * Ch) unit) (e : E) (ch : Ch) (text : list Z -> Prop) : Prop :=
  exists e' ch' l, m (e, ch) = (Ok tt, (e', ch')) /\ ei_ok e' /\ os_wf ch' /\ os_data ch' = os_data ch ++ l /\
    os_supports_zero_copy ch' = os_supports_zero_copy ch /\ text l.

Abbreviation writes_at e := (@writes (E * Ch) _ (pair_OutputStreamSpec e)).

Lemma tells_writes m l e ch (text : list Z -> Prop) : ei_ok e -> os_wf ch -> writes_at e m tt l -> text l -> tells m e ch text.
Proof.
  intros He Hch Hm Hl. destruct (Hm (e, ch)) as ([e' ch'] & E1 & [He' Hw] & D & Z1); [done|].
  cbn in He', D, Z1. subst e'. exists e, ch', l. split_and!; auto.
Qed.

Lemma tells_seq m (k : M (E * Ch) unit) l e ch text : os_wf ch -> writes_at e m tt l ->
  (forall ch', os_wf ch' -> os_supports_zero_copy ch' = os_supports_zero_copy ch -> tells k e ch' (fun l' => text (l ++ l'))) ->
  tells (m ;; k) e ch text.
Proof.
  intros Hch Hm Hk. destruct (Hm (e, ch)) as ([e' ch1] & E1 & [He Hw] & D & Z1); [done|]. cbn in He, Z1, D. subst e'.
  destruct (Hk ch1 Hw Z1) as (e2 & ch2 & l' & E2 & He2 & Hw2 & D2 & Z2 & HT).
  exists e2, ch2, (l ++ l'). rewrite (bind_ok _ _ _ _ _ E1), D2, D, Z2, app_assoc. done.
Qed.

Lemma tells_errno err (k : M (E * Ch) unit) e ch : ei_ok e -> ei_err e err -> os_wf ch ->
  (forall e' ch', ei_ok e' -> os_wf ch' -> tells k e' ch' (fun _ => True)) -> tells (write_errno err ;; k) e ch (fun _ => True).
Proof.
  intros He Herr Hch Hk. destruct (ei_write e ch err He Herr Hch) as (e1 & ch1 & l & E1 & He1 & Hw1 & D1 & Z1).
  destruct (Hk e1 ch1 He1 Hw1) as (e2 & ch2 & l' & E2 & He2 & Hw2 & D2 & Z2 & _).
  exists e2, ch2, (l ++ l'). rewrite (bind_ok _ _ _ _ _ E1), D2, D1, Z2, app_assoc. done.
Qed.

Lemma writes_no_errno e : ei_ok e -> writes_at e (write_errno 0) tt [0].
Proof.
  intros He [e1 ch] [E1 Hch]. cbn in E1, Hch. subst e1. destruct (ei_none e ch He Hch) as (ch' & E1 & Hw & D & Z1). exists (e, ch'). done.
Qed.

Lemma writes_eom e : writes_at e (write_stream MARKER_EOM) tt [MARKER_EOM].
Proof. apply (@writes_stream _ _ (pair_OutputStreamSpec e)). exact (ei_eom (E := E) (Ch := Ch)). Qed.

#[local] Hint Resolve cstring_bytes str_bytes writes_eom writes_no_errno : stream.

(** A text that can be a JSON string. *)
Definition named (l : bytes) : Prop := is_bytes l /\ zlen l < 2 ^ 32.

Lemma writes_json_name e (o : option bytes) : (forall l, o = Some l -> named l) -> exists t, writes_at e (json_write_string o) tt t.
Proof. intros Ho. eexists. by apply (@writes_string_opt _ _ (pair_OutputStreamSpec e)). Qed.

#[local] Ltac tell := lazymatch goal with
  | |- tells (write_errno _ ;; _) _ _ _ => fail
  | |- tells (_ ;; _) _ _ _ => eapply tells_seq; [done|eauto with stream bytes; fail|intros; cbv beta]
  | |- tells _ _ _ _ => eapply tells_writes; [done|done|eauto with stream bytes; fail|try done]
  end.

Lemma tells_created e ch type id context_id : ei_ok e -> os_wf ch -> named type -> named id -> (forall l, context_id = Some l -> named l) ->
  tells (send_event_stream_created (E := E) type id context_id) e ch (fun _ => True).
Proof.
  intros He Hch Ht Hi Hc. unfold send_event_stream_created.
  destruct (writes_json_name e (Some type)) as [t1 W1]; [by intros ? [= <-]|]. destruct (writes_json_name e (Some id)) as [t2 W2]; [by intros ? [= <-]|].
  destruct (writes_json_name e context_id Hc) as [t3 W3]. repeat tell.
Qed.

Lemma tells_disposed e ch type id : ei_ok e -> os_wf ch -> named type -> named id ->
  tells (send_event_stream_disposed (E := E) type id) e ch (fun _ => True).
Proof.
  intros He Hch Ht Hi. unfold send_event_stream_disposed.
  destruct (writes_json_name e (Some type)) as [t1 W1]; [by intros ? [= <-]|]. destruct (writes_json_name e (Some id)) as [t2 W2]; [by intros ? [= <-]|].
  repeat tell.
Qed.

Lemma tells_reply e ch token err : ei_ok e -> os_wf ch -> ei_err e err -> cstring token -> tells (send_reply token err) e ch (fun _ => True).
Proof. intros He Hch Hr Ht. unfold send_reply. do 2 tell. apply tells_errno; [done..|]. intros. tell. Qed.

Lemma tells_done e ch token : ei_ok e -> os_wf ch -> cstring token -> tells (send_reply token 0) e ch (fun _ => True).
Proof. intros He Hch Ht. unfold send_reply. do 2 tell. eapply tells_seq; [done|by apply writes_no_errno|intros]. tell. Qed.

Lemma tells_read_error e ch token err eos : ei_ok e -> os_wf ch -> ei_err e err -> cstring token -> tells (send_read_error token err eos) e ch (fun _ => True).
Proof.
  intros He Hch Hr Ht. unfold send_read_error. do 3 tell. apply tells_errno; [done..|]. clear. intros e' ch' He Hch.
  assert (W1 : writes_at e' (json_write_long 0) tt (signed_text 0)) by (apply (@writes_long _ _ (pair_OutputStreamSpec e')); done).
  assert (W2 : writes_at e' (json_write_boolean eos) tt _) by apply (@writes_boolean _ _ (pair_OutputStreamSpec e')).
  repeat tell.
Qed.

(** The reply with data, which come in two parts; [lost] is 0. *)
Definition read_reply (token data1 data2 : bytes) (read1 read2 lost : Z) (eos : bool) : M (E * Ch) unit :=
  write_stringz (str "R") ;;
  write_stringz token ;;
  (if 0 <? read1 + read2 then
     state ← json_write_binary_start (read1 + read2);
     state ← json_write_binary_data state data1;
     state ← json_write_binary_data state data2;
     json_write_binary_end state ;;
     write_stream 0
   else write_stringz (str "null")) ;;
  write_errno 0 ;;
  json_write_long lost ;; write_stream 0 ;;
  json_write_boolean (b2z eos) ;; write_stream 0 ;;
  write_stream MARKER_EOM.

Lemma writes_two e ch d1 d2 : os_wf ch -> is_bytes d1 -> is_bytes d2 -> zlen (d1 ++ d2) < 2 ^ 64 -> exists ch',
  (state ← json_write_binary_start (zlen d1 + zlen d2);
   state ← json_write_binary_data state d1;
   state ← json_write_binary_data state d2;
   json_write_binary_end state) (e, ch) = (Ok tt, (e, ch') : E * Ch) /\ os_wf ch' /\
  os_data ch' = os_data ch ++ binary_text (os_supports_zero_copy ch) (zlen (d1 ++ d2)) (d1 ++ d2) /\ os_supports_zero_copy ch' = os_supports_zero_copy ch.
Proof.
  intros Hch H1' H2' Hz. pose proof (zlen_nonneg (d1 ++ d2)).
  destruct (@write_binary_chunks_ok _ _ (pair_OutputStreamSpec e) [d1; d2] (zlen (d1 ++ d2)) (e, ch)) as ([e' ch'] & E1 & [E2 Hw] & D & Z1);
    [done|by repeat constructor|lia|cbn; by rewrite app_nil_r|]. cbn in E2. subst e'. exists ch'. cbn [mjoin list_join] in *.
  rewrite app_nil_r, zlen_app in *. split; [|done]. rewrite <- E1. cbv [json_write_binary_chunks mbind M_bind mret M_ret].
  destruct (json_write_binary_start _ _) as [[st| | |] s1]; [|done..].
  destruct (json_write_binary_data st d1 s1) as [[st'| | |] s2]; [|done..].
  by destruct (json_write_binary_data st' d2 s2) as [[st2| | |] s3].
Qed.

Lemma tells_read (e : E) ch token d1 d2 eos : ei_ok e -> os_wf ch -> cstring token -> is_bytes d1 -> is_bytes d2 -> zlen (d1 ++ d2) < 2 ^ 64 ->
  tells (read_reply token d1 d2 (zlen d1) (zlen d2) 0 eos) e ch (fun l => l = read_text (os_supports_zero_copy ch) token (d1 ++ d2) eos).
Proof.
  intros He Hch Ht H1' H2' Hz. unfold read_reply, read_text. tell. tell.
  set (mid := if 0 <? zlen d1 + zlen d2 then _ else _). rewrite zlen_app. clear H2. rename ch'0 into c0. rewrite H3 in H5.
  assert (HM : exists c1, mid (e, c0) = (Ok tt, (e, c1)) /\ os_wf c1 /\ os_data c1 = os_data c0 ++
    (if 0 <? zlen d1 + zlen d2 then binary_text (os_supports_zero_copy ch) (zlen d1 + zlen d2) (d1 ++ d2) ++ [0] else str "null" ++ [0]) /\
    os_supports_zero_copy c1 = os_supports_zero_copy c0).
  { subst mid. destruct (0 <? _).
    - destruct (writes_two e c0 d1 d2) as (c1 & E1 & W1 & D1 & Z1); [done..|].
      destruct (@writes_byte _ _ (pair_OutputStreamSpec e) 0 ltac:(done) (e, c1)) as ([e2 c2] & E2 & [E3 W2] & D2 & Z2); [done|]. cbn in E3, D2, Z2. subst e2.
      exists c2. rewrite D2, D1, H5, zlen_app, <- app_assoc in *. split; [|by rewrite Z2, Z1]. revert E1. unfold mbind, M_bind.
      destruct (json_write_binary_start _ _) as [[st| | |] s1]; [|done..].
      destruct (json_write_binary_data st d1 s1) as [[st'| | |] s2]; [|done..].
      destruct (json_write_binary_data st' d2 s2) as [[st2| | |] s3]; [|done..]. by intros ->.
    - destruct (@writes_stringz _ _ (pair_OutputStreamSpec e) (str "null") (str_bytes _) (e, c0)) as ([e2 c2] & E2 & [E3 W2] & D2 & Z2); [done|].
      cbn [fst snd] in E3. subst e2. by exists c2. }
  destruct HM as (c1 & E1 & W1 & D1 & Z1).
  assert (HT : tells (write_errno 0 ;; json_write_long 0 ;; write_stream 0 ;; json_write_boolean (b2z eos) ;; write_stream 0 ;; write_stream MARKER_EOM) e c1
    (fun l => l = [0] ++ str "0" ++ [0] ++ (if eos then str "true" else str "false") ++ [0] ++ [MARKER_EOM])).
  { assert (W2 : writes_at e (json_write_long 0) tt (str "0")) by (apply (@writes_long _ _ (pair_OutputStreamSpec e)); done).
    assert (W3 : writes_at e (json_write_boolean (b2z eos)) tt (if eos then str "true" else str "false"))
      by (pose proof (@writes_boolean _ _ (pair_OutputStreamSpec e) (b2z eos)) as W3; by destruct eos).
    eapply tells_seq; [done|by apply writes_no_errno|intros]. repeat tell. }
  destruct HT as (e2 & c2 & l & E2 & He2 & W2 & D2 & Z2 & ->). eexists e2, c2, _. split; [by rewrite (bind_ok _ _ _ _ _ E1)|].
  split_and!; [done|done|by rewrite D2, D1, <- app_assoc|congruence|by rewrite <- !app_assoc].
Qed.
End writers.

(** ** Operations *)

Definition msg_text (zc : bool) (m : Msg) (text : list Z) : Prop :=
  match m with MRead _ token data eos => text = read_text zc token data eos | MOther => True end.

Definition says_on (c : Z) (e : Ev) : list Msg := match e with ESay c' m => if c' =? c then [m] else [] | _ => [] end.
Definition on_channel (c : Z) (t : Trace) : list Msg := mjoin (says_on c <$> t).

Section does.
Context {E Ch : Type} `{InputStream Ch} `{ErrnoSpec E Ch}.

Abbreviation World := (StreamWorld E Ch).
Abbreviation W := (M World).

(** The channels that are left say what is in the trace. *)
Definition spoke (w w' : World) (t : Trace) : Prop :=
  dom (sw_channels w') ⊆ dom (sw_channels w) /\
  forall c ch ch', sw_channels w !! c = Some ch -> sw_channels w' !! c = Some ch' ->
    os_supports_zero_copy ch' = os_supports_zero_copy ch /\
    exists texts, os_data ch' = os_data ch ++ mjoin texts /\ Forall2 (msg_text (os_supports_zero_copy ch)) (on_channel c t) texts.

Definition ends (w : World) : Prop := map_Forall (fun _ ch => os_wf ch) (sw_channels w) /\ ei_ok (sw_errors w).

Lemma spoke_refl w w' : sw_channels w' = sw_channels w -> spoke w w' [].
Proof.
  intros E1. unfold spoke. rewrite E1. split; [done|]. intros c ch ch' Hc Hc'. simplify_eq. split; [done|]. exists []. split; [by rewrite app_nil_r|constructor].
Qed.

Lemma on_channel_app c t1 t2 : on_channel c (t1 ++ t2) = on_channel c t1 ++ on_channel c t2.
Proof. unfold on_channel. by rewrite fmap_app, join_app. Qed.

Lemma spoke_trans w1 w2 w3 t1 t2 : spoke w1 w2 t1 -> spoke w2 w3 t2 -> spoke w1 w3 (t1 ++ t2).
Proof.
  intros [D1 S1] [D2 S2]. split; [set_solver|]. intros c ch ch' Hc Hc'.
  assert (exists ch1, sw_channels w2 !! c = Some ch1) as [ch1 Hc1] by (apply elem_of_dom, D2; by apply elem_of_dom_2 in Hc').
  destruct (S1 c ch ch1 Hc Hc1) as (Z1 & x1 & E1 & F1). destruct (S2 c ch1 ch' Hc1 Hc') as (Z2 & x2 & E2 & F2).
  split; [congruence|]. exists (x1 ++ x2). rewrite E2, E1, join_app, app_assoc. split; [done|]. rewrite on_channel_app. rewrite Z1 in F2. by apply Forall2_app.
Qed.

(** [m] succeeds, and what it does the specification accepts. *)
Definition does {A} (P : Spec) (m : W A) (w : World) (Q : A -> World -> Trace -> Spec -> Prop) : Prop :=
  exists a w' t P', m w = (Ok a, w') /\ spoke w w' t /\ spec_run P t = Some P' /\ Q a w' t P'.

Lemma does_ret {A} P (a : A) w (Q : A -> World -> Trace -> Spec -> Prop) : Q a w [] P -> does P (mret a) w Q.
Proof. intros HQ. exists a, w, [], P. split; [done|]. split; [by apply spoke_refl|done]. Qed.

Lemma does_bind {A B} P (m : W A) (f : A -> W B) w Q :
  does P m w (fun a w1 t1 P1 => does P1 (f a) w1 (fun b w2 t2 P2 => Q b w2 (t1 ++ t2) P2)) -> does P (m ≫= f) w Q.
Proof.
  intros (a & w1 & t1 & P1 & E1 & S1 & R1 & b & w2 & t2 & P2 & E2 & S2 & R2 & HQ). exists b, w2, (t1 ++ t2), P2.
  split; [by rewrite (bind_ok _ _ _ _ _ E1)|]. split; [by eapply spoke_trans|]. by rewrite (spec_run_app _ _ _ _ R1).
Qed.

Lemma does_mono {A} P (m : W A) w (Q R : A -> World -> Trace -> Spec -> Prop) :
  does P m w Q -> (forall a w' t P', Q a w' t P' -> R a w' t P') -> does P m w R.
Proof. intros (a & w' & t & P' & E1 & S1 & R1 & HQ) HQR. exists a, w', t, P'. auto. Qed.

(** What happens without a message. *)
Lemma does_event {A} P e P1 (m : W A) w (Q : A -> World -> Trace -> Spec -> Prop) :
  (forall c msg, e <> ESay c msg) -> spec_step P e = Some P1 ->
  does P1 m w (fun a w' t P' => Q a w' (e :: t) P') -> does P m w Q.
Proof.
  intros He HS (a & w' & t & P' & E1 & [D S1] & R1 & HQ). exists a, w', (e :: t), P'. split; [done|]. split; [|split; [cbn; by rewrite HS|done]].
  split; [done|]. intros c ch ch' Hc Hc'. unfold on_channel. cbn. destruct e; try apply (S1 c ch ch' Hc Hc'). by destruct (He c0 m0).
Qed.

(** A step without an event. *)
Lemma does_step {A} P (m : W A) w a w' Q : m w = (Ok a, w') -> sw_channels w' = sw_channels w -> Q a w' [] P -> does P m w Q.
Proof. intros E1 E2 HQ. exists a, w', [], P. split; [done|]. split; [by apply spoke_refl|done]. Qed.

Lemma does_then {A B} P (m : W A) (f : A -> W B) w a w1 Q :
  m w = (Ok a, w1) -> sw_channels w1 = sw_channels w -> does P (f a) w1 Q -> does P (m ≫= f) w Q.
Proof. intros E1 E2 HQ. apply does_bind. by eapply does_step. Qed.

Lemma does_assert {B} P b (f : unit -> W B) w Q : b = true -> does P (f tt) w Q -> does P (assertm b ≫= f) w Q.
Proof. intros -> HQ. exact HQ. Qed.

Lemma does_option {A B} P (o : option A) a (f : A -> W B) w Q : o = Some a -> does P (f a) w Q -> does P (of_option o ≫= f) w Q.
Proof. intros -> HQ. exact HQ. Qed.

Lemma does_stream {B} P s y (f : VirtualStream -> W B) w Q : sw_streams w !! s = Some y -> does P (f y) w Q -> does P (get_stream s ≫= f) w Q.
Proof. intros Hy HQ. eapply does_then; [unfold get_stream; rewrite (bind_ok get _ _ _ _ eq_refl), Hy; reflexivity|done|done]. Qed.

Lemma does_client {B} P a x (f : StreamClient -> W B) w Q : sw_clients w !! a = Some x -> does P (f x) w Q -> does P (get_client a ≫= f) w Q.
Proof. intros Hx HQ. eapply does_then; [unfold get_client; rewrite (bind_ok get _ _ _ _ eq_refl), Hx; reflexivity|done|done]. Qed.

Lemma does_change_stream {B} P s y g (f : unit -> W B) w Q : sw_streams w !! s = Some y ->
  does P (f tt) (set_streams (<[s := g y]> (sw_streams w)) w) Q -> does P (change_stream s g ≫= f) w Q.
Proof.
  intros Hy HQ. eapply does_then; [| |exact HQ]; [|done].
  unfold change_stream, get_stream. by rewrite bind_assoc, (bind_ok get _ _ _ _ eq_refl), Hy.
Qed.

Lemma does_change_client {B} P a x g (f : unit -> W B) w Q : sw_clients w !! a = Some x ->
  does P (f tt) (set_clients (<[a := g x]> (sw_clients w)) w) Q -> does P (change_client a g ≫= f) w Q.
Proof.
  intros Hx HQ. eapply does_then; [| |exact HQ]; [|done].
  unfold change_client, get_client. by rewrite bind_assoc, (bind_ok get _ _ _ _ eq_refl), Hx.
Qed.

Lemma does_assoc {A B C} P (m : W A) (f : A -> W B) (g : B -> W C) w Q :
  does P (m ≫= fun a => f a ≫= g) w Q -> does P ((m ≫= f) ≫= g) w Q.
Proof. unfold does. by rewrite bind_assoc. Qed.

(** A step is the last one. *)
Lemma does_last {A} P (m : W A) w Q : does P (m ≫= mret) w Q -> does P m w Q.
Proof. unfold does. by rewrite bind_ret. Qed.

(** Saying something on a channel. *)
Lemma does_say P P' c ch m msg (w : World) (Q : unit -> World -> Trace -> Spec -> Prop) : ends w -> sw_channels w !! c = Some ch ->
  (forall e, ei_ok e -> e = sw_errors w -> os_wf ch -> tells m e ch (msg_text (os_supports_zero_copy ch) msg)) ->
  spec_step P (ESay c msg) = Some P' ->
  (forall e ch', ends (set_errors e (set_channels (<[c := ch']> (sw_channels w)) w)) ->
     Q tt (set_errors e (set_channels (<[c := ch']> (sw_channels w)) w)) [ESay c msg] P') ->
  does P (on_out c m) w Q.
Proof.
  intros [Hw He] Hc Hm HP HQ. destruct (Hm (sw_errors w) He eq_refl (Hw _ _ Hc)) as (e' & ch' & l & E1 & He' & Hw' & D & Z1 & Hl).
  exists tt, (set_errors e' (set_channels (<[c := ch']> (sw_channels w)) w)), [ESay c msg], P'.
  split; [unfold on_out; rewrite Hc, E1; done|]. split; [|split; [cbn [spec_run]; by rewrite HP|apply HQ]].
  - split; [cbn; rewrite dom_insert_L; apply elem_of_dom_2 in Hc; set_solver|]. intros c' ch1 ch2 Hc1 Hc2. cbn in Hc2.
    destruct (decide (c = c')) as [<-|Hn].
    + rewrite lookup_insert_eq in Hc2. simplify_eq. split; [done|]. exists [l]. cbn. rewrite app_nil_r. split; [done|].
      unfold on_channel. cbn. rewrite Z.eqb_refl. cbn. by repeat constructor.
    + rewrite lookup_insert_ne in Hc2 by done. simplify_eq. split; [done|]. exists []. rewrite app_nil_r. split; [done|].
      unfold on_channel. cbn. replace (c =? c') with false by lia. constructor.
  - split; [|done]. cbn. by apply map_Forall_insert_2.
Qed.

Lemma does_trapped P (m : W unit) w Q : does P m w Q -> does P (trapped m) w Q.
Proof. intros ([] & w' & t & P' & E1 & HQ). exists tt, w', t, P'. unfold trapped. by rewrite E1. Qed.
End does.
