(* ===== verification/StreamsInv.v ===== *)
(** * Streams service: the invariant

    Who refers to whom ([linked], which the data do not matter for), what is posted,
    and how the data of streams and clients are those of the specification. *)

From stdpp Require Import gmap.
From S2P Require Import Prelude Ring Streams JsonWrite StreamsSvc StreamsSpec.

(** ** Links *)

Section linked.
Context {E Ch : Type}.

(** What refers to a client, and what it refers to. *)
Record client_linked (w : StreamWorld E Ch) (a : Z) (x : StreamClient) (y : VirtualStream) : Prop := {
  cl_stream : sw_streams w !! sc_stream x = Some y;
  cl_of : a ∈ vs_clients y;
  cl_channel : is_Some (sw_channels w !! sc_channel x);
  cl_all : a ∈ sw_all_clients w;
  cl_brk : a < sw_brk w;
  cl_hash : exists l, znth (sw_hash w) (get_client_hash (vs_id y) (sc_channel x)) = Some l /\ a ∈ l;
}.

Record stream_linked (w : StreamWorld E Ch) (s : Z) (y : VirtualStream) : Prop := {
  sl_nodup : NoDup (vs_clients y);
  sl_clients : forall a, a ∈ vs_clients y -> exists x, sw_clients w !! a = Some x /\ sc_stream x = s;
  sl_ref : vs_ref_cnt y = zlen (vs_clients y) + b2z (negb (vs_deleted y));
  sl_brk : s < sw_brk w;
  sl_type : named (vs_type y);
  sl_id : in_u 32 (vs_id y);
}.

Record linked (w : StreamWorld E Ch) : Prop := {
  lk_client : forall a x, sw_clients w !! a = Some x -> exists y, client_linked w a x y;
  lk_stream : forall s y, sw_streams w !! s = Some y -> stream_linked w s y;
  lk_all : NoDup (sw_all_clients w) /\ forall a, a ∈ sw_all_clients w -> is_Some (sw_clients w !! a);
  lk_streams : forall s, s ∈ sw_all_streams w -> is_Some (sw_streams w !! s);
  lk_hash : zlen (sw_hash w) = HANDLE_HASH_SIZE /\ forall l a, l ∈ sw_hash w -> a ∈ l -> is_Some (sw_clients w !! a);
  lk_subs : forall h, h ∈ sw_subscriptions w -> is_Some (sw_channels w !! sb_channel h);
  lk_id : in_u 32 (sw_id_cnt w);
}.

(** What the links are without the data. *)
Definition stream_links (y : VirtualStream) : VirtualStream :=
  Build_VirtualStream (vs_type y) (vs_id y) (vs_access y) (vs_callback y) (vs_ref_cnt y) (vs_deleted y) (vs_clients y) 0 [] (vs_buf_len y) 0 0 false false false false.
Definition client_links (x : StreamClient) : StreamClient := Build_StreamClient [] [] (sc_stream x) (sc_channel x) 0.
Definition links (w : StreamWorld E Ch) : StreamWorld unit unit :=
  Build_StreamWorld (stream_links <$> sw_streams w) (client_links <$> sw_clients w) (sw_all_streams w) (sw_all_clients w) (sw_hash w)
    (sw_subscriptions w) (sw_id_cnt w) (sw_brk w) [] (const tt <$> sw_channels w) tt.

Lemma links_stream (w : StreamWorld E Ch) s y : sw_streams w !! s = Some y -> sw_streams (links w) !! s = Some (stream_links y).
Proof. intros Hs. cbn. by rewrite lookup_fmap, Hs. Qed.
Lemma links_client (w : StreamWorld E Ch) a x : sw_clients w !! a = Some x -> sw_clients (links w) !! a = Some (client_links x).
Proof. intros Hs. cbn. by rewrite lookup_fmap, Hs. Qed.

Lemma links_set_stream (w : StreamWorld E Ch) s y y' : sw_streams w !! s = Some y -> stream_links y' = stream_links y ->
  links (set_streams (<[s := y']> (sw_streams w)) w) = links w.
Proof. intros Hs Hy. unfold links. cbn. rewrite fmap_insert, Hy, insert_id; [done|]. by rewrite lookup_fmap, Hs. Qed.

Lemma links_set_client (w : StreamWorld E Ch) a x x' : sw_clients w !! a = Some x -> client_links x' = client_links x ->
  links (set_clients (<[a := x']> (sw_clients w)) w) = links w.
Proof. intros Hs Hy. unfold links. cbn. rewrite fmap_insert, Hy, insert_id; [done|]. by rewrite lookup_fmap, Hs. Qed.

Lemma links_say (w : StreamWorld E Ch) e c ch ch' : sw_channels w !! c = Some ch ->
  links (set_errors e (set_channels (<[c := ch']> (sw_channels w)) w)) = links w.
Proof. intros Hc. unfold links. cbn. rewrite fmap_insert, insert_id; [done|]. by rewrite lookup_fmap, Hc. Qed.
End linked.

Lemma linked_links {E Ch} (w : StreamWorld E Ch) : linked w <-> linked (links w).
Proof.
  split; intros [].
  - constructor; cbn.
    + intros a x Hx. apply lookup_fmap_Some in Hx as (x0 & <- & Hx). destruct (lk_client0 a x0 Hx) as (y & []). exists (stream_links y).
      constructor; cbn; [by rewrite lookup_fmap, cl_stream0|done| |done..]. rewrite lookup_fmap. destruct cl_channel0 as [ch ->]. by exists tt.
    + intros s y Hy. apply lookup_fmap_Some in Hy as (y0 & <- & Hy). destruct (lk_stream0 s y0 Hy). constructor; cbn; [done| |done..].
      intros a Ha. destruct (sl_clients0 a Ha) as (x & Hx & Hxs). exists (client_links x). by rewrite lookup_fmap, Hx.
    + split; [by destruct lk_all0|]. intros a Ha. rewrite lookup_fmap. destruct (proj2 lk_all0 a Ha) as [x ->]. by eexists.
    + intros s Hs. rewrite lookup_fmap. destruct (lk_streams0 s Hs) as [x ->]. by eexists.
    + split; [by destruct lk_hash0|]. intros l a Hl Ha. rewrite lookup_fmap. destruct (proj2 lk_hash0 l a Hl Ha) as [x ->]. by eexists.
    + intros h Hh. rewrite lookup_fmap. destruct (lk_subs0 h Hh) as [x ->]. by eexists.
    + done.
  - cbn in *. constructor.
    + intros a x Hx. destruct (lk_client0 a (client_links x)) as (y & []); [by rewrite lookup_fmap, Hx|]. cbn in *.
      apply lookup_fmap_Some in cl_stream0 as (y0 & <- & Hy). exists y0. constructor; try done. destruct cl_channel0 as [? Hc].
      apply lookup_fmap_Some in Hc as (ch & _ & Hc). by exists ch.
    + intros s y Hy. destruct (lk_stream0 s (stream_links y)); [by rewrite lookup_fmap, Hy|]. cbn in *. constructor; try done.
      intros a Ha. destruct (sl_clients0 a Ha) as (x & Hx & Hxs). apply lookup_fmap_Some in Hx as (x0 & <- & Hx). by exists x0.
    + split; [by destruct lk_all0|]. intros a Ha. destruct (proj2 lk_all0 a Ha) as [x Hx]. apply lookup_fmap_Some in Hx as (x0 & <- & Hx). by exists x0.
    + intros s Hs. destruct (lk_streams0 s Hs) as [x Hx]. apply lookup_fmap_Some in Hx as (x0 & <- & Hx). by exists x0.
    + split; [by destruct lk_hash0|]. intros l a Hl Ha. destruct (proj2 lk_hash0 l a Hl Ha) as [x Hx]. apply lookup_fmap_Some in Hx as (x0 & <- & Hx). by exists x0.
    + intros h Hh. destruct (lk_subs0 h Hh) as [x Hx]. apply lookup_fmap_Some in Hx as (x0 & _ & Hx). by exists x0.
    + done.
Qed.

Lemma linked_same {E Ch} (w w' : StreamWorld E Ch) : links w' = links w -> linked w -> linked w'.
Proof. intros EL HL%linked_links. apply linked_links. by rewrite EL. Qed.

(** ** Data *)

Definition ask_ok (r : ReadRequest) : Prop := cstring (rr_token r) /\ 0 < rr_size r.
Definition write_ok (r : WriteRequest) : Prop := cstring (wr_token r) /\ 0 <= wr_offs r <= wr_size r /\ wr_size r <= zlen (wr_data r) /\ is_bytes (wr_data r).

Abbreviation readable y := (has_access y VS_ENABLE_REMOTE_READ).

(** The buffer of a stream holds the last of its data, those that the owner has
    not taken when the clients do not read them.  Positions do not wrap around. *)
Record stream_ok (z : SpecStream) (y : VirtualStream) : Prop := {
  so_buf : buf_ok y;
  so_pos : vs_pos y = zlen (ss_log z);
  so_max : vs_pos y < 2 ^ 62;
  so_ended : vs_eos_inp y = ss_ended z;
  so_log : exists before, ss_log z = before ++ content y /\ (readable y = false -> ss_taken z = zlen before);
}.

(** A client that reads is in the buffer; it waits when it has read everything,
    or when it is [late]. *)
Record reader_ok (late : Prop) (r : SpecReader) (x : StreamClient) (y : VirtualStream) : Prop := {
  ro_stream : sr_stream r = sc_stream x;
  ro_writes : Forall write_ok (sc_write_requests x);
  ro_none : readable y = false -> sr_asks r = [] /\ sc_read_requests x = [];
  ro_pos : readable y = true -> sr_pos r = sc_pos x /\ vs_pos y - zlen (content y) <= sc_pos x <= vs_pos y;
  ro_asks : readable y = true -> sr_asks r = sc_read_requests x /\ Forall ask_ok (sc_read_requests x);
  ro_settled : readable y = true -> sc_read_requests x = [] \/ late \/ (sc_pos x = vs_pos y /\ vs_eos_inp y = false);
}.

(** The fields that these depend on. *)
Definition stream_data (y : VirtualStream) :=
  (vs_access y, vs_pos y, vs_buf y, vs_buf_len y, vs_buf_inp y, vs_buf_out y, vs_eos_inp y).

Lemma stream_ok_same z y y' : stream_data y' = stream_data y -> stream_ok z y -> stream_ok z y'.
Proof.
  unfold stream_data. intros [= E1 E2 E3 E4 E5 E6 E7] []. unfold content, has_access in *. constructor; unfold content, has_access; rewrite ?E1, ?E2, ?E3, ?E4, ?E5, ?E6, ?E7; try done.
  destruct so_buf0. constructor; rewrite ?E3, ?E4, ?E5, ?E6; done.
Qed.

Lemma reader_ok_same late r x y y' : stream_data y' = stream_data y -> reader_ok late r x y -> reader_ok late r x y'.
Proof.
  unfold stream_data. intros [= E1 E2 E3 E4 E5 E6 E7] []. unfold content, has_access in *. constructor; unfold content, has_access; rewrite ?E1, ?E2, ?E3, ?E4, ?E5, ?E6, ?E7; done.
Qed.

#[export] Instance StreamEvent_eq_dec : EqDecision StreamEvent.
Proof. solve_decision. Defined.

Definition posted_flag (h : StreamEvent) (y : VirtualStream) : bool :=
  match h with
  | delete_stream_event => vs_ref_cnt y =? 0
  | notify_data_event => vs_data_available_posted y
  | notify_space_event => vs_space_available_posted y
  end.

Section inv.
Context {E Ch : Type} `{InputStream Ch} `{ErrnoSpec E Ch}.

Abbreviation World := (StreamWorld E Ch).
Implicit Types w : World.

(** What is posted: each event once, and nothing after the end of a stream. *)
Record posted_ok w : Prop := {
  po_nodup : NoDup (sw_posted w);
  po_flag : forall h s, (h, s) ∈ sw_posted w <-> exists y, sw_streams w !! s = Some y /\ posted_flag h y = true;
  po_last : forall l1 l2 s h, sw_posted w = l1 ++ (delete_stream_event, s) :: l2 -> (h, s) ∉ l2;
}.

(** The clients in [late] may have requests that can be answered. *)
Record Inv (late : list Z) (P : Spec) w : Prop := {
  iv_ends : ends w;
  iv_linked : linked w;
  iv_posted : posted_ok w;
  iv_streams : forall s y, sw_streams w !! s = Some y -> exists z, sp_streams P !! s = Some z /\ stream_ok z y;
  iv_clients : forall a x y, sw_clients w !! a = Some x -> sw_streams w !! sc_stream x = Some y ->
    exists r, sp_readers P !! a = Some r /\ reader_ok (a ∈ late) r x y;
  iv_fresh : (forall s, is_Some (sp_streams P !! s) -> s < sw_brk w) /\ (forall a, is_Some (sp_readers P !! a) \/ a ∈ sp_left P -> a < sw_brk w);
}.

Lemma inv_client late P w a x : Inv late P w -> sw_clients w !! a = Some x -> exists y z r,
  client_linked w a x y /\ stream_linked w (sc_stream x) y /\ sp_streams P !! sc_stream x = Some z /\ stream_ok z y /\
  sp_readers P !! a = Some r /\ reader_ok (a ∈ late) r x y.
Proof.
  intros HI Hx. destruct (lk_client _ (iv_linked _ _ _ HI) a x Hx) as (y & HC). pose proof (cl_stream _ _ _ _ HC) as Hy.
  destruct (iv_streams _ _ _ HI _ _ Hy) as (z & Hz & Hzy). destruct (iv_clients _ _ _ HI _ _ _ Hx Hy) as (r & Hr & Hrx).
  exists y, z, r. pose proof (lk_stream _ (iv_linked _ _ _ HI) _ _ Hy). done.
Qed.

Lemma inv_stream late P w s y : Inv late P w -> sw_streams w !! s = Some y -> exists z,
  stream_linked w s y /\ sp_streams P !! s = Some z /\ stream_ok z y.
Proof.
  intros HI Hy. destruct (iv_streams _ _ _ HI _ _ Hy) as (z & Hz & Hzy). exists z. pose proof (lk_stream _ (iv_linked _ _ _ HI) _ _ Hy). done.
Qed.

(** A stream changes with its data. *)
Lemma inv_set_stream late late' P w s y y' z' : Inv late P w -> sw_streams w !! s = Some y -> stream_links y' = stream_links y ->
  vs_data_available_posted y' = vs_data_available_posted y -> vs_space_available_posted y' = vs_space_available_posted y ->
  stream_ok z' y' ->
  (forall a x r, sw_clients w !! a = Some x -> sc_stream x = s -> sp_readers P !! a = Some r -> reader_ok (a ∈ late) r x y -> reader_ok (a ∈ late') r x y') ->
  (forall a, a ∈ late -> a ∈ late' \/ a ∈ vs_clients y) ->
  let w' := set_streams (<[s := y']> (sw_streams w)) w in
  Inv late' (on_stream s z' P) w' /\ links w' = links w.
Proof.
  intros HI Hy EL F1 F2 Hz HR Hlate w'. assert (EL' : links w' = links w) by by eapply links_set_stream. split; [|done].
  pose proof (inv_stream _ _ _ _ _ HI Hy) as (z & HS & Hz0 & _). pose proof HI as []. constructor.
  - exact iv_ends0.
  - by apply (linked_same w).
  - destruct iv_posted0. constructor; cbn; [done| |done]. intros h s'. rewrite po_flag0. destruct (decide (s = s')) as [<-|Hn].
    + rewrite lookup_insert_eq, Hy. assert (posted_flag h y' = posted_flag h y) as EF.
      { destruct h; cbn; [|done..]. by injection EL as _ _ _ _ -> _. }
      split; intros (? & [= <-] & HF); eexists; split; [done| |done|]; congruence.
    + by rewrite lookup_insert_ne.
  - cbn. intros s' y1. destruct (decide (s = s')) as [<-|Hn].
    + rewrite !lookup_insert_eq. intros [= <-]. by exists z'.
    + rewrite !lookup_insert_ne by done. apply iv_streams0.
  - cbn. intros a x y1 Hx. destruct (decide (s = sc_stream x)) as [Es|Hn].
    + rewrite <- Es, lookup_insert_eq. intros [= <-]. destruct (iv_clients0 a x y Hx) as (r & Hr & Hrx); [congruence|].
      exists r. split; [done|]. eapply HR; eauto.
    + rewrite lookup_insert_ne by done. intros Hy1. destruct (iv_clients0 a x y1 Hx Hy1) as (r & Hr & Hrx). exists r. split; [done|].
      destruct Hrx. constructor; try done. intros Hr1. destruct (ro_settled0 Hr1) as [|[Hl|]]; [by left| |by auto].
      destruct (Hlate a Hl) as [|Hc]; [by auto|]. destruct (sl_clients _ _ _ HS a Hc) as (x1 & Hx1 & Hs1). simplify_eq.
  - destruct iv_fresh0 as [F3 F4]. split; [|done]. cbn. intros s'. destruct (decide (s = s')) as [<-|Hn]; [|by rewrite lookup_insert_ne; auto].
    intros _. by apply F3; eexists.
Qed.

Lemma on_stream_same P s z : sp_streams P !! s = Some z -> on_stream s z P = P.
Proof. intros Hz. unfold on_stream. rewrite insert_id by done. by destruct P. Qed.

(** A client changes. *)
Lemma inv_set_client late late' P w a x x' y r' : Inv late P w -> sw_clients w !! a = Some x -> sw_streams w !! sc_stream x = Some y ->
  client_links x' = client_links x -> reader_ok (a ∈ late') r' x' y -> (forall b, b <> a -> b ∈ late -> b ∈ late') ->
  let w' := set_clients (<[a := x']> (sw_clients w)) w in
  Inv late' (on_reader a r' P) w' /\ links w' = links w.
Proof.
  intros HI Hx Hy EL HR Hlate w'. assert (EL' : links w' = links w) by by eapply links_set_client. split; [|done].
  pose proof (inv_client _ _ _ _ _ HI Hx) as (y1 & z & r & HC & HS & Hz & _ & Hr & _). pose proof HI as []. constructor.
  - exact iv_ends0.
  - by apply (linked_same w).
  - destruct iv_posted0. by constructor.
  - done.
  - cbn. intros b xb yb. destruct (decide (a = b)) as [<-|Hn].
    + rewrite !lookup_insert_eq. intros [= <-]. assert (sc_stream x' = sc_stream x) as -> by by injection EL. intros ?. simplify_eq. by exists r'.
    + rewrite !lookup_insert_ne by done. intros Hxb Hyb. destruct (iv_clients0 b xb yb Hxb Hyb) as (rb & Hrb & []). exists rb. split; [done|].
      constructor; try done. intros Hr1. destruct (ro_settled0 Hr1) as [|[Hl|]]; auto.
  - destruct iv_fresh0 as [F3 F4]. split; [done|]. cbn. intros b. destruct (decide (a = b)) as [<-|Hn]; [|by rewrite lookup_insert_ne; auto].
    intros _. by apply F4; left; eexists.
Qed.

Lemma on_reader_same P a r : sp_readers P !! a = Some r -> on_reader a r P = P.
Proof. intros Hz. unfold on_reader. rewrite insert_id by done. by destruct P. Qed.

(** What does not matter. *)
Lemma inv_same late P w w' : Inv late P w -> links w' = links w -> ends w' -> sw_streams w' = sw_streams w -> sw_clients w' = sw_clients w ->
  sw_posted w' = sw_posted w -> Inv late P w'.
Proof.
  intros [] EL He E1 E2 E3. assert (sw_brk w' = sw_brk w) as E4 by (by injection EL).
  constructor; rewrite ?E1, ?E2, ?E4; try done; [by eapply linked_same|]. destruct iv_posted0. constructor; by rewrite ?E1, ?E3.
Qed.

Lemma inv_late late late' P w : Inv late P w -> (forall a, a ∈ late -> a ∈ late') -> Inv late' P w.
Proof.
  intros [] Hl. constructor; try done. intros a x y Hx Hy. destruct (iv_clients0 a x y Hx Hy) as (r & Hr & []). exists r. split; [done|].
  constructor; try done. intros Hr1. destruct (ro_settled0 Hr1) as [|[|]]; auto.
Qed.

(** ** Events are posted *)

Definition raise_flag (h : StreamEvent) (b : bool) (y : VirtualStream) : VirtualStream :=
  match h with delete_stream_event => y | notify_data_event => set_data_posted b y | notify_space_event => set_space_posted b y end.

Lemma stream_ok_flag h b z y : stream_ok z y -> stream_ok z (raise_flag h b y).
Proof. apply stream_ok_same. by destruct h. Qed.
Lemma reader_ok_flag h b late r x y : reader_ok late r x y -> reader_ok late r x (raise_flag h b y).
Proof. apply reader_ok_same. by destruct h. Qed.
Lemma links_flag h b y : stream_links (raise_flag h b y) = stream_links y.
Proof. by destruct h. Qed.

Lemma flag_other h h' b y : h' <> h -> posted_flag h' (raise_flag h b y) = posted_flag h' y.
Proof. by destruct h, h'. Qed.
Lemma flag_raised h b y : h <> delete_stream_event -> posted_flag h (raise_flag h b y) = b.
Proof. by destruct h. Qed.

(** The flag of an event of a stream, and what is posted. *)
Lemma inv_flag late P w s y h b posted : Inv late P w -> sw_streams w !! s = Some y -> h <> delete_stream_event ->
  let w' := set_streams (<[s := raise_flag h b y]> (sw_streams w)) (set_posted posted w) in
  posted_ok w' -> Inv late P w' /\ links w' = links w.
Proof.
  intros HI Hy Hh w' HP. assert (EL : links w' = links w).
  { transitivity (links (set_posted posted w)); [|done]. apply (links_set_stream (set_posted posted w) s y); [done|]. apply links_flag. }
  split; [|done]. destruct HI. constructor; [exact iv_ends0|by eapply linked_same|done| | |].
  - cbn. intros s' y1. destruct (decide (s = s')) as [<-|Hn]; [|rewrite lookup_insert_ne by done; apply iv_streams0].
    rewrite lookup_insert_eq. intros [= <-]. destruct (iv_streams0 _ _ Hy) as (z & Hz & HS). exists z. split; [done|by apply stream_ok_flag].
  - cbn. intros a x y1 Hx. destruct (decide (s = sc_stream x)) as [Es|Hn]; [|rewrite lookup_insert_ne by done; by apply iv_clients0].
    rewrite <- Es, lookup_insert_eq. intros [= <-]. rewrite Es in Hy. destruct (iv_clients0 _ _ _ Hx Hy) as (r & Hr & HR). exists r. split; [done|by apply reader_ok_flag].
  - done.
Qed.

(** An event is posted, when its flag goes up, for a stream that is not freed. *)
Lemma posted_ok_add w w' s y y' h : posted_ok w -> sw_posted w' = sw_posted w ++ [(h, s)] -> sw_streams w !! s = Some y ->
  sw_streams w' = <[s := y']> (sw_streams w) -> vs_ref_cnt y <> 0 -> posted_flag h y = false -> posted_flag h y' = true ->
  (forall h', h' <> h -> posted_flag h' y' = posted_flag h' y) -> posted_ok w'.
Proof.
  intros [P1 P2 P3] EP Hy ES Hr HF HF' HO. constructor; rewrite EP.
  - apply NoDup_app. split; [done|]. split; [|by apply NoDup_singleton]. intros x Hin ->%list_elem_of_singleton.
    apply P2 in Hin as (y1 & Hy1 & HF1). congruence.
  - intros h' s'. rewrite elem_of_app, P2, list_elem_of_singleton, ES. destruct (decide (s = s')) as [<-|Hn].
    + rewrite lookup_insert_eq, Hy. destruct (decide (h' = h)) as [->|Hn'].
      * split; [intros _; by eexists|intros _; by right].
      * split; [intros [(y1 & [= <-] & HF1)|]; [eexists; split; [done|by rewrite HO]|congruence]|].
        intros (y1 & [= <-] & HF1). left. exists y. split; [done|]. by rewrite <- HO.
    + rewrite lookup_insert_ne by done. split; [intros [|]; [done|congruence]|by left].
  - intros l1 l2 s' h' EQ. destruct (decide (l2 = [])) as [->|Hn2]; [apply not_elem_of_nil|].
    destruct (exists_last Hn2) as (l3 & x & ->). rewrite app_comm_cons, app_assoc in EQ. apply app_inj_tail in EQ as [EQ <-].
    intros [Hin|Hin%list_elem_of_singleton]%elem_of_app; [by apply (P3 _ _ _ _ EQ Hin)|]. simplify_eq.
    assert ((delete_stream_event, s) ∈ sw_posted w) as (y1 & Hy1 & HF1)%P2 by (rewrite EQ; set_solver). simplify_eq. cbn in HF1. lia.
Qed.

Lemma inv_post late P w s y h : Inv late P w -> sw_streams w !! s = Some y -> h <> delete_stream_event -> posted_flag h y = false -> vs_ref_cnt y <> 0 ->
  let w' := set_streams (<[s := raise_flag h true y]> (sw_streams w)) (set_posted (sw_posted w ++ [(h, s)]) w) in
  Inv late P w' /\ links w' = links w.
Proof.
  intros HI Hy Hh HF Hr w'. apply inv_flag; [done..|].
  apply (posted_ok_add w _ s y (raise_flag h true y) h); [apply HI|done..|by apply flag_raised|]. intros h' Hn. by apply flag_other.
Qed.

Lemma does_post late P s y w h (Q : unit -> World -> Trace -> Spec -> Prop) : Inv late P w -> sw_streams w !! s = Some y ->
  h <> delete_stream_event -> vs_ref_cnt y <> 0 ->
  (forall w' b, Inv late P w' -> links w' = links w -> sw_clients w' = sw_clients w -> sw_streams w' = <[s := raise_flag h b y]> (sw_streams w) -> Q tt w' [] P) ->
  does P (if posted_flag h y then mret tt else post_event h s ;; change_stream s (raise_flag h true)) w Q.
Proof.
  intros HI Hy Hh Hr HQ. destruct (posted_flag h y) eqn:EF.
  - apply does_ret. apply (HQ w true); [done..|]. rewrite insert_id; [done|]. rewrite Hy. f_equal. destruct y, h; cbn in *; by subst.
  - eapply does_then; [done|done|]. apply does_last. eapply does_change_stream; [exact Hy|]. apply does_ret.
    destruct (inv_post _ _ _ _ _ h HI Hy Hh EF Hr) as [HI' EL]. by apply (HQ _ true).
Qed.
End inv.
