(* ===== verification/StreamsRead.v ===== *)
(** * Streams service: readers, clients and streams

    Data that are added to a stream go to the clients that wait, and free their
    place in the buffer when all clients have read them. *)

From stdpp Require Import gmap.
From S2P Require Import Prelude Ring Streams JsonWrite JsonBinary StreamsSvc StreamsSpec StreamsInv.

Section readers.
Context {E Ch : Type} `{InputStream Ch} `{ErrnoSpec E Ch}.

Abbreviation World := (StreamWorld E Ch).
Implicit Types w : World.

Lemma does_post_space late P s y w (Q : unit -> World -> Trace -> Spec -> Prop) : Inv late P w -> sw_streams w !! s = Some y -> vs_ref_cnt y <> 0 ->
  (forall w' b, Inv late P w' -> links w' = links w -> sw_clients w' = sw_clients w -> sw_streams w' = <[s := set_space_posted b y]> (sw_streams w) -> Q tt w' [] P) ->
  does P (post_space_available s) w Q.
Proof.
  intros HI Hy Hr HQ. unfold post_space_available. eapply does_stream; [exact Hy|].
  by apply (does_post late P s y w notify_space_event).
Qed.

(** The smallest position of the clients. *)
Lemma min_client_pos_ok (l : list Z) pos w : (forall a, a ∈ l -> exists x, sw_clients w !! a = Some x /\ sc_pos x <= pos) -> forall m,
  exists r, min_client_pos l pos m w = (Ok r, w) /\ r <= m /\ (forall a x, a ∈ l -> sw_clients w !! a = Some x -> r <= sc_pos x) /\
    (r = m \/ exists a x, a ∈ l /\ sw_clients w !! a = Some x /\ r = sc_pos x).
Proof.
  induction l as [|a l IH]; intros Hl m.
  - exists m. cbn. split_and!; [done|lia| |by left]. intros a x Ha. by apply not_elem_of_nil in Ha.
  - destruct (Hl a) as (x & Hx & Hp); [set_solver|].
    destruct (IH (fun b Hb => Hl b (list_elem_of_further b a l Hb)) (if sc_pos x <? m then sc_pos x else m)) as (r & ER & Hm & Hall & Hr).
    exists r. cbn [min_client_pos]. unfold get_client. rewrite bind_assoc, (bind_ok get _ _ _ _ eq_refl), Hx. cbn [of_option]. rewrite ret_bind.
    replace (sc_pos x <=? pos) with true by lia. cbn [assertm]. rewrite ret_bind. split; [done|]. revert Hm Hr. zcases; intros Hm Hr.
    + split; [lia|]. split; [intros b y [->|Hb]%elem_of_cons Hy; [simplify_eq; lia|by eauto]|].
      right. destruct Hr as [->|(b & y & Hb & ?)]; [by exists a, x; split; [set_solver|]|]. exists b, y. split; [set_solver|done].
    + split; [lia|]. split; [intros b y [->|Hb]%elem_of_cons Hy; [simplify_eq; lia|by eauto]|].
      destruct Hr as [->|(b & y & Hb & ?)]; [by left|]. right. exists b, y. split; [set_solver|done].
Qed.

(** The front of the buffer is freed. *)
Lemma inv_buf_out late P w s y out k : Inv late P w -> sw_streams w !! s = Some y -> readable y = true ->
  buf_ok (set_buf_out out y) -> 0 <= k <= zlen (content y) -> content (set_buf_out out y) = zdrop k (content y) ->
  (forall a x, sw_clients w !! a = Some x -> a ∈ vs_clients y -> vs_pos y - zlen (content y) + k <= sc_pos x) ->
  let w' := set_streams (<[s := set_buf_out out y]> (sw_streams w)) w in Inv late P w' /\ links w' = links w.
Proof.
  intros HI Hy Hread Hok Hk Hc Hpos w'. pose proof (inv_stream _ _ _ _ _ HI Hy) as (z & HS & Hz & HZ).
  rewrite <- (on_stream_same P s z Hz). apply (inv_set_stream late late P w s y); [done..| | |by left].
  - destruct (so_log _ _ HZ) as (before & EB & _). constructor; [done|apply HZ..|]. exists (before ++ ztake k (content y)).
    rewrite Hc, <- app_assoc, ztake_zdrop. split; [done|]. change (readable (set_buf_out out y)) with (readable y). by rewrite Hread.
  - intros a x r Hx Hs Hr HR. constructor; try apply HR. intros _. destruct (ro_pos _ _ _ _ HR Hread). split; [done|]. rewrite Hc, zlen_zdrop by done.
    cbn [set_buf_out vs_pos]. rewrite <- Hs in Hy. destruct (inv_client _ _ _ _ _ HI Hx) as (y1 & _ & _ & HC & _).
    pose proof (cl_stream _ _ _ _ HC). simplify_eq. pose proof (Hpos a x Hx (cl_of _ _ _ _ HC)). lia.
Qed.

Lemma does_advance late P s y w (Q : unit -> World -> Trace -> Spec -> Prop) : Inv late P w -> sw_streams w !! s = Some y -> readable y = true -> vs_ref_cnt y <> 0 ->
  (forall w', Inv late P w' -> links w' = links w -> sw_clients w' = sw_clients w -> Q tt w' [] P) ->
  does P (advance_stream_buffer s) w Q.
Proof.
  intros HI Hy Hread Hr HQ. pose proof (inv_stream _ _ _ _ _ HI Hy) as (z & HS & Hz & HZ). pose proof (so_buf _ _ HZ) as HB.
  pose proof (content_max y HB) as HM. destruct (so_log _ _ HZ) as (before & EB & _). pose proof (so_pos _ _ HZ) as EP. pose proof (so_max _ _ HZ) as HP0.
  assert (Hlen : zlen (content y) <= vs_pos y) by (rewrite EP, EB, zlen_app; pose proof (zlen_nonneg before); lia). pose proof (bo_len _ HB).
  assert (Hcl : forall a, a ∈ vs_clients y -> exists x, sw_clients w !! a = Some x /\ vs_pos y - zlen (content y) <= sc_pos x <= vs_pos y).
  { intros a Ha. destruct (sl_clients _ _ _ HS a Ha) as (x & Hx & Hs). exists x. split; [done|].
    destruct (iv_clients _ _ _ HI a x y Hx) as (r & _ & HR); [by rewrite Hs|]. by destruct (ro_pos _ _ _ _ HR Hread). }
  unfold advance_stream_buffer. eapply does_stream; [exact Hy|]. cbv zeta. apply does_assert; [done|]. rewrite used_len by done.
  rewrite (wrapu_small 64 (vs_pos y - zlen (content y))) by lia. change (u64 (Z.lnot 0)) with (2 ^ 64 - 1).
  destruct (min_client_pos_ok (vs_clients y) (vs_pos y) w) with (m := 2 ^ 64 - 1) as (r & ER & Hm & Hall & Hex).
  { intros a Ha. destruct (Hcl a Ha) as (x & Hx & ?). exists x. split; [done|lia]. }
  eapply does_then; [exact ER|done|].
  assert (HW : forall w', Inv late P w' -> links w' = links w -> sw_clients w' = sw_clients w -> is_Some (sw_streams w' !! s) ->
    does P (y1 ← get_stream s; if zlen (content y) =? buf_used y1 then mret tt else post_space_available s) w' Q).
  { intros w' HI' EL EC [y1 Hy1]. eapply does_stream; [exact Hy1|]. destruct (_ =? _); [by apply does_ret, HQ|].
    eapply does_post_space; [done..| |]; [|intros w2 b HI2 EL2 EC2 _; apply HQ; congruence].
    assert (stream_links y1 = stream_links y) as EY; [|by injection EY as _ _ _ _ -> _].
    pose proof (links_stream w' _ _ Hy1) as E1. rewrite EL, (links_stream w _ _ Hy) in E1. congruence. }
  destruct (Z.eqb_spec r (2 ^ 64 - 1)) as [->|Hne].
  - assert (HN : vs_clients y = []).
    { destruct (vs_clients y) as [|a l]; [done|]. destruct (Hcl a) as (x & Hx & ?); [set_solver|]. pose proof (Hall a x ltac:(set_solver) Hx). lia. }
    eapply does_change_stream; [exact Hy|]. destruct (inv_buf_out late P w s y (vs_buf_inp y) (zlen (content y)) HI Hy Hread) as [HI' EL].
    + constructor; apply HB.
    + lia.
    + unfold content at 1. cbn. rewrite ring_empty, zdrop_all; [done|lia].
    + intros a x _. rewrite HN. by intros ?%not_elem_of_nil.
    + apply HW; [done..|]. cbn. by rewrite lookup_insert_eq.
  - destruct Hex as [|(a & x & Ha & Hx & ->)]; [done|]. destruct (Hcl a Ha) as (x' & Hx' & HP). simplify_eq.
    destruct (Z.ltb_spec (vs_pos y - zlen (content y)) (sc_pos x)); [|by apply HW; [done..|exists y]].
    apply does_assoc. eapply does_assert; [lia|]. rewrite (wrapu_small 32) by lia.
    set (k := sc_pos x - (vs_pos y - zlen (content y))). destruct (buf_advance_ok y k HB) as [HO HC]; [lia|].
    eapply does_change_stream; [exact Hy|].
    destruct (inv_buf_out late P w s y _ k HI Hy Hread HO) as [HI' EL]; [lia|done| |apply HW; [done..|cbn; by rewrite lookup_insert_eq]].
    intros b xb Hxb Hb. pose proof (Hall b xb Hb Hxb). lia.
Qed.

(** ** Replies *)

Lemma inv_say late P w c ch ch' e : Inv late P w -> sw_channels w !! c = Some ch ->
  let w' := set_errors e (set_channels (<[c := ch']> (sw_channels w)) w) in ends w' -> Inv late P w' /\ links w' = links w.
Proof. intros HI Hc w' He. assert (EL : links w' = links w) by by eapply links_say. split; [by eapply inv_same|done]. Qed.

(** What the buffer has for a reader. *)
Lemma reply_data y z size pos : stream_ok z y -> vs_pos y - zlen (content y) <= pos <= vs_pos y -> 0 < size ->
  let n := Z.min size (vs_pos y - pos) in
  let at_ := u64 (vs_buf_inp y + vs_buf_len y - (vs_pos y - pos)) mod vs_buf_len y in
  let read1 := if at_ + n <=? vs_buf_len y then n else vs_buf_len y - at_ in
  exists d1 d2, mem_read (vs_buf y) at_ read1 = Some d1 /\ mem_read (vs_buf y) 0 (n - read1) = Some d2 /\
    zlen d1 = read1 /\ zlen d2 = n - read1 /\ is_bytes d1 /\ is_bytes d2 /\ d1 ++ d2 = ztake size (zdrop pos (ss_log z)).
Proof.
  intros HZ Hpos Hsize n at_ read1. pose proof (so_buf _ _ HZ) as HB. destruct (so_log _ _ HZ) as (before & EB & _). pose proof (so_pos _ _ HZ) as EP.
  pose proof (content_max y HB). set (k := zlen (content y) - (vs_pos y - pos)).
  destruct (fetch_ok y k n HB) as [Hat Hr]; [lia|lia|lia|]. replace (zlen (content y) - k) with (vs_pos y - pos) in * by lia. fold at_ in Hat, Hr.
  assert (ED : ztake n (zdrop k (content y)) = ztake size (zdrop pos (ss_log z))).
  { rewrite EB in *. rewrite zlen_app in EP. rewrite zdrop_app_ge by lia. replace (pos - zlen before) with k by lia.
    subst n. destruct (Z.min_spec size (vs_pos y - pos)) as [[? ->]|[? ->]]; [done|]. rewrite !ztake_all; [done|rewrite zlen_zdrop; lia|rewrite zlen_zdrop; lia]. }
  assert (HL : zlen (ztake n (zdrop k (content y))) = n) by (rewrite zlen_ztake; [done|rewrite zlen_zdrop; lia]).
  assert (HBb := bo_bytes _ HB). assert (HR : forall i m d, mem_read (vs_buf y) i m = Some d -> is_bytes d /\ zlen d = m).
  { intros i m d. unfold mem_read. destruct (_ && _) eqn:EC; [|done]. intros [= <-]. split; [auto with bytes|]. rewrite zlen_ztake; [done|rewrite zlen_zdrop; lia]. }
  subst read1. destruct (Z.leb_spec (at_ + n) (vs_buf_len y)).
  - rewrite Z.sub_diag. eexists _, []. destruct (HR _ _ _ Hr). rewrite app_nil_r. split_and!; try done. rewrite mem_read_ok; [done|lia|lia|pose proof (bo_buf _ HB); lia].
  - destruct Hr as (d1 & d2 & E1 & E2 & E3). exists d1, d2. destruct (HR _ _ _ E1), (HR _ _ _ E2). split_and!; try done. congruence.
Qed.

(** The reply to a request [r] that has been taken from the list: it has what is
    next for the client, and leaves [l]. *)
Lemma does_reply late late' P w a x y z q r l (Q : unit -> World -> Trace -> Spec -> Prop) :
  Inv late P w -> sw_clients w !! a = Some x -> sw_streams w !! sc_stream x = Some y -> sp_streams P !! sc_stream x = Some z ->
  sp_readers P !! a = Some q -> readable y = true -> ask_ok r -> Forall ask_ok l ->
  sc_pos x < vs_pos y \/ vs_eos_inp y = true ->
  (forall b, b <> a -> b ∈ late -> b ∈ late') -> l = [] \/ a ∈ late' ->
  let d := ztake (rr_size r) (zdrop (sc_pos x) (ss_log z)) in
  let eos := ss_ended z && (sc_pos x + zlen d =? zlen (ss_log z)) in
  let P' := on_reader a (Build_SpecReader (sc_stream x) (sc_pos x + zlen d) l) P in
  (forall w', Inv late' P' w' -> links w' = links w -> sw_streams w' = sw_streams w ->
     sw_clients w' = <[a := set_sc_pos (sc_pos x + zlen d) (set_read_requests l x)]> (sw_clients w) ->
     Q tt w' [ESay (sc_channel x) (MRead a (rr_token r) d eos)] P') ->
  does (on_reader a (Build_SpecReader (sr_stream q) (sr_pos q) (r :: l)) P) (send_read_reply a (rr_token r) (rr_size r))
    (set_clients (<[a := set_read_requests l x]> (sw_clients w)) w) Q.
Proof.
  intros HI Hx Hy Hz Hq Hread [Htok Hsize] Hl Hbehind Hlate Hset d eos P' HQ.
  pose proof (inv_client _ _ _ _ _ HI Hx) as (y1 & z1 & q1 & HC & HS & Hz1 & HZ & Hq1 & HR). pose proof (cl_stream _ _ _ _ HC). simplify_eq.
  destruct (ro_pos _ _ _ _ HR Hread) as [EQp Hpos]. pose proof (so_pos _ _ HZ) as EP. pose proof (so_max _ _ HZ) as HM. pose proof (so_buf _ _ HZ) as HB.
  pose proof (content_max y HB). pose proof (bo_len _ HB).
  destruct (so_log _ _ HZ) as (before & EB & _). assert (0 <= sc_pos x) by (rewrite EP, EB, zlen_app in Hpos; pose proof (zlen_nonneg before); lia).
  assert (Ed : zlen d = Z.min (rr_size r) (vs_pos y - sc_pos x)).
  { subst d. rewrite EP in *. destruct (Z.min_spec (rr_size r) (zlen (ss_log z) - sc_pos x)) as [[? ->]|[? ->]].
    - rewrite zlen_ztake; [done|rewrite zlen_zdrop; lia].
    - rewrite ztake_all; rewrite zlen_zdrop; lia. }
  destruct (reply_data y z (rr_size r) (sc_pos x) HZ Hpos Hsize) as (d1 & d2 & M1 & M2 & L1 & L2 & B1 & B2 & ED). fold d in ED.
  rewrite <- Ed in *.
  unfold send_read_reply. eapply does_client; [apply lookup_insert_eq|]. cbn [set_read_requests sc_stream sc_pos sc_channel].
  eapply does_stream; [exact Hy|]. cbv zeta. rewrite used_len by done.
  apply does_assert; [destruct Hbehind as [|Hb]; [lia|rewrite Hb; by rewrite orb_true_r]|]. apply does_assert; [lia|].
  replace (zlen (content y) <? vs_pos y - sc_pos x) with false by lia. rewrite (wrapu_small 32) by lia.
  replace (if rr_size r <? vs_pos y - sc_pos x then rr_size r else vs_pos y - sc_pos x) with (zlen d) by (rewrite Ed; zcases; lia).
  eapply does_option; [exact M1|]. eapply does_option; [exact M2|].
  set (read1 := if _ <=? vs_buf_len y then zlen d else _) in *. rewrite (wrapu_small 64) by lia.
  replace (sc_pos x + 0 + read1 + (zlen d - read1)) with (sc_pos x + zlen d) by lia. replace (read1 + (zlen d - read1)) with (zlen d1 + zlen d2) by lia.
  set (x2 := set_sc_pos (sc_pos x + zlen d) (set_read_requests l x)).
  eapply does_change_client; [apply lookup_insert_eq|]. cbn [set_clients sw_clients]. rewrite insert_insert_eq. fold x2.
  assert (Eeos : (sc_pos x + zlen d =? vs_pos y) && vs_eos_inp y = eos) by (subst eos; rewrite EP, (so_ended _ _ HZ); apply andb_comm). rewrite Eeos.
  assert (Hgo : eos || (0 <? zlen d) = true).
  { rewrite <- Eeos. destruct Hbehind as [Hb|Hb]; [lia|]. rewrite Hb, andb_true_r. lia. }
  apply does_assert; [lia|]. apply does_assert; [rewrite <- Hgo; f_equal; lia|].
  destruct (inv_set_client late late' P w a x x2 y (Build_SpecReader (sc_stream x) (sc_pos x + zlen d) l) HI Hx Hy eq_refl) as [HI2 EL2]; [|done|].
  { constructor; cbn; try done; [apply HR|congruence| |]; intros _; [split; [done|lia]|]. destruct Hset; auto. }
  destruct (cl_channel _ _ _ _ HC) as [ch Hch].
  eapply (does_say _ P' (sc_channel x) ch _ (MRead a (rr_token r) d eos)); [apply HI2|exact Hch| | |].
  - intros e He _ Hw. cbn [msg_text]. rewrite <- ED. apply tells_read; try done.
    rewrite ED. fold d. lia.
  - cbn [spec_step on_reader sp_readers sp_streams]. rewrite lookup_insert_eq. cbn [mbind option_bind sr_stream sr_asks sr_pos]. rewrite (ro_stream _ _ _ _ HR), Hz.
    cbn [mbind option_bind]. rewrite EQp. rewrite !bool_decide_eq_true_2 by done. fold eos. rewrite eqb_reflx, Hgo. cbn. unfold on_reader. cbn. by rewrite insert_insert_eq.
  - intros e ch' Hends. destruct (inv_say _ _ _ _ _ _ _ HI2 Hch Hends) as [HI3 EL3]. apply HQ; [done|etrans; [exact EL3|exact EL2]|done|done].
Qed.

(** ** Clients that wait *)

Definition is_message (e : Ev) : Prop := match e with ESay _ _ => True | _ => False end.

Lemma inv_settle a late P w x y : Inv (a :: late) P w -> sw_clients w !! a = Some x -> sw_streams w !! sc_stream x = Some y ->
  sc_read_requests x = [] \/ (sc_pos x = vs_pos y /\ vs_eos_inp y = false) -> Inv late P w.
Proof.
  intros HI Hx Hy HS. destruct HI as [H1' H2' H3' H4' H5' H6']. constructor; try done. intros b xb yb Hxb Hyb.
  destruct (H5' b xb yb Hxb Hyb) as (r & Hr & HR). exists r. split; [done|]. constructor; try apply HR. intros Hread.
  destruct (decide (b = a)) as [->|Hn]; [simplify_eq; destruct HS; auto|].
  destruct (ro_settled _ _ _ _ HR Hread) as [|[[|]%elem_of_cons|]]; auto; done.
Qed.

Lemma does_answer_requests a s l : forall late P w x y (Q : unit -> World -> Trace -> Spec -> Prop),
  Inv (a :: late) P w -> sw_clients w !! a = Some x -> sc_stream x = s -> sw_streams w !! s = Some y -> readable y = true -> sc_read_requests x = l ->
  (forall w' t P', Inv late P' w' -> links w' = links w -> sw_streams w' = sw_streams w -> Forall is_message t -> Q tt w' t P') ->
  does P (answer_requests a s l) w Q.
Proof.
  induction l as [|r l IH]; intros late P w x y Q HI Hx Hs Hy Hread Hl HQ; cbn [answer_requests].
  - apply does_ret, HQ; [|done..]. eapply inv_settle; [exact HI|exact Hx|by rewrite Hs|by left].
  - eapply does_client; [exact Hx|]. eapply does_stream; [exact Hy|]. destruct (_ || _) eqn:EC.
    + pose proof (inv_client _ _ _ _ _ HI Hx) as (y1 & z & q & HC & HS & Hz & HZ & Hq & HR). pose proof (cl_stream _ _ _ _ HC) as Hy'. rewrite Hs, Hy in Hy'. simplify_eq.
      destruct (ro_asks _ _ _ _ HR Hread) as [EA HA]. rewrite Hl in *. apply Forall_cons in HA as [HA1 HA2].
      eapply does_change_client; [exact Hx|]. rewrite Hl. cbn [tail]. apply does_bind.
      rewrite <- (on_reader_same P a _ Hq) at 1. replace q with (Build_SpecReader (sr_stream q) (sr_pos q) (r :: l)) at 1 by (destruct q; cbn in *; congruence).
      eapply (does_reply (a :: late) (a :: late)); try done; [apply orb_prop in EC as [?%Z.ltb_lt|]; auto|right; set_solver|].
      intros w' HI' EL ES ECl. eapply (IH late _ w' (set_sc_pos _ (set_read_requests l x)) y1); [exact HI'| |done| |done|done|].
      * rewrite ECl. apply lookup_insert_eq.
      * by rewrite ES.
      * intros w2 t P2 HI2 EL2 ES2 Ht. apply HQ; [done|congruence|congruence|by constructor].
    + apply does_ret, HQ; [|done..]. eapply inv_settle; [exact HI|exact Hx|by rewrite Hs|].
      pose proof (inv_client _ _ _ _ _ HI Hx) as (y1 & z & q & HC & HS & Hz & HZ & Hq & HR). pose proof (cl_stream _ _ _ _ HC) as Hy'. rewrite Hs, Hy in Hy'. simplify_eq.
      destruct (ro_pos _ _ _ _ HR Hread). apply orb_false_iff in EC as [EC1 EC2]. right. split; [lia|done].
Qed.

Lemma does_answer_clients s l : forall P w y (Q : unit -> World -> Trace -> Spec -> Prop),
  Inv l P w -> NoDup l -> sw_streams w !! s = Some y -> readable y = true -> (forall a, a ∈ l -> a ∈ vs_clients y) ->
  (forall w' t P', Inv [] P' w' -> links w' = links w -> sw_streams w' = sw_streams w -> Forall is_message t -> Q tt w' t P') ->
  does P (answer_clients s l) w Q.
Proof.
  induction l as [|a l IH]; intros P w y Q HI Hnd Hy Hread Hl HQ; cbn [answer_clients]; [by apply does_ret, HQ|].
  apply NoDup_cons in Hnd as [Hna Hnd]. pose proof (inv_stream _ _ _ _ _ HI Hy) as (z & HS & _).
  destruct (sl_clients _ _ _ HS a) as (x & Hx & Hs); [apply Hl; set_solver|].
  eapply does_client; [exact Hx|]. apply does_bind. eapply does_answer_requests; try done.
  intros w1 t1 P1 HI1 EL1 ES1 Ht1. eapply IH; [done|done|by rewrite ES1|done|set_solver|].
  intros w2 t2 P2 HI2 EL2 ES2 Ht2. apply HQ; [done|congruence|congruence|by apply Forall_app].
Qed.

(** ** Adding data *)

(** What a call adds: [n] bytes, or nothing after the end. *)
Definition add_result (from : option Z) (s : Z) (y : VirtualStream) (buf : bytes) (eos : bool) (r : Z * Z) (t : Trace) : Prop :=
  exists msgs, Forall is_message msgs /\
  if vs_eos_inp y then r = (ERR_EOF, 0) /\ t = msgs
  else let n := Z.min (zlen buf) (buf_room y) in
    r = (0, n) /\ t = EAdd from s (ztake n buf) (eos && (zlen buf =? n)) :: msgs.

Lemma inv_add P w s y z d eos m : Inv [] P w -> sw_streams w !! s = Some y -> sp_streams P !! s = Some z -> vs_eos_inp y = false ->
  is_bytes d -> zlen d <= buf_room y -> vs_pos y + zlen d < 2 ^ 62 -> buf_store y d = Some m ->
  let y' := set_vs_input m (u64 (vs_buf_inp y + zlen d) mod vs_buf_len y) (u64 (vs_pos y + zlen d)) eos y in
  let late := if readable y && (eos || (0 <? zlen d)) then vs_clients y else [] in
  let P' := on_stream s (Build_SpecStream (ss_log z ++ d) eos (ss_taken z)) P in
  let w' := set_streams (<[s := y']> (sw_streams w)) w in
  Inv late P' w' /\ links w' = links w /\ content y' = content y ++ d /\ vs_pos y' = vs_pos y + zlen d.
Proof.
  intros HI Hy Hz Heos Hd Hlen Hmax HM y' late P' w'. pose proof (inv_stream _ _ _ _ _ HI Hy) as (z1 & HS & Hz1 & HZ). simplify_eq.
  pose proof (so_buf _ _ HZ) as HB. destruct (so_log _ _ HZ) as (before & EB & ET). pose proof (so_pos _ _ HZ) as EP. pose proof (zlen_nonneg d).
  destruct (buf_store_ok y d HB Hd Hlen) as (m' & EM & HY). rewrite HM in EM. injection EM as <-. destruct (HY (u64 (vs_pos y + zlen d)) eos) as [HB' HC']. fold y' in HB', HC'.
  assert (Epos : vs_pos y' = vs_pos y + zlen d) by (cbn; apply wrapu_small; pose proof (zlen_nonneg (ss_log z)); lia).
  apply and_assoc. split; [|done].
  apply (inv_set_stream [] late P w s y y'); [done|done|done|done|done| | |by intros a ?%not_elem_of_nil].
  - constructor; [done|rewrite Epos, EP; cbn; by rewrite zlen_app|lia|done|]. exists before. cbn [ss_log ss_taken]. rewrite HC', EB, app_assoc. done.
  - intros a x r Hx Hs Hr HR. constructor; try apply HR.
    + intros Hread. destruct (ro_pos _ _ _ _ HR Hread) as [? ?]. rewrite Epos, HC', zlen_app. split; [done|lia].
    + intros Hread. change (readable y') with (readable y) in Hread. subst late. rewrite Hread. cbn [andb]. destruct (eos || (0 <? zlen d)) eqn:EL.
      * right. left. destruct (inv_client _ _ _ _ _ HI Hx) as (y1 & _ & _ & HC & _). pose proof (cl_stream _ _ _ _ HC). rewrite Hs in *. simplify_eq. apply HC.
      * apply orb_false_iff in EL as [-> EL]. destruct (ro_settled _ _ _ _ HR Hread) as [|[?%not_elem_of_nil|[]]]; [by left|done|]. right. right. rewrite Epos. split; [lia|done].
Qed.

(** What the owner sees of a stream that no client reads. *)
Definition added_unread (y y' : VirtualStream) (d : bytes) : Prop :=
  content y' = content y ++ d /\ vs_pos y' = vs_pos y + zlen d /\ stream_links y' = stream_links y /\
  (vs_eos_inp y = true -> vs_eos_inp y' = true).

(** The rest of the call, with what has been added. *)
Lemma does_wake P w s y (err size : Z) (Q : Z * Z -> World -> Trace -> Spec -> Prop) :
  sw_streams w !! s = Some y -> vs_ref_cnt y <> 0 ->
  Inv (if readable y && ((err =? 0) && (vs_eos_inp y || (0 <? size))) then vs_clients y else []) P w ->
  (forall w' t P', Inv [] P' w' -> links w' = links w -> Forall is_message t ->
     (readable y = false -> sw_clients w' = sw_clients w /\ exists b, sw_streams w' = <[s := set_data_posted b y]> (sw_streams w)) -> Q (err, size) w' t P') ->
  does P (x ← get_stream s;
    (if has_access x VS_ENABLE_REMOTE_READ then
       if (err =? 0) && (vs_eos_inp x || (0 <? size)) then answer_clients s (vs_clients x) ;; advance_stream_buffer s else mret tt
     else if vs_data_available_posted x then mret tt
     else post_event notify_data_event s ;; change_stream s (set_data_posted true)) ;;
    mret (err, size)) w Q.
Proof.
  intros Hy Hr HI HQ. eapply does_stream; [exact Hy|]. apply does_bind. pose proof (inv_stream _ _ _ _ _ HI Hy) as (z & HS & Hz & HZ).
  destruct (has_access y VS_ENABLE_REMOTE_READ) eqn:Hread; cbn [andb] in HI.
  - destruct (_ && _); [|by apply does_ret, does_ret, HQ].
    apply does_bind. eapply does_answer_clients; [exact HI|apply HS|exact Hy|done|done|].
    intros w1 t1 P1 HI1 EL1 ES1 Ht1. eapply does_advance; [exact HI1|by rewrite ES1|done|done|].
    intros w2 HI2 EL2 EC2. apply does_ret. rewrite !app_nil_r. apply HQ; [done|congruence|done|done].
  - apply (does_post [] P s y w notify_data_event); [done..|]. intros w2 b HI2 EL2 EC2 ES2. apply does_ret. apply HQ; [done..|].
    intros _. split; [done|]. by exists b.
Qed.

Lemma does_add_data from P w s y buf eos (Q : Z * Z -> World -> Trace -> Spec -> Prop) :
  Inv [] P w -> sw_streams w !! s = Some y -> vs_ref_cnt y <> 0 -> is_bytes buf -> vs_pos y + zlen buf < 2 ^ 62 ->
  (forall r w' t P', Inv [] P' w' -> links w' = links w -> add_result from s y buf eos r t ->
     (readable y = false -> sw_clients w' = sw_clients w /\ exists y', sw_streams w' !! s = Some y' /\ added_unread y y' (ztake (snd r) buf)) -> Q r w' t P') ->
  does P (virtual_stream_add_data s buf eos) w Q.
Proof.
  intros HI Hy Hr Hbuf Hmax HQ. pose proof (inv_stream _ _ _ _ _ HI Hy) as (z & HS & Hz & HZ). pose proof (so_buf _ _ HZ) as HB.
  destruct (room_len y HB) as [_ HR]. pose proof (zlen_nonneg buf). unfold virtual_stream_add_data. eapply does_stream; [exact Hy|].
  unfold add_result in HQ. destruct (vs_eos_inp y) eqn:Heos.
  - apply does_bind, does_ret. apply (does_wake P w s y ERR_EOF 0); [done..| |].
    + change (ERR_EOF =? 0) with false. by rewrite andb_false_r.
    + intros w' t P' HI' EL Ht Hun. apply HQ; [done..|by exists t|].
      intros Hread. destruct (Hun Hread) as (EC2 & b & ES2). split; [done|]. exists (set_data_posted b y).
      split; [rewrite ES2; by rewrite lookup_insert_eq|]. unfold added_unread. cbn [snd].
      change (ztake 0 buf) with (@nil Z). rewrite app_nil_r, zlen_nil, Z.add_0_r. done.
  - change (0 =? 0) with true. cbn iota. set (n := if zlen buf <? buf_room y then zlen buf else buf_room y).
    assert (En : n = Z.min (zlen buf) (buf_room y)) by (subst n; zcases; lia).
    assert (Hn : zlen (ztake n buf) = n) by (apply zlen_ztake; lia).
    destruct (buf_store_ok y (ztake n buf) HB) as (m & EM & _); [auto with bytes|lia|].
    destruct (inv_add P w s y z (ztake n buf) (eos && (zlen buf =? n)) m HI Hy Hz Heos) as (HI1 & EL1 & EC1 & EP1); [auto with bytes|lia|lia|done|].
    rewrite Hn in *. set (y' := set_vs_input _ _ _ _ _) in *. set (P' := on_stream _ _ _) in *. set (w' := set_streams _ _) in *.
    apply does_event with (e := EAdd from s (ztake n buf) (eos && (zlen buf =? n))) (P1 := P'); [done| |].
    { cbn [spec_step]. rewrite Hz. cbn [mbind option_bind]. by rewrite <- (so_ended _ _ HZ), Heos. }
    apply does_bind. apply does_assert; [lia|]. eapply does_option; [exact EM|].
    eapply does_then; [reflexivity|done|]. apply does_ret. apply (does_wake P' w' s y' 0 n).
    + cbn. by rewrite lookup_insert_eq.
    + done.
    + done.
    + intros w2 t2 P2 HI2 EL2 Ht2 Hun. apply HQ; [done|congruence|by exists t2; rewrite <- En|].
      intros Hread. destruct (Hun Hread) as (EC2 & b & ES2). split; [by rewrite EC2|]. exists (set_data_posted b y').
      split; [rewrite ES2; by rewrite lookup_insert_eq|]. split; [exact EC1|]. split; [cbn [snd]; by rewrite Hn|]. split; [done|]. by rewrite Heos.
Qed.
End readers.

(** ** Streams service: clients and streams come and go

    What refers to what stays in order when a client is created or deleted and when
    a stream is created, deleted by its owner, and freed by its last event. *)

Lemma elem_of_list_remove (a b : Z) l : b ∈ list_remove a l <-> b <> a /\ b ∈ l.
Proof. unfold list_remove. rewrite list_elem_of_filter. done. Qed.

Lemma nodup_list_remove a l : NoDup l -> NoDup (list_remove a l).
Proof. apply NoDup_filter. Qed.

Lemma zlen_list_remove (a : Z) l : NoDup l -> a ∈ l -> zlen (list_remove a l) = zlen l - 1.
Proof.
  intros Hn Ha. induction l as [|b l IH]; [by apply not_elem_of_nil in Ha|]. apply NoDup_cons in Hn as [Hb Hn].
  unfold list_remove in *. rewrite filter_cons, zlen_cons. destruct (decide (b <> a)) as [Hne|He].
  - rewrite zlen_cons, IH; [lia|done|]. by apply elem_of_cons in Ha as [->|].
  - assert (b = a) as -> by (destruct (decide (b = a)); [done|by destruct He]).
    assert (filter (fun c => c <> a) l = l) as ->; [|lia]. clear IH Ha He. induction l as [|c l IHl]; [done|]. apply NoDup_cons in Hn as [_ Hn].
    rewrite filter_cons. destruct (decide (c <> a)); [rewrite IHl; set_solver|set_solver].
Qed.

Lemma znth_insert {A} (l : list A) i j x : 0 <= i < zlen l -> 0 <= j -> znth (<[Z.to_nat i := x]> l) j = if i =? j then Some x else znth l j.
Proof.
  unfold znth, zlen. intros Hi Hj. replace (0 <=? j) with true by lia. zcases.
  - subst. by rewrite list_lookup_insert_eq by lia.
  - by rewrite list_lookup_insert_ne by lia.
Qed.

Lemma client_hash_range id c : 0 <= get_client_hash id c < HANDLE_HASH_SIZE.
Proof. apply Z.mod_pos_bound. done. Qed.

Section links.
Context {E Ch : Type}.
Abbreviation World := (StreamWorld E Ch).
Implicit Types w : World.

Definition add_client (a s channel pos : Z) (y : VirtualStream) w : World :=
  let h := get_client_hash (vs_id y) channel in
  Build_StreamWorld (<[s := set_ref_cnt (vs_ref_cnt y + 1) (set_vs_clients (a :: vs_clients y) y)]> (sw_streams w))
    (<[a := Build_StreamClient [] [] s channel pos]> (sw_clients w)) (sw_all_streams w) (a :: sw_all_clients w)
    (<[Z.to_nat h := a :: default [] (znth (sw_hash w) h)]> (sw_hash w)) (sw_subscriptions w) (sw_id_cnt w) (sw_brk w + 1) (sw_posted w) (sw_channels w) (sw_errors w).

Lemma linked_add s channel pos y w : linked w -> sw_streams w !! s = Some y -> is_Some (sw_channels w !! channel) ->
  linked (add_client (sw_brk w) s channel pos y w).
Proof.
  intros HL Hy Hch. pose proof (lk_stream _ HL _ _ Hy) as HS. set (a := sw_brk w). pose proof (lk_hash _ HL) as [HH1 HH2].
  assert (Hh := client_hash_range (vs_id y) channel). destruct (sw_clients w !! a) as [xa|] eqn:Ha.
  { destruct (lk_client _ HL _ _ Ha) as (ya & []). subst a. lia. }
  assert (Hna : forall s' y', sw_streams w !! s' = Some y' -> a ∉ vs_clients y').
  { intros s' y' Hy' Hin. destruct (sl_clients _ _ _ (lk_stream _ HL _ _ Hy') a Hin) as (x & Hx & _). congruence. }
  assert (Hl : exists l, znth (sw_hash w) (get_client_hash (vs_id y) channel) = Some l).
  { unfold znth. replace (0 <=? _) with true by lia. apply lookup_lt_is_Some. unfold zlen in HH1. lia. }
  destruct Hl as [l Hl]. constructor; cbn.
  - intros b xb. destruct (decide (a = b)) as [<-|Hn].
    + rewrite lookup_insert_eq. intros [= <-]. eexists. constructor; cbn; [by rewrite lookup_insert_eq|set_solver|done|set_solver|lia|].
      exists (a :: l). rewrite Hl. cbn. rewrite znth_insert by lia. rewrite Z.eqb_refl. split; [done|set_solver].
    + rewrite lookup_insert_ne by done. intros Hx. destruct (lk_client _ HL _ _ Hx) as (yb & [C1 C2 C3 C4 C5 (lb & C6 & C7)]).
      assert (HB : exists lb', znth (<[Z.to_nat (get_client_hash (vs_id y) channel) := a :: default [] (znth (sw_hash w) (get_client_hash (vs_id y) channel))]> (sw_hash w))
        (get_client_hash (vs_id yb) (sc_channel xb)) = Some lb' /\ b ∈ lb').
      { rewrite znth_insert by (pose proof (client_hash_range (vs_id yb) (sc_channel xb)); lia).
        destruct (Z.eqb_spec (get_client_hash (vs_id y) channel) (get_client_hash (vs_id yb) (sc_channel xb))) as [Eh|]; [|by exists lb].
        eexists. split; [done|]. rewrite Eh, C6. cbn. set_solver. }
      destruct (decide (s = sc_stream xb)) as [->|Hs].
      * simplify_eq. eexists. constructor; cbn; [by rewrite lookup_insert_eq|set_solver|done|set_solver|lia|done].
      * exists yb. constructor; cbn; [by rewrite lookup_insert_ne|done|done|set_solver|lia|done].
  - intros s' y'. destruct (decide (s = s')) as [<-|Hn].
    + rewrite lookup_insert_eq. intros [= <-]. destruct HS. constructor; cbn; [apply NoDup_cons; split; [by eapply Hna|done]| |rewrite zlen_cons; lia|lia|done|done].
      intros b [->|Hb]%elem_of_cons; [rewrite lookup_insert_eq; by eexists|]. destruct (sl_clients b Hb) as (x & Hx & Hs). exists x.
      rewrite lookup_insert_ne; [done|]. intros <-. congruence.
    + rewrite lookup_insert_ne by done. intros Hy'. destruct (lk_stream _ HL _ _ Hy'). constructor; cbn; [done| |done|lia|done|done].
      intros b Hb. destruct (sl_clients b Hb) as (x & Hx & Hs). exists x. rewrite lookup_insert_ne; [done|]. intros <-. congruence.
  - destruct (lk_all _ HL) as [A1 A2]. split; [apply NoDup_cons; split; [|done]; intros [? ?]%A2; congruence|].
    intros b [->|Hb]%elem_of_cons; [by rewrite lookup_insert_eq|]. destruct (A2 b Hb) as [x Hx]. apply lookup_insert_is_Some. destruct (decide (a = b)); auto.
  - intros s' Hs'. apply lookup_insert_is_Some. destruct (decide (s = s')); [by left|right]. split; [done|]. by apply (lk_streams _ HL).
  - split; [unfold zlen; rewrite length_insert; apply HH1|]. intros l' b [i Hi]%list_elem_of_lookup Hb. apply lookup_insert_is_Some.
    destruct (decide (a = b)) as [|Hn]; [by left|right]. split; [done|]. apply list_lookup_insert_Some in Hi as [(_ & <- & _)|[_ Hi]].
    + rewrite Hl in Hb. cbn in Hb. apply elem_of_cons in Hb as [->|Hb]; [done|]. eapply HH2; [|exact Hb]. unfold znth in Hl. destruct (0 <=? _); [|done]. by eapply list_elem_of_lookup_2.
    + eapply HH2; [|exact Hb]. by eapply list_elem_of_lookup_2.
  - apply (lk_subs _ HL).
  - apply (lk_id _ HL).
Qed.

Definition left_stream (a : Z) (y : VirtualStream) : VirtualStream := set_ref_cnt (vs_ref_cnt y - 1) (set_vs_clients (list_remove a (vs_clients y)) y).

Definition remove_client (a s : Z) (y : VirtualStream) (posted : list (StreamEvent * Z)) w : World :=
  Build_StreamWorld (<[s := left_stream a y]> (sw_streams w)) (delete a (sw_clients w)) (sw_all_streams w) (list_remove a (sw_all_clients w))
    (list_remove a <$> sw_hash w) (sw_subscriptions w) (sw_id_cnt w) (sw_brk w) posted (sw_channels w) (sw_errors w).

Lemma linked_remove a x y posted w : linked w -> sw_clients w !! a = Some x -> sw_streams w !! sc_stream x = Some y ->
  linked (remove_client a (sc_stream x) y posted w).
Proof.
  intros HL Hx Hy. destruct (lk_client _ HL _ _ Hx) as (y1 & HC). pose proof (cl_stream _ _ _ _ HC). simplify_eq.
  pose proof (lk_stream _ HL _ _ Hy) as HS. constructor; cbn.
  - intros b xb [Hn Hxb]%lookup_delete_Some. destruct (lk_client _ HL _ _ Hxb) as (yb & [C1 C2 C3 C4 C5 (lb & C6 & C7)]).
    assert (HB : exists l', znth (list_remove a <$> sw_hash w) (get_client_hash (vs_id yb) (sc_channel xb)) = Some l' /\ b ∈ l').
    { exists (list_remove a lb). split; [|by apply elem_of_list_remove]. revert C6. unfold znth. destruct (0 <=? _); [|done]. by rewrite list_lookup_fmap; intros ->. }
    assert (b ∈ list_remove a (sw_all_clients w)) by by apply elem_of_list_remove.
    destruct (decide (sc_stream x = sc_stream xb)) as [Es|Hs].
    + rewrite Es in *. simplify_eq. eexists. constructor; cbn; [by rewrite lookup_insert_eq|by apply elem_of_list_remove|done..].
    + exists yb. constructor; cbn; [by rewrite lookup_insert_ne|done..].
  - intros s' y'. destruct (decide (sc_stream x = s')) as [<-|Hn].
    + rewrite lookup_insert_eq. intros [= <-]. destruct HS as [S1 S2 S3 S4 S5 S6].
      constructor; cbn; [by apply nodup_list_remove| |rewrite zlen_list_remove; [lia|done|apply HC]|done..].
      intros b [Hb1 Hb2]%elem_of_list_remove. destruct (S2 b Hb2) as (xb & Hxb & Hs). exists xb. by rewrite lookup_delete_ne.
    + rewrite lookup_insert_ne by done. intros Hy'. destruct (lk_stream _ HL _ _ Hy') as [S1 S2 S3 S4 S5 S6]. constructor; cbn; [done| |done..].
      intros b Hb. destruct (S2 b Hb) as (xb & Hxb & Hs). exists xb. rewrite lookup_delete_ne; [done|]. intros <-. congruence.
  - destruct (lk_all _ HL) as [A1 A2]. split; [by apply nodup_list_remove|]. intros b [Hb1 Hb2]%elem_of_list_remove. rewrite lookup_delete_ne by done. by apply A2.
  - intros s' Hs'. apply lookup_insert_is_Some. destruct (decide (sc_stream x = s')); [by left|right]. split; [done|]. by apply (lk_streams _ HL).
  - destruct (lk_hash _ HL) as [H1 H2]. split; [unfold zlen; by rewrite length_fmap|]. intros l b (l0 & -> & Hl)%list_elem_of_fmap [Hb1 Hb2]%elem_of_list_remove.
    rewrite lookup_delete_ne by done. by eapply H2.
  - apply (lk_subs _ HL).
  - apply (lk_id _ HL).
Qed.

(** A stream that has no clients any more. *)
Lemma linked_free s y w : linked w -> sw_streams w !! s = Some y -> vs_clients y = [] ->
  linked (set_streams (delete s (sw_streams w)) (set_all_streams (list_remove s (sw_all_streams w)) w)).
Proof.
  intros HL Hy Hn. destruct HL as [L1 L2 L3 L4 L5 L6 L7]. constructor; cbn; try done.
  - intros a x Hx. destruct (L1 a x Hx) as (y1 & []). exists y1. constructor; cbn; try done. rewrite lookup_delete_ne; [done|].
    intros ->. simplify_eq. rewrite Hn in *. by apply not_elem_of_nil in cl_of.
  - intros s' y' [_ Hy']%lookup_delete_Some. destruct (L2 s' y' Hy'). by constructor.
  - intros s' [Hs1 Hs2]%elem_of_list_remove. rewrite lookup_delete_ne by done. auto.
Qed.

(** The owner gives up its reference. *)
Lemma linked_owner s y posted w : linked w -> sw_streams w !! s = Some y -> vs_deleted y = false ->
  linked (set_posted posted (set_streams (<[s := set_ref_cnt (vs_ref_cnt y - 1) (set_deleted true y)]> (sw_streams w)) w)).
Proof.
  intros HL Hy Hd. destruct HL as [L1 L2 L3 L4 L5 L6 L7]. constructor; cbn; try done.
  - intros a x Hx. destruct (L1 a x Hx) as (y1 & []). destruct (decide (s = sc_stream x)) as [->|Hn].
    + simplify_eq. eexists. constructor; cbn; [by rewrite lookup_insert_eq|done..].
    + exists y1. constructor; cbn; [by rewrite lookup_insert_ne|done..].
  - intros s' y'. destruct (decide (s = s')) as [<-|Hn].
    + rewrite lookup_insert_eq. intros [= <-]. destruct (L2 s y Hy). constructor; cbn; try done. rewrite sl_ref, Hd. cbn. lia.
    + rewrite lookup_insert_ne by done. intros Hy'. destruct (L2 s' y' Hy'). by constructor.
  - intros s' Hs'. apply lookup_insert_is_Some. destruct (decide (s = s')); [by left|right]. auto.
Qed.

(** A new stream. *)
Lemma linked_open y w : linked w -> vs_clients y = [] -> vs_ref_cnt y = 1 -> vs_deleted y = false -> named (vs_type y) -> in_u 32 (vs_id y) ->
  let w1 := set_brk (sw_brk w + 1) w in
  linked (set_id_cnt (u32 (sw_id_cnt w + 1)) (set_streams (<[sw_brk w := y]> (sw_streams w1)) w1)).
Proof.
  intros HL Hc Hr Hd Ht Hi w1. destruct HL as [L1 L2 L3 L4 L5 L6 L7]. constructor; cbn; try done.
  - intros a x Hx. destruct (L1 a x Hx) as (y1 & []). exists y1. constructor; cbn; try done; [|lia]. rewrite lookup_insert_ne; [done|].
    intros E1. destruct (L2 _ _ cl_stream). lia.
  - intros s' y'. destruct (decide (sw_brk w = s')) as [<-|Hn].
    + rewrite lookup_insert_eq. intros [= <-]. constructor; cbn; rewrite ?Hc; [by constructor|by intros a ?%not_elem_of_nil|by rewrite Hr, Hd|lia|done|done].
    + rewrite lookup_insert_ne by done. intros Hy'. destruct (L2 s' y' Hy'). constructor; cbn; try done. lia.
  - intros s' Hs'. apply lookup_insert_is_Some. destruct (decide (sw_brk w = s')); [by left|right]. auto.
  - unfold in_u. apply wrapu_range. lia.
Qed.
End links.
