(* ===== verification/StreamsLife.v ===== *)
(** * Streams service: operations on clients and streams

    The operations that create and delete clients and streams, and the events of
    the service, keep the invariant and are events of the specification. *)

From stdpp Require Import gmap.
From S2P Require Import Prelude Ring Streams JsonWrite JsonBinary StreamsSvc StreamsSpec StreamsInv StreamsRead.

Section life.
Context {E Ch : Type} `{InputStream Ch} `{ErrnoSpec E Ch}.

Abbreviation World := (StreamWorld E Ch).
Implicit Types w : World.

(** What is posted stays in order when a stream that is not freed changes, flags apart. *)
Lemma posted_ok_stream w w' s y y' : posted_ok w -> sw_posted w' = sw_posted w -> sw_streams w !! s = Some y ->
  sw_streams w' = <[s := y']> (sw_streams w) -> (forall h, posted_flag h y' = posted_flag h y) -> posted_ok w'.
Proof.
  intros [P1 P2 P3] EP Hy ES HF. constructor; rewrite EP; [done| |done]. intros h s'. rewrite P2, ES. destruct (decide (s = s')) as [<-|Hn].
  - rewrite lookup_insert_eq, Hy. split; intros (y1 & [= <-] & HF1); eexists; (split; [done|]); [by rewrite HF|by rewrite <- HF].
  - by rewrite lookup_insert_ne.
Qed.

(** ** A client joins a stream *)

Lemma create_client_ok w s y channel : linked w -> sw_streams w !! s = Some y -> create_client s channel w =
  (Ok (sw_brk w), add_client (sw_brk w) s channel (u64 (vs_pos y - buf_used y)) y w).
Proof.
  intros HL Hy. unfold create_client, get_stream. rewrite bind_assoc, (bind_ok get _ _ _ _ eq_refl), Hy. cbn [of_option]. rewrite ret_bind.
  pose proof (client_hash_range (vs_id y) channel). destruct (lk_hash _ HL) as [HH _].
  assert (exists l, znth (sw_hash w) (get_client_hash (vs_id y) channel) = Some l) as [l Hl].
  { unfold znth. replace (0 <=? _) with true by lia. apply lookup_lt_is_Some. unfold zlen in HH. lia. }
  unfold add_client. rewrite Hl. rewrite (bind_ok alloc_address _ _ _ _ eq_refl), (bind_ok (put_client _ _) _ _ _ _ eq_refl). cbv zeta.
  rewrite (bind_ok get _ _ _ _ eq_refl). cbn [sw_hash set_brk set_clients]. by rewrite Hl.
Qed.

Lemma inv_join P w s y z channel : Inv [] P w -> sw_streams w !! s = Some y -> vs_ref_cnt y <> 0 -> is_Some (sw_channels w !! channel) ->
  sp_streams P !! s = Some z -> let pos := vs_pos y - zlen (content y) in
  spec_step P (EJoin (sw_brk w) s pos) = Some (on_reader (sw_brk w) (Build_SpecReader s pos []) P) /\
  u64 (vs_pos y - buf_used y) = pos /\
  Inv [] (on_reader (sw_brk w) (Build_SpecReader s pos []) P) (add_client (sw_brk w) s channel pos y w).
Proof.
  intros HI Hy Hr Hch Hz pos. pose proof (inv_stream _ _ _ _ _ HI Hy) as (z1 & HS & Hz1 & HZ). simplify_eq.
  pose proof (so_pos _ _ HZ) as EP. pose proof (so_max _ _ HZ) as HM. pose proof (so_buf _ _ HZ) as HB. destruct (so_log _ _ HZ) as (before & EB & _).
  pose proof (zlen_nonneg (content y)). assert (0 <= pos) by (subst pos; rewrite EP, EB, zlen_app; pose proof (zlen_nonneg before); lia).
  destruct (sp_readers P !! sw_brk w) as [q|] eqn:Hq; [pose proof (proj2 (iv_fresh _ _ _ HI) (sw_brk w)) as HF; rewrite Hq in HF; exfalso; by apply (Z.lt_irrefl (sw_brk w)), HF; left|].
  split; [|split].
  - cbn [spec_step]. rewrite Hz. cbn [mbind option_bind]. rewrite Hq.
    rewrite bool_decide_eq_true_2 by (intros Hl; by apply (Z.lt_irrefl (sw_brk w)), (proj2 (iv_fresh _ _ _ HI)); right).
    replace (true && (0 <=? pos) && (pos <=? zlen (ss_log z))) with true by lia. done.
  - rewrite used_len by done. apply wrapu_small. lia.
  - pose proof (sl_ref _ _ _ HS) as HR. pose proof (zlen_nonneg (vs_clients y)). pose proof (b2z_range (negb (vs_deleted y))). constructor.
    + exact (iv_ends _ _ _ HI).
    + apply linked_add; [apply HI|done|done].
    + eapply (posted_ok_stream w _ s y _); [apply HI|done|exact Hy|reflexivity|]. intros []; cbn; [lia|done..].
    + cbn. intros s' y'. destruct (decide (s = s')) as [<-|Hn]; [|rewrite lookup_insert_ne by done; apply (iv_streams _ _ _ HI)].
      rewrite lookup_insert_eq. intros [= <-]. exists z. split; [done|]. by apply (stream_ok_same z y).
    + cbn. intros b xb yb. destruct (decide (sw_brk w = b)) as [<-|Hn].
      * rewrite !lookup_insert_eq. intros [= <-]. cbn. rewrite lookup_insert_eq. intros [= <-]. eexists. split; [done|]. constructor; cbn; auto.
        intros _. split; [done|]. change (content _) with (content y). lia.
      * rewrite !(lookup_insert_ne _ (sw_brk w)) by done. intros Hxb. destruct (decide (s = sc_stream xb)) as [Es|Hs].
        -- rewrite <- Es, lookup_insert_eq. intros [= <-]. destruct (iv_clients _ _ _ HI b xb y Hxb) as (r & Hrb & HRb); [by rewrite <- Es|].
           exists r. split; [done|]. by apply (reader_ok_same _ r xb y).
        -- rewrite lookup_insert_ne by done. apply (iv_clients _ _ _ HI b xb yb Hxb).
    + destruct (iv_fresh _ _ _ HI) as [F1 F2]. cbn. split; [intros s' Hs'%F1; lia|]. intros b. destruct (decide (sw_brk w = b)) as [<-|Hn]; [lia|].
      rewrite lookup_insert_ne by done. intros Hb%F2. lia.
Qed.

Lemma does_create_client P w s y channel (Q : Z -> World -> Trace -> Spec -> Prop) : Inv [] P w -> sw_streams w !! s = Some y -> vs_ref_cnt y <> 0 ->
  is_Some (sw_channels w !! channel) ->
  (forall P', let pos := vs_pos y - zlen (content y) in let a := sw_brk w in
     Inv [] P' (add_client a s channel pos y w) -> Q a (add_client a s channel pos y w) [EJoin a s pos] P') ->
  does P (create_client s channel) w Q.
Proof.
  intros HI Hy Hr Hch HQ. destruct (iv_streams _ _ _ HI _ _ Hy) as (z & Hz & _).
  destruct (inv_join P w s y z channel HI Hy Hr Hch Hz) as (HS & Eu & HI').
  eapply does_event; [|exact HS|]; [done|]. eapply does_step; [rewrite (create_client_ok w s y channel); [reflexivity|apply HI|done]|done|].
  rewrite Eu. by apply HQ.
Qed.

(** ** A client leaves a stream *)

(** Only channels and the client [a] are different. *)
Definition said (a : Z) w w' : Prop := exists chs e cl, w' = set_errors e (set_channels chs (set_clients cl w)) /\ ends w' /\
  dom chs = dom (sw_channels w) /\ delete a cl = delete a (sw_clients w) /\
  forall x, sw_clients w !! a = Some x -> exists x', cl !! a = Some x' /\ client_links x' = client_links x.

Lemma said_trans a w1 w2 w3 : said a w1 w2 -> said a w2 w3 -> said a w1 w3.
Proof.
  intros (c1 & e1 & cl1 & -> & _ & D1 & E1 & X1) (c2 & e2 & cl2 & -> & He & D2 & E2 & X2). exists c2, e2, cl2. cbn in *.
  split_and!; [done|done|congruence|congruence|]. intros x Hx. destruct (X1 x Hx) as (x1 & Hx1 & EL1). destruct (X2 x1 Hx1) as (x2 & Hx2 & EL2).
  exists x2. split; [done|congruence].
Qed.

Lemma said_client a w w' x : said a w w' -> sw_clients w !! a = Some x -> is_Some (sw_channels w !! sc_channel x) ->
  exists x', sw_clients w' !! a = Some x' /\ client_links x' = client_links x /\ is_Some (sw_channels w' !! sc_channel x').
Proof.
  intros (c1 & e1 & cl1 & -> & He & D1 & E1 & X1) Hx Hc. destruct (X1 x Hx) as (x' & Hx' & EL). exists x'. split; [done|]. split; [done|]. cbn.
  apply elem_of_dom. rewrite D1. apply elem_of_dom. assert (sc_channel x' = sc_channel x) as -> by by injection EL. done.
Qed.

(** A message, and then the first request goes. *)
Lemma does_drop P w a x (f : StreamClient -> StreamClient) m (Q : unit -> World -> Trace -> Spec -> Prop) : ends w -> sw_clients w !! a = Some x ->
  is_Some (sw_channels w !! sc_channel x) -> (forall e ch, ei_ok e -> os_wf ch -> tells m e ch (fun _ => True)) -> (forall x, client_links (f x) = client_links x) ->
  (forall w' t, said a w w' -> Forall is_message t -> Q tt w' t P) ->
  does P (trapped (on_out (sc_channel x) m) ;; change_client a f) w Q.
Proof.
  intros He Hx [ch Hch] Hm Hf HQ. apply does_bind, does_trapped. eapply (does_say _ _ _ ch _ MOther); [done|done| |done|].
  - intros e Hok _ Hw. by apply Hm.
  - intros e ch' He'. apply does_last. eapply does_change_client; [exact Hx|]. apply does_ret. apply HQ; [|by repeat constructor].
    exists (<[sc_channel x := ch']> (sw_channels w)), e, (<[a := f x]> (sw_clients w)). split; [done|]. split; [done|]. split; [|split].
    + rewrite dom_insert_L. assert (sc_channel x ∈ dom (sw_channels w)) by (apply elem_of_dom; by eexists). set_solver.
    + by rewrite delete_insert_eq.
    + intros x1 Hx1. rewrite Hx in Hx1. injection Hx1 as <-. exists (f x). split; [by rewrite lookup_insert_eq|done].
Qed.

Lemma does_delete_reads l : forall P w a x (Q : unit -> World -> Trace -> Spec -> Prop), ends w -> sw_clients w !! a = Some x ->
  is_Some (sw_channels w !! sc_channel x) -> Forall (fun r => cstring (rr_token r)) l ->
  (forall w' t, said a w w' -> Forall is_message t -> Q tt w' t P) ->
  does P (delete_read_requests a l) w Q.
Proof.
  induction l as [|r l IH]; intros P w a x Q He Hx Hc Hl HQ; cbn [delete_read_requests].
  - apply does_ret, HQ; [|done]. exists (sw_channels w), (sw_errors w), (sw_clients w). split; [by destruct w|]. split_and!; [done..|]. eauto.
  - apply Forall_cons in Hl as [Hr Hl]. apply does_bind. unfold delete_read_request. eapply does_client; [exact Hx|].
    eapply does_drop; [done|done|done| |done|].
    + intros e ch Hok Hw. apply tells_read_error; [done|done|by apply ei_code|done].
    + intros w1 t1 HS1 Ht1. destruct (said_client _ _ _ _ HS1 Hx Hc) as (x1 & Hx1 & _ & Hc1).
      eapply IH; [by destruct HS1 as (? & ? & ? & -> & ? & _)|exact Hx1|done|done|]. intros w2 t2 HS2 Ht2. apply HQ; [by eapply said_trans|by apply Forall_app].
Qed.

Lemma does_delete_writes l : forall P w a x err (Q : unit -> World -> Trace -> Spec -> Prop), ends w -> sw_clients w !! a = Some x ->
  is_Some (sw_channels w !! sc_channel x) -> Forall (fun r => cstring (wr_token r)) l -> STD_ERR_BASE < err < STD_ERR_BASE + 100 ->
  (forall w' t, said a w w' -> Forall is_message t -> Q tt w' t P) ->
  does P (delete_write_requests a l err) w Q.
Proof.
  induction l as [|r l IH]; intros P w a x err Q He Hx Hc Hl Herr HQ; cbn [delete_write_requests].
  - apply does_ret, HQ; [|done]. exists (sw_channels w), (sw_errors w), (sw_clients w). split; [by destruct w|]. split_and!; [done..|]. eauto.
  - apply Forall_cons in Hl as [Hr Hl]. apply does_bind. unfold delete_write_request. eapply does_client; [exact Hx|].
    eapply does_drop; [done|done|done| |done|].
    + intros e ch Hok Hw. apply tells_reply; [done|done|by apply ei_code|done].
    + intros w1 t1 HS1 Ht1. destruct (said_client _ _ _ _ HS1 Hx Hc) as (x1 & Hx1 & _ & Hc1).
      eapply IH; [by destruct HS1 as (? & ? & ? & -> & ? & _)|exact Hx1|done|done|done|]. intros w2 t2 HS2 Ht2. apply HQ; [by eapply said_trans|by apply Forall_app].
Qed.

Definition spec_leave (a : Z) (P : Spec) : Spec := Build_Spec (sp_streams P) (delete a (sp_readers P)) ({[a]} ∪ sp_left P).

Lemma named_id y : in_u 32 (vs_id y) -> named (virtual_stream_get_id y).
Proof.
  unfold virtual_stream_get_id, in_u. intros Hi. destruct (dec_text_ok (vs_id y)) as (Hd & _ & _); [lia|]. split.
  - apply bytes_app; [apply str_bytes|]. by apply digits_bytes.
  - pose proof (dec_text_length (S (Z.to_nat (Z.log2 (vs_id y)))) (vs_id y)). rewrite zlen_app. change (zlen STREAM_BASE_ID) with 2. unfold zlen, dec_text.
    assert (Z.log2 (vs_id y) <= 31); [|lia]. destruct (decide (vs_id y = 0)) as [->|]; [done|]. assert (Z.log2 (vs_id y) < 32); [|lia]. apply Z.log2_lt_pow2; lia.
Qed.

Lemma inv_leave P w a x y posted : Inv [] P w -> sw_clients w !! a = Some x -> sw_streams w !! sc_stream x = Some y ->
  let w' := remove_client a (sc_stream x) y posted w in posted_ok w' -> Inv [] (spec_leave a P) w'.
Proof.
  intros HI Hx Hy w' HP. constructor.
  - exact (iv_ends _ _ _ HI).
  - by apply linked_remove; [apply HI| |].
  - done.
  - cbn. intros s' y'. destruct (decide (sc_stream x = s')) as [<-|Hn]; [|rewrite lookup_insert_ne by done; apply (iv_streams _ _ _ HI)].
    rewrite lookup_insert_eq. intros [= <-]. destruct (iv_streams _ _ _ HI _ _ Hy) as (z & Hz & HZ). exists z. split; [done|]. by apply (stream_ok_same z y).
  - cbn. intros b xb yb [Hn Hxb]%lookup_delete_Some. rewrite lookup_delete_ne by done. destruct (decide (sc_stream x = sc_stream xb)) as [Es|Hs].
    + rewrite Es, lookup_insert_eq. intros [= <-]. rewrite Es in Hy. destruct (iv_clients _ _ _ HI b xb y Hxb Hy) as (r & Hr & HR). exists r. split; [done|].
      by apply (reader_ok_same _ r xb y).
    + rewrite lookup_insert_ne by done. apply (iv_clients _ _ _ HI b xb yb Hxb).
  - destruct (iv_fresh _ _ _ HI) as [F1 F2]. split; [done|]. cbn. intros b [[r [_ Hr]%lookup_delete_Some]|[->%elem_of_singleton|Hb]%elem_of_union].
    + apply F2. left. by eexists.
    + destruct (iv_clients _ _ _ HI _ _ _ Hx Hy) as (r & Hr & _). apply F2. left. by eexists.
    + apply F2. by right.
Qed.

(** The last reference of a stream is gone: it is freed by an event. *)
Lemma does_last_reference w s y y' : posted_ok w -> sw_streams w !! s = Some y -> vs_ref_cnt y <> 0 -> vs_ref_cnt y' = 0 ->
  (forall h, h <> delete_stream_event -> posted_flag h y' = posted_flag h y) ->
  posted_ok (set_posted (sw_posted w ++ [(delete_stream_event, s)]) (set_streams (<[s := y']> (sw_streams w)) w)).
Proof. intros HP Hy Hr Hr' HF. apply (posted_ok_add w _ s y y' delete_stream_event); try done; cbn; lia. Qed.

Lemma requests_tokens late P w a x : Inv late P w -> sw_clients w !! a = Some x ->
  Forall (fun r => cstring (rr_token r)) (sc_read_requests x) /\ Forall (fun r => cstring (wr_token r)) (sc_write_requests x).
Proof.
  intros HI Hx. destruct (inv_client _ _ _ _ _ HI Hx) as (y & z & r & HC & HS & Hz & HZ & Hr & HR). split.
  - destruct (readable y) eqn:E1; [|by destruct (ro_none _ _ _ _ HR E1) as [_ ->]]. eapply Forall_impl; [by apply (ro_asks _ _ _ _ HR E1)|]. by intros ? [].
  - eapply Forall_impl; [apply HR|]. by intros ? [].
Qed.

Lemma inv_channels P w chs e : Inv [] P w -> dom chs = dom (sw_channels w) ->
  let wc := set_errors e (set_channels chs w) in ends wc -> Inv [] P wc /\ links wc = links w.
Proof.
  intros HI D wc He.
  assert (EL : links wc = links w).
  { unfold links. cbn. f_equal. apply map_eq. intros c. rewrite !lookup_fmap.
    destruct (chs !! c) as [ch|] eqn:E1, (sw_channels w !! c) as [ch'|] eqn:E2; try done.
    - apply elem_of_dom_2 in E1. rewrite D in E1. apply elem_of_dom in E1 as [? E1]. congruence.
    - apply elem_of_dom_2 in E2. rewrite <- D in E2. apply elem_of_dom in E2 as [? E2]. congruence. }
  split; [|done]. by eapply inv_same.
Qed.

(** The posted event, or the buffer that is freed; the client is not in the lists any more. *)
Lemma does_delete_client P w a x (Q : unit -> World -> Trace -> Spec -> Prop) : Inv [] P w -> sw_clients w !! a = Some x ->
  (forall w' t P', Inv [] P' w' -> sw_clients w' = delete a (sw_clients w) -> dom (sw_channels w') = dom (sw_channels w) ->
     sw_all_clients w' = list_remove a (sw_all_clients w) -> sw_subscriptions w' = sw_subscriptions w -> Forall is_message t -> Q tt w' (ELeave a :: t) P') ->
  does P (delete_client a) w Q.
Proof.
  intros HI Hx HQ. destruct (inv_client _ _ _ _ _ HI Hx) as (y & z & r & HC & HS & Hz & HZ & Hr & HR). pose proof (cl_stream _ _ _ _ HC) as Hy.
  destruct (requests_tokens _ _ _ _ _ HI Hx) as [HT1 HT2]. assert (Hin := cl_of _ _ _ _ HC). pose proof (sl_ref _ _ _ HS) as Href.
  assert (Hpos : 0 < vs_ref_cnt y).
  { pose proof (b2z_range (negb (vs_deleted y))). assert (0 < zlen (vs_clients y)); [|lia]. destruct (vs_clients y); [by apply not_elem_of_nil in Hin|]. rewrite zlen_cons. pose proof (zlen_nonneg l). lia. }
  eapply (does_event _ (ELeave a) (spec_leave a P)); [done..|]. set (s := sc_stream x) in *.
  unfold delete_client. eapply does_client; [exact Hx|]. fold s. cbv zeta. eapply does_stream; [exact Hy|]. apply does_assert; [lia|].
  apply does_bind, does_trapped. destruct (cl_channel _ _ _ _ HC) as [ch Hch].
  eapply (does_say _ _ _ ch _ MOther); [apply HI|done| |done|].
  { intros e He _ Hw. apply tells_disposed; [done|done|apply HS|apply named_id, HS]. }
  intros e1 ch1 He1.
  set (w1 := set_errors e1 (set_channels (<[sc_channel x := ch1]> (sw_channels w)) w)) in *.
  eapply does_then; [done|done|]. eapply does_change_stream; [exact Hy|]. eapply does_then; [done|done|].
  lazymatch goal with |- does _ _ ?v _ => set (w2 := v) end.
  assert (HC2 : exists ch2, sw_channels w2 !! sc_channel x = Some ch2) by (exists ch1; cbn; by rewrite lookup_insert_eq).
  apply does_bind. eapply does_delete_reads; [done|exact Hx|exact HC2|done|]. intros w3 t3 HS3 Ht3.
  destruct (said_client _ _ _ _ HS3 Hx HC2) as (x3 & Hx3 & EL3 & HC3).
  apply does_bind. eapply does_delete_writes; [by destruct HS3 as (? & ? & ? & -> & ? & _)|exact Hx3|exact HC3|done|done|]. intros w4 t4 HS4 Ht4.
  pose proof (said_trans _ _ _ _ HS3 HS4) as (chs & e4 & cl4 & -> & He4 & D4 & ED4 & _).
  eapply does_then; [done|done|]. eapply does_change_stream; [cbn; by rewrite lookup_insert_eq|].
  eapply does_stream; [cbn; by rewrite lookup_insert_eq|].
  set (wc := set_errors e4 (set_channels chs w)).
  assert (Dc : dom chs = dom (sw_channels w)).
  { rewrite D4. cbn. rewrite dom_insert_L. apply elem_of_dom_2 in Hch. set_solver. }
  destruct (inv_channels P w chs e4 HI Dc He4) as [HIc ELc]. fold wc in HIc, ELc.
  lazymatch goal with |- does _ _ ?v _ => assert (EW : v = remove_client a s y (sw_posted w) wc) end.
  { unfold remove_client, left_stream. cbn. rewrite ED4. cbn. by rewrite insert_insert_eq. }
  rewrite EW. clear EW. cbn [vs_ref_cnt set_ref_cnt set_vs_clients vs_clients vs_deleted].
  assert (HQ' : forall w' t P', Inv [] P' w' -> sw_clients w' = delete a (sw_clients w) -> dom (sw_channels w') = dom (sw_channels w) ->
    sw_all_clients w' = list_remove a (sw_all_clients w) -> sw_subscriptions w' = sw_subscriptions w -> t = [] -> Q tt w' (ELeave a :: [ESay (sc_channel x) MOther] ++ t3 ++ t4 ++ t) P').
  { intros w' t P' HI' E1 E2 E3 E4 ->. apply HQ; [done..|]. rewrite app_nil_r. apply Forall_app. split; [by repeat constructor|by apply Forall_app]. }
  change (has_access _ VS_ENABLE_REMOTE_READ) with (readable y).
  destruct (Z.eqb_spec (vs_ref_cnt y - 1) 0) as [Ez|Ez].
  - pose proof (zlen_list_remove a _ (sl_nodup _ _ _ HS) Hin) as EL. pose proof (zlen_nonneg (list_remove a (vs_clients y))). pose proof (b2z_range (negb (vs_deleted y))).
    assert (list_remove a (vs_clients y) = []) as -> by (apply nil_length_inv; unfold zlen in *; lia). apply does_assert; [done|].
    assert (vs_deleted y = true) as -> by (destruct (vs_deleted y); [done|cbn in *; lia]). apply does_assert; [done|].
    eapply does_step; [done|done|]. apply (HQ' _ []); [|done..].
    apply (inv_leave P wc a x y _ HIc Hx Hy).
    apply (posted_ok_add wc _ s y (left_stream a y) delete_stream_event); try done; [apply HIc|lia|cbn; lia|cbn; lia|by intros []].
  - assert (HI4 : Inv [] (spec_leave a P) (remove_client a s y (sw_posted w) wc)).
    { apply (inv_leave P wc a x y _ HIc Hx Hy). apply (posted_ok_stream wc _ s y (left_stream a y)); try done; [apply HIc|]. intros []; cbn; [lia|done..]. }
    destruct (readable y) eqn:Hread; [|by apply does_ret, (HQ' _ [])].
    eapply does_advance; [exact HI4|cbn; by rewrite lookup_insert_eq|done|cbn; lia|].
    intros w5 HI5 EL5 EC5. apply HQ'; [done|by rewrite EC5| | | |done].
    + transitivity (dom (sw_channels (links w5))); [cbn; by rewrite dom_fmap_L|]. rewrite EL5. cbn. by rewrite dom_fmap_L.
    + change (sw_all_clients w5) with (sw_all_clients (links w5)). by rewrite EL5.
    + change (sw_subscriptions w5) with (sw_subscriptions (links w5)). by rewrite EL5.
Qed.

(** ** Events *)

Lemma posted_pop_last w h s l : posted_ok w -> sw_posted w = (h, s) :: l ->
  NoDup l /\ (h, s) ∉ l /\ (forall l1 l2 s' h', l = l1 ++ (delete_stream_event, s') :: l2 -> (h', s') ∉ l2).
Proof.
  intros [P1 P2 P3] EP. rewrite EP in P1. apply NoDup_cons in P1 as [? ?]. split_and!; [done|done|].
  intros l1 l2 s' h' ->. by apply (P3 ((h, s) :: l1) l2).
Qed.

Lemma does_delete_stream P w s l (Q : unit -> World -> Trace -> Spec -> Prop) : Inv [] P w -> sw_posted w = (delete_stream_event, s) :: l ->
  (forall w', Inv [] P w' -> Q tt w' [] P) -> does P (delete_stream s) (set_posted l w) Q.
Proof.
  intros HI EP HQ. pose proof (iv_posted _ _ _ HI) as HP. destruct (posted_pop_last _ _ _ _ HP EP) as (Hnd & Hni & HPl).
  assert ((delete_stream_event, s) ∈ sw_posted w) as (y & Hy & HF)%(po_flag _ HP) by (rewrite EP; set_solver). cbn in HF.
  destruct (inv_stream _ _ _ _ _ HI Hy) as (z & HS & _). pose proof (sl_ref _ _ _ HS) as Hr. pose proof (zlen_nonneg (vs_clients y)). pose proof (b2z_range (negb (vs_deleted y))).
  assert (Hc : vs_clients y = []) by (apply nil_length_inv; unfold zlen in *; lia). assert (Hd : vs_deleted y = true) by (destruct (vs_deleted y); [done|cbn in *; lia]).
  unfold delete_stream. eapply does_stream; [exact Hy|]. apply does_assert; [by rewrite Hc|]. apply does_assert; [done|].
  eapply does_then; [done|done|]. eapply does_step; [done|done|]. apply HQ. destruct HP as [P1 P2 P3].
  assert (Hx : forall b xb yb, sw_clients w !! b = Some xb -> delete s (sw_streams w) !! sc_stream xb = Some yb -> sw_streams w !! sc_stream xb = Some yb) by (by intros b xb yb _ [_ ?]%lookup_delete_Some).
  constructor.
  - exact (iv_ends _ _ _ HI).
  - pose proof (linked_free s y w (iv_linked _ _ _ HI) Hy Hc) as HL. by eapply linked_same; [|exact HL].
  - constructor; cbn; [done| |done]. intros h' s'. destruct (decide (s = s')) as [<-|Hn].
    + rewrite lookup_delete_eq. split; [|by intros (? & ? & _)]. intros Hin. by destruct (P3 [] l s h' EP).
    + rewrite lookup_delete_ne, <- P2, EP by done. rewrite elem_of_cons. split; [auto|]. intros [[= -> ->]|]; done.
  - cbn. intros s' y' [_ Hy']%lookup_delete_Some. by apply (iv_streams _ _ _ HI).
  - cbn. intros b xb yb Hxb Hyb. apply (iv_clients _ _ _ HI b xb yb Hxb). by eapply Hx.
  - apply (iv_fresh _ _ _ HI).
Qed.

Lemma inv_notified P w h s l : Inv [] P w -> sw_posted w = (h, s) :: l -> h <> delete_stream_event -> exists y,
  sw_streams w !! s = Some y /\ Inv [] P (set_streams (<[s := raise_flag h false y]> (sw_streams w)) (set_posted l w)).
Proof.
  intros HI EP Hh. pose proof (iv_posted _ _ _ HI) as HP. destruct (posted_pop_last _ _ _ _ HP EP) as (Hnd & Hni & HPl).
  assert ((h, s) ∈ sw_posted w) as (y & Hy & HF)%(po_flag _ HP) by (rewrite EP; set_solver). exists y. split; [done|].
  apply (inv_flag [] P w s y h false l HI Hy Hh). destruct HP as [P1 P2 P3]. constructor; cbn; [done| |done]. intros h' s'. destruct (decide (s = s')) as [<-|Hn].
  - rewrite lookup_insert_eq. destruct (decide (h' = h)) as [->|Hn'].
    + split; [done|]. intros (y1 & [= <-] & HF1). by rewrite flag_raised in HF1.
    + transitivity ((h', s) ∈ sw_posted w); [rewrite EP, elem_of_cons; split; [auto|]; intros [|]; [congruence|done]|]. rewrite P2, Hy.
      split; intros (y1 & [= <-] & HF1); eexists; (split; [done|]); [by rewrite flag_other|by rewrite flag_other in HF1].
  - rewrite lookup_insert_ne, <- P2, EP by done. rewrite elem_of_cons. split; [auto|]. intros [|]; [congruence|done].
Qed.

(** Whatever the owner does when it is told. *)
Lemma does_run_event (call_back : Z -> Z -> Z -> M World unit) (R : Trace -> Prop) P w (Q : unit -> World -> Trace -> Spec -> Prop) : Inv [] P w -> R [] ->
  (forall f s e P w y, Inv [] P w -> sw_streams w !! s = Some y -> vs_deleted y = false -> does P (call_back f s e) w (fun _ w' t P' => Inv [] P' w' /\ R t)) ->
  (forall w' t P', Inv [] P' w' -> R t -> Q tt w' t P') -> does P (run_event call_back) w Q.
Proof.
  intros HI HR Hcb HQ. unfold run_event. eapply does_then; [done|done|]. destruct (sw_posted w) as [|[h s] l] eqn:EP; [by apply does_ret, HQ|].
  eapply does_then; [done|done|]. destruct h.
  - eapply does_delete_stream; [done|done|auto].
  - destruct (inv_notified _ _ _ _ _ HI EP) as (y & Hy & HI1); [done|]. unfold notify_data_available. eapply does_stream; [exact Hy|].
    eapply does_then; [done|done|]. destruct (vs_deleted y) eqn:Hd; [by apply does_ret, HQ|]. destruct (vs_eos_out y); [by apply does_ret, HQ|]. cbn [orb].
    destruct (vs_callback y) as [f|]; [|by apply does_ret, HQ].
    eapply does_mono; [eapply (Hcb f s _ P _ (set_data_posted false y)); [exact HI1|cbn; by rewrite lookup_insert_eq|done]|]. intros [] w' t P' [HI' Ht]. by apply HQ.
  - destruct (inv_notified _ _ _ _ _ HI EP) as (y & Hy & HI1); [done|]. unfold notify_space_available. eapply does_stream; [exact Hy|].
    eapply does_then; [done|done|]. destruct (vs_deleted y) eqn:Hd; [by apply does_ret, HQ|]. destruct (vs_eos_inp y); [by apply does_ret, HQ|]. cbn [orb].
    destruct (vs_callback y) as [f|]; [|by apply does_ret, HQ].
    eapply does_mono; [eapply (Hcb f s _ P _ (set_space_posted false y)); [exact HI1|cbn; by rewrite lookup_insert_eq|done]|]. intros [] w' t P' [HI' Ht]. by apply HQ.
Qed.

(** ** The owner of a stream *)

Lemma does_virtual_stream_delete P w s y (Q : unit -> World -> Trace -> Spec -> Prop) : Inv [] P w -> sw_streams w !! s = Some y -> vs_deleted y = false ->
  (forall w', Inv [] P w' -> Q tt w' [] P) -> does P (virtual_stream_delete s) w Q.
Proof.
  intros HI Hy Hd HQ. destruct (inv_stream _ _ _ _ _ HI Hy) as (z & HS & _). pose proof (sl_ref _ _ _ HS) as Hr. rewrite Hd in Hr. cbn in Hr. pose proof (zlen_nonneg (vs_clients y)).
  unfold virtual_stream_delete. eapply does_stream; [exact Hy|]. apply does_assert; [by rewrite Hd|]. eapply does_then; [done|done|].
  set (y' := set_ref_cnt (vs_ref_cnt y - 1) (set_deleted true y)).
  assert (HI' : forall posted, posted_ok (set_posted posted (set_streams (<[s := y']> (sw_streams w)) w)) -> Inv [] P (set_posted posted (set_streams (<[s := y']> (sw_streams w)) w))).
  { intros posted HP. constructor; [apply HI|by apply linked_owner; [apply HI|..]|done| | |apply HI].
    - cbn. intros s' y1. destruct (decide (s = s')) as [<-|Hn]; [|rewrite lookup_insert_ne by done; apply (iv_streams _ _ _ HI)].
      rewrite lookup_insert_eq. intros [= <-]. destruct (iv_streams _ _ _ HI _ _ Hy) as (z1 & Hz & HZ). exists z1. split; [done|]. by apply (stream_ok_same z1 y).
    - cbn. intros b xb yb Hxb. destruct (decide (s = sc_stream xb)) as [Es|Hs].
      + rewrite <- Es, lookup_insert_eq. intros [= <-]. rewrite Es in Hy. destruct (iv_clients _ _ _ HI b xb y Hxb Hy) as (r & Hrb & HRb). exists r. split; [done|].
        by apply (reader_ok_same _ r xb y).
      + rewrite lookup_insert_ne by done. apply (iv_clients _ _ _ HI b xb yb Hxb). }
  destruct (Z.ltb_spec 0 (vs_ref_cnt y - 1)).
  - apply does_ret, HQ. apply (HI' (sw_posted w)). apply (posted_ok_stream w _ s y y'); try done; [apply HI|]. intros []; cbn; [lia|done..].
  - apply does_assert; [apply bool_decide_eq_true; apply nil_length_inv; unfold zlen in *; lia|].
    eapply does_step; [done|done|]. apply HQ. apply (HI' (sw_posted w ++ [(delete_stream_event, s)])).
    apply (posted_ok_add w _ s y y' delete_stream_event); try done; [apply HI|lia|cbn; lia|cbn; lia|by intros []].
Qed.

(** ** A new stream *)

Lemma links_channels w w' : links w' = links w -> dom (sw_channels w') = dom (sw_channels w).
Proof. intros EL. transitivity (dom (sw_channels (links w'))); [cbn; by rewrite dom_fmap_L|]. rewrite EL. cbn. by rewrite dom_fmap_L. Qed.

Lemma inv_open P w type access callback buf_len : Inv [] P w -> is_bytes type -> 1 <= buf_len <= 2 ^ 32 ->
  let s := sw_brk w in
  let y := Build_VirtualStream (strlcpy256 type) (sw_id_cnt w) access callback 1 false [] 0 (alloc buf_len) buf_len 0 0 false false false false in
  let P' := on_stream s (Build_SpecStream [] false 0) P in
  let w' := set_id_cnt (u32 (sw_id_cnt w + 1)) (set_streams (<[s := y]> (sw_streams w)) (set_brk (s + 1) w)) in
  spec_step P (EOpen s) = Some P' /\ Inv [] P' w'.
Proof.
  intros HI Ht Hlen s y P' w'.
  assert (Hs : sp_streams P !! s = None).
  { destruct (sp_streams P !! s) as [z|] eqn:Hz; [|done]. pose proof (proj1 (iv_fresh _ _ _ HI) s) as HF. rewrite Hz in HF. exfalso. by apply (Z.lt_irrefl (sw_brk w)), HF. }
  assert (Hy : sw_streams w !! s = None).
  { destruct (sw_streams w !! s) as [y1|] eqn:Hy; [|done]. by destruct (iv_streams _ _ _ HI _ _ Hy) as (z & Hz & _); rewrite Hs in Hz. }
  split; [cbn [spec_step]; by rewrite Hs|]. constructor.
  - exact (iv_ends _ _ _ HI).
  - apply linked_open; try done; [apply HI| |apply (lk_id _ (iv_linked _ _ _ HI))].
    split; [by apply bytes_ztake|]. cbn. unfold strlcpy256, ztake, zlen. rewrite length_take. lia.
  - destruct (iv_posted _ _ _ HI) as [P1 P2 P3]. constructor; cbn; [done| |done]. intros h s'. rewrite P2. destruct (decide (s = s')) as [<-|Hn].
    + rewrite lookup_insert_eq, Hy. split; [by intros (? & ? & _)|]. by intros (y1 & [= <-] & HF); destruct h.
    + by rewrite lookup_insert_ne.
  - cbn. intros s' y'. destruct (decide (s = s')) as [<-|Hn]; [|rewrite !lookup_insert_ne by done; apply (iv_streams _ _ _ HI)].
    rewrite !lookup_insert_eq. intros [= <-]. eexists. split; [done|].
    assert (Ha : zlen (alloc buf_len) = buf_len) by (unfold zlen, alloc; rewrite length_replicate; lia).
    constructor; cbn; try done; [constructor; cbn; try done; try lia|].
    + unfold alloc. apply Forall_replicate. done.
    + exists []. split; [|done]. by rewrite slice_nil.
  - cbn. intros b xb yb Hxb. destruct (decide (s = sc_stream xb)) as [Es|Hn]; [|rewrite lookup_insert_ne by done; apply (iv_clients _ _ _ HI b xb yb Hxb)].
    destruct (lk_client _ (iv_linked _ _ _ HI) _ _ Hxb) as (y1 & HC). pose proof (cl_stream _ _ _ _ HC) as Hy1. rewrite <- Es in Hy1. congruence.
  - destruct (iv_fresh _ _ _ HI) as [F1 F2]. cbn. split; [|intros b Hb%F2; lia]. intros s'. destruct (decide (s = s')) as [<-|Hn]; [subst s; lia|].
    rewrite lookup_insert_ne by done. intros Hs'%F1. lia.
Qed.

(** Neither data of the owner nor for it. *)
Definition is_own (e : Ev) : bool := match e with EAdd None _ _ _ | EGot _ _ _ => true | _ => false end.
Definition own (t : Trace) : Trace := filter (fun e => is_own e = true) t.

Lemma own_app t1 t2 : own (t1 ++ t2) = own t1 ++ own t2.
Proof. apply filter_app. Qed.
Lemma own_messages t : Forall is_message t -> own t = [].
Proof. induction 1 as [|e t He Ht IH]; [done|]. unfold own. rewrite filter_cons. destruct e; done. Qed.

Lemma does_create_clients type context_id l : (forall c, context_id = Some c -> named c) -> forall P w s y (Q : unit -> World -> Trace -> Spec -> Prop),
  Inv [] P w -> sw_streams w !! s = Some y -> vs_ref_cnt y <> 0 -> (forall h, h ∈ l -> is_Some (sw_channels w !! sb_channel h)) ->
  (forall w' t P', Inv [] P' w' -> is_Some (sw_streams w' !! s) -> own t = [] -> Q tt w' t P') ->
  does P (create_clients s type context_id l) w Q.
Proof.
  intros Hctx. induction l as [|h l IH]; intros P w s y Q HI Hy Hr Hl HQ; cbn [create_clients]; [apply does_ret, HQ; [done|by eexists|done]|].
  eapply does_stream; [exact Hy|]. apply does_bind. destruct (bool_decide _); [|by apply does_ret; eapply IH; [done..|set_solver|done]].
  destruct (Hl h) as [ch Hch]; [set_solver|]. apply does_bind. eapply does_create_client; [done|done|done|by eexists|]. intros P1 pos a HI1.
  destruct (inv_stream _ _ _ _ _ HI Hy) as (z & HS & _). pose proof (sl_ref _ _ _ HS). pose proof (zlen_nonneg (vs_clients y)). pose proof (b2z_range (negb (vs_deleted y))).
  apply does_trapped. eapply (does_say _ _ _ ch _ MOther); [apply HI1|exact Hch| |done|].
  { intros e He _ Hw. apply tells_created; [done|done|apply HS|apply named_id, HS|done]. }
  intros e ch' He. destruct (inv_say _ _ _ _ _ ch' e HI1 Hch He) as [HI2 _].
  eapply IH; [exact HI2|cbn; by rewrite lookup_insert_eq|cbn; lia| |].
  - cbn. intros h' Hh'. apply lookup_insert_is_Some. destruct (decide (sb_channel h = sb_channel h')); [by left|right]. split; [done|]. apply Hl. set_solver.
  - intros w' t P' HI' Hs Ht. apply HQ; [done|done|]. by rewrite !own_app, Ht.
Qed.

Lemma does_virtual_stream_create P w type context_id buf_len access callback (Q : Z -> World -> Trace -> Spec -> Prop) : Inv [] P w ->
  is_bytes type -> (forall c, context_id = Some c -> named c) -> 0 <= buf_len < 2 ^ 32 ->
  (forall w' t P', let s := sw_brk w in Inv [] P' w' -> own t = [] -> Q s w' (EOpen s :: t) P') ->
  does P (virtual_stream_create type context_id buf_len access callback) w Q.
Proof.
  intros HI Ht Hc Hlen HQ. destruct (inv_open P w type access callback (buf_len + 1) HI Ht) as [HS HI1]; [lia|].
  eapply does_event; [|exact HS|]; [done|]. unfold virtual_stream_create. apply does_assert; [lia|]. cbv zeta.
  eapply does_then; [done|done|]. eapply does_then; [done|done|]. eapply does_then; [done|done|]. eapply does_then; [done|done|].
  apply does_bind. eapply does_create_clients; [done|exact HI1|cbn; by rewrite lookup_insert_eq|done|apply (lk_subs _ (iv_linked _ _ _ HI))|].
  intros w2 t2 P2 HI2 Hs2 Ht2. eapply does_then; [done|done|]. apply does_ret. apply HQ; [|by rewrite app_nil_r].
  destruct HI2 as [I1 [L1 L2 L3 L4 L5 L6 L7] I3 I4 I5 I6]. constructor; try done; [|by destruct I3].
  constructor; try done; [intros a x Hx; destruct (L1 a x Hx) as (y1 & []); by exists y1|intros s' y' Hy'; by destruct (L2 s' y' Hy')|].
  cbn. intros s' [->|Hs']%elem_of_cons; auto.
Qed.

(** ** A channel is closed *)

Lemma does_close_clients c l : forall P w (Q : unit -> World -> Trace -> Spec -> Prop), Inv [] P w -> NoDup l -> (forall a, a ∈ l -> is_Some (sw_clients w !! a)) ->
  (forall w' t P', Inv [] P' w' -> (forall a x, sw_clients w' !! a = Some x -> sw_clients w !! a = Some x /\ (a ∈ l -> sc_channel x <> c)) ->
     dom (sw_channels w') = dom (sw_channels w) -> sw_subscriptions w' = sw_subscriptions w -> own t = [] -> Q tt w' t P') ->
  does P (close_clients c l) w Q.
Proof.
  induction l as [|a l IH]; intros P w Q HI Hnd Hl HQ; cbn [close_clients].
  - apply does_ret, HQ; [done| |done..]. intros a x Hx. split; [done|]. by intros ?%not_elem_of_nil.
  - apply NoDup_cons in Hnd as [Hna Hnd]. destruct (Hl a) as [x Hx]; [set_solver|]. eapply does_client; [exact Hx|]. apply does_bind.
    destruct (Z.eqb_spec (sc_channel x) c) as [Ec|Ec].
    + eapply does_delete_client; [done|exact Hx|]. intros w1 t1 P1 HI1 EC1 ED1 _ ES1 Ht1. eapply IH; [done|done| |].
      * intros b Hb. rewrite EC1, lookup_delete_ne by (intros ->; done). apply Hl. set_solver.
      * intros w2 t2 P2 HI2 HX2 ED2 ES2 Ht2. apply HQ; [done| |congruence|congruence|].
        -- intros b xb Hxb. destruct (HX2 b xb Hxb) as [Hb Hc]. rewrite EC1 in Hb. apply lookup_delete_Some in Hb as [Hne Hb]. split; [done|].
           intros [->|Hin]%elem_of_cons; [done|auto].
        -- rewrite own_app, Ht2. cbn. rewrite app_nil_r. change (own (ELeave a :: t1)) with (own t1). by apply own_messages.
    + apply does_ret. eapply IH; [done|done|set_solver|]. intros w2 t2 P2 HI2 HX2 ED2 ES2 Ht2. apply HQ; [done| |done|done|done].
      intros b xb Hxb. destruct (HX2 b xb Hxb) as [Hb Hc]. split; [done|]. intros [->|Hin]%elem_of_cons; [congruence|auto].
Qed.

(** Nothing refers to the channel any more. *)
Lemma does_channel_close P w c (Q : unit -> World -> Trace -> Spec -> Prop) : Inv [] P w ->
  (forall w' t P', Inv [] P' w' -> own t = [] -> Q tt w' t P') ->
  does P (channel_close_listener c ;; modify (fun w => set_channels (delete c (sw_channels w)) w)) w Q.
Proof.
  intros HI HQ. destruct (lk_all _ (iv_linked _ _ _ HI)) as [A1 A2].
  unfold channel_close_listener. apply does_assoc. eapply does_then; [done|done|]. apply does_assoc, does_bind.
  eapply does_close_clients; [done|done|done|]. intros w1 t1 P1 HI1 HX1 ED1 ES1 Ht1. eapply does_then; [done|done|].
  set (w2 := set_subscriptions _ w1). exists tt, (set_channels (delete c (sw_channels w2)) w2), [], P1. split; [done|].
  assert (HI2 : Inv [] P1 (set_channels (delete c (sw_channels w2)) w2)).
  { destruct HI1 as [[I0 I1] [L1 L2 L3 L4 L5 L6 L7] I3 I4 I5 I6]. constructor; try done; [| |by destruct I3].
    - split; [|done]. by apply map_Forall_delete.
    - constructor; try done.
      + intros a x Hx. destruct (L1 a x Hx) as (y1 & []). exists y1. constructor; try done. cbn. rewrite lookup_delete_ne; [done|].
        destruct (HX1 a x Hx) as [Hx0 Hne]. intros Ec. apply Hne; [|done]. destruct (lk_client _ (iv_linked _ _ _ HI) _ _ Hx0) as (? & []). done.
      + intros s' y' Hy'. by destruct (L2 s' y' Hy').
      + cbn. intros h [Hne Hh]%list_elem_of_filter. rewrite lookup_delete_ne by done. by apply L6. }
  split; [|split; [done|]]; [|apply HQ; [done|by rewrite app_nil_r]].
  split; [cbn; rewrite dom_delete_L; set_solver|]. intros c' ch ch' Hc Hc'. cbn in Hc'. apply lookup_delete_Some in Hc' as [_ Hc'].
  change (sw_channels w2 !! c' = Some ch') in Hc'. rewrite Hc in Hc'. injection Hc' as <-. split; [done|].
  exists []. split; [by rewrite app_nil_r|constructor].
Qed.
End life.
