(* ===== verification/StreamsOwner.v ===== *)
(** * Streams service: the owner takes data

    [virtual_stream_get_data] on a stream that clients do not read: the data in
    front of the buffer, whose place the clients that wait to write can use. *)

From stdpp Require Import gmap.
From S2P Require Import Prelude Ring Streams JsonWrite JsonBinary StreamsSvc StreamsSpec StreamsInv StreamsRead StreamsLife.

(** The owner takes [n] bytes of a stream. *)
Definition spec_take (s n : Z) (P : Spec) : Spec :=
  Build_Spec (alter (fun z => Build_SpecStream (ss_log z) (ss_ended z) (ss_taken z + n)) s (sp_streams P)) (sp_readers P) (sp_left P).

Definition adds_only (e : Ev) : Prop := match e with EAdd (Some _) _ _ _ | ESay _ _ => True | _ => False end.

Lemma spec_take_look s n P s' : sp_streams (spec_take s n P) !! s' =
  (fun z => Build_SpecStream (ss_log z) (ss_ended z) (if s =? s' then ss_taken z + n else ss_taken z)) <$> sp_streams P !! s'.
Proof.
  cbn. destruct (Z.eqb_spec s s') as [<-|Hn]; [by rewrite lookup_alter_eq|]. rewrite lookup_alter_ne by done. by destruct (sp_streams P !! s') as [[]|].
Qed.

Lemma spec_take_stream s n P s' z : spec_take s n (on_stream s' z P) =
  on_stream s' (Build_SpecStream (ss_log z) (ss_ended z) (if s =? s' then ss_taken z + n else ss_taken z)) (spec_take s n P).
Proof.
  unfold spec_take, on_stream. cbn. f_equal. destruct (Z.eqb_spec s s') as [<-|Hn].
  - by rewrite alter_insert_eq, insert_alter_eq.
  - rewrite alter_insert_ne by done. by destruct z.
Qed.

(** Adding data and taking data do not interfere. *)
Lemma take_commutes s n t : Forall adds_only t -> forall P P', spec_run P t = Some P' -> spec_run (spec_take s n P) t = Some (spec_take s n P').
Proof.
  induction 1 as [|e t He Ht IH]; intros P P'; cbn [spec_run]; [by intros [= ->]|].
  destruct (spec_step P e) as [P1|] eqn:E1; [|done]. intros HR. cbn in HR.
  assert (E2 : spec_step (spec_take s n P) e = Some (spec_take s n P1)); [|rewrite E2; by apply IH]. clear IH HR Ht.
  destruct e as [| | |[a|] s' d eos| | |c [a token d eos|]]; try done; cbn [spec_step] in *.
  - rewrite spec_take_look. destruct (sp_streams P !! s') as [z|]; [|done]. cbn [mbind option_bind fmap option_fmap option_map] in *. cbn in *.
    destruct (ss_ended z); [done|]. injection E1 as <-. by rewrite spec_take_stream.
  - cbn [spec_take sp_readers]. destruct (sp_readers P !! a) as [x|]; [|done]. cbn [mbind option_bind] in *. change (sp_streams (spec_take s n P)) with (sp_streams (spec_take s n P)).
    rewrite spec_take_look. destruct (sp_streams P !! sr_stream x) as [z|]; [|done]. cbn in *. destruct (sr_asks x) as [|r rest]; [done|].
    destruct (_ && _); [|done]. by injection E1 as <-.
  - by injection E1 as <-.
Qed.

Section owner.
Context {E Ch : Type} `{InputStream Ch} `{ErrnoSpec E Ch}.

Abbreviation World := (StreamWorld E Ch).
Implicit Types w : World.

(** ** Clients that wait to write *)

Lemma messages_adds t : Forall is_message t -> Forall adds_only t.
Proof. intros Ht. eapply Forall_impl; [exact Ht|]. by intros []. Qed.

Lemma inv_writes P w a x l : Inv [] P w -> sw_clients w !! a = Some x -> Forall write_ok l ->
  let w' := set_clients (<[a := set_write_requests l x]> (sw_clients w)) w in Inv [] P w' /\ links w' = links w.
Proof.
  intros HI Hx Hl w'. destruct (inv_client _ _ _ _ _ HI Hx) as (y & z & r & HC & HS & Hz & HZ & Hr & HR).
  rewrite <- (on_reader_same P a r Hr). eapply inv_set_client; [done|done|apply HC|done| |done]. destruct HR. by constructor.
Qed.

Lemma does_delete_write P w a x r r' l err (Q : unit -> World -> Trace -> Spec -> Prop) : Inv [] P w -> sw_clients w !! a = Some x ->
  sc_write_requests x = r' :: l -> wr_token r' = wr_token r -> err = 0 \/ STD_ERR_BASE < err < STD_ERR_BASE + 100 ->
  (forall w' t, Inv [] P w' -> links w' = links w -> sw_streams w' = sw_streams w -> sw_clients w' = <[a := set_write_requests l x]> (sw_clients w) ->
     Forall is_message t -> Q tt w' t P) ->
  does P (delete_write_request a r err) w Q.
Proof.
  intros HI Hx Hl Htok Herr HQ. destruct (inv_client _ _ _ _ _ HI Hx) as (y & z & q & HC & HS & Hz & HZ & Hq & HR). destruct (cl_channel _ _ _ _ HC) as [ch Hch].
  pose proof (ro_writes _ _ _ _ HR) as HW. rewrite Hl in HW. apply Forall_cons in HW as [Hr HW].
  unfold write_ok in Hr. rewrite Htok in Hr. unfold delete_write_request. eapply does_client; [exact Hx|]. apply does_bind, does_trapped.
  eapply (does_say _ _ _ ch _ MOther); [apply HI|exact Hch| |done|].
  - intros e He _ Hw. destruct Herr as [->|Herr]; [apply tells_done|apply tells_reply; [..|by apply ei_code|]]; try done; apply Hr.
  - intros e ch' He'. destruct (inv_say _ _ _ _ _ ch' e HI Hch He') as [HI1 EL1]. apply does_last. eapply does_change_client; [exact Hx|]. apply does_ret.
    rewrite Hl. cbn [tail]. destruct (inv_writes P _ a x l HI1 Hx HW) as [HI2 EL2].
    apply HQ; [done|etrans; [exact EL2|exact EL1]|done|done|by repeat constructor].
Qed.

Lemma does_delete_all_writes l : forall P w a x err (Q : unit -> World -> Trace -> Spec -> Prop), Inv [] P w -> sw_clients w !! a = Some x ->
  sc_write_requests x = l -> STD_ERR_BASE < err < STD_ERR_BASE + 100 ->
  (forall w' t, Inv [] P w' -> links w' = links w -> sw_streams w' = sw_streams w -> sw_clients w' = <[a := set_write_requests [] x]> (sw_clients w) ->
     Forall is_message t -> Q tt w' t P) ->
  does P (delete_write_requests a l err) w Q.
Proof.
  induction l as [|r l IH]; intros P w a x err Q HI Hx Hl Herr HQ; cbn [delete_write_requests].
  - apply does_ret, HQ; try done. rewrite insert_id; [done|]. rewrite Hx. by destruct x; cbn in *; subst.
  - apply does_bind. eapply does_delete_write; [done|exact Hx|exact Hl|done|by right|]. intros w1 t1 HI1 EL1 ES1 EC1 Ht1.
    eapply IH; [done|rewrite EC1; apply lookup_insert_eq|done|done|]. intros w2 t2 HI2 EL2 ES2 EC2 Ht2.
    apply HQ; [done|congruence|congruence|by rewrite EC2, EC1, insert_insert_eq|by apply Forall_app].
Qed.

(** What the first request of a client has left. *)
Definition pending_of (x : StreamClient) : Z := match sc_write_requests x with r :: _ => wr_size r - wr_offs r | [] => 0 end.

Lemma does_write_client P w a s x y (Q : unit -> World -> Trace -> Spec -> Prop) : Inv [] P w -> sw_clients w !! a = Some x -> sc_stream x = s ->
  sw_streams w !! s = Some y -> readable y = false -> vs_pos y + pending_of x < 2 ^ 62 ->
  (forall w' t P' x' y' d, Inv [] P' w' -> links w' = links w -> Forall adds_only t -> sw_clients w' = <[a := x']> (sw_clients w) ->
     sw_streams w' !! s = Some y' -> added_unread y y' d -> zlen d <= pending_of x -> (vs_eos_inp y = true -> d = []) -> Q tt w' t P') ->
  does P (write_client a s) w Q.
Proof.
  intros HI Hx Hs Hy Hread Hmax HQ. destruct (inv_client _ _ _ _ _ HI Hx) as (y1 & z & q & HC & HS & Hz & HZ & Hq & HR). pose proof (cl_stream _ _ _ _ HC) as Hy1.
  rewrite Hs in *. simplify_eq. pose proof (sl_ref _ _ _ HS) as Href. pose proof (b2z_range (negb (vs_deleted y))).
  assert (Hpos : vs_ref_cnt y <> 0).
  { pose proof (cl_of _ _ _ _ HC). destruct (vs_clients y); [by exfalso; eapply not_elem_of_nil|]. rewrite zlen_cons in Href. pose proof (zlen_nonneg l). lia. }
  unfold write_client. eapply does_client; [exact Hx|]. unfold pending_of in *. pose proof (ro_writes _ _ _ _ HR) as HW.
  destruct (sc_write_requests x) as [|r l] eqn:El.
  { apply does_ret. eapply HQ; try done; [by rewrite insert_id|unfold added_unread; by rewrite app_nil_r, zlen_nil, Z.add_0_r|done]. }
  apply Forall_cons in HW as [(Htok & Hoffs & Hsize & Hdata) HW].
  eapply does_option; [apply mem_read_ok; lia|]. set (rest := ztake (wr_size r - wr_offs r) (zdrop (wr_offs r) (wr_data r))).
  assert (Hrest : zlen rest = wr_size r - wr_offs r) by (apply zlen_ztake; rewrite zlen_zdrop; lia).
  apply does_bind. eapply (does_add_data (Some a)); [done|exact Hy|done|subst rest; auto with bytes|lia|].
  intros [err n] w1 t1 P1 HI1 EL1 HAR Hun. destruct (Hun Hread) as (EC1 & y2 & Hy2 & Hadd). cbn [snd] in Hadd. clear Hun.
  assert (HA : 0 <= n <= zlen rest /\ (err = 0 \/ err = ERR_EOF) /\ Forall adds_only t1 /\ (vs_eos_inp y = true -> n = 0)).
  { destruct HAR as (msgs & Hm%messages_adds & HAR). pose proof (proj1 (proj2 (room_len y (so_buf _ _ HZ)))). pose proof (zlen_nonneg rest).
    destruct (vs_eos_inp y); destruct HAR as [[= -> ->] ->]; split_and!; auto; try lia; try done. by constructor. }
  destruct HA as (Hn & Herr & Ht1 & Hend). clear HAR.
  assert (Hdone : zlen (ztake n rest) = n) by (apply zlen_ztake; lia).
  set (x2 := set_write_requests (set_wr_offs (wr_offs r + n) r :: l) x).
  destruct (inv_writes P1 w1 a x (set_wr_offs (wr_offs r + n) r :: l) HI1) as [HI2 EL2]; [by rewrite EC1|constructor; [repeat split; cbn; try done; lia|done]|]. fold x2 in HI2, EL2.
  set (w2 := set_clients (<[a := x2]> (sw_clients w1)) w1) in *.
  assert (HQ' : forall w' t P' x', Inv [] P' w' -> links w' = links w2 -> Forall is_message t -> sw_clients w' = <[a := x']> (sw_clients w) ->
    sw_streams w' = sw_streams w2 -> Q tt w' (t1 ++ t) P').
  { intros w' t P' x' HI' EL Ht EC ES. eapply HQ; [done|by rewrite EL, EL2, EL1|apply Forall_app; split; [done|by apply messages_adds]|exact EC|rewrite ES; exact Hy2|exact Hadd|lia|].
    intros Heos. by rewrite (Hend Heos). }
  eapply does_change_client; [by rewrite EC1|]. change (set_clients _ w1) with w2.
  assert (Hx2 : sw_clients w2 !! a = Some x2) by apply lookup_insert_eq.
  assert (EC2 : forall x', <[a := x']> (sw_clients w2) = <[a := x']> (sw_clients w)) by (intros x'; cbn; by rewrite insert_insert_eq, EC1).
  destruct Herr as [->| ->].
  - change (negb (0 =? 0)) with false. cbn [orb]. apply does_bind. destruct (_ <=? _).
    + eapply does_delete_write; [done|exact Hx2|done|done|by left|]. intros w3 t3 HI3 EL3 ES3 EC3 Ht3. apply does_ret. rewrite app_nil_r.
      eapply HQ'; [done|done|done|by rewrite EC3, EC2|done].
    + apply does_ret, does_ret. apply (HQ' w2 [] P1 x2); try done. cbn. by rewrite EC1.
  - change (negb (ERR_EOF =? 0)) with true. cbn [orb]. apply does_bind.
    eapply does_delete_write; [done|exact Hx2|done|done|by right|]. intros w3 t3 HI3 EL3 ES3 EC3 Ht3.
    eapply does_delete_all_writes; [done|rewrite EC3; apply lookup_insert_eq|done|done|]. intros w4 t4 HI4 EL4 ES4 EC4 Ht4.
    eapply HQ'; [done|by rewrite EL4|by apply Forall_app|by rewrite EC4, EC3, insert_insert_eq, EC2|by rewrite ES4].
Qed.

Fixpoint pending (clients : gmap Z StreamClient) (l : list Z) : Z :=
  match l with [] => 0 | a :: l => match clients !! a with Some x => pending_of x | None => 0 end + pending clients l end.

Lemma pending_nonneg P w l : Inv [] P w -> 0 <= pending (sw_clients w) l.
Proof.
  intros HI. induction l as [|a l IH]; cbn [pending]; [done|]. destruct (sw_clients w !! a) as [x|] eqn:Hx; [|lia].
  destruct (inv_client _ _ _ _ _ HI Hx) as (y & z & q & _ & _ & _ & _ & _ & HR). pose proof (ro_writes _ _ _ _ HR) as HW. unfold pending_of.
  destruct (sc_write_requests x); [lia|]. apply Forall_cons in HW as [(_ & ? & _) _]. lia.
Qed.

Lemma pending_insert clients a x l : a ∉ l -> pending (<[a := x]> clients) l = pending clients l.
Proof.
  induction l as [|b l IH]; intros Hn; [done|]. cbn [pending]. rewrite lookup_insert_ne by set_solver. rewrite IH; [done|set_solver].
Qed.

Lemma added_trans y1 y2 y3 d1 d2 : added_unread y1 y2 d1 -> added_unread y2 y3 d2 -> added_unread y1 y3 (d1 ++ d2).
Proof.
  intros (A1 & A2 & A3 & A4) (B1 & B2 & B3 & B4). split; [by rewrite B1, A1, app_assoc|]. split; [rewrite B2, A2, zlen_app; lia|]. split; [congruence|auto].
Qed.

Lemma does_write_clients s l : forall P w y (Q : unit -> World -> Trace -> Spec -> Prop), Inv [] P w -> sw_streams w !! s = Some y -> readable y = false ->
  NoDup l -> (forall a, a ∈ l -> a ∈ vs_clients y) -> vs_pos y + pending (sw_clients w) l < 2 ^ 62 ->
  (forall w' t P' y' d, Inv [] P' w' -> links w' = links w -> Forall adds_only t -> sw_streams w' !! s = Some y' -> added_unread y y' d ->
     (vs_eos_inp y = true -> d = []) -> Q tt w' t P') ->
  does P (write_clients s l) w Q.
Proof.
  induction l as [|a l IH]; intros P w y Q HI Hy Hread Hnd Hl Hmax HQ; cbn [write_clients].
  - apply does_ret. eapply HQ; try done. unfold added_unread. by rewrite app_nil_r, zlen_nil, Z.add_0_r.
  - apply NoDup_cons in Hnd as [Hna Hnd]. destruct (inv_stream _ _ _ _ _ HI Hy) as (z & HS & _). destruct (sl_clients _ _ _ HS a) as (x & Hx & Hs); [apply Hl; set_solver|].
    cbn [pending] in Hmax. rewrite Hx in Hmax. pose proof (pending_nonneg P w l HI).
    apply does_bind. eapply does_write_client; [done|exact Hx|done|exact Hy|done|lia|].
    intros w1 t1 P1 x1 y1 d1 HI1 EL1 Ht1 EC1 Hy1 Hadd1 Hlen1 He1. destruct Hadd1 as (A1 & A2 & A3 & A4) eqn:EA. clear EA.
    assert (EY : vs_clients y1 = vs_clients y /\ vs_access y1 = vs_access y) by (injection A3; intros; split; congruence). destruct EY as [EY1 EY2].
    eapply IH; [done|exact Hy1|unfold has_access in *; by rewrite EY2|done|rewrite EY1; set_solver|rewrite EC1, pending_insert by done; lia|].
    intros w2 t2 P2 y2 d2 HI2 EL2 Ht2 Hy2 Hadd2 He2. eapply HQ; [done|congruence|by apply Forall_app|done|by eapply added_trans|].
    intros Heos. rewrite (He1 Heos), (He2 (A4 Heos)). done.
Qed.

(** ** Taking data *)

(** [does] with data taken before what is done. *)
Lemma does_taken {A} s n P (m : M World A) w (Q : A -> World -> Trace -> Spec -> Prop) :
  does P m w (fun a w' t P' => Forall adds_only t /\ Q a w' t (spec_take s n P')) -> does (spec_take s n P) m w Q.
Proof.
  intros (a & w' & t & P' & E1 & S1 & R1 & Ht & HQ). exists a, w', t, (spec_take s n P'). split_and!; try done. by apply take_commutes.
Qed.

(** Nothing but flags. *)
Lemma inv_same_stream P w s y y' : Inv [] P w -> sw_streams w !! s = Some y -> stream_links y' = stream_links y ->
  vs_data_available_posted y' = vs_data_available_posted y -> vs_space_available_posted y' = vs_space_available_posted y -> stream_data y' = stream_data y ->
  Inv [] P (set_streams (<[s := y']> (sw_streams w)) w) /\ links (set_streams (<[s := y']> (sw_streams w)) w) = links w.
Proof.
  intros HI Hy EL F1 F2 ED. destruct (inv_stream _ _ _ _ _ HI Hy) as (z & HS & Hz & HZ). rewrite <- (on_stream_same P s z Hz) at 1.
  eapply inv_set_stream; try done; [by apply (stream_ok_same z y)| |by left]. intros a x r _ _ _ HR. by apply (reader_ok_same _ r x y).
Qed.

Lemma spec_take_insert s n P z : sp_streams P !! s = Some z -> spec_take s n P = on_stream s (Build_SpecStream (ss_log z) (ss_ended z) (ss_taken z + n)) P.
Proof. intros Hz. unfold spec_take, on_stream. f_equal. apply map_eq. intros s'. destruct (decide (s = s')) as [<-|Hn].
  - by rewrite lookup_alter_eq, lookup_insert_eq, Hz.
  - by rewrite lookup_alter_ne, lookup_insert_ne by done.
Qed.

(** The place of the data is freed. *)
Lemma inv_taken P w s y n : Inv [] P w -> sw_streams w !! s = Some y -> readable y = false -> 0 <= n <= zlen (content y) ->
  let y' := set_buf_out (u64 (vs_buf_out y + n) mod vs_buf_len y) y in
  let w' := set_streams (<[s := y']> (sw_streams w)) w in
  Inv [] (spec_take s n P) w' /\ links w' = links w /\ buf_ok y' /\ content y' = zdrop n (content y).
Proof.
  intros HI Hy Hread Hn y' w'. destruct (inv_stream _ _ _ _ _ HI Hy) as (z & HS & Hz & HZ). destruct (buf_advance_ok y n (so_buf _ _ HZ) Hn) as [HB HC]. fold y' in HB, HC.
  rewrite (spec_take_insert s n P z Hz). apply and_assoc. split; [|done]. apply (inv_set_stream [] [] P w s y y'); try done.
  - destruct (so_log _ _ HZ) as (before & EB & ET). constructor; [done|apply HZ..|]. exists (before ++ ztake n (content y)).
    rewrite HC, <- app_assoc, ztake_zdrop. split; [done|]. intros _. cbn. rewrite zlen_app, zlen_ztake by done. by rewrite ET.
  - intros a x r Hx Hs Hr HR. constructor; try apply HR; change (readable y') with (readable y); by rewrite Hread.
  - by left.
Qed.

Lemma spec_take_0 s P : spec_take s 0 P = P.
Proof.
  destruct (sp_streams P !! s) as [z|] eqn:Hz.
  - rewrite (spec_take_insert s 0 P z Hz), Z.add_0_r. rewrite on_stream_same; [done|]. by destruct z.
  - unfold spec_take. destruct P as [ps pr]. cbn in *. f_equal. apply map_eq. intros s'. destruct (decide (s = s')) as [<-|Hn]; [by rewrite lookup_alter_eq, Hz|by rewrite lookup_alter_ne].
Qed.

Lemma own_adds t : Forall adds_only t -> own t = [].
Proof. induction 1 as [|e t He Ht IH]; [done|]. unfold own. rewrite filter_cons. by destruct e as [| | |[]| | |]. Qed.

Lemma got_accepted P s z y n : sp_streams P !! s = Some z -> stream_ok z y -> readable y = false -> 0 <= n <= zlen (content y) ->
  spec_step P (EGot s (ztake n (content y)) (vs_eos_inp y && (zlen (content y) <=? n))) = Some (spec_take s n P).
Proof.
  intros Hz HZ Hread Hn. destruct (so_log _ _ HZ) as (before & EB & ET). specialize (ET Hread). pose proof (zlen_nonneg before). cbn [spec_step]. rewrite Hz. cbn [mbind option_bind].
  rewrite zlen_ztake by done. rewrite bool_decide_eq_true_2; cbn [andb].
  - rewrite (so_ended _ _ HZ). replace (ss_taken z + n =? zlen (ss_log z)) with (zlen (content y) <=? n) by (rewrite EB, zlen_app; lia).
    rewrite eqb_reflx. by rewrite (spec_take_insert s n P z Hz).
  - rewrite EB, ET. unfold slice. rewrite zdrop_app_ge, Z.sub_diag, zdrop_0 by lia. f_equal. lia.
Qed.

(** The last part of the call: the place of the data is freed. *)
Lemma does_free_taken P w s y n (eos : bool) d (Q : bytes * bool -> World -> Trace -> Spec -> Prop) : Inv [] P w -> sw_streams w !! s = Some y -> readable y = false ->
  vs_ref_cnt y <> 0 -> 0 <= n <= zlen (content y) -> (eos = true -> n = zlen (content y)) ->
  (forall w', Inv [] (spec_take s n P) w' -> Q (d, eos) w' [] (spec_take s n P)) ->
  does (spec_take s n P) ((if 0 <? n then
     change_stream s (fun x => set_buf_out (u64 (vs_buf_out x + n) mod vs_buf_len x) x) ;;
     x ← get_stream s;
     assertm (negb eos || (vs_buf_out x =? vs_buf_inp x)) ;;
     post_space_available s
   else mret tt) ;; mret (d, eos)) w Q.
Proof.
  intros HI Hy Hread Hr Hn Heos HQ. apply does_bind. destruct (Z.ltb_spec 0 n).
  - destruct (inv_taken P w s y n HI Hy Hread Hn) as (HI1 & EL1 & HB & HC). set (y1 := set_buf_out _ y) in *.
    eapply does_change_stream; [exact Hy|]. fold y1. eapply does_stream; [cbn; by rewrite lookup_insert_eq|]. apply does_assert.
    + destruct eos; [|done]. cbn [negb orb]. pose proof (content_len y1 HB) as HL. rewrite HC, zdrop_all, zlen_nil in HL by (rewrite Heos; [lia|done]).
      pose proof (bo_out _ HB). pose proof (bo_inp _ HB). revert HL. zcases; lia.
    + eapply does_post_space; [exact HI1|cbn; by rewrite lookup_insert_eq|done|]. intros w' b HI' _ _ _. by apply does_ret, HQ.
  - assert (n = 0) as -> by lia. rewrite spec_take_0 in *. by apply does_ret, does_ret, HQ.
Qed.

Lemma does_get_data P w s y size (Q : bytes * bool -> World -> Trace -> Spec -> Prop) : Inv [] P w -> sw_streams w !! s = Some y -> readable y = false ->
  vs_ref_cnt y <> 0 -> 0 <= size -> vs_pos y + pending (sw_clients w) (vs_clients y) < 2 ^ 62 ->
  (forall w' t P', let d := ztake size (content y) in let eos := vs_eos_inp y && (zlen (content y) <=? size) in
     Inv [] P' w' -> own t = [EGot s d eos] -> Q (d, eos) w' t P') ->
  does P (virtual_stream_get_data s size) w Q.
Proof.
  intros HI Hy Hread Hr Hsize Hmax HQ. destruct (inv_stream _ _ _ _ _ HI Hy) as (z & HS & Hz & HZ). pose proof (so_buf _ _ HZ) as HB. pose proof (content_max y HB).
  set (n := Z.min size (zlen (content y))). assert (Ed : ztake size (content y) = ztake n (content y)).
  { subst n. destruct (Z.min_spec size (zlen (content y))) as [[? ->]|[? ->]]; [done|]. rewrite !ztake_all; [done|lia|lia]. }
  assert (Ee : zlen (content y) <=? size = (zlen (content y) <=? n)) by (subst n; lia). rewrite Ed, Ee in HQ.
  eapply does_event; [|apply (got_accepted P s z y n Hz HZ Hread); lia|]; [done|].
  set (eos := vs_eos_inp y && (zlen (content y) <=? n)) in *. set (d := ztake n (content y)) in *.
  unfold virtual_stream_get_data. eapply does_stream; [exact Hy|]. rewrite used_len by done. cbv zeta.
  replace (if size <? zlen (content y) then (size, false) else (zlen (content y), vs_eos_inp y)) with (n, eos)
    by (subst eos; rewrite <- Ee; subst n; destruct (Z.ltb_spec size (zlen (content y)));
      [by rewrite Z.min_l, (proj2 (Z.leb_gt _ _)), andb_false_r by lia|by rewrite Z.min_r, (proj2 (Z.leb_le _ _)), andb_true_r by lia]).
  assert (HW : exists w1, (if eos then change_stream s (set_eos_out true) else mret tt) w = (Ok tt, w1) /\ sw_channels w1 = sw_channels w /\
    Inv [] P w1 /\ sw_clients w1 = sw_clients w /\ exists y1, sw_streams w1 !! s = Some y1 /\ stream_data y1 = stream_data y /\ vs_clients y1 = vs_clients y /\ vs_ref_cnt y1 = vs_ref_cnt y).
  { destruct eos; [|exists w; split_and!; try done; by exists y].
    destruct (inv_same_stream P w s y (set_eos_out true y) HI Hy) as [HI1 EL1]; [done..|].
    exists (set_streams (<[s := set_eos_out true y]> (sw_streams w)) w). split; [|split_and!; [done|exact HI1|done|]].
    - unfold change_stream, get_stream. by rewrite bind_assoc, (bind_ok get _ _ _ _ eq_refl), Hy.
    - exists (set_eos_out true y). split; [cbn; by rewrite lookup_insert_eq|done]. }
  destruct HW as (w1 & E1 & Ech & HI1 & ECl & y1 & Hy1 & ED1 & EC1 & ER1). eapply does_then; [exact E1|done|].
  eapply does_option; [apply get_ok; [done|lia]|]. fold d.
  assert (EA : has_access y1 = has_access y /\ content y1 = content y /\ vs_pos y1 = vs_pos y /\ vs_eos_inp y1 = vs_eos_inp y).
  { injection ED1 as EE1 EE2 EE3 EE4 EE5 EE6 EE7. unfold has_access, content. by rewrite EE1, EE2, EE3, EE5, EE6, EE7. }
  destruct EA as (EA1 & EA2 & EA3 & EA4).
  apply does_bind, does_taken. rewrite Hread.
  assert (HF : forall w2 t2 P2 y2 d2, Inv [] P2 w2 -> links w2 = links w1 -> Forall adds_only t2 -> sw_streams w2 !! s = Some y2 -> added_unread y1 y2 d2 -> (vs_eos_inp y1 = true -> d2 = []) ->
    Forall adds_only t2 /\ does (spec_take s n P2) ((if negb false && (0 <? n) then
     change_stream s (fun x => set_buf_out (u64 (vs_buf_out x + n) mod vs_buf_len x) x) ;;
     x ← get_stream s;
     assertm (negb eos || (vs_buf_out x =? vs_buf_inp x)) ;;
     post_space_available s
   else mret tt) ;; mret (d, eos)) w2 (fun b w3 t3 P3 => Q b w3 (EGot s d eos :: t2 ++ t3) P3)).
  { intros w2 t2 P2 y2 d2 HI2 EL2 Ht2 Hy2 (A1 & A2 & A3 & A4) Hd2. split; [done|].
    assert (ER2 : vs_ref_cnt y2 = vs_ref_cnt y1 /\ vs_access y2 = vs_access y1) by (injection A3; intros; split; congruence). destruct ER2 as [ER2 ER3].
    apply (does_free_taken P2 w2 s y2 n eos d); [done|done| |congruence| | |].
    - unfold has_access. rewrite ER3. change (negb (Z.land (vs_access y1) VS_ENABLE_REMOTE_READ =? 0)) with (has_access y1 VS_ENABLE_REMOTE_READ). by rewrite EA1.
    - rewrite A1, zlen_app, EA2. pose proof (zlen_nonneg d2). lia.
    - intros He. subst eos. apply andb_prop in He as [He1 He2]. rewrite A1, Hd2, app_nil_r, EA2 by congruence. lia.
    - intros w3 HI3. apply HQ; [done|]. rewrite app_nil_r. change (own (EGot s d eos :: t2)) with (EGot s d eos :: own t2). by rewrite own_adds. }
  destruct (has_access y VS_ENABLE_REMOTE_WRITE).
  - eapply does_write_clients; [exact HI1|exact Hy1|by rewrite EA1|apply HS|by rewrite EC1|by rewrite EA3, ECl|exact HF].
  - apply does_ret. eapply (HF w1 [] P y1 []); try done. unfold added_unread. by rewrite app_nil_r, zlen_nil, Z.add_0_r.
Qed.
End owner.
