(* ===== verification/StreamsCmd.v ===== *)
(** * Streams service: commands

    Commands find the client of their channel, and are answered or wait. *)

From stdpp Require Import gmap.
From S2P Require Import Prelude Ring Streams JsonWrite JsonBinary StreamsSvc StreamsSpec StreamsInv StreamsRead StreamsLife StreamsOwner.

Section commands.
Context {E Ch : Type} `{InputStream Ch} `{ErrnoSpec E Ch}.

Abbreviation World := (StreamWorld E Ch).
Implicit Types w : World.

(** ** Finding a client *)

Definition client_at w (id c a : Z) : Prop := exists x y, sw_clients w !! a = Some x /\ sw_streams w !! sc_stream x = Some y /\ vs_id y = id /\ sc_channel x = c.

Lemma find_in_bucket_ok P w id c l : Inv [] P w -> (forall a, a ∈ l -> is_Some (sw_clients w !! a)) -> exists r,
  find_in_bucket l id c w = (Ok r, w) /\ match r with Some a => client_at w id c a | None => forall a, a ∈ l -> ~ client_at w id c a end.
Proof.
  intros HI. induction l as [|a l IH]; intros Hl; cbn [find_in_bucket]; [exists None; split; [done|by intros a ?%not_elem_of_nil]|].
  destruct (Hl a) as [x Hx]; [set_solver|]. destruct (inv_client _ _ _ _ _ HI Hx) as (y & z & q & HC & _). pose proof (cl_stream _ _ _ _ HC) as Hy.
  unfold get_client at 1. rewrite bind_assoc, (bind_ok get _ _ _ _ eq_refl), Hx. cbn [of_option]. rewrite ret_bind.
  unfold get_stream at 1. rewrite bind_assoc, (bind_ok get _ _ _ _ eq_refl), Hy. cbn [of_option]. rewrite ret_bind.
  destruct ((vs_id y =? id) && (sc_channel x =? c)) eqn:EC.
  - exists (Some a). split; [done|]. exists x, y. apply andb_prop in EC as [? ?]. split_and!; [done|done|lia|lia].
  - destruct IH as (r & Er & Hr); [set_solver|]. exists r. split; [done|]. destruct r as [b|]; [done|]. intros b [->|Hb]%elem_of_cons; [|by apply Hr].
    intros (x1 & y1 & Hx1 & Hy1 & E1 & E2). simplify_eq. by rewrite !Z.eqb_refl in EC.
Qed.

Lemma str2id_range s n : str2id s = Some n -> in_u 32 n.
Proof. unfold str2id. destruct (skip_prefix _ _); [|done]. destruct (strtoul _) as [m [|]]; [|done]. intros [= <-]. apply wrapu_range. lia. Qed.

Lemma does_set_errno_text P w no text (Q : Z -> World -> Trace -> Spec -> Prop) : Inv [] P w -> STD_ERR_BASE < no < STD_ERR_BASE + 100 -> cstring text ->
  (forall err w', Inv [] P w' -> links w' = links w -> sw_streams w' = sw_streams w -> sw_clients w' = sw_clients w -> err <> 0 -> ei_err (Ch := Ch) (sw_errors w') err -> Q err w' [] P) ->
  does P (set_errno_text no text) w Q.
Proof.
  intros HI Hno Ht HQ. destruct (iv_ends _ _ _ HI) as [He1 He2]. destruct (ei_set (sw_errors w) no text He2 Hno Ht) as (err & e' & E1 & He & Hne & Herr).
  eapply does_step; [unfold set_errno_text; by rewrite E1|done|]. apply HQ; try done. by eapply inv_same.
Qed.

(** The client of the channel with this name of its stream, when there is one. *)
Lemma does_find_client P w id c (Q : Z + Z -> World -> Trace -> Spec -> Prop) : Inv [] P w -> cstring id ->
  (forall a n, str2id id = Some n -> client_at w n c a -> Q (inl a) w [] P) ->
  (forall err w', Inv [] P w' -> links w' = links w -> sw_streams w' = sw_streams w -> sw_clients w' = sw_clients w -> err <> 0 -> ei_err (Ch := Ch) (sw_errors w') err ->
     (forall a n, str2id id = Some n -> ~ client_at w n c a) -> Q (inr err) w' [] P) ->
  does P (find_client id c) w Q.
Proof.
  intros HI Hid HQ1 HQ2. pose proof (iv_linked _ _ _ HI) as HL. destruct (lk_hash _ HL) as [HH1 HH2].
  assert (HF : exists r, (match str2id id with
      | Some n => w ← get; l ← of_option (znth (sw_hash w) (get_client_hash n c)); find_in_bucket l n c
      | None => mret None
      end) w = (Ok r, w) /\ match r with Some a => exists n, str2id id = Some n /\ client_at w n c a | None => forall a n, str2id id = Some n -> ~ client_at w n c a end).
  { destruct (str2id id) as [n|] eqn:En; [|by exists None].
    assert (exists l, znth (sw_hash w) (get_client_hash n c) = Some l) as [l Hl].
    { unfold znth. pose proof (client_hash_range n c). replace (0 <=? _) with true by lia. apply lookup_lt_is_Some. unfold zlen in HH1. lia. }
    destruct (find_in_bucket_ok P w n c l HI) as (r & Er & Hr).
    { intros a Ha. eapply HH2; [|exact Ha]. unfold znth in Hl. destruct (0 <=? _); [|done]. by eapply list_elem_of_lookup_2. }
    exists r. rewrite (bind_ok get _ _ _ _ eq_refl), Hl. cbn [of_option]. rewrite ret_bind. split; [done|]. destruct r as [a|]; [by exists n|].
    intros a n' [= <-] Ha. apply (Hr a); [|done]. destruct Ha as (x & y & Hx & Hy & E1 & E2). destruct (lk_client _ HL _ _ Hx) as (y1 & HC).
    pose proof (cl_stream _ _ _ _ HC). destruct (cl_hash _ _ _ _ HC) as (l' & Hl' & Ha). simplify_eq. done. }
  destruct HF as (r & Er & Hr). unfold find_client. eapply does_then; [exact Er|done|]. destruct r as [a|].
  - destruct Hr as (n & En & Ha). by apply does_ret, HQ1 with n.
  - apply does_bind. eapply does_set_errno_text; [done|done| |].
    + apply Forall_app. split; [|done]. repeat constructor.
    + intros err w' HI' EL ES EC Hne Herr. by apply does_ret, HQ2.
Qed.

(** ** Replies of commands *)

Lemma does_answer P w c token err (Q : unit -> World -> Trace -> Spec -> Prop) : Inv [] P w -> is_Some (sw_channels w !! c) -> cstring token ->
  err = 0 \/ ei_err (Ch := Ch) (sw_errors w) err -> (forall w' t, Inv [] P w' -> Forall is_message t -> Q tt w' t P) ->
  does P (on_out c (send_reply token err)) w Q.
Proof.
  intros HI [ch Hch] Ht Herr HQ. eapply (does_say _ _ _ ch _ MOther); [apply HI|exact Hch| |done|].
  - intros e He -> Hw. destruct Herr as [->|Herr]; [by apply tells_done|by apply tells_reply].
  - intros e ch' He. destruct (inv_say _ _ _ _ _ ch' e HI Hch He) as [HI1 _]. apply HQ; [done|by repeat constructor].
Qed.

(** A token of a message. *)
Definition token_ok (token : bytes) : Prop := cstring token /\ zlen token <= 255.

Lemma token_copy token : token_ok token -> strlcpy256 token = token.
Proof. intros []. by apply ztake_all. Qed.

(** ** Reading *)

(** A client asks, and what it asks for is in the specification, answered or not. *)
Lemma does_ask P w a x y size token (Q : Z -> World -> Trace -> Spec -> Prop) : Inv [] P w -> sw_clients w !! a = Some x ->
  sw_streams w !! sc_stream x = Some y -> readable y = true -> token_ok token -> 0 < size ->
  (forall w' t P', Inv [] P' w' -> Forall is_message t -> Q 0 w' (EAsk a (Build_ReadRequest token size) :: t) P') ->
  does P (if (sc_pos x =? vs_pos y) && negb (vs_eos_inp y) then
        put_client a (set_read_requests (sc_read_requests x ++ [Build_ReadRequest (strlcpy256 token) size]) x) ;; mret 0
      else
        assertm (bool_decide (sc_read_requests x = [])) ;;
        assertm (sc_channel x =? sc_channel x) ;;
        send_read_reply a token size ;;
        advance_stream_buffer (sc_stream x) ;;
        mret 0) w Q.
Proof.
  intros HI Hx Hy Hread Htok Hsize HQ. set (r := Build_ReadRequest token size). assert (Hr : ask_ok r) by (split; [apply Htok|done]).
  destruct (inv_client _ _ _ _ _ HI Hx) as (y1 & z & q & HC & HS & Hz & HZ & Hq & HR). pose proof (cl_stream _ _ _ _ HC). simplify_eq.
  destruct (ro_pos _ _ _ _ HR Hread) as [Eq1 Hpos]. destruct (ro_asks _ _ _ _ HR Hread) as [Eq2 Hasks].
  eapply (does_event _ (EAsk a r) (on_reader a (Build_SpecReader (sr_stream q) (sr_pos q) (sr_asks q ++ [r])) P)); [done|cbn [spec_step]; by rewrite Hq|].
  rewrite token_copy by done. fold r. rewrite Eq2. destruct (_ && _) eqn:EC.
  - apply andb_prop in EC as [EC1 EC2]. eapply does_then; [done|done|]. apply does_ret. apply HQ; [|done].
    apply (inv_set_client [] [] P w a x _ y); try done.
    constructor; [apply HR|apply HR|by rewrite Hread|intros _; exact (conj Eq1 Hpos)|intros _; cbn|intros _; cbn].
    + split; [done|]. apply Forall_app. split; [done|]. by constructor.
    + right. right. split; [lia|]. by destruct (vs_eos_inp y).
  - assert (Hempty : sc_read_requests x = []).
    { destruct (ro_settled _ _ _ _ HR Hread) as [|[?%not_elem_of_nil|[E1 E2]]]; [done|done|]. rewrite E1, E2, Z.eqb_refl in EC. done. }
    apply does_assert; [by rewrite Hempty|]. apply does_assert; [lia|]. rewrite Hempty. cbn [app].
    assert (EW : w = set_clients (<[a := set_read_requests [] x]> (sw_clients w)) w).
    { assert (set_read_requests [] x = x) as -> by (rewrite <- Hempty; by destruct x). rewrite insert_id by done. by destruct w. }
    rewrite EW at 1. apply does_bind.
    eapply (does_reply [] [] P w a x y z q r []); try done; [|by left|].
    { apply andb_false_iff in EC as [EC|EC]; [left; lia|right; by destruct (vs_eos_inp y)]. }
    intros w1 HI1 EL1 ES1 EC1. apply does_bind. pose proof (sl_ref _ _ _ HS) as Href. pose proof (cl_of _ _ _ _ HC) as Hin.
    eapply does_advance; [exact HI1|by rewrite ES1|done| |].
    + pose proof (b2z_range (negb (vs_deleted y))). destruct (vs_clients y); [by apply not_elem_of_nil in Hin|]. rewrite zlen_cons in Href. pose proof (zlen_nonneg l). lia.
    + intros w2 HI2 EL2 EC2. apply does_ret. apply HQ; [done|by repeat constructor].
Qed.

(** The client of the command is found when there is one; otherwise an error is returned. *)
Definition asked w (id : bytes) (c : Z) (r : ReadRequest) (err : Z) w' (t : Trace) : Prop :=
  (err = 0 /\ exists a n msgs, str2id id = Some n /\ client_at w n c a /\ t = EAsk a r :: msgs /\ Forall is_message msgs) \/
  (err <> 0 /\ ei_err (Ch := Ch) (sw_errors w') err /\ t = [] /\
    (err = ERR_UNSUPPORTED \/ forall a n, str2id id = Some n -> ~ client_at w n c a)).

Lemma does_virtual_stream_read P w c token id size (Q : Z -> World -> Trace -> Spec -> Prop) : Inv [] P w -> cstring id -> token_ok token -> 0 < size ->
  (forall err w' t P', Inv [] P' w' -> asked w id c (Build_ReadRequest token size) err w' t -> (err <> 0 -> links w' = links w) -> Q err w' t P') ->
  does P (virtual_stream_read c token id size) w Q.
Proof.
  intros HI Hid Htok Hsize HQ. unfold virtual_stream_read. apply does_bind. apply does_find_client with (1 := HI) (2 := Hid).
  - intros a n En Hat. pose proof Hat as (x & y & Hx & Hy & E1 & E2). eapply does_client; [exact Hx|]. eapply does_stream; [exact Hy|].
    destruct (readable y) eqn:Hread; cbn [negb].
    + rewrite <- E2. eapply does_ask; try done. intros w' t P' HI' Ht. apply HQ; [done| |done]. left. split; [done|]. by exists a, n, t.
    + apply does_ret. apply HQ; [done| |done]. right. split; [done|]. split; [by apply ei_code|]. split; [done|by left].
  - intros err w' HI' EL ES EC Hne Herr Hno. apply does_ret. apply HQ; [done| |done]. right. split_and!; try done. by right.
Qed.

Lemma links_channel w w' c : links w' = links w -> is_Some (sw_channels w !! c) -> is_Some (sw_channels w' !! c).
Proof. intros EL Hc%elem_of_dom. apply elem_of_dom. by rewrite (links_channels _ _ EL). Qed.

Lemma does_answer_read P w token c id size (Q : unit -> World -> Trace -> Spec -> Prop) : Inv [] P w -> is_Some (sw_channels w !! c) -> cstring id -> token_ok token -> 0 < size ->
  (forall w' t P', Inv [] P' w' -> own t = [] -> Q tt w' t P') ->
  does P (answer_read token c id size) w Q.
Proof.
  intros HI Hch Hid Htok Hsize HQ. unfold answer_read. apply does_bind. eapply does_virtual_stream_read; try done.
  intros err w1 t1 P1 HI1 Hasked HL. destruct Hasked as [(-> & a & n & msgs & _ & _ & -> & Ht)|(Hne & Herr & -> & _)].
  - apply does_ret. apply HQ; [done|]. rewrite app_nil_r. change (own (EAsk _ _ :: msgs)) with (own msgs). by apply own_messages.
  - replace (err =? 0) with false by lia. destruct (links_channel _ _ c (HL Hne) Hch) as [ch Hch1].
    eapply (does_say _ _ _ ch _ MOther); [apply HI1|exact Hch1| |done|].
    + intros e He -> Hw. apply tells_read_error; [done..|apply Htok].
    + intros e ch' He. destruct (inv_say _ _ _ _ _ ch' e HI1 Hch1 He) as [HI2 _]. by apply HQ.
Qed.

(** ** The end of what a client writes *)

Lemma linked_ref w s y a : stream_linked w s y -> a ∈ vs_clients y -> vs_ref_cnt y <> 0.
Proof.
  intros HS Hin. pose proof (sl_ref _ _ _ HS) as Href. pose proof (b2z_range (negb (vs_deleted y))).
  destruct (vs_clients y); [by apply not_elem_of_nil in Hin|]. rewrite zlen_cons in Href. pose proof (zlen_nonneg l). lia.
Qed.

Lemma own_add_result a s y buf eos r t : add_result (Some a) s y buf eos r t -> own t = [] /\ (fst r = 0 \/ fst r = ERR_EOF).
Proof.
  intros (msgs & Hm%own_messages & HR). destruct (vs_eos_inp y); destruct HR as [-> ->]; [by auto|].
  split; [|by left]. change (own (EAdd (Some a) s ?d ?e :: msgs)) with (own msgs). done.
Qed.

Lemma does_virtual_stream_eos P w c token id (Q : Z -> World -> Trace -> Spec -> Prop) : Inv [] P w -> is_Some (sw_channels w !! c) -> cstring id -> token_ok token ->
  (forall err w' t P', Inv [] P' w' -> own t = [] -> (err <> 0 -> ei_err (Ch := Ch) (sw_errors w') err /\ links w' = links w) -> Q err w' t P') ->
  does P (virtual_stream_eos c token id) w Q.
Proof.
  intros HI Hch Hid Htok HQ. unfold virtual_stream_eos. apply does_bind. apply does_find_client with (1 := HI) (2 := Hid).
  - intros a n En (x & y & Hx & Hy & E1 & E2). eapply does_client; [exact Hx|]. eapply does_stream; [exact Hy|].
    destruct (has_access y VS_ENABLE_REMOTE_WRITE); cbn [negb]; [|by apply does_ret, HQ; [..|split; [by apply ei_code|]]].
    destruct (inv_client _ _ _ _ _ HI Hx) as (y1 & z & q & HC & HS & Hz & HZ & Hq & HR). pose proof (cl_stream _ _ _ _ HC). simplify_eq.
    case_bool_decide as Hw.
    + apply does_bind. eapply (does_add_data (Some a)); [done|exact Hy|by eapply linked_ref, HC|done|rewrite zlen_nil; pose proof (so_max _ _ HZ); lia|].
      intros [err k] w1 t1 P1 HI1 EL1 HAR _. destruct (own_add_result _ _ _ _ _ _ _ HAR) as [Ho [E0|E0]]; cbn in E0; subst err.
      * apply does_bind. eapply does_answer; [done|by eapply links_channel|apply Htok|by left|]. intros w2 t2 HI2 Ht2. apply does_ret.
        apply HQ; [done| |done]. by rewrite !own_app, Ho, (own_messages t2).
      * apply does_ret. apply HQ; [done|by rewrite !own_app, Ho|]. intros _. split; [by apply ei_code|done].
    + eapply does_then; [done|done|]. apply does_ret. apply HQ; [|done|done].
      rewrite token_copy by done. apply (inv_writes P w a x _ HI Hx). apply Forall_app. split; [apply HR|]. constructor; [|done].
      split; [apply Htok|]. cbn. split; [lia|]. split; [done|constructor].
  - intros err w' HI' EL ES EC Hne Herr Hno. apply does_ret. apply HQ; [done..|]. by intros _.
Qed.

Lemma does_answer_eos P w token c id (Q : unit -> World -> Trace -> Spec -> Prop) : Inv [] P w -> is_Some (sw_channels w !! c) -> cstring id -> token_ok token ->
  (forall w' t P', Inv [] P' w' -> own t = [] -> Q tt w' t P') -> does P (answer_eos token c id) w Q.
Proof.
  intros HI Hch Hid Htok HQ. unfold answer_eos. apply does_bind. eapply does_virtual_stream_eos; try done. intros err w1 t1 P1 HI1 Ht1 Herr.
  destruct (Z.eqb_spec err 0) as [->|Hne]; [apply does_ret, HQ; [done|by rewrite app_nil_r]|]. destruct (Herr Hne) as [He EL].
  eapply does_answer; [done|by eapply links_channel|apply Htok|by right|]. intros w2 t2 HI2 Ht2. apply HQ; [done|by rewrite own_app, Ht1, (own_messages t2)].
Qed.

(** ** Connecting *)

Lemma find_in_streams_ok w n l : (forall s, s ∈ l -> is_Some (sw_streams w !! s)) -> exists r, find_in_streams l n w = (Ok r, w) /\
  match r with
  | Some s => exists y, sw_streams w !! s = Some y /\ vs_deleted y = false /\ vs_id y = n
  | None => forall s y, s ∈ l -> sw_streams w !! s = Some y -> vs_id y = n -> vs_deleted y = true
  end.
Proof.
  induction l as [|s l IH]; intros Hl; cbn [find_in_streams]; [exists None; split; [done|by intros s y ?%not_elem_of_nil]|].
  destruct (Hl s) as [y Hy]; [set_solver|]. unfold get_stream at 1. rewrite bind_assoc, (bind_ok get _ _ _ _ eq_refl), Hy. cbn [of_option]. rewrite ret_bind.
  destruct (_ && _) eqn:EC.
  - apply andb_prop in EC as [EC1 EC2]. exists (Some s). split; [done|]. exists y. split; [done|]. split; [by destruct (vs_deleted y)|lia].
  - destruct IH as (r & Er & Hr); [set_solver|]. exists r. split; [done|]. destruct r as [b|]; [done|]. intros s' y' [->|Hs']%elem_of_cons Hy' Hid; [|by eapply Hr].
    simplify_eq. rewrite Z.eqb_refl in EC. by destruct (vs_deleted y).
Qed.

Lemma does_virtual_stream_connect P w c id (Q : Z -> World -> Trace -> Spec -> Prop) : Inv [] P w -> is_Some (sw_channels w !! c) -> cstring id ->
  (forall err w' t P', Inv [] P' w' -> own t = [] -> is_Some (sw_channels w' !! c) -> err = 0 \/ ei_err (Ch := Ch) (sw_errors w') err -> Q err w' t P') ->
  does P (virtual_stream_connect c id) w Q.
Proof.
  intros HI Hch Hid HQ. unfold virtual_stream_connect. apply does_bind. apply does_find_client with (1 := HI) (2 := Hid).
  - intros a n En Hat. apply does_ret, HQ; auto.
  - intros err w1 HI1 EL1 ES1 EC1 Hne Herr Hno. assert (Hch1 : is_Some (sw_channels w1 !! c)) by by eapply links_channel.
    assert (HF : exists r, virtual_stream_find id w1 = (Ok r, w1) /\ match r with inl s => exists y, sw_streams w1 !! s = Some y /\ vs_deleted y = false | inr e => e = ERR_INV_CONTEXT end).
    { unfold virtual_stream_find. destruct (str2id id) as [n|]; [|by exists (inr ERR_INV_CONTEXT)]. rewrite bind_assoc, (bind_ok get _ _ _ _ eq_refl).
      destruct (find_in_streams_ok w1 n (sw_all_streams w1) (lk_streams _ (iv_linked _ _ _ HI1))) as (r & Er & Hr). rewrite (bind_ok _ _ _ _ _ Er).
      destruct r as [s|]; [|by exists (inr ERR_INV_CONTEXT)]. exists (inl s). split; [done|]. destruct Hr as (y & ? & ? & _). by exists y. }
    destruct HF as (r & Er & Hr). eapply does_then; [exact Er|done|]. destruct r as [s|e].
    + destruct Hr as (y & Hy & Hd). apply does_bind. destruct (inv_stream _ _ _ _ _ HI1 Hy) as (z & HS & _). pose proof (sl_ref _ _ _ HS) as Hr. rewrite Hd in Hr. cbn in Hr. pose proof (zlen_nonneg (vs_clients y)).
      eapply does_create_client; [done|exact Hy|lia|done|]. intros P2 pos a HI2. apply does_ret. apply HQ; [done|done|done|by left].
    + subst e. apply does_ret. apply HQ; [done|done|done|]. right. by apply ei_code.
Qed.

Lemma does_answer_connect P w token c id (Q : unit -> World -> Trace -> Spec -> Prop) : Inv [] P w -> is_Some (sw_channels w !! c) -> cstring id -> token_ok token ->
  (forall w' t P', Inv [] P' w' -> own t = [] -> Q tt w' t P') -> does P (answer_connect token c id) w Q.
Proof.
  intros HI Hch Hid Htok HQ. unfold answer_connect. apply does_bind. eapply does_virtual_stream_connect; try done. intros err w1 t1 P1 HI1 Ht1 Hch1 Herr.
  eapply does_answer; [done|done|apply Htok|done|]. intros w2 t2 HI2 Ht2. apply HQ; [done|by rewrite own_app, Ht1, (own_messages t2)].
Qed.

Lemma does_answer_disconnect P w token c id (Q : unit -> World -> Trace -> Spec -> Prop) : Inv [] P w -> is_Some (sw_channels w !! c) -> cstring id -> token_ok token ->
  (forall w' t P', Inv [] P' w' -> own t = [] -> Q tt w' t P') -> does P (answer_disconnect token c id) w Q.
Proof.
  intros HI Hch Hid Htok HQ. unfold answer_disconnect, virtual_stream_disconnect. apply does_bind, does_bind. apply does_find_client with (1 := HI) (2 := Hid).
  - intros a n En (x & y & Hx & Hy & E1 & E2). apply does_bind. eapply does_delete_client; [done|exact Hx|]. intros w1 t1 P1 HI1 _ ED _ _ Ht1. apply does_ret.
    eapply does_answer; [done|apply elem_of_dom; rewrite ED; by apply elem_of_dom|apply Htok|by left|]. intros w2 t2 HI2 Ht2. apply HQ; [done|].
    rewrite !own_app. change (own (ELeave a :: t1)) with (own t1). by rewrite (own_messages t1), (own_messages t2).
  - intros err w1 HI1 EL1 ES1 EC1 Hne Herr Hno. apply does_ret. eapply does_answer; [done|by eapply links_channel|apply Htok|by right|].
    intros w2 t2 HI2 Ht2. apply HQ; [done|by apply own_messages].
Qed.

(** ** Subscriptions *)

Lemma inv_subscriptions P w l : Inv [] P w -> (forall h, h ∈ l -> is_Some (sw_channels w !! sb_channel h)) -> Inv [] P (set_subscriptions l w).
Proof.
  intros [I1 [L1 L2 L3 L4 L5 L6 L7] I3 I4 I5 I6] Hl. constructor; try done; [|by destruct I3].
  constructor; try done; [intros a x Hx; destruct (L1 a x Hx) as (y1 & []); by exists y1|intros s' y' Hy'; by destruct (L2 s' y' Hy')].
Qed.

Lemma does_answer_subscribe P w token c type (Q : unit -> World -> Trace -> Spec -> Prop) : Inv [] P w -> is_Some (sw_channels w !! c) -> token_ok token ->
  (forall w' t P', Inv [] P' w' -> own t = [] -> Q tt w' t P') -> does P (answer_subscribe token c type) w Q.
Proof.
  intros HI Hch Htok HQ. unfold answer_subscribe, virtual_stream_subscribe. apply does_bind. eapply does_then; [done|done|]. destruct (find_subscription _ _ _).
  - eapply does_set_errno_text; [done|done|repeat constructor|]. intros err w1 HI1 EL1 ES1 EC1 Hne Herr.
    eapply does_answer; [done|by eapply links_channel|apply Htok|by right|]. intros w2 t2 HI2 Ht2. apply HQ; [done|by apply own_messages].
  - eapply does_then; [done|done|]. apply does_ret. eapply does_answer; [|done|apply Htok|by left|].
    + apply inv_subscriptions; [done|]. intros h [->|Hh]%elem_of_cons; [done|by apply (lk_subs _ (iv_linked _ _ _ HI))].
    + intros w2 t2 HI2 Ht2. apply HQ; [done|by apply own_messages].
Qed.

Lemma remove_subscription_ok l c type l' : remove_subscription l c type = Some l' -> forall h, h ∈ l' -> h ∈ l.
Proof.
  revert l'. induction l as [|h l IH]; intros l'; [done|]. cbn. destruct (_ && _); [intros [= ->]; set_solver|].
  destruct (remove_subscription l c type) as [l1|]; [|done]. intros [= <-]. specialize (IH l1 eq_refl). set_solver.
Qed.

Lemma does_answer_unsubscribe P w token c type (Q : unit -> World -> Trace -> Spec -> Prop) : Inv [] P w -> is_Some (sw_channels w !! c) -> token_ok token ->
  (forall w' t P', Inv [] P' w' -> own t = [] -> Q tt w' t P') -> does P (answer_unsubscribe token c type) w Q.
Proof.
  intros HI Hch Htok HQ. unfold answer_unsubscribe, virtual_stream_unsubscribe. apply does_bind. eapply does_then; [done|done|].
  destruct (remove_subscription _ _ _) as [l|] eqn:El.
  - eapply does_then; [done|done|]. apply does_ret. eapply does_answer; [|done|apply Htok|by left|].
    + apply inv_subscriptions; [done|]. intros h Hh%(remove_subscription_ok _ _ _ _ El). by apply (lk_subs _ (iv_linked _ _ _ HI)).
    + intros w2 t2 HI2 Ht2. apply HQ; [done|by apply own_messages].
  - apply does_ret. eapply does_answer; [done|done|apply Htok|right; by apply ei_code|]. intros w2 t2 HI2 Ht2. apply HQ; [done|by apply own_messages].
Qed.
End commands.
