(* ===== verification/StreamsRun.v ===== *)
(** * Streams service: runs

    Whatever the owners of streams and the clients on the channels do: nothing
    fails, and what happens is what [spec_step] accepts.  So every client that reads
    a stream gets the data of the stream from the place where it joined, without a
    gap, and its requests wait only when it has read everything.

    A callback only tells the owner, who acts with operations of its own: what it
    does from within the callback is the same as what it does next. *)

From stdpp Require Import gmap.
From S2P Require Import Prelude Ring Streams JsonWrite JsonBinary StreamsSvc StreamsSpec StreamsInv StreamsRead StreamsLife StreamsOwner StreamsCmd.

(** ** Operations *)

Inductive stream_op :=
| OpCreate (type : bytes) (context_id : option bytes) (buf_len access : Z) (callback : option Z)
| OpAdd (s : Z) (d : bytes) (eos : bool)
| OpGet (s size : Z)
| OpDelete (s : Z)
| OpEvent
| OpSubscribe (c : Z) (token type : bytes)
| OpUnsubscribe (c : Z) (token type : bytes)
| OpRead (c : Z) (token id : bytes) (size : Z)
| OpEos (c : Z) (token id : bytes)
| OpConnect (c : Z) (token id : bytes)
| OpDisconnect (c : Z) (token id : bytes)
| OpClose (c : Z).

Section run.
Context {E Ch : Type} `{InputStream Ch} `{OutputStream Ch} `{ErrnoIf E Ch}.

Abbreviation World := (StreamWorld E Ch).
Abbreviation W := (M World).

Definition told : Z -> Z -> Z -> W unit := fun _ _ _ => mret tt.

(** What the owner sees: what it has added, and what it has got. *)
Definition run_op (op : stream_op) : W Trace :=
  match op with
  | OpCreate type context_id buf_len access callback => virtual_stream_create type context_id buf_len access callback ;; mret []
  | OpAdd s d eos =>
      '(err, n) ← virtual_stream_add_data s d eos;
      mret (if err =? 0 then [EAdd None s (ztake n d) (eos && (zlen d =? n))] else [])
  | OpGet s size => '(d, eos) ← virtual_stream_get_data s size; mret [EGot s d eos]
  | OpDelete s => virtual_stream_delete s ;; mret []
  | OpEvent => run_event told ;; mret []
  | OpSubscribe c token type => answer_subscribe token c type ;; mret []
  | OpUnsubscribe c token type => answer_unsubscribe token c type ;; mret []
  | OpRead c token id size => answer_read token c id size ;; mret []
  | OpEos c token id => answer_eos token c id ;; mret []
  | OpConnect c token id => answer_connect token c id ;; mret []
  | OpDisconnect c token id => answer_disconnect token c id ;; mret []
  | OpClose c => (channel_close_listener c ;; modify (fun w => set_channels (delete c (sw_channels w)) w)) ;; mret []
  end.

Fixpoint run_ops (ops : list stream_op) : W Trace :=
  match ops with [] => mret [] | op :: ops => t ← run_op op; t' ← run_ops ops; mret (t ++ t') end.

(** The stream is the owner's, who takes data only where clients do not read them,
    and positions do not wrap around; requests are for one byte at least.  Channels
    are open; names and tokens are those of messages. *)
Definition owned (w : World) (s : Z) (f : VirtualStream -> Prop) : Prop :=
  match sw_streams w !! s with Some y => vs_deleted y = false /\ f y | None => False end.
Definition from_channel (w : World) (c : Z) (token : bytes) : Prop := is_Some (sw_channels w !! c) /\ token_ok token.

Definition op_ok (w : World) (op : stream_op) : Prop :=
  match op with
  | OpCreate type context_id buf_len _ _ => is_bytes type /\ match context_id with Some c => named c | None => True end /\ 0 <= buf_len < 2 ^ 32
  | OpAdd s d _ => owned w s (fun y => is_bytes d /\ vs_pos y + zlen d < 2 ^ 62)
  | OpGet s size => owned w s (fun y => readable y = false /\ 0 <= size /\ vs_pos y + pending (sw_clients w) (vs_clients y) < 2 ^ 62)
  | OpDelete s => owned w s (fun _ => True)
  | OpEvent | OpClose _ => True
  | OpSubscribe c token _ | OpUnsubscribe c token _ => from_channel w c token
  | OpRead c token id size => from_channel w c token /\ cstring id /\ 0 < size
  | OpEos c token id | OpConnect c token id | OpDisconnect c token id => from_channel w c token /\ cstring id
  end.

Fixpoint ops_ok (ops : list stream_op) (w : World) : Prop :=
  match ops with [] => True | op :: ops => op_ok w op /\ ops_ok ops (snd (run_op op w)) end.
End run.

Definition spec_start : Spec := Build_Spec ∅ ∅ ∅.

Section proofs.
Context {E Ch : Type} `{InputStream Ch} `{ErrnoSpec E Ch}.

Abbreviation World := (StreamWorld E Ch).
Implicit Types w : World.

Lemma inv_start (channels : gmap Z Ch) e : map_Forall (fun _ ch => os_wf ch) channels -> ei_ok (Ch := Ch) e -> Inv [] spec_start (streams_start channels e).
Proof.
  intros Hc He. constructor; cbn; try done.
  - constructor; cbn; try done.
    + split; [constructor|by intros a ?%not_elem_of_nil].
    + by intros s ?%not_elem_of_nil.
    + split; [unfold zlen; by rewrite length_replicate|]. by intros l a ->%elem_of_replicate_inv ?%not_elem_of_nil.
    + by intros h ?%not_elem_of_nil.
  - constructor; cbn; [constructor| |by intros [] ?].
    intros h s. split; [by intros ?%not_elem_of_nil|]. by intros (y & ? & _).
  - split; [by intros ? [? ?]|]. intros a [[? ?]|?]; [done|set_solver].
Qed.

Lemma owner_ref P w s y : Inv [] P w -> sw_streams w !! s = Some y -> vs_deleted y = false -> vs_ref_cnt y <> 0.
Proof.
  intros HI Hy Hd. destruct (inv_stream _ _ _ _ _ HI Hy) as (z & HS & _). pose proof (sl_ref _ _ _ HS) as Hr. rewrite Hd in Hr. cbn in Hr.
  pose proof (zlen_nonneg (vs_clients y)). lia.
Qed.

Lemma does_run_op P w op : Inv [] P w -> op_ok w op -> does P (run_op op) w (fun obs w' t P' => Inv [] P' w' /\ own t = obs).
Proof.
  intros HI Hok. destruct op; cbn [run_op op_ok] in *; try (unfold owned in Hok; destruct (sw_streams w !! s) as [y|] eqn:Hy; [|done]; destruct Hok as [Hd Hok]);
    try (destruct Hok as [[Hch Htok] Hok]); apply does_bind.
  - destruct Hok as (Ht & Hc & Hl). apply does_virtual_stream_create; [done|done|by intros c ->|done|]. intros w' t P' s HI' Ho. apply does_ret. split; [done|]. by rewrite app_nil_r.
  - destruct Hok as [Hb Hmax]. eapply (does_add_data None); [done|exact Hy|by eapply owner_ref|done|done|]. intros [err n] w' t P' HI' _ HAR _.
    apply does_ret. split; [done|]. rewrite app_nil_r. destruct HAR as (msgs & Hm%own_messages & HAR). destruct (vs_eos_inp y); destruct HAR as [[= -> ->] ->]; [done|].
    change (own (EAdd None ?a ?b ?c :: msgs)) with (EAdd None a b c :: own msgs). by rewrite Hm.
  - destruct Hok as (Hread & Hs & Hmax). eapply does_get_data; [done|exact Hy|done|by eapply owner_ref|done|done|]. intros w' t P' d eos HI' Ho. apply does_ret. split; [done|]. by rewrite app_nil_r.
  - eapply does_virtual_stream_delete; [done|exact Hy|done|]. intros w' HI'. by apply does_ret.
  - apply (does_run_event told (fun t => t = [])); [done|done| |].
    + intros f s e P1 w1 y HI1 _ _. by apply does_ret.
    + intros w' t P' HI' ->. by apply does_ret.
  - eapply does_answer_subscribe; [done..|]. intros w' t P' HI' Ho. apply does_ret. split; [done|]. by rewrite app_nil_r.
  - eapply does_answer_unsubscribe; [done..|]. intros w' t P' HI' Ho. apply does_ret. split; [done|]. by rewrite app_nil_r.
  - destruct Hok. eapply does_answer_read; [done..|]. intros w' t P' HI' Ho. apply does_ret. split; [done|]. by rewrite app_nil_r.
  - eapply does_answer_eos; [done..|]. intros w' t P' HI' Ho. apply does_ret. split; [done|]. by rewrite app_nil_r.
  - eapply does_answer_connect; [done..|]. intros w' t P' HI' Ho. apply does_ret. split; [done|]. by rewrite app_nil_r.
  - eapply does_answer_disconnect; [done..|]. intros w' t P' HI' Ho. apply does_ret. split; [done|]. by rewrite app_nil_r.
  - apply does_channel_close; [done|]. intros w' t P' HI' Ho. apply does_ret. split; [done|]. by rewrite app_nil_r.
Qed.

Lemma does_run_ops ops : forall P w, Inv [] P w -> ops_ok ops w -> does P (run_ops ops) w (fun obs w' t P' => Inv [] P' w' /\ own t = obs).
Proof.
  induction ops as [|op ops IH]; intros P w HI Hok; cbn [run_ops]; [by apply does_ret|]. destruct Hok as [Hop Hok].
  apply does_bind. destruct (does_run_op P w op HI Hop) as (obs & w1 & t1 & P1 & E1 & S1 & R1 & HI1 & Ho1). rewrite E1 in Hok. cbn [snd] in Hok.
  exists obs, w1, t1, P1. split_and!; [done..|]. apply does_bind. eapply does_mono; [by apply IH|]. intros obs2 w2 t2 P2 [HI2 Ho2].
  apply does_ret. split; [done|]. by rewrite app_nil_r, own_app, Ho1, Ho2.
Qed.
End proofs.

(** ** What the specification says of a run *)

Definition added_to (s : Z) (e : Ev) : bytes := match e with EAdd _ s' d _ => if s' =? s then d else [] | _ => [] end.
Definition got_from (s : Z) (e : Ev) : bytes := match e with EGot s' d _ => if s' =? s then d else [] | _ => [] end.
Definition sent_to (a : Z) (e : Ev) : bytes := match e with ESay _ (MRead a' _ d _) => if a' =? a then d else [] | _ => [] end.
Definition log (t : Trace) (s : Z) : bytes := mjoin (added_to s <$> t).
Definition taken (t : Trace) (s : Z) : bytes := mjoin (got_from s <$> t).
Definition sent (t : Trace) (a : Z) : bytes := mjoin (sent_to a <$> t).

Lemma log_snoc t e s : log (t ++ [e]) s = log t s ++ added_to s e.
Proof. unfold log. rewrite fmap_app, join_app. cbn. by rewrite app_nil_r. Qed.
Lemma taken_snoc t e s : taken (t ++ [e]) s = taken t s ++ got_from s e.
Proof. unfold taken. rewrite fmap_app, join_app. cbn. by rewrite app_nil_r. Qed.
Lemma sent_snoc t e a : sent (t ++ [e]) a = sent t a ++ sent_to a e.
Proof. unfold sent. rewrite fmap_app, join_app. cbn. by rewrite app_nil_r. Qed.

(** What the state of the specification is, in terms of what has happened. *)
Record recorded (t : Trace) (A : Spec) : Prop := {
  re_stream : forall s z, sp_streams A !! s = Some z -> ss_log z = log t s /\ taken t s = ztake (ss_taken z) (ss_log z) /\ 0 <= ss_taken z <= zlen (ss_log z);
  re_none : forall s, sp_streams A !! s = None -> log t s = [] /\ taken t s = [];
  re_reader : forall a r, sp_readers A !! a = Some r -> exists p, EJoin a (sr_stream r) p ∈ t /\ 0 <= p <= sr_pos r /\ sr_pos r <= zlen (log t (sr_stream r)) /\
    is_Some (sp_streams A !! sr_stream r) /\ sent t a = slice (log t (sr_stream r)) p (sr_pos r);
  re_new : forall a, sp_readers A !! a = None -> a ∉ sp_left A -> sent t a = [];
}.

Lemma slice_add l p i n : 0 <= p <= i -> i + n <= zlen l -> 0 <= n -> slice l p i ++ ztake n (zdrop i l) = slice l p (i + n).
Proof. intros ? ? ?. rewrite <- (slice_app l p i (i + n)) by lia. f_equal. unfold slice. f_equal. lia. Qed.

Lemma slice_longer l k p i : 0 <= p <= i -> i <= zlen l -> slice (l ++ k) p i = slice l p i.
Proof. intros ? ?. unfold slice. rewrite zdrop_app_le by lia. apply ztake_app_le. rewrite zlen_zdrop; lia. Qed.

Lemma ztake_longer (l k : bytes) n : n <= zlen l -> ztake n (l ++ k) = ztake n l.
Proof. apply ztake_app_le. Qed.

Lemma ztake_slice n (l : bytes) : ztake n l = slice l 0 n.
Proof. unfold slice. by rewrite Z.sub_0_r. Qed.

Lemma ztake_own_len (d l : bytes) n : d = ztake n l -> d = ztake (zlen d) l.
Proof.
  intros ->. unfold zlen, ztake. rewrite length_take, Nat2Z.id. destruct (Nat.min_spec (Z.to_nat n) (length l)) as [[? ->]|[? ->]]; [done|].
  by rewrite !take_ge by lia.
Qed.

(** Events that change no data. *)
Lemma recorded_quiet t A A' e : recorded t A -> (forall s, added_to s e = []) -> (forall s, got_from s e = []) -> (forall a, sent_to a e = []) ->
  sp_streams A' = sp_streams A ->
  (forall a r', sp_readers A' !! a = Some r' -> exists r, sp_readers A !! a = Some r /\ sr_stream r' = sr_stream r /\ sr_pos r' = sr_pos r) ->
  (forall a, sp_readers A' !! a = None -> a ∉ sp_left A' -> sp_readers A !! a = None /\ a ∉ sp_left A) -> recorded (t ++ [e]) A'.
Proof.
  intros [R1 R2 R3 R4] H1 H2 H3 ES HR HN. constructor.
  - intros s z. by rewrite ES, log_snoc, taken_snoc, H1, H2, !app_nil_r; apply R1.
  - intros s. rewrite ES, log_snoc, taken_snoc, H1, H2, !app_nil_r. apply R2.
  - intros a r' Hr'. destruct (HR a r' Hr') as (r & Hr & -> & ->). destruct (R3 a r Hr) as (p & Hp & HH). exists p.
    rewrite log_snoc, sent_snoc, H1, H3, !app_nil_r, ES. split; [set_solver|done].
  - intros a Ha Hl. destruct (HN a Ha Hl). rewrite sent_snoc, H3, app_nil_r. by apply R4.
Qed.

Lemma recorded_stream t A s z e : recorded t A -> (forall s', s' <> s -> added_to s' e = [] /\ got_from s' e = []) -> (forall a, sent_to a e = []) ->
  ss_log z = log t s ++ added_to s e -> taken t s ++ got_from s e = ztake (ss_taken z) (ss_log z) -> 0 <= ss_taken z <= zlen (ss_log z) ->
  recorded (t ++ [e]) (on_stream s z A).
Proof.
  intros [R1 R2 R3 R4] HO HS EL ET Hb. constructor.
  - cbn. intros s' z'. rewrite log_snoc, taken_snoc. destruct (decide (s = s')) as [<-|Hn].
    + rewrite lookup_insert_eq. intros [= <-]. done.
    + rewrite lookup_insert_ne by done. destruct (HO s') as [-> ->]; [done|]. rewrite !app_nil_r. apply R1.
  - cbn. intros s'. rewrite log_snoc, taken_snoc. destruct (decide (s = s')) as [<-|Hn]; [by rewrite lookup_insert_eq|].
    rewrite lookup_insert_ne by done. destruct (HO s') as [-> ->]; [done|]. rewrite !app_nil_r. apply R2.
  - intros a r Hr. destruct (R3 a r Hr) as (p & Hp & Hp1 & Hp2 & Hs & Ha). exists p. rewrite log_snoc, sent_snoc, HS, app_nil_r, zlen_app.
    pose proof (zlen_nonneg (added_to (sr_stream r) e)). rewrite slice_longer by done. split; [set_solver|]. split_and!; [lia|lia|lia| |done].
    cbn. apply lookup_insert_is_Some. destruct (decide (s = sr_stream r)); auto.
  - intros a Ha Hl. rewrite sent_snoc, HS, app_nil_r. by apply R4.
Qed.

Lemma recorded_reader t A a r e s z : recorded t A -> (forall s', added_to s' e = []) -> (forall s', got_from s' e = []) -> (forall b, b <> a -> sent_to b e = []) ->
  sp_streams A !! s = Some z -> sr_stream r = s ->
  (exists p, EJoin a s p ∈ t ++ [e] /\ 0 <= p <= sr_pos r /\ sr_pos r <= zlen (log t s) /\ sent t a ++ sent_to a e = slice (log t s) p (sr_pos r)) ->
  recorded (t ++ [e]) (on_reader a r A).
Proof.
  intros [R1 R2 R3 R4] H1 H2 H3 Hz Es (p & Hp & Hp1 & Hp2 & Hs). constructor.
  - intros s' z'. rewrite log_snoc, taken_snoc, H1, H2, !app_nil_r. apply R1.
  - intros s'. rewrite log_snoc, taken_snoc, H1, H2, !app_nil_r. apply R2.
  - cbn. intros b rb. rewrite log_snoc, sent_snoc, H1, app_nil_r. destruct (decide (a = b)) as [<-|Hn].
    + rewrite lookup_insert_eq. intros [= <-]. rewrite Es. exists p. split_and!; try done; lia || by eexists.
    + rewrite lookup_insert_ne by done. intros Hrb. destruct (R3 b rb Hrb) as (q & Hq & HH). exists q. rewrite H3, app_nil_r by done. split; [set_solver|done].
  - cbn. intros b Hb Hl. destruct (decide (a = b)) as [<-|Hn]; [by rewrite lookup_insert_eq in Hb|]. rewrite lookup_insert_ne in Hb by done.
    rewrite sent_snoc, H3, app_nil_r by done. by apply R4.
Qed.

Ltac other_key := cbn; let H := fresh in intros ? H; rewrite ?(proj2 (Z.eqb_neq _ _)) by congruence; done.

Lemma recorded_step t A e A' : recorded t A -> spec_step A e = Some A' -> recorded (t ++ [e]) A'.
Proof.
  intros HR HS. pose proof HR as [R1 R2 R3 R4]. destruct e as [s|a s pos|a|from s d eos|s d eos|a r|c [a token d eos|]]; cbn [spec_step] in HS.
  - destruct (sp_streams A !! s) as [z|] eqn:Hz; [done|]. injection HS as <-. destruct (R2 s Hz) as [E1 E2].
    apply recorded_stream; try done; cbn; by rewrite ?E1, ?E2.
  - destruct (sp_streams A !! s) as [z|] eqn:Hz; [|done]. cbn [mbind option_bind] in HS. destruct (sp_readers A !! a) eqn:Ha; [done|].
    destruct (_ && _) eqn:EC; [|done]. injection HS as <-. apply andb_prop in EC as [[EC1%bool_decide_eq_true EC2]%andb_prop EC3]. destruct (R1 s z Hz) as [E1 _].
    eapply recorded_reader; try done. exists pos. cbn. rewrite (R4 a Ha EC1), slice_nil, <- E1. split; [set_solver|]. split_and!; [lia|lia|lia|done].
  - injection HS as <-. apply (recorded_quiet t A _ _ HR); try done; cbn.
    + intros b r' [_ Hr]%lookup_delete_Some. by exists r'.
    + intros b Hb Hl. split; [|set_solver]. rewrite lookup_delete_ne in Hb by set_solver. done.
  - destruct (sp_streams A !! s) as [z|] eqn:Hz; [|done]. cbn [mbind option_bind] in HS. destruct (ss_ended z); [done|]. injection HS as <-.
    destruct (R1 s z Hz) as (E1 & E2 & E3). pose proof (zlen_nonneg d). apply recorded_stream; cbn; rewrite ?Z.eqb_refl; try done.
    + intros s' Hs'. by replace (s =? s') with false by lia.
    + by rewrite E1.
    + by rewrite app_nil_r, ztake_longer by lia.
    + rewrite zlen_app. lia.
  - destruct (sp_streams A !! s) as [z|] eqn:Hz; [|done]. cbn [mbind option_bind] in HS. destruct (_ && _) eqn:EC; [|done]. injection HS as <-.
    apply andb_prop in EC as [EC1%bool_decide_eq_true EC2]. destruct (R1 s z Hz) as (E1 & E2 & E3). pose proof (zlen_nonneg d).
    assert (E4 : ss_taken z + zlen d <= zlen (ss_log z)).
    { pose proof (zlen_zdrop (ss_taken z) (ss_log z) E3). rewrite EC1 at 1. unfold slice, zlen, ztake. rewrite length_take. unfold zlen in *. lia. }
    apply recorded_stream; cbn; rewrite ?Z.eqb_refl; try done.
    + intros s' Hs'. by replace (s =? s') with false by lia.
    + by rewrite app_nil_r.
    + rewrite E2, EC1 at 1. rewrite !ztake_slice. apply slice_app; lia.
    + lia.
  - destruct (sp_readers A !! a) as [x|] eqn:Hx; [|done]. injection HS as <-. apply (recorded_quiet t A _ _ HR); try done; cbn.
    + intros b r'. destruct (decide (a = b)) as [<-|Hn]; [rewrite lookup_insert_eq; intros [= <-]; by exists x|rewrite lookup_insert_ne by done; eauto].
    + intros b Hb Hl. split; [|done]. destruct (decide (a = b)) as [<-|Hn]; [by rewrite lookup_insert_eq in Hb|by rewrite lookup_insert_ne in Hb].
  - destruct (sp_readers A !! a) as [x|] eqn:Hx; [|done]. cbn [mbind option_bind] in HS. destruct (sp_streams A !! sr_stream x) as [z|] eqn:Hz; [|done]. cbn [mbind option_bind] in HS.
    destruct (sr_asks x) as [|r rest]; [done|]. destruct (_ && _) eqn:EC; [|done]. injection HS as <-.
    apply andb_prop in EC as [[[EC1%bool_decide_eq_true EC2%bool_decide_eq_true]%andb_prop EC3]%andb_prop EC4].
    destruct (R1 _ z Hz) as (E1 & _ & _). destruct (R3 a x Hx) as (p & Hp & Hp1 & Hp2 & _ & Hs). pose proof (zlen_nonneg d). rewrite E1 in EC2.
    assert (E4 : sr_pos x + zlen d <= zlen (log t (sr_stream x))).
    { pose proof (zlen_zdrop (sr_pos x) (log t (sr_stream x)) ltac:(lia)). rewrite EC2. unfold zlen, ztake. rewrite length_take. unfold zlen in *. lia. }
    eapply recorded_reader; try done.
    + intros b Hb. cbn. by replace (a =? b) with false by lia.
    + exists p. cbn. rewrite Z.eqb_refl, Hs. split; [set_solver|]. split_and!; [lia|lia|lia|]. rewrite <- slice_add by lia. f_equal.
      by eapply ztake_own_len.
  - injection HS as <-. apply (recorded_quiet t A _ _ HR); try done. eauto.
Qed.

Lemma recorded_run t A : spec_run spec_start t = Some A -> recorded t A.
Proof.
  revert A. induction t as [|e t IH] using rev_ind; intros A.
  - intros [= <-]. constructor; try done; intros; by rewrite ?lookup_empty in *.
  - intros HR. assert (exists A1, spec_run spec_start t = Some A1 /\ spec_step A1 e = Some A) as (A1 & R1 & HS).
    { clear IH. revert HR. generalize spec_start. induction t as [|e' t IHt]; intros A0; cbn; [destruct (spec_step A0 e) eqn:E1; [intros [= <-]; by exists A0|done]|].
      destruct (spec_step A0 e') as [A2|]; [apply IHt|done]. }
    eapply recorded_step; [by apply IH|done].
Qed.

(** Nothing is added after the end. *)
Lemma ended_step A e A' s z : spec_step A e = Some A' -> sp_streams A !! s = Some z -> ss_ended z = true ->
  added_to s e = [] /\ exists z', sp_streams A' !! s = Some z' /\ ss_ended z' = true.
Proof.
  intros HS Hz He. destruct e as [s'|a s' pos|a|from s' d eos|s' d eos|a r|c [a token d eos|]]; cbn [spec_step added_to] in *.
  - destruct (sp_streams A !! s') eqn:Hz'; [done|]. injection HS as <-. split; [done|]. exists z. cbn. rewrite lookup_insert_ne; [done|]. intros ->. congruence.
  - destruct (sp_streams A !! s'); [|done]. cbn in HS. destruct (sp_readers A !! a); [done|]. destruct (_ && _); [|done]. injection HS as <-. split; [done|]. by exists z.
  - injection HS as <-. split; [done|]. by exists z.
  - destruct (sp_streams A !! s') as [z'|] eqn:Hz'; [|done]. cbn in HS. destruct (ss_ended z') eqn:He'; [done|]. injection HS as <-.
    assert (s' <> s) by congruence. replace (s' =? s) with false by lia. split; [done|]. exists z. cbn. by rewrite lookup_insert_ne.
  - destruct (sp_streams A !! s') as [z'|] eqn:Hz'; [|done]. cbn in HS. destruct (_ && _); [|done]. injection HS as <-. split; [done|]. cbn.
    destruct (decide (s' = s)) as [->|Hn]; [rewrite lookup_insert_eq; simplify_eq; by eexists|rewrite lookup_insert_ne by done; by exists z].
  - destruct (sp_readers A !! a); [|done]. injection HS as <-. split; [done|]. by exists z.
  - destruct (sp_readers A !! a) as [x|]; [|done]. cbn in HS. destruct (sp_streams A !! sr_stream x); [|done]. cbn in HS. destruct (sr_asks x); [done|].
    destruct (_ && _); [|done]. injection HS as <-. split; [done|]. by exists z.
  - injection HS as <-. split; [done|]. by exists z.
Qed.

Lemma ended_run t : forall A A' s z, spec_run A t = Some A' -> sp_streams A !! s = Some z -> ss_ended z = true -> log t s = [].
Proof.
  induction t as [|e t IH]; intros A A' s z HR Hz He; [done|]. cbn in HR. destruct (spec_step A e) as [A1|] eqn:E1; [|done].
  destruct (ended_step _ _ _ _ _ E1 Hz He) as (Ha & z' & Hz' & He'). unfold log. cbn. rewrite Ha. by eapply IH.
Qed.

Lemma spec_run_split A t1 e t2 A' : spec_run A (t1 ++ e :: t2) = Some A' -> exists A1 A2, spec_run A t1 = Some A1 /\ spec_step A1 e = Some A2 /\ spec_run A2 t2 = Some A'.
Proof.
  revert A. induction t1 as [|e1 t1 IH]; intros A; cbn.
  - destruct (spec_step A e) as [A2|] eqn:E1; [|done]. intros HR. by exists A, A2.
  - destruct (spec_step A e1) as [A3|] eqn:E1; [|done]. apply IH.
Qed.

(** A client that is told the end has got everything. *)
Lemma told_end t A t1 c a token d t2 : spec_run spec_start t = Some A -> t = t1 ++ ESay c (MRead a token d true) :: t2 -> exists s p,
  EJoin a s p ∈ t1 /\ sent t1 a ++ d = zdrop p (log t s).
Proof.
  intros HR ->. destruct (spec_run_split _ _ _ _ _ HR) as (A1 & A2 & R1 & HS & R2). pose proof (recorded_run _ _ R1) as [Q1 _ Q3 _]. pose proof HS as HS'. cbn [spec_step] in HS.
  destruct (sp_readers A1 !! a) as [x|] eqn:Hx; [|done]. cbn [mbind option_bind] in HS. destruct (sp_streams A1 !! sr_stream x) as [z|] eqn:Hz; [|done]. cbn [mbind option_bind] in HS.
  destruct (sr_asks x) as [|r rest]; [done|]. destruct (_ && _) eqn:EC; [|done]. clear HS.
  apply andb_prop in EC as [[[EC1 EC2%bool_decide_eq_true]%andb_prop EC3]%andb_prop EC4]. apply Bool.eqb_prop in EC3. symmetry in EC3. apply andb_prop in EC3 as [EC5 EC6].
  destruct (Q1 _ z Hz) as (E1 & _ & _). destruct (Q3 a x Hx) as (p & Hp & Hp1 & Hp2 & _ & Hs). exists (sr_stream x), p. split; [done|].
  assert (EL : log (t1 ++ ESay c (MRead a token d true) :: t2) (sr_stream x) = log t1 (sr_stream x)).
  { destruct (ended_step _ _ _ _ _ HS' Hz EC5) as (_ & z' & Hz' & He'). change (?u :: t2) with ([u] ++ t2). rewrite app_assoc. unfold log. rewrite fmap_app, join_app.
    fold (log t2 (sr_stream x)). rewrite (ended_run _ _ _ _ _ R2 Hz' He'), app_nil_r. apply (eq_trans (log_snoc _ _ _)). cbn. by rewrite app_nil_r. }
  rewrite EL, Hs, EC2, E1. pose proof (zlen_nonneg d). rewrite E1 in *. rewrite <- EC2, (ztake_own_len d _ _ EC2), slice_add by lia. unfold slice. apply ztake_all.
  rewrite zlen_zdrop; lia.
Qed.

Lemma owner_end t A t1 s d t2 : spec_run spec_start t = Some A -> t = t1 ++ EGot s d true :: t2 -> taken (t1 ++ [EGot s d true]) s = log t s.
Proof.
  intros HR ->. destruct (spec_run_split _ _ _ _ _ HR) as (A1 & A2 & R1 & HS & R2). pose proof (recorded_step _ _ _ _ (recorded_run _ _ R1) HS) as [Q1 _ _ _].
  pose proof HS as HS'. cbn [spec_step] in HS. destruct (sp_streams A1 !! s) as [z|] eqn:Hz; [|done]. cbn [mbind option_bind] in HS.
  destruct (_ && _) eqn:EC; [|done]. injection HS as <-. apply andb_prop in EC as [_ EC%Bool.eqb_prop]. symmetry in EC. apply andb_prop in EC as [EC1 EC2].
  destruct (ended_step _ _ _ _ _ HS' Hz EC1) as (_ & z' & Hz' & He'). destruct (Q1 s z' Hz') as (E1 & E2 & _). cbn in Hz'. rewrite lookup_insert_eq in Hz'. injection Hz' as <-. cbn in *.
  rewrite E2, ztake_all by lia. rewrite E1. change (?u :: t2) with ([u] ++ t2). rewrite app_assoc. unfold log at 2. rewrite fmap_app, join_app. fold (log t2 s).
  assert (HL : log t2 s = []); [|by rewrite HL, app_nil_r].
  eapply ended_run; [exact R2|cbn; by rewrite lookup_insert_eq|done].
Qed.

Lemma taken_own t s : taken (own t) s = taken t s.
Proof.
  induction t as [|e t IH]; [done|]. unfold own, taken in *. rewrite filter_cons. rewrite fmap_cons, mjoin_cons. destruct (decide (is_own e = true)) as [He|He].
  - by rewrite fmap_cons, mjoin_cons, IH.
  - rewrite IH. by destruct e.
Qed.

Lemma own_split t o1 e o2 : own t = o1 ++ e :: o2 -> exists t1 t2, t = t1 ++ e :: t2 /\ own t1 = o1 /\ own t2 = o2.
Proof.
  revert o1. induction t as [|e' t IH]; intros o1 E; [by destruct o1|]. unfold own in *. rewrite filter_cons in E. destruct (decide (is_own e' = true)) as [He|He].
  - destruct o1 as [|e1 o1]; cbn in E; injection E as -> E.
    + exists [], t. split_and!; done.
    + destruct (IH o1 E) as (t1 & t2 & -> & <- & <-). exists (e1 :: t1), t2. rewrite filter_cons_True by done. done.
  - destruct (IH o1 E) as (t1 & t2 & -> & <- & <-). exists (e' :: t1), t2. rewrite filter_cons_False by done. done.
Qed.

(** ** What a run of the service does *)

Section theorems.
Context {E Ch : Type} `{InputStream Ch} `{ErrnoSpec E Ch}.
Context (channels : gmap Z Ch) (e : E) (ops : list stream_op).
Abbreviation start := (streams_start channels e).

Lemma run_does : map_Forall (fun _ ch => os_wf ch) channels -> ei_ok (Ch := Ch) e -> ops_ok ops start ->
  does spec_start (run_ops ops) start (fun obs w' t A => Inv [] A w' /\ own t = obs).
Proof. intros Hc He Hok. apply does_run_ops; [by apply inv_start|done]. Qed.



End theorems.

(** ** An example *)

(** A channel that keeps what is written, next to plain errors. *)
Record Wire := { wi_out : list Z }.

#[export] Instance wire_OutputStream : OutputStream Wire := {
  os_supports_zero_copy _ := false;
  os_cur_null _ := true;
  os_space _ := 0;
  os_store l s := (Ok tt, Build_Wire (wi_out s ++ l));
  os_write b s := (Ok tt, Build_Wire (wi_out s ++ [b]));
  os_write_block l s := (Ok tt, Build_Wire (wi_out s ++ l));
}.

#[export] Program Instance wire_OutputStreamSpec : OutputStreamSpec Wire := {
  os_wf _ := True;
  os_data := wi_out;
  os_symbol b := b < 256;
}.
Next Obligation. by intros b [? ?]. Qed.
Next Obligation. done. Qed.
Next Obligation. done. Qed.
Next Obligation. intros s l _ _ _ _. by eexists. Qed.
Next Obligation. intros s b _ _. by eexists. Qed.
Next Obligation. intros s l _ _. by eexists. Qed.

#[export] Instance wire_InputStream : InputStream Wire := {
  is_window _ := [];
  is_advance s := s;
  is_read := mret MARKER_EOS;
  is_peek := mret MARKER_EOS;
  is_fuel _ := 0%nat;
}.

#[export] Instance plain_errors : ErrnoIf unit Wire := {
  set_fmt_errno no _ := mret no;
  write_errno err '(e, ch) := (Ok tt, (e, Build_Wire (wi_out ch ++ (if err =? 0 then [0] else dec_text err ++ [0]))));
}.

#[export] Program Instance plain_ErrnoSpec : ErrnoSpec unit Wire := {
  ei_ok _ := True;
  ei_err _ n := 0 < n < 2 ^ 32;
}.
Next Obligation. done. Qed.
Next Obligation. cbn. unfold STD_ERR_BASE. intros _ n ?. lia. Qed.
Next Obligation. intros [] no text _ Hno _. exists no, tt. unfold STD_ERR_BASE in *. split_and!; try done; lia. Qed.
Next Obligation. intros [] ch _ _. by eexists. Qed.
Next Obligation. intros [] ch err _ _ _. by eexists _, _, _. Qed.

(** Operations can be tried. *)
#[export] Instance named_dec l : Decision (named l).
Proof. unfold named, is_byte. apply _. Defined.
#[export] Instance token_ok_dec l : Decision (token_ok l).
Proof. unfold token_ok, cstring. apply _. Defined.
#[export] Instance owned_dec {E Ch} (w : StreamWorld E Ch) s f `{!forall y, Decision (f y)} : Decision (owned w s f).
Proof. unfold owned. destruct (sw_streams w !! s); apply _. Defined.
#[export] Instance op_ok_dec {E Ch} (w : StreamWorld E Ch) op : Decision (op_ok w op).
Proof.
  destruct op as [? [] | | | | | | | | | | |]; cbn [op_ok]; unfold from_channel, cstring, is_byte; apply _.
Defined.
#[export] Instance ops_ok_dec {E Ch} `{InputStream Ch} `{OutputStream Ch} `{!ErrnoIf E Ch} ops (w : StreamWorld E Ch) : Decision (ops_ok ops w).
Proof. revert w. induction ops as [|op ops IH]; intros w; cbn [ops_ok]; apply _. Defined.

(** Two channels subscribe to streams of a type; one reads before there are data,
    the other one afterwards and up to the end. *)
Definition example_ops : list stream_op := [
  OpSubscribe 1 (str "1") (str "Console"); OpSubscribe 2 (str "2") (str "Console");
  OpCreate (str "Console") None 4 VS_ENABLE_REMOTE_READ None;
  OpRead 1 (str "3") (str "VS0") 10; OpRead 1 (str "4") (str "VS0") 3;
  OpAdd 1 (str "abc") false; OpAdd 1 (str "defg") false; OpRead 2 (str "5") (str "VS0") 2;
  OpRead 2 (str "6") (str "VS0") 10; OpEvent; OpAdd 1 (str "g") true; OpRead 1 (str "7") (str "VS0") 10;
  OpRead 2 (str "8") (str "VS0") 10; OpDelete 1; OpDisconnect 2 (str "9") (str "VS0"); OpClose 1; OpEvent; OpEvent].

Definition example_channels : gmap Z Wire := {[1 := Build_Wire []; 2 := Build_Wire []]}.
Definition example_start : StreamWorld unit Wire := streams_start example_channels tt.

(** A stream that its owner reads: what does not fit waits for room. *)
Definition example_owner_ops : list stream_op := [
  OpSubscribe 1 (str "1") (str "Console");
  OpCreate (str "Console") None 4 VS_ENABLE_REMOTE_WRITE (Some 0);
  OpAdd 1 (str "abcdef") false; OpGet 1 2; OpAdd 1 (str "ef") true; OpEos 1 (str "2") (str "VS0"); OpEvent; OpGet 1 10; OpEvent; OpDelete 1; OpEvent].

Example example_runs : fst (run_ops example_owner_ops example_start) =
  Ok [EAdd None 1 (str "abcd") false; EGot 1 (str "ab") false; EAdd None 1 (str "ef") true; EGot 1 (str "cdef") true].
Proof. by vm_compute. Qed.

Lemma example_channels_ok : map_Forall (fun _ ch => os_wf ch) example_channels.
Proof. by intros c ch _. Qed.

Lemma example_errors_ok : ei_ok (E := unit) (Ch := Wire) tt.
Proof. exact I. Qed.



