(* ===== verification/Registers.v ===== *)
(** * Registers and stack frames (cpudefs.c, cpudefs-ext.h)

    Definitions of registers, the registers of a stack frame, and access to both.
    The registers of the top frame and the memory are those of the context: its
    operations (context.h) are the interface [ContextIf].  In the other frames a
    register has the value that the stack trace has given it: a frame keeps an
    image of the registers and a mask of the bytes that are known. *)

From S2P Require Import Prelude ByteSource.

(** ** Data *)

(** [rd_id] is the position in the array of all definitions. *)
Record RegisterDefinition := {
  rd_id : Z;
  rd_offset : Z;
  rd_size : Z;
  rd_dwarf_id : Z;
  rd_eh_frame_id : Z;
  rd_big_endian : bool;
}.

#[export] Instance RegisterDefinition_eq_dec : EqDecision RegisterDefinition.
Proof. solve_decision. Defined.

Record LocationPiece := {
  lp_optimized_away : bool;
  lp_addr : Z;
  lp_reg : option RegisterDefinition;
  lp_value : option bytes;
  lp_size : Z;
  lp_bit_offs : Z;
  lp_bit_size : Z;
  lp_implicit_pointer : Z;
}.

(** [SysRegisterData]: the image of the registers, and 255 where it is known. *)
Record SysRegisterData := {
  rg_data : bytes;
  rg_mask : bytes;
}.

(** A line of the source: names and numbers, which are only copied here. *)
Record CodeArea := {
  ca_directory : option bytes;
  ca_file : option bytes;
  ca_numbers : list Z;
}.

Record StackFrame := {
  sf_frame : Z;
  sf_is_top_frame : bool;
  sf_is_walked : bool;
  sf_has_reg_data : bool;
  sf_inlined : Z;
  sf_area : option CodeArea;
  sf_func_id : option bytes;
  sf_fp : Z;
  sf_regs : option SysRegisterData;
}.

Definition set_sf_frame (x : Z) (f : StackFrame) : StackFrame :=
  Build_StackFrame x (sf_is_top_frame f) (sf_is_walked f) (sf_has_reg_data f) (sf_inlined f) (sf_area f) (sf_func_id f) (sf_fp f) (sf_regs f).
Definition set_sf_is_walked (x : bool) (f : StackFrame) : StackFrame :=
  Build_StackFrame (sf_frame f) (sf_is_top_frame f) x (sf_has_reg_data f) (sf_inlined f) (sf_area f) (sf_func_id f) (sf_fp f) (sf_regs f).
Definition set_sf_has_reg_data (x : bool) (f : StackFrame) : StackFrame :=
  Build_StackFrame (sf_frame f) (sf_is_top_frame f) (sf_is_walked f) x (sf_inlined f) (sf_area f) (sf_func_id f) (sf_fp f) (sf_regs f).
Definition set_sf_inlined (x : Z) (f : StackFrame) : StackFrame :=
  Build_StackFrame (sf_frame f) (sf_is_top_frame f) (sf_is_walked f) (sf_has_reg_data f) x (sf_area f) (sf_func_id f) (sf_fp f) (sf_regs f).
Definition set_sf_area (x : option CodeArea) (f : StackFrame) : StackFrame :=
  Build_StackFrame (sf_frame f) (sf_is_top_frame f) (sf_is_walked f) (sf_has_reg_data f) (sf_inlined f) x (sf_func_id f) (sf_fp f) (sf_regs f).
Definition set_sf_func_id (x : option bytes) (f : StackFrame) : StackFrame :=
  Build_StackFrame (sf_frame f) (sf_is_top_frame f) (sf_is_walked f) (sf_has_reg_data f) (sf_inlined f) (sf_area f) x (sf_fp f) (sf_regs f).
Definition set_sf_fp (x : Z) (f : StackFrame) : StackFrame :=
  Build_StackFrame (sf_frame f) (sf_is_top_frame f) (sf_is_walked f) (sf_has_reg_data f) (sf_inlined f) (sf_area f) (sf_func_id f) x (sf_regs f).
Definition set_sf_regs (x : option SysRegisterData) (f : StackFrame) : StackFrame :=
  Build_StackFrame (sf_frame f) (sf_is_top_frame f) (sf_is_walked f) (sf_has_reg_data f) (sf_inlined f) (sf_area f) (sf_func_id f) (sf_fp f) x.

(** After [memset(frame, 0, sizeof(StackFrame))]. *)
Definition empty_frame : StackFrame := Build_StackFrame 0 false false false 0 None None 0 None.

(** ** The context

    A context that is being debugged, of type [T]; [inr] and [Some] are error
    numbers. *)
Class ContextIf (T : Type) := {
  context_has_state : bool;
  ctx_read_mem : Z -> Z -> T -> bytes + Z;
  ctx_write_mem : Z -> bytes -> T -> option Z * T;
  ctx_read_reg : RegisterDefinition -> Z -> Z -> T -> bytes + Z;
  ctx_write_reg : RegisterDefinition -> Z -> bytes -> T -> option Z * T;
  regs_index : list RegisterDefinition;
  reg_set_size : Z;
  get_PC_definition : option RegisterDefinition;
}.

Arguments context_has_state T {ContextIf}.
Arguments regs_index T {ContextIf}.
Arguments reg_set_size T {ContextIf}.
Arguments get_PC_definition T {ContextIf}.

(** A context and one of its frames, [None] for NULL. *)
Record Cpu (T : Type) := {
  cpu_ctx : T;
  cpu_frame : option StackFrame;
}.
Arguments Build_Cpu {T}.
Arguments cpu_ctx {T}.
Arguments cpu_frame {T}.

Definition raise_result {S A} (r : A + Z) : M S A :=
  match r with inl a => mret a | inr e => exception e end.

(** [REGNUM_DWARF], [REGNUM_EH_FRAME]. *)
Definition REGNUM_DWARF : Z := 1.
Definition REGNUM_EH_FRAME : Z := 2.

(** ** The numbers of registers *)

(** [map_length] and [map] of [get_sys_reg_by_dwarf_id] and
    [get_sys_reg_by_eh_frame_id]: the loops over all definitions. *)
Definition reg_map_length (id_of : RegisterDefinition -> Z) (l : list RegisterDefinition) : Z :=
  fold_left (fun len r => if len <=? id_of r then id_of r + 1 else len) l 0.

Definition reg_map (id_of : RegisterDefinition -> Z) (l : list RegisterDefinition) : list (option RegisterDefinition) :=
  fold_left (fun map r => if 0 <=? id_of r then <[Z.to_nat (id_of r) := Some r]> map else map) l
    (replicate (Z.to_nat (reg_map_length id_of l)) None).

Definition get_sys_reg (id_of : RegisterDefinition -> Z) (l : list RegisterDefinition) (id : Z) : option RegisterDefinition :=
  if id <? reg_map_length id_of l then mjoin (znth (reg_map id_of l) id) else None.

(** [bytes] of a value, the lowest byte first: [buf[i] = (uint8_t)value; value >>= 8]. *)
Fixpoint store_bytes (n : nat) (value : Z) : bytes :=
  match n with O => [] | S n => u8 value :: store_bytes n (Z.shiftr value 8) end.

Definition reg_bytes (r : RegisterDefinition) (value : Z) : bytes :=
  let l := store_bytes (Z.to_nat (rd_size r)) value in if rd_big_endian r then reverse l else l.

Definition reg_value (r : RegisterDefinition) (buf : bytes) : Z :=
  be_value (if rd_big_endian r then buf else reverse buf).

Section registers.
Context {T : Type} `{!ContextIf T}.

Definition get_reg_by_id (id id_type : Z) : option RegisterDefinition :=
  if context_has_state T then
    if id_type =? REGNUM_DWARF then get_sys_reg rd_dwarf_id (regs_index T) id
    else if id_type =? REGNUM_EH_FRAME then get_sys_reg rd_eh_frame_id (regs_index T) id
    else None
  else None.

(** ** Bytes of a register *)

Fixpoint mask_known (mask : bytes) (i : Z) (n : nat) : M (Cpu T) unit :=
  match n with
  | O => mret tt
  | S n => m ← of_option (znth mask i); if m =? 255 then mask_known mask (i + 1) n else exception ERR_OTHER
  end.

Definition read_reg_bytes (reg : option RegisterDefinition) (offs size : Z) : M (Cpu T) bytes :=
  s ← get;
  match reg, cpu_frame s with
  | Some r, Some f =>
      if sf_is_top_frame f then raise_result (ctx_read_reg r offs size (cpu_ctx s))
      else
        match sf_regs f with
        | Some d =>
            mask_known (rg_mask d) (rd_offset r + offs) (Z.to_nat size) ;;
            assertm (rd_offset r + rd_size r <=? reg_set_size T) ;;
            if rd_size r <? u32 (offs + size) then exception ERR_INV_DATA_SIZE
            else of_option (mem_read (rg_data d) (rd_offset r + offs) size)
        | None => exception ERR_INV_CONTEXT
        end
  | _, _ => exception ERR_INV_CONTEXT
  end.

Definition put_frame (f : StackFrame) : M (Cpu T) unit := modify (fun s => Build_Cpu (cpu_ctx s) (Some f)).

(** A change of the context that can fail. *)
Definition change_context (f : T -> option Z * T) : M (Cpu T) unit := fun s =>
  match f (cpu_ctx s) with
  | (None, t) => (Ok tt, Build_Cpu t (cpu_frame s))
  | (Some e, t) => (Exc e, Build_Cpu t (cpu_frame s))
  end.

Definition zero_bytes (n : Z) : bytes := replicate (Z.to_nat n) 0.

Definition write_reg_bytes (reg : option RegisterDefinition) (offs : Z) (buf : bytes) : M (Cpu T) unit :=
  s ← get;
  match reg, cpu_frame s with
  | Some r, Some f =>
      if sf_is_top_frame f then change_context (ctx_write_reg r offs buf)
      else
        let f :=
          match sf_regs f with
          | None =>
              if context_has_state T
              then set_sf_regs (Some (Build_SysRegisterData (zero_bytes (reg_set_size T)) (zero_bytes (reg_set_size T)))) f
              else f
          | Some _ => f
          end in
        put_frame f ;;
        match sf_regs f with
        | Some d =>
            assertm (rd_offset r + rd_size r <=? reg_set_size T) ;;
            if rd_size r <? u32 (offs + zlen buf) then exception ERR_INV_DATA_SIZE
            else
              data ← of_option (mem_write (rg_data d) (rd_offset r + offs) buf);
              mask ← of_option (mem_write (rg_mask d) (rd_offset r + offs) (replicate (length buf) 255));
              put_frame (set_sf_regs (Some (Build_SysRegisterData data mask)) f)
        | None => exception ERR_INV_CONTEXT
        end
  | _, _ => exception ERR_INV_CONTEXT
  end.

(** ** Values of registers *)

Definition read_reg_value (reg : option RegisterDefinition) : M (Cpu T) Z :=
  s ← get;
  match reg, cpu_frame s with
  | Some r, Some _ =>
      if 8 <? rd_size r then exception ERR_INV_DATA_SIZE
      else buf ← read_reg_bytes (Some r) 0 (rd_size r); mret (reg_value r buf)
  | _, _ => exception ERR_INV_CONTEXT
  end.

(** [if (!frame->is_top_frame) frame->has_reg_data = 1] *)
Definition mark_reg_data : M (Cpu T) unit :=
  modify (fun s => Build_Cpu (cpu_ctx s)
    ((fun f => if sf_is_top_frame f then f else set_sf_has_reg_data true f) <$> cpu_frame s)).

Definition write_reg_value (reg : option RegisterDefinition) (value : Z) : M (Cpu T) unit :=
  s ← get;
  match reg, cpu_frame s with
  | Some r, Some _ =>
      if 8 <? rd_size r then exception ERR_INV_DATA_SIZE
      else write_reg_bytes (Some r) 0 (reg_bytes r value) ;; mark_reg_data
  | _, _ => exception ERR_INV_CONTEXT
  end.

(** ** The program counter of the context *)

Definition get_PC : M (Cpu T) Z :=
  s ← get;
  match get_PC_definition T with
  | None => exception ERR_OTHER
  | Some r =>
      if 8 <? rd_size r then exception ERR_OTHER
      else buf ← raise_result (ctx_read_reg r 0 (rd_size r) (cpu_ctx s)); mret (reg_value r buf)
  end.

Definition set_PC (pc : Z) : M (Cpu T) unit :=
  match get_PC_definition T with
  | None => exception ERR_OTHER
  | Some r =>
      if 8 <? rd_size r then exception ERR_OTHER
      else change_context (ctx_write_reg r 0 (reg_bytes r pc))
  end.

(** Zero when the program counter cannot be read. *)
Definition get_regs_PC : M (Cpu T) Z := fun s =>
  match get_PC s with
  | (Exc _, s) => (Ok 0, s)
  | r => r
  end.

Definition set_regs_PC (pc : Z) : M (Cpu T) unit := fun s =>
  match set_PC pc s with
  | (Exc _, s) => (Ok tt, s)
  | r => r
  end.
End registers.
