(* ===== verification/LocPieces.v ===== *)
(** * Pieces of a location (cpudefs.c): definitions

    A value can be scattered over memory and registers, bit by bit:
    [read_location_pieces] collects it in a buffer and [write_location_pieces]
    distributes a buffer. *)

From S2P Require Import Prelude ByteSource Registers.

(** [bit_mask]: the bit [n] of an array of bytes is in byte [n / 8]. *)
Definition bit_mask (big_endian : bool) (n : Z) : Z :=
  Z.shiftl 1 (if big_endian then 7 - n mod 8 else n mod 8).

Definition bit_get (big_endian : bool) (l : bytes) (n : Z) : option bool :=
  b ← znth l (n / 8); Some (negb (Z.land b (bit_mask big_endian n) =? 0)).

Definition bit_set (big_endian : bool) (l : bytes) (n : Z) (v : bool) : option bytes :=
  b ← znth l (n / 8);
  mem_write l (n / 8) [if v then Z.lor b (bit_mask big_endian n) else u8 (Z.land b (Z.lnot (bit_mask big_endian n)))].

(** The bits of a piece, in type [unsigned]. *)
Definition piece_bits (p : LocationPiece) : Z :=
  u32 (if lp_bit_size p =? 0 then u64 (lp_size p * 8) else lp_bit_size p).

Definition piece_size (p : LocationPiece) : Z :=
  u32 (if lp_size p =? 0 then u32 (lp_bit_offs p + lp_bit_size p + 7) / 8 else lp_size p).

(** [for (i = bit_offs; i < bit_offs + piece_bits; i++)] *)
Definition piece_count (p : LocationPiece) : nat := Z.to_nat (u32 (lp_bit_offs p + piece_bits p) - lp_bit_offs p).

Definition pieces_bits (l : list LocationPiece) : Z := fold_left (fun n p => u32 (n + piece_bits p)) l 0.

Definition pieces_size (l : list LocationPiece) : Z := u32 (pieces_bits l + 7) / 8.

Section pieces.
Context {T : Type} `{!ContextIf T}.
Context (big_endian : bool).

(** The buffer of a register: the register is smaller than the piece, and its bytes
    are at the end of the buffer or at its start, or the buffer is of its size. *)
Definition reg_pad (r : RegisterDefinition) (p : LocationPiece) : Z :=
  if rd_size r <? piece_size p then piece_size p - rd_size r else 0.

(** [swap_bytes] *)
Definition swap_bytes (r : RegisterDefinition) (l : bytes) : bytes :=
  if Bool.eqb (rd_big_endian r) big_endian then l else reverse l.

Definition reg_buffer (r : RegisterDefinition) (p : LocationPiece) (l : bytes) : bytes :=
  if big_endian then zero_bytes (reg_pad r p) ++ swap_bytes r l else swap_bytes r l ++ zero_bytes (reg_pad r p).

(** What [rbf] points to in the buffer. *)
Definition reg_part (r : RegisterDefinition) (p : LocationPiece) (buf : bytes) : bytes :=
  swap_bytes r (ztake (rd_size r) (if big_endian then zdrop (reg_pad r p) buf else buf)).

Definition read_piece_reg (r : RegisterDefinition) : M (Cpu T) bytes :=
  s ← get;
  match cpu_frame s with
  | None => raise_result (ctx_read_reg r 0 (rd_size r) (cpu_ctx s))
  | Some _ => read_reg_bytes (Some r) 0 (rd_size r)
  end.

Definition check_piece (p : LocationPiece) : M (Cpu T) unit :=
  if lp_optimized_away p || negb (lp_implicit_pointer p =? 0) then exception ERR_OTHER else mret tt.

Definition read_piece_mem (p : LocationPiece) : M (Cpu T) bytes :=
  s ← get; raise_result (ctx_read_mem (lp_addr p) (piece_size p) (cpu_ctx s)).

(** ** Reading *)

(** [bf] and [bf_offs] after [n] more bits of the piece, from its bit [i]. *)
Fixpoint collect_bits (n : nat) (pbf : bytes) (i : Z) (bf : bytes) (bf_offs : Z) : option (bytes * Z) :=
  match n with
  | O => Some (bf, bf_offs)
  | S n =>
      v ← bit_get big_endian pbf i;
      bf ← (if (v : bool) then bit_set big_endian bf bf_offs true else Some bf);
      collect_bits n pbf (u32 (i + 1)) bf (u32 (bf_offs + 1))
  end.

Definition piece_buffer (p : LocationPiece) : M (Cpu T) bytes :=
  match lp_reg p, lp_value p with
  | Some r, _ => l ← read_piece_reg r; mret (reg_buffer r p l)
  | None, Some v => mret v
  | None, None => read_piece_mem p
  end.

Fixpoint read_pieces_loop (l : list LocationPiece) (bf : bytes) (bf_offs : Z) : M (Cpu T) bytes :=
  match l with
  | [] => mret bf
  | p :: l =>
      check_piece p ;;
      pbf ← piece_buffer p;
      '(bf, bf_offs) ← of_option (collect_bits (piece_count p) pbf (lp_bit_offs p) bf bf_offs);
      read_pieces_loop l bf bf_offs
  end.

Definition read_location_pieces (l : list LocationPiece) : M (Cpu T) bytes :=
  read_pieces_loop l (zero_bytes (pieces_size l))
    (if big_endian then u32 (pieces_size l * 8 - pieces_bits l) else 0).

(** ** Writing *)

(** The bits of [bf] go to the buffer of the piece; behind the end of [bf] it
    stays as it is. *)
Fixpoint spread_bits (n : nat) (bf : bytes) (bf_offs : Z) (pbf : bytes) (i : Z) : option (bytes * Z) :=
  match n with
  | O => Some (pbf, bf_offs)
  | S n =>
      pbf ←
        (if zlen bf <=? bf_offs / 8 then Some pbf
         else v ← bit_get big_endian bf bf_offs; bit_set big_endian pbf i v);
      spread_bits n bf (u32 (bf_offs + 1)) pbf (u32 (i + 1))
  end.

Definition write_piece_reg (r : RegisterDefinition) (l : bytes) : M (Cpu T) unit :=
  s ← get;
  match cpu_frame s with
  | None => change_context (ctx_write_reg r 0 l)
  | Some _ => write_reg_bytes (Some r) 0 l ;; mark_reg_data
  end.

Definition write_piece (p : LocationPiece) (bf : bytes) (bf_offs : Z) : M (Cpu T) Z :=
  check_piece p ;;
  match lp_reg p, lp_value p with
  | Some r, _ =>
      l ← read_piece_reg r;
      '(pbf, bf_offs) ← of_option (spread_bits (piece_count p) bf bf_offs (reg_buffer r p l) (lp_bit_offs p));
      write_piece_reg r (reg_part r p pbf) ;;
      mret bf_offs
  | None, Some _ => exception ERR_OTHER
  | None, None =>
      l ← read_piece_mem p;
      '(pbf, bf_offs) ← of_option (spread_bits (piece_count p) bf bf_offs l (lp_bit_offs p));
      change_context (ctx_write_mem (lp_addr p) pbf) ;;
      mret bf_offs
  end.

Fixpoint write_pieces_loop (l : list LocationPiece) (bf : bytes) (bf_offs : Z) : M (Cpu T) unit :=
  match l with
  | [] => mret tt
  | p :: l => bf_offs ← write_piece p bf bf_offs; write_pieces_loop l bf bf_offs
  end.

Definition write_location_pieces (l : list LocationPiece) (value : bytes) : M (Cpu T) unit :=
  write_pieces_loop l value
    (if big_endian && (pieces_size l <=? zlen value) then u32 (zlen value * 8 - pieces_bits l) else 0).
End pieces.
