(* ===== verification/Vm.v ===== *)
(** * The location expression machine (vm.c): definitions

    [evaluate_vm_expression] runs the byte code that dwarfecomp.c makes of DWARF
    expressions: a stack of 64-bit words with their types, registers and memory
    of the context, and a list of pieces as the result.

    The static variables of vm.c and the state they point to are one record.
    Memory, registers, frames and symbols of the context are an environment
    [VmEnv]; what is left undefined by C (a shift by the width of the type or
    more, a write outside of an array) is [Undef]. *)

From S2P Require Import Prelude ByteSource Registers.

(** ** Data *)

Definition set_lp_size (x : Z) (p : LocationPiece) : LocationPiece :=
  Build_LocationPiece (lp_optimized_away p) (lp_addr p) (lp_reg p) (lp_value p) x
    (lp_bit_offs p) (lp_bit_size p) (lp_implicit_pointer p).
Definition set_lp_bits (offs size : Z) (p : LocationPiece) : LocationPiece :=
  Build_LocationPiece (lp_optimized_away p) (lp_addr p) (lp_reg p) (lp_value p) (lp_size p)
    offs size (lp_implicit_pointer p).
Definition set_lp_implicit_pointer (x : Z) (p : LocationPiece) : LocationPiece :=
  Build_LocationPiece (lp_optimized_away p) (lp_addr p) (lp_reg p) (lp_value p) (lp_size p)
    (lp_bit_offs p) (lp_bit_size p) x.

(** [LocationExpressionState] and the static variables: the register or the
    value that waits to become a piece, and the count of dereferences. *)
Record Vm := {
  vm_frame : option Z;
  vm_args : list Z;
  vm_code : bytes;
  vm_code_pos : Z;
  vm_code_len : Z;
  vm_big_endian : bool;
  vm_addr_size : Z;
  vm_pieces : list LocationPiece;
  vm_pieces_max : Z;
  vm_stk_pos : Z;
  vm_stk_max : Z;
  vm_stk : list Z;
  vm_type_stk : list Z;
  vm_reg_def : option RegisterDefinition;
  vm_value_addr : option bytes;
  vm_implicit_pointer : Z;
}.

Definition set_code_pos (x : Z) (s : Vm) : Vm :=
  Build_Vm (vm_frame s) (vm_args s) (vm_code s) x (vm_code_len s) (vm_big_endian s) (vm_addr_size s)
    (vm_pieces s) (vm_pieces_max s) (vm_stk_pos s) (vm_stk_max s) (vm_stk s) (vm_type_stk s)
    (vm_reg_def s) (vm_value_addr s) (vm_implicit_pointer s).
Definition set_code_len (x : Z) (s : Vm) : Vm :=
  Build_Vm (vm_frame s) (vm_args s) (vm_code s) (vm_code_pos s) x (vm_big_endian s) (vm_addr_size s)
    (vm_pieces s) (vm_pieces_max s) (vm_stk_pos s) (vm_stk_max s) (vm_stk s) (vm_type_stk s)
    (vm_reg_def s) (vm_value_addr s) (vm_implicit_pointer s).
Definition set_pieces (l : list LocationPiece) (max : Z) (s : Vm) : Vm :=
  Build_Vm (vm_frame s) (vm_args s) (vm_code s) (vm_code_pos s) (vm_code_len s) (vm_big_endian s)
    (vm_addr_size s) l max (vm_stk_pos s) (vm_stk_max s) (vm_stk s) (vm_type_stk s)
    (vm_reg_def s) (vm_value_addr s) (vm_implicit_pointer s).
Definition set_stk_pos (x : Z) (s : Vm) : Vm :=
  Build_Vm (vm_frame s) (vm_args s) (vm_code s) (vm_code_pos s) (vm_code_len s) (vm_big_endian s)
    (vm_addr_size s) (vm_pieces s) (vm_pieces_max s) x (vm_stk_max s) (vm_stk s) (vm_type_stk s)
    (vm_reg_def s) (vm_value_addr s) (vm_implicit_pointer s).
Definition set_stk (max : Z) (l t : list Z) (s : Vm) : Vm :=
  Build_Vm (vm_frame s) (vm_args s) (vm_code s) (vm_code_pos s) (vm_code_len s) (vm_big_endian s)
    (vm_addr_size s) (vm_pieces s) (vm_pieces_max s) (vm_stk_pos s) max l t
    (vm_reg_def s) (vm_value_addr s) (vm_implicit_pointer s).
Definition set_reg_def (x : option RegisterDefinition) (s : Vm) : Vm :=
  Build_Vm (vm_frame s) (vm_args s) (vm_code s) (vm_code_pos s) (vm_code_len s) (vm_big_endian s)
    (vm_addr_size s) (vm_pieces s) (vm_pieces_max s) (vm_stk_pos s) (vm_stk_max s) (vm_stk s) (vm_type_stk s)
    x (vm_value_addr s) (vm_implicit_pointer s).
Definition set_value_addr (x : option bytes) (s : Vm) : Vm :=
  Build_Vm (vm_frame s) (vm_args s) (vm_code s) (vm_code_pos s) (vm_code_len s) (vm_big_endian s)
    (vm_addr_size s) (vm_pieces s) (vm_pieces_max s) (vm_stk_pos s) (vm_stk_max s) (vm_stk s) (vm_type_stk s)
    (vm_reg_def s) x (vm_implicit_pointer s).
Definition set_implicit_pointer (x : Z) (s : Vm) : Vm :=
  Build_Vm (vm_frame s) (vm_args s) (vm_code s) (vm_code_pos s) (vm_code_len s) (vm_big_endian s)
    (vm_addr_size s) (vm_pieces s) (vm_pieces_max s) (vm_stk_pos s) (vm_stk_max s) (vm_stk s) (vm_type_stk s)
    (vm_reg_def s) (vm_value_addr s) x.

(** The context: [inr] is an error number.  A frame is a number, [None] is no
    frame. *)
Record VmEnv := {
  context_read_mem : Z -> Z -> bytes + Z;
  get_reg_by_id : Z -> RegisterDefinition + Z;
  read_reg_value : option Z -> RegisterDefinition -> Z + Z;
  frame_fp : Z -> Z;
  get_symbol_value : bytes -> (bytes * bool) + Z;
  get_prev_frame : option Z -> option Z + Z;
  read_location_pieces : option Z -> list LocationPiece -> bytes + Z;
}.

Definition TYPE_CLASS_CARDINAL : Z := 1.
Definition TYPE_CLASS_INTEGER : Z := 2.

Inductive opcode :=
| OP_reg | OP_basereg | OP_const | OP_deref2 | OP_deref | OP_add
| OP_const1u | OP_const1s | OP_const2u | OP_const2s | OP_const4u | OP_const4s | OP_const8u | OP_const8s
| OP_constu | OP_consts | OP_dup | OP_drop | OP_over | OP_pick | OP_swap | OP_rot | OP_xderef
| OP_abs | OP_and | OP_div | OP_minus | OP_mod | OP_mul | OP_neg | OP_not | OP_or | OP_plus | OP_plus_uconst
| OP_shl | OP_shr | OP_shra | OP_xor | OP_bra | OP_eq | OP_ge | OP_gt | OP_le | OP_lt | OP_ne | OP_skip
| OP_lit (n : Z) | OP_regn (n : Z) | OP_breg (n : Z)
| OP_regx | OP_bregx | OP_piece | OP_deref_size | OP_xderef_size | OP_nop | OP_push_object_address
| OP_call_frame_cfa | OP_bit_piece | OP_implicit_value | OP_stack_value
| OP_GNU_entry_value | OP_GNU_const_type | OP_GNU_regval_type | OP_GNU_deref_type | OP_GNU_convert
| OP_GNU_variable_value | OP_TCF_switch | OP_TCF_offset
| OP_other (op : Z).

(** The codes 0x01 to 0x2f; the other ones are for the client. *)
Definition low_opcodes : list opcode :=
  [OP_reg; OP_basereg; OP_other 3; OP_const; OP_deref2; OP_deref; OP_add;
   OP_const1u; OP_const1s; OP_const2u; OP_const2s; OP_const4u; OP_const4s; OP_const8u; OP_const8s;
   OP_constu; OP_consts; OP_dup; OP_drop; OP_over; OP_pick; OP_swap; OP_rot; OP_xderef;
   OP_abs; OP_and; OP_div; OP_minus; OP_mod; OP_mul; OP_neg; OP_not; OP_or; OP_plus; OP_plus_uconst;
   OP_shl; OP_shr; OP_shra; OP_xor; OP_bra; OP_eq; OP_ge; OP_gt; OP_le; OP_lt; OP_ne; OP_skip].

(** The codes 0x90 to 0x9f. *)
Definition middle_opcodes : list opcode :=
  [OP_regx; OP_other 145; OP_bregx; OP_piece; OP_deref_size; OP_xderef_size; OP_nop; OP_push_object_address;
   OP_other 152; OP_other 153; OP_other 154; OP_other 155; OP_call_frame_cfa; OP_bit_piece; OP_implicit_value;
   OP_stack_value].

Definition high_opcodes : list (Z * opcode) :=
  [(243, OP_GNU_entry_value); (244, OP_GNU_const_type); (245, OP_GNU_regval_type); (246, OP_GNU_deref_type);
   (247, OP_GNU_convert); (253, OP_GNU_variable_value); (254, OP_TCF_switch); (255, OP_TCF_offset)].

Fixpoint assoc_op (op : Z) (l : list (Z * opcode)) : opcode :=
  match l with
  | [] => OP_other op
  | (n, o) :: l => if op =? n then o else assoc_op op l
  end.

Definition decode_op (op : Z) : opcode :=
  if op <? 48 then default (OP_other op) (znth low_opcodes (op - 1))
  else if op <? 80 then OP_lit (op - 48)
  else if op <? 112 then OP_regn (op - 80)
  else if op <? 144 then OP_breg (op - 112)
  else if op <? 160 then default (OP_other op) (znth middle_opcodes (op - 144))
  else assoc_op op high_opcodes.

(** ** Operands *)

Definition inv_dwarf {A} : M Vm A := exception ERR_INV_DWARF.

Definition of_result {A} (r : A + Z) : M Vm A :=
  match r with inl a => mret a | inr e => exception e end.

Section vm.
Context (env : VmEnv) (client_op : option (Z -> M Vm unit)).

(** The buffer has eight bytes. *)
Definition read_memory (addr size : Z) : M Vm Z :=
  s ← get;
  assertm (size <=? 8) ;;
  buf ← of_result (context_read_mem env addr size);
  mret (be_value (if vm_big_endian s then buf else reverse buf)).

Definition read_u1 : M Vm Z :=
  s ← get;
  if vm_code_len s <=? vm_code_pos s then inv_dwarf
  else
    b ← of_option (znth (vm_code s) (vm_code_pos s));
    put (set_code_pos (vm_code_pos s + 1) s) ;;
    mret b.

(** Two halves of [w] bits each. *)
Definition join_halves (w x0 x1 : Z) : M Vm Z :=
  s ← get;
  mret (if vm_big_endian s then Z.lor (Z.shiftl x0 w) x1 else Z.lor x0 (Z.shiftl x1 w)).

Definition read_u2 : M Vm Z := x0 ← read_u1; x1 ← read_u1; join_halves 8 x0 x1.
Definition read_u4 : M Vm Z := x0 ← read_u2; x1 ← read_u2; join_halves 16 x0 x1.
Definition read_u8 : M Vm Z := x0 ← read_u4; x1 ← read_u4; join_halves 32 x0 x1.

(** After [w / 7 + 1] bytes the shift is out of range. *)
Definition read_u4leb128 : M Vm Z := read_leb128 read_u1 6 32 false 0 0.
Definition read_u8leb128 : M Vm Z := read_leb128 read_u1 11 64 false 0 0.
Definition read_i8leb128 : M Vm Z := read_leb128 read_u1 11 64 true 0 0.

(** The result of [read_ia] is converted to [uint64_t]. *)
Definition read_ia : M Vm Z :=
  s ← get;
  if vm_addr_size s =? 1 then x ← read_u1; mret (u64 (s8 x))
  else if vm_addr_size s =? 2 then x ← read_u2; mret (u64 (s16 x))
  else if vm_addr_size s =? 4 then x ← read_u4; mret (u64 (s32 x))
  else if vm_addr_size s =? 8 then read_u8
  else inv_dwarf.

Definition read_ua : M Vm Z :=
  s ← get;
  if vm_addr_size s =? 1 then read_u1
  else if vm_addr_size s =? 2 then read_u2
  else if vm_addr_size s =? 4 then read_u4
  else if vm_addr_size s =? 8 then read_u8
  else inv_dwarf.

(** ** The stack *)

Definition check_e_stack (n : Z) : M Vm unit :=
  s ← get; if vm_stk_pos s <? n then inv_dwarf else mret tt.

(** [stk[stk_pos - k]], [type_stk[stk_pos - k]]. *)
Definition stk (k : Z) : M Vm Z := s ← get; of_option (znth (vm_stk s) (vm_stk_pos s - k)).
Definition type_stk (k : Z) : M Vm Z := s ← get; of_option (znth (vm_type_stk s) (vm_stk_pos s - k)).

Definition stk_put (k v : Z) : M Vm unit :=
  s ← get;
  l ← of_option (mem_write (vm_stk s) (vm_stk_pos s - k) [v]);
  put (set_stk (vm_stk_max s) l (vm_type_stk s) s).

Definition type_put (k t : Z) : M Vm unit :=
  s ← get;
  l ← of_option (mem_write (vm_type_stk s) (vm_stk_pos s - k) [t]);
  put (set_stk (vm_stk_max s) (vm_stk s) l s).

Definition move_stk (n : Z) : M Vm unit := modify (fun s => set_stk_pos (vm_stk_pos s + n) s).

Definition push (v t : Z) : M Vm unit := stk_put 0 v ;; type_put 0 t ;; move_stk 1.

(** [stk[stk_pos - 1] = v; type_stk[stk_pos - 1] = t] *)
Definition replace_top (v t : Z) : M Vm unit := stk_put 1 v ;; type_put 1 t.

(** Room for four more words: [stk_max += 8]. *)
Definition grow_stk : M Vm unit :=
  s ← get;
  if vm_stk_max s <? vm_stk_pos s + 4 then
    put (set_stk (vm_stk_max s + 8) (vm_stk s ++ replicate 8 0) (vm_type_stk s ++ replicate 8 0) s)
  else mret tt.

(** ** Pieces *)

Definition empty_piece : LocationPiece := Build_LocationPiece false 0 None None 0 0 0 0.

Definition add_piece : M Vm LocationPiece :=
  s ← get;
  (if vm_pieces_max s <=? zlen (vm_pieces s) then put (set_pieces (vm_pieces s) (vm_pieces_max s + 4) s)
   else mret tt) ;;
  piece ←
    (match vm_reg_def s, vm_value_addr s with
     | Some reg, _ => mret (Build_LocationPiece false 0 (Some reg) None (rd_size reg) 0 0 0)
     | None, Some value => mret (Build_LocationPiece false 0 None (Some value) (zlen value) 0 0 0)
     | None, None =>
         if vm_stk_pos s =? 0 then mret (Build_LocationPiece true 0 None None 0 0 0 0)
         else
           move_stk (-1) ;;
           addr ← stk 0;
           mret (Build_LocationPiece false addr None None 0 0 0 0)
     end);
  let piece := set_lp_implicit_pointer (vm_implicit_pointer s) piece in
  modify (fun s =>
    set_implicit_pointer 0 (set_value_addr None (set_reg_def None
      (set_pieces (vm_pieces s ++ [piece]) (vm_pieces_max s) s)))) ;;
  mret piece.

(** The piece that [add_piece] has returned is the last one. *)
Definition update_piece (f : LocationPiece -> LocationPiece) : M Vm unit :=
  modify (fun s => set_pieces (alter f (length (vm_pieces s) - 1)%nat (vm_pieces s)) (vm_pieces_max s) s).

Definition is_end_of_loc_expr : M Vm bool :=
  s ← get;
  if vm_code_len s <=? vm_code_pos s then mret true
  else
    op ← of_option (znth (vm_code s) (vm_code_pos s));
    mret ((op =? 147) || (op =? 157) || (op =? 255)).

Definition check_end : M Vm unit :=
  e ← is_end_of_loc_expr; if (e : bool) then mret tt else inv_dwarf.

(** ** Operations *)

Definition addr_size : M Vm Z := gets vm_addr_size.

Definition op_deref (size : M Vm Z) (convert : Z -> Z) : M Vm unit :=
  check_e_stack 1 ;;
  size ← size;
  a ← stk 1;
  v ← read_memory a size;
  replace_top (convert v) TYPE_CLASS_CARDINAL.

Definition op_xderef (size : M Vm Z) : M Vm unit :=
  check_e_stack 2 ;;
  size ← size;
  a ← stk 1;
  v ← read_memory a size;
  stk_put 2 v ;; type_put 2 TYPE_CLASS_CARDINAL ;;
  move_stk (-1).

Definition op_const (read : M Vm Z) (convert : Z -> Z) (t : Z) : M Vm unit :=
  v ← read; push (convert v) t.

Definition signed (w x : Z) : Z := u64 (wraps w x).

Definition op_pick (n : Z) : M Vm unit :=
  check_e_stack (n + 1) ;;
  v ← stk (n + 1); t ← type_stk (n + 1);
  push v t.

Definition op_swap : M Vm unit :=
  check_e_stack 2 ;;
  data ← stk 1; type ← type_stk 1;
  v ← stk 2; stk_put 1 v ;;
  t ← type_stk 2; type_put 1 t ;;
  stk_put 2 data ;; type_put 2 type.

Definition op_rot : M Vm unit :=
  check_e_stack 3 ;;
  data ← stk 1; type ← type_stk 1;
  v ← stk 2; stk_put 1 v ;;
  t ← type_stk 2; type_put 1 t ;;
  v ← stk 3; stk_put 2 v ;;
  t ← type_stk 3; type_put 2 t ;;
  stk_put 3 data ;; type_put 2 type.

Definition op_abs : M Vm unit :=
  check_e_stack 1 ;;
  v ← stk 1;
  if s64 v <? 0 then stk_put 1 (u64 (u64 (Z.lnot v) + 1)) else mret tt.

Definition op_unary (f : Z -> Z) : M Vm unit :=
  check_e_stack 1 ;; v ← stk 1; stk_put 1 (u64 (f v)).

(** [stk_pos--], then both operands; [guard] says when the result exists. *)
Definition op_binary (guard : Z -> M Vm unit) (f : Z -> Z -> Z) : M Vm unit :=
  check_e_stack 2 ;;
  move_stk (-1) ;;
  b ← stk 0;
  guard b ;;
  a ← stk 1;
  stk_put 1 (u64 (f a b)).

Definition no_guard (b : Z) : M Vm unit := mret tt.
Definition not_zero (b : Z) : M Vm unit := if b =? 0 then inv_dwarf else mret tt.
Definition shift_count (b : Z) : M Vm unit := assertm (b <? 64).

Definition op_compare (f : Z -> Z -> bool) : M Vm unit :=
  op_binary no_guard (fun a b => b2z (f a b)) ;;
  type_put 1 TYPE_CLASS_CARDINAL.

Definition op_plus_uconst : M Vm unit :=
  check_e_stack 1 ;;
  n ← read_u8leb128;
  v ← stk 1;
  stk_put 1 (u64 (v + n)).

Fixpoint shra_loop (cnt : nat) (data : Z) : Z :=
  match cnt with
  | O => data
  | S cnt =>
      let s := Z.testbit data 63 in
      let data := Z.shiftr data 1 in
      shra_loop cnt (if s then Z.lor data (2 ^ 63) else data)
  end.

Definition op_shra : M Vm unit :=
  check_e_stack 2 ;;
  data ← stk 2;
  cnt ← stk 1;
  let data :=
    if 64 <=? cnt then (if Z.testbit data 63 then 2 ^ 64 - 1 else 0)
    else shra_loop (Z.to_nat cnt) data in
  stk_put 2 data ;;
  move_stk (-1).

(** [code_pos += offs] in [size_t]. *)
Definition jump (offs : Z) : M Vm unit :=
  s ← get;
  let pos := u64 (vm_code_pos s + offs) in
  put (set_code_pos pos s) ;;
  if vm_code_len s <? pos then inv_dwarf else mret tt.

Definition op_bra : M Vm unit :=
  check_e_stack 1 ;;
  x ← read_u2;
  v ← stk 1;
  (if negb (v =? 0) then jump (signed 16 x) else mret tt) ;;
  move_stk (-1).

Definition op_skip : M Vm unit := x ← read_u2; jump (signed 16 x).

Definition op_register (n : Z) : M Vm unit :=
  check_end ;;
  def ← of_result (get_reg_by_id env n);
  modify (set_reg_def (Some def)).

(** The register is read before the offset. *)
Definition op_base_register (n : Z) (offs : M Vm Z) : M Vm unit :=
  def ← of_result (get_reg_by_id env n);
  s ← get;
  v ← of_result (read_reg_value env (vm_frame s) def);
  o ← offs;
  push (u64 (v + o)) TYPE_CLASS_CARDINAL.

Definition op_call_frame_cfa : M Vm unit :=
  s ← get;
  match vm_frame s with
  | None => exception ERR_INV_ADDRESS
  | Some frame => push (frame_fp env frame) TYPE_CLASS_CARDINAL
  end.

Definition op_push_object_address : M Vm unit :=
  s ← get;
  match vm_args s with
  | [] => exception ERR_INV_CONT_OBJ
  | a :: _ => push a TYPE_CLASS_CARDINAL
  end.

Definition op_piece : M Vm unit :=
  add_piece ;;
  n ← read_u4leb128;
  update_piece (set_lp_size n).

Definition op_bit_piece : M Vm unit :=
  add_piece ;;
  size ← read_u4leb128;
  update_piece (fun p => set_lp_bits (lp_bit_offs p) size p) ;;
  offs ← read_u4leb128;
  update_piece (fun p => set_lp_bits offs (lp_bit_size p) p).

Definition op_implicit_value : M Vm unit :=
  n ← read_u4leb128;
  s ← get;
  if vm_code_len s <? vm_code_pos s + n then inv_dwarf
  else
    v ← of_option (mem_read (vm_code s) (vm_code_pos s) n);
    put (set_code_pos (vm_code_pos s + n) (set_value_addr (Some v) s)) ;;
    check_end.

Definition le_bytes (size n : Z) : bytes := (fun i => u8 (Z.shiftr n (8 * i))) <$> seqZ 0 size.

Definition op_stack_value : M Vm unit :=
  check_e_stack 1 ;;
  move_stk (-1) ;;
  n ← stk 0;
  s ← get;
  let buf := le_bytes (vm_addr_size s) n in
  put (set_value_addr (Some (if vm_big_endian s then reverse buf else buf)) s) ;;
  check_end.

(** [ATE_*] of unsigned and of signed numbers. *)
Definition is_unsigned_type (t : Z) : bool := bool_decide (t ∈ [1; 7; 8; 14; 16]).
Definition is_signed_type (t : Z) : bool := bool_decide (t ∈ [5; 6; 13]).
Definition ATE_boolean : Z := 2.

(** [(uint64_t)1 << (size * 8 - 1)]: for no bytes the shift count is out of range. *)
Definition sign_bit (size : Z) : M Vm Z :=
  assertm (0 <? size) ;; mret (2 ^ (size * 8 - 1)).

Definition sign_extend (sign v : Z) : Z :=
  if Z.land v sign =? 0 then v else Z.lor v (u64 (Z.lnot (sign - 1))).

Definition op_deref_type : M Vm unit :=
  check_e_stack 1 ;;
  mem_size ← read_u8leb128;
  fund_type ← read_u4leb128;
  type_size ← read_u4leb128;
  let mem_size := if type_size <? mem_size then type_size else mem_size in
  if is_unsigned_type fund_type then
    a ← stk 1; v ← read_memory a mem_size; replace_top v TYPE_CLASS_CARDINAL
  else if fund_type =? ATE_boolean then
    a ← stk 1; v ← read_memory a mem_size;
    replace_top (if v =? 0 then v else 1) TYPE_CLASS_CARDINAL
  else if is_signed_type fund_type then
    a ← stk 1; v ← read_memory a mem_size;
    v ← (if mem_size <? 8 then sign ← sign_bit mem_size; mret (sign_extend sign v) else mret v);
    replace_top v TYPE_CLASS_INTEGER
  else inv_dwarf.

Definition op_convert : M Vm unit :=
  check_e_stack 1 ;;
  fund_type ← read_u4leb128;
  type_size ← read_u4leb128;
  v ← stk 1;
  if is_unsigned_type fund_type then
    v ← (if type_size <? 8 then sign ← sign_bit type_size; mret (Z.land v (sign - 1)) else mret v);
    replace_top v TYPE_CLASS_CARDINAL
  else if fund_type =? ATE_boolean then
    replace_top (if v =? 0 then v else 1) TYPE_CLASS_CARDINAL
  else if is_signed_type fund_type then
    v ← (if type_size <? 8 then
           sign ← sign_bit type_size;
           mret (if Z.land v sign =? 0 then Z.land v (sign - 1) else sign_extend sign v)
         else mret v);
    replace_top v TYPE_CLASS_INTEGER
  else inv_dwarf.

(** The identifier is a C string in the code. *)
Fixpoint code_string (l : bytes) : option bytes :=
  match l with
  | [] => None
  | b :: l => if b =? 0 then Some [] else cons b <$> code_string l
  end.

Definition op_variable_value : M Vm unit :=
  s ← get;
  id ← of_option (code_string (zdrop (vm_code_pos s) (vm_code s)));
  put (set_code_pos (vm_code_pos s + zlen id + 1) s) ;;
  '(value, big_endian) ← of_result (get_symbol_value env id);
  assertm (zlen value <=? 8) ;;
  push (be_value (if (big_endian : bool) then value else reverse value)) TYPE_CLASS_CARDINAL.

(** The part of the pieces after [offs] bytes; [bit_offs] is where the first of
    [l] starts. *)
Fixpoint offset_pieces (l : list LocationPiece) (offs bit_offs : Z) : list LocationPiece :=
  match l with
  | [] => []
  | org :: l =>
      let org := if lp_bit_size org =? 0 then set_lp_bits (lp_bit_offs org) (u32 (lp_size org * 8)) org else org in
      let rest := offset_pieces l offs (u32 (bit_offs + lp_bit_size org)) in
      if u32 (offs * 8) <? u32 (bit_offs + lp_bit_size org) then
        let piece :=
          if bit_offs <? u32 (offs * 8) then
            set_lp_bits (u32 (lp_bit_offs org + (u32 (offs * 8) - bit_offs)))
              (u32 (lp_bit_size org - (u32 (offs * 8) - bit_offs))) org
          else org in
        let piece :=
          if (lp_bit_offs piece =? 0) && (lp_bit_size piece mod 8 =? 0) then
            set_lp_bits (lp_bit_offs piece) 0 (set_lp_size (lp_bit_size piece / 8) piece)
          else piece in
        set_lp_implicit_pointer (u32 (lp_implicit_pointer piece + 1)) piece :: rest
      else rest
  end.

Definition op_offset : M Vm unit :=
  s ← get;
  (match vm_reg_def s, vm_value_addr s with
   | None, None => mret tt
   | _, _ => add_piece ;; mret tt
   end) ;;
  s ← get;
  match vm_pieces s with
  | [] =>
      check_e_stack 1 ;;
      n ← read_u8leb128;
      v ← stk 1;
      stk_put 1 (u64 (v + n)) ;;
      modify (fun s => set_implicit_pointer (u32 (vm_implicit_pointer s + 1)) s)
  | l =>
      offs ← read_u4leb128;
      let l := offset_pieces l offs 0 in
      modify (set_pieces l (4 * ((zlen l + 3) / 4))) ;;
      match l with [] => inv_dwarf | _ => mret tt end
  end.

(** ** Nested evaluation

    [rec] is [evaluate_expression]. *)

Section nested.
Context (rec : M Vm unit).

(** A trap around [rec]: [code_len] is restored in any case. *)
Definition with_code_len (len : Z) : M Vm unit := fun s =>
  let org := vm_code_len s in
  match rec (set_code_len len s) with
  | (Ok tt, s') => (Ok tt, set_code_len org s')
  | (Exc e, s') => (Exc e, set_code_len org s')
  | r => r
  end.

Fixpoint switch_loop (fuel : nat) (n end_pos : Z) : M Vm unit :=
  match fuel with
  | O => nofuel
  | S fuel =>
      x ← read_u2;
      s ← get;
      let nxt_pos := x + vm_code_pos s in
      if end_pos <? nxt_pos then inv_dwarf
      else if nxt_pos =? vm_code_pos s then exception ERR_OTHER
      else
        addr ← read_u8leb128;
        size ← read_u8leb128;
        if (size =? 0) || ((addr <=? n) && (n - addr <? size)) then with_code_len nxt_pos
        else modify (set_code_pos nxt_pos) ;; switch_loop fuel n end_pos
  end.

Definition op_switch : M Vm unit :=
  check_e_stack 1 ;;
  move_stk (-1) ;;
  n ← stk 0;
  x ← read_u2;
  s ← get;
  let end_pos := x + vm_code_pos s in
  if vm_code_len s <? end_pos then inv_dwarf
  else
    switch_loop (S (Z.to_nat end_pos)) n end_pos ;;
    modify (set_code_pos end_pos).

(** [evaluate_vm_expression] without its trap. *)
Definition evaluate_vm : M Vm unit :=
  modify (fun s => set_implicit_pointer 0 (set_value_addr None (set_reg_def None s))) ;;
  rec ;;
  s ← get;
  match vm_reg_def s, vm_value_addr s with
  | None, None => if vm_implicit_pointer s =? 0 then mret tt else add_piece ;; mret tt
  | _, _ => add_piece ;; mret tt
  end.

(** [value |= buf[i] << (i * 8)], where the shift is in type [int]. *)
Fixpoint int_value (buf : bytes) (i : Z) : option Z :=
  match buf with
  | [] => Some 0
  | b :: buf =>
      if (i * 8 <? 32) && (Z.shiftl b (i * 8) <? 2 ^ 31) then
        v ← int_value buf (i + 1); Some (Z.lor (Z.shiftl b (i * 8)) v)
      else None
  end.

Definition entry_state (frame : option Z) (size : Z) (s : Vm) : Vm :=
  Build_Vm frame [] (zdrop (vm_code_pos s) (vm_code s)) 0 size (vm_big_endian s) (vm_addr_size s)
    [] 0 0 0 [] [] (vm_reg_def s) (vm_value_addr s) (vm_implicit_pointer s).

(** The value and its type; the static variables are shared. *)
Definition entry_value (size : Z) : M Vm (Z * Z) := fun s =>
  match get_prev_frame env (vm_frame s) with
  | inr e => (Exc e, s)
  | inl frame =>
      match evaluate_vm (entry_state frame size s) with
      | (Ok tt, es) =>
          (match vm_pieces es with
           | [] =>
               if vm_stk_pos es =? 1 then
                 v ← of_option (znth (vm_stk es) 0);
                 t ← of_option (znth (vm_type_stk es) 0);
                 mret (v, t)
               else inv_dwarf
           | pieces =>
               buf ← of_result (read_location_pieces env frame pieces);
               if 8 <? zlen buf then inv_dwarf
               else v ← of_option (int_value buf 0); mret (v, TYPE_CLASS_CARDINAL)
           end)
          (set_implicit_pointer (vm_implicit_pointer es) (set_value_addr (vm_value_addr es) (set_reg_def (vm_reg_def es) s)))
      | (Exc e, es) =>
          (Exc e, set_implicit_pointer (vm_implicit_pointer es) (set_value_addr (vm_value_addr es)
            (set_reg_def (vm_reg_def es) s)))
      | (Undef, _) => (Undef, s)
      | (NoFuel, _) => (NoFuel, s)
      end
  end.

(** The code of the entry value is skipped in any case. *)
Definition skip_entry (size : Z) (m : M Vm unit) : M Vm unit := fun s =>
  let skip := modify (fun s => set_code_pos (vm_code_pos s + size) s) in
  match m s with
  | (Ok tt, s) => skip s
  | (Exc e, s) => (skip ;; exception e) s
  | r => r
  end.

Definition op_entry_value : M Vm unit :=
  size ← read_u4leb128;
  skip_entry size ('(v, t) ← entry_value size; push v t).

Definition step (op : opcode) : M Vm unit :=
  match op with
  | OP_deref => op_deref addr_size id
  | OP_deref2 => op_deref (mret 2) (signed 16)
  | OP_deref_size => op_deref read_u1 id
  | OP_const => op_const read_ia id TYPE_CLASS_CARDINAL
  | OP_const1u => op_const read_u1 id TYPE_CLASS_CARDINAL
  | OP_const1s => op_const read_u1 (signed 8) TYPE_CLASS_INTEGER
  | OP_const2u => op_const read_u2 id TYPE_CLASS_CARDINAL
  | OP_const2s => op_const read_u2 (signed 16) TYPE_CLASS_INTEGER
  | OP_const4u => op_const read_u4 id TYPE_CLASS_CARDINAL
  | OP_const4s => op_const read_u4 (signed 32) TYPE_CLASS_INTEGER
  | OP_const8u => op_const read_u8 id TYPE_CLASS_CARDINAL
  | OP_const8s => op_const read_u8 (signed 64) TYPE_CLASS_INTEGER
  | OP_constu => op_const read_u8leb128 id TYPE_CLASS_CARDINAL
  | OP_consts => op_const read_i8leb128 id TYPE_CLASS_INTEGER
  | OP_dup => op_pick 0
  | OP_drop => check_e_stack 1 ;; move_stk (-1)
  | OP_over => op_pick 1
  | OP_pick => n ← read_u1; op_pick n
  | OP_swap => op_swap
  | OP_rot => op_rot
  | OP_xderef => op_xderef addr_size
  | OP_xderef_size => op_xderef read_u1
  | OP_abs => op_abs
  | OP_and => op_binary no_guard Z.land
  | OP_div => op_binary not_zero Z.div
  | OP_minus => op_binary no_guard Z.sub
  | OP_mod => op_binary not_zero Z.modulo
  | OP_mul => op_binary no_guard Z.mul
  | OP_neg => op_unary (fun v => u64 (Z.lnot v) + 1)
  | OP_not => op_unary Z.lnot
  | OP_or => op_binary no_guard Z.lor
  | OP_add | OP_plus => op_binary no_guard Z.add
  | OP_plus_uconst => op_plus_uconst
  | OP_shl => op_binary shift_count Z.shiftl
  | OP_shr => op_binary shift_count Z.shiftr
  | OP_shra => op_shra
  | OP_xor => op_binary no_guard Z.lxor
  | OP_bra => op_bra
  | OP_eq => op_compare Z.eqb
  | OP_ge => op_compare (fun a b => b <=? a)
  | OP_gt => op_compare (fun a b => b <? a)
  | OP_le => op_compare Z.leb
  | OP_lt => op_compare Z.ltb
  | OP_ne => op_compare (fun a b => negb (a =? b))
  | OP_skip => op_skip
  | OP_lit n => push n TYPE_CLASS_CARDINAL
  | OP_regn n => op_register n
  | OP_regx => n ← read_u4leb128; op_register n
  | OP_reg => n ← read_ua; op_register (u32 n)
  | OP_breg n => op_base_register n read_i8leb128
  | OP_bregx => n ← read_u4leb128; op_base_register n read_i8leb128
  | OP_basereg => n ← read_ua; op_base_register (u32 n) (mret 0)
  | OP_call_frame_cfa => op_call_frame_cfa
  | OP_nop => mret tt
  | OP_push_object_address => op_push_object_address
  | OP_piece => op_piece
  | OP_bit_piece => op_bit_piece
  | OP_implicit_value => op_implicit_value
  | OP_stack_value => op_stack_value
  | OP_GNU_const_type | OP_GNU_regval_type => inv_dwarf
  | OP_GNU_deref_type => op_deref_type
  | OP_GNU_convert => op_convert
  | OP_GNU_variable_value => op_variable_value
  | OP_TCF_switch => op_switch
  | OP_TCF_offset => op_offset
  | OP_GNU_entry_value => op_entry_value
  | OP_other op =>
      match client_op with
      | Some client_op => client_op op
      | None => exception ERR_UNSUPPORTED
      end
  end.
End nested.

(** The loop of [evaluate_expression]; the fuel bounds the number of operations,
    nested ones included. *)
Fixpoint evaluate_loop (fuel : nat) : M Vm unit :=
  match fuel with
  | O => nofuel
  | S fuel =>
      s ← get;
      if vm_code_len s <=? vm_code_pos s then mret tt
      else
        op ← of_option (znth (vm_code s) (vm_code_pos s));
        put (set_code_pos (vm_code_pos s + 1) s) ;;
        grow_stk ;;
        step (s ← get; if vm_code_len s =? 0 then inv_dwarf else evaluate_loop fuel) (decode_op op) ;;
        evaluate_loop fuel
  end.

Definition evaluate_expression (fuel : nat) : M Vm unit :=
  s ← get; if vm_code_len s =? 0 then inv_dwarf else evaluate_loop fuel.

(** 0, or -1 and the error number. *)
Definition evaluate_vm_expression (fuel : nat) : M Vm (Z * Z) := fun s =>
  match evaluate_vm (evaluate_expression fuel) s with
  | (Ok tt, s) => (Ok (0, 0), s)
  | (Exc e, s) => (Ok (-1, e), s)
  | (Undef, s) => (Undef, s)
  | (NoFuel, s) => (NoFuel, s)
  end.
End vm.
