(* ===== verification/VmSpec.v ===== *)
(** * The location expression machine: its stack and its operands

    Cells of the two arrays, operands in the byte code. *)

From S2P Require Import Prelude ByteSource Registers Vm.

(** ** The invariant *)

(** The two arrays have [stk_max] cells, the words have 64 bits, and the code is
    a string of bytes. *)
Record vm_ok (s : Vm) : Prop := {
  ok_pos : 0 <= vm_stk_pos s <= vm_stk_max s;
  ok_stk : zlen (vm_stk s) = vm_stk_max s;
  ok_type : zlen (vm_type_stk s) = vm_stk_max s;
  ok_words : Forall (in_u 64) (vm_stk s);
  ok_code : is_bytes (vm_code s);
  ok_code_len : 0 <= vm_code_len s <= zlen (vm_code s);
  ok_code_fit : zlen (vm_code s) < 2 ^ 62;
  ok_code_pos : 0 <= vm_code_pos s < 2 ^ 64;
  ok_addr_size : vm_addr_size s ∈ [1; 2; 4; 8];
  ok_args : Forall (in_u 64) (vm_args s);
}.

(** The stack, from its top. *)
Definition stack_is (s : Vm) (vs : list (Z * Z)) : Prop :=
  zlen vs = vm_stk_pos s /\
  forall k v t, vs !! k = Some (v, t) ->
    znth (vm_stk s) (vm_stk_pos s - 1 - Z.of_nat k) = Some v /\
    znth (vm_type_stk s) (vm_stk_pos s - 1 - Z.of_nat k) = Some t.

(** Everything but the stack. *)
Definition same_rest (s s' : Vm) : Prop :=
  s' = set_stk_pos (vm_stk_pos s') (set_stk (vm_stk_max s') (vm_stk s') (vm_type_stk s') s).

Lemma same_rest_refl s : same_rest s s.
Proof. by destruct s. Qed.

Lemma same_rest_trans s1 s2 s3 : same_rest s1 s2 -> same_rest s2 s3 -> same_rest s1 s3.
Proof. unfold same_rest. destruct s1, s2, s3. cbn. intros E1 E2. inversion E1. inversion E2. by subst. Qed.

#[export] Hint Resolve same_rest_refl same_rest_trans : core.

(** ** Cells *)

Lemma mem_write_cell l i v : 0 <= i < zlen l ->
  exists l', mem_write l i [v] = Some l' /\ zlen l' = zlen l /\
    (forall j, znth l' j = if j =? i then Some v else znth l j).
Proof.
  intros Hi. destruct (mem_write_ok l i [v]) as (l' & E & HL & HT); [lia|change (zlen [v]) with 1; lia|].
  exists l'. split; [done|]. split; [done|]. intros j. unfold mem_write in E.
  destruct (_ && _); [|done]. injection E as <-. change (zlen [v]) with 1.
  assert (HZ : length (ztake i l) = Z.to_nat i) by (unfold ztake; rewrite length_take; unfold zlen in Hi; lia).
  unfold znth. destruct (Z.leb_spec 0 j) as [Hj|Hj]; [|destruct (Z.eqb_spec j i); [lia|done]].
  destruct (Z.eqb_spec j i) as [->|Hne].
  - rewrite lookup_app_r by lia. by rewrite HZ, Nat.sub_diag.
  - destruct (decide (j < i)).
    + rewrite lookup_app_l by lia. unfold ztake. rewrite lookup_take. case_decide; [done|lia].
    + rewrite lookup_app_r, HZ by lia. replace (Z.to_nat j - Z.to_nat i)%nat with (S (Z.to_nat j - Z.to_nat i - 1)) by lia.
      change (drop (Z.to_nat (i + 1)) l !! (Z.to_nat j - Z.to_nat i - 1)%nat = l !! Z.to_nat j).
      rewrite lookup_drop. f_equal. lia.
Qed.

Lemma write_words l i v l' : mem_write l i [v] = Some l' -> Forall (in_u 64) l -> in_u 64 v -> Forall (in_u 64) l'.
Proof.
  intros E Hl Hv. unfold mem_write in E. destruct (_ && _); [|done]. injection E as <-.
  apply Forall_app. split; [by apply Forall_take|]. constructor; [done|]. by apply Forall_drop.
Qed.

Lemma znth_word l i v : Forall (in_u 64) l -> znth l i = Some v -> in_u 64 v.
Proof. unfold znth. destruct (_ <=? _); [|done]. intros Hl Hi. by eapply Forall_lookup_1. Qed.

Lemma stack_len s vs : stack_is s vs -> vm_stk_pos s = Z.of_nat (length vs).
Proof. intros [H _]. unfold zlen in H. lia. Qed.

(** [stk[stk_pos - k]]. *)
Lemma stk_ok s vs n v t : stack_is s vs -> vs !! n = Some (v, t) -> forall k, k = Z.of_nat n + 1 -> stk k s = (Ok v, s).
Proof.
  intros [_ H] Hn k ->. destruct (H _ _ _ Hn) as [E _]. unfold stk. rewrite (bind_ok get _ s s s eq_refl).
  replace (vm_stk_pos s - (Z.of_nat n + 1)) with (vm_stk_pos s - 1 - Z.of_nat n) by lia. by rewrite E.
Qed.

Lemma type_ok s vs n v t : stack_is s vs -> vs !! n = Some (v, t) -> forall k, k = Z.of_nat n + 1 -> type_stk k s = (Ok t, s).
Proof.
  intros [_ H] Hn k ->. destruct (H _ _ _ Hn) as [_ E]. unfold type_stk. rewrite (bind_ok get _ s s s eq_refl).
  replace (vm_stk_pos s - (Z.of_nat n + 1)) with (vm_stk_pos s - 1 - Z.of_nat n) by lia. by rewrite E.
Qed.

Lemma vm_ok_rest s s' : vm_ok s -> same_rest s s' -> 0 <= vm_stk_pos s' <= vm_stk_max s' ->
  zlen (vm_stk s') = vm_stk_max s' -> zlen (vm_type_stk s') = vm_stk_max s' -> Forall (in_u 64) (vm_stk s') -> vm_ok s'.
Proof. intros [] HR H1 H2 H3 H4. constructor; auto; rewrite HR; done. Qed.

(** Writing a cell of the stack. *)
Lemma stk_put_ok s vs n v t x : vm_ok s -> stack_is s vs -> vs !! n = Some (v, t) -> in_u 64 x ->
  forall k, k = Z.of_nat n + 1 ->
  exists s', stk_put k x s = (Ok tt, s') /\ vm_ok s' /\ stack_is s' (<[n := (x, t)]> vs) /\ same_rest s s' /\
    vm_stk_max s' = vm_stk_max s.
Proof.
  intros Hok Hs Hn Hx k ->. pose proof (lookup_lt_Some _ _ _ Hn) as Hl. pose proof (stack_len _ _ Hs) as HL.
  pose proof Hok as []. unfold stk_put. rewrite (bind_ok get _ s s s eq_refl).
  destruct (mem_write_cell (vm_stk s) (vm_stk_pos s - (Z.of_nat n + 1)) x) as (l & E & HZ & HJ); [lia|].
  rewrite E. cbn [of_option]. rewrite ret_bind. eexists. split; [done|].
  assert (HR : same_rest s (set_stk (vm_stk_max s) l (vm_type_stk s) s)) by (by destruct s).
  split; [apply (vm_ok_rest s); cbn; auto; [congruence|by eapply write_words]|]. split; [|split; [done|done]].
  destruct Hs as [Hs1 Hs2]. split; [unfold zlen in *; by rewrite length_insert|]. cbn. intros j y u Hj.
  rewrite list_lookup_insert in Hj by lia. rewrite HJ.
  destruct (decide (j = n)) as [->|Hne].
  - rewrite decide_True in Hj by lia. injection Hj as <- <-. rewrite (proj2 (Z.eqb_eq _ _)) by lia. split; [done|].
    by apply (Hs2 _ _ _ Hn).
  - rewrite decide_False in Hj by lia. rewrite (proj2 (Z.eqb_neq _ _)) by lia. by apply Hs2.
Qed.

Lemma type_put_ok s vs n v t u : vm_ok s -> stack_is s vs -> vs !! n = Some (v, t) ->
  forall k, k = Z.of_nat n + 1 ->
  exists s', type_put k u s = (Ok tt, s') /\ vm_ok s' /\ stack_is s' (<[n := (v, u)]> vs) /\ same_rest s s' /\
    vm_stk_max s' = vm_stk_max s.
Proof.
  intros Hok Hs Hn k ->. pose proof (lookup_lt_Some _ _ _ Hn) as Hl. pose proof (stack_len _ _ Hs) as HL.
  pose proof Hok as []. unfold type_put. rewrite (bind_ok get _ s s s eq_refl).
  destruct (mem_write_cell (vm_type_stk s) (vm_stk_pos s - (Z.of_nat n + 1)) u) as (l & E & HZ & HJ); [lia|].
  rewrite E. cbn [of_option]. rewrite ret_bind. eexists. split; [done|].
  assert (HR : same_rest s (set_stk (vm_stk_max s) (vm_stk s) l s)) by (by destruct s).
  split; [apply (vm_ok_rest s); cbn; auto; congruence|]. split; [|split; [done|done]].
  destruct Hs as [Hs1 Hs2]. split; [unfold zlen in *; by rewrite length_insert|]. cbn. intros j y w Hj.
  rewrite list_lookup_insert in Hj by lia. rewrite HJ.
  destruct (decide (j = n)) as [->|Hne].
  - rewrite decide_True in Hj by lia. injection Hj as <- <-. rewrite (proj2 (Z.eqb_eq _ _)) by lia. split; [|done].
    by apply (Hs2 _ _ _ Hn).
  - rewrite decide_False in Hj by lia. rewrite (proj2 (Z.eqb_neq _ _)) by lia. by apply Hs2.
Qed.

(** [stk_pos--]: the word that was on top is still in its cell. *)
Lemma drop_ok s vs v t : vm_ok s -> stack_is s ((v, t) :: vs) ->
  exists s', move_stk (-1) s = (Ok tt, s') /\ vm_ok s' /\ stack_is s' vs /\ same_rest s s' /\
    vm_stk_max s' = vm_stk_max s /\ stk 0 s' = (Ok v, s') /\ in_u 64 v.
Proof.
  intros Hok Hs. pose proof (stack_len _ _ Hs) as HL. simpl in HL. pose proof Hok as [].
  pose proof (proj2 Hs 0%nat v t eq_refl) as [H0 _].
  exists (set_stk_pos (vm_stk_pos s + -1) s). split; [done|].
  assert (HR : same_rest s (set_stk_pos (vm_stk_pos s + -1) s)) by (by destruct s).
  split; [apply (vm_ok_rest s); cbn; auto; lia|]. split; [|split; [done|split; [done|split]]].
  - destruct Hs as [Hs1 Hs2]. split; [cbn; unfold zlen in *; simpl in *; lia|]. cbn. intros k x u Hk.
    destruct (Hs2 (S k) x u Hk) as [E1 E2]. rewrite <- E1, <- E2. split; f_equal; lia.
  - unfold stk. rewrite (bind_ok get _ _ _ _ eq_refl). cbn [vm_stk vm_stk_pos set_stk_pos].
    replace (vm_stk_pos s + -1 - 0) with (vm_stk_pos s - 1 - Z.of_nat 0) by lia. by rewrite H0.
  - by eapply (znth_word (vm_stk s)).
Qed.

Lemma push_ok s vs v t : vm_ok s -> stack_is s vs -> vm_stk_pos s < vm_stk_max s -> in_u 64 v ->
  exists s', push v t s = (Ok tt, s') /\ vm_ok s' /\ stack_is s' ((v, t) :: vs) /\ same_rest s s' /\
    vm_stk_max s' = vm_stk_max s.
Proof.
  intros Hok Hs Hm Hv. pose proof Hok as []. unfold push, stk_put, type_put.
  destruct (mem_write_cell (vm_stk s) (vm_stk_pos s - 0) v) as (l & E & HZ & HJ); [lia|].
  destruct (mem_write_cell (vm_type_stk s) (vm_stk_pos s - 0) t) as (l' & E' & HZ' & HJ'); [lia|].
  rewrite bind_assoc, (bind_ok get _ s s s eq_refl), E. cbn [of_option]. rewrite bind_assoc, ret_bind.
  rewrite (bind_ok (put _) _ s tt _ eq_refl), bind_assoc, (bind_ok get _ _ _ _ eq_refl). cbn. rewrite E'. cbn.
  eexists. split; [done|]. set (s' := set_stk_pos _ _). assert (HR : same_rest s s') by (by destruct s).
  split; [apply (vm_ok_rest s); cbn; auto; [lia|lia|congruence|by eapply write_words]|].
  split; [|split; [done|done]]. destruct Hs as [Hs1 Hs2].
  split; [cbn; rewrite zlen_cons; lia|]. cbn. intros k x u Hk. rewrite HJ, HJ'. destruct k as [|k].
  - injection Hk as <- <-. rewrite (proj2 (Z.eqb_eq _ _)) by lia. done.
  - rewrite (proj2 (Z.eqb_neq _ _)) by lia. cbn in Hk. destruct (Hs2 k x u Hk) as [E1 E2].
    rewrite <- E1, <- E2. split; f_equal; lia.
Qed.

Lemma grow_stk_ok s vs : vm_ok s -> stack_is s vs ->
  exists s', grow_stk s = (Ok tt, s') /\ vm_ok s' /\ stack_is s' vs /\ same_rest s s' /\
    vm_stk_pos s' + 4 <= vm_stk_max s'.
Proof.
  intros Hok Hs. pose proof Hok as []. unfold grow_stk. rewrite (bind_ok get _ s s s eq_refl).
  destruct (Z.ltb_spec (vm_stk_max s) (vm_stk_pos s + 4)) as [Hlt|Hge]; [|by exists s].
  eexists. split; [done|]. set (s' := set_stk _ _ _ _). assert (HR : same_rest s s') by (by destruct s).
  assert (H8 : zlen (replicate 8 0) = 8) by done.
  split; [apply (vm_ok_rest s); cbn [vm_stk_pos vm_stk_max vm_stk vm_type_stk s' set_stk]; auto;
    try (rewrite zlen_app, H8); try lia; apply Forall_app; split; [done|]; by repeat constructor|].
  split; [|split; [done|cbn; lia]]. destruct Hs as [Hs1 Hs2]. split; [done|].
  cbn [vm_stk_pos vm_stk vm_type_stk s' set_stk]. intros k x u Hk. destruct (Hs2 k x u Hk) as [E1 E2].
  apply lookup_lt_Some in Hk. unfold zlen in *. revert E1 E2. unfold znth.
  rewrite (proj2 (Z.leb_le _ _)) by lia. intros E1 E2. split; by apply lookup_app_l_Some.
Qed.

Lemma check_e_stack_ok s vs n : stack_is s vs ->
  check_e_stack n s = if Z.of_nat (length vs) <? n then (Exc ERR_INV_DWARF, s) else (Ok tt, s).
Proof.
  intros Hs. unfold check_e_stack. rewrite (bind_ok get _ s s s eq_refl), (stack_len _ _ Hs). by destruct (_ <? _).
Qed.

(** There is always a stack. *)
Lemma stack_exists s : vm_ok s -> exists vs, stack_is s vs.
Proof.
  intros []. set (n := Z.to_nat (vm_stk_pos s)).
  exists (reverse (zip (take n (vm_stk s)) (take n (vm_type_stk s)))).
  assert (HN : length (zip (take n (vm_stk s)) (take n (vm_type_stk s))) = n).
  { rewrite length_zip, !length_take. unfold zlen in *. lia. }
  split; [unfold zlen; rewrite length_reverse; lia|]. intros k v t Hk.
  pose proof (lookup_lt_Some _ _ _ Hk) as Hl. rewrite length_reverse in Hl.
  rewrite reverse_lookup in Hk by lia. rewrite HN in Hk. apply lookup_zip_Some in Hk as [H1 H2].
  rewrite lookup_take in H1, H2. case_decide; [|done]. unfold znth.
  rewrite (proj2 (Z.leb_le _ _)) by lia. rewrite <- H1, <- H2. split; f_equal; lia.
Qed.

Lemma stack_same s s' vs : vm_stk_pos s' = vm_stk_pos s -> vm_stk s' = vm_stk s -> vm_type_stk s' = vm_type_stk s ->
  stack_is s vs -> stack_is s' vs.
Proof. intros E1 E2 E3 [H1 H2]. split; rewrite ?E1, ?E2, ?E3; done. Qed.

(** ** Operands *)

Lemma set_code_pos_id s : set_code_pos (vm_code_pos s) s = s.
Proof. by destruct s. Qed.

Lemma set_code_pos_twice p q s : set_code_pos p (set_code_pos q s) = set_code_pos p s.
Proof. done. Qed.

Lemma code_pos_ok s p : vm_ok s -> 0 <= p < 2 ^ 64 -> vm_ok (set_code_pos p s).
Proof. intros [] Hp. by constructor. Qed.

(** A number of at least five bytes, from [code_pos] on, that goes on. *)
Definition long_leb (s : Vm) : Prop :=
  exists p, vm_code_pos s <= p /\ forall i, 0 <= i < 5 -> exists b, znth (vm_code s) (p + i) = Some b /\ 128 <= b.

(** A reader of operands moves the position forward, not past the end of the
    code, and changes nothing else.  [leb]: it reads a number in LEB128. *)
Definition reads {A} (leb : bool) (m : M Vm A) (Q : A -> Prop) : Prop :=
  forall s, vm_ok s -> exists p, vm_code_pos s <= p /\ (p <= vm_code_pos s \/ p <= vm_code_len s) /\
  match m s with
  | (Ok a, s') => s' = set_code_pos p s /\ Q a
  | (Exc _, s') => s' = set_code_pos p s
  | (Undef, _) => leb = true /\ long_leb s
  | (NoFuel, _) => False
  end.

Lemma vm_reads_ret {A} leb (a : A) (Q : A -> Prop) : Q a -> reads leb (mret a) Q.
Proof. intros Ha s Hs. exists (vm_code_pos s). split; [lia|]. split; [lia|]. by rewrite set_code_pos_id. Qed.

Lemma long_leb_before s p : vm_code_pos s <= p -> long_leb (set_code_pos p s) -> long_leb s.
Proof. intros Hp (q & Hq & H). exists q. split; [cbn in Hq; lia|done]. Qed.

Lemma vm_reads_bind {A B} leb (m : M Vm A) (f : A -> M Vm B) Q R : reads leb m Q ->
  (forall a, Q a -> reads leb (f a) R) -> reads leb (m ≫= f) R.
Proof.
  intros Hm Hf s Hs. destruct (Hm s Hs) as (p & Hp1 & Hp2 & H). unfold mbind, M_bind.
  destruct (m s) as [[a|e| |] s'].
  - destruct H as [-> Ha]. assert (Hs' : vm_ok (set_code_pos p s)).
    { pose proof Hs as []. apply code_pos_ok; [done|]. destruct Hp2; lia. }
    destruct (Hf a Ha _ Hs') as (q & Hq1 & Hq2 & H). cbn in Hq1, Hq2. exists q. split; [lia|]. split; [lia|].
    destruct (f a (set_code_pos p s)) as [[b|e| |] s'']; [exact H|exact H| |done].
    destruct H as [-> H]. split; [done|]. by eapply long_leb_before.
  - exists p. split; [done|]. split; [done|]. exact H.
  - exists p. split; [done|]. split; [done|]. exact H.
  - done.
Qed.

Lemma vm_reads_weaken {A} leb leb' (m : M Vm A) (Q R : A -> Prop) : reads leb m Q -> (leb = true -> leb' = true) ->
  (forall a, Q a -> R a) -> reads leb' m R.
Proof.
  intros Hm Hl HQ s Hs. destruct (Hm s Hs) as (p & Hp1 & Hp2 & H). exists p. split; [done|]. split; [done|].
  destruct (m s) as [[a|e| |] s']; [|done| |done].
  - destruct H as [-> Ha]. auto.
  - destruct H as [H1 H2]. auto.
Qed.

Lemma reads_get {A} leb (f : Vm -> M Vm A) Q : (forall s, vm_ok s -> reads leb (f s) Q) -> reads leb (s ← get; f s) Q.
Proof. intros Hf s Hs. rewrite (bind_ok get _ s s s eq_refl). by apply Hf. Qed.

Lemma reads_exc {A} leb e (Q : A -> Prop) : reads leb (exception e) Q.
Proof. intros s Hs. exists (vm_code_pos s). split; [lia|]. split; [lia|]. by rewrite set_code_pos_id. Qed.

Lemma reads_u1 leb : reads leb read_u1 is_byte.
Proof.
  intros s Hs. unfold read_u1. rewrite (bind_ok get _ s s s eq_refl). pose proof Hs as [].
  destruct (Z.leb_spec (vm_code_len s) (vm_code_pos s)) as [Hle|Hgt].
  - exists (vm_code_pos s). split; [lia|]. split; [lia|]. cbn. by rewrite set_code_pos_id.
  - destruct (znth_Some (vm_code s) (vm_code_pos s)) as [b Eb]; [lia|]. rewrite Eb. cbn.
    exists (vm_code_pos s + 1). split; [lia|]. split; [lia|]. split; [done|].
    unfold znth in Eb. destruct (_ <=? _); [|done]. by eapply Forall_lookup_1.
Qed.

Lemma join_range w x0 x1 : 0 <= w -> in_u w x0 -> in_u w x1 -> in_u (w + w) (Z.lor (Z.shiftl x0 w) x1).
Proof.
  unfold in_u. intros Hw H0 H1. rewrite lor_shiftl_add, Z.pow_add_r by lia. nia.
Qed.

Lemma reads_join leb w x0 x1 : 0 <= w -> in_u w x0 -> in_u w x1 -> reads leb (join_halves w x0 x1) (in_u (w + w)).
Proof.
  intros Hw H0 H1. apply reads_get. intros s _. apply vm_reads_ret.
  destruct (vm_big_endian s); [|rewrite Z.lor_comm]; by apply join_range.
Qed.

Lemma reads_u2 leb : reads leb read_u2 (in_u 16).
Proof.
  eapply vm_reads_bind; [apply reads_u1|]. intros x0 H0. eapply vm_reads_bind; [apply reads_u1|]. intros x1 H1.
  by apply (reads_join leb 8).
Qed.

Lemma reads_u4 leb : reads leb read_u4 (in_u 32).
Proof.
  eapply vm_reads_bind; [apply reads_u2|]. intros x0 H0. eapply vm_reads_bind; [apply reads_u2|]. intros x1 H1.
  by apply (reads_join leb 16).
Qed.

Lemma reads_u8 leb : reads leb read_u8 (in_u 64).
Proof.
  eapply vm_reads_bind; [apply reads_u4|]. intros x0 H0. eapply vm_reads_bind; [apply reads_u4|]. intros x1 H1.
  by apply (reads_join leb 32).
Qed.

(** One byte of a number in LEB128; [run] bytes with the high bit precede it. *)
Definition high_run (s : Vm) (p n : Z) : Prop :=
  forall i, 0 <= i < n -> exists b, znth (vm_code s) (p + i) = Some b /\ 128 <= b.

Lemma read_u1_cases s : vm_ok s ->
  (exists b, read_u1 s = (Ok b, set_code_pos (vm_code_pos s + 1) s) /\ is_byte b /\
    znth (vm_code s) (vm_code_pos s) = Some b /\ vm_code_pos s < vm_code_len s) \/
  read_u1 s = (Exc ERR_INV_DWARF, s).
Proof.
  intros Hs. unfold read_u1. rewrite (bind_ok get _ s s s eq_refl). pose proof Hs as [].
  destruct (Z.leb_spec (vm_code_len s) (vm_code_pos s)) as [Hle|Hgt]; [by right|].
  destruct (znth_Some (vm_code s) (vm_code_pos s)) as [b Eb]; [lia|]. rewrite Eb. left. exists b.
  split; [done|]. split; [|done]. unfold znth in Eb. destruct (_ <=? _); [|done]. by eapply Forall_lookup_1.
Qed.

Lemma leb_range w sign res n i : 0 < w -> in_u w res ->
  in_u w (if (sign : bool) then Z.lor (Z.lor res (wrapu w (Z.shiftl (Z.land n 127) i))) (wrapu w (Z.shiftl (- Z.land n 64) i))
          else Z.lor res (wrapu w (Z.shiftl (Z.land n 127) i))).
Proof. intros Hw Hr. destruct sign; auto with lia. Qed.

Lemma leb_loop w sign : w = 32 \/ w = 64 -> forall fuel k res s p, vm_ok s -> vm_code_pos s = p + k -> 0 <= k ->
  high_run s p k -> in_u w res -> w < 7 * (Z.of_nat fuel + k) ->
  exists q, vm_code_pos s <= q /\ (q <= vm_code_pos s \/ q <= vm_code_len s) /\
  match read_leb128 read_u1 fuel w sign res (7 * k) s with
  | (Ok a, s') => s' = set_code_pos q s /\ in_u w a
  | (Exc _, s') => s' = set_code_pos q s
  | (Undef, _) => high_run s p 5
  | (NoFuel, _) => False
  end.
Proof.
  intros Hw fuel. induction fuel as [|fuel IH]; intros k res s p Hs Hp Hk Hr Hres Hf.
  { exists (vm_code_pos s). split; [lia|]. split; [lia|]. cbn. intros i Hi. apply Hr. lia. }
  cbn [read_leb128]. destruct (read_u1_cases s Hs) as [(n & E & Hn & Ec & Hlt)|E].
  2:{ exists (vm_code_pos s). split; [lia|]. split; [lia|]. rewrite (bind_exc _ _ _ _ _ E). by rewrite set_code_pos_id. }
  rewrite (bind_ok _ _ _ _ _ E). destruct (Z.ltb_spec (7 * k) w) as [Hi|Hi]; cbn [assertm].
  2:{ exists (vm_code_pos s). split; [lia|]. split; [lia|]. cbn. intros i Hi'. apply Hr. lia. }
  rewrite ret_bind, high_bit by done. destruct (Z.ltb_spec n 128) as [Hlo|Hhi].
  - exists (vm_code_pos s + 1). split; [lia|]. split; [lia|]. cbn. split; [done|]. apply leb_range; [lia|done].
  - assert (Hs' : vm_ok (set_code_pos (vm_code_pos s + 1) s)) by (pose proof Hs as []; apply code_pos_ok; [done|lia]).
    replace (7 * k + 7) with (7 * (k + 1)) by lia.
    destruct (IH (k + 1) (Z.lor res (wrapu w (Z.shiftl (Z.land n 127) (7 * k)))) _ p Hs') as (q & Hq1 & Hq2 & HQ);
      [cbn; lia|lia| |auto with lia|lia|].
    + intros i Hi'. cbn. destruct (decide (i = k)) as [->|Hne]; [|apply Hr; lia].
      exists n. split; [|lia]. by rewrite <- Hp.
    + cbn in Hq1, Hq2. exists q. split; [lia|]. split; [lia|].
      destruct (read_leb128 read_u1 fuel w sign _ _ _) as [[a|e| |] s']; done.
Qed.

Lemma reads_leb w sign fuel : w = 32 \/ w = 64 -> w < 7 * Z.of_nat fuel -> reads true (read_leb128 read_u1 fuel w sign 0 0) (in_u w).
Proof.
  intros Hw Hf s Hs. destruct (leb_loop w sign Hw fuel 0 0 s (vm_code_pos s) Hs) as (q & H1 & H2 & HQ);
    [lia|lia|intros i Hi; lia|destruct Hw as [->| ->]; auto with lia|lia|].
  exists q. split; [done|]. split; [done|]. change (7 * 0) with 0 in HQ.
  destruct (read_leb128 _ _ _ _ _ _ _) as [[a|e| |] s']; try done. split; [done|].
  exists (vm_code_pos s). by split.
Qed.

Lemma reads_u4leb128 : reads true read_u4leb128 (in_u 32).
Proof. apply reads_leb; [by left|done]. Qed.
Lemma reads_u8leb128 : reads true read_u8leb128 (in_u 64).
Proof. apply reads_leb; [by right|done]. Qed.
Lemma reads_i8leb128 : reads true read_i8leb128 (in_u 64).
Proof. apply reads_leb; [by right|done]. Qed.

Lemma vm_reads_map {A} leb (m : M Vm A) (Q R : A -> Prop) (f : A -> A) : reads leb m Q -> (forall a, Q a -> R (f a)) ->
  reads leb (x ← m; mret (f x)) R.
Proof. intros Hm Hf. eapply vm_reads_bind; [exact Hm|]. intros a Ha. by apply vm_reads_ret, Hf. Qed.

Lemma reads_ia leb : reads leb read_ia (in_u 64).
Proof.
  apply reads_get. intros s _. assert (HW : forall x, in_u 64 (u64 x)) by (intros; auto with lia).
  destruct (_ =? 1); [by eapply vm_reads_map; [apply reads_u1|auto]|].
  destruct (_ =? 2); [by eapply vm_reads_map; [apply reads_u2|auto]|].
  destruct (_ =? 4); [by eapply vm_reads_map; [apply reads_u4|auto]|].
  destruct (_ =? 8); [apply reads_u8|apply reads_exc].
Qed.

Lemma reads_ua leb : reads leb read_ua (in_u 64).
Proof.
  apply reads_get. intros s _.
  destruct (_ =? 1); [by eapply vm_reads_weaken; [apply reads_u1|done|]; intros a; unfold is_byte, in_u; lia|].
  destruct (_ =? 2); [by eapply vm_reads_weaken; [apply reads_u2|done|]; intros a; apply in_u_weaken|].
  destruct (_ =? 4); [by eapply vm_reads_weaken; [apply reads_u4|done|]; intros a; apply in_u_weaken|].
  destruct (_ =? 8); [apply reads_u8|apply reads_exc].
Qed.
