(* ===== verification/VmSafe.v ===== *)
(** * The location expression machine: safety

    Whatever the code is, an operation stays inside of the arrays and of the code
    and keeps the invariant; what it may leave undefined is listed. *)

From S2P Require Import Prelude ByteSource Registers Vm VmSpec.

(** What an operation may change: not the code, and it moves forward in it. *)
Record keeps (s s' : Vm) : Prop := {
  kp_ok : vm_ok s';
  kp_code : vm_code s' = vm_code s;
  kp_code_len : vm_code_len s' = vm_code_len s;
  kp_big_endian : vm_big_endian s' = vm_big_endian s;
  kp_code_pos : vm_code_pos s <= vm_code_pos s';
}.

Lemma keeps_refl s : vm_ok s -> keeps s s.
Proof. by constructor. Qed.

Lemma keeps_trans s1 s2 s3 : keeps s1 s2 -> keeps s2 s3 -> keeps s1 s3.
Proof. intros [] []. constructor; auto; congruence || lia. Qed.

Lemma keeps_rest s s' : vm_ok s' -> same_rest s s' -> keeps s s'.
Proof. intros Hs HR. constructor; [done|..]; rewrite HR; done || (cbn; lia). Qed.

Lemma keeps_code_pos s p : vm_ok s -> vm_code_pos s <= p -> p <= vm_code_pos s \/ p <= vm_code_len s ->
  keeps s (set_code_pos p s).
Proof. intros Hs H1 H2. constructor; auto. apply code_pos_ok; [done|]. destruct Hs, H2; lia. Qed.

(** With at least [n] words on the stack and room for one more; [hz] is when the
    outcome is undefined. *)
Definition behaves (n : nat) (hz : Vm -> Prop) (m : M Vm unit) : Prop :=
  forall s vs, vm_ok s -> stack_is s vs -> vm_stk_pos s < vm_stk_max s -> (n <= length vs)%nat ->
  match m s with
  | (Ok _, s') => keeps s s'
  | (Exc _, s') => keeps s s'
  | (Undef, _) => hz s
  | (NoFuel, _) => False
  end.

Definition never (s : Vm) : Prop := False.
Definition always (s : Vm) : Prop := True.

Lemma behaves_weaken n n' (hz hz' : Vm -> Prop) m : behaves n hz m -> (n <= n')%nat -> (forall s, hz s -> hz' s) ->
  behaves n' hz' m.
Proof.
  intros Hm Hn Hh s vs Hok Hs Hr Hl. specialize (Hm s vs Hok Hs Hr ltac:(lia)). destruct (m s) as [[] ?]; auto.
Qed.

Lemma behaves_never n hz m : behaves n never m -> behaves n hz m.
Proof. intros Hm. by eapply behaves_weaken; [exact Hm| |]. Qed.

Lemma behaves_exc n hz e : behaves n hz (exception e).
Proof. intros s vs Hok Hs Hr Hl. by apply keeps_refl. Qed.

Lemma behaves_ret n hz : behaves n hz (mret tt).
Proof. intros s vs Hok Hs Hr Hl. by apply keeps_refl. Qed.

Lemma behaves_check n hz k m : behaves n hz m -> k = Z.of_nat n -> behaves 0 hz (check_e_stack k ;; m).
Proof.
  intros Hm -> s vs Hok Hs Hr Hl. pose proof (check_e_stack_ok s vs (Z.of_nat n) Hs) as E.
  destruct (Z.ltb_spec (Z.of_nat (length vs)) (Z.of_nat n)) as [Hlt|Hge].
  - rewrite (bind_exc _ _ _ _ _ E). by apply keeps_refl.
  - rewrite (bind_ok _ _ _ _ _ E). apply (Hm s vs); auto; lia.
Qed.

Lemma behaves_reads {A} n leb (hz : Vm -> Prop) (m : M Vm A) (f : A -> M Vm unit) Q : reads leb m Q ->
  (leb = true -> forall s, long_leb s -> hz s) ->
  (forall s p, vm_code_pos s <= p -> hz (set_code_pos p s) -> hz s) ->
  (forall a, Q a -> behaves n hz (f a)) -> behaves n hz (m ≫= f).
Proof.
  intros Hm Hl Hmono Hf s vs Hok Hs Hr Hn. destruct (Hm s Hok) as (p & Hp1 & Hp2 & H). unfold mbind, M_bind.
  pose proof (keeps_code_pos s p Hok Hp1 Hp2) as HK.
  destruct (m s) as [[a|e| |] s'].
  - destruct H as [-> Ha]. specialize (Hf a Ha (set_code_pos p s) vs (kp_ok _ _ HK)).
    specialize (Hf ltac:(by eapply (stack_same s)) Hr Hn).
    destruct (f a (set_code_pos p s)) as [[b|e| |] s'']; [by eapply keeps_trans|by eapply keeps_trans| |done].
    by eapply Hmono.
  - by subst.
  - destruct H as [-> H]. auto.
  - done.
Qed.

Lemma behaves_leb {A} n (m : M Vm A) (f : A -> M Vm unit) Q : reads true m Q ->
  (forall a, Q a -> behaves n long_leb (f a)) -> behaves n long_leb (m ≫= f).
Proof. intros Hm Hf. eapply behaves_reads; [exact Hm|auto|intros s p; apply long_leb_before|done]. Qed.

Lemma behaves_read {A} n hz (m : M Vm A) (f : A -> M Vm unit) Q : reads false m Q ->
  (forall s p, vm_code_pos s <= p -> hz (set_code_pos p s) -> hz s) ->
  (forall a, Q a -> behaves n hz (f a)) -> behaves n hz (m ≫= f).
Proof. intros Hm Hz Hf. eapply behaves_reads; [exact Hm|done|done|done]. Qed.

Lemma always_mono s p : vm_code_pos s <= p -> always (set_code_pos p s) -> always s.
Proof. done. Qed.
Lemma never_mono s p : vm_code_pos s <= p -> never (set_code_pos p s) -> never s.
Proof. done. Qed.
Lemma long_leb_mono s p : vm_code_pos s <= p -> long_leb (set_code_pos p s) -> long_leb s.
Proof. apply long_leb_before. Qed.

Create HintDb vm.
#[export] Hint Resolve always_mono never_mono long_leb_mono behaves_ret behaves_exc : vm.

Lemma behaves_get n hz (f : Vm -> M Vm unit) :
  (forall s vs, vm_ok s -> stack_is s vs -> vm_stk_pos s < vm_stk_max s -> (n <= length vs)%nat ->
    match f s s with
    | (Ok _, s') | (Exc _, s') => keeps s s' | (Undef, _) => hz s | (NoFuel, _) => False end) ->
  behaves n hz (s ← get; f s).
Proof. intros Hf s vs Hok Hs Hr Hl. rewrite (bind_ok get _ s s s eq_refl). by apply (Hf s vs). Qed.

(** A word of the stack is looked at. *)
Lemma behaves_stk n hz k (f : Z -> M Vm unit) : (0 < k <= n)%nat ->
  (forall v, in_u 64 v -> behaves n hz (f v)) -> behaves n hz (v ← stk (Z.of_nat k); f v).
Proof.
  intros Hk Hf s vs Hok Hs Hr Hl. destruct (lookup_lt_is_Some_2 vs (k - 1)) as [[v t] E]; [lia|].
  rewrite (bind_ok _ _ _ _ _ (stk_ok s vs _ v t Hs E (Z.of_nat k) ltac:(lia))). apply (Hf v) with (vs := vs); auto.
  destruct (proj2 Hs _ _ _ E) as [E1 _]. destruct Hok. by eapply (znth_word (vm_stk s)).
Qed.

Lemma behaves_type_stk n hz k (f : Z -> M Vm unit) : (0 < k <= n)%nat ->
  (forall t, behaves n hz (f t)) -> behaves n hz (t ← type_stk (Z.of_nat k); f t).
Proof.
  intros Hk Hf s vs Hok Hs Hr Hl. destruct (lookup_lt_is_Some_2 vs (k - 1)) as [[v t] E]; [lia|].
  rewrite (bind_ok _ _ _ _ _ (type_ok s vs _ v t Hs E (Z.of_nat k) ltac:(lia))). by apply (Hf t) with (vs := vs).
Qed.

(** Words are written, pushed and dropped. *)
Lemma behaves_put n k x m : (0 < k <= n)%nat -> in_u 64 x -> behaves n never m ->
  behaves n never (stk_put (Z.of_nat k) x ;; m).
Proof.
  intros Hk Hx Hm s vs Hok Hs Hr Hl. destruct (lookup_lt_is_Some_2 vs (k - 1)) as [[v t] E]; [lia|].
  destruct (stk_put_ok s vs _ v t x Hok Hs E Hx (Z.of_nat k) ltac:(lia)) as (s' & E' & Hok' & Hs' & HR & HM).
  rewrite (bind_ok _ _ _ _ _ E'). pose proof (keeps_rest _ _ Hok' HR) as HK.
  specialize (Hm s' _ Hok' Hs'). rewrite length_insert in Hm. specialize (Hm ltac:(destruct Hs, Hs'; unfold zlen in *; rewrite length_insert in *; lia) Hl).
  destruct (m s') as [[]]; try done; by eapply keeps_trans.
Qed.

Lemma behaves_type_put n k u m : (0 < k <= n)%nat -> behaves n never m ->
  behaves n never (type_put (Z.of_nat k) u ;; m).
Proof.
  intros Hk Hm s vs Hok Hs Hr Hl. destruct (lookup_lt_is_Some_2 vs (k - 1)) as [[v t] E]; [lia|].
  destruct (type_put_ok s vs _ v t u Hok Hs E (Z.of_nat k) ltac:(lia)) as (s' & E' & Hok' & Hs' & HR & HM).
  rewrite (bind_ok _ _ _ _ _ E'). pose proof (keeps_rest _ _ Hok' HR) as HK.
  specialize (Hm s' _ Hok' Hs'). rewrite length_insert in Hm. specialize (Hm ltac:(destruct Hs, Hs'; unfold zlen in *; rewrite length_insert in *; lia) Hl).
  destruct (m s') as [[]]; try done; by eapply keeps_trans.
Qed.

(** A last call is like a call before nothing. *)
Lemma behaves_last n hz m : behaves n hz (m ;; mret tt) -> behaves n hz m.
Proof.
  intros Hm s vs Hok Hs Hr Hl. specialize (Hm s vs Hok Hs Hr Hl). revert Hm. unfold mbind, M_bind.
  destruct (m s) as [[[]| | |] s']; done.
Qed.

Lemma behaves_push v t : in_u 64 v -> behaves 0 never (push v t).
Proof.
  intros Hv s vs Hok Hs Hr _. destruct (push_ok s vs v t Hok Hs Hr Hv) as (s' & -> & Hok' & _ & HR & _).
  by apply keeps_rest.
Qed.

Lemma behaves_move n m : behaves n never m -> behaves (S n) never (move_stk (-1) ;; m).
Proof.
  intros Hm s vs Hok Hs Hr Hl. destruct vs as [|[v t] vs]; [simpl in Hl; lia|].
  destruct (drop_ok s vs v t Hok Hs) as (s' & E & Hok' & Hs' & HR & HM & _). rewrite (bind_ok _ _ _ _ _ E).
  pose proof (keeps_rest _ _ Hok' HR) as HK. pose proof (stack_len _ _ Hs). pose proof (stack_len _ _ Hs'). simpl in *.
  specialize (Hm s' vs Hok' Hs' ltac:(lia) ltac:(lia)).
  destruct (m s') as [[]]; try done; by eapply keeps_trans.
Qed.

(** The word that is dropped is used: [hz] may depend on it. *)
Lemma behaves_pop n (P : Z -> Prop) (f : Z -> M Vm unit) :
  (forall v, in_u 64 v -> behaves n (fun _ => P v) (f v)) ->
  behaves (S n) (fun s => exists v t vs, stack_is s ((v, t) :: vs) /\ P v) (move_stk (-1) ;; v ← stk 0; f v).
Proof.
  intros Hf s vs Hok Hs Hr Hl. destruct vs as [|[v t] vs]; [simpl in Hl; lia|].
  destruct (drop_ok s vs v t Hok Hs) as (s' & E & Hok' & Hs' & HR & HM & Ev & Hv).
  rewrite (bind_ok _ _ _ _ _ E), (bind_ok _ _ _ _ _ Ev).
  pose proof (keeps_rest _ _ Hok' HR) as HK. pose proof (stack_len _ _ Hs). pose proof (stack_len _ _ Hs'). simpl in *.
  specialize (Hf v Hv s' vs Hok' Hs' ltac:(lia) ltac:(lia)).
  destruct (f v s') as [[]]; try done; [by eapply keeps_trans..|]. by exists v, t, vs.
Qed.

Lemma behaves_pop_never n (f : Z -> M Vm unit) :
  (forall v, in_u 64 v -> behaves n never (f v)) -> behaves (S n) never (move_stk (-1) ;; v ← stk 0; f v).
Proof.
  intros Hf. eapply behaves_weaken; [apply (behaves_pop n (fun _ => False)); exact Hf|done|].
  by intros s (v & t & vs & _ & []).
Qed.

Lemma behaves_replace_top v t : in_u 64 v -> behaves 1 never (replace_top v t).
Proof.
  intros Hv. unfold replace_top. apply (behaves_put 1 1); [lia|done|]. apply behaves_last, (behaves_type_put 1 1); [lia|].
  auto with vm.
Qed.

(** ** The environment *)

Record env_ok (env : VmEnv) : Prop := {
  env_mem a n l : context_read_mem env a n = inl l -> 0 <= n -> zlen l = n /\ is_bytes l;
  env_reg f r v : read_reg_value env f r = inl v -> in_u 64 v;
  env_fp f : in_u 64 (frame_fp env f);
  env_symbol id v b : get_symbol_value env id = inl (v, b) -> is_bytes v;
}.

Section safe.
Context (env : VmEnv) (Henv : env_ok env).

Lemma behaves_memory n addr size (f : Z -> M Vm unit) hz : 0 <= size ->
  (8 < size -> forall s, hz s) ->
  (forall v, in_u 64 v -> behaves n hz (f v)) -> behaves n hz (v ← read_memory env addr size; f v).
Proof.
  intros Hsz Hz Hf s vs Hok Hs Hr Hl. unfold read_memory. rewrite bind_assoc, (bind_ok get _ s s s eq_refl).
  destruct (Z.leb_spec size 8) as [Hle|Hgt]; cbn [assertm]; [|cbn; by apply Hz].
  rewrite bind_assoc, ret_bind. destruct (context_read_mem env addr size) as [l|e] eqn:E; cbn [of_result].
  - destruct (env_mem _ Henv _ _ _ E Hsz) as [HL HB]. rewrite bind_assoc, ret_bind. 
    change ((mret (be_value (if vm_big_endian s then l else reverse l)) ≫= f) s)
      with (f (be_value (if vm_big_endian s then l else reverse l)) s).
    apply Hf with (vs := vs); auto. apply be_value_range. destruct (vm_big_endian s); [done|by apply Forall_reverse].
  - rewrite bind_assoc. by apply keeps_refl.
Qed.

Lemma behaves_addr_size n hz (f : Z -> M Vm unit) : (forall k, 0 <= k <= 8 -> behaves n hz (f k)) ->
  behaves n hz (k ← addr_size; f k).
Proof.
  intros Hf s vs Hok Hs Hr Hl. unfold addr_size. rewrite (bind_ok (gets _) _ s _ s eq_refl).
  apply Hf with (vs := vs); auto. destruct Hok. rewrite !elem_of_cons, elem_of_nil in ok_addr_size. lia.
Qed.

(** ** The operations *)

Definition size_at_pos (s : Vm) : Prop := exists n, znth (vm_code s) (vm_code_pos s) = Some n /\ 8 < n.

Lemma behaves_deref size convert : 0 <= size <= 8 -> (forall v, in_u 64 v -> in_u 64 (convert v)) ->
  behaves 1 never (a ← stk 1; v ← read_memory env a size; replace_top (convert v) TYPE_CLASS_CARDINAL).
Proof.
  intros Hs Hc. apply (behaves_stk 1 never 1); [lia|]. intros a Ha. apply behaves_memory; [lia|lia|].
  intros v Hv. by apply behaves_replace_top, Hc.
Qed.

Lemma behaves_xderef size : 0 <= size <= 8 ->
  behaves 2 never (a ← stk 1; v ← read_memory env a size; stk_put 2 v ;; type_put 2 TYPE_CLASS_CARDINAL ;; move_stk (-1)).
Proof.
  intros Hs. apply (behaves_stk 2 never 1); [lia|]. intros a Ha. apply behaves_memory; [lia|lia|].
  intros v Hv. apply (behaves_put 2 2); [lia|done|]. apply (behaves_type_put 2 2); [lia|].
  apply behaves_last, behaves_move. auto with vm.
Qed.

(** The size is a byte of the code. *)
Lemma behaves_sized (n : nat) (f : Z -> M Vm unit) : (forall k, 0 <= k <= 8 -> behaves n never (f k)) ->
  (forall k, 8 < k -> behaves n always (f k)) ->
  behaves n size_at_pos (k ← read_u1; f k).
Proof.
  intros H1 H2 s vs Hok Hs Hr Hl. destruct (read_u1_cases s Hok) as [(b & E & Hb & Ec & Hlt)|E].
  2:{ rewrite (bind_exc _ _ _ _ _ E). by apply keeps_refl. }
  rewrite (bind_ok _ _ _ _ _ E).
  assert (HK : keeps s (set_code_pos (vm_code_pos s + 1) s)) by (apply keeps_code_pos; [done|lia|lia]).
  assert (Hs' : stack_is (set_code_pos (vm_code_pos s + 1) s) vs) by (by eapply (stack_same s)).
  unfold is_byte in Hb. destruct (Z.le_gt_cases b 8) as [Hle|Hgt].
  - specialize (H1 b ltac:(lia) _ _ (kp_ok _ _ HK) Hs' Hr Hl). destruct (f b _) as [[]]; try done; by eapply keeps_trans.
  - specialize (H2 b ltac:(lia) _ _ (kp_ok _ _ HK) Hs' Hr Hl). destruct (f b _) as [[]]; try done; [by eapply keeps_trans..|].
    by exists b.
Qed.

Lemma behaves_const leb read convert t Q : reads leb read Q -> (forall v, Q v -> in_u 64 (convert v)) ->
  behaves 0 (if leb then long_leb else never) (op_const read convert t).
Proof.
  intros Hr Hc. unfold op_const. destruct leb.
  - eapply behaves_leb; [exact Hr|]. intros v Hv. by apply behaves_never, behaves_push, Hc.
  - eapply behaves_read; [exact Hr|auto with vm|]. intros v Hv. by apply behaves_push, Hc.
Qed.

Lemma behaves_pick n hz : 0 <= n -> behaves 0 hz (op_pick n).
Proof.
  intros Hn. apply behaves_never. unfold op_pick. apply (behaves_check (S (Z.to_nat n))); [|lia].
  replace (n + 1) with (Z.of_nat (S (Z.to_nat n))) by lia. apply behaves_stk; [lia|]. intros v Hv.
  apply behaves_type_stk; [lia|]. intros t. eapply behaves_weaken; [by apply behaves_push|lia|done].
Qed.

Lemma behaves_swap : behaves 0 never op_swap.
Proof.
  apply (behaves_check 2); [|done]. apply (behaves_stk 2 never 1); [lia|]. intros v1 H1.
  apply (behaves_type_stk 2 never 1); [lia|]. intros t1. apply (behaves_stk 2 never 2); [lia|]. intros v2 H2.
  apply (behaves_put 2 1); [lia|done|]. apply (behaves_type_stk 2 never 2); [lia|]. intros t2.
  apply (behaves_type_put 2 1); [lia|]. apply (behaves_put 2 2); [lia|done|].
  apply behaves_last, (behaves_type_put 2 2); [lia|]. auto with vm.
Qed.

Lemma behaves_rot : behaves 0 never op_rot.
Proof.
  apply (behaves_check 3); [|done]. apply (behaves_stk 3 never 1); [lia|]. intros v1 H1.
  apply (behaves_type_stk 3 never 1); [lia|]. intros t1. apply (behaves_stk 3 never 2); [lia|]. intros v2 H2.
  apply (behaves_put 3 1); [lia|done|]. apply (behaves_type_stk 3 never 2); [lia|]. intros t2.
  apply (behaves_type_put 3 1); [lia|]. apply (behaves_stk 3 never 3); [lia|]. intros v3 H3.
  apply (behaves_put 3 2); [lia|done|]. apply (behaves_type_stk 3 never 3); [lia|]. intros t3.
  apply (behaves_type_put 3 2); [lia|]. apply (behaves_put 3 3); [lia|done|].
  apply behaves_last, (behaves_type_put 3 2); [lia|]. auto with vm.
Qed.

Lemma behaves_unary f : behaves 0 never (op_unary f).
Proof.
  apply (behaves_check 1); [|done]. apply (behaves_stk 1 never 1); [lia|]. intros v Hv.
  apply behaves_last, (behaves_put 1 1); [lia|auto with lia|]. auto with vm.
Qed.

Lemma behaves_abs : behaves 0 never op_abs.
Proof.
  apply (behaves_check 1); [|done]. apply (behaves_stk 1 never 1); [lia|]. intros v Hv.
  destruct (_ <? _); [|auto with vm]. apply behaves_last, (behaves_put 1 1); [lia|auto with lia|]. auto with vm.
Qed.

Lemma behaves_binary guard (P : Z -> Prop) f :
  (forall b n (m : M Vm unit), behaves n never m -> behaves n (fun _ => P b) (guard b ;; m)) ->
  behaves 0 (fun s => exists v t vs, stack_is s ((v, t) :: vs) /\ P v) (op_binary guard f).
Proof.
  intros HG. apply (behaves_check 2); [|done]. apply behaves_pop. intros b Hb. apply HG.
  apply (behaves_stk 1 never 1); [lia|]. intros a Ha.
  apply behaves_last, (behaves_put 1 1); [lia|auto with lia|]. auto with vm.
Qed.

Lemma behaves_total guard f :
  (forall b n (m : M Vm unit), behaves n never m -> behaves n never (guard b ;; m)) -> behaves 0 never (op_binary guard f).
Proof.
  intros HG. eapply behaves_weaken; [apply (behaves_binary guard (fun _ => False)); exact HG|done|].
  by intros s (v & t & vs & _ & []).
Qed.

Lemma guard_none b n (m : M Vm unit) : behaves n never m -> behaves n never (no_guard b ;; m).
Proof. done. Qed.

Lemma guard_zero b n (m : M Vm unit) : behaves n never m -> behaves n never (not_zero b ;; m).
Proof. unfold not_zero. destruct (b =? 0); [|done]. intros _ s vs Hok Hs Hr Hl. by apply keeps_refl. Qed.

Lemma guard_shift b n (m : M Vm unit) : behaves n never m -> behaves n (fun _ => 64 <= b) (shift_count b ;; m).
Proof.
  unfold shift_count. intros Hm. destruct (Z.ltb_spec b 64) as [Hlt|Hge]; cbn [assertm]; [by apply behaves_never|].
  intros s vs Hok Hs Hr Hl. exact Hge.
Qed.

Lemma behaves_compare f : behaves 0 never (op_compare f).
Proof.
  unfold op_compare, op_binary.
  assert (HA : forall m1 m2 : M Vm unit, behaves 0 never (check_e_stack 2 ;; m1 ;; m2) ->
    behaves 0 never ((check_e_stack 2 ;; m1) ;; m2)).
  { intros m1 m2 Hm s vs Hok Hs Hr Hl. rewrite bind_assoc. by apply (Hm s vs). }
  apply HA. apply (behaves_check 2); [|done].
  assert (HB : forall (f : Z -> M Vm unit) m2, behaves 2 never (move_stk (-1) ;; v ← stk 0; (f v ;; m2)) ->
    behaves 2 never ((move_stk (-1) ;; v ← stk 0; f v) ;; m2)).
  { intros g m2 Hm s vs Hok Hs Hr Hl. specialize (Hm s vs Hok Hs Hr Hl). revert Hm. unfold mbind, M_bind.
    destruct (move_stk (-1) s) as [[[]| | |] s1]; try done; by destruct (stk 0 s1) as [[]]. }
  apply HB, behaves_pop_never. intros b Hb s vs Hok Hs Hr Hl.
  assert (HC : behaves 1 never (a ← stk 1; stk_put 1 (u64 (b2z (f a b))) ;; type_put 1 TYPE_CLASS_CARDINAL)).
  { apply (behaves_stk 1 never 1); [lia|]. intros a Ha. apply (behaves_put 1 1); [lia|auto with lia|].
    apply behaves_last, (behaves_type_put 1 1); [lia|]. auto with vm. }
  specialize (HC s vs Hok Hs Hr Hl). revert HC. unfold no_guard, mbind, M_bind, mret, M_ret.
  destruct (stk 1 s) as [[a| | |] s1]; try done; by destruct (stk_put 1 _ s1) as [[]].
Qed.

Lemma behaves_plus_uconst : behaves 0 long_leb op_plus_uconst.
Proof.
  apply (behaves_check 1); [|done]. eapply behaves_leb; [apply reads_u8leb128|]. intros n Hn.
  apply behaves_never. apply (behaves_stk 1 never 1); [lia|]. intros v Hv.
  apply behaves_last, (behaves_put 1 1); [lia|auto with lia|]. auto with vm.
Qed.

Lemma shra_loop_range n data : in_u 64 data -> in_u 64 (shra_loop n data).
Proof.
  revert data. induction n as [|n IH]; intros data Hd; [done|]. cbn [shra_loop]. apply IH.
  assert (H : in_u 64 (Z.shiftr data 1)).
  { unfold in_u in *. rewrite Z.shiftr_div_pow2 by lia. change (2 ^ 1) with 2. dlia. }
  cbv zeta. destruct (Z.testbit data 63); [|exact H]. apply in_u_lor; [lia|exact H|unfold in_u; lia].
Qed.

Lemma behaves_shra : behaves 0 never op_shra.
Proof.
  apply (behaves_check 2); [|done]. apply (behaves_stk 2 never 2); [lia|]. intros data Hd.
  apply (behaves_stk 2 never 1); [lia|]. intros cnt Hc. apply (behaves_put 2 2); [lia| |].
  - destruct (64 <=? cnt); [|by apply shra_loop_range]. by destruct (Z.testbit data 63).
  - apply behaves_last, behaves_move. auto with vm.
Qed.

(** *** Registers and frames *)

Lemma reads_check_end leb : reads leb check_end (fun _ => True).
Proof.
  intros s Hs. exists (vm_code_pos s). split; [lia|]. split; [lia|]. rewrite set_code_pos_id.
  pose proof Hs as []. unfold check_end, is_end_of_loc_expr.
  rewrite bind_assoc, (bind_ok get _ s s s eq_refl).
  destruct (Z.leb_spec (vm_code_len s) (vm_code_pos s)) as [Hle|Hgt]; [done|].
  destruct (znth_Some (vm_code s) (vm_code_pos s)) as [b ->]; [lia|]. cbn [of_option]. rewrite bind_assoc, !ret_bind.
  by destruct ((b =? 147) || (b =? 157) || (b =? 255)).
Qed.

(** What the invariant is about. *)
Definition core (s : Vm) :=
  ((vm_stk_pos s, vm_stk_max s, vm_stk s, vm_type_stk s), (vm_code s, vm_code_pos s, vm_code_len s, vm_addr_size s, vm_args s, vm_big_endian s)).

Lemma core_ok s s' : core s' = core s -> vm_ok s -> keeps s s' /\ (forall vs, stack_is s vs -> stack_is s' vs) /\
  vm_stk_pos s' = vm_stk_pos s /\ vm_stk_max s' = vm_stk_max s.
Proof.
  unfold core. intros E Hs. injection E as E1 E2 E3 E4 E5 E6 E7 E8 E9 E10.
  assert (Hs' : vm_ok s') by (destruct Hs; constructor; by rewrite ?E1, ?E2, ?E3, ?E4, ?E5, ?E6, ?E7, ?E8, ?E9).
  split; [by constructor; rewrite ?E5, ?E6, ?E7, ?E10|]. split; [|done]. intros vs. by apply stack_same.
Qed.

Lemma behaves_modify n g m : (forall s, core (g s) = core s) -> behaves n never m -> behaves n never (modify g ;; m).
Proof.
  intros Hg Hm s vs Hok Hs Hr Hl. rewrite (bind_ok (modify g) _ s tt (g s) eq_refl).
  destruct (core_ok s (g s) (Hg s) Hok) as (HK & Hst & E1 & E2).
  specialize (Hm (g s) vs (kp_ok _ _ HK) (Hst vs Hs) ltac:(lia) Hl).
  destruct (m (g s)) as [[]]; try done; by eapply keeps_trans.
Qed.

Lemma behaves_result {A} n hz (r : A + Z) (f : A -> M Vm unit) : (forall a, r = inl a -> behaves n hz (f a)) ->
  behaves n hz (a ← of_result r; f a).
Proof.
  intros Hf s vs Hok Hs Hr Hl. destruct r as [a|e]; cbn [of_result]; [by apply (Hf a eq_refl) with (vs := vs)|].
  by apply keeps_refl.
Qed.

Lemma behaves_register n : behaves 0 never (op_register env n).
Proof.
  unfold op_register. eapply behaves_read; [apply reads_check_end|auto with vm|]. intros _ _.
  apply behaves_result. intros def _. apply behaves_last, behaves_modify; [done|auto with vm].
Qed.

Lemma behaves_base_register leb n offs : reads leb offs (in_u 64) ->
  behaves 0 (if leb then long_leb else never) (op_base_register env n offs).
Proof.
  intros Ho. unfold op_base_register. apply behaves_result. intros def _. apply behaves_get. intros s vs Hok Hs Hr Hl.
  apply (behaves_result 0 _ (read_reg_value env (vm_frame s) def)
    (fun v => o ← offs; push (u64 (v + o)) TYPE_CLASS_CARDINAL)) with (vs := vs); auto.
  intros v Hv. destruct leb.
  - eapply behaves_leb; [exact Ho|]. intros o _. apply behaves_never, behaves_push. auto with lia.
  - eapply behaves_read; [exact Ho|auto with vm|]. intros o _. apply behaves_push. auto with lia.
Qed.

Lemma behaves_call_frame_cfa : behaves 0 never (op_call_frame_cfa env).
Proof.
  apply behaves_get. intros s vs Hok Hs Hr Hl. destruct (vm_frame s) as [f|]; [|by apply keeps_refl].
  by apply (behaves_push _ _ (env_fp _ Henv f)) with (vs := vs).
Qed.

Lemma behaves_push_object_address : behaves 0 never op_push_object_address.
Proof.
  apply behaves_get. intros s vs Hok Hs Hr Hl. pose proof Hok as []. destruct (vm_args s) as [|a l]; [by apply keeps_refl|].
  apply Forall_cons in ok_args as [Ha _]. by apply (behaves_push _ TYPE_CLASS_CARDINAL Ha) with (vs := vs).
Qed.

(** *** Pieces *)

(** The piece made of what waits: a register, a value, nothing, or the address
    on top of the stack. *)
Definition new_piece (s : Vm) (vs : list (Z * Z)) : LocationPiece :=
  set_lp_implicit_pointer (vm_implicit_pointer s)
    (match vm_reg_def s, vm_value_addr s, vs with
     | Some reg, _, _ => Build_LocationPiece false 0 (Some reg) None (rd_size reg) 0 0 0
     | None, Some value, _ => Build_LocationPiece false 0 None (Some value) (zlen value) 0 0 0
     | None, None, [] => Build_LocationPiece true 0 None None 0 0 0 0
     | None, None, (addr, _) :: _ => Build_LocationPiece false addr None None 0 0 0 0
     end).

Definition stack_after_piece (s : Vm) (vs : list (Z * Z)) : list (Z * Z) :=
  match vm_reg_def s, vm_value_addr s with None, None => tail vs | _, _ => vs end.

Lemma add_piece_ok s vs : vm_ok s -> stack_is s vs ->
  exists s', add_piece s = (Ok (new_piece s vs), s') /\ keeps s s' /\ stack_is s' (stack_after_piece s vs) /\
    vm_stk_pos s' <= vm_stk_pos s /\ vm_stk_max s' = vm_stk_max s /\ vm_code_pos s' = vm_code_pos s /\
    vm_pieces s' = vm_pieces s ++ [new_piece s vs] /\
    vm_reg_def s' = None /\ vm_value_addr s' = None /\ vm_implicit_pointer s' = 0.
Proof.
  intros Hok Hs. unfold add_piece. rewrite (bind_ok get _ s s s eq_refl).
  set (s1 := if vm_pieces_max s <=? zlen (vm_pieces s) then set_pieces (vm_pieces s) (vm_pieces_max s + 4) s else s).
  assert (E1 : (if vm_pieces_max s <=? zlen (vm_pieces s) then put (set_pieces (vm_pieces s) (vm_pieces_max s + 4) s)
    else mret tt) s = (Ok tt, s1)) by (subst s1; by destruct (_ <=? _)).
  rewrite (bind_ok _ _ _ _ _ E1).
  assert (HC : core s1 = core s /\ vm_pieces s1 = vm_pieces s) by (subst s1; by destruct (_ <=? _)).
  destruct HC as [HC HP1]. destruct (core_ok s s1 HC Hok) as (HK1 & Hst1 & Ep & Em).
  assert (Ec : vm_code_pos s1 = vm_code_pos s) by (by injection HC). clearbody s1.
  unfold new_piece, stack_after_piece.
  assert (HD : forall pc s2 vs2, keeps s1 s2 -> stack_is s2 vs2 -> vm_pieces s2 = vm_pieces s1 ->
    let s3 := set_implicit_pointer 0 (set_value_addr None (set_reg_def None (set_pieces (vm_pieces s2 ++ [pc]) (vm_pieces_max s2) s2))) in
    keeps s s3 /\ stack_is s3 vs2 /\ vm_pieces s3 = vm_pieces s ++ [pc]).
  { intros pc s2 vs2 HK2 Hs2 HP2 s3. destruct (core_ok s2 s3 eq_refl (kp_ok _ _ HK2)) as (HK3 & Hst3 & _).
    split; [eapply keeps_trans; [exact HK1|]; by eapply keeps_trans|]. split; [by apply Hst3|]. cbn. congruence. }
  assert (HK0 : keeps s1 s1) by (by apply keeps_refl, (kp_ok s)).
  destruct (vm_reg_def s) as [reg|]; [|destruct (vm_value_addr s) as [value|]].
  - rewrite ret_bind. eexists. split; [done|].
    destruct (HD (set_lp_implicit_pointer (vm_implicit_pointer s) (Build_LocationPiece false 0 (Some reg) None (rd_size reg) 0 0 0))
      s1 vs HK0 (Hst1 _ Hs) eq_refl) as (H1 & H2 & H3). split_and!; auto; cbn; lia.
  - rewrite ret_bind. eexists. split; [done|].
    destruct (HD (set_lp_implicit_pointer (vm_implicit_pointer s) (Build_LocationPiece false 0 None (Some value) (zlen value) 0 0 0))
      s1 vs HK0 (Hst1 _ Hs) eq_refl) as (H1 & H2 & H3). split_and!; auto; cbn; lia.
  - pose proof (stack_len _ _ Hs) as HL. destruct vs as [|[a t] vs]; simpl in HL.
    + rewrite (proj2 (Z.eqb_eq _ _)), ret_bind by lia. eexists. split; [done|].
      destruct (HD (set_lp_implicit_pointer (vm_implicit_pointer s) (Build_LocationPiece true 0 None None 0 0 0 0))
        s1 [] HK0 (Hst1 _ Hs) eq_refl) as (H1 & H2 & H3). split_and!; auto; cbn; lia.
    + rewrite (proj2 (Z.eqb_neq _ _)) by lia.
      destruct (drop_ok s1 vs a t (kp_ok _ _ HK1) (Hst1 _ Hs)) as (s2 & E2 & Hok2 & Hs2 & HR & HM & Ea & _).
      rewrite bind_assoc, (bind_ok _ _ _ _ _ E2), bind_assoc, (bind_ok _ _ _ _ _ Ea), ret_bind. eexists. split; [done|].
      assert (HP2 : vm_pieces s2 = vm_pieces s1 /\ vm_code_pos s2 = vm_code_pos s1) by (by rewrite HR).
      destruct (HD (set_lp_implicit_pointer (vm_implicit_pointer s) (Build_LocationPiece false a None None 0 0 0 0))
        s2 vs (keeps_rest _ _ Hok2 HR) Hs2 (proj1 HP2)) as (H1 & H2 & H3).
      pose proof (stack_len _ _ Hs2). split_and!; auto; cbn; try lia.
Qed.

Lemma behaves_add_piece m : (forall pc, behaves 0 long_leb (m pc)) -> behaves 0 long_leb (pc ← add_piece; m pc).
Proof.
  intros Hm s vs Hok Hs Hr Hl. destruct (add_piece_ok s vs Hok Hs) as (s' & E & HK & Hs' & Hp & HM & Hc & _).
  rewrite (bind_ok _ _ _ _ _ E). specialize (Hm (new_piece s vs) s' _ (kp_ok _ _ HK) Hs' ltac:(lia) ltac:(lia)).
  destruct (m _ s') as [[]]; try done; [by eapply keeps_trans..|]. destruct Hm as (p & H1 & H2). exists p.
  rewrite Hc, (kp_code _ _ HK) in *. done.
Qed.

Lemma behaves_update n f hz m : behaves n hz m -> (forall s s', core s' = core s -> hz s' -> hz s) ->
  behaves n hz (update_piece f ;; m).
Proof.
  intros Hm Hz s vs Hok Hs Hr Hl. unfold update_piece. rewrite (bind_ok (modify _) _ s tt _ eq_refl). set (s' := set_pieces _ _ _).
  destruct (core_ok s s' eq_refl Hok) as (HK & Hst & E1 & E2).
  specialize (Hm s' vs (kp_ok _ _ HK) (Hst _ Hs) Hr Hl).
  destruct (m s') as [[]]; try done; [by eapply keeps_trans..|]. by apply (Hz s s').
Qed.

Lemma long_leb_core s s' : core s' = core s -> long_leb s' -> long_leb s.
Proof.
  unfold core. intros E. injection E as _ _ _ _ E1 E2 _ _ _ _. intros (p & H1 & H2). exists p. rewrite E1, E2 in *. done.
Qed.

Lemma behaves_piece : behaves 0 long_leb op_piece.
Proof.
  apply behaves_add_piece. intros _. eapply behaves_leb; [apply reads_u4leb128|]. intros n _.
  apply behaves_last, behaves_update; [auto with vm|apply long_leb_core].
Qed.

Lemma behaves_bit_piece : behaves 0 long_leb op_bit_piece.
Proof.
  apply behaves_add_piece. intros _. eapply behaves_leb; [apply reads_u4leb128|]. intros n _.
  apply behaves_update; [|apply long_leb_core]. eapply behaves_leb; [apply reads_u4leb128|]. intros o _.
  apply behaves_last, behaves_update; [auto with vm|apply long_leb_core].
Qed.

(** *** Values *)

Lemma behaves_implicit_value : behaves 0 long_leb op_implicit_value.
Proof.
  eapply behaves_leb; [apply reads_u4leb128|]. intros n Hn. apply behaves_never, behaves_get.
  intros s vs Hok Hs Hr Hl. pose proof Hok as []. unfold in_u in Hn.
  destruct (Z.ltb_spec (vm_code_len s) (vm_code_pos s + n)) as [Hlt|Hge]; [by apply keeps_refl|].
  unfold mem_read. rewrite !(proj2 (Z.leb_le _ _)) by lia. cbn [andb of_option]. rewrite ret_bind.
  set (v := ztake n _). set (s1 := set_value_addr (Some v) s). rewrite (bind_ok (put _) _ s tt _ eq_refl).
  destruct (core_ok s s1 eq_refl Hok) as (HK1 & Hst1 & _).
  pose proof (keeps_code_pos s1 (vm_code_pos s + n) (kp_ok _ _ HK1) ltac:(cbn; lia) ltac:(cbn; lia)) as HK2.
  destruct (reads_check_end false _ (kp_ok _ _ HK2)) as (p & H1 & H2 & H).
  pose proof (keeps_code_pos _ p (kp_ok _ _ HK2) H1 H2) as HK3.
  assert (HK : keeps s (set_code_pos p (set_code_pos (vm_code_pos s + n) s1)))
    by (eapply keeps_trans; [exact HK1|]; by eapply keeps_trans).
  destruct (check_end _) as [[[]|e| |] s']; [by destruct H as [-> _]|by subst|by destruct H|done].
Qed.

Lemma behaves_stack_value : behaves 0 never op_stack_value.
Proof.
  apply (behaves_check 1); [|done]. apply behaves_pop_never. intros n _. apply behaves_get. intros s vs Hok Hs Hr Hl.
  set (v := if vm_big_endian s then _ else _).
  assert (HB : behaves 0 never (modify (set_value_addr (Some v)) ;; check_end ;; mret tt)).
  { apply behaves_modify; [done|]. eapply behaves_read; [apply reads_check_end|auto with vm|]. intros; auto with vm. }
  specialize (HB s vs Hok Hs Hr Hl). revert HB. rewrite (bind_ok (modify _) _ s tt _ eq_refl). cbv zeta.
  rewrite (bind_ok (put _) _ s tt _ eq_refl). unfold mbind, M_bind. by destruct (check_end _) as [[[]|e| |] s2].
Qed.

Lemma behaves_leb_always {A} n (m : M Vm A) (f : A -> M Vm unit) Q : reads true m Q ->
  (forall a, Q a -> behaves n always (f a)) -> behaves n always (m ≫= f).
Proof. intros Hm Hf. by eapply behaves_reads; [exact Hm| | |]. Qed.

Lemma sign_extend_range sign v : in_u 64 v -> in_u 64 (sign_extend sign v).
Proof. unfold sign_extend. destruct (_ =? 0); auto with lia. Qed.

Lemma in_u_bool (v : Z) : in_u 64 v -> in_u 64 (if v =? 0 then v else 1).
Proof. by destruct (v =? 0). Qed.

Lemma in_u_land v w : in_u 64 v -> 0 <= w -> in_u 64 (Z.land v w).
Proof.
  unfold in_u. intros Hv Hw. split; [apply Z.land_nonneg; lia|].
  destruct (decide (Z.land v w = 0)) as [->|Hne]; [lia|]. pose proof (Z.land_nonneg v w).
  apply Z.log2_lt_pow2; [lia|]. pose proof (Z.log2_land v w). assert (Z.log2 v < 64); [|lia].
  destruct (decide (v = 0)) as [->|]; [done|]. apply Z.log2_lt_pow2; lia.
Qed.

(** A conversion that may have no sign bit. *)
Lemma behaves_sign n size (g : Z -> Z) v (f : Z -> M Vm unit) : in_u 64 v ->
  (forall sign, 0 < sign -> in_u 64 (g sign)) -> (forall v, in_u 64 v -> behaves n never (f v)) ->
  behaves n always (v ← (if size <? 8 then sign ← sign_bit size; mret (g sign) else mret v); f v).
Proof.
  intros Hv Hg Hf. destruct (Z.ltb_spec size 8) as [Hlt|Hge]; [|by apply behaves_never, Hf].
  unfold sign_bit. destruct (Z.ltb_spec 0 size) as [Hp|Hp]; cbn [assertm].
  - intros s vs Hok Hs Hr Hl. rewrite !bind_assoc, !ret_bind. specialize (Hf (g (2 ^ (size * 8 - 1)))).
    specialize (Hf ltac:(apply Hg; lia) s vs Hok Hs Hr Hl). revert Hf.
    change ((mret (g (2 ^ (size * 8 - 1))) ≫= f) s) with (f (g (2 ^ (size * 8 - 1))) s). by destruct (f _ s) as [[]].
  - intros s vs Hok Hs Hr Hl. done.
Qed.

Lemma behaves_deref_type : behaves 0 always (op_deref_type env).
Proof.
  apply (behaves_check 1); [|done]. eapply behaves_leb_always; [apply reads_u8leb128|]. intros ms Hms.
  eapply behaves_leb_always; [apply reads_u4leb128|]. intros ft _. eapply behaves_leb_always; [apply reads_u4leb128|].
  intros ts Hts. cbv zeta. set (size := if ts <? ms then ts else ms).
  assert (H0 : 0 <= size) by (subst size; unfold in_u in *; destruct (_ <? _); lia).
  destruct (is_unsigned_type ft); [|destruct (ft =? ATE_boolean); [|destruct (is_signed_type ft); [|apply behaves_exc]]].
  - apply (behaves_stk 1 always 1); [lia|]. intros a Ha. apply behaves_memory; [done|done|]. intros v Hv.
    by apply behaves_never, behaves_replace_top.
  - apply (behaves_stk 1 always 1); [lia|]. intros a Ha. apply behaves_memory; [done|done|]. intros v Hv.
    by apply behaves_never, behaves_replace_top, in_u_bool.
  - apply (behaves_stk 1 always 1); [lia|]. intros a Ha. apply behaves_memory; [done|done|]. intros v Hv.
    apply (behaves_sign 1 size (fun sign => sign_extend sign v) v); [done|intros; by apply sign_extend_range|].
    intros u Hu. by apply behaves_replace_top.
Qed.

Lemma behaves_convert : behaves 0 always op_convert.
Proof.
  apply (behaves_check 1); [|done]. eapply behaves_leb_always; [apply reads_u4leb128|]. intros ft _.
  eapply behaves_leb_always; [apply reads_u4leb128|]. intros ts Hts. apply (behaves_stk 1 always 1); [lia|]. intros v Hv.
  destruct (is_unsigned_type ft); [|destruct (ft =? ATE_boolean); [|destruct (is_signed_type ft); [|apply behaves_exc]]].
  - apply (behaves_sign 1 ts (fun sign => Z.land v (sign - 1)) v); [done|intros; apply in_u_land; [done|lia]|].
    intros u Hu. by apply behaves_replace_top.
  - by apply behaves_never, behaves_replace_top, in_u_bool.
  - apply (behaves_sign 1 ts (fun sign => if Z.land v sign =? 0 then Z.land v (sign - 1) else sign_extend sign v) v); [done| |].
    + intros sign Hsign. destruct (_ =? 0); [apply in_u_land; [done|lia]|by apply sign_extend_range].
    + intros u Hu. by apply behaves_replace_top.
Qed.

Lemma code_string_length l id : code_string l = Some id -> zlen id < zlen l.
Proof.
  revert id. induction l as [|b l IH]; intros id E; [done|]. cbn in E. rewrite zlen_cons. pose proof (zlen_nonneg l).
  destruct (b =? 0); [injection E as <-; change (zlen []) with 0; lia|].
  destruct (code_string l) as [id'|]; [|done]. injection E as <-. specialize (IH id' eq_refl). rewrite zlen_cons. lia.
Qed.

Lemma behaves_variable_value : behaves 0 always (op_variable_value env).
Proof.
  apply behaves_get. intros s vs Hok Hs Hr Hl. pose proof Hok as []. 
  destruct (code_string _) as [id|] eqn:E; [|done]. cbn [of_option]. rewrite ret_bind, (bind_ok (put _) _ s tt _ eq_refl).
  apply code_string_length in E. pose proof (zlen_nonneg id).
  assert (HZ : zlen (zdrop (vm_code_pos s) (vm_code s)) = Z.max 0 (zlen (vm_code s) - vm_code_pos s)).
  { unfold zdrop, zlen. rewrite length_drop. lia. }
  assert (Hs' : vm_ok (set_code_pos (vm_code_pos s + zlen id + 1) s)) by (apply code_pos_ok; [done|lia]).
  assert (HK : keeps s (set_code_pos (vm_code_pos s + zlen id + 1) s)) by (constructor; auto; cbn; lia).
  set (s1 := set_code_pos _ s) in *.
  assert (HB : behaves 0 always ('(value, big_endian) ← of_result (get_symbol_value env id);
    assertm (zlen value <=? 8) ;;
    push (be_value (if (big_endian : bool) then value else reverse value)) TYPE_CLASS_CARDINAL)).
  { apply behaves_result. intros [v b] Ev. destruct (_ <=? 8); cbn [assertm]; [|done].
    apply behaves_never. apply (behaves_push _ TYPE_CLASS_CARDINAL), be_value_range. pose proof (env_symbol _ Henv _ _ _ Ev).
    destruct b; [done|by apply Forall_reverse]. }
  specialize (HB s1 vs Hs' ltac:(by eapply (stack_same s)) Hr Hl). revert HB.
  match goal with |- context [of_result ?r ≫= ?f] => destruct ((of_result r ≫= f) s1) as [[[]|e| |] s2] end;
    try done; intros HB; by eapply keeps_trans.
Qed.

Lemma behaves_offset : behaves 0 long_leb op_offset.
Proof.
  apply behaves_get. intros s0 vs0 Hok0 Hs0 Hr0 Hl0.
  assert (HT : behaves 0 long_leb (s ← get;
    match vm_pieces s with
    | [] => check_e_stack 1 ;; n ← read_u8leb128; v ← stk 1; stk_put 1 (u64 (v + n)) ;;
        modify (fun s => set_implicit_pointer (u32 (vm_implicit_pointer s + 1)) s)
    | l => offs ← read_u4leb128;
        let l := offset_pieces l offs 0 in
        modify (set_pieces l (4 * ((zlen l + 3) / 4))) ;;
        match l with [] => inv_dwarf | _ => mret tt end
    end)).
  { apply behaves_get. intros s vs Hok Hs Hr Hl.
    assert (HA : behaves 0 long_leb (check_e_stack 1 ;; n ← read_u8leb128; v ← stk 1; stk_put 1 (u64 (v + n)) ;;
        modify (fun s => set_implicit_pointer (u32 (vm_implicit_pointer s + 1)) s))).
    { apply (behaves_check 1); [|done]. eapply behaves_leb; [apply reads_u8leb128|]. intros n Hn. apply behaves_never.
      apply (behaves_stk 1 never 1); [lia|]. intros v Hv. apply (behaves_put 1 1); [lia|auto with lia|].
      apply behaves_last, behaves_modify; [done|auto with vm]. }
    assert (HB : forall l, behaves 0 long_leb (offs ← read_u4leb128;
        let l := offset_pieces l offs 0 in
        modify (set_pieces l (4 * ((zlen l + 3) / 4))) ;;
        match l with [] => inv_dwarf | _ => mret tt end)).
    { intros l. eapply behaves_leb; [apply reads_u4leb128|]. intros offs _. cbv zeta. apply behaves_never, behaves_modify; [done|].
      destruct (offset_pieces l offs 0); unfold inv_dwarf; auto with vm. }
    destruct (vm_pieces s) as [|pc l]; [by apply (HA s vs)|by apply (HB (pc :: l) s vs)]. }
  assert (HP : behaves 0 long_leb (add_piece ;; s ← get;
    match vm_pieces s with
    | [] => check_e_stack 1 ;; n ← read_u8leb128; v ← stk 1; stk_put 1 (u64 (v + n)) ;;
        modify (fun s => set_implicit_pointer (u32 (vm_implicit_pointer s + 1)) s)
    | l => offs ← read_u4leb128;
        let l := offset_pieces l offs 0 in
        modify (set_pieces l (4 * ((zlen l + 3) / 4))) ;;
        match l with [] => inv_dwarf | _ => mret tt end
    end)) by (apply behaves_add_piece; by intros _).
  specialize (HP s0 vs0 Hok0 Hs0 Hr0 Hl0). specialize (HT s0 vs0 Hok0 Hs0 Hr0 Hl0).
  destruct (vm_reg_def s0) as [?|]; [|destruct (vm_value_addr s0) as [?|]; [|exact HT]].
  - rewrite bind_assoc. exact HP.
  - rewrite bind_assoc. exact HP.
Qed.

(** *** Jumps *)

(** The next two bytes are a negative offset. *)
Definition backward (s : Vm) : Prop := exists x s', read_u2 s = (Ok x, s') /\ 2 ^ 15 <= x.

(** What an operation that may jump, or runs others, leaves. *)
Record stays (s s' : Vm) : Prop := {
  st_ok : vm_ok s';
  st_code : vm_code s' = vm_code s;
  st_code_len : vm_code_len s' = vm_code_len s;
  st_big_endian : vm_big_endian s' = vm_big_endian s;
}.

Lemma keeps_stays s s' : keeps s s' -> stays s s'.
Proof. by intros []. Qed.

Lemma stays_trans s1 s2 s3 : stays s1 s2 -> stays s2 s3 -> stays s1 s3.
Proof. intros [] []. constructor; auto; congruence. Qed.

Lemma signed_small x : 0 <= x < 2 ^ 15 -> signed 16 x = x.
Proof.
  intros Hx. unfold signed, wraps, wrapu. change (2 ^ (16 - 1)) with 32768. change (2 ^ 16) with 65536.
  rewrite (Z.mod_small (x + 32768)) by lia. rewrite Z.mod_small; lia.
Qed.

Lemma jump_ok s offs : vm_ok s ->
  match jump offs s with
  | (Ok _, s') => s' = set_code_pos (u64 (vm_code_pos s + offs)) s /\ vm_code_pos s' <= vm_code_len s'
  | (Exc _, s') => s' = set_code_pos (u64 (vm_code_pos s + offs)) s
  | _ => False
  end.
Proof.
  intros Hs. unfold jump. rewrite (bind_ok get _ s s s eq_refl). cbv zeta. set (p := u64 _).
  rewrite (bind_ok (put _) _ s tt _ eq_refl). destruct (Z.ltb_spec (vm_code_len s) p); cbn; [done|]. split; [done|lia].
Qed.

Lemma jump_stays s offs : vm_ok s -> stays s (set_code_pos (u64 (vm_code_pos s + offs)) s).
Proof. intros Hs. constructor; auto. apply code_pos_ok; [done|]. apply wrapu_range. lia. Qed.

(** A forward jump that succeeds has not wrapped around. *)
Lemma jump_forward s x : vm_ok s -> 0 <= x < 2 ^ 15 -> vm_code_pos s <= vm_code_len s ->
  vm_code_pos s <= u64 (vm_code_pos s + signed 16 x).
Proof.
  intros Hs Hx Hp. rewrite signed_small by done. destruct Hs. unfold wrapu. rewrite Z.mod_small; lia.
Qed.

Lemma read_u2_pos s x s' : vm_ok s -> read_u2 s = (Ok x, s') ->
  s' = set_code_pos (vm_code_pos s + 2) s /\ in_u 16 x /\ vm_code_pos s + 2 <= vm_code_len s.
Proof.
  intros Hs E. pose proof (reads_u2 false s Hs) as (p & _ & _ & H). rewrite E in H. destruct H as [_ Hx].
  unfold read_u2 in E. destruct (read_u1_cases s Hs) as [(b & E1 & _ & _ & Hlt)|E1].
  2:{ by rewrite (bind_exc _ _ _ _ _ E1) in E. }
  rewrite (bind_ok _ _ _ _ _ E1) in E. set (s1 := set_code_pos _ s) in *.
  assert (Hs1 : vm_ok s1) by (apply code_pos_ok; [done|destruct Hs; lia]).
  destruct (read_u1_cases s1 Hs1) as [(b' & E2 & _ & _ & Hlt2)|E2].
  2:{ by rewrite (bind_exc _ _ _ _ _ E2) in E. }
  rewrite (bind_ok _ _ _ _ _ E2) in E. injection E as _ <-. split; [|split; [done|cbn in *; lia]].
  unfold s1. rewrite set_code_pos_twice. cbn. f_equal. lia.
Qed.

Lemma op_skip_ok s : vm_ok s ->
  match op_skip s with
  | (Ok _, s') => stays s s' /\ (backward s \/ vm_code_pos s <= vm_code_pos s')
  | (Exc _, s') => stays s s'
  | _ => False
  end.
Proof.
  intros Hs. unfold op_skip. pose proof (reads_u2 false s Hs) as (p & H1 & H2 & H).
  destruct (read_u2 s) as [[x|e| |] s'] eqn:E; [|subst s'; rewrite (bind_exc _ _ _ _ _ E); by apply keeps_stays, keeps_code_pos|by destruct H|done].
  rewrite (bind_ok _ _ _ _ _ E). destruct (read_u2_pos s x s' Hs E) as (-> & Hx & Hp). set (s1 := set_code_pos _ s) in *.
  assert (HK : keeps s s1) by (apply keeps_code_pos; [done|lia|lia]).
  pose proof (jump_ok s1 (signed 16 x) (kp_ok _ _ HK)) as HJ.
  pose proof (jump_stays s1 (signed 16 x) (kp_ok _ _ HK)) as HS.
  destruct (jump (signed 16 x) s1) as [[u|e| |] s2]; try done.
  - destruct HJ as [-> HJ]. split; [eapply stays_trans; [by apply keeps_stays|done]|].
    destruct (Z.le_gt_cases (2 ^ 15) x) as [Hb|Hb]; [left; by exists x, s1|right].
    unfold in_u in Hx. pose proof (jump_forward s1 x (kp_ok _ _ HK) ltac:(lia) ltac:(cbn; lia)). cbn in *. lia.
  - subst. eapply stays_trans; [by apply keeps_stays|done].
Qed.

Lemma op_bra_ok s vs : vm_ok s -> stack_is s vs ->
  match op_bra s with
  | (Ok _, s') => stays s s' /\ (backward s \/ vm_code_pos s <= vm_code_pos s')
  | (Exc _, s') => stays s s'
  | _ => False
  end.
Proof.
  intros Hs Hst. unfold op_bra. pose proof (check_e_stack_ok s vs 1 Hst) as EC.
  destruct vs as [|[v t] vs]; [rewrite (bind_exc _ _ _ _ _ EC); by apply keeps_stays, keeps_refl|].
  rewrite (proj2 (Z.ltb_ge _ _)) in EC by (simpl; lia). rewrite (bind_ok _ _ _ _ _ EC).
  pose proof (reads_u2 false s Hs) as (p & H1 & H2 & H).
  destruct (read_u2 s) as [[x|e| |] s'] eqn:E; [|subst s'; rewrite (bind_exc _ _ _ _ _ E); by apply keeps_stays, keeps_code_pos|by destruct H|done].
  rewrite (bind_ok _ _ _ _ _ E). destruct (read_u2_pos s x s' Hs E) as (-> & Hx & Hp). set (s1 := set_code_pos _ s) in *.
  assert (HK : keeps s s1) by (apply keeps_code_pos; [done|lia|lia]).
  assert (Hst1 : stack_is s1 ((v, t) :: vs)) by (by eapply (stack_same s)).
  rewrite (bind_ok _ _ _ _ _ (stk_ok s1 _ 0 v t Hst1 eq_refl 1 ltac:(lia))).
  assert (HM : forall s2, vm_ok s2 -> stack_is s2 ((v, t) :: vs) -> exists s3, move_stk (-1) s2 = (Ok tt, s3) /\ keeps s2 s3 /\ vm_code_pos s3 = vm_code_pos s2).
  { intros s2 Hs2 Hst2. destruct (drop_ok s2 vs v t Hs2 Hst2) as (s3 & E3 & Hok3 & _ & HR & _). exists s3.
    split; [done|]. split; [by apply keeps_rest|]. by rewrite HR. }
  destruct (negb (v =? 0)).
  - pose proof (jump_ok s1 (signed 16 x) (kp_ok _ _ HK)) as HJ.
    pose proof (jump_stays s1 (signed 16 x) (kp_ok _ _ HK)) as HS.
    destruct (jump (signed 16 x) s1) as [[[]|e| |] s2] eqn:EJ; try done.
    + destruct HJ as [-> HJ]. rewrite (bind_ok _ _ _ _ _ EJ).
      destruct (HM _ (st_ok _ _ HS)) as (s3 & -> & HK3 & Hp3); [by eapply (stack_same s1)|].
      split; [eapply stays_trans; [by apply keeps_stays|]; eapply stays_trans; [exact HS|by apply keeps_stays]|].
      destruct (Z.le_gt_cases (2 ^ 15) x) as [Hb|Hb]; [left; by exists x, s1|right].
      unfold in_u in Hx. pose proof (jump_forward s1 x (kp_ok _ _ HK) ltac:(lia) ltac:(cbn; lia)). rewrite Hp3. cbn in *. lia.
    + subst. rewrite (bind_exc _ _ _ _ _ EJ). eapply stays_trans; [by apply keeps_stays|done].
  - rewrite ret_bind. destruct (HM s1 (kp_ok _ _ HK) Hst1) as (s3 & -> & HK3 & Hp3).
    split; [eapply stays_trans; by apply keeps_stays|]. right. rewrite Hp3. cbn. lia.
Qed.

(** *** Nested evaluation *)

(** What is relied on: [rec] keeps the invariant for the code [C]; it runs out of
    fuel only when at least [fuel] bytes of code are left. *)
Definition rec_ok (C : bytes -> bool -> Prop) (fuel : Z) (rec : M Vm unit) : Prop := forall s, vm_ok s ->
  C (vm_code s) (vm_big_endian s) ->
  match rec s with
  | (Ok _, s') | (Exc _, s') => stays s s'
  | (Undef, _) => False
  | (NoFuel, _) => fuel <= Z.max 0 (vm_code_len s - vm_code_pos s)
  end.

(** A reader as a step of nested code: it fails, or it moves forward. *)
Lemma reads_step {A} leb (m : M Vm A) Q s : reads leb m Q -> vm_ok s ->
  match m s with
  | (Ok a, s') => exists p, s' = set_code_pos p s /\ vm_code_pos s <= p /\ keeps s (set_code_pos p s) /\ Q a
  | (Exc _, s') => stays s s'
  | (Undef, _) => leb = true /\ long_leb s
  | (NoFuel, _) => False
  end.
Proof.
  intros Hm Hs. destruct (Hm s Hs) as (p & H1 & H2 & H). pose proof (keeps_code_pos s p Hs H1 H2) as HK.
  destruct (m s) as [[a|e| |] s']; [destruct H as [-> H]; by exists p|by subst; apply keeps_stays|done|done].
Qed.

(** The outcome of code that runs nested code; [P]: it ran out of fuel. *)
Definition nested_ok (P : Prop) (s : Vm) (r : outcome unit * Vm) : Prop :=
  match r with
  | (Ok _, s') | (Exc _, s') => stays s s'
  | (Undef, _) => exists p, long_leb (set_code_pos p s)
  | (NoFuel, _) => P
  end.

Lemma nested_after P s s' r : stays s s' -> nested_ok P s' r -> nested_ok P s r.
Proof.
  intros HS. unfold nested_ok. destruct r as [[|e| |] s2]; intros H; try done; [by eapply stays_trans..|].
  destruct H as (p & q & H). exists p, q. cbn in *. by rewrite <- (st_code _ _ HS).
Qed.

Lemma nested_reads {A} P leb (m : M Vm A) Q (f : A -> M Vm unit) s : reads leb m Q -> vm_ok s ->
  (forall a p, Q a -> vm_code_pos s <= p -> keeps s (set_code_pos p s) -> nested_ok P (set_code_pos p s) (f a (set_code_pos p s))) ->
  nested_ok P s ((m ≫= f) s).
Proof.
  intros Hm Hs Hf. pose proof (reads_step leb m Q s Hm Hs) as H. unfold mbind, M_bind. destruct (m s) as [[a|e| |] s'].
  - destruct H as (p & -> & Hp & HK & Ha). apply (nested_after _ _ (set_code_pos p s)); [by apply keeps_stays|by apply Hf].
  - exact H.
  - exists (vm_code_pos s). rewrite set_code_pos_id. by destruct H.
  - done.
Qed.

Lemma with_code_len_ok C fuel rec len s : rec_ok C fuel rec -> vm_ok s -> C (vm_code s) (vm_big_endian s) -> 0 <= len <= vm_code_len s ->
  nested_ok (fuel <= Z.max 0 (len - vm_code_pos s)) s (with_code_len rec len s).
Proof.
  intros Hrec Hs HC Hl. assert (Hs1 : vm_ok (set_code_len len s)) by (destruct Hs; constructor; auto; cbn; lia).
  specialize (Hrec _ Hs1 HC). unfold with_code_len. 
  assert (HR : forall s', stays (set_code_len len s) s' -> stays s (set_code_len (vm_code_len s) s')).
  { intros s' [Ho Hc Hn Hb]. constructor; [|done|done|done]. pose proof Hs as []. destruct Ho. constructor; auto. cbn in *. by rewrite Hc. }
  destruct (rec _) as [[[]|e| |] s']; cbn in *; [by apply HR|by apply HR|done|lia].
Qed.

Lemma nested_weaken (P Q : Prop) s r : nested_ok P s r -> (P -> Q) -> nested_ok Q s r.
Proof. unfold nested_ok. destruct r as [[|e| |] s2]; auto. Qed.

Lemma switch_loop_ok C fuel0 rec end_pos n : rec_ok C fuel0 rec -> forall fuel s, vm_ok s -> C (vm_code s) (vm_big_endian s) ->
  end_pos <= vm_code_len s -> 0 <= end_pos - vm_code_pos s < Z.of_nat fuel ->
  nested_ok (fuel0 <= vm_code_len s - vm_code_pos s) s (switch_loop rec fuel n end_pos s).
Proof.
  intros Hrec fuel. induction fuel as [|fuel IH]; intros s Hs HC He Hf; [lia|]. cbn [switch_loop].
  pose proof (reads_step false _ _ s (reads_u2 false) Hs) as HE. destruct (read_u2 s) as [[x|e| |] s1] eqn:E2;
    [|by rewrite (bind_exc _ _ _ _ _ E2)|by destruct HE|done].
  rewrite (bind_ok _ _ _ _ _ E2). destruct (read_u2_pos s x s1 Hs E2) as (-> & Hx & Hp). unfold in_u in Hx. clear HE.
  set (s1 := set_code_pos _ s). assert (HK1 : keeps s s1) by (apply keeps_code_pos; [done|lia|lia]).
  apply (nested_after _ _ s1); [by apply keeps_stays|].
  rewrite (bind_ok get _ s1 s1 s1 eq_refl). cbv zeta. set (nxt := x + vm_code_pos s1).
  assert (Hn : vm_code_pos s < nxt) by (subst nxt; cbn; lia).
  destruct (Z.ltb_spec end_pos nxt) as [Hlt|Hge]; [by apply keeps_stays, keeps_refl, HK1|].
  destruct (Z.eqb_spec nxt (vm_code_pos s1)); [by apply keeps_stays, keeps_refl, HK1|].
  eapply nested_reads; [apply reads_u8leb128|apply HK1|]. intros addr p _ Hp1 HK2.
  eapply nested_reads; [apply reads_u8leb128|apply HK2|]. intros size q _ Hp2 HK3. rewrite set_code_pos_twice in *.
  destruct (_ || _).
  - eapply nested_weaken; [apply (with_code_len_ok C fuel0); [done|apply HK3|done|cbn in *; destruct Hs; lia]|]. cbn in *. lia.
  - rewrite (bind_ok (modify _) _ _ tt _ eq_refl), set_code_pos_twice.
    assert (HK4 : keeps s (set_code_pos nxt s)) by (apply keeps_code_pos; [done|lia|lia]).
    specialize (IH (set_code_pos nxt s) (kp_ok _ _ HK4) HC). cbn in IH. specialize (IH ltac:(lia) ltac:(lia)).
    assert (Hn1 : vm_code_pos s1 <= nxt) by (subst nxt; lia). change (vm_code_len s1) with (vm_code_len s).
    eapply nested_weaken; [apply (nested_after _ _ (set_code_pos nxt s)); [|exact IH]|lia].
    destruct HK4. by constructor.
Qed.

Lemma op_switch_ok C fuel rec s vs : rec_ok C fuel rec -> vm_ok s -> stack_is s vs -> C (vm_code s) (vm_big_endian s) ->
  nested_ok (fuel <= vm_code_len s - vm_code_pos s) s (op_switch rec s) /\
  (forall s', op_switch rec s = (Ok tt, s') -> vm_code_pos s <= vm_code_pos s').
Proof.
  intros Hrec Hs Hst HC. unfold op_switch. pose proof (check_e_stack_ok s vs 1 Hst) as EC.
  destruct vs as [|[v t] vs]; [rewrite (bind_exc _ _ _ _ _ EC); split; [by apply keeps_stays, keeps_refl|done]|].
  rewrite (proj2 (Z.ltb_ge _ _)) in EC by (simpl; lia). rewrite (bind_ok _ _ _ _ _ EC).
  destruct (drop_ok s vs v t Hs Hst) as (s0 & E0 & Hok0 & Hst0 & HR & _ & Ev & _).
  rewrite (bind_ok _ _ _ _ _ E0), (bind_ok _ _ _ _ _ Ev). pose proof (keeps_rest _ _ Hok0 HR) as HK0.
  assert (Hp0 : vm_code_pos s0 = vm_code_pos s /\ vm_code_len s0 = vm_code_len s) by (by rewrite HR).
  pose proof (reads_step false _ _ s0 (reads_u2 false) Hok0) as HE. destruct (read_u2 s0) as [[x|e| |] s1] eqn:E2;
    [|rewrite (bind_exc _ _ _ _ _ E2); split; [by eapply stays_trans; [apply keeps_stays|]|done]|by destruct HE|done].
  rewrite (bind_ok _ _ _ _ _ E2). destruct (read_u2_pos s0 x s1 Hok0 E2) as (-> & Hx & Hp). unfold in_u in Hx. clear HE.
  set (s1 := set_code_pos _ s0). assert (HK1 : keeps s0 s1) by (apply keeps_code_pos; [done|lia|lia]).
  pose proof (keeps_trans _ _ _ HK0 HK1) as HK. rewrite (bind_ok get _ s1 s1 s1 eq_refl). cbv zeta.
  set (end_pos := x + vm_code_pos s1). assert (He : vm_code_pos s + 2 <= end_pos) by (subst end_pos; cbn; lia).
  destruct (Z.ltb_spec (vm_code_len s1) end_pos) as [Hlt|Hge]; [split; [by apply keeps_stays|done]|].
  pose proof (switch_loop_ok C fuel rec end_pos v Hrec (S (Z.to_nat end_pos)) s1 (kp_ok _ _ HK)) as HL.
  specialize (HL ltac:(by rewrite (kp_code _ _ HK), (kp_big_endian _ _ HK))).
  assert (Hx1 : vm_code_pos s1 = vm_code_pos s0 + 2) by done. destruct Hs.
  specialize (HL Hge ltac:(subst end_pos; lia)). change (vm_code_len s1) with (vm_code_len s0) in *.
  set (loop := switch_loop rec _ _ _) in *. unfold mbind, M_bind. unfold nested_ok in HL.
  destruct (loop s1) as [[u|e| |] s2].
  - pose proof (stays_trans _ _ _ (keeps_stays _ _ HK) HL) as HS. cbn. split.
    + destruct HS as [H1 H2 H3 H4]. constructor; [|done|done|done]. apply code_pos_ok; [done|lia].
    + intros s' [= <-]. cbn. lia.
  - split; [|done]. eapply stays_trans; [by apply keeps_stays|exact HL].
  - split; [|done]. destruct HL as (p & q & HL). exists p, q. cbn in *. by rewrite <- (kp_code _ _ HK).
  - split; [|done]. cbn. lia.
Qed.
End safe.
