(* ===== verification/VmRun.v ===== *)
(** * The location expression machine: every code is run safely

    One step for all operations, with the list of what is left undefined, and
    the loop over the code. *)

From S2P Require Import Prelude ByteSource Registers Vm VmSpec VmSafe.

(** ** One step *)

(** What C leaves undefined, in the state in which the operation starts. *)
Definition hazard (op : opcode) (s : Vm) : Prop :=
  match op with
  | OP_shl | OP_shr => exists v t vs, stack_is s ((v, t) :: vs) /\ 64 <= v
  | OP_deref_size | OP_xderef_size => size_at_pos s
  | OP_constu | OP_consts | OP_plus_uconst | OP_regx | OP_breg _ | OP_bregx
  | OP_piece | OP_bit_piece | OP_implicit_value | OP_TCF_offset => long_leb s
  | OP_GNU_deref_type | OP_GNU_convert | OP_GNU_variable_value => True
  | _ => False
  end.

(** The operations that go straight on in the code. *)
Definition straight (op : opcode) : bool :=
  match op with
  | OP_bra | OP_skip | OP_TCF_switch | OP_GNU_entry_value | OP_other _ => false
  | _ => true
  end.

Definition op_wf (op : opcode) : Prop := match op with OP_lit n => in_u 64 n | _ => True end.

Lemma in_u_id v w : w <= 64 -> in_u w v -> in_u 64 (id v).
Proof. intros Hw. by apply in_u_weaken. Qed.

Lemma in_u_signed v w : in_u 64 (signed w v).
Proof. apply in_u_wrap. lia. Qed.

Lemma in_u_byte b : is_byte b -> in_u 64 (id b).
Proof. unfold is_byte, in_u, id. lia. Qed.

#[export] Hint Resolve in_u_signed in_u_byte : vm.

Section run.
Context (env : VmEnv) (client_op : option (Z -> M Vm unit)) (Henv : env_ok env).

Lemma behaves_constants :
  behaves 0 never (op_const read_u1 id TYPE_CLASS_CARDINAL) /\
  behaves 0 never (op_const read_u2 id TYPE_CLASS_CARDINAL) /\
  behaves 0 never (op_const read_u4 id TYPE_CLASS_CARDINAL) /\
  behaves 0 never (op_const read_u8 id TYPE_CLASS_CARDINAL) /\
  behaves 0 never (op_const read_ia id TYPE_CLASS_CARDINAL) /\
  (forall w, behaves 0 never (op_const read_u1 (signed w) TYPE_CLASS_INTEGER)) /\
  (forall w, behaves 0 never (op_const read_u2 (signed w) TYPE_CLASS_INTEGER)) /\
  (forall w, behaves 0 never (op_const read_u4 (signed w) TYPE_CLASS_INTEGER)) /\
  (forall w, behaves 0 never (op_const read_u8 (signed w) TYPE_CLASS_INTEGER)) /\
  behaves 0 long_leb (op_const read_u8leb128 id TYPE_CLASS_CARDINAL) /\
  behaves 0 long_leb (op_const read_i8leb128 id TYPE_CLASS_INTEGER).
Proof.
  split_and!; intros.
  - apply (behaves_const false _ _ _ is_byte); [apply reads_u1|auto with vm].
  - apply (behaves_const false _ _ _ (in_u 16)); [apply reads_u2|]. intros v. by apply in_u_id.
  - apply (behaves_const false _ _ _ (in_u 32)); [apply reads_u4|]. intros v. by apply in_u_id.
  - apply (behaves_const false _ _ _ (in_u 64)); [apply reads_u8|done].
  - apply (behaves_const false _ _ _ (in_u 64)); [apply reads_ia|done].
  - apply (behaves_const false _ _ _ is_byte); [apply reads_u1|auto with vm].
  - apply (behaves_const false _ _ _ (in_u 16)); [apply reads_u2|auto with vm].
  - apply (behaves_const false _ _ _ (in_u 32)); [apply reads_u4|auto with vm].
  - apply (behaves_const false _ _ _ (in_u 64)); [apply reads_u8|auto with vm].
  - apply (behaves_const true _ _ _ (in_u 64)); [apply reads_u8leb128|done].
  - apply (behaves_const true _ _ _ (in_u 64)); [apply reads_i8leb128|done].
Qed.

Lemma behaves_check_after n k hz (g : Z -> M Vm unit) (m : M Vm Z) : k = Z.of_nat n ->
  behaves n hz (x ← m; g x) -> behaves 0 hz (check_e_stack k ;; x ← m; g x).
Proof. intros Hk Hm. by eapply behaves_check. Qed.

Lemma behaves_derefs :
  behaves 0 never (op_deref env addr_size id) /\ behaves 0 never (op_deref env (mret 2) (signed 16)) /\
  behaves 0 size_at_pos (op_deref env read_u1 id) /\
  behaves 0 never (op_xderef env addr_size) /\ behaves 0 size_at_pos (op_xderef env read_u1).
Proof.
  split_and!; unfold op_deref, op_xderef.
  - apply (behaves_check 1); [|done]. apply behaves_addr_size. intros k Hk. by apply behaves_deref.
  - apply (behaves_check 1); [|done]. change (behaves 1 never (a ← stk 1; v ← read_memory env a 2;
      replace_top (signed 16 v) TYPE_CLASS_CARDINAL)). apply behaves_deref; [done|lia|auto with vm].
  - apply (behaves_check 1); [|done]. apply behaves_sized; intros k Hk; [by apply behaves_deref|].
    apply (behaves_stk 1 always 1); [lia|]. intros a Ha. apply behaves_memory; [done|lia|done|].
    intros v Hv. by apply behaves_never, behaves_replace_top.
  - apply (behaves_check 2); [|done]. apply behaves_addr_size. intros k Hk. by apply behaves_xderef.
  - apply (behaves_check 2); [|done]. apply behaves_sized; intros k Hk; [by apply behaves_xderef|].
    apply (behaves_stk 2 always 1); [lia|]. intros a Ha. apply behaves_memory; [done|lia|done|].
    intros v Hv. apply behaves_never, (behaves_put 2 2); [lia|done|]. apply (behaves_type_put 2 2); [lia|].
    apply behaves_last, behaves_move. auto with vm.
Qed.

Lemma behaves_drop : behaves 0 never (check_e_stack 1 ;; move_stk (-1)).
Proof. apply (behaves_check 1); [|done]. apply behaves_last, behaves_move. auto with vm. Qed.

Lemma behaves_regs :
  behaves 0 long_leb (n ← read_u4leb128; op_register env n) /\
  behaves 0 never (n ← read_ua; op_register env (u32 n)) /\
  (forall n, behaves 0 long_leb (op_base_register env n read_i8leb128)) /\
  behaves 0 long_leb (n ← read_u4leb128; op_base_register env n read_i8leb128) /\
  behaves 0 never (n ← read_ua; op_base_register env (u32 n) (mret 0)).
Proof.
  split_and!; intros.
  - eapply behaves_leb; [apply reads_u4leb128|]. intros n _. by apply behaves_never, behaves_register.
  - eapply behaves_read; [apply reads_ua|auto with vm|]. intros n _. by apply behaves_register.
  - apply (behaves_base_register env true), reads_i8leb128.
  - eapply behaves_leb; [apply reads_u4leb128|]. intros m _. apply (behaves_base_register env true), reads_i8leb128.
  - eapply behaves_read; [apply reads_ua|auto with vm|]. intros n _. apply (behaves_base_register env false).
    by apply vm_reads_ret.
Qed.

Lemma straight_behaves rec op : straight op = true -> op_wf op -> behaves 0 (hazard op) (step env client_op rec op).
Proof.
  destruct behaves_constants as (C1 & C2 & C3 & C4 & C5 & S1 & S2 & S3 & S4 & L1 & L2).
  destruct behaves_derefs as (D1 & D2 & D3 & D4 & D5). destruct behaves_regs as (R1 & R2 & R3 & R4 & R5).
  pose proof behaves_drop. pose proof behaves_swap. pose proof behaves_rot. pose proof behaves_abs.
  pose proof behaves_plus_uconst. pose proof behaves_shra. pose proof behaves_piece. pose proof behaves_bit_piece.
  pose proof behaves_implicit_value. pose proof behaves_stack_value. pose proof behaves_offset.
  destruct op; intros Hs Hw; try discriminate Hs; cbn [step hazard]; auto;
    first [ by apply behaves_total, guard_none | by apply behaves_total, guard_zero | by apply behaves_unary
          | by apply behaves_compare | by apply behaves_pick | by apply behaves_push
          | by apply behaves_exc | by apply behaves_ret | idtac ].
  - eapply behaves_read; [apply (reads_u1 false)|auto with vm|]. intros n Hn. apply behaves_pick. by destruct Hn.
  - apply (behaves_binary shift_count), guard_shift.
  - apply (behaves_binary shift_count), guard_shift.
  - by apply behaves_register.
  - by apply behaves_push_object_address.
  - by apply behaves_call_frame_cfa.
  - by apply behaves_deref_type.
  - by apply behaves_convert.
  - by apply behaves_variable_value.
Qed.

(** *** Jumps and nested code *)

Definition client_ok : Prop := forall f op, client_op = Some f -> behaves 0 never (f op).

(** The operation may have gone back. *)
Definition jump_back (op : opcode) (s : Vm) : Prop := (op = OP_bra \/ op = OP_skip) /\ backward s.

Lemma step_ok C fuel rec op s vs : client_ok -> rec_ok C fuel rec -> op <> OP_GNU_entry_value -> op_wf op ->
  vm_ok s -> stack_is s vs -> vm_stk_pos s < vm_stk_max s -> C (vm_code s) (vm_big_endian s) ->
  match step env client_op rec op s with
  | (Ok _, s') => stays s s' /\ (vm_code_pos s <= vm_code_pos s' \/ jump_back op s)
  | (Exc _, s') => stays s s'
  | (Undef, _) => hazard op s \/ (op = OP_TCF_switch /\ exists p, long_leb (set_code_pos p s))
  | (NoFuel, _) => op = OP_TCF_switch /\ fuel <= vm_code_len s - vm_code_pos s
  end.
Proof.
  intros Hcl Hrec He Hw Hs Hst Hr HC.
  assert (HB : forall m : M Vm unit, behaves 0 (hazard op) m -> match m s with
    | (Ok _, s') => stays s s' /\ (vm_code_pos s <= vm_code_pos s' \/ jump_back op s) | (Exc _, s') => stays s s'
    | (Undef, _) => hazard op s \/ (op = OP_TCF_switch /\ exists p, long_leb (set_code_pos p s))
    | (NoFuel, _) => op = OP_TCF_switch /\ fuel <= vm_code_len s - vm_code_pos s end).
  { intros m Hm. specialize (Hm s vs Hs Hst Hr ltac:(lia)). destruct (m s) as [[[]|e| |] s']; try done.
    - split; [by apply keeps_stays|]. left. by apply kp_code_pos.
    - by apply keeps_stays.
    - by left. }
  destruct (straight op) eqn:E; [by apply HB, straight_behaves|]. destruct op; try discriminate E; cbn [step].
  - pose proof (op_bra_ok s vs Hs Hst) as H. destruct (op_bra s) as [[[]|e| |] s']; try done.
    destruct H as [H1 [H2|H2]]; [|tauto]. split; [done|]. right. split; [by left|done].
  - pose proof (op_skip_ok s Hs) as H. destruct (op_skip s) as [[[]|e| |] s']; try done.
    destruct H as [H1 [H2|H2]]; [|tauto]. split; [done|]. right. split; [by right|done].
  - done.
  - pose proof (op_switch_ok C fuel rec s vs Hrec Hs Hst HC) as [H1 H2]. unfold nested_ok in H1.
    destruct (op_switch rec s) as [[[]|e| |] s']; try done.
    + split; [done|]. left. by apply H2.
    + by right.
  - apply HB. destruct client_op as [f|] eqn:Ef; [by apply behaves_never, Hcl|]. apply behaves_exc.
Qed.

(** Nested code matters for two operations. *)
Lemma step_rec rec rec' op : op <> OP_TCF_switch -> op <> OP_GNU_entry_value ->
  step env client_op rec op = step env client_op rec' op.
Proof. intros H1 H2. destruct op; solve [reflexivity|contradiction]. Qed.


(** ** The loop *)

(** Code that any decoding of it leaves defined: none of the operations with a
    hazard of its own, memory operands of at most eight bytes, no negative jump, no
    five continuation bytes in a row.  [r]: what comes after the byte [b]. *)
Definition tame_op (be : bool) (b : Z) (r : bytes) : bool :=
  if bool_decide (b ∈ [36; 37; 243; 246; 247; 253]) then false
  else if bool_decide (b ∈ [148; 149]) then match r with n :: _ => n <=? 8 | [] => true end
  else if bool_decide (b ∈ [40; 47]) then match r with x :: y :: _ => (if be then x else y) <? 128 | _ => true end
  else true.

Definition high_run5 (l : bytes) : bool :=
  match l with
  | a :: b :: c :: d :: e :: _ => forallb (Z.leb 128) [a; b; c; d; e]
  | _ => false
  end.

Fixpoint tame_code (be : bool) (l : bytes) : bool :=
  match l with
  | [] => true
  | b :: r => tame_op be b r && negb (high_run5 l) && tame_code be r
  end.

Lemma tame_at be l p b : tame_code be l = true -> znth l p = Some b ->
  tame_op be b (zdrop (p + 1) l) = true /\ high_run5 (zdrop p l) = false.
Proof.
  intros Ht Hp. unfold znth in Hp. destruct (Z.leb_spec 0 p) as [H0|]; [|done].
  unfold zdrop. replace (Z.to_nat (p + 1)) with (S (Z.to_nat p)) by lia. revert Ht Hp. generalize (Z.to_nat p). clear.
  induction l as [|x l IH]; intros n Ht Hn; [done|].
  change (tame_op be x l && negb (high_run5 (x :: l)) && tame_code be l = true) in Ht.
  apply andb_true_iff in Ht as [Ht1 Ht]. apply andb_true_iff in Ht1 as [Ht1 Ht2]. apply negb_true_iff in Ht2.
  destruct n as [|n]; [|by apply IH]. injection Hn as ->. by rewrite drop_0.
Qed.

Lemma zdrop_znth (l : bytes) p k : 0 <= p -> 0 <= k -> zdrop p l !! Z.to_nat k = znth l (p + k).
Proof.
  intros Hp Hk. unfold zdrop, znth. rewrite lookup_drop, (proj2 (Z.leb_le _ _)) by lia. f_equal. lia.
Qed.

Lemma tame_leb be s : vm_ok s -> tame_code be (vm_code s) = true -> forall q, long_leb (set_code_pos q s) -> False.
Proof.
  intros Hs Ht q (p & Hp & H). cbn in Hp, H. destruct (H 0 ltac:(lia)) as (b & Hb & _).
  rewrite Z.add_0_r in Hb. pose proof (tame_at _ _ _ _ Ht Hb) as [_ HR].
  assert (H0 : 0 <= p) by (unfold znth in Hb; destruct (Z.leb_spec 0 p); [lia|done]).
  assert (HI : forall k, (k < 5)%nat -> exists c, zdrop p (vm_code s) !! k = Some c /\ 128 <= c).
  { intros k Hk. destruct (H (Z.of_nat k) ltac:(lia)) as (c & Hc & ?). exists c. split; [|done].
    rewrite <- Hc, <- zdrop_znth by lia. f_equal. lia. }
  destruct (HI 0%nat) as (c0 & E0 & H1), (HI 1%nat) as (c1 & E1 & H2), (HI 2%nat) as (c2 & E2 & H3),
    (HI 3%nat) as (c3 & E3 & H4), (HI 4%nat) as (c4 & E4 & H5); try lia.
  destruct (zdrop p (vm_code s)) as [|x0 [|x1 [|x2 [|x3 [|x4 r]]]]]; try discriminate.
  injection E0 as ->. injection E1 as ->. injection E2 as ->. injection E3 as ->. injection E4 as ->.
  cbn in HR. rewrite !(proj2 (Z.leb_le _ _)) in HR by lia. done.
Qed.

(** What [tame_op] has to say about each operation. *)
Definition tame_class (b : Z) : bool :=
  match decode_op b with
  | OP_shl | OP_shr | OP_GNU_deref_type | OP_GNU_convert | OP_GNU_variable_value | OP_GNU_entry_value =>
      bool_decide (b ∈ [36; 37; 243; 246; 247; 253])
  | OP_deref_size | OP_xderef_size => bool_decide (b ∈ [148; 149])
  | OP_bra | OP_skip => bool_decide (b ∈ [40; 47])
  | OP_lit n => (0 <=? n) && (n <? 32)
  | _ => true
  end.

Lemma tame_class_all b : is_byte b -> tame_class b = true.
Proof. intros Hb. apply (forall_below_spec 256 tame_class); [vm_compute; reflexivity|exact Hb]. Qed.

Lemma decode_wf b : is_byte b -> op_wf (decode_op b).
Proof.
  intros Hb. pose proof (tame_class_all b Hb) as H. unfold tame_class in H. destruct (decode_op b); try exact I.
  apply andb_true_iff in H as [H1%Z.leb_le H2%Z.ltb_lt]. cbn. unfold in_u. lia.
Qed.

Lemma read_u2_value s x s' : vm_ok s -> read_u2 s = (Ok x, s') ->
  exists lo hi, is_byte lo /\ is_byte hi /\ x = hi * 256 + lo /\
    znth (vm_code s) (vm_code_pos s) = Some (if vm_big_endian s then hi else lo) /\
    znth (vm_code s) (vm_code_pos s + 1) = Some (if vm_big_endian s then lo else hi).
Proof.
  intros Hs E. unfold read_u2 in E. destruct (read_u1_cases s Hs) as [(b & E1 & Hb & Hz & Hlt)|E1].
  2:{ by rewrite (bind_exc _ _ _ _ _ E1) in E. }
  rewrite (bind_ok _ _ _ _ _ E1) in E. set (s1 := set_code_pos _ s) in *.
  assert (Hs1 : vm_ok s1) by (apply code_pos_ok; [done|destruct Hs; lia]).
  destruct (read_u1_cases s1 Hs1) as [(b' & E2 & Hb' & Hz' & Hlt2)|E2].
  2:{ by rewrite (bind_exc _ _ _ _ _ E2) in E. }
  rewrite (bind_ok _ _ _ _ _ E2) in E. unfold is_byte in *.
  unfold join_halves in E. rewrite (bind_ok get _ _ _ _ eq_refl) in E. injection E as E _.
  change (vm_big_endian (set_code_pos _ s1)) with (vm_big_endian s) in E.
  destruct (vm_big_endian s); [exists b', b|exists b, b']; (split_and!; [lia..| |done|done]); subst x.
  - by rewrite lor_shiftl_add by (change (2 ^ 8) with 256; lia).
  - rewrite Z.lor_comm. by rewrite lor_shiftl_add by (change (2 ^ 8) with 256; lia).
Qed.

(** The operation at [p], its operands after it. *)
Lemma tame_step be s p b : vm_ok s -> tame_code be (vm_code s) = true -> znth (vm_code s) p = Some b ->
  vm_code_pos s = p + 1 -> vm_big_endian s = be ->
  decode_op b <> OP_GNU_entry_value /\ ~ hazard (decode_op b) s /\ ~ jump_back (decode_op b) s.
Proof.
  intros Hs Ht Hb Hp Hbe. pose proof (tame_at _ _ _ _ Ht Hb) as [HT _]. pose proof (tame_leb be s Hs Ht) as HL.
  assert (H0 : 0 <= p) by (unfold znth in Hb; destruct (Z.leb_spec 0 p); [lia|done]).
  assert (Hby : is_byte b).
  { destruct Hs. unfold znth in Hb. destruct (_ <=? _); [|done]. by eapply Forall_lookup_1. }
  pose proof (tame_class_all b Hby) as HC. unfold tame_class in HC. unfold tame_op in HT.
  assert (HS : bool_decide (b ∈ [148; 149]) = true -> ~ size_at_pos s).
  { intros H148 (n & Hn & Hn8). rewrite H148 in HT. rewrite Hp in Hn.
    assert (HZ : zdrop (p + 1) (vm_code s) !! 0%nat = Some n) by (rewrite (zdrop_znth _ (p + 1) 0) by lia; by rewrite Z.add_0_r).
    destruct (bool_decide (b ∈ [36; 37; 243; 246; 247; 253])); [done|].
    destruct (zdrop (p + 1) (vm_code s)) as [|y r]; [done|]. injection HZ as ->. lia. }
  assert (HJ : bool_decide (b ∈ [40; 47]) = true -> ~ backward s).
  { intros H40 (x & s' & Hx & Hneg). destruct (read_u2_value s x s' Hs Hx) as (lo & hi & Hlo & Hhi & -> & Hz1 & Hz2).
    rewrite H40, Hbe in *. rewrite Hp in Hz1, Hz2. unfold is_byte in *.
    rewrite <- (Z.add_0_r (p + 1)), <- zdrop_znth in Hz1 by lia. rewrite <- zdrop_znth in Hz2 by lia.
    destruct (bool_decide (b ∈ [36; 37; 243; 246; 247; 253])); [done|].
    destruct (bool_decide (b ∈ [148; 149])) eqn:E148; [apply bool_decide_true in H40, E148; rewrite !elem_of_cons, elem_of_nil in *; lia|].
    destruct (zdrop (p + 1) (vm_code s)) as [|y [|z r]]; [done..|]. injection Hz1 as ->. injection Hz2 as ->.
    apply Z.ltb_lt in HT. destruct be; lia. }
  assert (HH : bool_decide (b ∈ [36; 37; 243; 246; 247; 253]) = true -> False) by (intros E; by rewrite E in HT).
  assert (HL0 : ~ long_leb s) by (intros E; apply (HL (vm_code_pos s)); by rewrite set_code_pos_id).
  unfold jump_back. destruct (decode_op b); split_and!; try discriminate; cbn [hazard]; try (by intros [[[=]|[=]] ?]); auto; try tauto.
Qed.

(** The recursive call. *)
Lemma rec_loop fuel (loop : M Vm unit) : rec_ok (fun l be => tame_code be l = true) fuel loop ->
  rec_ok (fun l be => tame_code be l = true) fuel (s ← get; if vm_code_len s =? 0 then inv_dwarf else loop).
Proof.
  intros H s Hs HC. rewrite (bind_ok get _ s s s eq_refl). destruct (_ =? 0); [by apply keeps_stays, keeps_refl|].
  by apply H.
Qed.

Lemma loop_ok fuel : client_ok ->
  rec_ok (fun l be => tame_code be l = true) (Z.of_nat fuel) (evaluate_loop env client_op fuel).
Proof.
  intros Hcl. induction fuel as [|fuel IH]; intros s Hs HC; [cbn; lia|]. cbn [evaluate_loop].
  rewrite (bind_ok get _ s s s eq_refl). pose proof Hs as [].
  destruct (Z.leb_spec (vm_code_len s) (vm_code_pos s)) as [Hle|Hgt]; [by apply keeps_stays, keeps_refl|].
  destruct (znth_Some (vm_code s) (vm_code_pos s)) as [b Hb]; [lia|]. rewrite Hb. cbn [of_option]. rewrite ret_bind.
  set (s1 := set_code_pos (vm_code_pos s + 1) s). rewrite (bind_ok (put _) _ s tt s1 eq_refl).
  assert (HK1 : keeps s s1) by (apply keeps_code_pos; [done|lia|lia]).
  destruct (stack_exists s1 (kp_ok _ _ HK1)) as (vs & Hst1).
  destruct (grow_stk_ok s1 vs (kp_ok _ _ HK1) Hst1) as (s2 & E2 & Hok2 & Hst2 & HR2 & Hroom).
  rewrite (bind_ok _ _ _ _ _ E2). pose proof (keeps_trans _ _ _ HK1 (keeps_rest _ _ Hok2 HR2)) as HK.
  assert (Hp2 : vm_code_pos s2 = vm_code_pos s + 1) by (by rewrite HR2).
  assert (HC2 : tame_code (vm_big_endian s2) (vm_code s2) = true) by (by rewrite (kp_code _ _ HK), (kp_big_endian _ _ HK)).
  assert (Hby : is_byte b).
  { unfold znth in Hb. destruct (_ <=? _); [|done]. by eapply Forall_lookup_1. }
  destruct (tame_step (vm_big_endian s2) s2 (vm_code_pos s) b Hok2 HC2) as (He & Hh & Hj);
    [by rewrite (kp_code _ _ HK)|done|done|].
  pose proof (step_ok _ _ _ (decode_op b) s2 vs Hcl (rec_loop _ _ IH) He (decode_wf b Hby) Hok2 Hst2 ltac:(lia) HC2) as HS.
  unfold mbind, M_bind. destruct (step _ _ _ _ s2) as [[[]|e| |] s3].
  - destruct HS as [HS [Hf|Hf]]; [|done]. pose proof (stays_trans _ _ _ (keeps_stays _ _ HK) HS) as HS3.
    specialize (IH s3 (st_ok _ _ HS3)). rewrite (st_code _ _ HS3), (st_big_endian _ _ HS3), (st_code_len _ _ HS3) in IH.
    specialize (IH HC). destruct (evaluate_loop _ _ fuel s3) as [[[]|e| |] s4]; try done; [by eapply stays_trans..|]. lia.
  - eapply stays_trans; [by apply keeps_stays|exact HS].
  - destruct HS as [HS|[_ (p & HS)]]; [done|]. by eapply tame_leb.
  - destruct HS as [_ HS]. rewrite (kp_code_len _ _ HK) in HS. lia.
Qed.

(** C21: [evaluate_vm_expression] always returns: on any byte code that passes [tame_code] (a check
    that reads the bytes one after the other: no negative jump, none of the operations with
    a hazard of their own, no number in LEB128 with five continuation bytes), whatever the
    context answers, with a fuel of one more than the length of the code, nested evaluations
    by [OP_TCF_switch] included.  The result is 0, or -1 with the error; the stack, its types and
    the code are as the invariant has them, and nothing undefined happens on the way. *)
Theorem vm_terminates s fuel : client_ok -> vm_ok s -> tame_code (vm_big_endian s) (vm_code s) = true ->
  vm_code_len s < Z.of_nat fuel ->
  exists r e s', evaluate_vm_expression env client_op fuel s = (Ok (r, e), s') /\ (r = 0 /\ e = 0 \/ r = -1) /\
    vm_ok s' /\ vm_code s' = vm_code s /\ vm_code_len s' = vm_code_len s.
Proof.
  intros Hcl Hs HC Hf. unfold evaluate_vm_expression, evaluate_vm.
  set (s1 := set_implicit_pointer 0 (set_value_addr None (set_reg_def None s))).
  rewrite (bind_ok (modify (fun s => set_implicit_pointer 0 (set_value_addr None (set_reg_def None s)))) _ s tt s1 eq_refl).
  destruct (core_ok s s1 eq_refl Hs) as (HK1 & _).
  pose proof (rec_loop _ _ (loop_ok fuel Hcl) s1 (kp_ok _ _ HK1) HC) as HL. destruct Hs.
  fold (evaluate_expression env client_op fuel) in HL.
  unfold mbind at 1, M_bind. destruct (evaluate_expression env client_op fuel s1) as [[[]|e| |] s2].
  - pose proof (stays_trans _ _ _ (keeps_stays _ _ HK1) HL) as HS2.
    rewrite (bind_ok get _ s2 s2 s2 eq_refl). destruct (stack_exists s2 (st_ok _ _ HL)) as (vs & Hst).
    destruct (add_piece_ok s2 vs (st_ok _ _ HL) Hst) as (s3 & E3 & HK3 & _).
    pose proof (stays_trans _ _ _ HS2 (keeps_stays _ _ HK3)) as [].
    destruct (vm_reg_def s2), (vm_value_addr s2), (vm_implicit_pointer s2 =? 0); rewrite ?(bind_ok _ _ _ _ _ E3);
      destruct HS2; eexists 0, 0, _; (split; [reflexivity|]); auto.
  - pose proof (stays_trans _ _ _ (keeps_stays _ _ HK1) HL) as []. exists (-1), e, s2. auto.
  - done.
  - change (vm_code_len s1) with (vm_code_len s) in HL. change (vm_code_pos s1) with (vm_code_pos s) in HL. lia.
Qed.
End run.

(** ** Witnesses *)

(** A context with sixteen registers of eight bytes and zeros in its memory. *)
Definition small_env : VmEnv := {|
  context_read_mem := fun _ n => inl (replicate (Z.to_nat n) 0);
  get_reg_by_id := fun n => if n <? 16 then inl (Build_RegisterDefinition n (8 * n) 8 n n false) else inr ERR_INV_DWARF;
  read_reg_value := fun _ r => inl (1000 + rd_id r mod 16);
  frame_fp := fun _ => 4096;
  get_symbol_value := fun _ => inr ERR_OTHER;
  get_prev_frame := fun _ => inr ERR_OTHER;
  read_location_pieces := fun _ _ => inr ERR_OTHER;
|}.

Lemma small_env_ok : env_ok small_env.
Proof.
  constructor; cbn.
  - intros a n l [= <-] Hn. split; [unfold zlen; rewrite length_replicate; lia|]. apply Forall_replicate. done.
  - intros f r v [= <-]. unfold in_u. pose proof (Z.mod_pos_bound (rd_id r) 16). lia.
  - done.
  - done.
Qed.

(** An expression with its code, on an empty stack. *)
Definition start_vm (be : bool) (addr_size : Z) (code : bytes) : Vm :=
  Build_Vm (Some 1) [4242] code 0 (zlen code) be addr_size [] 0 0 0 [] [] None None 0.

Lemma start_vm_ok be n code : forallb (fun b => (0 <=? b) && (b <? 256)) code = true -> zlen code < 2 ^ 62 ->
  n ∈ [1; 2; 4; 8] -> vm_ok (start_vm be n code).
Proof.
  intros Hb Hl Hn. constructor; cbn; auto; try lia.
  - apply Forall_forall. intros b Hi. rewrite forallb_forall in Hb. apply list_elem_of_In, Hb in Hi.
    unfold is_byte. lia.
  - pose proof (zlen_nonneg code). lia.
  - apply Forall_singleton. done.
Qed.

Lemma no_client : client_ok None.
Proof. by intros. Qed.

(** [breg3 + 8; deref; lit5; plus; dup; lit1; bra +1; drop; stack_value]. *)
Lemma vm_terminates_witness :
  exists r e s', evaluate_vm_expression small_env None 20 (start_vm false 8 [115; 8; 6; 53; 34; 18; 49; 40; 1; 0; 19; 159]) = (Ok (r, e), s') /\
    (r = 0 /\ e = 0 \/ r = -1) /\ vm_ok s' /\ vm_code s' = [115; 8; 6; 53; 34; 18; 49; 40; 1; 0; 19; 159] /\ vm_code_len s' = 12.
Proof.
  apply (vm_terminates small_env None small_env_ok (start_vm false 8 [115; 8; 6; 53; 34; 18; 49; 40; 1; 0; 19; 159]) 20).
  - exact no_client.
  - apply start_vm_ok; [reflexivity|reflexivity|]. apply list_elem_of_In. cbn. tauto.
  - reflexivity.
  - reflexivity.
Defined.

(** [OP_skip] with the offset -1, as the first operation. *)
Definition skip_state : Vm := set_code_pos 1 (set_stk 4 [0; 0; 0; 0] [0; 0; 0; 0] (start_vm false 8 [47; 255; 255])).


(** ** Where the code does not do what it means to *)

(** Words and types of the stack after an operation. *)
Definition stack_after (m : M Vm unit) (s : Vm) : option (list Z * list Z) :=
  match m s with (Ok _, s) => Some (vm_stk s, vm_type_stk s) | _ => None end.

(** [OP_rot] moves the third word, 30, below 10 and 20; its type 2 should move with it and
    give 2, 1, 2: the last assignment has the wrong index. *)
Lemma rot_loses_type :
  stack_after op_rot (set_stk_pos 3 (set_stk 4 [10; 20; 30; 0] [1; 2; 2; 0] (start_vm false 8 []))) =
  Some ([30; 10; 20; 0], [1; 2; 2; 0]).
Proof. reflexivity. Qed.

(** A conversion of 200 to an unsigned type of one byte gives 72. *)
Lemma convert_loses_bit :
  stack_after op_convert (set_stk_pos 1 (set_stk 4 [200; 0; 0; 0] [1; 0; 0; 0] (start_vm false 8 [7; 1]))) =
  Some ([72; 0; 0; 0], [1; 0; 0; 0]).
Proof. reflexivity. Qed.

(** ** The location expression machine: operands as they are encoded

    The bytes at the position of the machine, and what each reader makes of
    them; numbers in LEB128 are read as the standard's encoder writes them. *)

(** ** The code ahead *)

(** [l] is the next part of the code. *)
Definition code_at (s : Vm) (l : bytes) : Prop :=
  exists pre post, vm_code s = pre ++ l ++ post /\ zlen pre = vm_code_pos s /\ vm_code_pos s + zlen l <= vm_code_len s.

Definition ahead (n : Z) (s : Vm) : Vm := set_code_pos (vm_code_pos s + n) s.

Lemma ahead_add n m s : ahead m (ahead n s) = ahead (n + m) s.
Proof. unfold ahead. rewrite set_code_pos_twice. f_equal. cbn. lia. Qed.

Lemma code_at_app s l k : code_at s (l ++ k) -> code_at s l /\ code_at (ahead (zlen l) s) k.
Proof.
  intros (pre & post & E & HL & HE). pose proof (zlen_nonneg k). split.
  - exists pre, (k ++ post). rewrite E, <- app_assoc. split_and!; [done|done|zlia].
  - exists (pre ++ l), post. cbn. rewrite E, <- !app_assoc. split_and!; [done|zlia|zlia].
Qed.

Lemma code_at_head s b l : code_at s (b :: l) -> znth (vm_code s) (vm_code_pos s) = Some b /\ vm_code_pos s < vm_code_len s.
Proof.
  intros (pre & post & E & HL & HE). rewrite E, <- HL. pose proof (zlen_nonneg pre). pose proof (zlen_nonneg l).
  unfold znth. rewrite (proj2 (Z.leb_le _ _)) by lia. split; [|zlia].
  rewrite lookup_app_r by (unfold zlen; lia). unfold zlen. by rewrite Nat2Z.id, Nat.sub_diag.
Qed.

#[export] Instance vm_source : ByteSource Vm := {
  src_be := vm_big_endian;
  src_at := code_at;
  src_ahead := ahead;
}.

#[export] Instance vm_source_spec : ByteSourceSpec Vm.
Proof.
  constructor; [|apply ahead_add|apply code_at_app|done]. intros s. cbn. unfold ahead. by rewrite Z.add_0_r, set_code_pos_id.
Qed.

Lemma reads_as_u1 be x : is_byte x -> reads_as be read_u1 (number be 1 x) x.
Proof.
  intros Hx s Hb HC. rewrite number_byte in * by done. apply code_at_head in HC as [E HL].
  unfold read_u1. rewrite (bind_ok get _ s s s eq_refl). rewrite (proj2 (Z.leb_gt _ _)) by lia. by rewrite E.
Qed.

(** A number is read as its two halves. *)
Lemma reads_as_join be n (m : M Vm Z) x : in_u (2 * (8 * Z.of_nat n)) x ->
  (forall y, in_u (8 * Z.of_nat n) y -> reads_as be m (number be n y) y) ->
  reads_as be (x0 ← m; x1 ← m; join_halves (8 * Z.of_nat n) x0 x1) (number be (n + n) x) x.
Proof.
  intros Hx Hm. rewrite number_split. set (w := 8 * Z.of_nat n) in *. assert (Hw : 0 <= w) by lia. unfold in_u in *.
  assert (H1 : 0 <= x mod 2 ^ w < 2 ^ w) by (apply Z.mod_pos_bound; lia).
  assert (H2 : 0 <= x / 2 ^ w < 2 ^ w).
  { rewrite <- Z.add_diag, Z.pow_add_r in Hx by lia. split; [apply Z.div_pos; lia|]. apply Z.div_lt_upper_bound; lia. }
  assert (HJ : forall hi lo, hi = x / 2 ^ w -> lo = x mod 2 ^ w -> Z.lor (Z.shiftl hi w) lo = x).
  { intros hi lo -> ->. rewrite lor_shiftl_add by lia. rewrite Z.mul_comm. symmetry. apply Z.div_mod. lia. }
  assert (HE : forall x0 x1, (if be then Z.lor (Z.shiftl x0 w) x1 else Z.lor x0 (Z.shiftl x1 w)) = x ->
    reads_as be (join_halves w x0 x1) [] x).
  { intros x0 x1 E. apply reads_as_get. intros s Hb HC. change (vm_big_endian s) with (src_be s). rewrite Hb, E. exact (reads_as_ret be x s Hb HC). }
  destruct be; (eapply reads_as_bind; [by apply Hm|]); rewrite <- (app_nil_r (number _ n _));
    (eapply reads_as_bind; [by apply Hm|]); apply HE; [by apply HJ|]. rewrite Z.lor_comm. by apply HJ.
Qed.

Lemma reads_as_u2 be x : in_u 16 x -> reads_as be read_u2 (number be 2 x) x.
Proof. intros Hx. apply (reads_as_join be 1 read_u1 x Hx). intros y Hy. by apply reads_as_u1. Qed.

Lemma reads_as_u4 be x : in_u 32 x -> reads_as be read_u4 (number be 4 x) x.
Proof. intros Hx. apply (reads_as_join be 2 read_u2 x Hx). intros y Hy. by apply reads_as_u2. Qed.

Lemma reads_as_u8 be x : in_u 64 x -> reads_as be read_u8 (number be 8 x) x.
Proof. intros Hx. apply (reads_as_join be 4 read_u4 x Hx). intros y Hy. by apply reads_as_u4. Qed.

Lemma reads_as_u8leb128 be n : in_u 64 n -> reads_as be read_u8leb128 (uleb128 n) n.
Proof.
  intros Hn. unfold in_u in Hn. rewrite <- (wrapu_small 64 n) at 2 by lia. replace n with (0 + n * 2 ^ 0) at 2 by lia.
  apply reads_as_leb; try lia; try exact (reads_as_u1 be); cbn; lia.
Qed.

Lemma reads_as_u4leb128 be n : in_u 32 n -> reads_as be read_u4leb128 (uleb128 n) n.
Proof.
  intros Hn. unfold in_u in Hn. rewrite <- (wrapu_small 32 n) at 2 by lia. replace n with (0 + n * 2 ^ 0) at 2 by lia.
  apply reads_as_leb; try lia; try exact (reads_as_u1 be); cbn; lia.
Qed.

Lemma reads_as_i8leb128 be z : - 2 ^ 63 <= z < 2 ^ 63 -> reads_as be read_i8leb128 (sleb128 z) (u64 z).
Proof.
  intros Hz. replace z with (0 + z * 2 ^ 0) at 2 by lia. apply reads_as_leb; try lia; try exact (reads_as_u1 be); cbn; lia.
Qed.

(** Numbers in LEB128, the operands of most location expressions, round trip: the readers of
    vm.c return what an encoder of the standard has written and stop after its last byte,
    for all 64-bit unsigned numbers, all 32-bit ones where 32 bits are read, and all 64-bit
    signed ones (as two's complement), whatever bytes come next. *)
Lemma leb128_roundtrip n m z s1 s2 s3 : in_u 64 n -> in_u 32 m -> - 2 ^ 63 <= z < 2 ^ 63 ->
  code_at s1 (uleb128 n) -> code_at s2 (uleb128 m) -> code_at s3 (sleb128 z) ->
  read_u8leb128 s1 = (Ok n, ahead (zlen (uleb128 n)) s1) /\
  read_u4leb128 s2 = (Ok m, ahead (zlen (uleb128 m)) s2) /\
  read_i8leb128 s3 = (Ok (u64 z), ahead (zlen (sleb128 z)) s3).
Proof.
  intros Hn Hm Hz H1 H2 H3. split_and!.
  - by apply (reads_as_u8leb128 (vm_big_endian s1)).
  - by apply (reads_as_u4leb128 (vm_big_endian s2)).
  - by apply (reads_as_i8leb128 (vm_big_endian s3)).
Qed.

(** 624485 and -123456, the standard's own examples, and a trailing byte. *)
Definition leb_state (code : bytes) : Vm := Build_Vm None [] code 0 (zlen code) false 8 [] 0 0 0 [] [] None None 0.

Lemma leb128_roundtrip_witness :
  read_u8leb128 (leb_state [229; 142; 38; 255]) = (Ok 624485, ahead 3 (leb_state [229; 142; 38; 255])) /\
  read_u4leb128 (leb_state [127; 1]) = (Ok 127, ahead 1 (leb_state [127; 1])) /\
  read_i8leb128 (leb_state [192; 187; 120; 0]) = (Ok (2 ^ 64 - 123456), ahead 3 (leb_state [192; 187; 120; 0])).
Proof.
  apply (leb128_roundtrip 624485 127 (-123456)); try (unfold in_u; lia).
  - by exists [], [255].
  - by exists [], [1].
  - by exists [], [0].
Defined.
