(* ===== verification/VmCompile.v ===== *)
(** * The location expression machine: what expressions are worth

    Expressions with their values, their compilation to the byte code of
    location expressions, and the proof that the machine computes the values: the
    meaning of the operations, of their encodings and of the control flow. *)

From S2P Require Import Prelude ByteSource Registers Vm VmSpec VmSafe VmRun.

(** ** Expressions and their values *)

Inductive unop := UNeg | UNot | UAbs.
Inductive binop := BAdd | BSub | BMul | BDiv | BMod | BAnd | BOr | BXor | BShra | BEq | BNe | BLt | BLe | BGt | BGe.

(** [EConst k sign z]: an operand of [2 ^ k] bytes; [EShl], [EShr]: by a constant. *)
Inductive expr :=
| ELit (n : Z)
| EConst (k : nat) (sign : bool) (z : Z)
| EConstu (n : Z)
| EConsts (z : Z)
| EBreg (r off : Z)
| EDeref (e : expr)
| EDerefSize (n : Z) (e : expr)
| EPlusU (e : expr) (n : Z)
| EUn (op : unop) (e : expr)
| EBin (op : binop) (e1 e2 : expr)
| EShl (e : expr) (n : Z)
| EShr (e : expr) (n : Z)
| EIf (c e1 e2 : expr).

(** A value, or an error number. *)
Definition bindr (r : Z + Z) (f : Z -> Z + Z) : Z + Z := match r with inl v => f v | inr e => inr e end.

Definition unop_value (op : unop) (v : Z) : Z :=
  match op with
  | UNeg => (- v) mod 2 ^ 64
  | UNot => 2 ^ 64 - 1 - v
  | UAbs => Z.abs (s64 v)
  end.

Definition binop_value (op : binop) (a b : Z) : Z + Z :=
  match op with
  | BAdd => inl ((a + b) mod 2 ^ 64)
  | BSub => inl ((a - b) mod 2 ^ 64)
  | BMul => inl ((a * b) mod 2 ^ 64)
  | BDiv => if b =? 0 then inr ERR_INV_DWARF else inl (a / b)
  | BMod => if b =? 0 then inr ERR_INV_DWARF else inl (a mod b)
  | BAnd => inl (Z.land a b)
  | BOr => inl (Z.lor a b)
  | BXor => inl (Z.lxor a b)
  | BShra => inl ((Z.shiftr (s64 a) b) mod 2 ^ 64)
  | BEq => inl (b2z (a =? b))
  | BNe => inl (b2z (negb (a =? b)))
  | BLt => inl (b2z (a <? b))
  | BLe => inl (b2z (a <=? b))
  | BGt => inl (b2z (b <? a))
  | BGe => inl (b2z (b <=? a))
  end.

Section compile.
Context (env : VmEnv) (client_op : option (Z -> M Vm unit)) (Henv : env_ok env).
Context (frame : option Z) (asz : Z) (be : bool).

Definition load (a n : Z) : Z + Z :=
  match context_read_mem env a n with
  | inl l => inl (number_of (if be then reverse l else l))
  | inr e => inr e
  end.

Fixpoint eval (e : expr) : Z + Z :=
  match e with
  | ELit n => inl n
  | EConst _ _ z => inl (z mod 2 ^ 64)
  | EConstu n => inl n
  | EConsts z => inl (z mod 2 ^ 64)
  | EBreg r off =>
      match get_reg_by_id env r with
      | inl def => bindr (read_reg_value env frame def) (fun v => inl ((v + off) mod 2 ^ 64))
      | inr err => inr err
      end
  | EDeref e => bindr (eval e) (fun a => load a asz)
  | EDerefSize n e => bindr (eval e) (fun a => load a n)
  | EPlusU e n => bindr (eval e) (fun v => inl ((v + n) mod 2 ^ 64))
  | EUn op e => bindr (eval e) (fun v => inl (unop_value op v))
  | EBin op e1 e2 => bindr (eval e1) (fun a => bindr (eval e2) (binop_value op a))
  | EShl e n => bindr (eval e) (fun v => inl ((v * 2 ^ n) mod 2 ^ 64))
  | EShr e n => bindr (eval e) (fun v => inl (v / 2 ^ n))
  | EIf c e1 e2 => bindr (eval c) (fun v => if v =? 0 then eval e2 else eval e1)
  end.

(** ** Byte code *)

Definition unop_code (op : unop) : Z := match op with UNeg => 31 | UNot => 32 | UAbs => 25 end.

Definition binop_code (op : binop) : Z :=
  match op with
  | BAdd => 34 | BSub => 28 | BMul => 30 | BDiv => 27 | BMod => 29 | BAnd => 26 | BOr => 33 | BXor => 39
  | BShra => 38 | BEq => 41 | BNe => 46 | BLt => 45 | BLe => 44 | BGt => 43 | BGe => 42
  end.

Fixpoint compile (e : expr) : bytes :=
  match e with
  | ELit n => [48 + n]
  | EConst k sign z => (8 + 2 * Z.of_nat k + b2z sign) :: number be (2 ^ k) (z mod 2 ^ (8 * 2 ^ Z.of_nat k))
  | EConstu n => 16 :: uleb128 n
  | EConsts z => 17 :: sleb128 z
  | EBreg r off => (112 + r) :: sleb128 off
  | EDeref e => compile e ++ [6]
  | EDerefSize n e => compile e ++ [148; n]
  | EPlusU e n => compile e ++ 35 :: uleb128 n
  | EUn op e => compile e ++ [unop_code op]
  | EBin op e1 e2 => compile e1 ++ compile e2 ++ [binop_code op]
  | EShl e n => compile e ++ [48 + n] ++ [36]
  | EShr e n => compile e ++ [48 + n] ++ [37]
  | EIf c e1 e2 =>
      compile c ++ (40 :: number be 2 (zlen (compile e2) + 3)) ++ compile e2 ++
        (47 :: number be 2 (zlen (compile e1))) ++ compile e1
  end.

Definition fits_s (w z : Z) : bool := (- 2 ^ (w - 1) <=? z) && (z <? 2 ^ (w - 1)).

Fixpoint wf (e : expr) : bool :=
  match e with
  | ELit n => (0 <=? n) && (n <? 32)
  | EConst k sign z =>
      (k <? 4)%nat && (if sign then fits_s (8 * 2 ^ Z.of_nat k) z else (0 <=? z) && (z <? 2 ^ (8 * 2 ^ Z.of_nat k)))
  | EConstu n => (0 <=? n) && (n <? 2 ^ 64)
  | EConsts z => fits_s 64 z
  | EBreg r off => (0 <=? r) && (r <? 32) && fits_s 64 off
  | EDeref e => wf e
  | EDerefSize n e => (0 <=? n) && (n <=? 8) && wf e
  | EPlusU e n => wf e && (0 <=? n) && (n <? 2 ^ 64)
  | EUn _ e => wf e
  | EBin _ e1 e2 => wf e1 && wf e2
  | EShl e n | EShr e n => wf e && (0 <=? n) && (n <? 32)
  | EIf c e1 e2 => wf c && wf e1 && wf e2 && (zlen (compile e1) <? 2 ^ 15) && (zlen (compile e2) + 3 <? 2 ^ 15)
  end.

(** ** Runs of the loop *)

Abbreviation loop := (evaluate_loop env client_op).

Definition setting (s : Vm) : Prop := vm_frame s = frame /\ vm_addr_size s = asz /\ vm_big_endian s = be.

(** At most [n] operations. *)
Definition goes (n : nat) (s s' : Vm) : Prop := exists k, (k <= n)%nat /\ forall fuel, loop (k + fuel) s = loop fuel s'.
Definition halts (n : nat) (s : Vm) (e : Z) : Prop :=
  exists k s', (k <= n)%nat /\ forall fuel, loop (k + fuel) s = (Exc e, s').

Lemma goes_trans n m s1 s2 s3 : goes n s1 s2 -> goes m s2 s3 -> goes (n + m) s1 s3.
Proof.
  intros (k1 & H1 & E1) (k2 & H2 & E2). exists (k1 + k2)%nat. split; [lia|]. intros fuel.
  by rewrite <- Nat.add_assoc, E1, E2.
Qed.

Lemma goes_halts n m s1 s2 e : goes n s1 s2 -> halts m s2 e -> halts (n + m) s1 e.
Proof.
  intros (k1 & H1 & E1) (k2 & s' & H2 & E2). exists (k1 + k2)%nat, s'. split; [lia|]. intros fuel.
  by rewrite <- Nat.add_assoc, E1, E2.
Qed.

Lemma halts_more n m s e : halts n s e -> (n <= m)%nat -> halts m s e.
Proof. intros (k & s' & H & E) Hn. exists k, s'. split; [lia|done]. Qed.

(** [s'] is [n] bytes further, and its stack is [vs]. *)
Record arrives (s : Vm) (n : Z) (vs : list (Z * Z)) (s' : Vm) : Prop := {
  ar_ok : vm_ok s';
  ar_stack : stack_is s' vs;
  ar_rest : same_rest (ahead n s) s';
}.

Lemma same_rest_ahead n s s' : same_rest s s' -> same_rest (ahead n s) (ahead n s').
Proof. unfold same_rest. intros E. rewrite E at 1. rewrite E. by destruct s, s'. Qed.

Lemma arrives_trans s n vs s' m ws s'' : arrives s n vs s' -> arrives s' m ws s'' -> arrives s (n + m) ws s''.
Proof.
  intros [_ _ H1] [H2 H3 H4]. constructor; [done|done|]. rewrite <- ahead_add.
  eapply same_rest_trans; [by apply same_rest_ahead|done].
Qed.

Lemma code_at_rest s s' l : same_rest s s' -> code_at s l -> code_at s' l.
Proof. intros HR (pre & post & H). exists pre, post. rewrite HR. exact H. Qed.

Lemma arrives_setting s n vs s' : arrives s n vs s' -> setting s -> setting s'.
Proof. intros [_ _ HR] H. unfold setting. rewrite HR. exact H. Qed.

Lemma arrives_code s l k vs s' : arrives s (zlen l) vs s' -> code_at s (l ++ k) -> code_at s' k.
Proof. intros [_ _ HR] H. apply code_at_app in H as [_ H]. by eapply code_at_rest. Qed.

(** The result of code of [n] bytes: a word on top of [vs], or an error. *)
Definition yields (n : nat) (s : Vm) (l : bytes) (vs : list (Z * Z)) (r : Z + Z) : Prop :=
  match r with
  | inl v => exists s' t, goes n s s' /\ arrives s (zlen l) ((v, t) :: vs) s'
  | inr e => halts n s e
  end.

Lemma yields_then n m s l k vs ws r f : yields n s l vs r -> setting s -> code_at s (l ++ k) ->
  (forall v t s', r = inl v -> vm_ok s' -> stack_is s' ((v, t) :: vs) -> setting s' -> code_at s' k -> yields m s' k ws (f v)) ->
  yields (n + m) s (l ++ k) ws (bindr r f).
Proof.
  intros Hr Hset HC Hf. destruct r as [v|e]; cbn [bindr].
  - destruct Hr as (s1 & t & Hg & HA). pose proof (Hf v t s1 eq_refl (ar_ok _ _ _ _ HA) (ar_stack _ _ _ _ HA)
      (arrives_setting _ _ _ _ HA Hset) (arrives_code _ _ _ _ _ HA HC)) as H.
    destruct (f v) as [v'|e]; cbn in *; [|by eapply goes_halts].
    destruct H as (s2 & t2 & Hg2 & HA2). exists s2, t2. split; [by eapply goes_trans|]. rewrite zlen_app. by eapply arrives_trans.
  - cbn. eapply halts_more; [exact Hr|lia].
Qed.

(** ** One operation *)

(** What [m] does with the operands [l] and the stack [vs]. *)
Definition acts (m : M Vm unit) (l : bytes) (vs ws : list (Z * Z)) (r : Z + Z) : Prop :=
  forall s, vm_ok s -> stack_is s vs -> vm_stk_pos s + 4 <= vm_stk_max s -> setting s -> code_at s l ->
  match r with
  | inl v => exists s' t, m s = (Ok tt, s') /\ arrives s (zlen l) ((v, t) :: ws) s'
  | inr e => exists s', m s = (Exc e, s')
  end.

Definition plain (b : Z) : Prop := decode_op b <> OP_TCF_switch /\ decode_op b <> OP_GNU_entry_value.

(** An operation is fetched and finds room on the stack. *)
Lemma fetch s b l vs : plain b -> vm_ok s -> stack_is s vs -> code_at s (b :: l) ->
  exists s1, arrives s 1 vs s1 /\ vm_stk_pos s1 + 4 <= vm_stk_max s1 /\ code_at s1 l /\
    forall fuel, loop (S fuel) s = (step env client_op inv_dwarf (decode_op b) ;; loop fuel) s1.
Proof.
  intros [Hp1 Hp2] Hs Hst HC. destruct (code_at_head s b l HC) as [Hb Hlt]. change (b :: l) with ([b] ++ l) in HC.
  pose proof (code_at_app _ _ _ HC) as [_ HC1]. change (zlen [b]) with 1 in HC1.
  assert (Hs1 : vm_ok (ahead 1 s)) by (apply code_pos_ok; [done|destruct Hs; lia]).
  destruct (grow_stk_ok (ahead 1 s) vs Hs1) as (s1 & E & Hok & Hst1 & HR & Hroom); [by eapply (stack_same s)|].
  exists s1. split; [by constructor|]. split; [done|]. split; [by eapply code_at_rest|]. intros fuel.
  cbn [evaluate_loop]. rewrite (bind_ok get _ s s s eq_refl), (proj2 (Z.leb_gt _ _)) by lia. rewrite Hb. cbn [of_option].
  rewrite ret_bind, (bind_ok (put _) _ s tt (ahead 1 s) eq_refl), (bind_ok _ _ _ _ _ E). by erewrite step_rec.
Qed.

Lemma yields_op s b l vs ws r : plain b -> acts (step env client_op inv_dwarf (decode_op b)) l vs ws r ->
  vm_ok s -> stack_is s vs -> setting s -> code_at s (b :: l) -> yields 1 s (b :: l) ws r.
Proof.
  intros Hp Ha Hs Hst Hset HC. destruct (fetch s b l vs Hp Hs Hst HC) as (s1 & HA1 & Hroom & HC1 & HL).
  specialize (Ha s1 (ar_ok _ _ _ _ HA1) (ar_stack _ _ _ _ HA1) Hroom (arrives_setting _ _ _ _ HA1 Hset) HC1).
  destruct r as [v|e]; cbn.
  - destruct Ha as (s2 & t & E & HA2). exists s2, t. split.
    + exists 1%nat. split; [lia|]. intros fuel. cbn [Nat.add]. by rewrite HL, (bind_ok _ _ _ _ _ E).
    + rewrite zlen_cons, Z.add_comm. by eapply arrives_trans.
  - destruct Ha as (s2 & E). exists 1%nat, s2. split; [lia|]. intros fuel. cbn [Nat.add]. by rewrite HL, (bind_exc _ _ _ _ _ E).
Qed.

(** ** Each operation *)

(** Operands are read, then the stack changes. *)
Lemma acts_reads {A} (m : M Vm A) (f : A -> M Vm unit) l k vs ws r x : reads_as be m l x -> acts (f x) k vs ws r ->
  acts (m ≫= f) (l ++ k) vs ws r.
Proof.
  intros Hm Hf s Hs Hst Hr Hset HC. apply code_at_app in HC as [HC1 HC2]. destruct Hset as (H1 & H2 & H3).
  rewrite (bind_ok _ _ _ _ _ (Hm s H3 HC1)).
  assert (Hs1 : vm_ok (ahead (zlen l) s)).
  { destruct HC1 as (pre & post & _ & _ & HE). pose proof (zlen_nonneg l). apply code_pos_ok; [done|destruct Hs; lia]. }
  specialize (Hf (ahead (zlen l) s) Hs1 ltac:(by eapply (stack_same s)) Hr (conj H1 (conj H2 H3)) HC2).
  destruct r as [v|e]; [|exact Hf]. destruct Hf as (s' & t & E & HA). exists s', t. split; [exact E|].
  destruct HA as [Ho Hst' HR]. constructor; [done|done|]. by rewrite zlen_app, <- ahead_add.
Qed.

Lemma acts_push v t vs : in_u 64 v -> acts (push v t) [] vs vs (inl v).
Proof.
  intros Hv s Hs Hst Hr _ _. destruct (push_ok s vs v t Hs Hst ltac:(lia) Hv) as (s' & E & Hok & Hst' & HR & _).
  exists s', t. split; [done|]. constructor; [done|done|]. unfold ahead. by rewrite Z.add_0_r, set_code_pos_id.
Qed.

Lemma acts_const read convert t l x vs : reads_as be read l x -> in_u 64 (convert x) ->
  acts (op_const read convert t) l vs vs (inl (convert x)).
Proof.
  intros Hr Hv. unfold op_const. rewrite <- (app_nil_r l). eapply acts_reads; [exact Hr|]. by apply acts_push.
Qed.

(** The stack has words. *)
Lemma stack_word s v t vs : vm_ok s -> stack_is s ((v, t) :: vs) -> in_u 64 v.
Proof. intros Hs [_ H]. destruct (H 0%nat v t eq_refl) as [E _]. destruct Hs. by eapply (znth_word (vm_stk s)). Qed.

Lemma stack_words s v t v' t' vs : vm_ok s -> stack_is s ((v, t) :: (v', t') :: vs) -> in_u 64 v /\ in_u 64 v'.
Proof.
  intros Hs Hst. split; [by eapply stack_word|]. destruct Hst as [_ H]. destruct (H 1%nat v' t' eq_refl) as [E _].
  destruct Hs. by eapply (znth_word (vm_stk s)).
Qed.

Lemma acts_here (m : M Vm unit) vs ws r : (forall s, vm_ok s -> stack_is s vs -> vm_stk_pos s + 4 <= vm_stk_max s -> setting s ->
    match r with
    | inl v => exists s' t, m s = (Ok tt, s') /\ vm_ok s' /\ stack_is s' ((v, t) :: ws) /\ same_rest s s'
    | inr e => exists s', m s = (Exc e, s')
    end) -> acts m [] vs ws r.
Proof.
  intros H s Hs Hst Hr Hset _. specialize (H s Hs Hst Hr Hset). destruct r as [v|e]; [|exact H].
  destruct H as (s' & t & E & H1 & H2 & H3). exists s', t. split; [done|]. constructor; [done|done|].
  unfold ahead. change (zlen []) with 0. by rewrite Z.add_0_r, set_code_pos_id.
Qed.

Lemma acts_check n m l vs ws r : n <= zlen vs -> acts m l vs ws r -> acts (check_e_stack n ;; m) l vs ws r.
Proof.
  intros Hn Hm s Hs Hst Hr Hset HC. pose proof (check_e_stack_ok s vs n Hst) as E. unfold zlen in Hn.
  rewrite (proj2 (Z.ltb_ge _ _)) in E by lia. rewrite (bind_ok _ _ _ _ _ E). by apply Hm.
Qed.

(** The word on top is replaced. *)
Lemma put_top s v t vs x : vm_ok s -> stack_is s ((v, t) :: vs) -> in_u 64 x ->
  exists s', stk_put 1 x s = (Ok tt, s') /\ vm_ok s' /\ stack_is s' ((x, t) :: vs) /\ same_rest s s'.
Proof.
  intros Hs Hst Hx. destruct (stk_put_ok s _ 0 v t x Hs Hst eq_refl Hx 1 eq_refl) as (s' & E & H1 & H2 & H3 & _).
  exists s'. auto.
Qed.

Lemma put_type s v t u vs : vm_ok s -> stack_is s ((v, t) :: vs) ->
  exists s', type_put 1 u s = (Ok tt, s') /\ vm_ok s' /\ stack_is s' ((v, u) :: vs) /\ same_rest s s'.
Proof.
  intros Hs Hst. destruct (type_put_ok s _ 0 v t u Hs Hst eq_refl 1 eq_refl) as (s' & E & H1 & H2 & H3 & _).
  exists s'. auto.
Qed.

Lemma top_ok s v t vs : stack_is s ((v, t) :: vs) -> stk 1 s = (Ok v, s).
Proof. intros Hst. by apply (stk_ok s _ 0 v t Hst eq_refl). Qed.

Lemma acts_unary f v t vs : acts (op_unary f) [] ((v, t) :: vs) vs (inl (u64 (f v))).
Proof.
  apply acts_check; [pose proof (zlen_nonneg vs); zlia|]. apply acts_here. intros s Hs Hst _ _.
  rewrite (bind_ok _ _ _ _ _ (top_ok _ _ _ _ Hst)).
  destruct (put_top s v t vs (u64 (f v)) Hs Hst) as (s' & E & H); [apply in_u_wrap; lia|]. by exists s', t.
Qed.

Lemma acts_abs v t vs : acts op_abs [] ((v, t) :: vs) vs (inl (Z.abs (s64 v))).
Proof.
  apply acts_check; [pose proof (zlen_nonneg vs); zlia|]. apply acts_here. intros s Hs Hst _ _.
  rewrite (bind_ok _ _ _ _ _ (top_ok _ _ _ _ Hst)). pose proof (stack_word s v t vs Hs Hst) as Hv. unfold in_u in Hv.
  assert (Hm : s64 v = if v <? 2 ^ 63 then v else v - 2 ^ 64).
  { unfold wraps, wrapu. change (2 ^ (64 - 1)) with (2 ^ 63). destruct (Z.ltb_spec v (2 ^ 63)); [rewrite Z.mod_small by lia; lia|].
    replace (v + 2 ^ 63) with (v - 2 ^ 63 + 1 * 2 ^ 64) by lia. rewrite Z.mod_add, Z.mod_small by lia. lia. }
  rewrite Hm. destruct (Z.ltb_spec v (2 ^ 63)) as [Hlt|Hge].
  - rewrite (proj2 (Z.ltb_ge _ _)), Z.abs_eq by lia. exists s, t. auto.
  - rewrite (proj2 (Z.ltb_lt _ _)) by lia. destruct (put_top s v t vs (u64 (u64 (Z.lnot v) + 1)) Hs Hst) as (s' & E & H); [apply in_u_wrap; lia|].
    exists s', t. replace (Z.abs (v - 2 ^ 64)) with (u64 (u64 (Z.lnot v) + 1)); [by split|].
    unfold wrapu, Z.lnot. replace (Z.pred (- v)) with (2 ^ 64 - 1 - v + (-1) * 2 ^ 64) by lia.
    rewrite Z.mod_add, (Z.mod_small (2 ^ 64 - 1 - v)), Z.mod_small by lia. lia.
Qed.

(** The second operand is popped and used. *)
Lemma acts_binary guard f a ta b tb vs : guard b = mret tt ->
  acts (op_binary guard f) [] ((b, tb) :: (a, ta) :: vs) vs (inl (u64 (f a b))).
Proof.
  intros HG. apply acts_check; [pose proof (zlen_nonneg vs); zlia|]. apply acts_here. intros s Hs Hst _ _.
  destruct (drop_ok s _ b tb Hs Hst) as (s1 & E1 & Hok1 & Hst1 & HR1 & _ & Eb & _).
  rewrite (bind_ok _ _ _ _ _ E1), (bind_ok _ _ _ _ _ Eb), HG, ret_bind, (bind_ok _ _ _ _ _ (top_ok _ _ _ _ Hst1)).
  destruct (put_top s1 a ta vs (u64 (f a b)) Hok1 Hst1) as (s2 & E2 & H1 & H2 & H3); [apply in_u_wrap; lia|].
  exists s2, ta. split_and!; auto. by eapply same_rest_trans.
Qed.

Lemma acts_binary_exc guard f a ta b tb vs e : guard b = exception e ->
  acts (op_binary guard f) [] ((b, tb) :: (a, ta) :: vs) vs (inr e).
Proof.
  intros HG. apply acts_check; [pose proof (zlen_nonneg vs); zlia|]. apply acts_here. intros s Hs Hst _ _.
  destruct (drop_ok s _ b tb Hs Hst) as (s1 & E1 & _ & _ & _ & _ & Eb & _). exists s1.
  by rewrite (bind_ok _ _ _ _ _ E1), (bind_ok _ _ _ _ _ Eb), HG.
Qed.

Lemma acts_retype m vs ws v : acts m [] vs ws (inl v) -> acts (m ;; type_put 1 TYPE_CLASS_CARDINAL) [] vs ws (inl v).
Proof.
  intros Hm s Hs Hst Hr Hset HC. destruct (Hm s Hs Hst Hr Hset HC) as (s1 & t & E & HA).
  destruct (put_type s1 v t TYPE_CLASS_CARDINAL ws (ar_ok _ _ _ _ HA) (ar_stack _ _ _ _ HA)) as (s2 & E2 & H1 & H2 & H3).
  exists s2, TYPE_CLASS_CARDINAL. rewrite (bind_ok _ _ _ _ _ E). split; [done|]. constructor; [done|done|].
  eapply same_rest_trans; [exact (ar_rest _ _ _ _ HA)|done].
Qed.

Lemma acts_compare f a ta b tb vs : acts (op_compare f) [] ((b, tb) :: (a, ta) :: vs) vs (inl (b2z (f a b))).
Proof.
  unfold op_compare. apply acts_retype. replace (b2z (f a b)) with (u64 (b2z (f a b))) by (by destruct (f a b)).
  by apply (acts_binary no_guard (fun a b => b2z (f a b))).
Qed.

(** *** Arithmetic shifts *)

Lemma s64_value v : in_u 64 v -> s64 v = if v <? 2 ^ 63 then v else v - 2 ^ 64.
Proof.
  unfold in_u, wraps, wrapu. intros Hv. change (2 ^ (64 - 1)) with (2 ^ 63).
  destruct (Z.ltb_spec v (2 ^ 63)); [rewrite Z.mod_small by lia; lia|].
  replace (v + 2 ^ 63) with (v - 2 ^ 63 + 1 * 2 ^ 64) by lia. rewrite Z.mod_add, Z.mod_small by lia. lia.
Qed.

Lemma testbit_sign v : in_u 64 v -> Z.testbit v 63 = (2 ^ 63 <=? v).
Proof.
  unfold in_u. intros Hv. rewrite Z.testbit_odd, Z.shiftr_div_pow2 by lia. destruct (Z.leb_spec (2 ^ 63) v) as [H|H].
  - replace (v / 2 ^ 63) with 1 by dlia. done.
  - by rewrite Z.div_small by lia.
Qed.

Lemma shra_step v : in_u 64 v ->
  let w := if Z.testbit v 63 then Z.lor (Z.shiftr v 1) (2 ^ 63) else Z.shiftr v 1 in
  in_u 64 w /\ s64 w = Z.shiftr (s64 v) 1.
Proof.
  intros Hv w. assert (Ew : w = if v <? 2 ^ 63 then v / 2 else v / 2 + 2 ^ 63).
  { subst w. rewrite testbit_sign, !Z.shiftr_div_pow2 by (done || lia). change (2 ^ 1) with 2. unfold in_u in Hv.
    destruct (Z.ltb_spec v (2 ^ 63)); [by rewrite (proj2 (Z.leb_gt _ _)) by lia|].
    rewrite (proj2 (Z.leb_le _ _)), Z.lor_comm by lia. change (2 ^ 63) with (1 * 2 ^ 63) at 1. rewrite lor_mul_add by dlia. lia. }
  assert (Hw : in_u 64 w) by (rewrite Ew; unfold in_u in *; destruct (_ <? _); dlia). split; [done|].
  rewrite (s64_value w), (s64_value v), Z.shiftr_div_pow2 by (done || lia). change (2 ^ 1) with 2. rewrite Ew. unfold in_u in Hv.
  destruct (Z.ltb_spec v (2 ^ 63)) as [H|H]; [rewrite (proj2 (Z.ltb_lt _ _)) by dlia; done|].
  rewrite (proj2 (Z.ltb_ge _ _)) by dlia. dlia.
Qed.

Lemma u64_s64 v : in_u 64 v -> u64 (s64 v) = v.
Proof.
  intros Hv. rewrite s64_value by done. unfold in_u in Hv. unfold wrapu. destruct (_ <? _); [by rewrite Z.mod_small by lia|].
  replace (v - 2 ^ 64) with (v + (-1) * 2 ^ 64) by lia. by rewrite Z.mod_add, Z.mod_small by lia.
Qed.

Lemma shra_loop_value n v : in_u 64 v -> shra_loop n v = u64 (Z.shiftr (s64 v) (Z.of_nat n)).
Proof.
  revert v. induction n as [|n IH]; intros v Hv; [cbn [shra_loop Z.of_nat]; by rewrite Z.shiftr_0_r, u64_s64|]. cbn [shra_loop].
  pose proof (shra_step v Hv) as [H1 H2]. cbv zeta in *. rewrite IH by done. rewrite H2, Z.shiftr_shiftr by lia. f_equal. f_equal. lia.
Qed.

Lemma acts_shra a ta b tb vs : acts op_shra [] ((b, tb) :: (a, ta) :: vs) vs (inl (u64 (Z.shiftr (s64 a) b))).
Proof.
  apply acts_check; [pose proof (zlen_nonneg vs); zlia|]. apply acts_here. intros s Hs Hst _ _.
  destruct (stack_words _ _ _ _ _ _ Hs Hst) as [Hb Ha]. rewrite (bind_ok _ _ _ _ _ (stk_ok s _ 1 a ta Hst eq_refl 2 eq_refl)).
  rewrite (bind_ok _ _ _ _ _ (top_ok _ _ _ _ Hst)). cbv zeta. set (x := if 64 <=? b then _ else _).
  assert (Ex : x = u64 (Z.shiftr (s64 a) b)).
  { subst x. unfold in_u in Hb. destruct (Z.leb_spec 64 b) as [H|H].
    - rewrite testbit_sign, Z.shiftr_div_pow2, s64_value by (done || lia).
      pose proof (Z.pow_le_mono_r 2 64 b ltac:(lia) H) as Hp. unfold in_u in Ha.
      destruct (Z.ltb_spec a (2 ^ 63)); [rewrite (proj2 (Z.leb_gt _ _)), Z.div_small by lia; done|].
      rewrite (proj2 (Z.leb_le _ _)) by lia. replace ((a - 2 ^ 64) / 2 ^ b) with (-1); [done|].
      apply Z.div_unique with (r := a - 2 ^ 64 + 2 ^ b); lia.
    - rewrite shra_loop_value by done. by rewrite Z2Nat.id by lia. }
  rewrite Ex. destruct (stk_put_ok s _ 1 a ta (u64 (Z.shiftr (s64 a) b)) Hs Hst eq_refl ltac:(apply in_u_wrap; lia) 2 eq_refl)
    as (s1 & E1 & H1 & H2 & H3 & _).
  rewrite (bind_ok _ _ _ _ _ E1). cbn in H2. destruct (drop_ok s1 _ b tb H1 H2) as (s2 & E2 & H4 & H5 & H6 & _).
  exists s2, ta. rewrite E2. split_and!; auto. by eapply same_rest_trans.
Qed.

(** *** Memory and registers *)

Lemma acts_load size a t vs : 0 <= size <= 8 ->
  acts (a ← stk 1; v ← read_memory env a size; replace_top v TYPE_CLASS_CARDINAL) [] ((a, t) :: vs) vs (load a size).
Proof.
  intros Hsz. apply acts_here. intros s Hs Hst _ (_ & _ & Hbe). rewrite (bind_ok _ _ _ _ _ (top_ok _ _ _ _ Hst)).
  unfold read_memory, load. rewrite bind_assoc, (bind_ok get _ s s s eq_refl), (proj2 (Z.leb_le _ _)) by lia. cbn [assertm].
  rewrite bind_assoc, ret_bind. destruct (context_read_mem env a size) as [l|e] eqn:E; cbn [of_result]; [|by exists s].
  destruct (env_mem _ Henv _ _ _ E ltac:(lia)) as [HL HB]. rewrite bind_assoc, ret_bind, ret_bind, Hbe.
  replace (be_value (if be then l else reverse l)) with (number_of (if be then reverse l else l)).
  2:{ destruct be; rewrite be_value_number; try done; [lia|by rewrite reverse_involutive|by apply Forall_reverse|].
      unfold zlen. rewrite length_reverse. fold (zlen l). lia. }
  set (x := number_of _). assert (Hx : in_u 64 x).
  { subst x. destruct be; [rewrite <- be_value_number by (done || lia); by apply be_value_range|].
    rewrite <- (reverse_involutive l), <- be_value_number; [by apply be_value_range, Forall_reverse|by apply Forall_reverse|].
    unfold zlen. rewrite length_reverse. fold (zlen l). lia. }
  unfold replace_top. destruct (put_top s a t vs x Hs Hst Hx) as (s1 & E1 & H1 & H2 & H3). rewrite (bind_ok _ _ _ _ _ E1).
  destruct (put_type s1 x t TYPE_CLASS_CARDINAL vs H1 H2) as (s2 & E2 & H4 & H5 & H6). exists s2, TYPE_CLASS_CARDINAL.
  split_and!; auto. by eapply same_rest_trans.
Qed.

Lemma acts_breg r off vs : - 2 ^ 63 <= off < 2 ^ 63 ->
  acts (op_base_register env r read_i8leb128) (sleb128 off) vs vs (eval (EBreg r off)).
Proof.
  intros Ho s Hs Hst Hr Hset HC. unfold op_base_register. cbn [eval]. pose proof Hset as (Hf & _ & Hb).
  destruct (get_reg_by_id env r) as [def|e]; cbn [of_result]; [|by exists s]. rewrite ret_bind, (bind_ok get _ s s s eq_refl), Hf.
  destruct (read_reg_value env frame def) as [v|e]; cbn [of_result bindr]; [|by exists s]. rewrite ret_bind.
  assert (HA : acts (o ← read_i8leb128; push (u64 (v + o)) TYPE_CLASS_CARDINAL) (sleb128 off) vs vs (inl ((v + off) mod 2 ^ 64))).
  { rewrite <- (app_nil_r (sleb128 off)). eapply acts_reads; [by apply reads_as_i8leb128|].
    replace ((v + off) mod 2 ^ 64) with (u64 (v + u64 off)); [apply acts_push, in_u_wrap; lia|].
    unfold wrapu. apply Zplus_mod_idemp_r. }
  exact (HA s Hs Hst Hr Hset HC).
Qed.

Lemma acts_plus_uconst v t n vs : in_u 64 n ->
  acts op_plus_uconst (uleb128 n) ((v, t) :: vs) vs (inl ((v + n) mod 2 ^ 64)).
Proof.
  intros Hn. apply acts_check; [pose proof (zlen_nonneg vs); zlia|]. rewrite <- (app_nil_r (uleb128 n)).
  eapply acts_reads; [by apply reads_as_u8leb128|]. apply acts_here. intros s Hs Hst _ _.
  rewrite (bind_ok _ _ _ _ _ (top_ok _ _ _ _ Hst)).
  destruct (put_top s v t vs (u64 (v + n)) Hs Hst) as (s' & E & H); [apply in_u_wrap; lia|]. by exists s', t.
Qed.

(** ** Expressions *)

Lemma yields_more n m s l vs r : yields n s l vs r -> (n <= m)%nat -> yields m s l vs r.
Proof.
  intros Hy Hn. destruct r as [v|e]; cbn in *; [|by eapply halts_more].
  destruct Hy as (s' & t & (k & Hk & E) & HA). exists s', t. split; [|done]. exists k. split; [lia|done].
Qed.

(** An operation at the end of an expression. *)
Lemma yields_then_op n s l b k vs ws r f : yields n s l vs r -> setting s -> code_at s (l ++ b :: k) -> plain b ->
  (forall v t, acts (step env client_op inv_dwarf (decode_op b)) k ((v, t) :: vs) ws (f v)) ->
  yields (length (l ++ b :: k) + n - length l) s (l ++ b :: k) ws (bindr r f).
Proof.
  intros Hy Hset HC Hp Ha. eapply (yields_more (n + 1)); [|rewrite length_app; cbn [length]; lia].
  eapply yields_then; [exact Hy|done|done|]. intros v t s' _ Hs' Hst' Hset' HC'. by apply (yields_op _ _ _ ((v, t) :: vs)).
Qed.

Lemma wraps_mod w z : 0 < w -> fits_s w z = true -> wraps w (z mod 2 ^ w) = z.
Proof.
  unfold fits_s, wraps, wrapu. intros Hw Hz. rewrite Z.add_mod_idemp_l by lia.
  assert (2 ^ w = 2 * 2 ^ (w - 1)) by (rewrite <- Z.pow_succ_r by lia; f_equal; lia). rewrite Z.mod_small; lia.
Qed.

Lemma acts_const_sized (k : nat) (sign : bool) z vs : wf (EConst k sign z) = true ->
  acts (step env client_op inv_dwarf (decode_op (8 + 2 * Z.of_nat k + b2z sign)))
    (number be (2 ^ k) (z mod 2 ^ (8 * 2 ^ Z.of_nat k))) vs vs (inl (z mod 2 ^ 64)).
Proof.
  cbn [wf]. intros Hw. apply andb_true_iff in Hw as [Hk Hz]. apply Nat.ltb_lt in Hk.
  set (w := 8 * 2 ^ Z.of_nat k) in *. assert (Hx : in_u w (z mod 2 ^ w)) by (apply Z.mod_pos_bound; lia).
  assert (HR : forall read, reads_as be read (number be (2 ^ k) (z mod 2 ^ w)) (z mod 2 ^ w) -> 0 < w <= 64 ->
    if sign then acts (op_const read (signed w) TYPE_CLASS_INTEGER) (number be (2 ^ k) (z mod 2 ^ w)) vs vs (inl (z mod 2 ^ 64))
    else acts (op_const read id TYPE_CLASS_CARDINAL) (number be (2 ^ k) (z mod 2 ^ w)) vs vs (inl (z mod 2 ^ 64))).
  { intros read Hread H64. destruct sign.
    - replace (z mod 2 ^ 64) with (signed w (z mod 2 ^ w)); [apply acts_const; [done|apply in_u_signed]|].
      unfold signed. rewrite wraps_mod by (done || lia). done.
    - assert (2 ^ w <= 2 ^ 64) by (apply Z.pow_le_mono_r; lia). rewrite (Z.mod_small z (2 ^ 64)) by lia.
      rewrite (Z.mod_small z (2 ^ w)) in * by lia. apply (acts_const read id); [done|]. unfold in_u, id in *. lia. }
  destruct k as [|[|[|[|k]]]]; [| | | |lia]; subst w.
  - specialize (HR read_u1 (reads_as_u1 be _ Hx) ltac:(lia)). by destruct sign.
  - specialize (HR read_u2 (reads_as_u2 be _ Hx) ltac:(lia)). by destruct sign.
  - specialize (HR read_u4 (reads_as_u4 be _ Hx) ltac:(lia)). by destruct sign.
  - specialize (HR read_u8 (reads_as_u8 be _ Hx) ltac:(lia)). by destruct sign.
Qed.

Lemma decode_lit n : 0 <= n < 32 -> decode_op (48 + n) = OP_lit n.
Proof. intros Hn. unfold decode_op. zcases. f_equal. lia. Qed.

Lemma decode_breg r : 0 <= r < 32 -> decode_op (112 + r) = OP_breg r.
Proof. intros Hn. unfold decode_op. zcases. f_equal. lia. Qed.

Lemma acts_unop op v t vs : in_u 64 v ->
  acts (step env client_op inv_dwarf (decode_op (unop_code op))) [] ((v, t) :: vs) vs (inl (unop_value op v)).
Proof.
  unfold in_u. intros Hv. destruct op; cbn [unop_value].
  - replace ((- v) mod 2 ^ 64) with (u64 (u64 (Z.lnot v) + 1)); [apply (acts_unary (fun v => u64 (Z.lnot v) + 1))|].
    unfold wrapu. rewrite Z.add_mod_idemp_l by lia. f_equal. unfold Z.lnot. lia.
  - replace (2 ^ 64 - 1 - v) with (u64 (Z.lnot v)); [apply (acts_unary Z.lnot)|].
    unfold wrapu, Z.lnot. replace (Z.pred (- v)) with (2 ^ 64 - 1 - v + (-1) * 2 ^ 64) by lia.
    rewrite Z.mod_add, Z.mod_small; lia.
  - apply acts_abs.
Qed.

Lemma in_u_lxor x y : in_u 64 x -> in_u 64 y -> in_u 64 (Z.lxor x y).
Proof.
  unfold in_u. intros Hx Hy. assert (0 <= Z.lxor x y) by (apply Z.lxor_nonneg; lia). split; [done|].
  destruct (decide (Z.lxor x y = 0)) as [->|Hne]; [lia|]. apply Z.log2_lt_pow2; [lia|].
  pose proof (Z.log2_lxor x y ltac:(lia) ltac:(lia)).
  assert (forall a, 0 <= a < 2 ^ 64 -> Z.log2 a < 64).
  { intros a Ha. destruct (decide (a = 0)) as [->|]; [done|]. apply Z.log2_lt_pow2; lia. }
  pose proof (H1 x Hx). pose proof (H1 y Hy). lia.
Qed.

Lemma acts_binop op a ta b tb vs : in_u 64 a -> in_u 64 b ->
  acts (step env client_op inv_dwarf (decode_op (binop_code op))) [] ((b, tb) :: (a, ta) :: vs) vs (binop_value op a b).
Proof.
  intros Ha Hb. assert (HW : forall f x, u64 (f a b) = x -> forall guard, guard b = mret tt ->
    acts (op_binary guard f) [] ((b, tb) :: (a, ta) :: vs) vs (inl x)) by (intros f x <- guard Hg; by apply acts_binary).
  assert (HD : forall x, 0 <= x <= a -> u64 x = x) by (unfold in_u in Ha; intros x Hx; apply wrapu_small; lia).
  unfold in_u in Ha, Hb. destruct op; cbn [binop_value binop_code].
  - by apply HW.
  - by apply HW.
  - by apply HW.
  - destruct (Z.eqb_spec b 0) as [->|Hb0]; [by apply (acts_binary_exc not_zero Z.div)|].
    apply HW; [apply HD; split; [apply Z.div_pos; lia|apply Z.div_le_upper_bound; nia]|unfold not_zero; by rewrite (proj2 (Z.eqb_neq _ _))].
  - destruct (Z.eqb_spec b 0) as [->|Hb0]; [by apply (acts_binary_exc not_zero Z.modulo)|].
    apply HW; [apply HD; split; [apply Z.mod_pos_bound; lia|apply Z.mod_le; lia]|unfold not_zero; by rewrite (proj2 (Z.eqb_neq _ _))].
  - apply HW; [|done]. apply wrapu_small, in_u_land; [done|lia].
  - apply HW; [|done]. apply wrapu_small. apply (in_u_lor 64); [lia|done|done].
  - apply HW; [|done]. apply wrapu_small. by apply in_u_lxor.
  - apply acts_shra.
  - apply (acts_compare Z.eqb).
  - apply (acts_compare (fun a b => negb (a =? b))).
  - apply (acts_compare Z.ltb).
  - apply (acts_compare Z.leb).
  - apply (acts_compare (fun a b => b <? a)).
  - apply (acts_compare (fun a b => b <=? a)).
Qed.

(** *** Jumps *)

(** An operation that leaves no value. *)
Lemma goes_op s b l vs n ws : plain b -> vm_ok s -> stack_is s vs -> code_at s (b :: l) ->
  (forall s1, vm_ok s1 -> stack_is s1 vs -> arrives s 1 vs s1 -> code_at s1 l ->
    exists s2, step env client_op inv_dwarf (decode_op b) s1 = (Ok tt, s2) /\ arrives s1 n ws s2) ->
  exists s2, goes 1 s s2 /\ arrives s (1 + n) ws s2.
Proof.
  intros Hp Hs Hst HC Ha. destruct (fetch s b l vs Hp Hs Hst HC) as (s1 & HA1 & _ & HC1 & HL).
  destruct (Ha s1 (ar_ok _ _ _ _ HA1) (ar_stack _ _ _ _ HA1) HA1 HC1) as (s2 & E & HA2). exists s2.
  split; [|by eapply arrives_trans]. exists 1%nat. split; [lia|]. intros fuel. cbn [Nat.add]. by rewrite HL, (bind_ok _ _ _ _ _ E).
Qed.

Lemma ahead_ok n s : vm_ok s -> 0 <= n -> vm_code_pos s + n <= vm_code_len s -> vm_ok (ahead n s).
Proof. intros Hs H0 Hn. apply code_pos_ok; [done|]. destruct Hs. lia. Qed.

Lemma jump_ahead s off : vm_ok s -> 0 <= off < 2 ^ 15 -> vm_code_pos s + off <= vm_code_len s ->
  jump (signed 16 off) s = (Ok tt, ahead off s).
Proof.
  intros Hs Ho Hl. unfold jump. rewrite (bind_ok get _ s s s eq_refl), signed_small by done. cbv zeta.
  rewrite wrapu_small by (destruct Hs; lia). rewrite (bind_ok (put _) _ s tt (ahead off s) eq_refl).
  by rewrite (proj2 (Z.ltb_ge _ _)) by lia.
Qed.

Lemma bra_arrives s v t vs off : vm_ok s -> stack_is s ((v, t) :: vs) -> setting s -> code_at s (number be 2 off) ->
  0 <= off < 2 ^ 15 -> vm_code_pos s + 2 + off <= vm_code_len s ->
  exists s', op_bra s = (Ok tt, s') /\ arrives s (2 + if v =? 0 then 0 else off) vs s'.
Proof.
  intros Hs Hst (_ & _ & Hb) HC Ho Hl. unfold op_bra. pose proof (check_e_stack_ok s _ 1 Hst) as E.
  cbn [length] in E. rewrite (proj2 (Z.ltb_ge _ _)) in E by lia. rewrite (bind_ok _ _ _ _ _ E).
  rewrite (bind_ok _ _ _ _ _ (reads_as_u2 be off ltac:(unfold in_u; lia) s Hb HC)), zlen_number.
  change (@src_ahead Vm vm_source) with ahead. change (Z.of_nat 2) with 2.
  assert (Hs1 : vm_ok (ahead 2 s)) by (apply ahead_ok; [done|lia|lia]).
  assert (Hst1 : stack_is (ahead 2 s) ((v, t) :: vs)) by (by eapply (stack_same s)).
  rewrite (bind_ok _ _ _ _ _ (top_ok _ _ _ _ Hst1)).
  assert (HD : forall s2, vm_ok s2 -> stack_is s2 ((v, t) :: vs) -> exists s3, move_stk (-1) s2 = (Ok tt, s3) /\
    vm_ok s3 /\ stack_is s3 vs /\ same_rest s2 s3).
  { intros s2 Hs2 Hst2. destruct (drop_ok s2 _ v t Hs2 Hst2) as (s3 & E3 & H1 & H2 & H3 & _). by exists s3. }
  destruct (v =? 0); cbn [negb].
  - rewrite ret_bind. destruct (HD _ Hs1 Hst1) as (s3 & -> & H1 & H2 & H3). by exists s3.
  - rewrite (bind_ok _ _ _ _ _ (jump_ahead _ off Hs1 Ho ltac:(cbn; lia))).
    destruct (HD (ahead off (ahead 2 s))) as (s3 & -> & H1 & H2 & H3);
      [by apply ahead_ok; [|lia|cbn; lia]|by eapply (stack_same (ahead 2 s))|].
    exists s3. split; [done|]. constructor; [done|done|]. by rewrite <- ahead_add.
Qed.

Lemma skip_arrives s vs off : vm_ok s -> stack_is s vs -> setting s -> code_at s (number be 2 off) ->
  0 <= off < 2 ^ 15 -> vm_code_pos s + 2 + off <= vm_code_len s ->
  exists s', op_skip s = (Ok tt, s') /\ arrives s (2 + off) vs s'.
Proof.
  intros Hs Hst (_ & _ & Hb) HC Ho Hl. unfold op_skip.
  rewrite (bind_ok _ _ _ _ _ (reads_as_u2 be off ltac:(unfold in_u; lia) s Hb HC)), zlen_number.
  change (@src_ahead Vm vm_source) with ahead. change (Z.of_nat 2) with 2.
  assert (Hs1 : vm_ok (ahead 2 s)) by (apply ahead_ok; [done|lia|lia]).
  rewrite (jump_ahead _ off Hs1 Ho ltac:(cbn; lia)), ahead_add. exists (ahead (2 + off) s). split; [done|].
  constructor; [apply ahead_ok; [done|lia|lia]|by eapply (stack_same s)|done].
Qed.

(** A result further on. *)
Lemma yields_after n m s s1 k l L vs us r : goes n s s1 -> arrives s k us s1 -> yields m s1 l vs r ->
  zlen L = k + zlen l -> yields (n + m) s L vs r.
Proof.
  intros Hg HA Hy HZ. destruct r as [v|e]; cbn in *; [|by eapply goes_halts].
  destruct Hy as (s2 & t & Hg2 & HA2). exists s2, t. split; [by eapply goes_trans|]. rewrite HZ. by eapply arrives_trans.
Qed.

(** The second branch jumps over the first one. *)
Lemma yields_skip s vs A B r : zlen A < 2 ^ 15 -> setting s -> code_at s (B ++ (47 :: number be 2 (zlen A)) ++ A) ->
  yields (length B) s B vs r -> yields (length B + 1) s (B ++ (47 :: number be 2 (zlen A)) ++ A) vs r.
Proof.
  intros HlA Hset HC HY. pose proof (zlen_nonneg A). destruct r as [w|e]; [|cbn in *; eapply halts_more; [exact HY|lia]].
  destruct HY as (s2 & u & Hg2 & HA2). pose proof (arrives_code _ _ _ _ _ HA2 HC) as HC2.
  assert (HZ : zlen (B ++ (47 :: number be 2 (zlen A)) ++ A) = zlen B + (1 + (2 + zlen A)))
    by (rewrite !zlen_app, !zlen_cons, zlen_number; lia).
  assert (HCL : vm_code_pos s + (zlen B + (1 + (2 + zlen A))) <= vm_code_len s).
  { rewrite <- HZ. by destruct HC as (? & ? & _ & _ & ?). }
  destruct (goes_op s2 47 (number be 2 (zlen A) ++ A) ((w, u) :: vs) (2 + zlen A) ((w, u) :: vs)) as (s3 & Hg3 & HA3);
    [by split|apply HA2|apply HA2|done|..].
  { intros s3 Hs3 Hst3 HA3 HC3. apply skip_arrives; auto; try lia.
    - eapply arrives_setting; [exact HA3|]. by eapply arrives_setting.
    - by apply code_at_app in HC3 as [].
    - destruct HA3 as [_ _ HR]. destruct HA2 as [_ _ HR2]. rewrite HR, HR2. cbn. lia. }
  exists s3, u. split; [by eapply goes_trans|]. rewrite HZ. by eapply arrives_trans.
Qed.

(** After the condition. *)
Lemma yields_branch s v t vs A B rA rB : vm_ok s -> stack_is s ((v, t) :: vs) -> setting s ->
  zlen A < 2 ^ 15 -> zlen B + 3 < 2 ^ 15 ->
  let L := (40 :: number be 2 (zlen B + 3)) ++ B ++ (47 :: number be 2 (zlen A)) ++ A in
  code_at s L ->
  (forall s', vm_ok s' -> stack_is s' vs -> setting s' -> code_at s' A -> yields (length A) s' A vs rA) ->
  (forall s', vm_ok s' -> stack_is s' vs -> setting s' -> code_at s' B -> yields (length B) s' B vs rB) ->
  yields (length L) s L vs (if v =? 0 then rB else rA).
Proof.
  intros Hs Hst Hset HlA HlB L HC HA HB. pose proof (zlen_nonneg A). pose proof (zlen_nonneg B).
  assert (HL : zlen L = 3 + zlen B + 3 + zlen A) by (subst L; rewrite !zlen_app, !zlen_cons, !zlen_number; lia).
  assert (HCL : vm_code_pos s + zlen L <= vm_code_len s) by (by destruct HC as (? & ? & _ & _ & ?)).
  destruct (goes_op s 40 (number be 2 (zlen B + 3) ++ B ++ (47 :: number be 2 (zlen A)) ++ A) ((v, t) :: vs)
    (2 + if v =? 0 then 0 else zlen B + 3) vs) as (s1 & Hg & HAr); [by split|done|done|done|..].
  { intros s1 Hs1 Hst1 HA1 HC1. apply (bra_arrives s1 v t vs); auto; try lia; [by eapply arrives_setting|by apply code_at_app in HC1 as []|].
    destruct HA1 as [_ _ HR]. rewrite HR. cbn. lia. }
  pose proof (arrives_setting _ _ _ _ HAr Hset) as Hset1. destruct (v =? 0) eqn:Ev.
  - assert (HC1 : code_at s1 (B ++ (47 :: number be 2 (zlen A)) ++ A)).
    { apply (arrives_code s (40 :: number be 2 (zlen B + 3)) _ vs); [|exact HC]. by rewrite zlen_cons, zlen_number. }
    pose proof (HB s1 (ar_ok _ _ _ _ HAr) (ar_stack _ _ _ _ HAr) Hset1 (proj1 (code_at_app _ _ _ HC1))) as HY.
    apply (yields_more (1 + (length B + 1))); [|unfold zlen in HL; lia].
    apply (yields_after _ _ s s1 3 (B ++ (47 :: number be 2 (zlen A)) ++ A) L vs vs); [done|done| |].
    2:{ rewrite HL, !zlen_app, !zlen_cons, zlen_number. lia. }
    by apply yields_skip.
  - assert (HC1 : code_at s1 A).
    { apply (arrives_code s ((40 :: number be 2 (zlen B + 3)) ++ B ++ (47 :: number be 2 (zlen A))) A vs); [|by rewrite <- !app_assoc].
      rewrite !zlen_app, !zlen_cons, !zlen_number. replace (_ + _) with (1 + (2 + (zlen B + 3))) by lia. done. }
    apply (yields_more (1 + length A)); [|unfold zlen in HL; lia].
    apply (yields_after _ _ s s1 (1 + (2 + (zlen B + 3))) A L vs vs); [done|done| |lia].
    apply HA; [apply HAr|apply HAr|done|done].
Qed.

(** *** The compiler is right *)

Definition right (e : expr) : Prop := forall s vs, vm_ok s -> stack_is s vs -> setting s -> code_at s (compile e) ->
  yields (length (compile e)) s (compile e) vs (eval e).

(** An operation on the value of [e]. *)
Lemma yields_unary e b k f : right e -> plain b ->
  (forall v t vs, in_u 64 v -> acts (step env client_op inv_dwarf (decode_op b)) k ((v, t) :: vs) vs (f v)) ->
  forall s vs, vm_ok s -> stack_is s vs -> setting s -> code_at s (compile e ++ b :: k) ->
  yields (length (compile e ++ b :: k)) s (compile e ++ b :: k) vs (bindr (eval e) f).
Proof.
  intros He Hp Ha s vs Hs Hst Hset HC. eapply (yields_more (length (compile e) + 1)); [|rewrite length_app; cbn [length]; lia].
  eapply yields_then; [apply He; auto; by apply code_at_app in HC as []|done|done|]. intros v t s' _ Hs' Hst' Hset' HC'.
  apply (yields_op _ _ _ ((v, t) :: vs)); auto. apply Ha. by eapply stack_word.
Qed.

Lemma yields_shift e b n f : right e -> plain b -> 0 <= n < 32 ->
  (forall v t t' vs, in_u 64 v -> acts (step env client_op inv_dwarf (decode_op b)) [] ((n, t') :: (v, t) :: vs) vs (inl (f v))) ->
  forall s vs, vm_ok s -> stack_is s vs -> setting s -> code_at s (compile e ++ [48 + n] ++ [b]) ->
  yields (length (compile e ++ [48 + n] ++ [b])) s (compile e ++ [48 + n] ++ [b]) vs (bindr (eval e) (fun v => inl (f v))).
Proof.
  intros He Hp Hn Ha s vs Hs Hst Hset HC. eapply (yields_more (length (compile e) + (1 + 1))); [|rewrite length_app; cbn [length app]; lia].
  eapply yields_then; [apply He; auto; by apply code_at_app in HC as []|done|done|]. intros v t s' _ Hs' Hst' Hset' HC'.
  change (inl (f v)) with (bindr (inl n) (fun _ => inl (f v) : Z + Z)).
  eapply (yields_then _ _ _ [48 + n] [b] ((v, t) :: vs)); [|done|done|].
  - apply (yields_op s' (48 + n) [] ((v, t) :: vs)); auto.
    + unfold plain. by rewrite decode_lit.
    + rewrite decode_lit by done. apply acts_push. unfold in_u. lia.
    + by apply code_at_app in HC' as [].
  - intros n' t' s2 [= <-] Hs2 Hst2 Hset2 HC2. apply (yields_op s2 b [] ((n, t') :: (v, t) :: vs)); auto.
    apply Ha. eapply stack_word; [exact Hs'|exact Hst'].
Qed.

Lemma acts_shift b f n t' v t vs : plain b -> 0 <= n < 32 ->
  step env client_op inv_dwarf (decode_op b) = op_binary shift_count f ->
  acts (step env client_op inv_dwarf (decode_op b)) [] ((n, t') :: (v, t) :: vs) vs (inl (u64 (f v n))).
Proof.
  intros Hp Hn ->. apply acts_binary. unfold shift_count. by rewrite (proj2 (Z.ltb_lt _ _)) by lia.
Qed.

(** Simple operations, where the value does not depend on other expressions. *)
Lemma yields_leaf s b l vs r : vm_ok s -> stack_is s vs -> setting s -> code_at s (b :: l) -> plain b ->
  acts (step env client_op inv_dwarf (decode_op b)) l vs vs r -> yields (length (b :: l)) s (b :: l) vs r.
Proof. intros. eapply (yields_more 1); [by apply (yields_op _ _ _ vs)|cbn; lia]. Qed.

Lemma plain_const k sign : (k < 4)%nat -> plain (8 + 2 * Z.of_nat k + b2z sign).
Proof. intros Hk. destruct k as [|[|[|[|k]]]]; [| | | |lia]; by destruct sign. Qed.

Lemma compile_right e : 0 <= asz <= 8 -> wf e = true -> right e.
Proof.
  intros Hasz. induction e as [n|k sign z|n|z|r off|e IH|n e IH|e IH n|op e IH|op e1 IH1 e2 IH2|e IH n|e IH n|c IHc e1 IH1 e2 IH2];
    intros Hw.
  - cbn [wf] in Hw. intros s vs Hs Hst Hset HC. apply (yields_leaf s (48 + n) []); auto; unfold plain; rewrite decode_lit by lia; [done|].
    apply acts_push. unfold in_u. lia.
  - intros s vs Hs Hst Hset HC.
    assert (Hk : (k < 4)%nat) by (cbn [wf] in Hw; apply andb_true_iff in Hw as [Hk _]; by apply Nat.ltb_lt).
    apply yields_leaf; auto; [by apply plain_const|by apply acts_const_sized].
  - cbn [wf] in Hw. intros s vs Hs Hst Hset HC. apply yields_leaf; auto; [by split|].
    apply (acts_const read_u8leb128 id); [apply reads_as_u8leb128|]; unfold in_u, id; lia.
  - cbn [wf] in Hw. unfold fits_s in Hw. intros s vs Hs Hst Hset HC. apply yields_leaf; auto; [by split|].
    apply (acts_const read_i8leb128 id _ _ (u64 z)); [apply reads_as_i8leb128; lia|]. apply in_u_wrap. lia.
  - cbn [wf] in Hw. unfold fits_s in Hw. intros s vs Hs Hst Hset HC.
    apply yields_leaf; auto; unfold plain; rewrite decode_breg by lia; [done|]. apply acts_breg. lia.
  - refine (yields_unary e 6 [] _ _ _ _); [by apply IH|by split|]. intros v t vs _. apply acts_check; [pose proof (zlen_nonneg vs); zlia|].
    intros s1 Hs1 Hst1 Hr1 Hset1 HC1. unfold addr_size. rewrite (bind_ok (gets _) _ s1 _ s1 eq_refl), (proj1 (proj2 Hset1)).
    exact (acts_load asz v t vs Hasz s1 Hs1 Hst1 Hr1 Hset1 HC1).
  - cbn [wf] in Hw. refine (yields_unary e 148 [n] _ _ _ _); [apply IH; rewrite !andb_true_iff in Hw; tauto|by split|].
    intros v t vs _. apply acts_check; [pose proof (zlen_nonneg vs); zlia|]. rewrite <- (app_nil_r [n]).
    eapply acts_reads; [|apply acts_load; lia]. rewrite <- (number_byte be n) by (unfold is_byte; lia). apply reads_as_u1. unfold is_byte. lia.
  - cbn [wf] in Hw. refine (yields_unary e 35 (uleb128 n) _ _ _ _); [apply IH; rewrite !andb_true_iff in Hw; tauto|by split|].
    intros v t vs _. apply acts_plus_uconst. unfold in_u. lia.
  - refine (yields_unary e (unop_code op) [] _ _ _ _); [by apply IH|by destruct op|]. intros v t vs Hv. by apply acts_unop.
  - cbn [wf] in Hw. apply andb_true_iff in Hw as [Hw1 Hw2]. intros s vs Hs Hst Hset HC. cbn [compile eval] in *.
    eapply (yields_more (length (compile e1) + (length (compile e2) + 1))); [|rewrite !length_app; cbn; lia].
    eapply yields_then; [apply IH1; auto; by apply code_at_app in HC as []|done|done|].
    intros a ta s1 _ Hs1 Hst1 Hset1 HC1. eapply yields_then; [apply IH2; auto; by apply code_at_app in HC1 as []|done|done|].
    intros b tb s2 _ Hs2 Hst2 Hset2 HC2. destruct (stack_words _ _ _ _ _ _ Hs2 Hst2) as [Hb Ha].
    apply (yields_op s2 _ [] ((b, tb) :: (a, ta) :: vs)); auto; [by destruct op|by apply acts_binop].
  - cbn [wf] in Hw. refine (yields_shift e 36 n (fun v => (v * 2 ^ n) mod 2 ^ 64) _ _ _ _); [apply IH; rewrite !andb_true_iff in Hw; tauto|by split|lia|].
    intros v t t' vs Hv. rewrite <- Z.shiftl_mul_pow2 by lia. apply (acts_shift 36 Z.shiftl); [by split|lia|done].
  - cbn [wf] in Hw. refine (yields_shift e 37 n (fun v => v / 2 ^ n) _ _ _ _); [apply IH; rewrite !andb_true_iff in Hw; tauto|by split|lia|].
    intros v t t' vs Hv. replace (v / 2 ^ n) with (u64 (Z.shiftr v n)); [apply (acts_shift 37 Z.shiftr); [by split|lia|done]|].
    unfold in_u in Hv. pose proof (Z.pow_pos_nonneg 2 n ltac:(lia) ltac:(lia)). rewrite Z.shiftr_div_pow2 by lia. apply wrapu_small.
    split; [apply Z.div_pos; lia|]. apply Z.div_lt_upper_bound; nia.
  - cbn [wf] in Hw. rewrite !andb_true_iff in Hw. destruct Hw as [[[[Hwc Hw1] Hw2] HL1] HL2].
    intros s vs Hs Hst Hset HC. cbn [compile eval] in *.
    eapply (yields_more (length (compile c) + _)); [|rewrite length_app; reflexivity].
    eapply yields_then; [apply IHc; auto; by apply code_at_app in HC as []|done|done|].
    intros v t s1 _ Hs1 Hst1 Hset1 HC1. apply (yields_branch s1 v t); auto; try lia; intros s2; [apply (IH1 Hw1)|apply (IH2 Hw2)].
Qed.

Lemma compile_nonempty e : (0 < length (compile e))%nat.
Proof. destruct e; cbn [compile]; rewrite ?length_app; cbn [length]; lia. Qed.

(** C20: the machine computes what expressions are worth.  For every expression of constants of any
    encoding, registers, memory, arithmetic, comparisons, shifts and conditionals, of whatever
    size, the byte code it is compiled to (LEB128 operands, byte order of the target, jumps
    included) leaves its value modulo [2 ^ 64] on top of the stack, the stack below, the pieces and
    the context untouched, and [evaluate_vm_expression] returns 0; when the value does not exist
    (a division by zero, a register or memory that cannot be read) it returns -1 with that error.
    It takes at most one operation per byte of code. *)
Theorem compile_correct e s vs fuel : 0 <= asz <= 8 -> wf e = true -> vm_ok s -> stack_is s vs -> setting s ->
  code_at s (compile e) -> vm_code_len s = vm_code_pos s + zlen (compile e) -> (length (compile e) < fuel)%nat ->
  exists s', match eval e with
  | inl v => evaluate_vm_expression env client_op fuel s = (Ok (0, 0), s') /\ vm_ok s' /\
      (exists t, stack_is s' ((v, t) :: vs)) /\ vm_code_pos s' = vm_code_len s' /\ vm_pieces s' = vm_pieces s
  | inr err => evaluate_vm_expression env client_op fuel s = (Ok (-1, err), s')
  end.
Proof.
  intros Hasz Hw Hs Hst Hset HC HL Hfuel. unfold evaluate_vm_expression, evaluate_vm.
  set (s1 := set_implicit_pointer 0 (set_value_addr None (set_reg_def None s))).
  rewrite (bind_ok (modify (fun s => set_implicit_pointer 0 (set_value_addr None (set_reg_def None s)))) _ s tt s1 eq_refl).
  destruct (core_ok s s1 eq_refl Hs) as (HK & Hst1 & _).
  pose proof (compile_right e Hasz Hw s1 vs (kp_ok _ _ HK) (Hst1 _ Hst) Hset HC) as HY. pose proof (compile_nonempty e) as Hne.
  assert (HE : evaluate_expression env client_op fuel s1 = loop fuel s1).
  { unfold evaluate_expression. rewrite (bind_ok get _ s1 s1 s1 eq_refl). change (vm_code_len s1) with (vm_code_len s).
    rewrite (proj2 (Z.eqb_neq _ _)); [done|]. unfold zlen in HL. destruct Hs. lia. }
  destruct (eval e) as [v|err]; cbn in HY.
  - destruct HY as (s2 & t & (k & Hk & EK) & [Hok Hst2 HR]).
    assert (Hp : vm_code_len s2 <= vm_code_pos s2) by (rewrite HR; cbn; lia).
    assert (HX : evaluate_expression env client_op fuel s1 = (Ok tt, s2)).
    { rewrite HE. replace fuel with (k + S (fuel - k - 1))%nat by lia. rewrite EK. cbn [evaluate_loop].
      by rewrite (bind_ok get _ s2 s2 s2 eq_refl), (proj2 (Z.leb_le _ _)) by lia. }
    rewrite (bind_ok _ _ _ _ _ HX), (bind_ok get _ s2 s2 s2 eq_refl).
    assert (HN : vm_reg_def s2 = None /\ vm_value_addr s2 = None /\ vm_implicit_pointer s2 = 0 /\ vm_pieces s2 = vm_pieces s)
      by (by rewrite HR).
    destruct HN as (-> & -> & -> & HP). exists s2. split; [done|]. split; [done|]. split; [by exists t|]. split; [|done].
    rewrite HR. cbn. lia.
  - destruct HY as (k & s2 & Hk & EK).
    assert (HX : evaluate_expression env client_op fuel s1 = (Exc err, s2)).
    { rewrite HE. by replace fuel with (k + (fuel - k))%nat by lia. }
    rewrite (bind_exc _ _ _ _ _ HX). by exists s2.
Qed.
End compile.

(** [r3 + 8 = 0 ? *(r3 + 8) : -1 / 3 (unsigned) + 624485 * 2], on a context where [r3] is
    1003, big endian, and a division by zero. *)
Definition sample : expr :=
  EIf (EBin BEq (EBreg 3 8) (ELit 0)) (EDeref (EBreg 3 8))
    (EBin BAdd (EBin BDiv (EConst 2 true (-1)) (ELit 3)) (EShl (EConstu 624485) 1)).

Lemma compile_correct_witness :
  (exists s', evaluate_vm_expression small_env None 60 (start_vm true 4 (compile true sample)) = (Ok (0, 0), s') /\ vm_ok s' /\
    (exists t, stack_is s' [(6148914691237766175, t)]) /\ vm_code_pos s' = vm_code_len s' /\ vm_pieces s' = []) /\
  (exists s', evaluate_vm_expression small_env None 60 (start_vm true 4 (compile true (EBin BMod sample (ELit 0)))) = (Ok (-1, ERR_INV_DWARF), s')).
Proof.
  assert (HT : forall e, wf true e = true -> forallb (fun b => (0 <=? b) && (b <? 256)) (compile true e) = true ->
    zlen (compile true e) < 2 ^ 62 -> (length (compile true e) < 60)%nat ->
    exists s', match eval small_env (Some 1) 4 true e with
    | inl v => evaluate_vm_expression small_env None 60 (start_vm true 4 (compile true e)) = (Ok (0, 0), s') /\ vm_ok s' /\
        (exists t, stack_is s' [(v, t)]) /\ vm_code_pos s' = vm_code_len s' /\ vm_pieces s' = []
    | inr err => evaluate_vm_expression small_env None 60 (start_vm true 4 (compile true e)) = (Ok (-1, err), s')
    end).
  { intros e Hw Hb Hl Hf. apply (compile_correct small_env None small_env_ok (Some 1) 4 true e (start_vm true 4 (compile true e)) [] 60).
    - lia.
    - exact Hw.
    - apply start_vm_ok; [exact Hb|exact Hl|]. apply list_elem_of_In. cbn. tauto.
    - split; [reflexivity|]. by intros k v t.
    - by split_and!.
    - exists [], []. by rewrite app_nil_r.
    - cbn. lia.
    - exact Hf. }
  split; [exact (HT sample eq_refl eq_refl eq_refl ltac:(vm_compute; lia))|].
  exact (HT (EBin BMod sample (ELit 0)) eq_refl eq_refl eq_refl ltac:(vm_compute; lia)).
Defined.
