(* ===== verification/LocExpr.v ===== *)
(** * Location expressions of symbols and frames (cpudefs.c): definitions

    [evaluate_location_expression] runs a list of commands on a stack of 64-bit
    words: numbers, registers of a frame, memory, arithmetic, pieces, and
    expressions in DWARF byte code, which a call back evaluates (the machine of
    vm.c). *)

From S2P Require Import Prelude ByteSource Vm Registers LocPieces.

Section locexpr.
Context {T : Type} `{!ContextIf T}.

(** [cmd->args.loc.func]: it gets the context and the frame of the expression. *)
Definition LocationExpressionCallback : Type := Cpu T -> M Vm (Z * Z).

Inductive LocationExpressionCommand :=
| SFT_CMD_NUMBER (num : Z)
| SFT_CMD_RD_REG (reg : RegisterDefinition)
| SFT_CMD_RD_REG_PCXI_TRICORE (reg : RegisterDefinition)
| SFT_CMD_WR_REG (reg : RegisterDefinition)
| SFT_CMD_FP
| SFT_CMD_LOAD (size : Z) (big_endian : bool)
| SFT_CMD_RD_MEM (size : Z) (big_endian : bool)
| SFT_CMD_WR_MEM (size : Z) (big_endian : bool)
| SFT_CMD_ADD | SFT_CMD_SUB | SFT_CMD_MUL | SFT_CMD_DIV
| SFT_CMD_AND | SFT_CMD_OR | SFT_CMD_XOR | SFT_CMD_NEG
| SFT_CMD_GE | SFT_CMD_GT | SFT_CMD_LE | SFT_CMD_LT
| SFT_CMD_SHL | SFT_CMD_SHR
| SFT_CMD_ARG (arg_no : Z)
| SFT_CMD_SET_ARG (arg_no : Z)
| SFT_CMD_LOCATION (func : LocationExpressionCallback) (big_endian : bool) (code : bytes) (addr_size : Z)
| SFT_CMD_FCALL
| SFT_CMD_PIECE (bit_offs bit_size : Z) (reg : option RegisterDefinition) (value : option bytes)
| SFT_CMD_OTHER (cmd : Z).

(** [LocationExpressionState] and the local variables.  [le_args] is the array
    that the commands use; [state->args] is the same one, until [SFT_CMD_SET_ARG]
    has made a longer copy: then [le_old_args] is [state->args]. *)
Record Loc := {
  le_cpu : Cpu T;
  le_args : list Z;
  le_old_args : option (list Z);
  le_stk : list Z;
  le_stk_pos : Z;
  le_stk_max : Z;
  le_pieces : list LocationPiece;
  le_pieces_max : Z;
  le_sft_cmd : option LocationExpressionCommand;
}.

Definition set_le_cpu (x : Cpu T) (s : Loc) : Loc :=
  Build_Loc x (le_args s) (le_old_args s) (le_stk s) (le_stk_pos s) (le_stk_max s) (le_pieces s) (le_pieces_max s) (le_sft_cmd s).
Definition set_le_args (l : list Z) (old : option (list Z)) (s : Loc) : Loc :=
  Build_Loc (le_cpu s) l old (le_stk s) (le_stk_pos s) (le_stk_max s) (le_pieces s) (le_pieces_max s) (le_sft_cmd s).
Definition set_le_stk (l : list Z) (pos max : Z) (s : Loc) : Loc :=
  Build_Loc (le_cpu s) (le_args s) (le_old_args s) l pos max (le_pieces s) (le_pieces_max s) (le_sft_cmd s).
Definition set_le_pieces (l : list LocationPiece) (max : Z) (s : Loc) : Loc :=
  Build_Loc (le_cpu s) (le_args s) (le_old_args s) (le_stk s) (le_stk_pos s) (le_stk_max s) l max (le_sft_cmd s).
Definition set_le_sft_cmd (x : option LocationExpressionCommand) (s : Loc) : Loc :=
  Build_Loc (le_cpu s) (le_args s) (le_old_args s) (le_stk s) (le_stk_pos s) (le_stk_max s) (le_pieces s) (le_pieces_max s) x.

(** Something that is done with the context and the frame. *)
Definition on_cpu {A} (m : M (Cpu T) A) : M Loc A := fun s =>
  let '(r, c) := m (le_cpu s) in (r, set_le_cpu c s).

Definition location_expression_error {A} : M Loc A := exception ERR_OTHER.

(** ** The stack *)

Definition need (n : Z) : M Loc unit := s ← get; if le_stk_pos s <? n then location_expression_error else mret tt.

(** [stk[stk_pos - k]] *)
Definition word (k : Z) : M Loc Z := s ← get; of_option (znth (le_stk s) (le_stk_pos s - k)).

Definition set_word (k v : Z) : M Loc unit :=
  s ← get;
  l ← of_option (mem_write (le_stk s) (le_stk_pos s - k) [v]);
  put (set_le_stk l (le_stk_pos s) (le_stk_max s) s).

Definition move (n : Z) : M Loc unit := modify (fun s => set_le_stk (le_stk s) (le_stk_pos s + n) (le_stk_max s) s).

Definition push_word (v : Z) : M Loc unit := set_word 0 v ;; move 1.

Definition grow : M Loc unit :=
  s ← get;
  if le_stk_max s <=? le_stk_pos s then put (set_le_stk (le_stk s ++ replicate 4 0) (le_stk_pos s) (le_stk_max s + 4) s)
  else mret tt.

(** An operation on two words. *)
Definition binary (f : Z -> Z -> M Loc Z) : M Loc unit :=
  need 2 ;;
  a ← word 2;
  b ← word 1;
  v ← f a b;
  set_word 2 v ;;
  move (-1).

Definition arith (f : Z -> Z -> Z) (a b : Z) : M Loc Z := mret (u64 (f a b)).

(** ** Pieces *)

Definition new_piece (p : LocationPiece) : M Loc unit :=
  modify (fun s => set_le_pieces (le_pieces s ++ [p])
    (if le_pieces_max s <=? zlen (le_pieces s) then le_pieces_max s + 4 else le_pieces_max s) s).

Definition mem_piece (addr size : Z) : LocationPiece := Build_LocationPiece false addr None None size 0 0 0.

(** ** Commands *)

Definition cmd_read_mem (size : Z) (big_endian last : bool) : M Loc unit :=
  need 1 ;;
  addr ← word 1;
  s ← get;
  if size <=? 8 then
    buf ← raise_result (ctx_read_mem addr size (cpu_ctx (le_cpu s)));
    set_word 1 (be_value (if big_endian then buf else reverse buf))
  else if (zlen (le_pieces s) =? 0) && last && (le_stk_pos s =? 1) then
    new_piece (mem_piece addr size) ;; move (-1)
  else exception ERR_INV_DATA_SIZE.

Definition cmd_load (size : Z) (big_endian last : bool) : M Loc unit :=
  s ← get;
  match le_pieces s with
  | [] => cmd_read_mem size big_endian last
  | l =>
      buf ← on_cpu (read_location_pieces big_endian l);
      modify (fun s => set_le_pieces [] (le_pieces_max s) s) ;;
      push_word (be_value (if big_endian then buf else reverse buf))
  end.

Definition cmd_write_mem (size : Z) (big_endian : bool) : M Loc unit :=
  need 2 ;;
  n ← word 1;
  assertm (size <=? 8) ;;
  addr ← word 2;
  let buf := store_bytes (Z.to_nat size) n in
  on_cpu (change_context (ctx_write_mem addr (if big_endian then reverse buf else buf))) ;;
  move (-2).

(** PCXI is the link to the saved registers: a segment and an offset. *)
Definition pcxi_address (pcxi : Z) : Z :=
  Z.lor (Z.shiftl (Z.land pcxi 65535) 6) (Z.shiftl (Z.land pcxi 983040) 12).

Definition cmd_set_arg (arg_no : Z) : M Loc unit :=
  need 1 ;;
  s ← get;
  (if zlen (le_args s) <=? arg_no then
     put (set_le_args (le_args s ++ replicate (Z.to_nat (u32 (arg_no + 1) - zlen (le_args s))) 0)
       (Some (default (le_args s) (le_old_args s))) s)
   else mret tt) ;;
  v ← word 1;
  s ← get;
  l ← of_option (mem_write (le_args s) arg_no [v]);
  put (set_le_args l (le_old_args s) s) ;;
  move (-1).

(** The state of the machine of vm.c; [vm_frame] is the number of the frame. *)
Definition location_vm (be : bool) (code : bytes) (addr_size : Z) (s : Loc) : Vm :=
  Build_Vm (sf_frame <$> cpu_frame (le_cpu s)) (default (le_args s) (le_old_args s)) code 0 (zlen code) be addr_size
    (le_pieces s) (le_pieces_max s) (le_stk_pos s) (le_stk_max s) (le_stk s) (replicate (length (le_stk s)) 0)
    None None 0.

Definition cmd_location (func : LocationExpressionCallback) (be : bool) (code : bytes) (addr_size : Z) : M Loc unit := fun s =>
  match func (le_cpu s) (location_vm be code addr_size s) with
  | (Ok (0, _), v) => (Ok tt, set_le_pieces (vm_pieces v) (vm_pieces_max v) (set_le_stk (vm_stk v) (vm_stk_pos v) (vm_stk_max v) s))
  | (Ok (_, e), _) => (Exc e, s)
  | (Exc e, _) => (Exc e, s)
  | (Undef, _) => (Undef, s)
  | (NoFuel, _) => (NoFuel, s)
  end.

Definition cmd_piece (bit_offs bit_size : Z) (reg : option RegisterDefinition) (value : option bytes) : M Loc unit :=
  let p :=
    if (bit_offs =? 0) && (bit_size mod 8 =? 0) then Build_LocationPiece false 0 None None (bit_size / 8) 0 0 0
    else Build_LocationPiece false 0 None None 0 bit_offs bit_size 0 in
  let with_loc addr reg value := Build_LocationPiece false addr reg value (lp_size p) (lp_bit_offs p) (lp_bit_size p) 0 in
  match reg, value with
  | None, None =>
      s ← get;
      if le_stk_pos s =? 0 then location_expression_error
      else move (-1) ;; addr ← word 0; new_piece (with_loc addr None None)
  | _, _ => new_piece (with_loc 0 reg value)
  end.

Definition run_command (cmd : LocationExpressionCommand) (last : bool) : M Loc unit :=
  match cmd with
  | SFT_CMD_NUMBER num => push_word (u64 num)
  | SFT_CMD_RD_REG reg => v ← on_cpu (read_reg_value (Some reg)); push_word v
  | SFT_CMD_RD_REG_PCXI_TRICORE reg => v ← on_cpu (read_reg_value (Some reg)); push_word (pcxi_address v)
  | SFT_CMD_WR_REG reg => need 1 ;; v ← word 1; on_cpu (write_reg_value (Some reg) v) ;; move (-1)
  | SFT_CMD_FP =>
      s ← get;
      match cpu_frame (le_cpu s) with None => exception ERR_INV_CONTEXT | Some f => push_word (sf_fp f) end
  | SFT_CMD_LOAD size be => cmd_load size be last
  | SFT_CMD_RD_MEM size be => cmd_read_mem size be last
  | SFT_CMD_WR_MEM size be => cmd_write_mem size be
  | SFT_CMD_ADD => binary (arith Z.add)
  | SFT_CMD_SUB => binary (arith Z.sub)
  | SFT_CMD_MUL => binary (arith Z.mul)
  | SFT_CMD_DIV => binary (fun a b => if b =? 0 then exception ERR_OTHER else mret (a / b))
  | SFT_CMD_AND => binary (arith Z.land)
  | SFT_CMD_OR => binary (arith Z.lor)
  | SFT_CMD_XOR => binary (arith Z.lxor)
  | SFT_CMD_NEG => need 1 ;; a ← word 1; set_word 1 (u64 (Z.lnot a)) ;; move (-1)
  | SFT_CMD_GE => binary (arith (fun a b => b2z (b <=? a)))
  | SFT_CMD_GT => binary (arith (fun a b => b2z (b <? a)))
  | SFT_CMD_LE => binary (arith (fun a b => b2z (a <=? b)))
  | SFT_CMD_LT => binary (arith (fun a b => b2z (a <? b)))
  | SFT_CMD_SHL => binary (fun a b => assertm (b <? 64) ;; mret (u64 (Z.shiftl a b)))
  | SFT_CMD_SHR => binary (fun a b => assertm (b <? 64) ;; mret (Z.shiftr a b))
  | SFT_CMD_ARG arg_no =>
      s ← get;
      if zlen (le_args s) <=? arg_no then location_expression_error
      else v ← of_option (znth (le_args s) arg_no); push_word v
  | SFT_CMD_SET_ARG arg_no => cmd_set_arg arg_no
  | SFT_CMD_LOCATION func be code addr_size => cmd_location func be code addr_size
  | SFT_CMD_FCALL => modify (set_le_sft_cmd (Some cmd))
  | SFT_CMD_PIECE bit_offs bit_size reg value => cmd_piece bit_offs bit_size reg value
  | SFT_CMD_OTHER _ => location_expression_error
  end.

(** [i < cmd_cnt && state->sft_cmd == NULL] *)
Fixpoint run_commands (cmds : list LocationExpressionCommand) : M Loc unit :=
  match cmds with
  | [] => mret tt
  | cmd :: cmds =>
      s ← get;
      match le_sft_cmd s with
      | Some _ => mret tt
      | None =>
          grow ;;
          run_command cmd (match cmds with [] => true | _ => false end) ;;
          run_commands cmds
      end
  end.

(** Two words that remain are added. *)
Definition join_words : M Loc unit :=
  s ← get;
  if le_stk_pos s =? 2 then
    a ← of_option (znth (le_stk s) 0);
    b ← of_option (znth (le_stk s) 1);
    l ← of_option (mem_write (le_stk s) 0 [u64 (a + b)]);
    put (set_le_stk l 1 (le_stk_max s) s)
  else mret tt.

Definition start_loc (args : list Z) (c : Cpu T) : Loc := Build_Loc c args None [] 0 0 [] 0 None.

(** The final state is the result. *)
Definition evaluate_location_expression (cmds : list LocationExpressionCommand) (args : list Z) : M (Cpu T) Loc := fun c =>
  match (run_commands cmds ;; join_words) (start_loc args c) with
  | (Ok _, s) => (Ok s, le_cpu s)
  | (Exc e, s) => (Exc e, le_cpu s)
  | (Undef, s) => (Undef, le_cpu s)
  | (NoFuel, s) => (NoFuel, le_cpu s)
  end.
End locexpr.

Arguments LocationExpressionCommand T : clear implicits.
Arguments LocationExpressionCallback T : clear implicits.
Arguments Loc T : clear implicits.
