(* ===== verification/LocExprSpec.v ===== *)
(** * Location expressions: what words are computed

    The commands that compute words, without pieces, byte code and writes, are those
    of a stack machine: [evaluate_location_expression] has its results and its
    errors, and leaves the context as it was. *)

From S2P Require Import Prelude ByteSource Vm Registers LocPieces LocExpr.

(** ** Specification

    The top of the stack is the first item of the list. *)
Section spec.
Context {T : Type} `{!ContextIf T}.
Context (c : Cpu T) (args : list Z).

Definition then_word {B} (r : outcome Z) (f : Z -> outcome B) : outcome B :=
  match r with Ok v => f v | Exc e => Exc e | Undef => Undef | NoFuel => NoFuel end.

(** The values of a register and of the memory. *)
Definition reg_word (r : RegisterDefinition) : outcome Z := fst (read_reg_value (Some r) c).

Definition mem_word (size : Z) (be : bool) (addr : Z) : outcome Z :=
  match ctx_read_mem addr size (cpu_ctx c) with
  | inl buf => Ok (be_value (if be then buf else reverse buf))
  | inr e => Exc e
  end.

Definition on_word (f : Z -> outcome Z) (stk : list Z) : outcome (list Z) :=
  match stk with a :: l => then_word (f a) (fun v => Ok (v :: l)) | [] => Exc ERR_OTHER end.

Definition on_words (f : Z -> Z -> outcome Z) (stk : list Z) : outcome (list Z) :=
  match stk with b :: a :: l => then_word (f a b) (fun v => Ok (v :: l)) | _ => Exc ERR_OTHER end.

Definition total2 (f : Z -> Z -> Z) (a b : Z) : outcome Z := Ok (u64 (f a b)).

Definition spec_command (cmd : LocationExpressionCommand T) (stk : list Z) : outcome (list Z) :=
  match cmd with
  | SFT_CMD_NUMBER num => Ok (u64 num :: stk)
  | SFT_CMD_RD_REG r => then_word (reg_word r) (fun v => Ok (v :: stk))
  | SFT_CMD_RD_REG_PCXI_TRICORE r => then_word (reg_word r) (fun v => Ok (pcxi_address v :: stk))
  | SFT_CMD_FP => match cpu_frame c with None => Exc ERR_INV_CONTEXT | Some f => Ok (sf_fp f :: stk) end
  | SFT_CMD_LOAD size be | SFT_CMD_RD_MEM size be => on_word (mem_word size be) stk
  | SFT_CMD_ADD => on_words (total2 Z.add) stk
  | SFT_CMD_SUB => on_words (total2 Z.sub) stk
  | SFT_CMD_MUL => on_words (total2 Z.mul) stk
  | SFT_CMD_DIV => on_words (fun a b => if b =? 0 then Exc ERR_OTHER else Ok (a / b)) stk
  | SFT_CMD_AND => on_words (total2 Z.land) stk
  | SFT_CMD_OR => on_words (total2 Z.lor) stk
  | SFT_CMD_XOR => on_words (total2 Z.lxor) stk
  | SFT_CMD_GE => on_words (total2 (fun a b => b2z (b <=? a))) stk
  | SFT_CMD_GT => on_words (total2 (fun a b => b2z (b <? a))) stk
  | SFT_CMD_LE => on_words (total2 (fun a b => b2z (a <=? b))) stk
  | SFT_CMD_LT => on_words (total2 (fun a b => b2z (a <? b))) stk
  | SFT_CMD_SHL => on_words (fun a b => if b <? 64 then Ok (u64 (Z.shiftl a b)) else Undef) stk
  | SFT_CMD_SHR => on_words (fun a b => if b <? 64 then Ok (Z.shiftr a b) else Undef) stk
  | SFT_CMD_ARG n =>
      if zlen args <=? n then Exc ERR_OTHER
      else match znth args n with Some v => Ok (v :: stk) | None => Undef end
  | _ => Exc ERR_OTHER
  end.

Fixpoint spec_commands (cmds : list (LocationExpressionCommand T)) (stk : list Z) : outcome (list Z) :=
  match cmds with
  | [] => Ok stk
  | cmd :: cmds =>
      match spec_command cmd stk with
      | Ok stk => spec_commands cmds stk
      | r => r
      end
  end.

(** Two words are added at the end. *)
Definition join (stk : list Z) : list Z := match stk with [b; a] => [u64 (a + b)] | _ => stk end.
End spec.

(** The commands that compute words. *)
Definition word_command {T} (cmd : LocationExpressionCommand T) : bool :=
  match cmd with
  | SFT_CMD_NUMBER _ | SFT_CMD_RD_REG _ | SFT_CMD_RD_REG_PCXI_TRICORE _ | SFT_CMD_FP
  | SFT_CMD_ADD | SFT_CMD_SUB | SFT_CMD_MUL | SFT_CMD_DIV | SFT_CMD_AND | SFT_CMD_OR | SFT_CMD_XOR
  | SFT_CMD_GE | SFT_CMD_GT | SFT_CMD_LE | SFT_CMD_LT | SFT_CMD_SHL | SFT_CMD_SHR | SFT_CMD_ARG _ | SFT_CMD_OTHER _ => true
  | SFT_CMD_LOAD size _ | SFT_CMD_RD_MEM size _ => size <=? 8
  | _ => false
  end.

(** ** Proofs *)

Lemma znth_mid {A} (l : list A) x k : znth (l ++ x :: k) (zlen l) = Some x.
Proof. unfold znth, zlen. rewrite (proj2 (Z.leb_le _ _)), Nat2Z.id, list_lookup_middle by lia. done. Qed.

Lemma mem_write_mid l x k y : mem_write (l ++ x :: k) (zlen l) [y] = Some (l ++ y :: k).
Proof.
  unfold mem_write. pose proof (zlen_nonneg l). pose proof (zlen_nonneg k). change (zlen [y]) with 1.
  rewrite !(proj2 (Z.leb_le _ _)) by (rewrite ?zlen_app, ?zlen_cons; lia). cbn [andb]. f_equal. f_equal; [by apply ztake_app_exact|].
  cbn [app]. f_equal. unfold zdrop, zlen. replace (Z.to_nat _) with (length (l ++ [x])) by (rewrite length_app; cbn; lia).
  change (l ++ x :: k) with (l ++ [x] ++ k). by rewrite app_assoc, drop_app_length.
Qed.

Section proofs.
Context {T : Type} `{!ContextIf T}.
Context (c : Cpu T) (args : list Z).

(** The words of the machine are the first ones of the array. *)
Definition loc (stk rest : list Z) : Loc T :=
  Build_Loc c args None (reverse stk ++ rest) (zlen stk) (zlen stk + zlen rest) [] 0 None.

(** What the machine makes is what the specification says. *)
Definition agrees (r : outcome (list Z)) (out : outcome unit * Loc T) : Prop :=
  le_cpu (snd out) = c /\
  match r with
  | Ok stk => exists rest, out = (Ok tt, loc stk rest)
  | Exc e => fst out = Exc e
  | Undef => fst out = Undef
  | NoFuel => fst out = NoFuel
  end.

Lemma agrees_ok stk rest : agrees (Ok stk) (Ok tt, loc stk rest).
Proof. split; [done|by exists rest]. Qed.

Lemma agrees_exc e s : le_cpu s = c -> agrees (Exc e) (Exc e, s).
Proof. done. Qed.

Lemma zlen_reverse {A} (l : list A) : zlen (reverse l) = zlen l.
Proof. unfold zlen. by rewrite length_reverse. Qed.

Lemma loc_top (b : Z) stk rest : reverse (b :: stk) ++ rest = reverse stk ++ b :: rest.
Proof. by rewrite reverse_cons, <- app_assoc. Qed.

Lemma word_top b stk rest : word 1 (loc (b :: stk) rest) = (Ok b, loc (b :: stk) rest).
Proof.
  unfold word. rewrite (bind_ok get _ _ _ _ eq_refl). cbn [le_stk le_stk_pos loc]. rewrite loc_top, zlen_cons.
  replace (zlen stk + 1 - 1) with (zlen (reverse stk)) by (rewrite zlen_reverse; lia). by rewrite znth_mid.
Qed.

Lemma word_second b a stk rest : word 2 (loc (b :: a :: stk) rest) = (Ok a, loc (b :: a :: stk) rest).
Proof.
  unfold word. rewrite (bind_ok get _ _ _ _ eq_refl). cbn [le_stk le_stk_pos loc]. rewrite !loc_top, !zlen_cons.
  replace (zlen stk + 1 + 1 - 2) with (zlen (reverse stk)) by (rewrite zlen_reverse; lia). by rewrite znth_mid.
Qed.

Lemma set_word_loc l x k y n pos max p pm : n = pos - zlen l ->
  set_word n y (Build_Loc c args None (l ++ x :: k) pos max p pm None) = (Ok tt, Build_Loc c args None (l ++ y :: k) pos max p pm None).
Proof.
  intros ->. unfold set_word. rewrite (bind_ok get _ _ _ _ eq_refl). cbn [le_stk le_stk_pos].
  replace (pos - (pos - zlen l)) with (zlen l) by lia. rewrite mem_write_mid. done.
Qed.

Lemma set_word_top b v stk rest : set_word 1 v (loc (b :: stk) rest) = (Ok tt, loc (v :: stk) rest).
Proof. unfold loc. rewrite !loc_top, set_word_loc by (rewrite zlen_cons, zlen_reverse; lia). by rewrite !zlen_cons. Qed.

Lemma push_loc v stk x rest : push_word v (loc stk (x :: rest)) = (Ok tt, loc (v :: stk) rest).
Proof.
  unfold push_word. unfold loc at 1. erewrite bind_ok; [|apply set_word_loc; rewrite zlen_reverse; lia].
  unfold move, modify, set_le_stk, loc. cbn [le_cpu le_args le_old_args le_stk le_stk_pos le_stk_max le_pieces le_pieces_max le_sft_cmd].
  rewrite loc_top, !zlen_cons. do 2 f_equal; lia.
Qed.

Lemma need_loc n stk rest : need n (loc stk rest) = (if zlen stk <? n then Exc ERR_OTHER else Ok tt, loc stk rest).
Proof. unfold need. rewrite (bind_ok get _ _ _ _ eq_refl). cbn [le_stk_pos loc]. by destruct (zlen stk <? n). Qed.

(** A register is read without a change. *)
Lemma read_reg_value_same r : snd (read_reg_value r c) = c.
Proof.
  assert (HM : forall mask n i, snd (mask_known mask i n c) = c).
  { intros mask n. induction n as [|n IH]; intros i; [done|]. cbn [mask_known]. destruct (znth mask i); [|done]. cbn [of_option].
    rewrite ret_bind. destruct (_ =? 255); [apply IH|done]. }
  unfold read_reg_value. rewrite (bind_ok get _ _ _ _ eq_refl). destruct r as [r|], (cpu_frame c) as [f|] eqn:Ef; try done.
  destruct (8 <? rd_size r); [done|].
  assert (HB : snd (read_reg_bytes (Some r) 0 (rd_size r) c) = c).
  { unfold read_reg_bytes. rewrite (bind_ok get _ _ _ _ eq_refl), Ef. destruct (sf_is_top_frame f).
    - unfold raise_result. by destruct (ctx_read_reg _ _ _ _).
    - destruct (sf_regs f) as [d|]; [|done]. specialize (HM (rg_mask d) (Z.to_nat (rd_size r)) (rd_offset r + 0)).
      unfold mbind, M_bind. destruct (mask_known _ _ _ c) as [[[]|e| |] c1]; cbn in HM; subst c1; try done.
      unfold assertm. destruct (_ <=? reg_set_size T); [|done]. cbn. destruct (rd_size r <? _); [done|]. by destruct (mem_read _ _ _). }
  unfold mbind, M_bind. destruct (read_reg_bytes _ _ _ c) as [[buf|e| |] c1]; cbn in HB; by subst c1.
Qed.

Lemma on_cpu_reg r s : le_cpu s = c -> on_cpu (read_reg_value (Some r)) s = (reg_word c r, s).
Proof.
  intros Hs. unfold on_cpu, reg_word. rewrite Hs. pose proof (read_reg_value_same (Some r)) as E.
  destruct (read_reg_value (Some r) c) as [v c1]. cbn in *. subst c1. destruct s; cbn in Hs. by subst.
Qed.

Lemma agrees_then {A} (r : outcome A) (m : M (Loc T) A) (f : A -> outcome (list Z)) (g : A -> M (Loc T) unit) s :
  m s = (r, s) -> le_cpu s = c -> (forall a, r = Ok a -> agrees (f a) (g a s)) ->
  agrees (match r with Ok v => f v | Exc e => Exc e | Undef => Undef | NoFuel => NoFuel end) ((m ≫= g) s).
Proof. intros Hm Hs Hf. unfold mbind, M_bind. rewrite Hm. destruct r as [a|e| |]; try done. by apply Hf. Qed.

(** *** Commands *)

Lemma binary_agrees f g stk rest : (forall a b s, le_cpu s = c -> f a b s = (g a b, s)) ->
  agrees (on_words g stk) (binary f (loc stk rest)).
Proof.
  intros Hf. unfold binary. destruct stk as [|b [|a stk]].
  - by rewrite (bind_exc _ _ _ ERR_OTHER _ (need_loc 2 [] rest)).
  - by rewrite (bind_exc _ _ _ ERR_OTHER _ (need_loc 2 [b] rest)).
  - assert (E : need 2 (loc (b :: a :: stk) rest) = (Ok tt, loc (b :: a :: stk) rest)).
    { rewrite need_loc. pose proof (zlen_nonneg stk). by rewrite (proj2 (Z.ltb_ge _ _)) by (rewrite !zlen_cons; lia). }
    rewrite (bind_ok _ _ _ _ _ E), (bind_ok _ _ _ _ _ (word_second b a stk rest)), (bind_ok _ _ _ _ _ (word_top b (a :: stk) rest)).
    cbn [on_words]. unfold then_word. apply agrees_then; [by apply Hf|done|]. intros v _.
    unfold loc at 1. rewrite !loc_top. erewrite bind_ok; [|apply set_word_loc; rewrite zlen_reverse, !zlen_cons; lia].
    split; [done|]. exists (b :: rest). unfold move, modify, set_le_stk, loc.
    cbn [le_cpu le_args le_old_args le_stk le_stk_pos le_stk_max le_pieces le_pieces_max le_sft_cmd].
    rewrite loc_top, !zlen_cons. do 2 f_equal; lia.
Qed.

Lemma read_mem_agrees size be last stk rest : size <= 8 ->
  agrees (on_word (mem_word c size be) stk) (cmd_read_mem size be last (loc stk rest)).
Proof.
  intros Hs. unfold cmd_read_mem. destruct stk as [|a stk]; [by rewrite (bind_exc _ _ _ ERR_OTHER _ (need_loc 1 [] rest))|].
  assert (E : need 1 (loc (a :: stk) rest) = (Ok tt, loc (a :: stk) rest)).
  { rewrite need_loc. pose proof (zlen_nonneg stk). by rewrite (proj2 (Z.ltb_ge _ _)) by (rewrite !zlen_cons; lia). }
  rewrite (bind_ok _ _ _ _ _ E), (bind_ok _ _ _ _ _ (word_top a stk rest)), (bind_ok get _ _ _ _ eq_refl).
  rewrite (proj2 (Z.leb_le _ _)) by done. cbn [on_word le_cpu loc]. unfold mem_word, then_word, raise_result.
  destruct (ctx_read_mem a size (cpu_ctx c)) as [buf|e]; [|done]. rewrite ret_bind, set_word_top. apply agrees_ok.
Qed.

Lemma run_command_agrees cmd last stk x rest : word_command cmd = true ->
  agrees (spec_command c args cmd stk) (run_command cmd last (loc stk (x :: rest))).
Proof.
  intros Hw. assert (HT : forall f a b s, le_cpu s = c -> @arith T f a b s = (total2 f a b, s)) by done.
  destruct cmd; try done; cbn [run_command spec_command word_command] in *; try (by apply binary_agrees).
  - rewrite push_loc. apply agrees_ok.
  - apply agrees_then; [by apply on_cpu_reg|done|]. intros v _. rewrite push_loc. apply agrees_ok.
  - apply agrees_then; [by apply on_cpu_reg|done|]. intros v _. rewrite push_loc. apply agrees_ok.
  - rewrite (bind_ok get _ _ _ _ eq_refl). cbn [le_cpu loc]. destruct (cpu_frame c) as [f|]; [|done]. rewrite push_loc. apply agrees_ok.
  - unfold cmd_load. rewrite (bind_ok get _ _ _ _ eq_refl). cbn [le_pieces loc]. apply read_mem_agrees. lia.
  - apply read_mem_agrees. lia.
  - apply binary_agrees. intros a b s Hs. by destruct (b =? 0).
  - apply binary_agrees. intros a b s Hs. by destruct (b <? 64).
  - apply binary_agrees. intros a b s Hs. by destruct (b <? 64).
  - rewrite (bind_ok get _ _ _ _ eq_refl). cbn [le_args loc]. destruct (zlen args <=? arg_no); [done|].
    destruct (znth args arg_no); [|done]. cbn [of_option]. rewrite ret_bind, push_loc. apply agrees_ok.
Qed.

Lemma grow_loc stk rest : exists x rest', grow (loc stk rest) = (Ok tt, loc stk (x :: rest')).
Proof.
  unfold grow. rewrite (bind_ok get _ _ _ _ eq_refl). cbn [le_stk_max le_stk_pos loc]. pose proof (zlen_nonneg rest).
  destruct (Z.leb_spec (zlen stk + zlen rest) (zlen stk)).
  - destruct rest as [|y rest]; [|rewrite zlen_cons in *; pose proof (zlen_nonneg rest); lia]. exists 0, [0; 0; 0].
    unfold set_le_stk, loc. cbn. by rewrite app_nil_r, Z.add_0_r.
  - destruct rest as [|y rest]; [change (zlen []) with 0 in *; lia|]. by exists y, rest.
Qed.

Lemma run_commands_agrees cmds : forall stk rest, forallb word_command cmds = true ->
  agrees (spec_commands c args cmds stk) (run_commands cmds (loc stk rest)).
Proof.
  induction cmds as [|cmd cmds IH]; intros stk rest Hw; [apply agrees_ok|]. cbn [forallb] in Hw. apply andb_true_iff in Hw as [Hc Hw].
  cbn [run_commands spec_commands]. rewrite (bind_ok get _ _ _ _ eq_refl). cbn [le_sft_cmd loc].
  destruct (grow_loc stk rest) as (x & rest' & E). rewrite (bind_ok _ _ _ _ _ E).
  destruct (run_command_agrees cmd (match cmds with [] => true | _ => false end) stk x rest' Hc) as [HC HR].
  unfold mbind, M_bind. destruct (run_command cmd _ _) as [r s]. cbn in HC, HR.
  destruct (spec_command c args cmd stk) as [stk1|e| |]; [|by rewrite HR..].
  destruct HR as (rest1 & [= -> ->]). by apply IH.
Qed.

Lemma join_loc stk rest : exists rest', join_words (loc stk rest) = (Ok tt, loc (join stk) rest').
Proof.
  unfold join_words. rewrite (bind_ok get _ _ _ _ eq_refl). cbn [le_stk_pos loc].
  destruct stk as [|b [|a [|x stk]]]; try (by exists rest).
  - exists (b :: rest). change (zlen [b; a] =? 2) with true. change (le_stk (loc [b; a] rest)) with (a :: b :: rest).
    change (znth (a :: b :: rest) 0) with (Some a). change (znth (a :: b :: rest) 1) with (Some b). cbn [of_option]. rewrite !ret_bind.
    pose proof (mem_write_mid [] a (b :: rest) (u64 (a + b))) as E. change (zlen []) with 0 in E. cbn [app] in E. rewrite E.
    cbn [of_option join]. rewrite ret_bind. unfold put, set_le_stk, loc.
    cbn [le_cpu le_args le_old_args le_stk le_stk_max le_pieces le_pieces_max le_sft_cmd]. rewrite !zlen_cons. do 2 f_equal. lia.
  - exists rest. pose proof (zlen_nonneg stk). by rewrite (proj2 (Z.eqb_neq _ _)) by (rewrite !zlen_cons; lia).
Qed.

(** The result of the commands: the words, or the error. *)
Lemma evaluate_words cmds : forallb word_command cmds = true ->
  match spec_commands c args cmds [] with
  | Ok stk => exists rest, evaluate_location_expression cmds args c = (Ok (loc (join stk) rest), c)
  | Exc e => evaluate_location_expression cmds args c = (Exc e, c)
  | Undef => evaluate_location_expression cmds args c = (Undef, c)
  | NoFuel => evaluate_location_expression cmds args c = (NoFuel, c)
  end.
Proof.
  intros Hw. destruct (run_commands_agrees cmds [] [] Hw) as [HC HR]. unfold evaluate_location_expression.
  change (start_loc args c) with (loc [] []). unfold mbind, M_bind. destruct (run_commands cmds (loc [] [])) as [r s]. cbn in HC, HR.
  destruct (spec_commands c args cmds []) as [stk|e| |]; [|rewrite HR; by rewrite HC..].
  destruct HR as (rest & [= -> ->]). destruct (join_loc stk rest) as (rest' & ->). by exists rest'.
Qed.
End proofs.

(** ** The evaluation *)

Definition map_outcome {A B} (f : A -> B) (r : outcome A) : outcome B :=
  match r with Ok a => Ok (f a) | Exc e => Exc e | Undef => Undef | NoFuel => NoFuel end.

(** The words that are left, the first one first. *)
Definition words_of {T} (l : Loc T) : list Z := ztake (le_stk_pos l) (le_stk l).

Definition spec_words {T} `{!ContextIf T} (c : Cpu T) (args : list Z) (cmds : list (LocationExpressionCommand T)) : outcome (list Z) :=
  map_outcome (fun stk => reverse (join stk)) (spec_commands c args cmds []).


