(* ===== verification/DwarfIo.v ===== *)
(** * Reading sections of debug information (dwarfio.c)

    One section of an ELF file is current; numbers are read at a position in it,
    in the byte order of the file, and reading past its end is [ERR_EOF].  The
    section and the position are an instance of [ByteSource]. *)

From S2P Require Import Prelude ByteSource.

(** ** ELF files

    [es_load] is what [elf_load] finds in the file, or its error; [es_relocate]
    is set when relocations apply to the section. *)
Record ELF_Section := {
  es_index : Z;
  es_name : option bytes;
  es_addr : Z;
  es_size : Z;
  es_alloc : bool;
  es_alignment : Z;
  es_load : bytes + Z;
  es_relocate : bool;
}.

(** [ef_sections]: the section 0 is not used. *)
Record ELF_File := {
  ef_big_endian : bool;
  ef_elf64 : bool;
  ef_machine : Z;
  ef_sections : list ELF_Section;
}.

(** [DIO_UnitDescriptor]: what [dio_EnterSection] uses of a unit. *)
Record DIO_UnitDescriptor := {
  un_version : Z;
  un_64bit : bool;
  un_address_size : Z;
}.

(** The static variables of dwarfio.c. *)
Record Dio := {
  io_section : option ELF_Section;
  io_big_endian : bool;
  io_address_size : Z;
  io_ref_address_size : Z;
  io_data : bytes;
  io_pos : Z;
  io_len : Z;
}.

Definition set_io_pos (x : Z) (s : Dio) : Dio :=
  Build_Dio (io_section s) (io_big_endian s) (io_address_size s) (io_ref_address_size s) (io_data s) x (io_len s).

Definition elf_load (sec : ELF_Section) : M Dio bytes :=
  match es_load sec with inl d => mret d | inr e => exception e end.

(** ** Position *)

Definition dio_EnterSection (un : option DIO_UnitDescriptor) (file : ELF_File) (sec : ELF_Section) (offset : Z) : M Dio unit :=
  data ← elf_load sec;
  if es_size sec <? offset then exception ERR_INV_DWARF
  else
    let '(address_size, ref_size) :=
      match un with
      | Some u => (un_address_size u, if un_version u <? 3 then un_address_size u else if un_64bit u then 8 else 4)
      | None => if ef_elf64 file then (8, 8) else (4, 4)
      end in
    put (Build_Dio (Some sec) (ef_big_endian file) address_size ref_size data offset (es_size sec)) ;;
    assertm (offset <? es_size sec).

Definition dio_ExitSection : M Dio unit :=
  modify (fun s => Build_Dio None (io_big_endian s) (io_address_size s) (io_ref_address_size s) [] 0 0).

Definition dio_GetPos : M Dio Z := gets io_pos.

Definition dio_Skip (n : Z) : M Dio unit :=
  s ← get;
  if io_len s <? u64 (io_pos s + n) then exception ERR_EOF else put (set_io_pos (u64 (io_pos s + n)) s).

Definition dio_SetPos (pos : Z) : M Dio unit :=
  s ← get; if io_len s <? pos then exception ERR_EOF else put (set_io_pos pos s).

(** ** Numbers *)

Definition dio_ReadU1 : M Dio Z :=
  s ← get;
  if io_pos s <? io_len s then
    b ← of_option (znth (io_data s) (io_pos s));
    put (set_io_pos (io_pos s + 1) s) ;;
    mret b
  else exception ERR_EOF.

(** [dio_Read]: [size] bytes. *)
Definition dio_Read (size : Z) : M Dio bytes :=
  s ← get;
  if io_len s <? u64 (io_pos s + size) then exception ERR_EOF
  else
    l ← of_option (mem_read (io_data s) (io_pos s) size);
    put (set_io_pos (io_pos s + size) s) ;;
    mret l.

(** A number of [n] bytes: [dio_ReadU2], [dio_ReadU4] and [dio_ReadU8]. *)
Definition dio_ReadU (n : Z) : M Dio Z :=
  l ← dio_Read n;
  s ← get;
  mret (be_value (if io_big_endian s then l else reverse l)).

Definition dio_ReadU2 : M Dio Z := dio_ReadU 2.
Definition dio_ReadU4 : M Dio Z := dio_ReadU 4.
Definition dio_ReadU8 : M Dio Z := dio_ReadU 8.

Definition dio_ReadULEB128 : M Dio Z := read_leb128 dio_ReadU1 6 32 false 0 0.
Definition dio_ReadSLEB128 : M Dio Z := x ← read_leb128 dio_ReadU1 6 32 true 0 0; mret (s32 x).
Definition dio_ReadU8LEB128 : M Dio Z := read_leb128 dio_ReadU1 11 64 false 0 0.
Definition dio_ReadS8LEB128 : M Dio Z := x ← read_leb128 dio_ReadU1 11 64 true 0 0; mret (s64 x).

(** ** Addresses *)

(** Relocation of an address, when relocations apply (dwarfreloc.c): the section,
    the offset, the value read and its size. *)
Class Relocator := relocate : ELF_Section -> Z -> Z -> Z -> (Z * option ELF_Section) + Z.

Section addresses.
Context `{!Relocator}.

(** [drl_relocate]: the address, and the section it belongs to. *)
Definition drl_relocate (sec : ELF_Section) (offset value size : Z) : M Dio (Z * option ELF_Section) :=
  if es_relocate sec then
    match relocate sec offset value size with inl r => mret r | inr e => exception e end
  else mret (value, None).

Definition dio_ReadAddressX (size : Z) : M Dio (Z * option ELF_Section) :=
  s ← get;
  sec ← of_option (io_section s);
  if size =? 2 then x ← dio_ReadU2; drl_relocate sec (io_pos s) x size
  else if size =? 4 then x ← dio_ReadU4; drl_relocate sec (io_pos s) x size
  else if size =? 8 then x ← dio_ReadU8; drl_relocate sec (io_pos s) x size
  else exception ERR_INV_DWARF.

Definition dio_ReadAddress : M Dio (Z * option ELF_Section) :=
  s ← get; dio_ReadAddressX (io_address_size s).
End addresses.

(** ** Strings *)

Fixpoint read_string_loop (fuel : nat) (acc : bytes) : M Dio bytes :=
  match fuel with
  | O => nofuel
  | S fuel => c ← dio_ReadU1; if c =? 0 then mret acc else read_string_loop fuel (acc ++ [c])
  end.

(** NULL when [Length], of type [U4_T], is zero. *)
Definition dio_ReadString : M Dio (option bytes) :=
  s ← get;
  l ← read_string_loop (S (length (io_data s))) [];
  mret (if u32 (zlen l) =? 0 then None else Some l).

(** ** The section as a source of bytes *)

Definition data_at (s : Dio) (l : bytes) : Prop :=
  exists pre post, io_data s = pre ++ l ++ post /\ zlen pre = io_pos s /\ io_pos s + zlen l <= io_len s /\ io_len s < 2 ^ 62.

Definition further (n : Z) (s : Dio) : Dio := set_io_pos (io_pos s + n) s.

Lemma set_io_pos_id s : set_io_pos (io_pos s) s = s.
Proof. by destruct s. Qed.

Lemma data_at_app s l k : data_at s (l ++ k) -> data_at s l /\ data_at (further (zlen l) s) k.
Proof.
  intros (pre & post & E & HL & HE & HB). pose proof (zlen_nonneg k). split.
  - exists pre, (k ++ post). rewrite E, <- app_assoc. split_and!; [done|done|zlia|done].
  - exists (pre ++ l), post. cbn. rewrite E, <- !app_assoc. split_and!; [done|zlia|zlia|done].
Qed.

#[export] Instance dio_source : ByteSource Dio := {
  src_be := io_big_endian;
  src_at := data_at;
  src_ahead := further;
}.

#[export] Instance dio_source_spec : ByteSourceSpec Dio.
Proof.
  constructor; [intros s|intros n m s|exact data_at_app|done].
  - cbn. unfold further. by rewrite Z.add_0_r, set_io_pos_id.
  - cbn. unfold further, set_io_pos. cbn. by rewrite Z.add_assoc.
Qed.

Lemma data_at_pos s l : data_at s l -> 0 <= io_pos s /\ io_pos s + zlen l <= io_len s /\ io_len s < 2 ^ 62.
Proof. intros (pre & post & _ & HL & HE & HB). pose proof (zlen_nonneg pre). lia. Qed.

Lemma data_at_slice s l : data_at s l -> mem_read (io_data s) (io_pos s) (zlen l) = Some l.
Proof.
  intros (pre & post & E & HL & HE & HB). pose proof (zlen_nonneg pre). pose proof (zlen_nonneg l). pose proof (zlen_nonneg post).
  rewrite mem_read_ok by (try rewrite E; zlia). rewrite E, <- HL. unfold zdrop, zlen at 2. rewrite Nat2Z.id, drop_app_length.
  by rewrite ztake_app_exact.
Qed.

Section reading.
Context (be : bool).

Lemma reads_dio_u1 x : is_byte x -> reads_as be dio_ReadU1 [x] x.
Proof.
  intros Hx s Hb HC. unfold dio_ReadU1. rewrite (bind_ok get _ s s s eq_refl). pose proof (data_at_pos _ _ HC) as Hp.
  change (zlen [x]) with 1 in *. rewrite (proj2 (Z.ltb_lt _ _)) by lia.
  assert (E : znth (io_data s) (io_pos s) = Some x).
  { destruct HC as (pre & post & -> & <- & _). unfold znth, zlen. rewrite (proj2 (Z.leb_le _ _)) by lia.
    by rewrite Nat2Z.id, lookup_app_r, Nat.sub_diag by lia. }
  by rewrite E.
Qed.

Lemma reads_dio_read l : reads_as be (dio_Read (zlen l)) l l.
Proof.
  intros s Hb HC. unfold dio_Read. rewrite (bind_ok get _ s s s eq_refl). pose proof (data_at_pos _ _ HC) as Hp.
  pose proof (zlen_nonneg l). rewrite wrapu_small, (proj2 (Z.ltb_ge _ _)) by lia. by rewrite (data_at_slice s l HC).
Qed.

Lemma reads_dio_u n x : (n <= 8)%nat -> in_u (8 * Z.of_nat n) x -> reads_as be (dio_ReadU (Z.of_nat n)) (number be n x) x.
Proof.
  intros Hn Hx. unfold dio_ReadU. rewrite <- (app_nil_r (number be n x)). eapply reads_as_bind.
  - rewrite <- (zlen_number be n x). apply reads_dio_read.
  - apply reads_as_get. intros s Hs HC. cbn in Hs. rewrite Hs, be_value_of_number by done. exact (reads_as_ret be x s Hs HC).
Qed.

Lemma reads_dio_uleb x : in_u 32 x -> reads_as be dio_ReadULEB128 (uleb128 x) x.
Proof.
  intros Hx. unfold in_u in Hx. rewrite <- (wrapu_small 32 x) at 2 by lia. replace x with (0 + x * 2 ^ 0) at 2 by lia.
  apply reads_as_leb; try lia; try (intros b Hb; rewrite number_byte by done; by apply reads_dio_u1); cbn; lia.
Qed.

Lemma reads_dio_u8leb x : in_u 64 x -> reads_as be dio_ReadU8LEB128 (uleb128 x) x.
Proof.
  intros Hx. unfold in_u in Hx. rewrite <- (wrapu_small 64 x) at 2 by lia. replace x with (0 + x * 2 ^ 0) at 2 by lia.
  apply reads_as_leb; try lia; try (intros b Hb; rewrite number_byte by done; by apply reads_dio_u1); cbn; lia.
Qed.

Lemma wraps_wrapu w x : 0 < w -> in_s w x -> wraps w (wrapu w x) = x.
Proof.
  intros Hw Hx. unfold wraps, wrapu, in_s in *. assert (E : 2 ^ w = 2 * 2 ^ (w - 1)) by (rewrite <- Z.pow_succ_r by lia; f_equal; lia).
  rewrite Zplus_mod_idemp_l, Z.mod_small by lia. lia.
Qed.

Lemma reads_dio_sleb x : in_s 32 x -> reads_as be dio_ReadSLEB128 (sleb128 x) x.
Proof.
  intros Hx. unfold in_s in Hx. rewrite <- (wraps_wrapu 32 x) at 2 by (unfold in_s; lia). unfold dio_ReadSLEB128.
  apply (reads_as_map be _ s32). replace x with (0 + x * 2 ^ 0) at 2 by lia.
  apply reads_as_leb; try lia; try (intros b Hb; rewrite number_byte by done; by apply reads_dio_u1); cbn; lia.
Qed.

Lemma reads_dio_s8leb x : in_s 64 x -> reads_as be dio_ReadS8LEB128 (sleb128 x) x.
Proof.
  intros Hx. unfold in_s in Hx. rewrite <- (wraps_wrapu 64 x) at 2 by (unfold in_s; lia). unfold dio_ReadS8LEB128.
  apply (reads_as_map be _ s64). replace x with (0 + x * 2 ^ 0) at 2 by lia.
  apply reads_as_leb; try lia; try (intros b Hb; rewrite number_byte by done; by apply reads_dio_u1); cbn; lia.
Qed.

Lemma reads_dio_skip l : reads_as be (dio_Skip (zlen l)) l tt.
Proof.
  intros s Hb HC. unfold dio_Skip. rewrite (bind_ok get _ s s s eq_refl). pose proof (data_at_pos _ _ HC) as Hp.
  pose proof (zlen_nonneg l). by rewrite wrapu_small, (proj2 (Z.ltb_ge _ _)) by lia.
Qed.
End reading.
