(* ===== verification/DwarfCfi.v ===== *)
(** * Call frame information (dwarfframe.c): the rules of registers

    The instructions of .debug_frame and .eh_frame make a table that says for
    every address of a function where the registers of its caller are.  This file
    has the rules, the pointers in the sections, and the execution of the
    instructions; [DwarfFrame] makes location expressions of the rules.

    The static variables of dwarfframe.c that are used here are the record [Cfi].
    Arrays that grow with [loc_realloc] are lists, without the unused part of the
    memory. *)

From S2P Require Import Prelude ByteSource DwarfIo.

(** ** Constants *)

Definition EH_PE_omit : Z := 255.
Definition EH_PE_absptr : Z := 0.
Definition EH_PE_uleb128 : Z := 1.
Definition EH_PE_udata2 : Z := 2.
Definition EH_PE_udata4 : Z := 3.
Definition EH_PE_udata8 : Z := 4.
Definition EH_PE_sleb128 : Z := 9.
Definition EH_PE_sdata2 : Z := 10.
Definition EH_PE_sdata4 : Z := 11.
Definition EH_PE_sdata8 : Z := 12.
Definition EH_PE_indirect : Z := 128.

Definition EH_PB_pcrel : Z := 1.
Definition EH_PB_textrel : Z := 2.
Definition EH_PB_datarel : Z := 3.
Definition EH_PB_funcrel : Z := 4.
Definition EH_PB_aligned : Z := 5.

Definition RULE_OFFSET : Z := 1.
Definition RULE_SAME_VALUE : Z := 2.
Definition RULE_REGISTER : Z := 3.
Definition RULE_EXPRESSION : Z := 4.
Definition RULE_VAL_OFFSET : Z := 5.
Definition RULE_VAL_EXPRESSION : Z := 6.

Definition EM_386 : Z := 3.
Definition EM_PPC : Z := 20.
Definition EM_PPC64 : Z := 21.
Definition EM_V800 : Z := 36.
Definition EM_ARM : Z := 40.
Definition EM_SPARCV9 : Z := 43.
Definition EM_TRICORE : Z := 44.
Definition EM_X86_64 : Z := 62.
Definition EM_V850 : Z := 87.
Definition EM_AARCH64 : Z := 183.
Definition EM_MICROBLAZE : Z := 189.
Definition EM_RISCV : Z := 243.

(** ** Data *)

Record RegisterRules := {
  rr_rule : Z;
  rr_offset : Z;
  rr_expression : Z;
}.

Definition no_rule : RegisterRules := Build_RegisterRules 0 0 0.

#[export] Instance RegisterRules_eq_dec : EqDecision RegisterRules.
Proof. solve_decision. Defined.

Definition set_rr_rule (x : Z) (r : RegisterRules) : RegisterRules := Build_RegisterRules x (rr_offset r) (rr_expression r).
Definition set_rr_offset (x : Z) (r : RegisterRules) : RegisterRules := Build_RegisterRules (rr_rule r) x (rr_expression r).
Definition set_rr_expression (x : Z) (r : RegisterRules) : RegisterRules := Build_RegisterRules (rr_rule r) (rr_offset r) x.

(** [sr_regs]: the first [regs_cnt] items of [regs]. *)
Record StackFrameRegisters := {
  sr_cfa_rule : Z;
  sr_cfa_offset : Z;
  sr_cfa_register : Z;
  sr_cfa_expression : Z;
  sr_regs : list RegisterRules;
}.

Definition no_registers : StackFrameRegisters := Build_StackFrameRegisters 0 0 0 0 [].

Definition set_sr_cfa (rule offset reg expression : Z) (r : StackFrameRegisters) : StackFrameRegisters :=
  Build_StackFrameRegisters rule offset reg expression (sr_regs r).
Definition set_sr_regs (l : list RegisterRules) (r : StackFrameRegisters) : StackFrameRegisters :=
  Build_StackFrameRegisters (sr_cfa_rule r) (sr_cfa_offset r) (sr_cfa_register r) (sr_cfa_expression r) l.

(** The members of [reg_id_scope] that are used are those of the file, and
    [ru_id_type]. *)
Record StackFrameRules := {
  ru_section : option ELF_Section;
  ru_file : ELF_File;
  ru_text_section : option ELF_Section;
  ru_eh_frame : bool;
  ru_id_type : Z;
  ru_version : Z;
  ru_address_size : Z;
  ru_segment_size : Z;
  ru_code_alignment : Z;
  ru_data_alignment : Z;
  ru_cie_pos : Z;
  ru_cie_aug : option bytes;
  ru_cie_eh_data : Z;
  ru_fde_aug_length : Z;
  ru_lsda_encoding : Z;
  ru_prh_encoding : Z;
  ru_addr_encoding : Z;
  ru_location : Z;
  ru_return_address_register : Z;
}.

Definition set_ru_version (x : Z) (s : StackFrameRules) : StackFrameRules :=
  Build_StackFrameRules (ru_section s) (ru_file s) (ru_text_section s) (ru_eh_frame s) (ru_id_type s) x
    (ru_address_size s) (ru_segment_size s) (ru_code_alignment s) (ru_data_alignment s) (ru_cie_pos s)
    (ru_cie_aug s) (ru_cie_eh_data s) (ru_fde_aug_length s) (ru_lsda_encoding s) (ru_prh_encoding s)
    (ru_addr_encoding s) (ru_location s) (ru_return_address_register s).
Definition set_ru_address_size (x : Z) (s : StackFrameRules) : StackFrameRules :=
  Build_StackFrameRules (ru_section s) (ru_file s) (ru_text_section s) (ru_eh_frame s) (ru_id_type s)
    (ru_version s) x (ru_segment_size s) (ru_code_alignment s) (ru_data_alignment s) (ru_cie_pos s) (ru_cie_aug s)
    (ru_cie_eh_data s) (ru_fde_aug_length s) (ru_lsda_encoding s) (ru_prh_encoding s) (ru_addr_encoding s)
    (ru_location s) (ru_return_address_register s).
Definition set_ru_segment_size (x : Z) (s : StackFrameRules) : StackFrameRules :=
  Build_StackFrameRules (ru_section s) (ru_file s) (ru_text_section s) (ru_eh_frame s) (ru_id_type s) (ru_version s)
    (ru_address_size s) x (ru_code_alignment s) (ru_data_alignment s) (ru_cie_pos s) (ru_cie_aug s)
    (ru_cie_eh_data s) (ru_fde_aug_length s) (ru_lsda_encoding s) (ru_prh_encoding s) (ru_addr_encoding s)
    (ru_location s) (ru_return_address_register s).
Definition set_ru_code_alignment (x : Z) (s : StackFrameRules) : StackFrameRules :=
  Build_StackFrameRules (ru_section s) (ru_file s) (ru_text_section s) (ru_eh_frame s) (ru_id_type s) (ru_version s)
    (ru_address_size s) (ru_segment_size s) x (ru_data_alignment s) (ru_cie_pos s) (ru_cie_aug s) (ru_cie_eh_data s)
    (ru_fde_aug_length s) (ru_lsda_encoding s) (ru_prh_encoding s) (ru_addr_encoding s) (ru_location s)
    (ru_return_address_register s).
Definition set_ru_data_alignment (x : Z) (s : StackFrameRules) : StackFrameRules :=
  Build_StackFrameRules (ru_section s) (ru_file s) (ru_text_section s) (ru_eh_frame s) (ru_id_type s) (ru_version s)
    (ru_address_size s) (ru_segment_size s) (ru_code_alignment s) x (ru_cie_pos s) (ru_cie_aug s) (ru_cie_eh_data s)
    (ru_fde_aug_length s) (ru_lsda_encoding s) (ru_prh_encoding s) (ru_addr_encoding s) (ru_location s)
    (ru_return_address_register s).
Definition set_ru_cie_pos (x : Z) (s : StackFrameRules) : StackFrameRules :=
  Build_StackFrameRules (ru_section s) (ru_file s) (ru_text_section s) (ru_eh_frame s) (ru_id_type s) (ru_version s)
    (ru_address_size s) (ru_segment_size s) (ru_code_alignment s) (ru_data_alignment s) x (ru_cie_aug s)
    (ru_cie_eh_data s) (ru_fde_aug_length s) (ru_lsda_encoding s) (ru_prh_encoding s) (ru_addr_encoding s)
    (ru_location s) (ru_return_address_register s).
Definition set_ru_cie_aug (x : option bytes) (s : StackFrameRules) : StackFrameRules :=
  Build_StackFrameRules (ru_section s) (ru_file s) (ru_text_section s) (ru_eh_frame s) (ru_id_type s) (ru_version s)
    (ru_address_size s) (ru_segment_size s) (ru_code_alignment s) (ru_data_alignment s) (ru_cie_pos s) x
    (ru_cie_eh_data s) (ru_fde_aug_length s) (ru_lsda_encoding s) (ru_prh_encoding s) (ru_addr_encoding s)
    (ru_location s) (ru_return_address_register s).
Definition set_ru_cie_eh_data (x : Z) (s : StackFrameRules) : StackFrameRules :=
  Build_StackFrameRules (ru_section s) (ru_file s) (ru_text_section s) (ru_eh_frame s) (ru_id_type s) (ru_version s)
    (ru_address_size s) (ru_segment_size s) (ru_code_alignment s) (ru_data_alignment s) (ru_cie_pos s)
    (ru_cie_aug s) x (ru_fde_aug_length s) (ru_lsda_encoding s) (ru_prh_encoding s) (ru_addr_encoding s)
    (ru_location s) (ru_return_address_register s).
Definition set_ru_fde_aug_length (x : Z) (s : StackFrameRules) : StackFrameRules :=
  Build_StackFrameRules (ru_section s) (ru_file s) (ru_text_section s) (ru_eh_frame s) (ru_id_type s) (ru_version s)
    (ru_address_size s) (ru_segment_size s) (ru_code_alignment s) (ru_data_alignment s) (ru_cie_pos s)
    (ru_cie_aug s) (ru_cie_eh_data s) x (ru_lsda_encoding s) (ru_prh_encoding s) (ru_addr_encoding s)
    (ru_location s) (ru_return_address_register s).
Definition set_ru_lsda_encoding (x : Z) (s : StackFrameRules) : StackFrameRules :=
  Build_StackFrameRules (ru_section s) (ru_file s) (ru_text_section s) (ru_eh_frame s) (ru_id_type s) (ru_version s)
    (ru_address_size s) (ru_segment_size s) (ru_code_alignment s) (ru_data_alignment s) (ru_cie_pos s)
    (ru_cie_aug s) (ru_cie_eh_data s) (ru_fde_aug_length s) x (ru_prh_encoding s) (ru_addr_encoding s)
    (ru_location s) (ru_return_address_register s).
Definition set_ru_prh_encoding (x : Z) (s : StackFrameRules) : StackFrameRules :=
  Build_StackFrameRules (ru_section s) (ru_file s) (ru_text_section s) (ru_eh_frame s) (ru_id_type s) (ru_version s)
    (ru_address_size s) (ru_segment_size s) (ru_code_alignment s) (ru_data_alignment s) (ru_cie_pos s)
    (ru_cie_aug s) (ru_cie_eh_data s) (ru_fde_aug_length s) (ru_lsda_encoding s) x (ru_addr_encoding s)
    (ru_location s) (ru_return_address_register s).
Definition set_ru_addr_encoding (x : Z) (s : StackFrameRules) : StackFrameRules :=
  Build_StackFrameRules (ru_section s) (ru_file s) (ru_text_section s) (ru_eh_frame s) (ru_id_type s) (ru_version s)
    (ru_address_size s) (ru_segment_size s) (ru_code_alignment s) (ru_data_alignment s) (ru_cie_pos s)
    (ru_cie_aug s) (ru_cie_eh_data s) (ru_fde_aug_length s) (ru_lsda_encoding s) (ru_prh_encoding s) x
    (ru_location s) (ru_return_address_register s).
Definition set_ru_location (x : Z) (s : StackFrameRules) : StackFrameRules :=
  Build_StackFrameRules (ru_section s) (ru_file s) (ru_text_section s) (ru_eh_frame s) (ru_id_type s) (ru_version s)
    (ru_address_size s) (ru_segment_size s) (ru_code_alignment s) (ru_data_alignment s) (ru_cie_pos s)
    (ru_cie_aug s) (ru_cie_eh_data s) (ru_fde_aug_length s) (ru_lsda_encoding s) (ru_prh_encoding s)
    (ru_addr_encoding s) x (ru_return_address_register s).
Definition set_ru_return_address_register (x : Z) (s : StackFrameRules) : StackFrameRules :=
  Build_StackFrameRules (ru_section s) (ru_file s) (ru_text_section s) (ru_eh_frame s) (ru_id_type s) (ru_version s)
    (ru_address_size s) (ru_segment_size s) (ru_code_alignment s) (ru_data_alignment s) (ru_cie_pos s)
    (ru_cie_aug s) (ru_cie_eh_data s) (ru_fde_aug_length s) (ru_lsda_encoding s) (ru_prh_encoding s)
    (ru_addr_encoding s) (ru_location s) x.

Definition ru_machine (s : StackFrameRules) : Z := ef_machine (ru_file s).
Definition ru_big_endian (s : StackFrameRules) : bool := ef_big_endian (ru_file s).

Record Cfi := {
  cf_io : Dio;
  cf_rules : StackFrameRules;
  cf_frame_regs : StackFrameRegisters;
  cf_cie_regs : StackFrameRegisters;
  cf_regs_stack : list StackFrameRegisters;
  cf_regs_stack_pos : Z;
}.

Definition set_cf_io (x : Dio) (s : Cfi) : Cfi :=
  Build_Cfi x (cf_rules s) (cf_frame_regs s) (cf_cie_regs s) (cf_regs_stack s) (cf_regs_stack_pos s).
Definition set_cf_rules (x : StackFrameRules) (s : Cfi) : Cfi :=
  Build_Cfi (cf_io s) x (cf_frame_regs s) (cf_cie_regs s) (cf_regs_stack s) (cf_regs_stack_pos s).
Definition set_cf_frame_regs (x : StackFrameRegisters) (s : Cfi) : Cfi :=
  Build_Cfi (cf_io s) (cf_rules s) x (cf_cie_regs s) (cf_regs_stack s) (cf_regs_stack_pos s).
Definition set_cf_cie_regs (x : StackFrameRegisters) (s : Cfi) : Cfi :=
  Build_Cfi (cf_io s) (cf_rules s) (cf_frame_regs s) x (cf_regs_stack s) (cf_regs_stack_pos s).
Definition set_cf_regs_stack (x : list StackFrameRegisters) (s : Cfi) : Cfi :=
  Build_Cfi (cf_io s) (cf_rules s) (cf_frame_regs s) (cf_cie_regs s) x (cf_regs_stack_pos s).
Definition set_cf_regs_stack_pos (x : Z) (s : Cfi) : Cfi :=
  Build_Cfi (cf_io s) (cf_rules s) (cf_frame_regs s) (cf_cie_regs s) (cf_regs_stack s) x.

Definition io {A} (m : M Dio A) : M Cfi A := fun s => let '(r, d) := m (cf_io s) in (r, set_cf_io d s).
Definition change_rules (f : StackFrameRules -> StackFrameRules) : M Cfi unit := modify (fun s => set_cf_rules (f (cf_rules s)) s).
Definition rules : M Cfi StackFrameRules := gets cf_rules.

(** ** Rules of registers *)

Definition in_range (a n b : Z) : bool := (a <=? n) && (n <=? b).

(** What the architecture implies for the register [n], when the return address
    is in the register [rar]. *)
Definition implied_rule (machine rar n : Z) : RegisterRules :=
  let same := Build_RegisterRules RULE_SAME_VALUE 0 0 in
  let cfa := Build_RegisterRules RULE_VAL_OFFSET 0 0 in
  let rules (saved : bool) (sp link : Z) :=
    if saved then same else if n =? sp then cfa else if n =? rar then Build_RegisterRules RULE_REGISTER link 0 else no_rule in
  if machine =? EM_386 then
    if n =? 4 then cfa else if (n =? 3) || in_range 5 n 7 then same else no_rule
  else if machine =? EM_X86_64 then
    if (n =? 3) || (n =? 6) || in_range 12 n 15 then same else if n =? 7 then cfa else no_rule
  else if machine =? EM_PPC then rules (in_range 14 n 31 || in_range 46 n 63) 1 108
  else if machine =? EM_PPC64 then rules (in_range 14 n 31 || in_range 46 n 63) 1 65
  else if machine =? EM_ARM then rules (in_range 4 n 11 || (n =? 128)) 13 14
  else if machine =? EM_TRICORE then rules (in_range 0 n 7 || in_range 18 n 23) 26 27
  else if (machine =? EM_V800) || (machine =? EM_V850) then rules ((n =? 0) || in_range 6 n 29) 3 31
  else if machine =? EM_MICROBLAZE then rules ((n =? 0) || in_range 19 n 31 || (n =? 2) || (n =? 13) || (n =? 14)) 1 15
  else if machine =? EM_AARCH64 then rules (in_range 19 n 29) 31 30
  else if machine =? EM_RISCV then rules ((n =? 0) || in_range 8 n 9 || in_range 18 n 27) 2 1
  else no_rule.

Definition min_reg_cnt (machine : Z) : Z :=
  if machine =? EM_386 then 8
  else if machine =? EM_X86_64 then 16
  else if (machine =? EM_PPC) || (machine =? EM_PPC64) then 64
  else if machine =? EM_ARM then 129
  else if machine =? EM_TRICORE then 50
  else if (machine =? EM_V800) || (machine =? EM_V850) || (machine =? EM_MICROBLAZE) || (machine =? EM_AARCH64) then 32
  else if machine =? EM_RISCV then 28
  else 0.

(** The loop of [get_reg]; [min] is zero before its first round. *)
Fixpoint grow_regs (fuel : nat) (machine rar reg min : Z) (l : list RegisterRules) : list RegisterRules :=
  match fuel with
  | O => l
  | S fuel =>
      if (zlen l <=? reg) || (zlen l <? min)
      then grow_regs fuel machine rar reg (min_reg_cnt machine) (l ++ [implied_rule machine rar (zlen l)])
      else l
  end.

(** The array after [get_reg]; it has no more than [reg + 1] or 129 items. *)
Definition with_reg (r : StackFrameRules) (reg : Z) (rgs : StackFrameRegisters) : StackFrameRegisters :=
  set_sr_regs (grow_regs (Z.to_nat (Z.max (reg + 1) 129)) (ru_machine r) (ru_return_address_register r) reg 0 (sr_regs rgs)) rgs.

(** The item that [get_reg] returns; a negative [reg] is out of the array. *)
Definition reg_of (rgs : StackFrameRegisters) (reg : Z) : option RegisterRules := znth (sr_regs rgs) reg.

Definition put_reg (reg : Z) (x : RegisterRules) (rgs : StackFrameRegisters) : StackFrameRegisters :=
  set_sr_regs (<[Z.to_nat reg := x]> (sr_regs rgs)) rgs.

(** [n] is the index of the first item of the list. *)
Fixpoint copy_regs (r : StackFrameRules) (l : list RegisterRules) (n : Z) (dst : StackFrameRegisters) : StackFrameRegisters :=
  match l with
  | [] => dst
  | x :: l => copy_regs r l (n + 1) (put_reg n x (with_reg r n dst))
  end.

(** The new content of the destination. *)
Definition copy_register_rules (r : StackFrameRules) (src : StackFrameRegisters) : StackFrameRegisters :=
  copy_regs r (sr_regs src) 0
    (set_sr_cfa (sr_cfa_rule src) (sr_cfa_offset src) (sr_cfa_register src) (sr_cfa_expression src) no_registers).

(** [get_reg(&frame_regs, reg)] *)
Definition frame_reg (reg : Z) : M Cfi RegisterRules :=
  s ← get;
  let rgs := with_reg (cf_rules s) reg (cf_frame_regs s) in
  put (set_cf_frame_regs rgs s) ;;
  of_option (reg_of rgs reg).

(** [get_reg(&cie_regs, reg)] *)
Definition cie_reg (reg : Z) : M Cfi RegisterRules :=
  s ← get;
  let rgs := with_reg (cf_rules s) reg (cf_cie_regs s) in
  put (set_cf_cie_regs rgs s) ;;
  of_option (reg_of rgs reg).

(** A write to an item of [frame_regs] that [get_reg] has returned. *)
Definition change_reg (reg : Z) (f : RegisterRules -> RegisterRules) : M Cfi unit :=
  s ← get;
  x ← of_option (reg_of (cf_frame_regs s) reg);
  put (set_cf_frame_regs (put_reg reg (f x) (cf_frame_regs s)) s).

(** [regs_stack_max]: 8 items, then twice as many. *)
Fixpoint grow_stack (fuel : nat) (n : Z) (l : list StackFrameRegisters) : list StackFrameRegisters :=
  match fuel with
  | O => l
  | S fuel =>
      if zlen l <=? n
      then grow_stack fuel n (l ++ replicate (if (length l =? 0)%nat then 8 else length l) no_registers)
      else l
  end.

Definition get_regs_stack_item (n : Z) : M Cfi StackFrameRegisters :=
  s ← get;
  let l := grow_stack (S (Z.to_nat n)) n (cf_regs_stack s) in
  put (set_cf_regs_stack l s) ;;
  of_option (znth l n).

(** ** Pointers *)

Section cfi.
Context `{!Relocator}.

(** The value at the address [v], from the contents of the file. *)
Fixpoint read_indirect (l : list ELF_Section) (be : bool) (v size : Z) : M Dio Z :=
  match l with
  | [] => mret 0
  | sec :: l =>
      if es_alloc sec && (es_addr sec <=? v) && (u64 (v + size) <=? u64 (es_addr sec + es_size sec)) then
        data ← elf_load sec;
        p ← of_option (mem_read data (v - es_addr sec) size);
        mret (be_value (if be then p else reverse p))
      else read_indirect l be v size
  end.

(** The base of the pointer.  [sec]: the caller wants to know the section, which
    it does for addresses but not for sizes. *)
Definition pointer_base (encoding : Z) (sec : bool) (func_addr pos : Z) : M Cfi Z :=
  r ← rules;
  let base := Z.land (Z.shiftr encoding 4) 7 in
  let section_addr := match ru_section r with Some s => mret (es_addr s) | None => undef end in
  if (base =? 0) || (base =? EH_PB_funcrel) then mret func_addr
  else if base =? EH_PB_pcrel then
    if sec then a ← section_addr; mret (u64 (pos + a)) else mret 0
  else if base =? EH_PB_datarel then
    if sec then section_addr else mret 0
  else if base =? EH_PB_textrel then
    mret (match ru_text_section r with Some t => if sec then es_addr t else 0 | None => 0 end)
  else if base =? EH_PB_aligned then
    assertm (negb (ru_address_size r =? 0)) ;;
    (if pos mod ru_address_size r =? 0 then mret tt
     else io (dio_SetPos (u64 (pos + (ru_address_size r - pos mod ru_address_size r))))) ;;
    mret 0
  else exception ERR_INV_DWARF.

(** The encoded value, as it is added to the base, and its section. *)
Definition pointer_value (encoding : Z) : M Dio (Z * option ELF_Section) :=
  let format := Z.land encoding 15 in
  let sized size convert := '(x, s) ← dio_ReadAddressX size; mret (convert x, s) in
  if format =? EH_PE_absptr then dio_ReadAddress
  else if format =? EH_PE_uleb128 then x ← dio_ReadU8LEB128; mret (x, None)
  else if format =? EH_PE_udata2 then sized 2 id
  else if format =? EH_PE_udata4 then sized 4 id
  else if format =? EH_PE_udata8 then sized 8 id
  else if format =? EH_PE_sleb128 then x ← dio_ReadS8LEB128; mret (x, None)
  else if format =? EH_PE_sdata2 then sized 2 s16
  else if format =? EH_PE_sdata4 then sized 4 s32
  else if format =? EH_PE_sdata8 then sized 8 s64
  else exception ERR_INV_DWARF.

Definition read_frame_data_pointer (encoding : Z) (sec : bool) (func_addr : Z) : M Cfi (Z * option ELF_Section) :=
  if encoding =? EH_PE_omit then mret (0, None)
  else
    pos ← io dio_GetPos;
    base ← pointer_base encoding sec func_addr pos;
    '(x, s) ← io (pointer_value encoding);
    let v := u64 (base + x) in
    if Z.land encoding EH_PE_indirect =? 0 then mret (v, s)
    else
      r ← rules;
      v ← io (read_indirect (tail (ef_sections (ru_file r))) (ru_big_endian r) v (ru_address_size r));
      mret (v, s).

(** ** Instructions *)

Inductive cfa_op :=
| CFA_nop | CFA_set_loc | CFA_advance_loc1 | CFA_advance_loc2 | CFA_advance_loc4
| CFA_offset_extended | CFA_restore_extended | CFA_undefined | CFA_same_value | CFA_register
| CFA_remember_state | CFA_restore_state
| CFA_def_cfa | CFA_def_cfa_register | CFA_def_cfa_offset | CFA_def_cfa_expression
| CFA_expression | CFA_offset_extended_sf | CFA_def_cfa_sf | CFA_def_cfa_offset_sf
| CFA_val_offset | CFA_val_offset_sf | CFA_val_expression
| CFA_GNU_window_save | CFA_GNU_args_size | CFA_GNU_negative_offset_ext
| CFA_advance_loc (n : Z) | CFA_offset (n : Z) | CFA_restore (n : Z)
| CFA_other (op : Z).

(** The codes 0x00 to 0x16. *)
Definition cfa_ops : list cfa_op :=
  [CFA_nop; CFA_set_loc; CFA_advance_loc1; CFA_advance_loc2; CFA_advance_loc4;
   CFA_offset_extended; CFA_restore_extended; CFA_undefined; CFA_same_value; CFA_register;
   CFA_remember_state; CFA_restore_state;
   CFA_def_cfa; CFA_def_cfa_register; CFA_def_cfa_offset; CFA_def_cfa_expression;
   CFA_expression; CFA_offset_extended_sf; CFA_def_cfa_sf; CFA_def_cfa_offset_sf;
   CFA_val_offset; CFA_val_offset_sf; CFA_val_expression].

Definition decode_cfa (op : Z) : cfa_op :=
  if op <? 23 then default (CFA_other op) (znth cfa_ops op)
  else if op =? 45 then CFA_GNU_window_save
  else if op =? 46 then CFA_GNU_args_size
  else if op =? 47 then CFA_GNU_negative_offset_ext
  else
    let high := Z.shiftr op 6 in
    let low := Z.land op 63 in
    if high =? 1 then CFA_advance_loc low
    else if high =? 2 then CFA_offset low
    else if high =? 3 then CFA_restore low
    else CFA_other op.

(** [rules.location += n * rules.code_alignment], the product of type [U4_T]. *)
Definition advance (n : Z) : M Cfi unit :=
  change_rules (fun r => set_ru_location (u64 (ru_location r + u32 (n * ru_code_alignment r))) r).

Definition uleb : M Cfi Z := io dio_ReadULEB128.
Definition sleb : M Cfi Z := io dio_ReadSLEB128.

(** A product of type [U4_T] that becomes an [I4_T]. *)
Definition factored : M Cfi Z :=
  n ← uleb; r ← rules; mret (s32 (n * ru_data_alignment r)).

(** A product of type [I4_T]; its overflow is undefined. *)
Definition product_s (n : Z) : M Cfi Z :=
  r ← rules;
  let x := n * ru_data_alignment r in
  assertm ((- 2 ^ 31 <=? x) && (x <? 2 ^ 31)) ;;
  mret x.

Definition factored_sf : M Cfi Z := n ← sleb; product_s n.

(** [reg = get_reg(&frame_regs, n)] *)
Definition get_frame_reg (n : Z) : M Cfi unit := frame_reg (s32 n) ;; mret tt.

(** [reg->rule = rule; reg->offset = ...] *)
Definition put_rule (n rule : Z) (offset : M Cfi Z) : M Cfi unit :=
  change_reg (s32 n) (set_rr_rule rule) ;;
  x ← offset;
  change_reg (s32 n) (set_rr_offset x).

Definition set_rule (n rule : Z) (offset : M Cfi Z) : M Cfi unit := get_frame_reg n ;; put_rule n rule offset.

Definition current_reg (n : Z) : M Cfi RegisterRules := s ← get; of_option (reg_of (cf_frame_regs s) (s32 n)).

(** A block of [size] bytes, of type [I4_T], which is skipped. *)
Definition set_rule_block (n rule : Z) : M Cfi unit :=
  get_frame_reg n ;;
  put_rule n rule (x ← uleb; mret (s32 x)) ;;
  pos ← io dio_GetPos;
  change_reg (s32 n) (set_rr_expression pos) ;;
  x ← current_reg n;
  io (dio_Skip (rr_offset x)).

Definition restore_reg (n : Z) : M Cfi unit :=
  get_frame_reg n ;;
  x ← cie_reg (s32 n);
  change_reg (s32 n) (fun _ => x).

Definition change_cfa (f : StackFrameRegisters -> StackFrameRegisters) : M Cfi unit :=
  modify (fun s => set_cf_frame_regs (f (cf_frame_regs s)) s).

Definition set_cfa_rule (x : Z) : M Cfi unit :=
  change_cfa (fun r => set_sr_cfa x (sr_cfa_offset r) (sr_cfa_register r) (sr_cfa_expression r) r).
Definition set_cfa_offset (x : Z) : M Cfi unit :=
  change_cfa (fun r => set_sr_cfa (sr_cfa_rule r) x (sr_cfa_register r) (sr_cfa_expression r) r).
Definition set_cfa_register (x : Z) : M Cfi unit :=
  change_cfa (fun r => set_sr_cfa (sr_cfa_rule r) (sr_cfa_offset r) x (sr_cfa_expression r) r).
Definition set_cfa_expression (x : Z) : M Cfi unit :=
  change_cfa (fun r => set_sr_cfa (sr_cfa_rule r) (sr_cfa_offset r) (sr_cfa_register r) x r).

Fixpoint window_save (l : list Z) (size : Z) : M Cfi unit :=
  match l with
  | [] => mret tt
  | n :: l =>
      (if n <? 16 then set_rule n RULE_REGISTER (mret (n + 16))
       else set_rule n RULE_OFFSET (mret ((n - 16) * size))) ;;
      window_save l size
  end.

Definition remember_state : M Cfi unit :=
  s ← get;
  let n := cf_regs_stack_pos s in
  put (set_cf_regs_stack_pos (n + 1) s) ;;
  get_regs_stack_item n ;;
  modify (fun s => set_cf_regs_stack
    (<[Z.to_nat n := copy_register_rules (cf_rules s) (cf_frame_regs s)]> (cf_regs_stack s)) s).

Definition restore_state : M Cfi unit :=
  s ← get;
  if cf_regs_stack_pos s <=? 0 then exception ERR_INV_DWARF
  else
    let n := cf_regs_stack_pos s - 1 in
    put (set_cf_regs_stack_pos n s) ;;
    src ← get_regs_stack_item n;
    modify (fun s => set_cf_frame_regs (copy_register_rules (cf_rules s) src) s).

Definition exec_cfa (op : cfa_op) (func_addr : Z) : M Cfi unit :=
  match op with
  | CFA_nop => mret tt
  | CFA_set_loc =>
      r ← rules;
      '(a, _) ← read_frame_data_pointer (ru_addr_encoding r) true func_addr;
      change_rules (set_ru_location a)
  | CFA_advance_loc1 => n ← io dio_ReadU1; advance n
  | CFA_advance_loc2 => n ← io dio_ReadU2; advance n
  | CFA_advance_loc4 => n ← io dio_ReadU4; advance n
  | CFA_offset_extended => n ← uleb; set_rule n RULE_OFFSET factored
  | CFA_restore_extended => n ← uleb; restore_reg n
  | CFA_undefined => n ← uleb; get_frame_reg n ;; change_reg (s32 n) (fun _ => no_rule)
  | CFA_same_value => n ← uleb; get_frame_reg n ;; change_reg (s32 n) (set_rr_rule RULE_SAME_VALUE)
  | CFA_register => n ← uleb; set_rule n RULE_REGISTER (x ← uleb; mret (s32 x))
  | CFA_remember_state => remember_state
  | CFA_restore_state => restore_state
  | CFA_def_cfa =>
      set_cfa_rule RULE_OFFSET ;;
      n ← uleb; set_cfa_register n ;;
      x ← uleb; set_cfa_offset (s32 x)
  | CFA_def_cfa_register => set_cfa_rule RULE_OFFSET ;; n ← uleb; set_cfa_register n
  | CFA_def_cfa_offset => set_cfa_rule RULE_OFFSET ;; x ← uleb; set_cfa_offset (s32 x)
  | CFA_def_cfa_expression =>
      set_cfa_rule RULE_EXPRESSION ;;
      x ← uleb; set_cfa_offset (s32 x) ;;
      pos ← io dio_GetPos;
      set_cfa_expression pos ;;
      io (dio_Skip (s32 x))
  | CFA_expression => n ← uleb; set_rule_block n RULE_EXPRESSION
  | CFA_offset_extended_sf => n ← uleb; set_rule n RULE_OFFSET factored_sf
  | CFA_def_cfa_sf =>
      set_cfa_rule RULE_OFFSET ;;
      n ← uleb; set_cfa_register n ;;
      x ← factored_sf; set_cfa_offset x
  | CFA_def_cfa_offset_sf => set_cfa_rule RULE_OFFSET ;; x ← factored_sf; set_cfa_offset x
  | CFA_val_offset => n ← uleb; set_rule n RULE_VAL_OFFSET factored
  | CFA_val_offset_sf => n ← uleb; set_rule n RULE_VAL_OFFSET factored_sf
  | CFA_val_expression => n ← uleb; set_rule_block n RULE_VAL_EXPRESSION
  | CFA_GNU_window_save => r ← rules; window_save (seqZ 8 24) (if ru_machine r =? EM_SPARCV9 then 8 else 4)
  | CFA_GNU_args_size => uleb ;; mret tt
  | CFA_GNU_negative_offset_ext =>
      n ← uleb;
      set_rule n RULE_OFFSET (x ← sleb; assertm (- 2 ^ 31 <? x) ;; product_s (- x))
  | CFA_advance_loc n => advance n
  | CFA_offset n => set_rule n RULE_OFFSET factored
  | CFA_restore n => restore_reg n
  | CFA_other _ => exception ERR_INV_DWARF
  end.

Definition exec_stack_frame_instruction (func_addr : Z) : M Cfi unit :=
  op ← io dio_ReadU1; exec_cfa (decode_cfa op) func_addr.

(** ** The common information entry *)

(** A trap around the pointer to the personality routine: after an error the
    position is behind an address. *)
Definition trap_personality (e addr_pos : Z) : M Cfi unit := fun s =>
  match read_frame_data_pointer e false 0 s with
  | (Ok _, s) => (Ok tt, s)
  | (Exc _, s) => io (dio_SetPos (u64 (addr_pos + ru_address_size (cf_rules s)))) s
  | (Undef, s) => (Undef, s)
  | (NoFuel, s) => (NoFuel, s)
  end.

Definition skip_personality : M Cfi unit :=
  e ← io dio_ReadU1;
  change_rules (set_ru_prh_encoding e) ;;
  addr_pos ← io dio_GetPos;
  trap_personality e addr_pos.

(** The letters of the augmentation. *)
Fixpoint read_augmentation (p : bytes) : M Cfi unit :=
  match p with
  | [] => mret tt
  | c :: p =>
      (if c =? #"L" then e ← io dio_ReadU1; change_rules (set_ru_lsda_encoding e)
       else if c =? #"P" then skip_personality
       else if c =? #"R" then e ← io dio_ReadU1; change_rules (set_ru_addr_encoding e)
       else mret tt) ;;
      read_augmentation p
  end.

(** Instructions up to the position [limit]. *)
Fixpoint exec_until (fuel : nat) (limit func_addr : Z) : M Cfi unit :=
  match fuel with
  | O => nofuel
  | S fuel =>
      pos ← io dio_GetPos;
      if pos <? limit then exec_stack_frame_instruction func_addr ;; exec_until fuel limit func_addr
      else mret tt
  end.

(** An instruction has at least one byte. *)
Definition exec_fuel : M Cfi nat := gets (fun s => S (length (io_data (cf_io s)))).

(** The length of an entry, and whether it has the 64-bit format. *)
Definition read_length : M Dio (Z * bool) :=
  n ← dio_ReadU4;
  if n =? 2 ^ 32 - 1 then n ← dio_ReadU8; mret (n, true) else mret (n, false).

Definition is_eh_aug (aug : option bytes) : bool := match aug with Some l => bool_decide (l = str "eh") | None => false end.

(** What follows the [z] of an augmentation. *)
Definition z_aug (aug : option bytes) : option bytes :=
  match aug with Some (c :: l) => if c =? #"z" then Some l else None | _ => None end.

(** The parts of [read_frame_cie]: the end of the entry, *)
Definition read_cie_end (pos : Z) : M Cfi Z :=
  io (dio_SetPos pos) ;;
  '(cie_length, cie_dwarf64) ← io read_length;
  start ← io dio_GetPos;
  io (dio_Skip (if (cie_dwarf64 : bool) then 8 else 4)) ;;
  mret (u64 (start + cie_length)).

(** the version and the augmentation, *)
Definition read_cie_version : M Cfi unit :=
  version ← io dio_ReadU1;
  change_rules (set_ru_version version) ;;
  if negb ((version =? 1) || (version =? 3) || (version =? 4)) then exception ERR_INV_DWARF
  else
    aug ← io dio_ReadString;
    change_rules (set_ru_cie_aug aug) ;;
    if is_eh_aug aug then '(a, _) ← io dio_ReadAddress; change_rules (set_ru_cie_eh_data a) else mret tt.

(** the sizes of addresses and segments, *)
Definition read_cie_sizes : M Cfi unit :=
  r ← rules;
  (if 4 <=? ru_version r then
     a ← io dio_ReadU1; change_rules (set_ru_address_size a) ;;
     g ← io dio_ReadU1; change_rules (set_ru_segment_size g)
   else
     change_rules (fun r => set_ru_segment_size 0 (set_ru_address_size (if ef_elf64 (ru_file r) then 8 else 4) r))) ;;
  r ← rules;
  if negb (ru_segment_size r =? 0) then exception ERR_INV_DWARF else mret tt.

(** the factors and the return address, *)
Definition read_cie_factors : M Cfi unit :=
  x ← uleb; change_rules (set_ru_code_alignment x) ;;
  x ← sleb; change_rules (set_ru_data_alignment x) ;;
  x ← uleb; change_rules (set_ru_return_address_register (s32 x)) ;;
  change_rules (fun r => set_ru_addr_encoding 0 (set_ru_prh_encoding 0 (set_ru_lsda_encoding 0 r))).

(** the data of the augmentation. *)
Definition read_cie_augmentation : M Cfi unit :=
  r ← rules;
  match z_aug (ru_cie_aug r) with
  | Some p =>
      aug_length ← uleb;
      aug_pos ← io dio_GetPos;
      read_augmentation p ;;
      io (dio_SetPos (u64 (aug_pos + aug_length)))
  | None => mret tt
  end.

Definition exec_cie (cie_end : Z) : M Cfi unit :=
  modify (fun s => set_cf_regs_stack_pos 0 (set_cf_frame_regs no_registers (set_cf_cie_regs no_registers s))) ;;
  fuel ← exec_fuel;
  exec_until fuel cie_end 0 ;;
  modify (fun s => set_cf_cie_regs (copy_register_rules (cf_rules s) (cf_frame_regs s)) s).

Definition read_frame_cie (pos : Z) : M Cfi unit :=
  saved_pos ← io dio_GetPos;
  change_rules (set_ru_cie_pos pos) ;;
  r ← rules;
  sec ← of_option (ru_section r);
  if es_size sec <=? pos then exception ERR_INV_DWARF
  else
    cie_end ← read_cie_end pos;
    read_cie_version ;;
    read_cie_sizes ;;
    read_cie_factors ;;
    read_cie_augmentation ;;
    exec_cie cie_end ;;
    io (dio_SetPos saved_pos).

(** ** Frame description entries *)

(** Instructions until the location is beyond [ip]; the result is the start of
    the row, its end is [ru_location]. *)
Fixpoint exec_row (fuel : nat) (ip fde_end addr range location0 : Z) : M Cfi Z :=
  match fuel with
  | O => nofuel
  | S fuel =>
      pos ← io dio_GetPos;
      if fde_end <=? pos then change_rules (set_ru_location (u64 (addr + range))) ;; mret location0
      else
        exec_stack_frame_instruction addr ;;
        assertm (location0 <=? ip) ;;
        r ← rules;
        if ip <? ru_location r then mret location0 else exec_row fuel ip fde_end addr range (ru_location r)
  end.

(** [fde_flag] *)
Definition is_fde (r : StackFrameRules) (dwarf64 : bool) (cie_ref : Z) : bool :=
  negb (cie_ref =? (if ru_eh_frame r then 0 else if dwarf64 then 2 ^ 64 - 1 else 2 ^ 32 - 1)).

(** The CIE of an entry: [ref_pos] is the position of the reference, which
    counts from there in .eh_frame. *)
Definition enter_cie (ref_pos cie_ref : Z) : M Cfi unit :=
  r ← rules;
  let cie_ref := if ru_eh_frame r then u64 (ref_pos - cie_ref) else cie_ref in
  if cie_ref =? ru_cie_pos r then mret tt else read_frame_cie cie_ref.

Definition skip_fde_augmentation : M Cfi unit :=
  r ← rules;
  match z_aug (ru_cie_aug r) with
  | Some _ =>
      n ← uleb;
      change_rules (set_ru_fde_aug_length n) ;;
      io (dio_Skip n)
  | None => mret tt
  end.

(** The rules of the address [ip] are ready: the start of their row and the end
    of the function. *)
Definition find_row (ip fde_pos : Z) : M Cfi (Z * Z) :=
  r ← rules;
  sec ← of_option (ru_section r);
  io (dio_EnterSection None (ru_file r) sec fde_pos) ;;
  '(fde_length, fde_dwarf64) ← io (n ← dio_ReadU4; assertm (0 <? n) ;;
    if n =? 2 ^ 32 - 1 then n ← dio_ReadU8; mret (n, true) else mret (n, false));
  ref_pos ← io dio_GetPos;
  let fde_end := u64 (ref_pos + fde_length) in
  cie_ref ← io (if (fde_dwarf64 : bool) then dio_ReadU8 else dio_ReadU4);
  assertm (is_fde r fde_dwarf64 cie_ref) ;;
  enter_cie ref_pos cie_ref ;;
  r ← rules;
  '(addr, _) ← read_frame_data_pointer (ru_addr_encoding r) true 0;
  '(range, _) ← read_frame_data_pointer (ru_addr_encoding r) false 0;
  assertm ((addr <=? ip) && (ip <? u64 (addr + range))) ;;
  skip_fde_augmentation ;;
  modify (fun s => set_cf_regs_stack_pos 0 (set_cf_rules (set_ru_location addr (cf_rules s))
    (set_cf_frame_regs (copy_register_rules (cf_rules s) (cf_cie_regs s)) s))) ;;
  fuel ← exec_fuel;
  location0 ← exec_row fuel ip fde_end addr range addr;
  mret (location0, u64 (addr + range)).

End cfi.
