(* ===== verification/CfiSpec.v ===== *)
(** * Call frame information: the specification

    The instructions of call frame information as data, how they are encoded in a
    section, and what they mean: a table whose rows say, for an interval of
    addresses, how the frame address and the registers of the caller are found
    (DWARF, section 6.4.1). *)

From S2P Require Import Prelude ByteSource DwarfIo DwarfCfi.

(** ** Rules *)

Inductive rule :=
| Undefined
| SameValue
| Offset (n : Z)
| ValOffset (n : Z)
| Register (r : Z)
| Expression (e : bytes)
| ValExpression (e : bytes).

#[export] Instance rule_eq_dec : EqDecision rule.
Proof. solve_decision. Defined.

Inductive cfa :=
| NoCfa
| CfaOffset (r n : Z)
| CfaExpression (e : bytes).

Record row := {
  row_cfa : cfa;
  row_rule : Z -> rule;
}.

Definition set_rule_of (n : Z) (x : rule) (w : row) : row :=
  {| row_cfa := row_cfa w; row_rule := fun m => if m =? n then x else row_rule w m |}.
Definition set_cfa_of (c : cfa) (w : row) : row := {| row_cfa := c; row_rule := row_rule w |}.

(** ** Instructions

    [short]: the register is in the code of the operation.  [IAdvance k n]: the
    operand has [k] bytes, none when it is in the code. *)
Inductive instr :=
| INop
| IAdvance (k : nat) (n : Z)
| IOffset (short : bool) (r n : Z)
| IOffsetSf (r n : Z)
| INegOffset (r n : Z)
| IValOffset (r n : Z)
| IValOffsetSf (r n : Z)
| IRestore (short : bool) (r : Z)
| IUndefined (r : Z)
| ISameValue (r : Z)
| IRegister (r r' : Z)
| IExpression (r : Z) (e : bytes)
| IValExpression (r : Z) (e : bytes)
| IRemember
| IRestoreState
| IDefCfa (r n : Z)
| IDefCfaSf (r n : Z)
| IDefCfaRegister (r : Z)
| IDefCfaOffset (n : Z)
| IDefCfaOffsetSf (n : Z)
| IDefCfaExpression (e : bytes)
| IArgsSize (n : Z).

Definition block (e : bytes) : bytes := uleb128 (zlen e) ++ e.

Definition encode (be : bool) (i : instr) : bytes :=
  match i with
  | INop => [0]
  | IAdvance 0 n => [64 + n]
  | IAdvance 1 n => 2 :: number be 1 n
  | IAdvance 2 n => 3 :: number be 2 n
  | IAdvance _ n => 4 :: number be 4 n
  | IOffset true r n => (128 + r) :: uleb128 n
  | IOffset false r n => 5 :: uleb128 r ++ uleb128 n
  | IOffsetSf r n => 17 :: uleb128 r ++ sleb128 n
  | INegOffset r n => 47 :: uleb128 r ++ sleb128 n
  | IValOffset r n => 20 :: uleb128 r ++ uleb128 n
  | IValOffsetSf r n => 21 :: uleb128 r ++ sleb128 n
  | IRestore true r => [192 + r]
  | IRestore false r => 6 :: uleb128 r
  | IUndefined r => 7 :: uleb128 r
  | ISameValue r => 8 :: uleb128 r
  | IRegister r r' => 9 :: uleb128 r ++ uleb128 r'
  | IExpression r e => 16 :: uleb128 r ++ block e
  | IValExpression r e => 22 :: uleb128 r ++ block e
  | IRemember => [10]
  | IRestoreState => [11]
  | IDefCfa r n => 12 :: uleb128 r ++ uleb128 n
  | IDefCfaSf r n => 18 :: uleb128 r ++ sleb128 n
  | IDefCfaRegister r => 13 :: uleb128 r
  | IDefCfaOffset n => 14 :: uleb128 n
  | IDefCfaOffsetSf n => 19 :: sleb128 n
  | IDefCfaExpression e => 15 :: block e
  | IArgsSize n => 46 :: uleb128 n
  end.

Definition encode_all (be : bool) (p : list instr) : bytes := mjoin (map (encode be) p).

(** Operands that can be encoded and that make sense: factored offsets and
    advances do not overflow. *)
Section wf.
Context (ca da : Z).

Definition fits_u (w n : Z) : bool := (0 <=? n) && (n <? 2 ^ w).
Definition fits (w n : Z) : bool := (- 2 ^ (w - 1) <=? n) && (n <? 2 ^ (w - 1)).
Definition reg_ok (short : bool) (r : Z) : bool := fits_u (if short then 6 else 31) r.
Definition offset_u (n : Z) : bool := fits_u 32 n && fits 32 (n * da).
Definition offset_s (n : Z) : bool := fits 32 n && fits 32 (n * da).
Definition block_ok (e : bytes) : bool := forallb (fun b => (0 <=? b) && (b <? 256)) e && fits_u 31 (zlen e).

Definition instr_ok (i : instr) : bool :=
  match i with
  | INop | IRemember | IRestoreState => true
  | IAdvance k n =>
      fits_u (match k with 0%nat => 6 | _ => 8 * Z.of_nat k end) n && bool_decide (k ∈ [0; 1; 2; 4]%nat) && fits_u 32 (n * ca)
  | IOffset short r n => reg_ok short r && offset_u n
  | IOffsetSf r n | IValOffsetSf r n => reg_ok false r && offset_s n
  | INegOffset r n => reg_ok false r && offset_s n && fits 32 (- n) && fits 32 (- n * da)
  | IValOffset r n => reg_ok false r && offset_u n
  | IRestore short r => reg_ok short r
  | IUndefined r | ISameValue r => reg_ok false r
  | IRegister r r' => reg_ok false r && reg_ok false r'
  | IExpression r e | IValExpression r e => reg_ok false r && block_ok e
  | IDefCfa r n => reg_ok false r && fits_u 31 n
  | IDefCfaSf r n => reg_ok false r && offset_s n
  | IDefCfaRegister r => reg_ok false r
  | IDefCfaOffset n => fits_u 31 n
  | IDefCfaOffsetSf n => offset_s n
  | IDefCfaExpression e => block_ok e
  | IArgsSize n => fits_u 32 n
  end.

(** ** Meaning *)

(** The current row, and the rows that have been remembered. *)
Record cstate := {
  cs_row : row;
  cs_stack : list row;
}.

Definition on_row (f : row -> row) (s : cstate) : option cstate :=
  Some {| cs_row := f (cs_row s); cs_stack := cs_stack s |}.

(** The effect of an instruction on the row; [initial] is the row of the CIE.
    The offset or the register of the frame address can only be changed when it
    has both, and a row can only be restored when there is one. *)
Definition step_row (initial : row) (i : instr) (s : cstate) : option cstate :=
  match i with
  | INop | IAdvance _ _ | IArgsSize _ => Some s
  | IOffset _ r n | IOffsetSf r n => on_row (set_rule_of r (Offset (n * da))) s
  | INegOffset r n => on_row (set_rule_of r (Offset (- n * da))) s
  | IValOffset r n | IValOffsetSf r n => on_row (set_rule_of r (ValOffset (n * da))) s
  | IRestore _ r => on_row (set_rule_of r (row_rule initial r)) s
  | IUndefined r => on_row (set_rule_of r Undefined) s
  | ISameValue r => on_row (set_rule_of r SameValue) s
  | IRegister r r' => on_row (set_rule_of r (Register r')) s
  | IExpression r e => on_row (set_rule_of r (Expression e)) s
  | IValExpression r e => on_row (set_rule_of r (ValExpression e)) s
  | IRemember => Some {| cs_row := cs_row s; cs_stack := cs_row s :: cs_stack s |}
  | IRestoreState =>
      match cs_stack s with
      | [] => None
      | w :: l => Some {| cs_row := w; cs_stack := l |}
      end
  | IDefCfa r n => on_row (set_cfa_of (CfaOffset r n)) s
  | IDefCfaSf r n => on_row (set_cfa_of (CfaOffset r (n * da))) s
  | IDefCfaRegister r =>
      match row_cfa (cs_row s) with CfaOffset _ n => on_row (set_cfa_of (CfaOffset r n)) s | _ => None end
  | IDefCfaOffset n =>
      match row_cfa (cs_row s) with CfaOffset r _ => on_row (set_cfa_of (CfaOffset r n)) s | _ => None end
  | IDefCfaOffsetSf n =>
      match row_cfa (cs_row s) with CfaOffset r _ => on_row (set_cfa_of (CfaOffset r (n * da))) s | _ => None end
  | IDefCfaExpression e => on_row (set_cfa_of (CfaExpression e)) s
  end.

Definition step_loc (i : instr) : Z := match i with IAdvance _ n => n * ca | _ => 0 end.

Fixpoint run_rows (initial : row) (p : list instr) (s : cstate) : option cstate :=
  match p with
  | [] => Some s
  | i :: p => s ← step_row initial i s; run_rows initial p s
  end.

(** A line of the table: the row holds for the addresses from [ln_start] up to
    [ln_end]. *)
Record line := {
  ln_start : Z;
  ln_end : Z;
  ln_row : row;
}.

(** The table of a function that ends at [limit]: an instruction that advances the
    location ends a line. *)
Fixpoint table (initial : row) (p : list instr) (loc limit : Z) (s : cstate) : option (list line) :=
  match p with
  | [] => Some [{| ln_start := loc; ln_end := limit; ln_row := cs_row s |}]
  | i :: p =>
      s' ← step_row initial i s;
      l ← table initial p (loc + step_loc i) limit s';
      Some (match i with
            | IAdvance _ _ => {| ln_start := loc; ln_end := loc + step_loc i; ln_row := cs_row s |} :: l
            | _ => l
            end)
  end.

(** Where the instructions leave the location. *)
Definition last_loc (p : list instr) (loc : Z) : Z := fold_left (fun loc i => loc + step_loc i) p loc.
End wf.

(** ** The initial row *)

(** The rule that the architecture implies. *)
Definition implied (machine rar n : Z) : rule :=
  let r := implied_rule machine rar n in
  if rr_rule r =? RULE_SAME_VALUE then SameValue
  else if rr_rule r =? RULE_VAL_OFFSET then ValOffset 0
  else if rr_rule r =? RULE_REGISTER then Register (rr_offset r)
  else Undefined.

Definition start_row (machine rar : Z) : row := {| row_cfa := NoCfa; row_rule := implied machine rar |}.
