(* ===== verification/CfiExec.v ===== *)
(** * Call frame information: execution of the instructions

    [view] is what the array of rules means: every register has a rule, the one in
    the array or the implied one.  [does] says what a part of the execution makes
    of the bytes ahead and of the views, and [exec_does] says it of every
    instruction. *)

From S2P Require Import Prelude ByteSource DwarfIo DwarfCfi CfiSpec.

(** ** Arrays of rules *)

(** The four members of the rule of the frame address, and the rules of all
    registers. *)
Record view := {
  vw_rule : Z;
  vw_offset : Z;
  vw_register : Z;
  vw_expression : Z;
  vw_reg : Z -> RegisterRules;
}.

Definition reg_view (r : StackFrameRules) (rgs : StackFrameRegisters) (n : Z) : RegisterRules :=
  default (implied_rule (ru_machine r) (ru_return_address_register r) n) (sr_regs rgs !! Z.to_nat n).

(** An array that is used has the registers with implied rules. *)
Definition regs_full (machine : Z) (l : list RegisterRules) : Prop := l = [] \/ min_reg_cnt machine <= zlen l.

Record view_is (r : StackFrameRules) (rgs : StackFrameRegisters) (v : view) : Prop := {
  vi_rule : sr_cfa_rule rgs = vw_rule v;
  vi_offset : sr_cfa_offset rgs = vw_offset v;
  vi_register : sr_cfa_register rgs = vw_register v;
  vi_expression : sr_cfa_expression rgs = vw_expression v;
  vi_reg n : 0 <= n -> reg_view r rgs n = vw_reg v n;
  vi_full : regs_full (ru_machine r) (sr_regs rgs);
}.

(** New items have the implied rules, so that the view stays the same. *)
Lemma grow_regs_view fuel machine rar reg min l n :
  default (implied_rule machine rar (Z.of_nat n)) (grow_regs fuel machine rar reg min l !! n) =
  default (implied_rule machine rar (Z.of_nat n)) (l !! n).
Proof.
  revert min l. induction fuel as [|fuel IH]; intros min l; [done|]. cbn [grow_regs].
  destruct (_ || _); [|done]. rewrite IH. destruct (decide (n < length l)%nat) as [Hlt|Hge].
  - by rewrite lookup_app_l.
  - rewrite (lookup_ge_None_2 l n) by lia. destruct (decide (n = length l)) as [->|Hne].
    + rewrite lookup_app_r, Nat.sub_diag by lia. done.
    + rewrite lookup_ge_None_2; [done|]. rewrite length_app. cbn. lia.
Qed.

Lemma grow_regs_len fuel machine rar reg min l : zlen l <= zlen (grow_regs fuel machine rar reg min l).
Proof.
  revert min l. induction fuel as [|fuel IH]; intros min l; [cbn; lia|]. cbn [grow_regs].
  destruct (_ || _); [|lia]. etransitivity; [|apply IH]. zlia.
Qed.

Lemma grow_regs_enough fuel machine rar reg min l : reg - zlen l < Z.of_nat fuel ->
  reg < zlen (grow_regs fuel machine rar reg min l).
Proof.
  revert min l. induction fuel as [|fuel IH]; intros min l Hf; [cbn in *; lia|]. cbn [grow_regs].
  destruct (Z.leb_spec (zlen l) reg); cbn [orb].
  - apply IH. zlia.
  - destruct (_ <? _); [|lia]. eapply Z.lt_le_trans; [|apply grow_regs_len]. zlia.
Qed.

Lemma reg_view_with r n rgs m : 0 <= m -> reg_view r (with_reg r n rgs) m = reg_view r rgs m.
Proof.
  intros Hm. unfold reg_view, with_reg. cbn [sr_regs set_sr_regs].
  pose proof (grow_regs_view (Z.to_nat (Z.max (n + 1) 129)) (ru_machine r) (ru_return_address_register r) n 0 (sr_regs rgs) (Z.to_nat m)) as E.
  by rewrite Z2Nat.id in E.
Qed.

Lemma with_reg_len r n rgs : n < zlen (sr_regs (with_reg r n rgs)).
Proof. apply grow_regs_enough. pose proof (zlen_nonneg (sr_regs rgs)). lia. Qed.

Lemma min_reg_cnt_bound machine : 0 <= min_reg_cnt machine <= 129.
Proof. unfold min_reg_cnt. repeat case_match; lia. Qed.

Lemma grow_regs_min fuel machine rar reg l : min_reg_cnt machine <= zlen l + Z.of_nat fuel ->
  min_reg_cnt machine <= zlen (grow_regs fuel machine rar reg (min_reg_cnt machine) l).
Proof.
  revert l. induction fuel as [|fuel IH]; intros l Hf; [cbn in *; lia|]. cbn [grow_regs].
  destruct ((zlen l <=? reg) || (zlen l <? min_reg_cnt machine)) eqn:E; [apply IH; zlia|]. apply orb_false_iff in E as [_ E]. lia.
Qed.

Lemma with_reg_full r n rgs : regs_full (ru_machine r) (sr_regs rgs) -> regs_full (ru_machine r) (sr_regs (with_reg r n rgs)).
Proof.
  intros Hf. unfold with_reg. cbn [sr_regs set_sr_regs]. pose proof (min_reg_cnt_bound (ru_machine r)).
  destruct (Z.to_nat (Z.max (n + 1) 129)) as [|fuel] eqn:E; [lia|]. cbn [grow_regs]. pose proof (zlen_nonneg (sr_regs rgs)).
  destruct (_ || _); [|done]. right. apply grow_regs_min. zlia.
Qed.

Lemma put_reg_full machine n x rgs : regs_full machine (sr_regs rgs) -> regs_full machine (sr_regs (put_reg n x rgs)).
Proof.
  unfold regs_full, put_reg. cbn [sr_regs set_sr_regs]. intros [->|H]; [left; by destruct (Z.to_nat n)|right].
  unfold zlen in *. by rewrite length_insert.
Qed.

Lemma copy_regs_full r l : forall n dst, regs_full (ru_machine r) (sr_regs dst) -> regs_full (ru_machine r) (sr_regs (copy_regs r l n dst)).
Proof. induction l as [|x l IH]; intros n dst Hd; [done|]. cbn [copy_regs]. by apply IH, put_reg_full, with_reg_full. Qed.

Lemma reg_of_view r rgs n : 0 <= n < zlen (sr_regs rgs) -> reg_of rgs n = Some (reg_view r rgs n).
Proof.
  intros Hn. unfold reg_of, reg_view. destruct (znth_Some (sr_regs rgs) n Hn) as [x E]. rewrite E. f_equal.
  unfold znth in E. rewrite (proj2 (Z.leb_le _ _)) in E by lia. by rewrite E.
Qed.

Lemma reg_view_put r rgs n x m : 0 <= n < zlen (sr_regs rgs) -> 0 <= m ->
  reg_view r (put_reg n x rgs) m = if m =? n then x else reg_view r rgs m.
Proof.
  intros Hn Hm. unfold reg_view, put_reg, zlen in *. cbn [sr_regs set_sr_regs]. destruct (Z.eqb_spec m n) as [->|Hne].
  - rewrite list_lookup_insert_eq by lia. done.
  - by rewrite list_lookup_insert_ne by lia.
Qed.

Lemma put_reg_len n x rgs : zlen (sr_regs (put_reg n x rgs)) = zlen (sr_regs rgs).
Proof. unfold zlen. cbn. by rewrite length_insert. Qed.

Lemma copy_regs_view r l : forall n dst m, 0 <= n -> 0 <= m ->
  reg_view r (copy_regs r l n dst) m = default (reg_view r dst m) (if m <? n then None else l !! Z.to_nat (m - n)).
Proof.
  induction l as [|x l IH]; intros n dst m Hn Hm; [by destruct (m <? n)|]. cbn [copy_regs].
  pose proof (with_reg_len r n dst). rewrite IH by lia. rewrite reg_view_put, reg_view_with by lia.
  destruct (Z.ltb_spec m n).
  - by rewrite (proj2 (Z.ltb_lt m (n + 1))), (proj2 (Z.eqb_neq m n)) by lia.
  - destruct (Z.eqb_spec m n) as [->|Hne].
    + rewrite (proj2 (Z.ltb_lt n (n + 1))), Z.sub_diag by lia. done.
    + rewrite (proj2 (Z.ltb_ge m (n + 1))) by lia. by replace (Z.to_nat (m - n)) with (S (Z.to_nat (m - (n + 1)))) by lia.
Qed.

Lemma copy_regs_cfa r l : forall n dst,
  let rgs := copy_regs r l n dst in
  sr_cfa_rule rgs = sr_cfa_rule dst /\ sr_cfa_offset rgs = sr_cfa_offset dst /\
  sr_cfa_register rgs = sr_cfa_register dst /\ sr_cfa_expression rgs = sr_cfa_expression dst.
Proof. induction l as [|x l IH]; intros n dst; [done|]. apply (IH (n + 1) (put_reg n x (with_reg r n dst))). Qed.

(** A copy has the same view. *)
Lemma copy_view r r' rgs v : ru_machine r' = ru_machine r -> ru_return_address_register r' = ru_return_address_register r ->
  view_is r rgs v -> view_is r (copy_register_rules r' rgs) v.
Proof.
  intros E1 E2 [H1 H2 H3 H4 H5 H6]. unfold copy_register_rules.
  destruct (copy_regs_cfa r' (sr_regs rgs) 0 (set_sr_cfa (sr_cfa_rule rgs) (sr_cfa_offset rgs) (sr_cfa_register rgs)
    (sr_cfa_expression rgs) no_registers)) as (C1 & C2 & C3 & C4).
  constructor; rewrite ?C1, ?C2, ?C3, ?C4; try done; [|rewrite <- E1; apply copy_regs_full; by left]. intros n Hn. rewrite <- H5 by done.
  assert (HV : forall rgs, reg_view r rgs n = reg_view r' rgs n) by (intros; unfold reg_view; by rewrite E1, E2).
  rewrite !HV, copy_regs_view by lia. unfold reg_view. rewrite (proj2 (Z.ltb_ge n 0)), Z.sub_0_r by lia. done.
Qed.

Lemma view_with r r' n rgs v : ru_machine r' = ru_machine r -> ru_return_address_register r' = ru_return_address_register r ->
  view_is r rgs v -> view_is r (with_reg r' n rgs) v.
Proof.
  intros E1 E2 [H1 H2 H3 H4 H5 H6]. constructor; try done; [|rewrite <- E1 in *; by apply with_reg_full]. intros m Hm. rewrite <- H5 by done.
  assert (HV : forall rgs, reg_view r rgs m = reg_view r' rgs m) by (intros; unfold reg_view; by rewrite E1, E2).
  by rewrite !HV, reg_view_with.
Qed.

Definition view_set (n : Z) (x : RegisterRules) (v : view) : view :=
  {| vw_rule := vw_rule v; vw_offset := vw_offset v; vw_register := vw_register v; vw_expression := vw_expression v;
     vw_reg := fun m => if m =? n then x else vw_reg v m |}.

Definition view_cfa (rule offset reg expression : Z) (v : view) : view :=
  {| vw_rule := rule; vw_offset := offset; vw_register := reg; vw_expression := expression; vw_reg := vw_reg v |}.

Lemma view_put r rgs v n x : 0 <= n < zlen (sr_regs rgs) -> view_is r rgs v -> view_is r (put_reg n x rgs) (view_set n x v).
Proof.
  intros Hn [H1 H2 H3 H4 H5 H6]. constructor; try done; [|by apply put_reg_full]. intros m Hm. cbn. rewrite reg_view_put by done. by rewrite H5.
Qed.

(** ** What a part of the execution does *)

Record vstate := {
  vs_loc : Z;
  vs_frame : view;
  vs_stack : list view;
}.

Definition vs_set_loc (x : Z) (v : vstate) : vstate := {| vs_loc := x; vs_frame := vs_frame v; vs_stack := vs_stack v |}.
Definition vs_set_frame (x : view) (v : vstate) : vstate := {| vs_loc := vs_loc v; vs_frame := x; vs_stack := vs_stack v |}.
Definition vs_set_stack (l : list view) (v : vstate) : vstate := {| vs_loc := vs_loc v; vs_frame := vs_frame v; vs_stack := l |}.

Section exec.
Context `{!Relocator}.
(** The rules but for the location, the rules of the CIE. *)
Context (r0 : StackFrameRules) (cie : view) (be : bool).

Abbreviation ca := (ru_code_alignment r0).
Abbreviation da := (ru_data_alignment r0).

Record cfi_is (s : Cfi) (v : vstate) : Prop := {
  ci_rules : cf_rules s = set_ru_location (vs_loc v) r0;
  ci_frame : view_is r0 (cf_frame_regs s) (vs_frame v);
  ci_cie : view_is r0 (cf_cie_regs s) cie;
  ci_pos : cf_regs_stack_pos s = zlen (vs_stack v);
  ci_stack k x : reverse (vs_stack v) !! k = Some x -> exists rgs, cf_regs_stack s !! k = Some rgs /\ view_is r0 rgs x;
  ci_be : io_big_endian (cf_io s) = be;
}.

(** [m] reads [l] at the position [p]. *)
Definition does {A} (m : M Cfi A) (p : Z) (l : bytes) (v : vstate) (a : A) (v' : vstate) : Prop :=
  forall s, cfi_is s v -> src_at (cf_io s) l -> io_pos (cf_io s) = p ->
  exists s', m s = (Ok a, s') /\ cfi_is s' v' /\ cf_io s' = further (zlen l) (cf_io s).

Lemma further_0 s : further 0 s = s.
Proof. exact (src_ahead_0 (S := Dio) s). Qed.

Lemma cfi_does_ret {A} (a : A) p v : does (mret a) p [] v a v.
Proof. intros s Hs _ _. exists s. split_and!; [done|done|]. change (zlen []) with 0. by rewrite further_0. Qed.

Lemma cfi_does_bind {A B} (m : M Cfi A) (f : A -> M Cfi B) p l k v a v1 b v2 :
  does m p l v a v1 -> does (f a) (p + zlen l) k v1 b v2 -> does (m ≫= f) p (l ++ k) v b v2.
Proof.
  intros Hm Hf s Hs HL Hp. apply src_at_app in HL as [HL1 HL2]. destruct (Hm s Hs HL1 Hp) as (s1 & E1 & H1 & D1).
  rewrite (bind_ok _ _ _ _ _ E1). destruct (Hf s1) as (s2 & E2 & H2 & D2); [done|by rewrite D1|rewrite D1; cbn; by rewrite Hp|].
  exists s2. split_and!; [done|done|]. rewrite D2, D1, zlen_app. exact (src_ahead_add (S := Dio) _ _ _).
Qed.

(** A step that reads nothing. *)
Lemma cfi_does_then {A B} (m : M Cfi A) (f : A -> M Cfi B) p k v a v1 b v2 :
  does m p [] v a v1 -> does (f a) p k v1 b v2 -> does (m ≫= f) p k v b v2.
Proof. intros Hm Hf. change k with ([] ++ k). eapply cfi_does_bind; [exact Hm|]. change (zlen []) with 0. by rewrite Z.add_0_r. Qed.

(** The last step reads nothing. *)
Lemma cfi_does_last {A B} (m : M Cfi A) (f : A -> M Cfi B) p l v a v1 b v2 :
  does m p l v a v1 -> does (f a) (p + zlen l) [] v1 b v2 -> does (m ≫= f) p l v b v2.
Proof. intros Hm Hf. rewrite <- (app_nil_r l). by eapply cfi_does_bind. Qed.

Lemma does_io {A} (m : M Dio A) p l v a : reads_as be m l a -> does (io m) p l v a v.
Proof.
  intros Hm s Hs HL Hp. unfold io. rewrite (Hm _ (ci_be _ _ Hs) HL). eexists. split; [done|]. split; [|done].
  destruct Hs. by constructor.
Qed.

Lemma does_pos p v : does (io dio_GetPos) p [] v p v.
Proof.
  intros s Hs HL Hp. unfold io, dio_GetPos, gets. rewrite Hp. eexists. split; [done|]. split; [by destruct Hs|].
  change (zlen []) with 0. by rewrite further_0.
Qed.

Lemma does_rules p v : does rules p [] v (set_ru_location (vs_loc v) r0) v.
Proof.
  intros s Hs HL Hp. unfold rules, gets. rewrite (ci_rules _ _ Hs). exists s. split_and!; [done|done|].
  change (zlen []) with 0. by rewrite further_0.
Qed.

Lemma cfi_does_assert b p v : b = true -> does (assertm b) p [] v tt v.
Proof. intros ->. apply cfi_does_ret. Qed.

(** A change of the state. *)
Lemma does_modify (f : Cfi -> Cfi) p v v' : (forall s, cfi_is s v -> cfi_is (f s) v' /\ cf_io (f s) = cf_io s) ->
  does (modify f) p [] v tt v'.
Proof.
  intros Hf s Hs _ _. destruct (Hf s Hs) as [H1 H2]. exists (f s). split_and!; [done|done|]. rewrite H2.
  change (zlen []) with 0. by rewrite further_0.
Qed.

Lemma does_set_loc f p v x : (forall r, f (set_ru_location (vs_loc v) r0) = r -> r = set_ru_location x r0) ->
  does (change_rules f) p [] v tt (vs_set_loc x v).
Proof.
  intros Hf. apply does_modify. intros s [H1 H2 H3 H4 H5 H6]. split; [|done].
  constructor; try done. cbn. rewrite H1. by apply Hf.
Qed.

Lemma cfi_does_advance n p v : does (advance n) p [] v tt (vs_set_loc (u64 (vs_loc v + u32 (n * ca))) v).
Proof. apply does_set_loc. by intros r <-. Qed.

Lemma does_uleb n p v : in_u 32 n -> does uleb p (uleb128 n) v n v.
Proof. intros. by apply does_io, reads_dio_uleb. Qed.

Lemma does_sleb n p v : in_s 32 n -> does sleb p (sleb128 n) v n v.
Proof. intros. by apply does_io, reads_dio_sleb. Qed.

(** ** Rules of registers *)

Lemma frame_reg_eq n s : 0 <= n ->
  frame_reg n s = (Ok (reg_view (cf_rules s) (with_reg (cf_rules s) n (cf_frame_regs s)) n),
    set_cf_frame_regs (with_reg (cf_rules s) n (cf_frame_regs s)) s).
Proof.
  intros Hn. unfold frame_reg. rewrite (bind_ok get _ s s s eq_refl), (bind_ok (put _) _ s tt _ eq_refl).
  by rewrite (reg_of_view (cf_rules s)) by (split; [done|apply with_reg_len]).
Qed.

Lemma does_frame_reg n p v : 0 <= n -> does (frame_reg n) p [] v (vw_reg (vs_frame v) n) v.
Proof.
  intros Hn s Hs _ _. rewrite frame_reg_eq by done. destruct Hs as [H1 H2 H3 H4 H5 H6].
  assert (HV : view_is r0 (with_reg (cf_rules s) n (cf_frame_regs s)) (vs_frame v)) by (rewrite H1; by apply view_with).
  pose proof (vi_reg _ _ _ HV n Hn) as E. eexists. split.
  - f_equal. f_equal. rewrite <- E. unfold reg_view. by rewrite H1.
  - split; [by constructor|]. change (zlen []) with 0. by rewrite further_0.
Qed.

Lemma does_cie_reg n p v : 0 <= n -> does (cie_reg n) p [] v (vw_reg cie n) v.
Proof.
  intros Hn s Hs _ _. unfold cie_reg. rewrite (bind_ok get _ s s s eq_refl).
  rewrite (bind_ok (put _) _ s tt _ eq_refl). destruct Hs as [H1 H2 H3 H4 H5 H6].
  assert (HV : view_is r0 (with_reg (cf_rules s) n (cf_cie_regs s)) cie) by (rewrite H1; by apply view_with).
  rewrite (reg_of_view r0) by (split; [done|apply with_reg_len]). rewrite (vi_reg _ _ _ HV n Hn).
  eexists. split; [done|]. split; [by constructor|]. change (zlen []) with 0. by rewrite further_0.
Qed.

(** The array has an item for the register [n]. *)
Definition has_reg (n : Z) (s : Cfi) : Prop := 0 <= n < zlen (sr_regs (cf_frame_regs s)).

(** As [does], for a part that relies on the item of the register [n], and that
    keeps it. *)
Definition does_on {A} (n : Z) (m : M Cfi A) (p : Z) (l : bytes) (v : vstate) (a : A) (v' : vstate) : Prop :=
  forall s, cfi_is s v -> has_reg n s -> src_at (cf_io s) l -> io_pos (cf_io s) = p ->
  exists s', m s = (Ok a, s') /\ cfi_is s' v' /\ has_reg n s' /\ cf_io s' = further (zlen l) (cf_io s).

Lemma does_on_bind {A B} n (m : M Cfi A) (f : A -> M Cfi B) p l k v a v1 b v2 :
  does_on n m p l v a v1 -> does_on n (f a) (p + zlen l) k v1 b v2 -> does_on n (m ≫= f) p (l ++ k) v b v2.
Proof.
  intros Hm Hf s Hs Hn HL Hp. apply src_at_app in HL as [HL1 HL2]. destruct (Hm s Hs Hn HL1 Hp) as (s1 & E1 & H1 & Hn1 & D1).
  rewrite (bind_ok _ _ _ _ _ E1). destruct (Hf s1) as (s2 & E2 & H2 & Hn2 & D2); [done|done|by rewrite D1|rewrite D1; cbn; by rewrite Hp|].
  exists s2. split_and!; [done|done|done|]. rewrite D2, D1, zlen_app. exact (src_ahead_add (S := Dio) _ _ _).
Qed.

Lemma does_on_then {A B} n (m : M Cfi A) (f : A -> M Cfi B) p k v a v1 b v2 :
  does_on n m p [] v a v1 -> does_on n (f a) p k v1 b v2 -> does_on n (m ≫= f) p k v b v2.
Proof. intros Hm Hf. change k with ([] ++ k). eapply does_on_bind; [exact Hm|]. change (zlen []) with 0. by rewrite Z.add_0_r. Qed.

Lemma does_on_last {A B} n (m : M Cfi A) (f : A -> M Cfi B) p l v a v1 b v2 :
  does_on n m p l v a v1 -> does_on n (f a) (p + zlen l) [] v1 b v2 -> does_on n (m ≫= f) p l v b v2.
Proof. intros Hm Hf. rewrite <- (app_nil_r l). by eapply does_on_bind. Qed.

(** A part that does not change the array. *)
Lemma does_on_io {A} n (m : M Dio A) p l v a : reads_as be m l a -> does_on n (io m) p l v a v.
Proof.
  intros Hm s Hs Hn HL Hp. destruct (does_io m p l v a Hm s Hs HL Hp) as (s' & E & H1 & D).
  exists s'. split_and!; [done|done| |done]. unfold has_reg, io in *. rewrite (Hm _ (ci_be _ _ Hs) HL) in E. by injection E as <-.
Qed.

Lemma does_on_keep {A} n (m : M Cfi A) p v a : does m p [] v a v -> (forall s r s', m s = (r, s') -> s' = s) ->
  does_on n m p [] v a v.
Proof. intros Hm Hk s Hs Hn HL Hp. destruct (Hm s Hs HL Hp) as (s' & E & H1 & D). pose proof (Hk _ _ _ E) as ->. by exists s. Qed.

Lemma does_on_ret {A} n (a : A) p v : does_on n (mret a) p [] v a v.
Proof. apply does_on_keep; [apply cfi_does_ret|]. by intros s r s' [= _ <-]. Qed.

Lemma does_on_rules n p v : does_on n rules p [] v (set_ru_location (vs_loc v) r0) v.
Proof. apply does_on_keep; [apply does_rules|]. by intros s r s' [= _ <-]. Qed.

Lemma does_on_pos n p v : does_on n (io dio_GetPos) p [] v p v.
Proof. apply does_on_keep; [apply does_pos|]. intros s r s' [= _ <-]. by destruct s. Qed.

Lemma does_on_assert n b p v : b = true -> does_on n (assertm b) p [] v tt v.
Proof. intros ->. apply does_on_ret. Qed.

(** The array is extended first. *)
Lemma does_with_reg {A B} n (m : M Cfi A) (f : A -> M Cfi B) p k v a b v2 :
  does m p [] v a v -> (forall s r s', cfi_is s v -> m s = (Ok r, s') -> has_reg n s') ->
  does_on n (f a) p k v b v2 -> does (m ≫= f) p k v b v2.
Proof.
  intros Hm Hr Hf s Hs HL Hp. pose proof (src_at_app (S := Dio) (cf_io s) [] k HL) as [HL1 HL2]. destruct (Hm s Hs HL1 Hp) as (s1 & E1 & H1 & D1).
  change (zlen []) with 0 in *. change (src_at (further 0 (cf_io s)) k) in HL2. rewrite further_0 in HL2, D1.
  rewrite (bind_ok _ _ _ _ _ E1). destruct (Hf s1) as (s2 & E2 & H2 & _ & D2); [done|exact (Hr _ _ _ Hs E1)|by rewrite D1|by rewrite D1|].
  exists s2. by rewrite D2, D1.
Qed.

Lemma does_get_frame_reg {B} n (f : unit -> M Cfi B) p k v b v2 : 0 <= n < 2 ^ 31 ->
  does_on n (f tt) p k v b v2 -> does (get_frame_reg n ≫= f) p k v b v2.
Proof.
  intros Hn. assert (E : s32 n = n) by (unfold wraps; rewrite Z.mod_small by lia; lia).
  assert (HG : does (get_frame_reg n) p [] v tt v).
  { unfold get_frame_reg. rewrite E. eapply cfi_does_then; [apply does_frame_reg; lia|apply cfi_does_ret]. }
  apply (does_with_reg n _ _ _ _ _ _ _ _ HG). intros s r s' Hs Es. unfold get_frame_reg in Es. rewrite E in Es.
  rewrite (bind_ok _ _ _ _ _ (frame_reg_eq n s ltac:(lia))) in Es. injection Es as _ <-.
  split; [lia|apply with_reg_len].
Qed.

Lemma does_on_change n f p v : 0 <= n < 2 ^ 31 ->
  does_on n (change_reg (s32 n) f) p [] v tt (vs_set_frame (view_set n (f (vw_reg (vs_frame v) n)) (vs_frame v)) v).
Proof.
  intros Hn s Hs Hr _ _. assert (E : s32 n = n) by (unfold wraps; rewrite Z.mod_small by lia; lia). rewrite E.
  unfold change_reg. rewrite (bind_ok get _ s s s eq_refl), (reg_of_view r0) by done. cbn [of_option]. rewrite ret_bind.
  destruct Hs as [H1 H2 H3 H4 H5 H6]. rewrite (vi_reg _ _ _ H2 n ltac:(lia)). eexists. split; [done|]. split.
  - constructor; try done. cbn. by apply view_put.
  - split; [|change (zlen []) with 0; by rewrite further_0]. unfold has_reg in *. cbn [cf_frame_regs set_cf_frame_regs]. by rewrite put_reg_len.
Qed.

Lemma does_on_get_reg n p v : 0 <= n < 2 ^ 31 ->
  does_on n (current_reg n) p [] v (vw_reg (vs_frame v) n) v.
Proof.
  intros Hn s Hs Hr _ _. assert (E : s32 n = n) by (unfold wraps; rewrite Z.mod_small by lia; lia).
  unfold current_reg. rewrite E, (bind_ok get _ s s s eq_refl), (reg_of_view r0) by done. destruct Hs as [H1 H2 H3 H4 H5 H6].
  rewrite (vi_reg _ _ _ H2 n ltac:(lia)). exists s. split_and!; [done|by constructor|done|]. change (zlen []) with 0. by rewrite further_0.
Qed.
End exec.
