(* ===== verification/CfiStep.v ===== *)
(** * Call frame information: each instruction

    What every instruction makes of the views, and that the execution does this;
    then what it means for the rows of the specification. *)

From S2P Require Import Prelude ByteSource DwarfIo DwarfCfi CfiSpec CfiExec.

(** Views that agree on all registers. *)
Definition view_eq (v w : view) : Prop :=
  vw_rule v = vw_rule w /\ vw_offset v = vw_offset w /\ vw_register v = vw_register w /\ vw_expression v = vw_expression w /\
  forall n, 0 <= n -> vw_reg v n = vw_reg w n.

Lemma view_is_eq r rgs v w : view_eq v w -> view_is r rgs v -> view_is r rgs w.
Proof. intros (E1 & E2 & E3 & E4 & E5) [H1 H2 H3 H4 H5]. constructor; try congruence. intros n Hn. by rewrite <- E5, H5. Qed.

Lemma view_set_twice n x y v : view_eq (view_set n y (view_set n x v)) (view_set n y v).
Proof. repeat split; [done..|]. intros m _. cbn. by destruct (m =? n). Qed.

Definition vs_reg (n : Z) (f : RegisterRules -> RegisterRules) (v : vstate) : vstate :=
  vs_set_frame (view_set n (f (vw_reg (vs_frame v) n)) (vs_frame v)) v.

Definition with_rule (rule offset : Z) (x : RegisterRules) : RegisterRules := set_rr_offset offset (set_rr_rule rule x).

Section step.
Context `{!Relocator}.
Context (r0 : StackFrameRules) (cie : view) (be : bool).

Abbreviation ca := (ru_code_alignment r0).
Abbreviation da := (ru_data_alignment r0).
Abbreviation does := (CfiExec.does r0 cie be).
Abbreviation does_on := (CfiExec.does_on r0 cie be).
Abbreviation cfi_is := (CfiExec.cfi_is r0 cie be).

(** States that mean the same. *)
Definition vs_eq (v w : vstate) : Prop :=
  vs_loc v = vs_loc w /\ view_eq (vs_frame v) (vs_frame w) /\ vs_stack v = vs_stack w.

Lemma cfi_is_eq s v w : vs_eq v w -> cfi_is s v -> cfi_is s w.
Proof.
  intros (E1 & E2 & E3) [H1 H2 H3 H4 H5 H6]. constructor; try done; [by rewrite <- E1|by eapply view_is_eq|by rewrite <- E3|].
  rewrite <- E3. done.
Qed.

Lemma does_eq {A} (m : M Cfi A) p l v a v' w : does m p l v a v' -> vs_eq v' w -> does m p l v a w.
Proof. intros Hm HE s Hs HL Hp. destruct (Hm s Hs HL Hp) as (s' & E & H1 & D). exists s'. split_and!; [done|by eapply cfi_is_eq|done]. Qed.

Lemma does_on_eq {A} n (m : M Cfi A) p l v a v' w : does_on n m p l v a v' -> vs_eq v' w -> does_on n m p l v a w.
Proof.
  intros Hm HE s Hs Hn HL Hp. destruct (Hm s Hs Hn HL Hp) as (s' & E & H1 & H2 & D).
  exists s'. split_and!; [done|by eapply cfi_is_eq|done|done].
Qed.

Lemma does_on_does {A} n (m : M Cfi A) p l v a v' : 0 <= n < 2 ^ 31 -> does_on n m p l v a v' ->
  does (get_frame_reg n ;; m) p l v a v'.
Proof. intros Hn Hm. by apply (does_get_frame_reg _ _ _ n (fun _ => m)). Qed.

Lemma put_rule_does n rule offset p l x v : 0 <= n < 2 ^ 31 -> (forall v, does_on n offset p l v x v) ->
  does_on n (put_rule n rule offset) p l v tt (vs_reg n (with_rule rule x) v).
Proof.
  intros Hn Ho. unfold put_rule. eapply does_on_eq.
  - eapply does_on_then; [by apply does_on_change|]. eapply does_on_last; [apply Ho|].
    by apply (does_on_change r0 cie be n (set_rr_offset x)).
  - split_and!; [done| |done]. cbn. rewrite Z.eqb_refl. apply view_set_twice.
Qed.

Lemma set_rule_does n rule offset p l x v : 0 <= n < 2 ^ 31 -> (forall v, does_on n offset p l v x v) ->
  does (set_rule n rule offset) p l v tt (vs_reg n (with_rule rule x) v).
Proof. intros Hn Ho. apply does_on_does; [done|]. by apply put_rule_does. Qed.

(** *** Operands *)

Lemma does_on_uleb n x p v : in_u 32 x -> does_on n uleb p (uleb128 x) v x v.
Proof. intros. by apply does_on_io, reads_dio_uleb. Qed.

Lemma does_on_sleb n x p v : in_s 32 x -> does_on n sleb p (sleb128 x) v x v.
Proof. intros. by apply does_on_io, reads_dio_sleb. Qed.

Lemma s32_small x : in_s 32 x -> s32 x = x.
Proof. unfold in_s, wraps. intros Hx. rewrite Z.mod_small by lia. lia. Qed.

Lemma factored_does n x p v : offset_u da x = true -> does_on n factored p (uleb128 x) v (x * da) v.
Proof.
  unfold offset_u, fits_u, fits. intros Hx. eapply does_on_last; [apply does_on_uleb; unfold in_u; lia|].
  eapply does_on_then; [apply does_on_rules|]. cbn [ru_data_alignment set_ru_location].
  rewrite s32_small by (unfold in_s; lia). apply does_on_ret.
Qed.

Lemma product_does n x p v : in_s 32 (x * da) -> does_on n (product_s x) p [] v (x * da) v.
Proof.
  unfold in_s. intros Hx. eapply does_on_then; [apply does_on_rules|]. cbn [ru_data_alignment set_ru_location].
  eapply does_on_then; [apply does_on_assert; lia|]. apply does_on_ret.
Qed.

Lemma factored_sf_does n x p v : offset_s da x = true -> does_on n factored_sf p (sleb128 x) v (x * da) v.
Proof.
  unfold offset_s, fits. intros Hx. eapply does_on_last; [apply does_on_sleb; unfold in_s; lia|].
  apply product_does. unfold in_s. lia.
Qed.

Lemma product_does' x p v : in_s 32 (x * da) -> does (product_s x) p [] v (x * da) v.
Proof.
  unfold in_s. intros Hx. eapply cfi_does_then; [apply does_rules|]. cbn [ru_data_alignment set_ru_location].
  eapply cfi_does_then; [apply cfi_does_assert; lia|]. apply cfi_does_ret.
Qed.

Lemma factored_sf_does' x p v : offset_s da x = true -> does factored_sf p (sleb128 x) v (x * da) v.
Proof.
  unfold offset_s, fits. intros Hx. eapply cfi_does_last; [apply does_sleb; unfold in_s; lia|].
  apply product_does'. unfold in_s. lia.
Qed.

(** *** Blocks *)

Lemma block_len e : block_ok e = true -> in_u 32 (zlen e) /\ zlen e < 2 ^ 31 /\ is_bytes e.
Proof.
  unfold block_ok, fits_u. intros He. apply andb_true_iff in He as [Hb Hl]. split; [unfold in_u; lia|]. split; [lia|].
  apply Forall_forall. intros b Hin. rewrite forallb_forall in Hb. specialize (Hb b ltac:(by apply list_elem_of_In)). unfold is_byte. lia.
Qed.

Definition with_block (rule len pos : Z) (x : RegisterRules) : RegisterRules := set_rr_expression pos (with_rule rule len x).

Lemma set_rule_block_does n rule e p v : 0 <= n < 2 ^ 31 -> block_ok e = true ->
  does (set_rule_block n rule) p (block e) v tt (vs_reg n (with_block rule (zlen e) (p + zlen (uleb128 (zlen e)))) v).
Proof.
  intros Hn He. destruct (block_len e He) as (H1 & H2 & H3). pose proof (zlen_nonneg e) as H0.
  apply does_on_does; [done|]. eapply does_on_eq.
  - eapply does_on_bind; [apply put_rule_does; [done|]|].
    { intros w. eapply does_on_last; [by apply does_on_uleb|]. rewrite s32_small by (unfold in_s; lia). apply does_on_ret. }
    eapply does_on_then; [apply does_on_pos|]. eapply does_on_then; [by apply does_on_change|].
    eapply does_on_then; [by apply does_on_get_reg|]. cbn. rewrite !Z.eqb_refl. apply does_on_io, reads_dio_skip.
  - split_and!; [done| |done]. cbn. rewrite ?Z.eqb_refl. apply view_set_twice.
Qed.

(** *** Rows of the CIE, and the frame address *)

Lemma restore_reg_does n p v : 0 <= n < 2 ^ 31 -> does (restore_reg n) p [] v tt (vs_reg n (fun _ => vw_reg cie n) v).
Proof.
  intros Hn. apply does_on_does; [done|]. eapply does_on_then.
  - rewrite s32_small by (unfold in_s; lia). intros s Hs Hr HL Hp.
    destruct (does_cie_reg r0 cie be n p v ltac:(lia) s Hs HL Hp) as (s' & E & H1 & D). exists s'. split_and!; try done.
    unfold cie_reg in E. rewrite (bind_ok get _ s s s eq_refl), (bind_ok (put _) _ s tt _ eq_refl) in E.
    destruct (reg_of _ _); [|done]. by injection E as _ <-.
  - by apply (does_on_change r0 cie be n (fun _ => vw_reg cie n)).
Qed.

Definition vs_cfa (f : view -> view) (v : vstate) : vstate := vs_set_frame (f (vs_frame v)) v.

Lemma change_cfa_does f g p v : (forall rgs w, view_is r0 rgs w -> view_is r0 (f rgs) (g w)) ->
  does (change_cfa f) p [] v tt (vs_cfa g v).
Proof. intros Hf. apply does_modify. intros s [H1 H2 H3 H4 H5 H6]. split; [|done]. constructor; try done. cbn. by apply Hf. Qed.

Lemma set_cfa_rule_does x p v :
  does (set_cfa_rule x) p [] v tt (vs_cfa (fun w => view_cfa x (vw_offset w) (vw_register w) (vw_expression w) w) v).
Proof. apply change_cfa_does. intros rgs w [H1 H2 H3 H4 H5]. by constructor. Qed.
Lemma set_cfa_offset_does x p v :
  does (set_cfa_offset x) p [] v tt (vs_cfa (fun w => view_cfa (vw_rule w) x (vw_register w) (vw_expression w) w) v).
Proof. apply change_cfa_does. intros rgs w [H1 H2 H3 H4 H5]. by constructor. Qed.
Lemma set_cfa_register_does x p v :
  does (set_cfa_register x) p [] v tt (vs_cfa (fun w => view_cfa (vw_rule w) (vw_offset w) x (vw_expression w) w) v).
Proof. apply change_cfa_does. intros rgs w [H1 H2 H3 H4 H5]. by constructor. Qed.
Lemma set_cfa_expression_does x p v :
  does (set_cfa_expression x) p [] v tt (vs_cfa (fun w => view_cfa (vw_rule w) (vw_offset w) (vw_register w) x w) v).
Proof. apply change_cfa_does. intros rgs w [H1 H2 H3 H4 H5]. by constructor. Qed.
(** *** Remembered rows *)

Lemma grow_stack_keeps fuel n l k x : l !! k = Some x -> grow_stack fuel n l !! k = Some x.
Proof.
  revert l. induction fuel as [|fuel IH]; intros l E; [done|]. cbn [grow_stack]. destruct (_ <=? _); [|done].
  apply IH. by rewrite lookup_app_l by (by eapply lookup_lt_Some).
Qed.

Lemma grow_stack_enough fuel n l : n - zlen l < Z.of_nat fuel -> n < zlen (grow_stack fuel n l).
Proof.
  revert l. induction fuel as [|fuel IH]; intros l Hf; [cbn in *; lia|]. cbn [grow_stack]. destruct (Z.leb_spec (zlen l) n); [|done].
  apply IH. rewrite zlen_app. unfold zlen. rewrite length_replicate. destruct (Nat.eqb_spec (length l) 0); unfold zlen in *; lia.
Qed.

Lemma stack_item_eq n s : 0 <= n ->
  exists x l, get_regs_stack_item n s = (Ok x, set_cf_regs_stack l s) /\ znth l n = Some x /\
    (forall k x, cf_regs_stack s !! k = Some x -> l !! k = Some x).
Proof.
  intros Hn. unfold get_regs_stack_item. rewrite (bind_ok get _ s s s eq_refl), (bind_ok (put _) _ s tt _ eq_refl).
  set (l := grow_stack _ _ _). pose proof (zlen_nonneg (cf_regs_stack s)).
  destruct (znth_Some l n) as [x E]; [split; [done|]; subst l; apply grow_stack_enough; lia|].
  exists x, l. rewrite E. split_and!; [done|done|]. intros k y Hk. by apply grow_stack_keeps.
Qed.

Lemma remember_does p v : does remember_state p [] v tt (vs_set_stack (vs_frame v :: vs_stack v) v).
Proof.
  intros s Hs _ _. destruct Hs as [H1 H2 H3 H4 H5 H6]. unfold remember_state.
  rewrite (bind_ok get _ s s s eq_refl), (bind_ok (put _) _ s tt _ eq_refl). pose proof (zlen_nonneg (vs_stack v)) as H0.
  destruct (stack_item_eq (cf_regs_stack_pos s) (set_cf_regs_stack_pos (cf_regs_stack_pos s + 1) s) ltac:(lia)) as (x & l & E & Hx & Hk).
  rewrite (bind_ok _ _ _ _ _ E). eexists. split; [done|]. change (zlen []) with 0. rewrite further_0. split; [|done].
  constructor; try done.
  - cbn. rewrite H4. zlia.
  - cbn [vs_stack vs_set_stack cf_regs_stack set_cf_regs_stack]. intros k y Hy. rewrite reverse_cons in Hy. unfold znth in Hx. rewrite (proj2 (Z.leb_le _ _)) in Hx by lia.
    apply lookup_lt_Some in Hx. rewrite H4 in *. unfold zlen in *. rewrite Nat2Z.id in *.
    destruct (decide (k = length (vs_stack v))) as [->|Hne].
    + rewrite lookup_app_r, length_reverse, Nat.sub_diag in Hy by (rewrite length_reverse; lia). injection Hy as <-.
      rewrite list_lookup_insert_eq by done. eexists. split; [done|]. by apply copy_view; [cbn; rewrite H1|cbn; rewrite H1|].
    + rewrite lookup_app_l in Hy.
      2:{ apply lookup_lt_Some in Hy. rewrite length_app, !length_reverse in Hy. rewrite length_reverse. cbn in Hy. lia. }
      destruct (H5 k y Hy) as (rgs & Er & Hr). exists rgs. rewrite list_lookup_insert_ne by done. split; [by apply Hk|done].
Qed.

Lemma restore_does p v w l : vs_stack v = w :: l -> does restore_state p [] v tt (vs_set_stack l (vs_set_frame w v)).
Proof.
  intros Ev s Hs _ _. destruct Hs as [H1 H2 H3 H4 H5 H6]. unfold restore_state. rewrite (bind_ok get _ s s s eq_refl).
  rewrite Ev, zlen_cons in H4. pose proof (zlen_nonneg l) as H0. rewrite (proj2 (Z.leb_gt _ _)) by lia.
  rewrite (bind_ok (put _) _ s tt _ eq_refl). rewrite Ev, reverse_cons in H5.
  destruct (stack_item_eq (cf_regs_stack_pos s - 1) (set_cf_regs_stack_pos (cf_regs_stack_pos s - 1) s) ltac:(lia)) as (x & m & E & Hx & Hk).
  rewrite (bind_ok _ _ _ _ _ E). eexists. split; [done|]. change (zlen []) with 0. rewrite further_0. split; [|done].
  destruct (H5 (length l) w) as (rgs & Er & Hr); [by rewrite lookup_app_r, length_reverse, Nat.sub_diag by (rewrite length_reverse; lia)|].
  assert (Ex : x = rgs).
  { unfold znth in Hx. rewrite (proj2 (Z.leb_le _ _)) in Hx by lia. rewrite H4 in Hx. unfold zlen in Hx.
    replace (Z.to_nat (Z.of_nat (length l) + 1 - 1)) with (length l) in Hx by lia. rewrite (Hk _ _ Er) in Hx. congruence. }
  subst x. constructor; try done.
  - by apply copy_view; [cbn; rewrite H1|cbn; rewrite H1|].
  - cbn. lia.
  - cbn [vs_stack vs_set_stack vs_set_frame cf_regs_stack set_cf_regs_stack set_cf_frame_regs]. intros k y Hy. destruct (H5 k y) as (rgs' & Er' & Hr'); [by rewrite lookup_app_l by (by eapply lookup_lt_Some)|].
    exists rgs'. split; [by apply Hk|done].
Qed.

(** ** The instructions *)

(** [p] is the position of the code of the instruction. *)
Definition vstep (p : Z) (i : instr) (v : vstate) : vstate :=
  let block_reg r rule e :=
    vs_reg r (with_block rule (zlen e) (p + 1 + zlen (uleb128 r) + zlen (uleb128 (zlen e)))) v in
  let cfa f := vs_cfa f v in
  match i with
  | INop | IArgsSize _ => v
  | IAdvance _ n => vs_set_loc (u64 (vs_loc v + n * ca)) v
  | IOffset _ r n | IOffsetSf r n => vs_reg r (with_rule RULE_OFFSET (n * da)) v
  | INegOffset r n => vs_reg r (with_rule RULE_OFFSET (- n * da)) v
  | IValOffset r n | IValOffsetSf r n => vs_reg r (with_rule RULE_VAL_OFFSET (n * da)) v
  | IRestore _ r => vs_reg r (fun _ => vw_reg cie r) v
  | IUndefined r => vs_reg r (fun _ => no_rule) v
  | ISameValue r => vs_reg r (set_rr_rule RULE_SAME_VALUE) v
  | IRegister r r' => vs_reg r (with_rule RULE_REGISTER r') v
  | IExpression r e => block_reg r RULE_EXPRESSION e
  | IValExpression r e => block_reg r RULE_VAL_EXPRESSION e
  | IRemember => vs_set_stack (vs_frame v :: vs_stack v) v
  | IRestoreState => match vs_stack v with w :: l => vs_set_stack l (vs_set_frame w v) | [] => v end
  | IDefCfa r n => cfa (fun w => view_cfa RULE_OFFSET n r (vw_expression w) w)
  | IDefCfaSf r n => cfa (fun w => view_cfa RULE_OFFSET (n * da) r (vw_expression w) w)
  | IDefCfaRegister r => cfa (fun w => view_cfa RULE_OFFSET (vw_offset w) r (vw_expression w) w)
  | IDefCfaOffset n => cfa (fun w => view_cfa RULE_OFFSET n (vw_register w) (vw_expression w) w)
  | IDefCfaOffsetSf n => cfa (fun w => view_cfa RULE_OFFSET (n * da) (vw_register w) (vw_expression w) w)
  | IDefCfaExpression e => cfa (fun w => view_cfa RULE_EXPRESSION (zlen e) (vw_register w) (p + 1 + zlen (uleb128 (zlen e))) w)
  end.

Lemma decode_advance n : 0 <= n < 64 -> decode_cfa (64 + n) = CFA_advance_loc n.
Proof.
  intros Hn. assert (HB : forall_below 64 (fun n => match decode_cfa (64 + n) with CFA_advance_loc m => m =? n | _ => false end) = true)
    by (vm_compute; reflexivity).
  pose proof (forall_below_spec _ _ HB n Hn) as E. cbv beta in E.
  destruct (decode_cfa _); try done. by apply Z.eqb_eq in E as ->.
Qed.

Lemma decode_offset n : 0 <= n < 64 -> decode_cfa (128 + n) = CFA_offset n.
Proof.
  intros Hn. assert (HB : forall_below 64 (fun n => match decode_cfa (128 + n) with CFA_offset m => m =? n | _ => false end) = true)
    by (vm_compute; reflexivity).
  pose proof (forall_below_spec _ _ HB n Hn) as E. cbv beta in E.
  destruct (decode_cfa _); try done. by apply Z.eqb_eq in E as ->.
Qed.

Lemma decode_restore n : 0 <= n < 64 -> decode_cfa (192 + n) = CFA_restore n.
Proof.
  intros Hn. assert (HB : forall_below 64 (fun n => match decode_cfa (192 + n) with CFA_restore m => m =? n | _ => false end) = true)
    by (vm_compute; reflexivity).
  pose proof (forall_below_spec _ _ HB n Hn) as E. cbv beta in E.
  destruct (decode_cfa _); try done. by apply Z.eqb_eq in E as ->.
Qed.

(** The code of an operation and its operands. *)
Lemma exec_op_does op l fa p v v' : is_byte op -> does (exec_cfa (decode_cfa op) fa) (p + 1) l v tt v' ->
  does (exec_stack_frame_instruction fa) p (op :: l) v tt v'.
Proof. intros Ho He. change (op :: l) with ([op] ++ l). eapply cfi_does_bind; [by apply does_io, reads_dio_u1|exact He]. Qed.

(** A register number, then an operand. *)
Lemma reg_operand_does (f : Z -> M Cfi unit) r k p v v' : reg_ok false r = true ->
  (0 <= r < 2 ^ 31 -> does (f r) (p + zlen (uleb128 r)) k v tt v') -> does (n ← uleb; f n) p (uleb128 r ++ k) v tt v'.
Proof.
  unfold reg_ok, fits_u. intros Hr Hf. eapply cfi_does_bind; [apply does_uleb; unfold in_u; lia|]. apply Hf. lia.
Qed.

Lemma fits_s32 x : fits 32 x = true -> in_s 32 x.
Proof. unfold fits, in_s. lia. Qed.

Lemma advance_does n p v : fits_u 32 (n * ca) = true ->
  does (advance n) p [] v tt (vs_set_loc (u64 (vs_loc v + n * ca)) v).
Proof.
  unfold fits_u. intros Hn. eapply does_eq; [apply cfi_does_advance|]. rewrite (wrapu_small 32) by lia. by split_and!.
Qed.

(** A decoded operation, whose code is a byte. *)
Ltac op := eapply exec_op_does; [unfold is_byte; lia|].
Ltac code := match goal with |- does (exec_cfa (decode_cfa ?c) _) _ _ _ _ _ =>
  let o := eval vm_compute in (decode_cfa c) in change (decode_cfa c) with o end; cbn [exec_cfa].

(** The execution of an instruction does what [vstep] says. *)
Lemma exec_does fa p i v : instr_ok ca da i = true -> (i = IRestoreState -> vs_stack v <> []) ->
  does (exec_stack_frame_instruction fa) p (encode be i) v tt (vstep p i v).
Proof.
  intros Hi Hst. destruct i as [|k n|short r n|r n|r n|r n|r n|short r|r|r|r r'|r e|r e| | |r n|r n|r|n|n|e|n]; cbn [instr_ok encode] in *;
    rewrite ?andb_true_iff in Hi.
  - op. code. apply cfi_does_ret.
  - destruct Hi as [[H1 H2] H3]. apply bool_decide_eq_true_1 in H2. rewrite !elem_of_cons, elem_of_nil in H2.
    unfold fits_u in H1. destruct H2 as [->|[->|[->|[->|[]]]]]; op.
    + rewrite decode_advance by lia. by apply advance_does.
    + change (2 ^ (8 * Z.of_nat 1)) with 256 in H1. code. eapply cfi_does_last; [|by apply advance_does]. apply does_io. rewrite number_byte by (unfold is_byte; lia).
      apply reads_dio_u1. unfold is_byte. lia.
    + change (2 ^ (8 * Z.of_nat 2)) with 65536 in H1. code. eapply cfi_does_last; [|by apply advance_does].
      apply does_io, (reads_dio_u be 2); [lia|]. change (0 <= n < 65536). lia.
    + change (2 ^ (8 * Z.of_nat 4)) with 4294967296 in H1. code. eapply cfi_does_last; [|by apply advance_does].
      apply does_io, (reads_dio_u be 4); [lia|]. change (0 <= n < 4294967296). lia.
  - destruct Hi as [H1 H2]. destruct short; [unfold reg_ok, fits_u in H1|]; op.
    + rewrite decode_offset by lia. cbn [exec_cfa].
      apply set_rule_does; [lia|]. intros w. by apply factored_does.
    + code. apply reg_operand_does; [done|]. intros Hr. apply set_rule_does; [lia|]. intros w. by apply factored_does.
  - destruct Hi as [H1 H2]. op. code. apply reg_operand_does; [done|]. intros Hr. apply set_rule_does; [lia|]. intros w.
    by apply factored_sf_does.
  - destruct Hi as [[[H1 H2] H3] H4]. op. code. apply reg_operand_does; [done|]. intros Hr. apply set_rule_does; [lia|]. intros w.
    unfold offset_s in H2. apply andb_true_iff in H2 as [H2 _]. eapply does_on_last; [by apply does_on_sleb, fits_s32|].
    eapply does_on_then; [apply does_on_assert; unfold fits in *; lia|]. by apply product_does, fits_s32.
  - destruct Hi as [H1 H2]. op. code. apply reg_operand_does; [done|]. intros Hr. apply set_rule_does; [lia|]. intros w. by apply factored_does.
  - destruct Hi as [H1 H2]. op. code. apply reg_operand_does; [done|]. intros Hr. apply set_rule_does; [lia|]. intros w.
    by apply factored_sf_does.
  - unfold reg_ok, fits_u in Hi. destruct short; op.
    + rewrite decode_restore by lia. cbn [exec_cfa]. apply restore_reg_does. lia.
    + code. rewrite <- (app_nil_r (uleb128 r)). apply reg_operand_does; [unfold reg_ok, fits_u; lia|]. intros Hr. by apply restore_reg_does.
  - op. code. rewrite <- (app_nil_r (uleb128 r)). apply reg_operand_does; [done|]. intros Hr. apply does_on_does; [done|].
    by apply does_on_change.
  - op. code. rewrite <- (app_nil_r (uleb128 r)). apply reg_operand_does; [done|]. intros Hr. apply does_on_does; [done|].
    by apply does_on_change.
  - destruct Hi as [H1 H2]. unfold reg_ok, fits_u in H2. op. code. apply reg_operand_does; [done|]. intros Hr.
    apply set_rule_does; [lia|]. intros w. eapply does_on_last; [apply does_on_uleb; unfold in_u; lia|].
    rewrite s32_small by (unfold in_s; lia). apply does_on_ret.
  - destruct Hi as [H1 H2]. op. code. apply reg_operand_does; [done|]. intros Hr. by apply set_rule_block_does.
  - destruct Hi as [H1 H2]. op. code. apply reg_operand_does; [done|]. intros Hr. by apply set_rule_block_does.
  - op. code. apply remember_does.
  - specialize (Hst eq_refl). cbn [vstep]. destruct (vs_stack v) as [|w l] eqn:E; [done|]. op. code. by apply restore_does.
  - destruct Hi as [H1 H2]. unfold fits_u in H2. op. code. eapply cfi_does_then; [apply set_cfa_rule_does|].
    apply reg_operand_does; [done|]. intros Hr. eapply cfi_does_then; [apply set_cfa_register_does|].
    eapply cfi_does_last; [apply does_uleb; unfold in_u; lia|]. rewrite s32_small by (unfold in_s; lia). apply set_cfa_offset_does.
  - destruct Hi as [H1 H2]. op. code. eapply cfi_does_then; [apply set_cfa_rule_does|].
    apply reg_operand_does; [done|]. intros Hr. eapply cfi_does_then; [apply set_cfa_register_does|].
    eapply cfi_does_last; [by apply factored_sf_does'|]. apply set_cfa_offset_does.
  - op. code. eapply cfi_does_then; [apply set_cfa_rule_does|]. rewrite <- (app_nil_r (uleb128 r)).
    apply reg_operand_does; [done|]. intros Hr. apply set_cfa_register_does.
  - unfold fits_u in Hi. op. code. eapply cfi_does_then; [apply set_cfa_rule_does|].
    eapply cfi_does_last; [apply does_uleb; unfold in_u; lia|]. rewrite s32_small by (unfold in_s; lia). apply set_cfa_offset_does.
  - op. code. eapply cfi_does_then; [apply set_cfa_rule_does|]. eapply cfi_does_last; [by apply factored_sf_does'|]. apply set_cfa_offset_does.
  - destruct (block_len e Hi) as (H1 & H2 & H3). pose proof (zlen_nonneg e) as H0. op. code. eapply cfi_does_then; [apply set_cfa_rule_does|].
    eapply cfi_does_bind; [by apply does_uleb|]. rewrite s32_small by (unfold in_s; lia).
    eapply cfi_does_then; [apply set_cfa_offset_does|]. eapply cfi_does_then; [apply does_pos|].
    eapply cfi_does_then; [apply set_cfa_expression_does|]. apply does_io, reads_dio_skip.
  - unfold fits_u in Hi. op. code. eapply cfi_does_last; [apply does_uleb; unfold in_u; lia|]. apply cfi_does_ret.
Qed.
End step.
