(* ===== verification/CfiRun.v ===== *)
(** * Call frame information: rows and programs

    The views that the execution has are rows of the specification: [row_is].  The
    instructions of an entry, executed up to an address, find the line of the table
    that has the address. *)

From S2P Require Import Prelude ByteSource DwarfIo DwarfCfi CfiSpec CfiExec CfiStep.

(** ** Views as rows *)

(** The bytes [e] are at the position [p] of the section. *)
Record block_at (d : bytes) (p n : Z) (e : bytes) : Prop := {
  ba_len : n = zlen e;
  ba_low : 0 <= p;
  ba_high : p + zlen e <= zlen d;
  ba_bytes : slice d p (p + zlen e) = e;
  ba_ok : block_ok e = true;
}.

Definition rule_is (d : bytes) (x : RegisterRules) (u : rule) : Prop :=
  match u with
  | Undefined => rr_rule x = 0
  | SameValue => rr_rule x = RULE_SAME_VALUE
  | Offset n => rr_rule x = RULE_OFFSET /\ rr_offset x = n
  | ValOffset n => rr_rule x = RULE_VAL_OFFSET /\ rr_offset x = n
  | Register r => rr_rule x = RULE_REGISTER /\ rr_offset x = r
  | Expression e => rr_rule x = RULE_EXPRESSION /\ block_at d (rr_expression x) (rr_offset x) e
  | ValExpression e => rr_rule x = RULE_VAL_EXPRESSION /\ block_at d (rr_expression x) (rr_offset x) e
  end.

Definition cfa_is (d : bytes) (v : view) (c : cfa) : Prop :=
  match c with
  | NoCfa => vw_rule v = 0
  | CfaOffset r n => vw_rule v = RULE_OFFSET /\ vw_register v = r /\ vw_offset v = n
  | CfaExpression e => vw_rule v = RULE_EXPRESSION /\ block_at d (vw_expression v) (vw_offset v) e
  end.

Record row_is (d : bytes) (v : view) (w : row) : Prop := {
  ri_cfa : cfa_is d v (row_cfa w);
  ri_rule n : 0 <= n -> rule_is d (vw_reg v n) (row_rule w n);
}.

Record rows_are (d : bytes) (v : vstate) (s : cstate) : Prop := {
  ra_row : row_is d (vs_frame v) (cs_row s);
  ra_stack : Forall2 (row_is d) (vs_stack v) (cs_stack s);
}.

Lemma row_is_set d v w n f u : (0 <= n -> rule_is d (f (vw_reg v n)) u) -> row_is d v w ->
  row_is d (view_set n (f (vw_reg v n)) v) (set_rule_of n u w).
Proof.
  intros Hu [H1 H2]. constructor; [by destruct w as [[]]|]. intros m Hm. cbn. destruct (Z.eqb_spec m n) as [->|]; auto.
Qed.

Lemma rows_are_reg d v s s' n f u : rows_are d v s -> (0 <= n -> rule_is d (f (vw_reg (vs_frame v) n)) u) ->
  on_row (set_rule_of n u) s = Some s' -> rows_are d (vs_reg n f v) s'.
Proof. intros [H1 H2] Hu [= <-]. constructor; [|done]. by apply row_is_set. Qed.

Lemma rows_are_cfa d v s s' f c : rows_are d v s -> cfa_is d (f (vs_frame v)) c -> (forall w n, vw_reg (f w) n = vw_reg w n) ->
  on_row (set_cfa_of c) s = Some s' -> rows_are d (vs_cfa f v) s'.
Proof. intros [[H1 H2] H3] Hc Hf [= <-]. constructor; [|done]. constructor; [done|]. intros n Hn. cbn. rewrite Hf. by apply H2. Qed.

Lemma rule_with_offset d rule offset x u :
  (forall y, rr_rule y = rule -> rr_offset y = offset -> rule_is d y u) -> rule_is d (with_rule rule offset x) u.
Proof. intros Hy. by apply Hy. Qed.

(** The bytes of an instruction that end with a block. *)
Lemma slice_block d p l e : 0 <= p -> p + zlen (l ++ e) <= zlen d -> slice d p (p + zlen (l ++ e)) = l ++ e ->
  block_ok e = true -> block_at d (p + zlen l) (zlen e) e.
Proof.
  intros Hp Hl E He. pose proof (zlen_nonneg l). pose proof (zlen_nonneg e). rewrite zlen_app, Z.add_assoc in E. rewrite zlen_app in Hl.
  constructor; [done|lia|lia| |done]. rewrite slice_drop, E by lia. unfold zdrop, zlen. by rewrite Nat2Z.id, drop_app_length.
Qed.

(** The block of an instruction: behind its code and the register, if there is one. *)
Lemma encoded_block d p op l e : 0 <= p -> p + zlen (op :: l ++ block e) <= zlen d ->
  slice d p (p + zlen (op :: l ++ block e)) = op :: l ++ block e -> block_ok e = true ->
  block_at d (p + 1 + zlen l + zlen (uleb128 (zlen e))) (zlen e) e.
Proof.
  unfold block. intros Hp Hl E He. replace (op :: l ++ uleb128 (zlen e) ++ e) with ((op :: l ++ uleb128 (zlen e)) ++ e) in *
    by (cbn; by rewrite <- app_assoc).
  pose proof (slice_block d p _ e Hp Hl E He) as HB. rewrite zlen_cons, zlen_app in HB.
  by replace (p + 1 + zlen l + zlen (uleb128 (zlen e))) with (p + (zlen l + zlen (uleb128 (zlen e)) + 1)) by lia.
Qed.

(** The meaning of an instruction on views is that on rows. *)
Lemma vstep_row r0 cie be d p i v s s' initial : 0 <= p -> p + zlen (encode be i) <= zlen d ->
  slice d p (p + zlen (encode be i)) = encode be i -> instr_ok (ru_code_alignment r0) (ru_data_alignment r0) i = true ->
  row_is d cie initial -> rows_are d v s -> step_row (ru_data_alignment r0) initial i s = Some s' ->
  rows_are d (vstep r0 cie p i v) s'.
Proof.
  intros Hp Hl HE Hi Hc Hr Hs. destruct i as [|k n|short r n|r n|r n|r n|r n|short r|r|r|r r'|r e|r e| | |r n|r n|r|n|n|e|n];
    cbn [step_row vstep encode instr_ok] in *;
    try (by eapply rows_are_reg; [done| |exact Hs]; intros Hn; cbn);
    try (by eapply rows_are_cfa; [done| |done|exact Hs]; cbn);
    try (by destruct (row_cfa (cs_row s)) eqn:Ec; try done; eapply rows_are_cfa; [exact Hr| |done|exact Hs];
         pose proof (ri_cfa _ _ _ (ra_row _ _ _ Hr)) as H; rewrite Ec in H; cbn; naive_solver).
  - by injection Hs as <-.
  - injection Hs as <-. by destruct Hr.
  - eapply rows_are_reg; [done| |exact Hs]. intros Hn. by apply Hc.
  - apply andb_true_iff in Hi as [_ Hi]. eapply rows_are_reg; [done| |exact Hs]. intros Hn. split; [done|]. by eapply encoded_block.
  - apply andb_true_iff in Hi as [_ Hi]. eapply rows_are_reg; [done| |exact Hs]. intros Hn. split; [done|]. by eapply encoded_block.
  - injection Hs as <-. destruct Hr. by constructor; [|constructor].
  - destruct Hr as [H1 H2]. destruct (cs_stack s) as [|w l] eqn:E1; [done|]. inversion H2 as [|w' ? l' ? H3 H4 E2]; subst.
    injection Hs as <-. by constructor.
  - eapply rows_are_cfa; [done| |done|exact Hs]. split; [done|]. pose proof (encoded_block d p 15 [] e Hp Hl HE Hi) as HB.
    change (zlen []) with 0 in HB. by rewrite Z.add_0_r in HB.
  - by injection Hs as <-.
Qed.

(** The implied rules are the initial row. *)
Lemma implied_is d machine rar n : rule_is d (implied_rule machine rar n) (implied machine rar n).
Proof.
  unfold implied. set (x := implied_rule machine rar n).
  assert (HX : rr_rule x = RULE_SAME_VALUE \/ (rr_rule x = RULE_VAL_OFFSET /\ rr_offset x = 0) \/ rr_rule x = RULE_REGISTER \/ rr_rule x = 0).
  { subst x. unfold implied_rule. repeat case_match; cbn; tauto. }
  destruct HX as [E|[[E1 E2]|[E|E]]]; rewrite ?E, ?E1; done.
Qed.

(** ** Call frame information: programs

    A program of instructions in a section: all of it is executed, as in a CIE, or
    as much as is needed to find the line of an address, as in an FDE. *)

Lemma encode_nonempty be i : (0 < length (encode be i))%nat.
Proof. destruct i as [|[|[|[|k]]] n|[] r n|r n|r n|r n|r n|[] r|r|r|r r'|r e|r e| | |r n|r n|r|n|n|e|n]; cbn; lia. Qed.

Lemma encode_all_cons be i p : encode_all be (i :: p) = encode be i ++ encode_all be p.
Proof. done. Qed.

Lemma encode_all_length be p : (length p <= length (encode_all be p))%nat.
Proof.
  induction p as [|i p IH]; [done|]. rewrite encode_all_cons, length_app. pose proof (encode_nonempty be i). cbn [length]. lia.
Qed.

(** What is ahead is a part of the data. *)
Lemma data_at_here s l : data_at s l ->
  slice (io_data s) (io_pos s) (io_pos s + zlen l) = l /\ io_pos s + zlen l <= zlen (io_data s).
Proof.
  intros HL. pose proof (data_at_slice s l HL) as E. unfold mem_read in E. destruct (_ && _) eqn:EC; [|done].
  injection E as E. rewrite !andb_true_iff in EC. unfold slice. replace (io_pos s + zlen l - io_pos s) with (zlen l) by lia.
  split; [done|lia].
Qed.

Section run.
Context `{!Relocator}.
Context (r0 : StackFrameRules) (cie : view) (be : bool) (d : bytes) (initial : row).
Context (Hcie : row_is d cie initial).

Abbreviation ca := (ru_code_alignment r0).
Abbreviation da := (ru_data_alignment r0).
Abbreviation cfi_is := (CfiExec.cfi_is r0 cie be).

Lemma vstep_loc p i v : vs_loc (vstep r0 cie p i v) = match i with IAdvance _ _ => u64 (vs_loc v + step_loc ca i) | _ => vs_loc v end.
Proof. destruct i; try done. cbn. by destruct (vs_stack v). Qed.

(** One instruction. *)
Lemma exec_one fa i l s v st st' : instr_ok ca da i = true -> step_row da initial i st = Some st' ->
  cfi_is s v -> rows_are d v st -> data_at (cf_io s) (encode be i ++ l) -> io_data (cf_io s) = d ->
  let v' := vstep r0 cie (io_pos (cf_io s)) i v in
  exists s', exec_stack_frame_instruction fa s = (Ok tt, s') /\ cfi_is s' v' /\ rows_are d v' st' /\
    cf_io s' = further (zlen (encode be i)) (cf_io s) /\ data_at (cf_io s') l.
Proof.
  intros Hi Hst Hs Hr HL Hd v'. apply data_at_app in HL as [HL1 HL2].
  destruct (data_at_here _ _ HL1) as [HE HZ]. rewrite Hd in *.
  pose proof (data_at_pos _ _ HL1) as Hp.
  destruct (exec_does r0 cie be fa (io_pos (cf_io s)) i v Hi) with (s := s) as (s' & E & H1 & D); [|done|done|done|].
  - intros -> E. destruct Hr as [_ Hr]. rewrite E in Hr. cbn [step_row] in Hst. destruct (cs_stack st); [done|]. inversion Hr.
  - exists s'. split_and!; [done|done| |done|by rewrite D]. eapply (vstep_row r0 cie be d); [lia|lia|exact HE|exact Hi|exact Hcie|exact Hr|exact Hst].
Qed.

(** *** All of a program *)

Lemma exec_until_runs fa prog : forall fuel limit s v st st', run_rows da initial prog st = Some st' ->
  forallb (instr_ok ca da) prog = true -> cfi_is s v -> rows_are d v st -> data_at (cf_io s) (encode_all be prog) ->
  io_data (cf_io s) = d -> limit = io_pos (cf_io s) + zlen (encode_all be prog) -> (length prog < fuel)%nat ->
  exists s' v', exec_until fuel limit fa s = (Ok tt, s') /\ cfi_is s' v' /\ rows_are d v' st' /\
    cf_io s' = further (zlen (encode_all be prog)) (cf_io s).
Proof.
  induction prog as [|i prog IH]; intros fuel limit s v st st' Hst Hok Hs Hr HL Hd Hlim Hf; (destruct fuel as [|fuel]; [cbn in Hf; lia|]);
    cbn [exec_until]; rewrite (bind_ok (io dio_GetPos) _ s (io_pos (cf_io s)) s) by (by destruct s).
  - injection Hst as <-. change (zlen (encode_all be [])) with 0 in *. rewrite (proj2 (Z.ltb_ge _ _)) by lia.
    exists s, v. split_and!; try done. by rewrite further_0.
  - cbn [run_rows forallb] in *. apply andb_true_iff in Hok as [Hi Hok]. apply bind_Some in Hst as (st1 & Hst1 & Hst).
    rewrite encode_all_cons in *. pose proof (encode_nonempty be i) as Hne. pose proof (zlen_nonneg (encode_all be prog)).
    destruct (exec_one fa i (encode_all be prog) s v st st1 Hi Hst1 Hs Hr HL Hd) as (s1 & E1 & H1 & H2 & D1 & HL1).
    rewrite (proj2 (Z.ltb_lt _ _)) by (rewrite zlen_app in Hlim; unfold zlen in *; lia). rewrite (bind_ok _ _ _ _ _ E1).
    destruct (IH fuel limit s1 _ st1 st' Hst Hok H1 H2 HL1) as (s' & v' & E & H3 & H4 & D);
      [by rewrite D1|rewrite D1; cbn; zlia|cbn in Hf; lia|].
    exists s', v'. split_and!; [done|done|done|]. rewrite D, D1, zlen_app. exact (src_ahead_add (S := Dio) _ _ _).
Qed.

(** *** As much as is needed *)

Lemma last_loc_ge prog loc : forallb (instr_ok ca da) prog = true -> loc <= last_loc ca prog loc.
Proof.
  clear Hcie. revert loc. induction prog as [|i prog IH]; intros loc Hok; [cbn; lia|]. cbn [forallb] in Hok. apply andb_true_iff in Hok as [Hi Hok].
  specialize (IH (loc + step_loc ca i) Hok). change (last_loc ca (i :: prog) loc) with (last_loc ca prog (loc + step_loc ca i)).
  assert (0 <= step_loc ca i); [|lia]. destruct i; cbn [step_loc]; try lia. cbn [instr_ok] in Hi. unfold fits_u in Hi.
  rewrite !andb_true_iff in Hi. lia.
Qed.

Lemma step_loc_ge i : instr_ok ca da i = true -> 0 <= step_loc ca i.
Proof.
  intros Hi. pose proof (last_loc_ge [i] 0) as HG. cbn in HG. rewrite Hi in HG. specialize (HG eq_refl). lia.
Qed.

(** The lines of a table. *)
Lemma table_bounds prog : forall loc limit st lines, table ca da initial prog loc limit st = Some lines ->
  forallb (instr_ok ca da) prog = true -> forall ln, ln ∈ lines -> loc <= ln_start ln /\ ln_end ln <= Z.max limit (last_loc ca prog loc).
Proof.
  induction prog as [|i prog IH]; intros loc limit st lines HT Hok ln Hin.
  - injection HT as <-. apply list_elem_of_singleton in Hin as ->. cbn. lia.
  - cbn [forallb table] in *. apply andb_true_iff in Hok as [Hi Hok]. apply bind_Some in HT as (st1 & _ & HT).
    apply bind_Some in HT as (l & HT & Hl). pose proof (step_loc_ge i Hi) as H0. pose proof (last_loc_ge prog (loc + step_loc ca i) Hok) as HG.
    change (last_loc ca (i :: prog) loc) with (last_loc ca prog (loc + step_loc ca i)).
    assert (HL : ln ∈ l -> loc <= ln_start ln /\ ln_end ln <= Z.max limit (last_loc ca prog (loc + step_loc ca i))).
    { intros Hl'. specialize (IH _ _ _ _ HT Hok ln Hl'). lia. }
    destruct i; try (injection Hl as <-; by apply HL). injection Hl as <-. apply elem_of_cons in Hin as [->|Hin]; [|by apply HL].
    cbn [ln_start ln_end]; cbn [step_loc] in *; lia.
Qed.

(** The state [s'] has the row of the line [ln]. *)
Record at_line (s s' : Cfi) (ln : line) (v : vstate) : Prop := {
  al_is : cfi_is s' v;
  al_end : vs_loc v = ln_end ln;
  al_row : row_is d (vs_frame v) (ln_row ln);
  al_io : exists n, 0 <= n /\ cf_io s' = further n (cf_io s);
}.

Lemma at_line_further s s1 s' ln v n : 0 <= n -> cf_io s1 = further n (cf_io s) -> at_line s1 s' ln v -> at_line s s' ln v.
Proof.
  intros Hn D [H1 H2 H3 (m & Hm & D')]. constructor; try done. exists (n + m). split; [lia|]. rewrite D', D.
  exact (src_ahead_add (S := Dio) _ _ _).
Qed.

Lemma table_cons i prog loc limit st st' : step_row da initial i st = Some st' ->
  table ca da initial (i :: prog) loc limit st =
    (l ← table ca da initial prog (loc + step_loc ca i) limit st';
     Some (match i with
           | IAdvance _ _ => {| ln_start := loc; ln_end := loc + step_loc ca i; ln_row := cs_row st |} :: l
           | _ => l
           end)).
Proof. intros E. cbn [table]. by rewrite E. Qed.

(** The end of the entry: the last line. *)
Lemma exec_row_end fuel ip fde_end addr range s v st : cfi_is s v -> rows_are d v st -> fde_end <= io_pos (cf_io s) ->
  0 <= addr + range < 2 ^ 64 ->
  exists s', exec_row (S fuel) ip fde_end addr range (vs_loc v) s = (Ok (vs_loc v), s') /\
    at_line s s' {| ln_start := vs_loc v; ln_end := addr + range; ln_row := cs_row st |} (vs_set_loc (addr + range) v).
Proof.
  intros Hs Hr Hp Hl. cbn [exec_row]. rewrite (bind_ok (io dio_GetPos) _ s (io_pos (cf_io s)) s) by (by destruct s).
  rewrite (proj2 (Z.leb_le _ _)) by lia. rewrite (wrapu_small 64) by lia. eexists. split; [done|].
  destruct Hs as [H1 H2 H3 H4 H5 H6]. constructor; try done.
  - constructor; try done. cbn. by rewrite H1.
  - by destruct Hr.
  - exists 0. split; [lia|]. by rewrite further_0.
Qed.

(** One instruction of an entry. *)
Lemma exec_row_step fuel ip fde_end addr range s s1 loc v : io_pos (cf_io s) < fde_end -> loc <= ip ->
  exec_stack_frame_instruction addr s = (Ok tt, s1) -> cfi_is s1 v ->
  exec_row (S fuel) ip fde_end addr range loc s =
    if ip <? vs_loc v then (Ok loc, s1) else exec_row fuel ip fde_end addr range (vs_loc v) s1.
Proof.
  intros Hp Hl E Hs. cbn [exec_row]. rewrite (bind_ok (io dio_GetPos) _ s (io_pos (cf_io s)) s) by (by destruct s).
  rewrite (proj2 (Z.leb_gt _ _)), (bind_ok _ _ _ _ _ E), (proj2 (Z.leb_le loc ip)) by lia. cbn [assertm]. rewrite ret_bind.
  unfold rules. rewrite (bind_ok (gets _) _ s1 _ s1 eq_refl), (ci_rules _ _ _ _ _ Hs). cbn [ru_location set_ru_location].
  by destruct (ip <? vs_loc v).
Qed.

Lemma exec_row_finds ip addr range prog : forall fuel fde_end s v st lines,
  table ca da initial prog (vs_loc v) (addr + range) st = Some lines -> forallb (instr_ok ca da) prog = true ->
  cfi_is s v -> rows_are d v st -> data_at (cf_io s) (encode_all be prog) ->
  io_data (cf_io s) = d -> fde_end = io_pos (cf_io s) + zlen (encode_all be prog) -> (length prog < fuel)%nat ->
  0 <= vs_loc v <= ip -> ip < addr + range < 2 ^ 64 -> last_loc ca prog (vs_loc v) < 2 ^ 64 ->
  exists s' ln v', exec_row fuel ip fde_end addr range (vs_loc v) s = (Ok (ln_start ln), s') /\ ln ∈ lines /\
    ln_start ln <= ip < ln_end ln /\ at_line s s' ln v'.
Proof.
  induction prog as [|i prog IH]; intros fuel fde_end s v st lines HT Hok Hs Hr HL Hd Hend Hf Hip Hlim Hlast;
    (destruct fuel as [|fuel]; [cbn in Hf; lia|]).
  - injection HT as <-. change (zlen (encode_all be [])) with 0 in *.
    destruct (exec_row_end fuel ip fde_end addr range s v st Hs Hr) as (s' & E & HA); [lia|lia|].
    exists s', {| ln_start := vs_loc v; ln_end := addr + range; ln_row := cs_row st |}, (vs_set_loc (addr + range) v).
    split; [exact E|]. split; [by apply list_elem_of_singleton|]. split; [cbn; lia|exact HA].
  - cbn [forallb] in Hok. apply andb_true_iff in Hok as [Hi Hok]. rewrite encode_all_cons in *.
    pose proof (encode_nonempty be i) as Hne. pose proof (zlen_nonneg (encode_all be prog)) as H0.
    destruct (step_row da initial i st) as [st1|] eqn:Hst; [|cbn [table] in HT; by rewrite Hst in HT].
    rewrite (table_cons _ _ _ _ _ _ Hst) in HT. apply bind_Some in HT as (l & HT & Hl).
    pose proof (last_loc_ge (i :: prog) (vs_loc v)) as HG. cbn [forallb] in HG. rewrite Hi in HG. specialize (HG Hok).
    pose proof (last_loc_ge prog (vs_loc v + step_loc ca i) Hok) as HG'.
    change (last_loc ca (i :: prog) (vs_loc v)) with (last_loc ca prog (vs_loc v + step_loc ca i)) in *.
    assert (H1 : 0 <= step_loc ca i) by (pose proof (last_loc_ge [i] 0) as HG1; cbn in HG1; rewrite Hi in HG1; specialize (HG1 eq_refl); lia).
    destruct (exec_one addr i (encode_all be prog) s v st st1 Hi Hst Hs Hr HL Hd) as (s1 & E1 & Hs1 & Hr1 & D1 & HL1).
    set (v1 := vstep r0 cie (io_pos (cf_io s)) i v) in *.
    assert (Hv1 : vs_loc v1 = vs_loc v + step_loc ca i).
    { subst v1. rewrite vstep_loc. destruct i; try (cbn; lia). apply wrapu_small. lia. }
    erewrite exec_row_step; [|rewrite zlen_app in Hend; unfold zlen in *; lia|lia|exact E1|exact Hs1]. rewrite Hv1.
    destruct (Z.ltb_spec ip (vs_loc v + step_loc ca i)) as [Hlt|Hge].
    + destruct i; try (cbn [step_loc] in Hlt; lia). injection Hl as <-. injection Hst as <-.
      eexists s1, {| ln_start := vs_loc v; ln_end := vs_loc v + step_loc ca (IAdvance k n); ln_row := cs_row st |}, v1.
      split; [done|]. split; [by left|]. split; [cbn [ln_start ln_end]; lia|].
      constructor; [done|done|by destruct Hr1|]. eexists. split; [|exact D1]. apply zlen_nonneg.
    + rewrite <- Hv1 in *.
      destruct (IH fuel fde_end s1 v1 st1 l HT Hok Hs1 Hr1 HL1) as (s' & ln & v' & E & Hin & Hln & HA);
        [by rewrite D1|rewrite D1; cbn; zlia|cbn in Hf; lia|lia|lia|lia|].
      exists s', ln, v'. split; [exact E|]. split; [by destruct i; injection Hl as <-; try done; right|]. split; [done|].
      eapply at_line_further; [|exact D1|exact HA]. apply zlen_nonneg.
Qed.
End run.
