(* ===== verification/CfiEntry.v ===== *)
(** * Call frame information: entries of a section

    How entries are encoded: CIEs with their augmentation, FDEs with the pointers to
    their code; and that the readers find in an entry what has been encoded. *)

From S2P Require Import Prelude ByteSource DwarfIo DwarfCfi CfiSpec CfiExec CfiStep CfiRun.

(** ** Specification of entries *)

(** A pointer: the low four bits of its encoding are the format of the number. *)
Definition ptr_bytes (be : bool) (asz : nat) (enc x : Z) : bytes :=
  let f := Z.land enc 15 in
  if f =? EH_PE_absptr then number be asz x
  else if f =? EH_PE_uleb128 then uleb128 x
  else if f =? EH_PE_sleb128 then sleb128 x
  else if (f =? EH_PE_udata2) || (f =? EH_PE_sdata2) then number be 2 (u16 x)
  else if (f =? EH_PE_udata4) || (f =? EH_PE_sdata4) then number be 4 (u32 x)
  else number be 8 (u64 x).

Definition ptr_fits (asz : nat) (enc x : Z) : bool :=
  let f := Z.land enc 15 in
  if f =? EH_PE_absptr then fits_u (8 * Z.of_nat asz) x
  else if f =? EH_PE_uleb128 then fits_u 64 x
  else if f =? EH_PE_sleb128 then fits 64 x
  else if f =? EH_PE_udata2 then fits_u 16 x
  else if f =? EH_PE_udata4 then fits_u 32 x
  else if f =? EH_PE_udata8 then fits_u 64 x
  else if f =? EH_PE_sdata2 then fits 16 x
  else if f =? EH_PE_sdata4 then fits 32 x
  else if f =? EH_PE_sdata8 then fits 64 x
  else false.

(** Encodings without alignment and indirection. *)
Definition enc_ok (enc : Z) : bool := fits_u 7 enc && (Z.land (Z.shiftr enc 4) 7 <=? 4).

(** What is added to the number: the position [p] of the pointer, or the address
    of a section. *)
Definition ptr_base (sec : ELF_Section) (text : option ELF_Section) (enc p : Z) : Z :=
  let b := Z.land (Z.shiftr enc 4) 7 in
  if b =? EH_PB_pcrel then u64 (p + es_addr sec)
  else if b =? EH_PB_datarel then es_addr sec
  else if b =? EH_PB_textrel then match text with Some t => es_addr t | None => 0 end
  else 0.

(** The letters of an augmentation that starts with z: the encoding of the LSDA, the
    personality routine, the encoding of addresses, and letters without data. *)
Inductive aug :=
| AugL (enc : Z)
| AugP (enc x : Z)
| AugR (enc : Z)
| AugS (c : Z).

Definition aug_letter (a : aug) : Z := match a with AugL _ => #"L" | AugP _ _ => #"P" | AugR _ => #"R" | AugS c => c end.

Definition aug_data (be : bool) (asz : nat) (a : aug) : bytes :=
  match a with
  | AugL e => [e]
  | AugP e x => e :: ptr_bytes be asz e x
  | AugR e => [e]
  | AugS _ => []
  end.

Definition aug_ok (asz : nat) (a : aug) : bool :=
  match a with
  | AugL e => fits_u 8 e
  | AugP e x => enc_ok e && ptr_fits asz e x
  | AugR e => enc_ok e
  | AugS c => fits_u 8 c && negb (c =? 0) && negb (c =? #"L") && negb (c =? #"P") && negb (c =? #"R")
  end.

Record cie := {
  c_64 : bool;
  c_version : Z;
  c_asz : Z;
  c_ca : Z;
  c_da : Z;
  c_rar : Z;
  c_aug : option (list aug);
  c_prog : list instr;
}.

Record fde := {
  f_64 : bool;
  f_addr : Z;
  f_range : Z;
  f_aug : bytes;
  f_prog : list instr;
}.

(** The length of an entry, of [n] bytes behind it. *)
Definition length_bytes (be is64 : bool) (n : Z) : bytes :=
  if is64 then number be 4 (2 ^ 32 - 1) ++ number be 8 n else number be 4 n.

Definition ref_bytes (be is64 : bool) (n : Z) : bytes := number be (if is64 then 8 else 4) n.

(** The identifier of a CIE. *)
Definition cie_id (eh is64 : bool) : Z := if eh then 0 else if is64 then 2 ^ 64 - 1 else 2 ^ 32 - 1.

Definition aug_string (c : cie) : bytes := match c_aug c with Some l => #"z" :: map aug_letter l | None => [] end.

Section entries.
Context (be : bool) (asz : nat).

Definition aug_block (l : list aug) : bytes := mjoin (map (aug_data be asz) l).

(** The parts of a CIE behind its identifier. *)
Definition version_bytes (c : cie) : bytes := c_version c :: aug_string c ++ [0].
Definition size_bytes (c : cie) : bytes := if 4 <=? c_version c then [c_asz c; 0] else [].
Definition factor_bytes (c : cie) : bytes := uleb128 (c_ca c) ++ sleb128 (c_da c) ++ uleb128 (c_rar c).
Definition aug_bytes (c : cie) : bytes :=
  match c_aug c with Some l => uleb128 (zlen (aug_block l)) ++ aug_block l | None => [] end.

Definition cie_body (c : cie) : bytes :=
  (version_bytes c ++ size_bytes c ++ factor_bytes c ++ aug_bytes c) ++ encode_all be (c_prog c).

Definition cie_bytes (eh : bool) (c : cie) : bytes :=
  length_bytes be (c_64 c) (zlen (ref_bytes be (c_64 c) 0 ++ cie_body c)) ++
  ref_bytes be (c_64 c) (cie_id eh (c_64 c)) ++ cie_body c.

(** The encoding of addresses that the CIE gives. *)
Definition cie_enc (c : cie) : Z :=
  match c_aug c with Some l => fold_left (fun e a => match a with AugR e => e | _ => e end) l 0 | None => 0 end.

Definition fde_aug_bytes (c : cie) (f : fde) : bytes :=
  match c_aug c with Some _ => uleb128 (zlen (f_aug f)) ++ f_aug f | None => [] end.

Definition fde_body (c : cie) (f : fde) : bytes :=
  ptr_bytes be asz (cie_enc c) (f_addr f) ++ ptr_bytes be asz (cie_enc c) (f_range f) ++
  fde_aug_bytes c f ++ encode_all be (f_prog f).

(** The entry at [pos] refers to the CIE at [cpos]: the reference counts from its
    own place in .eh_frame. *)
Definition fde_ref (eh is64 : bool) (pos cpos : Z) : Z := if eh then pos + (if is64 then 12 else 4) - cpos else cpos.

Definition fde_bytes (eh : bool) (pos cpos : Z) (c : cie) (f : fde) : bytes :=
  length_bytes be (f_64 f) (zlen (ref_bytes be (f_64 f) 0 ++ fde_body c f)) ++
  ref_bytes be (f_64 f) (fde_ref eh (f_64 f) pos cpos) ++ fde_body c f.

Definition length_ok (is64 : bool) (n : Z) : bool := fits_u 62 n && (is64 || (n <? 2 ^ 32 - 1)).

Definition cie_ok (c : cie) : bool :=
  ((c_version c =? 1) || (c_version c =? 3) || (c_version c =? 4)) && fits_u 8 (c_asz c) &&
  fits_u 32 (c_ca c) && fits 32 (c_da c) && fits_u 31 (c_rar c) &&
  match c_aug c with
  | Some l => forallb (aug_ok asz) l && fits_u 32 (zlen (aug_block l)) && fits_u 32 (zlen (aug_string c))
  | None => true
  end &&
  forallb (instr_ok (c_ca c) (c_da c)) (c_prog c) &&
  length_ok (c_64 c) (zlen (ref_bytes be (c_64 c) 0 ++ cie_body c)).

Definition fde_ok (c : cie) (f : fde) : bool :=
  ptr_fits asz (cie_enc c) (f_addr f) && ptr_fits asz (cie_enc c) (f_range f) && (0 <=? f_range f) &&
  forallb (fun b => fits_u 8 b) (f_aug f) && fits_u 32 (zlen (f_aug f)) &&
  forallb (instr_ok (c_ca c) (c_da c)) (f_prog f) &&
  length_ok (f_64 f) (zlen (ref_bytes be (f_64 f) 0 ++ fde_body c f)).

(** The row of a CIE, and the table of an FDE at the address [addr]. *)
Definition cie_row (machine : Z) (c : cie) : option row :=
  let r := start_row machine (c_rar c) in
  cs_row <$> run_rows (c_da c) r (c_prog c) {| cs_row := r; cs_stack := [] |}.

Definition fde_table (machine : Z) (c : cie) (f : fde) (addr : Z) : option (list line) :=
  r ← cie_row machine c;
  table (c_ca c) (c_da c) r (f_prog f) addr (addr + f_range f) {| cs_row := r; cs_stack := [] |}.
End entries.

(** ** Readers of the parts *)

Lemma fits_in_s w x : fits w x = true -> in_s w x.
Proof. unfold fits, in_s. lia. Qed.
Lemma fits_in_u w x : fits_u w x = true -> in_u w x.
Proof. unfold fits_u, in_u. lia. Qed.

Section reading.
Context `{!Relocator}.
Context (be : bool) (asz : nat) (sec : ELF_Section).
Context (Hasz : asz = 4%nat \/ asz = 8%nat) (Hrel : es_relocate sec = false).

(** The current section. *)
Record in_section (s : Dio) : Prop := {
  is_sec : io_section s = Some sec;
  is_be : io_big_endian s = be;
  is_asz : io_address_size s = Z.of_nat asz;
  is_len : io_len s = es_size sec;
}.

Lemma in_section_further s n : in_section s -> in_section (further n s).
Proof. intros []. by constructor. Qed.

(** [m] reads [l] at the position [p], with the rules [r], which become [r']. *)
Definition takes {A} (p : Z) (r : StackFrameRules) (m : M Cfi A) (l : bytes) (a : A) (r' : StackFrameRules) : Prop :=
  forall s, cf_rules s = r -> in_section (cf_io s) -> data_at (cf_io s) l -> io_pos (cf_io s) = p ->
  m s = (Ok a, set_cf_rules r' (set_cf_io (further (zlen l) (cf_io s)) s)).

Lemma takes_ret {A} p r (a : A) : takes p r (mret a) [] a r.
Proof. intros s <- _ _ _. change (zlen []) with 0. rewrite further_0. by destruct s. Qed.

Lemma takes_bind {A B} p r m l (a : A) r1 (f : A -> M Cfi B) k b r2 :
  takes p r m l a r1 -> takes (p + zlen l) r1 (f a) k b r2 -> takes p r (m ≫= f) (l ++ k) b r2.
Proof.
  intros Hm Hf s Hr Hs HL Hp. apply data_at_app in HL as [HL1 HL2]. rewrite (bind_ok _ _ _ _ _ (Hm s Hr Hs HL1 Hp)).
  rewrite (Hf (set_cf_rules r1 (set_cf_io (further (zlen l) (cf_io s)) s))); [|done|by apply in_section_further|done|cbn; by rewrite Hp].
  assert (E : further (zlen k) (further (zlen l) (cf_io s)) = further (zlen l + zlen k) (cf_io s)) by exact (src_ahead_add (S := Dio) _ _ _).
  cbn [cf_io set_cf_io set_cf_rules]. rewrite E, <- zlen_app. done.
Qed.

Lemma takes_then {A B} p r m (a : A) r1 (f : A -> M Cfi B) k b r2 :
  takes p r m [] a r1 -> takes p r1 (f a) k b r2 -> takes p r (m ≫= f) k b r2.
Proof. intros Hm Hf. change k with ([] ++ k). eapply takes_bind; [exact Hm|]. change (zlen []) with 0. by rewrite Z.add_0_r. Qed.

Lemma takes_last {A B} p r m l (a : A) r1 (f : A -> M Cfi B) b r2 :
  takes p r m l a r1 -> takes (p + zlen l) r1 (f a) [] b r2 -> takes p r (m ≫= f) l b r2.
Proof. intros Hm Hf. rewrite <- (app_nil_r l). by eapply takes_bind. Qed.

Lemma takes_rules p r : takes p r rules [] r r.
Proof. intros s <- _ _ _. change (zlen []) with 0. rewrite further_0. by destruct s. Qed.

Lemma takes_change p r f : takes p r (change_rules f) [] tt (f r).
Proof. intros s <- _ _ _. change (zlen []) with 0. rewrite further_0. by destruct s. Qed.

Lemma takes_pos p r : takes p r (io dio_GetPos) [] p r.
Proof. intros s <- _ _ <-. change (zlen []) with 0. rewrite further_0. by destruct s as [[]]. Qed.

Lemma takes_assert p r b : b = true -> takes p r (assertm b) [] tt r.
Proof. intros ->. apply takes_ret. Qed.

(** A reader of the section that relies on it. *)
Lemma takes_io {A} p r (m : M Dio A) l a :
  (forall s, in_section s -> data_at s l -> io_pos s = p -> m s = (Ok a, further (zlen l) s)) -> takes p r (io m) l a r.
Proof. intros Hm s <- Hs HL Hp. unfold io. rewrite (Hm _ Hs HL Hp). by destruct s. Qed.

Lemma takes_reads {A} p r (m : M Dio A) l a : reads_as be m l a -> takes p r (io m) l a r.
Proof. intros Hm. apply takes_io. intros s Hs HL _. by apply Hm; [apply Hs|]. Qed.

Lemma takes_u1 p r x : is_byte x -> takes p r (io dio_ReadU1) [x] x r.
Proof. intros. by apply takes_reads, reads_dio_u1. Qed.

(** ** Pointers *)

Lemma address_x_reads n x s : n = 2%nat \/ n = 4%nat \/ n = 8%nat -> in_u (8 * Z.of_nat n) x -> in_section s -> data_at s (number be n x) ->
  dio_ReadAddressX (Z.of_nat n) s = (Ok (x, None), further (Z.of_nat n) s).
Proof.
  intros Hn Hx Hs HL. unfold dio_ReadAddressX. rewrite (bind_ok get _ s s s eq_refl), (is_sec _ Hs). cbn [of_option]. rewrite ret_bind.
  pose proof (reads_dio_u be n x ltac:(lia) Hx s (is_be _ Hs) HL) as E. rewrite zlen_number in E.
  destruct Hn as [->|[->| ->]].
  - change (Z.of_nat 2) with 2 in *. cbn [Z.eqb Pos.eqb]. unfold dio_ReadU2. rewrite (bind_ok _ _ _ _ _ E). unfold drl_relocate. by rewrite Hrel.
  - change (Z.of_nat 4) with 4 in *. cbn [Z.eqb Pos.eqb]. unfold dio_ReadU4. rewrite (bind_ok _ _ _ _ _ E). unfold drl_relocate. by rewrite Hrel.
  - change (Z.of_nat 8) with 8 in *. cbn [Z.eqb Pos.eqb]. unfold dio_ReadU8. rewrite (bind_ok _ _ _ _ _ E). unfold drl_relocate. by rewrite Hrel.
Qed.

Lemma sized_reads n conv x s : n = 2%nat \/ n = 4%nat \/ n = 8%nat -> conv (wrapu (8 * Z.of_nat n) x) = x -> in_section s ->
  data_at s (number be n (wrapu (8 * Z.of_nat n) x)) ->
  ('(x, s) ← dio_ReadAddressX (Z.of_nat n); mret (conv x, s)) s = (Ok (x, None), further (zlen (number be n (wrapu (8 * Z.of_nat n) x))) s).
Proof.
  intros Hn Hx Hs HL. rewrite (bind_ok _ _ _ _ _ (address_x_reads n _ s Hn ltac:(apply in_u_wrap; lia) Hs HL)).
  rewrite Hx. by rewrite zlen_number.
Qed.

Lemma pointer_value_reads enc x s : ptr_fits asz enc x = true -> in_section s -> data_at s (ptr_bytes be asz enc x) ->
  pointer_value enc s = (Ok (x, None), further (zlen (ptr_bytes be asz enc x)) s).
Proof.
  unfold ptr_fits, ptr_bytes, pointer_value. generalize (Z.land enc 15) as f. intros f Hx Hs HL.
  assert (HU : forall w, 0 <= w -> fits_u w x = true -> id (wrapu w x) = x) by (intros; by apply wrapu_small, fits_in_u).
  assert (HS : forall w, 0 < w -> fits w x = true -> wraps w (wrapu w x) = x) by (intros; by apply wraps_wrapu, fits_in_s).
  destruct (f =? EH_PE_absptr).
  { unfold dio_ReadAddress. rewrite (bind_ok get _ s s s eq_refl), (is_asz _ Hs).
    rewrite (address_x_reads asz x) by (tauto || by apply fits_in_u). by rewrite zlen_number. }
  destruct (f =? EH_PE_uleb128).
  { rewrite (bind_ok _ _ _ _ _ (reads_dio_u8leb be x (fits_in_u _ _ Hx) s (is_be _ Hs) HL)). done. }
  destruct (Z.eqb_spec f EH_PE_sleb128) as [Ef|H9].
  { subst f. transitivity ((y ← dio_ReadS8LEB128; mret (y, @None ELF_Section)) s); [done|].
    rewrite (bind_ok _ _ _ _ _ (reads_dio_s8leb be x (fits_in_s _ _ Hx) s (is_be _ Hs) HL)). done. }
  destruct (Z.eqb_spec f EH_PE_udata2) as [Ef|H2]; [subst f; apply (sized_reads 2 id); [tauto|by apply HU|done|done]|].
  destruct (Z.eqb_spec f EH_PE_udata4) as [Ef|H3]; [subst f; apply (sized_reads 4 id); [tauto|by apply HU|done|done]|].
  destruct (Z.eqb_spec f EH_PE_udata8) as [Ef|H4]; [subst f; apply (sized_reads 8 id); [tauto|by apply HU|done|done]|].
  destruct (Z.eqb_spec f EH_PE_sdata2) as [Ef|H5]; [subst f; apply (sized_reads 2 s16); [tauto|by apply HS|done|done]|].
  destruct (Z.eqb_spec f EH_PE_sdata4) as [Ef|H6]; [subst f; apply (sized_reads 4 s32); [tauto|by apply HS|done|done]|].
  destruct (Z.eqb_spec f EH_PE_sdata8) as [Ef|H7]; [subst f; apply (sized_reads 8 s64); [tauto|by apply HS|done|done]|done].
Qed.

(** The section of the rules is the current one. *)
Lemma pointer_base_takes p r enc want : enc_ok enc = true -> ru_section r = Some sec ->
  takes p r (pointer_base enc want 0 p) [] (if want then ptr_base sec (ru_text_section r) enc p else 0) r.
Proof.
  intros He Hr. unfold pointer_base. eapply takes_then; [apply takes_rules|]. rewrite Hr. unfold ptr_base, enc_ok in *.
  set (b := Z.land (Z.shiftr enc 4) 7) in *. assert (Hb : 0 <= b <= 4).
  { apply andb_true_iff in He as [_ He]. split; [|lia]. subst b. apply Z.land_nonneg. by right. }
  unfold EH_PB_pcrel, EH_PB_datarel, EH_PB_textrel, EH_PB_funcrel, EH_PB_aligned in *.
  assert (HB : b = 0 \/ b = 1 \/ b = 2 \/ b = 3 \/ b = 4) by lia.
  destruct HB as [->|[->|[->|[->| ->]]]]; cbn [Z.eqb Pos.eqb orb].
  - destruct want; apply takes_ret.
  - destruct want; [|apply takes_ret]. eapply takes_then; apply takes_ret.
  - destruct want, (ru_text_section r); apply takes_ret.
  - destruct want; apply takes_ret.
  - destruct want; apply takes_ret.
Qed.

Lemma pointer_takes p r enc want x : enc_ok enc = true -> ptr_fits asz enc x = true -> ru_section r = Some sec ->
  takes p r (read_frame_data_pointer enc want 0) (ptr_bytes be asz enc x)
    (u64 ((if want then ptr_base sec (ru_text_section r) enc p else 0) + x), None) r.
Proof.
  intros He Hx Hr. unfold read_frame_data_pointer. pose proof He as He'. unfold enc_ok, fits_u in He'.
  rewrite (proj2 (Z.eqb_neq enc EH_PE_omit)) by (unfold EH_PE_omit; lia).
  eapply takes_then; [apply takes_pos|]. eapply takes_then; [by apply pointer_base_takes|].
  eapply takes_last; [apply takes_io; intros s Hs HL _; by apply pointer_value_reads|]. cbn beta iota.
  replace (Z.land enc EH_PE_indirect =? 0) with true; [apply takes_ret|].
  symmetry. apply Z.eqb_eq. unfold EH_PE_indirect. apply Z.bits_inj'. intros i Hi. rewrite Z.land_spec, Z.bits_0.
  destruct (Z.eq_dec i 7) as [->|Hne]; [rewrite (testbit_small 7) by lia; done|].
  change 128 with (2 ^ 7). rewrite Z.pow2_bits_false by lia. apply andb_false_r.
Qed.
End reading.
