(* ===== verification/CfiFde.v ===== *)
(** * Call frame information: reading entries

    [read_frame_cie] at an encoded CIE: the rules have its factors and encodings,
    and the registers of the CIE are the row that its instructions make.  [find_row]
    at an encoded FDE: the line of its table that has the address. *)

From S2P Require Import Prelude ByteSource DwarfIo DwarfCfi CfiSpec CfiExec CfiStep CfiRun CfiEntry.

Lemma modify_bind {S A} (g : S -> S) (f : unit -> M S A) s : (modify g ≫= f) s = f tt (g s).
Proof. done. Qed.

Lemma rules_bind {A} (f : StackFrameRules -> M Cfi A) s : (rules ≫= f) s = f (cf_rules s) s.
Proof. done. Qed.

Lemma getpos_bind {A} (f : Z -> M Cfi A) s : (io dio_GetPos ≫= f) s = f (io_pos (cf_io s)) s.
Proof. by destruct s. Qed.

(** The bytes [l] are at the position [p]. *)
Record bytes_at (d : bytes) (p : Z) (l : bytes) : Prop := {
  by_low : 0 <= p;
  by_high : p + zlen l <= zlen d;
  by_slice : slice d p (p + zlen l) = l;
}.

Lemma bytes_at_data sec be asz s d l : io_data s = d -> es_size sec = zlen d -> zlen d < 2 ^ 62 -> in_section be asz sec s ->
  bytes_at d (io_pos s) l -> data_at s l.
Proof.
  intros Hd Hz Hs HS [H1 H2 H3]. exists (ztake (io_pos s) d), (zdrop (io_pos s + zlen l) d). pose proof (zlen_nonneg l).
  rewrite (is_len _ _ _ _ HS), Hz, Hd. split_and!; [|rewrite zlen_ztake; lia|lia|done].
  transitivity (ztake (io_pos s) d ++ slice d (io_pos s) (io_pos s + zlen l) ++ zdrop (io_pos s + zlen l) d); [|by rewrite H3].
  unfold slice. replace (io_pos s + zlen l - io_pos s) with (zlen l) by lia.
  replace (zdrop (io_pos s + zlen l) d) with (zdrop (zlen l) (zdrop (io_pos s) d)).
  - unfold ztake, zdrop. by rewrite !take_drop.
  - unfold zdrop. rewrite drop_drop. f_equal. lia.
Qed.

(** The rules after the data of an augmentation, and after a CIE but for its
    instructions. *)
Definition aug_rules (l : list aug) (r : StackFrameRules) : StackFrameRules :=
  fold_left (fun r a => match a with
    | AugL e => set_ru_lsda_encoding e r
    | AugP e _ => set_ru_prh_encoding e r
    | AugR e => set_ru_addr_encoding e r
    | AugS _ => r
    end) l r.

Definition cie_aug_of (c : cie) : option bytes := match c_aug c with Some l => Some (aug_string c) | None => None end.

Definition version_rules (c : cie) (r : StackFrameRules) : StackFrameRules := set_ru_cie_aug (cie_aug_of c) (set_ru_version (c_version c) r).

Definition size_rules (c : cie) (r : StackFrameRules) : StackFrameRules :=
  if 4 <=? c_version c then set_ru_segment_size 0 (set_ru_address_size (c_asz c) r)
  else set_ru_segment_size 0 (set_ru_address_size (if ef_elf64 (ru_file r) then 8 else 4) r).

(** The size of addresses that the CIE gives. *)
Definition cie_asz (file : ELF_File) (c : cie) : Z := if 4 <=? c_version c then c_asz c else if ef_elf64 file then 8 else 4.

Definition factor_rules (c : cie) (r : StackFrameRules) : StackFrameRules :=
  set_ru_addr_encoding 0 (set_ru_prh_encoding 0 (set_ru_lsda_encoding 0
    (set_ru_return_address_register (c_rar c) (set_ru_data_alignment (c_da c) (set_ru_code_alignment (c_ca c) r))))).

Definition cie_rules (c : cie) (r : StackFrameRules) : StackFrameRules :=
  aug_rules (default [] (c_aug c)) (factor_rules c (size_rules c (version_rules c r))).

(** What the rules keep. *)
Record same_scope (r r' : StackFrameRules) : Prop := {
  sc_section : ru_section r' = ru_section r;
  sc_file : ru_file r' = ru_file r;
  sc_text : ru_text_section r' = ru_text_section r;
  sc_eh : ru_eh_frame r' = ru_eh_frame r;
  sc_id_type : ru_id_type r' = ru_id_type r;
}.

Lemma same_scope_refl r : same_scope r r.
Proof. done. Qed.

Lemma same_scope_trans r1 r2 r3 : same_scope r1 r2 -> same_scope r2 r3 -> same_scope r1 r3.
Proof. intros [] []. constructor; congruence. Qed.

Lemma aug_rules_keep l : forall r, let r' := aug_rules l r in same_scope r r' /\
  ru_code_alignment r' = ru_code_alignment r /\ ru_data_alignment r' = ru_data_alignment r /\
  ru_return_address_register r' = ru_return_address_register r /\ ru_cie_pos r' = ru_cie_pos r /\ ru_cie_aug r' = ru_cie_aug r /\
  ru_address_size r' = ru_address_size r /\
  ru_addr_encoding r' = fold_left (fun e a => match a with AugR e => e | _ => e end) l (ru_addr_encoding r).
Proof.
  induction l as [|a l IH]; intros r; [done|]. cbv zeta.
  pose proof (IH (aug_rules [a] r)) as (H1 & H2 & H3 & H4 & H5 & H6 & H8 & H7). change (aug_rules (a :: l) r) with (aug_rules l (aug_rules [a] r)).
  rewrite H2, H3, H4, H5, H6, H8, H7. split_and!; try (by destruct a). eapply same_scope_trans; [|exact H1]. by destruct a.
Qed.

Section reading.
Context `{!Relocator}.
Context (be : bool) (asz : nat) (sec : ELF_Section).
Context (Hasz : asz = 4%nat \/ asz = 8%nat) (Hrel : es_relocate sec = false).

Abbreviation takes := (takes be asz sec).

(** ** Parts of an entry *)

Lemma length_reads is64 n : length_ok is64 n = true -> reads_as be read_length (length_bytes be is64 n) (n, is64).
Proof.
  unfold length_ok, length_bytes, read_length, fits_u. intros Hn. destruct is64.
  - eapply reads_as_bind; [apply (reads_dio_u be 4 (2 ^ 32 - 1)); [lia|unfold in_u; lia]|]. cbn [Z.eqb Pos.eqb]. rewrite Z.eqb_refl.
    apply (reads_as_map be _ (fun n => (n, true))), (reads_dio_u be 8); [lia|]. unfold in_u. lia.
  - rewrite <- (app_nil_r (number be 4 n)). eapply reads_as_bind; [apply (reads_dio_u be 4 n); [lia|unfold in_u; lia]|].
    rewrite (proj2 (Z.eqb_neq _ _)) by lia. apply reads_as_ret.
Qed.

Lemma string_loop_reads l : forall fuel acc, Forall (fun c => is_byte c /\ c <> 0) l -> (length l < fuel)%nat ->
  reads_as be (read_string_loop fuel acc) (l ++ [0]) (acc ++ l).
Proof.
  induction l as [|c l IH]; intros fuel acc Hl Hf; (destruct fuel as [|fuel]; [cbn in Hf; lia|]); cbn [read_string_loop app].
  - change [0] with ([0] ++ []). eapply reads_as_bind; [by apply reads_dio_u1|]. rewrite app_nil_r. apply reads_as_ret.
  - apply Forall_cons in Hl as [[Hc H0] Hl]. change (c :: l ++ [0]) with ([c] ++ l ++ [0]). eapply reads_as_bind; [by apply reads_dio_u1|].
    rewrite (proj2 (Z.eqb_neq _ _)) by done. replace (acc ++ c :: l) with ((acc ++ [c]) ++ l) by (by rewrite <- app_assoc).
    apply IH; [done|cbn in Hf; lia].
Qed.

Lemma string_reads l : Forall (fun c => is_byte c /\ c <> 0) l -> zlen l < 2 ^ 32 ->
  reads_as be dio_ReadString (l ++ [0]) (match l with [] => None | _ => Some l end).
Proof.
  intros Hl Hz. unfold dio_ReadString. apply reads_as_get. intros s Hb HL.
  assert (Hf : (length l < S (length (io_data s)))%nat).
  { destruct (data_at_here _ _ HL) as [_ HE]. pose proof (data_at_pos _ _ HL). unfold zlen in *. rewrite length_app in *. cbn in *. lia. }
  rewrite (bind_ok _ _ _ _ _ (string_loop_reads l _ [] Hl Hf s Hb HL)). rewrite app_nil_l, wrapu_small by (pose proof (zlen_nonneg l); lia).
  destruct l as [|c l]; [done|]. by rewrite (proj2 (Z.eqb_neq _ _)) by (rewrite zlen_cons; pose proof (zlen_nonneg l); lia).
Qed.

(** ** The augmentation *)

Lemma aug_letter_ok a : aug_ok asz a = true -> is_byte (aug_letter a) /\ aug_letter a <> 0.
Proof.
  unfold is_byte. destruct a as [e|e x|e|c]; cbn [aug_letter]; try (intros _; by compute). unfold aug_ok, fits_u. change (2 ^ 8) with 256. lia.
Qed.

Lemma enc_byte e : enc_ok e = true -> is_byte e.
Proof. unfold enc_ok, fits_u, is_byte. change (2 ^ 7) with 128. lia. Qed.

Lemma trap_personality_takes p r e x q : enc_ok e = true -> ptr_fits asz e x = true -> ru_section r = Some sec ->
  takes p r (trap_personality e q) (ptr_bytes be asz e x) tt r.
Proof.
  intros He Hx Hr s Hs Hi HL Hp. unfold trap_personality.
  by rewrite (pointer_takes be asz sec Hasz Hrel p r e false x He Hx Hr s Hs Hi HL Hp).
Qed.

Lemma aug_item_takes p r a : aug_ok asz a = true -> ru_section r = Some sec ->
  takes p r (let c := aug_letter a in
    if c =? #"L" then e ← io dio_ReadU1; change_rules (set_ru_lsda_encoding e)
    else if c =? #"P" then skip_personality
    else if c =? #"R" then e ← io dio_ReadU1; change_rules (set_ru_addr_encoding e)
    else mret tt) (aug_data be asz a) tt (aug_rules [a] r).
Proof.
  intros Ha Hr. destruct a as [e|e x|e|c]; cbn [aug_letter aug_data aug_rules fold_left].
  - eapply takes_last; [apply takes_u1; unfold aug_ok, fits_u in Ha; unfold is_byte; change (2 ^ 8) with 256 in Ha; lia|]. apply takes_change.
  - apply andb_true_iff in Ha as [He Hx]. change (e :: ptr_bytes be asz e x) with ([e] ++ ptr_bytes be asz e x).
    unfold skip_personality. cbv zeta. eapply takes_bind; [by apply takes_u1, enc_byte|].
    eapply takes_then; [apply takes_change|]. eapply takes_then; [apply takes_pos|]. by apply trap_personality_takes.
  - eapply takes_last; [by apply takes_u1, enc_byte|]. apply takes_change.
  - unfold aug_ok in Ha. rewrite !andb_true_iff, !negb_true_iff in Ha. destruct Ha as [[[[_ _] H1] H2] H3]. rewrite H1, H2, H3. apply takes_ret.
Qed.

Lemma augmentation_takes l : forall p r, forallb (aug_ok asz) l = true -> ru_section r = Some sec ->
  takes p r (read_augmentation (map aug_letter l)) (aug_block be asz l) tt (aug_rules l r).
Proof.
  induction l as [|a l IH]; intros p r Hl Hr; [apply takes_ret|]. cbn [forallb] in Hl. apply andb_true_iff in Hl as [Ha Hl].
  cbn [map read_augmentation]. change (aug_block be asz (a :: l)) with (aug_data be asz a ++ aug_block be asz l).
  eapply takes_bind; [by apply aug_item_takes|]. change (aug_rules (a :: l) r) with (aug_rules l (aug_rules [a] r)).
  apply IH; [done|]. by destruct a.
Qed.

(** ** The parts of a CIE *)

(** After [n] bytes. *)
Definition took (n : Z) (r : StackFrameRules) (s : Cfi) : Cfi := set_cf_rules r (set_cf_io (further n (cf_io s)) s).

Lemma took_took m n r1 r2 s : took m r2 (took n r1 s) = took (n + m) r2 s.
Proof. unfold took. cbn [cf_io set_cf_rules set_cf_io]. assert (E : further m (further n (cf_io s)) = further (n + m) (cf_io s)) by exact (src_ahead_add (S := Dio) _ _ _). by rewrite E. Qed.

Lemma setpos_takes p r : takes p r (io (dio_SetPos (u64 p))) [] tt r.
Proof.
  apply takes_io. intros s Hs HL Hp. pose proof (data_at_pos _ _ HL) as HP. change (zlen []) with 0 in *.
  unfold dio_SetPos. rewrite (bind_ok get _ s s s eq_refl), wrapu_small, (proj2 (Z.ltb_ge _ _)), further_0 by lia.
  rewrite <- Hp, set_io_pos_id. done.
Qed.

Lemma cie_end_takes p r is64 n id : length_ok is64 n = true -> 0 <= p -> p + zlen (length_bytes be is64 n) + n < 2 ^ 64 ->
  takes p r ('(cie_length, cie_dwarf64) ← io read_length; start ← io dio_GetPos;
      io (dio_Skip (if (cie_dwarf64 : bool) then 8 else 4)) ;; mret (u64 (start + cie_length)))
    (length_bytes be is64 n ++ ref_bytes be is64 id) (p + zlen (length_bytes be is64 n) + n) r.
Proof.
  intros Hn Hp Hb. pose proof (zlen_nonneg (length_bytes be is64 n)).
  assert (0 <= n) by (unfold length_ok, fits_u in Hn; lia).
  eapply takes_bind; [by apply takes_reads, length_reads|]. cbn beta iota. eapply takes_then; [apply takes_pos|].
  replace (if is64 then 8 else 4) with (zlen (ref_bytes be is64 id)) by (unfold ref_bytes; rewrite zlen_number; by destruct is64).
  eapply takes_last; [apply takes_reads, reads_dio_skip|]. rewrite (wrapu_small 64) by lia. apply takes_ret.
Qed.

Context (c : cie) (Hok : cie_ok be asz c = true).

Lemma cie_ok_parts : (c_version c =? 1) || (c_version c =? 3) || (c_version c =? 4) = true /\ is_byte (c_asz c) /\
  in_u 32 (c_ca c) /\ in_s 32 (c_da c) /\ 0 <= c_rar c < 2 ^ 31 /\
  match c_aug c with
  | Some l => forallb (aug_ok asz) l = true /\ in_u 32 (zlen (aug_block be asz l)) /\ zlen (aug_string c) < 2 ^ 32
  | None => True
  end /\
  forallb (instr_ok (c_ca c) (c_da c)) (c_prog c) = true /\
  length_ok (c_64 c) (zlen (ref_bytes be (c_64 c) 0 ++ cie_body be asz c)) = true.
Proof.
  clear Hasz Hrel. unfold cie_ok in Hok. rewrite !andb_true_iff in Hok. destruct Hok as [[[[[[[H1 H2] H3] H4] H5] H6] H7] H8].
  split_and!; try done.
  - unfold fits_u in H2. unfold is_byte. change (2 ^ 8) with 256 in H2. lia.
  - exact (fits_in_u 32 _ H3).
  - by apply fits_in_s.
  - unfold fits_u in H5. lia.
  - unfold fits_u in H5. lia.
  - destruct (c_aug c); [|done]. rewrite !andb_true_iff in H6. destruct H6 as [[H6 H6'] H6'']. split_and!; [done|by apply fits_in_u|].
    unfold fits_u in H6''. lia.
Qed.

Lemma aug_string_reads : reads_as be dio_ReadString (aug_string c ++ [0]) (cie_aug_of c).
Proof.
  destruct cie_ok_parts as (_ & _ & _ & _ & _ & HA & _). unfold cie_aug_of, aug_string in *.
  destruct (c_aug c) as [l|]; [|by apply (string_reads [])]. destruct HA as (HA & _ & HZ).
  refine (string_reads (#"z" :: map aug_letter l) _ HZ). constructor; [by compute|]. apply Forall_map, Forall_forall.
  intros a Ha. apply aug_letter_ok. rewrite forallb_forall in HA. by apply HA, list_elem_of_In.
Qed.

Lemma version_takes p r : takes p r read_cie_version (version_bytes c) tt (version_rules c r).
Proof.
  destruct cie_ok_parts as (HV & _). unfold read_cie_version, version_bytes.
  change (c_version c :: aug_string c ++ [0]) with ([c_version c] ++ aug_string c ++ [0]).
  eapply takes_bind; [apply takes_u1; unfold is_byte; lia|]. eapply takes_then; [apply takes_change|]. rewrite HV. cbn [negb].
  eapply takes_last; [apply takes_reads, aug_string_reads|]. eapply takes_then; [apply takes_change|].
  replace (is_eh_aug (cie_aug_of c)) with false; [apply takes_ret|].
  unfold cie_aug_of, aug_string, is_eh_aug. by destruct (c_aug c).
Qed.

Lemma sizes_takes p r : ru_version r = c_version c -> takes p r read_cie_sizes (size_bytes c) tt (size_rules c r).
Proof.
  intros Hv. destruct cie_ok_parts as (_ & HA & _). unfold read_cie_sizes, size_bytes, size_rules.
  eapply takes_then; [apply takes_rules|]. rewrite Hv.
  assert (HE : forall q r', ru_segment_size r' = 0 ->
    takes q r' (r ← rules; if negb (ru_segment_size r =? 0) then exception ERR_INV_DWARF else mret tt) [] tt r').
  { intros q r' E. eapply takes_then; [apply takes_rules|]. rewrite E. apply takes_ret. }
  destruct (4 <=? c_version c).
  - eapply takes_last; [|by apply HE]. change [c_asz c; 0] with ([c_asz c] ++ [0]).
    eapply takes_bind; [by apply takes_u1|]. eapply takes_then; [apply takes_change|].
    eapply takes_last; [by apply takes_u1|]. apply takes_change.
  - eapply takes_then; [apply takes_change|]. by apply HE.
Qed.

Lemma factors_takes p r : takes p r read_cie_factors (factor_bytes c) tt (factor_rules c r).
Proof.
  destruct cie_ok_parts as (_ & _ & HC & HD & HR & _). unfold read_cie_factors, factor_bytes, uleb, sleb, factor_rules.
  eapply takes_bind; [by apply takes_reads, reads_dio_uleb|]. eapply takes_then; [apply takes_change|].
  eapply takes_bind; [by apply takes_reads, reads_dio_sleb|]. eapply takes_then; [apply takes_change|].
  eapply takes_last; [apply takes_reads, reads_dio_uleb; unfold in_u; lia|].
  eapply takes_then; [apply takes_change|]. rewrite s32_small by (unfold in_s; lia).
  exact (takes_change be asz sec _ _ (fun r => set_ru_addr_encoding 0 (set_ru_prh_encoding 0 (set_ru_lsda_encoding 0 r)))).
Qed.

Lemma cie_augmentation_takes p r : ru_section r = Some sec -> ru_cie_aug r = cie_aug_of c ->
  takes p r read_cie_augmentation (aug_bytes be asz c) tt (aug_rules (default [] (c_aug c)) r).
Proof.
  intros Hs Ha. destruct cie_ok_parts as (_ & _ & _ & _ & _ & HA & _). unfold read_cie_augmentation, aug_bytes, cie_aug_of, aug_string in *.
  eapply takes_then; [apply takes_rules|]. rewrite Ha. destruct (c_aug c) as [l|]; [|apply takes_ret]. destruct HA as (HA & HL & _).
  cbn [z_aug default]. rewrite Z.eqb_refl. eapply takes_bind; [by apply takes_reads, reads_dio_uleb|]. eapply takes_then; [apply takes_pos|].
  eapply takes_last; [by apply augmentation_takes|]. apply setpos_takes.
Qed.

(** A step that takes bytes in front of others. *)
Lemma takes_step {A} m l (a : A) r' k s : let s' := took (zlen l) r' s in
  in_section be asz sec (cf_io s) -> data_at (cf_io s) (l ++ k) -> takes (io_pos (cf_io s)) (cf_rules s) m l a r' ->
  m s = (Ok a, s') /\ in_section be asz sec (cf_io s') /\ data_at (cf_io s') k.
Proof.
  intros s' Hs HL Hm. apply data_at_app in HL as [HL1 HL2]. split_and!; [|by apply in_section_further|done].
  exact (Hm s eq_refl Hs HL1 eq_refl).
Qed.

(** Everything before the instructions. *)
Lemma cie_head_step {A} (m : M Cfi A) k s : let l := version_bytes c ++ size_bytes c ++ factor_bytes c ++ aug_bytes be asz c in
  let s' := took (zlen l) (cie_rules c (cf_rules s)) s in
  ru_section (cf_rules s) = Some sec -> in_section be asz sec (cf_io s) -> data_at (cf_io s) (l ++ k) ->
  (read_cie_version ;; read_cie_sizes ;; read_cie_factors ;; read_cie_augmentation ;; m) s = m s' /\
  in_section be asz sec (cf_io s') /\ data_at (cf_io s') k.
Proof.
  intros l s' Hr Hs HL. subst l. rewrite <- !app_assoc in HL.
  destruct (takes_step _ _ _ _ _ _ Hs HL (version_takes _ _)) as (E1 & Hs1 & HL1). rewrite (bind_ok _ _ _ _ _ E1). clear E1.
  destruct (takes_step _ _ _ _ _ _ Hs1 HL1 (sizes_takes _ (version_rules c (cf_rules s)) eq_refl)) as (E1 & Hs2 & HL2).
  rewrite (bind_ok _ _ _ _ _ E1). clear E1. rewrite took_took in *.
  destruct (takes_step _ _ _ _ _ _ Hs2 HL2 (factors_takes _ _)) as (E1 & Hs3 & HL3). rewrite (bind_ok _ _ _ _ _ E1). clear E1.
  rewrite took_took in *. set (r3 := factor_rules c _) in *.
  assert (HA : ru_section r3 = Some sec /\ ru_cie_aug r3 = cie_aug_of c)
    by (subst r3; cbn; unfold size_rules; by destruct (4 <=? c_version c)).
  destruct (takes_step _ _ _ _ _ _ Hs3 HL3 (cie_augmentation_takes _ r3 (proj1 HA) (proj2 HA))) as (E1 & Hs4 & HL4).
  rewrite (bind_ok _ _ _ _ _ E1). clear E1. rewrite took_took, <- !zlen_app, <- !app_assoc in *. done.
Qed.

(** ** Its instructions *)

Context (d : bytes) (Hd : es_size sec = zlen d) (Hsize : zlen d < 2 ^ 62).

(** The CIE is the one that the rules and the registers of the CIE are of. *)
Record cie_ready (s : Cfi) : Prop := {
  cr_ca : ru_code_alignment (cf_rules s) = c_ca c;
  cr_da : ru_data_alignment (cf_rules s) = c_da c;
  cr_rar : ru_return_address_register (cf_rules s) = c_rar c;
  cr_enc : ru_addr_encoding (cf_rules s) = cie_enc c;
  cr_aug : ru_cie_aug (cf_rules s) = cie_aug_of c;
  cr_asz : ru_address_size (cf_rules s) = cie_asz (ru_file (cf_rules s)) c;
  cr_row w : cie_row (ru_machine (cf_rules s)) c = Some w -> exists v, view_is (cf_rules s) (cf_cie_regs s) v /\ row_is d v w;
}.

Lemma view_is_location x r rgs v : view_is r rgs v -> view_is (set_ru_location x r) rgs v.
Proof. intros []. by constructor. Qed.

(** The registers before the first instruction. *)
Definition no_view (r : StackFrameRules) : view :=
  {| vw_rule := 0; vw_offset := 0; vw_register := 0; vw_expression := 0;
     vw_reg := implied_rule (ru_machine r) (ru_return_address_register r) |}.

Lemma no_view_is r : view_is r no_registers (no_view r).
Proof. constructor; [done..| |by left]. intros n Hn. unfold reg_view. cbn [sr_regs no_registers]. by rewrite lookup_nil. Qed.

Lemma no_view_row r : row_is d (no_view r) (start_row (ru_machine r) (ru_return_address_register r)).
Proof. constructor; [done|]. intros n Hn. apply implied_is. Qed.

Lemma exec_cie_runs s limit w : let r := cf_rules s in
  ru_code_alignment r = c_ca c -> ru_data_alignment r = c_da c -> ru_return_address_register r = c_rar c ->
  cie_row (ru_machine r) c = Some w -> in_section be asz sec (cf_io s) -> io_data (cf_io s) = d ->
  data_at (cf_io s) (encode_all be (c_prog c)) -> limit = io_pos (cf_io s) + zlen (encode_all be (c_prog c)) ->
  exists s' x v, exec_cie limit s = (Ok tt, s') /\ cf_rules s' = set_ru_location x r /\
    cf_io s' = further (zlen (encode_all be (c_prog c))) (cf_io s) /\ view_is r (cf_cie_regs s') v /\ row_is d v w.
Proof.
  intros r Hca Hda Hrar Hw Hs Hdata HL Hlim. destruct cie_ok_parts as (_ & _ & _ & _ & _ & _ & HP & _).
  unfold exec_cie. set (s0 := set_cf_regs_stack_pos 0 (set_cf_frame_regs no_registers (set_cf_cie_regs no_registers s))).
  rewrite modify_bind. fold s0. unfold exec_fuel. rewrite (bind_ok (gets _) _ s0 _ s0 eq_refl).
  set (fuel := S _). unfold cie_row in Hw. rewrite <- Hrar, <- Hda in Hw. apply fmap_Some in Hw as (st & Hst & ->).
  set (v0 := {| vs_loc := ru_location r; vs_frame := no_view r; vs_stack := [] |}).
  assert (Hf : (length (c_prog c) < fuel)%nat).
  { pose proof (encode_all_length be (c_prog c)). destruct (data_at_here _ _ HL) as [_ HE]. pose proof (data_at_pos _ _ HL).
    unfold zlen in HE. subst fuel. change (io_data (cf_io s0)) with (io_data (cf_io s)). lia. }
  destruct (exec_until_runs r (no_view r) be d _ (no_view_row r) 0 (c_prog c) fuel limit s0 v0 _ st Hst) as (s1 & v1 & E & H1 & H2 & D);
    [by rewrite Hca, Hda| | |done|done|done|done|].
  - constructor; [by subst r; destruct s as [? []]|apply no_view_is|apply no_view_is|done|done|apply Hs].
  - constructor; [apply no_view_row|constructor].
  - rewrite (bind_ok _ _ _ _ _ E). eexists _, (vs_loc v1), (vs_frame v1). split; [done|]. cbn [cf_rules cf_io cf_cie_regs set_cf_cie_regs].
    rewrite (ci_rules _ _ _ _ _ H1). split_and!; [done|done| |by destruct H2].
    apply copy_view; [done|done|]. by destruct H1.
Qed.

Lemma cie_rules_of r : let r' := cie_rules c r in same_scope r r' /\ ru_cie_pos r' = ru_cie_pos r /\
  ru_code_alignment r' = c_ca c /\ ru_data_alignment r' = c_da c /\ ru_return_address_register r' = c_rar c /\
  ru_addr_encoding r' = cie_enc c /\ ru_cie_aug r' = cie_aug_of c /\ ru_address_size r' = cie_asz (ru_file r') c.
Proof.
  cbv zeta. unfold cie_rules. destruct (aug_rules_keep (default [] (c_aug c)) (factor_rules c (size_rules c (version_rules c r))))
    as (H1 & H2 & H3 & H4 & H5 & H6 & H8 & H7).
  rewrite H2, H3, H4, H5, H6, H8, H7, (sc_file _ _ H1). unfold size_rules, cie_enc, cie_asz. split_and!; try done; try (by destruct (4 <=? c_version c)).
  - eapply same_scope_trans; [|exact H1]. unfold size_rules. by destruct (4 <=? c_version c).
  - by destruct (c_aug c).
Qed.

(** ** All of it *)

Lemma zlen_ref is64 x y : zlen (ref_bytes be is64 y) = zlen (ref_bytes be is64 x).
Proof. unfold ref_bytes. by rewrite !zlen_number. Qed.

Lemma set_pos_io p s : p <= io_len (cf_io s) -> io (dio_SetPos p) s = (Ok tt, set_cf_io (set_io_pos p (cf_io s)) s).
Proof. intros Hp. unfold io, dio_SetPos. rewrite (bind_ok get _ (cf_io s) _ _ eq_refl). by rewrite (proj2 (Z.ltb_ge _ _)). Qed.

(** The instructions of a CIE that is in the section, and the end of [read_frame_cie]. *)
Lemma exec_cie_ready s limit saved w : let r := cf_rules s in
  ru_section r = Some sec -> in_section be asz sec (cf_io s) -> io_data (cf_io s) = d -> saved <= zlen d ->
  data_at (cf_io s) (cie_body be asz c) -> limit = io_pos (cf_io s) + zlen (cie_body be asz c) -> cie_row (ru_machine r) c = Some w ->
  exists s', (read_cie_version ;; read_cie_sizes ;; read_cie_factors ;; read_cie_augmentation ;; exec_cie limit ;; io (dio_SetPos saved)) s =
    (Ok tt, s') /\ cie_ready s' /\ same_scope r (cf_rules s') /\ ru_cie_pos (cf_rules s') = ru_cie_pos r /\
    cf_io s' = set_io_pos saved (cf_io s).
Proof.
  intros r Hsec Hs Hdata Hsaved HL Hlim Hw. destruct (cie_head_step (exec_cie limit ;; io (dio_SetPos saved)) _ s Hsec Hs HL) as (E1 & Hs1 & HL1).
  rewrite E1. clear E1. set (l := version_bytes c ++ size_bytes c ++ factor_bytes c ++ aug_bytes be asz c) in *.
  destruct (cie_rules_of r) as (HS & HP & Hca & Hda & Hrar & Henc & Haug & Hasz').
  set (s1 := took _ _ _) in *.
  destruct (exec_cie_runs s1 limit w) as (s2 & x & v & E & HR & D & HV & HW); [done|done|done| |done|done|done| |].
  { by change (cf_rules s1) with (cie_rules c r); unfold ru_machine; rewrite (sc_file _ _ HS). }
  { rewrite Hlim. unfold cie_body. fold l. change (cf_io s1) with (further (zlen l) (cf_io s)). cbn [further io_pos set_io_pos]. zlia. }
  rewrite (bind_ok _ _ _ _ _ E). rewrite set_pos_io by (rewrite D; change (io_len _) with (io_len (cf_io s)); rewrite (is_len _ _ _ _ Hs); lia).
  eexists. split; [done|]. cbn [cf_rules cf_io set_cf_io]. rewrite HR, D. change (cf_rules s1) with (cie_rules c r). split_and!.
  - constructor; cbn [cf_rules set_cf_io cf_cie_regs]; rewrite HR; try done. intros w'.
    change (ru_machine (set_ru_location x (cf_rules s1))) with (ru_machine (cie_rules c r)). unfold ru_machine at 1. rewrite (sc_file _ _ HS).
    fold (ru_machine r). rewrite Hw. intros [= <-]. exists v. split; [by apply view_is_location|exact HW].
  - destruct HS. by constructor.
  - done.
  - done.
Qed.

Lemma read_frame_cie_reads eh cpos s w : let r := cf_rules s in
  ru_section r = Some sec -> in_section be asz sec (cf_io s) -> io_data (cf_io s) = d -> io_pos (cf_io s) <= zlen d ->
  bytes_at d cpos (cie_bytes be asz eh c) -> cie_row (ru_machine r) c = Some w ->
  exists s', read_frame_cie cpos s = (Ok tt, s') /\ cie_ready s' /\ same_scope r (cf_rules s') /\
    ru_cie_pos (cf_rules s') = cpos /\ cf_io s' = cf_io s.
Proof.
  intros r Hsec Hs Hdata Hpos HB Hw. destruct cie_ok_parts as (_ & _ & _ & _ & _ & _ & _ & HLen).
  unfold read_frame_cie. rewrite (bind_ok (io dio_GetPos) _ s (io_pos (cf_io s)) s) by (by destruct s).
  set (s0 := set_cf_rules (set_ru_cie_pos cpos (cf_rules s)) s). rewrite (bind_ok (change_rules (set_ru_cie_pos cpos)) _ s tt s0 eq_refl).
  unfold rules at 1. rewrite (bind_ok (gets _) _ s0 _ s0 eq_refl). change (ru_section (cf_rules s0)) with (ru_section r). rewrite Hsec.
  cbn [of_option]. rewrite ret_bind.
  set (n := zlen (ref_bytes be (c_64 c) 0 ++ cie_body be asz c)) in *.
  set (s1 := set_cf_io (set_io_pos cpos (cf_io s0)) s0).
  pose proof (by_high _ _ _ HB) as Hhigh. pose proof (by_low _ _ _ HB) as Hlow.
  assert (Hn : zlen (cie_bytes be asz eh c) = zlen (length_bytes be (c_64 c) n) + n).
  { unfold cie_bytes. fold n. rewrite zlen_app, zlen_app, (zlen_ref _ 0 (cie_id _ _)). subst n. rewrite (zlen_app (ref_bytes _ _ _)). lia. }
  pose proof (zlen_nonneg (length_bytes be (c_64 c) n)) as HZ.
  assert (Hnpos : 0 < n).
  { subst n. rewrite zlen_app. unfold ref_bytes. rewrite zlen_number. pose proof (zlen_nonneg (cie_body be asz c)). destruct (c_64 c); lia. }
  assert (Hs1 : in_section be asz sec (cf_io s1)) by (destruct Hs; by constructor).
  assert (HL : data_at (cf_io s1) (cie_bytes be asz eh c)) by (by eapply bytes_at_data).
  rewrite (proj2 (Z.leb_gt _ _)) by lia. unfold cie_bytes in HL. fold n in HL. rewrite app_assoc in HL.
  destruct (takes_step _ _ _ _ _ s1 Hs1 HL (cie_end_takes cpos (cf_rules s1) (c_64 c) n (cie_id eh (c_64 c)) HLen Hlow ltac:(lia)))
    as (E1 & Hs2 & HL2).
  assert (E2 : io (dio_SetPos cpos) s0 = (Ok tt, s1)) by (apply set_pos_io; change (cf_io s0) with (cf_io s); rewrite (is_len _ _ _ _ Hs); lia).
  set (s2 := took _ _ _) in *.
  assert (E3 : read_cie_end cpos s0 = (Ok (cpos + zlen (length_bytes be (c_64 c) n) + n), s2))
    by (unfold read_cie_end; by rewrite (bind_ok _ _ _ _ _ E2)).
  rewrite (bind_ok _ _ _ _ _ E3).
  destruct (exec_cie_ready s2 (cpos + zlen (length_bytes be (c_64 c) n) + n) (io_pos (cf_io s)) w) as (s3 & E & H1 & H2 & H3 & D); try done.
  { subst n. cbn [cf_io set_cf_rules set_cf_io further io_pos set_io_pos s2 s1 took]. rewrite !zlen_app, (zlen_ref _ 0 (cie_id _ _)). lia. }
  exists s3. split; [exact E|]. split_and!; [done| |done|].
  - destruct H2. by constructor.
  - rewrite D. cbn. by destruct (cf_io s).
Qed.
End reading.

(** ** Call frame information: the row of an address

    [find_row] at an encoded FDE finds the line of its table that has the address,
    whether the rules are those of its CIE already or not. *)

(** The reference to the CIE can be encoded, and is not that of a CIE. *)
Definition ref_ok (eh is64 : bool) (pos cpos : Z) : bool :=
  fits_u (if is64 then 64 else 32) (fde_ref eh is64 pos cpos) && negb (fde_ref eh is64 pos cpos =? cie_id eh is64).

(** The address of the function. *)
Definition fde_addr (sec : ELF_Section) (text : option ELF_Section) (c : cie) (f : fde) (pos : Z) : Z :=
  u64 (ptr_base sec text (cie_enc c) (pos + (if f_64 f then 20 else 8)) + f_addr f).

(** A section that is loaded, without relocations. *)
Record section_ok (sec : ELF_Section) (d : bytes) : Prop := {
  so_load : es_load sec = inl d;
  so_size : es_size sec = zlen d;
  so_bound : zlen d < 2 ^ 62;
  so_relocate : es_relocate sec = false;
}.

Section find.
Context `{!Relocator}.
Context (file : ELF_File) (sec : ELF_Section) (d : bytes) (Hsec : section_ok sec d).
Context (eh : bool) (c : cie) (cpos : Z).

Abbreviation be := (ef_big_endian file).
Definition file_asz : nat := if ef_elf64 file then 8 else 4.
Abbreviation asz := file_asz.
Abbreviation cie_ready := (cie_ready c d).

Context (Hok : cie_ok be asz c = true) (Hcie : bytes_at d cpos (cie_bytes be asz eh c)).

(** The rules are of this section, and of the CIE if that was the last one. *)
Record cfi_ready (s : Cfi) : Prop := {
  fr_sec : ru_section (cf_rules s) = Some sec;
  fr_file : ru_file (cf_rules s) = file;
  fr_eh : ru_eh_frame (cf_rules s) = eh;
  fr_cie : ru_cie_pos (cf_rules s) = cpos -> cie_ready s;
}.

Lemma asz_cases : asz = 4%nat \/ asz = 8%nat.
Proof. unfold file_asz. destruct (ef_elf64 file); auto. Qed.

Abbreviation takes := (takes be asz sec).
Abbreviation in_section := (in_section be asz sec).

(** ** The CIE of an entry *)

Lemma enter_cie_ready (is64 : bool) pos s w : cfi_ready s -> in_section (cf_io s) -> io_data (cf_io s) = d -> io_pos (cf_io s) <= zlen d ->
  cie_row (ef_machine file) c = Some w -> 0 <= pos ->
  exists s', enter_cie (pos + (if is64 then 12 else 4)) (fde_ref eh is64 pos cpos) s = (Ok tt, s') /\
    cie_ready s' /\ same_scope (cf_rules s) (cf_rules s') /\ ru_cie_pos (cf_rules s') = cpos /\ cf_io s' = cf_io s.
Proof.
  intros [H1 H2 H3 H4] Hs Hdata Hpos Hw H0. pose proof (by_low _ _ _ Hcie). pose proof (by_high _ _ _ Hcie). pose proof (so_bound _ _ Hsec).
  pose proof (zlen_nonneg (cie_bytes be asz eh c)).
  unfold enter_cie, rules. rewrite (bind_ok (gets _) _ s _ s eq_refl), H3. cbv zeta.
  assert (E0 : (if eh then u64 (pos + (if is64 then 12 else 4) - fde_ref eh is64 pos cpos) else fde_ref eh is64 pos cpos) = cpos)
    by (unfold fde_ref; destruct eh; [rewrite wrapu_small; lia|done]).
  rewrite E0.
  destruct (Z.eqb_spec cpos (ru_cie_pos (cf_rules s))) as [E|Hne].
  - exists s. split_and!; [done|by apply H4|done|done|done].
  - eapply read_frame_cie_reads; eauto using asz_cases; try apply Hsec. unfold ru_machine. by rewrite H2.
Qed.

(** ** The parts of an entry *)

Lemma fde_length_reads is64 n : length_ok is64 n = true -> 0 < n ->
  reads_as be (n ← dio_ReadU4; assertm (0 <? n) ;; if n =? 2 ^ 32 - 1 then n ← dio_ReadU8; mret (n, true) else mret (n, false))
    (length_bytes be is64 n) (n, is64).
Proof.
  unfold length_ok, length_bytes, fits_u. intros Hn H0. destruct is64.
  - eapply reads_as_bind; [apply (reads_dio_u be 4 (2 ^ 32 - 1)); [lia|unfold in_u; lia]|]. change (0 <? 2 ^ 32 - 1) with true. cbn [assertm].
    rewrite ret_bind, Z.eqb_refl.
    apply (reads_as_map be _ (fun n => (n, true))), (reads_dio_u be 8); [lia|]. unfold in_u. lia.
  - rewrite <- (app_nil_r (number be 4 n)). eapply reads_as_bind; [apply (reads_dio_u be 4 n); [lia|unfold in_u; lia]|].
    rewrite (proj2 (Z.ltb_lt 0 n)), (proj2 (Z.eqb_neq _ _)) by lia. cbn [assertm]. rewrite ret_bind. apply reads_as_ret.
Qed.

Lemma ref_reads (is64 : bool) x : fits_u (if is64 then 64 else 32) x = true ->
  reads_as be (if is64 then dio_ReadU8 else dio_ReadU4) (ref_bytes be is64 x) x.
Proof.
  intros Hx. apply fits_in_u in Hx. unfold ref_bytes. destruct is64; [apply (reads_dio_u be 8)|apply (reads_dio_u be 4)]; done || lia.
Qed.

Lemma is_fde_ref r is64 pos : ru_eh_frame r = eh -> ref_ok eh is64 pos cpos = true -> is_fde r is64 (fde_ref eh is64 pos cpos) = true.
Proof. intros Hr Hf. apply andb_true_iff in Hf as [_ Hf]. unfold is_fde. rewrite Hr. exact Hf. Qed.

(** The rules after the augmentation. *)
Definition fde_rules (f : fde) (r : StackFrameRules) : StackFrameRules :=
  match c_aug c with Some _ => set_ru_fde_aug_length (zlen (f_aug f)) r | None => r end.

Lemma skip_fde_takes p r f : ru_cie_aug r = cie_aug_of c -> fits_u 32 (zlen (f_aug f)) = true ->
  takes p r skip_fde_augmentation (fde_aug_bytes c f) tt (fde_rules f r).
Proof.
  intros Hr Hz. unfold skip_fde_augmentation, fde_aug_bytes, fde_rules. eapply takes_then; [apply takes_rules|]. rewrite Hr.
  unfold cie_aug_of, aug_string. destruct (c_aug c) as [l|]; [|apply takes_ret]. cbn [z_aug]. rewrite Z.eqb_refl.
  eapply takes_bind; [by apply takes_reads, reads_dio_uleb, fits_in_u|]. eapply takes_then; [apply takes_change|].
  apply takes_reads, reads_dio_skip.
Qed.

Lemma cie_enc_ok : enc_ok (cie_enc c) = true.
Proof.
  destruct (cie_ok_parts be asz c Hok) as (_ & _ & _ & _ & _ & HA & _). unfold cie_enc. destruct (c_aug c) as [l|]; [|done].
  destruct HA as [HA _]. assert (HE : enc_ok 0 = true) by done. revert HA HE. generalize 0 as e. clear.
  induction l as [|a l IH]; intros e HA HE; [done|]. cbn [forallb fold_left] in *. apply andb_true_iff in HA as [Ha HA].
  apply IH; [done|]. by destruct a.
Qed.

Lemma fde_ok_parts f : fde_ok be asz c f = true ->
  ptr_fits asz (cie_enc c) (f_addr f) = true /\ ptr_fits asz (cie_enc c) (f_range f) = true /\ 0 <= f_range f /\
  fits_u 32 (zlen (f_aug f)) = true /\ forallb (instr_ok (c_ca c) (c_da c)) (f_prog f) = true /\
  length_ok (f_64 f) (zlen (ref_bytes be (f_64 f) 0 ++ fde_body be asz c f)) = true.
Proof. unfold fde_ok. rewrite !andb_true_iff. intros [[[[[[H1 H2] H3] H4] H5] H6] H7]. split_and!; try done. lia. Qed.

(** ** The instructions *)

(** The state before the first instruction of an FDE. *)
Definition enter_fde (addr : Z) (s : Cfi) : Cfi :=
  set_cf_regs_stack_pos 0 (set_cf_rules (set_ru_location addr (cf_rules s))
    (set_cf_frame_regs (copy_register_rules (cf_rules s) (cf_cie_regs s)) s)).

(** What has been found: the row is in [cf_frame_regs]. *)
Record row_at (s : Cfi) (lines : list line) (ip : Z) (ln : line) : Prop := {
  ra_in : ln ∈ lines;
  ra_start : ln_start ln <= ip;
  ra_end : ip < ln_end ln;
  ra_location : ru_location (cf_rules s) = ln_end ln;
  ra_regs : exists v, view_is (cf_rules s) (cf_frame_regs s) v /\ row_is d v (ln_row ln);
}.

Lemma exec_row_at f ip s fde_end addr lines : cie_ready s -> ru_machine (cf_rules s) = ef_machine file ->
  forallb (instr_ok (c_ca c) (c_da c)) (f_prog f) = true -> fde_table (ef_machine file) c f addr = Some lines ->
  in_section (cf_io s) -> io_data (cf_io s) = d -> data_at (cf_io s) (encode_all be (f_prog f)) ->
  fde_end = io_pos (cf_io s) + zlen (encode_all be (f_prog f)) ->
  0 <= addr <= ip -> ip < addr + f_range f < 2 ^ 64 -> last_loc (c_ca c) (f_prog f) addr < 2 ^ 64 ->
  exists s' ln, exec_row (S (length d)) ip fde_end addr (f_range f) addr (enter_fde addr s) = (Ok (ln_start ln), s') /\
    row_at s' lines ip ln /\ cie_ready s' /\ cf_rules s' = set_ru_location (ln_end ln) (cf_rules s).
Proof.
  intros Hc Hm HP HT Hs Hdata HL Hend Hip Hrange Hlast. unfold fde_table in HT. apply bind_Some in HT as (w & Hw & HT).
  pose proof Hc as [C1 C2 C3 C4 C5 C7 C6]. destruct (C6 w) as (vc & HVc & HRc); [by rewrite Hm|].
  set (r := cf_rules s) in *. set (v0 := {| vs_loc := addr; vs_frame := vc; vs_stack := [] |}).
  assert (Hf : (length (f_prog f) < S (length d))%nat).
  { pose proof (encode_all_length be (f_prog f)). destruct (data_at_here _ _ HL) as [_ HE]. pose proof (data_at_pos _ _ HL).
    rewrite Hdata in HE. unfold zlen in HE. lia. }
  destruct (exec_row_finds r vc be d w HRc ip addr (f_range f) (f_prog f) (S (length d)) fde_end (enter_fde addr s) v0
    {| cs_row := w; cs_stack := [] |} lines) as (s' & ln & v' & E & Hin & Hln & HA); rewrite ?C1, ?C2; try done; try (cbn; lia).
  - constructor; try done; [|apply Hs]. by apply copy_view.
  - exists s', ln. destruct HA as [A1 A2 A3 A4]. pose proof A1 as [B1 B2 B3 B4 B5 B6]. split_and!; [exact E| | |by rewrite B1, A2].
    + constructor; try done; [lia|lia|by rewrite B1|]. exists (vs_frame v'). split; [|done]. rewrite B1. by apply view_is_location.
    + constructor; rewrite B1; try done. intros w' Hw'. exists vc. split; [by apply view_is_location|].
      change (ru_machine (set_ru_location (vs_loc v') r)) with (ru_machine r) in Hw'. rewrite Hm, Hw in Hw'. by injection Hw' as <-.
Qed.

(** ** The entry *)

Lemma enter_section_at pos s : 0 <= pos < zlen d ->
  dio_EnterSection None file sec pos s = (Ok tt, Build_Dio (Some sec) be (Z.of_nat asz) (Z.of_nat asz) d pos (zlen d)).
Proof.
  intros Hp. destruct Hsec as [E1 E2 E3 E4]. unfold dio_EnterSection, elf_load. rewrite E1, ret_bind, E2.
  rewrite (proj2 (Z.ltb_ge _ _)) by lia. unfold file_asz. destruct (ef_elf64 file); cbn [fst snd];
    (rewrite (bind_ok (put _) _ s tt _ eq_refl); by rewrite (proj2 (Z.ltb_lt _ _)) by lia).
Qed.

Lemma zlen_length is64 n : zlen (length_bytes be is64 n) = if is64 then 12 else 4.
Proof. unfold length_bytes. destruct is64; by rewrite ?zlen_app, !zlen_number. Qed.

Lemma zlen_ref_bytes is64 n : zlen (ref_bytes be is64 n) = if is64 then 8 else 4.
Proof. unfold ref_bytes. rewrite zlen_number. by destruct is64. Qed.

(** The part behind the reference, when the rules are those of the CIE. *)
Lemma find_row_body f ip s fde_end lines : let r := cf_rules s in
  let addr := u64 (ptr_base sec (ru_text_section r) (cie_enc c) (io_pos (cf_io s)) + f_addr f) in
  cie_ready s -> ru_section r = Some sec -> ru_machine r = ef_machine file -> fde_ok be asz c f = true ->
  in_section (cf_io s) -> io_data (cf_io s) = d -> data_at (cf_io s) (fde_body be asz c f) ->
  fde_end = io_pos (cf_io s) + zlen (fde_body be asz c f) -> fde_table (ef_machine file) c f addr = Some lines ->
  addr <= ip -> ip < addr + f_range f < 2 ^ 64 -> last_loc (c_ca c) (f_prog f) addr < 2 ^ 64 ->
  exists s' ln, (r ← rules;
    '(addr, _) ← read_frame_data_pointer (ru_addr_encoding r) true 0;
    '(range, _) ← read_frame_data_pointer (ru_addr_encoding r) false 0;
    assertm ((addr <=? ip) && (ip <? u64 (addr + range))) ;;
    skip_fde_augmentation ;;
    modify (fun s => set_cf_regs_stack_pos 0 (set_cf_rules (set_ru_location addr (cf_rules s))
      (set_cf_frame_regs (copy_register_rules (cf_rules s) (cf_cie_regs s)) s))) ;;
    fuel ← exec_fuel;
    location0 ← exec_row fuel ip fde_end addr range addr;
    mret (location0, u64 (addr + range))) s = (Ok (ln_start ln, addr + f_range f), s') /\
    row_at s' lines ip ln /\ cie_ready s' /\ exists x, cf_rules s' = set_ru_location x (fde_rules f r).
Proof.
  intros r addr Hc Hr Hm Hf Hs Hdata HL Hend HT Hip Hrange Hlast.
  destruct (fde_ok_parts f Hf) as (HA & HR & H0 & HZ & HP & _).
  assert (Haddr : 0 <= addr < 2 ^ 64) by (apply wrapu_range; lia).
  rewrite rules_bind, (cr_enc _ _ _ Hc). unfold fde_body in HL.
  destruct (takes_step be asz sec _ _ _ _ _ _ Hs HL (pointer_takes be asz sec asz_cases (so_relocate _ _ Hsec) _ r _ true _ cie_enc_ok HA Hr))
    as (E1 & Hs1 & HL1).
  rewrite (bind_ok _ _ _ _ _ E1). clear E1. cbn iota. fold r addr.
  destruct (takes_step be asz sec _ _ _ _ _ _ Hs1 HL1 (pointer_takes be asz sec asz_cases (so_relocate _ _ Hsec) _ r _ false _ cie_enc_ok HR Hr))
    as (E1 & Hs2 & HL2).
  rewrite (bind_ok _ _ _ _ _ E1). clear E1. rewrite took_took in *. cbn iota. rewrite Z.add_0_l, (wrapu_small 64 (f_range f)), (wrapu_small 64 (addr + f_range f)) by lia.
  rewrite (proj2 (Z.leb_le _ _)), (proj2 (Z.ltb_lt _ _)) by lia. cbn [andb assertm]. rewrite ret_bind.
  destruct (takes_step be asz sec _ _ _ _ _ _ Hs2 HL2 (skip_fde_takes _ r f (cr_aug _ _ _ Hc) HZ)) as (E1 & Hs3 & HL3).
  rewrite (bind_ok _ _ _ _ _ E1), modify_bind. clear E1. rewrite took_took in *. rewrite <- !zlen_app in *.
  set (s3 := took _ (fde_rules f r) s) in *. fold (enter_fde addr s3).
  assert (Hc3 : cie_ready s3).
  { destruct Hc as [C1 C2 C3 C4 C5 C7 C6]. unfold s3, took, fde_rules. destruct (c_aug c); constructor; try done;
    intros w Hw; destruct (C6 w Hw) as (v & HV & HW); (exists v; split; [by destruct HV; constructor|done]). }
  assert (Hm3 : ru_machine (cf_rules s3) = ef_machine file) by (unfold s3, took, fde_rules; by destruct (c_aug c)).
  destruct (exec_row_at f ip s3 fde_end addr lines Hc3 Hm3 HP HT Hs3 Hdata HL3) as (s' & ln & E & H1 & H2 & H3); [|lia|done|done|].
  { rewrite Hend. unfold s3, took, fde_body. cbn [cf_io set_cf_rules set_cf_io further io_pos set_io_pos]. rewrite !zlen_app. lia. }
  assert (E1 : exec_fuel (enter_fde addr s3) = (Ok (S (length d)), enter_fde addr s3)) by (rewrite <- Hdata; done).
  rewrite (bind_ok _ _ _ _ _ E1), (bind_ok _ _ _ _ _ E). exists s', ln. split_and!; [done|done|done|]. by exists (ln_end ln).
Qed.

(** *** The row of an address

    [find_row] finds the line of the table, and is ready for other addresses. *)
Lemma find_row_finds f pos ip s lines : let addr := fde_addr sec (ru_text_section (cf_rules s)) c f pos in
  cfi_ready s -> bytes_at d pos (fde_bytes be asz eh pos cpos c f) -> fde_ok be asz c f = true -> ref_ok eh (f_64 f) pos cpos = true ->
  fde_table (ef_machine file) c f addr = Some lines ->
  addr <= ip -> ip < addr + f_range f < 2 ^ 64 -> last_loc (c_ca c) (f_prog f) addr < 2 ^ 64 ->
  exists s' ln, find_row ip pos s = (Ok (ln_start ln, addr + f_range f), s') /\ row_at s' lines ip ln /\ cfi_ready s' /\
    cie_ready s' /\ same_scope (cf_rules s) (cf_rules s') /\ ru_cie_pos (cf_rules s') = cpos.
Proof.
  intros addr Hc HB Hf Href HT Hip Hrange Hlast. pose proof Hc as [R1 R2 R3 R4].
  destruct (fde_ok_parts f Hf) as (_ & _ & _ & _ & _ & HLen).
  set (n := zlen (ref_bytes be (f_64 f) 0 ++ fde_body be asz c f)) in *.
  pose proof (by_high _ _ _ HB) as Hhigh. pose proof (by_low _ _ _ HB) as Hlow. pose proof (so_bound _ _ Hsec) as Hbound.
  pose proof (zlen_nonneg (fde_body be asz c f)) as Hbody.
  assert (Hn : n = (if f_64 f then 8 else 4) + zlen (fde_body be asz c f)) by (subst n; by rewrite zlen_app, zlen_ref_bytes).
  assert (Hz : zlen (fde_bytes be asz eh pos cpos c f) = (if f_64 f then 12 else 4) + n)
    by (unfold fde_bytes; fold n; rewrite !zlen_app, zlen_length, zlen_ref_bytes; lia).
  assert (Hpos : 0 <= pos < zlen d) by (destruct (f_64 f); lia).
  unfold find_row. rewrite rules_bind, R1, R2. cbn [of_option]. rewrite ret_bind.
  set (s0 := set_cf_io (Build_Dio (Some sec) be (Z.of_nat asz) (Z.of_nat asz) d pos (zlen d)) s).
  assert (E0 : io (dio_EnterSection None file sec pos) s = (Ok tt, s0)) by (unfold io; by rewrite enter_section_at).
  rewrite (bind_ok _ _ _ _ _ E0). assert (Hs0 : in_section (cf_io s0)) by (constructor; try done; symmetry; apply Hsec).
  assert (HL : data_at (cf_io s0) (fde_bytes be asz eh pos cpos c f)) by (by eapply bytes_at_data; eauto; apply Hsec).
  unfold fde_bytes in HL. fold n in HL.
  destruct (takes_step be asz sec _ _ _ (cf_rules s) _ s0 Hs0 HL (takes_reads be asz sec _ _ _ _ _ (fde_length_reads (f_64 f) n HLen ltac:(destruct (f_64 f); lia))))
    as (E1 & Hs1 & HL1).
  rewrite (bind_ok _ _ _ _ _ E1). clear E1. cbn iota.
  set (s1 := took _ (cf_rules s) s0) in *. rewrite getpos_bind.
  assert (E2 : io_pos (cf_io s1) = pos + (if f_64 f then 12 else 4)) by (rewrite <- (zlen_length (f_64 f) n); done). rewrite E2.
  pose proof Href as Href'. apply andb_true_iff in Href' as [Hfits _].
  destruct (takes_step be asz sec _ _ _ (cf_rules s) _ s1 Hs1 HL1 (takes_reads be asz sec _ _ _ _ _ (ref_reads (f_64 f) _ Hfits)))
    as (E1 & Hs2 & HL2).
  rewrite (bind_ok _ _ _ _ _ E1). clear E1. rewrite is_fde_ref by done. cbn [assertm]. rewrite ret_bind.
  set (s2 := took _ (cf_rules s) s1) in *.
  assert (Hc2 : cfi_ready s2) by (constructor; try done; intros Hp; destruct (R4 Hp); by constructor).
  assert (E3 : io_pos (cf_io s2) = pos + (if f_64 f then 20 else 8)).
  { unfold s2, took. cbn [cf_io set_cf_rules set_cf_io further io_pos set_io_pos]. rewrite E2, zlen_ref_bytes. destruct (f_64 f); lia. }
  pose proof HT as HT'. unfold fde_table in HT'. apply bind_Some in HT' as (w & Hw & _).
  destruct (enter_cie_ready (f_64 f) pos s2 w Hc2 Hs2) as (s3 & E4 & K1 & K2 & K3 & K4); [done|rewrite E3; destruct (f_64 f); lia|done|done|].
  rewrite (bind_ok _ _ _ _ _ E4). destruct K2 as [K2 K5 K6 K7 K8].
  change (cf_rules s2) with (cf_rules s) in K2, K5, K6, K7, K8.
  assert (Haddr : addr = u64 (ptr_base sec (ru_text_section (cf_rules s3)) (cie_enc c) (io_pos (cf_io s3)) + f_addr f))
    by (rewrite K4, E3, K6; done).
  rewrite Haddr in *. unfold ru_machine in *.
  destruct (find_row_body f ip s3 (u64 (pos + (if f_64 f then 12 else 4) + n)) lines) as (s' & ln & E & H1 & H2 & x & H3); try done.
  - by rewrite K2.
  - exact (f_equal ef_machine (eq_trans K5 R2)).
  - by rewrite K4.
  - by rewrite K4.
  - by rewrite K4.
  - rewrite K4, E3, (wrapu_small 64) by (destruct (f_64 f); lia). destruct (f_64 f); lia.
  - exists s', ln. split; [exact E|]. split; [done|].
    assert (HS : forall r, same_scope r (set_ru_location x (fde_rules f r))) by (intros r; unfold fde_rules; by destruct (c_aug c)).
    destruct (HS (cf_rules s3)) as [J1 J2 J3 J4 J5]. rewrite <- H3 in *.
    split_and!; [constructor; try congruence; done|done|constructor; congruence|].
    rewrite H3. unfold fde_rules. by destruct (c_aug c).
Qed.

End find.
