(* ===== verification/DwarfFrame.v ===== *)
(** * Call frame information (dwarfframe.c): stack tracing information

    The frame description entry of an address is found with an index of the
    section, its instructions are executed up to the address, and the rules that
    result become location expressions: for the frame address and for every
    register of the caller. *)

From S2P Require Import Prelude ByteSource Vm Registers LocExpr DwarfIo DwarfCfi.

(** ** Data *)

Record FrameInfoRange := {
  fr_section : Z;
  fr_addr : Z;
  fr_size : Z;
  fr_offset : Z;
}.

(** [FrameInfoIndex] of dwarfcache.h: a section .debug_frame or .eh_frame.
    [fi_separate]: the file is a debug file of the one that is searched.
    [fi_ranges] is NULL until there is an item. *)
Record FrameInfoIndex := {
  fi_file : ELF_File;
  fi_separate : bool;
  fi_section : ELF_Section;
  fi_relocatable : bool;
  fi_ranges : option (list FrameInfoRange);
}.

Definition set_fi_ranges (relocatable : bool) (l : option (list FrameInfoRange)) (i : FrameInfoIndex) : FrameInfoIndex :=
  Build_FrameInfoIndex (fi_file i) (fi_separate i) (fi_section i) relocatable l.

Section frame.
Context {T : Type} `{!ContextIf T, !Relocator}.
(** The run-time address of a link-time address in a section, or an error (tcf_elf.c). *)
Context (elf_map_to_run_time_address : option ELF_Section -> Z -> Z + Z).
(** [qsort] with [cmp_frame_info_ranges]. *)
Context (qsort : list FrameInfoRange -> list FrameInfoRange).

Abbreviation Command := (LocationExpressionCommand T).

Record StackFrameRegisterLocation := {
  rl_reg : option RegisterDefinition;
  rl_cmds : list Command;
}.

(** The static variables of dwarfframe.c, and the sections of one ELF file with
    those of its separate debug file first: [mFrameInfo] of the caches. *)
Record Dwf := {
  df_cfi : Cfi;
  df_trace_cmds : list Command;
  df_fp : list Command;
  df_regs : list StackFrameRegisterLocation;
  df_addr : Z;
  df_size : Z;
  df_index : list FrameInfoIndex;
}.

Definition set_df_cfi (x : Cfi) (s : Dwf) : Dwf :=
  Build_Dwf x (df_trace_cmds s) (df_fp s) (df_regs s) (df_addr s) (df_size s) (df_index s).
Definition set_df_trace_cmds (x : list Command) (s : Dwf) : Dwf :=
  Build_Dwf (df_cfi s) x (df_fp s) (df_regs s) (df_addr s) (df_size s) (df_index s).
Definition set_df_fp (x : list Command) (s : Dwf) : Dwf :=
  Build_Dwf (df_cfi s) (df_trace_cmds s) x (df_regs s) (df_addr s) (df_size s) (df_index s).
Definition set_df_regs (x : list StackFrameRegisterLocation) (s : Dwf) : Dwf :=
  Build_Dwf (df_cfi s) (df_trace_cmds s) (df_fp s) x (df_addr s) (df_size s) (df_index s).
Definition set_df_addr (x : Z) (s : Dwf) : Dwf :=
  Build_Dwf (df_cfi s) (df_trace_cmds s) (df_fp s) (df_regs s) x (df_size s) (df_index s).
Definition set_df_size (x : Z) (s : Dwf) : Dwf :=
  Build_Dwf (df_cfi s) (df_trace_cmds s) (df_fp s) (df_regs s) (df_addr s) x (df_index s).
Definition set_df_index (x : list FrameInfoIndex) (s : Dwf) : Dwf :=
  Build_Dwf (df_cfi s) (df_trace_cmds s) (df_fp s) (df_regs s) (df_addr s) (df_size s) x.

Definition cfi {A} (m : M Cfi A) : M Dwf A := fun s => let '(r, c) := m (df_cfi s) in (r, set_df_cfi c s).
Definition dio {A} (m : M Dio A) : M Dwf A := cfi (io m).
Definition frame_rules : M Dwf StackFrameRules := cfi rules.

(** ** Commands *)

Definition add_command (c : Command) : M Dwf unit := modify (fun s => set_df_trace_cmds (df_trace_cmds s ++ [c]) s).
Definition add_number (n : Z) : M Dwf unit := add_command (SFT_CMD_NUMBER n).

(** [get_reg_by_id] in the scope of the rules. *)
Definition reg_by_id (n : Z) : M Dwf (option RegisterDefinition) :=
  r ← frame_rules; mret (get_reg_by_id n (ru_id_type r)).

Definition known_reg (n : Z) : M Dwf RegisterDefinition :=
  d ← reg_by_id n; match d with Some d => mret d | None => exception ERR_OTHER end.

Definition add_deref (size : Z) : M Dwf unit :=
  r ← frame_rules; add_command (SFT_CMD_RD_MEM size (ru_big_endian r)).

Definition add_breg (n offs : Z) : M Dwf unit :=
  def ← known_reg n;
  add_command (SFT_CMD_RD_REG def) ;;
  if offs =? 0 then mret tt else add_number offs ;; add_command SFT_CMD_ADD.

(** One operation of a DWARF expression; the other ones are not supported in
    frame information. *)
Definition add_operation (op : opcode) : M Dwf unit :=
  match op with
  | OP_deref => r ← frame_rules; add_deref (ru_address_size r)
  | OP_deref_size => n ← dio dio_ReadU1; add_deref n
  | OP_const1u => n ← dio dio_ReadU1; add_number n
  | OP_const1s => n ← dio dio_ReadU1; add_number (s8 n)
  | OP_const2u => n ← dio dio_ReadU2; add_number n
  | OP_const2s => n ← dio dio_ReadU2; add_number (s16 n)
  | OP_const4u => n ← dio dio_ReadU4; add_number n
  | OP_const4s => n ← dio dio_ReadU4; add_number (s32 n)
  | OP_const8u => n ← dio dio_ReadU8; add_number (s64 n)
  | OP_const8s => n ← dio dio_ReadU8; add_number (s64 n)
  | OP_constu => n ← dio dio_ReadU8LEB128; add_number (s64 n)
  | OP_consts => n ← dio dio_ReadS8LEB128; add_number n
  | OP_and => add_command SFT_CMD_AND
  | OP_minus => add_command SFT_CMD_SUB
  | OP_or => add_command SFT_CMD_OR
  | OP_plus => add_command SFT_CMD_ADD
  | OP_plus_uconst => n ← dio dio_ReadU8LEB128; add_number (s64 n) ;; add_command SFT_CMD_ADD
  | OP_ge => add_command SFT_CMD_GE
  | OP_gt => add_command SFT_CMD_GT
  | OP_le => add_command SFT_CMD_LE
  | OP_lt => add_command SFT_CMD_LT
  | OP_shl => add_command SFT_CMD_SHL
  | OP_lit n => add_number n
  | OP_regn n => def ← known_reg n; add_command (SFT_CMD_RD_REG def)
  | OP_regx => n ← dio dio_ReadULEB128; def ← known_reg n; add_command (SFT_CMD_RD_REG def)
  | OP_breg n => offs ← dio dio_ReadS8LEB128; add_breg n offs
  | OP_bregx => n ← dio dio_ReadULEB128; offs ← dio dio_ReadS8LEB128; add_breg n offs
  | OP_nop => mret tt
  | OP_other op =>
      if op =? 3 then (* OP_addr *)
        '(lt_addr, section) ← dio dio_ReadAddress;
        match elf_map_to_run_time_address section lt_addr with
        | inl rt_addr => add_number (s64 rt_addr)
        | inr e => exception e
        end
      else exception ERR_UNSUPPORTED
  | _ => exception ERR_UNSUPPORTED
  end.

Fixpoint add_operations (fuel : nat) (limit : Z) : M Dwf unit :=
  match fuel with
  | O => nofuel
  | S fuel =>
      pos ← dio dio_GetPos;
      if pos <? limit then
        op ← dio dio_ReadU1;
        add_operation (decode_op op) ;;
        add_operations fuel limit
      else mret tt
  end.

Definition add_dwarf_expression_commands (cmds_offs cmds_size : Z) : M Dwf unit :=
  r ← frame_rules;
  sec ← of_option (ru_section r);
  dio (dio_EnterSection None (ru_file r) sec cmds_offs) ;;
  fuel ← cfi exec_fuel;
  add_operations fuel (u64 (cmds_offs + u32 cmds_size)).

(** ** The commands of a register *)

(** The commands of a rule for a register of [size] bytes; [false] when there is
    nothing to do. *)
Definition rule_commands (reg : RegisterRules) (size : Z) (src_reg_def : option RegisterDefinition) : M Dwf bool :=
  let rule := rr_rule reg in
  if (rule =? RULE_VAL_OFFSET) || (rule =? RULE_OFFSET) then
    add_command SFT_CMD_FP ;;
    (if rr_offset reg =? 0 then mret tt else add_number (rr_offset reg) ;; add_command SFT_CMD_ADD) ;;
    (if rule =? RULE_OFFSET then add_deref size else mret tt) ;;
    mret true
  else if rule =? RULE_SAME_VALUE then
    match src_reg_def with
    | None => mret false
    | Some def => add_command (SFT_CMD_RD_REG def) ;; mret true
    end
  else if rule =? RULE_REGISTER then
    def ← reg_by_id (u32 (rr_offset reg));
    match def with Some def => add_command (SFT_CMD_RD_REG def) | None => mret tt end ;;
    mret true
  else if (rule =? RULE_EXPRESSION) || (rule =? RULE_VAL_EXPRESSION) then
    add_command SFT_CMD_FP ;;
    add_dwarf_expression_commands (rr_expression reg) (rr_offset reg) ;;
    (if rule =? RULE_EXPRESSION then add_deref size else mret tt) ;;
    mret true
  else exception ERR_INV_DWARF.

(** The return address of MicroBlaze is that of the call, and the lowest bit of
    the program counter of ARM is the instruction set. *)
Definition adjust_commands (dst : RegisterDefinition) : M Dwf unit :=
  r ← frame_rules;
  (if (ru_machine r =? EM_MICROBLAZE) && (rd_dwarf_id dst =? 32) && (ru_return_address_register r =? 15)
   then add_number 8 ;; add_command SFT_CMD_ADD else mret tt) ;;
  (if (ru_machine r =? EM_ARM) && (rd_dwarf_id dst =? 15)
   then add_number 4294967294 ;; add_command SFT_CMD_AND else mret tt).

(** [add_command_sequence(dwarf_stack_trace_regs + dwarf_stack_trace_regs_cnt++, reg)] *)
Definition add_register_sequence (reg : RegisterDefinition) : M Dwf unit :=
  modify (fun s => set_df_regs (df_regs s ++ [Build_StackFrameRegisterLocation (Some reg) (df_trace_cmds s)]) s).

Definition generate_register_commands (reg : RegisterRules) (dst_reg_def src_reg_def : option RegisterDefinition) : M Dwf unit :=
  match dst_reg_def with
  | None => mret tt
  | Some dst =>
      modify (set_df_trace_cmds []) ;;
      go ← rule_commands reg (rd_size dst) src_reg_def;
      if (go : bool) then
        adjust_commands dst ;;
        s ← get;
        match df_trace_cmds s with
        | [] => mret tt
        | _ => add_register_sequence dst
        end
      else mret tt
  end.

(** The registers with the given numbers. *)
Fixpoint generate_registers (l : list Z) : M Dwf unit :=
  match l with
  | [] => mret tt
  | i :: l =>
      reg ← cfi (frame_reg i);
      (if rr_rule reg =? 0 then mret tt
       else def ← reg_by_id i; generate_register_commands reg def def) ;;
      generate_registers l
  end.

Definition generate_cfa_commands : M Dwf unit :=
  modify (set_df_trace_cmds []) ;;
  s ← get;
  let f := cf_frame_regs (df_cfi s) in
  (if sr_cfa_rule f =? RULE_OFFSET then
     def ← reg_by_id (sr_cfa_register f);
     match def with
     | Some def =>
         r ← frame_rules;
         add_command (if (ru_machine r =? EM_TRICORE) && (rd_dwarf_id def =? 41)
                      then SFT_CMD_RD_REG_PCXI_TRICORE def else SFT_CMD_RD_REG def) ;;
         if sr_cfa_offset f =? 0 then mret tt else add_number (sr_cfa_offset f) ;; add_command SFT_CMD_ADD
     | None => mret tt
     end
   else if sr_cfa_rule f =? RULE_EXPRESSION then add_dwarf_expression_commands (sr_cfa_expression f) (sr_cfa_offset f)
   else exception ERR_INV_DWARF) ;;
  modify (fun s => set_df_fp (df_trace_cmds s) s).

(** The loop over all registers: [get_reg] does not add items to the array there. *)
Definition generate_commands : M Dwf unit :=
  r ← frame_rules;
  reg ← cfi (frame_reg (ru_return_address_register r));
  (if rr_rule reg =? 0 then mret tt
   else
     def ← reg_by_id (u32 (ru_return_address_register r));
     generate_register_commands reg (get_PC_definition T) def) ;;
  s ← get;
  generate_registers (seqZ 0 (zlen (sr_regs (cf_frame_regs (df_cfi s))))) ;;
  generate_cfa_commands.

(** ** Procedure linkage tables *)

Definition start_rules (file : ELF_File) (sec text : option ELF_Section) (eh : bool) (id_type address_size cie_pos : Z) : StackFrameRules :=
  Build_StackFrameRules sec file text eh id_type 0 address_size 0 0 0 cie_pos None 0 0 0 0 0 0 0.

(** The offset of the frame address from the stack pointer at [offs]: in the
    first entry, and in the other ones of 16 bytes before and after their push. *)
Definition plt_cfa_offset (offs word : Z) : Z :=
  if offs =? 0 then 2 * word
  else if offs <? 16 then 3 * word
  else if (offs - 16) mod 16 <? 11 then word
  else 2 * word.

Definition plt_rules (rar cfa_register cfa_offset : Z) : M Cfi unit :=
  change_rules (set_ru_return_address_register rar) ;;
  change_cfa (set_sr_cfa RULE_OFFSET cfa_offset cfa_register 0).

Definition generate_plt_section_commands (file : ELF_File) (offs : Z) : M Dwf unit :=
  cfi (modify (fun s => set_cf_frame_regs no_registers (set_cf_cie_regs no_registers
    (set_cf_rules (start_rules file None None false REGNUM_DWARF (if ef_elf64 file then 8 else 4) 0) s)))) ;;
  let m := ef_machine file in
  let saved rar := cfi (set_rule rar RULE_OFFSET (mret (if rar =? 8 then -4 else -8))) in
  if m =? EM_386 then cfi (plt_rules 8 4 (plt_cfa_offset offs 4)) ;; saved 8 ;; generate_commands
  else if m =? EM_X86_64 then cfi (plt_rules 16 7 (plt_cfa_offset offs 8)) ;; saved 16 ;; generate_commands
  else if m =? EM_PPC then cfi (plt_rules 108 1 0) ;; generate_commands
  else if m =? EM_PPC64 then cfi (plt_rules 65 1 0) ;; generate_commands
  else if m =? EM_ARM then cfi (plt_rules 14 13 0) ;; generate_commands
  else if m =? EM_MICROBLAZE then cfi (plt_rules 15 1 0) ;; generate_commands
  else if m =? EM_AARCH64 then cfi (plt_rules 30 31 0) ;; generate_commands
  else if m =? EM_RISCV then cfi (plt_rules 1 2 0) ;; generate_commands
  else mret tt.

(** ** Frame description entries *)

Definition set_range (addr size : Z) : M Dwf unit := modify (fun s => set_df_size size (set_df_addr addr s)).

Definition read_frame_fde (ip fde_pos : Z) : M Dwf unit :=
  '(location0, limit) ← cfi (find_row ip fde_pos);
  r ← frame_rules;
  set_range location0 (u64 (ru_location r - location0)) ;;
  if (ru_machine r =? EM_ARM) && (u64 (ip + 4) =? limit) then dio dio_ExitSection
  else
    generate_commands ;;
    s ← get;
    match df_regs s with
    | [] => modify (set_df_fp []) ;; set_range 0 0 ;; dio dio_ExitSection
    | _ => dio dio_ExitSection
    end.

(** ** The index of a section *)

Definition cmp_frame_info_ranges (x y : FrameInfoRange) : Z :=
  if fr_section x <? fr_section y then -1
  else if fr_section y <? fr_section x then 1
  else if fr_addr x <? fr_addr y then -1
  else if fr_addr y <? fr_addr x then 1
  else 0.

(** A change of the index of the [k]-th section. *)
Definition change_index (k : nat) (f : FrameInfoIndex -> FrameInfoIndex) : M Dwf unit :=
  modify (fun s => set_df_index (alter f k (df_index s)) s).

(** The new item of [mFrameInfoRanges], and a change of it. *)
Definition add_range (k : nat) : M Dwf unit :=
  change_index k (fun i => set_fi_ranges (fi_relocatable i)
    (Some (default [] (fi_ranges i) ++ [Build_FrameInfoRange 0 0 0 0])) i).

Definition change_range (k : nat) (f : FrameInfoRange -> FrameInfoRange) : M Dwf unit :=
  change_index k (fun i => set_fi_ranges (fi_relocatable i)
    ((fun l => alter f (length l - 1)%nat l) <$> fi_ranges i) i).

(** The item of a frame description entry at [fde_pos]. *)
Definition index_fde (k : nat) (ref_pos cie_ref fde_pos : Z) : M Dwf unit :=
  cfi (enter_cie ref_pos cie_ref) ;;
  add_range k ;;
  r ← frame_rules;
  '(addr, s) ← cfi (read_frame_data_pointer (ru_addr_encoding r) true 0);
  change_range k (fun x => Build_FrameInfoRange (fr_section x) addr (fr_size x) (fr_offset x)) ;;
  '(size, _) ← cfi (read_frame_data_pointer (ru_addr_encoding r) false 0);
  change_range k (fun x => Build_FrameInfoRange (fr_section x) (fr_addr x) size (fr_offset x)) ;;
  match s with
  | Some s =>
      change_range k (fun x => Build_FrameInfoRange (es_index s) (fr_addr x) (fr_size x) (fr_offset x)) ;;
      change_index k (fun i => set_fi_ranges true (fi_ranges i) i)
  | None => mret tt
  end ;;
  change_range k (fun x => Build_FrameInfoRange (fr_section x) (fr_addr x) (fr_size x) fde_pos).

(** One entry of the section; the position is left at the next one. *)
Definition index_entry (k : nat) (sec : ELF_Section) : M Dwf unit :=
  fde_pos ← dio dio_GetPos;
  n ← dio dio_ReadU4;
  if n =? 0 then mret tt
  else
    '(fde_length, fde_dwarf64) ← dio (if n =? 2 ^ 32 - 1 then n ← dio_ReadU8; mret (n, true) else mret (n, false));
    ref_pos ← dio dio_GetPos;
    let fde_end := u64 (ref_pos + fde_length) in
    if es_size sec <? fde_end then
      if (1 <? es_alignment sec) && negb (fde_pos mod es_alignment sec =? 0)
      then dio (dio_SetPos (u64 (fde_pos + es_alignment sec - fde_pos mod es_alignment sec)))
      else exception ERR_INV_DWARF
    else
      cie_ref ← dio (if (fde_dwarf64 : bool) then dio_ReadU8 else dio_ReadU4);
      r ← frame_rules;
      (if is_fde r fde_dwarf64 cie_ref then index_fde k ref_pos cie_ref fde_pos
       else mret tt) ;;
      dio (dio_SetPos fde_end).

Fixpoint index_entries (fuel : nat) (k : nat) (sec : ELF_Section) : M Dwf unit :=
  match fuel with
  | O => nofuel
  | S fuel =>
      pos ← dio dio_GetPos;
      if pos <? es_size sec then index_entry k sec ;; index_entries fuel k sec else mret tt
  end.

Definition create_search_index (k : nat) (file : ELF_File) (sec : ELF_Section) : M Dwf unit :=
  dio (dio_EnterSection None file sec 0) ;;
  fuel ← cfi exec_fuel;
  index_entries fuel k sec ;;
  dio dio_ExitSection ;;
  change_index k (fun i => set_fi_ranges (fi_relocatable i) (qsort <$> fi_ranges i) i).

(** The binary search; [None] when no entry has the address. *)
Fixpoint search_range (fuel : nat) (ranges : list FrameInfoRange) (sec_idx ip l h : Z) : option (option FrameInfoRange) :=
  match fuel with
  | O => None
  | S fuel =>
      if l <? h then
        let k := (l + h) / 2 in
        range ← znth ranges k;
        if sec_idx <? fr_section range then search_range fuel ranges sec_idx ip l k
        else if fr_section range <? sec_idx then search_range fuel ranges sec_idx ip (k + 1) h
        else if ip <? fr_addr range then search_range fuel ranges sec_idx ip l k
        else if u64 (fr_addr range + fr_size range) <? fr_addr range then Some (Some range)
        else if u64 (fr_addr range + fr_size range) <=? ip then search_range fuel ranges sec_idx ip (k + 1) h
        else Some (Some range)
      else Some None
  end.

(** The section of that name in a separate debug file. *)
Fixpoint same_name (name : option bytes) (l : list ELF_Section) : option ELF_Section :=
  match l with
  | [] => None
  | s :: l =>
      match es_name s with
      | Some _ => if bool_decide (es_name s = name) then Some s else same_name name l
      | None => same_name name l
      end
  end.

Definition frame_text_section (i : FrameInfoIndex) (text : option ELF_Section) : option ELF_Section :=
  match text with
  | Some t =>
      if fi_separate i then Some (default t (same_name (es_name t) (tail (ef_sections (fi_file i))))) else Some t
  | None => None
  end.

Definition read_frame_info_section (text : option ELF_Section) (ip : Z) (k : nat) : M Dwf unit :=
  s ← get;
  i ← of_option (df_index s !! k);
  let text := frame_text_section i text in
  let eh := bool_decide (es_name (fi_section i) = Some (str ".eh_frame")) in
  cfi (modify (set_cf_rules (start_rules (fi_file i) (Some (fi_section i)) text eh
    (if eh then REGNUM_EH_FRAME else REGNUM_DWARF) 0 (2 ^ 64 - 1)))) ;;
  (match fi_ranges i with None => create_search_index k (fi_file i) (fi_section i) | Some _ => mret tt end) ;;
  s ← get;
  i ← of_option (df_index s !! k);
  let ranges := default [] (fi_ranges i) in
  let sec_idx := match text with Some t => if fi_relocatable i then es_index t else 0 | None => 0 end in
  range ← of_option (search_range (S (length ranges)) ranges sec_idx ip 0 (zlen ranges));
  match range with
  | Some range => read_frame_fde ip (fr_offset range)
  | None => mret tt
  end.

(** The sections from the [k]-th one on, until one has information. *)
Fixpoint search_sections (n : nat) (text : option ELF_Section) (addr : Z) (k : nat) : M Dwf bool :=
  match n with
  | O => mret false
  | S n =>
      read_frame_info_section text addr k ;;
      s ← get;
      match df_fp s with
      | [] => search_sections n text addr (S k)
      | _ => mret true
      end
  end.

Definition get_dwarf_stack_frame_info (file : ELF_File) (text : option ELF_Section) (addr : Z) : M Dwf unit :=
  modify (fun s => set_df_size 0 (set_df_addr 0 (set_df_fp [] (set_df_regs [] s)))) ;;
  s ← get;
  found ← search_sections (length (df_index s)) text addr 0;
  if (found : bool) then mret tt
  else
    match text with
    | Some t =>
        if bool_decide (es_name t = Some (str ".plt")) then
          assertm ((es_addr t <=? addr) && (addr <? u64 (es_addr t + es_size t))) ;;
          generate_plt_section_commands file (addr - es_addr t) ;;
          s ← get;
          match df_fp s with
          | [] => mret tt
          | _ => set_range addr 1
          end
        else mret tt
    | None => mret tt
    end.
End frame.

Arguments Dwf T : clear implicits.
Arguments StackFrameRegisterLocation T : clear implicits.
