(* ===== verification/FrameExpr.v ===== *)
(** * Stack frames: expressions in call frame information

    The expressions of [VmCompile] have values.  The byte code of an expression, read
    by [add_operations] of dwarfframe.c, becomes location commands that compute the
    same value as the machine of vm.c does ([VmCompile.compile_correct]). *)

From S2P Require Import Prelude ByteSource Vm VmSafe VmCompile Registers LocPieces LocExpr LocExprSpec.
From S2P Require Import DwarfIo DwarfCfi CfiSpec CfiEntry CfiFde DwarfFrame.

(** ** The environment of a frame *)

Section env.
Context {T : Type} `{!ContextIf T}.

(** The registers and the memory of a frame, as the machine of vm.c sees them. *)
Definition frame_env (idt : Z) (c : Cpu T) : VmEnv := {|
  context_read_mem a n := ctx_read_mem a n (cpu_ctx c);
  Vm.get_reg_by_id r := match get_reg_by_id r idt with Some def => inl def | None => inr ERR_OTHER end;
  Vm.read_reg_value _ def := match reg_word c def with Ok v => inl v | Exc e => inr e | _ => inr ERR_OTHER end;
  frame_fp _ := match cpu_frame c with Some f => sf_fp f | None => 0 end;
  get_symbol_value _ := inr ERR_OTHER;
  get_prev_frame _ := inr ERR_OTHER;
  Vm.read_location_pieces _ _ := inr ERR_OTHER;
|}.

(** ** Expressions that are supported in call frame information *)

Definition frame_binop (op : binop) : option (LocationExpressionCommand T) :=
  match op with
  | BAdd => Some SFT_CMD_ADD | BSub => Some SFT_CMD_SUB | BAnd => Some SFT_CMD_AND | BOr => Some SFT_CMD_OR
  | BLt => Some SFT_CMD_LT | BLe => Some SFT_CMD_LE | BGt => Some SFT_CMD_GT | BGe => Some SFT_CMD_GE
  | _ => None
  end.

Fixpoint frame_ok (idt : Z) (e : expr) : bool :=
  match e with
  | ELit _ | EConst _ _ _ | EConstu _ | EConsts _ => true
  | EBreg r _ => bool_decide (is_Some (get_reg_by_id r idt))
  | EDeref e | EDerefSize _ e | EPlusU e _ | EShl e _ => frame_ok idt e
  | EBin op e1 e2 => bool_decide (is_Some (frame_binop op)) && frame_ok idt e1 && frame_ok idt e2
  | EUn _ _ | EShr _ _ | EIf _ _ _ => false
  end.
End env.

(** An expression that starts with the frame address, which is on the stack. *)
Inductive cexpr :=
| CCfa
| CDeref (t : cexpr)
| CDerefSize (n : Z) (t : cexpr)
| CPlusU (t : cexpr) (n : Z)
| CBin (op : binop) (t : cexpr) (e : expr)
| CShl (t : cexpr) (n : Z).

Section cexpr.
Context (env : VmEnv) (asz : Z) (be : bool).

Fixpoint ceval (cfa : Z) (t : cexpr) : Z + Z :=
  match t with
  | CCfa => inl cfa
  | CDeref t => bindr (ceval cfa t) (fun a => load env be a asz)
  | CDerefSize n t => bindr (ceval cfa t) (fun a => load env be a n)
  | CPlusU t n => bindr (ceval cfa t) (fun v => inl ((v + n) mod 2 ^ 64))
  | CBin op t e => bindr (ceval cfa t) (fun a => bindr (eval env None asz be e) (binop_value op a))
  | CShl t n => bindr (ceval cfa t) (fun v => inl ((v * 2 ^ n) mod 2 ^ 64))
  end.

Fixpoint ccompile (t : cexpr) : bytes :=
  match t with
  | CCfa => []
  | CDeref t => ccompile t ++ [6]
  | CDerefSize n t => ccompile t ++ [148; n]
  | CPlusU t n => ccompile t ++ 35 :: uleb128 n
  | CBin op t e => ccompile t ++ compile be e ++ [binop_code op]
  | CShl t n => ccompile t ++ [48 + n] ++ [36]
  end.

Fixpoint cwf (t : cexpr) : bool :=
  match t with
  | CCfa => true
  | CDeref t => cwf t
  | CDerefSize n t => (0 <=? n) && (n <=? 8) && cwf t
  | CPlusU t n => cwf t && (0 <=? n) && (n <? 2 ^ 64)
  | CBin _ t e => cwf t && wf be e
  | CShl t n => cwf t && (0 <=? n) && (n <? 32)
  end.
End cexpr.

Fixpoint cframe_ok {T} `{!ContextIf T} (idt : Z) (t : cexpr) : bool :=
  match t with
  | CCfa => true
  | CDeref t | CDerefSize _ t | CPlusU t _ | CShl t _ => cframe_ok idt t
  | CBin op t e => bool_decide (is_Some (frame_binop (T := T) op)) && cframe_ok idt t && frame_ok idt e
  end.

(** ** Adding commands *)

Section frame.
Context {T : Type} `{!ContextIf T, !Relocator}.
Context (elf_map : option ELF_Section -> Z -> Z + Z).
Context (r : StackFrameRules) (asz : nat) (sec : ELF_Section).
Context (Hadr : 0 <= ru_address_size r <= 8).

Abbreviation be := (ru_big_endian r).
Abbreviation idt := (ru_id_type r).
Abbreviation Command := (LocationExpressionCommand T).

(** The rules and the section of the state. *)
Record setting (s : Dwf T) : Prop := {
  st_rules : cf_rules (df_cfi s) = r;
  st_section : in_section be asz sec (cf_io (df_cfi s));
}.

Abbreviation dio_of s := (cf_io (df_cfi s)).

(** After [n] bytes, with commands that have been added. *)
Definition adv (n : Z) (cmds : list Command) (s : Dwf T) : Dwf T :=
  set_df_trace_cmds (df_trace_cmds s ++ cmds) (set_df_cfi (set_cf_io (further n (dio_of s)) (df_cfi s)) s).

Lemma setting_adv n cmds s : setting s -> setting (adv n cmds s).
Proof. intros [H1 H2]. constructor; [done|]. by apply in_section_further. Qed.

Lemma adv_adv n m a b s : adv m b (adv n a s) = adv (n + m) (a ++ b) s.
Proof.
  unfold adv. cbn [df_cfi df_trace_cmds set_df_trace_cmds set_df_cfi cf_io set_cf_io].
  assert (E : further m (further n (dio_of s)) = further (n + m) (dio_of s)) by exact (src_ahead_add (S := Dio) _ _ _).
  by rewrite E, <- app_assoc.
Qed.

Lemma adv_0 s : adv 0 [] s = s.
Proof.
  unfold adv, further. rewrite app_nil_r, Z.add_0_r, set_io_pos_id. by destruct s as [[]].
Qed.

(** [m] reads [l] and adds [cmds]. *)
Definition adds (m : M (Dwf T) unit) (l : bytes) (cmds : list Command) : Prop :=
  forall s, setting s -> data_at (dio_of s) l -> m s = (Ok tt, adv (zlen l) cmds s).

Lemma adds_ret : adds (mret tt) [] [].
Proof. intros s _ _. change (zlen []) with 0. by rewrite adv_0. Qed.

Lemma adds_command cmd : adds (add_command cmd) [] [cmd].
Proof.
  intros s _ _. change (zlen []) with 0. unfold add_command, modify, adv, further. rewrite Z.add_0_r, set_io_pos_id. by destruct s as [[]].
Qed.

Lemma adds_seq m k l cmds1 l2 cmds2 : adds m l cmds1 -> adds k l2 cmds2 -> adds (m ;; k) (l ++ l2) (cmds1 ++ cmds2).
Proof.
  intros Hm Hk s Hs HL. apply data_at_app in HL as [HL1 HL2]. rewrite (bind_ok _ _ _ _ _ (Hm s Hs HL1)), Hk, adv_adv, zlen_app; [done| |done].
  by apply setting_adv.
Qed.

Lemma adds_then m k l cmds1 cmds2 : adds m [] cmds1 -> adds k l cmds2 -> adds (m ;; k) l (cmds1 ++ cmds2).
Proof. exact (adds_seq m k [] cmds1 l cmds2). Qed.

Lemma adds_read {A} (m : M Dio A) f l x k cmds : reads_as be m l x -> adds (f x) k cmds -> adds (y ← dio m; f y) (l ++ k) cmds.
Proof.
  intros Hm Hf s Hs HL. apply data_at_app in HL as [HL1 HL2]. pose proof (Hm _ (is_be _ _ _ _ (st_section _ Hs)) HL1) as E.
  assert (E1 : dio m s = (Ok x, adv (zlen l) [] s)) by (unfold dio, cfi, io, adv; rewrite E, app_nil_r; by destruct s).
  rewrite (bind_ok _ _ _ _ _ E1), Hf, adv_adv, zlen_app; [done| |done]. by apply setting_adv.
Qed.

Lemma adds_read_last {A} (m : M Dio A) f l x cmds : reads_as be m l x -> adds (f x) [] cmds -> adds (y ← dio m; f y) l cmds.
Proof. intros Hm Hf. rewrite <- (app_nil_r l). by eapply adds_read. Qed.

Lemma frame_rules_bind {B} (f : StackFrameRules -> M (Dwf T) B) s : (frame_rules ≫= f) s = f (cf_rules (df_cfi s)) s.
Proof. by destruct s. Qed.

Lemma adds_rules f l cmds : adds (f r) l cmds -> adds (x ← frame_rules; f x) l cmds.
Proof. intros Hf s Hs HL. rewrite frame_rules_bind, (st_rules _ Hs). by apply Hf. Qed.

Lemma adds_reg n f l cmds : adds (f (get_reg_by_id n idt)) l cmds -> adds (x ← reg_by_id n; f x) l cmds.
Proof.
  intros Hf s Hs HL. unfold reg_by_id. rewrite bind_assoc, frame_rules_bind, ret_bind, (st_rules _ Hs). by apply Hf.
Qed.

Lemma adds_known_reg n def f l cmds : get_reg_by_id n idt = Some def -> adds (f def) l cmds -> adds (x ← known_reg n; f x) l cmds.
Proof.
  intros Hd Hf s Hs HL. unfold known_reg. rewrite bind_assoc. apply (adds_reg n (fun x => match x with Some d => mret d | None => exception ERR_OTHER end ≫= f));
    [|done|done]. rewrite Hd. exact Hf.
Qed.

Lemma adds_deref n : adds (add_deref n) [] [SFT_CMD_RD_MEM n be].
Proof. apply adds_rules, adds_command. Qed.

(** A number that is added, unless it is zero. *)
Definition plus_cmds (n : Z) : list Command := if n =? 0 then [] else [SFT_CMD_NUMBER n; SFT_CMD_ADD].

Lemma adds_plus n : adds (if n =? 0 then mret tt else add_number n ;; add_command SFT_CMD_ADD) [] (plus_cmds n).
Proof. unfold plus_cmds. destruct (n =? 0); [apply adds_ret|]. exact (adds_then _ _ [] [_] [_] (adds_command _) (adds_command _)). Qed.

(** ** Byte code *)

(** What the operations in [l] make of the commands. *)
Definition code_adds (l : bytes) (cmds : list Command) : Prop :=
  exists n, (n <= length l)%nat /\ forall fuel limit s, setting s -> data_at (dio_of s) l -> io_pos (dio_of s) + zlen l <= limit ->
  add_operations elf_map (n + fuel) limit s = add_operations elf_map fuel limit (adv (zlen l) cmds s).

Lemma code_nil : code_adds [] [].
Proof. exists 0%nat. split; [done|]. intros fuel limit s Hs _ _. change (zlen []) with 0. by rewrite adv_0. Qed.

Lemma code_app l k a b : code_adds l a -> code_adds k b -> code_adds (l ++ k) (a ++ b).
Proof.
  intros (n & Hn & Ha) (m & Hm & Hb). exists (n + m)%nat. split; [rewrite length_app; lia|]. intros fuel limit s Hs HL Hlim.
  apply data_at_app in HL as [HL1 HL2]. rewrite zlen_app in Hlim. pose proof (zlen_nonneg k).
  rewrite <- Nat.add_assoc, Ha, Hb, adv_adv, zlen_app; [done|by apply setting_adv|exact HL2|cbn; lia|done|done|lia].
Qed.

Lemma code_op b l cmds : is_byte b -> adds (add_operation elf_map (decode_op b)) l cmds -> code_adds (b :: l) cmds.
Proof.
  intros Hb Ha. exists 1%nat. split; [cbn; lia|]. intros fuel limit s Hs HL Hlim. cbn [Nat.add add_operations].
  rewrite zlen_cons in Hlim. pose proof (zlen_nonneg l).
  assert (E : dio dio_GetPos s = (Ok (io_pos (dio_of s)), s)) by (by destruct s as [[]]).
  rewrite (bind_ok _ _ _ _ _ E), (proj2 (Z.ltb_lt _ _)) by lia. change (b :: l) with ([b] ++ l) in *.
  apply data_at_app in HL as [HL1 HL2].
  assert (E1 : dio dio_ReadU1 s = (Ok b, adv 1 [] s)).
  { unfold dio, cfi, io, adv. rewrite (reads_dio_u1 be b Hb _ (is_be _ _ _ _ (st_section _ Hs)) HL1), app_nil_r. by destruct s. }
  rewrite (bind_ok _ _ _ _ _ E1), (bind_ok _ _ _ _ _ (Ha _ (setting_adv _ _ _ Hs) HL2)), adv_adv, zlen_app. done.
Qed.

(** ** Segments of code and what they compute *)

(** The code [l] becomes commands that change the stack as [P] says. *)
Definition segment (l : bytes) (P : Cpu T -> list Z -> list Z -> Prop) : Prop :=
  exists cmds, code_adds l cmds /\ forallb word_command cmds = true /\
  forall c args stk stk', env_ok (frame_env idt c) -> P c stk stk' -> spec_commands c args cmds stk = Ok stk'.

Lemma spec_commands_app c args a b stk : spec_commands c args (a ++ b) stk =
  match spec_commands c args a stk with Ok stk => spec_commands c args b stk | x => x end.
Proof. revert stk. induction a as [|cmd a IH]; intros stk; [done|]. cbn [app spec_commands]. by destruct (spec_command c args cmd stk). Qed.

Lemma segment_nil : segment [] (fun _ a b => a = b).
Proof. exists []. split_and!; [apply code_nil|done|]. by intros c args stk ? _ <-. Qed.

Lemma segment_app l k (P Q R : Cpu T -> list Z -> list Z -> Prop) : segment l P -> segment k Q ->
  (forall c a b, R c a b -> exists m, P c a m /\ Q c m b) -> segment (l ++ k) R.
Proof.
  intros (x & Hx & Wx & Sx) (y & Hy & Wy & Sy) HR. exists (x ++ y). split_and!; [by apply code_app|by rewrite forallb_app, Wx, Wy|].
  intros c args a b Hc Hab. destruct (HR c a b Hab) as (m & HP & HQ). rewrite spec_commands_app, (Sx c args a m Hc HP). by apply Sy.
Qed.

Lemma segment_op b l cmds (P : Cpu T -> list Z -> list Z -> Prop) : is_byte b -> adds (add_operation elf_map (decode_op b)) l cmds ->
  forallb word_command cmds = true ->
  (forall c args stk stk', env_ok (frame_env idt c) -> P c stk stk' -> spec_commands c args cmds stk = Ok stk') -> segment (b :: l) P.
Proof. intros Hb Ha Hw Hs. exists cmds. split_and!; [by apply code_op|done|done]. Qed.

(** *** Constants *)

Definition pushes (v : Z) (c : Cpu T) (stk stk' : list Z) : Prop := stk' = v :: stk.

Lemma segment_number b l n v : is_byte b -> adds (add_operation elf_map (decode_op b)) l [SFT_CMD_NUMBER n] -> u64 n = v -> segment (b :: l) (pushes v).
Proof. intros Hb Ha <-. eapply segment_op; [done|exact Ha|done|]. by intros c args stk stk' _ ->. Qed.

Lemma adds_number {A} (m : M Dio A) (conv : A -> Z) l x : reads_as be m l x ->
  adds (n ← dio m; add_number (conv n)) l [SFT_CMD_NUMBER (conv x)].
Proof. intros Hm. eapply adds_read_last; [exact Hm|]. apply adds_command. Qed.

Lemma segment_lit n : 0 <= n < 32 -> segment [48 + n] (pushes n).
Proof.
  intros Hn. eapply segment_number; [unfold is_byte; lia|rewrite decode_lit by done; apply adds_command|]. apply wrapu_small. lia.
Qed.

Lemma segment_const (k : nat) (sign : bool) z : wf be (EConst k sign z) = true -> segment (compile be (EConst k sign z)) (pushes (z mod 2 ^ 64)).
Proof.
  cbn [wf compile]. intros Hw. apply andb_true_iff in Hw as [Hk Hz]. apply Nat.ltb_lt in Hk.
  set (w := 8 * 2 ^ Z.of_nat k) in *. assert (Hx : in_u w (z mod 2 ^ w)) by (apply Z.mod_pos_bound; lia).
  assert (HU : sign = false -> u64 (z mod 2 ^ w) = z mod 2 ^ 64).
  { intros ->. rewrite Z.mod_small by lia. done. }
  assert (HS : sign = true -> u64 (wraps w (z mod 2 ^ w)) = z mod 2 ^ 64).
  { intros ->. unfold fits_s in Hz. change (z mod 2 ^ w) with (wrapu w z). rewrite wraps_wrapu by (unfold in_s; lia). done. }
  destruct k as [|[|[|[|k]]]]; [| | | |lia]; change (2 ^ 0)%nat with 1%nat in *; change (2 ^ 1)%nat with 2%nat in *;
    change (2 ^ 2)%nat with 4%nat in *; change (2 ^ 3)%nat with 8%nat in *;
    destruct sign; (eapply segment_number; [by compute| |]).
  - apply (adds_number dio_ReadU1 s8). rewrite number_byte by done. by apply reads_dio_u1.
  - by apply HS.
  - apply (adds_number dio_ReadU1 id). rewrite number_byte by done. by apply reads_dio_u1.
  - by apply HU.
  - apply (adds_number dio_ReadU2 s16), (reads_dio_u be 2); [lia|done].
  - by apply HS.
  - apply (adds_number dio_ReadU2 id), (reads_dio_u be 2); [lia|done].
  - by apply HU.
  - apply (adds_number dio_ReadU4 s32), (reads_dio_u be 4); [lia|done].
  - by apply HS.
  - apply (adds_number dio_ReadU4 id), (reads_dio_u be 4); [lia|done].
  - by apply HU.
  - apply (adds_number dio_ReadU8 s64), (reads_dio_u be 8); [lia|done].
  - by apply HS.
  - apply (adds_number dio_ReadU8 s64), (reads_dio_u be 8); [lia|done].
  - rewrite u64_s64 by done. done.
Qed.

Lemma segment_constu n : in_u 64 n -> segment (16 :: uleb128 n) (pushes n).
Proof.
  intros Hn. eapply segment_number; [by compute|apply (adds_number dio_ReadU8LEB128 s64), reads_dio_u8leb, Hn|]. by apply u64_s64.
Qed.

Lemma segment_consts n : in_s 64 n -> segment (17 :: sleb128 n) (pushes (n mod 2 ^ 64)).
Proof. intros Hn. eapply segment_number; [by compute|apply (adds_number dio_ReadS8LEB128 id), reads_dio_s8leb, Hn|done]. Qed.

(** *** Registers and memory *)

Lemma spec_plus c args n v stk : in_u 64 v -> spec_commands c args (plus_cmds n) (v :: stk) = Ok (u64 (v + n) :: stk).
Proof.
  intros Hv. unfold plus_cmds. destruct (Z.eqb_spec n 0) as [->|Hn].
  - cbn. by rewrite Z.add_0_r, wrapu_small.
  - cbn [spec_commands spec_command on_words then_word total2]. unfold wrapu. by rewrite Zplus_mod_idemp_r.
Qed.

Lemma plus_cmds_words n : forallb (word_command (T := T)) (plus_cmds n) = true.
Proof. unfold plus_cmds. by destruct (n =? 0). Qed.

Lemma env_reg_word c def v : env_ok (frame_env idt c) -> reg_word c def = Ok v -> in_u 64 v.
Proof. intros Hc Hv. apply (env_reg _ Hc None def). cbn. by rewrite Hv. Qed.

Lemma adds_breg n offs def : get_reg_by_id n idt = Some def -> adds (add_breg n offs) [] (SFT_CMD_RD_REG def :: plus_cmds offs).
Proof.
  intros Hd. unfold add_breg. eapply adds_known_reg; [exact Hd|]. exact (adds_then _ _ [] [_] _ (adds_command _) (adds_plus offs)).
Qed.

Lemma segment_breg n offs : 0 <= n < 32 -> in_s 64 offs -> frame_ok idt (EBreg n offs) = true ->
  segment ((112 + n) :: sleb128 offs) (fun c a b => exists v, eval (frame_env idt c) None (ru_address_size r) be (EBreg n offs) = inl v /\ b = v :: a).
Proof.
  intros Hn Ho Hf. cbn [frame_ok] in Hf. apply bool_decide_true in Hf as [def Hd].
  eapply segment_op with (cmds := SFT_CMD_RD_REG def :: plus_cmds offs); [unfold is_byte; lia|rewrite decode_breg by done| |].
  - eapply adds_read_last; [by apply reads_dio_s8leb|by apply adds_breg].
  - apply plus_cmds_words.
  - intros c args stk stk' Hc (v & Hv & ->). cbn [eval frame_env Vm.get_reg_by_id Vm.read_reg_value] in Hv. rewrite Hd in Hv.
    destruct (reg_word c def) as [w|e| |] eqn:Ew; try done. injection Hv as <-. cbn [spec_commands spec_command]. rewrite Ew.
    cbn [then_word]. apply spec_plus. by eapply env_reg_word.
Qed.

(** A number of bytes in memory. *)
Definition loads (n : Z) (c : Cpu T) (stk stk' : list Z) : Prop :=
  exists a v l, stk = a :: l /\ load (frame_env idt c) be a n = inl v /\ stk' = v :: l.

Lemma mem_word_load c a n v : env_ok (frame_env idt c) -> 0 <= n <= 8 -> load (frame_env idt c) be a n = inl v -> mem_word c n be a = Ok v.
Proof.
  intros Hc Hn. unfold load, mem_word. cbn [frame_env context_read_mem]. destruct (ctx_read_mem a n (cpu_ctx c)) as [l|e] eqn:E; [|done].
  intros [= <-]. destruct (env_mem _ Hc a n l E) as [HL HB]; [lia|]. f_equal. destruct be.
  - apply be_value_number; [done|lia].
  - rewrite be_value_number; [by rewrite reverse_involutive|by apply Forall_reverse|]. unfold zlen in *. rewrite length_reverse. lia.
Qed.

Lemma spec_load c args n a v stk : env_ok (frame_env idt c) -> 0 <= n <= 8 -> load (frame_env idt c) be a n = inl v ->
  spec_commands c args [SFT_CMD_RD_MEM n be] (a :: stk) = Ok (v :: stk).
Proof. intros Hc Hn Hv. cbn [spec_commands spec_command on_word]. by rewrite (mem_word_load c a n v). Qed.

Lemma segment_deref : segment [6] (loads (ru_address_size r)).
Proof.
  eapply segment_op with (cmds := [SFT_CMD_RD_MEM (ru_address_size r) be]); [by compute| | |].
  - apply (adds_rules (fun r => add_deref (ru_address_size r))), adds_deref.
  - cbn. rewrite andb_true_r. lia.
  - intros c args stk stk' Hc (a & v & l & -> & Hv & ->). by apply spec_load.
Qed.

Lemma segment_deref_size n : 0 <= n <= 8 -> segment [148; n] (loads n).
Proof.
  intros Hn. eapply segment_op with (cmds := [SFT_CMD_RD_MEM n be]); [by compute| | |].
  - apply (adds_read_last dio_ReadU1 add_deref [n] n); [apply reads_dio_u1; unfold is_byte; lia|]. apply adds_deref.
  - cbn. rewrite andb_true_r. lia.
  - intros c args stk stk' Hc (a & v & l & -> & Hv & ->). by apply spec_load.
Qed.

(** *** Arithmetic *)

Definition maps (f : Z -> Z) (c : Cpu T) (stk stk' : list Z) : Prop := exists a l, stk = a :: l /\ in_u 64 a /\ stk' = f a :: l.

Lemma segment_plus_uconst n : in_u 64 n -> segment (35 :: uleb128 n) (maps (fun v => (v + n) mod 2 ^ 64)).
Proof.
  intros Hn. eapply segment_op with (cmds := [SFT_CMD_NUMBER (s64 n); SFT_CMD_ADD]); [by compute| |done|].
  - eapply adds_read_last; [by apply reads_dio_u8leb|]. exact (adds_then _ _ [] [_] [_] (adds_command _) (adds_command _)).
  - intros c args stk stk' Hc (a & l & -> & Ha & ->). cbn [spec_commands spec_command on_words then_word total2]. by rewrite u64_s64.
Qed.

Lemma segment_shl n : 0 <= n < 32 -> segment ([48 + n] ++ [36]) (maps (fun v => (v * 2 ^ n) mod 2 ^ 64)).
Proof.
  intros Hn. eapply segment_app; [by apply segment_lit| |].
  - eapply segment_op with (cmds := [SFT_CMD_SHL]) (P := fun c a b => exists v l, a = n :: v :: l /\ b = (v * 2 ^ n) mod 2 ^ 64 :: l);
      [by compute|apply adds_command|done|].
    intros c args stk stk' _ (v & l & -> & ->). cbn [spec_commands spec_command on_words]. rewrite (proj2 (Z.ltb_lt _ _)) by lia.
    cbn [then_word]. by rewrite Z.shiftl_mul_pow2 by lia.
  - intros c a b (v & l & -> & _ & ->). exists (n :: v :: l). split; [done|]. by exists v, l.
Qed.

Definition combines (op : binop) (c : Cpu T) (stk stk' : list Z) : Prop :=
  exists a b v l, stk = b :: a :: l /\ in_u 64 a /\ in_u 64 b /\ binop_value op a b = inl v /\ stk' = v :: l.

Lemma u64_b2z b : u64 (b2z b) = b2z b.
Proof. by destruct b. Qed.

Lemma in_u_land2 a b : in_u 64 a -> in_u 64 b -> in_u 64 (Z.land a b).
Proof. intros Ha [Hb _]. by apply in_u_land. Qed.

Lemma segment_binop op : is_Some (frame_binop (T := T) op) -> segment [binop_code op] (combines op).
Proof.
  intros [cmd Hop]. eapply segment_op with (cmds := [cmd]); [by destruct op; compute| | |].
  - destruct op; try discriminate Hop; injection Hop as <-; apply adds_command.
  - by destruct op; try discriminate Hop; injection Hop as <-.
  - intros c args stk stk' _ (a & b & v & l & -> & Ha & Hb & Hv & ->).
    destruct op; try discriminate Hop; injection Hop as <-; cbn [binop_value] in Hv; injection Hv as <-;
      cbn [spec_commands spec_command on_words then_word total2]; rewrite ?u64_b2z; try done; rewrite wrapu_small; try done;
      [by apply in_u_land2|by apply in_u_lor].
Qed.

(** *** Expressions *)

Abbreviation value c e := (eval (frame_env idt c) None (ru_address_size r) be e).

Lemma load_in_u c a n v : env_ok (frame_env idt c) -> 0 <= n <= 8 -> load (frame_env idt c) be a n = inl v -> in_u 64 v.
Proof.
  intros Hc Hn Hv. pose proof (mem_word_load c a n v Hc Hn Hv) as E. unfold mem_word in E.
  destruct (ctx_read_mem a n (cpu_ctx c)) as [l|] eqn:El; [|done]. injection E as <-. apply be_value_range.
  destruct (env_mem _ Hc a n l El) as [_ HB]; [lia|]. destruct be; [done|by apply Forall_reverse].
Qed.

Lemma eval_in_u c e v : env_ok (frame_env idt c) -> wf be e = true -> frame_ok idt e = true -> value c e = inl v -> in_u 64 v.
Proof.
  intros Hc. revert v. assert (HW : forall x, in_u 64 (x mod 2 ^ 64)) by (intros; apply Z.mod_pos_bound; lia).
  induction e as [n|k sign z|n|z|n off|e IH|n e IH|e IH n|op e IH|op e1 IH1 e2 IH2|e IH n|e IH n|x IHc e1 IH1 e2 IH2];
    intros v Hw Hf Hv; cbn [eval wf frame_ok] in *; rewrite ?andb_true_iff in *.
  - injection Hv as <-. unfold in_u. lia.
  - by injection Hv as <-.
  - injection Hv as <-. unfold in_u. lia.
  - by injection Hv as <-.
  - destruct (Vm.get_reg_by_id _ _); [|done]. destruct (Vm.read_reg_value _ _ _); [|done]. by injection Hv as <-.
  - destruct (value c e) as [a|]; [|done]. by apply (load_in_u c a (ru_address_size r)).
  - destruct (value c e) as [a|]; [|done]. apply (load_in_u c a n); [done|lia|done].
  - destruct (value c e); [|done]. by injection Hv as <-.
  - done.
  - destruct Hw as [Hw1 Hw2], Hf as [[Hop Hf1] Hf2]. destruct (value c e1) as [a|]; [|done]. destruct (value c e2) as [b|]; [|done].
    specialize (IH1 a Hw1 Hf1 eq_refl). specialize (IH2 b Hw2 Hf2 eq_refl). cbn [bindr] in Hv.
    assert (HB : forall q, in_u 64 (b2z q)) by (intros []; by compute).
    destruct op; try discriminate Hop; cbn [binop_value] in Hv; injection Hv as <-; auto; [by apply in_u_land2|by apply in_u_lor].
  - destruct (value c e); [|done]. by injection Hv as <-.
  - done.
  - done.
Qed.

Definition yields (e : expr) (c : Cpu T) (stk stk' : list Z) : Prop := exists v, value c e = inl v /\ stk' = v :: stk.

Lemma wf_unary (p q : bool) : p && q = true -> p = true /\ q = true.
Proof. apply andb_true_iff. Qed.

(** An operation on the value of [e]. *)
Lemma segment_unary e l Q (R : Cpu T -> list Z -> list Z -> Prop) : segment (compile be e) (yields e) -> segment l Q ->
  (forall c stk stk', R c stk stk' -> exists v, value c e = inl v /\ Q c (v :: stk) stk') -> segment (compile be e ++ l) R.
Proof.
  intros He Hl HR. eapply segment_app; [exact He|exact Hl|]. intros c stk stk' H'. destruct (HR c stk stk' H') as (v & Hv & HQ).
  exists (v :: stk). split; [by exists v|done].
Qed.

Lemma segment_weaken l (P Q : Cpu T -> list Z -> list Z -> Prop) : segment l P ->
  (forall c a b, env_ok (frame_env idt c) -> Q c a b -> P c a b) -> segment l Q.
Proof. intros (cmds & H1 & H2 & H3) HQ. exists cmds. split_and!; [done|done|]. intros c args a b Hc HQ'. apply H3; auto. Qed.

Lemma segment_yields e : wf be e = true -> frame_ok idt e = true -> segment (compile be e) (yields e).
Proof.
  induction e as [n|k sign z|n|z|n off|e IH|n e IH|e IH n|op e IH|op e1 IH1 e2 IH2|e IH n|e IH n|x IHc e1 IH1 e2 IH2];
    intros Hw Hf; pose proof Hw as Hw'; cbn [wf frame_ok compile] in Hw, Hf |- *; rewrite ?andb_true_iff in *; try done.
  - apply (segment_weaken _ (pushes n)); [apply segment_lit; lia|]. by intros c a b _ (v & [= <-] & ->).
  - apply (segment_weaken _ (pushes (z mod 2 ^ 64))); [by apply segment_const|]. by intros c a b _ (v & [= <-] & ->).
  - apply (segment_weaken _ (pushes n)); [apply segment_constu; unfold in_u; lia|]. by intros c a b _ (v & [= <-] & ->).
  - apply (segment_weaken _ (pushes (z mod 2 ^ 64))); [apply segment_consts; unfold fits_s in Hw; unfold in_s; lia|].
    by intros c a b _ (v & [= <-] & ->).
  - apply segment_breg; [lia|unfold fits_s in Hw; unfold in_s; lia|done].
  - eapply segment_unary; [apply IH; tauto|apply segment_deref|]. intros c stk stk' (v & Hv & ->). cbn [eval] in Hv.
    destruct (value c e) as [a|]; [|done]. exists a. split; [done|]. exists a, v, stk. by split_and!.
  - eapply segment_unary; [apply IH; tauto|apply (segment_deref_size n); lia|]. intros c stk stk' (v & Hv & ->). cbn [eval] in Hv.
    destruct (value c e) as [a|]; [|done]. exists a. split; [done|]. exists a, v, stk. by split_and!.
  - assert (He : wf be e = true) by tauto. apply (segment_weaken _ (fun c stk stk' => exists v, (value c e = inl v /\ in_u 64 v) /\
      stk' = (v + n) mod 2 ^ 64 :: stk)).
    + eapply segment_unary; [apply IH; tauto|apply (segment_plus_uconst n); unfold in_u; lia|]. intros c stk stk' (v & [Hv Hu] & ->).
      exists v. split; [done|]. exists v, stk. by split_and!.
    + intros c stk stk' Hc (v & Hv & ->). cbn [eval] in Hv. destruct (value c e) as [a|] eqn:Ea; [|done]. injection Hv as <-.
      exists a. split_and!; [done|by eapply eval_in_u|done].
  - destruct Hw as [Hw1 Hw2], Hf as [[Hop Hf1] Hf2]. apply bool_decide_true in Hop.
    apply (segment_weaken _ (fun c stk stk' => exists a b v, (value c e1 = inl a /\ in_u 64 a) /\ (value c e2 = inl b /\ in_u 64 b) /\
      binop_value op a b = inl v /\ stk' = v :: stk)).
    + eapply segment_unary with (Q := fun c stk stk' => exists a b v l, stk = a :: l /\ in_u 64 a /\ (value c e2 = inl b /\ in_u 64 b) /\
        binop_value op a b = inl v /\ stk' = v :: l); [by apply IH1| |].
      * eapply segment_unary; [by apply IH2|by apply (segment_binop op)|]. intros c stk stk' (a & b & v & l & -> & Ha & [Hb Hbu] & Hv & ->).
        exists b. split; [done|]. exists a, b, v, l. by split_and!.
      * intros c stk stk' (a & b & v & [Ha Hau] & [Hb Hbu] & Hv & ->). exists a. split; [done|]. exists a, b, v, stk. by split_and!.
    + intros c stk stk' Hc (v & Hv & ->). cbn [eval] in Hv. destruct (value c e1) as [a|] eqn:Ea; [|done].
      destruct (value c e2) as [b|] eqn:Eb; [|done]. exists a, b, v. split_and!; try done; [by apply (eval_in_u c e1)|by apply (eval_in_u c e2)].
  - assert (He : wf be e = true) by tauto. apply (segment_weaken _ (fun c stk stk' => exists v, (value c e = inl v /\ in_u 64 v) /\
      stk' = (v * 2 ^ n) mod 2 ^ 64 :: stk)).
    + eapply segment_unary; [apply IH; tauto|apply (segment_shl n); lia|]. intros c stk stk' (v & [Hv Hu] & ->).
      exists v. split; [done|]. exists v, stk. by split_and!.
    + intros c stk stk' Hc (v & Hv & ->). cbn [eval] in Hv. destruct (value c e) as [a|] eqn:Ea; [|done]. injection Hv as <-.
      exists a. split_and!; [done|by eapply eval_in_u|done].
Qed.

(** *** Expressions of the frame address *)

Abbreviation cvalue c cfa t := (ceval (frame_env idt c) (ru_address_size r) be cfa t).

Lemma ceval_in_u c cfa t v : env_ok (frame_env idt c) -> in_u 64 cfa -> cwf be t = true -> cframe_ok idt t = true -> cvalue c cfa t = inl v -> in_u 64 v.
Proof.
  intros Hc Hcfa. revert v. assert (HW : forall x, in_u 64 (x mod 2 ^ 64)) by (intros; apply Z.mod_pos_bound; lia).
  induction t as [|t IH|n t IH|t IH n|op t IH e|t IH n]; intros v Hw Hf Hv; cbn [ceval cwf cframe_ok] in *; rewrite ?andb_true_iff in *.
  - by injection Hv as <-.
  - destruct (cvalue c cfa t) as [a|]; [|done]. by apply (load_in_u c a (ru_address_size r)).
  - destruct (cvalue c cfa t) as [a|]; [|done]. apply (load_in_u c a n); [done|lia|done].
  - destruct (cvalue c cfa t); [|done]. by injection Hv as <-.
  - destruct Hw as [Hw1 Hw2], Hf as [[Hop Hf1] Hf2]. destruct (cvalue c cfa t) as [a|]; [|done]. destruct (value c e) as [b|] eqn:Eb; [|done].
    specialize (IH a Hw1 Hf1 eq_refl). pose proof (eval_in_u c e b Hc Hw2 Hf2 Eb). cbn [bindr] in Hv.
    assert (HB : forall q, in_u 64 (b2z q)) by (intros []; by compute).
    destruct op; try discriminate Hop; cbn [binop_value] in Hv; injection Hv as <-; auto; [by apply in_u_land2|by apply in_u_lor].
  - destruct (cvalue c cfa t); [|done]. by injection Hv as <-.
Qed.

(** The frame address on the top becomes the value. *)
Definition cyields (t : cexpr) (c : Cpu T) (stk stk' : list Z) : Prop :=
  exists cfa l v, stk = cfa :: l /\ in_u 64 cfa /\ cvalue c cfa t = inl v /\ stk' = v :: l.

Lemma segment_cunary t l Q (R : Cpu T -> list Z -> list Z -> Prop) : cwf be t = true -> cframe_ok idt t = true ->
  segment (ccompile be t) (cyields t) -> segment l Q ->
  (forall c stk stk', env_ok (frame_env idt c) -> R c stk stk' ->
    exists cfa k, stk = cfa :: k /\ in_u 64 cfa /\ exists v, cvalue c cfa t = inl v /\ (in_u 64 v -> Q c (v :: k) stk')) ->
  segment (ccompile be t ++ l) R.
Proof.
  intros Hw Hf Ht Hl HR. eapply (segment_weaken _ (fun c stk stk' => exists m, cyields t c stk m /\ Q c m stk')).
  - eapply segment_app; [exact Ht|exact Hl|done].
  - intros c stk stk' Hc H'. destruct (HR c stk stk' Hc H') as (cfa & k & -> & Hu & v & Hv & HQ). exists (v :: k). split; [by exists cfa, k, v|].
    apply HQ. by eapply ceval_in_u.
Qed.

Lemma segment_cyields t : cwf be t = true -> cframe_ok idt t = true -> segment (ccompile be t) (cyields t).
Proof.
  induction t as [|t IH|n t IH|t IH n|op t IH e|t IH n]; intros Hw Hf; cbn [cwf cframe_ok ccompile] in *; rewrite ?andb_true_iff in *.
  - eapply segment_weaken; [apply segment_nil|]. by intros c a b _ (cfa & l & v & -> & _ & [= ->] & ->).
  - eapply (segment_cunary t); [done|done|by apply IH|apply segment_deref|]. intros c stk stk' Hc (cfa & l & v & -> & Hu & Hv & ->). cbn [ceval] in Hv.
    destruct (cvalue c cfa t) as [a|] eqn:Ea; [|done]. exists cfa, l. split_and!; [done|done|]. exists a. split; [done|]. intros _. by exists a, v, l.
  - eapply (segment_cunary t); [tauto|done|apply IH; tauto|apply (segment_deref_size n); lia|]. intros c stk stk' Hc (cfa & l & v & -> & Hu & Hv & ->).
    cbn [ceval] in Hv. destruct (cvalue c cfa t) as [a|] eqn:Ea; [|done]. exists cfa, l. split_and!; [done|done|]. exists a. split; [done|].
    intros _. by exists a, v, l.
  - eapply (segment_cunary t); [tauto|done|apply IH; tauto|apply (segment_plus_uconst n); unfold in_u; lia|].
    intros c stk stk' Hc (cfa & l & v & -> & Hu & Hv & ->). cbn [ceval] in Hv. destruct (cvalue c cfa t) as [a|] eqn:Ea; [|done]. injection Hv as <-.
    exists cfa, l. split_and!; [done|done|]. exists a. split; [done|]. intros Ha. exists a, l. by split_and!.
  - destruct Hw as [Hw1 Hw2], Hf as [[Hop Hf1] Hf2]. apply bool_decide_true in Hop.
    eapply (segment_cunary t) with (Q := fun c stk stk' => exists m, yields e c stk m /\ combines op c m stk'); [done|done|by apply IH| |].
    + eapply segment_app; [by apply segment_yields|by apply (segment_binop op)|done].
    + intros c stk stk' Hc (cfa & l & v & -> & Hu & Hv & ->). cbn [ceval] in Hv. destruct (cvalue c cfa t) as [a|] eqn:Ea; [|done].
      cbn [bindr] in Hv. destruct (value c e) as [b|] eqn:Eb; [|done]. exists cfa, l. split_and!; [done|done|]. exists a. split; [done|]. intros Ha.
      exists (b :: a :: l). split; [by exists b|]. exists a, b, v, l. split_and!; [done|done|by apply (eval_in_u c e)|done|done].
  - eapply (segment_cunary t); [tauto|done|apply IH; tauto|apply (segment_shl n); lia|].
    intros c stk stk' Hc (cfa & l & v & -> & Hu & Hv & ->). cbn [ceval] in Hv. destruct (cvalue c cfa t) as [a|] eqn:Ea; [|done]. injection Hv as <-.
    exists cfa, l. split_and!; [done|done|]. exists a. split; [done|]. intros Ha. exists a, l. by split_and!.
Qed.
End frame.
