(* ===== verification/FrameRow.v ===== *)
(** * Stack frames: the commands of a row

    What a row of the table is worth in a frame, and that the commands that
    [generate_commands] makes of a row compute these values. *)

From S2P Require Import Prelude ByteSource Vm VmSafe VmCompile Registers LocPieces LocExpr LocExprSpec DwarfIo DwarfCfi CfiSpec CfiExec CfiRun CfiEntry CfiFde DwarfFrame FrameExpr.

(** ** The values of a row

    [c]: the context and the frame whose caller is wanted; its frame address [fp] is
    the one of the row when the registers are computed. *)
Section values.
Context {T : Type} `{!ContextIf T}.
Context (r : StackFrameRules) (c : Cpu T).

Abbreviation be := (ru_big_endian r).
Abbreviation idt := (ru_id_type r).

Definition frame_address : option Z := sf_fp <$> cpu_frame c.

(** The value of a register, [dst], by its rule; [src]: the same register of the frame. *)
Inductive rule_value (dst : RegisterDefinition) (src : option RegisterDefinition) : rule -> Z -> Prop :=
| RV_same def v : src = Some def -> reg_word c def = Ok v -> rule_value dst src SameValue v
| RV_offset fp n v : frame_address = Some fp -> 0 <= rd_size dst <= 8 -> mem_word c (rd_size dst) be (u64 (fp + n)) = Ok v ->
    rule_value dst src (Offset n) v
| RV_val_offset fp n : frame_address = Some fp -> rule_value dst src (ValOffset n) (u64 (fp + n))
| RV_register n def v : get_reg_by_id (u32 n) idt = Some def -> reg_word c def = Ok v -> rule_value dst src (Register n) v
| RV_expression fp t a v : frame_address = Some fp -> cwf be t = true -> cframe_ok idt t = true -> ceval (frame_env idt c) (ru_address_size r) be fp t = inl a ->
    0 <= rd_size dst <= 8 -> mem_word c (rd_size dst) be a = Ok v -> rule_value dst src (Expression (ccompile be t)) v
| RV_val_expression fp t v : frame_address = Some fp -> cwf be t = true -> cframe_ok idt t = true -> ceval (frame_env idt c) (ru_address_size r) be fp t = inl v ->
    rule_value dst src (ValExpression (ccompile be t)) v.

(** The return address of MicroBlaze is that of the call; the lowest bit of the
    program counter of ARM is not a part of the address. *)
Definition adjusted (dst : RegisterDefinition) (v : Z) : Z :=
  let v := if (ru_machine r =? EM_MICROBLAZE) && (rd_dwarf_id dst =? 32) && (ru_return_address_register r =? 15) then u64 (v + 8) else v in
  if (ru_machine r =? EM_ARM) && (rd_dwarf_id dst =? 15) then Z.land v 4294967294 else v.

Definition register_value (dst : RegisterDefinition) (src : option RegisterDefinition) (u : rule) (v : Z) : Prop :=
  exists v0, rule_value dst src u v0 /\ v = adjusted dst v0.

(** The frame address. *)
Inductive cfa_value : cfa -> Z -> Prop :=
| CV_offset n def v offs : get_reg_by_id n idt = Some def -> reg_word c def = Ok v ->
    cfa_value (CfaOffset n offs) (u64 ((if (ru_machine r =? EM_TRICORE) && (rd_dwarf_id def =? 41) then pcxi_address v else v) + offs))
| CV_expression e v : wf be e = true -> frame_ok idt e = true -> eval (frame_env idt c) None (ru_address_size r) be e = inl v -> cfa_value (CfaExpression (compile be e)) v.

(** Reading gives bytes, and the frame address is a word. *)
Record frame_sane : Prop := {
  fs_env : env_ok (frame_env idt c);
  fs_fp fp : frame_address = Some fp -> in_u 64 fp;
}.

(** The word that the commands compute. *)
Definition computes (cmds : list (LocationExpressionCommand T)) (v : Z) : Prop :=
  exists l, evaluate_location_expression cmds [] c = (Ok l, c) /\ le_pieces l = [] /\ le_stk_pos l = 1 /\ znth (le_stk l) 0 = Some v.
End values.

(** Rules whose expressions are supported. *)
Definition rule_supported {T} `{!ContextIf T} (be : bool) (idt : Z) (u : rule) : Prop :=
  match u with
  | Expression e | ValExpression e => e <> [] /\ exists t, e = ccompile be t /\ cwf be t = true /\ cframe_ok idt t = true
  | _ => True
  end.

Definition cfa_supported {T} `{!ContextIf T} (be : bool) (idt : Z) (u : cfa) : Prop :=
  match u with
  | NoCfa => False
  | CfaOffset n _ => exists def, get_reg_by_id n idt = Some def
  | CfaExpression e => exists t, e = compile be t /\ wf be t = true /\ frame_ok idt t = true
  end.

Section gen.
Context {T : Type} `{!ContextIf T, !Relocator}.
Context (elf_map : option ELF_Section -> Z -> Z + Z).
Context (r : StackFrameRules) (sec : ELF_Section) (d : bytes) (Hsec : section_ok sec d).
Context (Hrsec : ru_section r = Some sec) (Hadr : 0 <= ru_address_size r <= 8).

Abbreviation be := (ru_big_endian r).
Abbreviation idt := (ru_id_type r).
Abbreviation asz := (file_asz (ru_file r)).
Abbreviation Command := (LocationExpressionCommand T).

(** With commands that have been added, and some position in the section. *)
Definition upd (cmds : list Command) (o : Dio) (s : Dwf T) : Dwf T :=
  set_df_trace_cmds (df_trace_cmds s ++ cmds) (set_df_cfi (set_cf_io o (df_cfi s)) s).

Definition gives {A} (m : M (Dwf T) A) (a : A) (cmds : list Command) : Prop :=
  forall s, cf_rules (df_cfi s) = r -> exists o, m s = (Ok a, upd cmds o s).

Lemma upd_same s : upd [] (cf_io (df_cfi s)) s = s.
Proof. unfold upd. rewrite app_nil_r. by destruct s as [[]]. Qed.

Lemma upd_upd a b o1 o2 s : upd b o2 (upd a o1 s) = upd (a ++ b) o2 s.
Proof. unfold upd. cbn. by rewrite <- app_assoc. Qed.

Lemma gives_ret {A} (a : A) : gives (mret a) a [].
Proof. intros s _. exists (cf_io (df_cfi s)). by rewrite upd_same. Qed.

Lemma gives_bind {A B} (m : M (Dwf T) A) (f : A -> M (Dwf T) B) a b x y : gives m a x -> gives (f a) b y -> gives (m ≫= f) b (x ++ y).
Proof.
  intros Hm Hf s Hs. destruct (Hm s Hs) as (o1 & E1). rewrite (bind_ok _ _ _ _ _ E1). destruct (Hf (upd x o1 s) Hs) as (o2 & E2).
  exists o2. by rewrite E2, upd_upd.
Qed.

Lemma gives_command cmd : gives (add_command cmd) tt [cmd].
Proof. intros s _. exists (cf_io (df_cfi s)). unfold upd, add_command, modify. by destruct s as [[]]. Qed.

Lemma gives_rules {A} (f : StackFrameRules -> M (Dwf T) A) a x : gives (f r) a x -> gives (frame_rules ≫= f) a x.
Proof. intros Hf s Hs. rewrite frame_rules_bind, Hs. by apply Hf. Qed.

Lemma gives_reg {A} n (f : option RegisterDefinition -> M (Dwf T) A) a x : gives (f (get_reg_by_id n idt)) a x -> gives (reg_by_id n ≫= f) a x.
Proof. intros Hf s Hs. unfold reg_by_id. rewrite bind_assoc, frame_rules_bind, ret_bind, Hs. by apply Hf. Qed.

Lemma gives_plus n : gives (if n =? 0 then mret tt else add_number n ;; add_command SFT_CMD_ADD) tt (plus_cmds n).
Proof. unfold plus_cmds. destruct (n =? 0); [apply gives_ret|]. exact (gives_bind _ _ tt tt [_] [_] (gives_command _) (gives_command _)). Qed.

Lemma gives_deref n : gives (add_deref n) tt [SFT_CMD_RD_MEM n be].
Proof. apply gives_rules, gives_command. Qed.

(** The section at the position [p]. *)
Definition section_at (p : Z) : Dio := Build_Dio (Some sec) be (Z.of_nat asz) (Z.of_nat asz) d p (zlen d).

Lemma section_setting p l (s : Dwf T) : cf_rules (df_cfi s) = r -> bytes_at d p l ->
  let s' := set_df_cfi (set_cf_io (section_at p) (df_cfi s)) s in setting r asz sec s' /\ data_at (cf_io (df_cfi s')) l.
Proof.
  intros Hs HB s'. assert (Hset : setting r asz sec s') by (constructor; [done|]; constructor; try done; symmetry; apply Hsec).
  split; [done|]. eapply bytes_at_data; [done|apply Hsec|apply (so_bound _ _ Hsec)|apply Hset|done].
Qed.

(** The operations up to the end of the code. *)
Lemma code_runs l cmds p (s : Dwf T) : code_adds elf_map r asz sec l cmds -> cf_rules (df_cfi s) = r -> bytes_at d p l ->
  exists n, (n <= length l)%nat /\ forall fuel, (n < fuel)%nat ->
  add_operations elf_map fuel (p + zlen l) (set_df_cfi (set_cf_io (section_at p) (df_cfi s)) s) =
    (Ok tt, upd cmds (further (zlen l) (section_at p)) s).
Proof.
  intros (n & Hn & Ha) Hs HB. destruct (section_setting p l s Hs HB) as [Hset HL]. exists n. split; [done|]. intros fuel Hf.
  replace fuel with (n + S (fuel - n - 1))%nat by lia. rewrite Ha by done. cbn [add_operations].
  match goal with |- (dio dio_GetPos ≫= _) ?s2 = _ => assert (E3 : dio dio_GetPos s2 = (Ok (p + zlen l), s2)) by done end.
  rewrite (bind_ok _ _ _ _ _ E3), Z.ltb_irrefl. done.
Qed.

(** The code determines the commands. *)
Lemma code_unique l p a b : bytes_at d p l -> code_adds elf_map r asz sec l a -> code_adds elf_map r asz sec l b -> a = b.
Proof.
  intros HB Ha Hb. set (s := Build_Dwf (Build_Cfi (section_at p) r no_registers no_registers [] 0) [] [] [] 0 0 [] : Dwf T).
  destruct (code_runs l a p s Ha eq_refl HB) as (n & _ & E1). destruct (code_runs l b p s Hb eq_refl HB) as (m & _ & E2).
  specialize (E1 (S (n + m)) ltac:(lia)). rewrite (E2 (S (n + m)) ltac:(lia)) in E1. by injection E1 as ->.
Qed.

(** An expression of the section. *)
Lemma expression_gives p l cmds : l <> [] -> zlen l < 2 ^ 31 -> bytes_at d p l -> code_adds elf_map r asz sec l cmds ->
  gives (add_dwarf_expression_commands elf_map p (zlen l)) tt cmds.
Proof.
  intros Hne Hz HB Ha s Hs. pose proof (zlen_nonneg l). pose proof (by_low _ _ _ HB). pose proof (by_high _ _ _ HB).
  assert (Hl : 0 < zlen l) by (destruct l as [|b l]; [done|]; rewrite zlen_cons; pose proof (zlen_nonneg l); lia).
  unfold add_dwarf_expression_commands. rewrite frame_rules_bind, Hs, Hrsec. cbn [of_option]. rewrite ret_bind.
  set (s1 := set_df_cfi (set_cf_io (section_at p) (df_cfi s)) s).
  assert (E1 : dio (dio_EnterSection None (ru_file r) sec p) s = (Ok tt, s1)).
  { unfold dio, cfi, io. by rewrite (enter_section_at _ _ _ Hsec) by lia. }
  rewrite (bind_ok _ _ _ _ _ E1).
  assert (E2 : cfi exec_fuel s1 = (Ok (S (length d)), s1)) by done. rewrite (bind_ok _ _ _ _ _ E2).
  pose proof (so_bound _ _ Hsec). rewrite (wrapu_small 32), (wrapu_small 64) by lia.
  destruct (code_runs l cmds p s Ha Hs HB) as (n & Hn & E). eexists. apply E. unfold zlen in *. lia.
Qed.

(** ** The commands of a rule *)

(** The commands push [v]. *)
Definition pushes_value (c : Cpu T) (cmds : list Command) (v : Z) : Prop :=
  forallb word_command cmds = true /\ in_u 64 v /\ forall args, spec_commands c args cmds [] = Ok [v].

Lemma spec_fp c args fp cmds : frame_address c = Some fp -> spec_commands c args (SFT_CMD_FP :: cmds) [] = spec_commands c args cmds [fp].
Proof.
  unfold frame_address. cbn [spec_commands spec_command]. destruct (cpu_frame c) as [f|]; [|done]. by intros [= ->].
Qed.

Lemma reg_word_pushes c def v : frame_sane r c -> reg_word c def = Ok v -> pushes_value c [SFT_CMD_RD_REG def] v.
Proof.
  intros Hc Hv. split_and!; [done|by eapply env_reg_word; [apply Hc|]|]. intros args. cbn [spec_commands spec_command]. by rewrite Hv.
Qed.

(** An offset from the frame address. *)
Lemma val_offset_pushes c fp n : frame_sane r c -> frame_address c = Some fp -> pushes_value c (SFT_CMD_FP :: plus_cmds n) (u64 (fp + n)).
Proof.
  intros Hc Hf. split_and!; [apply plus_cmds_words|apply in_u_wrap; lia|]. intros args. rewrite (spec_fp c args fp) by done.
  apply spec_plus. by apply (fs_fp _ _ Hc).
Qed.

(** What is in memory at the value. *)
Lemma mem_pushes c cmds a n v : frame_sane r c -> pushes_value c cmds a -> 0 <= n <= 8 -> mem_word c n be a = Ok v ->
  pushes_value c (cmds ++ [SFT_CMD_RD_MEM n be]) v.
Proof.
  intros Hc (H1 & H2 & H3) Hn Hv. split_and!.
  - rewrite forallb_app, H1. cbn. rewrite andb_true_r. lia.
  - unfold mem_word in Hv. destruct (ctx_read_mem a n (cpu_ctx c)) as [l|] eqn:El; [|done]. injection Hv as <-. apply be_value_range.
    destruct (env_mem _ (fs_env _ _ Hc) a n l El) as [_ HB]; [lia|]. destruct be; [done|by apply Forall_reverse].
  - intros args. rewrite spec_commands_app, H3. cbn [spec_commands spec_command on_word]. by rewrite Hv.
Qed.

Lemma cexpr_pushes c fp t v cmds : frame_sane r c -> cwf be t = true -> cframe_ok idt t = true -> frame_address c = Some fp ->
  ceval (frame_env idt c) (ru_address_size r) be fp t = inl v -> forallb word_command cmds = true ->
  (forall args stk stk', cyields r t c stk stk' -> spec_commands c args cmds stk = Ok stk') -> pushes_value c (SFT_CMD_FP :: cmds) v.
Proof.
  intros Hc Hw Hok Hf Hv HW HS. pose proof (fs_fp _ _ Hc fp Hf) as Hfp. split_and!; [done| |].
  - exact (ceval_in_u r Hadr c fp t v (fs_env _ _ Hc) Hfp Hw Hok Hv).
  - intros args. rewrite (spec_fp c args fp) by done. apply HS. exists fp, [], v. by split_and!.
Qed.

(** The commands of a rule compute its value. *)
Definition right_commands (dst : RegisterDefinition) (src : option RegisterDefinition) (u : rule) (go : bool) (cmds : list Command) : Prop :=
  forall c v, frame_sane r c -> rule_value r c dst src u v -> go = true /\ pushes_value c cmds v.

Lemma block_bytes p n e : block_at d p n e -> bytes_at d p e /\ n = zlen e /\ zlen e < 2 ^ 31.
Proof.
  intros [H1 H2 H3 H4 H5]. split_and!; [by constructor|done|]. apply andb_true_iff in H5 as [_ H5]. unfold fits_u in H5. lia.
Qed.

Lemma expression_rule_gives x e (mem : bool) size t : block_at d (rr_expression x) (rr_offset x) e -> e = ccompile be t -> e <> [] ->
  cwf be t = true -> cframe_ok idt t = true ->
  exists cmds, gives (add_command SFT_CMD_FP ;; add_dwarf_expression_commands elf_map (rr_expression x) (rr_offset x) ;;
      (if mem then add_deref size else mret tt) ;; mret true) true (SFT_CMD_FP :: cmds ++ if mem then [SFT_CMD_RD_MEM size be] else []) /\
    forall c fp t v, e = ccompile be t -> cwf be t = true -> cframe_ok idt t = true ->
      frame_sane r c -> frame_address c = Some fp -> ceval (frame_env idt c) (ru_address_size r) be fp t = inl v ->
      pushes_value c (SFT_CMD_FP :: cmds) v.
Proof.
  intros HB Ht Hne Hw Hok. destruct (block_bytes _ _ _ HB) as (HB' & -> & Hz).
  destruct (segment_cyields elf_map r asz sec Hadr t Hw Hok) as (cmds & HA & _). rewrite <- Ht in HA. exists cmds. split.
  - eapply (gives_bind _ _ _ _ [_]); [apply gives_command|]. eapply gives_bind; [by apply expression_gives|].
    rewrite <- (app_nil_r (if mem then _ else _)). eapply gives_bind; [|apply gives_ret]. destruct mem; [apply gives_deref|apply gives_ret].
  - intros c fp t' v Ht' Hw' Hok' Hc Hf Hv. destruct (segment_cyields elf_map r asz sec Hadr t' Hw' Hok') as (cmds' & HA' & HW & HS).
    rewrite <- Ht' in HA'. rewrite (code_unique _ _ _ _ HB' HA HA'). eapply (cexpr_pushes c fp t'); try done.
    intros args stk stk' HY. apply HS; [apply Hc|done].
Qed.

Lemma rule_gives x u dst src : rule_is d x u -> rule_supported be idt u -> u <> Undefined ->
  exists go cmds, gives (rule_commands elf_map x (rd_size dst) src) go cmds /\ right_commands dst src u go cmds.
Proof.
  intros Hx Hu Hne. unfold rule_commands. destruct u as [| |n|n|n|e|e]; [done|..]; cbn [rule_is rule_supported] in *.
  - rewrite Hx. cbn [Z.eqb Pos.eqb orb RULE_SAME_VALUE RULE_VAL_OFFSET RULE_OFFSET]. destruct src as [def|].
    + exists true, [SFT_CMD_RD_REG def]. split; [exact (gives_bind _ _ tt true [_] [] (gives_command _) (gives_ret _))|].
      intros c v Hc Hv. inversion Hv as [def' v' E1 E2| | | | |]; subst. injection E1 as ->. split; [done|]. by apply reg_word_pushes.
    + exists false, []. split; [apply gives_ret|]. intros c v Hc Hv. by inversion Hv.
  - destruct Hx as [Hx1 Hx2]. rewrite Hx1, Hx2. cbn [Z.eqb Pos.eqb orb RULE_VAL_OFFSET RULE_OFFSET].
    exists true, (SFT_CMD_FP :: plus_cmds n ++ [SFT_CMD_RD_MEM (rd_size dst) be]). split.
    + eapply (gives_bind _ _ _ _ [_]); [apply gives_command|]. eapply gives_bind; [apply gives_plus|].
      eapply (gives_bind _ _ _ _ [_] []); [apply gives_deref|apply gives_ret].
    + intros c v Hc Hv. inversion Hv as [|fp n' v' Hf Hs Hm| | | |]; subst. split; [done|].
      exact (mem_pushes _ _ _ _ _ Hc (val_offset_pushes _ _ _ Hc Hf) Hs Hm).
  - destruct Hx as [Hx1 Hx2]. rewrite Hx1, Hx2. cbn [Z.eqb Pos.eqb orb RULE_VAL_OFFSET RULE_OFFSET].
    exists true, (SFT_CMD_FP :: plus_cmds n). split.
    + eapply (gives_bind _ _ _ _ [_]); [apply gives_command|]. rewrite <- (app_nil_r (plus_cmds n)). eapply gives_bind; [apply gives_plus|].
      exact (gives_bind _ _ tt true [] [] (gives_ret _) (gives_ret _)).
    + intros c v Hc Hv. inversion Hv as [| |fp n' Hf| | |]; subst. split; [done|]. by apply val_offset_pushes.
  - destruct Hx as [Hx1 Hx2]. rewrite Hx1, Hx2. cbn [Z.eqb Pos.eqb orb RULE_SAME_VALUE RULE_VAL_OFFSET RULE_OFFSET RULE_REGISTER].
    destruct (get_reg_by_id (u32 n) idt) as [def|] eqn:Ed.
    + exists true, [SFT_CMD_RD_REG def]. split.
      * apply gives_reg. rewrite Ed. exact (gives_bind _ _ tt true [_] [] (gives_command _) (gives_ret _)).
      * intros c v Hc Hv. inversion Hv as [| | |n' def' v' E1 E2| |]; subst. rewrite Ed in E1. injection E1 as ->. split; [done|].
        by apply reg_word_pushes.
    + exists true, []. split.
      * apply gives_reg. rewrite Ed. exact (gives_bind _ _ tt true [] [] (gives_ret _) (gives_ret _)).
      * intros c v Hc Hv. inversion Hv as [| | |n' def' v' E1 E2| |]; subst. by rewrite Ed in E1.
  - destruct Hx as [Hx1 HB], Hu as (Hn & t & Et & Hw & Hok). rewrite Hx1.
    cbn [Z.eqb Pos.eqb orb RULE_SAME_VALUE RULE_VAL_OFFSET RULE_OFFSET RULE_REGISTER RULE_EXPRESSION RULE_VAL_EXPRESSION].
    destruct (expression_rule_gives x e true (rd_size dst) t HB Et Hn Hw Hok) as (cmds & HG & HV).
    eexists true, _. split; [exact HG|]. intros c v Hc Hv. inversion Hv as [| | | |fp t' a v' Hf Hw' Hok' Ha Hs Hm Et'|]; subst. split; [done|].
    exact (mem_pushes _ _ _ _ _ Hc (HV c fp t' a (eq_sym Et') Hw' Hok' Hc Hf Ha) Hs Hm).
  - destruct Hx as [Hx1 HB], Hu as (Hn & t & Et & Hw & Hok). rewrite Hx1.
    cbn [Z.eqb Pos.eqb orb RULE_SAME_VALUE RULE_VAL_OFFSET RULE_OFFSET RULE_REGISTER RULE_EXPRESSION RULE_VAL_EXPRESSION].
    destruct (expression_rule_gives x e false (rd_size dst) t HB Et Hn Hw Hok) as (cmds & HG & HV). rewrite app_nil_r in HG.
    eexists true, _. split; [exact HG|]. intros c v Hc Hv. inversion Hv as [| | | | |fp t' v' Hf Hw' Hok' Ha Et']; subst. split; [done|].
    exact (HV c fp t' v (eq_sym Et') Hw' Hok' Hc Hf Ha).
Qed.
End gen.

(** ** Stack frames: the commands of all registers

    [generate_commands] at a row of the table: the commands of the frame address, of
    the program counter, and of every register that has a rule. *)

(** Registers beyond those of the architecture have no implied rule. *)
Lemma implied_none machine rar n : 0 <= n -> min_reg_cnt machine <= n -> n <> rar -> rr_rule (implied_rule machine rar n) = 0.
Proof.
  unfold min_reg_cnt, implied_rule, in_range. intros H0 Hm Hn. rewrite (proj2 (Z.eqb_neq n rar)) by done.
  repeat match goal with |- context [machine =? ?x] => destruct (machine =? x) end; cbn [orb] in *; try done; repeat case_match; try done; lia.
Qed.

Section row.
Context {T : Type} `{!ContextIf T, !Relocator}.
Context (elf_map : option ELF_Section -> Z -> Z + Z).
Context (r : StackFrameRules) (sec : ELF_Section) (d : bytes) (Hsec : section_ok sec d).
Context (Hrsec : ru_section r = Some sec) (Hadr : 0 <= ru_address_size r <= 8).

Abbreviation be := (ru_big_endian r).
Abbreviation idt := (ru_id_type r).
Abbreviation Command := (LocationExpressionCommand T).
Abbreviation gives := (gives r).
Abbreviation Location := (StackFrameRegisterLocation T).

(** ** The commands of a register *)

Definition adjust_cmds (dst : RegisterDefinition) : list Command :=
  (if (ru_machine r =? EM_MICROBLAZE) && (rd_dwarf_id dst =? 32) && (ru_return_address_register r =? 15)
   then [SFT_CMD_NUMBER 8; SFT_CMD_ADD] else []) ++
  (if (ru_machine r =? EM_ARM) && (rd_dwarf_id dst =? 15) then [SFT_CMD_NUMBER 4294967294; SFT_CMD_AND] else []).

Lemma adjust_gives dst : gives (adjust_commands dst) tt (adjust_cmds dst).
Proof.
  apply gives_rules. unfold adjust_cmds. apply (gives_bind _ _ _ tt).
  - destruct (_ && _ && _); [|apply gives_ret]. exact (gives_bind _ _ _ tt tt [_] [_] (gives_command _ _) (gives_command _ _)).
  - destruct (_ && _); [|apply gives_ret]. exact (gives_bind _ _ _ tt tt [_] [_] (gives_command _ _) (gives_command _ _)).
Qed.

Lemma adjust_pushes c dst cmds v : pushes_value c cmds v -> pushes_value c (cmds ++ adjust_cmds dst) (adjusted r dst v).
Proof.
  intros (H1 & H2 & H3). unfold adjusted, adjust_cmds. set (b1 := _ && _ && _). set (b2 := (ru_machine r =? EM_ARM) && _).
  assert (HA : forall b, in_u 64 (let v := if b : bool then u64 (v + 8) else v in v)) by (intros []; [apply in_u_wrap; lia|done]).
  split_and!.
  - rewrite !forallb_app, H1. by destruct b1, b2.
  - destruct b2; [|apply HA]. apply in_u_land2; [apply HA|by compute].
  - intros args. rewrite spec_commands_app, H3. destruct b1, b2; cbn [app spec_commands spec_command on_words then_word total2]; try done;
      rewrite (wrapu_small 64 4294967294), (wrapu_small 64 (Z.land _ _)) by (done || (apply in_u_land2; [|by compute]; done || (apply in_u_wrap; lia)));
      done.
Qed.

Lemma pushes_computes c cmds v : pushes_value c cmds v -> computes c cmds v.
Proof.
  intros (H1 & H2 & H3). pose proof (evaluate_words c [] cmds H1) as E. rewrite H3 in E. destruct E as (rest & E).
  eexists. split_and!; [exact E|done..].
Qed.

(** The commands of the register [dst], if there are any. *)
Definition right_part (dst : RegisterDefinition) (src : option RegisterDefinition) (u : rule) (part : list Location) : Prop :=
  (forall l, l ∈ part -> rl_reg l = Some dst) /\
  forall c v, frame_sane r c -> register_value r c dst src u v ->
    exists cmds, part = [Build_StackFrameRegisterLocation (Some dst) cmds] /\ computes c cmds v.

(** What the commands are generated into. *)
Definition gen (o : Dio) (rgs : StackFrameRegisters) (tc : list Command) (regs : list Location) (s : Dwf T) : Dwf T :=
  set_df_regs regs (set_df_trace_cmds tc (set_df_cfi (set_cf_frame_regs rgs (set_cf_io o (df_cfi s))) s)).

Lemma gen_gen o1 o2 g1 g2 t1 t2 l1 l2 s : gen o2 g2 t2 l2 (gen o1 g1 t1 l1 s) = gen o2 g2 t2 l2 s.
Proof. done. Qed.

(** [m] keeps the rules and the registers, and adds [part]. *)
Definition adds_part (m : M (Dwf T) unit) (part : list Location) : Prop :=
  forall s, cf_rules (df_cfi s) = r -> exists o tc, m s = (Ok tt, gen o (cf_frame_regs (df_cfi s)) tc (df_regs s ++ part) s).

Lemma register_part x u dst src : rule_is d x u -> rule_supported be idt u -> u <> Undefined ->
  exists part, adds_part (generate_register_commands elf_map x (Some dst) src) part /\ right_part dst src u part.
Proof.
  intros Hx Hu Hne. destruct (rule_gives elf_map r sec d Hsec Hrsec Hadr x u dst src Hx Hu Hne) as (go & cmds & HG & HR).
  set (all := cmds ++ adjust_cmds dst). exists (if go then match all with [] => [] | _ => [Build_StackFrameRegisterLocation (Some dst) all] end else []).
  split.
  - intros s Hs. unfold generate_register_commands. set (s0 := set_df_trace_cmds [] s). rewrite modify_bind. fold s0.
    destruct (HG s0 Hs) as (o1 & E1). rewrite (bind_ok _ _ _ _ _ E1). destruct go.
    + destruct (adjust_gives dst (upd cmds o1 s0) Hs) as (o2 & E2). rewrite (bind_ok _ _ _ _ _ E2), upd_upd, (bind_ok get _ _ _ _ eq_refl).
      change (df_trace_cmds (upd (cmds ++ adjust_cmds dst) o2 s0)) with all. exists o2, all. destruct all as [|a l0] eqn:Ea.
      * unfold upd. fold all. rewrite app_nil_r. unfold gen, s0. destruct s as [[]]; cbn in *. by rewrite Ea.
      * unfold add_register_sequence, modify, upd. fold all. unfold gen, s0. destruct s as [[]]; cbn in *. by rewrite Ea.
    + exists o1, cmds. rewrite app_nil_r. unfold gen, upd, s0. by destruct s as [[]].
  - split.
    + intros l Hl. destruct go, all; try (by apply elem_of_nil in Hl). by apply list_elem_of_singleton in Hl as ->.
    + intros c v Hc (v0 & Hv & ->). destruct (HR c v0 Hc Hv) as [-> HP]. exists all.
      pose proof (adjust_pushes c dst cmds v0 HP) as HA. split; [|by apply pushes_computes].
      destruct all eqn:Ea; [|done]. unfold all in Ea. rewrite Ea in HA. destruct HA as (_ & _ & HA). by specialize (HA []).
Qed.

(** ** All registers *)

Lemma rule_is_zero x u : rule_is d x u -> (rr_rule x =? 0) = bool_decide (u = Undefined).
Proof.
  destruct u; cbn [rule_is]; [intros ->; done|intros ->; done|..]; intros [-> _]; done.
Qed.

Lemma with_reg_same n rgs : 0 <= n < zlen (sr_regs rgs) -> with_reg r n rgs = rgs.
Proof.
  intros Hn. unfold with_reg. destruct (Z.to_nat (Z.max (n + 1) 129)) as [|fuel] eqn:E; [lia|]. cbn [grow_regs].
  rewrite (proj2 (Z.leb_gt _ _)), (proj2 (Z.ltb_ge _ _)) by lia. by destruct rgs.
Qed.

(** The commands of the register number [n]. *)
Definition item_part (w : row) (n : Z) (part : list Location) : Prop :=
  match get_reg_by_id n idt with
  | Some def => (row_rule w n = Undefined -> part = []) /\ (row_rule w n <> Undefined -> right_part def (Some def) (row_rule w n) part)
  | None => part = []
  end.

Lemma item_adds w x n : rule_is d x (row_rule w n) -> rule_supported be idt (row_rule w n) ->
  exists part, item_part w n part /\
    adds_part (if rr_rule x =? 0 then mret tt else def ← reg_by_id n; generate_register_commands elf_map x def def) part.
Proof.
  intros Hx Hu. unfold item_part. rewrite (rule_is_zero x (row_rule w n) Hx).
  assert (HN : adds_part (mret tt) []).
  { intros s _. exists (cf_io (df_cfi s)), (df_trace_cmds s). rewrite app_nil_r. by destruct s as [[]]. }
  assert (HR : forall f part, adds_part (f (get_reg_by_id n idt)) part -> adds_part (reg_by_id n ≫= f) part).
  { intros f part Hf s Hs. unfold reg_by_id. rewrite bind_assoc, frame_rules_bind, ret_bind, Hs. by apply Hf. }
  destruct (bool_decide_reflect (row_rule w n = Undefined)) as [E|Hne].
  - exists []. split; [|done]. by destruct (get_reg_by_id n idt).
  - destruct (get_reg_by_id n idt) as [def|] eqn:Ed.
    + destruct (register_part x (row_rule w n) def (Some def) Hx Hu Hne) as (part & HA & HP). exists part. split; [by split|].
      by apply HR.
    + exists []. split; [done|]. by apply HR.
Qed.

Lemma frame_reg_here n s : cf_rules (df_cfi s) = r -> 0 <= n < zlen (sr_regs (cf_frame_regs (df_cfi s))) ->
  cfi (T := T) (frame_reg n) s = (Ok (reg_view r (cf_frame_regs (df_cfi s)) n), s).
Proof.
  intros Hs Hn. unfold cfi. rewrite frame_reg_eq, Hs, with_reg_same by (done || lia). by destruct s as [[]].
Qed.

Lemma registers_add w rgs v l : view_is r rgs v -> row_is d v w -> (forall n, 0 <= n -> rule_supported be idt (row_rule w n)) ->
  Forall (fun n => 0 <= n < zlen (sr_regs rgs)) l ->
  exists parts, Forall2 (item_part w) l parts /\ forall s, cf_rules (df_cfi s) = r -> cf_frame_regs (df_cfi s) = rgs ->
    exists o tc, generate_registers elf_map l s = (Ok tt, gen o rgs tc (df_regs s ++ mjoin parts) s).
Proof.
  intros Hv Hw Hu. induction l as [|n l IH]; intros Hl.
  - exists []. split; [constructor|]. intros s Hs Hr. exists (cf_io (df_cfi s)), (df_trace_cmds s). cbn [mjoin list_join]. rewrite app_nil_r, <- Hr.
    by destruct s as [[]].
  - apply Forall_cons in Hl as [Hn Hl]. destruct (IH Hl) as (parts & HP & HG).
    assert (Hx : rule_is d (reg_view r rgs n) (row_rule w n)) by (rewrite (vi_reg _ _ _ Hv) by lia; apply Hw; lia).
    destruct (item_adds w _ n Hx (Hu n ltac:(lia))) as (part & HI & HA). exists (part :: parts). split; [by constructor|].
    intros s Hs Hr. cbn [generate_registers]. rewrite (bind_ok _ _ _ _ _ (frame_reg_here n s Hs ltac:(by rewrite Hr))).
    rewrite Hr. destruct (HA s Hs) as (o1 & tc1 & E1). rewrite (bind_ok _ _ _ _ _ E1). rewrite Hr in *.
    destruct (HG (gen o1 rgs tc1 (df_regs s ++ part) s) Hs eq_refl) as (o2 & tc2 & E2). exists o2, tc2. rewrite E2.
    change (df_regs (gen o1 rgs tc1 (df_regs s ++ part) s)) with (df_regs s ++ part). by rewrite gen_gen, <- app_assoc.
Qed.

(** ** The frame address *)

Lemma pcxi_word v : in_u 64 (pcxi_address v).
Proof.
  assert (HL : forall m n, 0 <= m -> in_u 20 m -> 0 <= n <= 12 -> in_u 64 (Z.shiftl (Z.land v m) n)).
  { intros m n H0 Hm Hn. unfold in_u in *. assert (Hb : 0 <= Z.land v m < 2 ^ 20).
    { split; [apply Z.land_nonneg; by right|]. destruct (decide (Z.land v m = 0)) as [->|Hne]; [lia|].
      assert (0 <= Z.land v m) by (apply Z.land_nonneg; by right). apply Z.log2_lt_pow2; [lia|].
      rewrite Z.land_comm in *. assert (m <> 0) by (intros ->; by rewrite Z.land_0_l in Hne).
      pose proof (proj1 (Z.log2_lt_pow2 m 20 ltac:(lia)) ltac:(lia)).
      assert (Z.log2 (Z.land m v) <= Z.log2 m); [|lia]. apply Z.log2_le_mono. apply Z.ldiff_le; [lia|].
      apply Z.bits_inj'. intros i Hi. rewrite Z.ldiff_spec, Z.land_spec, Z.bits_0. by destruct (Z.testbit m i), (Z.testbit v i). }
    rewrite Z.shiftl_mul_pow2 by lia. assert (2 ^ n <= 2 ^ 12) by (apply Z.pow_le_mono_r; lia). assert (0 < 2 ^ n) by lia. nia. }
  unfold pcxi_address. apply in_u_lor; [lia|apply HL|apply HL]; unfold in_u; lia.
Qed.

Lemma cfa_adds w rgs v : view_is r rgs v -> row_is d v w -> cfa_supported be idt (row_cfa w) ->
  exists cmds, (forall c v, frame_sane r c -> cfa_value r c (row_cfa w) v -> computes c cmds v) /\
    forall s, cf_rules (df_cfi s) = r -> cf_frame_regs (df_cfi s) = rgs ->
    exists o, generate_cfa_commands elf_map s = (Ok tt, set_df_fp cmds (gen o rgs cmds (df_regs s) s)).
Proof.
  intros Hv Hw Hu. pose proof (ri_cfa _ _ _ Hw) as HC. destruct Hv as [V1 V2 V3 V4 _ _].
  assert (HG : forall m cmds, gives m tt cmds -> forall s, cf_rules (df_cfi s) = r -> cf_frame_regs (df_cfi s) = rgs ->
    exists o, (m ;; modify (fun s => set_df_fp (df_trace_cmds s) s)) (set_df_trace_cmds [] s) =
      (Ok tt, set_df_fp cmds (gen o rgs cmds (df_regs s) s))).
  { intros m cmds Hm s Hs Hr. destruct (Hm (set_df_trace_cmds [] s) Hs) as (o & E). exists o. rewrite (bind_ok _ _ _ _ _ E), <- Hr. by destruct s as [[]]. }
  destruct (row_cfa w) as [|n offs|e]; [done|..]; cbn [cfa_is cfa_supported] in *.
  - destruct HC as (H1 & H2 & H3), Hu as [def Hd].
    set (base := (if (ru_machine r =? EM_TRICORE) && (rd_dwarf_id def =? 41) then SFT_CMD_RD_REG_PCXI_TRICORE def else SFT_CMD_RD_REG def) : Command).
    exists (base :: plus_cmds offs). split.
    + intros c v0 Hc Hv. inversion Hv as [n' def' v' offs' E1 E2 E3 E4|]; subst. rewrite Hd in E1. injection E1 as <-.
      apply pushes_computes. split_and!; [unfold base; rewrite <- (plus_cmds_words (T := T) (vw_offset v)); by destruct (_ && _)|apply in_u_wrap; lia|].
      intros args. subst base. pose proof (env_reg_word r c def v' (fs_env _ _ Hc) E2) as Hu.
      destruct (_ && _); cbn [spec_commands spec_command]; rewrite E2; cbn [then_word]; apply spec_plus; [apply pcxi_word|done].
    + intros s Hs Hr. unfold generate_cfa_commands. rewrite modify_bind, (bind_ok get _ _ _ _ eq_refl).
      change (cf_frame_regs (df_cfi (set_df_trace_cmds [] s))) with (cf_frame_regs (df_cfi s)). rewrite Hr, V1, V2, V3, H1, H2, H3.
      cbn [Z.eqb Pos.eqb RULE_OFFSET]. apply (HG _ (base :: plus_cmds offs)); [|done|done].
      apply gives_reg. rewrite Hd. apply gives_rules. eapply (gives_bind _ _ _ _ _ [base]); [apply gives_command|apply gives_plus].
  - destruct HC as (H1 & HB), Hu as (t & -> & Hwf & Hok).
    destruct (block_bytes d _ _ _ HB) as (HB' & Hn & Hz). pose proof (segment_yields elf_map r (file_asz (ru_file r)) sec Hadr t Hwf Hok) as (cmds & HA & HW & HS).
    exists cmds. split.
    + intros c v0 Hc Hv. inversion Hv as [|e' v' Hwf' Hok' He Et]; subst. apply pushes_computes.
      destruct (segment_yields elf_map r (file_asz (ru_file r)) sec Hadr e' Hwf' Hok') as (cmds' & HA' & HW' & HS').
      rewrite Et in HA'. rewrite (code_unique elf_map r sec d Hsec _ _ _ _ HB' HA HA').
      split_and!; [done|by apply (eval_in_u r Hadr c e'); [apply Hc|..]|]. intros args. apply HS'; [apply Hc|]. by exists v0.
    + intros s Hs Hr. unfold generate_cfa_commands. rewrite modify_bind, (bind_ok get _ _ _ _ eq_refl).
      change (cf_frame_regs (df_cfi (set_df_trace_cmds [] s))) with (cf_frame_regs (df_cfi s)). rewrite Hr, V1, V2, V4, H1, Hn.
      cbn [Z.eqb Pos.eqb RULE_OFFSET RULE_EXPRESSION]. apply (HG _ cmds); [|done|done].
      eapply expression_gives; try done. pose proof (compile_nonempty be t) as Hl. by destruct (compile be t); [cbn in Hl; lia|].
Qed.

(** ** All of a row *)

Abbreviation rar := (ru_return_address_register r).

(** The commands are those of the row [w]. *)
Record row_generated (w : row) (s : Dwf T) : Prop := {
  rg_cfa c v : frame_sane r c -> cfa_value r c (row_cfa w) v -> computes c (df_fp s) v;
  rg_reg n def c v : 0 <= n -> get_reg_by_id n idt = Some def -> row_rule w n <> Undefined -> frame_sane r c ->
    register_value r c def (Some def) (row_rule w n) v ->
    exists cmds, Build_StackFrameRegisterLocation (Some def) cmds ∈ df_regs s /\ computes c cmds v;
  rg_pc pc c v : get_PC_definition T = Some pc -> row_rule w rar <> Undefined -> frame_sane r c ->
    register_value r c pc (get_reg_by_id rar idt) (row_rule w rar) v ->
    exists cmds, Build_StackFrameRegisterLocation (Some pc) cmds ∈ df_regs s /\ computes c cmds v;
  rg_only l : l ∈ df_regs s -> exists dst, rl_reg l = Some dst /\
    ((get_PC_definition T = Some dst /\ row_rule w rar <> Undefined) \/
     exists n, 0 <= n /\ get_reg_by_id n idt = Some dst /\ row_rule w n <> Undefined);
}.

Lemma beyond_undefined v rgs w n : view_is r rgs v -> row_is d v w -> zlen (sr_regs rgs) <= n -> rar < zlen (sr_regs rgs) -> 0 <= rar ->
  row_rule w n = Undefined.
Proof.
  intros Hv Hw Hn Hr H0. pose proof (ri_rule _ _ _ Hw n ltac:(lia)) as Hx. rewrite <- (vi_reg _ _ _ Hv) in Hx by lia.
  assert (E : reg_view r rgs n = implied_rule (ru_machine r) rar n).
  { unfold reg_view. rewrite lookup_ge_None_2; [done|]. unfold zlen in Hn. lia. }
  rewrite E in Hx. assert (Hz : rr_rule (implied_rule (ru_machine r) rar n) = 0).
  { apply implied_none; [lia| |lia]. destruct (vi_full _ _ _ Hv) as [E'|]; [rewrite E' in Hr; change (zlen []) with 0 in Hr; lia|lia]. }
  pose proof (rule_is_zero _ _ Hx) as HZ. rewrite Hz in HZ. symmetry in HZ. by apply bool_decide_true in HZ.
Qed.

Lemma pc_adds w v : row_is d v w -> 0 <= rar < 2 ^ 32 -> rule_supported be idt (row_rule w rar) ->
  exists part, (forall l, l ∈ part -> row_rule w rar <> Undefined /\ exists pc, get_PC_definition T = Some pc /\ rl_reg l = Some pc) /\
    (forall pc, get_PC_definition T = Some pc -> row_rule w rar <> Undefined ->
      right_part pc (get_reg_by_id rar idt) (row_rule w rar) part) /\
    adds_part (if rr_rule (vw_reg v rar) =? 0 then mret tt
      else def ← reg_by_id (u32 rar); generate_register_commands elf_map (vw_reg v rar) (get_PC_definition T) def) part.
Proof.
  intros Hw Hr Hu. pose proof (ri_rule _ _ _ Hw rar ltac:(lia)) as Hx. rewrite (rule_is_zero _ _ Hx), (wrapu_small 32) by lia.
  assert (HN : adds_part (mret tt) []).
  { intros s _. exists (cf_io (df_cfi s)), (df_trace_cmds s). rewrite app_nil_r. by destruct s as [[]]. }
  assert (HR : forall f part, adds_part (f (get_reg_by_id rar idt)) part -> adds_part (reg_by_id rar ≫= f) part).
  { intros f part Hf s Hs. unfold reg_by_id. rewrite bind_assoc, frame_rules_bind, ret_bind, Hs. by apply Hf. }
  destruct (bool_decide_reflect (row_rule w rar = Undefined)) as [E|Hne].
  - exists []. split_and!; [by intros l Hl%elem_of_nil|done|done].
  - destruct (get_PC_definition T) as [pc|] eqn:Epc.
    + destruct (register_part _ (row_rule w rar) pc (get_reg_by_id rar idt) Hx Hu Hne) as (part & HA & HP).
      exists part. split_and!; [|by intros ? [= <-]|by apply HR]. intros l Hl. split; [done|]. exists pc. split; [done|]. by apply HP.
    + exists []. split_and!; [by intros l Hl%elem_of_nil|done|]. by apply HR.
Qed.

Lemma generate_row w v s : cf_rules (df_cfi s) = r -> view_is r (cf_frame_regs (df_cfi s)) v -> row_is d v w -> 0 <= rar < 2 ^ 32 ->
  cfa_supported be idt (row_cfa w) -> (forall n, 0 <= n -> rule_supported be idt (row_rule w n)) -> df_regs s = [] ->
  exists o rgs regs fp, let s' := set_df_fp fp (gen o rgs fp regs s) in
    generate_commands elf_map s = (Ok tt, s') /\ row_generated w s'.
Proof.
  intros Hs Hv Hw Hr Hcfa Hu Hregs. unfold generate_commands. rewrite frame_rules_bind, Hs.
  set (rgs := with_reg r rar (cf_frame_regs (df_cfi s))).
  set (s0 := set_df_cfi (set_cf_frame_regs rgs (df_cfi s)) s).
  assert (Hv0 : view_is r rgs v) by (by apply view_with). pose proof (with_reg_len r rar (cf_frame_regs (df_cfi s))) as Hlen. fold rgs in Hlen.
  assert (E0 : cfi (T := T) (frame_reg rar) s = (Ok (vw_reg v rar), s0)).
  { unfold cfi. rewrite frame_reg_eq, Hs by lia. fold rgs. by rewrite (vi_reg _ _ _ Hv0) by lia. }
  rewrite (bind_ok _ _ _ _ _ E0).
  destruct (pc_adds w v Hw Hr (Hu rar ltac:(lia))) as (part & P1 & P2 & PA).
  destruct (PA s0 Hs) as (o1 & tc1 & E1). rewrite (bind_ok _ _ _ _ _ E1), (bind_ok get _ _ _ _ eq_refl).
  assert (E4 : df_regs s0 = []) by done. rewrite E4.
  set (s1 := gen o1 (cf_frame_regs (df_cfi s0)) tc1 ([] ++ part) s0). change (cf_frame_regs (df_cfi s1)) with rgs.
  destruct (registers_add w rgs v (seqZ 0 (zlen (sr_regs rgs))) Hv0 Hw Hu) as (parts & HP & HG).
  { apply Forall_forall. intros n Hn%elem_of_seqZ. lia. }
  destruct (HG s1 Hs eq_refl) as (o2 & tc2 & E2). rewrite (bind_ok _ _ _ _ _ E2).
  set (s2 := gen o2 rgs tc2 (df_regs s1 ++ mjoin parts) s1).
  destruct (cfa_adds w rgs v Hv0 Hw Hcfa) as (cmds & HC & HF). destruct (HF s2 Hs eq_refl) as (o3 & E3). rewrite E3.
  exists o3, rgs, (part ++ mjoin parts), cmds. split; [done|]. constructor; cbn [df_fp set_df_fp df_regs gen set_df_regs].
  - exact HC.
  - intros n def c v0 Hn Hd Hne Hc Hval.
    assert (Hlt : n < zlen (sr_regs rgs)).
    { destruct (Z.lt_ge_cases n (zlen (sr_regs rgs))) as [|Hge]; [done|]. exfalso. apply Hne. by apply (beyond_undefined v rgs w n); auto; lia. }
    destruct (Forall2_lookup_l _ _ _ (Z.to_nat n) n HP) as (p & Hp & HI); [apply lookup_seqZ; lia|].
    unfold item_part in HI. rewrite Hd in HI. destruct (proj2 (proj2 HI Hne) c v0 Hc Hval) as (cm & -> & HCm). exists cm. split; [|done].
    apply elem_of_app. right. apply list_elem_of_join. eexists. split; [|by eapply list_elem_of_lookup_2]. by apply list_elem_of_singleton.
  - intros pc c v0 Hpc Hne Hc Hval. destruct (proj2 (P2 pc Hpc Hne) c v0 Hc Hval) as (cm & -> & HCm). exists cm. split; [|done].
    apply elem_of_app. left. by apply list_elem_of_singleton.
  - intros l [Hl|Hl]%elem_of_app.
    + destruct (P1 l Hl) as (Hne & pc & Hpc & E). exists pc. split; [done|]. by left.
    + apply list_elem_of_join in Hl as (p & Hl & Hp). apply list_elem_of_lookup_1 in Hp as (k & Hk).
      destruct (Forall2_lookup_r _ _ _ _ _ HP Hk) as (n & Hn & HI). apply lookup_seqZ in Hn as [-> Hn]. unfold item_part in HI.
      destruct (get_reg_by_id (0 + Z.of_nat k) idt) as [def|] eqn:Ed; [|subst p; by apply elem_of_nil in Hl].
      destruct HI as [HI1 HI2]. destruct (decide (row_rule w (0 + Z.of_nat k) = Undefined)) as [E|Hne]; [rewrite (HI1 E) in Hl; by apply elem_of_nil in Hl|].
      exists def. split; [by apply (HI2 Hne)|]. right. exists (0 + Z.of_nat k). split_and!; [lia|done|done].
Qed.
End row.
