(* ===== verification/FrameFde.v ===== *)
(** * Stack frames: the information of an address

    [read_frame_fde]: from the bytes of an entry to the commands that compute the
    frame address and the registers of the caller. *)

From S2P Require Import Prelude ByteSource Vm VmSafe VmCompile Registers LocPieces LocExpr LocExprSpec DwarfIo DwarfCfi CfiSpec CfiExec CfiRun CfiEntry CfiFde DwarfFrame FrameExpr FrameRow.

Section fde.
Context {T : Type} `{!ContextIf T, !Relocator}.
Context (elf_map : option ELF_Section -> Z -> Z + Z).

(** The information of a line of the table. *)
Record line_info (ln : line) (s : Dwf T) : Prop := {
  li_addr : df_addr s = ln_start ln;
  li_size : df_size s = ln_end ln - ln_start ln;
  li_regs : df_regs s <> [];
  li_row : row_generated (cf_rules (df_cfi s)) (ln_row ln) s;
}.

(** There is nothing to know about the registers. *)
Record no_info (ln : line) (s : Dwf T) : Prop := {
  ni_addr : df_addr s = 0;
  ni_size : df_size s = 0;
  ni_regs : df_regs s = [];
  ni_fp : df_fp s = [];
  ni_row n def c v : let r := cf_rules (df_cfi s) in
    0 <= n -> get_reg_by_id n (ru_id_type r) = Some def -> row_rule (ln_row ln) n <> Undefined -> frame_sane r c ->
    ~ register_value r c def (Some def) (row_rule (ln_row ln) n) v;
}.

Context (file : ELF_File) (sec : ELF_Section) (d : bytes) (Hsec : section_ok sec d).
Context (eh : bool) (c : cie) (cpos : Z).

Abbreviation be := (ef_big_endian file).
Abbreviation asz := (file_asz file).

Context (Hok : cie_ok be asz c = true) (Hcie : bytes_at d cpos (cie_bytes be asz eh c)) (Hasz : 0 <= cie_asz file c <= 8).

Definition lines_supported (idt : Z) (lines : list line) : Prop :=
  forall ln, ln ∈ lines -> cfa_supported be idt (row_cfa (ln_row ln)) /\
    forall n, 0 <= n -> rule_supported be idt (row_rule (ln_row ln) n).

Lemma set_range_bind {A} a n (f : unit -> M (Dwf T) A) s : (set_range a n ≫= f) s = f tt (set_df_size n (set_df_addr a s)).
Proof. done. Qed.

Lemma generate_line ip lines ln (s1 : Dwf T) : cfi_ready file sec d eh c cpos (df_cfi s1) -> cie_ready c d (df_cfi s1) ->
  row_at d (df_cfi s1) lines ip ln -> lines_supported (ru_id_type (cf_rules (df_cfi s1))) lines -> df_regs s1 = [] ->
  df_addr s1 = ln_start ln -> df_size s1 = ln_end ln - ln_start ln ->
  exists s', (generate_commands elf_map ;; s ← get; match df_regs s with
    | [] => modify (set_df_fp []) ;; set_range 0 0 ;; dio dio_ExitSection
    | _ => dio dio_ExitSection
    end) s1 = (Ok tt, s') /\ cfi_ready file sec d eh c cpos (df_cfi s') /\ df_index s' = df_index s1 /\ (line_info ln s' \/ no_info ln s').
Proof.
  intros [R1 R2 R3 R4] HC [A1 A2 A3 A4 (v & HV & HW)] HS Hregs Haddr Hsize. set (r := cf_rules (df_cfi s1)) in *.
  destruct (cie_ok_parts be asz c Hok) as (_ & _ & _ & _ & Hrar & _). destruct (HS ln A1) as [HS1 HS2].
  assert (HA : ru_address_size r = cie_asz file c) by (rewrite <- R2; apply (cr_asz _ _ _ HC)).
  destruct (generate_row elf_map r sec d Hsec R1 ltac:(by rewrite HA) (ln_row ln) v s1 eq_refl HV HW)
    as (o & rgs & regs & fp & E & HG); try done.
  { pose proof (cr_rar _ _ _ HC) as HRr. fold r in HRr. rewrite HRr. lia. }
  { unfold ru_big_endian. by rewrite R2. }
  { unfold ru_big_endian. by rewrite R2. }
  rewrite (bind_ok _ _ _ _ _ E), (bind_ok get _ _ _ _ eq_refl). cbn [df_regs set_df_fp gen set_df_regs].
  set (s2 := set_df_fp fp (gen o rgs fp regs s1)) in *.
  assert (R : forall s' : Dwf T, cf_rules (df_cfi s') = r -> cf_cie_regs (df_cfi s') = cf_cie_regs (df_cfi s1) -> cfi_ready file sec d eh c cpos (df_cfi s')).
  { intros s' E1 E2. constructor; rewrite E1; try done. intros _. destruct HC as [C1 C2 C3 C4 C5 C6 C7]. constructor; rewrite ?E1, ?E2; done. }
  destruct regs as [|l regs].
  - eexists. split; [done|]. split; [by apply R|]. split; [done|]. right. constructor; try done. intros n def c0 v0 r' Hn Hd Hne Hs Hv.
    destruct (rg_reg _ _ _ HG n def c0 v0 Hn Hd Hne Hs Hv) as (cmds & Hin & _). by apply elem_of_nil in Hin.
  - eexists. split; [done|]. split; [by apply R|]. split; [done|]. left. constructor; try done. by destruct HG.
Qed.

(** *** The row of an address becomes commands *)
Lemma read_frame_fde_line f pos ip (s : Dwf T) lines : let r := cf_rules (df_cfi s) in
  let addr := fde_addr sec (ru_text_section r) c f pos in
  cfi_ready file sec d eh c cpos (df_cfi s) -> df_regs s = [] ->
  bytes_at d pos (fde_bytes be asz eh pos cpos c f) -> fde_ok be asz c f = true -> ref_ok eh (f_64 f) pos cpos = true ->
  fde_table (ef_machine file) c f addr = Some lines -> lines_supported (ru_id_type r) lines ->
  addr <= ip -> ip < addr + f_range f < 2 ^ 64 -> last_loc (c_ca c) (f_prog f) addr < 2 ^ 64 ->
  (ef_machine file = EM_ARM -> ip + 4 <> addr + f_range f) ->
  exists s' ln, read_frame_fde elf_map ip pos s = (Ok tt, s') /\ ln ∈ lines /\ ln_start ln <= ip < ln_end ln /\
    cfi_ready file sec d eh c cpos (df_cfi s') /\ df_index s' = df_index s /\ (line_info ln s' \/ no_info ln s').
Proof.
  intros r addr Hc Hregs HB Hf Href HT HS Hip Hrange Hlast Harm.
  destruct (find_row_finds file sec d Hsec eh c cpos Hok Hcie f pos ip (df_cfi s) lines Hc HB Hf Href HT Hip Hrange Hlast)
    as (c1 & ln & E & HR & Hc1 & HC1 & HK & _).
  unfold read_frame_fde. assert (E1 : cfi (T := T) (find_row ip pos) s = (Ok (ln_start ln, addr + f_range f), set_df_cfi c1 s)) by (unfold cfi; by rewrite E).
  rewrite (bind_ok _ _ _ _ _ E1), frame_rules_bind. cbn [df_cfi set_df_cfi].
  assert (Haddr : 0 <= addr) by (apply wrapu_range; lia).
  assert (Hend : addr <= ln_start ln /\ ln_end ln < 2 ^ 64).
  { unfold fde_table in HT. apply bind_Some in HT as (w & _ & HT).
    destruct (fde_ok_parts file c f Hf) as (_ & _ & _ & _ & HP & _).
    rewrite <- (cr_ca _ _ _ HC1), <- (cr_da _ _ _ HC1) in HT, HP. rewrite <- (cr_ca _ _ _ HC1) in Hlast.
    pose proof (table_bounds _ _ _ _ _ _ _ HT HP ln (ra_in _ _ _ _ _ HR)). lia. }
  pose proof (ra_start _ _ _ _ _ HR). pose proof (ra_end _ _ _ _ _ HR).
  rewrite set_range_bind, (ra_location _ _ _ _ _ HR), (wrapu_small 64 (_ - _)) by lia.
  set (s1 := set_df_size _ _).
  replace ((ru_machine (cf_rules c1) =? EM_ARM) && _) with false.
  - assert (HS1 : lines_supported (ru_id_type (cf_rules (df_cfi s1))) lines) by exact (eq_ind_r (fun i => lines_supported i lines) HS (sc_id_type _ _ HK)).
    destruct (generate_line ip lines ln s1 Hc1 HC1 HR HS1) as (s' & E2 & K1 & K2 & K3); [done..|].
    exists s', ln. split; [exact E2|]. split_and!; [apply HR|apply HR|apply HR|done|done|done].
  - symmetry. unfold ru_machine. rewrite (fr_file _ _ _ _ _ _ _ Hc1).
    destruct (Z.eqb_spec (ef_machine file) EM_ARM) as [Em|]; [|done]. cbn [andb]. apply Z.eqb_neq. specialize (Harm Em).
    unfold wrapu. intros E3. pose proof (Z.mod_pos_bound (ip + 4) (2 ^ 64)). dlia.
Qed.
End fde.

(** ** A procedure linkage table

    The section .eh_frame of a linkage table of x86-64, as linkers write it: the
    frame address depends on where in a stub of 16 bytes the program counter is. *)
Module Plt.

#[local] Instance plt_relocator : Relocator := fun _ _ v _ => inl (v, None).

(** The registers are a list of numbers, the memory has the low byte of its addresses. *)
Definition plt_reg (i : Z) : RegisterDefinition := Build_RegisterDefinition i (8 * i) 8 i i false.

#[local] Instance plt_context : ContextIf (list Z) := {
  context_has_state := true;
  ctx_read_mem a n _ := inl (map (fun i => (a + i) mod 256) (seqZ 0 n));
  ctx_write_mem _ _ t := (None, t);
  ctx_read_reg r _ n t := inl (number false (Z.to_nat n) (default 0 (znth t (rd_id r))));
  ctx_write_reg _ _ _ t := (None, t);
  regs_index := map plt_reg (seqZ 0 17);
  reg_set_size := 136;
  get_PC_definition := Some (plt_reg 16);
}.

Definition plt_cie : cie := {|
  c_64 := false; c_version := 1; c_asz := 0; c_ca := 1; c_da := -8; c_rar := 16;
  c_aug := Some [AugR 27];
  c_prog := [IDefCfa 7 8; IOffset true 16 1; INop; INop];
|}.

(** [rsp + 8 + ((rip & 15) >= 11) << 3] *)
Definition plt_cfa : expr :=
  EBin BAdd (EBreg 7 8) (EShl (EBin BGe (EBin BAnd (EBreg 16 0) (ELit 15)) (ELit 11)) 3).

(** The section is at 8192, the table at 4128. *)
Definition plt_fde : fde := {|
  f_64 := false; f_addr := 4128 - (8192 + 24 + 8); f_range := 64; f_aug := [];
  f_prog := [IDefCfaOffset 16; IAdvance 0 6; IDefCfaOffset 24; IAdvance 0 10; IDefCfaExpression (compile false plt_cfa);
             IRemember; IValExpression 6 (ccompile false (CPlusU CCfa 16)); IRestoreState];
|}.

Definition plt_data : bytes := cie_bytes false 8 true plt_cie ++ fde_bytes false 8 true 24 0 plt_cie plt_fde.

Definition plt_section : ELF_Section := Build_ELF_Section 1 (Some (str ".eh_frame")) 8192 (zlen plt_data) true 8 (inl plt_data) false.
Definition plt_file : ELF_File := Build_ELF_File false true EM_X86_64 [plt_section].

Definition plt_state : Dwf (list Z) :=
  Build_Dwf (Build_Cfi (Build_Dio None false 0 0 [] 0 0) (start_rules plt_file (Some plt_section) None true REGNUM_EH_FRAME 0 (2 ^ 64 - 1))
    no_registers no_registers [] 0) [] [] [] 0 0 [].

(** Its rows. *)
Definition plt_row (c : cfa) : row :=
  set_cfa_of c (set_rule_of 16 (Offset (1 * -8)) (set_cfa_of (CfaOffset 7 8) (start_row EM_X86_64 16))).

Definition plt_lines : list line :=
  [{| ln_start := 4128; ln_end := 4134; ln_row := plt_row (CfaOffset 7 16) |};
   {| ln_start := 4134; ln_end := 4144; ln_row := plt_row (CfaOffset 7 24) |};
   {| ln_start := 4144; ln_end := 4192; ln_row := plt_row (CfaExpression (compile false plt_cfa)) |}].

Lemma plt_table : fde_table EM_X86_64 plt_cie plt_fde 4128 = Some plt_lines.
Proof. reflexivity. Qed.

Lemma implied_supported be idt machine rar n : rule_supported be idt (implied machine rar n).
Proof. unfold implied. repeat case_match; done. Qed.

Lemma plt_supported : lines_supported plt_file REGNUM_EH_FRAME plt_lines.
Proof.
  intros ln Hln. apply list_elem_of_In in Hln. split.
  - destruct Hln as [<-|[<-|[<-|[]]]]; [by exists (plt_reg 7)|by exists (plt_reg 7)|]. by exists plt_cfa.
  - intros n _. destruct Hln as [<-|[<-|[<-|[]]]]; cbn [ln_row plt_row set_cfa_of set_rule_of row_rule start_row];
      (destruct (n =? 16); [done|apply implied_supported]).
Qed.

End Plt.

(** ** Stack frames: expressions that do not use the frame address

    [evaluate_location_expression] adds two words that are left.  An expression of
    a register rule starts with the frame address on the stack, as the standard says, and
    its value is the top of the stack: it need not use the frame address. *)

Section join.
Context {T : Type} `{!ContextIf T, !Relocator}.
Context (elf_map : option ELF_Section -> Z -> Z + Z).
Context (r : StackFrameRules) (sec : ELF_Section) (d : bytes) (Hsec : section_ok sec d).
Context (Hrsec : ru_section r = Some sec) (Hadr : 0 <= ru_address_size r <= 8).

Abbreviation be := (ru_big_endian r).
Abbreviation idt := (ru_id_type r).

(** Two words are left. *)
Lemma two_words_computes c (cmds : list (LocationExpressionCommand T)) a b : forallb word_command cmds = true ->
  spec_commands c [] cmds [] = Ok [b; a] -> computes c cmds (u64 (a + b)).
Proof.
  intros HW HS. pose proof (evaluate_words c [] cmds HW) as E. rewrite HS in E. destruct E as (rest & E).
  eexists. split_and!; [exact E|done..].
Qed.

(** C19: the commands made of a rule [DW_CFA_expression] whose expression does not use
    the frame address, for a register that is saved at the address [a], compute the sum of
    the frame address and the saved value. *)
Theorem expression_adds_frame_address x e dst src : rule_is d x (Expression (compile be e)) -> wf be e = true -> frame_ok idt e = true ->
  exists cmds, gives r (rule_commands elf_map x (rd_size dst) src) true cmds /\
  forall c fp a v, frame_sane r c -> frame_address c = Some fp -> eval (frame_env idt c) None (ru_address_size r) be e = inl a ->
    0 <= rd_size dst <= 8 -> mem_word c (rd_size dst) be a = Ok v -> computes c cmds (u64 (fp + v)).
Proof.
  intros [Hx1 HB] Hw Hf. destruct (block_bytes _ _ _ _ HB) as (HB' & Hn & Hz).
  destruct (segment_yields elf_map r (file_asz (ru_file r)) sec Hadr e Hw Hf) as (cmds & HA & HW & HS).
  exists (SFT_CMD_FP :: cmds ++ [SFT_CMD_RD_MEM (rd_size dst) be]). split.
  - unfold rule_commands. rewrite Hx1, Hn. cbn [Z.eqb Pos.eqb orb RULE_SAME_VALUE RULE_VAL_OFFSET RULE_OFFSET RULE_REGISTER RULE_EXPRESSION RULE_VAL_EXPRESSION].
    eapply (gives_bind r _ _ _ _ [_]); [apply gives_command|].
    eapply gives_bind; [apply (expression_gives elf_map r sec d Hsec Hrsec _ _ cmds); try done|].
    + pose proof (compile_nonempty be e) as Hne. intros E. rewrite E in Hne. cbn in Hne. lia.
    + eapply (gives_bind r _ _ _ _ [_] []); [apply gives_deref|apply gives_ret].
  - intros c fp a v Hc Hfp Ha Hs Hv. apply two_words_computes.
    + cbn [forallb]. rewrite forallb_app, HW. cbn. lia.
    + rewrite (spec_fp c [] fp) by done. rewrite spec_commands_app, (HS c [] [fp] [a; fp]); [|apply Hc|by exists a].
      cbn [spec_commands spec_command on_word]. by rewrite Hv.
Qed.
End join.

(** A top frame, of a context whose memory and registers are bytes. *)
Lemma top_frame_sane {T} `{!ContextIf T} r (c : Cpu T) f : cpu_frame c = Some f -> sf_is_top_frame f = true -> in_u 64 (sf_fp f) ->
  (forall a n l, ctx_read_mem a n (cpu_ctx c) = inl l -> 0 <= n -> zlen l = n /\ is_bytes l) ->
  (forall reg o n l, ctx_read_reg reg o n (cpu_ctx c) = inl l -> is_bytes l) -> frame_sane r c.
Proof.
  intros Hf Ht Hfp Hm Hr. constructor; [|unfold frame_address; rewrite Hf; by intros fp [= <-]]. constructor; [exact Hm| | |done].
  - intros fr reg v E. cbn in E. unfold reg_word, Registers.read_reg_value in E. rewrite (bind_ok get _ _ _ _ eq_refl), Hf in E.
    destruct (8 <? rd_size reg); [done|]. unfold read_reg_bytes in E. rewrite bind_assoc, (bind_ok get _ _ _ _ eq_refl), Hf, Ht in E.
    specialize (Hr reg 0 (rd_size reg)). unfold raise_result in E. destruct (ctx_read_reg reg 0 (rd_size reg) (cpu_ctx c)) as [l|]; [|done].
    rewrite ret_bind in E. injection E as <-. apply be_value_range. destruct (rd_big_endian reg); [auto|apply Forall_reverse; auto].
  - intros fr. cbn. by rewrite Hf.
Qed.

(** ** The frame of a signal

    The frame information of the C library of Linux: every register of the code that was
    interrupted is at an offset from the stack pointer. *)
Module Signal.
Import Plt.

#[local] Existing Instances plt_relocator plt_context.

Definition signal_code : bytes := compile false (EBreg 7 80).
Definition signal_section : ELF_Section := Build_ELF_Section 1 (Some (str ".eh_frame")) 8192 (zlen signal_code) true 8 (inl signal_code) false.
Definition signal_file : ELF_File := Build_ELF_File false true EM_X86_64 [signal_section].
Definition signal_rules : StackFrameRules := set_ru_address_size 8 (start_rules signal_file (Some signal_section) None true REGNUM_EH_FRAME 0 0).
Definition signal_rule : RegisterRules := Build_RegisterRules RULE_EXPRESSION (zlen signal_code) 0.

Definition signal_frame : Cpu (list Z) := Build_Cpu (replicate 17 500) (Some (Build_StackFrame 0 true false false 0 None None 1000 None)).

Definition signal_value : Z := be_value (reverse (map (fun i => (580 + i) mod 256) (seqZ 0 8))).

Lemma signal_sane : frame_sane signal_rules signal_frame.
Proof.
  apply (top_frame_sane _ _ (Build_StackFrame 0 true false false 0 None None 1000 None)); [done|done|by compute| |].
  - intros a n l [= <-] Hn. unfold zlen. rewrite length_map, length_seqZ. split; [lia|]. apply Forall_map, Forall_forall. intros i _.
    unfold is_byte. cbn. dlia.
  - intros reg o n l [= <-]. exact (bytes_le_number _ _).
Qed.

Lemma expression_adds_frame_address_witness : exists cmds,
  gives signal_rules (rule_commands (fun _ a => inl a) signal_rule 8 None) true cmds /\
  mem_word signal_frame 8 false 580 = Ok signal_value /\ computes signal_frame cmds (u64 (1000 + signal_value)) /\ u64 (1000 + signal_value) <> signal_value.
Proof.
  destruct (expression_adds_frame_address (fun _ a => inl a) signal_rules signal_section signal_code ltac:(by constructor) eq_refl ltac:(by compute)
    signal_rule (EBreg 7 80) (plt_reg 6) None ltac:(split; [done|by constructor]) eq_refl eq_refl) as (cmds & H1 & H2).
  exists cmds. split; [exact H1|]. split; [done|]. split; [|by vm_compute].
  apply (H2 signal_frame 1000 580 signal_value signal_sane); done.
Defined.
End Signal.
