(* ===== verification/FrameIndex.v ===== *)
(** * Stack frames: the index and the search in it

    The binary search of [read_frame_info_section] finds the entry that has an
    address, in ranges that are in order and do not overlap. *)

From stdpp Require Import sorting.
From S2P Require Import Prelude ByteSource Vm VmSafe VmCompile Registers LocPieces LocExpr LocExprSpec DwarfIo DwarfCfi CfiSpec CfiExec CfiRun CfiEntry CfiFde DwarfFrame FrameExpr.

(** The range has the address [ip] of the section number [sec]. *)
Definition covers (sec ip : Z) (r : FrameInfoRange) : bool :=
  (fr_section r =? sec) && (fr_addr r <=? ip) && (ip <? fr_addr r + fr_size r).

Record range_ok (r : FrameInfoRange) : Prop := {
  rk_addr : 0 <= fr_addr r;
  rk_size : 0 < fr_size r < 2 ^ 64;
  rk_end : fr_addr r + fr_size r <= 2 ^ 64;
}.

(** [x] is before [y]. *)
Definition before (x y : FrameInfoRange) : Prop :=
  fr_section x < fr_section y \/ (fr_section x = fr_section y /\ fr_addr x + fr_size x <= fr_addr y).

(** In order, without overlaps. *)
Definition in_order (l : list FrameInfoRange) : Prop :=
  Forall range_ok l /\ forall i j x y, (i < j)%nat -> l !! i = Some x -> l !! j = Some y -> before x y.

(** No range with an index from [l] up to [h] has the address. *)
Definition none_covers (ranges : list FrameInfoRange) (sec ip l h : Z) : Prop :=
  forall k x, l <= k < h -> znth ranges k = Some x -> covers sec ip x = false.

Lemma znth_lookup {A} (l : list A) k x : znth l k = Some x -> 0 <= k /\ l !! Z.to_nat k = Some x.
Proof. unfold znth. destruct (Z.leb_spec 0 k); [auto|done]. Qed.

Lemma in_order_at ranges i j x y : in_order ranges -> i < j -> znth ranges i = Some x -> znth ranges j = Some y -> before x y.
Proof. intros [_ H] Hij [H1 E1]%znth_lookup [H2 E2]%znth_lookup. eapply (H (Z.to_nat i) (Z.to_nat j)); [lia|done|done]. Qed.

Lemma in_order_ok ranges i x : in_order ranges -> znth ranges i = Some x -> range_ok x.
Proof. intros [H _] [_ E]%znth_lookup. by eapply Forall_lookup_1. Qed.

(** What is before a range that starts behind the address, or behind one that ends
    before it. *)
Lemma none_covers_right ranges sec ip k h x : in_order ranges -> znth ranges k = Some x ->
  sec < fr_section x \/ (fr_section x = sec /\ ip < fr_addr x) -> none_covers ranges sec ip k h.
Proof.
  intros Ho Hx Hlt j y Hj Hy. unfold covers. destruct (Z.eq_dec j k) as [->|Hne].
  - rewrite Hx in Hy. injection Hy as <-. zcases.
  - pose proof (in_order_at ranges k j x y Ho ltac:(lia) Hx Hy) as HB. unfold before in HB.
    destruct (in_order_ok _ _ _ Ho Hx). zcases.
Qed.

Lemma none_covers_left ranges sec ip l k x : in_order ranges -> znth ranges k = Some x ->
  fr_section x < sec \/ (fr_section x = sec /\ fr_addr x + fr_size x <= ip) -> none_covers ranges sec ip l (k + 1).
Proof.
  intros Ho Hx Hlt j y Hj Hy. unfold covers. destruct (Z.eq_dec j k) as [->|Hne].
  - rewrite Hx in Hy. injection Hy as <-. zcases.
  - pose proof (in_order_at ranges j k y x Ho ltac:(lia) Hy Hx) as HB. unfold before in HB.
    destruct (in_order_ok _ _ _ Ho Hx). zcases.
Qed.

Lemma none_covers_split ranges sec ip l k h : none_covers ranges sec ip l k -> none_covers ranges sec ip k h -> none_covers ranges sec ip l h.
Proof. intros H1 H2 j x Hj Hx. destruct (Z.lt_ge_cases j k); [apply (H1 j x)|apply (H2 j x)]; done || lia. Qed.

Lemma search_range_spec ranges sec ip : in_order ranges -> 0 <= ip < 2 ^ 64 -> forall fuel l h,
  0 <= l <= h -> h <= zlen ranges -> h - l < Z.of_nat fuel ->
  match search_range fuel ranges sec ip l h with
  | Some (Some x) => (exists k, znth ranges k = Some x) /\ covers sec ip x = true
  | Some None => none_covers ranges sec ip l h
  | None => False
  end.
Proof.
  intros Ho Hip. induction fuel as [|fuel IH]; intros l h Hl Hh Hf; [lia|]. cbn [search_range].
  destruct (Z.ltb_spec l h); [|intros j x Hj; lia]. set (k := (l + h) / 2). assert (Hk : l <= k < h) by (subst k; dlia).
  destruct (znth_Some ranges k ltac:(lia)) as [x Hx]. rewrite Hx. cbn [mbind option_bind].
  pose proof (in_order_ok _ _ _ Ho Hx) as [K1 K2 K3].
  assert (HL : sec < fr_section x \/ (fr_section x = sec /\ ip < fr_addr x) ->
    match search_range fuel ranges sec ip l k with
    | Some (Some x) => (exists k, znth ranges k = Some x) /\ covers sec ip x = true
    | Some None => none_covers ranges sec ip l h
    | None => False
    end).
  { intros Hlt. specialize (IH l k ltac:(lia) ltac:(lia) ltac:(lia)). destruct (search_range fuel ranges sec ip l k) as [[y|]|]; try done.
    eapply none_covers_split; [exact IH|]. by eapply none_covers_right. }
  assert (HR : fr_section x < sec \/ (fr_section x = sec /\ fr_addr x + fr_size x <= ip) ->
    match search_range fuel ranges sec ip (k + 1) h with
    | Some (Some x) => (exists k, znth ranges k = Some x) /\ covers sec ip x = true
    | Some None => none_covers ranges sec ip l h
    | None => False
    end).
  { intros Hlt. specialize (IH (k + 1) h ltac:(lia) ltac:(lia) ltac:(lia)). destruct (search_range fuel ranges sec ip (k + 1) h) as [[y|]|]; try done.
    eapply none_covers_split; [|exact IH]. by eapply none_covers_left. }
  destruct (Z.ltb_spec sec (fr_section x)); [apply HL; lia|]. destruct (Z.ltb_spec (fr_section x) sec); [apply HR; lia|].
  destruct (Z.ltb_spec ip (fr_addr x)); [apply HL; lia|].
  assert (HC : ip < fr_addr x + fr_size x -> covers sec ip x = true) by (intros; unfold covers; rewrite !andb_true_iff; lia).
  destruct (Z.eq_dec (fr_addr x + fr_size x) (2 ^ 64)) as [E|Hne].
  - rewrite E. change (u64 (2 ^ 64)) with 0. rewrite (proj2 (Z.ltb_lt _ _)) by lia. split; [by exists k|]. apply HC. lia.
  - rewrite wrapu_small, (proj2 (Z.ltb_ge _ _)) by lia. destruct (Z.leb_spec (fr_addr x + fr_size x) ip); [apply HR; lia|].
    split; [by exists k|]. by apply HC.
Qed.

(** The ranges that have an address are one at most. *)
Lemma covers_unique ranges sec ip i j x y : in_order ranges -> znth ranges i = Some x -> znth ranges j = Some y ->
  covers sec ip x = true -> covers sec ip y = true -> i = j.
Proof.
  intros Ho Hx Hy Cx Cy. unfold covers in *. rewrite !andb_true_iff in *.
  destruct (Z.lt_trichotomy i j) as [Hlt|[|Hlt]]; [|done|]; exfalso.
  - destruct (in_order_at _ _ _ _ _ Ho Hlt Hx Hy); lia.
  - destruct (in_order_at _ _ _ _ _ Ho Hlt Hy Hx); lia.
Qed.

(** ** Sorted ranges *)

(** What [qsort] does. *)
Definition sorts (qsort : list FrameInfoRange -> list FrameInfoRange) : Prop :=
  forall l, qsort l ≡ₚ l /\ forall i j x y, (i < j)%nat -> qsort l !! i = Some x -> qsort l !! j = Some y -> cmp_frame_info_ranges x y <= 0.

(** Ranges that do not overlap, in any order. *)
Definition disjoint_ranges (l : list FrameInfoRange) : Prop :=
  Forall range_ok l /\ forall i j x y, i <> j -> l !! i = Some x -> l !! j = Some y -> before x y \/ before y x.

Lemma disjoint_cons x l : disjoint_ranges (x :: l) <-> range_ok x /\ (forall y, y ∈ l -> before x y \/ before y x) /\ disjoint_ranges l.
Proof.
  unfold disjoint_ranges. split.
  - intros [HF HD]. apply Forall_cons in HF as [Hx HF]. split_and!; [done| |done|].
    + intros y [j Hj]%list_elem_of_lookup. exact (HD 0%nat (S j) x y ltac:(lia) eq_refl Hj).
    + intros i j y z Hne Hi Hj. exact (HD (S i) (S j) y z ltac:(lia) Hi Hj).
  - intros (Hx & HB & HF & HD). split; [by constructor|]. intros [|i] [|j] y z Hne Hi Hj; cbn in *; [done| | |].
    + injection Hi as <-. apply HB. by eapply list_elem_of_lookup_2.
    + injection Hj as <-. destruct (HB y); [by eapply list_elem_of_lookup_2|by right|by left].
    + apply (HD i j); [lia|done|done].
Qed.

Lemma disjoint_perm l k : l ≡ₚ k -> disjoint_ranges l -> disjoint_ranges k.
Proof.
  induction 1 as [|x l k HP IH|x y l|l1 l2 l3 _ IH1 _ IH2]; intros HD; [done| | |auto].
  - rewrite disjoint_cons in *. destruct HD as (H1 & H2 & H3). split_and!; [done| |by apply IH]. intros y Hy. apply H2. by rewrite HP.
  - rewrite !disjoint_cons in *. destruct HD as (Hy & HBy & Hx & HBx & HD). split_and!; try done.
    + intros z [->|Hz]%elem_of_cons; [|by apply HBx]. destruct (HBy x); [by left|by right|by left].
    + intros z Hz. apply HBy. by right.
Qed.

Lemma sorted_in_order qsort l : sorts qsort -> disjoint_ranges l -> in_order (qsort l).
Proof.
  intros Hq HD. destruct (Hq l) as [HP HS]. assert (HD' : disjoint_ranges (qsort l)) by (by eapply disjoint_perm; [symmetry|]).
  destruct HD' as [HF HB]. split; [done|]. intros i j x y Hij Hx Hy. specialize (HS i j x y Hij Hx Hy).
  destruct (HB i j x y ltac:(lia) Hx Hy) as [|Hyx]; [done|]. pose proof (Forall_lookup_1 _ _ _ _ HF Hx) as [X1 X2 X3].
  pose proof (Forall_lookup_1 _ _ _ _ HF Hy) as [Y1 Y2 Y3]. unfold cmp_frame_info_ranges, before in *.
  destruct (Z.ltb_spec (fr_section x) (fr_section y)); [lia|]. destruct (Z.ltb_spec (fr_section y) (fr_section x)); [lia|].
  destruct (Z.ltb_spec (fr_addr x) (fr_addr y)); [lia|]. destruct (Z.ltb_spec (fr_addr y) (fr_addr x)); lia.
Qed.

(** *** The search in the sorted ranges

    The range that has the address, if there is one. *)
Lemma search_sorted qsort l sec ip : sorts qsort -> disjoint_ranges l -> 0 <= ip < 2 ^ 64 ->
  let ranges := qsort l in
  exists res, search_range (S (length ranges)) ranges sec ip 0 (zlen ranges) = Some res /\
  match res with
  | Some x => x ∈ l /\ covers sec ip x = true
  | None => forall x, x ∈ l -> covers sec ip x = false
  end.
Proof.
  intros Hq HD Hip ranges. pose proof (sorted_in_order qsort l Hq HD) as Ho. destruct (Hq l) as [HP _]. fold ranges in Ho, HP.
  pose proof (zlen_nonneg ranges). pose proof (search_range_spec ranges sec ip Ho Hip (S (length ranges)) 0 (zlen ranges) ltac:(lia) ltac:(lia)
    ltac:(unfold zlen; lia)) as HS.
  destruct (search_range _ _ _ _ _ _) as [[x|]|]; [| |done]; eexists; (split; [done|]).
  - destruct HS as [[k Hk] HC]. split; [|done]. rewrite <- HP. apply znth_lookup in Hk as [_ Hk]. by eapply list_elem_of_lookup_2.
  - intros x Hx. rewrite <- HP in Hx. apply list_elem_of_lookup_1 in Hx as [k Hk]. apply (HS (Z.of_nat k) x).
    + apply lookup_lt_Some in Hk. unfold zlen. lia.
    + unfold znth. rewrite (proj2 (Z.leb_le _ _)), Nat2Z.id by lia. done.
Qed.

Lemma covers_only l sec ip x y : disjoint_ranges l -> x ∈ l -> y ∈ l -> covers sec ip x = true -> covers sec ip y = true -> x = y.
Proof.
  intros [HF HD] Hx Hy Cx Cy. apply list_elem_of_lookup_1 in Hx as [i Hi]. apply list_elem_of_lookup_1 in Hy as [j Hj].
  destruct (decide (i = j)) as [->|Hne]; [rewrite Hi in Hj; by injection Hj|]. unfold covers in *. rewrite !andb_true_iff in *.
  destruct (HD i j x y Hne Hi Hj) as [[|]|[|]]; lia.
Qed.

(** A sort that can be evaluated. *)
Definition range_le (x y : FrameInfoRange) : Prop := cmp_frame_info_ranges x y <= 0.

#[export] Instance range_le_dec x y : Decision (range_le x y).
Proof. unfold range_le. apply _. Defined.

Lemma range_le_lex x y : range_le x y <-> fr_section x < fr_section y \/ (fr_section x = fr_section y /\ fr_addr x <= fr_addr y).
Proof. unfold range_le, cmp_frame_info_ranges. zcases. Qed.

#[export] Instance range_le_trans : Transitive range_le.
Proof. intros x y z. rewrite !range_le_lex. lia. Qed.

#[export] Instance range_le_total : Total range_le.
Proof. intros x y. rewrite !range_le_lex. lia. Qed.

Definition sort_ranges (l : list FrameInfoRange) : list FrameInfoRange := merge_sort range_le l.

Lemma sorted_lookup (l : list FrameInfoRange) : StronglySorted range_le l ->
  forall i j x y, (i < j)%nat -> l !! i = Some x -> l !! j = Some y -> range_le x y.
Proof.
  induction 1 as [|a l _ IH HF]; intros i j x y Hij Hi Hj; [by rewrite lookup_nil in Hi|]. destruct j as [|j]; [lia|]. destruct i as [|i].
  - injection Hi as <-. by eapply Forall_lookup_1.
  - apply (IH i j); [lia|done|done].
Qed.

Lemma sort_ranges_sorts : sorts sort_ranges.
Proof.
  intros l. split; [apply merge_sort_Permutation|]. intros i j x y Hij Hx Hy.
  exact (sorted_lookup _ (StronglySorted_merge_sort range_le l) i j x y Hij Hx Hy).
Qed.

(** ** Stack frames: the index of a section

    A section of call frame information as a list of entries, and
    [create_search_index] at such a section: the ranges of all frame description
    entries. *)

(** ** Sections *)

(** An entry; a frame description entry with the position of its CIE. *)
Inductive entry :=
| ECie (c : cie)
| EFde (cpos : Z) (c : cie) (f : fde)
| EZero.

Section layout.
Context (be : bool) (asz : nat) (eh : bool).

Definition entry_bytes (pos : Z) (e : entry) : bytes :=
  match e with
  | ECie c => cie_bytes be asz eh c
  | EFde cpos c f => fde_bytes be asz eh pos cpos c f
  | EZero => [0; 0; 0; 0]
  end.

(** The entries with their positions, from [pos] on, and the bytes of the section. *)
Fixpoint placed (pos : Z) (l : list entry) : list (Z * entry) :=
  match l with
  | [] => []
  | e :: l => (pos, e) :: placed (pos + zlen (entry_bytes pos e)) l
  end.

Definition section_bytes (l : list entry) : bytes := mjoin (map (fun pe => entry_bytes (fst pe) (snd pe)) (placed 0 l)).

(** Entries that can be read: the CIE of every description is an entry of the section. *)
Definition entry_ok (machine : Z) (all : list (Z * entry)) (pe : Z * entry) : Prop :=
  match snd pe with
  | ECie c => cie_ok be asz c = true /\ is_Some (cie_row machine c)
  | EFde cpos c f => (cpos, ECie c) ∈ all /\ fde_ok be asz c f = true /\ ref_ok eh (f_64 f) (fst pe) cpos = true
  | EZero => True
  end.

Lemma zlen_length_bytes is64 n : zlen (length_bytes be is64 n) = if is64 then 12 else 4.
Proof. unfold length_bytes. destruct is64; by rewrite ?zlen_app, !zlen_number. Qed.

Lemma entry_len pos e : 4 <= zlen (entry_bytes pos e).
Proof.
  destruct e as [c|cpos c f|]; cbn [entry_bytes]; [| |by compute].
  - unfold cie_bytes. rewrite zlen_app, zlen_length_bytes. match goal with |- context [zlen (?a ++ ?b)] => pose proof (zlen_nonneg (a ++ b)) end.
    destruct (c_64 c); lia.
  - unfold fde_bytes. rewrite zlen_app, zlen_length_bytes.
    match goal with |- context [zlen (ref_bytes ?a ?b ?x ++ fde_body ?p ?q ?y ?z)] => pose proof (zlen_nonneg (ref_bytes a b x ++ fde_body p q y z)) end.
    destruct (f_64 f); lia.
Qed.

Lemma placed_from l : forall pos p e, (p, e) ∈ placed pos l -> pos <= p.
Proof.
  induction l as [|x l IH]; intros pos p e Hin; [by apply elem_of_nil in Hin|]. cbn [placed] in Hin.
  apply elem_of_cons in Hin as [[= -> ->]|Hin]; [lia|]. specialize (IH _ _ _ Hin). pose proof (entry_len pos x). lia.
Qed.

Lemma placed_unique l : forall pos p e e', (p, e) ∈ placed pos l -> (p, e') ∈ placed pos l -> e = e'.
Proof.
  induction l as [|x l IH]; intros pos p e e' H1 H2; [by apply elem_of_nil in H1|]. cbn [placed] in *. pose proof (entry_len pos x) as HL.
  apply elem_of_cons in H1 as [[= -> ->]|H1]; apply elem_of_cons in H2 as [E|H2].
  - by injection E.
  - apply placed_from in H2. lia.
  - injection E as -> ->. apply placed_from in H1. lia.
  - by eapply IH.
Qed.

Lemma placed_bytes l : forall pos pre, zlen pre = pos ->
  forall p e, (p, e) ∈ placed pos l ->
  bytes_at (pre ++ mjoin (map (fun pe => entry_bytes (fst pe) (snd pe)) (placed pos l))) p (entry_bytes p e).
Proof.
  induction l as [|x l IH]; intros pos pre Hpre p e Hin; [by apply elem_of_nil in Hin|]. cbn [placed map] in *.
  set (rest := map _ (placed _ l)) in *. change (mjoin (entry_bytes (fst (pos, x)) (snd (pos, x)) :: rest)) with (entry_bytes pos x ++ mjoin rest).
  apply elem_of_cons in Hin as [[= -> ->]|Hin].
  - pose proof (zlen_nonneg pre). pose proof (zlen_nonneg (entry_bytes pos x)). pose proof (zlen_nonneg (mjoin rest)).
    constructor; [lia|rewrite !zlen_app; lia|]. unfold slice. replace (pos + zlen (entry_bytes pos x) - pos) with (zlen (entry_bytes pos x)) by lia.
    assert (Hn : Z.to_nat pos = length pre) by (unfold zlen in Hpre; lia). unfold zdrop. rewrite Hn, drop_app_length. by apply ztake_app_exact.
  - rewrite app_assoc. apply IH; [rewrite zlen_app; lia|done].
Qed.
End layout.

(** ** The index *)

Lemma alter_insert_here {A} (f : A -> A) k x (l : list A) : alter f k (<[k := x]> l) = <[k := f x]> l.
Proof. revert k. induction l as [|y l IH]; intros [|k]; [done..|]. cbn. f_equal. apply IH. Qed.

Section index.
Context {T : Type} `{!ContextIf T, !Relocator}.
Context (file : ELF_File) (sec : ELF_Section) (eh : bool) (text : option ELF_Section) (l : list entry).

Abbreviation be := (ef_big_endian file).
Abbreviation asz := (file_asz file).
Abbreviation all := (placed be asz eh 0 l).
Abbreviation d := (section_bytes be asz eh l).

Context (Hsec : section_ok sec d) (Hall : Forall (entry_ok be asz eh (ef_machine file) all) all).

(** The rules are of this section, and of the CIE that was the last one. *)
Record cfi_inv (s : Cfi) : Prop := {
  iv_sec : ru_section (cf_rules s) = Some sec;
  iv_file : ru_file (cf_rules s) = file;
  iv_text : ru_text_section (cf_rules s) = text;
  iv_eh : ru_eh_frame (cf_rules s) = eh;
  iv_id : ru_id_type (cf_rules s) = if eh then REGNUM_EH_FRAME else REGNUM_DWARF;
  iv_cie c : (ru_cie_pos (cf_rules s), ECie c) ∈ all -> cie_ready c d s;
}.

Lemma inv_ready s cpos c : cfi_inv s -> (cpos, ECie c) ∈ all -> cfi_ready file sec d eh c cpos s.
Proof. intros [] Hc. constructor; try done. intros <-. auto. Qed.

Lemma ready_inv s s' cpos c : cfi_inv s -> (cpos, ECie c) ∈ all -> cie_ready c d s' -> same_scope (cf_rules s) (cf_rules s') ->
  ru_cie_pos (cf_rules s') = cpos -> cfi_inv s'.
Proof.
  intros [H1 H2 H3 H4 H6 H5] Hc HR [K1 K2 K3 K4 K5] HP. constructor; try congruence. rewrite HP. intros c' Hc'.
  pose proof (placed_unique be asz eh l 0 _ _ _ Hc Hc') as E. by injection E as <-.
Qed.

Lemma entry_at p e : (p, e) ∈ all -> bytes_at d p (entry_bytes be asz eh p e) /\ entry_ok be asz eh (ef_machine file) all (p, e).
Proof.
  intros Hin. split; [|by eapply Forall_forall in Hall]. exact (placed_bytes be asz eh l 0 [] eq_refl p e Hin).
Qed.

(** The state with another index and other rules. *)
Definition at_index (k : nat) (c : Cfi) (i : FrameInfoIndex) (s : Dwf T) : Dwf T :=
  set_df_index (<[k := i]> (df_index s)) (set_df_cfi c s).

Lemma cfi_at {A} (m : M Cfi A) k c i s a c' : m c = (Ok a, c') -> cfi m (at_index k c i s) = (Ok a, at_index k c' i s).
Proof. intros E. unfold cfi. cbn [df_cfi at_index set_df_index set_df_cfi]. by rewrite E. Qed.

Lemma change_index_at k f c i s : change_index k f (at_index k c i s) = (Ok tt, at_index k c (f i) s).
Proof.
  unfold change_index, modify, at_index, set_df_index. cbn [df_index df_cfi df_trace_cmds df_fp df_regs df_addr df_size set_df_cfi].
  by rewrite alter_insert_here.
Qed.

(** With the ranges [x]. *)
Definition with_ranges (x : list FrameInfoRange) (i : FrameInfoIndex) : FrameInfoIndex := set_fi_ranges (fi_relocatable i) (Some x) i.

Lemma alter_last {A} (f : A -> A) (x : A) k : alter f (length (k ++ [x]) - 1)%nat (k ++ [x]) = k ++ [f x].
Proof. rewrite length_app. cbn [length]. replace (length k + 1 - 1)%nat with (length k + 0)%nat by lia. induction k as [|y k IH]; [done|]. cbn. f_equal. exact IH. Qed.

Lemma add_range_at k c i s : add_range k (at_index k c i s) = (Ok tt, at_index k c (with_ranges (default [] (fi_ranges i) ++ [Build_FrameInfoRange 0 0 0 0]) i) s).
Proof.
  exact (change_index_at k (fun i => set_fi_ranges (fi_relocatable i)
    (Some (default [] (fi_ranges i) ++ [Build_FrameInfoRange 0 0 0 0])) i) c i s).
Qed.

Lemma change_range_at k f c i x r s : change_range k f (at_index k c (with_ranges (x ++ [r]) i) s) = (Ok tt, at_index k c (with_ranges (x ++ [f r]) i) s).
Proof.
  unfold change_range. rewrite change_index_at. unfold with_ranges, set_fi_ranges. cbn [fi_ranges fi_relocatable fi_file fi_separate fi_section fmap option_fmap option_map].
  by rewrite alter_last.
Qed.

Lemma frame_rules_at k c i s : @frame_rules T (at_index k c i s) = (Ok (cf_rules c), at_index k c i s).
Proof. unfold frame_rules. apply cfi_at. done. Qed.

(** *** A frame description entry *)

Lemma index_fde_at k cpos c f pos s0 i s : (pos, EFde cpos c f) ∈ all ->
  cfi_inv s0 -> in_section be asz sec (cf_io s0) -> io_data (cf_io s0) = d -> io_pos (cf_io s0) = pos + (if f_64 f then 20 else 8) ->
  data_at (cf_io s0) (fde_body be asz c f) -> 0 <= pos ->
  exists s1, index_fde k (pos + (if f_64 f then 12 else 4)) (fde_ref eh (f_64 f) pos cpos) pos (at_index k s0 i s) =
    (Ok tt, at_index k s1 (with_ranges (default [] (fi_ranges i) ++ [Build_FrameInfoRange 0 (fde_addr sec text c f pos) (u64 (f_range f)) pos]) i) s) /\
    cfi_inv s1 /\ exists n, cf_io s1 = further n (cf_io s0).
Proof.
  intros Hin Hs Hsec' Hdata Hpos HL H0. destruct (entry_at _ _ Hin) as [HB (Hc & Hf & Href)]. cbn [fst snd] in *.
  destruct (entry_at _ _ Hc) as [HBc (Hok & [w Hw])]. cbn [fst snd entry_bytes] in *.
  destruct (fde_ok_parts file c f Hf) as (HA & HR & Hr0 & HZ & HP & _).
  pose proof (data_at_pos _ _ HL) as HDP. pose proof (zlen_nonneg (fde_body be asz c f)).
  destruct (enter_cie_ready file sec d Hsec eh c cpos Hok HBc (f_64 f) pos s0 w) as (s2 & E1 & K1 & K2 & K3 & K4); try done.
  { by apply inv_ready. }
  { rewrite (is_len _ _ _ _ Hsec'), (so_size _ _ Hsec) in HDP. lia. }
  assert (Hs2 : cfi_inv s2) by (by eapply ready_inv). pose proof Hs2 as [I1 I2 I3 I4 I6 I5].
  unfold index_fde. rewrite (bind_ok _ _ _ _ _ (cfi_at _ k s0 i s _ _ E1)), (bind_ok _ _ _ _ _ (add_range_at k s2 i s)), (bind_ok _ _ _ _ _ (frame_rules_at _ _ _ _)).
  rewrite (cr_enc _ _ _ K1). rewrite <- K4 in HL, Hsec'. unfold fde_body in HL.
  destruct (takes_step be asz sec _ _ _ _ _ s2 Hsec' HL (pointer_takes be asz sec (asz_cases file) (so_relocate _ _ Hsec) _ (cf_rules s2) _ true _ (cie_enc_ok file c Hok) HA I1))
    as (E2 & Hs3 & HL3).
  rewrite (bind_ok _ _ _ _ _ (cfi_at _ k _ _ s _ _ E2)). clear E2. cbn iota. rewrite (bind_ok _ _ _ _ _ (change_range_at _ _ _ _ _ _ _)).
  destruct (takes_step be asz sec _ _ _ _ _ _ Hs3 HL3 (pointer_takes be asz sec (asz_cases file) (so_relocate _ _ Hsec) _ (cf_rules s2) _ false _ (cie_enc_ok file c Hok) HR I1))
    as (E2 & Hs4 & HL4).
  rewrite (bind_ok _ _ _ _ _ (cfi_at _ k _ _ s _ _ E2)). clear E2. rewrite took_took in *. cbn iota.
  rewrite (bind_ok _ _ _ _ _ (change_range_at _ _ _ _ _ _ _)), ret_bind, change_range_at. cbn [fr_section fr_addr fr_size fr_offset].
  rewrite I3, Z.add_0_l, K4, Hpos. eexists. split; [done|]. split.
  - constructor; try done. intros c' Hc'. destruct (I5 c' Hc') as [C1 C2 C3 C4 C5 C6 C7]. by constructor.
  - eexists. unfold took. cbn [cf_io set_cf_rules set_cf_io]. rewrite K4. done.
Qed.

(** *** An entry *)

Lemma inv_took n s : cfi_inv s -> cfi_inv (took n (cf_rules s) s).
Proof. intros [H1 H2 H3 H4 H6 H5]. constructor; try done. intros c Hc. destruct (H5 c Hc) as [C1 C2 C3 C4 C5 C6 C7]. by constructor. Qed.

Lemma dio_takes {A} m y (a : A) x k c i s : let c' := took (zlen y) (cf_rules c) c in
  in_section be asz sec (cf_io c) -> data_at (cf_io c) (y ++ x) -> reads_as be m y a ->
  dio m (at_index k c i s) = (Ok a, at_index k c' i s) /\ in_section be asz sec (cf_io c') /\ data_at (cf_io c') x.
Proof.
  intros c' Hs HL Hm. destruct (takes_step be asz sec _ _ _ _ _ c Hs HL (takes_reads be asz sec _ _ _ _ _ Hm)) as (E & H1 & H2).
  split_and!; [|exact H1|exact H2]. by apply cfi_at.
Qed.

Lemma dio_getpos_at {A} (f : Z -> M (Dwf T) A) k c i s : (dio dio_GetPos ≫= f) (at_index k c i s) = f (io_pos (cf_io c)) (at_index k c i s).
Proof. apply bind_ok. unfold dio. by apply cfi_at; destruct c. Qed.

(** What is left of an entry behind its reference. *)
Definition index_rest (k : nat) (is64 : bool) (pos x fin : Z) : M (Dwf T) unit :=
  r ← frame_rules;
  (if is_fde r is64 x then index_fde k (pos + (if is64 then 12 else 4)) x pos else mret tt) ;;
  dio (dio_SetPos fin).

Lemma length_at k (is64 : bool) n x c i s : length_ok is64 n = true -> 0 < n ->
  in_section be asz sec (cf_io c) -> data_at (cf_io c) (length_bytes be is64 n ++ x) ->
  exists c0, dio dio_ReadU4 (at_index k c i s) = (Ok (if is64 then 2 ^ 32 - 1 else n), at_index k c0 i s) /\
  let c1 := took (if is64 then 12 else 4) (cf_rules c) c in
  dio (if (if is64 then 2 ^ 32 - 1 else n) =? 2 ^ 32 - 1 then n ← dio_ReadU8; mret (n, true) else mret (if is64 then 2 ^ 32 - 1 else n, false))
    (at_index k c0 i s) = (Ok (n, is64), at_index k c1 i s) /\ in_section be asz sec (cf_io c1) /\ data_at (cf_io c1) x.
Proof.
  unfold length_ok, length_bytes, fits_u. intros Hn H0 Hs HL. destruct is64.
  - rewrite <- app_assoc in HL.
    destruct (dio_takes _ _ _ _ k c i s Hs HL (reads_dio_u be 4 (2 ^ 32 - 1) ltac:(lia) ltac:(unfold in_u; lia))) as (E & Hs1 & HL1).
    eexists. split; [exact E|]. rewrite Z.eqb_refl.
    destruct (dio_takes _ _ _ _ k _ i s Hs1 HL1 (reads_as_map be _ (fun n => (n, true)) _ _ (reads_dio_u be 8 n ltac:(lia) ltac:(unfold in_u; lia))))
      as (E1 & Hs2 & HL2).
    rewrite !zlen_number in *. change (cf_rules (took (Z.of_nat 4) (cf_rules c) c)) with (cf_rules c) in *. rewrite took_took in *. done.
  - destruct (dio_takes _ _ _ _ k c i s Hs HL (reads_dio_u be 4 n ltac:(lia) ltac:(unfold in_u; lia))) as (E & Hs1 & HL1).
    eexists. split; [exact E|]. rewrite (proj2 (Z.eqb_neq n _)) by lia. rewrite zlen_number in *. split_and!; [|done|done].
    unfold dio, io. apply cfi_at. cbn. by destruct c.
Qed.

Lemma index_entry_head k (is64 : bool) pos x body c i s : let n := zlen (ref_bytes be is64 0 ++ body) in
  let c' := took (if is64 then 20 else 8) (cf_rules c) c in
  length_ok is64 n = true -> fits_u (if is64 then 64 else 32) x = true ->
  in_section be asz sec (cf_io c) -> io_pos (cf_io c) = pos -> 0 <= pos -> pos + (if is64 then 12 else 4) + n <= zlen d ->
  data_at (cf_io c) (length_bytes be is64 n ++ ref_bytes be is64 x ++ body) ->
  index_entry k sec (at_index k c i s) = index_rest k is64 pos x (pos + (if is64 then 12 else 4) + n) (at_index k c' i s) /\
  in_section be asz sec (cf_io c') /\ data_at (cf_io c') body.
Proof.
  intros n c' Hlen Hx Hs Hpos H0 Hend HL. pose proof (zlen_nonneg body). pose proof (so_bound _ _ Hsec).
  assert (Hn : n = (if is64 then 8 else 4) + zlen body) by (subst n; by rewrite zlen_app, zlen_ref_bytes).
  assert (Hn0 : 0 < n) by (destruct is64; lia).
  destruct (length_at k is64 n _ c i s Hlen Hn0 Hs HL) as (c0 & E0 & E1 & Hs1 & HL1).
  unfold index_entry. rewrite dio_getpos_at, Hpos, (bind_ok _ _ _ _ _ E0).
  rewrite (proj2 (Z.eqb_neq (if is64 then _ else _) 0)) by (destruct is64; lia).
  rewrite (bind_ok _ _ _ _ _ E1). cbn iota. rewrite dio_getpos_at.
  set (c1 := took (if is64 then 12 else 4) (cf_rules c) c) in *.
  assert (E2 : io_pos (cf_io c1) = pos + (if is64 then 12 else 4)) by (rewrite <- Hpos; done). rewrite E2.
  rewrite (wrapu_small 64), (so_size _ _ Hsec), (proj2 (Z.ltb_ge _ _)) by (destruct is64; lia).
  destruct (dio_takes _ _ _ _ k c1 i s Hs1 HL1 (ref_reads file is64 x Hx)) as (E3 & Hs2 & HL2).
  rewrite (bind_ok _ _ _ _ _ E3).
  assert (E4 : took (zlen (ref_bytes be is64 x)) (cf_rules c1) c1 = c'); [|by rewrite E4 in *].
  subst c' c1. rewrite took_took, zlen_ref_bytes. change (cf_rules (took _ (cf_rules c) c)) with (cf_rules c). f_equal. by destruct is64.
Qed.

Lemma dio_setpos_at k p c i s : in_section be asz sec (cf_io c) -> p <= zlen d ->
  dio (dio_SetPos p) (at_index k c i s) = (Ok tt, at_index k (set_cf_io (set_io_pos p (cf_io c)) c) i s).
Proof. intros Hs Hp. apply cfi_at, set_pos_io. rewrite (is_len _ _ _ _ Hs), (so_size _ _ Hsec). done. Qed.

Lemma inv_io x s : cfi_inv s -> cfi_inv (set_cf_io x s).
Proof. intros [H1 H2 H3 H4 H6 H5]. constructor; try done. intros c Hc. destruct (H5 c Hc) as [C1 C2 C3 C4 C5 C6 C7]. by constructor. Qed.

(** The range of an entry. *)
Definition entry_ranges (pe : Z * entry) : list FrameInfoRange :=
  match snd pe with
  | EFde _ c f => [Build_FrameInfoRange 0 (fde_addr sec text c f (fst pe)) (u64 (f_range f)) (fst pe)]
  | _ => []
  end.

Definition add_ranges (x : list FrameInfoRange) (i : FrameInfoIndex) : FrameInfoIndex :=
  match x with [] => i | _ => with_ranges (default [] (fi_ranges i) ++ x) i end.

(** The step of the loop: the state before and after an entry. *)
Record at_entry (c : Cfi) (pos : Z) : Prop := {
  ae_inv : cfi_inv c;
  ae_section : in_section be asz sec (cf_io c);
  ae_data : io_data (cf_io c) = d;
  ae_pos : io_pos (cf_io c) = pos;
}.

Lemma at_entry_data c pos e : at_entry c pos -> (pos, e) ∈ all -> data_at (cf_io c) (entry_bytes be asz eh pos e).
Proof.
  intros [H1 H2 H3 H4] Hin. destruct (entry_at _ _ Hin) as [HB _]. eapply bytes_at_data; [exact H3|apply Hsec|apply Hsec|exact H2|by rewrite H4].
Qed.

Lemma at_entry_io c c0 p q n : at_entry c0 p -> cfi_inv c -> cf_io c = set_io_pos n (cf_io c0) -> at_entry (set_cf_io (set_io_pos q (cf_io c)) c) q.
Proof.
  intros [H1 H2 H3 H4] Hc Hio. constructor; [by apply inv_io| |cbn; by rewrite Hio|done]. cbn [cf_io set_cf_io]. rewrite Hio. destruct H2. by constructor.
Qed.

Definition entry_indexed (k : nat) (e : entry) : Prop := forall pos c i s, (pos, e) ∈ all -> at_entry c pos ->
  exists c', index_entry k sec (at_index k c i s) = (Ok tt, at_index k c' (add_ranges (entry_ranges (pos, e)) i) s) /\
    at_entry c' (pos + zlen (entry_bytes be asz eh pos e)).

Lemma zero_indexed k : entry_indexed k EZero.
Proof.
  intros pos c i s Hin Hat. pose proof Hat as [H1 H2 H3 H4]. pose proof (at_entry_data _ _ _ Hat Hin) as HL. cbn [entry_bytes] in *.
  assert (HZ : [0; 0; 0; 0] = number be 4 0) by (by destruct be).
  assert (HL' : data_at (cf_io c) (number be 4 0 ++ [])) by (by rewrite app_nil_r, <- HZ).
  destruct (dio_takes _ _ _ _ k c i s H2 HL' (reads_dio_u be 4 0 ltac:(lia) ltac:(unfold in_u; lia))) as (E & Hs1 & _).
  eexists. unfold index_entry. rewrite dio_getpos_at, (bind_ok _ _ _ _ _ E). split; [done|].
  constructor; [by apply inv_took|exact Hs1|exact H3|]. unfold took. cbn [cf_io set_cf_rules set_cf_io further io_pos set_io_pos].
  by rewrite H4, zlen_number.
Qed.

Lemma set_io_pos_twice p q x : set_io_pos p (set_io_pos q x) = set_io_pos p x.
Proof. done. Qed.

Lemma cie_indexed k cc : entry_indexed k (ECie cc).
Proof.
  intros pos c i s Hin Hat. pose proof Hat as [H1 H2 H3 H4]. pose proof (at_entry_data _ _ _ Hat Hin) as HL.
  destruct (entry_at _ _ Hin) as [HB [Hok _]]. cbn [entry_bytes snd] in *. destruct (cie_ok_parts be asz cc Hok) as (_ & _ & _ & _ & _ & _ & _ & HLen).
  unfold cie_bytes in HL. destruct HB as [B1 B2 _].
  set (n := zlen (ref_bytes be (c_64 cc) 0 ++ cie_body be asz cc)) in *.
  assert (Hz : zlen (cie_bytes be asz eh cc) = (if c_64 cc then 12 else 4) + n).
  { unfold cie_bytes. fold n. rewrite !zlen_app, zlen_length, zlen_ref_bytes. subst n. rewrite zlen_app, zlen_ref_bytes. lia. }
  destruct (index_entry_head k (c_64 cc) pos (cie_id eh (c_64 cc)) (cie_body be asz cc) c i s HLen) as (E & Hs1 & _); try done; [|lia|].
  { unfold cie_id. by destruct eh, (c_64 cc). }
  set (c1 := took _ (cf_rules c) c) in *. fold n in E. eexists. split; [rewrite E; unfold index_rest; rewrite (bind_ok _ _ _ _ _ (frame_rules_at _ _ _ _))|].
  - unfold is_fde. change (cf_rules c1) with (cf_rules c). rewrite (iv_eh _ H1). fold (cie_id eh (c_64 cc)). rewrite Z.eqb_refl. cbn [negb].
    rewrite ret_bind. apply dio_setpos_at; [done|lia].
  - rewrite Hz, Z.add_assoc. eapply at_entry_io; [exact Hat|by apply inv_took|]. done.
Qed.

Lemma fde_indexed k cpos cc f : entry_indexed k (EFde cpos cc f).
Proof.
  intros pos c i s Hin Hat. pose proof Hat as [H1 H2 H3 H4]. pose proof (at_entry_data _ _ _ Hat Hin) as HL.
  destruct (entry_at _ _ Hin) as [HB (Hc & Hf & Href)]. cbn [entry_bytes snd fst] in *. destruct (fde_ok_parts file cc f Hf) as (_ & _ & _ & _ & _ & HLen).
  unfold fde_bytes in HL. destruct HB as [B1 B2 _].
  set (n := zlen (ref_bytes be (f_64 f) 0 ++ fde_body be asz cc f)) in *.
  assert (Hz : zlen (fde_bytes be asz eh pos cpos cc f) = (if f_64 f then 12 else 4) + n).
  { unfold fde_bytes. fold n. rewrite !zlen_app, zlen_length, zlen_ref_bytes. subst n. rewrite zlen_app, zlen_ref_bytes. lia. }
  pose proof Href as Href'. apply andb_true_iff in Href' as [Hfits _].
  destruct (index_entry_head k (f_64 f) pos _ (fde_body be asz cc f) c i s HLen Hfits) as (E & Hs1 & HL1); try done; [lia|].
  set (c1 := took _ (cf_rules c) c) in *. fold n in E. assert (Hc1 : cfi_inv c1) by (by apply inv_took).
  destruct (index_fde_at k cpos cc f pos c1 i s Hin Hc1 Hs1) as (c2 & E2 & Hc2 & m & D); try done.
  { unfold c1, took. cbn [cf_io set_cf_rules set_cf_io further io_pos set_io_pos]. by rewrite H4. }
  eexists. split; [rewrite E; unfold index_rest; rewrite (bind_ok _ _ _ _ _ (frame_rules_at _ _ _ _))|].
  - rewrite (is_fde_ref eh) by (done || apply Hc1). rewrite (bind_ok _ _ _ _ _ E2). apply dio_setpos_at; [|lia]. rewrite D. by apply in_section_further.
  - rewrite Hz, Z.add_assoc. eapply at_entry_io; [exact Hat|done|]. rewrite D. done.
Qed.

Lemma all_indexed k e : entry_indexed k e.
Proof. destruct e; [apply cie_indexed|apply fde_indexed|apply zero_indexed]. Qed.

(** *** The loop *)

Lemma add_ranges_add x y i : add_ranges y (add_ranges x i) = add_ranges (x ++ y) i.
Proof.
  destruct x as [|a x]; [done|]. destruct y as [|b y]; [by rewrite app_nil_r|]. unfold add_ranges, with_ranges, set_fi_ranges.
  cbn [fi_ranges fi_relocatable fi_file fi_separate fi_section app]. f_equal. f_equal. exact (eq_sym (app_assoc _ (a :: x) (b :: y))).
Qed.

Definition ranges_of (k : list (Z * entry)) : list FrameInfoRange := mjoin (map entry_ranges k).

Definition bytes_of (k : list (Z * entry)) : bytes := mjoin (map (fun pe => entry_bytes be asz eh (fst pe) (snd pe)) k).

Lemma index_entries_at k s : forall rest pos fuel c i, (forall pe, pe ∈ placed be asz eh pos rest -> pe ∈ all) ->
  pos + zlen (bytes_of (placed be asz eh pos rest)) = zlen d -> (length rest < fuel)%nat -> at_entry c pos ->
  exists c', index_entries fuel k sec (at_index k c i s) = (Ok tt, at_index k c' (add_ranges (ranges_of (placed be asz eh pos rest)) i) s) /\
    at_entry c' (zlen d).
Proof.
  induction rest as [|e rest IH]; intros pos fuel c i Hin Hend Hfuel Hat; (destruct fuel as [|fuel]; [cbn in Hfuel; lia|]);
    cbn [index_entries placed] in *; rewrite dio_getpos_at, (ae_pos _ _ Hat), (so_size _ _ Hsec).
  - change (zlen (bytes_of [])) with 0 in Hend. rewrite (proj2 (Z.ltb_ge _ _)) by lia. exists c. split; [done|].
    by replace (zlen d) with pos by lia.
  - set (fin := pos + zlen (entry_bytes be asz eh pos e)) in *.
    change (bytes_of ((pos, e) :: placed be asz eh fin rest)) with (entry_bytes be asz eh pos e ++ bytes_of (placed be asz eh fin rest)) in Hend.
    rewrite zlen_app in Hend. pose proof (entry_len be asz eh pos e). pose proof (zlen_nonneg (bytes_of (placed be asz eh fin rest))).
    rewrite (proj2 (Z.ltb_lt _ _)) by lia.
    destruct (all_indexed k e pos c i s ltac:(apply Hin; by left) Hat) as (c1 & E1 & Hat1). rewrite (bind_ok _ _ _ _ _ E1).
    destruct (IH fin fuel c1 (add_ranges (entry_ranges (pos, e)) i)) as (c2 & E2 & Hat2); [|lia|cbn in Hfuel; lia|done|].
    { intros pe Hpe. apply Hin. by right. }
    exists c2. split; [|done]. rewrite E2, add_ranges_add. done.
Qed.

Lemma placed_length pos rest : Z.of_nat (length rest) <= zlen (bytes_of (placed be asz eh pos rest)).
Proof.
  revert pos. induction rest as [|e rest IH]; intros pos; [by compute|]. cbn [placed length].
  change (bytes_of ((pos, e) :: ?k)) with (entry_bytes be asz eh pos e ++ bytes_of k). rewrite zlen_app.
  pose proof (entry_len be asz eh pos e). specialize (IH (pos + zlen (entry_bytes be asz eh pos e))). lia.
Qed.

Lemma index_self k i s : df_index s !! k = Some i -> s = at_index k (df_cfi s) i s.
Proof. intros E. unfold at_index. cbn [df_index set_df_cfi]. rewrite list_insert_id by done. by destruct s. Qed.

Context (qsort : list FrameInfoRange -> list FrameInfoRange) (Hsort : sorts qsort).

(** Sorted, or with nothing in it. *)
Definition sort_index (i : FrameInfoIndex) : FrameInfoIndex := set_fi_ranges (fi_relocatable i) (qsort <$> fi_ranges i) i.

Lemma create_search_index_at k c i s : cfi_inv c -> d <> [] ->
  exists c', create_search_index qsort k file sec (at_index k c i s) = (Ok tt, at_index k c' (sort_index (add_ranges (ranges_of all) i)) s) /\ cfi_inv c'.
Proof.
  intros Hc Hd. assert (0 < zlen d) by (unfold zlen; destruct d; [done|cbn [length]; lia]).
  set (c0 := set_cf_io (Build_Dio (Some sec) be (Z.of_nat asz) (Z.of_nat asz) d 0 (zlen d)) c).
  assert (E0 : @dio T _ (dio_EnterSection None file sec 0) (at_index k c i s) = (Ok tt, at_index k c0 i s)).
  { unfold dio. apply cfi_at. unfold io. by rewrite (enter_section_at file sec d Hsec 0) by lia. }
  unfold create_search_index. rewrite (bind_ok _ _ _ _ _ E0).
  assert (E1 : @cfi T _ exec_fuel (at_index k c0 i s) = (Ok (S (length d)), at_index k c0 i s)) by (by apply cfi_at).
  rewrite (bind_ok _ _ _ _ _ E1).
  assert (Hat : at_entry c0 0) by (constructor; [by apply inv_io|by constructor; [..|symmetry; apply Hsec]|done|done]).
  pose proof (placed_length 0 l) as HP. change (bytes_of all) with d in HP.
  destruct (index_entries_at k s l 0 (S (length d)) c0 i) as (c1 & E2 & Hat1); [done|done|unfold zlen in HP; lia|done|].
  rewrite (bind_ok _ _ _ _ _ E2). exists (set_cf_io (Build_Dio None (io_big_endian (cf_io c1)) (io_address_size (cf_io c1)) (io_ref_address_size (cf_io c1)) [] 0 0) c1).
  split; [|by apply inv_io, ae_inv with (pos := zlen d)].
  rewrite (bind_ok _ _ _ _ _ (cfi_at (io dio_ExitSection) k c1 _ s tt _ eq_refl)). apply change_index_at.
Qed.
End index.
