(* ===== verification/FrameInfo.v ===== *)
(** * Stack frames: the information of a section

    [get_dwarf_stack_frame_info] with a section of call frame information: the index is
    made once, the entry that has the address is found in it, and the rules of its line
    become commands. *)

From S2P Require Import Prelude ByteSource Vm VmSafe VmCompile Registers LocPieces LocExpr LocExprSpec.
From S2P Require Import DwarfIo DwarfCfi CfiSpec CfiExec CfiRun CfiEntry CfiFde DwarfFrame FrameIndex FrameExpr FrameRow FrameFde.

Section info.
Context {T : Type} `{!ContextIf T, !Relocator}.
Context (elf_map : option ELF_Section -> Z -> Z + Z).
Context (qsort : list FrameInfoRange -> list FrameInfoRange) (Hsort : sorts qsort).
Context (file : ELF_File) (sec : ELF_Section) (text : option ELF_Section) (l : list entry).

Abbreviation be := (ef_big_endian file).
Abbreviation asz := (file_asz file).

Definition is_eh_frame : bool := bool_decide (es_name sec = Some (str ".eh_frame")).

Abbreviation all := (placed be asz is_eh_frame 0 l).
Abbreviation d := (section_bytes be asz is_eh_frame l).

(** A description of code, in the address space, that can be translated. *)
Record fde_good (pos : Z) (c : cie) (f : fde) : Prop := {
  fg_range : 0 < f_range f;
  fg_end : fde_addr sec text c f pos + f_range f < 2 ^ 64;
  fg_last : last_loc (c_ca c) (f_prog f) (fde_addr sec text c f pos) < 2 ^ 64;
  fg_asz : 0 <= cie_asz file c <= 8;
  fg_table : exists lines, fde_table (ef_machine file) c f (fde_addr sec text c f pos) = Some lines /\
    lines_supported file (if is_eh_frame then REGNUM_EH_FRAME else REGNUM_DWARF) lines;
}.

(** A section with such descriptions, of code that does not overlap. *)
Record section_good : Prop := {
  sg_section : section_ok sec d;
  sg_entries : Forall (entry_ok be asz is_eh_frame (ef_machine file) all) all;
  sg_fdes pos cpos c f : (pos, EFde cpos c f) ∈ all -> fde_good pos c f;
  sg_disjoint : disjoint_ranges (ranges_of sec text all);
  sg_some : l <> [];
}.

(** The section is the [k]-th one; its index is sorted, or not made yet. *)
Definition index_is (i : FrameInfoIndex) : Prop := fi_file i = file /\ fi_section i = sec /\ fi_relocatable i = false.

Definition index_ready (text0 : option ELF_Section) (k : nat) (s : Dwf T) : Prop :=
  exists i, df_index s !! k = Some i /\ index_is i /\ frame_text_section i text0 = text /\
    (fi_ranges i = None \/ default [] (fi_ranges i) = qsort (ranges_of sec text all)).

(** The code of a description has the address. *)
Definition fde_covers (ip pos : Z) (c : cie) (f : fde) : Prop :=
  fde_addr sec text c f pos <= ip < fde_addr sec text c f pos + f_range f.

(** What there is about the address. *)
Inductive answer (ip : Z) (s s' : Dwf T) : Prop :=
| answer_line pos cpos c f lines ln :
    (pos, EFde cpos c f) ∈ all -> fde_covers ip pos c f ->
    fde_table (ef_machine file) c f (fde_addr sec text c f pos) = Some lines ->
    ln ∈ lines -> ln_start ln <= ip < ln_end ln -> line_info ln s' \/ no_info ln s' -> answer ip s s'
| answer_none :
    (forall pos cpos c f, (pos, EFde cpos c f) ∈ all -> ~ fde_covers ip pos c f) ->
    df_regs s' = df_regs s -> df_fp s' = df_fp s -> df_addr s' = df_addr s -> df_size s' = df_size s -> answer ip s s'.

Context (Hgood : section_good).

Lemma in_ranges x : x ∈ ranges_of sec text all ->
  exists pos cpos c f, (pos, EFde cpos c f) ∈ all /\ x = Build_FrameInfoRange 0 (fde_addr sec text c f pos) (f_range f) pos.
Proof.
  unfold ranges_of. intros Hx. apply list_elem_of_join in Hx as (y & Hx & Hy). apply list_elem_of_In, in_map_iff in Hy as ([pos e] & <- & Hin).
  apply list_elem_of_In in Hin. destruct e as [c|cpos c f|]; cbn [entry_ranges snd fst] in Hx; try (by apply elem_of_nil in Hx).
  apply list_elem_of_singleton in Hx as ->. exists pos, cpos, c, f. split; [done|]. destruct (sg_fdes Hgood _ _ _ _ Hin) as [H1 H2 _ _ _].
  rewrite wrapu_small; [done|]. assert (0 <= fde_addr sec text c f pos) by (apply wrapu_range; lia). lia.
Qed.

Lemma ranges_in pos cpos c f : (pos, EFde cpos c f) ∈ all ->
  Build_FrameInfoRange 0 (fde_addr sec text c f pos) (f_range f) pos ∈ ranges_of sec text all.
Proof.
  intros Hin. destruct (sg_fdes Hgood _ _ _ _ Hin) as [H1 H2 _ _ _]. assert (0 <= fde_addr sec text c f pos) by (apply wrapu_range; lia).
  unfold ranges_of. apply list_elem_of_join. exists (entry_ranges sec text (pos, EFde cpos c f)). split.
  - cbn [entry_ranges snd fst]. rewrite wrapu_small by lia. apply list_elem_of_singleton. reflexivity.
  - apply list_elem_of_In, in_map, list_elem_of_In, Hin.
Qed.

Lemma covers_fde ip pos c f : covers 0 ip (Build_FrameInfoRange 0 (fde_addr sec text c f pos) (f_range f) pos) = true <-> fde_covers ip pos c f.
Proof. unfold covers, fde_covers. cbn [fr_section fr_addr fr_size]. rewrite !andb_true_iff. lia. Qed.

Lemma qsort_nil : qsort [] = [].
Proof. destruct (Hsort []) as [HP _]. by apply Permutation_nil_r. Qed.

Lemma placed_below pos e : (pos, e) ∈ all -> 0 <= pos < 2 ^ 62.
Proof.
  intros Hin. destruct (entry_at file is_eh_frame l (sg_entries Hgood) _ _ Hin) as [[H1 H2 _] _].
  pose proof (entry_len be asz is_eh_frame pos e). pose proof (so_bound _ _ (sg_section Hgood)). lia.
Qed.

Lemma start_inv c : cfi_inv file sec is_eh_frame text l
  (set_cf_rules (start_rules file (Some sec) text is_eh_frame (if is_eh_frame then REGNUM_EH_FRAME else REGNUM_DWARF) 0 (2 ^ 64 - 1)) c).
Proof. constructor; try done. intros c0 Hin%placed_below. cbn in Hin. lia. Qed.

(** The index is made when there is none. *)
Lemma index_made text0 k (s : Dwf T) i c0 : df_index s !! k = Some i -> index_is i ->
  fi_ranges i = None \/ default [] (fi_ranges i) = qsort (ranges_of sec text all) -> cfi_inv file sec is_eh_frame text l c0 ->
  frame_text_section i text0 = text ->
  exists c1 i1, (match fi_ranges i with None => create_search_index qsort k file sec | Some _ => mret tt end) (at_index k c0 i s) =
      (Ok tt, at_index k c1 i1 s) /\
    cfi_inv file sec is_eh_frame text l c1 /\ index_is i1 /\ frame_text_section i1 text0 = text /\
    default [] (fi_ranges i1) = qsort (ranges_of sec text all).
Proof.
  intros Hk (Hf & Hs & Hr) Hq Hc Ht. destruct (fi_ranges i) as [x|] eqn:E.
  - exists c0, i. destruct Hq as [|Hq]; [done|]. rewrite E. done.
  - assert (Hd : d <> []).
    { pose proof (placed_length file is_eh_frame 0 l) as HP. change (bytes_of _ _ _) with d in HP. change (Z.of_nat (length l) <= Z.of_nat (length d)) in HP.
      pose proof (sg_some Hgood). intros Hd. rewrite Hd in HP. destruct l; [done|]. cbn [length] in HP. lia. }
    destruct (create_search_index_at file sec is_eh_frame text l (sg_section Hgood) (sg_entries Hgood) qsort k c0 i s Hc Hd) as (c1 & E1 & Hc1).
    eexists c1, _. split; [exact E1|]. set (x := ranges_of sec text all).
    assert (HI : add_ranges x i = match x with [] => i | _ => with_ranges x i end) by (unfold add_ranges; by rewrite E).
    rewrite HI. unfold index_is. split_and!; try done; destruct x eqn:Ex; try done; cbn; rewrite ?E; try done. by rewrite qsort_nil.
Qed.

(** The code of ARM has an entry without instructions in front of the end. *)
Definition not_arm_end (ip : Z) : Prop :=
  forall pos cpos c f, (pos, EFde cpos c f) ∈ all -> ef_machine file = EM_ARM -> ip + 4 <> fde_addr sec text c f pos + f_range f.

Lemma fde_answers text0 k c i (s : Dwf T) ip x : cfi_inv file sec is_eh_frame text l c -> df_regs s = [] -> x ∈ ranges_of sec text all ->
  covers 0 ip x = true -> not_arm_end ip ->
  df_index s !! k = Some i -> index_is i -> frame_text_section i text0 = text -> default [] (fi_ranges i) = qsort (ranges_of sec text all) ->
  exists s', read_frame_fde elf_map ip (fr_offset x) (set_df_cfi c s) = (Ok tt, s') /\ index_ready text0 k s' /\ df_index s' = df_index s /\ answer ip s s'.
Proof.
  intros Hc Hregs Hx Hcov Harm Hk Hi Ht Hq. destruct (in_ranges x Hx) as (pos & cpos & c1 & f & Hin & ->). apply covers_fde in Hcov as Hcov'.
  destruct (entry_at file is_eh_frame l (sg_entries Hgood) _ _ Hin) as [HB (Hc1 & Hf & Href)]. cbn [fst snd entry_bytes fr_offset] in *.
  destruct (entry_at file is_eh_frame l (sg_entries Hgood) _ _ Hc1) as [HB1 (Hok & _)]. cbn [fst snd entry_bytes] in *.
  destruct (sg_fdes Hgood _ _ _ _ Hin) as [G1 G2 G3 G4 (lines & HT & HS)]. destruct Hcov' as [L1 L2].
  pose proof (inv_ready file sec is_eh_frame text l _ _ _ Hc Hc1) as Hready. pose proof (iv_text _ _ _ _ _ _ Hc) as Htext. pose proof (iv_id _ _ _ _ _ _ Hc) as Hid.
  destruct (read_frame_fde_line elf_map file sec d (sg_section Hgood) is_eh_frame c1 cpos Hok HB1 G4 f pos ip (set_df_cfi c s) lines)
    as (s' & ln & E & Hln & Hb & _ & HI & HA); cbn [df_cfi set_df_cfi]; rewrite ?Htext, ?Hid; try done.
  { intros Hm. exact (Harm _ _ _ _ Hin Hm). }
  exists s'. split; [exact E|]. split_and!; [|done|by eapply answer_line].
  exists i. split_and!; [by rewrite HI|done|done|by right].
Qed.

Lemma index_self_cfi k c i (s : Dwf T) : df_index s !! k = Some i -> set_df_cfi c s = at_index k c i s.
Proof. intros E. unfold at_index. by rewrite list_insert_id. Qed.

Lemma section_answers text0 k ip (s : Dwf T) : index_ready text0 k s -> df_regs s = [] -> 0 <= ip < 2 ^ 64 -> not_arm_end ip ->
  exists s', read_frame_info_section elf_map qsort text0 ip k s = (Ok tt, s') /\ index_ready text0 k s' /\ length (df_index s') = length (df_index s) /\
    answer ip s s'.
Proof.
  intros (i & Hk & Hi & Ht & Hq) Hregs Hip Harm. pose proof Hi as (Hf & Hs & Hr).
  unfold read_frame_info_section. rewrite (bind_ok get _ _ _ _ eq_refl), Hk. cbn [of_option]. rewrite ret_bind. cbv zeta. rewrite Ht, Hf, Hs.
  fold is_eh_frame. set (r0 := start_rules _ _ _ _ _ _ _). set (c0 := set_cf_rules r0 (df_cfi s)).
  assert (E0 : cfi (T := T) (modify (set_cf_rules r0)) s = (Ok tt, at_index k c0 i s)) by (by rewrite <- index_self_cfi).
  rewrite (bind_ok _ _ _ _ _ E0).
  destruct (index_made text0 k s i c0 Hk Hi Hq (start_inv _) Ht) as (c1 & i1 & E1 & Hc1 & Hi1 & Ht1 & Hq1).
  rewrite (bind_ok _ _ _ _ _ E1), (bind_ok get _ _ _ _ eq_refl).
  assert (Hlt : (k < length (df_index s))%nat) by (by eapply lookup_lt_Some).
  set (s2 := set_df_index (<[k := i1]> (df_index s)) s). change (at_index k c1 i1 s) with (set_df_cfi c1 s2).
  assert (Hk2 : df_index s2 !! k = Some i1) by (by apply list_lookup_insert_eq). cbn [df_index set_df_cfi].
  rewrite Hk2. cbn [of_option]. rewrite ret_bind. pose proof Hi1 as (_ & _ & Hr1). rewrite Hr1, Hq1.
  replace (match text with Some _ => 0 | None => 0 end) with 0 by (by destruct text).
  destruct (search_sorted qsort (ranges_of sec text all) 0 ip Hsort (sg_disjoint Hgood) Hip) as (res & E2 & HR). rewrite E2. cbn [of_option]. rewrite ret_bind.
  destruct res as [x|].
  - destruct HR as [Hx Hcov]. destruct (fde_answers text0 k c1 i1 s2 ip x) as (s' & E & K1 & K2 & K3); try done.
    exists s'. split_and!; [exact E|done|rewrite K2; by apply length_insert|]. destruct K3; [by eapply answer_line|by apply answer_none].
  - eexists. split_and!; [done| |by apply length_insert|].
    + exists i1. split_and!; [done|done|done|by right].
    + apply answer_none; try done. intros pos cpos c f Hin Hcov. apply covers_fde in Hcov. by rewrite (HR _ (ranges_in _ _ _ _ Hin)) in Hcov.
Qed.

(** *** The information of an address

    The section is the only one, and the code is not that of a linkage table that the
    linker made without any. *)
Definition not_plt (text0 : option ELF_Section) : Prop :=
  match text0 with Some t => es_name t <> Some (str ".plt") | None => True end.

Definition no_frame (s : Dwf T) : Dwf T := set_df_size 0 (set_df_addr 0 (set_df_fp [] (set_df_regs [] s))).

End info.

(** ** A program

    A linkage table and a function in front of it, in one section with a terminator. *)
Module Exe.
Import Plt.

#[local] Existing Instances plt_relocator plt_context.

(** The function at 4096 pushes the frame pointer. *)
Definition exe_fde : fde := {|
  f_64 := false; f_addr := 4096 - (8192 + 67 + 8); f_range := 32; f_aug := [];
  f_prog := [IAdvance 0 1; IDefCfaOffset 16; IOffset true 6 2; IAdvance 0 3; IDefCfaRegister 6; IAdvance 0 20; IDefCfa 7 8];
|}.

Definition exe_entries : list entry := [ECie plt_cie; EFde 0 plt_cie plt_fde; EFde 0 plt_cie exe_fde; EZero].

Definition exe_data : bytes := section_bytes false 8 true exe_entries.
Definition exe_section : ELF_Section := Build_ELF_Section 1 (Some (str ".eh_frame")) 8192 (zlen exe_data) true 8 (inl exe_data) false.
Definition exe_file : ELF_File := Build_ELF_File false true EM_X86_64 [exe_section].

Definition exe_state : Dwf (list Z) :=
  Build_Dwf (Build_Cfi (Build_Dio None false 0 0 [] 0 0) (start_rules exe_file None None false 0 0 0) no_registers no_registers [] 0)
    [] [] [] 0 0 [Build_FrameInfoIndex exe_file false exe_section false None].

Definition exe_start : row := set_rule_of 16 (Offset (1 * -8)) (set_cfa_of (CfaOffset 7 8) (start_row EM_X86_64 16)).
Definition exe_row (n offs : Z) : row := set_cfa_of (CfaOffset n offs) (set_rule_of 6 (Offset (2 * -8)) (set_cfa_of (CfaOffset 7 16) exe_start)).

Definition exe_lines : list line :=
  [{| ln_start := 4096; ln_end := 4097; ln_row := exe_start |};
   {| ln_start := 4097; ln_end := 4100; ln_row := set_rule_of 6 (Offset (2 * -8)) (set_cfa_of (CfaOffset 7 16) exe_start) |};
   {| ln_start := 4100; ln_end := 4120; ln_row := exe_row 6 16 |};
   {| ln_start := 4120; ln_end := 4128; ln_row := set_cfa_of (CfaOffset 7 8) (exe_row 6 16) |}].

Lemma exe_table : fde_table EM_X86_64 plt_cie exe_fde 4096 = Some exe_lines.
Proof. reflexivity. Qed.

Lemma exe_supported : lines_supported exe_file REGNUM_EH_FRAME exe_lines.
Proof.
  intros ln Hln. apply list_elem_of_In in Hln. split.
  - destruct Hln as [<-|[<-|[<-|[<-|[]]]]]; [by exists (plt_reg 7)|by exists (plt_reg 7)|by exists (plt_reg 6)|by exists (plt_reg 7)].
  - intros n _. destruct Hln as [<-|[<-|[<-|[<-|[]]]]]; cbn [ln_row exe_row exe_start set_cfa_of set_rule_of row_rule start_row];
      repeat (destruct (n =? _); [done|]); apply implied_supported.
Qed.

Lemma exe_fdes pos cpos c f : (pos, EFde cpos c f) ∈ placed false 8 true 0 exe_entries -> fde_good exe_file exe_section None pos c f.
Proof.
  intros Hin. apply list_elem_of_In in Hin. destruct Hin as [E|[E|[E|[E|[]]]]]; try discriminate E; injection E as <- <- <- <-.
  - constructor; [by vm_compute..|]. exists plt_lines. split; [exact plt_table|exact plt_supported].
  - constructor; [by vm_compute..|]. exists exe_lines. split; [exact exe_table|exact exe_supported].
Qed.

Lemma exe_good : section_good exe_file exe_section None exe_entries.
Proof.
  constructor; [by constructor| |exact exe_fdes| |done].
  - repeat (apply Forall_cons; split); try done; cbn [entry_ok snd fst].
    + split_and!; [by left|by vm_compute|by vm_compute].
    + split_and!; [by left|by vm_compute|by vm_compute].
  - assert (HR : Forall range_ok (ranges_of exe_section None (placed false 8 true 0 exe_entries))).
    { apply Forall_cons; split; [|apply Forall_cons; split; [|done]]; (constructor; [by vm_compute|split; by vm_compute|by vm_compute]). }
    apply Forall_cons in HR as [HR1 [HR2 _]%Forall_cons]. apply disjoint_cons. split_and!; [exact HR1| |].
    + intros y Hy%list_elem_of_singleton. subst y. right. right. by vm_compute.
    + apply disjoint_cons. split_and!; [exact HR2|intros y Hy; by apply elem_of_nil in Hy|]. by split; [constructor|].
Qed.

End Exe.
